(* ===== verification/_CoqProject ===== *)
-Q . S2P
Prelude.v
BitString.v
Rlp.v
RlpProofs.v
RlpSession.v
RlpSessionProofs.v
RlpLink.v
Rlp2Frames.v
Rlp2Proofs.v
Rlp2Session.v
Rlp3Frames.v
Rlp3Proofs.v
Rlp3Session.v
Rlp3SessionProofs.v
Rlp3Link.v
Framing.v
FramingProofs.v
IpcpConfig.v
IpAllocator.v
IpAllocatorProofs.v
Vj.v
VjHeader.v
VjProofs.v
VjLink.v
ControlPacket.v
Lcp.v
LcpProofs.v
Ipcp.v
IpcpProofs.v
Text.v
Tia617.v
AtCommand.v
ModemIwf.v
IpChecksum.v
ModemEndpoint.v
ModemProofs.v
EndpointProofs.v
AsyncNas.v
MobileIp.v
MobileIpProofs.v
EngineParts.v
RlpBackend.v
CrcBits.v
Rlp3Backend.v
BackendProofs.v
Engine.v
EngineLogic.v
EngineInv.v
EngineProofs.v
EngineLink.v
Octets.v
A8Bearer.v
A8Proofs.v
A10.v
A11Codec.v
A11CodecProofs.v
A11Messages.v
A11Auth.v
A11Procedure.v
A11ProcedureProofs.v
A9Codec.v
A9Elements.v
A9Typed.v
A9CodecProofs.v
A9Messages.v
A9Session.v
A9Mirror.v
A9SessionProofs.v
A9Transport.v
NodeTimers.v
PcfSession.v
PdsnSession.v
PcfRelay.v
LongCode.v
LongCodeProofs.v
PowerCadence.v
ChannelCoding.v
Viterbi.v
ViterbiProofs.v
