(* ===== verification/Prelude.v ===== *)
(** * The packet-data plane of 1xBTS

    1xBTS is a CDMA2000 base station, core network and packet core in Rust.  This development
    is about its packet-data plane: [src/crates/cdma-packet] and the modem emulation
    [src/crates/cdma-modem], what lies between the air interface (or the A8/A10 bearer) and IP;
    and the A-interfaces that carry and control it between access network, PCF and PDSN,
    [src/crates/cdma-a8], [cdma-a9], [cdma-a10] and [cdma-a11], with the session managers of
    [cdma-pcf] and [cdma-pdsn] above them.  From the air interface below it, it takes the parts
    that are integer computations: the long code and its privacy ([cdma-common/src/phy]), the
    cadence of power control, and the channel coding of [cdma-bts/src/lib/phy/coding].

    ** The program

    A [PacketSession] ([engine.rs]) serves one mobile.  Its bearer is one of the link
    protocols behind [trait RlpBackend]: RLP type 1 ([rlp.rs], [rlp_session.rs]), RLP type 2
    ([rlp2_frames.rs], [rlp2_session.rs]), RLP type 3 ([rlp3_frames.rs], [rlp3_session.rs]; with
    the forward supplemental channel, [cdma-common/src/sch.rs] and [crc.rs]), the A8/A10 byte
    stream or the HRPD default packet application.  The octets the bearer hands up go through the HDLC deframer
    ([ppp/framing.rs]) to LCP ([ppp/lcp.rs]), IPCP ([ppp/ipcp.rs]), Van Jacobson
    decompression ([ppp/vj.rs]) and the IP path; packets for the mobile go the other way.  The
    addresses come from the allocator ([ip_allocator.rs]).  A session with Mobile IP runs
    the agents of [mobile_ip.rs] above IPCP.  An async data call (service option 12) has a
    TCP connection on port 380 ([modem_endpoint.rs]) to an emulated modem ([cdma-modem]:
    [tia617.rs], [at.rs], [result.rs], [modem.rs], [server.rs]), and behind the modem a second PPP
    peer ([async_nas.rs]).

    The octets of a session travel in GRE packets.  A [BearerTable] of [cdma-a8] holds the sessions
    of one side, their GRE keys, sequence numbers and endpoints, hands a session over to a new
    endpoint and counts what arrives; [cdma-a10] is the same table restricted to IPv4 endpoints.
    PCF and PDSN set sessions up, refresh, update and tear them down with the authenticated
    messages of [cdma-a11] ([lib.rs]), which each side checks against its table of procedures
    ([procedure.rs]).

    BSC and PCF set the A8 side up with the messages of [cdma-a9]: lists of information elements
    ([lib.rs]), typed messages ([typed.rs]) in a datagram ([transport.rs]), and a [ProcedureEngine]
    on either side ([session.rs]) that tracks calls by connection reference, traffic identifier,
    call reference and correlation.  The PCF ([cdma-pcf]) owns such an engine, sessions with their
    timers and a queue toward the PDSN ([session.rs]), and a task that relays user data between
    A8 and A10 ([bearer_relay.rs]); the PDSN ([cdma-pdsn]) has the other end of A11, a pool of
    addresses and sessions with timers ([session.rs]).

    Every CDMA channel is scrambled with the long code, a 42-stage register seen through a mask
    ([phy/long_code.rs]); a call with voice privacy switches its mask at an agreed time
    ([long_code_privacy.rs]).  The same code draws which power control groups a mobile transmits
    at a low rate ([data_burst_randomizer.rs]), which the base station has to know to send power
    control bits for them ([rc12_power_control.rs]).  What a channel carries is encoded
    ([convolutional.rs]), repeated ([symbol_repeat.rs]) and interleaved
    ([block_interleaver.rs]), and decoded by a Viterbi decoder; the sync channel ([channels/fsch.rs]) is the simplest such chain.

    ** Conventions

    A [w]-bit integer is a [Z] ([is_u w]); wrap-around is written out ([wrap], [wrapping_add],
    [as_u8], ...) as in the release profile, which does not trap on overflow.  An octet string is a
    [list Z] ([bytes]), a bit vector a [list Z] with one bit per element.  [rust A] is [option
    A] with [None] for a panic: indexing and slicing ([index], [slice], [set_index]) panic
    out of range as in Rust.  [result E A] is Rust's [Result].  A session is a record, a
    method a function from the session to the session and its result; the methods of
    [PacketSession] run in a monad over the session, the emitted actions and the state the
    process shares.  Log messages, telemetry strings and the capture file are left out.

    ** Files and sources

    - [Prelude], [BitString], [Text], [IpChecksum]: integers, octets, bit fields and the
      CRC-16 shared by RLP and PPP, Rust strings, the three checksum routines.
    - [Rlp] ([rlp.rs]), [RlpProofs]; [RlpSession] ([rlp_session.rs]), [RlpSessionProofs];
      [RlpLink]: two sessions and the channel between them.
    - [Rlp2Frames] ([rlp2_frames.rs]), [Rlp2Proofs]; [Rlp2Session] ([rlp2_session.rs]).
    - [Rlp3Frames] ([rlp3_frames.rs]), [Rlp3Proofs]; [Rlp3Session] ([rlp3_session.rs]),
      [Rlp3SessionProofs] (the invariant, what the transmitter can panic on), [Rlp3Link] (the
      receiver against an abstract receiver on unbounded frame numbers).
    - [CrcBits] ([cdma-common/src/crc.rs]): the seven CRCs of the air interface, as one register.
    - [Framing] ([ppp/framing.rs]), [FramingProofs].
    - [IpcpConfig] (the configuration records), [IpAllocator] ([ip_allocator.rs]; the interface
      of [trait IpAllocator] is a class), [IpAllocatorProofs].
    - [Vj] ([ppp/vj.rs]); [VjHeader] (headers as records of fields), [VjProofs] (the encoding of
      one packet), [VjLink] (compressor and decompressor together).
    - [ControlPacket], [Lcp], [LcpProofs], [Ipcp], [IpcpProofs] ([ppp/lcp.rs], [ppp/ipcp.rs]).
    - [Tia617], [AtCommand], [ModemIwf] (modem and server), [ModemProofs] ([cdma-modem]);
      [ModemEndpoint], [EndpointProofs] ([modem_endpoint.rs]); [AsyncNas] ([async_nas.rs]).
    - [MobileIp], [MobileIpProofs] ([mobile_ip.rs]).
    - [RlpBackend] (the trait as the class [RlpBackend], four of its instances, and the
      interfaces the session's theorems are proved against: [SteadyBackend], which every
      bearer keeps, [TotalBackend], for those that do not panic, and [OctetBearer]),
      [BackendProofs] (the instances of the interfaces); [Rlp3Backend] (the type 3 bearer and
      the multiplex sublayer of the supplemental channel, with its proofs).
    - [Engine] ([PacketSession] of [engine.rs]); [EngineLogic] (weakest preconditions for its
      monad), [EngineParts] (what the invariant needs of the components), [EngineInv] (the
      invariant, one lemma per operation), [EngineProofs] (every life of a session),
      [EngineLink] (two sessions back to back; the panic of a session of service option 33).
    - [Octets]: big-endian fields and the sequencing of fallible steps in the A-interface codecs.
    - [A8Bearer] ([cdma-a8/src/lib.rs]: GRE and the bearer table), [A8Proofs]; [A10]
      ([cdma-a10/src/lib.rs], with its refinement of the A8 table).
    - [A11Codec] ([cdma-a11/src/lib.rs]: messages and extensions), [A11CodecProofs] (extensions),
      [A11Messages] (messages), [A11Auth] (signing and verification, with its proofs);
      [A11Procedure] ([cdma-a11/src/procedure.rs]), [A11ProcedureProofs].
    - [A9Codec] ([cdma-a9/src/lib.rs]), [A9Elements] and [A9Typed] ([typed.rs]: elements and
      messages), [A9CodecProofs] (elements, the raw codec, and that what an encoder makes is
      valid), [A9Messages] (every message); [A9Session] ([session.rs]), [A9Mirror] (the two ends),
      [A9SessionProofs] (one end); [A9Transport] ([transport.rs]) and the path of a message.
    - [NodeTimers] (clock readings and timer passes of both nodes); [PcfSession]
      ([cdma-pcf/src/session.rs], [a9_agent.rs]), [PdsnSession]
      ([cdma-pdsn/src/session.rs], [a11_agent.rs]), [PcfRelay]
      ([cdma-pcf/src/bearer_relay.rs]), each with its proofs.
    - [LongCode] ([long_code.rs], [long_code_privacy.rs], [lc_state_at] of
      [cdma-ms/src/lib/tx/modulation.rs]), [LongCodeProofs]; [PowerCadence]
      ([data_burst_randomizer.rs], [rc12_power_control.rs]); [ChannelCoding] (the coding layers and
      the sync channel; an interleaver is an instance of the class [Permutes]);
      [Viterbi] (the hard-decision decoders of [convolutional.rs], and their survivors),
      [ViterbiProofs].

    ** What is shown

    - Link layer: a frame that can be encoded decodes to itself; the RLP type 1 link refines a
      reliable byte stream over a channel that erases, repeats and reorders; NAKs and
      retransmissions name exactly the missing frames; the handshakes of both link types
      converge; the type 1 bearer never panics.  RLP type 3: which frames survive the codec,
      whose decoders are total; receiving is total and keeps the invariant; the receiver refines a
      reliable stream that reports what it abandons; exactly when the transmitter panics, and
      frames of a mobile that make it; the supplemental frames have the size of their profile
      and valid CRCs, and the CRCs detect every burst of their width.
    - PPP: framing and deframing are inverse for any cut of the stream and recover after
      noise; the frame check finds every burst of 16 bits; compression is lossless and never
      panics; control packets round-trip; LCP and IPCP open only what both sides
      acknowledged, converge, and give up in time; the mobile is acknowledged only the address
      it was assigned, or none.
    - Addresses: the pool refines a table of leases, behind an interface with laws and concretely; allocation fails exactly when the
      pool is exhausted; the grace period protects a released address.
    - Async data: the TIA-617 codec, the segments of the TCP endpoint and what the endpoint
      hands up; where the modem is not transparent and where the endpoint panics.
    - Mobile IP: with MN-HA authentication, registrations are authentic and fresh; packets and
      checksums are right.
    - The session: its invariant for every bearer, that it never panics over the bearers that do not, the source address check, resumption,
      the synchronization timeout, and that what one session sends another delivers.

    - The A-interfaces: the GRE codec is a bijection; the bearer table keeps its invariant through
      any operations and octets, accepts a packet only for the owner of its key, and what one table
      sends the paired table delivers, exactly and in order; the A10 table refines the A8 table.
      The A11 codec round-trips both ways and its decoder is total; a message is accepted exactly
      when it carries the keyed digest of what precedes it, and signed messages are accepted; the
      events of the procedure table are runs of the protocol of a registered session, and leases
      end in time.
    - A9: every message round-trips, can be sent when its values are in range, and is well typed when
      received; the engines of BSC and PCF stay mirror images of each other; an engine's
      indexes and phases are exact, a call leaves no trace, and how a replaced reference outlives
      its call.
    - The nodes: the life cycle of a PCF session and its queue; timers fire at their deadline, not
      before, and polling at the deadline never spins; the PDSN never gives an address twice;
      a refreshed registration does not renew the PDSN's session; the relay never panics, and
      data crosses access network, PCF and PDSN in both directions, each route exactly and in order.

    - The air interface: the long code has maximal length, jumps are steps, no two channels share a
      phase, and a privacy switch takes effect at its action time in every generator; the sets of
      the randomizer are nested and every guaranteed group has exactly one power control bit;
      the Viterbi decoders are maximum likelihood, in a block and in a stream without end, and
      correct as many errors as the distance of the codes allows;
      interleavers are permutations and their inverses; what a repeater and the sync channel
      send, and when they do not send what they should.

    Some theorems state behaviour that departs from a comment or a standard; the notes on
    them say which.

    ** Bounds and fuel

    Recursion that is not structural has fuel that is shown or seen to be enough: a round of the
    deframer shortens its buffer ([feed_loop]: fuel is the length, [deframe_eq]); options and
    extensions take at least an octet each (fuel is the length); the resequencer delivers at
    most 256 frames in a row (fuel 257) and a NAK names at most 256 (fuel 256), the size of
    the sequence space; for type 3 these are 4096 and 4097; the magic number is found in two draws ([session_magic_total]); a
    challenge in three ([rotate_total], for a window of two); folding a 32-bit sum to 16 bits
    takes two turns; an A9 element takes at least two octets (fuel is the length); a jump of
    the long code has 64 binary digits; a turn of the sync channel adds a symbol (fuel is the block).  Counters that only tests or logs read, and the erasure counter, are
    unbounded.

    ** Parameters

    MD5 and the UUID generator (crates [md5] and [uuid]) are arguments; the theorems that need
    it assume that UUIDs do not repeat, or that a digest has sixteen octets.  [Instant::now()], the process's magic-number seed and
    sequence number are arguments; a call of a node's session manager
    that reads the clock several times takes its readings from a [Clock], which the theorems on
    timers take to be monotonic.  The order of a Rust [HashMap] is an argument where it shows.

    ** Not modelled

    The asynchronous tasks around a session ([session_task.rs],
    [hrpd_session_task.rs]), transports, TUN and gRPC (I/O).  The services of the PCF and the PDSN
    around their managers ([hrpd_a9_service.rs], [a11_service.rs], [a10_runtime.rs]: sockets,
    configuration, logging).  Of the
    air interface: modulation, filters, receivers and radio drivers (signal processing in
    floating point), the soft-decision Viterbi decoder and the traffic, paging and access channels around the
    coding layers.  Call control, the message codecs of [cdma-common] and [cdma-ios], the other
    A-interfaces, the sockets and transport configuration of A8 to A11, the mobile simulator,
    SIP and vocoders. *)
From stdpp Require Export base list numbers option gmap strings.
From Stdlib Require Export ZArith Lia.

#[global] Open Scope Z_scope.
#[export] Set Warnings "-clear-no-such-hyp".

(** ** Machine integers.

    A [w]-bit unsigned integer is a [Z] in [0, 2^w); the wrap-around of
    Rust's [wrapping_*] operations and of [as] casts is written out. *)
Declare Scope rust_scope.
Delimit Scope rust_scope with rust.

Definition is_u (w z : Z) : Prop := 0 ≤ z < 2 ^ w.
Abbreviation is_u8 := (is_u 8).
Abbreviation is_u16 := (is_u 16).
Abbreviation is_u32 := (is_u 32).

Definition wrap (w z : Z) : Z := z mod 2 ^ w.
Notation "z 'as_u8'" := (wrap 8 z) (at level 1, format "z  'as_u8'") : rust_scope.
Notation "z 'as_u16'" := (wrap 16 z) (at level 1, format "z  'as_u16'") : rust_scope.
Notation "z 'as_u32'" := (wrap 32 z) (at level 1, format "z  'as_u32'") : rust_scope.
#[global] Open Scope rust_scope.

Definition wrapping_add (w a b : Z) : Z := wrap w (a + b).
Definition wrapping_sub (w a b : Z) : Z := wrap w (a - b).
(** [!x] on a [w]-bit unsigned integer. *)
Definition bit_not (w x : Z) : Z := Z.lxor x (Z.ones w).

(** A byte string ([Vec<u8>] or [&[u8]]). *)
Definition bytes (l : list Z) : Prop := Forall is_u8 l.
(** A bit string: a [Vec<u8>] whose elements are 0 or 1. *)
Definition bitstring (l : list Z) : Prop := Forall (is_u 1) l.

(** ** Results and panics.

    [Result<A, E>] is [result E A].  A computation that may panic (slice or
    array index out of range) is an [option]: [None] is the panic. *)
Inductive result (E A : Type) : Type :=
| Ok (a : A)
| Err (e : E).
Arguments Ok {E A} _.
Arguments Err {E A} _.

Abbreviation rust A := (option A) (only parsing).
Notation "'panic!'" := None (only parsing) : rust_scope.

(** [v[i]] and [v[i] = x] on a slice, and the sub-slice [v[a..b]]. *)
Definition index {A} (v : list A) (i : nat) : rust A := v !! i.
Definition set_index {A} (v : list A) (i : nat) (x : A) : rust (list A) :=
  if decide (i < length v)%nat then Some (<[i := x]> v) else panic!.
Definition slice {A} (v : list A) (a b : nat) : rust (list A) :=
  if decide (a ≤ b ∧ b ≤ length v)%nat then Some (take (b - a) (drop a v)) else panic!.

(** Big-endian conversions of the standard library. *)
Definition from_be16 (hi lo : Z) : Z := hi * 256 + lo.
Definition to_be16 (v : Z) : list Z := [v / 256; v mod 256].
Definition from_be32 (a b c d : Z) : Z := ((a * 256 + b) * 256 + c) * 256 + d.
Definition to_be32 (v : Z) : list Z :=
  [v / 16777216; v / 65536 mod 256; v / 256 mod 256; v mod 256].

(** ** Arithmetic and bit lemmas shared by the components *)
Create HintDb rust.
Ltac zdiv := Z.div_mod_to_equations; lia.

Lemma is_u_wrap w z : 0 ≤ w → is_u w (wrap w z).
Proof. intros. apply Z.mod_pos_bound. lia. Qed.

Lemma wrap_small w z : is_u w z → wrap w z = z.
Proof. apply Z.mod_small. Qed.

Lemma is_u_lt_pow w z n : 0 ≤ w → is_u w z → w ≤ n → Z.testbit z n = false.
Proof.
  intros ? [??] ?. destruct (decide (z = 0)) as [->|]; [apply Z.bits_0|].
  apply Z.bits_above_log2; [lia|]. apply Z.log2_lt_pow2; [lia|].
  eapply Z.lt_le_trans; [done|]. apply Z.pow_le_mono_r; lia.
Qed.

Lemma is_u_bits w z : 0 ≤ w → 0 ≤ z → (∀ n, w ≤ n → Z.testbit z n = false) → is_u w z.
Proof.
  intros Hw Hz H. split; [done|].
  assert (z = z mod 2 ^ w) as ->; [|apply Z.mod_pos_bound; lia].
  apply Z.bits_inj'. intros n Hn. destruct (decide (w ≤ n)).
  - rewrite H by done. symmetry. apply Z.mod_pow2_bits_high. lia.
  - symmetry. apply Z.mod_pow2_bits_low. lia.
Qed.

Lemma is_u_lxor w a b : 0 ≤ w → is_u w a → is_u w b → is_u w (Z.lxor a b).
Proof.
  intros Hw Ha Hb. apply is_u_bits; [done| |].
  - apply Z.lxor_nonneg. destruct Ha, Hb; lia.
  - intros n Hn. by rewrite Z.lxor_spec, (is_u_lt_pow w a), (is_u_lt_pow w b).
Qed.

Lemma is_u_land w a b : 0 ≤ w → is_u w a → 0 ≤ b → is_u w (Z.land a b).
Proof.
  intros Hw Ha Hb. apply is_u_bits; [done| |].
  - apply Z.land_nonneg. destruct Ha; lia.
  - intros n Hn. by rewrite Z.land_spec, (is_u_lt_pow w a).
Qed.

Lemma is_u_lor w a b : 0 ≤ w → is_u w a → is_u w b → is_u w (Z.lor a b).
Proof.
  intros Hw Ha Hb. apply is_u_bits; [done| |].
  - apply Z.lor_nonneg. destruct Ha, Hb; lia.
  - intros n Hn. by rewrite Z.lor_spec, (is_u_lt_pow w a), (is_u_lt_pow w b).
Qed.

Lemma is_u_shiftr w a n : 0 ≤ n → is_u w a → is_u w (Z.shiftr a n).
Proof.
  intros Hn [??]. rewrite Z.shiftr_div_pow2 by done. split.
  - apply Z.div_pos; [done|]. lia.
  - eapply Z.le_lt_trans; [|done]. apply Z.div_le_upper_bound; [lia|]. nia.
Qed.

Lemma is_u_mono w w' z : w ≤ w' → is_u w z → is_u w' z.
Proof.
  intros ? [??]. split; [done|]. eapply Z.lt_le_trans; [done|].
  destruct (decide (0 ≤ w)); [apply Z.pow_le_mono_r; lia|].
  rewrite Z.pow_neg_r by lia. lia.
Qed.

Lemma is_u_bit_not w z : 0 ≤ w → is_u w z → is_u w (bit_not w z).
Proof.
  intros. apply is_u_lxor; [done..|]. rewrite Z.ones_equiv. unfold is_u. lia.
Qed.

Lemma land_mask z n : 0 ≤ n → Z.land z (Z.ones n) = z mod 2 ^ n.
Proof. apply Z.land_ones. Qed.

Lemma land_255 z : Z.land z 255 = z mod 256.
Proof. apply (Z.land_ones z 8). lia. Qed.

Lemma land_1 z : Z.land z 1 = z mod 2.
Proof. apply (Z.land_ones z 1). lia. Qed.

Lemma shiftr_8 z : Z.shiftr z 8 = z / 256.
Proof. apply (Z.shiftr_div_pow2 z 8). lia. Qed.

(** Disjoint [|] is addition: the composition of a value from its parts. *)
Lemma lor_shiftl_add hi lo n :
  0 ≤ n → is_u n lo → Z.lor (Z.shiftl hi n) lo = hi * 2 ^ n + lo.
Proof.
  intros Hn Hlo. rewrite <- Z.shiftl_mul_pow2 by done. symmetry.
  assert (Z.land (Z.shiftl hi n) lo = 0) as H0.
  { apply Z.bits_inj'. intros i Hi. rewrite Z.land_spec, Z.bits_0.
    destruct (decide (n ≤ i)).
    - rewrite (is_u_lt_pow n lo) by done. apply andb_false_r.
    - rewrite Z.shiftl_spec_low by lia. done. }
  rewrite Z.add_nocarry_lxor by done. symmetry.
  by rewrite <- Z.lxor_lor.
Qed.

Lemma split_u16 v : is_u16 v → from_be16 (v / 256) (v mod 256) = v.
Proof. unfold from_be16. intros. zdiv. Qed.

Lemma from_be32_to_be32 v a b c d :
  to_be32 v = [a; b; c; d] → from_be32 a b c d = v.
Proof. unfold to_be32, from_be32. intros [= <- <- <- <-]. zdiv. Qed.

Lemma bytes_to_be16 v : is_u16 v → bytes (to_be16 v).
Proof. intros [??]. unfold to_be16, bytes. repeat constructor; zdiv. Qed.

Lemma bytes_to_be32 v : is_u32 v → bytes (to_be32 v).
Proof. intros [??]. unfold to_be32, bytes. repeat constructor; zdiv. Qed.

Lemma from_be16_u16 a b : is_u8 a → is_u8 b → is_u16 (from_be16 a b).
Proof. unfold from_be16, is_u. lia. Qed.

Lemma to_be16_from_be16 a b : is_u8 a → is_u8 b → to_be16 (from_be16 a b) = [a; b].
Proof. unfold from_be16, to_be16, is_u. intros. repeat f_equal; zdiv. Qed.

Lemma to_be32_from_be32 a b c d :
  is_u8 a → is_u8 b → is_u8 c → is_u8 d → to_be32 (from_be32 a b c d) = [a; b; c; d].
Proof. unfold from_be32, to_be32, is_u. intros. repeat f_equal; zdiv. Qed.

#[export] Hint Resolve is_u_wrap is_u_lxor is_u_land is_u_lor is_u_shiftr is_u_bit_not
  bytes_to_be16 bytes_to_be32 from_be16_u16 : rust.

(** Exhaustive checking over the octets, evaluated. *)
Definition all_u8 (P : Z → bool) : bool := forallb P (seqZ 0 256).

Lemma all_u8_spec P z : all_u8 P = true → is_u8 z → P z = true.
Proof.
  intros H [??]. apply (proj1 (forallb_forall _ _) H).
  apply list_elem_of_In, elem_of_seqZ. lia.
Qed.

(** ** Lists, slices and panicking accesses *)
Lemma Some_Ok_inj {E A} (a b : A) : Some (Ok (E := E) a) = Some (Ok b) → a = b.
Proof. congruence. Qed.

Lemma bind_some {A B} (x : A) (f : A → option B) : (Some x ≫= f) = f x.
Proof. done. Qed.

Lemma set_index_Some {A} (v : list A) i x :
  (i < length v)%nat → set_index v i x = Some (<[i := x]> v).
Proof. intros. unfold set_index. by rewrite decide_True. Qed.

Lemma slice_Some {A} (v : list A) a b :
  (a ≤ b)%nat → (b ≤ length v)%nat → slice v a b = Some (take (b - a) (drop a v)).
Proof. intros. unfold slice. by rewrite decide_True. Qed.

Lemma slice_app {A} (p m s : list A) a b :
  a = length p → b = (a + length m)%nat → slice (p ++ m ++ s) a b = Some m.
Proof.
  intros -> ->. rewrite slice_Some by (rewrite ?length_app; lia).
  rewrite drop_app_length. replace (_ - _)%nat with (length m) by lia.
  by rewrite take_app_length.
Qed.

Lemma slice_full {A} (v : list A) : slice v 0 (length v) = Some v.
Proof. rewrite slice_Some by lia. by rewrite drop_0, Nat.sub_0_r, take_ge. Qed.

Lemma bytes_app l k : bytes (l ++ k) ↔ bytes l ∧ bytes k.
Proof. apply Forall_app. Qed.

(** The octet check, evaluated. *)
Definition bytesb (l : list Z) : bool := forallb (λ x, (0 <=? x) && (x <? 256)) l.
Lemma bytesb_bytes l : bytesb l = true → bytes l.
Proof.
  unfold bytesb, bytes. rewrite forallb_forall, Forall_forall. intros H x Hx.
  specialize (H x). rewrite <- list_elem_of_In in H. specialize (H Hx). unfold is_u. lia.
Qed.

Lemma bytes_lookup l i x : bytes l → l !! i = Some x → is_u8 x.
Proof. intros H Hi. by apply (Forall_lookup_1 _ _ _ _ H Hi). Qed.

Lemma filter_ext_in {A} (P Q : A → Prop) `{!∀ x, Decision (P x), !∀ x, Decision (Q x)} (l : list A) :
  (∀ x, x ∈ l → P x ↔ Q x) → filter P l = filter Q l.
Proof.
  induction l as [|x l IH]; intros HPQ; [done|]. rewrite !filter_cons.
  rewrite IH by (intros y Hy; apply HPQ; by right). assert (P x ↔ Q x) as E by (apply HPQ; by left).
  repeat case_decide; tauto.
Qed.

(** [slice::chunks(n)] *)
Fixpoint chunks_fuel {A} (fuel n : nat) (l : list A) : list (list A) :=
  match fuel, l with
  | S fuel, _ :: _ => take n l :: chunks_fuel fuel n (drop n l)
  | _, _ => []
  end.
Definition chunks {A} (n : nat) (l : list A) : list (list A) := chunks_fuel (length l) n l.

Lemma chunks_fuel_enough {A} n fuel (l : list A) :
  (0 < n)%nat → (length l ≤ fuel)%nat → chunks_fuel fuel n l = chunks_fuel (length l) n l.
Proof.
  intros Hn. revert l. induction fuel as [fuel IH] using lt_wf_ind. intros [|x l] Hl; [by destruct fuel|].
  destruct fuel as [|fuel]; [cbn in Hl; lia|]. cbn [chunks_fuel length]. f_equal. cbn in Hl.
  assert (length (drop n (x :: l)) ≤ length l)%nat by (rewrite length_drop; cbn; lia).
  rewrite (IH fuel), (IH (length l)) by lia. done.
Qed.

Lemma chunks_cons {A} n (l : list A) :
  (0 < n)%nat → l ≠ [] → chunks n l = take n l :: chunks n (drop n l).
Proof.
  intros Hn Hl. unfold chunks. destruct l as [|x l]; [done|]. cbn [chunks_fuel length]. f_equal.
  apply chunks_fuel_enough; [done|]. rewrite length_drop. cbn. lia.
Qed.

Lemma mjoin_cons {A} (x : list A) (l : list (list A)) : mjoin (x :: l) = x ++ mjoin l.
Proof. done. Qed.

Lemma mjoin_chunks {A} n (l : list A) : (0 < n)%nat → mjoin (chunks n l) = l.
Proof.
  intros Hn. induction l as [l IH] using (induction_ltof1 _ length). unfold ltof in IH.
  destruct (decide (l = [])) as [->|Hl]; [done|]. rewrite chunks_cons, mjoin_cons by done.
  rewrite IH; [apply take_drop|]. rewrite length_drop. destruct l; cbn; [done|lia].
Qed.

Lemma index_app_l {A} (l k : list A) i : (i < length l)%nat → index (l ++ k) i = index l i.
Proof. intros. unfold index. by rewrite lookup_app_l. Qed.
