(* ===== verification/BitString.v ===== *)
(** * Bit strings: fields written and read most-significant-bit first

    The frame codecs ([rlp.rs], [rlp2_frames.rs]) work on vectors that hold one
    bit per element.  [to_bits] and [of_bits] are the pure counterparts of the
    writing and reading loops; the lemmas say what those loops, which index
    the vector element by element, compute. *)
From S2P Require Import Prelude.

Definition to_bits (n : nat) (v : Z) : list Z :=
  (λ i : nat, Z.land (Z.shiftr v (Z.of_nat (n - 1 - i))) 1) <$> seq 0 n.

Arguments to_bits : simpl never.

Definition push_bit (val b : Z) : Z := Z.lor (wrap 32 (Z.shiftl val 1)) (Z.land b 1).
Definition of_bits (l : list Z) : Z := foldl push_bit 0 l.

(** A field of consecutive octets. *)
Definition octet_bits (data : list Z) : list Z := mjoin (to_bits 8 <$> data).

(** ** The writing loop *)
Lemma write_seq (f : nat → Z) (off : nat) (old : list Z) :
  ∀ (pre suf : list Z) (k : nat), (off + k = length pre)%nat →
  foldl (λ acc i, bs ← acc; set_index bs (off + i) (f i))
    (Some (pre ++ old ++ suf)) (seq k (length old))
  = Some (pre ++ (f <$> seq k (length old)) ++ suf).
Proof.
  induction old as [|x old IH]; intros pre suf k Hk; [done|]. cbn.
  rewrite set_index_Some by (rewrite length_app; cbn; lia).
  rewrite Hk, insert_app_r_alt, Nat.sub_diag by lia. cbn.
  rewrite (cons_middle (f k)), (app_assoc pre).
  rewrite IH by (rewrite length_app; cbn; lia).
  by rewrite <- (app_assoc pre).
Qed.

(** ** The reading loop *)
Lemma read_seq (off : nat) (m : list Z) :
  ∀ (pre suf : list Z) (k : nat) (v : Z), (off + k = length pre)%nat →
  foldl (λ acc i, val ← acc; b ← index (pre ++ m ++ suf) (off + i); Some (push_bit val b))
    (Some v) (seq k (length m))
  = Some (foldl push_bit v m).
Proof.
  induction m as [|x m IH]; intros pre suf k v Hk; [done|]. cbn.
  assert (index (pre ++ x :: m ++ suf) (off + k) = Some x) as ->.
  { unfold index. by rewrite Hk, lookup_app_r, Nat.sub_diag by lia. }
  cbn.
  replace (pre ++ x :: m ++ suf) with ((pre ++ [x]) ++ m ++ suf) by by rewrite <- app_assoc.
  apply IH. rewrite length_app. cbn. lia.
Qed.

Lemma length_to_bits n v : length (to_bits n v) = n.
Proof. unfold to_bits. by rewrite length_fmap, length_seq. Qed.

Lemma to_bits_S n v : to_bits (S n) v = to_bits n (v / 2) ++ [v mod 2].
Proof.
  unfold to_bits. rewrite seq_S, fmap_app. f_equal.
  - apply list_fmap_ext. intros i x Hx. apply lookup_seq in Hx as [-> ?]. cbn.
    f_equal. replace (Z.of_nat (n - 0 - i)) with (1 + Z.of_nat (n - 1 - i)) by lia.
    rewrite <- Z.shiftr_shiftr by lia. f_equal. by rewrite Z.shiftr_div_pow2.
  - cbn. replace (n - 0 - n)%nat with 0%nat by lia. by rewrite Z.shiftr_0_r, land_1.
Qed.

Lemma of_bits_snoc l b : of_bits (l ++ [b]) = push_bit (of_bits l) b.
Proof. unfold of_bits. by rewrite foldl_app. Qed.

Lemma push_bit_small v b : is_u 31 v → push_bit v b = 2 * v + b mod 2.
Proof.
  intros [??]. unfold push_bit. rewrite Z.shiftl_mul_pow2 by lia.
  rewrite wrap_small by (unfold is_u; lia). rewrite land_1.
  rewrite <- (Z.shiftl_mul_pow2 v 1) by lia.
  rewrite lor_shiftl_add; [lia..|]. unfold is_u. apply Z.mod_pos_bound. lia.
Qed.

Lemma of_to_bits n v : (n ≤ 32)%nat → of_bits (to_bits n v) = v mod 2 ^ Z.of_nat n.
Proof.
  revert v. induction n as [|n IH]; intros v Hn; [by rewrite Z.mod_1_r|].
  rewrite to_bits_S, of_bits_snoc, IH by lia.
  rewrite push_bit_small.
  - rewrite Nat2Z.inj_succ, Z.pow_succ_r by lia.
    rewrite Z.rem_mul_r, Z.mod_mod by (try apply Z.pow_nonzero; lia). lia.
  - apply (is_u_mono (Z.of_nat n)); [lia|]. apply (is_u_wrap (Z.of_nat n)). lia.
Qed.

Lemma bitstring_to_bits n v : bitstring (to_bits n v).
Proof.
  unfold to_bits, bitstring. apply Forall_fmap, Forall_true. intros i. cbn.
  unfold is_u. rewrite land_1. apply Z.mod_pos_bound. lia.
Qed.

Lemma octet_bits_cons x data : octet_bits (x :: data) = to_bits 8 x ++ octet_bits data.
Proof. done. Qed.

Lemma length_octet_bits data : length (octet_bits data) = (8 * length data)%nat.
Proof.
  induction data as [|x data IH]; [done|].
  rewrite octet_bits_cons, length_app, length_to_bits, IH. cbn. lia.
Qed.

Lemma to_bits_inj n a b :
  (n ≤ 32)%nat → is_u (Z.of_nat n) a → is_u (Z.of_nat n) b → to_bits n a = to_bits n b → a = b.
Proof.
  intros Hn Ha Hb H. apply (f_equal of_bits) in H. rewrite !of_to_bits in H by done.
  by rewrite !Z.mod_small in H.
Qed.

(** * The reflected CRC-16 (polynomial 0x8408) of RFC 1662

    One step of the bit loop that [rlp.rs] ([crc16_rlp], [fcs16_rfc1662]) and
    [ppp/framing.rs] (the constant table) share, with its algebra: the step is
    linear for exclusive or, which gives the good-residue theorem. *)
Definition POLY : Z := 0x8408.

(** [if fcs & 1 != 0 { (fcs >> 1) ^ 0x8408 } else { fcs >> 1 }] *)
Definition fcs_bit_step (fcs : Z) : Z :=
  if Z.land fcs 1 =? 0 then Z.shiftr fcs 1 else Z.lxor (Z.shiftr fcs 1) POLY.

(** Eight steps: one octet. *)
Definition fcs_octet_step (fcs : Z) : Z := Nat.iter 8 fcs_bit_step fcs.

Lemma POLY_u16 : is_u16 POLY.
Proof. done. Qed.
#[export] Hint Resolve POLY_u16 : rust.

Lemma fcs_bit_step_u16 z : is_u16 z → is_u16 (fcs_bit_step z).
Proof.
  intros. unfold fcs_bit_step. destruct (_ =? _).
  - by apply is_u_shiftr.
  - apply is_u_lxor; [lia| |apply POLY_u16]. by apply is_u_shiftr.
Qed.

Lemma fcs_octet_step_u16 z : is_u16 z → is_u16 (fcs_octet_step z).
Proof.
  intros. unfold fcs_octet_step. generalize 8%nat as n.
  intros n. induction n; [done|]. rewrite Nat.iter_succ. by apply fcs_bit_step_u16.
Qed.
#[export] Hint Resolve fcs_bit_step_u16 fcs_octet_step_u16 : rust.

(** ** Linearity *)
Lemma land_1_odd z : (Z.land z 1 =? 0) = negb (Z.odd z).
Proof.
  rewrite land_1, Zmod_odd. by destruct (Z.odd z).
Qed.

Lemma fcs_bit_step_lxor a b :
  fcs_bit_step (Z.lxor a b) = Z.lxor (fcs_bit_step a) (fcs_bit_step b).
Proof.
  unfold fcs_bit_step. rewrite !land_1_odd.
  rewrite <- (Z.bit0_odd (Z.lxor a b)), Z.lxor_spec, !Z.bit0_odd.
  rewrite Z.shiftr_lxor.
  destruct (Z.odd a), (Z.odd b); cbn; apply Z.bits_inj'; intros n Hn;
    rewrite !Z.lxor_spec; by repeat destruct (Z.testbit _ _).
Qed.

Lemma fcs_octet_step_lxor a b :
  fcs_octet_step (Z.lxor a b) = Z.lxor (fcs_octet_step a) (fcs_octet_step b).
Proof.
  unfold fcs_octet_step. generalize 8%nat as n. intros n.
  induction n as [|n IH]; [done|]. by rewrite !Nat.iter_succ, IH, fcs_bit_step_lxor.
Qed.

(** A value with its low octet clear is only shifted by the eight steps. *)
Lemma fcs_octet_step_shift h : 0 ≤ h → fcs_octet_step (Z.shiftl h 8) = h.
Proof.
  intros Hh. unfold fcs_octet_step.
  assert (∀ n, (n ≤ 8)%nat →
    Nat.iter n fcs_bit_step (Z.shiftl h 8) = Z.shiftl h (Z.of_nat (8 - n))) as H.
  { induction n as [|n IH]; intros Hn; [done|]. rewrite Nat.iter_succ, IH by lia.
    unfold fcs_bit_step. rewrite land_1_odd.
    replace (Z.of_nat (8 - n)) with (Z.of_nat (8 - S n) + 1) by lia.
    rewrite <- Z.shiftl_shiftl by lia.
    rewrite <- Z.bit0_odd, Z.shiftl_spec_low by lia. cbn.
    rewrite Z.shiftr_shiftl_r by lia. by rewrite Z.sub_diag, Z.shiftr_0_r. }
  rewrite H by lia. by rewrite Z.shiftl_0_r.
Qed.

(** ** Feeding the bits of an octet one by one *)

(** The value of a bit string whose first bit is the least significant. *)
Definition le_value (bs : list Z) : Z := foldr (λ b v, Z.lor b (Z.shiftl v 1)) 0 bs.

Lemma fcs_bit_step_double v : fcs_bit_step (Z.shiftl v 1) = v.
Proof.
  unfold fcs_bit_step. rewrite land_1_odd, <- Z.bit0_odd, Z.shiftl_spec_low by lia. cbn.
  by rewrite Z.shiftr_shiftl_r, Z.sub_diag, Z.shiftr_0_r by lia.
Qed.

Lemma bit_cases b : is_u 1 b → b = 0 ∨ b = 1.
Proof. unfold is_u. lia. Qed.

Lemma lor_bit_double b v : is_u 1 b → Z.lor b (Z.shiftl v 1) = Z.lxor b (Z.shiftl v 1).
Proof.
  intros Hb. symmetry. apply Z.lxor_lor, Z.bits_inj'. intros n Hn. rewrite Z.land_spec, Z.bits_0.
  destruct (decide (n = 0)) as [->|].
  - rewrite Z.shiftl_spec_low by lia. apply andb_false_r.
  - rewrite (is_u_lt_pow 1 b) by (done || lia). done.
Qed.

Lemma fcs_bits_value bs : ∀ c,
  Forall (is_u 1) bs →
  foldl (λ c b, fcs_bit_step (Z.lxor c b)) c bs
  = Nat.iter (length bs) fcs_bit_step (Z.lxor c (le_value bs)).
Proof.
  induction bs as [|b bs IH]; intros c Hb; [by rewrite Z.lxor_0_r|].
  inversion_clear Hb. cbn [foldl length le_value foldr]. rewrite IH by done.
  rewrite Nat.iter_succ_r, lor_bit_double, <- Z.lxor_assoc by done.
  by rewrite (fcs_bit_step_lxor _ (Z.shiftl _ 1)), fcs_bit_step_double.
Qed.
