(* ===== verification/Rlp.v ===== *)
(** * RLP Type 1 frame codec ([cdma-packet/src/lib/rlp.rs])

    Frames are vectors of bits, one element per bit.  The encoder writes
    fields with [put_bits] into a zeroed vector of the frame's size; the
    decoder reads them back with [get_bits].  Both index the vector and panic
    outside it, which the model keeps ([rust A], [None] for the panic). *)
From S2P Require Import Prelude BitString.

(** ** Rates and multiplex options *)
Inductive RlpRate := Full | Half | Quarter | Eighth.
Inductive RlpMuxOption := One | Two.

#[export] Instance RlpRate_eq_dec : EqDecision RlpRate.
Proof. solve_decision. Defined.
#[export] Instance RlpMuxOption_eq_dec : EqDecision RlpMuxOption.
Proof. solve_decision. Defined.

Definition rate_from_bps (mux : RlpMuxOption) (rate_bps : Z) : option RlpRate :=
  match mux with
  | One => if rate_bps =? 9600 then Some Full else if rate_bps =? 4800 then Some Half
           else if rate_bps =? 1200 then Some Eighth else None
  | Two => if rate_bps =? 14400 then Some Full else if rate_bps =? 7200 then Some Half
           else if rate_bps =? 3600 then Some Quarter
           else if rate_bps =? 1800 then Some Eighth else None
  end.

Definition rate_bps (mux : RlpMuxOption) (rate : RlpRate) : Z :=
  match mux, rate with
  | One, Full => 9600 | One, Half => 4800 | One, Quarter => 2400 | One, Eighth => 1200
  | Two, Full => 14400 | Two, Half => 7200 | Two, Quarter => 3600 | Two, Eighth => 1800
  end.

Definition primary_bits (mux : RlpMuxOption) (rate : RlpRate) : nat :=
  match mux, rate with
  | One, Full => 171 | One, Half => 80 | One, Quarter => 40 | One, Eighth => 16
  | Two, Full => 266 | Two, Half => 124 | Two, Quarter => 54 | Two, Eighth => 20
  end.

Definition full_information_bits (mux : RlpMuxOption) : nat :=
  match mux with One => 168 | Two => 264 end.

Definition format_b_octets (mux : RlpMuxOption) : nat :=
  match mux with One => 20 | Two => 32 end.

Definition full_format_a_octets (mux : RlpMuxOption) : nat :=
  match mux with One => 19 | Two => 31 end.

(** ** Frames *)
Inductive ControlType := Nak | Sync | Ack | SyncAck.
#[export] Instance ControlType_eq_dec : EqDecision ControlType.
Proof. solve_decision. Defined.

Definition ctl_bits (ct : ControlType) : Z :=
  match ct with Nak => 0x30 | Sync => 0x34 | Ack => 0x38 | SyncAck => 0x3c end.

Definition from_ctl_bits (ctl : Z) : option ControlType :=
  let c := Z.land ctl 0x3F in
  if c =? 0x30 then Some Nak else if c =? 0x34 then Some Sync
  else if c =? 0x38 then Some Ack else if c =? 0x3c then Some SyncAck else None.

Inductive SegmentType := First | Second | Last | IntersegmentFill.
#[export] Instance SegmentType_eq_dec : EqDecision SegmentType.
Proof. solve_decision. Defined.

Inductive RlpFrame :=
| Control (seq : Z) (control_type : ControlType) (encryption_mode first last : Z)
| Data (seq : Z) (data : list Z)
| DataFormatB (seq : Z) (data : list Z)
| Segmented (seq : Z) (segment_type : SegmentType) (data : list Z)
| Idle (seq : Z).
#[export] Instance RlpFrame_eq_dec : EqDecision RlpFrame.
Proof. solve_decision. Defined.

Inductive RlpEncodeError :=
| DataTooLong (rate : RlpRate) (len max_len : nat)
| FormatBRequiresTwentyOctets (len : nat)
| FormatBRequiresThirtyTwoOctets (len : nat)
| FormatBRequiresFullRate (rate : RlpRate)
| EighthRateDataCarrier
| SegmentedDataRequiresNonZeroLen
| SegmentedDataTooLong (rate : RlpRate) (len max_len : nat).

Definition seq (f : RlpFrame) : Z :=
  match f with
  | Control seq _ _ _ _ => seq
  | Data seq _ => seq
  | DataFormatB seq _ => seq
  | Segmented seq _ _ => seq
  | Idle seq => seq
  end.

Definition is_idle (f : RlpFrame) : bool :=
  match f with
  | Idle _ => true
  | Data _ data => bool_decide (data = [])
  | _ => false
  end.

(** ** Bit fields *)
Definition get_bits (bits : list Z) (offset n : nat) : rust Z :=
  foldl (λ acc i, val ← acc; b ← index bits (offset + i); Some (push_bit val b))
    (Some 0) (List.seq 0 n).

Definition put_bits (bits : list Z) (offset : nat) (val : Z) (n : nat) : rust (list Z) :=
  foldl (λ acc i, bs ← acc;
           set_index bs (offset + i) (Z.land (Z.shiftr val (Z.of_nat (n - 1 - i))) 1))
    (Some bits) (List.seq 0 n).

(** [for (i, byte) in data.iter().enumerate() { put_bits(bits, off + i * 8, *byte, 8) }] *)
Definition put_octets (bits : list Z) (off : nat) (data : list Z) : rust (list Z) :=
  foldl (λ acc p, bs ← acc; put_bits bs (off + p.1 * 8) p.2 8)
    (Some bits) (zip (List.seq 0 (length data)) data).

(** [for i in 0..len { data[i] = get_bits(bits, off + i * 8, 8) as u8 }] *)
Definition get_octets (bits : list Z) (off len : nat) : rust (list Z) :=
  mapM (λ i, v ← get_bits bits (off + i * 8) 8; Some (v as_u8)) (List.seq 0 len).

(** ** Frame check sequences *)
Definition crc16_rlp (bits : list Z) : Z :=
  Z.lxor 0xFFFF
    (foldl (λ crc bit,
       let xor_flag := Z.land (Z.lxor crc (Z.land bit 1)) 1 in
       let crc := Z.shiftr crc 1 in
       if xor_flag =? 0 then crc else Z.lxor crc POLY) 0xFFFF bits).

Definition octet_byte (octet : list Z) : Z :=
  foldl (λ byte p, Z.lor byte (wrap 8 (Z.shiftl (Z.land p.2 1) (7 - Z.of_nat p.1))))
    0 (zip (List.seq 0 (length octet)) octet).

Definition fcs16_rfc1662 (bits : list Z) : Z :=
  bit_not 16
    (foldl (λ fcs octet, fcs_octet_step (Z.lxor fcs (octet_byte octet))) 0xFFFF
       (chunks 8 bits)).

Definition NORDSTROM_ROBINSON_TABLE : list Z :=
  [0x0007; 0x20f3; 0x40ee; 0x6034; 0x8078; 0xa08c; 0xc091; 0xe04b; 0x01d4; 0x2119; 0x4161; 0x6182;
   0x81ab; 0xa166; 0xc11e; 0xe1fd; 0x02a0; 0x226d; 0x423b; 0x62d8; 0x82df; 0xa212; 0xc244; 0xe2a7;
   0x034a; 0x23be; 0x438d; 0x6357; 0x8335; 0xa3c1; 0xc3f2; 0xe328; 0x04c9; 0x242a; 0x4452; 0x649f;
   0x84b6; 0xa455; 0xc42d; 0xe4e0; 0x057f; 0x25a5; 0x45b8; 0x654c; 0x8500; 0xa5da; 0xc5c7; 0xe533;
   0x061c; 0x26c6; 0x46f5; 0x6601; 0x8663; 0xa6b9; 0xc68a; 0xe67e; 0x0793; 0x2770; 0x4726; 0x67eb;
   0x87ec; 0xa70f; 0xc759; 0xe794; 0x089a; 0x2840; 0x485d; 0x68a9; 0x88e5; 0xa83f; 0xc822; 0xe8d6;
   0x092c; 0x29cf; 0x49b7; 0x697a; 0x8953; 0xa9b0; 0xc9c8; 0xe905; 0x0a76; 0x2a95; 0x4ac3; 0x6a0e;
   0x8a09; 0xaaea; 0xcabc; 0xea71; 0x0bf9; 0x2b23; 0x4b10; 0x6be4; 0x8b86; 0xab5c; 0xcb6f; 0xeb9b;
   0x0c31; 0x2cfc; 0x4c84; 0x6c67; 0x8c4e; 0xac83; 0xccfb; 0xec18; 0x0de2; 0x2d16; 0x4d0b; 0x6dd1;
   0x8d9d; 0xad69; 0xcd74; 0xedae; 0x0eaf; 0x2e5b; 0x4e68; 0x6eb2; 0x8ed0; 0xae24; 0xce17; 0xeecd;
   0x0f45; 0x2f88; 0x4fde; 0x6f3d; 0x8f3a; 0xaff7; 0xcfa1; 0xef42; 0x10bd; 0x305e; 0x5008; 0x70c5;
   0x90c2; 0xb021; 0xd077; 0xf0ba; 0x1132; 0x31e8; 0x51db; 0x712f; 0x914d; 0xb197; 0xd1a4; 0xf150;
   0x1251; 0x3296; 0x5262; 0x7298; 0x9237; 0xb2f4; 0xd2e9; 0xf21d; 0x13e7; 0x3304; 0x537c; 0x73b1;
   0x9398; 0xb37b; 0xd303; 0xf3ce; 0x1464; 0x3490; 0x54a3; 0x7479; 0x941b; 0xb4ef; 0xd4dc; 0xf406;
   0x158e; 0x3543; 0x5515; 0x75f6; 0x95f1; 0xb53c; 0xd56a; 0xf589; 0x16fa; 0x3637; 0x564f; 0x76ac;
   0x9685; 0xb648; 0xd630; 0xf6d3; 0x1729; 0x37dd; 0x57c0; 0x771a; 0x9756; 0xb7a2; 0xd7bf; 0xf765;
   0x186b; 0x38a6; 0x58f0; 0x7813; 0x9814; 0xb8d9; 0xd88f; 0xf86c; 0x1981; 0x3975; 0x5946; 0x799c;
   0x99fe; 0xb90a; 0xd939; 0xf9e3; 0x1acc; 0x3a38; 0x5a25; 0x7aff; 0x9ab3; 0xba47; 0xda5a; 0xfa80;
   0x1b1f; 0x3bd2; 0x5baa; 0x7b49; 0x9b60; 0xbbad; 0xdbd5; 0xfb36; 0x1cd7; 0x3c0d; 0x5c3e; 0x7cca;
   0x9ca8; 0xbc72; 0xdc41; 0xfcb5; 0x1d58; 0x3dbb; 0x5ded; 0x7d20; 0x9d27; 0xbdc4; 0xdd92; 0xfd5f;
   0x1e02; 0x3ee1; 0x5e99; 0x7e54; 0x9e7d; 0xbe9e; 0xdee6; 0xfe2b; 0x1fb4; 0x3f6e; 0x5f73; 0x7f87;
   0x9fcb; 0xbf11; 0xdf0c; 0xfff8].

Definition nordstrom_robinson_fcs (seq : Z) : rust Z :=
  let row := seq mod 32 in
  let col := seq / 32 in
  e ← index NORDSTROM_ROBINSON_TABLE (Z.to_nat (row * 8 + col));
  Some (Z.land e 0xFF).

(** ** Maximum payloads *)
Definition max_len_for_rate (rate : RlpRate) (mux : RlpMuxOption) : nat :=
  match mux, rate with
  | One, Full => 19 | One, Half => 8 | One, _ => 0
  | Two, Full => 31 | Two, Half => 13 | Two, Quarter => 4 | Two, Eighth => 0
  end.

Definition max_len_for_rate_segmented (rate : RlpRate) (mux : RlpMuxOption) : nat :=
  match mux, rate with
  | _, Full => 15
  | One, Half => 8 | One, _ => 0
  | Two, Half => 13 | Two, Quarter => 4 | Two, Eighth => 0
  end.

(** ** Encoding *)
Definition put_format_a_type (bits : list Z) (mux : RlpMuxOption) : rust (list Z) :=
  match mux with
  | One => put_bits bits (full_information_bits mux) 0x1 3
  | Two => put_bits bits (full_information_bits mux) 0x1 2
  end.

Definition encode_data_format_a (bits : list Z) (rate : RlpRate) (mux : RlpMuxOption)
    (seq : Z) (data : list Z) : rust (result RlpEncodeError (list Z)) :=
  match rate with
  | Full =>
      let max_len := max_len_for_rate rate mux in
      if decide (max_len < length data)%nat
      then Some (Err (DataTooLong rate (length data) max_len))
      else
        let len := (Z.of_nat (length data)) as_u8 in
        bits ← put_bits bits 0 seq 8;
        bits ← put_bits bits 8 0 1;
        bits ← put_bits bits 9 len 7;
        bits ← put_octets bits 16 data;
        bits ← put_format_a_type bits mux;
        Some (Ok bits)
  | Half | Quarter =>
      let max_len := max_len_for_rate rate mux in
      if decide (max_len < length data)%nat
      then Some (Err (DataTooLong rate (length data) max_len))
      else
        let len := (Z.of_nat (length data)) as_u8 in
        bits ← put_bits bits 0 seq 8;
        bits ← put_bits bits 8 0 1;
        bits ← put_bits bits 9 len 7;
        bits ← put_octets bits 16 data;
        Some (Ok bits)
  | Eighth => Some (Err EighthRateDataCarrier)
  end.

Definition segment_ctl (seg_type : SegmentType) : Z :=
  match seg_type with
  | First => 0x8 | Second => 0x9 | Last => 0xa | IntersegmentFill => 0xb
  end.

Definition encode_segmented (bits : list Z) (rate : RlpRate) (mux : RlpMuxOption)
    (seq : Z) (seg_type : SegmentType) (data : list Z)
    : rust (result RlpEncodeError (list Z)) :=
  let ctl := segment_ctl seg_type in
  match rate with
  | Full =>
      bits ← put_bits bits 0 seq 8;
      bits ← put_bits bits 8 ctl 4;
      if decide (seg_type ≠ IntersegmentFill) then
        if decide (data = []) then Some (Err SegmentedDataRequiresNonZeroLen)
        else if decide (15 < length data)%nat
        then Some (Err (SegmentedDataTooLong rate (length data) 15))
        else
          let len := (Z.of_nat (length data)) as_u8 in
          bits ← put_bits bits 12 len 4;
          bits ← put_octets bits 16 data;
          bits ← put_format_a_type bits mux;
          Some (Ok bits)
      else if decide (data ≠ []) then Some (Err (SegmentedDataTooLong rate (length data) 0))
      else
        bits ← put_format_a_type bits mux;
        Some (Ok bits)
  | Half | Quarter =>
      bits ← put_bits bits 0 seq 8;
      bits ← put_bits bits 8 ctl 4;
      let offset := 12%nat in
      if decide (seg_type ≠ IntersegmentFill) then
        let max_len := Nat.min (max_len_for_rate_segmented rate mux) 15 in
        if decide (data = []) then Some (Err SegmentedDataRequiresNonZeroLen)
        else if decide (max_len < length data)%nat
        then Some (Err (SegmentedDataTooLong rate (length data) max_len))
        else
          let len := (Z.of_nat (length data)) as_u8 in
          bits ← put_bits bits offset len 4;
          bits ← put_octets bits (offset + 4) data;
          Some (Ok bits)
      else if decide (data ≠ []) then Some (Err (SegmentedDataTooLong rate (length data) 0))
      else Some (Ok bits)
  | Eighth => Some (Err EighthRateDataCarrier)
  end.

(** The information field of a control frame. *)
Definition control_info (mux : RlpMuxOption) (seq : Z) (control_type : ControlType)
    (encryption_mode first last : Z) : rust (list Z) :=
  let info := replicate (full_information_bits mux) 0 in
  info ← put_bits info 0 seq 8;
  info ← put_bits info 8 (ctl_bits control_type) 6;
  info ← put_bits info 14 encryption_mode 2;
  info ← put_bits info 16 first 8;
  info ← put_bits info 24 last 8;
  covered ← slice info 0 32;
  let fcs := fcs16_rfc1662 covered in
  info ← put_bits info 32 ((Z.land fcs 0xFF) as_u8) 8;
  put_bits info 40 ((Z.shiftr fcs 8) as_u8) 8.

(** [dst[..n].copy_from_slice(src)]: panics unless [src] has [n] elements. *)
Definition copy_prefix (dst : list Z) (n : nat) (src : list Z) : rust (list Z) :=
  if decide (n ≤ length dst ∧ length src = n)%nat then Some (src ++ drop n dst) else panic!.

Definition encode_frame_for_mux (frame : RlpFrame) (rate : RlpRate) (mux : RlpMuxOption)
    : rust (result RlpEncodeError (list Z)) :=
  let bits := replicate (primary_bits mux rate) 0 in
  match frame with
  | Idle seq =>
      match rate with
      | Eighth =>
          fcs ← nordstrom_robinson_fcs seq;
          bits ← put_bits bits 0 seq 8;
          bits ← put_bits bits 8 fcs 8;
          Some (Ok bits)
      | _ => encode_data_format_a bits rate mux seq []
      end
  | Control seq control_type encryption_mode first last =>
      info ← control_info mux seq control_type encryption_mode first last;
      match rate with
      | Full =>
          bits ← copy_prefix bits (full_information_bits mux) info;
          bits ← put_format_a_type bits mux;
          Some (Ok bits)
      | Half | Quarter =>
          part ← slice info 0 (length bits);
          bits ← copy_prefix bits (length bits) part;
          Some (Ok bits)
      | Eighth => Some (Err EighthRateDataCarrier)
      end
  | Data seq data => encode_data_format_a bits rate mux seq data
  | DataFormatB seq data =>
      match rate with
      | Full =>
          if decide (length data ≠ format_b_octets mux) then
            Some (Err (match mux with
                       | One => FormatBRequiresTwentyOctets (length data)
                       | Two => FormatBRequiresThirtyTwoOctets (length data)
                       end))
          else
            bits ← put_bits bits 0 seq 8;
            bits ← put_octets bits 8 data;
            bits ← match mux with
                   | One => put_bits bits (full_information_bits mux) 0x2 3
                   | Two => put_bits bits (full_information_bits mux) 0x2 2
                   end;
            Some (Ok bits)
      | rate => Some (Err (FormatBRequiresFullRate rate))
      end
  | Segmented seq segment_type data => encode_segmented bits rate mux seq segment_type data
  end.

(** The compatibility entry point. *)
Definition encode_frame (frame : RlpFrame) (rate : RlpRate) :=
  encode_frame_for_mux frame rate One.

(** ** Decoding *)
Definition decode_idle (bits : list Z) : rust (option RlpFrame) :=
  seq ← get_bits bits 0 8;
  let seq := seq as_u8 in
  fcs ← get_bits bits 8 8;
  let fcs := fcs as_u8 in
  expected ← nordstrom_robinson_fcs seq;
  if decide (fcs ≠ expected) then Some None else Some (Some (Idle seq)).

Definition segment_type_of (ctl4 : Z) : option SegmentType :=
  if ctl4 =? 0x8 then Some First else if ctl4 =? 0x9 then Some Second
  else if ctl4 =? 0xa then Some Last else if ctl4 =? 0xb then Some IntersegmentFill
  else None.

Definition decode_unsegmented (bits : list Z) (seq : Z) (rate : RlpRate) (mux : RlpMuxOption)
    : rust (option RlpFrame) :=
  len ← get_bits bits 9 7;
  let len := Z.to_nat len in
  if decide (max_len_for_rate rate mux < len)%nat then Some None
  else if decide (len = 0%nat) then Some (Some (Data seq []))
  else
    data ← get_octets bits 16 len;
    Some (Some (Data seq data)).

Definition decode_control (bits : list Z) (seq : Z) : rust (option RlpFrame) :=
  ctl ← get_bits bits 8 6;
  match from_ctl_bits (ctl as_u8) with
  | None => Some None
  | Some control_type =>
      encryption_mode ← get_bits bits 14 2;
      first ← get_bits bits 16 8;
      last ← get_bits bits 24 8;
      fcs_lo ← get_bits bits 32 8;
      fcs_hi ← get_bits bits 40 8;
      let received_fcs :=
        Z.lor ((Z.shiftl (fcs_hi as_u8) 8) as_u16) (fcs_lo as_u8) in
      covered ← slice bits 0 32;
      if decide (received_fcs ≠ fcs16_rfc1662 covered) then Some None
      else Some (Some (Control seq control_type (encryption_mode as_u8)
                         (first as_u8) (last as_u8)))
  end.

Definition decode_segmented (bits : list Z) (seq : Z) (rate : RlpRate) (mux : RlpMuxOption)
    : rust (option RlpFrame) :=
  ctl4 ← get_bits bits 8 4;
  match segment_type_of (ctl4 as_u8) with
  | None => Some None
  | Some segment_type =>
      if decide (segment_type = IntersegmentFill)
      then Some (Some (Segmented seq segment_type []))
      else
        len ← get_bits bits 12 4;
        let len := Z.to_nat len in
        if decide (len = 0%nat) then Some None
        else if decide (max_len_for_rate_segmented rate mux < len)%nat then Some None
        else
          data ← get_octets bits 16 len;
          Some (Some (Segmented seq segment_type data))
  end.

Definition decode_non_full_rate (bits : list Z) (rate : RlpRate) (mux : RlpMuxOption)
    : rust (option RlpFrame) :=
  seq ← get_bits bits 0 8;
  let seq := seq as_u8 in
  ctl_msb ← index bits 8;
  if ctl_msb =? 0 then decode_unsegmented bits seq rate mux
  else
    bit1 ← index bits 9;
    if bit1 =? 1 then decode_control bits seq
    else decode_segmented bits seq rate mux.

Definition decode_full_rate (bits : list Z) (mux : RlpMuxOption) : rust (option RlpFrame) :=
  let '(type_bits, format_a_type, format_b_type) :=
    match mux with One => (3%nat, 0x1, 0x2) | Two => (2%nat, 0x1, 0x2) end in
  frame_type ← get_bits bits (full_information_bits mux) type_bits;
  let frame_type := frame_type as_u8 in
  if frame_type =? format_a_type then decode_non_full_rate bits Full mux
  else if frame_type =? format_b_type then
    seq ← get_bits bits 0 8;
    data ← get_octets bits 8 (format_b_octets mux);
    Some (Some (DataFormatB (seq as_u8) data))
  else Some None.

Definition decode_frame_for_mux (bits : list Z) (rate : RlpRate) (mux : RlpMuxOption)
    : rust (option RlpFrame) :=
  if decide (length bits < primary_bits mux rate)%nat then Some None
  else
    match rate with
    | Eighth => decode_idle bits
    | Half | Quarter => decode_non_full_rate bits rate mux
    | Full => decode_full_rate bits mux
    end.

Definition decode_frame (bits : list Z) (rate : RlpRate) := decode_frame_for_mux bits rate One.

(** ** Constructor helpers *)
Definition sync_frame (seq : Z) : RlpFrame := Control seq Sync 0 0 0.
Definition sync_ack_frame (seq : Z) : RlpFrame := Control seq SyncAck 0 0 0.
Definition ack_frame (seq : Z) : RlpFrame := Control seq Ack 0 0 0.
Definition nak_frame (seq first last : Z) : RlpFrame := Control seq Nak 0 first last.
Definition data_frame (seq : Z) (data : list Z) : RlpFrame := Data seq data.
Definition data_format_b_frame (seq : Z) (data : list Z) : RlpFrame := DataFormatB seq data.
Definition idle_frame (seq : Z) : RlpFrame := Idle seq.

Example encode_sync : (encode_frame_for_mux (sync_frame 5) Half One) ≠ None.
Proof. vm_compute. discriminate. Qed.
