(* ===== verification/RlpProofs.v ===== *)
(** * Correctness of the RLP Type 1 frame codec *)
From S2P Require Import Prelude BitString Rlp.

(** ** What the field accessors compute *)
Lemma put_bits_spec pre old suf off v n :
  off = length pre → n = length old →
  put_bits (pre ++ old ++ suf) off v n = Some (pre ++ to_bits n v ++ suf).
Proof. intros -> ->. unfold put_bits. rewrite write_seq; [done|lia]. Qed.

Lemma put_bits_zeros pre m off v n :
  off = length pre → (n ≤ m)%nat →
  put_bits (pre ++ replicate m 0) off v n = Some ((pre ++ to_bits n v) ++ replicate (m - n) 0).
Proof.
  intros -> Hn. replace m with (n + (m - n))%nat at 1 by lia. rewrite replicate_add.
  rewrite put_bits_spec by (rewrite ?length_replicate; done). by rewrite <- app_assoc.
Qed.

Lemma put_bits_gap pre m off v n g :
  off = (length pre + g)%nat → (g + n ≤ m)%nat →
  put_bits (pre ++ replicate m 0) off v n
  = Some ((pre ++ replicate g 0 ++ to_bits n v) ++ replicate (m - g - n) 0).
Proof.
  intros -> Hn. replace m with (g + (m - g))%nat at 1 by lia. rewrite replicate_add, app_assoc.
  rewrite put_bits_zeros by (rewrite ?length_app, ?length_replicate; lia).
  by rewrite <- !app_assoc.
Qed.

Lemma put_octets_zeros data : ∀ pre m off k,
  (off + k * 8)%nat = length pre → (8 * length data ≤ m)%nat →
  foldl (λ acc p, bs ← acc; put_bits bs (off + p.1 * 8) p.2 8)
    (Some (pre ++ replicate m 0)) (zip (List.seq k (length data)) data)
  = Some ((pre ++ octet_bits data) ++ replicate (m - 8 * length data) 0).
Proof.
  induction data as [|x data IH]; intros pre m off k Hoff Hm.
  { cbn. by rewrite app_nil_r, Nat.sub_0_r. }
  cbn [length List.seq zip_with foldl fst snd mbind option_bind] in *.
  rewrite put_bits_zeros by lia.
  rewrite IH by (rewrite ?length_app, ?length_to_bits; lia).
  rewrite octet_bits_cons, <- !app_assoc. do 4 f_equal. f_equal. lia.
Qed.

Lemma get_bits_spec pre m suf off n :
  off = length pre → n = length m → get_bits (pre ++ m ++ suf) off n = Some (of_bits m).
Proof. intros -> ->. unfold get_bits. rewrite read_seq; [done|lia]. Qed.

Lemma index_skip {A} (pre l : list A) k : (length pre ≤ k)%nat → index (pre ++ l) k = index l (k - length pre).
Proof. intros. unfold index. by rewrite lookup_app_r. Qed.

Lemma get_bits_skip pre l off n :
  (length pre ≤ off)%nat → get_bits (pre ++ l) off n = get_bits l (off - length pre) n.
Proof.
  intros H. unfold get_bits. generalize (Some 0) as acc. generalize (List.seq 0 n) as js.
  induction js as [|i js IH]; intros acc; [done|]. cbn [foldl]. rewrite IH. f_equal.
  destruct acc as [v|]; [|done]. cbn. rewrite index_skip by lia.
  by replace (off + i - length pre)%nat with (off - length pre + i)%nat by lia.
Qed.

Lemma get_bits_field l v n :
  (n ≤ 32)%nat → get_bits (to_bits n v ++ l) 0 n = Some (v mod 2 ^ Z.of_nat n).
Proof.
  intros. etransitivity; [apply (get_bits_spec [] (to_bits n v) l)|];
    rewrite ?length_to_bits; [done..|]. by rewrite of_to_bits.
Qed.

Lemma get_bits_in_range bits off n :
  (off + n ≤ length bits)%nat → ∃ v, get_bits bits off n = Some v.
Proof.
  intros H. rewrite <- (take_drop off bits), <- (take_drop n (drop off bits)).
  eexists. apply get_bits_spec; rewrite length_take, ?length_drop; lia.
Qed.

Lemma mapM_cons_eq {A B} (f : A → option B) x l :
  mapM f (x :: l) = (y ← f x; k ← mapM f l; mret (y :: k)).
Proof. done. Qed.

Lemma get_octets_field data : ∀ pre suf off k,
  bytes data → (off + k * 8)%nat = length pre →
  mapM (λ i, v ← get_bits (pre ++ octet_bits data ++ suf) (off + i * 8) 8; Some (v as_u8))
    (List.seq k (length data)) = Some data.
Proof.
  induction data as [|x data IH]; intros pre suf off k Hb Hoff; [done|].
  inversion_clear Hb as [|?? Hx Hd]. cbn [length List.seq].
  rewrite octet_bits_cons, <- app_assoc, mapM_cons_eq. cbv beta.
  rewrite Hoff, get_bits_spec by (rewrite ?length_to_bits; done). cbn [mbind option_bind].
  rewrite (app_assoc pre), IH by (rewrite ?length_app, ?length_to_bits; auto; lia).
  cbn [mbind option_bind]. rewrite of_to_bits by lia.
  by rewrite wrap_small; rewrite Z.mod_small.
Qed.

(** Read past the fields that precede the one of interest. *)
Ltac field_lengths := rewrite ?length_app, ?length_to_bits, ?length_octet_bits, ?length_replicate.
Ltac skip_fields :=
  repeat match goal with
    | |- context [get_bits (?p ++ ?l) ?o ?n] =>
        rewrite (get_bits_skip p l o n) by (field_lengths; lia)
    | |- context [index (?p ++ ?l) ?o] => rewrite (index_skip p l o) by (field_lengths; lia)
    end;
  field_lengths; cbn [Nat.sub Nat.add].
Ltac read_field := skip_fields; rewrite get_bits_field by lia; cbn [mbind option_bind].

Lemma wrap_field w n v : (Z.of_nat n ≤ w) → is_u (Z.of_nat n) v → wrap w (v mod 2 ^ Z.of_nat n) = v.
Proof.
  intros Hw Hv. rewrite Z.mod_small by done. apply wrap_small. by apply (is_u_mono (Z.of_nat n)).
Qed.

(** ** Well-formed frames and the canonical form of idle frames *)
Definition wf_frame (f : RlpFrame) : Prop :=
  match f with
  | Control seq _ em first last => is_u8 seq ∧ is_u 2 em ∧ is_u8 first ∧ is_u8 last
  | Data seq data | DataFormatB seq data | Segmented seq _ data => is_u8 seq ∧ bytes data
  | Idle seq => is_u8 seq
  end.
#[export] Instance wf_frame_dec f : Decision (wf_frame f).
Proof. destruct f; unfold wf_frame, is_u, bytes; solve_decision. Defined.

(** Above rate 1/8 an idle frame is a data frame with LEN = 0. *)
Definition canonical (f : RlpFrame) (rate : RlpRate) : RlpFrame :=
  match f, rate with
  | Idle seq, Eighth => Idle seq
  | Idle seq, _ => Data seq []
  | f, _ => f
  end.

Definition is_control (f : RlpFrame) : bool :=
  match f with Control _ _ _ _ _ => true | _ => false end.

(** ** Layouts *)
Definition data_layout (seq : Z) (data suf : list Z) : list Z :=
  to_bits 8 seq ++ to_bits 1 0 ++ to_bits 7 (Z.of_nat (length data)) ++ octet_bits data ++ suf.
Definition control_cover (seq : Z) (ct : ControlType) (em first last : Z) : list Z :=
  to_bits 8 seq ++ to_bits 6 (ctl_bits ct) ++ to_bits 2 em ++ to_bits 8 first ++ to_bits 8 last.
Definition control_layout (seq : Z) (ct : ControlType) (em first last : Z) (suf : list Z) : list Z :=
  let fcs := fcs16_rfc1662 (control_cover seq ct em first last) in
  control_cover seq ct em first last
    ++ to_bits 8 (Z.land fcs 0xFF) ++ to_bits 8 (Z.shiftr fcs 8) ++ suf.
Definition segment_layout (seq : Z) (st : SegmentType) (data suf : list Z) : list Z :=
  to_bits 8 seq ++ to_bits 4 (segment_ctl st) ++
  (if decide (st = IntersegmentFill) then []
   else to_bits 4 (Z.of_nat (length data)) ++ octet_bits data) ++ suf.

Lemma max_len_lt rate mux : (max_len_for_rate rate mux < 128)%nat.
Proof. destruct rate, mux; cbn; lia. Qed.
Lemma max_len_segmented_lt rate mux : (max_len_for_rate_segmented rate mux < 16)%nat.
Proof. destruct rate, mux; cbn; lia. Qed.

Lemma fcs16_rfc1662_u16 bits : is_u16 (fcs16_rfc1662 bits).
Proof.
  unfold fcs16_rfc1662. apply is_u_bit_not; [lia|].
  cut (∀ (ch : list (list Z)) acc, is_u16 acc →
    is_u16 (foldl (λ fcs octet, fcs_octet_step (Z.lxor fcs (octet_byte octet))) acc ch)).
  { intros H. apply H. done. }
  induction ch as [|c ch IH]; intros acc Hacc; cbn; [done|]. apply IH.
  apply fcs_octet_step_u16, is_u_lxor; [lia|done|].
  unfold octet_byte. generalize (zip (List.seq 0 (length c)) c) as ps.
  cut (∀ ps b, is_u16 b → is_u16 (foldl (λ (byte : Z) (p : nat * Z),
    Z.lor byte (wrap 8 (Z.shiftl (Z.land p.2 1) (7 - Z.of_nat p.1)))) b ps)).
  { intros H ps. by apply H. }
  induction ps as [|p ps IHp]; intros b Hb; cbn; [done|]. apply IHp, is_u_lor; [lia|done|].
  apply (is_u_mono 8); [lia|]. by apply is_u_wrap.
Qed.

Lemma decode_data_layout rate mux seq data suf :
  is_u8 seq → bytes data → (length data ≤ max_len_for_rate rate mux)%nat →
  decode_non_full_rate (data_layout seq data suf) rate mux = Some (Some (Data seq data)).
Proof.
  intros Hs Hd Hl. unfold decode_non_full_rate, data_layout. read_field.
  rewrite (wrap_field 8) by (done || lia). skip_fields.
  change (index (to_bits 1 0 ++ ?l) 0) with (Some 0). cbn [mbind option_bind Z.eqb].
  unfold decode_unsegmented. read_field.
  pose proof (max_len_lt rate mux).
  rewrite Z.mod_small, Nat2Z.id by lia.
  rewrite decide_False by lia. case_decide as H0.
  { by apply length_zero_iff_nil in H0 as ->. }
  unfold get_octets. rewrite !(app_assoc (to_bits 8 seq)), !(app_assoc (_ ++ _) (to_bits 7 _)).
  by rewrite get_octets_field by (field_lengths; done || lia).
Qed.

Lemma decode_segment_layout rate mux seq st data suf :
  is_u8 seq → bytes data → (data = [] ↔ st = IntersegmentFill) →
  (length data ≤ max_len_for_rate_segmented rate mux)%nat →
  decode_non_full_rate (segment_layout seq st data suf) rate mux = Some (Some (Segmented seq st data)).
Proof.
  intros Hs Hd Hst Hl. unfold decode_non_full_rate, segment_layout. read_field.
  rewrite (wrap_field 8) by (done || lia). skip_fields.
  pose proof (max_len_segmented_lt rate mux).
  assert (∀ l, index (to_bits 4 (segment_ctl st) ++ l) 0 = Some 1) as ->.
  { by destruct st. }
  assert (∀ l, index (to_bits 4 (segment_ctl st) ++ l) 1 = Some 0) as ->.
  { by destruct st. }
  cbn [mbind option_bind Z.eqb]. unfold decode_segmented. read_field.
  rewrite (wrap_field 8) by (by destruct st || lia).
  assert (segment_type_of (segment_ctl st) = Some st) as -> by by destruct st.
  case_decide as Hfill.
  { rewrite (proj2 Hst) by done. done. }
  rewrite <- !app_assoc. read_field.
  rewrite Z.mod_small, Nat2Z.id by lia.
  assert (length data ≠ 0%nat) by (intros ?%length_zero_iff_nil; tauto).
  rewrite !decide_False by lia.
  unfold get_octets. rewrite (app_assoc (to_bits 8 seq)), (app_assoc (_ ++ _) (to_bits 4 _)).
  by rewrite get_octets_field by (field_lengths; done || lia).
Qed.

(** The two octets of the check sequence compose to it again. *)
Lemma fcs_octets_compose fcs :
  is_u16 fcs →
  Z.lor (wrap 16 (Z.shiftl (wrap 8 (Z.shiftr fcs 8)) 8)) (wrap 8 (Z.land fcs 0xFF)) = fcs.
Proof.
  intros Hf. assert (is_u8 (fcs / 256)) by (unfold is_u in *; zdiv).
  assert (is_u8 (fcs mod 256)) by (unfold is_u; zdiv).
  rewrite shiftr_8, land_255, !(wrap_small 8) by done.
  rewrite (wrap_small 16), lor_shiftl_add by
    (done || (rewrite ?Z.shiftl_mul_pow2; unfold is_u in *; zdiv)).
  rewrite (Z.div_mod fcs 256) at 3 by lia. lia.
Qed.

Lemma fcs_lo_u8 fcs : is_u8 (Z.land fcs 0xFF).
Proof. rewrite land_255. unfold is_u. zdiv. Qed.
Lemma fcs_hi_u8 fcs : is_u16 fcs → is_u8 (Z.shiftr fcs 8).
Proof. rewrite shiftr_8. unfold is_u. zdiv. Qed.

Lemma length_control_cover seq ct em first last :
  length (control_cover seq ct em first last) = 32%nat.
Proof. unfold control_cover. by field_lengths. Qed.

Lemma slice_prefix {A} (p l : list A) n : n = length p → slice (p ++ l) 0 n = Some p.
Proof.
  intros ->. rewrite slice_Some by (rewrite ?length_app; lia).
  by rewrite Nat.sub_0_r, drop_0, take_app_length.
Qed.

Lemma control_cover_app seq ct em first last l :
  control_cover seq ct em first last ++ l = to_bits 8 seq ++ to_bits 6 (ctl_bits ct)
    ++ to_bits 2 em ++ to_bits 8 first ++ to_bits 8 last ++ l.
Proof. unfold control_cover. by rewrite <- !app_assoc. Qed.

(** The fields of a control layout, read one by one. *)
Lemma control_layout_fields seq ct em first last suf (fcs := fcs16_rfc1662 (control_cover seq ct em first last)) :
  let bits := control_layout seq ct em first last suf in
  is_u8 seq → is_u 2 em → is_u8 first → is_u8 last →
  get_bits bits 0 8 = Some seq ∧ index bits 8 = Some 1 ∧ index bits 9 = Some 1 ∧
  get_bits bits 8 6 = Some (ctl_bits ct) ∧ get_bits bits 14 2 = Some em ∧
  get_bits bits 16 8 = Some first ∧ get_bits bits 24 8 = Some last ∧
  get_bits bits 32 8 = Some (Z.land fcs 0xFF) ∧ get_bits bits 40 8 = Some (Z.shiftr fcs 8) ∧
  slice bits 0 32 = Some (control_cover seq ct em first last).
Proof.
  intros bits Hs He Hf Hl. subst bits fcs. unfold control_layout.
  pose proof (fcs16_rfc1662_u16 (control_cover seq ct em first last)) as Hfcs.
  remember (fcs16_rfc1662 (control_cover seq ct em first last)) as fcs eqn:E. clear E.
  pose proof (fcs_lo_u8 fcs). pose proof (fcs_hi_u8 fcs Hfcs).
  rewrite slice_prefix by (by rewrite length_control_cover).
  rewrite control_cover_app. split_and!; skip_fields; try (by destruct ct);
    rewrite get_bits_field by lia; f_equal; by apply Z.mod_small.
Qed.

Lemma decode_control_layout rate mux seq ct em first last suf :
  is_u8 seq → is_u 2 em → is_u8 first → is_u8 last →
  decode_non_full_rate (control_layout seq ct em first last suf) rate mux
  = Some (Some (Control seq ct em first last)).
Proof.
  intros Hs He Hf Hl.
  destruct (control_layout_fields seq ct em first last suf Hs He Hf Hl)
    as (E0 & E8 & E9 & Ec & Ee & Ef & El & Elo & Ehi & Ecov).
  unfold decode_non_full_rate. rewrite E0, E8, E9. cbn [mbind option_bind Z.eqb Pos.eqb].
  unfold decode_control. rewrite Ec, Ee, Ef, El, Elo, Ehi, Ecov. cbn [mbind option_bind].
  rewrite (wrap_small 8 (ctl_bits ct)) by by destruct ct.
  assert (from_ctl_bits (ctl_bits ct) = Some ct) as -> by by destruct ct.
  rewrite fcs_octets_compose by apply fcs16_rfc1662_u16. rewrite decide_False by auto.
  rewrite !(wrap_small 8) by (done || by apply (is_u_mono 2)). done.
Qed.

Lemma control_info_layout mux seq ct em first last :
  control_info mux seq ct em first last
  = Some (control_layout seq ct em first last (replicate (full_information_bits mux - 48) 0)).
Proof.
  unfold control_info, control_layout.
  change (replicate (full_information_bits mux) 0) with ([] ++ replicate (full_information_bits mux) 0).
  assert (48 ≤ full_information_bits mux)%nat by (destruct mux; cbn; lia).
  do 5 (rewrite put_bits_zeros by (field_lengths; cbn; lia); cbn [mbind option_bind]).
  rewrite slice_prefix by (by field_lengths). cbn [mbind option_bind].
  rewrite <- !app_assoc. cbn [app].
  change (to_bits 8 seq ++ to_bits 6 (ctl_bits ct) ++ to_bits 2 em ++ to_bits 8 first ++ to_bits 8 last)
    with (control_cover seq ct em first last).
  set (fcs := fcs16_rfc1662 _).
  assert (∀ l, to_bits 8 seq ++ to_bits 6 (ctl_bits ct) ++ to_bits 2 em ++ to_bits 8 first
    ++ to_bits 8 last ++ l = control_cover seq ct em first last ++ l) as ->.
  { intros l. unfold control_cover. by rewrite <- !app_assoc. }
  do 2 (rewrite put_bits_zeros by (field_lengths; rewrite ?length_control_cover; lia);
        cbn [mbind option_bind]).
  rewrite !(wrap_small 8) by (apply fcs_lo_u8 || by apply fcs_hi_u8, fcs16_rfc1662_u16).
  rewrite <- !app_assoc. do 4 apply f_equal. f_equal. lia.
Qed.

(** ** Encoded frames have these layouts *)
Definition type_bits (mux : RlpMuxOption) : nat := match mux with One => 3 | Two => 2 end.

(** The full-rate TYPE field follows the zero-padded information field. *)
Definition full_rate_typed (mux : RlpMuxOption) (code : Z) (bits : list Z) : Prop :=
  length bits = primary_bits mux Full ∧
  get_bits bits (full_information_bits mux) (type_bits mux) = Some code.

Lemma typed_layout mux code pre :
  is_u 2 code → (length pre ≤ full_information_bits mux)%nat →
  full_rate_typed mux code
    (pre ++ replicate (full_information_bits mux - length pre) 0 ++ to_bits (type_bits mux) code).
Proof.
  intros Hc Hp. split.
  - field_lengths. destruct mux; cbn in *; lia.
  - skip_fields. rewrite <- (app_nil_r (to_bits _ _)).
    replace (_ - _ - _)%nat with 0%nat by lia.
    rewrite get_bits_field by (destruct mux; cbn; lia). f_equal. apply Z.mod_small.
    change (is_u (Z.of_nat (type_bits mux)) code).
    apply (is_u_mono 2); [destruct mux; cbn; lia|done].
Qed.

Lemma put_format_a_type_spec mux pre m :
  (length pre ≤ full_information_bits mux)%nat → (length pre + m = primary_bits mux Full)%nat →
  put_format_a_type (pre ++ replicate m 0) mux
  = Some (pre ++ replicate (full_information_bits mux - length pre) 0 ++ to_bits (type_bits mux) 1).
Proof.
  intros Hp Hm.
  assert (put_format_a_type (pre ++ replicate m 0) mux
    = put_bits (pre ++ replicate m 0) (full_information_bits mux) 1 (type_bits mux)) as ->
    by by destruct mux.
  assert (primary_bits mux Full = full_information_bits mux + type_bits mux)%nat by by destruct mux.
  rewrite (put_bits_gap _ _ _ _ _ (full_information_bits mux - length pre)) by lia.
  replace (m - _ - _)%nat with 0%nat by lia. by rewrite app_nil_r.
Qed.

Ltac put_fields :=
  repeat (rewrite put_bits_zeros by (field_lengths; cbn; lia); cbn [mbind option_bind]).

Lemma encode_data_layout rate mux seq data bits :
  encode_data_format_a (replicate (primary_bits mux rate) 0) rate mux seq data = Some (Ok bits) →
  rate ≠ Eighth ∧ (length data ≤ max_len_for_rate rate mux)%nat ∧
  length bits = primary_bits mux rate ∧
  (∃ suf, bits = data_layout seq data suf) ∧
  (rate = Full → full_rate_typed mux 1 bits).
Proof.
  intros H. unfold encode_data_format_a in H.
  assert (rate ≠ Eighth) as Hr by (destruct rate; naive_solver).
  destruct (decide (max_len_for_rate rate mux < length data)%nat) as [|Hl].
  { destruct rate; done. }
  assert (16 + 8 * length data ≤ primary_bits mux rate ∧
    (rate = Full → 16 + 8 * length data ≤ full_information_bits mux))%nat as [Hfit Hinfo].
  { destruct rate, mux; cbn in Hl |- *; (split; [lia|]; intros ?; (done || lia)). }
  assert (wrap 8 (Z.of_nat (length data)) = Z.of_nat (length data)) as Hw.
  { apply wrap_small. pose proof (max_len_lt rate mux). unfold is_u. lia. }
  rewrite Hw in H. clear Hw.
  change (replicate (primary_bits mux rate) 0) with ([] ++ replicate (primary_bits mux rate) 0) in H.
  revert H. repeat (rewrite put_bits_zeros by (field_lengths; cbn; lia); cbn [mbind option_bind]).
  unfold put_octets. rewrite put_octets_zeros by (field_lengths; cbn; lia). cbn [mbind option_bind].
  set (pre := (_ ++ octet_bits data)).
  assert (length pre = (16 + 8 * length data)%nat) as Hpre by (subst pre; field_lengths; cbn; lia).
  assert (∀ suf, pre ++ suf = data_layout seq data suf) as Hlay.
  { intros suf. subst pre. unfold data_layout. by rewrite <- !app_assoc. }
  clearbody pre. intros H.
  destruct rate; try done; cbn [mbind option_bind] in H.
  2,3: apply Some_Ok_inj in H as <-; split_and!; [done|lia| |by eexists|done]; field_lengths; lia.
  rewrite put_format_a_type_spec in H by (rewrite ?Hpre; auto; lia).
  apply Some_Ok_inj in H as <-. split_and!; [done|lia| |by eexists|intros _].
  - by apply typed_layout; [|rewrite Hpre; auto].
  - apply typed_layout; [done|rewrite Hpre; auto].
Qed.

(** The checks a segmented frame passes when it is encoded. *)
Lemma encode_segmented_checks rate mux seq st data bits :
  encode_segmented (replicate (primary_bits mux rate) 0) rate mux seq st data = Some (Ok bits) →
  rate ≠ Eighth ∧ (data = [] ↔ st = IntersegmentFill) ∧
  (length data ≤ max_len_for_rate_segmented rate mux)%nat.
Proof.
  intros H. unfold encode_segmented in H.
  assert (12 ≤ primary_bits mux rate)%nat by (destruct rate, mux; cbn; lia).
  change (replicate (primary_bits mux rate) 0) with ([] ++ replicate (primary_bits mux rate) 0) in H.
  revert H. do 2 (rewrite put_bits_zeros by (field_lengths; cbn; lia); cbn [mbind option_bind]).
  destruct rate; [| | |done]; (case_decide; [case_decide; [done|]; case_decide; [done|]|case_decide; [done|]]);
    intros _; destruct mux, (decide (data = [])) as [->|]; cbn in *; (split_and!; [done|tauto|done || lia]).
Qed.

(** The fields written before the padding. *)
Definition segment_prefix (seq : Z) (st : SegmentType) (data : list Z) : list Z :=
  (([] ++ to_bits 8 seq) ++ to_bits 4 (segment_ctl st)) ++
  (if decide (st = IntersegmentFill) then []
   else to_bits 4 (Z.of_nat (length data)) ++ octet_bits data).

Lemma segment_prefix_layout seq st data suf :
  segment_prefix seq st data ++ suf = segment_layout seq st data suf.
Proof. unfold segment_prefix, segment_layout. by rewrite <- !app_assoc. Qed.

Lemma length_segment_prefix seq st data :
  (length (segment_prefix seq st data) ≤ 16 + 8 * length data)%nat.
Proof. unfold segment_prefix. case_decide; field_lengths; cbn; lia. Qed.

Lemma encode_segmented_form rate mux seq st data :
  rate ≠ Eighth → (data = [] ↔ st = IntersegmentFill) →
  (length data ≤ max_len_for_rate_segmented rate mux)%nat →
  (16 + 8 * length data ≤ primary_bits mux rate)%nat →
  let bits := segment_prefix seq st data ++
    replicate (primary_bits mux rate - length (segment_prefix seq st data)) 0 in
  encode_segmented (replicate (primary_bits mux rate) 0) rate mux seq st data
  = match rate with Full => bs ← put_format_a_type bits mux; Some (Ok bs) | _ => Some (Ok bits) end.
Proof.
  intros Hr Hst Hl Hfit bits. subst bits. unfold encode_segmented, segment_prefix.
  pose proof (max_len_segmented_lt rate mux).
  rewrite (wrap_small 8) by (unfold is_u; lia).
  change (replicate (primary_bits mux rate) 0) with ([] ++ replicate (primary_bits mux rate) 0).
  do 2 (rewrite put_bits_zeros by (field_lengths; cbn; lia); cbn [mbind option_bind]).
  destruct (decide (st = IntersegmentFill)) as [->|Hne].
  - rewrite (proj2 Hst) by done. rewrite !app_nil_r. field_lengths.
    destruct rate; [| | |done]; rewrite decide_False, decide_False by tauto; cbn [mbind option_bind];
      by rewrite <- Nat.sub_add_distr.
  - assert (data ≠ []) by tauto.
    replace (primary_bits mux rate - length _)%nat
      with (primary_bits mux rate - 8 - 4 - 4 - 8 * length data)%nat by (field_lengths; cbn; lia).
    rewrite (app_assoc _ (to_bits 4 (Z.of_nat _))).
    destruct rate; [| | |done]; rewrite decide_True, !decide_False by (done || (cbn in *; lia));
      (rewrite put_bits_zeros by (field_lengths; cbn; lia)); cbn [mbind option_bind];
      unfold put_octets; (rewrite put_octets_zeros by (field_lengths; cbn; lia)); done.
Qed.

Lemma encode_segment_layout rate mux seq st data bits :
  encode_segmented (replicate (primary_bits mux rate) 0) rate mux seq st data = Some (Ok bits) →
  rate ≠ Eighth ∧ (data = [] ↔ st = IntersegmentFill) ∧
  (length data ≤ max_len_for_rate_segmented rate mux)%nat ∧
  length bits = primary_bits mux rate ∧
  (∃ suf, bits = segment_layout seq st data suf) ∧
  (rate = Full → full_rate_typed mux 1 bits).
Proof.
  intros H. destruct (encode_segmented_checks _ _ _ _ _ _ H) as (Hr & Hst & Hl).
  assert (16 + 8 * length data ≤ primary_bits mux rate ∧
    (16 + 8 * length data ≤ full_information_bits mux))%nat as [Hfit Hinfo].
  { destruct rate, mux; cbn in *; (done || lia). }
  rewrite encode_segmented_form in H by done. cbv zeta in H.
  pose proof (length_segment_prefix seq st data) as Hp.
  split; [done|]. split; [done|]. split; [done|].
  destruct rate; try done.
  2,3: apply Some_Ok_inj in H as <-; split_and!; [|eexists; apply segment_prefix_layout|done];
    rewrite length_app, length_replicate; lia.
  rewrite put_format_a_type_spec in H by lia. apply Some_Ok_inj in H as <-.
  split_and!; [by apply typed_layout; [|lia]| |intros _; by apply typed_layout; [|lia]].
  eexists. apply segment_prefix_layout.
Qed.

Lemma encode_format_b mux seq data :
  length data = format_b_octets mux →
  encode_frame_for_mux (DataFormatB seq data) Full mux
  = Some (Ok (to_bits 8 seq ++ octet_bits data ++ to_bits (type_bits mux) 2)).
Proof.
  intros Hl. cbn [encode_frame_for_mux]. rewrite decide_False by auto.
  change (replicate (primary_bits mux Full) 0) with ([] ++ replicate (primary_bits mux Full) 0).
  assert (primary_bits mux Full = 8 + 8 * length data + type_bits mux)%nat as Hp.
  { rewrite Hl. by destruct mux. }
  assert (full_information_bits mux = 8 + 8 * length data)%nat as Hi.
  { rewrite Hl. by destruct mux. }
  put_fields. unfold put_octets. rewrite put_octets_zeros by (field_lengths; cbn; lia).
  cbn [mbind option_bind].
  assert (∀ bs, match mux with One => put_bits bs (full_information_bits mux) 2 3
    | Two => put_bits bs (full_information_bits mux) 2 2 end
    = put_bits bs (full_information_bits mux) 2 (type_bits mux)) as E by by destruct mux.
  rewrite E, put_bits_zeros by (field_lengths; cbn; lia).
  cbn [mbind option_bind]. replace (_ - _ - _ - _)%nat with 0%nat by lia.
  rewrite <- !app_assoc, app_nil_r. done.
Qed.

(** ** The idle frame's check octet *)
Lemma nordstrom_robinson_total seq :
  is_u8 seq → ∃ fcs, nordstrom_robinson_fcs seq = Some fcs ∧ is_u8 fcs.
Proof.
  intros Hs.
  pose proof (all_u8_spec (λ s, match nordstrom_robinson_fcs s with
    Some f => (0 <=? f) && (f <? 256) | None => false end) seq) as H.
  specialize (H ltac:(vm_compute; reflexivity) Hs). cbv beta in H.
  destruct (nordstrom_robinson_fcs seq) as [f|]; [|done].
  exists f. split; [done|]. unfold is_u. lia.
Qed.

Lemma decode_idle_layout seq fcs suf :
  is_u8 seq → nordstrom_robinson_fcs seq = Some fcs → is_u8 fcs →
  decode_idle (to_bits 8 seq ++ to_bits 8 fcs ++ suf) = Some (Some (Idle seq)).
Proof.
  intros Hs Hf Hu. unfold decode_idle. repeat read_field.
  rewrite !(wrap_field 8 8) by (done || lia). rewrite Hf. cbn [mbind option_bind].
  by rewrite decide_False by auto.
Qed.

Lemma decode_full_a mux bits :
  full_rate_typed mux 1 bits → decode_frame_for_mux bits Full mux = decode_non_full_rate bits Full mux.
Proof.
  intros [Hl Ht]. unfold decode_frame_for_mux. rewrite decide_False by lia.
  unfold decode_full_rate. by destruct mux; cbn [full_information_bits type_bits] in *; rewrite Ht.
Qed.

Lemma decode_not_short bits rate mux :
  rate ≠ Eighth → length bits = primary_bits mux rate → (rate = Full → full_rate_typed mux 1 bits) →
  decode_frame_for_mux bits rate mux = decode_non_full_rate bits rate mux.
Proof.
  intros Hr Hl Ht. destruct rate; [apply decode_full_a; auto|..|done];
    unfold decode_frame_for_mux; by rewrite decide_False by lia.
Qed.

(** A control frame does not fit the 40-bit quarter-rate frame of multiplex option 1. *)
Definition control_fits (rate : RlpRate) (mux : RlpMuxOption) : bool :=
  bool_decide (48 ≤ primary_bits mux rate)%nat.

Lemma copy_sub_rate {E} pre k n :
  (length pre ≤ n ≤ length pre + k)%nat →
  (part ← slice (pre ++ replicate k 0) 0 n;
   bs ← copy_prefix (replicate n 0) n part; Some (Ok (E := E) bs))
  = Some (Ok (pre ++ replicate (n - length pre) 0)).
Proof.
  intros Hn. rewrite slice_Some by (field_lengths; lia).
  rewrite drop_0, Nat.sub_0_r, take_app_ge, take_replicate, bind_some by lia.
  unfold copy_prefix. rewrite decide_True, bind_some by (field_lengths; lia).
  rewrite drop_replicate, Nat.sub_diag, app_nil_r. repeat f_equal. lia.
Qed.

Lemma encode_control_layout rate mux seq ct em first last bits :
  encode_frame_for_mux (Control seq ct em first last) rate mux = Some (Ok bits) →
  control_fits rate mux = true →
  rate ≠ Eighth ∧ length bits = primary_bits mux rate ∧
  (∃ suf, bits = control_layout seq ct em first last suf) ∧
  (rate = Full → full_rate_typed mux 1 bits).
Proof.
  intros H Hfit%bool_decide_eq_true. unfold encode_frame_for_mux in H. rewrite control_info_layout in H.
  unfold control_layout in H |- *. set (fcs := fcs16_rfc1662 _) in *. clearbody fcs.
  rewrite !(app_assoc (control_cover _ _ _ _ _)) in H.
  setoid_rewrite (app_assoc (control_cover _ _ _ _ _)).
  rewrite app_assoc in H. setoid_rewrite app_assoc.
  set (pre := (_ ++ to_bits 8 (Z.shiftr fcs 8))) in *.
  assert (length pre = 48%nat) as Hp.
  { subst pre. field_lengths. by rewrite length_control_cover. }
  clearbody pre. rewrite bind_some in H.
  assert (48 ≤ full_information_bits mux)%nat by (destruct mux; cbn; lia).
  destruct rate; [| | |done].
  - unfold copy_prefix in H. rewrite decide_True, bind_some in H
      by (field_lengths; rewrite ?Hp; destruct mux; cbn; lia).
    rewrite drop_replicate, <- app_assoc, <- replicate_add in H.
    rewrite put_format_a_type_spec in H by (rewrite Hp; destruct mux; cbn; lia).
    apply Some_Ok_inj in H as <-. split_and!; [done|by apply typed_layout; [|lia]| |intros _; by apply typed_layout; [|lia]].
    by eexists.
  - rewrite length_replicate, copy_sub_rate in H by (rewrite Hp; destruct mux; cbn in *; lia).
    apply Some_Ok_inj in H as <-. split_and!; [done|field_lengths; lia|by eexists|done].
  - rewrite length_replicate, copy_sub_rate in H by (rewrite Hp; destruct mux; cbn in *; lia).
    apply Some_Ok_inj in H as <-. split_and!; [done|field_lengths; lia|by eexists|done].
Qed.

Lemma decode_format_b mux seq data :
  is_u8 seq → bytes data → length data = format_b_octets mux →
  decode_frame_for_mux (to_bits 8 seq ++ octet_bits data ++ to_bits (type_bits mux) 2) Full mux
  = Some (Some (DataFormatB seq data)).
Proof.
  intros Hs Hd Hl.
  assert (full_rate_typed mux 2 (to_bits 8 seq ++ octet_bits data ++ to_bits (type_bits mux) 2))
    as [Hlen Ht].
  { rewrite app_assoc. set (pre := to_bits 8 seq ++ _).
    assert (length pre = full_information_bits mux) as Hp.
    { subst pre. field_lengths. rewrite Hl. by destruct mux. }
    pose proof (typed_layout mux 2 pre ltac:(done) ltac:(lia)) as H.
    by rewrite Hp, Nat.sub_diag in H. }
  unfold decode_frame_for_mux. rewrite decide_False by lia. unfold decode_full_rate.
  assert (∀ l, get_bits (to_bits 8 seq ++ l) 0 8 = Some seq) as H0.
  { intros l. rewrite get_bits_field by lia. by rewrite Z.mod_small. }
  assert (get_octets (to_bits 8 seq ++ octet_bits data ++ to_bits (type_bits mux) 2) 8
    (format_b_octets mux) = Some data) as H1.
  { unfold get_octets. rewrite <- Hl. by apply get_octets_field. }
  rewrite H0, H1. destruct mux; cbn [type_bits full_information_bits] in *; rewrite Ht;
    cbn [mbind option_bind]; by rewrite (wrap_small 8 seq).
Qed.

Lemma decode_encode_idle mux seq bits :
  is_u8 seq → encode_frame_for_mux (Idle seq) Eighth mux = Some (Ok bits) →
  decode_frame_for_mux bits Eighth mux = Some (Some (Idle seq)).
Proof.
  intros Hs H. destruct (nordstrom_robinson_total seq Hs) as (fcs & Hf & Hu).
  cbn [encode_frame_for_mux] in H. rewrite Hf, bind_some in H.
  change (replicate (primary_bits mux Eighth) 0) with ([] ++ replicate (primary_bits mux Eighth) 0) in H.
  do 2 rewrite put_bits_zeros, bind_some in H by (field_lengths; destruct mux; cbn; lia).
  apply Some_Ok_inj in H as <-. unfold decode_frame_for_mux.
  rewrite decide_False by (field_lengths; destruct mux; cbn; lia).
  rewrite <- !app_assoc. by apply decode_idle_layout.
Qed.

Lemma decode_encode_data rate mux seq data bits :
  is_u8 seq → bytes data → encode_frame_for_mux (Data seq data) rate mux = Some (Ok bits) →
  decode_frame_for_mux bits rate mux = Some (Some (Data seq data)).
Proof.
  intros ?? H. apply encode_data_layout in H as (Hr & Hlen & Hl & [suf Hs] & Ht).
  rewrite decode_not_short by done. rewrite Hs. by apply decode_data_layout.
Qed.

Lemma decode_encode_format_b rate mux seq data bits :
  is_u8 seq → bytes data → encode_frame_for_mux (DataFormatB seq data) rate mux = Some (Ok bits) →
  decode_frame_for_mux bits rate mux = Some (Some (DataFormatB seq data)).
Proof.
  intros ?? H. destruct rate; try done.
  destruct (decide (length data = format_b_octets mux)) as [Hl|Hl].
  - rewrite encode_format_b in H by done. apply Some_Ok_inj in H as <-. by apply decode_format_b.
  - cbn [encode_frame_for_mux] in H. by rewrite decide_True in H.
Qed.

(** ** Main theorems *)

(** Whatever the encoder emits for a well-formed frame, at any rate and
    multiplex option where a control frame fits, the decoder reads back as
    the same frame (an idle frame sent above rate 1/8 comes back as the empty
    data frame it is encoded as); in particular neither side panics. *)
Theorem decode_encode (f : RlpFrame) (rate : RlpRate) (mux : RlpMuxOption) (bits : list Z) :
  wf_frame f → (is_control f = true → control_fits rate mux = true) →
  encode_frame_for_mux f rate mux = Some (Ok bits) →
  decode_frame_for_mux bits rate mux = Some (Some (canonical f rate)).
Proof.
  intros Hwf Hfit H. destruct f as [seq ct em first last|seq data|seq data|seq st data|seq].
  - destruct Hwf as (?&?&?&?).
    apply encode_control_layout in H as (Hr & Hl & [suf Hs] & Ht); [|by apply Hfit].
    rewrite decode_not_short by done. rewrite Hs. by apply decode_control_layout.
  - destruct Hwf. by apply decode_encode_data.
  - destruct Hwf. by apply decode_encode_format_b.
  - destruct Hwf. apply encode_segment_layout in H as (Hr & Hst & Hlen & Hl & [suf Hs] & Ht).
    rewrite decode_not_short by done. rewrite Hs. by apply decode_segment_layout.
  - cbn [wf_frame] in Hwf. destruct (decide (rate = Eighth)) as [->|Hr].
    + by apply decode_encode_idle.
    + assert (encode_data_format_a (replicate (primary_bits mux rate) 0) rate mux seq []
        = Some (Ok bits)) as H' by (destruct rate; done).
      apply encode_data_layout in H' as (_ & Hlen & Hl & [suf Hs] & Ht).
      rewrite decode_not_short by done. replace (canonical _ _) with (Data seq []) by (destruct rate; done).
      rewrite Hs. apply decode_data_layout; [done|constructor|cbn; lia].
Qed.

Lemma decode_encode_witness :
  ∃ bits, encode_frame_for_mux (nak_frame 7 200 203) Half Two = Some (Ok bits) ∧
          decode_frame_for_mux bits Half Two = Some (Some (nak_frame 7 200 203)).
Proof.
  eexists. split; [vm_compute; reflexivity|].
  apply (decode_encode (nak_frame 7 200 203) Half Two); vm_compute; repeat split; congruence.
Defined.

(** What the encoder accepts. *)
Definition encodable (f : RlpFrame) (rate : RlpRate) (mux : RlpMuxOption) : bool :=
  match f with
  | Idle _ => true
  | Control _ _ _ _ _ => bool_decide (rate ≠ Eighth)
  | Data _ data =>
      bool_decide (rate ≠ Eighth ∧ (length data ≤ max_len_for_rate rate mux)%nat)
  | DataFormatB _ data => bool_decide (rate = Full ∧ length data = format_b_octets mux)
  | Segmented _ st data =>
      bool_decide (rate ≠ Eighth ∧ (data = [] ↔ st = IntersegmentFill) ∧
        (length data ≤ max_len_for_rate_segmented rate mux)%nat)
  end.

Lemma encode_data_complete rate mux seq data :
  rate ≠ Eighth → (length data ≤ max_len_for_rate rate mux)%nat →
  ∃ bits, encode_data_format_a (replicate (primary_bits mux rate) 0) rate mux seq data = Some (Ok bits).
Proof.
  intros Hr Hl. unfold encode_data_format_a.
  assert (16 + 8 * length data ≤ primary_bits mux rate ∧
    (rate = Full → 16 + 8 * length data ≤ full_information_bits mux))%nat as [Hfit Hinfo].
  { destruct rate, mux; cbn in Hl |- *; (split; [lia || done|]; intros ?; (done || lia)). }
  change (replicate (primary_bits mux rate) 0) with ([] ++ replicate (primary_bits mux rate) 0).
  destruct rate; [| | |done]; rewrite decide_False by lia; put_fields;
    unfold put_octets; rewrite put_octets_zeros by (field_lengths; cbn; lia); rewrite bind_some;
    [|by eexists..].
  rewrite put_format_a_type_spec by (field_lengths; cbn [length Nat.add] in *; lia || specialize (Hinfo eq_refl); lia).
  by eexists.
Qed.

Lemma encode_control_complete rate mux seq ct em first last :
  rate ≠ Eighth →
  ∃ bits, encode_frame_for_mux (Control seq ct em first last) rate mux = Some (Ok bits).
Proof.
  intros Hr. unfold encode_frame_for_mux. rewrite control_info_layout, bind_some.
  assert (length (control_layout seq ct em first last (replicate (full_information_bits mux - 48) 0))
    = full_information_bits mux) as Hl.
  { unfold control_layout. field_lengths. rewrite length_control_cover. destruct mux; cbn; lia. }
  revert Hl. generalize (control_layout seq ct em first last (replicate (full_information_bits mux - 48) 0)) as info.
  intros info Hl. destruct rate; [| | |done].
  - unfold copy_prefix. rewrite decide_True, bind_some by (field_lengths; destruct mux; cbn in *; lia).
    rewrite drop_replicate, put_format_a_type_spec by (rewrite Hl; destruct mux; cbn; lia). by eexists.
  - rewrite length_replicate, slice_Some, bind_some by (rewrite ?Hl; destruct mux; cbn; lia).
    unfold copy_prefix. rewrite decide_True, bind_some; [by eexists|].
    rewrite length_replicate, length_take, length_drop, Hl. destruct mux; cbn; lia.
  - rewrite length_replicate, slice_Some, bind_some by (rewrite ?Hl; destruct mux; cbn; lia).
    unfold copy_prefix. rewrite decide_True, bind_some; [by eexists|].
    rewrite length_replicate, length_take, length_drop, Hl. destruct mux; cbn; lia.
Qed.

Lemma encode_segmented_complete rate mux seq st data :
  rate ≠ Eighth → (data = [] ↔ st = IntersegmentFill) →
  (length data ≤ max_len_for_rate_segmented rate mux)%nat →
  ∃ bits, encode_segmented (replicate (primary_bits mux rate) 0) rate mux seq st data = Some (Ok bits).
Proof.
  intros Hr Hst Hl.
  assert (16 + 8 * length data ≤ primary_bits mux rate ∧
    16 + 8 * length data ≤ full_information_bits mux)%nat as [Hfit Hinfo].
  { destruct rate, mux; cbn in *; (done || lia). }
  rewrite encode_segmented_form by done. cbv zeta.
  pose proof (length_segment_prefix seq st data).
  destruct rate; [|by eexists..]. rewrite put_format_a_type_spec by lia. by eexists.
Qed.

(** An [Err] is a value: the segmented encoder returns it before any write can fail. *)
Lemma encode_segmented_err rate mux seq st data :
  ¬ (rate ≠ Eighth ∧ (data = [] ↔ st = IntersegmentFill) ∧
     (length data ≤ max_len_for_rate_segmented rate mux)%nat) →
  ∃ e, encode_segmented (replicate (primary_bits mux rate) 0) rate mux seq st data = Some (Err e).
Proof.
  intros H. unfold encode_segmented.
  assert (12 ≤ primary_bits mux rate)%nat by (destruct rate, mux; cbn; lia).
  change (replicate (primary_bits mux rate) 0) with ([] ++ replicate (primary_bits mux rate) 0).
  do 2 (rewrite put_bits_zeros by (field_lengths; cbn; lia); cbn [mbind option_bind]).
  destruct rate; [| | |by eexists];
    (destruct (decide (st ≠ IntersegmentFill)) as [Hs|Hs%dec_stable];
     [destruct (decide (data = [])) as [->|Hd]; [by eexists|];
      case_decide; [by eexists|exfalso; apply H; split_and!; [done|tauto|]; destruct mux; cbn in *; lia]
     |destruct (decide (data ≠ [])) as [Hd|Hd%dec_stable]; [by eexists|];
      exfalso; apply H; subst; cbn; split_and!; [done|done|lia]]).
Qed.

(** A data frame crosses the full-rate channel unchanged. *)
Definition over_the_air (mux : RlpMuxOption) (f : RlpFrame) : option RlpFrame :=
  match encode_frame_for_mux f Full mux with
  | Some (Ok bits) => default None (decode_frame_for_mux bits Full mux)
  | _ => None
  end.

Lemma data_over_the_air mux seq data :
  is_u8 seq → bytes data → (length data ≤ max_len_for_rate Full mux)%nat →
  over_the_air mux (Data seq data) = Some (Data seq data).
Proof.
  intros. destruct (encode_data_complete Full mux seq data) as [bits Hb]; [done..|].
  change (encode_frame_for_mux (Data seq data) Full mux = Some (Ok bits)) in Hb.
  unfold over_the_air. rewrite Hb. by rewrite (decode_encode_data _ _ seq data).
Qed.

Lemma format_b_over_the_air mux seq data :
  is_u8 seq → bytes data → length data = format_b_octets mux →
  over_the_air mux (DataFormatB seq data) = Some (DataFormatB seq data).
Proof.
  intros. pose proof (encode_format_b mux seq data ltac:(done)) as Hb.
  unfold over_the_air. rewrite Hb. by rewrite (decode_encode_format_b _ _ seq data).
Qed.

(** The encoder never panics, and it succeeds exactly on the frames whose
    payload the rate and multiplex option can carry. *)
Theorem encode_ok_iff (f : RlpFrame) (rate : RlpRate) (mux : RlpMuxOption) :
  is_u8 (seq f) →
  ∃ r, encode_frame_for_mux f rate mux = Some r ∧
       ((∃ bits, r = Ok bits) ↔ encodable f rate mux = true).
Proof.
  intros Hs.
  assert (∀ x : rust (result RlpEncodeError (list Z)), ∀ b : bool,
    (b = true → ∃ bits, x = Some (Ok bits)) → (b = false → ∃ e, x = Some (Err e)) →
    ∃ r, x = Some r ∧ ((∃ bits, r = Ok bits) ↔ b = true)) as Hkey.
  { intros x [] H1 H2.
    - destruct (H1 eq_refl) as [bits ->]. eexists. split; [done|]. by split; [|eauto].
    - destruct (H2 eq_refl) as [e ->]. eexists. split; [done|]. split; [by intros [? [=]]|done]. }
  apply Hkey; clear Hkey; destruct f as [sq ct em fi la|sq data|sq data|sq st data|sq];
    cbn [encodable]; intros H; rewrite ?bool_decide_eq_true, ?bool_decide_eq_false in H.
  - by apply encode_control_complete.
  - destruct H. by apply encode_data_complete.
  - destruct H as [-> H]. rewrite encode_format_b by done. by eexists.
  - destruct H as (?&?&?). by apply encode_segmented_complete.
  - destruct (decide (rate = Eighth)) as [->|Hr].
    + destruct (nordstrom_robinson_total sq Hs) as (fcs & Hf & Hu).
      cbn [encode_frame_for_mux]. rewrite Hf, bind_some.
      change (replicate (primary_bits mux Eighth) 0) with ([] ++ replicate (primary_bits mux Eighth) 0).
      do 2 rewrite put_bits_zeros, bind_some by (field_lengths; destruct mux; cbn; lia). by eexists.
    + assert (∃ bits, encode_data_format_a (replicate (primary_bits mux rate) 0) rate mux sq []
        = Some (Ok bits)) as [bits Hb] by (apply encode_data_complete; [done|cbn; lia]).
      exists bits. by destruct rate.
  - apply dec_stable in H as ->. cbn [encode_frame_for_mux]. rewrite control_info_layout. by eexists.
  - cbn [encode_frame_for_mux]. unfold encode_data_format_a. destruct rate; [| | |by eexists];
      (case_decide; [by eexists|exfalso; apply H; split; [done|lia]]).
  - cbn [encode_frame_for_mux]. destruct rate; [|by eexists..].
    rewrite decide_True by naive_solver. by eexists.
  - by apply encode_segmented_err.
  - done.
Qed.

Lemma encode_ok_iff_witness :
  ∃ r, encode_frame_for_mux (Data 3 (replicate 20 0)) Full One = Some r ∧
       ((∃ bits, r = Ok bits) ↔ false = true).
Proof. apply (encode_ok_iff (Data 3 (replicate 20 0)) Full One). vm_compute. split; congruence. Defined.

(** ** Panic-freedom of the decoder *)
Lemma get_octets_in_range bits off len :
  (off + 8 * len ≤ length bits)%nat → ∃ data, get_octets bits off len = Some data.
Proof.
  intros H. unfold get_octets. apply mapM_is_Some_2, Forall_forall.
  intros i Hi%elem_of_seq. unfold compose. destruct (get_bits_in_range bits (off + i * 8) 8) as [v ->]; [lia|].
  by eexists.
Qed.

Lemma of_bits_bound l : (length l ≤ 31)%nat → is_u (Z.of_nat (length l)) (of_bits l).
Proof.
  induction l as [|b l IH] using rev_ind; intros Hl; [done|].
  rewrite length_app in Hl |- *. cbn in Hl |- *. rewrite of_bits_snoc.
  specialize (IH ltac:(lia)). rewrite push_bit_small by (apply (is_u_mono (Z.of_nat (length l))); done || lia).
  pose proof (Z.mod_pos_bound b 2 ltac:(lia)).
  rewrite Nat2Z.inj_add. unfold is_u in *. rewrite Z.pow_add_r by lia. lia.
Qed.

Lemma get_bits_bound bits off n v :
  (n ≤ 31)%nat → (off + n ≤ length bits)%nat → get_bits bits off n = Some v → is_u (Z.of_nat n) v.
Proof.
  intros Hn H. rewrite <- (take_drop off bits), <- (take_drop n (drop off bits)).
  rewrite get_bits_spec by (rewrite length_take, ?length_drop; lia). intros [= <-].
  assert (length (take n (drop off bits)) = n) as Hl by (rewrite length_take, length_drop; lia).
  pose proof (of_bits_bound (take n (drop off bits))) as Hb. rewrite Hl in Hb. by apply Hb.
Qed.

Lemma index_in_range {A} (l : list A) i : (i < length l)%nat → ∃ v, index l i = Some v.
Proof. intros H. by apply lookup_lt_is_Some_2 in H as [v ?]; exists v. Qed.

Ltac get_in_range :=
  match goal with
  | |- (get_bits ?b ?o ?n ≫= _) ≠ _ =>
      let v := fresh "v" in let E := fresh "E" in
      destruct (get_bits_in_range b o n) as [v E]; [lia|]; rewrite E, bind_some
  | |- (index ?b ?o ≫= _) ≠ _ =>
      let v := fresh "v" in let E := fresh "E" in
      destruct (index_in_range b o) as [v E]; [lia|]; rewrite E, bind_some
  end.

Lemma decode_non_full_rate_total bits rate mux :
  rate ≠ Eighth → (primary_bits mux rate ≤ length bits)%nat → control_fits rate mux = true →
  decode_non_full_rate bits rate mux ≠ None.
Proof.
  intros Hr Hl Hfit%bool_decide_eq_true. unfold decode_non_full_rate. do 2 get_in_range.
  destruct (_ =? 0).
  - unfold decode_unsegmented. get_in_range.
    case_decide; [done|]. case_decide; [done|].
    destruct (get_octets_in_range bits 16 (Z.to_nat v1)) as [data ->]; [|done].
    destruct rate, mux; cbn in *; done || lia.
  - get_in_range. destruct (v1 =? 1).
    + unfold decode_control. get_in_range. destruct (from_ctl_bits _); [|done].
      do 5 get_in_range. rewrite slice_Some, bind_some by lia. by case_decide.
    + unfold decode_segmented. get_in_range. destruct (segment_type_of _); [|done].
      case_decide; [done|]. get_in_range.
      case_decide; [done|]. case_decide; [done|].
      destruct (get_octets_in_range bits 16 (Z.to_nat v3)) as [data ->]; [|done].
      destruct rate, mux; cbn in *; done || lia.
Qed.

(** The decoder never panics, whatever the received bits, except for the
    quarter-rate frames of multiplex option 1, too short for a control frame;
    a frame shorter than its rate's size is rejected. *)
Theorem decode_total (bits : list Z) (rate : RlpRate) (mux : RlpMuxOption) :
  (rate, mux) ≠ (Quarter, One) →
  ∃ r, decode_frame_for_mux bits rate mux = Some r ∧
       ((length bits < primary_bits mux rate)%nat → r = None).
Proof.
  intros Hne.
  destruct (decide (length bits < primary_bits mux rate)%nat) as [Hs|Hl].
  { exists None. unfold decode_frame_for_mux. by rewrite decide_True. }
  assert (decode_frame_for_mux bits rate mux ≠ None) as H.
  { unfold decode_frame_for_mux. rewrite decide_False by done.
    apply Nat.nlt_ge in Hl. destruct rate.
    - unfold decode_full_rate. destruct mux; cbn [primary_bits full_information_bits] in *;
        (get_in_range; destruct (_ =? _); [by apply decode_non_full_rate_total; cbn|]);
        (destruct (_ =? _); [|done]); get_in_range;
        destruct (get_octets_in_range bits 8 (format_b_octets One)) as [d Hd]; try (cbn; lia);
        try (destruct (get_octets_in_range bits 8 (format_b_octets Two)) as [d' Hd']; [cbn; lia|]);
        by rewrite ?Hd, ?Hd'.
    - by apply decode_non_full_rate_total; [done|done|destruct mux].
    - apply decode_non_full_rate_total; [done|done|by destruct mux].
    - unfold decode_idle. assert (16 ≤ length bits)%nat by (destruct mux; cbn in *; lia).
      do 2 get_in_range. destruct (nordstrom_robinson_total (v as_u8)) as (f & -> & _);
        [by apply is_u_wrap|]. rewrite bind_some. by case_decide. }
  destruct (decode_frame_for_mux bits rate mux) as [r|]; [|done].
  exists r. split; [done|]. intros; lia.
Qed.

Lemma decode_total_witness :
  ∃ r, decode_frame_for_mux (replicate 171 1) Full One = Some r ∧
       ((length (replicate 171%nat 1) < primary_bits One Full)%nat → r = None).
Proof. apply (decode_total (replicate 171 1) Full One). discriminate. Defined.

Lemma get_bits_out_of_range bits off n :
  (length bits ≤ off)%nat → (0 < n)%nat → get_bits bits off n = None.
Proof.
  intros H Hn. destruct n as [|n]; [lia|]. unfold get_bits. cbn [List.seq foldl mbind option_bind].
  unfold index at 2. rewrite lookup_ge_None_2 by lia. cbn.
  generalize (List.seq 1 n). induction l as [|i l IH]; cbn; done.
Qed.

Lemma decode_control_short bits seq ct :
  length bits = 40%nat → get_bits bits 8 6 = Some (ctl_bits ct) → decode_control bits seq = None.
Proof.
  intros Hl Hc. unfold decode_control. rewrite Hc, bind_some.
  rewrite (wrap_small 8) by by destruct ct.
  assert (from_ctl_bits (ctl_bits ct) = Some ct) as -> by by destruct ct.
  destruct (get_bits_in_range bits 14 2) as [? ->]; [lia|]. rewrite bind_some.
  destruct (get_bits_in_range bits 16 8) as [? ->]; [lia|]. rewrite bind_some.
  destruct (get_bits_in_range bits 24 8) as [? ->]; [lia|]. rewrite bind_some.
  destruct (get_bits_in_range bits 32 8) as [? ->]; [lia|]. rewrite bind_some.
  by rewrite get_bits_out_of_range by lia.
Qed.

(** A quarter-rate control frame of multiplex option 1 is accepted by the
    encoder, which truncates its check sequence, and makes the decoder read
    past the frame's 40 bits and panic. *)
Theorem quarter_rate_control_panics (seq : Z) (ct : ControlType) (em first last : Z) :
  is_u8 seq →
  ∃ bits, encode_frame_for_mux (Control seq ct em first last) Quarter One = Some (Ok bits) ∧
          decode_frame_for_mux bits Quarter One = None.
Proof.
  intros Hs. unfold encode_frame_for_mux. rewrite control_info_layout, bind_some.
  unfold control_layout. set (fcs := fcs16_rfc1662 _). clearbody fcs.
  rewrite length_replicate. cbn [primary_bits full_information_bits].
  rewrite app_assoc, slice_prefix, bind_some by (field_lengths; by rewrite length_control_cover).
  unfold copy_prefix. rewrite decide_True, bind_some
    by (field_lengths; rewrite length_control_cover; lia).
  eexists. split; [reflexivity|]. rewrite drop_replicate, app_nil_r.
  unfold decode_frame_for_mux.
  rewrite decide_False by (field_lengths; rewrite length_control_cover; cbn; lia).
  unfold decode_non_full_rate. set (bits := control_cover _ _ _ _ _ ++ _).
  assert (length bits = 40%nat) as Hl.
  { subst bits. field_lengths. by rewrite length_control_cover. }
  assert (index bits 8 = Some 1 ∧ index bits 9 = Some 1 ∧ get_bits bits 8 6 = Some (ctl_bits ct))
    as (E8 & E9 & Ec).
  { subst bits. rewrite control_cover_app. split_and!; skip_fields; by destruct ct. }
  destruct (get_bits_in_range bits 0 8) as [v ->]; [lia|].
  rewrite E8, E9, !bind_some. cbn [Z.eqb Pos.eqb]. by apply (decode_control_short _ _ ct).
Qed.

Lemma quarter_rate_control_panics_witness :
  ∃ bits, encode_frame_for_mux (sync_frame 0) Quarter One = Some (Ok bits) ∧
          decode_frame_for_mux bits Quarter One = None.
Proof. apply (quarter_rate_control_panics 0 Sync 0 0 0). vm_compute. split; congruence. Defined.

(** ** The idle-frame code *)
Fixpoint popcount_pos (p : positive) : nat :=
  match p with
  | xH => 1
  | xO p => popcount_pos p
  | xI p => S (popcount_pos p)
  end.
Definition popcount (z : Z) : nat := match z with Zpos p => popcount_pos p | _ => 0 end.
Definition hamming (a b : Z) : nat := popcount (Z.lxor a b).

(** The 16-bit codeword an idle frame carries: SEQ, then its check octet. *)
Definition idle_codeword (seq : Z) : Z :=
  match nordstrom_robinson_fcs seq with Some fcs => seq * 256 + fcs | None => -1 end.

(** The SEQ values whose table entry breaks the code. *)
Definition damaged (seq : Z) : bool :=
  (seq =? 0x32) || (seq =? 0x52) || (seq =? 0x72) || (seq =? 0x92).

(** Outside four damaged entries the idle-frame table is a code of minimum
    distance 6, as the Nordstrom-Robinson code is: two idle frames of different
    sequence numbers differ in at least six bits. *)
Theorem idle_code_distance (a b : Z) :
  is_u8 a → is_u8 b → a ≠ b → damaged a = false → damaged b = false →
  (6 ≤ hamming (idle_codeword a) (idle_codeword b))%nat.
Proof.
  intros Ha Hb Hab Da Db.
  pose proof (all_u8_spec (λ a, all_u8 (λ b, (a =? b) || damaged a || damaged b ||
    Nat.leb 6 (hamming (idle_codeword a) (idle_codeword b)))) a) as H.
  specialize (H ltac:(vm_compute; reflexivity) Ha). cbv beta in H.
  apply all_u8_spec with (z := b) in H; [|done]. cbv beta in H.
  rewrite Da, Db, !orb_false_r in H. apply orb_true_iff in H as [H|H].
  - apply Z.eqb_eq in H. done.
  - by apply Nat.leb_le in H.
Qed.

Lemma idle_code_distance_witness : (6 ≤ hamming (idle_codeword 0x12) (idle_codeword 0x13))%nat.
Proof. apply (idle_code_distance 0x12 0x13); vm_compute; repeat split; congruence. Defined.

(** The damaged entries do break it: the idle frames of SEQ 0x62 and 0x72
    differ in two bits only, and each damaged codeword is within five bits of
    another codeword. *)
Theorem idle_code_damaged :
  hamming (idle_codeword 0x62) (idle_codeword 0x72) = 2%nat ∧
  (∀ a, a ∈ [0x32; 0x52; 0x72; 0x92] →
     ∃ b, is_u8 b ∧ damaged b = false ∧ (0 < hamming (idle_codeword a) (idle_codeword b) < 6)%nat).
Proof.
  split; [vm_compute; reflexivity|]. intros a Ha.
  assert (∃ b, is_u8 b ∧ damaged b = false ∧
    Nat.ltb 0 (hamming (idle_codeword a) (idle_codeword b)) = true ∧
    Nat.ltb (hamming (idle_codeword a) (idle_codeword b)) 6 = true) as (b & Hb & Hd & H1 & H2).
  { rewrite !elem_of_cons, elem_of_nil in Ha.
    destruct Ha as [->|[->|[->|[->|[]]]]];
      [exists 0xa2|exists 0x40|exists 0x62|exists 0x83]; vm_compute; repeat split; congruence. }
  exists b. apply Nat.ltb_lt in H1, H2. auto.
Qed.

(** ** The two bit orders of the check sequence *)
Lemma crc16_rlp_steps bits :
  bitstring bits →
  crc16_rlp bits = Z.lxor 0xFFFF (foldl (λ c b, fcs_bit_step (Z.lxor c b)) 0xFFFF bits).
Proof.
  intros Hb. unfold crc16_rlp. f_equal. generalize 0xFFFF as c.
  induction Hb as [|b bits Hb Hbs IH]; intros c; cbn [foldl]; [done|]. rewrite IH. f_equal.
  unfold fcs_bit_step. rewrite Z.shiftr_lxor.
  destruct (bit_cases b Hb) as [-> | ->];
    [change (Z.land 0 1) with 0; change (Z.shiftr 0 1) with 0
    |change (Z.land 1 1) with 1; change (Z.shiftr 1 1) with 0]; by rewrite !Z.lxor_0_r.
Qed.

Lemma octet_byte_le_value octet :
  bitstring octet → length octet = 8%nat → octet_byte octet = le_value (reverse octet).
Proof.
  intros Hb Hl.
  do 8 (destruct octet as [|? octet]; [done|]). destruct octet; [|done]. clear Hl.
  unfold bitstring in Hb. rewrite !Forall_cons in Hb. destruct_and! Hb.
  repeat match goal with H : is_u 1 ?b |- _ => destruct (bit_cases b H) as [-> | ->]; clear H end;
    vm_compute; reflexivity.
Qed.

Lemma chunks_octets (octets : list (list Z)) :
  Forall (λ o, bitstring o ∧ length o = 8%nat) octets → chunks 8 (mjoin octets) = octets.
Proof.
  intros H. unfold chunks. cut (∀ fuel, (length (mjoin octets) ≤ fuel)%nat →
    chunks_fuel fuel 8 (mjoin octets) = octets); [by auto|].
  induction H as [|o os [Ho Hl] Hos IH]; intros fuel Hf; [by destruct fuel|].
  change (mjoin (o :: os)) with (o ++ mjoin os) in *. rewrite length_app in Hf.
  destruct fuel as [|fuel]; [lia|].
  destruct o as [|x o]; [done|]. cbn [chunks_fuel app].
  change (x :: o ++ mjoin os) with ((x :: o) ++ mjoin os).
  rewrite take_app_length', drop_app_length' by done. f_equal. apply IH. lia.
Qed.

(** The RFC 1662 check sequence of control frames is the plain bit CRC of
    [crc16_rlp] applied to the same octets with the bit order inside each octet
    reversed, which is how the two differ on the air. *)
Theorem fcs16_is_crc_of_reversed_octets (octets : list (list Z)) :
  Forall (λ o, bitstring o ∧ length o = 8%nat) octets →
  fcs16_rfc1662 (mjoin octets) = crc16_rlp (mjoin (reverse <$> octets)).
Proof.
  intros H. rewrite crc16_rlp_steps.
  2: { induction H as [|o os [Ho _] Hos IH]; [constructor|]. cbn. apply Forall_app. split; [|done].
       by apply Forall_reverse. }
  unfold fcs16_rfc1662. rewrite chunks_octets by done. unfold bit_not.
  rewrite Z.lxor_comm. f_equal. generalize 0xFFFF as c.
  induction H as [|o os [Ho Hl] Hos IH]; intros c; [done|]. cbn [foldl].
  change (mjoin (reverse <$> o :: os)) with (reverse o ++ mjoin (reverse <$> os)).
  rewrite foldl_app, <- IH. f_equal. rewrite fcs_bits_value by by apply Forall_reverse.
  rewrite length_reverse, Hl, octet_byte_le_value by done. done.
Qed.

Lemma fcs16_is_crc_of_reversed_octets_witness :
  fcs16_rfc1662 [1;0;0;0;0;0;0;0] = crc16_rlp [0;0;0;0;0;0;0;1].
Proof.
  apply (fcs16_is_crc_of_reversed_octets [[1;0;0;0;0;0;0;0]]).
  repeat constructor; vm_compute; congruence.
Defined.
