(* ===== verification/RlpSession.v ===== *)
(** * RLP Type 1 session ([cdma-packet/src/lib/rlp_session.rs])

    The BS/MSC side of one RLP link: the SYNC handshake, the sequence-numbered
    sender with its retransmission history, and the resequencing receiver with
    its NAKs.  The session is a record; every method is a function from the
    session to the session it leaves (and what it returns).

    The 256-slot vectors indexed by an octet are finite maps: an absent key is
    a [None] slot ([reseq_buffer], [tx_history]), a [false] slot
    ([nak_outstanding], a set).  An octet is always in range of such a vector,
    so these accesses cannot panic.  The frame counters are unbounded where the
    code has 32 bits: they count frames of 20 ms. *)
From S2P Require Import Prelude Rlp.

Inductive RlpState := Uninitialized | StSync | StSyncAck | StAck | DataTransfer.
#[export] Instance RlpState_eq_dec : EqDecision RlpState.
Proof. solve_decision. Defined.

Inductive RlpOutput := SendFrame (f : RlpFrame) | Nothing.

Record SegmentAssembly := mkSegmentAssembly {
  asm_seq : Z;
  asm_data : list Z;
  expect_second_or_last : bool
}.

Record RlpSession := mkRlpSession {
  state : RlpState;
  v_s : Z;
  v_r : Z;
  v_n : Z;
  round_trip_counter : Z;
  rlp_delay : Z;
  handshake_frames_sent : Z;
  consecutive_erasures : Z;
  tx_queue : list Z;
  rx_buffer : list Z;
  reseq_buffer : gmap Z (list Z);
  pending_controls : list RlpFrame;
  pending_retransmissions : list RlpFrame;
  tx_history : gmap Z RlpFrame;
  nak_outstanding : gset Z;
  segment_assembly : option SegmentAssembly
}.

(** Field updates ([self.field = x]). *)
Definition set_state (x : RlpState) (s : RlpSession) : RlpSession :=
  mkRlpSession x (v_s s) (v_r s) (v_n s) (round_trip_counter s) (rlp_delay s) (handshake_frames_sent s) (consecutive_erasures s) (tx_queue s) (rx_buffer s) (reseq_buffer s) (pending_controls s) (pending_retransmissions s) (tx_history s) (nak_outstanding s) (segment_assembly s).
Definition set_v_s (x : Z) (s : RlpSession) : RlpSession :=
  mkRlpSession (state s) x (v_r s) (v_n s) (round_trip_counter s) (rlp_delay s) (handshake_frames_sent s) (consecutive_erasures s) (tx_queue s) (rx_buffer s) (reseq_buffer s) (pending_controls s) (pending_retransmissions s) (tx_history s) (nak_outstanding s) (segment_assembly s).
Definition set_v_r (x : Z) (s : RlpSession) : RlpSession :=
  mkRlpSession (state s) (v_s s) x (v_n s) (round_trip_counter s) (rlp_delay s) (handshake_frames_sent s) (consecutive_erasures s) (tx_queue s) (rx_buffer s) (reseq_buffer s) (pending_controls s) (pending_retransmissions s) (tx_history s) (nak_outstanding s) (segment_assembly s).
Definition set_v_n (x : Z) (s : RlpSession) : RlpSession :=
  mkRlpSession (state s) (v_s s) (v_r s) x (round_trip_counter s) (rlp_delay s) (handshake_frames_sent s) (consecutive_erasures s) (tx_queue s) (rx_buffer s) (reseq_buffer s) (pending_controls s) (pending_retransmissions s) (tx_history s) (nak_outstanding s) (segment_assembly s).
Definition set_round_trip_counter (x : Z) (s : RlpSession) : RlpSession :=
  mkRlpSession (state s) (v_s s) (v_r s) (v_n s) x (rlp_delay s) (handshake_frames_sent s) (consecutive_erasures s) (tx_queue s) (rx_buffer s) (reseq_buffer s) (pending_controls s) (pending_retransmissions s) (tx_history s) (nak_outstanding s) (segment_assembly s).
Definition set_rlp_delay (x : Z) (s : RlpSession) : RlpSession :=
  mkRlpSession (state s) (v_s s) (v_r s) (v_n s) (round_trip_counter s) x (handshake_frames_sent s) (consecutive_erasures s) (tx_queue s) (rx_buffer s) (reseq_buffer s) (pending_controls s) (pending_retransmissions s) (tx_history s) (nak_outstanding s) (segment_assembly s).
Definition set_handshake_frames_sent (x : Z) (s : RlpSession) : RlpSession :=
  mkRlpSession (state s) (v_s s) (v_r s) (v_n s) (round_trip_counter s) (rlp_delay s) x (consecutive_erasures s) (tx_queue s) (rx_buffer s) (reseq_buffer s) (pending_controls s) (pending_retransmissions s) (tx_history s) (nak_outstanding s) (segment_assembly s).
Definition set_consecutive_erasures (x : Z) (s : RlpSession) : RlpSession :=
  mkRlpSession (state s) (v_s s) (v_r s) (v_n s) (round_trip_counter s) (rlp_delay s) (handshake_frames_sent s) x (tx_queue s) (rx_buffer s) (reseq_buffer s) (pending_controls s) (pending_retransmissions s) (tx_history s) (nak_outstanding s) (segment_assembly s).
Definition set_tx_queue (x : list Z) (s : RlpSession) : RlpSession :=
  mkRlpSession (state s) (v_s s) (v_r s) (v_n s) (round_trip_counter s) (rlp_delay s) (handshake_frames_sent s) (consecutive_erasures s) x (rx_buffer s) (reseq_buffer s) (pending_controls s) (pending_retransmissions s) (tx_history s) (nak_outstanding s) (segment_assembly s).
Definition set_rx_buffer (x : list Z) (s : RlpSession) : RlpSession :=
  mkRlpSession (state s) (v_s s) (v_r s) (v_n s) (round_trip_counter s) (rlp_delay s) (handshake_frames_sent s) (consecutive_erasures s) (tx_queue s) x (reseq_buffer s) (pending_controls s) (pending_retransmissions s) (tx_history s) (nak_outstanding s) (segment_assembly s).
Definition set_reseq_buffer (x : gmap Z (list Z)) (s : RlpSession) : RlpSession :=
  mkRlpSession (state s) (v_s s) (v_r s) (v_n s) (round_trip_counter s) (rlp_delay s) (handshake_frames_sent s) (consecutive_erasures s) (tx_queue s) (rx_buffer s) x (pending_controls s) (pending_retransmissions s) (tx_history s) (nak_outstanding s) (segment_assembly s).
Definition set_pending_controls (x : list RlpFrame) (s : RlpSession) : RlpSession :=
  mkRlpSession (state s) (v_s s) (v_r s) (v_n s) (round_trip_counter s) (rlp_delay s) (handshake_frames_sent s) (consecutive_erasures s) (tx_queue s) (rx_buffer s) (reseq_buffer s) x (pending_retransmissions s) (tx_history s) (nak_outstanding s) (segment_assembly s).
Definition set_pending_retransmissions (x : list RlpFrame) (s : RlpSession) : RlpSession :=
  mkRlpSession (state s) (v_s s) (v_r s) (v_n s) (round_trip_counter s) (rlp_delay s) (handshake_frames_sent s) (consecutive_erasures s) (tx_queue s) (rx_buffer s) (reseq_buffer s) (pending_controls s) x (tx_history s) (nak_outstanding s) (segment_assembly s).
Definition set_tx_history (x : gmap Z RlpFrame) (s : RlpSession) : RlpSession :=
  mkRlpSession (state s) (v_s s) (v_r s) (v_n s) (round_trip_counter s) (rlp_delay s) (handshake_frames_sent s) (consecutive_erasures s) (tx_queue s) (rx_buffer s) (reseq_buffer s) (pending_controls s) (pending_retransmissions s) x (nak_outstanding s) (segment_assembly s).
Definition set_nak_outstanding (x : gset Z) (s : RlpSession) : RlpSession :=
  mkRlpSession (state s) (v_s s) (v_r s) (v_n s) (round_trip_counter s) (rlp_delay s) (handshake_frames_sent s) (consecutive_erasures s) (tx_queue s) (rx_buffer s) (reseq_buffer s) (pending_controls s) (pending_retransmissions s) (tx_history s) x (segment_assembly s).
Definition set_segment_assembly (x : option SegmentAssembly) (s : RlpSession) : RlpSession :=
  mkRlpSession (state s) (v_s s) (v_r s) (v_n s) (round_trip_counter s) (rlp_delay s) (handshake_frames_sent s) (consecutive_erasures s) (tx_queue s) (rx_buffer s) (reseq_buffer s) (pending_controls s) (pending_retransmissions s) (tx_history s) (nak_outstanding s) x.

(** ** Sequence-number comparison, modulo 256 *)
Inductive SeqCmp := SeqLess | SeqEqual | SeqGreater.
#[export] Instance SeqCmp_eq_dec : EqDecision SeqCmp.
Proof. solve_decision. Defined.

Definition seq_compare (a b : Z) : SeqCmp :=
  if a =? b then SeqEqual
  else
    let diff := wrapping_sub 8 a b in
    if (1 <=? diff) && (diff <=? 127) then SeqGreater else SeqLess.

Definition seq_gt (a b : Z) : bool := bool_decide (seq_compare a b = SeqGreater).
Definition seq_lt (a b : Z) : bool := bool_decide (seq_compare a b = SeqLess).

Definition is_sync_frame (f : RlpFrame) : bool :=
  match f with Control _ Sync _ _ _ => true | _ => false end.
Definition is_sync_ack_frame (f : RlpFrame) : bool :=
  match f with Control _ SyncAck _ _ _ => true | _ => false end.

(** ** Construction and reset *)
Definition new : RlpSession :=
  mkRlpSession Uninitialized 0 0 0 0 0 0 0 [] [] ∅ [] [] ∅ ∅ None.

(** Every field is reset. *)
Definition initialize (s : RlpSession) : RlpSession :=
  mkRlpSession StSync 0 0 0 0 0 0 0 [] [] ∅ [] [] ∅ ∅ None.

Definition enqueue_data (data : list Z) (s : RlpSession) : RlpSession :=
  set_tx_queue (tx_queue s ++ data) s.

Definition take_received_data (s : RlpSession) : RlpSession * list Z :=
  (set_rx_buffer [] s, rx_buffer s).

Definition enter_data_transfer (s : RlpSession) : RlpSession := set_state DataTransfer s.

Definition measure_delay (s : RlpSession) : RlpSession :=
  set_rlp_delay (Z.max (handshake_frames_sent s) 1) s.

(** ** Receiving data *)

(** The loop empties one of the 256 slots of [reseq_buffer] per round, so 257
    rounds reach an empty slot ([deliver_contiguous_terminates]). *)
Fixpoint deliver_contiguous_loop (fuel : nat) (s : RlpSession) : RlpSession :=
  match fuel with
  | O => s
  | S fuel =>
      match reseq_buffer s !! v_n s with
      | Some data =>
          let s := set_reseq_buffer (delete (v_n s) (reseq_buffer s)) s in
          let s := set_rx_buffer (rx_buffer s ++ data) s in
          deliver_contiguous_loop fuel (set_v_n (wrapping_add 8 (v_n s) 1) s)
      | None => s
      end
  end.
Definition deliver_contiguous (s : RlpSession) : RlpSession :=
  deliver_contiguous_loop 257 s.

(** The loop walks the sequence numbers from [first] to [last] modulo 256. *)
Fixpoint queue_naks_loop (fuel : nat) (seq last : Z) (s : RlpSession) : RlpSession :=
  match fuel with
  | O => s
  | S fuel =>
      let s :=
        if bool_decide (reseq_buffer s !! seq = None) && negb (bool_decide (seq ∈ nak_outstanding s))
        then set_nak_outstanding ({[seq]} ∪ nak_outstanding s)
               (set_pending_controls (pending_controls s ++ [nak_frame (v_s s) seq seq]) s)
        else s in
      if seq =? last then s else queue_naks_loop fuel (wrapping_add 8 seq 1) last s
  end.
Definition queue_naks_for_missing_range (first last : Z) (s : RlpSession) : RlpSession :=
  queue_naks_loop 256 first last s.

Definition update_vr_for_idle (seq : Z) (s : RlpSession) : RlpSession :=
  if seq_gt seq (v_r s) then
    set_v_r seq (queue_naks_for_missing_range (v_n s) (wrapping_sub 8 seq 1) s)
  else s.

(** What [receive_data] hands up: the receive buffer, when it is not empty. *)
Definition flush (s : RlpSession) : RlpSession * option (list Z) :=
  if decide (rx_buffer s ≠ []) then
    let '(s, data) := take_received_data s in (s, Some data)
  else (s, None).

Definition receive_data (seq : Z) (data : list Z) (s : RlpSession) : RlpSession * option (list Z) :=
  let cmp := seq_compare seq (v_r s) in
  let s := set_nak_outstanding (nak_outstanding s ∖ {[seq]}) s in
  match cmp with
  | SeqEqual =>
      if v_r s =? v_n s then
        let s := set_v_r (wrapping_add 8 (v_r s) 1) s in
        let s := set_v_n (wrapping_add 8 (v_n s) 1) s in
        let s := set_rx_buffer (rx_buffer s ++ data) s in
        flush (deliver_contiguous s)
      else
        let s := set_v_r (wrapping_add 8 (v_r s) 1) s in
        let s := set_reseq_buffer (<[seq := data]> (reseq_buffer s)) s in
        if seq_gt (wrapping_sub 8 (v_r s) 128) (v_n s) then (initialize s, None) else flush s
  | SeqGreater =>
      let s := set_reseq_buffer (<[seq := data]> (reseq_buffer s)) s in
      let s := queue_naks_for_missing_range (v_n s) (wrapping_sub 8 seq 1) s in
      let s := set_v_r (wrapping_add 8 seq 1) s in
      if seq_gt (wrapping_sub 8 (v_r s) 128) (v_n s) then (initialize s, None) else flush s
  | SeqLess =>
      if seq_lt seq (v_n s) then (s, None)
      else if bool_decide (reseq_buffer s !! seq = None) then
        let s := set_reseq_buffer (<[seq := data]> (reseq_buffer s)) s in
        let s := set_nak_outstanding (nak_outstanding s ∖ {[seq]}) s in
        flush (if seq =? v_n s then deliver_contiguous s else s)
      else flush s
  end.

Fixpoint process_nak_loop (fuel : nat) (seq last : Z) (s : RlpSession) : RlpSession :=
  match fuel with
  | O => s
  | S fuel =>
      if (seq =? v_s s) || seq_gt seq (v_s s) then initialize s
      else
        let s := match tx_history s !! seq with
                 | Some frame => set_pending_retransmissions (pending_retransmissions s ++ [frame]) s
                 | None => s
                 end in
        if seq =? last then s else process_nak_loop fuel (wrapping_add 8 seq 1) last s
  end.
Definition process_nak (first last : Z) (s : RlpSession) : RlpSession :=
  process_nak_loop 256 first last s.

Definition receive_segmented (seq : Z) (segment_type : SegmentType) (data : list Z) (s : RlpSession)
    : RlpSession * option (list Z) :=
  match segment_type with
  | IntersegmentFill => (s, None)
  | First => (set_segment_assembly (Some (mkSegmentAssembly seq data true)) s, None)
  | Second =>
      match segment_assembly s with
      | None => (s, None)
      | Some a =>
          if negb (asm_seq a =? seq) || negb (expect_second_or_last a)
          then (set_segment_assembly None s, None)
          else (set_segment_assembly (Some (mkSegmentAssembly (asm_seq a) (asm_data a ++ data) false)) s,
                None)
      end
  | Last =>
      match segment_assembly s with
      | None => (s, None)
      | Some a =>
          let s := set_segment_assembly None s in
          if negb (asm_seq a =? seq) then (s, None)
          else receive_data seq (asm_data a ++ data) s
      end
  end.

Definition process_data_frame (frame : RlpFrame) (s : RlpSession) : RlpSession * option (list Z) :=
  match frame with
  | Data seq data =>
      if decide (data = []) then (update_vr_for_idle seq s, None) else receive_data seq data s
  | DataFormatB seq data => receive_data seq data s
  | Idle seq => (update_vr_for_idle seq s, None)
  | Control _ Nak _ first last => (process_nak first last s, None)
  | Control _ _ _ _ _ => (s, None)
  | Segmented seq segment_type data => receive_segmented seq segment_type data s
  end.

Definition receive_frame (frame : option RlpFrame) (s : RlpSession) : RlpSession * option (list Z) :=
  let s := if decide (state s = Uninitialized) then initialize s else s in
  match frame with
  | None =>
      let s := set_consecutive_erasures (consecutive_erasures s + 1) s in
      (if 127 <? consecutive_erasures s then initialize s else s, None)
  | Some f =>
      let s := set_consecutive_erasures 0 s in
      match state s with
      | Uninitialized => (s, None)
      | StSync =>
          match f with
          | Control _ Sync _ _ _ =>
              (set_state StSyncAck (set_handshake_frames_sent 0 (set_round_trip_counter 4 s)), None)
          | Control _ SyncAck _ _ _ =>
              let s := measure_delay s in
              (set_state StAck (set_handshake_frames_sent 0 (set_round_trip_counter 4 s)), None)
          | _ => (s, None)
          end
      | StSyncAck =>
          match f with
          | Control _ Sync _ _ _ => (set_handshake_frames_sent 0 s, None)
          | Control _ Ack _ _ _ | Control _ SyncAck _ _ _ =>
              (enter_data_transfer (measure_delay s), None)
          | _ =>
              if negb (is_sync_frame f) then process_data_frame f (enter_data_transfer s)
              else (s, None)
          end
      | StAck =>
          match f with
          | Control _ SyncAck _ _ _ => (set_handshake_frames_sent 0 s, None)
          | Control _ Sync _ _ _ => (initialize s, None)
          | _ =>
              if negb (is_sync_ack_frame f) then process_data_frame f (enter_data_transfer s)
              else (s, None)
          end
      | DataTransfer =>
          if is_sync_frame f then (initialize s, None) else process_data_frame f s
      end
  end.

(** ** Transmitting *)
Definition build_data_frame (mux : RlpMuxOption) (s : RlpSession) : RlpSession * RlpOutput :=
  match pending_controls s with
  | f :: rest => (set_pending_controls rest s, SendFrame f)
  | [] =>
  match pending_retransmissions s with
  | f :: rest => (set_pending_retransmissions rest s, SendFrame f)
  | [] =>
  if decide (tx_queue s = []) then (s, SendFrame (idle_frame (v_s s)))
  else
    let available := length (tx_queue s) in
    let b := format_b_octets mux in
    let a := full_format_a_octets mux in
    let send (len : nat) (mk : Z → list Z → RlpFrame) :=
      let data := take len (tx_queue s) in
      let frame := mk (v_s s) data in
      let s := set_tx_queue (drop len (tx_queue s)) s in
      let s := set_tx_history (<[v_s s := frame]> (tx_history s)) s in
      (set_v_s (wrapping_add 8 (v_s s) 1) s, SendFrame frame) in
    if decide (b ≤ available)%nat then send b data_format_b_frame
    else if decide (8 < available)%nat then send (Nat.min available a) data_frame
    else if decide (0 < available)%nat then send (Nat.min available 8) data_frame
    else (s, SendFrame (idle_frame (v_s s)))
  end
  end.

Definition next_frame_for_mux (mux : RlpMuxOption) (s : RlpSession) : RlpSession * RlpOutput :=
  let s := if decide (state s = Uninitialized) then initialize s else s in
  match state s with
  | Uninitialized => (s, Nothing)
  | StSync =>
      let s := set_handshake_frames_sent (handshake_frames_sent s + 1) s in
      (s, SendFrame (sync_frame (v_s s)))
  | StSyncAck =>
      let s := set_handshake_frames_sent (handshake_frames_sent s + 1) s in
      (s, SendFrame (sync_ack_frame (v_s s)))
  | StAck =>
      let s := set_handshake_frames_sent (handshake_frames_sent s + 1) s in
      if round_trip_counter s <? handshake_frames_sent s
      then build_data_frame mux (enter_data_transfer s)
      else (s, SendFrame (ack_frame (v_s s)))
  | DataTransfer => build_data_frame mux s
  end.

Definition next_frame (s : RlpSession) := next_frame_for_mux One s.
