(* ===== verification/RlpSessionProofs.v ===== *)
(** * Correctness of the RLP Type 1 session

    The receiver is related to an abstract resequencer on unbounded frame
    numbers: frame number [k] travels with SEQ = k mod 256. *)
From S2P Require Import Prelude Rlp RlpProofs RlpSession.

(** The receiver's first two moves on a data frame. *)
Definition forget_nak (seq : Z) (s : RlpSession) : RlpSession :=
  set_nak_outstanding (nak_outstanding s ∖ {[seq]}) s.
Definition store (seq : Z) (data : list Z) (s : RlpSession) : RlpSession :=
  set_reseq_buffer (<[seq := data]> (reseq_buffer s)) s.

(** Reduce projections of updated sessions. *)
Ltac session := cbn [set_state set_v_s set_v_r set_v_n set_round_trip_counter set_rlp_delay
  set_handshake_frames_sent set_consecutive_erasures set_tx_queue set_rx_buffer set_reseq_buffer
  set_pending_controls set_pending_retransmissions set_tx_history set_nak_outstanding
  set_segment_assembly state v_s v_r v_n round_trip_counter rlp_delay handshake_frames_sent
  consecutive_erasures tx_queue rx_buffer reseq_buffer pending_controls pending_retransmissions
  tx_history nak_outstanding segment_assembly forget_nak store fst snd] in *.

(** ** Sequence numbers *)
Lemma wrapping_add_mod k : wrapping_add 8 (k mod 256) 1 = (k + 1) mod 256.
Proof. unfold wrapping_add, wrap. change (2 ^ 8) with 256. zdiv. Qed.

Lemma wrapping_sub_mod k n : wrapping_sub 8 (k mod 256) n = (k - n) mod 256.
Proof. unfold wrapping_sub, wrap. change (2 ^ 8) with 256. zdiv. Qed.

(** The modular comparison is the comparison of the frame numbers, inside a
    window of 256. *)
Lemma seq_compare_window k r :
  r - 128 ≤ k ≤ r + 127 →
  seq_compare (k mod 256) (r mod 256) =
    if decide (k = r) then SeqEqual else if decide (r < k) then SeqGreater else SeqLess.
Proof.
  intros H. unfold seq_compare, wrapping_sub, wrap. change (2 ^ 8) with 256.
  assert ((k mod 256 - r mod 256) mod 256 = (k - r) mod 256) as -> by zdiv.
  destruct (Z.eqb_spec (k mod 256) (r mod 256)) as [E|E].
  - rewrite decide_True by zdiv. done.
  - rewrite decide_False by congruence. case_decide.
    + assert ((k - r) mod 256 = k - r) as -> by zdiv.
      by replace ((1 <=? k - r) && (k - r <=? 127)) with true by lia.
    + assert ((k - r) mod 256 = k - r + 256) as -> by zdiv.
      by replace ((1 <=? k - r + 256) && (k - r + 256 <=? 127)) with false by lia.
Qed.

(** The overflow test fires exactly when the window outgrows 128 frames. *)
Lemma seq_overflow n r :
  n ≤ r ≤ n + 255 → seq_gt (wrapping_sub 8 (r mod 256) 128) (n mod 256) = bool_decide (128 < r - n).
Proof.
  intros H. unfold seq_gt. rewrite wrapping_sub_mod.
  rewrite seq_compare_window by lia. repeat case_decide; by rewrite ?bool_decide_true, ?bool_decide_false by (done || lia).
Qed.

Lemma seq_lt_window k n : n - 128 ≤ k ≤ n + 127 → seq_lt (k mod 256) (n mod 256) = bool_decide (k < n).
Proof.
  intros H. unfold seq_lt. rewrite seq_compare_window by done.
  repeat case_decide; by rewrite ?bool_decide_true, ?bool_decide_false by (done || lia).
Qed.

(** ** Loops *)
Lemma queue_naks_frame fuel : ∀ first last s,
  ∃ a b, queue_naks_loop fuel first last s = set_nak_outstanding a (set_pending_controls b s).
Proof.
  induction fuel as [|fuel IH]; intros first last s; cbn [queue_naks_loop].
  { exists (nak_outstanding s), (pending_controls s). by destruct s. }
  set (s1 := if _ && _ then _ else s).
  assert (∃ a b, s1 = set_nak_outstanding a (set_pending_controls b s)) as (a & b & ->).
  { subst s1. destruct (_ && _); [by do 2 eexists|].
    exists (nak_outstanding s), (pending_controls s). by destruct s. }
  destruct (first =? last); [by do 2 eexists|].
  destruct (IH (wrapping_add 8 first 1) last (set_nak_outstanding a (set_pending_controls b s)))
    as (a' & b' & ->). by exists a', b'.
Qed.

Lemma queue_naks_range_frame first last s :
  ∃ a b, queue_naks_for_missing_range first last s = set_nak_outstanding a (set_pending_controls b s).
Proof. apply queue_naks_frame. Qed.

Opaque queue_naks_for_missing_range queue_naks_loop.

Definition delete_slots (m : gmap Z (list Z)) (ks : list Z) : gmap Z (list Z) :=
  foldl (λ m k, delete (k mod 256) m) m ks.

Lemma lookup_delete_slots ks : ∀ m slot,
  delete_slots m ks !! slot = if decide (slot ∈ (λ k, k mod 256) <$> ks) then None else m !! slot.
Proof.
  induction ks as [|k ks IH]; intros m slot; [done|].
  cbn [delete_slots foldl]. fold (delete_slots (delete (k mod 256) m) ks). rewrite IH.
  rewrite fmap_cons. destruct (decide (slot ∈ (λ k, k mod 256) <$> ks)) as [Hin|Hout].
  { rewrite decide_True; [done|]. by apply elem_of_cons; right. }
  destruct (decide (slot = k mod 256)) as [->|Hne].
  - rewrite lookup_delete_eq, decide_True; [done|]. by apply elem_of_cons; left.
  - rewrite lookup_delete_ne, decide_False; [done| |auto]. by intros [?|?]%elem_of_cons.
Qed.

(** [deliver_contiguous] always stops at an empty slot: after 256 rounds every
    slot has been emptied. *)
Lemma deliver_loop_stops fuel : ∀ n a s,
  v_n s = a mod 256 → (∀ j, a - n ≤ j < a → reseq_buffer s !! (j mod 256) = None) →
  0 ≤ n ≤ 256 → 257 ≤ n + Z.of_nat fuel →
  let s' := deliver_contiguous_loop fuel s in reseq_buffer s' !! v_n s' = None.
Proof.
  induction fuel as [|fuel IH]; intros n a s Hv Hd Hn Hf; [lia|]. cbn [deliver_contiguous_loop].
  destruct (reseq_buffer s !! v_n s) as [data|] eqn:E; [|done].
  apply (IH (n + 1) (a + 1)); session; [rewrite Hv; apply wrapping_add_mod| | |lia].
  - intros j Hj. destruct (decide (j = a)) as [->|]; [by rewrite Hv, lookup_delete_eq|].
    destruct (decide (j mod 256 = v_n s)) as [->|]; [by rewrite lookup_delete_eq|].
    rewrite lookup_delete_ne by done. apply Hd. lia.
  - destruct (decide (n = 256)) as [->|]; [|lia]. rewrite Hv in E.
    pose proof (Hd (a - 256) ltac:(lia)) as E'. replace ((a - 256) mod 256) with (a mod 256) in E' by zdiv. congruence.
Qed.

Lemma deliver_contiguous_terminates s :
  is_u8 (v_n s) → reseq_buffer (deliver_contiguous s) !! v_n (deliver_contiguous s) = None.
Proof.
  intros [??]. apply (deliver_loop_stops 257 0 (v_n s)); [by rewrite Z.mod_small|lia..].
Qed.

(** ** The branches of [receive_data] *)
Definition check_window (s : RlpSession) : RlpSession * option (list Z) :=
  if seq_gt (wrapping_sub 8 (v_r s) 128) (v_n s) then (initialize s, None) else flush s.

Lemma receive_data_in_order seq data s :
  seq_compare seq (v_r s) = SeqEqual → v_r s = v_n s →
  receive_data seq data s =
    flush (deliver_contiguous (set_rx_buffer (rx_buffer s ++ data)
      (set_v_n (wrapping_add 8 (v_n s) 1) (set_v_r (wrapping_add 8 (v_r s) 1) (forget_nak seq s))))).
Proof. intros E1 E2. unfold receive_data. rewrite E1. cbn [v_r v_n set_nak_outstanding]. by rewrite E2, Z.eqb_refl. Qed.

Lemma receive_data_gap seq data s :
  seq_compare seq (v_r s) = SeqEqual → v_r s ≠ v_n s →
  receive_data seq data s =
    check_window (store seq data (set_v_r (wrapping_add 8 (v_r s) 1) (forget_nak seq s))).
Proof.
  intros E1 E2. unfold receive_data. rewrite E1. cbn [v_r v_n set_nak_outstanding].
  by rewrite (proj2 (Z.eqb_neq _ _) E2).
Qed.

Lemma receive_data_greater seq data s :
  seq_compare seq (v_r s) = SeqGreater →
  receive_data seq data s =
    check_window (set_v_r (wrapping_add 8 seq 1)
      (queue_naks_for_missing_range (v_n s) (wrapping_sub 8 seq 1) (store seq data (forget_nak seq s)))).
Proof. intros E1. unfold receive_data. by rewrite E1. Qed.

Lemma receive_data_less seq data s :
  seq_compare seq (v_r s) = SeqLess →
  receive_data seq data s =
    if seq_lt seq (v_n s) then (forget_nak seq s, None)
    else if bool_decide (reseq_buffer s !! seq = None) then
      let s := forget_nak seq (store seq data (forget_nak seq s)) in
      flush (if seq =? v_n s then deliver_contiguous s else s)
    else flush (forget_nak seq s).
Proof. intros E1. unfold receive_data. by rewrite E1. Qed.

Lemma flush_empty s : rx_buffer s = [] → flush s = (s, None).
Proof. intros H. unfold flush. by rewrite decide_False by auto. Qed.

Lemma flush_default s : default [] (flush s).2 = rx_buffer s.
Proof. unfold flush, take_received_data. case_decide as H; [done|]. by rewrite H. Qed.

Lemma flush_fst s : (flush s).1 = set_rx_buffer [] s.
Proof.
  unfold flush, take_received_data. case_decide as H; [done|]. destruct s; session. by rewrite H.
Qed.

Lemma store_no_overflow s :
  seq_gt (wrapping_sub 8 (v_r s) 128) (v_n s) = false → rx_buffer s = [] → check_window s = (s, None).
Proof. intros E1 E2. unfold check_window. by rewrite E1, flush_empty. Qed.

(** ** The abstract resequencer: what has been seen so far *)

(** The first frame number not received. *)
Fixpoint mex_from (fuel : nat) (n : Z) (seen : list Z) : Z :=
  match fuel with
  | O => n
  | S fuel => if decide (n ∈ seen) then mex_from fuel (n + 1) seen else n
  end.
Definition mex (seen : list Z) : Z := mex_from (S (length seen)) 0 seen.

(** One past the highest frame number received. *)
Definition high (seen : list Z) : Z := foldr (λ k r, Z.max (k + 1) r) 0 seen.

(** Frame [k] arrives inside the window: no more than 128 frames behind the
    highest, no more than 127 ahead, and not 128 frames past the first missing. *)
Definition fits (seen : list Z) (k : Z) : bool :=
  (0 <=? k) && (high seen - 128 <=? k) && (k <=? high seen + 127)
  && ((k <? high seen) || (k + 1 - mex seen <=? 128)).

Fixpoint arrivals_fit (seen ks : list Z) : bool :=
  match ks with
  | [] => true
  | k :: ks => fits seen k && arrivals_fit (k :: seen) ks
  end.

Lemma mex_from_spec fuel : ∀ n seen,
  (∀ j, n ≤ j < mex_from fuel n seen → j ∈ seen) ∧ n ≤ mex_from fuel n seen ∧
  (mex_from fuel n seen ∉ seen ∨ mex_from fuel n seen = n + Z.of_nat fuel).
Proof.
  induction fuel as [|fuel IH]; intros n seen; cbn [mex_from].
  { split; [lia|]. split; [lia|]. right. lia. }
  case_decide as Hn; [|split; [lia|]; split; [lia|by left]].
  destruct (IH (n + 1) seen) as (H1 & H2 & H3). split; [|split; [lia|]].
  - intros j Hj. destruct (decide (j = n)) as [->|]; [done|]. apply H1. lia.
  - destruct H3; [by left|right; lia].
Qed.

Lemma mex_spec seen : (∀ j, 0 ≤ j < mex seen → j ∈ seen) ∧ 0 ≤ mex seen ∧ mex seen ∉ seen.
Proof.
  unfold mex. destruct (mex_from_spec (S (length seen)) 0 seen) as (H1 & H2 & H3).
  split_and!; [done|done|]. destruct H3 as [|E]; [done|]. exfalso.
  assert (seqZ 0 (Z.of_nat (S (length seen))) ⊆+ seen) as Hsub.
  { apply NoDup_submseteq; [apply NoDup_seqZ|]. intros j Hj%elem_of_seqZ. apply H1. lia. }
  apply submseteq_length in Hsub. rewrite length_seqZ in Hsub. lia.
Qed.

Lemma mex_unique seen n : (∀ j, 0 ≤ j < n → j ∈ seen) → 0 ≤ n → n ∉ seen → mex seen = n.
Proof.
  intros H Hn Hout. destruct (mex_spec seen) as (H1 & H2 & H3).
  destruct (decide (mex seen < n)); [exfalso; apply H3, H; lia|].
  destruct (decide (n < mex seen)); [exfalso; apply Hout, H1; lia|lia].
Qed.

Lemma mex_other k seen : k ≠ mex seen → mex (k :: seen) = mex seen.
Proof.
  intros Hk. destruct (mex_spec seen) as (H1 & H2 & H3). apply mex_unique; [|done|].
  - intros j Hj. apply elem_of_cons. right. by apply H1.
  - intros [?|?]%elem_of_cons; [lia|done].
Qed.

Lemma mex_hit seen (N := mex seen) (N' := mex (N :: seen)) :
  N < N' ∧ (∀ j, N < j < N' → j ∈ seen) ∧ N' ∉ seen.
Proof.
  subst N N'. destruct (mex_spec seen) as (H1 & H2 & H3).
  destruct (mex_spec (mex seen :: seen)) as (G1 & G2 & G3).
  assert (mex (mex seen :: seen) ≠ mex seen) by (intros E; apply G3; rewrite E; by left).
  rewrite not_elem_of_cons in G3. destruct G3 as [_ G3]. split_and!; [|intros j Hj|done].
  - destruct (decide (mex (mex seen :: seen) < mex seen)); [|lia]. exfalso. apply G3, H1. lia.
  - specialize (G1 j ltac:(lia)). apply elem_of_cons in G1 as [->|]; [lia|done].
Qed.

Lemma high_spec seen j : j ∈ seen → j < high seen.
Proof.
  induction seen as [|k seen IH]; intros H; [by apply not_elem_of_nil in H|].
  apply elem_of_cons in H as [->|H]; cbn [high foldr]; fold (high seen); [lia|].
  specialize (IH H). lia.
Qed.

Lemma high_cons k seen : high (k :: seen) = Z.max (k + 1) (high seen).
Proof. done. Qed.

Section Reassembly.
(** The payload of frame number [k]. *)
Context (chunk : Z → list Z).

Definition payload (from n : Z) : list Z := mjoin (chunk <$> seqZ from n).

Lemma payload_cons from n : 0 < n → payload from n = chunk from ++ payload (from + 1) (n - 1).
Proof.
  intros. unfold payload. rewrite seqZ_cons by done. cbn [fmap list_fmap mjoin list_join].
  by replace (Z.succ from) with (from + 1) by lia; replace (Z.pred n) with (n - 1) by lia.
Qed.

Lemma payload_app from n m : 0 ≤ n → 0 ≤ m → payload from n ++ payload (from + n) m = payload from (n + m).
Proof. intros. unfold payload. by rewrite seqZ_app, fmap_app, join_app by done. Qed.

Lemma payload_0 from : payload from 0 = [].
Proof. done. Qed.

(** The delivery loop hands up the run of consecutive frames at V(N). *)
Lemma deliver_loop_spec n : ∀ fuel s from,
  (n < fuel)%nat → (n ≤ 255)%nat → v_n s = from mod 256 →
  (∀ j, from ≤ j < from + Z.of_nat n → reseq_buffer s !! (j mod 256) = Some (chunk j)) →
  reseq_buffer s !! ((from + Z.of_nat n) mod 256) = None →
  deliver_contiguous_loop fuel s =
    set_v_n ((from + Z.of_nat n) mod 256)
      (set_rx_buffer (rx_buffer s ++ payload from (Z.of_nat n))
        (set_reseq_buffer (delete_slots (reseq_buffer s) (seqZ from (Z.of_nat n))) s)).
Proof.
  induction n as [|n IH]; intros fuel s from Hf Hn Hv Hp Hnone; (destruct fuel as [|fuel]; [lia|]);
    cbn [deliver_contiguous_loop].
  - rewrite Hv. rewrite Z.add_0_r in *. rewrite Hnone, payload_0, app_nil_r, <- Hv. by destruct s.
  - rewrite Hv. rewrite (Hp from) by lia. session.
    erewrite (IH fuel _ (from + 1)); session.
    + replace (from + 1 + Z.of_nat n) with (from + Z.of_nat (S n)) by lia.
      rewrite (payload_cons from) by lia.
      replace (Z.of_nat (S n) - 1) with (Z.of_nat n) by lia.
      rewrite (seqZ_cons from) by lia. cbn [delete_slots foldl].
      replace (Z.succ from) with (from + 1) by lia. replace (Z.pred (Z.of_nat (S n))) with (Z.of_nat n) by lia.
      destruct s; session. by rewrite <- app_assoc.
    + lia.
    + lia.
    + rewrite Hv. apply wrapping_add_mod.
    + intros j Hj. rewrite lookup_delete_ne by zdiv. apply Hp. lia.
    + replace (from + 1 + Z.of_nat n) with (from + Z.of_nat (S n)) by lia.
      rewrite lookup_delete_ne by zdiv. done.
Qed.

Lemma deliver_contiguous_spec n s from :
  (n ≤ 255)%nat → v_n s = from mod 256 →
  (∀ j, from ≤ j < from + Z.of_nat n → reseq_buffer s !! (j mod 256) = Some (chunk j)) →
  reseq_buffer s !! ((from + Z.of_nat n) mod 256) = None →
  deliver_contiguous s =
    set_v_n ((from + Z.of_nat n) mod 256)
      (set_rx_buffer (rx_buffer s ++ payload from (Z.of_nat n))
        (set_reseq_buffer (delete_slots (reseq_buffer s) (seqZ from (Z.of_nat n))) s)).
Proof. intros. apply deliver_loop_spec; [lia|done..]. Qed.

Opaque deliver_contiguous.

(** The session that has received the frames [seen]. *)
Record related (seen : list Z) (s : RlpSession) : Prop := {
  rel_state : state s = DataTransfer;
  rel_v_n : v_n s = mex seen mod 256;
  rel_v_r : v_r s = high seen mod 256;
  rel_window : mex seen ≤ high seen ≤ mex seen + 128;
  rel_empty : rx_buffer s = [];
  rel_slots : ∀ j, mex seen ≤ j < mex seen + 256 →
    reseq_buffer s !! (j mod 256) = if decide (j ∈ seen) then Some (chunk j) else None
}.

Lemma insert_slot seen k s :
  related seen s → mex seen ≤ k < mex seen + 256 →
  ∀ j, mex seen ≤ j < mex seen + 256 →
  <[k mod 256 := chunk k]> (reseq_buffer s) !! (j mod 256)
  = if decide (j ∈ k :: seen) then Some (chunk j) else None.
Proof.
  intros H Hk j Hj. destruct (decide (j = k)) as [->|Hne].
  - rewrite lookup_insert_eq, decide_True; [done|by left].
  - rewrite lookup_insert_ne by zdiv. rewrite (rel_slots _ _ H) by done.
    rewrite (decide_ext (j ∈ seen) (j ∈ k :: seen)); [done|]. rewrite elem_of_cons. tauto.
Qed.

(** One data frame: the session stays related to what has been seen, and
    hands up exactly the frames that became consecutive. *)
Definition step_ok (seen : list Z) (k : Z) (r : RlpSession * option (list Z)) : Prop :=
  related (k :: seen) r.1 ∧
  default [] r.2 = payload (mex seen) (mex (k :: seen) - mex seen).

Lemma same_mex_step seen k s :
  mex (k :: seen) = mex seen → related (k :: seen) s → step_ok seen k (s, None).
Proof. intros E H. split; [done|]. by rewrite E, Z.sub_diag. Qed.

(** Frames beyond the highest one: stored, and the missing ones asked for. *)
Lemma step_ahead seen k s :
  related seen s → high seen < k ≤ high seen + 127 → k + 1 - mex seen ≤ 128 →
  step_ok seen k (receive_data (k mod 256) (chunk k) s).
Proof.
  intros H Hk Hfit. pose proof (rel_window _ _ H) as Hw.
  assert (mex (k :: seen) = mex seen) as Em by (apply mex_other; lia).
  assert (high (k :: seen) = k + 1) as Eh by (rewrite high_cons; lia).
  rewrite receive_data_greater
    by (rewrite (rel_v_r _ _ H), seq_compare_window by lia; by rewrite decide_False, decide_True by lia).
  edestruct queue_naks_range_frame as (a & b & ->).
  rewrite store_no_overflow by (session; rewrite ?wrapping_add_mod, ?(rel_v_n _ _ H), ?seq_overflow,
    ?bool_decide_false by lia; done || apply (rel_empty _ _ H)).
  apply same_mex_step; [done|]. split; rewrite ?Em, ?Eh; session; try apply H; [apply wrapping_add_mod|lia|].
  apply (insert_slot _ _ _ H). lia.
Qed.

(** The next frame after the highest one, while older ones are missing. *)
Lemma step_next_gap seen s (k := high seen) :
  related seen s → mex seen < k → k + 1 - mex seen ≤ 128 →
  step_ok seen k (receive_data (k mod 256) (chunk k) s).
Proof.
  intros H Hk Hfit. pose proof (rel_window _ _ H) as Hw.
  assert (mex (k :: seen) = mex seen) as Em by (apply mex_other; lia).
  assert (high (k :: seen) = k + 1) as Eh by (rewrite high_cons; lia).
  rewrite receive_data_gap
    by (rewrite (rel_v_r _ _ H), ?(rel_v_n _ _ H), ?seq_compare_window, ?decide_True by lia; done || zdiv).
  rewrite store_no_overflow by (session; rewrite ?(rel_v_r _ _ H), ?wrapping_add_mod, ?(rel_v_n _ _ H),
    ?seq_overflow, ?bool_decide_false by lia; done || apply (rel_empty _ _ H)).
  apply same_mex_step; [done|]. split; rewrite ?Em, ?Eh; session; try apply H; [|lia|].
  - rewrite (rel_v_r _ _ H). apply wrapping_add_mod.
  - apply (insert_slot _ _ _ H). lia.
Qed.

(** The next frame when nothing is missing: delivered at once. *)
Lemma step_in_order seen s (k := high seen) :
  related seen s → mex seen = k → step_ok seen k (receive_data (k mod 256) (chunk k) s).
Proof.
  intros H Hk. subst k. set (k := high seen) in *.
  destruct (mex_spec seen) as (M1 & M2 & M3).
  assert (mex (k :: seen) = k + 1) as Em.
  { apply mex_unique; [|lia|].
    - intros j Hj. apply elem_of_cons. destruct (decide (j = k)); [by left|right; apply M1; lia].
    - intros [?|Hin]%elem_of_cons; [lia|]. apply high_spec in Hin. lia. }
  assert (high (k :: seen) = k + 1) as Eh by (rewrite high_cons; lia).
  rewrite receive_data_in_order by (rewrite ?(rel_v_r _ _ H), ?(rel_v_n _ _ H), ?seq_compare_window by lia;
    rewrite ?Hk, ?decide_True by done; done).
  rewrite (deliver_contiguous_spec 0 _ (k + 1)); session.
  2: lia. 2: rewrite (rel_v_n _ _ H), Hk; apply wrapping_add_mod. 2: lia.
  2: { rewrite Z.add_0_r, (rel_slots _ _ H), decide_False by (try lia;
         intros Hin%high_spec; lia). done. }
  rewrite !Z.add_0_r, payload_0, app_nil_r, (rel_empty _ _ H). cbn [app delete_slots seqZ foldl].
  split; [rewrite flush_fst|rewrite flush_default; session].
  - split; rewrite ?Em, ?Eh; session; try apply H; [done|rewrite (rel_v_r _ _ H); apply wrapping_add_mod|lia|done|].
    intros j Hj. cbn [delete_slots seqZ foldl]. destruct (decide (j = k + 256)) as [->|].
    + replace ((k + 256) mod 256) with (mex seen mod 256) by zdiv.
      rewrite (rel_slots _ _ H), !decide_False; [done| |done|lia].
      intros [?|Hin%high_spec]%elem_of_cons; lia.
    + rewrite (rel_slots _ _ H), !decide_False; [done| | |lia].
      * intros [?|Hin%high_spec]%elem_of_cons; lia.
      * intros Hin%high_spec; lia.
  - rewrite Em, Hk. replace (k + 1 - k) with 1 by lia. rewrite payload_cons, payload_0 by lia.
    by rewrite app_nil_r.
Qed.

(** Frames older than the highest one. *)
Lemma seen_again seen k s s' :
  related seen s → k ∈ seen → v_n s' = v_n s → v_r s' = v_r s → state s' = state s →
  rx_buffer s' = rx_buffer s → reseq_buffer s' = reseq_buffer s → step_ok seen k (s', None).
Proof.
  intros H Hin E1 E2 E3 E4 E5. pose proof (rel_window _ _ H).
  assert (mex (k :: seen) = mex seen) as Em.
  { apply mex_other. intros ->. by apply (mex_spec seen). }
  assert (high (k :: seen) = high seen) as Eh.
  { rewrite high_cons. apply high_spec in Hin. lia. }
  apply same_mex_step; [done|]. split; rewrite ?Em, ?Eh, ?E1, ?E2, ?E3, ?E4, ?E5; try apply H.
  intros j Hj. rewrite (rel_slots _ _ H) by done.
  rewrite (decide_ext (j ∈ seen) (j ∈ k :: seen)); [done|].
  rewrite elem_of_cons. split; [auto|]. by intros [->|].
Qed.

Lemma step_fill_gap seen k s s' :
  related seen s → mex seen < k < high seen →
  v_n s' = v_n s → v_r s' = v_r s → state s' = state s → rx_buffer s' = rx_buffer s →
  reseq_buffer s' = <[k mod 256 := chunk k]> (reseq_buffer s) → step_ok seen k (s', None).
Proof.
  intros H Hk E1 E2 E3 E4 E5. pose proof (rel_window _ _ H).
  assert (mex (k :: seen) = mex seen) as Em by (apply mex_other; lia).
  assert (high (k :: seen) = high seen) as Eh by (rewrite high_cons; lia).
  apply same_mex_step; [done|]. split; rewrite ?Em, ?Eh, ?E1, ?E2, ?E3, ?E4, ?E5; try apply H.
  apply (insert_slot _ _ _ H). lia.
Qed.

(** The missing frame: it and the run stored after it are delivered. *)
Lemma step_fill_first seen k s s' :
  related seen s → k = mex seen → k < high seen →
  v_n s' = v_n s → v_r s' = v_r s → state s' = state s → rx_buffer s' = rx_buffer s →
  reseq_buffer s' = <[k mod 256 := chunk k]> (reseq_buffer s) →
  step_ok seen k (flush (deliver_contiguous s')).
Proof.
  intros H Ek Hk E1 E2 E3 E4 E5. unfold step_ok.
  pose proof (rel_window _ _ H) as Hw. destruct (mex_hit seen) as (G1 & G2 & G3).
  pose proof (insert_slot seen k s H ltac:(lia)) as Hslot. rewrite <- Ek in *.
  set (N' := mex (k :: seen)) in *.
  assert (N' ≤ high seen).
  { destruct (decide (N' = k + 1)); [lia|].
    specialize (G2 (N' - 1) ltac:(lia)). apply high_spec in G2. lia. }
  assert (high (k :: seen) = high seen) as Eh by (rewrite high_cons; lia).
  rewrite (deliver_contiguous_spec (Z.to_nat (N' - k)) s' k).
  2: lia. 2: by rewrite E1, (rel_v_n _ _ H), Ek.
  2: { intros j Hj. rewrite E5, Hslot, decide_True by first [lia|apply elem_of_cons;
         destruct (decide (j = k)); [by left|right; apply G2; lia]]. done. }
  2: { rewrite Z2Nat.id by lia. replace (k + (N' - k)) with N' by lia.
       rewrite E5, Hslot, decide_False by first [lia|intros [?|?]%elem_of_cons; [lia|done]]. done. }
  rewrite Z2Nat.id by lia. replace (k + (N' - k)) with N' by lia.
  rewrite E4, (rel_empty _ _ H). cbn [app].
  split; [rewrite flush_fst|by rewrite flush_default].
  split; fold N'; rewrite ?Eh; session; rewrite ?E1, ?E2, ?E3, ?E5; try apply H; [done|lia|done|].
  intros j Hj. rewrite lookup_delete_slots. case_decide as Hdel.
  - apply list_elem_of_fmap in Hdel as (i & Hi1 & Hi2). apply elem_of_seqZ in Hi2.
    rewrite decide_False; [done|]. assert (j = i + 256) as -> by zdiv.
    intros [?|Hin%high_spec]%elem_of_cons; lia.
  - assert (j < k + 256).
    { destruct (decide (j < k + 256)); [done|]. exfalso. apply Hdel. apply list_elem_of_fmap.
      exists (j - 256). split; [zdiv|apply elem_of_seqZ; lia]. }
    apply Hslot. lia.
Qed.

(** Any frame that fits the window. *)
Lemma step_fits seen k s :
  related seen s → fits seen k = true →
  step_ok seen k (receive_data (k mod 256) (chunk k) s).
Proof.
  intros H Hfit. unfold fits in Hfit. pose proof (rel_window _ _ H).
  destruct (decide (high seen < k)); [apply step_ahead; [done|lia..]|].
  destruct (decide (k = high seen)) as [->|].
  { destruct (decide (mex seen = high seen)) as [E|]; [by apply step_in_order|].
    apply step_next_gap; [done|lia..]. }
  rewrite receive_data_less
    by (rewrite (rel_v_r _ _ H), seq_compare_window by lia; by rewrite !decide_False by lia).
  rewrite (rel_v_n _ _ H), seq_lt_window by lia. case_bool_decide.
  { eapply seen_again; try done. apply (mex_spec seen). lia. }
  rewrite (rel_slots _ _ H) by lia. destruct (decide (k ∈ seen)) as [Hin|Hout].
  { rewrite bool_decide_false by done. rewrite flush_empty by apply (rel_empty _ _ H).
    by eapply seen_again. }
  rewrite bool_decide_true by done. destruct (decide (k = mex seen)) as [->|].
  - session. rewrite (rel_v_n _ _ H), Z.eqb_refl. eapply step_fill_first; done || lia.
  - session. rewrite (rel_v_n _ _ H). destruct (Z.eqb_spec (k mod 256) (mex seen mod 256)); [zdiv|].
    rewrite flush_empty by apply (rel_empty _ _ H). eapply step_fill_gap; done || lia.
Qed.
End Reassembly.
