(* ===== verification/RlpLink.v ===== *)
(** * The RLP Type 1 link: two sessions and the channel between them

    End-to-end statements over [RlpSession]: what a receiver hands up when
    frames are lost, repeated and reordered; how a sender cuts a byte stream
    into frames; retransmission; and the SYNC handshake between two peers. *)
From S2P Require Import Prelude Rlp RlpProofs RlpSession RlpSessionProofs.

(** ** The receiving side *)
Fixpoint receive_all (fs : list (option RlpFrame)) (s : RlpSession) : RlpSession * list Z :=
  match fs with
  | [] => (s, [])
  | f :: fs =>
      let '(s, out) := receive_frame f s in
      let '(s, rest) := receive_all fs s in (s, default [] out ++ rest)
  end.

(** An arrival is a frame number, or an erasure. *)
Definition numbers (evs : list (option Z)) : list Z := omap id evs.

(** Every frame fits the window when it arrives, and no more than 127 frames in
    a row are erased. *)
Fixpoint events_ok (erased : Z) (seen : list Z) (evs : list (option Z)) : bool :=
  match evs with
  | [] => true
  | None :: evs => (erased + 1 <=? 127) && events_ok (erased + 1) seen evs
  | Some k :: evs => fits seen k && events_ok 0 (k :: seen) evs
  end.

(** Frame [f] carries the payload of the arrival. *)
Definition carries (chunk : Z → list Z) (ev : option Z) (f : option RlpFrame) : Prop :=
  match ev, f with
  | None, None => True
  | Some k, Some f =>
      chunk k ≠ [] ∧ (f = Data (k mod 256) (chunk k) ∨ f = DataFormatB (k mod 256) (chunk k))
  | _, _ => False
  end.

(** A session in data transfer that has received nothing yet. *)
Definition fresh_receiver (s : RlpSession) : Prop :=
  state s = DataTransfer ∧ v_r s = 0 ∧ v_n s = 0 ∧ rx_buffer s = [] ∧ reseq_buffer s = ∅ ∧
  consecutive_erasures s = 0.

Lemma deliver_loop_erasures fuel : ∀ s,
  consecutive_erasures (deliver_contiguous_loop fuel s) = consecutive_erasures s.
Proof.
  induction fuel as [|fuel IH]; intros s; [done|]. cbn [deliver_contiguous_loop].
  destruct (_ !! _); [by rewrite IH|done].
Qed.

Lemma deliver_contiguous_erasures s : consecutive_erasures (deliver_contiguous s) = consecutive_erasures s.
Proof. apply deliver_loop_erasures. Qed.

Opaque deliver_contiguous.

Lemma flush_erasures s : consecutive_erasures (flush s).1 = consecutive_erasures s.
Proof. by rewrite flush_fst. Qed.

Lemma check_window_erasures s : consecutive_erasures s = 0 → consecutive_erasures (check_window s).1 = 0.
Proof. intros H. unfold check_window. destruct (seq_gt _ _); [done|]. by rewrite flush_erasures. Qed.

Lemma receive_data_erasures seq data s :
  consecutive_erasures s = 0 → consecutive_erasures (receive_data seq data s).1 = 0.
Proof.
  intros H. destruct (seq_compare seq (v_r s)) eqn:E.
  - rewrite receive_data_less by done. destruct (seq_lt _ _); [exact H|].
    destruct (bool_decide _); cbv zeta; rewrite flush_erasures; [|exact H].
    destruct (_ =? _); [rewrite deliver_contiguous_erasures|]; exact H.
  - destruct (decide (v_r s = v_n s)).
    + rewrite receive_data_in_order, flush_erasures, deliver_contiguous_erasures by assumption. exact H.
    + rewrite receive_data_gap by assumption. apply check_window_erasures. exact H.
  - rewrite receive_data_greater by assumption. edestruct queue_naks_range_frame as (a & b & ->).
    apply check_window_erasures. exact H.
Qed.

Section Stream.
Context (chunk : Z → list Z).

Lemma related_fresh s : fresh_receiver s → related chunk [] s.
Proof.
  intros (H1 & H2 & H3 & H4 & H5 & H6). split; rewrite ?H1, ?H2, ?H3, ?H4, ?H5; try done.
Qed.

Lemma related_erasures seen c s : related chunk seen s → related chunk seen (set_consecutive_erasures c s).
Proof. intros [????? H]. by split. Qed.

Lemma receive_carried seen k f s :
  related chunk seen s → carries chunk (Some k) (Some f) →
  receive_frame (Some f) s = receive_data (k mod 256) (chunk k) (set_consecutive_erasures 0 s).
Proof.
  intros H [Hne Hf]. unfold receive_frame. rewrite (rel_state _ _ _ H). cbn [decide].
  rewrite decide_False by done. session. rewrite (rel_state _ _ _ H).
  destruct Hf as [-> | ->]; cbn [is_sync_frame process_data_frame]; [|done].
  by rewrite decide_False.
Qed.

Lemma receive_erasure seen s :
  related chunk seen s → consecutive_erasures s + 1 ≤ 127 →
  receive_frame None s = (set_consecutive_erasures (consecutive_erasures s + 1) s, None).
Proof.
  intros H Hc. unfold receive_frame. rewrite (rel_state _ _ _ H).
  rewrite decide_False by done. session. by replace (127 <? _) with false by lia.
Qed.

Lemma mex_mono k seen : mex seen ≤ mex (k :: seen).
Proof.
  destruct (decide (k = mex seen)) as [->|]; [|by rewrite mex_other].
  destruct (mex_hit seen). lia.
Qed.

Lemma receive_all_related evs : ∀ fs seen s,
  related chunk seen s → Forall2 (carries chunk) evs fs →
  events_ok (consecutive_erasures s) seen evs = true →
  ∃ s', receive_all fs s = (s', payload chunk (mex seen) (mex (reverse (numbers evs) ++ seen) - mex seen))
        ∧ related chunk (reverse (numbers evs) ++ seen) s'
        ∧ mex seen ≤ mex (reverse (numbers evs) ++ seen).
Proof.
  induction evs as [|[k|] evs IH]; intros fs seen s H Hfs Hok;
    apply Forall2_cons_inv_l in Hfs as ([f|] & fs' & Hc & Hfs & ->) || apply Forall2_nil_inv_l in Hfs as ->;
    try done.
  - exists s. change (reverse (numbers []) ++ seen) with seen. cbn [receive_all]. by rewrite Z.sub_diag.
  - cbn [events_ok] in Hok. apply andb_true_iff in Hok as [Hfit Hok].
    apply (related_erasures _ 0) in H as H0. destruct (step_fits _ _ _ _ H0 Hfit) as [H1 Hd].
    cbn [receive_all]. rewrite (receive_carried _ _ _ _ H Hc).
    pose proof (receive_data_erasures (k mod 256) (chunk k) _ (eq_refl : _ (set_consecutive_erasures 0 s) = _)) as Hce.
    destruct (receive_data _ _ _) as [s1 out]. cbn [fst snd] in *.
    rewrite <- Hce in Hok. destruct (IH _ _ _ H1 Hfs Hok) as (s' & -> & H' & Hle).
    exists s'. cbn [numbers omap list_omap id]. rewrite reverse_cons, <- app_assoc. cbn [app].
    fold (numbers evs). pose proof (mex_mono k seen). split_and!; [|done|unfold numbers in *; lia].
    rewrite Hd. f_equal. replace (mex (k :: seen)) with (mex seen + (mex (k :: seen) - mex seen)) at 2 by lia.
    unfold numbers in *. rewrite payload_app by lia. f_equal. lia.
  - cbn [events_ok] in Hok. apply andb_true_iff in Hok as [Hfit Hok]. apply Z.leb_le in Hfit.
    cbn [receive_all]. rewrite (receive_erasure _ _ H) by done.
    destruct (IH fs' seen (set_consecutive_erasures (consecutive_erasures s + 1) s)) as (s' & -> & H' & Hle);
      [by apply related_erasures|done|done|]. by exists s'.
Qed.
End Stream.

(** ** The sending side *)

(** [n] frame periods of transmission. *)
Fixpoint transmit (n : nat) (mux : RlpMuxOption) (s : RlpSession) : RlpSession * list RlpFrame :=
  match n with
  | O => (s, [])
  | S n =>
      let '(s, out) := next_frame_for_mux mux s in
      let '(s, rest) := transmit n mux s in
      (s, match out with SendFrame f => f :: rest | Nothing => rest end)
  end.

(** How a byte stream is cut: full Format B frames, then one Format A frame. *)
Definition cut (mux : RlpMuxOption) (available : nat) : nat :=
  if decide (format_b_octets mux ≤ available)%nat then format_b_octets mux
  else Nat.min available (full_format_a_octets mux).
Fixpoint packetize_fuel (fuel : nat) (mux : RlpMuxOption) (d : list Z) : list (list Z) :=
  match fuel, d with
  | S fuel, _ :: _ => take (cut mux (length d)) d :: packetize_fuel fuel mux (drop (cut mux (length d)) d)
  | _, _ => []
  end.
Definition packetize (mux : RlpMuxOption) (d : list Z) : list (list Z) := packetize_fuel (length d) mux d.

Definition frame_for (mux : RlpMuxOption) (k : Z) (c : list Z) : RlpFrame :=
  if decide (length c = format_b_octets mux) then DataFormatB (k mod 256) c else Data (k mod 256) c.

(** A session in data transfer with nothing waiting to be sent. *)
Definition idle_sender (s : RlpSession) : Prop :=
  state s = DataTransfer ∧ tx_queue s = [] ∧ pending_controls s = [] ∧ pending_retransmissions s = [].

Lemma cut_pos mux n : (0 < n)%nat → (0 < cut mux n ≤ n)%nat.
Proof. unfold cut. destruct mux; cbn; case_decide; lia. Qed.

Lemma packetize_step mux d : d ≠ [] →
  packetize mux d = take (cut mux (length d)) d :: packetize mux (drop (cut mux (length d)) d).
Proof.
  assert (∀ f g d, (length d ≤ f)%nat → (length d ≤ g)%nat → packetize_fuel f mux d = packetize_fuel g mux d) as Hf.
  { clear. induction f as [|f IH]; intros g d Hf Hg; [by destruct d, g; cbn in *; try lia|].
    destruct d as [|x d]; [by destruct g|]. destruct g; [cbn in *; lia|]. cbn [packetize_fuel]. f_equal.
    pose proof (cut_pos mux (length (x :: d)) ltac:(cbn; lia)).
    apply IH; rewrite length_drop; cbn in *; lia. }
  intros Hd. destruct d as [|x d]; [done|]. unfold packetize. cbn [packetize_fuel length]. f_equal.
  pose proof (cut_pos mux (length (x :: d)) ltac:(cbn; lia)).
  apply Hf; [|done]. rewrite length_drop. cbn in *; lia.
Qed.

(** Induction along the cuts. *)
Lemma packetize_ind mux (P : list Z → Prop) :
  P [] → (∀ d, d ≠ [] → P (drop (cut mux (length d)) d) → P d) → ∀ d, P d.
Proof.
  intros H0 Hs d. induction d as [d IH] using (induction_ltof1 _ length).
  destruct (decide (d = [])) as [->|Hd]; [done|]. apply Hs; [done|]. apply IH.
  assert (length d ≠ 0%nat) by by destruct d. unfold ltof. rewrite length_drop.
  pose proof (cut_pos mux (length d) ltac:(lia)). lia.
Qed.

Lemma packetize_concat mux d : mjoin (packetize mux d) = d.
Proof.
  induction d as [|d Hd IH] using (packetize_ind mux); [done|]. rewrite packetize_step by done.
  change (mjoin (?a :: ?l)) with (a ++ mjoin l). by rewrite IH, take_drop.
Qed.

Lemma packetize_chunks mux d :
  Forall (λ c, c ≠ [] ∧ (length c ≤ full_format_a_octets mux ∨ length c = format_b_octets mux)%nat)
    (packetize mux d).
Proof.
  induction d as [|d Hd IH] using (packetize_ind mux); [constructor|]. rewrite packetize_step by done.
  constructor; [|done]. assert (length d ≠ 0%nat) by by destruct d.
  pose proof (cut_pos mux (length d) ltac:(lia)). split.
  - intros E%(f_equal length). rewrite length_take in E. cbn in E. lia.
  - rewrite length_take. unfold cut in *. case_decide; [right; lia|left; lia].
Qed.

Lemma packetize_bytes mux d : bytes d → Forall bytes (packetize mux d).
Proof.
  induction d as [|d Hd IH] using (packetize_ind mux); intros H; [constructor|].
  rewrite packetize_step by done. constructor; [by apply Forall_take|]. by apply IH, Forall_drop.
Qed.

(** One frame period with data queued and nothing more urgent. *)
Lemma next_frame_data mux k d s :
  d ≠ [] → state s = DataTransfer → tx_queue s = d → pending_controls s = [] →
  pending_retransmissions s = [] → v_s s = k mod 256 →
  next_frame_for_mux mux s =
    let f := frame_for mux k (take (cut mux (length d)) d) in
    (set_v_s ((k + 1) mod 256) (set_tx_history (<[k mod 256 := f]> (tx_history s))
      (set_tx_queue (drop (cut mux (length d)) d) s)), SendFrame f).
Proof.
  intros Hd H1 H2 H3 H4 H5. destruct s; session; subst.
  unfold next_frame_for_mux, build_data_frame; session. rewrite decide_False by done. session.
  rewrite decide_False by done. rewrite wrapping_add_mod. unfold frame_for, cut.
  match goal with |- context [length ?l] => assert (length l ≠ 0%nat) by by destruct l end.
  assert (format_b_octets mux = S (full_format_a_octets mux)) as Hab by by destruct mux.
  assert (8 ≤ full_format_a_octets mux)%nat as Ha by (destruct mux; cbn; lia).
  revert Hab Ha. generalize (format_b_octets mux) as b, (full_format_a_octets mux) as a. intros b a -> Ha.
  destruct (decide (S a ≤ length _)%nat).
  { by rewrite decide_True by (rewrite length_take; lia). }
  rewrite (decide_False (P := length (take _ _) = _)) by (rewrite length_take; lia).
  case_decide; [done|]. rewrite decide_True by lia.
  by replace (Nat.min (length _) 8) with (Nat.min (length d) a) by lia.
Qed.

(** Draining the queue: one frame per piece, numbered consecutively. *)
Lemma transmit_packetize mux d : ∀ k s,
  state s = DataTransfer → tx_queue s = d → pending_controls s = [] → pending_retransmissions s = [] →
  v_s s = k mod 256 →
  ∃ s', transmit (length (packetize mux d)) mux s =
          (s', imap (λ i, frame_for mux (k + Z.of_nat i)) (packetize mux d)) ∧
        idle_sender s' ∧ v_s s' = (k + Z.of_nat (length (packetize mux d))) mod 256.
Proof.
  induction d as [|d Hd IH] using (packetize_ind mux); intros k s H1 H2 H3 H4 H5.
  { exists s. cbn. rewrite Z.add_0_r. done. }
  rewrite packetize_step by done. cbn [length transmit].
  rewrite (next_frame_data mux k d) by done. cbv zeta.
  edestruct (IH (k + 1)) as (s' & -> & Hs & Hv); [..|exists s']; try done.
  rewrite imap_cons. split_and!; [|done|rewrite Hv; f_equal; lia].
  rewrite Z.add_0_r. do 2 f_equal. apply imap_ext. intros i c _. cbn. f_equal. lia.
Qed.

(** ** End to end *)
Definition chunk_at (cs : list (list Z)) (k : Z) : list Z := default [] (cs !! Z.to_nat k).

Lemma payload_chunk_at cs : payload (chunk_at cs) 0 (Z.of_nat (length cs)) = mjoin cs.
Proof.
  unfold payload. f_equal. apply list_eq. intros i. rewrite list_lookup_fmap.
  destruct (cs !! i) as [c|] eqn:E.
  - pose proof (lookup_lt_Some _ _ _ E). rewrite lookup_seqZ_lt by lia.
    cbn [fmap option_fmap option_map]. unfold chunk_at. by rewrite Z.add_0_l, Nat2Z.id, E.
  - apply lookup_ge_None in E. by rewrite lookup_seqZ_ge by lia.
Qed.

Lemma elem_of_numbers k evs : k ∈ numbers evs ↔ Some k ∈ evs.
Proof.
  unfold numbers. rewrite list_elem_of_omap. split; [|by exists (Some k)].
  intros (x & Hx & E). cbv [id] in E. by subst x.
Qed.

Lemma events_ok_pos evs : ∀ e seen k, events_ok e seen evs = true → Some k ∈ evs → 0 ≤ k.
Proof.
  induction evs as [|ev evs IH]; intros e seen k Hok Hin; [by apply not_elem_of_nil in Hin|].
  destruct ev as [j|]; cbn [events_ok] in Hok; apply andb_true_iff in Hok as [H1 H2];
    apply elem_of_cons in Hin as [E|Hin]; [|by eapply IH|done|by eapply IH].
  injection E as ->. unfold fits in H1. lia.
Qed.

Lemma frame_for_over_the_air mux k c :
  bytes c → (length c ≤ full_format_a_octets mux ∨ length c = format_b_octets mux)%nat →
  over_the_air mux (frame_for mux k c) = Some (frame_for mux k c).
Proof.
  intros Hb Hl. assert (is_u8 (k mod 256)) by (split; zdiv). unfold frame_for. case_decide.
  - by apply format_b_over_the_air.
  - apply data_over_the_air; [done..|]. destruct Hl; [|done]. by destruct mux.
Qed.

(** C1: reliable transfer.  A byte string queued on one session, cut into frames
    by its transmitter, encoded, carried over a channel that erases, repeats
    and reorders frames, decoded and given to the peer's session, is handed up
    unchanged: in order, without loss or duplication.  The channel must
    deliver each frame at least once, within the resequencing window, and
    never erase 128 frames in a row. *)
Theorem reliable_transfer (mux : RlpMuxOption) (d : list Z) (sender receiver : RlpSession) (evs : list (option Z)) :
  let n := length (packetize mux d) in
  let frames := (transmit n mux (enqueue_data d sender)).2 in
  idle_sender sender → v_s sender = 0 → fresh_receiver receiver → bytes d →
  events_ok 0 [] evs = true → (∀ k, 0 ≤ k → Some k ∈ evs ↔ k < Z.of_nat n) →
  let r := receive_all ((λ ev, k ← ev; f ← frames !! Z.to_nat k; over_the_air mux f) <$> evs) receiver in
  r.2 = d ∧ state r.1 = DataTransfer.
Proof.
  intros n frames (S1 & S2 & S3 & S4) S5 Hrcv Hb Hok Hall r. set (cs := packetize mux d) in *.
  edestruct (transmit_packetize mux d 0 (enqueue_data d sender)) as (s' & Hf & _); [done| |done..|].
  { unfold enqueue_data; session. by rewrite S2. }
  fold cs in Hf. assert (frames = imap (λ i, frame_for mux (Z.of_nat i)) cs) as Hframes by (unfold frames, n; by rewrite Hf).
  clearbody frames; clear Hf. pose proof (packetize_chunks mux d) as Hcs. fold cs in Hcs.
  pose proof (packetize_bytes mux d Hb) as Hbc. fold cs in Hbc.
  destruct (receive_all_related (chunk_at cs) evs
    ((λ ev, k ← ev; f ← frames !! Z.to_nat k; over_the_air mux f) <$> evs) [] receiver) as (r' & Hr & Hrel & _).
  - by apply related_fresh.
  - apply Forall2_fmap_r, Forall2_same_length_lookup_2; [done|]. intros i [k|] ev' Hi Hi'.
    2: { rewrite Hi in Hi'. by injection Hi' as <-. }
    rewrite Hi in Hi'. injection Hi' as <-. apply list_elem_of_lookup_2 in Hi.
    pose proof (events_ok_pos _ _ _ _ Hok Hi) as Hk. apply Hall in Hi; [|done].
    destruct (lookup_lt_is_Some_2 cs (Z.to_nat k)) as [c Hc]; [unfold n in Hi; lia|].
    cbn [compose mbind option_bind].
    rewrite Hframes, list_lookup_imap, Hc. cbn [fmap option_fmap option_map mbind option_bind].
    destruct (Forall_lookup_1 _ _ _ _ Hcs Hc) as [Hne Hlen].
    rewrite Z2Nat.id by done.
    rewrite frame_for_over_the_air by (done || apply (Forall_lookup_1 _ _ _ _ Hbc Hc)).
    cbn [carries]. unfold chunk_at. rewrite Hc. cbn. split; [done|]. unfold frame_for. case_decide; auto.
  - destruct Hrcv as (_ & _ & _ & _ & _ & ->). done.
  - assert (mex (reverse (numbers evs) ++ []) = Z.of_nat n) as Em.
    { rewrite app_nil_r. apply mex_unique; [|lia|].
      - intros j Hj. apply elem_of_reverse, elem_of_numbers, Hall; lia.
      - rewrite elem_of_reverse, elem_of_numbers, Hall by lia. lia. }
    subst r. rewrite Hr, Em. cbn [fst snd]. split; [|apply (rel_state _ _ _ Hrel)].
    change (mex []) with 0. rewrite Z.sub_0_r. unfold n, cs. by rewrite payload_chunk_at, packetize_concat.
Qed.

(** Forty-five octets in three frames, delivered 2, 0, (erasure), 0, 1. *)
Lemma reliable_transfer_witness :
  let d := replicate 45 7 in
  let s := enter_data_transfer (initialize new) in
  let frames := (transmit 3 One (enqueue_data d s)).2 in
  (receive_all ((λ ev, k ← ev; f ← frames !! Z.to_nat k; over_the_air One f) <$>
    [Some 2; Some 0; None; Some 0; Some 1]) s).2 = d.
Proof.
  apply (reliable_transfer One (replicate 45 7) (enter_data_transfer (initialize new))
    (enter_data_transfer (initialize new)) [Some 2; Some 0; None; Some 0; Some 1]).
  - by repeat split.
  - done.
  - by repeat split.
  - apply Forall_replicate. split; lia.
  - vm_compute; reflexivity.
  - intros k Hk. change (Z.of_nat (length (packetize One (replicate 45 7)))) with 3.
    rewrite !elem_of_cons, elem_of_nil.
    split.
    + intros [E|[E|[E|[E|[E|[]]]]]]; first [discriminate E|injection E as ->; lia].
    + intros H. assert (k = 0 ∨ k = 1 ∨ k = 2) as [->|[-> | ->]] by lia; tauto.
Defined.

(** ** Retransmission *)

(** The last 256 frames sent are on record under their sequence numbers. *)
Definition on_record (frame : Z → RlpFrame) (n : Z) (s : RlpSession) : Prop :=
  v_s s = n mod 256 ∧
  ∀ k, 0 ≤ k → n - 256 ≤ k < n → tx_history s !! (k mod 256) = Some (frame k).

Lemma on_record_next frame n s s' :
  on_record frame n s → v_s s' = (n + 1) mod 256 →
  tx_history s' = <[n mod 256 := frame n]> (tx_history s) → on_record frame (n + 1) s'.
Proof.
  intros [Hv Hh] Hv' Hh'. split; [done|]. intros k H0 Hk. rewrite Hh'.
  destruct (decide (k = n)) as [->|]; [by rewrite lookup_insert_eq|].
  rewrite lookup_insert_ne by zdiv. apply Hh; lia.
Qed.

Lemma transmit_on_record mux d : ∀ frame k s,
  state s = DataTransfer → tx_queue s = d → pending_controls s = [] → pending_retransmissions s = [] →
  (∀ i c, packetize mux d !! i = Some c → frame (k + Z.of_nat i) = frame_for mux (k + Z.of_nat i) c) →
  on_record frame k s →
  on_record frame (k + Z.of_nat (length (packetize mux d))) (transmit (length (packetize mux d)) mux s).1.
Proof.
  induction d as [|d Hd IH] using (packetize_ind mux); intros frame k s H1 H2 H3 H4 Hf Hr.
  { by rewrite Z.add_0_r. }
  rewrite packetize_step in * by done. cbn [length transmit].
  rewrite (next_frame_data mux k d) by (done || apply Hr). cbv zeta.
  pose proof (Hf 0%nat _ eq_refl) as Hf0. rewrite Z.add_0_r in Hf0. rewrite <- Hf0.
  set (s1 := set_v_s _ _). assert (on_record frame (k + 1) s1) as Hr1 by by eapply on_record_next.
  specialize (IH frame (k + 1) s1 H1 eq_refl H3 H4).
  destruct (transmit _ mux s1) as [s' fs]. cbn [fst] in *.
  replace (k + Z.of_nat (S _)) with (k + 1 + Z.of_nat (length (packetize mux (drop (cut mux (length d)) d)))) by lia.
  apply IH; [|done]. intros i c Hi. specialize (Hf (S i) c Hi).
  by replace (k + 1 + Z.of_nat i) with (k + Z.of_nat (S i)) by lia.
Qed.

(** A NAK for frames on record queues exactly those frames again. *)
Lemma process_nak_loop_spec frame n m : ∀ fuel a s,
  on_record frame n s → 0 ≤ a → n - 128 ≤ a → a + Z.of_nat m < n → (m < fuel)%nat →
  process_nak_loop fuel (a mod 256) ((a + Z.of_nat m) mod 256) s =
    set_pending_retransmissions (pending_retransmissions s ++ (frame <$> seqZ a (Z.of_nat (S m)))) s.
Proof.
  induction m as [|m IH]; intros fuel a s Hr H0 Ha Hm Hfuel; (destruct fuel as [|fuel]; [lia|]);
    cbn [process_nak_loop]; pose proof Hr as [Hv Hh];
    (replace (a mod 256 =? v_s s) with false by (rewrite Hv; zdiv));
    unfold seq_gt; rewrite Hv, seq_compare_window by lia; rewrite !decide_False by lia;
    rewrite bool_decide_false by done; cbn [orb]; rewrite Hh by lia.
  - by rewrite Z.add_0_r, Z.eqb_refl.
  - replace (a mod 256 =? _) with false by zdiv. rewrite wrapping_add_mod.
    replace (a + Z.of_nat (S m)) with (a + 1 + Z.of_nat m) by lia.
    rewrite IH; [|done|lia..]. rewrite (seqZ_cons a) by lia.
    replace (Z.succ a) with (a + 1) by lia. replace (Z.pred (Z.of_nat (S (S m)))) with (Z.of_nat (S m)) by lia.
    destruct s; session. by rewrite <- app_assoc.
Qed.

Lemma transmit_retransmissions mux fs : ∀ s,
  state s = DataTransfer → pending_controls s = [] → pending_retransmissions s = fs →
  (transmit (length fs) mux s).2 = fs.
Proof.
  induction fs as [|f fs IH]; intros s H1 H2 H3; [done|]. cbn [length transmit].
  unfold next_frame_for_mux. rewrite decide_False by (rewrite H1; done). rewrite H1.
  unfold build_data_frame. rewrite H2, H3.
  specialize (IH (set_pending_retransmissions fs s) H1 H2 eq_refl).
  destruct (transmit _ _ _) as [s' out]. cbn [snd] in *. by rewrite IH.
Qed.

(** A NAK for any range of the last 128 frames makes the transmitter repeat
    exactly those frames, unchanged and in order, before anything else. *)
Theorem nak_retransmits (mux : RlpMuxOption) (d : list Z) (s : RlpSession) (q a b : Z) :
  let n := length (packetize mux d) in
  let sent := transmit n mux (enqueue_data d s) in
  idle_sender s → v_s s = 0 →
  0 ≤ a → Z.of_nat n - 128 ≤ a → a ≤ b → b < Z.of_nat n →
  let s' := (receive_frame (Some (nak_frame q (a mod 256) (b mod 256))) sent.1).1 in
  (transmit (Z.to_nat (b - a + 1)) mux s').2 = take (Z.to_nat (b - a + 1)) (drop (Z.to_nat a) sent.2).
Proof.
  intros n sent (S1 & S2 & S3 & S4) S5 H0 Ha Hab Hb s'. set (cs := packetize mux d) in *.
  pose (frame k := frame_for mux k (chunk_at cs k)).
  assert (tx_queue (enqueue_data d s) = d) as Hq by (unfold enqueue_data; session; by rewrite S2).
  destruct (transmit_packetize mux d 0 (enqueue_data d s) S1 Hq S3 S4 S5) as (s1 & Hs1 & (T1 & T2 & T3 & T4) & Tv).
  pose proof (transmit_on_record mux d frame 0 (enqueue_data d s) S1 Hq S3 S4) as Hrec.
  fold cs in Hs1, Tv, Hrec. fold n in Hs1, Tv, Hrec. subst s' sent. rewrite Hs1 in *. cbn [fst snd] in *.
  unfold receive_frame. rewrite decide_False by (rewrite T1; done). session. rewrite T1.
  cbn [is_sync_frame nak_frame process_data_frame]. session.
  set (s2 := set_consecutive_erasures 0 s1).
  assert (on_record frame (Z.of_nat n) s2) as Hr2.
  { unfold s2. apply Hrec; [|by split; [|lia]]. intros i c Hi. rewrite Z.add_0_l. unfold frame, chunk_at.
    by rewrite Nat2Z.id, Hi. }
  assert (process_nak (a mod 256) (b mod 256) s2 =
    set_pending_retransmissions (frame <$> seqZ a (b - a + 1)) s2) as ->.
  { unfold process_nak. replace b with (a + Z.of_nat (Z.to_nat (b - a))) at 1 by lia.
    rewrite (process_nak_loop_spec frame (Z.of_nat n)) by (done || lia).
    replace (pending_retransmissions s2) with (@nil RlpFrame) by by unfold s2. cbn [app]. do 3 f_equal. lia. }
  replace (Z.to_nat (b - a + 1)) with (length (frame <$> seqZ a (b - a + 1)))
    by (rewrite length_fmap, length_seqZ; done).
  rewrite transmit_retransmissions by done.
  apply list_eq. intros i. rewrite length_fmap, length_seqZ, list_lookup_fmap.
  destruct (decide (i < Z.to_nat (b - a + 1))%nat).
  - rewrite lookup_seqZ_lt, lookup_take_lt, lookup_drop, list_lookup_imap by lia.
    destruct (lookup_lt_is_Some_2 cs (Z.to_nat a + i)) as [c Hc]; [unfold n in Hb; lia|].
    rewrite Hc. cbn [fmap option_fmap option_map]. unfold frame, chunk_at.
    replace (Z.to_nat (a + Z.of_nat i)) with (Z.to_nat a + i)%nat by lia. rewrite Hc. cbn. do 2 f_equal. lia.
  - by rewrite lookup_seqZ_ge, lookup_take_ge by lia.
Qed.

Lemma nak_retransmits_witness :
  let s := enter_data_transfer (initialize new) in
  let sent := transmit (length (packetize One (replicate 45 7))) One (enqueue_data (replicate 45 7) s) in
  let s' := (receive_frame (Some (nak_frame 0 (1 mod 256) (2 mod 256))) sent.1).1 in
  (transmit (Z.to_nat (2 - 1 + 1)) One s').2 = take (Z.to_nat (2 - 1 + 1)) (drop (Z.to_nat 1) sent.2).
Proof.
  apply (nak_retransmits One (replicate 45 7) (enter_data_transfer (initialize new)) 0 1 2).
  - by repeat split.
  - done.
  - lia.
  - vm_compute. congruence.
  - lia.
  - vm_compute. congruence.
Defined.

Lemma process_nak_loop_unsent fuel n a last s :
  v_s s = n mod 256 → n ≤ a ≤ n + 127 → process_nak_loop (S fuel) (a mod 256) last s = initialize s.
Proof.
  intros Hv Ha. cbn [process_nak_loop]. unfold seq_gt. rewrite Hv, seq_compare_window by lia.
  destruct (decide (a = n)) as [->|]; [by rewrite Z.eqb_refl|].
  rewrite (decide_True (P := n < a)) by lia. by rewrite bool_decide_true, orb_true_r by done.
Qed.

Lemma receive_nak s q first last : state s = DataTransfer →
  receive_frame (Some (nak_frame q first last)) s = (process_nak first last (set_consecutive_erasures 0 s), None).
Proof.
  intros H. unfold receive_frame. rewrite decide_False by (rewrite H; done). session. by rewrite H.
Qed.

(** A NAK whose range starts at a frame not sent yet resets the link. *)
Theorem nak_of_unsent_resets (s : RlpSession) (n a q last : Z) :
  state s = DataTransfer → v_s s = n mod 256 → n ≤ a ≤ n + 127 →
  (receive_frame (Some (nak_frame q (a mod 256) last)) s).1 = initialize s.
Proof.
  intros H1 H2 Ha. rewrite receive_nak by done.
  exact (process_nak_loop_unsent 255 n a last (set_consecutive_erasures 0 s) H2 Ha).
Qed.

Lemma nak_of_unsent_resets_witness :
  (receive_frame (Some (nak_frame 9 0 0)) (enter_data_transfer (initialize new))).1 = initialize new.
Proof. apply (nak_of_unsent_resets (enter_data_transfer (initialize new)) 0 0 9 0); done || lia. Defined.

(** ** The SYNC handshake *)

(** No data is queued on either side. *)
Definition quiet (s : RlpSession) : Prop :=
  v_s s = 0 ∧ v_r s = 0 ∧ tx_queue s = [] ∧ pending_controls s = [] ∧ pending_retransmissions s = [].

(** What a quiet session sends in a state, and the state it then is in. *)
Inductive emits : RlpState → RlpState → RlpFrame → Prop :=
| emits_uninitialized : emits Uninitialized StSync (sync_frame 0)
| emits_sync : emits StSync StSync (sync_frame 0)
| emits_sync_ack : emits StSyncAck StSyncAck (sync_ack_frame 0)
| emits_ack : emits StAck StAck (ack_frame 0)
| emits_ack_done : emits StAck DataTransfer (idle_frame 0)
| emits_data : emits DataTransfer DataTransfer (idle_frame 0).

(** How the state reacts to a handshake frame or an idle frame. *)
Definition react (st : RlpState) (f : RlpFrame) : RlpState :=
  match st, f with
  | Uninitialized, Control _ Sync _ _ _ => StSyncAck
  | Uninitialized, Control _ SyncAck _ _ _ => StAck
  | Uninitialized, _ => StSync
  | StSync, Control _ Sync _ _ _ => StSyncAck
  | StSync, Control _ SyncAck _ _ _ => StAck
  | StSync, _ => StSync
  | StSyncAck, Control _ Sync _ _ _ => StSyncAck
  | StSyncAck, _ => DataTransfer
  | StAck, Control _ SyncAck _ _ _ => StAck
  | StAck, Control _ Sync _ _ _ => StSync
  | StAck, _ => DataTransfer
  | DataTransfer, Control _ Sync _ _ _ => StSync
  | DataTransfer, _ => DataTransfer
  end.

(** One frame period of two peers; a flag set means that the frame the peer
    sent is erased. *)
Definition on_air (lost : bool) (out : RlpOutput) : option RlpFrame :=
  match out with SendFrame f => if lost then None else Some f | Nothing => None end.
Definition period (lost : bool * bool) (ab : RlpSession * RlpSession) : RlpSession * RlpSession :=
  let '(a, fa) := next_frame ab.1 in
  let '(b, fb) := next_frame ab.2 in
  ((receive_frame (on_air lost.1 fb) a).1, (receive_frame (on_air lost.2 fa) b).1).
Definition periods (losses : list (bool * bool)) (ab : RlpSession * RlpSession) : RlpSession * RlpSession :=
  foldl (λ ab lost, period lost ab) ab losses.

Lemma periods_app l1 l2 ab : periods (l1 ++ l2) ab = periods l2 (periods l1 ab).
Proof. apply foldl_app. Qed.

Lemma quiet_next s : quiet s →
  ∃ s' f, next_frame s = (s', SendFrame f) ∧ quiet s' ∧ emits (state s) (state s') f.
Proof.
  intros (H1 & H2 & H3 & H4 & H5). destruct s as [st]; session; subst.
  unfold next_frame, next_frame_for_mux. destruct st; cbn -[Z.ltb Z.add]; try (do 2 eexists; split_and!; [done|by repeat split|constructor]).
  case (_ <? _); do 2 eexists; (split_and!; [done|by repeat split|constructor]).
Qed.

Lemma quiet_receive s st1 st2 f : quiet s → emits st1 st2 f →
  quiet (receive_frame (Some f) s).1 ∧ state (receive_frame (Some f) s).1 = react (state s) f.
Proof.
  intros (H1 & H2 & H3 & H4 & H5) He. destruct s as [st]; session; subst.
  destruct He, st; cbn; by repeat split.
Qed.

Lemma quiet_erasure s : quiet s → quiet (receive_frame None s).1.
Proof.
  intros (H1 & H2 & H3 & H4 & H5). destruct s as [st]; session; subst. unfold receive_frame.
  case_decide; session; destruct (_ <? _); by repeat split.
Qed.

Lemma quiet_period lost ab : quiet ab.1 → quiet ab.2 → quiet (period lost ab).1 ∧ quiet (period lost ab).2.
Proof.
  destruct ab as [a b], lost as [la lb]. cbn [fst snd]. intros Ha Hb. unfold period. cbn [fst snd].
  destruct (quiet_next a Ha) as (a' & fa & -> & Ha' & Ea), (quiet_next b Hb) as (b' & fb & -> & Hb' & Eb).
  split; [destruct la|destruct lb]; cbn [on_air fst snd]; try (by apply quiet_erasure); by eapply quiet_receive.
Qed.

(** A period without loss, on the states. *)
Lemma quiet_period_states ab : quiet ab.1 → quiet ab.2 →
  ∃ sa sb fa fb, emits (state ab.1) sa fa ∧ emits (state ab.2) sb fb ∧
    state (period (false, false) ab).1 = react sa fb ∧ state (period (false, false) ab).2 = react sb fa.
Proof.
  destruct ab as [a b]. cbn [fst snd]. intros Ha Hb. unfold period. cbn [fst snd].
  destruct (quiet_next a Ha) as (a' & fa & -> & Ha' & Ea), (quiet_next b Hb) as (b' & fb & -> & Hb' & Eb).
  exists (state a'), (state b'), fa, fb. cbn [on_air fst snd].
  by destruct (quiet_receive a' _ _ _ Ha' Eb), (quiet_receive b' _ _ _ Hb' Ea).
Qed.

Lemma handshake_from_any ab : quiet ab.1 → quiet ab.2 →
  let r := periods (replicate 3 (false, false)) ab in state r.1 = DataTransfer ∧ state r.2 = DataTransfer.
Proof.
  intros Ha Hb. cbn [replicate periods foldl].
  set (r1 := period _ ab). set (r2 := period _ r1). set (r3 := period _ r2).
  destruct (quiet_period (false, false) ab Ha Hb) as [Ha1 Hb1]. fold r1 in Ha1, Hb1.
  destruct (quiet_period (false, false) r1 Ha1 Hb1) as [Ha2 Hb2]. fold r2 in Ha2, Hb2.
  destruct (quiet_period_states ab Ha Hb) as (? & ? & ? & ? & E1 & E2 & R1 & R2). fold r1 in R1, R2.
  destruct (quiet_period_states r1 Ha1 Hb1) as (? & ? & ? & ? & E3 & E4 & R3 & R4). fold r2 in R3, R4.
  destruct (quiet_period_states r2 Ha2 Hb2) as (? & ? & ? & ? & E5 & E6 & R5 & R6). fold r3 in R5, R6.
  rewrite R1 in E3. rewrite R2 in E4. rewrite R3 in E5. rewrite R4 in E6. rewrite R5, R6.
  clear -E1 E2 E3 E4 E5 E6.
  inversion E1; subst; inversion E2; subst; cbn in E3, E4;
    inversion E3; subst; inversion E4; subst; cbn in E5, E6;
    inversion E5; subst; inversion E6; subst; cbn; done.
Qed.

(** The handshake converges.  Two sessions that start uninitialised reach
    data transfer on both sides after three periods without loss, whatever
    frames were lost before. *)
Theorem handshake_converges (losses : list (bool * bool)) :
  let r := periods (losses ++ replicate 3 (false, false)) (new, new) in
  state r.1 = DataTransfer ∧ state r.2 = DataTransfer.
Proof.
  assert (quiet (periods losses (new, new)).1 ∧ quiet (periods losses (new, new)).2) as [Ha Hb].
  { unfold periods. induction losses as [|l losses [Ha Hb]] using rev_ind; [by repeat split|].
    rewrite foldl_snoc. by apply quiet_period. }
  cbv zeta. rewrite periods_app. revert Ha Hb. generalize (periods losses (new, new)) as ab.
  apply handshake_from_any.
Qed.

(** ** Requests for missing frames *)

(** Frame [j] is neither stored nor requested yet. *)
Definition wanted (s : RlpSession) (j : Z) : bool :=
  bool_decide (reseq_buffer s !! (j mod 256) = None) && negb (bool_decide (j mod 256 ∈ nak_outstanding s)).

Lemma queue_naks_loop_spec m : ∀ fuel a s,
  (m < fuel)%nat → (m < 256)%nat →
  pending_controls (queue_naks_loop fuel (a mod 256) ((a + Z.of_nat m) mod 256) s) =
    pending_controls s ++
      ((λ j, nak_frame (v_s s) (j mod 256) (j mod 256)) <$> filter (λ j, wanted s j = true) (seqZ a (Z.of_nat (S m)))).
Proof.
  induction m as [|m IH]; intros fuel a s Hf Hm; (destruct fuel as [|fuel]; [lia|]);
    cbn [queue_naks_loop]; rewrite (seqZ_cons a) by lia; rewrite filter_cons; fold (wanted s a).
  - rewrite Z.add_0_r, Z.eqb_refl. replace (Z.pred (Z.of_nat 1)) with 0 by lia. cbn [seqZ].
    destruct (wanted s a); [by rewrite decide_True|]. rewrite decide_False by done. by rewrite app_nil_r.
  - replace (a mod 256 =? _) with false by zdiv. rewrite wrapping_add_mod.
    replace (a + Z.of_nat (S m)) with (a + 1 + Z.of_nat m) by lia.
    replace (Z.succ a) with (a + 1) by lia. replace (Z.pred (Z.of_nat (S (S m)))) with (Z.of_nat (S m)) by lia.
    destruct (wanted s a) eqn:E; rewrite IH by lia.
    + rewrite decide_True by done. session. rewrite <- app_assoc. do 2 f_equal. cbn [fmap list_fmap app]. do 2 f_equal.
      apply filter_ext_in. intros j Hj%elem_of_seqZ. unfold wanted; session.
      rewrite (bool_decide_ext (_ ∈ _ ∪ _) (j mod 256 ∈ nak_outstanding s)); [done|].
      rewrite elem_of_union, elem_of_singleton. split; [|auto]. intros [?|]; [zdiv|done].
    + by rewrite decide_False by done.
Qed.

(** When frame [k] arrives beyond the highest frame received, the receiver
    asks for exactly the frames before it that it has not received and not
    asked for yet, each by a NAK of its own, in order. *)
Theorem gap_requests_missing (chunk : Z → list Z) (seen : list Z) (k : Z) (s : RlpSession) :
  related chunk seen s → high seen < k ≤ high seen + 127 → k + 1 - mex seen ≤ 128 →
  pending_controls (receive_data (k mod 256) (chunk k) s).1 =
    pending_controls s ++
      ((λ j, nak_frame (v_s s) (j mod 256) (j mod 256)) <$>
        filter (λ j, j ∉ seen ∧ (j mod 256) ∉ nak_outstanding s) (seqZ (mex seen) (k - mex seen))).
Proof.
  intros H Hk Hfit. pose proof (rel_window _ _ _ H) as Hw.
  rewrite receive_data_greater by
    (rewrite (rel_v_r _ _ _ H), seq_compare_window by lia; by rewrite decide_False, decide_True by lia).
  set (s1 := store _ _ _). edestruct (queue_naks_range_frame (v_n s)) as (a & b & Eq).
  rewrite store_no_overflow; [|rewrite Eq; subst s1; session..].
  2: by rewrite wrapping_add_mod, (rel_v_n _ _ _ H), seq_overflow, bool_decide_false by lia.
  2: apply (rel_empty _ _ _ H).
  cbn [fst]. assert (∀ x t, pending_controls (set_v_r x t) = pending_controls t) as -> by done.
  rewrite wrapping_sub_mod, (rel_v_n _ _ _ H).
  replace (k - 1) with (mex seen + Z.of_nat (Z.to_nat (k - 1 - mex seen))) by lia.
  etransitivity; [apply queue_naks_loop_spec; lia|].
  replace (Z.of_nat (S _)) with (k - mex seen) by lia. subst s1; session. do 2 f_equal.
  apply filter_ext_in. intros j Hj%elem_of_seqZ. unfold wanted; session.
  rewrite lookup_insert_ne by zdiv. rewrite (rel_slots _ _ _ H) by lia.
  rewrite andb_true_iff, negb_true_iff, bool_decide_eq_true, bool_decide_eq_false.
  rewrite not_elem_of_difference, elem_of_singleton. case_decide; [by split; intros []|].
  split; [|by intros [??]; auto]. intros [_ [?|?]]; [done|zdiv].
Qed.

Lemma gap_requests_missing_witness :
  pending_controls (receive_data (2 mod 256) [5] (enter_data_transfer (initialize new))).1
  = [nak_frame 0 0 0; nak_frame 0 1 1].
Proof.
  rewrite (gap_requests_missing (λ _, [5]) [] 2 (enter_data_transfer (initialize new)));
    [vm_compute; reflexivity| |vm_compute; split; congruence|vm_compute; congruence].
  apply related_fresh. by repeat split.
Defined.

(** Idle frames advance V(R) without the overflow check that data frames
    make.  After two idle frames the window exceeds 128 frames in data
    transfer; the missing frame 0, when it is retransmitted, is taken for a
    new one, is stored and never handed up, nor is anything after it.  Data
    frames with the same numbers reset the link instead. *)
Theorem idle_overruns_window :
  let s := enter_data_transfer (initialize new) in
  let r := receive_all [Some (idle_frame 100); Some (idle_frame 200)] s in
  (state r.1 = DataTransfer ∧ v_n r.1 = 0 ∧ v_r r.1 = 200) ∧
  (receive_all [Some (data_frame 0 [1]); Some (data_frame 0 [1]); Some (data_frame 1 [2])] r.1).2 = [] ∧
  state (receive_all [Some (data_frame 99 [1]); Some (data_frame 199 [1])] s).1 = StSync.
Proof. vm_compute. auto. Qed.
