(* ===== verification/Rlp2Frames.v ===== *)
(** * RLP Type 2 frame codec ([cdma-packet/src/lib/rlp2_frames.rs])

    The Rate Set 2 frames of the asynchronous data service.  The bit-field
    accessors, the CRC and the idle check octet are those of [Rlp]. *)
From S2P Require Import Prelude BitString Rlp.

Module Rlp2.

Inductive Rlp2ControlType := Sync | Ack | SyncAck | Nak.
#[export] Instance Rlp2ControlType_eq_dec : EqDecision Rlp2ControlType.
Proof. solve_decision. Defined.

Definition CTL_SYNC : Z := 0x36.
Definition CTL_ACK : Z := 0x3a.
Definition CTL_SYNC_ACK : Z := 0x3e.
Definition CTL_NAK : Z := 0x30.

Definition SEQ_BITS : nat := 8.
Definition CTL_BITS : nat := 6.
Definition ENC_MODE_BITS : nat := 2.
Definition FCS_BITS : nat := 16.
Definition NAK_TYPE_BITS : nat := 2.
Definition L_SEQ_HI_BITS : nat := 4.
Definition NAK_SEQ_BITS : nat := 12.
Definition NAK_TYPE_RANGE : Z := 0.

Definition ctl_bits (ct : Rlp2ControlType) : Z :=
  match ct with Sync => CTL_SYNC | Ack => CTL_ACK | SyncAck => CTL_SYNC_ACK | Nak => CTL_NAK end.

Definition from_ctl_bits (ctl : Z) : option Rlp2ControlType :=
  let c := Z.land ctl 0x3F in
  if c =? CTL_SYNC then Some Sync else if c =? CTL_ACK then Some Ack
  else if c =? CTL_SYNC_ACK then Some SyncAck else if c =? CTL_NAK then Some Nak else None.

(** [NakRange] is [Rlp2Frame::Nak], renamed beside the control type [Nak]. *)
Inductive Rlp2Frame :=
| Control (seq : Z) (control_type : Rlp2ControlType) (encryption_mode : Z)
| NakRange (seq l_seq_hi first last : Z)
| Data (seq : Z) (rexmit : bool) (data : list Z)
| DataFormatB (seq : Z) (rexmit : bool) (data : list Z)
| Idle (seq : Z).
#[export] Instance Rlp2Frame_eq_dec : EqDecision Rlp2Frame.
Proof. solve_decision. Defined.

Definition frame_seq (f : Rlp2Frame) : Z :=
  match f with
  | Control seq _ _ | NakRange seq _ _ _ | Data seq _ _ | DataFormatB seq _ _ | Idle seq => seq
  end.
Definition is_idle (f : Rlp2Frame) : bool :=
  match f with Idle _ => true | Data _ _ data => bool_decide (data = []) | _ => false end.
Definition is_control (f : Rlp2Frame) : bool :=
  match f with Control _ _ _ | NakRange _ _ _ _ => true | _ => false end.

Inductive Rlp2EncodeError :=
| DataTooLong (len max : nat)
| FormatBLength (len expected : nat)
| FormatBRequiresFullRate (rate : RlpRate)
| EighthRateDataCarrier.

(** (type_bits, format_a, format_b_new, format_b_rexmit) *)
Definition full_rate_type_codes (mux : RlpMuxOption) : nat * Z * Z * Z :=
  match mux with One => (3%nat, 0x1, 0x2, 0x3) | Two => (2%nat, 0x1, 0x2, 0x3) end.

Definition max_len_for_rate (rate : RlpRate) (mux : RlpMuxOption) : nat :=
  match mux, rate with
  | One, Full => 19 | One, Half => 8 | One, _ => 0
  | Two, Full => 31 | Two, Half => 13 | Two, Quarter => 4 | Two, Eighth => 0
  end.

(** ** Encoding *)
Definition encode_control_info (seq ctl encryption_mode : Z) : rust (list Z) :=
  let info := replicate (SEQ_BITS + CTL_BITS + ENC_MODE_BITS + FCS_BITS) 0 in
  info ← put_bits info 0 seq SEQ_BITS;
  info ← put_bits info SEQ_BITS ctl CTL_BITS;
  info ← put_bits info (SEQ_BITS + CTL_BITS) encryption_mode ENC_MODE_BITS;
  let fcs_offset := (SEQ_BITS + CTL_BITS + ENC_MODE_BITS)%nat in
  covered ← slice info 0 fcs_offset;
  let fcs := crc16_rlp covered in
  info ← put_bits info fcs_offset ((Z.shiftr fcs 8) as_u8) 8;
  put_bits info (fcs_offset + 8) ((Z.land fcs 0xFF) as_u8) 8.

Definition put_bits12 (bits : list Z) (offset : nat) (val : Z) : rust (list Z) :=
  foldl (λ acc i, bs ← acc;
           set_index bs (offset + i) ((Z.land (Z.shiftr val (Z.of_nat (NAK_SEQ_BITS - 1 - i))) 1) as_u8))
    (Some bits) (List.seq 0 NAK_SEQ_BITS).

Definition encode_nak_info (seq l_seq_hi first last : Z) : rust (list Z) :=
  let body_bits := (SEQ_BITS + CTL_BITS + NAK_TYPE_BITS + L_SEQ_HI_BITS + NAK_SEQ_BITS * 2)%nat in
  let info := replicate (body_bits + FCS_BITS) 0 in
  let off := 0%nat in
  info ← put_bits info off seq SEQ_BITS;
  let off := (off + SEQ_BITS)%nat in
  info ← put_bits info off CTL_NAK CTL_BITS;
  let off := (off + CTL_BITS)%nat in
  info ← put_bits info off NAK_TYPE_RANGE NAK_TYPE_BITS;
  let off := (off + NAK_TYPE_BITS)%nat in
  info ← put_bits info off (Z.land l_seq_hi 0x0F) L_SEQ_HI_BITS;
  let off := (off + L_SEQ_HI_BITS)%nat in
  info ← put_bits12 info off first;
  let off := (off + NAK_SEQ_BITS)%nat in
  info ← put_bits12 info off last;
  covered ← slice info 0 body_bits;
  let fcs := crc16_rlp covered in
  info ← put_bits info body_bits ((Z.shiftr fcs 8) as_u8) 8;
  put_bits info (body_bits + 8) ((Z.land fcs 0xFF) as_u8) 8.

Definition encode_unsegmented_data (bits : list Z) (rate : RlpRate) (mux : RlpMuxOption)
    (seq : Z) (rexmit : bool) (data : list Z) : rust (result Rlp2EncodeError (list Z)) :=
  if decide (rate = Eighth) then Some (Err EighthRateDataCarrier)
  else
    let max := max_len_for_rate rate mux in
    if decide (max < length data)%nat then Some (Err (DataTooLong (length data) max))
    else
      let off := 0%nat in
      bits ← put_bits bits off seq SEQ_BITS;
      let off := (off + SEQ_BITS)%nat in
      bits ← set_index bits off 0;
      let off := (off + 1)%nat in
      bits ← set_index bits off (if rexmit then 1 else 0);
      let off := (off + 1)%nat in
      bits ← put_bits bits off ((Z.of_nat (length data)) as_u8) 6;
      let off := (off + 6)%nat in
      bits ← put_octets bits off data;
      if decide (rate = Full) then
        let '(type_bits, fa, _, _) := full_rate_type_codes mux in
        bits ← put_bits bits (full_information_bits mux) fa type_bits;
        Some (Ok bits)
      else Some (Ok bits).

Definition place_information (bits info : list Z) (rate : RlpRate) (mux : RlpMuxOption) : rust (list Z) :=
  match rate with
  | Full =>
      let info_bits := full_information_bits mux in
      let n := Nat.min (length info) info_bits in
      src ← slice info 0 n;
      bits ← copy_prefix bits n src;
      let '(type_bits, fa, _, _) := full_rate_type_codes mux in
      put_bits bits info_bits fa type_bits
  | Half | Quarter =>
      let n := Nat.min (length info) (length bits) in
      src ← slice info 0 n;
      copy_prefix bits n src
  | Eighth => Some bits
  end.

Definition encode_frame_for_mux (frame : Rlp2Frame) (rate : RlpRate) (mux : RlpMuxOption)
    : rust (result Rlp2EncodeError (list Z)) :=
  let bits := replicate (primary_bits mux rate) 0 in
  match frame, rate with
  | Idle seq, Eighth =>
      bits ← put_bits bits 0 seq SEQ_BITS;
      fcs ← nordstrom_robinson_fcs seq;
      bits ← put_bits bits SEQ_BITS fcs 8;
      Some (Ok bits)
  | Idle seq, _ => encode_unsegmented_data bits rate mux seq false []
  | Control seq control_type encryption_mode, rate =>
      if decide (rate = Eighth) then Some (Err EighthRateDataCarrier)
      else
        info ← encode_control_info seq (ctl_bits control_type) encryption_mode;
        bits ← place_information bits info rate mux;
        Some (Ok bits)
  | NakRange seq l_seq_hi first last, rate =>
      if decide (rate = Eighth) then Some (Err EighthRateDataCarrier)
      else
        info ← encode_nak_info seq l_seq_hi first last;
        bits ← place_information bits info rate mux;
        Some (Ok bits)
  | Data seq rexmit data, rate => encode_unsegmented_data bits rate mux seq rexmit data
  | DataFormatB seq rexmit data, Full =>
      let expected := format_b_octets mux in
      if decide (length data ≠ expected) then Some (Err (FormatBLength (length data) expected))
      else
        bits ← put_bits bits 0 seq SEQ_BITS;
        bits ← put_octets bits SEQ_BITS data;
        let '(type_bits, _, fb_new, fb_rexmit) := full_rate_type_codes mux in
        let code := if rexmit then fb_rexmit else fb_new in
        bits ← put_bits bits (full_information_bits mux) code type_bits;
        Some (Ok bits)
  | DataFormatB _ _ _, rate => Some (Err (FormatBRequiresFullRate rate))
  end.

(** ** Decoding *)
Definition decode_idle (bits : list Z) : rust (option Rlp2Frame) :=
  seq ← get_bits bits 0 SEQ_BITS;
  fcs ← get_bits bits SEQ_BITS 8;
  expected ← nordstrom_robinson_fcs (seq as_u8);
  if decide (fcs as_u8 ≠ expected) then Some None else Some (Some (Idle (seq as_u8))).

Definition decode_nak (bits : list Z) (seq : Z) : rust (option Rlp2Frame) :=
  let off := (SEQ_BITS + CTL_BITS)%nat in
  nak_type ← get_bits bits off NAK_TYPE_BITS;
  let off := (off + NAK_TYPE_BITS)%nat in
  if decide (nak_type as_u8 ≠ NAK_TYPE_RANGE) then Some None
  else
    l_seq_hi ← get_bits bits off L_SEQ_HI_BITS;
    let off := (off + L_SEQ_HI_BITS)%nat in
    first ← get_bits bits off NAK_SEQ_BITS;
    let off := (off + NAK_SEQ_BITS)%nat in
    last ← get_bits bits off NAK_SEQ_BITS;
    let off := (off + NAK_SEQ_BITS)%nat in
    received ← get_bits bits off FCS_BITS;
    covered ← slice bits 0 off;
    if decide (received as_u16 ≠ crc16_rlp covered) then Some None
    else Some (Some (NakRange seq (l_seq_hi as_u8) (first as_u16) (last as_u16))).

Definition decode_information (bits : list Z) (rate : RlpRate) (mux : RlpMuxOption)
    : rust (option Rlp2Frame) :=
  seq ← get_bits bits 0 SEQ_BITS;
  let seq := seq as_u8 in
  disc ← index bits SEQ_BITS;
  if disc =? 0 then
    rexmit ← index bits (SEQ_BITS + 1);
    len ← get_bits bits (SEQ_BITS + 2) 6;
    let len := Z.to_nat len in
    if decide (max_len_for_rate rate mux < len)%nat then Some None
    else
      data ← get_octets bits (SEQ_BITS + 8) len;
      Some (Some (Data seq (rexmit =? 1) data))
  else
    bit1 ← index bits (SEQ_BITS + 1);
    if bit1 =? 0 then Some None
    else
      ctl ← get_bits bits SEQ_BITS CTL_BITS;
      match from_ctl_bits (ctl as_u8) with
      | None => Some None
      | Some Nak => decode_nak bits seq
      | Some control_type =>
          let enc_off := (SEQ_BITS + CTL_BITS)%nat in
          encryption_mode ← get_bits bits enc_off ENC_MODE_BITS;
          let fcs_off := (enc_off + ENC_MODE_BITS)%nat in
          received ← get_bits bits fcs_off FCS_BITS;
          covered ← slice bits 0 fcs_off;
          if decide (received as_u16 ≠ crc16_rlp covered) then Some None
          else Some (Some (Control seq control_type (encryption_mode as_u8)))
      end.

Definition decode_full_rate (bits : list Z) (mux : RlpMuxOption) : rust (option Rlp2Frame) :=
  let '(type_bits, fa, fb_new, fb_rexmit) := full_rate_type_codes mux in
  frame_type ← get_bits bits (full_information_bits mux) type_bits;
  let frame_type := frame_type as_u8 in
  if frame_type =? fa then decode_information bits Full mux
  else if (frame_type =? fb_new) || (frame_type =? fb_rexmit) then
    seq ← get_bits bits 0 SEQ_BITS;
    data ← get_octets bits SEQ_BITS (format_b_octets mux);
    Some (Some (DataFormatB (seq as_u8) (frame_type =? fb_rexmit) data))
  else Some None.

Definition decode_frame_for_mux (bits : list Z) (rate : RlpRate) (mux : RlpMuxOption)
    : rust (option Rlp2Frame) :=
  if decide (length bits < primary_bits mux rate)%nat then Some None
  else
    match rate with
    | Eighth => decode_idle bits
    | Half | Quarter => decode_information bits rate mux
    | Full => decode_full_rate bits mux
    end.

(** ** Constructors *)
Definition sync_frame (seq : Z) : Rlp2Frame := Control seq Sync 0.
Definition sync_ack_frame (seq : Z) : Rlp2Frame := Control seq SyncAck 0.
Definition ack_frame (seq : Z) : Rlp2Frame := Control seq Ack 0.
Definition idle_frame (seq : Z) : Rlp2Frame := Idle seq.
Definition data_frame (seq : Z) (data : list Z) : Rlp2Frame := Data seq false data.

Example nak_full_rate :
  (bits ← encode_frame_for_mux (NakRange 9 3 4000 4001) Full Two;
   match bits with Ok b => decode_frame_for_mux b Full Two | Err _ => None end)
  = Some (Some (NakRange 9 3 4000 4001)).
Proof. vm_compute. reflexivity. Qed.

Example nak_quarter_rate_panics :
  (bits ← encode_frame_for_mux (NakRange 9 3 4000 4001) Quarter Two;
   match bits with Ok b => decode_frame_for_mux b Quarter Two | Err _ => Some None end)
  = None.
Proof. vm_compute. reflexivity. Qed.

End Rlp2.
