(* ===== verification/Rlp2Proofs.v ===== *)
(** * Correctness of the RLP Type 2 frame codec *)
From S2P Require Import Prelude BitString Rlp RlpProofs Rlp2Frames.
Import Rlp2.

(** ** Fields *)
Lemma to_bits_app n m v :
  to_bits (n + m) v = to_bits n (v / 2 ^ Z.of_nat m) ++ to_bits m v.
Proof.
  revert v. induction m as [|m IH]; intros v.
  { rewrite Nat.add_0_r. cbn. by rewrite Z.div_1_r, app_nil_r. }
  rewrite Nat.add_succ_r, !to_bits_S, IH, <- app_assoc. f_equal. f_equal.
  rewrite Z.div_div by lia. f_equal. rewrite Nat2Z.inj_succ, Z.pow_succ_r by lia. done.
Qed.

Lemma to_bits_mod n v : to_bits n (v mod 2 ^ Z.of_nat n) = to_bits n v.
Proof.
  revert v. induction n as [|n IH]; intros v; [done|]. rewrite !to_bits_S.
  rewrite Nat2Z.inj_succ, Z.pow_succ_r by lia.
  rewrite Z.rem_mul_r by lia. f_equal.
  - rewrite Z.add_comm, Z.mul_comm, Z.div_add_l by lia.
    rewrite (Z.div_small (v mod 2)), Z.add_0_r by zdiv. apply IH.
  - rewrite Z.mul_comm, Z.mod_add by lia. by rewrite Z.mod_mod.
Qed.

(** The check sequence as the two octets written. *)
Lemma fcs_octets fcs : is_u16 fcs →
  to_bits 8 ((Z.shiftr fcs 8) as_u8) ++ to_bits 8 ((Z.land fcs 0xFF) as_u8) = to_bits 16 fcs.
Proof.
  intros H. rewrite !(wrap_small 8) by (apply fcs_lo_u8 || by apply fcs_hi_u8).
  rewrite (to_bits_app 8 8), land_255, shiftr_8. f_equal. apply (to_bits_mod 8).
Qed.

Lemma set_index_bit bits off v : is_u 1 v → set_index bits off v = put_bits bits off v 1.
Proof.
  intros Hv. unfold put_bits. cbn. rewrite Nat.add_0_r, Z.shiftr_0_r, land_1.
  by rewrite Z.mod_small.
Qed.

Lemma put_bits12_eq bits off v : put_bits12 bits off v = put_bits bits off v 12.
Proof.
  unfold put_bits12, put_bits, NAK_SEQ_BITS. generalize (Some bits) as acc.
  generalize (List.seq 0 12) as js. induction js as [|j js IH]; intros acc; [done|]. cbn [foldl].
  rewrite IH. f_equal. destruct acc as [bs|]; [|done]. cbn [mbind option_bind]. f_equal.
  apply wrap_small. rewrite land_1. unfold is_u. zdiv.
Qed.

Lemma crc16_rlp_u16 bits : is_u16 (crc16_rlp bits).
Proof.
  unfold crc16_rlp. apply is_u_lxor; [lia|done|].
  cut (∀ bs c, is_u16 c → is_u16 (foldl (λ crc bit,
       if Z.land (Z.lxor crc (Z.land bit 1)) 1 =? 0 then Z.shiftr crc 1
       else Z.lxor (Z.shiftr crc 1) POLY) c bs)); [intros H; by apply H|].
  induction bs as [|b bs IH]; intros c Hc; cbn [foldl]; [done|]. apply IH.
  destruct (_ =? _); [|apply is_u_lxor; [lia| |apply POLY_u16]]; by apply is_u_shiftr.
Qed.

(** ** Layouts *)
Definition data2 (seq : Z) (rexmit : bool) (data : list Z) : list Z :=
  to_bits 8 seq ++ to_bits 1 0 ++ to_bits 1 (Z.b2z rexmit) ++ to_bits 6 (Z.of_nat (length data)) ++ octet_bits data.
Definition control2_cover (seq : Z) (ct : Rlp2ControlType) (em : Z) : list Z :=
  to_bits 8 seq ++ to_bits 6 (ctl_bits ct) ++ to_bits 2 em.
Definition control2 (seq : Z) (ct : Rlp2ControlType) (em : Z) : list Z :=
  control2_cover seq ct em ++ to_bits 16 (crc16_rlp (control2_cover seq ct em)).
Definition nak2_cover (seq l_seq_hi first last : Z) : list Z :=
  to_bits 8 seq ++ to_bits 6 CTL_NAK ++ to_bits 2 NAK_TYPE_RANGE ++ to_bits 4 (Z.land l_seq_hi 0x0F)
    ++ to_bits 12 first ++ to_bits 12 last.
Definition nak2 (seq l_seq_hi first last : Z) : list Z :=
  nak2_cover seq l_seq_hi first last ++ to_bits 16 (crc16_rlp (nak2_cover seq l_seq_hi first last)).

(** An information field, padded to the frame, with the TYPE field at full rate. *)
Definition padded (rate : RlpRate) (mux : RlpMuxOption) (info : list Z) : list Z :=
  match rate with
  | Full => info ++ replicate (full_information_bits mux - length info) 0 ++ to_bits (type_bits mux) 1
  | _ => info ++ replicate (primary_bits mux rate - length info) 0
  end.
Definition room (rate : RlpRate) (mux : RlpMuxOption) : nat :=
  match rate with Full => full_information_bits mux | _ => primary_bits mux rate end.

Lemma length_control2 seq ct em : length (control2 seq ct em) = 32%nat.
Proof. unfold control2, control2_cover. by field_lengths. Qed.
Lemma length_nak2 seq h f l : length (nak2 seq h f l) = 60%nat.
Proof. unfold nak2, nak2_cover. by field_lengths. Qed.
Lemma length_data2 seq r data : length (data2 seq r data) = (16 + 8 * length data)%nat.
Proof. unfold data2. field_lengths. lia. Qed.

Lemma control2_info seq ct em : encode_control_info seq (ctl_bits ct) em = Some (control2 seq ct em).
Proof.
  unfold encode_control_info, control2. change (replicate _ 0) with ([] ++ replicate 32 0).
  unfold SEQ_BITS, CTL_BITS, ENC_MODE_BITS. cbn [Nat.add].
  do 3 (rewrite put_bits_zeros by (field_lengths; cbn; lia); rewrite bind_some).
  rewrite slice_prefix, bind_some by by field_lengths. cbn [Nat.sub app]. rewrite <- !app_assoc.
  change (to_bits 8 seq ++ to_bits 6 (ctl_bits ct) ++ to_bits 2 em) with (control2_cover seq ct em).
  rewrite !(app_assoc (to_bits 6 _)), !(app_assoc (to_bits 8 seq)).
  change (to_bits 8 seq ++ (to_bits 6 (ctl_bits ct) ++ to_bits 2 em)) with (control2_cover seq ct em).
  set (fcs := crc16_rlp _). pose proof (crc16_rlp_u16 (control2_cover seq ct em)) as Hu. fold fcs in Hu. clearbody fcs.
  do 2 (rewrite put_bits_zeros by (unfold control2_cover; field_lengths; cbn; lia); rewrite ?bind_some).
  cbn [Nat.sub replicate]. by rewrite app_nil_r, <- app_assoc, fcs_octets.
Qed.

Lemma nak2_info seq h f l : encode_nak_info seq h f l = Some (nak2 seq h f l).
Proof.
  unfold encode_nak_info, nak2.
  unfold SEQ_BITS, CTL_BITS, NAK_TYPE_BITS, L_SEQ_HI_BITS, NAK_SEQ_BITS, FCS_BITS. cbn [Nat.add Nat.mul].
  change (replicate 60 0) with ([] ++ replicate 60 0).
  do 4 (rewrite put_bits_zeros by (field_lengths; cbn; lia); rewrite bind_some).
  do 2 (rewrite put_bits12_eq, put_bits_zeros by (field_lengths; cbn; lia); rewrite bind_some).
  rewrite slice_prefix, bind_some by by field_lengths. cbn [Nat.sub app]. rewrite <- !app_assoc.
  change (to_bits 8 seq ++ to_bits 6 CTL_NAK ++ to_bits 2 NAK_TYPE_RANGE ++ to_bits 4 (Z.land h 0x0F)
    ++ to_bits 12 f ++ to_bits 12 l) with (nak2_cover seq h f l).
  set (fcs := crc16_rlp _). pose proof (crc16_rlp_u16 (nak2_cover seq h f l)) as Hu. fold fcs in Hu.
  assert (∀ x, to_bits 8 seq ++ to_bits 6 CTL_NAK ++ to_bits 2 NAK_TYPE_RANGE ++ to_bits 4 (Z.land h 0x0F)
    ++ to_bits 12 f ++ to_bits 12 l ++ x = nak2_cover seq h f l ++ x) as E.
  { intros x. unfold nak2_cover. by rewrite <- !app_assoc. }
  rewrite E. clearbody fcs.
  do 2 (rewrite put_bits_zeros by (unfold nak2_cover; field_lengths; cbn; lia); rewrite ?bind_some).
  cbn [Nat.sub replicate]. by rewrite app_nil_r, <- app_assoc, fcs_octets.
Qed.

Lemma type_code_spec mux pre m :
  (length pre ≤ full_information_bits mux)%nat → (length pre + m = primary_bits mux Full)%nat →
  (let '(tb, fa, _, _) := full_rate_type_codes mux in
   put_bits (pre ++ replicate m 0) (full_information_bits mux) fa tb) = Some (padded Full mux pre).
Proof.
  intros H1 H2. unfold padded. rewrite <- (put_format_a_type_spec mux pre m) by done. by destruct mux.
Qed.

Lemma place_information_spec info rate mux :
  rate ≠ Eighth → (length info ≤ room rate mux)%nat →
  place_information (replicate (primary_bits mux rate) 0) info rate mux = Some (padded rate mux info).
Proof.
  intros Hr Hl. assert (full_information_bits mux ≤ primary_bits mux Full)%nat by (destruct mux; cbn; lia).
  unfold place_information. destruct rate; [| | |done]; cbn [room] in Hl.
  - rewrite Nat.min_l, slice_full, bind_some by done.
    unfold copy_prefix. rewrite decide_True, bind_some by (field_lengths; lia).
    rewrite drop_replicate. apply type_code_spec; lia.
  - rewrite length_replicate, Nat.min_l, slice_full, bind_some by done.
    unfold copy_prefix. rewrite decide_True by (field_lengths; lia). by rewrite drop_replicate.
  - rewrite length_replicate, Nat.min_l, slice_full, bind_some by done.
    unfold copy_prefix. rewrite decide_True by (field_lengths; lia). by rewrite drop_replicate.
Qed.

Lemma max_len_room rate mux : rate ≠ Eighth → (16 + 8 * max_len_for_rate rate mux ≤ room rate mux)%nat.
Proof. destruct rate, mux; cbn; done || lia. Qed.

Lemma encode_unsegmented_spec rate mux seq r data :
  rate ≠ Eighth → (length data ≤ max_len_for_rate rate mux)%nat →
  encode_unsegmented_data (replicate (primary_bits mux rate) 0) rate mux seq r data
  = Some (Ok (padded rate mux (data2 seq r data))).
Proof.
  intros Hr Hl. pose proof (max_len_room rate mux Hr) as Hroom.
  assert (room rate mux ≤ primary_bits mux rate)%nat by (destruct rate, mux; cbn; lia).
  assert (max_len_for_rate rate mux < 64)%nat by (destruct rate, mux; cbn; lia).
  unfold encode_unsegmented_data. rewrite !decide_False by (done || lia).
  rewrite wrap_small by (unfold is_u; lia). unfold SEQ_BITS. cbn [Nat.add].
  change (replicate (primary_bits mux rate) 0) with ([] ++ replicate (primary_bits mux rate) 0).
  rewrite put_bits_zeros, bind_some by (field_lengths; cbn; lia).
  rewrite set_index_bit, put_bits_zeros, bind_some by (done || (field_lengths; cbn; lia)).
  replace (if r then 1 else 0) with (Z.b2z r) by by destruct r.
  rewrite set_index_bit, put_bits_zeros, bind_some by first [by destruct r|field_lengths; cbn; lia].
  rewrite put_bits_zeros, bind_some by (field_lengths; cbn; lia).
  unfold put_octets. rewrite put_octets_zeros, bind_some by (field_lengths; cbn; lia).
  replace ((((([] ++ to_bits 8 seq) ++ to_bits 1 0) ++ to_bits 1 (Z.b2z r)) ++ to_bits 6 (Z.of_nat (length data)))
    ++ octet_bits data) with (data2 seq r data) by (unfold data2; by rewrite <- !app_assoc).
  pose proof (length_data2 seq r data).
  destruct rate; [| | |done]; cbn [room decide] in *.
  - rewrite decide_True by done. pose proof (type_code_spec mux (data2 seq r data)) as Ht.
    destruct mux; cbn [full_rate_type_codes] in *; rewrite Ht by (cbn in *; lia); done.
  - rewrite decide_False by done. unfold padded. do 4 f_equal. lia.
  - rewrite decide_False by done. unfold padded. do 4 f_equal. lia.
Qed.

(** ** Decoding a padded information field *)
Lemma decode_padded rate mux info :
  rate ≠ Eighth → (length info ≤ room rate mux)%nat →
  decode_frame_for_mux (padded rate mux info) rate mux = decode_information (padded rate mux info) rate mux.
Proof.
  intros Hr Hl. unfold decode_frame_for_mux.
  destruct rate; [| | |done]; cbn [room] in Hl; unfold padded.
  - destruct (typed_layout mux 1 info ltac:(done) Hl) as [H1 H2].
    rewrite decide_False by lia. unfold decode_full_rate.
    destruct mux; cbn [full_rate_type_codes type_bits] in *; by rewrite H2.
  - rewrite decide_False by (field_lengths; lia). done.
  - rewrite decide_False by (field_lengths; lia). done.
Qed.

Lemma padded_app rate mux info : ∃ suf, padded rate mux info = info ++ suf.
Proof. destruct rate; by eexists. Qed.

Lemma data2_fields seq r data suf :
  let bits := data2 seq r data ++ suf in
  is_u8 seq → bytes data → (length data < 64)%nat →
  get_bits bits 0 8 = Some seq ∧ index bits 8 = Some 0 ∧ index bits 9 = Some (Z.b2z r) ∧
  get_bits bits 10 6 = Some (Z.of_nat (length data)) ∧ get_octets bits 16 (length data) = Some data.
Proof.
  intros bits Hs Hd Hl. subst bits. unfold data2. split_and!.
  1-4: rewrite <- !app_assoc; skip_fields.
  - rewrite get_bits_field by lia. f_equal. by apply Z.mod_small.
  - done.
  - by destruct r.
  - rewrite get_bits_field by lia. f_equal. apply Z.mod_small. lia.
  - unfold get_octets. rewrite !(app_assoc _ _ (octet_bits data)), <- (app_assoc _ (octet_bits data)).
    apply get_octets_field; [done|]. by field_lengths.
Qed.

Lemma decode_data2 rate mux seq r data suf :
  is_u8 seq → bytes data → (length data ≤ max_len_for_rate rate mux)%nat →
  decode_information (data2 seq r data ++ suf) rate mux = Some (Some (Data seq r data)).
Proof.
  intros Hs Hd Hl. assert (max_len_for_rate rate mux < 64)%nat by (destruct rate, mux; cbn; lia).
  destruct (data2_fields seq r data suf Hs Hd ltac:(lia)) as (E0 & E8 & E9 & El & Ed).
  unfold decode_information, SEQ_BITS. cbn [Nat.add].
  rewrite E0, E8, E9, El. cbn [mbind option_bind Z.eqb]. rewrite Nat2Z.id, decide_False by lia.
  rewrite Ed, wrap_small by done. by destruct r.
Qed.

(** The fields of a control frame, read one by one. *)
Lemma control2_fields seq ct em suf :
  let bits := control2 seq ct em ++ suf in
  is_u8 seq → is_u 2 em →
  get_bits bits 0 8 = Some seq ∧ index bits 8 = Some 1 ∧ index bits 9 = Some 1 ∧
  get_bits bits 8 6 = Some (ctl_bits ct) ∧ get_bits bits 14 2 = Some em ∧
  get_bits bits 16 16 = Some (crc16_rlp (control2_cover seq ct em)) ∧
  slice bits 0 16 = Some (control2_cover seq ct em).
Proof.
  intros bits Hs He. subst bits. pose proof (crc16_rlp_u16 (control2_cover seq ct em)) as Hfcs.
  unfold control2. rewrite <- app_assoc. revert Hfcs. generalize (crc16_rlp (control2_cover seq ct em)) as fcs.
  intros fcs Hfcs. rewrite slice_prefix by (unfold control2_cover; by field_lengths).
  unfold control2_cover. rewrite <- !app_assoc.
  split_and!; skip_fields; try (by destruct ct); rewrite get_bits_field by lia; f_equal; by apply Z.mod_small.
Qed.

Lemma decode_control2 rate mux seq ct em suf :
  is_u8 seq → is_u 2 em → ct ≠ Nak →
  decode_information (control2 seq ct em ++ suf) rate mux = Some (Some (Control seq ct em)).
Proof.
  intros Hs He Hct. destruct (control2_fields seq ct em suf Hs He) as (E0 & E8 & E9 & Ec & Ee & Ef & Ecov).
  pose proof (crc16_rlp_u16 (control2_cover seq ct em)).
  unfold decode_information, SEQ_BITS, CTL_BITS, ENC_MODE_BITS, FCS_BITS. cbn [Nat.add].
  rewrite E0, E8, E9, Ec. cbn [mbind option_bind Z.eqb Pos.eqb].
  rewrite (wrap_small 8 (ctl_bits ct)) by by destruct ct.
  assert (from_ctl_bits (ctl_bits ct) = Some ct) as -> by by destruct ct.
  rewrite Ee, Ef, Ecov. cbn [mbind option_bind].
  rewrite (wrap_small 16), decide_False by auto. rewrite !(wrap_small 8) by (done || by apply (is_u_mono 2)).
  by destruct ct.
Qed.

Lemma nak2_fields seq h f l suf :
  let bits := nak2 seq h f l ++ suf in
  is_u8 seq → is_u 4 h → is_u 12 f → is_u 12 l →
  get_bits bits 0 8 = Some seq ∧ index bits 8 = Some 1 ∧ index bits 9 = Some 1 ∧
  get_bits bits 8 6 = Some CTL_NAK ∧ get_bits bits 14 2 = Some 0 ∧
  get_bits bits 16 4 = Some h ∧ get_bits bits 20 12 = Some f ∧ get_bits bits 32 12 = Some l ∧
  get_bits bits 44 16 = Some (crc16_rlp (nak2_cover seq h f l)) ∧
  slice bits 0 44 = Some (nak2_cover seq h f l).
Proof.
  intros bits Hs Hh Hf Hl. subst bits. pose proof (crc16_rlp_u16 (nak2_cover seq h f l)) as Hfcs.
  unfold nak2. rewrite <- app_assoc. revert Hfcs. generalize (crc16_rlp (nak2_cover seq h f l)) as fcs.
  intros fcs Hfcs. rewrite slice_prefix by (unfold nak2_cover; by field_lengths).
  assert (Z.land h 0x0F = h) as Eh.
  { change 0x0F with (Z.ones 4). rewrite Z.land_ones by lia. by apply Z.mod_small. }
  unfold nak2_cover. rewrite <- !app_assoc, Eh.
  split_and!; skip_fields; try done; rewrite get_bits_field by lia; f_equal; by apply Z.mod_small.
Qed.

Lemma decode_nak2 rate mux seq h f l suf :
  is_u8 seq → is_u 4 h → is_u 12 f → is_u 12 l →
  decode_information (nak2 seq h f l ++ suf) rate mux = Some (Some (NakRange seq h f l)).
Proof.
  intros Hs Hh Hf Hl.
  destruct (nak2_fields seq h f l suf Hs Hh Hf Hl) as (E0 & E8 & E9 & Ec & Et & Eh & Ef & El & Efcs & Ecov).
  pose proof (crc16_rlp_u16 (nak2_cover seq h f l)).
  unfold decode_information, SEQ_BITS, CTL_BITS. cbn [Nat.add].
  rewrite E0, E8, E9, Ec. cbn [mbind option_bind Z.eqb Pos.eqb].
  rewrite (wrap_small 8 CTL_NAK) by done. change (from_ctl_bits CTL_NAK) with (Some Nak).
  unfold decode_nak, SEQ_BITS, CTL_BITS, NAK_TYPE_BITS, L_SEQ_HI_BITS, NAK_SEQ_BITS, FCS_BITS. cbn [Nat.add].
  rewrite Et. cbn [mbind option_bind]. rewrite decide_False by (intros Hne; by apply Hne).
  rewrite Eh, Ef, El, Efcs, Ecov. cbn [mbind option_bind].
  rewrite (wrap_small 16 (crc16_rlp _)), decide_False by auto.
  rewrite !(wrap_small 8), !(wrap_small 16) by first [done|by apply (is_u_mono 4)|by apply (is_u_mono 12)]. done.
Qed.

(** ** Format B *)
Lemma encode_format_b2 mux seq r data :
  length data = format_b_octets mux →
  encode_frame_for_mux (DataFormatB seq r data) Full mux
  = Some (Ok (to_bits 8 seq ++ octet_bits data ++ to_bits (type_bits mux) (2 + Z.b2z r))).
Proof.
  intros Hl. cbn [encode_frame_for_mux]. rewrite decide_False by auto.
  change (replicate (primary_bits mux Full) 0) with ([] ++ replicate (primary_bits mux Full) 0).
  assert (primary_bits mux Full = 8 + 8 * length data + type_bits mux ∧
    full_information_bits mux = 8 + 8 * length data)%nat as [Hp Hi] by (rewrite Hl; by destruct mux).
  unfold SEQ_BITS. rewrite put_bits_zeros, bind_some by (field_lengths; cbn; lia).
  unfold put_octets. rewrite put_octets_zeros, bind_some by (field_lengths; cbn; lia).
  transitivity (bs ← put_bits (([] ++ to_bits 8 seq) ++ octet_bits data ++
      replicate (primary_bits mux Full - 8 - 8 * length data) 0)
      (full_information_bits mux) (2 + Z.b2z r) (type_bits mux); Some (Ok (E := Rlp2EncodeError) bs)).
  { rewrite <- !app_assoc. by destruct mux, r. }
  rewrite app_assoc, put_bits_zeros, bind_some by (field_lengths; cbn; lia).
  replace (_ - _ - _ - _)%nat with 0%nat by lia. by rewrite <- !app_assoc, app_nil_r.
Qed.

Lemma decode_format_b2 mux seq r data :
  is_u8 seq → bytes data → length data = format_b_octets mux →
  decode_frame_for_mux (to_bits 8 seq ++ octet_bits data ++ to_bits (type_bits mux) (2 + Z.b2z r)) Full mux
  = Some (Some (DataFormatB seq r data)).
Proof.
  intros Hs Hd Hl.
  assert (full_rate_typed mux (2 + Z.b2z r) (to_bits 8 seq ++ octet_bits data ++ to_bits (type_bits mux) (2 + Z.b2z r)))
    as [Hlen Ht].
  { rewrite app_assoc. set (pre := to_bits 8 seq ++ _).
    assert (length pre = full_information_bits mux) as Hp.
    { subst pre. field_lengths. rewrite Hl. by destruct mux. }
    pose proof (typed_layout mux (2 + Z.b2z r) pre ltac:(by destruct r) ltac:(lia)) as H.
    by rewrite Hp, Nat.sub_diag in H. }
  unfold decode_frame_for_mux. rewrite decide_False by lia. unfold decode_full_rate.
  assert (get_octets (to_bits 8 seq ++ octet_bits data ++ to_bits (type_bits mux) (2 + Z.b2z r)) 8 (format_b_octets mux)
    = Some data) as Ho.
  { unfold get_octets. rewrite <- Hl. apply get_octets_field; [done|]. by field_lengths. }
  assert (∀ x, get_bits (to_bits 8 seq ++ x) 0 8 = Some seq) as H0.
  { intros x. rewrite get_bits_field by lia. f_equal. by apply Z.mod_small. }
  unfold SEQ_BITS. destruct mux; cbn [full_rate_type_codes type_bits] in *;
    rewrite Ht; cbn [mbind option_bind]; rewrite H0, Ho; cbn [mbind option_bind];
    (rewrite (wrap_small 8 seq) by done); by destruct r.
Qed.

(** ** Main theorems *)
Definition wf_frame2 (f : Rlp2Frame) : Prop :=
  match f with
  | Control seq ct em => is_u8 seq ∧ is_u 2 em ∧ ct ≠ Nak
  | NakRange seq h first last => is_u8 seq ∧ is_u 4 h ∧ is_u 12 first ∧ is_u 12 last
  | Data seq _ data | DataFormatB seq _ data => is_u8 seq ∧ bytes data
  | Idle seq => is_u8 seq
  end.

(** Above rate 1/8 an idle frame is a new data frame with LEN = 0. *)
Definition canonical2 (f : Rlp2Frame) (rate : RlpRate) : Rlp2Frame :=
  match f, rate with
  | Idle seq, Eighth => Idle seq
  | Idle seq, _ => Data seq false []
  | f, _ => f
  end.

(** What the rate and multiplex option can carry. *)
Definition carriable (f : Rlp2Frame) (rate : RlpRate) (mux : RlpMuxOption) : bool :=
  match f with
  | Idle _ => true
  | Control _ _ _ | NakRange _ _ _ _ => bool_decide (rate ≠ Eighth)
  | Data _ _ data => bool_decide (rate ≠ Eighth ∧ (length data ≤ max_len_for_rate rate mux)%nat)
  | DataFormatB _ _ data => bool_decide (rate = Full ∧ length data = format_b_octets mux)
  end.
Definition is_nak (f : Rlp2Frame) : bool := match f with NakRange _ _ _ _ => true | _ => false end.

Lemma control2_fits rate mux seq ct em : rate ≠ Eighth → (length (control2 seq ct em) ≤ room rate mux)%nat.
Proof. intros Hr. rewrite length_control2. destruct rate, mux; cbn; done || lia. Qed.
Lemma nak2_fits rate mux seq h f l :
  rate ≠ Eighth → rate ≠ Quarter → (length (nak2 seq h f l) ≤ room rate mux)%nat.
Proof. intros Hr Hq. rewrite length_nak2. destruct rate, mux; cbn; done || lia. Qed.
Lemma data2_fits rate mux seq r data :
  rate ≠ Eighth → (length data ≤ max_len_for_rate rate mux)%nat → (length (data2 seq r data) ≤ room rate mux)%nat.
Proof. intros Hr Hl. rewrite length_data2. pose proof (max_len_room rate mux Hr). lia. Qed.

Lemma encode_ok_spec f rate mux :
  rate ≠ Eighth → carriable f rate mux = true → (is_nak f = true → rate ≠ Quarter) →
  match f with
  | Control seq ct em => encode_frame_for_mux f rate mux = Some (Ok (padded rate mux (control2 seq ct em)))
  | NakRange seq h fi la => encode_frame_for_mux f rate mux = Some (Ok (padded rate mux (nak2 seq h fi la)))
  | Data seq r data => encode_frame_for_mux f rate mux = Some (Ok (padded rate mux (data2 seq r data)))
  | Idle seq => encode_frame_for_mux f rate mux = Some (Ok (padded rate mux (data2 seq false [])))
  | DataFormatB _ _ _ => True
  end.
Proof.
  intros Hr Hc Hn. destruct f as [seq ct em|seq h fi la|seq r data|seq r data|seq]; cbn [carriable is_nak] in *; try done.
  - unfold encode_frame_for_mux. rewrite decide_False, control2_info, bind_some by done.
    by rewrite place_information_spec by auto using control2_fits.
  - unfold encode_frame_for_mux. rewrite decide_False, nak2_info, bind_some by done.
    by rewrite place_information_spec by auto using nak2_fits.
  - apply bool_decide_eq_true in Hc as [_ Hl]. by apply encode_unsegmented_spec.
  - transitivity (encode_unsegmented_data (replicate (primary_bits mux rate) 0) rate mux seq false []);
      [by destruct rate|]. apply encode_unsegmented_spec; [done|cbn; lia].
Qed.

(** The rate 1/8 idle frame. *)
Lemma idle2_roundtrip seq mux : is_u8 seq →
  ∃ bits, encode_frame_for_mux (Idle seq) Eighth mux = Some (Ok bits) ∧
          decode_frame_for_mux bits Eighth mux = Some (Some (Idle seq)).
Proof.
  intros Hs. destruct (nordstrom_robinson_total seq Hs) as (fcs & Hf & Hu).
  cbn [encode_frame_for_mux]. unfold SEQ_BITS.
  change (replicate (primary_bits mux Eighth) 0) with ([] ++ replicate (primary_bits mux Eighth) 0).
  rewrite put_bits_zeros, bind_some by (field_lengths; destruct mux; cbn; lia).
  rewrite Hf, bind_some, put_bits_zeros, bind_some by (field_lengths; destruct mux; cbn; lia).
  eexists. split; [done|]. unfold decode_frame_for_mux.
  rewrite decide_False by (field_lengths; destruct mux; cbn; lia). rewrite <- !app_assoc. cbn [app].
  set (suf := replicate _ 0). clearbody suf.
  assert (get_bits (to_bits 8 seq ++ to_bits 8 fcs ++ suf) 0 8 = Some seq) as E0.
  { rewrite get_bits_field by lia. f_equal. by apply Z.mod_small. }
  assert (get_bits (to_bits 8 seq ++ to_bits 8 fcs ++ suf) 8 8 = Some fcs) as E1.
  { skip_fields. rewrite get_bits_field by lia. f_equal. by apply Z.mod_small. }
  unfold decode_idle, SEQ_BITS. rewrite E0, E1. cbn [mbind option_bind]. rewrite !wrap_small by done.
  rewrite Hf. cbn [mbind option_bind]. by rewrite decide_False by auto.
Qed.

Lemma roundtrip2 (f : Rlp2Frame) (rate : RlpRate) (mux : RlpMuxOption) :
  wf_frame2 f → carriable f rate mux = true → (is_nak f = true → rate ≠ Quarter) →
  ∃ bits, encode_frame_for_mux f rate mux = Some (Ok bits) ∧
          decode_frame_for_mux bits rate mux = Some (Some (canonical2 f rate)).
Proof.
  intros Hwf Hc Hn. destruct (decide (rate = Eighth)) as [->|Hr].
  { destruct f as [| | | |seq]; cbn [carriable] in Hc; try (apply bool_decide_eq_true in Hc; by destruct Hc || done).
    by apply idle2_roundtrip. }
  pose proof (encode_ok_spec f rate mux Hr Hc Hn) as He.
  destruct f as [seq ct em|seq h fi la|seq r data|seq r data|seq]; cbn [wf_frame2 carriable] in *.
  - destruct Hwf as (?&?&?). eexists; split; [exact He|].
    rewrite decode_padded by auto using control2_fits.
    destruct (padded_app rate mux (control2 seq ct em)) as [x ->]. by rewrite decode_control2.
  - destruct Hwf as (?&?&?&?). eexists; split; [exact He|].
    rewrite decode_padded by auto using nak2_fits.
    destruct (padded_app rate mux (nak2 seq h fi la)) as [x ->]. by rewrite decode_nak2.
  - destruct Hwf. apply bool_decide_eq_true in Hc as [_ Hl]. eexists; split; [exact He|].
    rewrite decode_padded by auto using data2_fits.
    destruct (padded_app rate mux (data2 seq r data)) as [x ->]. by rewrite decode_data2.
  - destruct Hwf. apply bool_decide_eq_true in Hc as [-> Hl].
    eexists; split; [by apply encode_format_b2|by apply decode_format_b2].
  - eexists; split; [exact He|].
    rewrite decode_padded by (apply data2_fits || idtac; cbn; assumption || lia).
    destruct (padded_app rate mux (data2 seq false [])) as [x ->].
    rewrite decode_data2 by (done || constructor || (cbn; lia)). by destruct rate.
Qed.

Lemma not_carriable_err f rate mux :
  carriable f rate mux = false → ∃ e, encode_frame_for_mux f rate mux = Some (Err e).
Proof.
  intros H. destruct f as [seq ct em|seq h fi la|seq r data|seq r data|seq]; cbn [carriable] in H;
    rewrite ?bool_decide_eq_false in H.
  - apply dec_stable in H as ->. by eexists.
  - apply dec_stable in H as ->. by eexists.
  - cbn [encode_frame_for_mux]. unfold encode_unsegmented_data. case_decide; [by eexists|].
    case_decide as Hl; [by eexists|]. destruct H. split; [done|lia].
  - cbn [encode_frame_for_mux]. destruct rate; [|by eexists..].
    case_decide as Hl; [by eexists|]. by destruct H.
  - done.
Qed.

(** The RLP Type 2 codec.  A frame that the rate and multiplex option cannot
    carry is refused with an error; every other well-formed frame is encoded,
    and decoded to the same frame (an idle frame sent above rate 1/8 comes
    back as an empty data frame).  NAK frames are excepted at the quarter
    rate, which is too short for them. *)
Theorem rlp2_decode_encode (f : Rlp2Frame) (rate : RlpRate) (mux : RlpMuxOption) :
  wf_frame2 f → (is_nak f = true → rate ≠ Quarter) →
  if carriable f rate mux then
    ∃ bits, encode_frame_for_mux f rate mux = Some (Ok bits) ∧
            decode_frame_for_mux bits rate mux = Some (Some (canonical2 f rate))
  else ∃ e, encode_frame_for_mux f rate mux = Some (Err e).
Proof.
  intros Hwf Hn. destruct (carriable f rate mux) eqn:Hc.
  - by apply roundtrip2.
  - by apply not_carriable_err.
Qed.

Lemma rlp2_decode_encode_witness :
  ∃ bits, encode_frame_for_mux (NakRange 9 3 4000 4001) Half One = Some (Ok bits) ∧
          decode_frame_for_mux bits Half One = Some (Some (NakRange 9 3 4000 4001)).
Proof.
  apply (rlp2_decode_encode (NakRange 9 3 4000 4001) Half One); vm_compute; repeat split; congruence.
Defined.

(** ** Fields past the end *)
Lemma get_bits_past bits off n : (length bits < off + n)%nat → (off ≤ length bits)%nat → get_bits bits off n = None.
Proof.
  intros H1 H2. unfold get_bits. replace n with ((length bits - off) + S (off + n - length bits - 1))%nat by lia.
  rewrite seq_app, foldl_app. cbn [List.seq foldl Nat.add].
  assert (∀ js, foldl (λ acc i, val ← acc; b ← index bits (off + i); Some (push_bit val b)) None js = None) as Hn.
  { induction js; done. }
  match goal with |- foldl _ ?x _ = _ => replace x with (@None Z) end; [apply Hn|].
  destruct (foldl _ (Some 0) _) as [v|]; [|done]. cbn [mbind option_bind]. unfold index.
  by rewrite lookup_ge_None_2 by lia.
Qed.

Lemma get_bits_take bits off n m : (off + n ≤ m)%nat → (m ≤ length bits)%nat →
  get_bits (take m bits) off n = get_bits bits off n.
Proof.
  intros H1 H2. rewrite <- (take_drop off bits) at 2. rewrite <- (take_drop n (drop off bits)) at 1.
  rewrite get_bits_spec by (rewrite length_take, ?length_drop; lia).
  rewrite <- (take_drop off (take m bits)), <- (take_drop n (drop off (take m bits))).
  rewrite get_bits_spec by (rewrite !length_take, ?length_drop, ?length_take; lia).
  do 2 f_equal. rewrite skipn_firstn_comm, take_take. f_equal. lia.
Qed.

(** A NAK frame does not fit the quarter-rate frame of either multiplex
    option: the encoder silently cuts it, and the decoder indexes past the
    end of what the encoder produced. *)
Theorem rlp2_quarter_rate_nak_panics (seq h first last : Z) (mux : RlpMuxOption) :
  is_u8 seq → is_u 4 h → is_u 12 first → is_u 12 last →
  ∃ bits, encode_frame_for_mux (NakRange seq h first last) Quarter mux = Some (Ok bits) ∧
          decode_frame_for_mux bits Quarter mux = None.
Proof.
  intros Hs Hh Hf Hl. unfold encode_frame_for_mux. rewrite decide_False, nak2_info, bind_some by done.
  pose proof (nak2_fields seq h first last [] Hs Hh Hf Hl) as HF. rewrite app_nil_r in HF.
  pose proof (length_nak2 seq h first last) as Hlen. revert HF Hlen. generalize (nak2 seq h first last) as info.
  intros info (E0 & E8 & E9 & Ec & Et & Eh & Ef & El & _) Hlen.
  assert (40 ≤ primary_bits mux Quarter < 60)%nat as Hp by (destruct mux; cbn; lia).
  unfold place_information. rewrite length_replicate, Nat.min_r, slice_Some, bind_some by lia.
  rewrite drop_0, Nat.sub_0_r. unfold copy_prefix.
  rewrite decide_True, bind_some by (rewrite length_replicate, length_take; lia).
  rewrite drop_replicate, Nat.sub_diag, app_nil_r. eexists. split; [done|].
  unfold decode_frame_for_mux. rewrite decide_False by (rewrite length_take; lia).
  set (n := primary_bits mux Quarter) in *.
  unfold decode_information, SEQ_BITS, CTL_BITS. cbn [Nat.add]. unfold index in *.
  rewrite (get_bits_take _ 0 8), E0, !lookup_take_lt, E8, E9 by lia. cbn [mbind option_bind Z.eqb Pos.eqb].
  rewrite (get_bits_take _ 8 6), Ec by lia. cbn [mbind option_bind].
  rewrite (wrap_small 8 CTL_NAK) by done. change (from_ctl_bits CTL_NAK) with (Some Nak).
  unfold decode_nak, SEQ_BITS, CTL_BITS, NAK_TYPE_BITS, L_SEQ_HI_BITS, NAK_SEQ_BITS, FCS_BITS. cbn [Nat.add].
  rewrite (get_bits_take _ 14 2), Et by lia. cbn [mbind option_bind]. rewrite decide_False by (intros Hne; by apply Hne).
  rewrite (get_bits_take _ 16 4), Eh, bind_some, (get_bits_take _ 20 12), Ef by lia. cbn [mbind option_bind].
  destruct (get_bits (take n info) 32 12) as [la|] eqn:E; [|done]. cbn [mbind option_bind].
  rewrite get_bits_past; [done|rewrite length_take; lia|].
  destruct (decide (44 ≤ length (take n info))%nat); [done|].
  rewrite get_bits_past in E by (rewrite length_take in *; lia). done.
Qed.

Lemma rlp2_quarter_rate_nak_panics_witness :
  ∃ bits, encode_frame_for_mux (NakRange 9 3 4000 4001) Quarter Two = Some (Ok bits) ∧
          decode_frame_for_mux bits Quarter Two = None.
Proof. apply (rlp2_quarter_rate_nak_panics 9 3 4000 4001 Two); vm_compute; split; congruence. Defined.
