(* ===== verification/Rlp2Session.v ===== *)
(** * RLP Type 2 session ([cdma-packet/src/lib/rlp2_session.rs])

    The handshake and the in-order octet transfer of the Rate Set 2 link.  The
    frame counters are unbounded where the code has 32 bits. *)
From S2P Require Import Prelude Rlp Rlp2Frames Rlp2Proofs.
Import Rlp2.

Module Session2.

Definition SEQ_MODULUS : Z := 4096.
Definition ROUND_TRIP_SYNC_ACK : Z := 45.
Definition ROUND_TRIP_ACK : Z := 4.
Definition MAX_CONSECUTIVE_ERASURES : Z := 255.
Definition RS2_FULL_MAX_DATA_OCTETS : nat := 31.

Inductive Rlp2State := Uninitialized | StSync | StSyncAck | StAck | DataTransfer.
#[export] Instance Rlp2State_eq_dec : EqDecision Rlp2State.
Proof. solve_decision. Defined.

Record Rlp2Session := mkRlp2Session {
  state : Rlp2State;
  l_v_s : Z;
  l_v_r : Z;
  handshake_frames_sent : Z;
  round_trip_counter : Z;
  consecutive_erasures : Z;
  tx_queue : list Z
}.

Definition new : Rlp2Session := mkRlp2Session Uninitialized 0 0 0 0 0 [].
Definition initialize (s : Rlp2Session) : Rlp2Session := mkRlp2Session StSync 0 0 0 0 0 [].

Definition set_state (x : Rlp2State) (s : Rlp2Session) : Rlp2Session :=
  mkRlp2Session x (l_v_s s) (l_v_r s) (handshake_frames_sent s) (round_trip_counter s) (consecutive_erasures s) (tx_queue s).
Definition set_handshake (sent rtc : Z) (s : Rlp2Session) : Rlp2Session :=
  mkRlp2Session (state s) (l_v_s s) (l_v_r s) sent rtc (consecutive_erasures s) (tx_queue s).
Definition set_erasures (x : Z) (s : Rlp2Session) : Rlp2Session :=
  mkRlp2Session (state s) (l_v_s s) (l_v_r s) (handshake_frames_sent s) (round_trip_counter s) x (tx_queue s).

Definition enqueue_data (data : list Z) (s : Rlp2Session) : Rlp2Session :=
  mkRlp2Session (state s) (l_v_s s) (l_v_r s) (handshake_frames_sent s) (round_trip_counter s)
    (consecutive_erasures s) (tx_queue s ++ data).

Definition seq8 (s : Rlp2Session) : Z := (Z.land (l_v_s s) 0xFF) as_u8.

Definition enter_data_transfer (s : Rlp2Session) : Rlp2Session := set_state DataTransfer s.

Definition is_sync (f : Rlp2Frame) : bool := match f with Control _ Sync _ => true | _ => false end.
Definition is_sync_ack (f : Rlp2Frame) : bool := match f with Control _ SyncAck _ => true | _ => false end.

Definition deliver (f : Rlp2Frame) (s : Rlp2Session) : Rlp2Session * option (list Z) :=
  match f with
  | Data _ _ data | DataFormatB _ _ data =>
      if decide (data ≠ []) then
        (mkRlp2Session (state s) (l_v_s s) ((l_v_r s + 1) mod SEQ_MODULUS) (handshake_frames_sent s)
           (round_trip_counter s) (consecutive_erasures s) (tx_queue s), Some data)
      else (s, None)
  | _ => (s, None)
  end.

Definition receive_frame (frame : option Rlp2Frame) (s : Rlp2Session) : Rlp2Session * option (list Z) :=
  let s := if decide (state s = Uninitialized) then initialize s else s in
  match frame with
  | None =>
      let s := set_erasures (consecutive_erasures s + 1) s in
      (if MAX_CONSECUTIVE_ERASURES <? consecutive_erasures s then initialize s else s, None)
  | Some f =>
      let s := set_erasures 0 s in
      match state s with
      | Uninitialized => (s, None)
      | StSync =>
          match f with
          | Control _ Sync _ => (set_state StSyncAck (set_handshake 0 ROUND_TRIP_SYNC_ACK s), None)
          | Control _ SyncAck _ => (set_state StAck (set_handshake 0 ROUND_TRIP_ACK s), None)
          | _ => (s, None)
          end
      | StSyncAck =>
          match f with
          | Control _ Sync _ => (set_handshake 0 (round_trip_counter s) s, None)
          | Control _ Ack _ | Control _ SyncAck _ => (enter_data_transfer s, None)
          | _ => if negb (is_sync f) then deliver f (enter_data_transfer s) else (s, None)
          end
      | StAck =>
          match f with
          | Control _ SyncAck _ => (set_handshake 0 (round_trip_counter s) s, None)
          | Control _ Sync _ => (initialize s, None)
          | _ => if negb (is_sync_ack f) then deliver f (enter_data_transfer s) else (s, None)
          end
      | DataTransfer => if is_sync f then (initialize s, None) else deliver f s
      end
  end.

Definition build_data_frame (s : Rlp2Session) : Rlp2Session * (Rlp2Frame * RlpRate) :=
  if decide (tx_queue s = []) then (s, (idle_frame (seq8 s), Eighth))
  else
    let n := Nat.min (length (tx_queue s)) RS2_FULL_MAX_DATA_OCTETS in
    let chunk := take n (tx_queue s) in
    let frame := data_frame (seq8 s) chunk in
    (mkRlp2Session (state s) ((l_v_s s + 1) mod SEQ_MODULUS) (l_v_r s) (handshake_frames_sent s)
       (round_trip_counter s) (consecutive_erasures s) (drop n (tx_queue s)), (frame, Full)).

Definition next_frame (s : Rlp2Session) : Rlp2Session * (Rlp2Frame * RlpRate) :=
  let s := if decide (state s = Uninitialized) then initialize s else s in
  let sent := handshake_frames_sent s + 1 in
  match state s with
  | Uninitialized => (s, (idle_frame 0, Eighth))
  | StSync => (set_handshake sent (round_trip_counter s) s, (sync_frame (seq8 s), Full))
  | StSyncAck => (set_handshake sent (round_trip_counter s) s, (sync_ack_frame (seq8 s), Full))
  | StAck =>
      let s := set_handshake sent (round_trip_counter s) s in
      if round_trip_counter s <? handshake_frames_sent s
      then build_data_frame (enter_data_transfer s)
      else (s, (ack_frame (seq8 s), Full))
  | DataTransfer => build_data_frame s
  end.

(** ** One frame period over the air

    The frame is encoded at the rate the transmitter chose, and decoded at that
    rate by the peer; a loss, a coding error or a panic is an erasure. *)
Definition over_the_air (f : Rlp2Frame) (rate : RlpRate) : option Rlp2Frame :=
  match encode_frame_for_mux f rate Two with
  | Some (Ok bits) => default None (decode_frame_for_mux bits rate Two)
  | _ => None
  end.

Definition period (lost : bool * bool) (ab : Rlp2Session * Rlp2Session)
    : (Rlp2Session * Rlp2Session) * (list Z * list Z) :=
  let '(a, (fa, ra)) := next_frame ab.1 in
  let '(b, (fb, rb)) := next_frame ab.2 in
  let '(a, da) := receive_frame (if lost.1 then None else over_the_air fb rb) a in
  let '(b, db) := receive_frame (if lost.2 then None else over_the_air fa ra) b in
  ((a, b), (default [] da, default [] db)).

(** The sessions after a sequence of periods, and the octets handed up on each side. *)
Fixpoint periods (losses : list (bool * bool)) (ab : Rlp2Session * Rlp2Session)
    : (Rlp2Session * Rlp2Session) * (list Z * list Z) :=
  match losses with
  | [] => (ab, ([], []))
  | lost :: losses =>
      let '(ab, (da, db)) := period lost ab in
      let '(ab, (ra, rb)) := periods losses ab in (ab, (da ++ ra, db ++ rb))
  end.

(** ** What a session emits *)
Lemma seq8_u8 s : is_u8 (seq8 s).
Proof. unfold seq8. apply is_u_wrap. lia. Qed.

Lemma over_the_air_ok f rate :
  wf_frame2 f → carriable f rate Two = true → is_nak f = false → canonical2 f rate = f →
  over_the_air f rate = Some f.
Proof.
  intros Hwf Hc Hn Hcan. destruct (roundtrip2 f rate Two Hwf Hc) as (bits & He & Hd); [by rewrite Hn|].
  unfold over_the_air. by rewrite He, Hd, Hcan.
Qed.

(** The frames of the handshake, and those that carry payload. *)
Inductive kind := KSync | KSyncAck | KAck | KPayload (data : list Z).
Definition kind_of (f : Rlp2Frame) : kind :=
  match f with
  | Control _ Sync _ => KSync
  | Control _ SyncAck _ => KSyncAck
  | Control _ Ack _ => KAck
  | Data _ _ data | DataFormatB _ _ data => KPayload data
  | _ => KPayload []
  end.

Lemma build_data_frame_spec s : bytes (tx_queue s) →
  ∃ s' f rate data, build_data_frame s = (s', (f, rate)) ∧ over_the_air f rate = Some f ∧
    kind_of f = KPayload data ∧ tx_queue s = data ++ tx_queue s' ∧ state s' = state s ∧
    (tx_queue s ≠ [] → length data = Nat.min (length (tx_queue s)) 31).
Proof.
  intros Hb. unfold build_data_frame. case_decide as Hq.
  - eexists s, _, _, []. split_and!; try done.
    apply over_the_air_ok; try done. apply seq8_u8.
  - set (n := Nat.min _ _). eexists _, _, _, (take n (tx_queue s)). split_and!; try done.
    + apply over_the_air_ok; try done.
      * split; [apply seq8_u8|by apply Forall_take].
      * cbn [carriable data_frame]. apply bool_decide_eq_true. split; [done|].
        rewrite length_take. cbn. unfold n, RS2_FULL_MAX_DATA_OCTETS. lia.
    + cbn [tx_queue]. by rewrite take_drop.
    + intros _. rewrite length_take. unfold n, RS2_FULL_MAX_DATA_OCTETS. lia.
Qed.

(** What each state sends: the kind of the frame, and the next state. *)
Inductive emits2 : Rlp2State → Rlp2State → kind → Prop :=
| emits2_uninitialized : emits2 Uninitialized StSync KSync
| emits2_sync : emits2 StSync StSync KSync
| emits2_sync_ack : emits2 StSyncAck StSyncAck KSyncAck
| emits2_ack : emits2 StAck StAck KAck
| emits2_ack_done data : emits2 StAck DataTransfer (KPayload data)
| emits2_data data : emits2 DataTransfer DataTransfer (KPayload data).

Definition payload_of (k : kind) : list Z := match k with KPayload data => data | _ => [] end.

Lemma next_frame_spec s : bytes (tx_queue s) →
  ∃ s' f rate dropped, next_frame s = (s', (f, rate)) ∧ over_the_air f rate = Some f ∧
    emits2 (state s) (state s') (kind_of f) ∧
    tx_queue s = payload_of (kind_of f) ++ dropped ++ tx_queue s'.
Proof.
  intros Hb.
  assert (∀ ct, ct ≠ Nak → over_the_air (Control (seq8 s) ct 0) Full = Some (Control (seq8 s) ct 0)) as Hctl.
  { intros ct Hct. apply over_the_air_ok; [|done..]. split_and!; [apply seq8_u8|done|done]. }
  unfold next_frame. destruct s as [st vs vr hs rtc ce q]. cbn [state tx_queue] in *.
  destruct st; cbn [decide state] in *.
  - eexists _, _, _, q. cbn. split_and!; [done|vm_compute; done|constructor|by rewrite app_nil_r].
  - eexists _, _, _, []. split_and!; [done|by apply Hctl|constructor|done].
  - eexists _, _, _, []. split_and!; [done|by apply Hctl|constructor|done].
  - rewrite decide_False by done. cbn [state set_handshake handshake_frames_sent round_trip_counter
      l_v_s l_v_r consecutive_erasures tx_queue].
    destruct (_ <? _); [|eexists _, _, _, []; split_and!; [done|by apply Hctl|constructor|done]].
    destruct (build_data_frame_spec (enter_data_transfer
      (set_handshake (hs + 1) rtc (mkRlp2Session StAck vs vr hs rtc ce q))) Hb)
      as (s' & f & rate & data & -> & Hair & Hk & Hq & Hst & _).
    exists s', f, rate, []. rewrite Hk, Hst. split_and!; [done|done|constructor|done].
  - rewrite decide_False by done.
    destruct (build_data_frame_spec (mkRlp2Session DataTransfer vs vr hs rtc ce q) Hb)
      as (s' & f & rate & data & -> & Hair & Hk & Hq & Hst & _).
    exists s', f, rate, []. rewrite Hk, Hst. split_and!; [done|done|constructor|done].
Qed.

(** ** What a session does with a frame *)
Definition react2 (st : Rlp2State) (k : kind) : Rlp2State :=
  match st, k with
  | Uninitialized, KSync | StSync, KSync => StSyncAck
  | Uninitialized, KSyncAck | StSync, KSyncAck => StAck
  | Uninitialized, _ | StSync, _ => StSync
  | StSyncAck, KSync => StSyncAck
  | StSyncAck, _ => DataTransfer
  | StAck, KSyncAck => StAck
  | StAck, KSync => StSync
  | StAck, _ => DataTransfer
  | DataTransfer, KSync => StSync
  | DataTransfer, _ => DataTransfer
  end.

(** Frames that this side emits: no NAKs. *)
Definition emitted (f : Rlp2Frame) : Prop := ∃ st st', emits2 st st' (kind_of f).

Lemma deliver_spec f s :
  state (deliver f s).1 = state s ∧ tx_queue (deliver f s).1 = tx_queue s ∧
  default [] (deliver f s).2 = payload_of (kind_of f).
Proof.
  destruct f as [sq ct em|sq h fi la|sq r data|sq r data|sq]; try by destruct ct.
  - done.
  - unfold deliver. case_decide as H; [done|]. by subst data.
  - unfold deliver. case_decide as H; [done|]. by subst data.
  - done.
Qed.

Lemma receive_frame_spec f s : emitted f →
  let r := receive_frame (Some f) s in
  state r.1 = react2 (state s) (kind_of f) ∧
  (tx_queue r.1 = tx_queue s ∨ tx_queue r.1 = []) ∧
  (default [] r.2 = payload_of (kind_of f) ∨ default [] r.2 = []) ∧
  (state s = DataTransfer → kind_of f ≠ KSync →
     tx_queue r.1 = tx_queue s ∧ default [] r.2 = payload_of (kind_of f)).
Proof.
  intros (st1 & st2 & He). destruct s as [st vs vr hs rtc ce q].
  pose proof (deliver_spec f (mkRlp2Session DataTransfer vs vr hs rtc 0 q)) as (D1 & D2 & D3).
  unfold receive_frame. set (d := deliver f _) in *.
  destruct st; cbn [state]; rewrite ?decide_True, ?decide_False by done; cbn [initialize state set_erasures].
  all: destruct f as [sq ct em|sq h fi la|sq r data|sq r data|sq]; try destruct ct;
    cbn -[deliver] in *; try (by inversion He); fold d; rewrite ?D1, ?D2, ?D3; intuition congruence.
Qed.

Lemma receive_erasure2 s :
  let r := receive_frame None s in
  (tx_queue r.1 = tx_queue s ∨ tx_queue r.1 = []) ∧ default [] r.2 = [].
Proof.
  unfold receive_frame. destruct s as [st vs vr hs rtc ce q]. destruct st; cbn -[Z.ltb Z.add];
    destruct (_ <? _); cbn; auto.
Qed.

(** ** The link *)
(** What is heard of one frame is a part of what was sent, in order. *)
Lemma heard_sublist (lost : bool) f rate b (r := receive_frame (if lost then None else over_the_air f rate) b) :
  over_the_air f rate = Some f → emitted f →
  default [] r.2 `sublist_of` payload_of (kind_of f) ∧ tx_queue r.1 `sublist_of` tx_queue b.
Proof.
  intros Hair Hem. subst r. destruct lost.
  - destruct (receive_erasure2 b) as [[-> | ->] ->]; split; try done; apply sublist_nil_l.
  - rewrite Hair. destruct (receive_frame_spec f b Hem) as (_ & [-> | ->] & [-> | ->] & _);
      split; try done; apply sublist_nil_l.
Qed.

Lemma bytes_sublist l k : l `sublist_of` k → bytes k → bytes l.
Proof. intros Hs Hk. unfold bytes in *. rewrite Forall_forall in *. intros x Hx. apply Hk. by eapply elem_of_sublist. Qed.

Lemma period_sublist lost a b : bytes (tx_queue a) → bytes (tx_queue b) →
  let '((a', b'), (da, db)) := period lost (a, b) in
  (db ++ tx_queue a') `sublist_of` tx_queue a ∧ (da ++ tx_queue b') `sublist_of` tx_queue b.
Proof.
  intros Ha Hb. unfold period. cbn [fst snd].
  destruct (next_frame_spec a Ha) as (a1 & fa & ra & xa & -> & Aa & Ea & Qa).
  destruct (next_frame_spec b Hb) as (b1 & fb & rb & xb & -> & Ab & Eb & Qb).
  destruct (heard_sublist lost.1 fb rb a1 Ab ltac:(by eexists _, _)) as [Da Ta].
  destruct (heard_sublist lost.2 fa ra b1 Aa ltac:(by eexists _, _)) as [Db Tb].
  destruct (receive_frame _ a1) as [a2 da], (receive_frame _ b1) as [b2 db]. cbn [fst snd] in *.
  rewrite Qa, Qb. split; (apply sublist_app; [done|]); by apply sublist_inserts_l.
Qed.

(** Whatever is lost, and whatever resets the link, the octets handed up on
    each side are a subsequence of the octets the other side had queued: none
    is damaged, repeated, reordered or invented. *)
Theorem rlp2_delivers_subsequence (losses : list (bool * bool)) : ∀ (a b : Rlp2Session),
  bytes (tx_queue a) → bytes (tx_queue b) →
  let '(_, (da, db)) := periods losses (a, b) in
  db `sublist_of` tx_queue a ∧ da `sublist_of` tx_queue b.
Proof.
  induction losses as [|lost losses IH]; intros a b Ha Hb; cbn [periods].
  { split; apply sublist_nil_l. }
  pose proof (period_sublist lost a b Ha Hb) as Hp.
  destruct (period lost (a, b)) as [[a' b'] [da db]]. destruct Hp as [Pa Pb].
  assert (bytes (tx_queue a')) as Ha' by (eapply bytes_sublist; [|exact Ha]; etrans; [|exact Pa]; by apply sublist_inserts_l).
  assert (bytes (tx_queue b')) as Hb' by (eapply bytes_sublist; [|exact Hb]; etrans; [|exact Pb]; by apply sublist_inserts_l).
  specialize (IH a' b' Ha' Hb'). destruct (periods losses (a', b')) as [ab [ra rb]]. destruct IH as [IHa IHb].
  split; (etrans; [|eassumption]); by apply sublist_app.
Qed.

Lemma rlp2_delivers_subsequence_witness :
  let s q := enqueue_data q (enter_data_transfer (initialize new)) in
  let '(_, (da, db)) := periods [(false, false); (true, false); (false, true)] (s (replicate 70 1), s [2; 3]) in
  db `sublist_of` replicate 70 1 ∧ da `sublist_of` [2; 3].
Proof.
  exact (rlp2_delivers_subsequence [(false, false); (true, false); (false, true)]
    (enqueue_data (replicate 70 1) (enter_data_transfer (initialize new)))
    (enqueue_data [2; 3] (enter_data_transfer (initialize new)))
    ltac:(apply Forall_replicate; split; lia) ltac:(repeat constructor; lia)).
Defined.

Lemma period_lossless a b :
  state a = DataTransfer → state b = DataTransfer → bytes (tx_queue a) → bytes (tx_queue b) →
  let '((a', b'), (da, db)) := period (false, false) (a, b) in
  (state a' = DataTransfer ∧ state b' = DataTransfer) ∧
  (tx_queue a = db ++ tx_queue a' ∧ tx_queue b = da ++ tx_queue b') ∧
  (length (tx_queue a') = length (tx_queue a) - 31 ∧ length (tx_queue b') = length (tx_queue b) - 31)%nat.
Proof.
  intros Sa Sb Ha Hb. unfold period, next_frame. cbn [fst snd].
  rewrite !decide_False by (rewrite ?Sa, ?Sb; done). rewrite Sa, Sb.
  destruct (build_data_frame_spec a Ha) as (a1 & fa & ra & xa & -> & Aa & Ka & Qa & Ta & La).
  destruct (build_data_frame_spec b Hb) as (b1 & fb & rb & xb & -> & Ab & Kb & Qb & Tb & Lb).
  rewrite Aa, Ab.
  assert (emitted fa ∧ emitted fb) as [Ea Eb].
  { split; [exists DataTransfer, DataTransfer; rewrite Ka|exists DataTransfer, DataTransfer; rewrite Kb]; constructor. }
  destruct (receive_frame_spec fb a1 Eb) as (R1 & _ & _ & R2), (receive_frame_spec fa b1 Ea) as (R3 & _ & _ & R4).
  rewrite Kb in R1, R2. rewrite Ka in R3, R4. rewrite Ta in R1, R2. rewrite Tb in R3, R4.
  rewrite Sa in R1, R2. rewrite Sb in R3, R4.
  destruct (R2 eq_refl ltac:(done)) as [R5 R6], (R4 eq_refl ltac:(done)) as [R7 R8].
  destruct (receive_frame _ a1) as [a2 da], (receive_frame _ b1) as [b2 db]. cbn [fst snd] in *.
  rewrite R5, R6, R7, R8. split_and!; try done.
  - apply (f_equal length) in Qa. rewrite length_app in Qa. destruct (decide (tx_queue a = [])) as [E|E].
    + rewrite E in *. cbn in *. lia.
    + specialize (La E). lia.
  - apply (f_equal length) in Qb. rewrite length_app in Qb. destruct (decide (tx_queue b = [])) as [E|E].
    + rewrite E in *. cbn in *. lia.
    + specialize (Lb E). lia.
Qed.

(** Full-duplex transfer.  In data transfer and without loss, [n] periods
    hand up on each side exactly the octets the other side had queued, when
    neither queue is longer than [31 * n]. *)
Theorem rlp2_duplex_transfer (n : nat) : ∀ (a b : Rlp2Session),
  state a = DataTransfer → state b = DataTransfer → bytes (tx_queue a) → bytes (tx_queue b) →
  (length (tx_queue a) ≤ 31 * n)%nat → (length (tx_queue b) ≤ 31 * n)%nat →
  let '((a', b'), (da, db)) := periods (replicate n (false, false)) (a, b) in
  db = tx_queue a ∧ da = tx_queue b ∧ state a' = DataTransfer ∧ state b' = DataTransfer.
Proof.
  induction n as [|n IH]; intros a b Sa Sb Ha Hb La Lb; cbn [replicate periods].
  { destruct (tx_queue a), (tx_queue b); cbn in *; done || lia. }
  pose proof (period_lossless a b Sa Sb Ha Hb) as Hp.
  destruct (period (false, false) (a, b)) as [[a' b'] [da db]].
  destruct Hp as ([Sa' Sb'] & [Qa Qb] & [La' Lb']).
  assert (bytes (tx_queue a') ∧ bytes (tx_queue b')) as [Ha' Hb'].
  { rewrite Qa in Ha. rewrite Qb in Hb. apply bytes_app in Ha as [_ ?], Hb as [_ ?]. done. }
  specialize (IH a' b' Sa' Sb' Ha' Hb' ltac:(lia) ltac:(lia)).
  destruct (periods _ (a', b')) as [[a2 b2] [ra rb]]. destruct IH as (-> & -> & ? & ?). by rewrite <- Qa, <- Qb.
Qed.

Lemma rlp2_duplex_transfer_witness :
  let s q := enqueue_data q (enter_data_transfer (initialize new)) in
  let '((a', b'), (da, db)) := periods (replicate 3 (false, false)) (s (replicate 70 1), s [2; 3]) in
  db = replicate 70 1 ∧ da = [2; 3] ∧ state a' = DataTransfer ∧ state b' = DataTransfer.
Proof.
  exact (rlp2_duplex_transfer 3
    (enqueue_data (replicate 70 1) (enter_data_transfer (initialize new)))
    (enqueue_data [2; 3] (enter_data_transfer (initialize new))) eq_refl eq_refl
    ltac:(apply Forall_replicate; split; lia) ltac:(repeat constructor; lia)
    ltac:(cbn; lia) ltac:(cbn; lia)).
Defined.

(** ** The handshake *)
Lemma period_states2 a b : bytes (tx_queue a) → bytes (tx_queue b) →
  ∃ sa sb ka kb, emits2 (state a) sa ka ∧ emits2 (state b) sb kb ∧
    let '((a', b'), _) := period (false, false) (a, b) in
    state a' = react2 sa kb ∧ state b' = react2 sb ka ∧ bytes (tx_queue a') ∧ bytes (tx_queue b').
Proof.
  intros Ha Hb. pose proof (period_sublist (false, false) a b Ha Hb) as Hp. unfold period in *. cbn [fst snd] in *.
  destruct (next_frame_spec a Ha) as (a1 & fa & ra & xa & Na & Aa & Ea & Qa).
  destruct (next_frame_spec b Hb) as (b1 & fb & rb & xb & Nb & Ab & Eb & Qb).
  rewrite Na, Nb, Aa, Ab in *. exists (state a1), (state b1), (kind_of fa), (kind_of fb). split; [done|]. split; [done|].
  destruct (receive_frame_spec fb a1 ltac:(by eexists _, _)) as (R1 & _).
  destruct (receive_frame_spec fa b1 ltac:(by eexists _, _)) as (R2 & _).
  destruct (receive_frame _ a1) as [a2 da], (receive_frame _ b1) as [b2 db]. cbn [fst snd] in *.
  destruct Hp as [P1 P2]. split_and!; [done|done|..].
  - eapply bytes_sublist; [|exact Ha]. etrans; [|exact P1]. by apply sublist_inserts_l.
  - eapply bytes_sublist; [|exact Hb]. etrans; [|exact P2]. by apply sublist_inserts_l.
Qed.

(** The RLP Type 2 handshake converges from any two sessions, whatever state
    a past loss or reset left them in and whatever they have queued: three
    periods without loss bring both to data transfer. *)
Theorem rlp2_handshake_converges (a b : Rlp2Session) :
  bytes (tx_queue a) → bytes (tx_queue b) →
  let '((a', b'), _) := periods (replicate 3 (false, false)) (a, b) in
  state a' = DataTransfer ∧ state b' = DataTransfer.
Proof.
  intros Ha Hb. cbn [replicate periods].
  destruct (period_states2 a b Ha Hb) as (? & ? & ? & ? & E1 & E2 & H1).
  destruct (period _ (a, b)) as [[a1 b1] [? ?]]. destruct H1 as (R1 & R2 & Ha1 & Hb1).
  destruct (period_states2 a1 b1 Ha1 Hb1) as (? & ? & ? & ? & E3 & E4 & H2).
  destruct (period _ (a1, b1)) as [[a2 b2] [? ?]]. destruct H2 as (R3 & R4 & Ha2 & Hb2).
  destruct (period_states2 a2 b2 Ha2 Hb2) as (? & ? & ? & ? & E5 & E6 & H3).
  destruct (period _ (a2, b2)) as [[a3 b3] [? ?]]. destruct H3 as (R5 & R6 & _ & _).
  rewrite R1 in E3. rewrite R2 in E4. rewrite R3 in E5. rewrite R4 in E6. rewrite R5, R6.
  clear -E1 E2 E3 E4 E5 E6.
  inversion E1; subst; inversion E2; subst; cbn in E3, E4;
    inversion E3; subst; inversion E4; subst; cbn in E5, E6;
    inversion E5; subst; inversion E6; subst; cbn; done.
Qed.

Lemma rlp2_handshake_converges_witness :
  let '((a', b'), _) := periods (replicate 3 (false, false)) (new, enter_data_transfer (initialize new)) in
  state a' = DataTransfer ∧ state b' = DataTransfer.
Proof.
  exact (rlp2_handshake_converges new (enter_data_transfer (initialize new))
    ltac:(constructor) ltac:(constructor)).
Defined.
End Session2.
