(* ===== verification/Rlp3Frames.v ===== *)
(** * RLP Type 3 frame codec ([cdma-packet/src/lib/rlp3_frames.rs])

    The frames of the cdma2000 packet data service (SO 33): full-rate frames
    of both multiplex options, sub-rate frames, the Format C and D frames of
    the supplemental channel and the RLP_BLOB of the service negotiation.  The
    bit-field accessors are those of [Rlp]: the file has the same two loops.
    A decoder returns [rust (result RlpError A)]: the outer [None] is a panic
    (an index past the slice), [Err] the error value the code returns. *)
From stdpp Require Import pretty.
From S2P Require Import Prelude BitString Rlp.

Module Rlp3.

Inductive RlpError :=
| InsufficientBits (expected got : nat)
| FcsInvalid (expected got : Z)
| InvalidCtl (ctl : Z)
| DataTooLong (max got : nat)
| InvalidType (ty : Z)
| InvalidNakType (ty : Z)
| InvalidFrame (msg : string)
| InvalidBlob (msg : string).
#[export] Instance RlpError_eq_dec : EqDecision RlpError.
Proof. solve_decision. Defined.

(** The [?] operator over a computation that may also panic. *)
Definition try_bind {A B} (m : rust (result RlpError A)) (k : A → rust (result RlpError B))
    : rust (result RlpError B) :=
  r ← m; match r with Ok a => k a | Err e => Some (Err e) end.
Notation "x '←?' y ; z" := (try_bind y (λ x, z)) (at level 20, y at level 100, z at level 200, only parsing) : rust_scope.
Notation "' x '←?' y ; z" := (try_bind y (λ x, z))
  (at level 20, x pattern, y at level 100, z at level 200, only parsing) : rust_scope.

(** ** Multiplex options and rates *)
Inductive MuxOption := Odd | Even.
#[export] Instance MuxOption_eq_dec : EqDecision MuxOption.
Proof. solve_decision. Defined.

(** [FrameRate] of [rlp3_session.rs]. *)
Inductive FrameRate := Full | Half | Quarter | Eighth | Blank.
#[export] Instance FrameRate_eq_dec : EqDecision FrameRate.
Proof. solve_decision. Defined.

Definition frame_bits (mux : MuxOption) : nat := match mux with Odd => 171 | Even => 266 end.
Definition type_bits (mux : MuxOption) : nat := match mux with Odd => 3 | Even => 2 end.
Definition info_bits (mux : MuxOption) : nat := (frame_bits mux - type_bits mux)%nat.
Definition type_format_a (mux : MuxOption) : Z := match mux with Odd => 1 | Even => 1 end.
Definition type_format_b_new (mux : MuxOption) : Z := match mux with Odd => 2 | Even => 2 end.
Definition type_format_b_rexmit (mux : MuxOption) : Z := match mux with Odd => 3 | Even => 3 end.
Definition max_data_len (mux : MuxOption) : nat := match mux with Odd => 19 | Even => 31 end.
Definition format_b_data_len (mux : MuxOption) : nat := match mux with Odd => 20 | Even => 32 end.

(** ** Frames *)
Inductive Rlp3ControlType := Sync | Ack | SyncAck | Nak.
#[export] Instance Rlp3ControlType_eq_dec : EqDecision Rlp3ControlType.
Proof. solve_decision. Defined.

Definition ctl_bits (ct : Rlp3ControlType) : Z :=
  match ct with Sync => 0x36 | Ack => 0x3a | SyncAck => 0x3e | Nak => 0x30 end.

Definition from_ctl_bits (ctl : Z) : option Rlp3ControlType :=
  let c := Z.land ctl 0x3F in
  if c =? 0x36 then Some Sync else if c =? 0x3a then Some Ack
  else if c =? 0x3e then Some SyncAck else if c =? 0x30 then Some Nak else None.

Record NakGapEntry := mkGap { gap_first : Z; gap_last : Z }.
Record NakMapEntry := mkMap { nak_map_seq : Z; nak_map : Z }.
Record NakSegRangeEntry := mkSegRange { sr_frame_seq : Z; sr_first_s_seq : Z; sr_last_s_seq : Z }.
Record NakSegLenEntry := mkSegLen { sl_frame_seq : Z; sl_first_s_seq : Z; sl_length_s_seq : Z }.

Inductive NakPayload :=
| Gap (entries : list NakGapEntry)
| Map (entries : list NakMapEntry)
| SegmentRange (entries : list NakSegRangeEntry)
| SegmentLength (entries : list NakSegLenEntry).

(** [NakFrame] is [Rlp3Frame::Nak], renamed beside the control type [Nak]. *)
Inductive Rlp3Frame :=
| Control (seq : Z) (control_type : Rlp3ControlType) (init_var nak_param_incl : bool)
| NakFrame (seq seq_hi : Z) (payload : NakPayload)
| Data (seq : Z) (rexmit : bool) (data : list Z)
| Segmented (seq : Z) (sqi last_seg rexmit : bool) (seq_hi : option Z) (s_seq : Z) (data : list Z)
| DataFormatB (seq : Z) (rexmit : bool) (data : list Z)
| Fill (seq seq_hi : Z)
| Idle1 (seq seq_hi : Z)
| Idle2 (seq : Z).

#[export] Instance NakGapEntry_eq_dec : EqDecision NakGapEntry.
Proof. solve_decision. Defined.
#[export] Instance NakMapEntry_eq_dec : EqDecision NakMapEntry.
Proof. solve_decision. Defined.
#[export] Instance NakSegRangeEntry_eq_dec : EqDecision NakSegRangeEntry.
Proof. solve_decision. Defined.
#[export] Instance NakSegLenEntry_eq_dec : EqDecision NakSegLenEntry.
Proof. solve_decision. Defined.
#[export] Instance NakPayload_eq_dec : EqDecision NakPayload.
Proof. solve_decision. Defined.
#[export] Instance Rlp3Frame_eq_dec : EqDecision Rlp3Frame.
Proof. solve_decision. Defined.

Definition frame_seq (f : Rlp3Frame) : Z :=
  match f with
  | Control seq _ _ _ | NakFrame seq _ _ | Data seq _ _ | Segmented seq _ _ _ _ _ _
  | DataFormatB seq _ _ | Fill seq _ | Idle1 seq _ | Idle2 seq => seq
  end.

(** ** Check sequence and bit fields *)

(** The bits of each octet are taken last to first. *)
Definition fcs16_bit (crc bit : Z) : Z :=
  let b := Z.land bit 1 in
  let xor_flag := Z.land (Z.lxor crc b) 1 in
  let crc := Z.shiftr crc 1 in
  if xor_flag =? 0 then crc else Z.lxor crc POLY.

Definition fcs16 (bits : list Z) : Z :=
  Z.lxor (foldl (λ crc octet, foldl fcs16_bit crc (rev octet)) 0xFFFF (chunks 8 bits)) 0xFFFF.

Definition put_fcs16 (bits : list Z) (offset : nat) (fcs : Z) : rust (list Z) :=
  bits ← put_bits bits offset (Z.land fcs 0xFF) 8;
  put_bits bits (offset + 8) (Z.land (Z.shiftr fcs 8) 0xFF) 8.

Definition get_fcs16 (bits : list Z) (offset : nat) : rust Z :=
  lo ← get_bits bits offset 8;
  hi ← get_bits bits (offset + 8) 8;
  Some (Z.lor (wrap 16 (Z.shiftl (hi as_u16) 8)) (lo as_u16)).

Definition try_get_bits (bits : list Z) (offset n : nat) : rust (result RlpError Z) :=
  if decide (length bits < offset + n)%nat then Some (Err (InsufficientBits (offset + n) (length bits)))
  else v ← get_bits bits offset n; Some (Ok v).

(** [put_bits(&mut bits, pos, v, n); pos += n;] for a sequence of fields. *)
Definition put_fields (st : list Z * nat) (fields : list (Z * nat)) : rust (list Z * nat) :=
  foldl (λ acc f, '(bits, pos) ← acc; bits ← put_bits bits pos f.1 f.2; Some (bits, (pos + f.2)%nat))
    (Some st) fields.

Definition octet_fields (data : list Z) : list (Z * nat) := (λ b, (b, 8%nat)) <$> data.

(** [(pos + 7) & !7] *)
Definition align_to_octet (pos : nat) : nat :=
  Z.to_nat (Z.land (Z.of_nat pos + 7) (bit_not 64 7)).

(** [while (pos - 2) % 8 != 0 { pos += 1 }] *)
Fixpoint pad_loop (fuel pos : nat) : nat :=
  match fuel with
  | O => pos
  | S fuel => if decide ((pos - 2) mod 8 = 0)%nat then pos else pad_loop fuel (pos + 1)
  end.
Definition pad_supplemental (pos : nat) : nat := pad_loop 8 pos.

(** ** Encoding *)

(** The Format A wrapping every information field gets. *)
Definition wrap_format_a (info : list Z) (mux : MuxOption) : rust (result RlpError (list Z)) :=
  frame ← copy_prefix (replicate (frame_bits mux) 0) (info_bits mux) info;
  frame ← put_bits frame (info_bits mux) (type_format_a mux) (type_bits mux);
  Some (Ok frame).

Definition encode_control (seq : Z) (control_type : Rlp3ControlType) (init_var nak_param_incl : bool)
    (mux : MuxOption) : rust (result RlpError (list Z)) :=
  let pre_fcs_bits := 16%nat in
  '(info, pos) ← put_fields (replicate (info_bits mux) 0, 0%nat)
    [(seq, 8%nat); (ctl_bits control_type, 6%nat); (Z.b2z init_var, 1%nat); (Z.b2z nak_param_incl, 1%nat)];
  covered ← slice info 0 pre_fcs_bits;
  info ← put_fcs16 info pos (fcs16 covered);
  wrap_format_a info mux.

Definition nak_count {A} (entries : list A) : Z := Z.land (Z.of_nat (length entries - 1)) 3.
Definition nak_type (payload : NakPayload) : Z :=
  match payload with Gap _ => 0 | Map _ => 1 | SegmentRange _ => 2 | SegmentLength _ => 3 end.

Definition gap_fields (e : NakGapEntry) : list (Z * nat) :=
  [(gap_first e, 12%nat); (gap_last e, 12%nat)].
Definition map_fields (e : NakMapEntry) : list (Z * nat) :=
  [(nak_map_seq e, 12%nat); (nak_map e, 8%nat)].
Definition seg_range_fields (e : NakSegRangeEntry) : list (Z * nat) :=
  [(sr_frame_seq e, 12%nat); (sr_first_s_seq e, 12%nat); (sr_last_s_seq e, 12%nat)].
Definition seg_len_fields (e : NakSegLenEntry) : list (Z * nat) :=
  [(sl_frame_seq e, 12%nat); (sl_first_s_seq e, 12%nat); (sl_length_s_seq e, 8%nat)].

Definition payload_fields (payload : NakPayload) : list (Z * nat) :=
  match payload with
  | Gap entries => (nak_count entries, 2%nat) :: mjoin (gap_fields <$> entries)
  | Map entries => (nak_count entries, 2%nat) :: mjoin (map_fields <$> entries)
  | SegmentRange entries => (nak_count entries, 2%nat) :: mjoin (seg_range_fields <$> entries)
  | SegmentLength entries => (nak_count entries, 2%nat) :: mjoin (seg_len_fields <$> entries)
  end.

Definition encode_nak (seq seq_hi : Z) (payload : NakPayload) (mux : MuxOption)
    : rust (result RlpError (list Z)) :=
  '(info, pos) ← put_fields (replicate (info_bits mux) 0, 0%nat)
    [(seq, 8%nat); (ctl_bits Nak, 6%nat); (nak_type payload, 2%nat); (seq_hi, 4%nat)];
  '(info, pos) ← put_fields (info, pos) (payload_fields payload);
  let fcs_pos := align_to_octet pos in
  if decide (info_bits mux < fcs_pos + 16)%nat then
    Some (Err (InsufficientBits (fcs_pos + 16) (info_bits mux)))
  else
    covered ← slice info 0 fcs_pos;
    info ← put_fcs16 info fcs_pos (fcs16 covered);
    wrap_format_a info mux.

Definition encode_data_unsegmented (seq : Z) (rexmit : bool) (data : list Z) (mux : MuxOption)
    : rust (result RlpError (list Z)) :=
  let max_len := max_data_len mux in
  if decide (max_len < length data)%nat then Some (Err (DataTooLong max_len (length data)))
  else
    '(info, _) ← put_fields (replicate (info_bits mux) 0, 0%nat)
      ([(seq, 8%nat); (0, 1%nat); (Z.b2z rexmit, 1%nat); (Z.of_nat (length data), 6%nat)]
       ++ octet_fields data);
    wrap_format_a info mux.

Definition encode_segmented (seq : Z) (sqi last_seg rexmit : bool) (seq_hi : option Z) (s_seq : Z)
    (data : list Z) (mux : MuxOption) : rust (result RlpError (list Z)) :=
  '(info, pos) ← put_fields (replicate (info_bits mux) 0, 0%nat)
    [(seq, 8%nat); (0x8, 4%nat); (Z.b2z sqi, 1%nat); (Z.b2z last_seg, 1%nat); (Z.b2z rexmit, 1%nat);
     (Z.land (Z.of_nat (length data)) 0x1F, 5%nat)];
  '(info, pos) ← (if sqi then put_fields (info, pos) [(default 0 seq_hi, 4%nat)] else Some (info, pos));
  '(info, pos) ← put_fields (info, pos) [(s_seq, 12%nat)];
  let pos := if sqi then (pos + 4)%nat else pos in
  '(info, _) ← put_fields (info, pos) (octet_fields data);
  wrap_format_a info mux.

Definition encode_format_b (seq : Z) (rexmit : bool) (data : list Z) (mux : MuxOption)
    : rust (result RlpError (list Z)) :=
  let expected_len := format_b_data_len mux in
  if decide (length data ≠ expected_len) then Some (Err (DataTooLong expected_len (length data)))
  else
    '(frame, pos) ← put_fields (replicate (frame_bits mux) 0, 0%nat) ((seq, 8%nat) :: octet_fields data);
    let type_val := if rexmit then type_format_b_rexmit mux else type_format_b_new mux in
    frame ← put_bits frame pos type_val (type_bits mux);
    Some (Ok frame).

Definition encode_fill (seq seq_hi : Z) (mux : MuxOption) : rust (result RlpError (list Z)) :=
  '(info, _) ← put_fields (replicate (info_bits mux) 0, 0%nat)
    [(seq, 8%nat); (0x9, 4%nat); (seq_hi, 4%nat)];
  wrap_format_a info mux.

Definition encode_idle1 (seq seq_hi : Z) (mux : MuxOption) : rust (result RlpError (list Z)) :=
  '(info, _) ← put_fields (replicate (info_bits mux) 0, 0%nat)
    [(seq, 8%nat); (0xA, 4%nat); (seq_hi, 4%nat)];
  wrap_format_a info mux.

Definition encode_idle2 (seq : Z) (mux : MuxOption) : rust (result RlpError (list Z)) :=
  '(info, _) ← put_fields (replicate (info_bits mux) 0, 0%nat)
    [(seq, 8%nat); (0x8, 4%nat); (1, 1%nat); (0, 1%nat); (0, 1%nat); (0, 5%nat); (0, 4%nat); (0, 12%nat)];
  wrap_format_a info mux.

Definition encode (f : Rlp3Frame) (mux : MuxOption) : rust (result RlpError (list Z)) :=
  match f with
  | Control seq control_type init_var nak_param_incl =>
      encode_control seq control_type init_var nak_param_incl mux
  | NakFrame seq seq_hi payload => encode_nak seq seq_hi payload mux
  | Data seq rexmit data => encode_data_unsegmented seq rexmit data mux
  | Segmented seq sqi last_seg rexmit seq_hi s_seq data =>
      encode_segmented seq sqi last_seg rexmit seq_hi s_seq data mux
  | DataFormatB seq rexmit data => encode_format_b seq rexmit data mux
  | Fill seq seq_hi => encode_fill seq seq_hi mux
  | Idle1 seq seq_hi => encode_idle1 seq seq_hi mux
  | Idle2 seq => encode_idle2 seq mux
  end.

(** ** Supplemental channel frames (Formats C and D) *)
Definition SUPPLEMENTAL_FORMAT_C_DATA_LEN : nat := 20.
Definition SUPPLEMENTAL_FORMAT_C_DOUBLE_DATA_LEN : nat := 42.

Definition supplemental_format_c_data_len (block_bits : nat) : option nat :=
  if decide (block_bits = 170%nat) then Some SUPPLEMENTAL_FORMAT_C_DATA_LEN
  else if decide (block_bits = 346%nat) then Some SUPPLEMENTAL_FORMAT_C_DOUBLE_DATA_LEN else None.

Definition supplemental_format_d_data_len (block_bits : nat) : option nat :=
  if decide (block_bits = 170%nat) then Some 18%nat
  else if decide (block_bits = 346%nat) then Some 40%nat else None.

Definition supplemental_format_d_segment_data_len (block_bits : nat) (seq_hi : bool) : option nat :=
  let header_bits := (2 + 8 + 1 + 1 + 1 + 1 + 8 + 12)%nat in
  let header_bits := if seq_hi then (header_bits + 4)%nat else header_bits in
  let header_bits := pad_supplemental header_bits in
  if decide (header_bits ≤ block_bits)%nat then
    let payload_octets := ((block_bits - header_bits) / 8)%nat in
    if decide (0 < payload_octets)%nat then Some payload_octets else None
  else None.

Definition fmt (n : nat) : string := pretty n.

Definition encode_supplemental_format_c_block (seq : Z) (rexmit : bool) (data : list Z) (block_bits : nat)
    : rust (result RlpError (list Z)) :=
  match supplemental_format_c_data_len block_bits with
  | None => Some (Err (InvalidFrame ("unsupported supplemental Format C block size " +:+ fmt block_bits +:+ " bits")))
  | Some data_len =>
      if decide (length data ≠ data_len) then
        Some (Err (InvalidFrame ("supplemental Format C requires " +:+ fmt data_len +:+ " octets, got " +:+ fmt (length data))))
      else
        '(frame, _) ← put_fields (replicate block_bits 0, 0%nat)
          ([(if rexmit then 3 else 2, 2%nat); (seq, 8%nat)] ++ octet_fields data);
        Some (Ok frame)
  end.

Definition encode_supplemental_format_c (seq : Z) (rexmit : bool) (data : list Z) : rust (result RlpError (list Z)) :=
  encode_supplemental_format_c_block seq rexmit data 170.

(** [seq_hi.is_some_and(|v| v > 0x0f)] *)
Definition seq_hi_too_big (seq_hi : option Z) : option Z :=
  match seq_hi with Some v => if 0x0f <? v then Some v else None | None => None end.

Definition encode_supplemental_format_d_block (seq : Z) (seq_hi : option Z) (rexmit : bool) (data : list Z)
    (block_bits : nat) : rust (result RlpError (list Z)) :=
  match supplemental_format_d_data_len block_bits with
  | None => Some (Err (InvalidFrame ("unsupported supplemental Format D block size " +:+ fmt block_bits +:+ " bits")))
  | Some max_data_len =>
      if decide (data = [] ∨ (max_data_len < length data)%nat) then
        Some (Err (InvalidFrame ("supplemental Format D requires 1..=" +:+ fmt max_data_len +:+ " octets, got "
                                 +:+ fmt (length data))))
      else match seq_hi_too_big seq_hi with
      | Some v => Some (Err (InvalidFrame ("supplemental Format D SEQ_HI out of range: " +:+ fmt (Z.to_nat v))))
      | None =>
          '(frame, pos) ← put_fields (replicate block_bits 0, 0%nat)
            [(0, 2%nat); (seq, 8%nat); (0, 1%nat); (Z.b2z (bool_decide (is_Some seq_hi)), 1%nat); (1, 1%nat);
             (Z.b2z rexmit, 1%nat); (Z.of_nat (length data), 8%nat)];
          '(frame, pos) ← (match seq_hi with
                           | Some hi => put_fields (frame, pos) [(hi, 4%nat)]
                           | None => Some (frame, pos) end);
          '(frame, _) ← put_fields (frame, pad_supplemental pos) (octet_fields data);
          Some (Ok frame)
      end
  end.

Definition encode_supplemental_format_d_segment_block (seq : Z) (seq_hi : option Z) (s_seq : Z)
    (last_seg rexmit : bool) (data : list Z) (block_bits : nat) : rust (result RlpError (list Z)) :=
  match supplemental_format_d_segment_data_len block_bits (bool_decide (is_Some seq_hi)) with
  | None =>
      Some (Err (InvalidFrame ("unsupported supplemental segmented Format D block size " +:+ fmt block_bits +:+ " bits")))
  | Some max_data_len =>
      if decide (data = [] ∨ (max_data_len < length data)%nat) then
        Some (Err (InvalidFrame ("supplemental segmented Format D requires 1..=" +:+ fmt max_data_len
                                 +:+ " octets, got " +:+ fmt (length data))))
      else match seq_hi_too_big seq_hi with
      | Some v =>
          Some (Err (InvalidFrame ("supplemental segmented Format D SEQ_HI out of range: " +:+ fmt (Z.to_nat v))))
      | None =>
          if 0x0fff <? s_seq then
            Some (Err (InvalidFrame ("supplemental segmented Format D S_SEQ out of range: " +:+ fmt (Z.to_nat s_seq))))
          else
            '(frame, pos) ← put_fields (replicate block_bits 0, 0%nat)
              [(0, 2%nat); (seq, 8%nat); (1, 1%nat); (Z.b2z (bool_decide (is_Some seq_hi)), 1%nat);
               (Z.b2z last_seg, 1%nat); (Z.b2z rexmit, 1%nat); (Z.of_nat (length data), 8%nat)];
            '(frame, pos) ← (match seq_hi with
                             | Some hi => put_fields (frame, pos) [(hi, 4%nat)]
                             | None => Some (frame, pos) end);
            '(frame, pos) ← put_fields (frame, pos) [(s_seq, 12%nat)];
            '(frame, _) ← put_fields (frame, pad_supplemental pos) (octet_fields data);
            Some (Ok frame)
      end
  end.

(** ** Decoding *)

(** [if pos + 8 > info.len() { return Err(..) }; data[i] = get_bits(info, pos, 8)]
    for the octets from [pos] on. *)
Fixpoint get_data (info : list Z) (pos len : nat) : rust (result RlpError (list Z)) :=
  match len with
  | O => Some (Ok [])
  | S len =>
      if decide (length info < pos + 8)%nat then Some (Err (InsufficientBits (pos + 8) (length info)))
      else
        v ← get_bits info pos 8;
        rest ←? get_data info (pos + 8) len;
        Some (Ok ((v as_u8) :: rest))
  end.

(** The entries of a NAK: [for _ in 0..count { .. entries.push(..) }]. *)
Fixpoint read_entries {A} (read : nat → rust (result RlpError (A * nat))) (count pos : nat)
    : rust (result RlpError (list A * nat)) :=
  match count with
  | O => Some (Ok ([], pos))
  | S count =>
      '(e, pos) ←? read pos;
      '(es, pos) ←? read_entries read count pos;
      Some (Ok (e :: es, pos))
  end.

Definition read_gap (info : list Z) (pos : nat) : rust (result RlpError (NakGapEntry * nat)) :=
  first ←? try_get_bits info pos 12;
  last ←? try_get_bits info (pos + 12) 12;
  Some (Ok (mkGap (first as_u16) (last as_u16), (pos + 12 + 12)%nat)).
Definition read_map (info : list Z) (pos : nat) : rust (result RlpError (NakMapEntry * nat)) :=
  nak_map_seq ←? try_get_bits info pos 12;
  nak_map ←? try_get_bits info (pos + 12) 8;
  Some (Ok (mkMap (nak_map_seq as_u16) (nak_map as_u8), (pos + 12 + 8)%nat)).
Definition read_seg_range (info : list Z) (pos : nat) : rust (result RlpError (NakSegRangeEntry * nat)) :=
  frame_seq ←? try_get_bits info pos 12;
  first_s_seq ←? try_get_bits info (pos + 12) 12;
  last_s_seq ←? try_get_bits info (pos + 12 + 12) 12;
  Some (Ok (mkSegRange (frame_seq as_u16) (first_s_seq as_u16) (last_s_seq as_u16), (pos + 12 + 12 + 12)%nat)).
Definition read_seg_len (info : list Z) (pos : nat) : rust (result RlpError (NakSegLenEntry * nat)) :=
  frame_seq ←? try_get_bits info pos 12;
  first_s_seq ←? try_get_bits info (pos + 12) 12;
  length_s_seq ←? try_get_bits info (pos + 12 + 12) 8;
  Some (Ok (mkSegLen (frame_seq as_u16) (first_s_seq as_u16) (length_s_seq as_u8), (pos + 12 + 12 + 8)%nat)).

Definition read_counted {A} (info : list Z) (read : list Z → nat → rust (result RlpError (A * nat))) (pos : nat)
    : rust (result RlpError (list A * nat)) :=
  count ←? try_get_bits info pos 2;
  read_entries (read info) (Z.to_nat count + 1) (pos + 2).

Definition read_payload (info : list Z) (nak_type : Z) (pos : nat) : rust (result RlpError (NakPayload * nat)) :=
  if nak_type =? 0 then '(es, pos) ←? read_counted info read_gap pos; Some (Ok (Gap es, pos))
  else if nak_type =? 1 then '(es, pos) ←? read_counted info read_map pos; Some (Ok (Map es, pos))
  else if nak_type =? 2 then '(es, pos) ←? read_counted info read_seg_range pos; Some (Ok (SegmentRange es, pos))
  else if nak_type =? 3 then '(es, pos) ←? read_counted info read_seg_len pos; Some (Ok (SegmentLength es, pos))
  else Some (Err (InvalidNakType nak_type)).

Definition decode_nak_frame (info : list Z) : rust (result RlpError Rlp3Frame) :=
  let len := length info in
  if decide (len < 20)%nat then Some (Err (InsufficientBits 20 len))
  else
    seq ← get_bits info 0 8;
    nak_type ← get_bits info 14 2;
    seq_hi ← get_bits info 16 4;
    '(payload, pos) ←? read_payload info (nak_type as_u8) 20;
    let fcs_pos := align_to_octet pos in
    if decide (len < fcs_pos + 16)%nat then Some (Err (InsufficientBits (fcs_pos + 16) len))
    else
      covered ← slice info 0 fcs_pos;
      let fcs_expected := fcs16 covered in
      fcs_got ← get_fcs16 info fcs_pos;
      if decide (fcs_expected ≠ fcs_got) then Some (Err (FcsInvalid fcs_expected fcs_got))
      else Some (Ok (NakFrame (seq as_u8) (seq_hi as_u8) payload)).

Definition decode_sync_ack_frame (info : list Z) (seq : Z) (control_type : Rlp3ControlType)
    : rust (result RlpError Rlp3Frame) :=
  init_var ← index info 14;
  nak_param_incl ← index info 15;
  covered ← slice info 0 16;
  let fcs_expected := fcs16 covered in
  fcs_got ← get_fcs16 info 16;
  if decide (fcs_expected ≠ fcs_got) then Some (Err (FcsInvalid fcs_expected fcs_got))
  else Some (Ok (Control seq control_type (init_var =? 1) (nak_param_incl =? 1))).

Definition decode_segmented_frame (info : list Z) : rust (result RlpError Rlp3Frame) :=
  seq ← get_bits info 0 8;
  sqi ← index info 12;
  last_seg ← index info 13;
  rexmit ← index info 14;
  len ← get_bits info 15 5;
  let sqi := sqi =? 1 in
  '(seq_hi, pos) ← (if sqi then hi ← get_bits info 20 4; Some (Some (hi as_u8), 24%nat)
                    else Some (None, 20%nat));
  s_seq ← get_bits info pos 12;
  let pos := (pos + 12)%nat in
  let pos := if sqi then (pos + 4)%nat else pos in
  data ←? get_data info pos (Z.to_nat len);
  Some (Ok (Segmented (seq as_u8) sqi (last_seg =? 1) (rexmit =? 1) seq_hi (s_seq as_u16) data)).

Definition is_idle2_info (info : list Z) : rust bool :=
  if decide (length info < 36)%nat then Some false
  else
    ctl ← get_bits info 8 4;
    b12 ← index info 12;
    b13 ← index info 13;
    b14 ← index info 14;
    len ← get_bits info 15 5;
    Some ((ctl =? 0x8) && (b12 =? 1) && (b13 =? 0) && (b14 =? 0) && (len =? 0)).

Definition decode_format_a (info : list Z) (mux : MuxOption) : rust (result RlpError Rlp3Frame) :=
  if decide (length info < 16)%nat then Some (Err (InsufficientBits 16 (length info)))
  else
    seq ← get_bits info 0 8;
    let seq := seq as_u8 in
    ctl_msb ← index info 8;
    bit9 ← index info 9;
    if ctl_msb =? 0 then
      len ← get_bits info 10 6;
      let len := Z.to_nat len in
      let max_len := max_data_len mux in
      if decide (max_len < len)%nat then Some (Err (DataTooLong max_len len))
      else
        data ←? get_data info 16 len;
        Some (Ok (Data seq (bit9 =? 1) data))
    else
      bit10 ← index info 10;
      bit11 ← index info 11;
      if (bit9 =? 0) && (bit10 =? 0) && (bit11 =? 0) then
        idle2 ← is_idle2_info info;
        if (idle2 : bool) then Some (Ok (Idle2 seq)) else decode_segmented_frame info
      else if (bit9 =? 0) && (bit10 =? 0) && (bit11 =? 1) then
        seq_hi ← get_bits info 12 4;
        Some (Ok (Fill seq (seq_hi as_u8)))
      else if (bit9 =? 0) && (bit10 =? 1) && (bit11 =? 0) then
        seq_hi ← get_bits info 12 4;
        Some (Ok (Idle1 seq (seq_hi as_u8)))
      else
        ctl ← get_bits info 8 6;
        match from_ctl_bits (ctl as_u8) with
        | Some Nak => decode_nak_frame info
        | Some ct => decode_sync_ack_frame info seq ct
        | None => Some (Err (InvalidCtl (ctl as_u8)))
        end.

Definition decode_format_b (bits : list Z) (mux : MuxOption) (rexmit : bool) : rust (result RlpError Rlp3Frame) :=
  seq ← get_bits bits 0 8;
  data ← get_octets bits 8 (format_b_data_len mux);
  Some (Ok (DataFormatB (seq as_u8) rexmit data)).

Definition decode_rlp3_frame (bits : list Z) (mux : MuxOption) : rust (result RlpError Rlp3Frame) :=
  let expected := frame_bits mux in
  if decide (length bits < expected)%nat then Some (Err (InsufficientBits expected (length bits)))
  else
    type_val ← get_bits bits (info_bits mux) (type_bits mux);
    let type_val := type_val as_u8 in
    if type_val =? 1 then info ← slice bits 0 (info_bits mux); decode_format_a info mux
    else if type_val =? 2 then decode_format_b bits mux false
    else if type_val =? 3 then decode_format_b bits mux true
    else Some (Err (InvalidType type_val)).

(** [{:#06b}] of a four-bit value. *)
Definition fmt_ctl4 (ctl : Z) : string :=
  let bit (i : Z) := if Z.testbit ctl i then "1"%string else "0"%string in
  ("0b" +:+ bit 3 +:+ bit 2 +:+ bit 1 +:+ bit 0)%string.

Definition format_a_info (bits : list Z) (mux : MuxOption) : rust (result RlpError (list Z)) :=
  let expected := frame_bits mux in
  if decide (length bits < expected)%nat then Some (Err (InsufficientBits expected (length bits)))
  else
    type_val ← get_bits bits (info_bits mux) (type_bits mux);
    if decide (type_val as_u8 ≠ type_format_a mux) then Some (Err (InvalidType (type_val as_u8)))
    else info ← slice bits 0 (info_bits mux); Some (Ok info).

Definition try_decode_fill_or_idle1 (bits : list Z) (mux : MuxOption) : rust (result RlpError Rlp3Frame) :=
  info ←? format_a_info bits mux;
  seq ← get_bits info 0 8;
  ctl ← get_bits info 8 4;
  seq_hi ← get_bits info 12 4;
  if ctl =? 0x9 then Some (Ok (Fill (seq as_u8) (seq_hi as_u8)))
  else if ctl =? 0xA then Some (Ok (Idle1 (seq as_u8) (seq_hi as_u8)))
  else Some (Err (InvalidFrame ("fill/idle1 CTL=" +:+ fmt_ctl4 ctl +:+ ", expected 1001 or 1010"))).

Definition try_decode_idle2 (bits : list Z) (mux : MuxOption) : rust (result RlpError Rlp3Frame) :=
  info ←? format_a_info bits mux;
  seq ← get_bits info 0 8;
  idle2 ← is_idle2_info info;
  if (idle2 : bool) then Some (Ok (Idle2 (seq as_u8)))
  else Some (Err (InvalidFrame "not an Idle Format 2 frame")).

(** ** Sub-rate frames *)
Definition sub_rate_info_bits (rate : FrameRate) : option nat :=
  match rate with Half => Some 80%nat | Quarter => Some 40%nat | _ => None end.

Definition encode_sub_rate_fill (seq seq_hi : Z) (num_info_bits : nat) : rust (result RlpError (list Z)) :=
  if decide (num_info_bits < 16)%nat then Some (Err (InsufficientBits 16 num_info_bits))
  else
    info ← put_bits (replicate num_info_bits 0) 0 seq 8;
    info ← put_bits info 8 0x9 4;
    info ← put_bits info 12 (Z.land seq_hi 0x0f) 4;
    Some (Ok info).

(** The attempts of [decode_sub_rate_frame], in order; [Some None] when the
    next one is tried. *)
Definition sub_rate_fill_or_idle (info : list Z) : rust (option Rlp3Frame) :=
  if decide (16 ≤ length info)%nat then
    ctl4 ← get_bits info 8 4;
    if (ctl4 =? 0x9) || (ctl4 =? 0xA) then
      seq ← get_bits info 0 8;
      seq_hi ← get_bits info 12 4;
      if ctl4 =? 0x9 then Some (Some (Fill (seq as_u8) (seq_hi as_u8)))
      else Some (Some (Idle1 (seq as_u8) (seq_hi as_u8)))
    else Some None
  else Some None.

Definition sub_rate_idle2 (info : list Z) : rust (option Rlp3Frame) :=
  if decide (36 ≤ length info)%nat then
    idle2 ← is_idle2_info info;
    if (idle2 : bool) then seq ← get_bits info 0 8; Some (Some (Idle2 (seq as_u8))) else Some None
  else Some None.

Definition sub_rate_data (info : list Z) : rust (option Rlp3Frame) :=
  if decide (16 ≤ length info)%nat then
    b8 ← index info 8;
    if b8 =? 0 then
      b9 ← index info 9;
      len ← get_bits info 10 6;
      let len := Z.to_nat len in
      if decide (0 < len ∧ 16 + len * 8 ≤ length info)%nat then
        seq ← get_bits info 0 8;
        data ← get_octets info 16 len;
        Some (Some (Data (seq as_u8) (b9 =? 1) data))
      else Some None
    else Some None
  else Some None.

Definition sub_rate_segmented (info : list Z) : rust (option Rlp3Frame) :=
  if decide (20 ≤ length info)%nat then
    b8 ← index info 8; b9 ← index info 9; b10 ← index info 10; b11 ← index info 11;
    if (b8 =? 1) && (b9 =? 0) && (b10 =? 0) && (b11 =? 0) then
      r ← decode_segmented_frame info;
      match r with Ok f => Some (Some f) | Err _ => Some None end
    else Some None
  else Some None.

(** The control attempt: a frame, an error kept for the end, or neither. *)
Definition sub_rate_control (info : list Z) : rust (option (result RlpError Rlp3Frame)) :=
  if decide (32 ≤ length info)%nat then
    ctl ← get_bits info 8 6;
    match from_ctl_bits (ctl as_u8) with
    | None => Some None
    | Some Nak =>
        if decide (60 ≤ length info)%nat then r ← decode_nak_frame info; Some (Some r) else Some None
    | Some ct =>
        seq ← get_bits info 0 8;
        r ← decode_sync_ack_frame info (seq as_u8) ct;
        Some (Some r)
    end
  else Some None.

Definition or_else {A} (m : rust (option A)) (k : rust (option A)) : rust (option A) :=
  r ← m; match r with Some a => Some (Some a) | None => k end.

Definition decode_sub_rate_frame (bits : list Z) (num_info_bits : nat) : rust (result RlpError Rlp3Frame) :=
  if decide (length bits < num_info_bits)%nat then
    Some (Err (InsufficientBits num_info_bits (length bits)))
  else
    info ← slice bits 0 num_info_bits;
    f ← or_else (sub_rate_fill_or_idle info) (or_else (sub_rate_idle2 info)
          (or_else (sub_rate_data info) (sub_rate_segmented info)));
    match f with
    | Some f => Some (Ok f)
    | None =>
        c ← sub_rate_control info;
        Some (default (Err (InvalidFrame "no valid sub-rate frame found")) c)
    end.

(** ** RLP_BLOB *)
Record RlpBlob := mkRlpBlob {
  rtt : Z;
  nak_rounds_fwd : Z;
  nak_rounds_rev : Z;
  naks_per_round_fwd : list Z;
  naks_per_round_rev : list Z
}.

Definition push_bits (bits : list Z) (val : Z) (n : nat) : list Z := bits ++ to_bits n val.

Definition push_rounds (bits : list Z) (rounds : Z) (limits : list Z) : list Z :=
  foldl (λ bits i, push_bits bits (default 0 (limits !! i)) 3) bits (List.seq 0 (Z.to_nat rounds)).

Definition blob_encode (b : RlpBlob) : list Z :=
  let bits := push_bits [] 1 3 in
  let bits := push_bits bits (rtt b) 8 in
  let bits := push_bits bits (nak_rounds_fwd b) 3 in
  let bits := push_bits bits (nak_rounds_rev b) 3 in
  let bits := push_rounds bits (nak_rounds_fwd b) (naks_per_round_fwd b) in
  push_rounds bits (nak_rounds_rev b) (naks_per_round_rev b).

Fixpoint read_rounds (bits : list Z) (pos rounds : nat) : rust (list Z * nat) :=
  match rounds with
  | O => Some ([], pos)
  | S rounds =>
      v ← get_bits bits pos 3;
      '(vs, pos) ← read_rounds bits (pos + 3) rounds;
      Some ((v as_u8) :: vs, pos)
  end.

Definition blob_decode (bits : list Z) : rust (result RlpError RlpBlob) :=
  if decide (length bits < 17)%nat then Some (Err (InvalidBlob "too short"))
  else
    blob_type ← get_bits bits 0 3;
    if decide (blob_type as_u8 ≠ 1) then
      Some (Err (InvalidBlob ("unsupported RLP_BLOB_TYPE: " +:+ fmt (Z.to_nat blob_type))))
    else
      rtt ← get_bits bits 3 8;
      fwd ← get_bits bits 11 3;
      rev ← get_bits bits 14 3;
      let pos := 17%nat in
      let total_needed := (pos + (Z.to_nat fwd + Z.to_nat rev) * 3)%nat in
      if decide (length bits < total_needed)%nat then Some (Err (InvalidBlob "too short for NAK rounds"))
      else
        '(naks_fwd, pos) ← read_rounds bits pos (Z.to_nat fwd);
        '(naks_rev, _) ← read_rounds bits pos (Z.to_nat rev);
        Some (Ok (mkRlpBlob (rtt as_u8) (fwd as_u8) (rev as_u8) naks_fwd naks_rev)).

Example nak_roundtrip :
  (bits ← encode (NakFrame 9 3 (Gap [mkGap 1 5; mkGap 4000 3])) Odd;
   match bits with Ok b => decode_rlp3_frame b Odd | Err e => Some (Err e) end)
  = Some (Ok (NakFrame 9 3 (Gap [mkGap 1 5; mkGap 4000 3]))).
Proof. vm_compute. reflexivity. Qed.

End Rlp3.
