(* ===== verification/Rlp3Proofs.v ===== *)
(** * Correctness of the RLP Type 3 frame codec: round trips, total decoders, and what the encoder refuses or panics on *)
From S2P Require Import Prelude BitString Rlp RlpProofs Rlp3Frames.
Import Rlp3.

(** ** Fields *)
Definition fbits (fields : list (Z * nat)) : list Z := mjoin ((λ f, to_bits f.2 f.1) <$> fields).

Lemma fbits_cons f fields : fbits (f :: fields) = to_bits f.2 f.1 ++ fbits fields.
Proof. done. Qed.
Lemma fbits_app l k : fbits (l ++ k) = fbits l ++ fbits k.
Proof. unfold fbits. by rewrite fmap_app, join_app. Qed.
Lemma fbits_octets data : fbits (octet_fields data) = octet_bits data.
Proof. unfold fbits, octet_fields, octet_bits. by rewrite <- list_fmap_compose. Qed.

Lemma put_fields_spec fields : ∀ pre m pos,
  pos = length pre → (length (fbits fields) ≤ m)%nat →
  put_fields (pre ++ replicate m 0, pos) fields
  = Some (pre ++ fbits fields ++ replicate (m - length (fbits fields)) 0, (pos + length (fbits fields))%nat).
Proof.
  induction fields as [|[v n] fields IH]; intros pre m pos -> Hm.
  { cbn. by rewrite Nat.sub_0_r, Nat.add_0_r. }
  rewrite fbits_cons, length_app, length_to_bits in Hm. cbn [snd] in Hm.
  unfold put_fields. cbn [foldl]. rewrite bind_some. cbn [fst snd].
  rewrite put_bits_zeros, bind_some by lia.
  change (foldl _ _ fields) with (put_fields ((pre ++ to_bits n v) ++ replicate (m - n) 0, (length pre + n)%nat) fields).
  rewrite IH by (rewrite ?length_app, ?length_to_bits; lia).
  rewrite fbits_cons, length_app, length_to_bits. cbn [fst snd].
  rewrite <- !app_assoc. do 2 f_equal; [|lia]. do 4 f_equal. lia.
Qed.

(** From an empty vector. *)
Lemma put_fields_zeros fields m :
  (length (fbits fields) ≤ m)%nat →
  put_fields (replicate m 0, 0%nat) fields
  = Some (fbits fields ++ replicate (m - length (fbits fields)) 0, length (fbits fields)).
Proof. intros H. by apply (put_fields_spec fields [] m 0). Qed.

Lemma try_get_field pre suf off n v :
  off = length pre → (n ≤ 32)%nat →
  try_get_bits (pre ++ to_bits n v ++ suf) off n = Some (Ok (v mod 2 ^ Z.of_nat n)).
Proof.
  intros -> Hn. unfold try_get_bits. rewrite decide_False by (field_lengths; lia).
  by rewrite get_bits_spec, of_to_bits by (field_lengths; lia).
Qed.

Lemma fcs16_bit_u16 crc b : is_u16 crc → is_u16 (fcs16_bit crc b).
Proof.
  intros. unfold fcs16_bit. destruct (_ =? _); [|apply is_u_lxor; [lia| |apply POLY_u16]]; by apply is_u_shiftr.
Qed.

Lemma fcs16_bits_u16 bits : is_u16 (fcs16 bits).
Proof.
  unfold fcs16. apply is_u_lxor; [lia| |done].
  cut (∀ cs c, is_u16 c → is_u16 (foldl (λ crc octet, foldl fcs16_bit crc (rev octet)) c cs)); [intros H; by apply H|].
  induction cs as [|o cs IH]; intros c Hc; cbn [foldl]; [done|]. apply IH. clear IH.
  revert c Hc. induction (rev o) as [|b bs IHb]; intros c Hc; cbn [foldl]; [done|]. by apply IHb, fcs16_bit_u16.
Qed.

Definition fcs_field (fcs : Z) : list Z :=
  to_bits 8 (Z.land fcs 0xFF) ++ to_bits 8 (Z.land (Z.shiftr fcs 8) 0xFF).

Lemma length_fcs_field fcs : length (fcs_field fcs) = 16%nat.
Proof. unfold fcs_field. by field_lengths. Qed.

Lemma put_fcs16_zeros pre m off fcs :
  off = length pre → (16 ≤ m)%nat →
  put_fcs16 (pre ++ replicate m 0) off fcs = Some (pre ++ fcs_field fcs ++ replicate (m - 16) 0).
Proof.
  intros -> Hm. unfold put_fcs16, fcs_field. rewrite put_bits_zeros, bind_some by lia.
  rewrite put_bits_zeros by (field_lengths; lia). rewrite <- !app_assoc.
  by replace (m - 16)%nat with (m - 8 - 8)%nat by lia.
Qed.

Lemma get_fcs16_field pre suf off fcs :
  off = length pre → is_u16 fcs → get_fcs16 (pre ++ fcs_field fcs ++ suf) off = Some fcs.
Proof.
  intros -> Hf. unfold get_fcs16, fcs_field. rewrite <- app_assoc.
  rewrite (get_bits_spec pre _ _ (length pre)), bind_some by (field_lengths; lia).
  rewrite (app_assoc pre), get_bits_spec, bind_some by (field_lengths; lia).
  rewrite !of_to_bits by lia. f_equal. rewrite shiftr_8, !land_255.
  change (2 ^ Z.of_nat 8) with 256. rewrite !Z.mod_mod by lia.
  rewrite !(wrap_small 16 (_ mod 256)) by (unfold is_u; zdiv).
  rewrite (wrap_small 16), lor_shiftl_add by (rewrite ?Z.shiftl_mul_pow2 by lia; unfold is_u in *; zdiv).
  unfold is_u in Hf. change (2 ^ 8) with 256. zdiv.
Qed.

Lemma info_le_frame mux : (info_bits mux ≤ frame_bits mux)%nat.
Proof. destruct mux; cbn; lia. Qed.

(** A full-rate Format A frame. *)
Definition format_a (info : list Z) (mux : MuxOption) : list Z :=
  info ++ replicate (info_bits mux - length info) 0 ++ to_bits (type_bits mux) 1.

Lemma wrap_format_a_spec info mux k :
  (length info + k = info_bits mux)%nat →
  wrap_format_a (info ++ replicate k 0) mux = Some (Ok (format_a info mux)).
Proof.
  intros Hl. unfold wrap_format_a, copy_prefix.
  rewrite decide_True by (field_lengths; rewrite Hl; split; [apply info_le_frame|done]).
  rewrite bind_some. rewrite drop_replicate, put_bits_zeros, bind_some by (field_lengths; destruct mux; cbn in *; lia).
  unfold format_a. replace (_ - length info)%nat with k by lia.
  replace (frame_bits mux - info_bits mux - type_bits mux)%nat with 0%nat by (destruct mux; done).
  rewrite app_nil_r, <- app_assoc. by destruct mux.
Qed.

Lemma length_format_a info mux : (length info ≤ info_bits mux)%nat → length (format_a info mux) = frame_bits mux.
Proof. intros H. unfold format_a. field_lengths. destruct mux; cbn in *; lia. Qed.

Lemma decode_format_a_frame info mux :
  (length info ≤ info_bits mux)%nat →
  decode_rlp3_frame (format_a info mux) mux
  = decode_format_a (info ++ replicate (info_bits mux - length info) 0) mux.
Proof.
  intros H. unfold decode_rlp3_frame. rewrite length_format_a, decide_False by (done || lia).
  unfold format_a. rewrite app_assoc. set (body := info ++ _).
  assert (length body = info_bits mux) as Hb by (unfold body; field_lengths; lia).
  rewrite <- (app_nil_r (to_bits (type_bits mux) 1)), get_bits_spec, bind_some by (field_lengths; lia).
  rewrite of_to_bits by (destruct mux; cbn; lia).
  replace (wrap 8 _) with 1 by by destruct mux. cbn [Z.eqb Pos.eqb].
  by rewrite slice_prefix, bind_some by done.
Qed.

(** ** Reading an information field back *)
Lemma get_data_field data : ∀ pre suf pos,
  bytes data → pos = length pre → get_data (pre ++ octet_bits data ++ suf) pos (length data) = Some (Ok data).
Proof.
  induction data as [|x data IH]; intros pre suf pos Hb ->; [done|].
  inversion_clear Hb as [|?? Hx Hd]. cbn [get_data length]. rewrite octet_bits_cons, <- app_assoc.
  rewrite decide_False by (field_lengths; lia).
  rewrite get_bits_spec, bind_some by (field_lengths; lia).
  rewrite (app_assoc pre), IH by (field_lengths; done || lia).
  unfold try_bind. rewrite bind_some, of_to_bits by lia. by rewrite wrap_field by (done || lia).
Qed.

Ltac finish_field := rewrite get_bits_field by lia; f_equal; apply Z.mod_small; unfold is_u in *; lia.

(** The fields common to the Format A frames that are not data. *)
Lemma frame_start_fields seq ctl4 t :
  is_u8 seq → is_u 4 ctl4 →
  let l := to_bits 8 seq ++ to_bits 4 ctl4 ++ t in
  get_bits l 0 8 = Some seq ∧ get_bits l 8 4 = Some ctl4 ∧
  index l 8 = Some (ctl4 / 8 mod 2) ∧ index l 9 = Some (ctl4 / 4 mod 2) ∧
  index l 10 = Some (ctl4 / 2 mod 2) ∧ index l 11 = Some (ctl4 mod 2).
Proof.
  intros Hs Hc l. subst l. split_and!; skip_fields; try finish_field.
  all: unfold to_bits; cbn [List.seq fmap list_fmap app index lookup list_lookup].
  all: rewrite land_1, ?Z.shiftr_div_pow2 by lia; try done.
  by rewrite Z.div_1_r.
Qed.

Lemma decode_fill_or_idle1 mux seq hi suf :
  is_u8 seq → is_u 4 hi →
  decode_format_a (to_bits 8 seq ++ to_bits 4 0x9 ++ to_bits 4 hi ++ suf) mux = Some (Ok (Fill seq hi)) ∧
  decode_format_a (to_bits 8 seq ++ to_bits 4 0xA ++ to_bits 4 hi ++ suf) mux = Some (Ok (Idle1 seq hi)).
Proof.
  intros Hs Hh.
  assert (∀ c, get_bits (to_bits 8 seq ++ to_bits 4 c ++ to_bits 4 hi ++ suf) 12 4 = Some hi) as E12.
  { intros c. skip_fields. finish_field. }
  split; unfold decode_format_a; (rewrite decide_False by (field_lengths; lia)).
  - destruct (frame_start_fields seq 0x9 (to_bits 4 hi ++ suf) Hs ltac:(done)) as (-> & _ & -> & -> & -> & ->).
    cbn -[get_bits wrap]. rewrite E12. cbn -[wrap]. by rewrite !wrap_small by (done || by apply (is_u_mono 4)).
  - destruct (frame_start_fields seq 0xA (to_bits 4 hi ++ suf) Hs ltac:(done)) as (-> & _ & -> & -> & -> & ->).
    cbn -[get_bits wrap]. rewrite E12. cbn -[wrap]. by rewrite !wrap_small by (done || by apply (is_u_mono 4)).
Qed.

Lemma decode_data mux seq rexmit data suf :
  is_u8 seq → bytes data → (length data ≤ max_data_len mux)%nat →
  decode_format_a (fbits [(seq, 8%nat); (0, 1%nat); (Z.b2z rexmit, 1%nat); (Z.of_nat (length data), 6%nat)]
    ++ octet_bits data ++ suf) mux = Some (Ok (Data seq rexmit data)).
Proof.
  intros Hs Hd Hl. assert (max_data_len mux < 64)%nat by (destruct mux; cbn; lia).
  unfold fbits. cbn [fmap list_fmap mjoin list_join fst snd]. rewrite app_nil_r.
  unfold decode_format_a. rewrite decide_False by (field_lengths; lia). rewrite <- !app_assoc.
  assert (get_bits (to_bits 8 seq ++ to_bits 1 0 ++ to_bits 1 (Z.b2z rexmit) ++ to_bits 6 (Z.of_nat (length data))
    ++ octet_bits data ++ suf) 0 8 = Some seq) as -> by finish_field.
  rewrite bind_some.
  assert (index (to_bits 8 seq ++ to_bits 1 0 ++ to_bits 1 (Z.b2z rexmit) ++ to_bits 6 (Z.of_nat (length data))
    ++ octet_bits data ++ suf) 8 = Some 0) as -> by (skip_fields; done).
  assert (index (to_bits 8 seq ++ to_bits 1 0 ++ to_bits 1 (Z.b2z rexmit) ++ to_bits 6 (Z.of_nat (length data))
    ++ octet_bits data ++ suf) 9 = Some (Z.b2z rexmit)) as -> by (skip_fields; by destruct rexmit).
  rewrite !bind_some. cbn [Z.eqb].
  assert (get_bits (to_bits 8 seq ++ to_bits 1 0 ++ to_bits 1 (Z.b2z rexmit) ++ to_bits 6 (Z.of_nat (length data))
    ++ octet_bits data ++ suf) 10 6 = Some (Z.of_nat (length data))) as -> by (skip_fields; finish_field).
  rewrite bind_some, Nat2Z.id, decide_False by lia.
  rewrite !(app_assoc _ _ (octet_bits data ++ suf)).
  rewrite get_data_field by (field_lengths; done).
  unfold try_bind. rewrite bind_some, wrap_small by done. by destruct rexmit.
Qed.

Definition seg_header (seq : Z) (sqi last_seg rexmit : bool) (len : nat) : list (Z * nat) :=
  [(seq, 8%nat); (0x8, 4%nat); (Z.b2z sqi, 1%nat); (Z.b2z last_seg, 1%nat); (Z.b2z rexmit, 1%nat); (Z.of_nat len, 5%nat)].
(** SEQ_HI, S_SEQ and, with SQI, the padding that aligns the data. *)
Definition seg_numbers (seq_hi : option Z) (s_seq : Z) : list (Z * nat) :=
  match seq_hi with
  | Some hi => [(hi, 4%nat); (s_seq, 12%nat); (0, 4%nat)]
  | None => [(s_seq, 12%nat)]
  end.
Definition seg_info (seq : Z) (last_seg rexmit : bool) (seq_hi : option Z) (s_seq : Z) (data : list Z) : list Z :=
  fbits (seg_header seq (bool_decide (is_Some seq_hi)) last_seg rexmit (length data))
    ++ fbits (seg_numbers seq_hi s_seq) ++ octet_bits data.

Lemma length_seg_info seq l r h s data :
  length (seg_info seq l r h s data) = (match h with Some _ => 40 | None => 32 end + 8 * length data)%nat.
Proof.
  unfold seg_info, seg_header, fbits. destruct h; cbn [fmap list_fmap mjoin list_join fst snd seg_numbers];
    rewrite ?app_nil_r; field_lengths; lia.
Qed.

Lemma seg_header_fields seq sqi last_seg rexmit len t :
  is_u8 seq → (len < 32)%nat →
  let l := fbits (seg_header seq sqi last_seg rexmit len) ++ t in
  get_bits l 0 8 = Some seq ∧ get_bits l 8 4 = Some 0x8 ∧
  index l 8 = Some 1 ∧ index l 9 = Some 0 ∧ index l 10 = Some 0 ∧ index l 11 = Some 0 ∧
  index l 12 = Some (Z.b2z sqi) ∧ index l 13 = Some (Z.b2z last_seg) ∧ index l 14 = Some (Z.b2z rexmit) ∧
  get_bits l 15 5 = Some (Z.of_nat len).
Proof.
  intros Hs Hl l. subst l. unfold fbits. cbn [seg_header fmap list_fmap mjoin list_join fst snd].
  rewrite app_nil_r, <- !app_assoc.
  split_and!; skip_fields; try finish_field; try done; by destruct sqi, last_seg, rexmit.
Qed.

Lemma is_idle2_seg seq sqi last_seg rexmit len t :
  is_u8 seq → (len < 32)%nat → (16 ≤ length t)%nat →
  is_idle2_info (fbits (seg_header seq sqi last_seg rexmit len) ++ t)
  = Some (sqi && negb last_seg && negb rexmit && (len =? 0)%nat).
Proof.
  intros Hs Hl Ht. unfold is_idle2_info.
  rewrite decide_False by (unfold fbits; cbn [seg_header fmap list_fmap mjoin list_join fst snd]; field_lengths; lia).
  destruct (seg_header_fields seq sqi last_seg rexmit len t Hs Hl) as (_ & -> & _ & _ & _ & _ & -> & -> & -> & ->).
  rewrite !bind_some. f_equal. destruct sqi, last_seg, rexmit; cbn; try done. by destruct len.
Qed.

Lemma decode_segmented_info seq last_seg rexmit seq_hi s_seq data suf :
  is_u8 seq → bytes data → is_u 12 s_seq → (∀ h, seq_hi = Some h → is_u 4 h) → (length data < 32)%nat →
  decode_segmented_frame (seg_info seq last_seg rexmit seq_hi s_seq data ++ suf)
  = Some (Ok (Segmented seq (bool_decide (is_Some seq_hi)) last_seg rexmit seq_hi s_seq data)).
Proof.
  intros Hs Hd Hss Hh Hl. unfold seg_info. rewrite <- !app_assoc. unfold decode_segmented_frame.
  set (t := fbits (seg_numbers seq_hi s_seq) ++ octet_bits data ++ suf).
  destruct (seg_header_fields seq (bool_decide (is_Some seq_hi)) last_seg rexmit (length data) t Hs Hl)
    as (-> & _ & _ & _ & _ & _ & -> & -> & -> & ->).
  rewrite !bind_some. subst t.
  assert (length (fbits (seg_header seq (bool_decide (is_Some seq_hi)) last_seg rexmit (length data))) = 20%nat) as H20.
  { unfold fbits. cbn [seg_header fmap list_fmap mjoin list_join fst snd]. by field_lengths. }
  set (hd := fbits (seg_header _ _ _ _ _)) in *. clearbody hd. rewrite Nat2Z.id.
  assert ((Z.b2z last_seg =? 1) = last_seg ∧ (Z.b2z rexmit =? 1) = rexmit) as [-> ->] by by destruct last_seg, rexmit.
  destruct seq_hi as [h|]; unfold fbits; cbn [seg_numbers fmap list_fmap mjoin list_join fst snd];
    rewrite ?app_nil_r, <- ?app_assoc.
  - rewrite bool_decide_eq_true_2 by done. cbn [Z.b2z Z.eqb Pos.eqb].
    rewrite (get_bits_spec hd), !bind_some by (field_lengths; lia).
    rewrite (app_assoc hd), get_bits_spec, bind_some by (field_lengths; lia).
    rewrite !(app_assoc _ _ (octet_bits data ++ suf)). rewrite get_data_field by (field_lengths; done || lia).
    unfold try_bind. rewrite bind_some, !of_to_bits, !wrap_field by (auto || lia).
    by rewrite (wrap_small 8) by done.
  - rewrite bool_decide_eq_false_2 by (by intros [? ?]). cbn [Z.b2z Z.eqb Pos.eqb].
    rewrite !bind_some, (get_bits_spec hd), !bind_some by (field_lengths; lia).
    rewrite !(app_assoc _ _ (octet_bits data ++ suf)). rewrite get_data_field by (field_lengths; done || lia).
    unfold try_bind. rewrite bind_some, !of_to_bits, !wrap_field by (auto || lia).
    by rewrite (wrap_small 8) by done.
Qed.

Lemma decode_seg mux seq last_seg rexmit seq_hi s_seq data suf :
  is_u8 seq → bytes data → is_u 12 s_seq → (∀ h, seq_hi = Some h → is_u 4 h) → (length data < 32)%nat →
  (16 ≤ length (fbits (seg_numbers seq_hi s_seq) ++ octet_bits data ++ suf))%nat →
  decode_format_a (seg_info seq last_seg rexmit seq_hi s_seq data ++ suf) mux
  = Some (Ok (if bool_decide (is_Some seq_hi) && negb last_seg && negb rexmit && (length data =? 0)%nat
              then Idle2 seq
              else Segmented seq (bool_decide (is_Some seq_hi)) last_seg rexmit seq_hi s_seq data)).
Proof.
  intros Hs Hd Hss Hh Hl Hroom. pose proof (decode_segmented_info seq last_seg rexmit seq_hi s_seq data suf Hs Hd Hss Hh Hl) as Hdec.
  unfold decode_format_a. rewrite decide_False by (rewrite length_app, length_seg_info; destruct seq_hi; lia).
  unfold seg_info in *. rewrite <- !app_assoc in *.
  set (t := fbits (seg_numbers seq_hi s_seq) ++ octet_bits data ++ suf) in *. clearbody t.
  rewrite is_idle2_seg by done.
  destruct (seg_header_fields seq (bool_decide (is_Some seq_hi)) last_seg rexmit (length data) t Hs Hl)
    as (-> & _ & -> & -> & -> & -> & _).
  rewrite !bind_some. cbn [Z.eqb andb]. rewrite Hdec, (wrap_small 8) by done. by destruct (_ && _ && _ && _).
Qed.

(** ** Control and NAK frames *)
Definition control_fields (seq : Z) (ct : Rlp3ControlType) (iv np : bool) : list (Z * nat) :=
  [(seq, 8%nat); (ctl_bits ct, 6%nat); (Z.b2z iv, 1%nat); (Z.b2z np, 1%nat)].
Definition control_cover3 (seq : Z) (ct : Rlp3ControlType) (iv np : bool) : list Z :=
  fbits (control_fields seq ct iv np).
Definition control_info (seq : Z) (ct : Rlp3ControlType) (iv np : bool) : list Z :=
  control_cover3 seq ct iv np ++ fcs_field (fcs16 (control_cover3 seq ct iv np)).

Lemma length_control_cover3 seq ct iv np : length (control_cover3 seq ct iv np) = 16%nat.
Proof. unfold control_cover3, fbits. cbn [control_fields fmap list_fmap mjoin list_join fst snd]. by field_lengths. Qed.

(** A frame whose CTL starts with '11' is dispatched on its six-bit CTL. *)
Lemma decode_ctl6 mux seq ct t :
  is_u8 seq → (2 ≤ length t)%nat →
  decode_format_a (to_bits 8 seq ++ to_bits 6 (ctl_bits ct) ++ t) mux
  = match ct with
    | Nak => decode_nak_frame (to_bits 8 seq ++ to_bits 6 (ctl_bits ct) ++ t)
    | _ => decode_sync_ack_frame (to_bits 8 seq ++ to_bits 6 (ctl_bits ct) ++ t) seq ct
    end.
Proof.
  intros Hs Ht. unfold decode_format_a. rewrite decide_False by (field_lengths; lia).
  assert (get_bits (to_bits 8 seq ++ to_bits 6 (ctl_bits ct) ++ t) 0 8 = Some seq) as -> by finish_field.
  assert (get_bits (to_bits 8 seq ++ to_bits 6 (ctl_bits ct) ++ t) 8 6 = Some (ctl_bits ct)) as ->.
  { skip_fields. rewrite get_bits_field by lia. by destruct ct. }
  assert (index (to_bits 8 seq ++ to_bits 6 (ctl_bits ct) ++ t) 8 = Some 1) as -> by (skip_fields; by destruct ct).
  assert (index (to_bits 8 seq ++ to_bits 6 (ctl_bits ct) ++ t) 9 = Some 1) as -> by (skip_fields; by destruct ct).
  assert (∃ v, index (to_bits 8 seq ++ to_bits 6 (ctl_bits ct) ++ t) 10 = Some v) as [v10 ->]
    by (apply index_in_range; field_lengths; lia).
  assert (∃ v, index (to_bits 8 seq ++ to_bits 6 (ctl_bits ct) ++ t) 11 = Some v) as [v11 ->]
    by (apply index_in_range; field_lengths; lia).
  rewrite !bind_some. cbn [Z.eqb Pos.eqb andb]. rewrite (wrap_small 8 seq), (wrap_small 8 (ctl_bits ct)) by (done || by destruct ct).
  by destruct ct.
Qed.

Lemma decode_control mux seq ct iv np suf :
  is_u8 seq → ct ≠ Nak → decode_format_a (control_info seq ct iv np ++ suf) mux = Some (Ok (Control seq ct iv np)).
Proof.
  intros Hs Hct. pose proof (length_control_cover3 seq ct iv np) as Hlen.
  assert (∃ t, control_info seq ct iv np ++ suf = to_bits 8 seq ++ to_bits 6 (ctl_bits ct) ++ t ∧ (2 ≤ length t)%nat) as (t & Et & Ht).
  { unfold control_info, control_cover3 at 1, fbits. cbn [control_fields fmap list_fmap mjoin list_join fst snd].
    rewrite <- !app_assoc. eexists. split; [done|]. field_lengths. lia. }
  rewrite Et, decode_ctl6, <- Et by done.
  transitivity (decode_sync_ack_frame (control_info seq ct iv np ++ suf) seq ct); [by destruct ct|].
  unfold decode_sync_ack_frame, control_info. rewrite <- app_assoc.
  rewrite slice_prefix, get_fcs16_field by (done || apply fcs16_bits_u16).
  assert (index (control_cover3 seq ct iv np ++ fcs_field (fcs16 (control_cover3 seq ct iv np)) ++ suf) 14 = Some (Z.b2z iv)) as ->.
  { rewrite index_app_l by lia. unfold control_cover3, fbits.
    cbn [control_fields fmap list_fmap mjoin list_join fst snd]. skip_fields. by destruct iv. }
  assert (index (control_cover3 seq ct iv np ++ fcs_field (fcs16 (control_cover3 seq ct iv np)) ++ suf) 15 = Some (Z.b2z np)) as ->.
  { rewrite index_app_l by lia. unfold control_cover3, fbits.
    cbn [control_fields fmap list_fmap mjoin list_join fst snd]. skip_fields. by destruct np. }
  rewrite !bind_some, decide_False by (intros H; by apply H). by destruct iv, np.
Qed.

Section entries.
Context {A : Type} (fields : A → list (Z * nat)) (read : list Z → nat → rust (result RlpError (A * nat))) (wf : A → Prop).
Hypothesis read_spec : ∀ e pre suf, wf e →
  read (pre ++ fbits (fields e) ++ suf) (length pre) = Some (Ok (e, (length pre + length (fbits (fields e)))%nat)).

Lemma read_entries_spec es : ∀ pre suf, Forall wf es →
  read_entries (read (pre ++ fbits (mjoin (fields <$> es)) ++ suf)) (length es) (length pre)
  = Some (Ok (es, (length pre + length (fbits (mjoin (fields <$> es))))%nat)).
Proof.
  induction es as [|e es IH]; intros pre suf Hwf; [by rewrite Nat.add_0_r|].
  inversion_clear Hwf. rewrite fmap_cons, mjoin_cons. cbn [length read_entries].
  rewrite fbits_app, <- app_assoc, read_spec by done. unfold try_bind. rewrite bind_some.
  rewrite app_assoc, <- length_app, IH by done. rewrite bind_some.
  do 2 f_equal. rewrite !length_app. f_equal. lia.
Qed.

Lemma read_counted_spec es pre suf :
  Forall wf es → (0 < length es ≤ 4)%nat →
  read_counted (pre ++ fbits ((nak_count es, 2%nat) :: mjoin (fields <$> es)) ++ suf) read (length pre)
  = Some (Ok (es, (length pre + length (fbits ((nak_count es, 2%nat) :: mjoin (fields <$> es))))%nat)).
Proof.
  intros Hwf Hn. unfold read_counted. rewrite fbits_cons, <- app_assoc. cbn [fst snd].
  assert (nak_count es = Z.of_nat (length es) - 1) as Hc.
  { unfold nak_count. change 3 with (Z.ones 2). rewrite Z.land_ones by lia. rewrite Z.mod_small by lia. lia. }
  rewrite try_get_field by (done || lia). unfold try_bind at 1. rewrite bind_some.
  rewrite Z.mod_small by (rewrite Hc; lia).
  replace (Z.to_nat (nak_count es) + 1)%nat with (length es) by lia.
  rewrite app_assoc. replace (length pre + 2)%nat with (length (pre ++ to_bits 2 (nak_count es))) by by field_lengths.
  rewrite read_entries_spec by done. do 2 f_equal. field_lengths. f_equal. lia.
Qed.
End entries.

Definition wf_gap (e : NakGapEntry) : Prop := is_u 12 (gap_first e) ∧ is_u 12 (gap_last e).
Definition wf_map (e : NakMapEntry) : Prop := is_u 12 (nak_map_seq e) ∧ is_u8 (nak_map e).
Definition wf_seg_range (e : NakSegRangeEntry) : Prop :=
  is_u 12 (sr_frame_seq e) ∧ is_u 12 (sr_first_s_seq e) ∧ is_u 12 (sr_last_s_seq e).
Definition wf_seg_len (e : NakSegLenEntry) : Prop :=
  is_u 12 (sl_frame_seq e) ∧ is_u 12 (sl_first_s_seq e) ∧ is_u8 (sl_length_s_seq e).

Lemma read_gap_spec e pre suf : wf_gap e →
  read_gap (pre ++ fbits (gap_fields e) ++ suf) (length pre)
  = Some (Ok (e, (length pre + length (fbits (gap_fields e)))%nat)).
Proof.
  intros [H1 H2]. destruct e as [a b]. cbn in H1, H2. unfold read_gap, fbits.
  cbn [gap_fields gap_first gap_last fmap list_fmap mjoin list_join fst snd]. rewrite app_nil_r, <- app_assoc.
  rewrite (try_get_field pre) by (done || lia). unfold try_bind at 1. rewrite bind_some.
  rewrite (app_assoc pre), try_get_field by (field_lengths; lia). unfold try_bind. rewrite bind_some.
  rewrite !wrap_field by (done || lia). do 3 f_equal. field_lengths. lia.
Qed.

Lemma read_map_spec e pre suf : wf_map e →
  read_map (pre ++ fbits (map_fields e) ++ suf) (length pre)
  = Some (Ok (e, (length pre + length (fbits (map_fields e)))%nat)).
Proof.
  intros [H1 H2]. destruct e as [a b]. cbn in H1, H2. unfold read_map, fbits.
  cbn [map_fields nak_map_seq nak_map fmap list_fmap mjoin list_join fst snd]. rewrite app_nil_r, <- app_assoc.
  rewrite (try_get_field pre) by (done || lia). unfold try_bind at 1. rewrite bind_some.
  rewrite (app_assoc pre), try_get_field by (field_lengths; lia). unfold try_bind. rewrite bind_some.
  rewrite !wrap_field by (done || lia). do 3 f_equal. field_lengths. lia.
Qed.

Lemma read_seg_range_spec e pre suf : wf_seg_range e →
  read_seg_range (pre ++ fbits (seg_range_fields e) ++ suf) (length pre)
  = Some (Ok (e, (length pre + length (fbits (seg_range_fields e)))%nat)).
Proof.
  intros (H1 & H2 & H3). destruct e as [a b c]. cbn in H1, H2, H3. unfold read_seg_range, fbits.
  cbn [seg_range_fields sr_frame_seq sr_first_s_seq sr_last_s_seq fmap list_fmap mjoin list_join fst snd].
  rewrite app_nil_r, <- !app_assoc.
  rewrite (try_get_field pre) by (done || lia). unfold try_bind at 1. rewrite bind_some.
  rewrite (app_assoc pre), try_get_field by (field_lengths; lia). unfold try_bind at 1. rewrite bind_some.
  rewrite (app_assoc (pre ++ _)), try_get_field by (field_lengths; lia). unfold try_bind. rewrite bind_some.
  rewrite !wrap_field by (done || lia). do 3 f_equal. field_lengths. lia.
Qed.

Lemma read_seg_len_spec e pre suf : wf_seg_len e →
  read_seg_len (pre ++ fbits (seg_len_fields e) ++ suf) (length pre)
  = Some (Ok (e, (length pre + length (fbits (seg_len_fields e)))%nat)).
Proof.
  intros (H1 & H2 & H3). destruct e as [a b c]. cbn in H1, H2, H3. unfold read_seg_len, fbits.
  cbn [seg_len_fields sl_frame_seq sl_first_s_seq sl_length_s_seq fmap list_fmap mjoin list_join fst snd].
  rewrite app_nil_r, <- !app_assoc.
  rewrite (try_get_field pre) by (done || lia). unfold try_bind at 1. rewrite bind_some.
  rewrite (app_assoc pre), try_get_field by (field_lengths; lia). unfold try_bind at 1. rewrite bind_some.
  rewrite (app_assoc (pre ++ _)), try_get_field by (field_lengths; lia). unfold try_bind. rewrite bind_some.
  rewrite !wrap_field by (done || lia). do 3 f_equal. field_lengths. lia.
Qed.

(** What a NAK frame can report: one to four entries. *)
Definition wf_payload (p : NakPayload) : Prop :=
  match p with
  | Gap es => Forall wf_gap es ∧ (0 < length es ≤ 4)%nat
  | Map es => Forall wf_map es ∧ (0 < length es ≤ 4)%nat
  | SegmentRange es => Forall wf_seg_range es ∧ (0 < length es ≤ 4)%nat
  | SegmentLength es => Forall wf_seg_len es ∧ (0 < length es ≤ 4)%nat
  end.

Lemma read_payload_spec p pre suf : wf_payload p →
  read_payload (pre ++ fbits (payload_fields p) ++ suf) (nak_type p) (length pre)
  = Some (Ok (p, (length pre + length (fbits (payload_fields p)))%nat)).
Proof.
  intros Hwf. unfold read_payload.
  destruct p as [es|es|es|es]; destruct Hwf as [Hwf Hn]; cbn [nak_type Z.eqb Pos.eqb payload_fields].
  - by rewrite (read_counted_spec gap_fields read_gap wf_gap) by (done || apply read_gap_spec).
  - by rewrite (read_counted_spec map_fields read_map wf_map) by (done || apply read_map_spec).
  - by rewrite (read_counted_spec seg_range_fields read_seg_range wf_seg_range) by (done || apply read_seg_range_spec).
  - by rewrite (read_counted_spec seg_len_fields read_seg_len wf_seg_len) by (done || apply read_seg_len_spec).
Qed.

(** The NAK as it is laid out: header, entries, padding to the octet, check sequence. *)
Definition nak_header (seq hi : Z) (p : NakPayload) : list (Z * nat) :=
  [(seq, 8%nat); (ctl_bits Nak, 6%nat); (nak_type p, 2%nat); (hi, 4%nat)].
Definition nak_body (seq hi : Z) (p : NakPayload) : list Z :=
  fbits (nak_header seq hi p) ++ fbits (payload_fields p).
Definition nak_cover (seq hi : Z) (p : NakPayload) : list Z :=
  let b := nak_body seq hi p in b ++ replicate (align_to_octet (length b) - length b) 0.
Definition nak_info (seq hi : Z) (p : NakPayload) : list Z :=
  nak_cover seq hi p ++ fcs_field (fcs16 (nak_cover seq hi p)).

(** The alignment, on the positions an information field has. *)
Lemma align_spec pos : (pos ≤ 300)%nat → align_to_octet pos = (8 * ((pos + 7) / 8))%nat.
Proof.
  intros H. assert (forallb (λ p, (align_to_octet p =? 8 * ((p + 7) / 8))%nat) (List.seq 0 301) = true) as Hall
    by (vm_compute; reflexivity).
  rewrite forallb_forall in Hall. apply Nat.eqb_eq, Hall, in_seq. lia.
Qed.

Lemma align_bounds pos : (pos ≤ 300)%nat → (pos ≤ align_to_octet pos < pos + 8)%nat.
Proof.
  intros H. rewrite align_spec by done. pose proof (Nat.div_mod (pos + 7) 8). pose proof (Nat.mod_upper_bound (pos + 7) 8). lia.
Qed.

Lemma length_nak_header seq hi p : length (fbits (nak_header seq hi p)) = 20%nat.
Proof. unfold fbits. cbn [nak_header fmap list_fmap mjoin list_join fst snd]. by field_lengths. Qed.

Lemma length_nak_info seq hi p : (length (nak_body seq hi p) ≤ 300)%nat →
  length (nak_cover seq hi p) = align_to_octet (length (nak_body seq hi p)) ∧
  length (nak_info seq hi p) = (align_to_octet (length (nak_body seq hi p)) + 16)%nat.
Proof.
  intros H. pose proof (align_bounds _ H). unfold nak_info.
  assert (length (nak_cover seq hi p) = align_to_octet (length (nak_body seq hi p))) as Hc
    by (unfold nak_cover; field_lengths; lia).
  rewrite length_app, length_fcs_field. lia.
Qed.

Lemma nak_header_fields seq hi p t :
  is_u8 seq → is_u 4 hi →
  let l := fbits (nak_header seq hi p) ++ t in
  get_bits l 0 8 = Some seq ∧ get_bits l 14 2 = Some (nak_type p) ∧ get_bits l 16 4 = Some hi.
Proof.
  intros Hs Hh l. subst l. unfold fbits. cbn [nak_header fmap list_fmap mjoin list_join fst snd].
  rewrite app_nil_r, <- !app_assoc. split_and!; skip_fields; try finish_field.
  rewrite get_bits_field by lia. by destruct p.
Qed.

Lemma decode_nak mux seq hi p suf :
  is_u8 seq → is_u 4 hi → wf_payload p → (length (nak_body seq hi p) ≤ 300)%nat →
  decode_format_a (nak_info seq hi p ++ suf) mux = Some (Ok (NakFrame seq hi p)).
Proof.
  intros Hs Hh Hp Hl. destruct (length_nak_info seq hi p Hl) as [Hc Hi]. pose proof (align_bounds _ Hl) as Ha.
  assert (∃ t, nak_info seq hi p ++ suf = to_bits 8 seq ++ to_bits 6 (ctl_bits Nak) ++ t ∧ (2 ≤ length t)%nat) as (t & Et & Ht).
  { unfold nak_info, nak_cover at 1, nak_body at 1, fbits at 1. cbn [nak_header fmap list_fmap mjoin list_join fst snd].
    rewrite <- !app_assoc. eexists. split; [done|]. field_lengths. lia. }
  rewrite Et, decode_ctl6, <- Et by done. clear t Et Ht. unfold decode_nak_frame.
  rewrite length_app, Hi. assert (20 ≤ length (nak_body seq hi p))%nat.
  { unfold nak_body. rewrite length_app, length_nak_header. lia. }
  rewrite decide_False by lia.
  assert (∃ t, nak_info seq hi p ++ suf = fbits (nak_header seq hi p) ++ fbits (payload_fields p) ++ t) as [t Et].
  { unfold nak_info, nak_cover at 1, nak_body at 1. rewrite <- !app_assoc. by eexists. }
  rewrite !Et. destruct (nak_header_fields seq hi p (fbits (payload_fields p) ++ t) Hs Hh) as (-> & -> & ->).
  rewrite !bind_some. rewrite <- (length_nak_header seq hi p) at 1.
  rewrite (wrap_small 8 (nak_type p)) by by destruct p.
  rewrite read_payload_spec by done. unfold try_bind. rewrite bind_some.
  rewrite <- length_app. change (fbits (nak_header seq hi p) ++ fbits (payload_fields p)) with (nak_body seq hi p).
  rewrite decide_False by lia. rewrite <- Et. unfold nak_info. rewrite <- app_assoc.
  rewrite slice_prefix, get_fcs16_field, !bind_some by (done || apply fcs16_bits_u16).
  rewrite decide_False by (intros H'; by apply H'). by rewrite !wrap_small by (done || by apply (is_u_mono 4)).
Qed.

(** ** What the encoders lay out *)
Lemma app_replicate_0 (l : list Z) a b : l ++ replicate a 0 ++ replicate b 0 = l ++ replicate (a + b) 0.
Proof. by rewrite replicate_add. Qed.

Lemma encode_control_spec seq ct iv np mux :
  encode (Control seq ct iv np) mux = Some (Ok (format_a (control_info seq ct iv np) mux)).
Proof.
  cbn [encode]. unfold encode_control. pose proof (length_control_cover3 seq ct iv np) as Hl.
  assert (168 ≤ info_bits mux)%nat by (destruct mux; cbn; lia).
  change ([(seq, 8%nat); _; _; _]) with (control_fields seq ct iv np).
  rewrite put_fields_zeros, bind_some by (change (fbits _) with (control_cover3 seq ct iv np); lia).
  change (fbits _) with (control_cover3 seq ct iv np).
  rewrite slice_prefix, bind_some by done. rewrite put_fcs16_zeros, bind_some by (done || lia).
  rewrite app_assoc. apply wrap_format_a_spec. unfold control_info. rewrite length_app, length_fcs_field. lia.
Qed.

Lemma encode_nak_spec seq hi p mux :
  (align_to_octet (length (nak_body seq hi p)) + 16 ≤ info_bits mux)%nat → (length (nak_body seq hi p) ≤ 300)%nat →
  encode (NakFrame seq hi p) mux = Some (Ok (format_a (nak_info seq hi p) mux)).
Proof.
  intros Hfit Hl. cbn [encode]. unfold encode_nak. pose proof (align_bounds _ Hl) as Ha.
  destruct (length_nak_info seq hi p Hl) as [Hc Hi].
  assert (length (nak_body seq hi p) = 20 + length (fbits (payload_fields p)))%nat as Hb
    by (unfold nak_body; by rewrite length_app, length_nak_header).
  change ([(seq, 8%nat); _; _; _]) with (nak_header seq hi p). pose proof (length_nak_header seq hi p).
  rewrite put_fields_zeros, bind_some by lia.
  rewrite put_fields_spec, bind_some by lia.
  rewrite <- length_app, app_assoc. change (fbits (nak_header seq hi p) ++ fbits (payload_fields p)) with (nak_body seq hi p).
  rewrite decide_False by lia.
  set (m := (info_bits mux - length (fbits (nak_header seq hi p)) - length (fbits (payload_fields p)))%nat).
  assert (nak_body seq hi p ++ replicate m 0
    = nak_cover seq hi p ++ replicate (info_bits mux - length (nak_cover seq hi p)) 0) as ->.
  { unfold nak_cover at 1. rewrite <- app_assoc, app_replicate_0. do 2 f_equal. unfold m. lia. }
  rewrite slice_prefix, bind_some by done. rewrite put_fcs16_zeros, bind_some by (done || lia).
  rewrite app_assoc. apply wrap_format_a_spec. lia.
Qed.

Lemma encode_data_spec seq rexmit data mux :
  (length data ≤ max_data_len mux)%nat →
  encode (Data seq rexmit data) mux = Some (Ok (format_a
    (fbits [(seq, 8%nat); (0, 1%nat); (Z.b2z rexmit, 1%nat); (Z.of_nat (length data), 6%nat)] ++ octet_bits data) mux)).
Proof.
  intros Hl. cbn [encode]. unfold encode_data_unsegmented. rewrite decide_False by lia.
  set (h := [(seq, 8%nat); _; _; _]).
  assert (length (fbits h) = 16%nat) as Hh
    by (unfold fbits, h; cbn [fmap list_fmap mjoin list_join fst snd]; by field_lengths).
  assert (16 + 8 * max_data_len mux ≤ info_bits mux)%nat by (destruct mux; cbn; lia).
  rewrite put_fields_zeros, bind_some by (rewrite fbits_app, fbits_octets, length_app, length_octet_bits; lia).
  rewrite fbits_app, fbits_octets. apply wrap_format_a_spec. rewrite length_app, length_octet_bits. lia.
Qed.

Lemma encode_seg_spec seq last_seg rexmit seq_hi s_seq data mux :
  (length (seg_info seq last_seg rexmit seq_hi s_seq data) ≤ info_bits mux)%nat → (length data < 32)%nat →
  encode (Segmented seq (bool_decide (is_Some seq_hi)) last_seg rexmit seq_hi s_seq data) mux
  = Some (Ok (format_a (seg_info seq last_seg rexmit seq_hi s_seq data) mux)).
Proof.
  intros Hl H32. cbn [encode]. unfold encode_segmented.
  assert (Z.land (Z.of_nat (length data)) 0x1F = Z.of_nat (length data)) as ->.
  { change 0x1F with (Z.ones 5). rewrite Z.land_ones by lia. apply Z.mod_small. lia. }
  change ([(seq, 8%nat); _; _; _; _; _]) with (seg_header seq (bool_decide (is_Some seq_hi)) last_seg rexmit (length data)).
  pose proof (length_seg_info seq last_seg rexmit seq_hi s_seq data) as Hlen.
  assert (length (fbits (seg_header seq (bool_decide (is_Some seq_hi)) last_seg rexmit (length data))) = 20%nat) as H20.
  { unfold fbits. cbn [seg_header fmap list_fmap mjoin list_join fst snd]. by field_lengths. }
  unfold seg_info in *. set (hd := seg_header _ _ _ _ _) in *. clearbody hd.
  rewrite put_fields_zeros, bind_some by (destruct mux; cbn; lia).
  destruct seq_hi as [h|]; cbn [default seg_numbers] in *.
  - rewrite bool_decide_eq_true_2 by done.
    rewrite put_fields_spec, bind_some by (cbn; rewrite ?length_app, ?length_to_bits; cbn; lia).
    rewrite app_assoc, put_fields_spec, bind_some by (cbn; rewrite ?length_app, ?length_to_bits; cbn; lia).
    cbn [fbits fmap list_fmap mjoin list_join fst snd app]. rewrite !app_nil_r, !length_to_bits.
    set (k := (info_bits mux - length (fbits hd) - 4 - 12)%nat).
    replace (replicate k 0) with (to_bits 4 0 ++ replicate (k - 4) 0).
    2:{ change (to_bits 4 0) with (replicate 4 0). rewrite <- replicate_add. f_equal. unfold k. lia. }
    rewrite !app_assoc, put_fields_spec, bind_some by (rewrite ?fbits_octets; field_lengths; rewrite ?length_octet_bits; lia).
    rewrite fbits_octets, !app_assoc.
    replace (fbits hd ++ (to_bits 4 h ++ to_bits 12 s_seq ++ to_bits 4 0) ++ octet_bits data)
      with ((((fbits hd ++ to_bits 4 h) ++ to_bits 12 s_seq) ++ to_bits 4 0) ++ octet_bits data) by by rewrite <- !app_assoc.
    apply wrap_format_a_spec. field_lengths. unfold k. lia.
  - rewrite bool_decide_eq_false_2 by (by intros [? ?]). rewrite bind_some.
    rewrite put_fields_spec, bind_some by (cbn; rewrite ?length_app, ?length_to_bits; cbn; lia).
    cbn [fbits fmap list_fmap mjoin list_join fst snd app]. rewrite !app_nil_r, !length_to_bits.
    rewrite app_assoc, put_fields_spec, bind_some by (rewrite ?fbits_octets; field_lengths; rewrite ?length_octet_bits; lia).
    rewrite fbits_octets, !app_assoc. apply wrap_format_a_spec. field_lengths. lia.
Qed.

Lemma encode_b_spec seq rexmit data mux :
  length data = format_b_data_len mux →
  encode (DataFormatB seq rexmit data) mux
  = Some (Ok (to_bits 8 seq ++ octet_bits data ++ to_bits (type_bits mux) (2 + Z.b2z rexmit))).
Proof.
  intros Hl. cbn [encode]. unfold encode_format_b. rewrite decide_False by auto.
  assert (frame_bits mux = 8 + 8 * length data + type_bits mux)%nat as Hf by (rewrite Hl; by destruct mux).
  assert (length (fbits ((seq, 8%nat) :: octet_fields data)) = 8 + 8 * length data)%nat as Hb
    by (rewrite fbits_cons, fbits_octets; field_lengths; cbn; lia).
  rewrite put_fields_zeros, bind_some by lia. rewrite put_bits_zeros, bind_some by lia.
  replace (_ - _ - _)%nat with 0%nat by lia. rewrite app_nil_r, fbits_cons, fbits_octets, <- app_assoc.
  by destruct mux, rexmit.
Qed.

Lemma decode_b_spec seq rexmit data mux :
  is_u8 seq → bytes data → length data = format_b_data_len mux →
  decode_rlp3_frame (to_bits 8 seq ++ octet_bits data ++ to_bits (type_bits mux) (2 + Z.b2z rexmit)) mux
  = Some (Ok (DataFormatB seq rexmit data)).
Proof.
  intros Hs Hd Hl. unfold decode_rlp3_frame.
  assert (frame_bits mux = 8 + 8 * length data + type_bits mux ∧ info_bits mux = 8 + 8 * length data)%nat
    as [Hf Hi] by (rewrite Hl; by destruct mux).
  rewrite decide_False by (field_lengths; lia).
  set (bits := to_bits 8 seq ++ octet_bits data ++ _).
  assert (get_bits bits (info_bits mux) (type_bits mux) = Some (2 + Z.b2z rexmit)) as ->.
  { unfold bits. rewrite app_assoc, <- (app_nil_r (to_bits (type_bits mux) _)).
    rewrite get_bits_spec, of_to_bits by (field_lengths; destruct mux; cbn in *; lia).
    f_equal. by destruct mux, rexmit. }
  assert (∀ r, decode_format_b bits mux r = Some (Ok (DataFormatB seq r data))) as Hdec.
  { intros r. unfold decode_format_b. assert (get_bits bits 0 8 = Some seq) as -> by (unfold bits; finish_field).
    rewrite bind_some. unfold get_octets. rewrite <- Hl. unfold bits.
    rewrite get_octets_field, bind_some, wrap_small by (field_lengths; done). done. }
  rewrite bind_some, !Hdec. by destruct rexmit.
Qed.

(** ** Round trip *)
Definition wf_frame3 (f : Rlp3Frame) : Prop :=
  match f with
  | Control seq ct _ _ => is_u8 seq ∧ ct ≠ Nak
  | NakFrame seq hi p => is_u8 seq ∧ is_u 4 hi ∧ wf_payload p
  | Data seq _ data | DataFormatB seq _ data => is_u8 seq ∧ bytes data
  | Segmented seq sqi _ _ seq_hi s_seq data =>
      is_u8 seq ∧ bytes data ∧ is_u 12 s_seq ∧ sqi = bool_decide (is_Some seq_hi) ∧ (∀ h, seq_hi = Some h → is_u 4 h)
  | Fill seq hi | Idle1 seq hi => is_u8 seq ∧ is_u 4 hi
  | Idle2 seq => is_u8 seq
  end.

Definition entry_bits (p : NakPayload) : nat :=
  match p with
  | Gap es => 24 * length es | Map es => 20 * length es
  | SegmentRange es => 36 * length es | SegmentLength es => 32 * length es
  end.

(** What a full-rate frame has room for. *)
Definition fits3 (f : Rlp3Frame) (mux : MuxOption) : bool :=
  match f with
  | NakFrame _ _ p => bool_decide (8 * ((22 + entry_bits p + 7) / 8) + 16 ≤ info_bits mux)%nat
  | Data _ _ data => bool_decide (length data ≤ max_data_len mux)%nat
  | Segmented _ sqi _ _ _ _ data =>
      bool_decide ((if sqi then 40 else 32) + 8 * length data ≤ info_bits mux ∧ length data < 32)%nat
  | DataFormatB _ _ data => bool_decide (length data = format_b_data_len mux)
  | _ => true
  end.

(** An empty first segment that is not the last is the Idle Format 2 pattern. *)
Definition canonical3 (f : Rlp3Frame) : Rlp3Frame :=
  match f with Segmented seq true false false _ _ [] => Idle2 seq | f => f end.

Lemma length_entries {A} (fields : A → list (Z * nat)) w (es : list A) :
  (∀ e, length (fbits (fields e)) = w) → length (fbits (mjoin (fields <$> es))) = (w * length es)%nat.
Proof.
  intros H. induction es as [|e es IH]; [cbn; lia|].
  rewrite fmap_cons, mjoin_cons, fbits_app, length_app, H, IH. cbn. lia.
Qed.

Lemma length_nak_body seq hi p : length (nak_body seq hi p) = (22 + entry_bits p)%nat.
Proof.
  unfold nak_body. rewrite length_app, length_nak_header.
  destruct p; cbn [payload_fields entry_bits]; rewrite fbits_cons, length_app, length_to_bits; cbn [snd].
  all: erewrite length_entries; [reflexivity|intros []; unfold fbits; cbn [gap_fields map_fields seg_range_fields
    seg_len_fields fmap list_fmap mjoin list_join fst snd]; by field_lengths].
Qed.

Lemma fill_info seq c hi :
  fbits [(seq, 8%nat); (c, 4%nat); (hi, 4%nat)] = to_bits 8 seq ++ to_bits 4 c ++ to_bits 4 hi.
Proof. unfold fbits. cbn [fmap list_fmap mjoin list_join fst snd]. by rewrite app_nil_r. Qed.

Lemma encode_fill_spec seq hi mux :
  encode (Fill seq hi) mux = Some (Ok (format_a (to_bits 8 seq ++ to_bits 4 0x9 ++ to_bits 4 hi) mux)) ∧
  encode (Idle1 seq hi) mux = Some (Ok (format_a (to_bits 8 seq ++ to_bits 4 0xA ++ to_bits 4 hi) mux)).
Proof.
  assert (168 ≤ info_bits mux)%nat by (destruct mux; cbn; lia).
  cbn [encode]. unfold encode_fill, encode_idle1.
  split; (rewrite put_fields_zeros, bind_some by (rewrite fill_info; field_lengths; lia)); rewrite fill_info;
    apply wrap_format_a_spec; field_lengths; lia.
Qed.

Lemma encode_idle2_spec seq mux :
  encode (Idle2 seq) mux = Some (Ok (format_a (seg_info seq false false (Some 0) 0 []) mux)).
Proof.
  rewrite <- encode_seg_spec by (rewrite ?length_seg_info; destruct mux; cbn; lia).
  cbn [encode]. unfold encode_idle2, encode_segmented. rewrite bool_decide_eq_true_2 by done.
  assert (168 ≤ info_bits mux)%nat by (destruct mux; cbn; lia).
  set (a := [(seq, 8%nat); (8, 4%nat); (1, 1%nat); (0, 1%nat); (0, 1%nat); (0, 5%nat)]).
  change ([(seq, 8%nat); (8, 4%nat); (1, 1%nat); (0, 1%nat); (0, 1%nat); (0, 5%nat); (0, 4%nat); (0, 12%nat)])
    with (a ++ [(0, 4%nat)] ++ [(0, 12%nat)]).
  change ([(seq, 8%nat); _; _; _; _; _]) with a.
  unfold put_fields at 1. rewrite !foldl_app. cbn [octet_fields fmap list_fmap].
  fold (put_fields (replicate (info_bits mux) 0, 0%nat) a).
  destruct (put_fields (replicate (info_bits mux) 0, 0%nat) a) as [[i1 p1]|]; [|done]. rewrite bind_some.
  change (default 0 (Some 0)) with 0.
  change (foldl _ (Some (i1, p1)) [(0, 4%nat)]) with (put_fields (i1, p1) [(0, 4%nat)]).
  destruct (put_fields (i1, p1) [(0, 4%nat)]) as [[i2 p2]|]; [|done]. rewrite bind_some.
  change (foldl _ (Some (i2, p2)) [(0, 12%nat)]) with (put_fields (i2, p2) [(0, 12%nat)]).
  destruct (put_fields (i2, p2) [(0, 12%nat)]) as [[i3 p3]|]; done.
Qed.

(** A frame carried in Format A: its information field, and what reading it gives. *)
Definition carried_in_a (f : Rlp3Frame) (mux : MuxOption) : Prop :=
  ∃ info, encode f mux = Some (Ok (format_a info mux)) ∧ (length info ≤ info_bits mux)%nat ∧
    ∀ k, (length info + k = info_bits mux)%nat →
      decode_format_a (info ++ replicate k 0) mux = Some (Ok (canonical3 f)).

Lemma carried_roundtrip f mux : carried_in_a f mux →
  ∃ bits, encode f mux = Some (Ok bits) ∧ length bits = frame_bits mux ∧
          decode_rlp3_frame bits mux = Some (Ok (canonical3 f)).
Proof.
  intros (info & He & Hl & Hd). eexists. split_and!; [exact He|by apply length_format_a|].
  rewrite decode_format_a_frame by done. apply Hd. lia.
Qed.

Lemma carried_nak seq hi p mux :
  wf_frame3 (NakFrame seq hi p) → fits3 (NakFrame seq hi p) mux = true → carried_in_a (NakFrame seq hi p) mux.
Proof.
  intros (Hs & Hh & Hp) Hf%bool_decide_eq_true. pose proof (length_nak_body seq hi p) as Hb.
  assert (length (nak_body seq hi p) ≤ 300)%nat as H3.
  { rewrite Hb. pose proof (Nat.div_mod (22 + entry_bits p + 7) 8). pose proof (Nat.mod_upper_bound (22 + entry_bits p + 7) 8).
    destruct mux; cbn [info_bits frame_bits type_bits Nat.sub] in Hf; lia. }
  rewrite <- Hb, <- align_spec in Hf by done. destruct (length_nak_info seq hi p H3) as [_ Hi].
  exists (nak_info seq hi p). split_and!; [by apply encode_nak_spec|lia|]. intros k Hk. by apply decode_nak.
Qed.

Lemma carried_seg seq sqi last_seg rexmit seq_hi s_seq data mux (f := Segmented seq sqi last_seg rexmit seq_hi s_seq data) :
  wf_frame3 f → fits3 f mux = true → carried_in_a f mux.
Proof.
  intros (Hs & Hd & Hss & -> & Hh) [Hl H32]%bool_decide_eq_true.
  pose proof (length_seg_info seq last_seg rexmit seq_hi s_seq data) as Hlen.
  assert (length (seg_info seq last_seg rexmit seq_hi s_seq data) ≤ info_bits mux)%nat as Hfit.
  { rewrite Hlen. destruct seq_hi; [rewrite bool_decide_eq_true_2 in Hl by done|rewrite bool_decide_eq_false_2 in Hl by (by intros [])]; lia. }
  exists (seg_info seq last_seg rexmit seq_hi s_seq data). split_and!; [by apply encode_seg_spec|done|].
  intros k Hk. rewrite decode_seg; [|done..|].
  - f_equal. f_equal. subst f. by destruct seq_hi as [h|], last_seg, rexmit, data.
  - unfold seg_info in Hk. rewrite !length_app in Hk |- *. rewrite length_replicate.
    assert (length (fbits (seg_header seq (bool_decide (is_Some seq_hi)) last_seg rexmit (length data))) = 20%nat).
    { unfold fbits. cbn [seg_header fmap list_fmap mjoin list_join fst snd]. by field_lengths. }
    assert (168 ≤ info_bits mux)%nat by (destruct mux; cbn; lia). lia.
Qed.

Lemma carried_data seq rexmit data mux :
  wf_frame3 (Data seq rexmit data) → fits3 (Data seq rexmit data) mux = true → carried_in_a (Data seq rexmit data) mux.
Proof.
  intros [Hs Hd] Hl%bool_decide_eq_true. eexists. split_and!; [by apply encode_data_spec| |].
  - rewrite length_app, length_octet_bits. unfold fbits. cbn [fmap list_fmap mjoin list_join fst snd]. field_lengths.
    destruct mux; cbn in *; lia.
  - intros k Hk. rewrite <- app_assoc. by apply decode_data.
Qed.

(** Every well-formed frame that fits survives encoding and decoding. *)
Lemma rlp3_roundtrip f mux : wf_frame3 f → fits3 f mux = true →
  ∃ bits, encode f mux = Some (Ok bits) ∧ length bits = frame_bits mux ∧
          decode_rlp3_frame bits mux = Some (Ok (canonical3 f)).
Proof.
  intros Hwf Hfit. assert (168 ≤ info_bits mux)%nat by (destruct mux; cbn; lia).
  destruct f as [seq ct iv np|seq hi p|seq r data|seq sqi l r h s data|seq r data|seq hi|seq hi|seq].
  - destruct Hwf. apply carried_roundtrip. exists (control_info seq ct iv np).
    split_and!; [apply encode_control_spec| |].
    + unfold control_info. rewrite length_app, length_control_cover3, length_fcs_field. lia.
    + intros k Hk. by apply decode_control.
  - by apply carried_roundtrip, carried_nak.
  - by apply carried_roundtrip, carried_data.
  - by apply carried_roundtrip, carried_seg.
  - destruct Hwf. apply bool_decide_eq_true in Hfit. eexists. split_and!; [by apply encode_b_spec| |by apply decode_b_spec].
    field_lengths. rewrite Hfit. by destruct mux.
  - destruct Hwf. apply carried_roundtrip. eexists. split_and!; [exact (proj1 (encode_fill_spec seq hi mux))|field_lengths; lia|].
    intros k Hk. rewrite <- !app_assoc. by eapply proj1, decode_fill_or_idle1.
  - destruct Hwf. apply carried_roundtrip. eexists. split_and!; [exact (proj2 (encode_fill_spec seq hi mux))|field_lengths; lia|].
    intros k Hk. rewrite <- !app_assoc. by eapply proj2, decode_fill_or_idle1.
  - apply carried_roundtrip. exists (seg_info seq false false (Some 0) 0 []).
    split_and!; [apply encode_idle2_spec|rewrite length_seg_info; cbn; lia|].
    intros k Hk. rewrite decode_seg; [done|done|apply Forall_nil_2|done|by intros h [= <-]|cbn; lia|].
    rewrite length_seg_info in Hk. rewrite !length_app, length_replicate. cbn in Hk |- *. lia.
Qed.

(** ** The decoders never panic, and return well-formed frames

    [safe P m]: [m] does not panic, and a value it returns satisfies [P]. *)
Definition safe {A} (P : A → Prop) (m : rust (result RlpError A)) : Prop :=
  match m with None => False | Some (Ok a) => P a | Some (Err _) => True end.

Lemma safe_try {A B} (Q : A → Prop) (P : B → Prop) m k :
  safe Q m → (∀ a, Q a → safe P (k a)) → safe P (try_bind m k).
Proof. destruct m as [[a|e]|]; cbn; auto. Qed.

Lemma safe_get_bits {A} (P : A → Prop) bits off n k :
  (n ≤ 31)%nat → (off + n ≤ length bits)%nat → (∀ v, is_u (Z.of_nat n) v → safe P (k v)) →
  safe P (get_bits bits off n ≫= k).
Proof.
  intros Hn Hr Hk. destruct (get_bits_in_range bits off n Hr) as [v E]. rewrite E, bind_some.
  apply Hk. by eapply get_bits_bound.
Qed.

Lemma safe_index {A} (P : A → Prop) (bits : list Z) off k :
  (off < length bits)%nat → (∀ v, safe P (k v)) → safe P (index bits off ≫= k).
Proof. intros Hr Hk. destruct (index_in_range bits off Hr) as [v ->]. by apply Hk. Qed.

Lemma safe_slice {A} (P : A → Prop) (bits : list Z) n k :
  (n ≤ length bits)%nat → (∀ l, length l = n → safe P (k l)) → safe P (slice bits 0 n ≫= k).
Proof. intros Hr Hk. rewrite slice_Some, bind_some by lia. apply Hk. rewrite length_take, length_drop. lia. Qed.

Lemma safe_fcs {A} (P : A → Prop) bits off k :
  (off + 16 ≤ length bits)%nat → (∀ v, safe P (k v)) → safe P (get_fcs16 bits off ≫= k).
Proof.
  intros Hr Hk. unfold get_fcs16. destruct (get_bits_in_range bits off 8) as [lo ->]; [lia|].
  destruct (get_bits_in_range bits (off + 8) 8) as [hi ->]; [lia|]. apply Hk.
Qed.

Lemma safe_octets {A} (P : A → Prop) bits off len k :
  (off + 8 * len ≤ length bits)%nat → (∀ d, bytes d → safe P (k d)) → safe P (get_octets bits off len ≫= k).
Proof.
  intros Hr Hk. destruct (get_octets_in_range bits off len Hr) as [d E]. rewrite E, bind_some. apply Hk.
  unfold get_octets in E. apply mapM_Some in E. apply Forall_forall. intros x Hx.
  apply list_elem_of_lookup in Hx as [i Hi]. destruct (Forall2_lookup_r _ _ _ _ _ E Hi) as (j & _ & Hj).
  destruct (get_bits bits (off + j * 8) 8); [|done]. injection Hj as <-. by apply is_u_wrap.
Qed.

Lemma safe_try_get bits off n : (n ≤ 31)%nat →
  safe (λ v, is_u (Z.of_nat n) v ∧ (off + n ≤ length bits)%nat) (try_get_bits bits off n).
Proof.
  intros Hn. unfold try_get_bits. case_decide; [done|]. apply safe_get_bits; [done|lia|]. intros v Hv. cbn. split; [done|lia].
Qed.

Lemma safe_get_data info : ∀ len pos, safe (λ d, bytes d ∧ length d = len ∧ (len = 0 ∨ pos + 8 * len ≤ length info)%nat) (get_data info pos len).
Proof.
  induction len as [|len IH]; intros pos; [split_and!; [apply Forall_nil_2|done|by left]|]. cbn [get_data].
  case_decide; [done|].
  apply safe_get_bits; [lia..|]. intros v Hv. eapply safe_try; [apply IH|]. intros d (Hd & Hl & Hp). cbn.
  split_and!; [|lia|lia]. apply Forall_cons_2; [by apply is_u_wrap|done].
Qed.

Lemma wrap_is_u n w v : is_u n v → n ≤ w → is_u n (wrap w v).
Proof. intros H Hw. rewrite wrap_small; [done|]. by eapply is_u_mono. Qed.

Ltac sstep :=
  match goal with
  | |- safe _ (get_bits _ _ _ ≫= _) => apply safe_get_bits; [lia|lia|intros ? ?]
  | |- safe _ (index _ _ ≫= _) => apply safe_index; [lia|intros ?]
  | |- safe _ (slice _ 0 _ ≫= _) => apply safe_slice; [lia|intros ? ?]
  | |- safe _ (get_fcs16 _ _ ≫= _) => apply safe_fcs; [lia|intros ?]
  | |- safe _ (try_bind (try_get_bits _ _ _) _) =>
      eapply safe_try; [apply safe_try_get; lia|intros ? [? ?]]
  | |- safe _ (if decide ?c then _ else _) => case_decide; [done|]
  | |- safe _ (Some (Err _)) => exact I
  end.

Lemma safe_entries {A} (wf : A → Prop) read : (∀ pos, safe (λ r, wf r.1) (read pos)) →
  ∀ count pos, safe (λ r, Forall wf r.1 ∧ length r.1 = count) (read_entries read count pos).
Proof.
  intros Hr. induction count as [|count IH]; intros pos; [split; [apply Forall_nil_2|done]|]. cbn [read_entries].
  eapply safe_try; [apply Hr|]. intros [e p] He. eapply safe_try; [apply IH|]. intros [es p'] [Hes Hl]. cbn in *. auto using Forall_cons_2.
Qed.

Lemma safe_counted {A} (wf : A → Prop) info read pos : (∀ pos, safe (λ r, wf r.1) (read info pos)) →
  safe (λ r, Forall wf r.1 ∧ (0 < length r.1 ≤ 4)%nat) (read_counted info read pos).
Proof.
  intros Hr. unfold read_counted. sstep.
  pose proof (safe_entries wf (read info) Hr (Z.to_nat a + 1) (pos + 2)) as Hs.
  destruct (read_entries _ _ _) as [[r|]|]; cbn in *; [|done..].
  destruct Hs as [? ->]. split; [done|]. unfold is_u in *. lia.
Qed.

Lemma safe_entry_reads info pos :
  safe (λ r, wf_gap r.1) (read_gap info pos) ∧ safe (λ r, wf_map r.1) (read_map info pos) ∧
  safe (λ r, wf_seg_range r.1) (read_seg_range info pos) ∧ safe (λ r, wf_seg_len r.1) (read_seg_len info pos).
Proof.
  split_and!; [unfold read_gap|unfold read_map|unfold read_seg_range|unfold read_seg_len]; repeat sstep;
    cbn; unfold wf_gap, wf_map, wf_seg_range, wf_seg_len; cbn; split_and!;
    first [by apply (wrap_is_u 12)|by apply is_u_wrap].
Qed.

Lemma safe_payload info ty pos : safe (λ r, wf_payload r.1) (read_payload info ty pos).
Proof.
  unfold read_payload. destruct (ty =? 0); [|destruct (ty =? 1); [|destruct (ty =? 2); [|destruct (ty =? 3); [|done]]]].
  1: eapply safe_try; [apply (safe_counted wf_gap); intros; apply safe_entry_reads|]; intros [] H; exact H.
  1: eapply safe_try; [apply (safe_counted wf_map); intros; apply safe_entry_reads|]; intros [] H; exact H.
  1: eapply safe_try; [apply (safe_counted wf_seg_range); intros; apply safe_entry_reads|]; intros [] H; exact H.
  1: eapply safe_try; [apply (safe_counted wf_seg_len); intros; apply safe_entry_reads|]; intros [] H; exact H.
Qed.

Lemma safe_nak_frame info : safe wf_frame3 (decode_nak_frame info).
Proof.
  unfold decode_nak_frame. do 4 sstep. eapply safe_try; [apply safe_payload|]. intros [p pos] Hp.
  sstep. do 2 sstep. sstep. cbn in *. split_and!; [by apply is_u_wrap|by apply (wrap_is_u 4)|done].
Qed.

Lemma safe_sync_ack info seq ct : (32 ≤ length info)%nat → is_u8 seq → ct ≠ Nak →
  safe wf_frame3 (decode_sync_ack_frame info seq ct).
Proof. intros Hl Hs Hct. unfold decode_sync_ack_frame. repeat sstep. by split. Qed.

Lemma safe_segmented info : (36 ≤ length info)%nat → safe wf_frame3 (decode_segmented_frame info).
Proof.
  intros Hl. unfold decode_segmented_frame. do 5 sstep. destruct (_ =? 1).
  - destruct (get_bits_in_range info 20 4) as [h Eh]; [lia|]. rewrite Eh. cbn [mbind option_bind].
    pose proof (get_bits_bound info 20 4 h ltac:(lia) ltac:(lia) Eh). sstep.
    eapply safe_try; [apply safe_get_data|]. intros d (Hd & _). cbn.
    split_and!; [by apply is_u_wrap|done|by apply (wrap_is_u 12)|done|intros ? [= <-]; by apply (wrap_is_u 4)].
  - rewrite bind_some. sstep. eapply safe_try; [apply safe_get_data|]. intros d (Hd & _). cbn.
    split_and!; [by apply is_u_wrap|done|by apply (wrap_is_u 12)|done|done].
Qed.

Lemma idle2_total info : ∃ b, is_idle2_info info = Some b.
Proof.
  unfold is_idle2_info. case_decide; [by eexists|].
  destruct (get_bits_in_range info 8 4) as [? ->]; [lia|]. destruct (index_in_range info 12) as [? ->]; [lia|].
  destruct (index_in_range info 13) as [? ->]; [lia|]. destruct (index_in_range info 14) as [? ->]; [lia|].
  destruct (get_bits_in_range info 15 5) as [? ->]; [lia|]. by eexists.
Qed.

Lemma safe_format_a info mux : (36 ≤ length info)%nat → safe wf_frame3 (decode_format_a info mux).
Proof.
  intros Hl. unfold decode_format_a. repeat sstep. destruct (_ =? 0).
  - do 2 sstep. eapply safe_try; [apply safe_get_data|]. intros d (Hd & _). split; [by apply is_u_wrap|done].
  - do 2 sstep. destruct (idle2_total info) as [b ->]. rewrite bind_some.
    destruct (_ && _ && _); [destruct b; [by apply is_u_wrap|by apply safe_segmented]|].
    destruct (_ && _ && _); [sstep; cbn; split; [by apply is_u_wrap|by apply (wrap_is_u 4)]|].
    destruct (_ && _ && _); [sstep; cbn; split; [by apply is_u_wrap|by apply (wrap_is_u 4)]|].
    sstep. destruct (from_ctl_bits _) as [[]|]; [..|done];
      first [apply safe_nak_frame|apply safe_sync_ack; [lia|by apply is_u_wrap|done]].
Qed.

Lemma safe_decode bits mux : safe wf_frame3 (decode_rlp3_frame bits mux).
Proof.
  unfold decode_rlp3_frame. sstep.
  assert (info_bits mux + type_bits mux ≤ length bits)%nat by (destruct mux; cbn in *; lia).
  assert (type_bits mux ≤ 31)%nat by (destruct mux; cbn; lia).
  assert (8 + 8 * format_b_data_len mux ≤ length bits)%nat by (destruct mux; cbn in *; lia).
  assert (36 ≤ info_bits mux)%nat by (destruct mux; cbn; lia).
  sstep. assert (∀ r, safe wf_frame3 (decode_format_b bits mux r)) as Hb.
  { intros r. unfold decode_format_b. sstep. apply safe_octets; [lia|]. intros d Hd. split; [by apply is_u_wrap|done]. }
  destruct (_ =? 1); [|by destruct (_ =? 2); [|destruct (_ =? 3)]]. sstep. apply safe_format_a. lia.
Qed.

(** *** Sub-rate frames *)
Definition safe_opt {A} (P : A → Prop) (m : rust (option A)) : Prop :=
  match m with None => False | Some (Some a) => P a | Some None => True end.

Lemma safe_or_else {A} (P : A → Prop) m k : safe_opt P m → safe_opt P k → safe_opt P (or_else m k).
Proof. destruct m as [[a|]|]; cbn; auto. Qed.

Lemma safe_sub_rate info : (40 ≤ length info)%nat →
  safe_opt wf_frame3 (sub_rate_fill_or_idle info) ∧ safe_opt wf_frame3 (sub_rate_idle2 info) ∧
  safe_opt wf_frame3 (sub_rate_data info) ∧ safe_opt wf_frame3 (sub_rate_segmented info) ∧
  safe_opt (safe wf_frame3 ∘ Some) (sub_rate_control info).
Proof.
  intros Hl. split_and!.
  - unfold sub_rate_fill_or_idle. rewrite decide_True by lia.
    destruct (get_bits_in_range info 8 4) as [c ->]; [lia|]. rewrite bind_some. destruct (_ || _); [|done].
    destruct (get_bits_in_range info 0 8) as [s ->]; [lia|]. rewrite bind_some.
    destruct (get_bits_in_range info 12 4) as [h E]; [lia|]. rewrite E, bind_some.
    apply get_bits_bound in E; [|lia..].
    destruct (_ =? 9); cbn; (split; [by apply is_u_wrap|by apply (wrap_is_u 4)]).
  - unfold sub_rate_idle2. rewrite decide_True by lia. destruct (idle2_total info) as [[] ->]; rewrite bind_some; [|done].
    destruct (get_bits_in_range info 0 8) as [s ->]; [lia|]. by apply is_u_wrap.
  - unfold sub_rate_data. rewrite decide_True by lia.
    destruct (index_in_range info 8) as [b8 ->]; [lia|]. rewrite bind_some. destruct (_ =? 0); [|done].
    destruct (index_in_range info 9) as [b9 ->]; [lia|].
    destruct (get_bits_in_range info 10 6) as [n ->]; [lia|]. rewrite !bind_some. case_decide as Hn; [|done].
    destruct (get_bits_in_range info 0 8) as [s ->]; [lia|]. rewrite bind_some.
    pose proof (safe_octets bytes info 16 (Z.to_nat n) (λ d, Some (Ok d)) ltac:(lia) ltac:(done)) as Hd.
    destruct (get_octets info 16 (Z.to_nat n)) as [d|]; [|done]. split; [by apply is_u_wrap|done].
  - unfold sub_rate_segmented. rewrite decide_True by lia.
    destruct (index_in_range info 8) as [b8 ->]; [lia|]. destruct (index_in_range info 9) as [b9 ->]; [lia|].
    destruct (index_in_range info 10) as [b10 ->]; [lia|]. destruct (index_in_range info 11) as [b11 ->]; [lia|].
    rewrite !bind_some. destruct (_ && _ && _ && _); [|done].
    pose proof (safe_segmented info ltac:(lia)) as Hs. by destruct (decode_segmented_frame info) as [[f|e]|].
  - unfold sub_rate_control. rewrite decide_True by lia.
    destruct (get_bits_in_range info 8 6) as [c ->]; [lia|]. rewrite bind_some.
    destruct (get_bits_in_range info 0 8) as [s ->]; [lia|].
    pose proof (safe_nak_frame info) as Hn.
    assert (∀ ct, ct ≠ Nak → safe wf_frame3 (decode_sync_ack_frame info (s as_u8) ct)) as Hc.
    { intros ct Hct. apply safe_sync_ack; [lia|by apply is_u_wrap|done]. }
    destruct (from_ctl_bits _) as [[]|]; [| | |case_decide; [|done]|done]; rewrite ?bind_some.
    1: specialize (Hc Sync ltac:(done)). 2: specialize (Hc Ack ltac:(done)). 3: specialize (Hc SyncAck ltac:(done)).
    1-3: destruct (decode_sync_ack_frame _ _ _) as [[]|]; done.
    destruct (decode_nak_frame info) as [[]|]; done.
Qed.

Lemma safe_sub_rate_decode bits n : (40 ≤ n)%nat → safe wf_frame3 (decode_sub_rate_frame bits n).
Proof.
  intros Hn. unfold decode_sub_rate_frame. sstep. sstep.
  destruct (safe_sub_rate l ltac:(lia)) as (H1 & H2 & H3 & H4 & H5).
  assert (safe_opt wf_frame3 (or_else (sub_rate_fill_or_idle l) (or_else (sub_rate_idle2 l)
          (or_else (sub_rate_data l) (sub_rate_segmented l))))) as Ho by auto using safe_or_else.
  destruct (or_else _ _) as [[f|]|]; [done| |done]. rewrite bind_some.
  destruct (sub_rate_control l) as [[r|]|]; done.
Qed.

(** ** RLP_BLOB *)
Definition wf_blob (b : RlpBlob) : Prop :=
  is_u8 (rtt b) ∧ is_u 3 (nak_rounds_fwd b) ∧ is_u 3 (nak_rounds_rev b) ∧
  length (naks_per_round_fwd b) = Z.to_nat (nak_rounds_fwd b) ∧ Forall (is_u 3) (naks_per_round_fwd b) ∧
  length (naks_per_round_rev b) = Z.to_nat (nak_rounds_rev b) ∧ Forall (is_u 3) (naks_per_round_rev b).

Definition round_bits (limits : list Z) : list Z := mjoin (to_bits 3 <$> limits).

Lemma length_round_bits limits : length (round_bits limits) = (3 * length limits)%nat.
Proof.
  unfold round_bits. induction limits as [|x l IH]; [done|].
  rewrite fmap_cons, mjoin_cons, length_app, IH, length_to_bits. cbn. lia.
Qed.

Lemma push_rounds_spec bits rounds limits :
  length limits = Z.to_nat rounds → push_rounds bits rounds limits = bits ++ round_bits limits.
Proof.
  intros Hl. unfold push_rounds. rewrite <- Hl.
  cut (∀ pre l bits, foldl (λ bits i, push_bits bits (default 0 ((pre ++ l) !! i)) 3) bits
         (List.seq (length pre) (length l)) = bits ++ round_bits l).
  { intros H. apply (H [] limits). }
  intros pre l. revert pre. induction l as [|x l IH]; intros pre bs; [cbn; by rewrite app_nil_r|].
  cbn [length List.seq foldl]. rewrite (list_lookup_middle pre l x) by done. cbn [default from_option id].
  replace (pre ++ x :: l) with ((pre ++ [x]) ++ l) by by rewrite <- app_assoc.
  replace (S (length pre)) with (length (pre ++ [x])) by (rewrite length_app; cbn; lia).
  rewrite IH. unfold push_bits, round_bits. by rewrite fmap_cons, mjoin_cons, <- app_assoc.
Qed.

Lemma read_rounds_spec limits : ∀ pre suf pos,
  Forall (is_u 3) limits → pos = length pre →
  read_rounds (pre ++ round_bits limits ++ suf) pos (length limits)
  = Some (limits, (pos + 3 * length limits)%nat).
Proof.
  induction limits as [|x l IH]; intros pre suf pos Hl ->; [cbn; by rewrite Nat.add_0_r|].
  inversion_clear Hl. cbn [read_rounds length]. unfold round_bits. rewrite fmap_cons, mjoin_cons, <- app_assoc.
  rewrite get_bits_spec, bind_some by (field_lengths; lia).
  rewrite app_assoc. fold (round_bits l). rewrite IH, bind_some by (field_lengths; done || lia).
  rewrite of_to_bits, wrap_field by (done || lia). do 2 f_equal. lia.
Qed.

Lemma blob_roundtrip_spec b suf : wf_blob b → blob_decode (blob_encode b ++ suf) = Some (Ok b).
Proof.
  destruct b as [rtt fwd rev nf nr]. intros (Hr & Hf & Hv & Lf & Wf & Lr & Wr). cbn in *.
  unfold blob_encode. cbn [Rlp3.rtt nak_rounds_fwd nak_rounds_rev naks_per_round_fwd naks_per_round_rev].
  rewrite !push_rounds_spec by done. unfold push_bits. cbn [app]. rewrite <- !app_assoc.
  unfold blob_decode. rewrite decide_False by (field_lengths; lia).
  set (t := round_bits nf ++ round_bits nr ++ suf).
  assert (get_bits (to_bits 3 1 ++ to_bits 8 rtt ++ to_bits 3 fwd ++ to_bits 3 rev ++ t) 0 3 = Some 1) as -> by finish_field.
  rewrite bind_some, decide_False by (intros H; by apply H).
  assert (get_bits (to_bits 3 1 ++ to_bits 8 rtt ++ to_bits 3 fwd ++ to_bits 3 rev ++ t) 3 8 = Some rtt) as -> by (skip_fields; finish_field).
  assert (get_bits (to_bits 3 1 ++ to_bits 8 rtt ++ to_bits 3 fwd ++ to_bits 3 rev ++ t) 11 3 = Some fwd) as -> by (skip_fields; finish_field).
  assert (get_bits (to_bits 3 1 ++ to_bits 8 rtt ++ to_bits 3 fwd ++ to_bits 3 rev ++ t) 14 3 = Some rev) as -> by (skip_fields; finish_field).
  rewrite !bind_some. rewrite decide_False by (unfold t; field_lengths; rewrite !length_round_bits; lia).
  unfold t. rewrite !(app_assoc _ _ (round_bits nf ++ _)), <- Lf, read_rounds_spec, bind_some by (field_lengths; done).
  rewrite (app_assoc _ (round_bits nf)), <- Lr, read_rounds_spec, bind_some by (field_lengths; rewrite ?length_round_bits; done || lia).
  by rewrite !wrap_small by (done || by apply (is_u_mono 3)).
Qed.

(** ** Supplemental frames fit their block *)
Lemma format_c_layout seq rexmit data block_bits n :
  supplemental_format_c_data_len block_bits = Some n → length data = n →
  encode_supplemental_format_c_block seq rexmit data block_bits
  = Some (Ok (to_bits 2 (2 + Z.b2z rexmit) ++ to_bits 8 seq ++ octet_bits data)).
Proof.
  intros Hn Hl. unfold encode_supplemental_format_c_block. rewrite Hn, decide_False by auto.
  assert (block_bits = 10 + 8 * length data)%nat as Hb.
  { unfold supplemental_format_c_data_len, SUPPLEMENTAL_FORMAT_C_DATA_LEN, SUPPLEMENTAL_FORMAT_C_DOUBLE_DATA_LEN in Hn.
    rewrite Hl. clear Hl. repeat case_decide; by simplify_eq. }
  set (fs := [_; _] ++ octet_fields data).
  assert (fbits fs = to_bits 2 (2 + Z.b2z rexmit) ++ to_bits 8 seq ++ octet_bits data) as Ef.
  { unfold fs. rewrite fbits_app, fbits_octets. unfold fbits. cbn [fmap list_fmap mjoin list_join fst snd].
    rewrite app_nil_r, <- !app_assoc. by destruct rexmit. }
  rewrite put_fields_zeros, bind_some by (rewrite Ef; field_lengths; lia).
  rewrite Ef. field_lengths. replace (_ - _)%nat with 0%nat by lia. cbn [replicate]. by rewrite app_nil_r.
Qed.

(** *** More entries than the count field can say *)
Definition gaps (n : nat) : list NakGapEntry := (λ i, mkGap (2 * Z.of_nat i) (2 * Z.of_nat i)) <$> List.seq 0 n.

(** What the receiver makes of an encoded frame: the decoder's answer, or nothing when the
    encoder reports an error or panics. *)
Definition heard (f : Rlp3Frame) (mux : MuxOption) : option (option (result RlpError Rlp3Frame)) :=
  r ← encode f mux; match r with Ok bits => Some (decode_rlp3_frame bits mux) | Err _ => Some None end.

Lemma nak_five : heard (NakFrame 0 0 (Gap (gaps 5))) Odd = Some (Some (Err (FcsInvalid 48376 32768))).
Proof. vm_compute. reflexivity. Qed.
Lemma nak_six : heard (NakFrame 0 0 (Gap (gaps 6))) Odd = Some None.
Proof. vm_compute. reflexivity. Qed.
Lemma nak_seven : heard (NakFrame 0 0 (Gap (gaps 7))) Odd = None.
Proof. vm_compute. reflexivity. Qed.

Lemma elem_of_mjoin_fmap {A B} (f : A → list B) l x : x ∈ mjoin (f <$> l) ↔ ∃ a, a ∈ l ∧ x ∈ f a.
Proof.
  rewrite list_elem_of_join. setoid_rewrite list_elem_of_fmap. naive_solver.
Qed.

(** ** What panics the encoder *)
Lemma put_loop_length (bits : list Z) off (f : nat → Z) js : ∀ acc : rust (list Z), (∀ b, acc = Some b → length b = length bits) → ∀ b,
  foldl (λ acc i, bs ← acc; set_index bs (off + i) (f i)) acc js = Some b → length b = length bits.
Proof.
  induction js as [|j js IH]; intros acc Ha b Hb; [by apply Ha|]. cbn [foldl] in Hb. eapply IH; [|exact Hb].
  intros c Hc. destruct acc as [a|]; [|done]. rewrite bind_some in Hc. unfold set_index in Hc.
  case_decide; [|done]. injection Hc as <-. rewrite length_insert. by apply Ha.
Qed.

Lemma put_bits_out_of_range bits off v n : (length bits < off + S n)%nat → put_bits bits off v (S n) = None.
Proof.
  intros H. unfold put_bits. rewrite seq_S, foldl_app. cbn [foldl].
  destruct (foldl _ _ (List.seq 0 n)) as [b|] eqn:E; [|done]. rewrite bind_some.
  assert (length b = length bits) as Hb by (eapply put_loop_length; [|exact E]; by intros ? [= ->]).
  unfold set_index. rewrite decide_False by (rewrite Hb; lia). done.
Qed.

Lemma put_fields_overflow fields : ∀ pre m pos,
  pos = length pre → Forall (λ f, (0 < f.2)%nat) fields → (m < length (fbits fields))%nat →
  put_fields (pre ++ replicate m 0, pos) fields = None.
Proof.
  induction fields as [|[v [|n]] fields IH]; intros pre m pos -> Hp Hm; [cbn in Hm; lia|inversion Hp; cbn in *; lia|].
  inversion_clear Hp. rewrite fbits_cons, length_app, length_to_bits in Hm. cbn [snd] in Hm.
  unfold put_fields. cbn [foldl]. rewrite bind_some. cbn [fst snd].
  destruct (decide (m < S n)%nat).
  - rewrite put_bits_out_of_range by (rewrite length_app, length_replicate; lia). cbn [mbind option_bind].
    clear. induction fields; done.
  - rewrite put_bits_zeros, bind_some by lia.
    change (foldl _ _ fields) with (put_fields ((pre ++ to_bits (S n) v) ++ replicate (m - S n) 0, (length pre + S n)%nat) fields).
    apply IH; [by rewrite length_app, length_to_bits|done|lia].
Qed.

Definition nak_too_long (mux : MuxOption) (f : Rlp3Frame) : Prop :=
  match f with NakFrame _ _ (Gap es) => (info_bits mux < 22 + 24 * length es)%nat | _ => False end.

#[export] Instance nak_too_long_dec mux f : Decision (nak_too_long mux f).
Proof. destruct f as [| ? ? [] | | | | | |]; cbn; apply _. Defined.

Lemma payload_widths p : Forall (λ f : Z * nat, (0 < f.2)%nat) (payload_fields p).
Proof.
  destruct p as [es|es|es|es]; cbn [payload_fields]; (apply Forall_cons_2; [cbn; lia|]);
    apply Forall_forall; intros x (e & _ & Hx)%elem_of_mjoin_fmap;
    repeat (apply elem_of_cons in Hx as [->|Hx]; [cbn; lia|]); by apply elem_of_nil in Hx.
Qed.

Lemma encode_nak_none seq hi p mux :
  (info_bits mux < 22 + entry_bits p)%nat → encode (NakFrame seq hi p) mux = None.
Proof.
  intros H. cbn [encode]. unfold encode_nak.
  change ([(seq, 8%nat); _; _; _]) with (nak_header seq hi p). pose proof (length_nak_header seq hi p) as Hh.
  pose proof (length_nak_body seq hi p) as Hb. unfold nak_body in Hb. rewrite length_app in Hb.
  rewrite put_fields_zeros, bind_some by (rewrite Hh; destruct mux; cbn; lia).
  by rewrite put_fields_overflow by (apply payload_widths || lia).
Qed.

Lemma encode_nak_some seq hi p mux :
  (22 + entry_bits p ≤ info_bits mux)%nat → ∃ r, encode (NakFrame seq hi p) mux = Some r.
Proof.
  intros H. cbn [encode]. unfold encode_nak.
  change ([(seq, 8%nat); _; _; _]) with (nak_header seq hi p). pose proof (length_nak_header seq hi p) as Hh.
  pose proof (length_nak_body seq hi p) as Hb. unfold nak_body in Hb. rewrite length_app in Hb.
  rewrite put_fields_zeros, bind_some by lia. rewrite put_fields_spec, bind_some by lia.
  rewrite <- length_app, app_assoc. set (body := fbits _ ++ fbits _).
  assert (length body = length (fbits (nak_header seq hi p)) + length (fbits (payload_fields p)))%nat as Hbody by apply length_app.
  case_decide as Hfit; [by eexists|].
  assert (length body ≤ 300)%nat as H3 by (destruct mux; cbn in H; lia).
  pose proof (align_bounds _ H3).
  set (m := (info_bits mux - _ - _)%nat). assert (length body + m = info_bits mux)%nat as Hm by (unfold m; lia).
  assert (body ++ replicate m 0 = (body ++ replicate (align_to_octet (length body) - length body) 0)
    ++ replicate (info_bits mux - align_to_octet (length body)) 0) as ->.
  { rewrite <- app_assoc, <- replicate_add. do 2 f_equal. lia. }
  rewrite slice_prefix, bind_some by (rewrite length_app, length_replicate; lia).
  rewrite put_fcs16_zeros, bind_some by (rewrite ?length_app, ?length_replicate; lia).
  rewrite app_assoc, wrap_format_a_spec; [by eexists|].
  rewrite !length_app, length_fcs_field, length_replicate. lia.
Qed.


Lemma encode_nak_unfit seq hi p mux bits :
  fits3 (NakFrame seq hi p) mux = false → encode (NakFrame seq hi p) mux ≠ Some (Ok bits).
Proof.
  intros Hf%bool_decide_eq_false. destruct (decide (info_bits mux < 22 + entry_bits p)%nat) as [H|H].
  { by rewrite encode_nak_none. }
  pose proof (length_nak_header seq hi p) as Hh. pose proof (length_nak_body seq hi p) as Hb.
  assert (length (nak_body seq hi p) ≤ 300)%nat as H3 by (destruct mux; cbn in H; lia).
  rewrite <- Hb, <- align_spec in Hf by done. unfold nak_body in Hb, Hf. rewrite length_app in Hb, Hf.
  cbn [encode]. unfold encode_nak. change ([(seq, 8%nat); _; _; _]) with (nak_header seq hi p).
  rewrite put_fields_zeros, bind_some by lia. rewrite put_fields_spec, bind_some by lia.
  rewrite decide_True by lia. done.
Qed.

Lemma encode_seg_unfit seq l r h s_seq data mux bits (f := Segmented seq (bool_decide (is_Some h)) l r h s_seq data) :
  fits3 f mux = false → encode f mux ≠ Some (Ok bits).
Proof.
  subst f. intros Hf%bool_decide_eq_false. cbn [encode]. unfold encode_segmented.
  set (hd := [(seq, 8%nat); _; _; _; _; _]). assert (length (fbits hd) = 20%nat) as H20.
  { subst hd. unfold fbits. cbn [fmap list_fmap mjoin list_join fst snd]. by field_lengths. }
  clearbody hd. assert (168 ≤ info_bits mux ≤ 264)%nat as Hi by (destruct mux; cbn; lia).
  assert (∀ pre m pos, pos = length pre → (length pre + m = info_bits mux)%nat → (length pre ≤ 40)%nat → (m < 8 * length data)%nat →
    put_fields (pre ++ replicate m 0, pos) (octet_fields data) = None) as Hover.
  { intros pre m pos -> Hm Hp Hd. apply put_fields_overflow; [done| |by rewrite fbits_octets, length_octet_bits; lia].
    unfold octet_fields. apply Forall_fmap, Forall_true. intros x. cbn. lia. }
  rewrite put_fields_zeros, bind_some by lia. destruct h as [h|]; cbn [default from_option id] in *.
  - rewrite bool_decide_eq_true_2 in * by done.
    rewrite put_fields_spec, bind_some by (cbn; rewrite ?length_app, ?length_to_bits; cbn; lia).
    rewrite app_assoc, put_fields_spec, bind_some by (cbn; rewrite ?length_app, ?length_to_bits; cbn; lia).
    cbn [fbits fmap list_fmap mjoin list_join fst snd app]. rewrite !app_nil_r, !length_to_bits.
    set (k := (info_bits mux - length (fbits hd) - 4 - 12)%nat).
    replace (replicate k 0) with (to_bits 4 0 ++ replicate (k - 4) 0).
    2:{ change (to_bits 4 0) with (replicate 4 0). rewrite <- replicate_add. f_equal. unfold k. lia. }
    rewrite !app_assoc, Hover; [done|..]; rewrite ?length_app, ?length_to_bits; unfold k; lia.
  - rewrite bool_decide_eq_false_2 in * by (by intros []). rewrite bind_some.
    rewrite put_fields_spec, bind_some by (cbn; rewrite ?length_app, ?length_to_bits; cbn; lia).
    cbn [fbits fmap list_fmap mjoin list_join fst snd app]. rewrite !app_nil_r, !length_to_bits.
    rewrite !app_assoc, Hover; [done|..]; rewrite ?length_app, ?length_to_bits; lia.
Qed.

(** A frame that does not fit is refused or panics the encoder: it is never cut short. *)
Lemma encode_unfit f mux bits : wf_frame3 f → fits3 f mux = false → encode f mux ≠ Some (Ok bits).
Proof.
  intros Hwf Hf. destruct f as [seq ct iv np|seq hi p|seq r data|seq sqi l r h s data|seq r data|seq hi|seq hi|seq]; try done.
  - by apply encode_nak_unfit.
  - apply bool_decide_eq_false in Hf. cbn [encode]. unfold encode_data_unsegmented. rewrite decide_True by lia. done.
  - destruct Hwf as (_ & _ & _ & -> & _). by apply encode_seg_unfit.
  - apply bool_decide_eq_false in Hf. cbn [encode]. unfold encode_format_b. by rewrite decide_True.
Qed.

(** ** The codec *)



(** Whatever bits arrive, at any rate, the full-rate and the sub-rate decoder return (never index out of range),
    and a frame they accept has every field in the range of its Rust type and of its field. *)
Theorem rlp3_decoders_typed bits mux n : (40 ≤ n)%nat →
  (∃ r, decode_rlp3_frame bits mux = Some r ∧ ∀ f, r = Ok f → wf_frame3 f) ∧
  (∃ r, decode_sub_rate_frame bits n = Some r ∧ ∀ f, r = Ok f → wf_frame3 f).
Proof.
  intros Hn. pose proof (safe_decode bits mux) as H1. pose proof (safe_sub_rate_decode bits n Hn) as H2.
  destruct (decode_rlp3_frame bits mux) as [r1|], (decode_sub_rate_frame bits n) as [r2|]; try done.
  split; eexists; (split; [done|]); by intros f ->.
Qed.

Lemma rlp3_decoders_typed_witness :
  ∃ r, decode_sub_rate_frame (replicate 40 1) 40 = Some r ∧ ∀ f, r = Ok f → wf_frame3 f.
Proof. apply (rlp3_decoders_typed (replicate 40 1) Odd 40); lia. Defined.
