(* ===== verification/Rlp3Session.v ===== *)
(** * RLP Type 3 session ([cdma-packet/src/lib/rlp3_session.rs])

    The base station's side of an SO 33 packet data link: the SYNC exchange, the sender with
    its retransmission queue on the fundamental and the supplemental channel, the resequencing
    receiver with its timed NAK rounds, and the reassembly of segmented frames.

    The two vectors of 4096 slots are finite maps (an absent key is a [None] slot) behind
    [slot], which panics on an index past the vector.  Sequence numbers are 16-bit in the code;
    the invariant of [Rlp3SessionProofs] keeps them below 4096, so that no sum overflows and
    none is wrapped here.  The counters of frames are unbounded where the code has 32 bits: they
    count frames of 20 ms.  Every loop has fuel for the 4096 sequence numbers. *)
From S2P Require Import Prelude BitString Rlp Rlp3Frames.
Import Rlp3.

Module Session3.

Record Rlp3Config := mkRlp3Config {
  mux_option : MuxOption;
  cfg_nak_rounds_fwd : Z;
  cfg_nak_rounds_rev : Z;
  nak_per_round : list Z;
  cfg_rlp_delay : Z;
  rexmit_timer_ms : Z
}.
Definition default_config : Rlp3Config := mkRlp3Config Odd 3 3 [1; 2; 3] 0 (5 * 20).

(** The states are prefixed beside the control types [Sync], [SyncAck], [Ack]. *)
Inductive Rlp3State := Uninitialized | StSync | StSyncAck | StAck | DataTransfer.
#[export] Instance Rlp3State_eq_dec : EqDecision Rlp3State.
Proof. solve_decision. Defined.

Inductive RlpEvent :=
| StateChanged (s : Rlp3State)
| DataDelivered (data : list Z)
| SendNak (first last : Z)
| NakAbandoned (first last : Z).

Record NakEntry := mkNakEntry { nk_l_seq : Z; round_counter : Z; rexmit_timer : Z }.
Record RexmitEntry := mkRexmitEntry { rx_l_seq : Z; rx_data : list Z; segment_offset : nat; next_s_seq : Z }.
Record SegmentReassembly := mkSegmentReassembly {
  seq_8 : Z;
  last_seg_seen : bool;
  max_s_seq : Z;
  final_s_seq : Z;
  segments : list (option (list Z));
  sr_rexmit : bool
}.

Record Rlp3Session := mkRlp3Session {
  config : Rlp3Config;
  state : Rlp3State;
  l_v_s : Z;
  l_v_r : Z;
  l_v_n : Z;
  l_v_n_peer : Z;
  round_trip_counter : Z;
  handshake_frames_sent : Z;
  rlp_delay : Z;
  tx_queue : list Z;
  rx_buffer : list Z;
  reseq_buffer : gmap Z (list Z);
  nak_list : list NakEntry;
  rexmit_queue : list RexmitEntry;
  sent_buffer : gmap Z (list Z);
  idle_timer : Z;
  idle_interval : Z;
  pending_controls : list Rlp3Frame;
  seg_reassembly : option SegmentReassembly
}.

(** Field updates ([self.field = x]). *)
Definition set_state (x : Rlp3State) (s : Rlp3Session) : Rlp3Session :=
  mkRlp3Session (config s) x (l_v_s s) (l_v_r s) (l_v_n s) (l_v_n_peer s) (round_trip_counter s)
    (handshake_frames_sent s) (rlp_delay s) (tx_queue s) (rx_buffer s) (reseq_buffer s) (nak_list s) (rexmit_queue
    s) (sent_buffer s) (idle_timer s) (idle_interval s) (pending_controls s) (seg_reassembly s).
Definition set_l_v_s (x : Z) (s : Rlp3Session) : Rlp3Session :=
  mkRlp3Session (config s) (state s) x (l_v_r s) (l_v_n s) (l_v_n_peer s) (round_trip_counter s)
    (handshake_frames_sent s) (rlp_delay s) (tx_queue s) (rx_buffer s) (reseq_buffer s) (nak_list s) (rexmit_queue
    s) (sent_buffer s) (idle_timer s) (idle_interval s) (pending_controls s) (seg_reassembly s).
Definition set_l_v_r (x : Z) (s : Rlp3Session) : Rlp3Session :=
  mkRlp3Session (config s) (state s) (l_v_s s) x (l_v_n s) (l_v_n_peer s) (round_trip_counter s)
    (handshake_frames_sent s) (rlp_delay s) (tx_queue s) (rx_buffer s) (reseq_buffer s) (nak_list s) (rexmit_queue
    s) (sent_buffer s) (idle_timer s) (idle_interval s) (pending_controls s) (seg_reassembly s).
Definition set_l_v_n (x : Z) (s : Rlp3Session) : Rlp3Session :=
  mkRlp3Session (config s) (state s) (l_v_s s) (l_v_r s) x (l_v_n_peer s) (round_trip_counter s)
    (handshake_frames_sent s) (rlp_delay s) (tx_queue s) (rx_buffer s) (reseq_buffer s) (nak_list s) (rexmit_queue
    s) (sent_buffer s) (idle_timer s) (idle_interval s) (pending_controls s) (seg_reassembly s).
Definition set_l_v_n_peer (x : Z) (s : Rlp3Session) : Rlp3Session :=
  mkRlp3Session (config s) (state s) (l_v_s s) (l_v_r s) (l_v_n s) x (round_trip_counter s)
    (handshake_frames_sent s) (rlp_delay s) (tx_queue s) (rx_buffer s) (reseq_buffer s) (nak_list s) (rexmit_queue
    s) (sent_buffer s) (idle_timer s) (idle_interval s) (pending_controls s) (seg_reassembly s).
Definition set_round_trip_counter (x : Z) (s : Rlp3Session) : Rlp3Session :=
  mkRlp3Session (config s) (state s) (l_v_s s) (l_v_r s) (l_v_n s) (l_v_n_peer s) x (handshake_frames_sent s)
    (rlp_delay s) (tx_queue s) (rx_buffer s) (reseq_buffer s) (nak_list s) (rexmit_queue s) (sent_buffer s)
    (idle_timer s) (idle_interval s) (pending_controls s) (seg_reassembly s).
Definition set_handshake_frames_sent (x : Z) (s : Rlp3Session) : Rlp3Session :=
  mkRlp3Session (config s) (state s) (l_v_s s) (l_v_r s) (l_v_n s) (l_v_n_peer s) (round_trip_counter s) x
    (rlp_delay s) (tx_queue s) (rx_buffer s) (reseq_buffer s) (nak_list s) (rexmit_queue s) (sent_buffer s)
    (idle_timer s) (idle_interval s) (pending_controls s) (seg_reassembly s).
Definition set_rlp_delay (x : Z) (s : Rlp3Session) : Rlp3Session :=
  mkRlp3Session (config s) (state s) (l_v_s s) (l_v_r s) (l_v_n s) (l_v_n_peer s) (round_trip_counter s)
    (handshake_frames_sent s) x (tx_queue s) (rx_buffer s) (reseq_buffer s) (nak_list s) (rexmit_queue s)
    (sent_buffer s) (idle_timer s) (idle_interval s) (pending_controls s) (seg_reassembly s).
Definition set_tx_queue (x : list Z) (s : Rlp3Session) : Rlp3Session :=
  mkRlp3Session (config s) (state s) (l_v_s s) (l_v_r s) (l_v_n s) (l_v_n_peer s) (round_trip_counter s)
    (handshake_frames_sent s) (rlp_delay s) x (rx_buffer s) (reseq_buffer s) (nak_list s) (rexmit_queue s)
    (sent_buffer s) (idle_timer s) (idle_interval s) (pending_controls s) (seg_reassembly s).
Definition set_rx_buffer (x : list Z) (s : Rlp3Session) : Rlp3Session :=
  mkRlp3Session (config s) (state s) (l_v_s s) (l_v_r s) (l_v_n s) (l_v_n_peer s) (round_trip_counter s)
    (handshake_frames_sent s) (rlp_delay s) (tx_queue s) x (reseq_buffer s) (nak_list s) (rexmit_queue s)
    (sent_buffer s) (idle_timer s) (idle_interval s) (pending_controls s) (seg_reassembly s).
Definition set_reseq_buffer (x : gmap Z (list Z)) (s : Rlp3Session) : Rlp3Session :=
  mkRlp3Session (config s) (state s) (l_v_s s) (l_v_r s) (l_v_n s) (l_v_n_peer s) (round_trip_counter s)
    (handshake_frames_sent s) (rlp_delay s) (tx_queue s) (rx_buffer s) x (nak_list s) (rexmit_queue s)
    (sent_buffer s) (idle_timer s) (idle_interval s) (pending_controls s) (seg_reassembly s).
Definition set_nak_list (x : list NakEntry) (s : Rlp3Session) : Rlp3Session :=
  mkRlp3Session (config s) (state s) (l_v_s s) (l_v_r s) (l_v_n s) (l_v_n_peer s) (round_trip_counter s)
    (handshake_frames_sent s) (rlp_delay s) (tx_queue s) (rx_buffer s) (reseq_buffer s) x (rexmit_queue s)
    (sent_buffer s) (idle_timer s) (idle_interval s) (pending_controls s) (seg_reassembly s).
Definition set_rexmit_queue (x : list RexmitEntry) (s : Rlp3Session) : Rlp3Session :=
  mkRlp3Session (config s) (state s) (l_v_s s) (l_v_r s) (l_v_n s) (l_v_n_peer s) (round_trip_counter s)
    (handshake_frames_sent s) (rlp_delay s) (tx_queue s) (rx_buffer s) (reseq_buffer s) (nak_list s) x
    (sent_buffer s) (idle_timer s) (idle_interval s) (pending_controls s) (seg_reassembly s).
Definition set_sent_buffer (x : gmap Z (list Z)) (s : Rlp3Session) : Rlp3Session :=
  mkRlp3Session (config s) (state s) (l_v_s s) (l_v_r s) (l_v_n s) (l_v_n_peer s) (round_trip_counter s)
    (handshake_frames_sent s) (rlp_delay s) (tx_queue s) (rx_buffer s) (reseq_buffer s) (nak_list s) (rexmit_queue
    s) x (idle_timer s) (idle_interval s) (pending_controls s) (seg_reassembly s).
Definition set_idle_timer (x : Z) (s : Rlp3Session) : Rlp3Session :=
  mkRlp3Session (config s) (state s) (l_v_s s) (l_v_r s) (l_v_n s) (l_v_n_peer s) (round_trip_counter s)
    (handshake_frames_sent s) (rlp_delay s) (tx_queue s) (rx_buffer s) (reseq_buffer s) (nak_list s) (rexmit_queue
    s) (sent_buffer s) x (idle_interval s) (pending_controls s) (seg_reassembly s).
Definition set_pending_controls (x : list Rlp3Frame) (s : Rlp3Session) : Rlp3Session :=
  mkRlp3Session (config s) (state s) (l_v_s s) (l_v_r s) (l_v_n s) (l_v_n_peer s) (round_trip_counter s)
    (handshake_frames_sent s) (rlp_delay s) (tx_queue s) (rx_buffer s) (reseq_buffer s) (nak_list s) (rexmit_queue
    s) (sent_buffer s) (idle_timer s) (idle_interval s) x (seg_reassembly s).
Definition set_seg_reassembly (x : option SegmentReassembly) (s : Rlp3Session) : Rlp3Session :=
  mkRlp3Session (config s) (state s) (l_v_s s) (l_v_r s) (l_v_n s) (l_v_n_peer s) (round_trip_counter s)
    (handshake_frames_sent s) (rlp_delay s) (tx_queue s) (rx_buffer s) (reseq_buffer s) (nak_list s) (rexmit_queue
    s) (sent_buffer s) (idle_timer s) (idle_interval s) (pending_controls s) x.

Definition SEQ_MODULUS : Z := 4096.

(** The index of a slot of [reseq_buffer] or [sent_buffer]. *)
Definition slot (l_seq : Z) : rust Z := if (0 <=? l_seq) && (l_seq <? SEQ_MODULUS) then Some l_seq else panic!.

(** [(x + 1) % SEQ_MODULUS] *)
Definition next_seq (x : Z) : Z := (x + 1) mod SEQ_MODULUS.

(** ** Sequence-number helpers *)
Definition v_r_8 (l_seq : Z) : Z := (Z.land l_seq 0xFF) as_u8.

Definition max_segmented_single_segment_len (mux : MuxOption) : nat :=
  let header_bits := (8 + 4 + 1 + 1 + 1 + 5 + 4 + 12 + 4)%nat in
  ((info_bits mux - header_bits) / 8)%nat.

Definition seq12_gt (a b : Z) : bool :=
  if a =? b then false
  else
    let diff := wrapping_sub 16 a b mod SEQ_MODULUS in
    (1 <=? diff) && (diff <=? SEQ_MODULUS / 2 - 1).
Definition seq12_lt (a b : Z) : bool := if a =? b then false else negb (seq12_gt a b).

Definition seq_in_closed_range (seq first last : Z) : bool :=
  if first <=? last then (first <=? seq) && (seq <=? last) else (first <=? seq) || (seq <=? last).

Definition is_sync (f : Rlp3Frame) : bool := match f with Control _ Sync _ _ => true | _ => false end.
Definition is_sync_ack (f : Rlp3Frame) : bool := match f with Control _ SyncAck _ _ => true | _ => false end.
Definition is_fill (f : Rlp3Frame) : bool := match f with Fill _ _ => true | _ => false end.
Definition is_blank (_ : Rlp3Frame) : bool := false.
Definition should_reinitialize_from_control (f : Rlp3Frame) : bool :=
  match f with Control _ (Sync | SyncAck) true _ => true | _ => false end.

(** [frame.encode(mux).unwrap_or_default()] *)
Definition encode_or_default (f : Rlp3Frame) (mux : MuxOption) : rust (list Z) :=
  r ← encode f mux; match r with Ok bits => Some bits | Err _ => Some [] end.

(** ** Construction and the upper layer *)
Definition new (config : Rlp3Config) : Rlp3Session :=
  mkRlp3Session config Uninitialized 0 0 0 0 0 0 0 [] [] ∅ [] [] ∅ 0 10 [] None.

Definition send_data (data : list Z) (s : Rlp3Session) : Rlp3Session := set_tx_queue (tx_queue s ++ data) s.
Definition tx_queue_is_empty (s : Rlp3Session) : bool := bool_decide (tx_queue s = []).
Definition tx_queue_len (s : Rlp3Session) : nat := length (tx_queue s).
Definition rexmit_queue_len (s : Rlp3Session) : nat := length (rexmit_queue s).
Definition has_pending_controls (s : Rlp3Session) : bool :=
  negb (bool_decide (pending_controls s = [])) || negb (match rexmit_queue s with [] => true | _ => false end).
Definition has_pending_control_frames (s : Rlp3Session) : bool := negb (bool_decide (pending_controls s = [])).

Definition receive_data (s : Rlp3Session) : Rlp3Session * option (list Z) :=
  if decide (rx_buffer s = []) then (s, None) else (set_rx_buffer [] s, Some (rx_buffer s)).

(** The configuration and the idle interval stay. *)
Definition initialize (s : Rlp3Session) : Rlp3Session :=
  mkRlp3Session (config s) StSync 0 0 0 0 0 0 0 [] [] ∅ [] [] ∅ 0 (idle_interval s) [] None.

Definition enter_data_transfer (s : Rlp3Session) : Rlp3Session := set_state DataTransfer s.
Definition measure_delay (s : Rlp3Session) : Rlp3Session := set_rlp_delay (Z.max (handshake_frames_sent s) 1) s.

(** ** NAK list management *)
Definition rexmit_timer_frames (s : Rlp3Session) : Z :=
  let delay := if 0 <? cfg_rlp_delay (config s) then cfg_rlp_delay (config s)
               else Z.max (Z.max (rlp_delay s) (round_trip_counter s)) 1 in
  2 * delay + 1.

Definition add_nak_entry (l_seq : Z) (s : Rlp3Session) : Rlp3Session :=
  if existsb (λ e, nk_l_seq e =? l_seq) (nak_list s) then s
  else set_nak_list (nak_list s ++ [mkNakEntry l_seq 1 (rexmit_timer_frames s)]) s.

Definition queue_nak_entries (entries : list NakGapEntry) (s : Rlp3Session) : Rlp3Session :=
  let frame chunk := NakFrame (v_r_8 (l_v_n s)) ((Z.shiftr (l_v_n s) 8) as_u8) (Gap chunk) in
  set_pending_controls (pending_controls s ++ (frame <$> chunks 4 entries)) s.

Definition queue_nak_range (first last : Z) (s : Rlp3Session) : Rlp3Session :=
  queue_nak_entries [mkGap first last] s.

(** [entries.last_mut()]: the list is kept newest first while it is built. *)
Definition coalesce_step (rev_entries : list NakGapEntry) (seq : Z) : list NakGapEntry :=
  match rev_entries with
  | e :: rest => if next_seq (gap_last e) =? seq then mkGap (gap_first e) seq :: rest
                 else mkGap seq seq :: e :: rest
  | [] => [mkGap seq seq]
  end.
Definition coalesced_nak_entries (seqs : list Z) : list NakGapEntry := reverse (foldl coalesce_step [] seqs).

(** The numbers from [seq] to [last], [l_seq] left out. *)
Fixpoint seqs_without (fuel : nat) (seq last l_seq : Z) : list Z :=
  match fuel with
  | O => []
  | S fuel =>
      (if seq =? l_seq then [] else [seq]) ++
      (if seq =? last then [] else seqs_without fuel (next_seq seq) last l_seq)
  end.
Definition nak_entries_without_seq (entries : list NakGapEntry) (l_seq : Z) : list NakGapEntry :=
  mjoin ((λ e, coalesced_nak_entries (seqs_without 4096 (gap_first e) (gap_last e) l_seq)) <$> entries).

Definition pending_nak_ranges (s : Rlp3Session) : list NakGapEntry :=
  mjoin ((λ f, match f with NakFrame _ _ (Gap entries) => entries | _ => [] end) <$> pending_controls s).

Definition in_entries (l_seq : Z) (entries : list NakGapEntry) : bool :=
  existsb (λ e, seq_in_closed_range l_seq (gap_first e) (gap_last e)) entries.

Definition without_pending (l_seq : Z) (f : Rlp3Frame) : list Rlp3Frame :=
  match f with
  | NakFrame seq hi (Gap entries) =>
      if in_entries l_seq entries then
        match nak_entries_without_seq entries l_seq with
        | [] => []
        | entries => [NakFrame seq hi (Gap entries)]
        end
      else [f]
  | f => [f]
  end.
Definition remove_pending_naks_for (l_seq : Z) (s : Rlp3Session) : Rlp3Session :=
  set_pending_controls (mjoin (without_pending l_seq <$> pending_controls s)) s.

(** [self.nak_list.retain(|e| e.l_seq != l_seq)] *)
Definition forget_nak (l_seq : Z) (s : Rlp3Session) : Rlp3Session :=
  set_nak_list (filter (λ e, nk_l_seq e ≠ l_seq) (nak_list s)) s.

(** ** Delivery *)
Fixpoint deliver_loop (fuel : nat) (s : Rlp3Session) : rust Rlp3Session :=
  match fuel with
  | O => Some s
  | S fuel =>
      i ← slot (l_v_n s);
      match reseq_buffer s !! i with
      | Some data =>
          let s := set_reseq_buffer (delete i (reseq_buffer s)) s in
          let s := set_rx_buffer (rx_buffer s ++ data) s in
          deliver_loop fuel (set_l_v_n (next_seq (l_v_n s)) s)
      | None => Some s
      end
  end.
Definition deliver_contiguous (s : Rlp3Session) : rust Rlp3Session := deliver_loop 4097 s.

Definition flush_delivery_events (s : Rlp3Session) : Rlp3Session * list RlpEvent :=
  if decide (rx_buffer s = []) then (s, []) else (set_rx_buffer [] s, [DataDelivered (rx_buffer s)]).

Fixpoint advance_loop (fuel : nat) (s : Rlp3Session) : rust Rlp3Session :=
  match fuel with
  | O => Some s
  | S fuel =>
      if l_v_n s =? l_v_r s then Some s
      else
        i ← slot (l_v_n s);
        match reseq_buffer s !! i with
        | Some data =>
            let s := set_reseq_buffer (delete i (reseq_buffer s)) s in
            let s := set_rx_buffer (rx_buffer s ++ data) s in
            advance_loop fuel (set_l_v_n (next_seq (l_v_n s)) s)
        | None =>
            if existsb (λ e, nk_l_seq e =? l_v_n s) (nak_list s) then Some s
            else advance_loop fuel (set_l_v_n (next_seq (l_v_n s)) s)
        end
  end.
Definition advance_l_v_n_past_gaps (s : Rlp3Session) : rust Rlp3Session := advance_loop 4097 s.

(** ** NAK timers

    One entry of the list: the entry it leaves, the (count, SEQ) to send, and whether its
    rounds are exhausted. *)
Definition tick_entry (timer_val max_rounds : Z) (limits : list Z) (pending : list NakGapEntry) (e : NakEntry)
    : NakEntry * list (nat * Z) * list Z :=
  let timer := if 0 <? rexmit_timer e then rexmit_timer e - 1 else rexmit_timer e in
  let e := mkNakEntry (nk_l_seq e) (round_counter e) timer in
  if timer =? 0 then
    if in_entries (nk_l_seq e) pending then (mkNakEntry (nk_l_seq e) (round_counter e) timer_val, [], [])
    else if round_counter e <? max_rounds then
      let nak_count := Z.to_nat (default 1 (limits !! Z.to_nat (round_counter e))) in
      (mkNakEntry (nk_l_seq e) (round_counter e + 1) timer_val, [(nak_count, nk_l_seq e)], [])
    else (e, [], [nk_l_seq e])
  else (e, [], []).

(** [grouped]: the sequence numbers of each count, counts in order of first use. *)
Fixpoint group_insert (nak_count : nat) (seq : Z) (grouped : list (nat * list Z)) : list (nat * list Z) :=
  match grouped with
  | [] => [(nak_count, [seq])]
  | (c, seqs) :: rest => if decide (c = nak_count) then (c, seqs ++ [seq]) :: rest
                         else (c, seqs) :: group_insert nak_count seq rest
  end.

Definition queue_group (s : Rlp3Session) (g : nat * list Z) : Rlp3Session :=
  Nat.iter g.1 (queue_nak_entries (coalesced_nak_entries g.2)) s.

Definition tick_nak_timers (s : Rlp3Session) : rust (Rlp3Session * list RlpEvent) :=
  let timer_val := rexmit_timer_frames s in
  let max_rounds := cfg_nak_rounds_fwd (config s) in
  let pending_naks := pending_nak_ranges s in
  let ticked := tick_entry timer_val max_rounds (nak_per_round (config s)) pending_naks <$> nak_list s in
  let s := set_nak_list ((λ t, t.1.1) <$> ticked) s in
  let naks_to_send := mjoin ((λ t, t.1.2) <$> ticked) in
  let expired_seqs := mjoin (snd <$> ticked) in
  let grouped := foldl (λ g p, group_insert p.1 p.2 g) [] naks_to_send in
  let s := foldl queue_group s grouped in
  let events := (λ seq, NakAbandoned seq seq) <$> expired_seqs in
  let s := set_nak_list (filter (λ e, nk_l_seq e ∉ expired_seqs) (nak_list s)) s in
  if decide (expired_seqs = []) then Some (s, events)
  else
    s ← advance_l_v_n_past_gaps s;
    let '(s, delivery) := flush_delivery_events s in
    Some (s, events ++ delivery).

(** ** Receiving data *)
Definition compute_l_seq (seq_8 : Z) (s : Rlp3Session) : Z :=
  let v_r_low := (Z.land (l_v_r s) 0xFF) as_u8 in
  let offset := wrapping_sub 8 seq_8 v_r_low in
  wrapping_add 16 (l_v_r s) offset mod SEQ_MODULUS.

(** [while s != gap_end { add_nak_entry(s); events.push(SendNak ..); .. }] *)
Fixpoint gap_loop (fuel : nat) (seq gap_end : Z) (s : Rlp3Session) : Rlp3Session * list RlpEvent :=
  match fuel with
  | O => (s, [])
  | S fuel =>
      if seq =? gap_end then (s, [])
      else
        let '(s, events) := gap_loop fuel (next_seq seq) gap_end (add_nak_entry seq s) in
        (s, SendNak seq seq :: events)
  end.

Definition receive_new_data (seq_8 : Z) (data : list Z) (s : Rlp3Session) : rust (Rlp3Session * list RlpEvent) :=
  let l_seq := compute_l_seq seq_8 s in
  if (l_seq =? l_v_r s) && (l_v_r s =? l_v_n s) then
    let s := set_l_v_r (next_seq (l_v_r s)) s in
    let s := set_l_v_n (next_seq (l_v_n s)) s in
    let s := set_rx_buffer (rx_buffer s ++ data) s in
    s ← deliver_contiguous s;
    Some (flush_delivery_events s)
  else if (l_seq =? l_v_r s) && negb (l_v_r s =? l_v_n s) then
    i ← slot l_seq;
    let s := set_reseq_buffer (<[i := data]> (reseq_buffer s)) s in
    Some (set_l_v_r (next_seq (l_v_r s)) s, [])
  else if seq12_gt l_seq (l_v_r s) then
    let gap_start := l_v_r s in
    let gap_end := l_seq in
    let '(s, events) := gap_loop 4096 gap_start gap_end s in
    let s := queue_nak_range gap_start ((gap_end + SEQ_MODULUS - 1) mod SEQ_MODULUS) s in
    i ← slot l_seq;
    let s := set_reseq_buffer (<[i := data]> (reseq_buffer s)) s in
    Some (set_l_v_r (next_seq l_seq) s, events)
  else if seq12_lt l_seq (l_v_n s) then Some (s, [])
  else
    i ← slot l_seq;
    match reseq_buffer s !! i with
    | Some _ => Some (s, [])
    | None =>
        let s := set_reseq_buffer (<[i := data]> (reseq_buffer s)) s in
        let s := remove_pending_naks_for l_seq (forget_nak l_seq s) in
        if l_seq =? l_v_n s then s ← deliver_contiguous s; Some (flush_delivery_events s)
        else Some (s, [])
    end.

Definition receive_rexmit_data (seq_8 : Z) (data : list Z) (s : Rlp3Session) : rust (Rlp3Session * list RlpEvent) :=
  match List.find (λ e, v_r_8 (nk_l_seq e) =? seq_8) (nak_list s) with
  | None => Some (s, [])
  | Some entry =>
      let l_seq := nk_l_seq entry in
      let s := remove_pending_naks_for l_seq (forget_nak l_seq s) in
      i ← slot l_seq;
      match reseq_buffer s !! i with
      | Some _ => Some (s, [])
      | None =>
          let s := set_reseq_buffer (<[i := data]> (reseq_buffer s)) s in
          if l_seq =? l_v_n s then s ← deliver_contiguous s; Some (flush_delivery_events s)
          else Some (s, [])
      end
  end.

(** ** Segmented frames *)
Definition try_assemble (r : SegmentReassembly) : option (list Z) :=
  if negb (last_seg_seen r) then None
  else
    let count := Z.to_nat (final_s_seq r + 1) in
    foldl (λ acc i, assembled ← acc;
             match segments r !! i with
             | Some (Some seg_data) => Some (assembled ++ seg_data)
             | _ => None
             end) (Some []) (List.seq 0 count).

Definition receive_assembled (rexmit : bool) (seq : Z) (assembled : list Z) (s : Rlp3Session)
    : rust (Rlp3Session * list RlpEvent) :=
  if rexmit then receive_rexmit_data seq assembled s else receive_new_data seq assembled s.

(** A continuation segment stored in the reassembly. *)
Definition store_segment (last_seg : bool) (s_seq : Z) (data : list Z) (r : SegmentReassembly) : rust SegmentReassembly :=
  let i := Z.to_nat s_seq in
  let segs := if decide (length (segments r) ≤ i)%nat
              then segments r ++ replicate (i + 1 - length (segments r)) None else segments r in
  segs ← set_index segs i (Some data);
  let r := mkSegmentReassembly (seq_8 r) (last_seg_seen r) (if max_s_seq r <? s_seq then s_seq else max_s_seq r)
             (final_s_seq r) segs (sr_rexmit r) in
  Some (if last_seg then mkSegmentReassembly (seq_8 r) true (max_s_seq r) s_seq (segments r) (sr_rexmit r) else r).

Definition receive_segmented (seq : Z) (sqi last_seg rexmit : bool) (s_seq : Z) (data : list Z) (s : Rlp3Session)
    : rust (Rlp3Session * list RlpEvent) :=
  if sqi then
    let max_segs := if last_seg then Z.to_nat (s_seq + 1) else Z.to_nat (Z.max (s_seq + 16) 16) in
    segs ← set_index (replicate max_segs None) (Z.to_nat s_seq) (Some data);
    let reasm := mkSegmentReassembly seq last_seg s_seq (if last_seg then s_seq else 0) segs rexmit in
    match (if last_seg then try_assemble reasm else None) with
    | Some assembled => receive_assembled rexmit seq assembled (set_seg_reassembly None s)
    | None => Some (set_seg_reassembly (Some reasm) s, [])
    end
  else
    match seg_reassembly s with
    | None => Some (s, [])
    | Some reasm =>
        if negb (seq_8 reasm =? seq) then Some (s, [])
        else
          reasm ← store_segment last_seg s_seq data reasm;
          match (if last_seg_seen reasm then try_assemble reasm else None) with
          | Some assembled =>
              receive_assembled (sr_rexmit reasm) (seq_8 reasm) assembled (set_seg_reassembly None s)
          | None => Some (set_seg_reassembly (Some reasm) s, [])
          end
    end.

(** ** Retransmission requests *)
Definition queue_retransmission (l_seq : Z) (s : Rlp3Session) : rust Rlp3Session :=
  if existsb (λ e, rx_l_seq e =? l_seq) (rexmit_queue s) then Some s
  else
    i ← slot l_seq;
    match sent_buffer s !! i with
    | Some data => Some (set_rexmit_queue (rexmit_queue s ++ [mkRexmitEntry l_seq data 0 0]) s)
    | None => Some s
    end.

Fixpoint queue_range (fuel : nat) (seq last : Z) (s : Rlp3Session) : rust Rlp3Session :=
  match fuel with
  | O => Some s
  | S fuel =>
      s ← queue_retransmission seq s;
      if seq =? last then Some s else queue_range fuel (next_seq seq) last s
  end.

Definition foldM {A} (f : A → Rlp3Session → rust Rlp3Session) (l : list A) (s : Rlp3Session) : rust Rlp3Session :=
  foldl (λ acc a, s ← acc; f a s) (Some s) l.

(** The frame of the entry, then those its bits name. *)
Definition queue_map (e : NakMapEntry) (s : Rlp3Session) : rust Rlp3Session :=
  s ← queue_retransmission (nak_map_seq e) s;
  foldM (λ bit s,
           if Z.land (nak_map e) (Z.shiftr 0x80 bit) =? 0 then Some s
           else queue_retransmission ((nak_map_seq e + 1 + bit) mod SEQ_MODULUS) s)
    (seqZ 0 8) s.

Definition process_nak (seq seq_hi : Z) (payload : NakPayload) (s : Rlp3Session) : rust Rlp3Session :=
  let s := set_l_v_n_peer (Z.lor (wrap 16 (Z.shiftl seq_hi 8)) seq) s in
  match payload with
  | Gap entries => foldM (λ e s, queue_range 4096 (gap_first e) (gap_last e) s) entries s
  | Map entries => foldM queue_map entries s
  | SegmentRange entries => foldM (λ e s, queue_retransmission (sr_frame_seq e) s) entries s
  | SegmentLength entries => foldM (λ e s, queue_retransmission (sl_frame_seq e) s) entries s
  end.

(** ** The state machine *)
Definition process_data_transfer (frame : Rlp3Frame) (s : Rlp3Session) : rust (Rlp3Session * list RlpEvent) :=
  if is_sync frame then Some (initialize s, [StateChanged StSync])
  else
    match frame with
    | Data seq rexmit data =>
        if rexmit then receive_rexmit_data seq data s
        else if decide (data = []) then Some (s, [])
        else receive_new_data seq data s
    | DataFormatB seq rexmit data =>
        if rexmit then receive_rexmit_data seq data s else receive_new_data seq data s
    | NakFrame seq seq_hi payload => s ← process_nak seq seq_hi payload s; Some (s, [])
    | Fill seq seq_hi => Some (set_l_v_n_peer (Z.lor (wrap 16 (Z.shiftl seq_hi 8)) seq) s, [])
    | Idle1 _ _ | Idle2 _ | Control _ _ _ _ => Some (s, [])
    | Segmented seq sqi last_seg rexmit _ s_seq data => receive_segmented seq sqi last_seg rexmit s_seq data s
    end.

Definition process_sync_state (frame : Rlp3Frame) (s : Rlp3Session) : Rlp3Session * list RlpEvent :=
  match frame with
  | Control _ Sync _ _ =>
      (set_state StSyncAck (set_handshake_frames_sent 0 (set_round_trip_counter 4 s)), [StateChanged StSyncAck])
  | Control _ SyncAck _ _ =>
      let s := measure_delay s in
      (set_state StAck (set_handshake_frames_sent 0 (set_round_trip_counter 4 s)), [StateChanged StAck])
  | _ => (s, [])
  end.

(** The frame ends the handshake and is processed as data. *)
Definition enter_with (frame : Rlp3Frame) (s : Rlp3Session) : rust (Rlp3Session * list RlpEvent) :=
  '(s, events) ← process_data_transfer frame (enter_data_transfer s);
  Some (s, StateChanged DataTransfer :: events).

Definition process_sync_ack_state (frame : Rlp3Frame) (s : Rlp3Session) : rust (Rlp3Session * list RlpEvent) :=
  match frame with
  | Control _ Sync _ _ => Some (set_handshake_frames_sent 0 s, [])
  | Control _ Ack _ _ | Control _ SyncAck _ _ =>
      Some (enter_data_transfer (measure_delay s), [StateChanged DataTransfer])
  | _ =>
      if negb (is_sync frame) && negb (is_fill frame) && negb (is_blank frame) then enter_with frame s
      else Some (s, [])
  end.

Definition process_ack_state (frame : Rlp3Frame) (s : Rlp3Session) : rust (Rlp3Session * list RlpEvent) :=
  match frame with
  | Control _ SyncAck _ _ => Some (set_handshake_frames_sent 0 s, [])
  | Control _ Sync _ _ => Some (initialize s, [StateChanged StSync])
  | _ =>
      if negb (is_sync_ack frame) && negb (is_fill frame) && negb (is_blank frame) then enter_with frame s
      else Some (s, [])
  end.

(** The frame a received vector holds, if any. *)
Definition decode_at (rate : FrameRate) (bits : list Z) (mux : MuxOption) : rust (option Rlp3Frame) :=
  if decide (rate = Full) then
    r ← decode_rlp3_frame bits mux;
    match r with
    | Ok f => Some (Some f)
    | Err _ =>
        r ← try_decode_fill_or_idle1 bits mux;
        match r with Ok f => Some (Some f) | Err _ => Some None end
    end
  else
    match sub_rate_info_bits rate with
    | Some n =>
        r ← decode_sub_rate_frame bits n;
        match r with Ok f => Some (Some f) | Err _ => Some None end
    | None => Some None
    end.

Definition process_frame (frame : Rlp3Frame) (s : Rlp3Session) : rust (Rlp3Session * list RlpEvent) :=
  match state s with
  | Uninitialized => panic!
  | StSync => Some (process_sync_state frame s)
  | StSyncAck => process_sync_ack_state frame s
  | StAck => process_ack_state frame s
  | DataTransfer => process_data_transfer frame s
  end.

Definition receive_decoded (frame : Rlp3Frame) (s : Rlp3Session) : rust (Rlp3Session * list RlpEvent) :=
  let '(s, events) :=
    if should_reinitialize_from_control frame then
      (initialize s, if decide (state s = StSync) then [] else [StateChanged StSync])
    else (s, []) in
  '(s, frame_events) ← process_frame frame s;
  Some (s, events ++ frame_events).

Definition receive_frame (frame_bits : list Z) (rate : FrameRate) (s : Rlp3Session) : rust (Rlp3Session * list RlpEvent) :=
  let s := if decide (state s = Uninitialized) then initialize s else s in
  '(s, events) ← tick_nak_timers s;
  if decide (rate = Blank ∨ frame_bits = []) then Some (s, events)
  else
    f ← decode_at rate frame_bits (mux_option (config s));
    match f with
    | None => Some (s, events)
    | Some frame =>
        '(s, frame_events) ← receive_decoded frame s;
        Some (s, events ++ frame_events)
    end.

(** ** Transmitting *)
Definition new_data_requires_seq_hi (l_seq : Z) (s : Rlp3Session) : bool :=
  (0 <? cfg_nak_rounds_fwd (config s)) && (255 <? (l_seq + SEQ_MODULUS - l_v_n_peer s) mod SEQ_MODULUS).

Definition seq_hi_of (l_seq : Z) : Z := (Z.shiftr l_seq 8) as_u8.

Definition build_fill_frame (s : Rlp3Session) : rust (list Z) :=
  encode_or_default (Fill (v_r_8 (l_v_n s)) (seq_hi_of (l_v_n s))) (mux_option (config s)).
Definition build_idle_frame (s : Rlp3Session) : rust (list Z) :=
  encode_or_default (Idle1 (v_r_8 (l_v_n s)) (seq_hi_of (l_v_n s))) (mux_option (config s)).

(** The frame of the next new data and the octets it takes. *)
Definition new_data_frame (s : Rlp3Session) : Rlp3Frame * nat :=
  let mux := mux_option (config s) in
  let available := length (tx_queue s) in
  let seq_8 := v_r_8 (l_v_s s) in
  if new_data_requires_seq_hi (l_v_s s) s then
    let n := Nat.min available (max_segmented_single_segment_len mux) in
    (Segmented seq_8 true true false (Some (seq_hi_of (l_v_s s))) 0 (take n (tx_queue s)), n)
  else if decide (format_b_data_len mux ≤ available)%nat then
    let n := format_b_data_len mux in (DataFormatB seq_8 false (take n (tx_queue s)), n)
  else
    let n := Nat.min available (max_data_len mux) in (Data seq_8 false (take n (tx_queue s)), n).

Definition build_new_data_frame (s : Rlp3Session) : rust (Rlp3Session * list Z) :=
  let '(frame, n) := new_data_frame s in
  let data_sent := take n (tx_queue s) in
  let s := set_tx_queue (drop n (tx_queue s)) s in
  i ← slot (l_v_s s);
  let s := set_sent_buffer (<[i := data_sent]> (sent_buffer s)) s in
  let s := set_l_v_s (next_seq (l_v_s s)) s in
  bits ← encode_or_default frame (mux_option (config s));
  Some (s, bits).

(** An idle frame every [idle_interval] frames, fill frames between. *)
Definition idle_or_fill (s : Rlp3Session) : rust (Rlp3Session * list Z) :=
  let s := set_idle_timer (idle_timer s + 1) s in
  if idle_interval s <=? idle_timer s then
    let s := set_idle_timer 0 s in bits ← build_idle_frame s; Some (s, bits)
  else bits ← build_fill_frame s; Some (s, bits).

Definition rexmit_frame (e : RexmitEntry) (mux : MuxOption) : Rlp3Frame :=
  if decide (length (rx_data e) = format_b_data_len mux) then DataFormatB (v_r_8 (rx_l_seq e)) true (rx_data e)
  else Data (v_r_8 (rx_l_seq e)) true (rx_data e).

Definition build_data_frame (rate : FrameRate) (allow_payload : bool) (s : Rlp3Session) : rust (Rlp3Session * list Z) :=
  let mux := mux_option (config s) in
  if decide (rate ≠ Full) then
    match sub_rate_info_bits rate with
    | Some info_bits =>
        r ← encode_sub_rate_fill (v_r_8 (l_v_n s)) (seq_hi_of (l_v_n s)) info_bits;
        Some (s, match r with Ok bits => bits | Err _ => [] end)
    | None => Some (s, [])
    end
  else
    match reverse (pending_controls s) with
    | ctrl :: rest =>
        let s := set_pending_controls (reverse rest) s in
        bits ← encode_or_default ctrl mux;
        Some (s, bits)
    | [] =>
        if negb allow_payload then idle_or_fill s
        else
          match rexmit_queue s with
          | e :: rest =>
              let s := set_idle_timer 0 (set_rexmit_queue rest s) in
              bits ← encode_or_default (rexmit_frame e mux) mux;
              Some (s, bits)
          | [] =>
              if decide (tx_queue s ≠ []) then build_new_data_frame (set_idle_timer 0 s)
              else idle_or_fill s
          end
    end.

Definition next_frame_with_payload (rate : FrameRate) (allow_payload : bool) (s : Rlp3Session)
    : rust (Rlp3Session * list Z) :=
  let s := if decide (state s = Uninitialized) then initialize s else s in
  let mux := mux_option (config s) in
  let send (ct : Rlp3ControlType) (init_var : bool) (s : Rlp3Session) :=
    bits ← encode_or_default (Control (v_r_8 (l_v_s s)) ct init_var false) mux; Some (s, bits) in
  match state s with
  | Uninitialized => panic!
  | StSync => send Sync true (set_handshake_frames_sent (handshake_frames_sent s + 1) s)
  | StSyncAck => send SyncAck true (set_handshake_frames_sent (handshake_frames_sent s + 1) s)
  | StAck =>
      let s := set_handshake_frames_sent (handshake_frames_sent s + 1) s in
      if round_trip_counter s <? handshake_frames_sent s
      then build_data_frame rate allow_payload (enter_data_transfer s)
      else send Ack false s
  | DataTransfer => build_data_frame rate allow_payload s
  end.
Definition next_frame (rate : FrameRate) (s : Rlp3Session) := next_frame_with_payload rate true s.
Definition next_frame_control_only (rate : FrameRate) (s : Rlp3Session) := next_frame_with_payload rate false s.

(** ** The supplemental channel *)

(** [result.ok()?] *)
Definition ok_or_none (r : rust (result RlpError (list Z))) : rust (option (list Z)) :=
  r ← r; match r with Ok bits => Some (Some bits) | Err _ => Some None end.

Definition rexmit_fits (c d block_bits : nat) (s : Rlp3Session) (e : RexmitEntry) : bool :=
  let remaining := (length (rx_data e) - segment_offset e)%nat in
  bool_decide (0 < segment_offset e)%nat
  || bool_decide (length (rx_data e) = c)
  || (negb (bool_decide (rx_data e = [])) && bool_decide (length (rx_data e) ≤ d)%nat)
  || (new_data_requires_seq_hi (rx_l_seq e) s && bool_decide (0 < remaining)%nat
      && bool_decide (is_Some (supplemental_format_d_segment_data_len block_bits (bool_decide (segment_offset e = 0%nat))))).

(** The first entry that fits, with the queue before and after it. *)
Fixpoint split_first {A} (p : A → bool) (l : list A) : option (list A * A * list A) :=
  match l with
  | [] => None
  | a :: l => if p a then Some ([], a, l)
              else match split_first p l with Some (pre, x, post) => Some (a :: pre, x, post) | None => None end
  end.

Definition supplemental_rexmit (c d block_bits : nat) (e : RexmitEntry) (s : Rlp3Session)
    : rust (Rlp3Session * option (list Z)) :=
  let seq_8 := v_r_8 (rx_l_seq e) in
  let needs_seq_hi := new_data_requires_seq_hi (rx_l_seq e) s in
  let len := length (rx_data e) in
  let remaining := (len - segment_offset e)%nat in
  match supplemental_format_d_segment_data_len block_bits (bool_decide (segment_offset e = 0%nat)) with
  | None => Some (s, None)
  | Some segment_max =>
      let use_segmented := bool_decide (0 < segment_offset e)%nat || (needs_seq_hi && bool_decide (d < remaining)%nat) in
      let use_format_d :=
        use_segmented || (negb (bool_decide (rx_data e = [])) && bool_decide (len ≤ d)%nat
                          && (negb (bool_decide (len = c)) || needs_seq_hi)) in
      if use_segmented then
        let data_len := Nat.min remaining segment_max in
        let offset := segment_offset e in
        let next_offset := (offset + data_len)%nat in
        let last_seg := bool_decide (next_offset = len) in
        data ← slice (rx_data e) offset next_offset;
        let seq_hi := if decide (offset = 0%nat) then Some (seq_hi_of (rx_l_seq e)) else None in
        bits ← ok_or_none (encode_supplemental_format_d_segment_block seq_8 seq_hi (next_s_seq e) last_seg true data block_bits);
        match bits with
        | None => Some (s, None)
        | Some bits =>
            let s := if last_seg then s
                     else set_rexmit_queue
                            (mkRexmitEntry (rx_l_seq e) (rx_data e) next_offset (Z.min (next_s_seq e + 1) 0xFFFF)
                               :: rexmit_queue s) s in
            Some (set_idle_timer 0 s, Some bits)
        end
      else
        bits ← ok_or_none
          (if use_format_d then
             encode_supplemental_format_d_block seq_8 (if needs_seq_hi then Some (seq_hi_of (rx_l_seq e)) else None)
               true (rx_data e) block_bits
           else encode_supplemental_format_c_block seq_8 true (rx_data e) block_bits);
        match bits with None => Some (s, None) | Some bits => Some (set_idle_timer 0 s, Some bits) end
  end.

Definition supplemental_new (c d block_bits : nat) (s : Rlp3Session) : rust (Rlp3Session * option (list Z)) :=
  let needs_seq_hi := new_data_requires_seq_hi (l_v_s s) s in
  let queued := length (tx_queue s) in
  let use_format_d := needs_seq_hi || (bool_decide (queued < c)%nat && negb (bool_decide (tx_queue s = []))) in
  let data_len := if use_format_d then Nat.min queued d else c in
  if decide (data_len = 0 ∨ queued < data_len)%nat then Some (s, None)
  else
    let l_seq := l_v_s s in
    let seq_8 := v_r_8 l_seq in
    let data := take data_len (tx_queue s) in
    let s := set_tx_queue (drop data_len (tx_queue s)) s in
    bits ← ok_or_none
      (if use_format_d then
         encode_supplemental_format_d_block seq_8 (if needs_seq_hi then Some (seq_hi_of l_seq) else None) false data block_bits
       else encode_supplemental_format_c_block seq_8 false data block_bits);
    match bits with
    | None => Some (s, None)
    | Some bits =>
        i ← slot l_seq;
        let s := set_sent_buffer (<[i := data]> (sent_buffer s)) s in
        let s := set_l_v_s (next_seq (l_v_s s)) s in
        Some (set_idle_timer 0 s, Some bits)
    end.

Definition next_supplemental_frame (block_bits : nat) (s : Rlp3Session) : rust (Rlp3Session * option (list Z)) :=
  match supplemental_format_c_data_len block_bits, supplemental_format_d_data_len block_bits with
  | Some c, Some d =>
      if decide (state s ≠ DataTransfer) then Some (s, None)
      else
        match split_first (rexmit_fits c d block_bits s) (rexmit_queue s) with
        | Some (pre, e, post) => supplemental_rexmit c d block_bits e (set_rexmit_queue (pre ++ post) s)
        | None => supplemental_new c d block_bits s
        end
  | _, _ => Some (s, None)
  end.

End Session3.
