(* ===== verification/Rlp3SessionProofs.v ===== *)
(** * The RLP Type 3 session: well-formedness, totality, what can panic *)
From S2P Require Import Prelude BitString Rlp RlpProofs Rlp3Frames Rlp3Proofs Rlp3Session.
Import Rlp3 Session3.

(** Reduce projections of updated sessions. *)
Ltac session3 := cbn [set_state set_l_v_s set_l_v_r set_l_v_n set_l_v_n_peer set_round_trip_counter
  set_handshake_frames_sent set_rlp_delay set_tx_queue set_rx_buffer set_reseq_buffer set_nak_list
  set_rexmit_queue set_sent_buffer set_idle_timer set_pending_controls set_seg_reassembly
  config state l_v_s l_v_r l_v_n l_v_n_peer round_trip_counter handshake_frames_sent rlp_delay tx_queue
  rx_buffer reseq_buffer nak_list rexmit_queue sent_buffer idle_timer idle_interval pending_controls
  seg_reassembly enter_data_transfer measure_delay forget_nak remove_pending_naks_for fst snd] in *.

Abbreviation seq12 := (is_u 12).

Lemma slot_ok x : seq12 x → slot x = Some x.
Proof. intros [??]. unfold slot, SEQ_MODULUS. by replace ((0 <=? x) && (x <? 4096)) with true by lia. Qed.

Lemma next_seq_ok x : seq12 (next_seq x).
Proof. unfold next_seq, SEQ_MODULUS, is_u. zdiv. Qed.

Lemma mod_4096_ok x : seq12 (x mod SEQ_MODULUS).
Proof. unfold SEQ_MODULUS, is_u. zdiv. Qed.

Lemma v_r_8_mod x : v_r_8 x = x mod 256.
Proof. unfold v_r_8. rewrite land_255. apply wrap_small. unfold is_u. zdiv. Qed.

Lemma v_r_8_ok x : is_u8 (v_r_8 x).
Proof. rewrite v_r_8_mod. unfold is_u. zdiv. Qed.

Lemma seq_hi_ok x : seq12 x → is_u 4 (seq_hi_of x).
Proof. intros [??]. unfold seq_hi_of. rewrite shiftr_8. apply wrap_is_u; [|lia]. unfold is_u. zdiv. Qed.

Lemma peer_seq_ok hi seq : is_u 4 hi → is_u8 seq → seq12 (Z.lor (wrap 16 (Z.shiftl hi 8)) seq).
Proof.
  intros Hh Hs. rewrite wrap_small.
  - rewrite lor_shiftl_add by (done || lia). unfold is_u in *. lia.
  - rewrite Z.shiftl_mul_pow2 by lia. unfold is_u in *. lia.
Qed.
#[export] Hint Resolve next_seq_ok mod_4096_ok v_r_8_ok seq_hi_ok peer_seq_ok : rust.

(** ** The invariant *)
Definition gap_nak (f : Rlp3Frame) : Prop :=
  match f with
  | NakFrame seq hi (Gap es) => is_u8 seq ∧ is_u 4 hi ∧ Forall wf_gap es ∧ es ≠ []
  | _ => False
  end.
Definition wf_rexmit (e : RexmitEntry) : Prop :=
  seq12 (rx_l_seq e) ∧ (segment_offset e ≤ length (rx_data e))%nat.
Definition wf_segments (r : SegmentReassembly) : Prop :=
  0 ≤ final_s_seq r ∧ Forall (λ o, bytes (default [] o)) (segments r).

Record inv3 (s : Rlp3Session) : Prop := {
  inv_s : seq12 (l_v_s s);
  inv_r : seq12 (l_v_r s);
  inv_n : seq12 (l_v_n s);
  inv_peer : seq12 (l_v_n_peer s);
  inv_naks : Forall (λ e, seq12 (nk_l_seq e)) (nak_list s);
  inv_controls : Forall gap_nak (pending_controls s);
  inv_rx : bytes (rx_buffer s);
  inv_reseq : map_Forall (λ _ d, bytes d) (reseq_buffer s);
  inv_rexmit : Forall wf_rexmit (rexmit_queue s);
  inv_seg : ∀ r, seg_reassembly s = Some r → wf_segments r
}.

Lemma inv3_new c : inv3 (new c).
Proof. split; cbn; first [done|apply Forall_nil_2|apply map_Forall_empty]. Qed.
Lemma inv3_initialize s : inv3 (initialize s).
Proof. split; cbn; first [done|apply Forall_nil_2|apply map_Forall_empty]. Qed.
#[export] Hint Resolve inv3_new inv3_initialize : rust.

(** Updates of one field. *)
Ltac inv3_field := intros []; split; session3; auto with rust.
Lemma inv3_state x s : inv3 s → inv3 (set_state x s). Proof. inv3_field. Qed.
Lemma inv3_l_v_s x s : inv3 s → seq12 x → inv3 (set_l_v_s x s). Proof. inv3_field. Qed.
Lemma inv3_l_v_r x s : inv3 s → seq12 x → inv3 (set_l_v_r x s). Proof. inv3_field. Qed.
Lemma inv3_l_v_n x s : inv3 s → seq12 x → inv3 (set_l_v_n x s). Proof. inv3_field. Qed.
Lemma inv3_peer x s : inv3 s → seq12 x → inv3 (set_l_v_n_peer x s). Proof. inv3_field. Qed.
Lemma inv3_rtc x s : inv3 s → inv3 (set_round_trip_counter x s). Proof. inv3_field. Qed.
Lemma inv3_hfs x s : inv3 s → inv3 (set_handshake_frames_sent x s). Proof. inv3_field. Qed.
Lemma inv3_delay x s : inv3 s → inv3 (set_rlp_delay x s). Proof. inv3_field. Qed.
Lemma inv3_tx x s : inv3 s → inv3 (set_tx_queue x s). Proof. inv3_field. Qed.
Lemma inv3_rx x s : inv3 s → bytes x → inv3 (set_rx_buffer x s). Proof. inv3_field. Qed.
Lemma inv3_reseq x s : inv3 s → map_Forall (λ _ d, bytes d) x → inv3 (set_reseq_buffer x s). Proof. inv3_field. Qed.
Lemma inv3_naks x s : inv3 s → Forall (λ e, seq12 (nk_l_seq e)) x → inv3 (set_nak_list x s). Proof. inv3_field. Qed.
Lemma inv3_rexmit x s : inv3 s → Forall wf_rexmit x → inv3 (set_rexmit_queue x s). Proof. inv3_field. Qed.
Lemma inv3_sent x s : inv3 s → inv3 (set_sent_buffer x s). Proof. inv3_field. Qed.
Lemma inv3_idle x s : inv3 s → inv3 (set_idle_timer x s). Proof. inv3_field. Qed.
Lemma inv3_controls x s : inv3 s → Forall gap_nak x → inv3 (set_pending_controls x s). Proof. inv3_field. Qed.
Lemma inv3_seg x s : inv3 s → (∀ r, x = Some r → wf_segments r) → inv3 (set_seg_reassembly x s). Proof. inv3_field. Qed.
Lemma inv3_store i d s : inv3 s → bytes d → inv3 (set_reseq_buffer (<[i := d]> (reseq_buffer s)) s).
Proof. intros H Hd. apply inv3_reseq; [done|]. apply map_Forall_insert_2; [done|apply H]. Qed.
Create HintDb inv3.
#[export] Hint Resolve inv3_state inv3_l_v_s inv3_l_v_r inv3_l_v_n inv3_peer inv3_rtc inv3_hfs inv3_delay
  inv3_tx inv3_rexmit inv3_sent inv3_idle inv3_controls inv3_store inv3_initialize
  next_seq_ok mod_4096_ok : inv3.

(** ** NAK bookkeeping keeps the invariant *)
Lemma gap_nak_chunk seq hi es : is_u8 seq → is_u 4 hi → Forall wf_gap es →
  Forall gap_nak ((λ c, NakFrame seq hi (Gap c)) <$> chunks 4 es).
Proof.
  intros Hs Hh. induction es as [es IH] using (induction_ltof1 _ length). unfold ltof in IH. intros Hes.
  destruct (decide (es = [])) as [->|Hne]; [apply Forall_nil_2|].
  rewrite chunks_cons, fmap_cons by (done || lia). apply Forall_cons_2.
  - split_and!; [done|done|by apply Forall_take|]. by destruct es.
  - apply IH; [|by apply Forall_drop]. rewrite length_drop. destruct es; [done|cbn; lia].
Qed.

Lemma inv3_queue_naks es s : inv3 s → Forall wf_gap es → inv3 (queue_nak_entries es s).
Proof.
  intros H Hes. unfold queue_nak_entries. apply inv3_controls; [done|]. apply Forall_app_2; [apply H|].
  apply gap_nak_chunk; [apply v_r_8_ok|apply seq_hi_ok, H|done].
Qed.

Lemma inv3_add_nak x s : inv3 s → seq12 x → inv3 (add_nak_entry x s).
Proof.
  intros H Hx. unfold add_nak_entry. destruct (existsb _ _); [done|]. apply inv3_naks; [done|].
  apply Forall_app_2; [apply H|]. by apply Forall_singleton.
Qed.

Lemma coalesced_ok seqs : Forall seq12 seqs → Forall wf_gap (coalesced_nak_entries seqs).
Proof.
  intros H. unfold coalesced_nak_entries. apply Forall_reverse.
  cut (∀ acc, Forall wf_gap acc → Forall wf_gap (foldl coalesce_step acc seqs)); [intros Hc; apply Hc, Forall_nil_2|].
  induction H as [|x l Hx _ IH]; intros acc Hacc; [done|]. cbn [foldl]. apply IH.
  unfold coalesce_step. destruct Hacc as [|e acc [He1 He2] Hacc]; [by apply Forall_singleton|].
  destruct (_ =? _); repeat apply Forall_cons_2; by try done.
Qed.

Lemma seqs_without_ok fuel : ∀ seq last x, seq12 seq → Forall seq12 (seqs_without fuel seq last x).
Proof.
  induction fuel as [|fuel IH]; intros seq last x Hs; cbn [seqs_without]; [apply Forall_nil_2|].
  apply Forall_app_2; [destruct (_ =? _); [apply Forall_nil_2|by apply Forall_singleton]|].
  destruct (_ =? _); [apply Forall_nil_2|]. apply IH, next_seq_ok.
Qed.

Lemma nak_entries_without_ok es x : Forall wf_gap es → Forall wf_gap (nak_entries_without_seq es x).
Proof.
  intros H. unfold nak_entries_without_seq. induction H as [|e es [He _] _ IH]; [apply Forall_nil_2|].
  rewrite fmap_cons, mjoin_cons. apply Forall_app_2; [|done]. by apply coalesced_ok, seqs_without_ok.
Qed.

Lemma without_pending_ok x f : gap_nak f → Forall gap_nak (without_pending x f).
Proof.
  unfold without_pending. destruct f as [|seq hi [es| | |]| | | | | |]; try done.
  intros (Hs & Hh & Hes & Hne). destruct (in_entries x es); [|by apply Forall_singleton].
  pose proof (nak_entries_without_ok es x Hes) as Hw.
  destruct (nak_entries_without_seq es x); [apply Forall_nil_2|]. apply Forall_singleton. by split_and!.
Qed.

Lemma inv3_remove_pending x s : inv3 s → inv3 (remove_pending_naks_for x s).
Proof.
  intros H. unfold remove_pending_naks_for. apply inv3_controls; [done|].
  induction (inv_controls s H) as [|f fs Hf _ IH]; [apply Forall_nil_2|].
  rewrite fmap_cons, mjoin_cons. apply Forall_app_2; [by apply without_pending_ok|done].
Qed.

Lemma forall_filter {A} (Q P : A → Prop) `{!∀ x, Decision (P x)} l : Forall Q l → Forall Q (filter P l).
Proof. rewrite !Forall_forall. intros HQ x [_ Hx]%list_elem_of_filter. by apply HQ. Qed.

Lemma inv3_forget x s : inv3 s → inv3 (forget_nak x s).
Proof. intros H. unfold forget_nak. apply inv3_naks; [done|]. apply forall_filter, H. Qed.
#[export] Hint Resolve inv3_queue_naks inv3_add_nak inv3_remove_pending inv3_forget : inv3.

(** ** Every operation of the receiver is total and keeps the invariant *)
Definition ok3 (m : rust (Rlp3Session * list RlpEvent)) : Prop :=
  ∃ s ev, m = Some (s, ev) ∧ inv3 s ∧ Forall (λ e, match e with DataDelivered d => bytes d ∧ d ≠ [] | _ => True end) ev.
Definition ok3' (m : rust Rlp3Session) : Prop := ∃ s, m = Some s ∧ inv3 s.

Lemma ok3_ret s ev : inv3 s → Forall (λ e, match e with DataDelivered d => bytes d ∧ d ≠ [] | _ => True end) ev → ok3 (Some (s, ev)).
Proof. intros. by exists s, ev. Qed.
Lemma ok3_nil s : inv3 s → ok3 (Some (s, [])).
Proof. intros. apply ok3_ret; [done|apply Forall_nil_2]. Qed.
Lemma ok3_bind m k : ok3' m → (∀ s, inv3 s → ok3 (k s)) → ok3 (m ≫= k).
Proof. intros (s & -> & Hs) Hk. by apply Hk. Qed.
Lemma ok3'_bind m k : ok3' m → (∀ s, inv3 s → ok3' (k s)) → ok3' (m ≫= k).
Proof. intros (s & -> & Hs) Hk. by apply Hk. Qed.

Lemma deliver_loop_ok fuel : ∀ s, inv3 s → ok3' (deliver_loop fuel s).
Proof.
  induction fuel as [|fuel IH]; intros s H; cbn [deliver_loop]; [by eexists|].
  rewrite slot_ok, bind_some by apply H. destruct (reseq_buffer s !! l_v_n s) as [d|] eqn:E; [|by eexists].
  apply IH. apply inv3_l_v_n; [|apply next_seq_ok]. apply inv3_rx.
  - apply inv3_reseq; [done|]. apply map_Forall_delete, H.
  - apply bytes_app. split; [apply H|]. by eapply (inv_reseq s H).
Qed.

Lemma deliver_ok s : inv3 s → ok3' (deliver_contiguous s).
Proof. apply deliver_loop_ok. Qed.

Lemma advance_loop_ok fuel : ∀ s, inv3 s → ok3' (advance_loop fuel s).
Proof.
  induction fuel as [|fuel IH]; intros s H; cbn [advance_loop]; [by eexists|].
  destruct (_ =? _); [by eexists|].
  rewrite slot_ok, bind_some by apply H. destruct (reseq_buffer s !! l_v_n s) as [d|] eqn:E.
  - apply IH. apply inv3_l_v_n; [|apply next_seq_ok]. apply inv3_rx.
    + apply inv3_reseq; [done|]. apply map_Forall_delete, H.
    + apply bytes_app. split; [apply H|]. by eapply (inv_reseq s H).
  - destruct (existsb _ _); [by eexists|]. apply IH. auto with inv3.
Qed.

Lemma flush_ok s : inv3 s → ok3 (Some (flush_delivery_events s)).
Proof.
  intros H. unfold flush_delivery_events. case_decide as E; [by apply ok3_nil|].
  apply ok3_ret; [by apply inv3_rx; [|apply Forall_nil_2]|]. apply Forall_singleton. split; [apply H|done].
Qed.

Lemma gap_loop_ok fuel : ∀ seq last s, inv3 s → seq12 seq →
  ∃ s' ev, gap_loop fuel seq last s = (s', ev) ∧ inv3 s' ∧ Forall (λ e, ∃ x, e = SendNak x x) ev.
Proof.
  induction fuel as [|fuel IH]; intros seq last s H Hs; cbn [gap_loop]; [by exists s, []|].
  destruct (_ =? _); [by exists s, []|].
  destruct (IH (next_seq seq) last (add_nak_entry seq s)) as (s' & ev & -> & H' & Hev); [auto with inv3|apply next_seq_ok|].
  exists s', (SendNak seq seq :: ev). split_and!; [done|done|]. apply Forall_cons_2; [by eexists|done].
Qed.

Lemma compute_l_seq_ok x s : seq12 (compute_l_seq x s).
Proof. apply mod_4096_ok. Qed.

Lemma receive_new_ok x d s : inv3 s → bytes d → ok3 (receive_new_data x d s).
Proof.
  intros H Hd. unfold receive_new_data. pose proof (compute_l_seq_ok x s) as Hl.
  rewrite (slot_ok (compute_l_seq x s)) by done.
  destruct (_ && _); [|destruct (_ && _); [|destruct (seq12_gt _ _); [|destruct (seq12_lt _ _)]]].
  - apply ok3_bind; [|intros; by apply flush_ok]. apply deliver_ok. apply inv3_rx; [auto with inv3|].
    apply bytes_app. split; [apply H|done].
  - rewrite bind_some. apply ok3_nil. auto with inv3.
  - destruct (gap_loop_ok 4096 (l_v_r s) (compute_l_seq x s) s H (inv_r s H)) as (s' & ev & -> & H' & Hev).
    rewrite bind_some. apply ok3_ret; [|eapply Forall_impl; [exact Hev|]; by intros ? [? ->]].
    unfold queue_nak_range. apply inv3_l_v_r; [|apply next_seq_ok]. apply inv3_store; [|done].
    apply inv3_queue_naks; [done|]. apply Forall_singleton. split; [apply H|apply mod_4096_ok].
  - by apply ok3_nil.
  - rewrite bind_some. destruct (reseq_buffer s !! _); [by apply ok3_nil|].
    destruct (_ =? _); [|apply ok3_nil; auto with inv3].
    apply ok3_bind; [apply deliver_ok; auto with inv3|intros; by apply flush_ok].
Qed.

Lemma receive_rexmit_ok x d s : inv3 s → bytes d → ok3 (receive_rexmit_data x d s).
Proof.
  intros H Hd. unfold receive_rexmit_data. destruct (List.find _ _) as [e|] eqn:E; [|by apply ok3_nil].
  apply find_some in E as [E _]. apply list_elem_of_In in E.
  pose proof (proj1 (Forall_forall _ _) (inv_naks s H) e E) as He. cbn in He.
  rewrite slot_ok, bind_some by done.
  destruct (reseq_buffer _ !! _); [apply ok3_nil; auto with inv3|].
  destruct (_ =? _); [|apply ok3_nil; auto with inv3].
  apply ok3_bind; [apply deliver_ok; auto with inv3|intros; by apply flush_ok].
Qed.

Lemma tick_entry_seq tv mr lim p e :
  nk_l_seq (tick_entry tv mr lim p e).1.1 = nk_l_seq e ∧
  (∀ q, q ∈ (tick_entry tv mr lim p e).1.2 → q.2 = nk_l_seq e) ∧
  (∀ x, x ∈ (tick_entry tv mr lim p e).2 → x = nk_l_seq e).
Proof.
  unfold tick_entry. repeat (destruct (_ =? _) || destruct (in_entries _ _) || destruct (_ <? _)); cbn; split_and!; try done;
    intros ? Hx; try (by apply elem_of_nil in Hx); by apply list_elem_of_singleton in Hx as ->.
Qed.

Lemma group_insert_ok c x g : seq12 x → Forall (λ p, Forall seq12 p.2) g → Forall (λ p, Forall seq12 p.2) (group_insert c x g).
Proof.
  intros Hx. induction 1 as [|[c' l] g Hl Hg IH]; cbn [group_insert].
  - by apply Forall_singleton, Forall_singleton.
  - case_decide; apply Forall_cons_2; try done. cbn in *. apply Forall_app_2; [done|by apply Forall_singleton].
Qed.

Lemma queue_group_ok s g : inv3 s → Forall seq12 g.2 → inv3 (queue_group s g).
Proof.
  intros H Hg. unfold queue_group. generalize (g.1) as n. induction n as [|n IH]; [done|].
  rewrite Nat.iter_succ. apply inv3_queue_naks; [done|]. by apply coalesced_ok.
Qed.

Lemma queue_group_controls g s : ∃ p, queue_group s g = set_pending_controls p s.
Proof.
  unfold queue_group. generalize (g.1) as n. induction n as [|n [p IH]]; [exists (pending_controls s); by destruct s|].
  rewrite Nat.iter_succ, IH. by eexists.
Qed.
Lemma queue_groups_controls gs : ∀ s, ∃ p, foldl queue_group s gs = set_pending_controls p s.
Proof.
  induction gs as [|g gs IH]; intros s; cbn [foldl]; [exists (pending_controls s); by destruct s|].
  destruct (queue_group_controls g s) as [p ->]. destruct (IH (set_pending_controls p s)) as [p' ->]. by exists p'.
Qed.

Lemma advance_loop_state fuel : ∀ s s', advance_loop fuel s = Some s' → state s' = state s.
Proof.
  induction fuel as [|fuel IH]; intros s s'; cbn [advance_loop]; [by intros [= <-]|].
  destruct (_ =? _); [by intros [= <-]|]. destruct (slot _) as [i|]; [|done]. cbn.
  destruct (reseq_buffer s !! i); [by intros ->%IH|]. destruct (existsb _ _); [by intros [= <-]|by intros ->%IH].
Qed.
Lemma tick_state s s' ev : tick_nak_timers s = Some (s', ev) → state s' = state s.
Proof.
  unfold tick_nak_timers. edestruct queue_groups_controls as [p ->]. case_decide; [by intros [= <- <-]|].
  unfold advance_l_v_n_past_gaps. destruct (advance_loop _ _) as [s1|] eqn:E; [|done]. apply advance_loop_state in E.
  cbn. unfold flush_delivery_events. case_decide; intros [= <- <-]; exact E.
Qed.

Lemma tick_ok s : inv3 s → ok3 (tick_nak_timers s).
Proof.
  intros H. unfold tick_nak_timers.
  set (t := tick_entry _ _ _ _). set (ticked := t <$> nak_list s).
  assert (∀ e, nk_l_seq (t e).1.1 = nk_l_seq e) as T1 by (intros; apply tick_entry_seq).
  assert (∀ e q, q ∈ (t e).1.2 → q.2 = nk_l_seq e) as T2 by (intros e; apply tick_entry_seq).
  assert (∀ e, e ∈ nak_list s → seq12 (nk_l_seq e)) as Hn by (apply Forall_forall, H).
  assert (inv3 (set_nak_list ((λ t, t.1.1) <$> ticked) s)) as H1.
  { apply inv3_naks; [done|]. apply Forall_forall. intros e (q & -> & (e' & -> & He')%list_elem_of_fmap)%list_elem_of_fmap.
    rewrite T1. by apply Hn. }
  set (s1 := set_nak_list _ s) in *. clearbody s1.
  assert (Forall (λ p : nat * Z, seq12 p.2) (mjoin ((λ t, t.1.2) <$> ticked))) as Hs.
  { apply Forall_forall. intros q (u & (e & -> & He)%list_elem_of_fmap & Hq)%elem_of_mjoin_fmap.
    rewrite (T2 e q Hq). by apply Hn. }
  set (sends := mjoin ((λ t, t.1.2) <$> ticked)) in *. clearbody sends.
  assert (∀ g, Forall (λ p : nat * list Z, Forall seq12 p.2) g →
    Forall (λ p : nat * list Z, Forall seq12 p.2) (foldl (λ g p, group_insert p.1 p.2 g) g sends)) as Hgr.
  { induction Hs as [|q l Hq _ IH]; intros g Hg; [done|]. cbn [foldl]. by apply IH, group_insert_ok. }
  specialize (Hgr [] (Forall_nil_2 _)). set (grouped := foldl _ [] sends) in *. clearbody grouped.
  assert (inv3 (foldl queue_group s1 grouped)) as H2.
  { clear -H1 Hgr. revert s1 H1. induction Hgr as [|g l Hg _ IH]; intros s1 H1; [done|]. by apply IH, queue_group_ok. }
  set (s2 := foldl queue_group s1 grouped) in *. clearbody s2.
  set (expired := mjoin (snd <$> ticked)).
  assert (inv3 (set_nak_list (filter (λ e, nk_l_seq e ∉ expired) (nak_list s2)) s2)) as H3.
  { apply inv3_naks; [done|]. apply forall_filter, H2. }
  assert (Forall (λ e, match e with DataDelivered d => bytes d ∧ d ≠ [] | _ => True end)
    ((λ seq, NakAbandoned seq seq) <$> expired)) as Hev by (apply Forall_fmap, Forall_true; done).
  case_decide; [by apply ok3_ret|].
  apply ok3_bind; [by apply advance_loop_ok|]. intros s4 H4.
  destruct (flush_ok s4 H4) as (s5 & ev & [= E] & H5 & Hev5). rewrite E. apply ok3_ret; [done|by apply Forall_app_2].
Qed.

(** ** Segments *)
Lemma try_assemble_bytes r d : wf_segments r → try_assemble r = Some d → bytes d.
Proof.
  intros [_ Hr]. unfold try_assemble. destruct (negb _); [done|].
  generalize (List.seq 0 (Z.to_nat (final_s_seq r + 1))) as l. intros l.
  cut (∀ acc, (∀ a, acc = Some a → bytes a) → foldl (λ acc i, assembled ← acc;
             match segments r !! i with Some (Some seg_data) => Some (assembled ++ seg_data) | _ => None end) acc l = Some d → bytes d).
  { intros Hc. apply Hc. intros a [= <-]. apply Forall_nil_2. }
  induction l as [|i l IH]; intros acc Ha; [by apply Ha|]. cbn [foldl]. apply IH.
  destruct acc as [a|]; [|done]. rewrite bind_some. destruct (segments r !! i) as [[x|]|] eqn:E; [|done..].
  intros ? [= <-]. apply bytes_app. split; [by apply Ha|]. by apply (Forall_lookup_1 _ _ _ _ Hr E).
Qed.

Lemma receive_assembled_ok rx q d s : inv3 s → bytes d → ok3 (receive_assembled rx q d s).
Proof. intros. unfold receive_assembled. destruct rx; [by apply receive_rexmit_ok|by apply receive_new_ok]. Qed.

Lemma store_segment_ok l q d r : wf_segments r → bytes d → 0 ≤ q →
  ∃ r', store_segment l q d r = Some r' ∧ wf_segments r'.
Proof.
  intros [Hf Hs] Hd Hq. unfold store_segment.
  set (segs := if decide _ then _ else _).
  assert (Forall (λ o, bytes (default [] o)) segs ∧ (Z.to_nat q < length segs)%nat) as [H1 H2].
  { subst segs. case_decide; [|split; [done|lia]]. split.
    - apply Forall_app_2; [done|]. apply Forall_replicate, Forall_nil_2.
    - rewrite length_app, length_replicate. lia. }
  rewrite set_index_Some, bind_some by done. eexists. split; [done|].
  assert (Forall (λ o, bytes (default [] o)) (<[Z.to_nat q := Some d]> segs)) by by apply Forall_insert.
  by destruct l; split; cbn.
Qed.

Lemma receive_segmented_ok seq sqi l rx q d s : inv3 s → bytes d → 0 ≤ q → ok3 (receive_segmented seq sqi l rx q d s).
Proof.
  intros H Hd Hq. unfold receive_segmented.
  assert (∀ r, wf_segments r → inv3 (set_seg_reassembly (Some r) s)) as Hsome
    by (intros r Hr; apply inv3_seg; [done|]; by intros ? [= <-]).
  assert (inv3 (set_seg_reassembly None s)) as Hnone by (apply inv3_seg; [done|]; by intros ? [=]).
  destruct sqi.
  - rewrite set_index_Some, bind_some by (rewrite length_replicate; destruct l; lia).
    set (r := mkSegmentReassembly _ _ _ _ _ _).
    assert (wf_segments r) as Hr.
    { split; cbn; [by destruct l|]. apply Forall_insert; [|done]. apply Forall_replicate, Forall_nil_2. }
    destruct (if l then try_assemble r else None) as [a|] eqn:E; [|apply ok3_nil; auto].
    apply receive_assembled_ok; [done|]. destruct l; [|done]. by apply (try_assemble_bytes r).
  - destruct (seg_reassembly s) as [r|] eqn:Er; [|by apply ok3_nil].
    destruct (negb _); [by apply ok3_nil|].
    destruct (store_segment_ok l q d r (inv_seg s H r Er) Hd Hq) as (r' & -> & Hr'). rewrite bind_some.
    destruct (if last_seg_seen r' then try_assemble r' else None) as [a|] eqn:E; [|apply ok3_nil; auto].
    apply receive_assembled_ok; [done|]. destruct (last_seg_seen r'); [|done]. by apply (try_assemble_bytes r').
Qed.

(** ** Retransmission requests *)
Lemma queue_rexmit_ok x s : inv3 s → seq12 x → ok3' (queue_retransmission x s).
Proof.
  intros H Hx. unfold queue_retransmission. destruct (existsb _ _); [by eexists|].
  rewrite slot_ok, bind_some by done. destruct (sent_buffer s !! x); [|by eexists].
  eexists. split; [done|]. apply inv3_rexmit; [done|]. apply Forall_app_2; [apply H|].
  apply Forall_singleton. split; [done|]. cbn. lia.
Qed.

Lemma queue_range_ok fuel : ∀ x last s, inv3 s → seq12 x → ok3' (queue_range fuel x last s).
Proof.
  induction fuel as [|fuel IH]; intros x last s H Hx; cbn [queue_range]; [by eexists|].
  apply ok3'_bind; [by apply queue_rexmit_ok|]. intros s' H'. destruct (_ =? _); [by eexists|].
  apply IH; [done|apply next_seq_ok].
Qed.

Lemma foldM_ok {A} (P : A → Prop) f l s :
  (∀ a s, P a → inv3 s → ok3' (f a s)) → Forall P l → inv3 s → ok3' (foldM f l s).
Proof.
  intros Hf Hl H. unfold foldM. assert (ok3' (Some s)) as Hs by by eexists. revert Hs. generalize (Some s) as acc.
  induction Hl as [|a l Ha _ IH]; intros acc Hacc; [done|]. cbn [foldl]. apply IH. apply ok3'_bind; auto.
Qed.

Lemma process_nak_ok seq hi p s : inv3 s → is_u8 seq → is_u 4 hi → wf_payload p → ok3' (process_nak seq hi p s).
Proof.
  intros H Hs Hh Hp. unfold process_nak.
  assert (inv3 (set_l_v_n_peer (Z.lor (wrap 16 (Z.shiftl hi 8)) seq) s)) as H1 by (apply inv3_peer; auto with rust).
  destruct p as [es|es|es|es]; destruct Hp as [Hes _].
  - apply (foldM_ok wf_gap); [|done..]. intros e s' [He _] Hs'. by apply queue_range_ok.
  - apply (foldM_ok wf_map); [|done..]. intros e s' [He _] Hs'. unfold queue_map.
    apply ok3'_bind; [by apply queue_rexmit_ok|]. intros s2 H2.
    apply (foldM_ok (λ _, True)); [|by apply Forall_true|done]. intros b s3 _ H3.
    destruct (_ =? 0); [by eexists|]. apply queue_rexmit_ok; [done|apply mod_4096_ok].
  - apply (foldM_ok wf_seg_range); [|done..]. intros e s' [He _] Hs'. by apply queue_rexmit_ok.
  - apply (foldM_ok wf_seg_len); [|done..]. intros e s' [He _] Hs'. by apply queue_rexmit_ok.
Qed.

(** ** Frames *)
Lemma process_data_transfer_ok f s : inv3 s → wf_frame3 f → ok3 (process_data_transfer f s).
Proof.
  intros H Hf. unfold process_data_transfer.
  destruct (is_sync f); [apply ok3_ret; [auto with inv3|by apply Forall_singleton]|].
  destruct f as [seq ct iv np|seq hi p|seq r d|seq sqi l r h q d|seq r d|seq hi|seq hi|seq].
  - by apply ok3_nil.
  - destruct Hf as (?&?&?). apply ok3_bind; [by apply process_nak_ok|]. intros; by apply ok3_nil.
  - destruct Hf. destruct r; [by apply receive_rexmit_ok|]. case_decide; [by apply ok3_nil|by apply receive_new_ok].
  - destruct Hf as (?&?&[? _]&?). by apply receive_segmented_ok.
  - destruct Hf. destruct r; [by apply receive_rexmit_ok|by apply receive_new_ok].
  - destruct Hf. apply ok3_nil, inv3_peer; auto with rust.
  - by apply ok3_nil.
  - by apply ok3_nil.
Qed.

Lemma ok3_cons m e : match e with DataDelivered _ => False | _ => True end → ok3 m → ok3 ('(s, ev) ← m; Some (s, e :: ev)).
Proof. intros He (s & ev & -> & Hs & Hev). apply ok3_ret; [done|]. apply Forall_cons_2; [by destruct e|done]. Qed.

Lemma process_frame_ok f s : inv3 s → wf_frame3 f → state s ≠ Uninitialized → ok3 (process_frame f s).
Proof.
  intros H Hf Hst. unfold process_frame.
  assert (ok3 (enter_with f s)) as He.
  { apply ok3_cons; [done|]. apply process_data_transfer_ok; [by apply inv3_state|done]. }
  assert (∀ s e, inv3 s → match e with DataDelivered _ => False | _ => True end → ok3 (Some (s, [e]))) as H1.
  { intros s' e Hs' Hev. apply ok3_ret; [done|]. apply Forall_singleton. by destruct e. }
  destruct (state s); [done| | | |by apply process_data_transfer_ok].
  - unfold process_sync_state. destruct f as [seq [] iv np|seq hi p|seq r d|seq sqi l r h q d|seq r d|seq hi|seq hi|seq];
      first [by apply ok3_nil|apply H1; [|done]]; unfold measure_delay; auto 10 with inv3.
  - unfold process_sync_ack_state.
    destruct f as [seq [] iv np|seq hi p|seq r d|seq sqi l r h q d|seq r d|seq hi|seq hi|seq]; try exact He;
      try (by apply ok3_nil); try (apply H1; [|done]; unfold enter_data_transfer, measure_delay; auto 10 with inv3).
    apply ok3_nil. auto with inv3.
  - unfold process_ack_state.
    destruct f as [seq [] iv np|seq hi p|seq r d|seq sqi l r h q d|seq r d|seq hi|seq hi|seq]; try exact He;
      try (by apply ok3_nil); try (apply H1; [|done]; auto 10 with inv3).
    apply ok3_nil. auto with inv3.
Qed.

Lemma ok3_app m (ev : list RlpEvent) : Forall (λ e, match e with DataDelivered d => bytes d ∧ d ≠ [] | _ => True end) ev →
  ok3 m → ok3 ('(s, ev') ← m; Some (s, ev ++ ev')).
Proof. intros He (s & ev' & -> & Hs & Hev). apply ok3_ret; [done|by apply Forall_app_2]. Qed.

Lemma receive_decoded_ok f s : inv3 s → wf_frame3 f → state s ≠ Uninitialized → ok3 (receive_decoded f s).
Proof.
  intros H Hf Hst. unfold receive_decoded. destruct (should_reinitialize_from_control f).
  - apply ok3_app; [case_decide; [apply Forall_nil_2|by apply Forall_singleton]|].
    apply process_frame_ok; [apply inv3_initialize|done|done].
  - apply ok3_app; [apply Forall_nil_2|]. by apply process_frame_ok.
Qed.

Lemma safe_try_fill bits mux : safe wf_frame3 (try_decode_fill_or_idle1 bits mux).
Proof.
  unfold try_decode_fill_or_idle1. eapply (safe_try (λ l, length l = info_bits mux)).
  - unfold format_a_info. sstep. assert (info_bits mux + type_bits mux ≤ length bits)%nat by (destruct mux; cbn in *; lia).
    assert (type_bits mux ≤ 31)%nat by (destruct mux; cbn; lia). sstep. case_decide; [done|]. sstep. done.
  - intros l Hl. assert (16 ≤ length l)%nat by (rewrite Hl; destruct mux; cbn; lia). do 3 sstep.
    destruct (_ =? 9); [|destruct (_ =? 10); [|done]]; cbn; (split; [by apply is_u_wrap|by apply (wrap_is_u 4)]).
Qed.

Lemma decode_at_ok rate bits mux : ∃ f, decode_at rate bits mux = Some f ∧ ∀ x, f = Some x → wf_frame3 x.
Proof.
  unfold decode_at. case_decide.
  - pose proof (safe_decode bits mux) as H1. pose proof (safe_try_fill bits mux) as H2.
    destruct (decode_rlp3_frame bits mux) as [[f|e]|]; cbn in H1; [|rewrite bind_some|done].
    + exists (Some f). split; [done|]. by intros ? [= <-].
    + destruct (try_decode_fill_or_idle1 bits mux) as [[f|e']|]; [|by exists None|done].
      exists (Some f). split; [done|]. by intros ? [= <-].
  - destruct (sub_rate_info_bits rate) as [n|] eqn:En; [|by exists None].
    pose proof (safe_sub_rate_decode bits n ltac:(destruct rate; simplify_eq/=; lia)) as H1.
    destruct (decode_sub_rate_frame bits n) as [[f|e]|]; [|by exists None|done].
    exists (Some f). split; [done|]. by intros ? [= <-].
Qed.

(** ** Frames the session sends *)
Lemma gap_nak_encode f mux : gap_nak f →
  (nak_too_long mux f → encode f mux = None) ∧ (¬ nak_too_long mux f → ∃ bits, encode_or_default f mux = Some bits).
Proof.
  destruct f as [|seq hi [es| | |]| | | | | |]; try done. intros _. cbn [nak_too_long]. split.
  - intros H. by apply encode_nak_none.
  - intros H. destruct (encode_nak_some seq hi (Gap es) mux) as [[b|e] Hr]; [cbn; lia|..]; unfold encode_or_default;
      rewrite Hr; by eexists.
Qed.

(** Every frame the session builds itself can be encoded. *)
Lemma encode_some f mux :
  match f with
  | NakFrame _ _ _ => False
  | Segmented _ sqi _ _ h _ d => sqi = bool_decide (is_Some h) ∧ ((if sqi then 40 else 32) + 8 * length d ≤ info_bits mux)%nat ∧ (length d < 32)%nat
  | _ => True
  end → ∃ bits, encode_or_default f mux = Some bits.
Proof.
  unfold encode_or_default. destruct f as [seq ct iv np|seq hi p|seq r d|seq sqi l r h q d|seq r d|seq hi|seq hi|seq]; intros H.
  - rewrite encode_control_spec. by eexists.
  - done.
  - destruct (decide (length d ≤ max_data_len mux)%nat).
    + rewrite encode_data_spec by done. by eexists.
    + cbn [encode]. unfold encode_data_unsegmented. rewrite decide_True by lia. by eexists.
  - destruct H as (-> & Hl & H32). rewrite encode_seg_spec; [by eexists| |done].
    rewrite length_seg_info. destruct h; [rewrite bool_decide_eq_true_2 in Hl by done|rewrite bool_decide_eq_false_2 in Hl by (by intros [])]; lia.
  - destruct (decide (length d = format_b_data_len mux)).
    + rewrite encode_b_spec by done. by eexists.
    + cbn [encode]. unfold encode_format_b. rewrite decide_True by done. by eexists.
  - rewrite (proj1 (encode_fill_spec seq hi mux)). by eexists.
  - rewrite (proj2 (encode_fill_spec seq hi mux)). by eexists.
  - rewrite encode_idle2_spec. by eexists.
Qed.

(** ** Transmitting *)
Ltac encodes :=
  match goal with
  | |- context [encode_or_default ?f ?m] =>
      let b := fresh "b" in let E := fresh "E" in destruct (encode_some f m) as [b E]; [exact I|]; rewrite E
  end.

Lemma idle_or_fill_ok s : inv3 s → ∃ s' bits, idle_or_fill s = Some (s', bits) ∧ inv3 s'.
Proof.
  intros H. unfold idle_or_fill, build_idle_frame, build_fill_frame. destruct (_ <=? _).
  - encodes. do 2 eexists. split; [done|]. auto with inv3.
  - encodes. do 2 eexists. split; [done|]. auto with inv3.
Qed.

Lemma new_data_frame_encodes s : ∃ bits, encode_or_default (new_data_frame s).1 (mux_option (config s)) = Some bits.
Proof.
  apply encode_some. unfold new_data_frame. destruct (new_data_requires_seq_hi _ _); [|by case_decide].
  cbn [fst]. split_and!; [done| |]; rewrite length_take; destruct (mux_option (config s)); cbn; lia.
Qed.

Lemma build_new_data_ok s : inv3 s → ∃ s' bits, build_new_data_frame s = Some (s', bits) ∧ inv3 s'.
Proof.
  intros H. unfold build_new_data_frame. destruct (new_data_frame_encodes s) as [bits Hb].
  destruct (new_data_frame s) as [f n]. cbn [fst] in Hb. session3. rewrite slot_ok, bind_some by apply H.
  rewrite Hb, bind_some. do 2 eexists. split; [done|]. auto 10 with inv3.
Qed.

(** When the next frame is built from the data queues. *)
Definition builds (s : Rlp3Session) : bool :=
  match state s with
  | DataTransfer => true
  | StAck => round_trip_counter s <? handshake_frames_sent s + 1
  | _ => false
  end.

Lemma reverse_last {A} (l : list A) : reverse l = match last l with Some x => x :: reverse (take (length l - 1) l) | None => [] end.
Proof.
  induction l as [|x l _] using rev_ind; [done|]. rewrite last_snoc, reverse_snoc, length_app. cbn.
  by rewrite Nat.add_sub, take_app_length.
Qed.

Lemma build_data_ok rate allow s : inv3 s →
  (rate = Full → ∀ f, last (pending_controls s) = Some f → ¬ nak_too_long (mux_option (config s)) f) →
  ∃ s' bits, build_data_frame rate allow s = Some (s', bits) ∧ inv3 s'.
Proof.
  intros H Hc. unfold build_data_frame. case_decide as Hr.
  { destruct (sub_rate_info_bits rate) as [n|] eqn:En; [|by do 2 eexists].
    unfold encode_sub_rate_fill. rewrite decide_False by (destruct rate; simplify_eq/=; lia).
    assert (16 ≤ n)%nat by (destruct rate; simplify_eq/=; lia).
    assert (∃ b, (info ← put_bits (replicate n 0) 0 (v_r_8 (l_v_n s)) 8; info ← put_bits info 8 9 4;
      info ← put_bits info 12 (Z.land (seq_hi_of (l_v_n s)) 15) 4; Some (Ok (E := RlpError) info)) = Some b) as [b ->]; [|by do 2 eexists].
    change (replicate n 0) with ([] ++ replicate n 0).
    rewrite put_bits_zeros, bind_some by (cbn; lia). rewrite put_bits_zeros, bind_some by (field_lengths; cbn; lia).
    rewrite put_bits_zeros by (field_lengths; cbn; lia). by eexists. }
  assert (rate = Full) as -> by (destruct rate; naive_solver).
  rewrite reverse_last. destruct (last (pending_controls s)) as [f|] eqn:Ef.
  { assert (gap_nak f) as Hf. { eapply Forall_forall; [apply (inv_controls s H)|]. by apply last_Some_elem_of. }
    destruct (proj2 (gap_nak_encode f (mux_option (config s)) Hf) (Hc eq_refl f eq_refl)) as [b Hb].
    session3. rewrite Hb. do 2 eexists. split; [done|]. apply inv3_controls; [done|].
    rewrite reverse_involutive. apply Forall_take, H. }
  destruct allow; cbn [negb]; [|by apply idle_or_fill_ok].
  destruct (rexmit_queue s) as [|e q] eqn:Eq.
  - case_decide; [|by apply idle_or_fill_ok]. apply build_new_data_ok. auto with inv3.
  - destruct (encode_some (rexmit_frame e (mux_option (config s))) (mux_option (config s))) as [b Hb];
      [by unfold rexmit_frame; case_decide|]. rewrite Hb. do 2 eexists. split; [done|].
    apply inv3_idle, inv3_rexmit; [done|]. pose proof (inv_rexmit s H) as Hx. rewrite Eq in Hx. by inversion Hx.
Qed.

Lemma build_data_panics allow s f : inv3 s → last (pending_controls s) = Some f → nak_too_long (mux_option (config s)) f →
  build_data_frame Full allow s = None.
Proof.
  intros H Ef Hf. unfold build_data_frame. rewrite decide_False by auto. rewrite reverse_last, Ef.
  assert (gap_nak f) as Hg. { eapply Forall_forall; [apply (inv_controls s H)|]. by apply last_Some_elem_of. }
  unfold encode_or_default. by rewrite (proj1 (gap_nak_encode f _ Hg) Hf).
Qed.

(** Everything but a pending NAK too long for the frame. *)
Lemma next_frame_ok rate allow s : inv3 s →
  ¬ (rate = Full ∧ builds s = true ∧ ∃ f, last (pending_controls s) = Some f ∧ nak_too_long (mux_option (config s)) f) →
  ∃ s' bits, next_frame_with_payload rate allow s = Some (s', bits) ∧ inv3 s'.
Proof.
  intros H Hok. unfold next_frame_with_payload.
  assert (∀ ct iv s0, inv3 s0 → ∃ s' bits,
    (bits ← encode_or_default (Control (v_r_8 (l_v_s s0)) ct iv false) (mux_option (config s)); Some (s0, bits)) = Some (s', bits) ∧ inv3 s')
    as Hsend.
  { intros ct iv s0 H0. encodes. by do 2 eexists. }
  case_decide as Hu.
  { cbn [state initialize]. apply Hsend. auto with inv3. }
  destruct (state s) eqn:Es; [done|apply Hsend; auto with inv3|apply Hsend; auto with inv3| |].
  - destruct (_ <? _) eqn:El; [|apply Hsend; auto with inv3].
    apply build_data_ok; [by apply inv3_state, inv3_hfs|]. session3. intros -> f Ef Hf. apply Hok. split_and!; [done| |by eexists].
    unfold builds. by rewrite Es.
  - apply build_data_ok; [done|]. intros -> f Ef Hf. apply Hok. split_and!; [done| |by eexists].
    unfold builds. by rewrite Es.
Qed.

Lemma next_frame_panics allow s f : inv3 s → builds s = true →
  last (pending_controls s) = Some f → nak_too_long (mux_option (config s)) f →
  next_frame_with_payload Full allow s = None.
Proof.
  intros H Hb Ef Hf. unfold builds in Hb. unfold next_frame_with_payload.
  destruct (state s) eqn:Es; [done..| |]; rewrite decide_False by done; rewrite Es.
  - session3. rewrite Hb. eapply build_data_panics; [by apply inv3_state, inv3_hfs|exact Ef|exact Hf].
  - by eapply build_data_panics.
Qed.

(** ** The supplemental channel *)

(** The fields of a supplemental frame, a gap of padding, the data. *)
Lemma supplemental_layout head pad data m :
  (length (fbits head) + pad + 8 * length data ≤ m)%nat →
  ∃ bits, ('(frame, pos) ← put_fields (replicate m 0, 0%nat) head;
           '(frame, _) ← put_fields (frame, (pos + pad)%nat) (octet_fields data); Some (Ok (E := RlpError) frame)) = Some (Ok bits)
    ∧ bits = fbits head ++ replicate pad 0 ++ octet_bits data ++ replicate (m - length (fbits head) - pad - 8 * length data) 0.
Proof.
  intros H. rewrite put_fields_zeros, bind_some by lia.
  replace (m - length (fbits head))%nat with (pad + (m - length (fbits head) - pad))%nat by lia.
  rewrite replicate_add, app_assoc, put_fields_spec, bind_some
    by (rewrite ?fbits_octets, ?length_octet_bits, ?length_app, ?length_replicate; lia).
  eexists. split; [done|]. rewrite fbits_octets, length_octet_bits, <- !app_assoc. repeat f_equal. lia.
Qed.

(** Fields written in several calls are written in one. *)
Lemma put_fields_app st a b : put_fields st (a ++ b) = st' ← put_fields st a; put_fields st' b.
Proof.
  unfold put_fields. rewrite foldl_app. destruct (foldl _ (Some st) a) as [[bits pos]|]; [done|].
  cbn [mbind option_bind]. induction b; done.
Qed.

Definition d_head (seq ssp : Z) (hi : option Z) (last rexmit : bool) (len : nat) (s_seq : list (Z * nat)) : list (Z * nat) :=
  [(0, 2%nat); (seq, 8%nat); (ssp, 1%nat); (Z.b2z (bool_decide (is_Some hi)), 1%nat); (Z.b2z last, 1%nat);
   (Z.b2z rexmit, 1%nat); (Z.of_nat len, 8%nat)]
  ++ match hi with Some h => [(h, 4%nat)] | None => [] end ++ s_seq.

Lemma length_d_head seq ssp hi last rexmit len s_seq :
  length (fbits (d_head seq ssp hi last rexmit len s_seq)) = (22 + match hi with Some _ => 4 | None => 0 end + length (fbits s_seq))%nat.
Proof. unfold d_head. rewrite !fbits_app, !length_app. by destruct hi. Qed.

Lemma bind_pair {A B C} (m : option (A * B)) (k : A * B → option C) : (m ≫= λ '(a, b), k (a, b)) = m ≫= k.
Proof. by destruct m as [[]|]. Qed.

Lemma format_d_layout seq hi rexmit data block_bits n :
  supplemental_format_d_data_len block_bits = Some n → data ≠ [] → (length data ≤ n)%nat → (∀ h, hi = Some h → is_u 4 h) →
  ∃ pad bits, encode_supplemental_format_d_block seq hi rexmit data block_bits = Some (Ok bits) ∧ length bits = block_bits ∧
    bits = fbits (d_head seq 0 hi true rexmit (length data) []) ++ replicate pad 0 ++ octet_bits data
           ++ replicate (block_bits - 26 - 8 * length data) 0.
Proof.
  intros Hn Hd Hl Hh. unfold encode_supplemental_format_d_block. rewrite Hn, decide_False by (intros [?|?]; [done|lia]).
  assert (26 + 8 * n = block_bits)%nat as Hb.
  { unfold supplemental_format_d_data_len in Hn. repeat case_decide; by simplify_eq. }
  assert (seq_hi_too_big hi = None) as ->.
  { destruct hi as [h|]; [|done]. cbn. specialize (Hh h eq_refl). unfold is_u in Hh. by replace (15 <? h) with false by lia. }
  pose proof (length_d_head seq 0 hi true rexmit (length data) []) as Hlen.
  destruct (supplemental_layout (d_head seq 0 hi true rexmit (length data) [])
    (match hi with Some _ => 0 | None => 4 end) data block_bits) as (bits & Hbits & Ebits); [rewrite Hlen; destruct hi; cbn; lia|].
  exists (match hi with Some _ => 0 | None => 4 end)%nat, bits. split_and!.
  - rewrite <- Hbits. unfold d_head. rewrite put_fields_app.
    pose proof (put_fields_zeros ([(0, 2%nat); (seq, 8%nat); (0, 1%nat); (Z.b2z (bool_decide (is_Some hi)), 1%nat);
      (1, 1%nat); (Z.b2z rexmit, 1%nat); (Z.of_nat (length data), 8%nat)]) block_bits ltac:(change (22 ≤ block_bits)%nat; lia)) as E1.
    cbn [Z.b2z]. rewrite E1, !bind_some. destruct hi as [h|]; cbn [app]; [|done].
    set (head7 := fbits _). assert (length head7 = 22%nat) as H7 by reflexivity. clearbody head7.
    rewrite put_fields_spec, !bind_some; [|done|change (length (fbits [(h, 4%nat)])) with 4%nat; lia].
    change (length (fbits [(h, 4%nat)])) with 4%nat. rewrite H7. done.
  - rewrite Ebits. rewrite !length_app, !length_replicate, length_octet_bits, Hlen. destruct hi; cbn; lia.
  - rewrite Ebits. do 3 f_equal. f_equal. rewrite Hlen. destruct hi; cbn; lia.
Qed.

Lemma seg_len_spec block_bits b n : supplemental_format_d_segment_data_len block_bits b = Some n →
  ((if b then 42 else 34) + 8 * n ≤ block_bits ∧ 0 < n)%nat.
Proof.
  unfold supplemental_format_d_segment_data_len. destruct b; cbn [Nat.add];
    [change (pad_supplemental 38) with 42%nat|change (pad_supplemental 34) with 34%nat];
    repeat case_decide; intros; simplify_eq;
    [pose proof (Nat.Div0.mul_div_le (block_bits - 42) 8)|pose proof (Nat.Div0.mul_div_le (block_bits - 34) 8)]; lia.
Qed.

Lemma format_d_segment_layout seq hi s_seq last rexmit data block_bits n :
  supplemental_format_d_segment_data_len block_bits (bool_decide (is_Some hi)) = Some n →
  data ≠ [] → (length data ≤ n)%nat → (∀ h, hi = Some h → is_u 4 h) → s_seq ≤ 0xfff →
  ∃ pad bits k, encode_supplemental_format_d_segment_block seq hi s_seq last rexmit data block_bits = Some (Ok bits) ∧
    length bits = block_bits ∧
    bits = fbits (d_head seq 1 hi last rexmit (length data) [(s_seq, 12%nat)]) ++ replicate pad 0 ++ octet_bits data ++ replicate k 0.
Proof.
  intros Hn Hd Hl Hh Hs. unfold encode_supplemental_format_d_segment_block.
  rewrite Hn, decide_False by (intros [?|?]; [done|lia]). apply seg_len_spec in Hn as [Hb _].
  assert (seq_hi_too_big hi = None) as ->.
  { destruct hi as [h|]; [|done]. cbn. specialize (Hh h eq_refl). unfold is_u in Hh. by replace (15 <? h) with false by lia. }
  replace (0xfff <? s_seq) with false by lia.
  pose proof (length_d_head seq 1 hi last rexmit (length data) [(s_seq, 12%nat)]) as Hlen.
  change (length (fbits [(s_seq, 12%nat)])) with 12%nat in Hlen.
  set (pad := (match hi with Some _ => 4 | None => 0 end)%nat).
  assert (22 + match hi with Some _ => 4 | None => 0 end + 12 + pad + 8 * length data ≤ block_bits)%nat as Hroom.
  { unfold pad. destruct hi; [rewrite bool_decide_eq_true_2 in Hb by done|rewrite bool_decide_eq_false_2 in Hb by (by intros [])]; lia. }
  destruct (supplemental_layout (d_head seq 1 hi last rexmit (length data) [(s_seq, 12%nat)]) pad data block_bits)
    as (bits & Hbits & Ebits); [rewrite Hlen; lia|].
  exists pad, bits. eexists. split_and!; [|rewrite Ebits|exact Ebits].
  - rewrite <- Hbits. unfold d_head. rewrite put_fields_app.
    set (head7 := [(0, 2%nat); (seq, 8%nat); (1, 1%nat); (Z.b2z (bool_decide (is_Some hi)), 1%nat);
      (Z.b2z last, 1%nat); (Z.b2z rexmit, 1%nat); (Z.of_nat (length data), 8%nat)]).
    assert (length (fbits head7) = 22%nat) as H7 by reflexivity. clearbody head7.
    rewrite put_fields_zeros, !bind_some by lia. rewrite put_fields_app.
    assert (∀ x n, length (fbits [(x, n)]) = n) as H1.
    { intros x k. rewrite fbits_cons. cbn [fbits fmap list_fmap mjoin list_join snd fst]. by rewrite app_nil_r, length_to_bits. }
    destruct hi as [h|].
    + rewrite put_fields_spec, !bind_some by (rewrite ?H1; done || lia).
      rewrite app_assoc, put_fields_spec, !bind_some by (rewrite ?H1, ?length_app, ?H1; lia).
      rewrite !H1, H7. done.
    + change (put_fields ?st []) with (Some st). rewrite !bind_some.
      rewrite put_fields_spec, !bind_some by (rewrite ?H1; done || lia). rewrite !H1, H7. done.
  - rewrite !length_app, !length_replicate, length_octet_bits, Hlen. lia.
Qed.

Lemma split_first_spec {A} (p : A → bool) l pre x post :
  split_first p l = Some (pre, x, post) → l = pre ++ x :: post ∧ p x = true.
Proof.
  revert pre. induction l as [|a l IH]; intros pre; cbn [split_first]; [done|].
  destruct (p a) eqn:E; [intros [= <- <- <-]; done|].
  destruct (split_first p l) as [[[pre' x'] post']|]; [|done]. intros [= <- <- <-].
  destruct (IH pre' eq_refl) as [-> ?]. done.
Qed.

(** What a supplemental block is to the session: nothing, or a block of the right size. *)
Definition sch_ok (block_bits : nat) (m : rust (Rlp3Session * option (list Z))) : Prop :=
  ∃ s b, m = Some (s, b) ∧ inv3 s ∧ ∀ bits, b = Some bits → length bits = block_bits.

Lemma sch_none n s : inv3 s → sch_ok n (Some (s, None)).
Proof. intros. by exists s, None. Qed.
Lemma sch_some n s bits : inv3 s → length bits = n → sch_ok n (Some (s, Some bits)).
Proof. intros. exists s, (Some bits). split_and!; [done|done|]. by intros ? [= <-]. Qed.

Lemma hi_field_ok (b : bool) x h : seq12 x → (if b then Some (seq_hi_of x) else None) = Some h → is_u 4 h.
Proof. intros Hx. destruct b; [|done]. intros [= <-]. by apply seq_hi_ok. Qed.

(** Either outcome of an encoder that does not panic. *)
Lemma sch_encoded n m (k : list Z → rust (Rlp3Session * option (list Z))) s :
  inv3 s → (∃ r, m = Some r ∧ ∀ b, r = Ok b → length b = n ∧ sch_ok n (k b)) →
  sch_ok n (bits ← ok_or_none m; match bits with None => Some (s, None) | Some bits => k bits end).
Proof.
  intros Hs (r & -> & Hr). unfold ok_or_none. destruct r as [b|e]; cbn; [by apply Hr|by apply sch_none].
Qed.

Lemma format_c_total seq rexmit data n : ∃ r, encode_supplemental_format_c_block seq rexmit data n = Some r ∧ ∀ b, r = Ok b → length b = n.
Proof.
  destruct (supplemental_format_c_data_len n) as [c|] eqn:Ec.
  2:{ unfold encode_supplemental_format_c_block. rewrite Ec. by eexists. }
  destruct (decide (length data = c)) as [Hl|Hl].
  - rewrite (format_c_layout _ _ _ _ c) by done. set (bits := to_bits 2 _ ++ _).
    assert (length bits = n) as Hb.
    { subst bits. field_lengths. rewrite Hl. clear Hl.
      unfold supplemental_format_c_data_len, SUPPLEMENTAL_FORMAT_C_DATA_LEN, SUPPLEMENTAL_FORMAT_C_DOUBLE_DATA_LEN in Ec.
      repeat case_decide; by simplify_eq. }
    clearbody bits. eexists. split; [done|]. by intros ? [= <-].
  - unfold encode_supplemental_format_c_block. rewrite Ec, decide_True by done. by eexists.
Qed.

Lemma format_d_total seq hi rexmit data n : (∀ h, hi = Some h → is_u 4 h) →
  ∃ r, encode_supplemental_format_d_block seq hi rexmit data n = Some r ∧ ∀ b, r = Ok b → length b = n.
Proof.
  intros Hh. destruct (supplemental_format_d_data_len n) as [d|] eqn:Ed.
  2:{ unfold encode_supplemental_format_d_block. rewrite Ed. by eexists. }
  destruct (decide (data = [] ∨ (d < length data)%nat)) as [Hl|Hl].
  { unfold encode_supplemental_format_d_block. rewrite Ed, decide_True by done. by eexists. }
  destruct (format_d_layout seq hi rexmit data n d Ed) as (pad & bits & -> & Hb & _); [naive_solver|lia|done|].
  eexists. split; [done|]. by intros ? [= <-].
Qed.

Lemma format_d_segment_total seq hi q l rexmit data n : (∀ h, hi = Some h → is_u 4 h) →
  ∃ r, encode_supplemental_format_d_segment_block seq hi q l rexmit data n = Some r ∧ ∀ b, r = Ok b → length b = n.
Proof.
  intros Hh. destruct (supplemental_format_d_segment_data_len n (bool_decide (is_Some hi))) as [d|] eqn:Ed.
  2:{ unfold encode_supplemental_format_d_segment_block. rewrite Ed. by eexists. }
  destruct (decide (data = [] ∨ (d < length data)%nat)) as [Hl|Hl].
  { unfold encode_supplemental_format_d_segment_block. rewrite Ed, decide_True by done. by eexists. }
  destruct (decide (q ≤ 0xfff)) as [Hq|Hq].
  - destruct (format_d_segment_layout seq hi q l rexmit data n d Ed) as (pad & bits & k & -> & Hb & _); [naive_solver|lia|done|done|].
    eexists. split; [done|]. by intros ? [= <-].
  - unfold encode_supplemental_format_d_segment_block. rewrite Ed, decide_False by done.
    destruct (seq_hi_too_big hi); [by eexists|]. replace (0xfff <? q) with true by lia. by eexists.
Qed.

Lemma supplemental_rexmit_ok c d n e s : inv3 s → wf_rexmit e → sch_ok n (supplemental_rexmit c d n e s).
Proof.
  intros H [He Ho]. unfold supplemental_rexmit.
  destruct (supplemental_format_d_segment_data_len n _) as [m|]; [|by apply sch_none].
  destruct (bool_decide _ || _).
  - rewrite slice_Some, bind_some by lia. apply sch_encoded; [done|].
    edestruct (format_d_segment_total (v_r_8 (rx_l_seq e))
      (if decide (segment_offset e = 0%nat) then Some (seq_hi_of (rx_l_seq e)) else None)) as (r & -> & Hr).
    { case_decide; [|done]. intros h [= <-]. by apply seq_hi_ok. }
    eexists. split; [done|]. intros b Hb. split; [by apply Hr|]. apply sch_some; [|by apply Hr].
    apply inv3_idle. case_bool_decide; [done|]. apply inv3_rexmit; [done|].
    apply Forall_cons_2; [|apply H]. split; [done|]. cbn. lia.
  - apply sch_encoded; [done|]. destruct (_ || _).
    + edestruct (format_d_total (v_r_8 (rx_l_seq e))
        (if new_data_requires_seq_hi (rx_l_seq e) s then Some (seq_hi_of (rx_l_seq e)) else None)) as (r & -> & Hr).
      { intros h. by apply hi_field_ok. }
      eexists. split; [done|]. intros b Hb. split; [by apply Hr|]. apply sch_some; [auto with inv3|by apply Hr].
    + edestruct format_c_total as (r & -> & Hr). eexists. split; [done|]. intros b Hb.
      split; [by apply Hr|]. apply sch_some; [auto with inv3|by apply Hr].
Qed.

Lemma supplemental_new_ok c d n s : inv3 s → sch_ok n (supplemental_new c d n s).
Proof.
  intros H. unfold supplemental_new. case_decide; [by apply sch_none|].
  apply sch_encoded; [auto with inv3|]. session3. rewrite (slot_ok (l_v_s s)) by apply H.
  assert (∀ b x, length b = n → sch_ok n (i ← Some (l_v_s s);
    Some (set_idle_timer 0 (set_l_v_s (next_seq (l_v_s s)) (set_sent_buffer (<[i := x]> (sent_buffer s))
      (set_tx_queue (drop (if new_data_requires_seq_hi (l_v_s s) s || bool_decide (length (tx_queue s) < c)%nat && negb (bool_decide (tx_queue s = []))
        then Nat.min (length (tx_queue s)) d else c) (tx_queue s)) s))), Some b))) as Hk.
  { intros b x Hb. rewrite bind_some. apply sch_some; [auto 10 with inv3|done]. }
  destruct (new_data_requires_seq_hi (l_v_s s) s || _).
  - edestruct (format_d_total (v_r_8 (l_v_s s))
      (if new_data_requires_seq_hi (l_v_s s) s then Some (seq_hi_of (l_v_s s)) else None)) as (r & -> & Hr).
    { intros h. apply hi_field_ok, H. }
    eexists. split; [done|]. intros b Hb. split; [by apply Hr|]. by apply Hk, Hr.
  - edestruct format_c_total as (r & -> & Hr). eexists. split; [done|]. intros b Hb.
    split; [by apply Hr|]. by apply Hk, Hr.
Qed.

Lemma next_supplemental_ok n s : inv3 s → sch_ok n (next_supplemental_frame n s).
Proof.
  intros H. unfold next_supplemental_frame.
  destruct (supplemental_format_c_data_len n) as [c|], (supplemental_format_d_data_len n) as [d|]; try by apply sch_none.
  case_decide; [by apply sch_none|].
  destruct (split_first _ _) as [[[pre e] post]|] eqn:E; [|by apply supplemental_new_ok].
  apply split_first_spec in E as [Eq _]. pose proof (inv_rexmit s H) as Hx. rewrite Eq in Hx.
  apply Forall_app in Hx as [H1 [H2 H3]%Forall_cons]. apply supplemental_rexmit_ok; [|done].
  apply inv3_rexmit; [done|]. by apply Forall_app_2.
Qed.

(** ** The session *)

Lemma receive_frame_ok frame_bits rate s : inv3 s → ok3 (receive_frame frame_bits rate s).
Proof.
  intros H. unfold receive_frame.
  set (s0 := if decide _ then initialize s else s).
  assert (inv3 s0 ∧ state s0 ≠ Uninitialized) as [H0 Hst] by (subst s0; case_decide; [auto with inv3|done]).
  destruct (tick_ok s0 H0) as (s1 & ev & E & H1 & Hev). pose proof (tick_state s0 s1 ev E) as Ht. rewrite E. cbn.
  case_decide; [by do 2 eexists|]. destruct (decode_at_ok rate frame_bits (mux_option (config s1))) as (f & -> & Hf).
  cbn. destruct f as [f|]; [|by do 2 eexists].
  destruct (receive_decoded_ok f s1) as (s2 & ev2 & -> & Hs2 & Hev2); [done|by apply Hf|congruence|].
  cbn. do 2 eexists. split_and!; [done|done|by apply Forall_app_2].
Qed.

(** C20: Receiving any vector of bits at any rate returns, whatever the state of the handshake and
    of the NAK bookkeeping: no index is out of range.  The invariant holds again (12-bit
    sequence numbers, octets in every buffer, well-formed NAK ranges and reassemblies), and what
    is handed up are non-empty runs of octets. *)
Theorem rlp3_receive_total frame_bits rate s : inv3 s →
  ∃ s' ev, receive_frame frame_bits rate s = Some (s', ev) ∧ inv3 s' ∧
    Forall (λ e, match e with DataDelivered d => bytes d ∧ d ≠ [] | _ => True end) ev.
Proof. apply receive_frame_ok. Qed.

Lemma rlp3_receive_total_witness :
  ∃ s' ev, receive_frame (replicate 171 1) Full (new default_config) = Some (s', ev) ∧ inv3 s' ∧
    Forall (λ e, match e with DataDelivered d => bytes d ∧ d ≠ [] | _ => True end) ev.
Proof. apply (rlp3_receive_total (replicate 171 1) Full (new default_config)), inv3_new. Defined.

(** The transmitter panics exactly when the control frame it is about to send is a NAK with
    more gaps than the multiplex option's information bits hold, at full rate and once the
    handshake is over; in every other case it returns a frame and keeps the invariant. *)
Theorem rlp3_next_panics_iff rate allow s : inv3 s →
  (next_frame_with_payload rate allow s = None ↔
   rate = Full ∧ builds s = true ∧ ∃ f, last (pending_controls s) = Some f ∧ nak_too_long (mux_option (config s)) f) ∧
  (∀ s' bits, next_frame_with_payload rate allow s = Some (s', bits) → inv3 s').
Proof.
  intros H.
  destruct (decide (rate = Full ∧ builds s = true ∧ Exists (nak_too_long (mux_option (config s))) (option_list (last (pending_controls s)))))
    as [(-> & Hb & Hx)|Hn].
  - destruct (last (pending_controls s)) as [f|] eqn:Ef; [|by apply Exists_nil in Hx].
    apply Exists_cons in Hx as [Hx|Hx]; [|by apply Exists_nil in Hx].
    rewrite (next_frame_panics allow s f) by done. split; [|done]. split; [|done]. intros _. split_and!; [done|done|by exists f].
  - assert (¬ (rate = Full ∧ builds s = true ∧
      ∃ f, last (pending_controls s) = Some f ∧ nak_too_long (mux_option (config s)) f)) as Hn'.
    { intros (Hr1 & Hr2 & f & Hr3 & Hr4). apply Hn. split_and!; [done|done|]. rewrite Hr3. by constructor. }
    destruct (next_frame_ok rate allow s H Hn') as (s' & bits & -> & Hs'). split; [done|]. by intros ? ? [= <- <-].
Qed.

Lemma nak_seven_inv : inv3 (set_state DataTransfer (set_pending_controls [NakFrame 0 0 (Gap (gaps 7))] (new default_config))).
Proof.
  apply inv3_state, inv3_controls; [apply inv3_new|]. apply Forall_singleton.
  repeat (constructor || split); vm_compute; done || lia.
Qed.
Lemma rlp3_next_panics_iff_witness :
  next_frame Full (set_state DataTransfer (set_pending_controls [NakFrame 0 0 (Gap (gaps 7))] (new default_config))) = None.
Proof.
  apply (proj1 (rlp3_next_panics_iff Full true _ nak_seven_inv)). split; [reflexivity|]. split; [reflexivity|].
  exists (NakFrame 0 0 (Gap (gaps 7))). split; [reflexivity|]. cbn. lia.
Defined.
