(* ===== verification/Rlp3Link.v ===== *)
(** * The RLP Type 3 link: what the receiver hands up

    Data frame number [k] of a stream travels with SEQ = k mod 256 and is filed under
    k mod 4096.  The receiver of [Rlp3Session] is related to an abstract receiver on unbounded
    frame numbers: the first number not handed up, the highest received, the numbers awaited
    and the numbers given up.  New frames may be lost, retransmissions lost, repeated and
    reordered, and the NAK timers run; what is handed up is the stream in order, each frame
    once, with nothing left out but the frames given up. *)
From S2P Require Import Prelude BitString Rlp RlpProofs Rlp3Frames Rlp3Proofs Rlp3Session Rlp3SessionProofs.
Import Rlp3 Session3.

(** ** Numbers *)
Lemma num_inj a b : a mod 4096 = b mod 4096 → -4096 < a - b < 4096 → a = b.
Proof. intros. zdiv. Qed.
Lemma low_inj a b : a mod 256 = b mod 256 → -256 < a - b < 256 → a = b.
Proof. intros. zdiv. Qed.
Lemma next_seq_mod k : next_seq (k mod 4096) = (k + 1) mod 4096.
Proof. unfold next_seq, SEQ_MODULUS. zdiv. Qed.
Lemma seq12_mod k : seq12 (k mod 4096).
Proof. unfold is_u. zdiv. Qed.

(** ** Delivery *)

(** The octets of the slots from [n] to [m]. *)
Definition slots_between (f : Z → option (list Z)) (n m : Z) : list Z :=
  mjoin ((λ k, default [] (f k)) <$> seqZ n (m - n)).

Lemma slots_between_nil f n : slots_between f n n = [].
Proof. unfold slots_between. by rewrite Z.sub_diag. Qed.
Lemma slots_between_cons f n m : n < m → slots_between f n m = default [] (f n) ++ slots_between f (n + 1) m.
Proof.
  intros H. unfold slots_between. rewrite seqZ_cons by lia. rewrite fmap_cons, mjoin_cons.
  do 3 f_equal. f_equal; lia.
Qed.

(** The buffer holds exactly the slots [f] of the numbers from [n] to [r]. *)
Definition holds (f : Z → option (list Z)) (n r : Z) (m : gmap Z (list Z)) : Prop :=
  (∀ k, n ≤ k < r → m !! (k mod 4096) = f k) ∧ (∀ i, (∀ k, n ≤ k < r → i ≠ k mod 4096) → m !! i = None).

Lemma holds_step f n r m : holds f n r m → n < r → r - n ≤ 4096 → holds f (n + 1) r (delete (n mod 4096) m).
Proof.
  intros [H1 H2] Hn Hr. split.
  - intros k Hk. rewrite lookup_delete_ne; [apply H1; lia|]. intros E%num_inj; lia.
  - intros i Hi. destruct (decide (i = n mod 4096)) as [->|Hne]; [apply lookup_delete_eq|].
    rewrite lookup_delete_ne by done. apply H2. intros k Hk. destruct (decide (k = n)) as [->|]; [done|]. apply Hi. lia.
Qed.

(** Dropping an empty first slot. *)
Lemma holds_skip f n r m : holds f n r m → n < r → f n = None → holds f (n + 1) r m.
Proof.
  intros [H1 H2] Hn Hf. split; [intros; apply H1; lia|]. intros i Hi.
  destruct (decide (i = n mod 4096)) as [->|Hne]; [rewrite H1 by lia; done|].
  apply H2. intros k Hk. destruct (decide (k = n)) as [->|]; [done|]. apply Hi. lia.
Qed.

Definition moved (n : Z) (m : gmap Z (list Z)) (d : list Z) (s : Rlp3Session) : Rlp3Session :=
  set_l_v_n (n mod 4096) (set_rx_buffer (rx_buffer s ++ d) (set_reseq_buffer m s)).

Lemma moved_same n s : l_v_n s = n mod 4096 → moved n (reseq_buffer s) [] s = s.
Proof. intros H. unfold moved. rewrite app_nil_r, <- H. by destruct s. Qed.

Lemma deliver_loop_slots fuel f r : ∀ n s,
  l_v_n s = n mod 4096 → n ≤ r → r - n ≤ 4095 → (Z.to_nat (r - n) < fuel)%nat → holds f n r (reseq_buffer s) →
  ∃ n' m, n ≤ n' ≤ r ∧ (∀ k, n ≤ k < n' → f k ≠ None) ∧ (n' < r → f n' = None) ∧ holds f n' r m ∧
    deliver_loop fuel s = Some (moved n' m (slots_between f n n') s).
Proof.
  induction fuel as [|fuel IH]; intros n s Hn Hr Hw Hf Hh; [lia|]. cbn [deliver_loop].
  rewrite Hn, slot_ok, bind_some by apply seq12_mod.
  destruct (decide (n = r)) as [->|Hne].
  { rewrite (proj2 Hh) by (intros; lia). exists r, (reseq_buffer s).
    split_and!; [lia|lia|intros; lia|lia|done|]. by rewrite slots_between_nil, moved_same. }
  rewrite (proj1 Hh) by lia. destruct (f n) as [d|] eqn:Ed.
  - destruct (IH (n + 1) (set_l_v_n (next_seq (n mod 4096)) (set_rx_buffer (rx_buffer s ++ d)
      (set_reseq_buffer (delete (n mod 4096) (reseq_buffer s)) s)))) as (n' & m & H1 & H2 & H3 & H4 & H5);
      [session3; apply next_seq_mod|lia|lia|lia|session3; apply holds_step; done || lia|].
    exists n', m. split_and!; [lia|lia| |done|done|].
    + intros k Hk. destruct (decide (k = n)) as [->|]; [by rewrite Ed|apply H2; lia].
    + session3. rewrite Hn. rewrite H5. unfold moved. session3. f_equal. rewrite (slots_between_cons f n) by lia.
      rewrite Ed. cbn [default from_option id]. by rewrite <- app_assoc.
  - exists n, (reseq_buffer s). split_and!; [lia|lia|intros; lia|done|done|].
    rewrite slots_between_nil, moved_same by done. done.
Qed.

Lemma advance_loop_spec fuel f r (aw : Z → Prop) `{!∀ k, Decision (aw k)} : ∀ n s,
  l_v_n s = n mod 4096 → l_v_r s = r mod 4096 → n ≤ r → r - n ≤ 4095 → (Z.to_nat (r - n) < fuel)%nat →
  holds f n r (reseq_buffer s) → (∀ k, n ≤ k < r → aw k → f k = None) →
  (∀ k, n ≤ k < r → existsb (λ e, nk_l_seq e =? k mod 4096) (nak_list s) = bool_decide (aw k)) →
  ∃ n' m, n ≤ n' ≤ r ∧ (∀ k, n ≤ k < n' → ¬ aw k) ∧ (n' < r → aw n') ∧ holds f n' r m ∧
    advance_loop fuel s = Some (moved n' m (slots_between f n n') s).
Proof.
  induction fuel as [|fuel IH]; intros n s Hn Hrr Hr Hw Hf Hh Haw Hex; [lia|]. cbn [advance_loop].
  rewrite Hrr, Hn, slot_ok by apply seq12_mod.
  destruct (decide (n = r)) as [->|Hne].
  { rewrite Z.eqb_refl. exists r, (reseq_buffer s).
    split_and!; [lia|lia|intros; lia|lia|done|]. by rewrite slots_between_nil, moved_same. }
  destruct (Z.eqb_spec (n mod 4096) (r mod 4096)) as [E%num_inj|_]; [lia..|]. rewrite bind_some.
  rewrite (proj1 Hh) by lia.
  destruct (f n) as [d|] eqn:Ed.
  - assert (¬ aw n) as Hna by (intros ?%Haw; [congruence|lia]).
    destruct (IH (n + 1) (set_l_v_n (next_seq (n mod 4096)) (set_rx_buffer (rx_buffer s ++ d)
      (set_reseq_buffer (delete (n mod 4096) (reseq_buffer s)) s)))) as (n' & m & H1 & H2 & H3 & H4 & H5);
      [session3; apply next_seq_mod|done|lia|lia|lia|session3; apply holds_step; done || lia|intros; apply Haw; [lia|done]
      |intros; apply Hex; lia|].
    exists n', m. split_and!; [lia|lia| |done|done|].
    + intros k Hk. destruct (decide (k = n)) as [->|]; [done|apply H2; lia].
    + session3. rewrite Hn, H5. unfold moved. session3. f_equal. rewrite (slots_between_cons f n) by lia.
      rewrite Ed. cbn [default from_option id]. by rewrite <- app_assoc.
  - rewrite Hex by lia. case_bool_decide as Ha.
    + exists n, (reseq_buffer s). split_and!; [lia|lia|intros; lia|done|done|].
      rewrite slots_between_nil, moved_same by done. done.
    + destruct (IH (n + 1) (set_l_v_n (next_seq (n mod 4096)) s)) as (n' & m & H1 & H2 & H3 & H4 & H5);
        [session3; apply next_seq_mod|done|lia|lia|lia|session3; apply holds_skip; done || lia|intros; apply Haw; [lia|done]
        |intros; apply Hex; lia|].
      exists n', m. split_and!; [lia|lia| |done|done|].
      * intros k Hk. destruct (decide (k = n)) as [->|]; [done|apply H2; lia].
      * session3. rewrite H5. unfold moved. session3. f_equal. rewrite (slots_between_cons f n) by lia. by rewrite Ed.
Qed.

(** ** The abstract receiver *)
Record Abs := mkAbs {
  first : Z;            (** the first number not handed up *)
  high : Z;             (** one past the highest number received *)
  awaited : list Z;     (** the numbers asked for again *)
  given_up : list Z     (** the numbers whose NAK rounds are exhausted *)
}.

Section Receiver.
Context (chunk : Z → list Z).

(** The slot of number [k]: empty while it is awaited, and for good when it is given up. *)
Definition slot_of (M A : list Z) (k : Z) : option (list Z) :=
  if decide (k ∈ M ∨ k ∈ A) then None else Some (chunk k).

(** What has been handed up below [n]. *)
Definition stream (A : list Z) (n : Z) : list Z :=
  mjoin ((λ k, if decide (k ∈ A) then [] else chunk k) <$> seqZ 0 n).

Record rel (a : Abs) (s : Rlp3Session) : Prop := {
  rel_state : state s = DataTransfer;
  rel_first : l_v_n s = first a mod 4096;
  rel_high : l_v_r s = high a mod 4096;
  rel_window : 0 ≤ first a ≤ high a ∧ high a - first a ≤ 256;
  rel_awaited : nk_l_seq <$> nak_list s = (λ k, k mod 4096) <$> awaited a;
  rel_nodup : NoDup (awaited a);
  rel_in : ∀ k, k ∈ awaited a → first a ≤ k < high a;
  rel_up : ∀ k, k ∈ given_up a → k < high a;
  rel_apart : ∀ k, k ∈ awaited a → k ∉ given_up a;
  rel_held : holds (slot_of (awaited a) (given_up a)) (first a) (high a) (reseq_buffer s);
  rel_gap : first a < high a → first a ∈ awaited a ∨ first a ∈ given_up a;
  rel_rx : rx_buffer s = []
}.

Lemma stream_app A n m : 0 ≤ n ≤ m →
  stream A m = stream A n ++ mjoin ((λ k, if decide (k ∈ A) then [] else chunk k) <$> seqZ n (m - n)).
Proof.
  intros H. unfold stream. replace m with (n + (m - n)) at 1 by lia. rewrite seqZ_app by lia.
  by rewrite fmap_app, join_app.
Qed.

(** What lies between two numbers when none of them is awaited. *)
Lemma stream_slots M A n m : 0 ≤ n ≤ m → (∀ k, n ≤ k < m → k ∉ M) →
  stream A m = stream A n ++ slots_between (slot_of M A) n m.
Proof.
  intros H HM. rewrite (stream_app A n m) by done. f_equal. unfold slots_between. f_equal.
  apply list_fmap_ext. intros i k Hk. apply list_elem_of_lookup_2, elem_of_seqZ in Hk.
  unfold slot_of. destruct (decide (k ∈ A)) as [Ha|Ha].
  - by rewrite decide_True by auto.
  - rewrite decide_False; [done|]. intros [?|?]; [|done]. eapply HM; [|done]. lia.
Qed.

(** Numbers given up at or above [n] do not change what is below. *)
Lemma stream_given_up A E n : (∀ k, k ∈ E → n ≤ k) → stream (A ++ E) n = stream A n.
Proof.
  intros H. unfold stream. f_equal. apply list_fmap_ext. intros i k Hk.
  apply list_elem_of_lookup_2, elem_of_seqZ in Hk.
  destruct (decide (k ∈ A)) as [Ha|Ha].
  - rewrite decide_True; [done|]. apply elem_of_app. by left.
  - rewrite decide_False; [done|]. intros [?|?%H]%elem_of_app; [done|lia].
Qed.

Lemma awaited_seq a s e : rel a s → e ∈ nak_list s → ∃ k, k ∈ awaited a ∧ nk_l_seq e = k mod 4096.
Proof.
  intros H He. assert (nk_l_seq e ∈ nk_l_seq <$> nak_list s) as Hin by by apply list_elem_of_fmap_2.
  rewrite (rel_awaited a s H) in Hin. apply list_elem_of_fmap in Hin as (k & E & Hk). by exists k.
Qed.

(** Whether a NAK list names number [k]. *)
Lemma naks_name naks (M : list Z) k :
  nk_l_seq <$> naks = (λ k, k mod 4096) <$> M → (∀ j, j ∈ M → -4096 < j - k < 4096) →
  existsb (λ e, nk_l_seq e =? k mod 4096) naks = bool_decide (k ∈ M).
Proof.
  intros E Hw. apply Bool.eq_iff_eq_true. rewrite bool_decide_eq_true, existsb_exists. split.
  - intros (e & He%list_elem_of_In & Ee%Z.eqb_eq).
    assert (nk_l_seq e ∈ nk_l_seq <$> naks) as Hin by by apply list_elem_of_fmap_2.
    rewrite E in Hin. apply list_elem_of_fmap in Hin as (j & Ej & Hj). rewrite Ej in Ee.
    apply num_inj in Ee; [by subst|by apply Hw].
  - intros Hk. assert (k mod 4096 ∈ nk_l_seq <$> naks) as (e & Ee & He)%list_elem_of_fmap.
    { rewrite E. apply list_elem_of_fmap. by exists k. }
    exists e. split; [by apply list_elem_of_In|by apply Z.eqb_eq].
Qed.

(** ** A new frame *)
Lemma compute_l_seq_num a s k : rel a s → high a ≤ k ≤ high a + 255 → compute_l_seq (k mod 256) s = k mod 4096.
Proof.
  intros H Hk. unfold compute_l_seq. rewrite (rel_high a s H), land_255.
  rewrite (wrap_small 8) by (unfold is_u; zdiv).
  unfold wrapping_sub, wrapping_add, wrap, SEQ_MODULUS. change (2 ^ 8) with 256. change (2 ^ 16) with 65536.
  assert ((k mod 256 - (high a mod 4096) mod 256) mod 256 = k - high a) as -> by zdiv.
  zdiv.
Qed.

Lemma gap_loop_spec fuel : ∀ n r s seqs,
  n ≤ r → r - n ≤ 256 → (Z.to_nat (r - n) ≤ fuel)%nat → nk_l_seq <$> nak_list s = seqs →
  (∀ k, n ≤ k < r → k mod 4096 ∉ seqs) →
  ∃ l ev, gap_loop fuel (n mod 4096) (r mod 4096) s = (set_nak_list l s, ev) ∧
    nk_l_seq <$> l = seqs ++ ((λ k, k mod 4096) <$> seqZ n (r - n)) ∧
    Forall (λ e, ∃ x, e = SendNak x x) ev.
Proof.
  induction fuel as [|fuel IH]; intros n r s seqs Hn Hw Hf Hs Hnew; cbn [gap_loop].
  - assert (n = r) as -> by lia. exists (nak_list s), []. rewrite Z.sub_diag, app_nil_r. by destruct s.
  - destruct (Z.eqb_spec (n mod 4096) (r mod 4096)) as [E%num_inj|E]; [|lia|].
    + subst. exists (nak_list s), []. rewrite Z.sub_diag, app_nil_r. by destruct s.
    + assert (n < r) by (destruct (decide (n = r)) as [->|]; [done|lia]).
      assert (add_nak_entry (n mod 4096) s
        = set_nak_list (nak_list s ++ [mkNakEntry (n mod 4096) 1 (rexmit_timer_frames s)]) s) as Eadd.
      { unfold add_nak_entry. destruct (existsb _ _) eqn:Ee; [|done].
        apply existsb_exists in Ee as (e & He%list_elem_of_In & E'%Z.eqb_eq). exfalso.
        apply (Hnew n); [lia|]. rewrite <- E', <- Hs. by apply list_elem_of_fmap_2. }
      rewrite Eadd, next_seq_mod.
      destruct (IH (n + 1) r (set_nak_list (nak_list s ++ [mkNakEntry (n mod 4096) 1 (rexmit_timer_frames s)]) s)
        (seqs ++ [n mod 4096])) as (l & ev & E1 & E2 & E3); [lia|lia|lia| | |].
      * session3. rewrite fmap_app, Hs. done.
      * intros k Hk [?|?%list_elem_of_singleton]%elem_of_app; [by apply (Hnew k); [lia|]|].
        assert (k = n) by (apply num_inj; [done|lia]). lia.
      * rewrite E1. exists l, (SendNak (n mod 4096) (n mod 4096) :: ev). split_and!; [done| |].
        -- rewrite E2, (seqZ_cons n (r - n)) by lia. rewrite fmap_cons, <- app_assoc. cbn.
           do 3 f_equal. f_equal; lia.
        -- apply Forall_cons_2; [by eexists|done].
Qed.

Definition handed (ev : list RlpEvent) : list Z :=
  mjoin ((λ e, match e with DataDelivered d => d | _ => [] end) <$> ev).
Definition abandoned (ev : list RlpEvent) : list Z :=
  mjoin ((λ e, match e with NakAbandoned x _ => [x] | _ => [] end) <$> ev).

Lemma handed_app a b : handed (a ++ b) = handed a ++ handed b.
Proof. unfold handed. by rewrite fmap_app, join_app. Qed.
Lemma abandoned_app a b : abandoned (a ++ b) = abandoned a ++ abandoned b.
Proof. unfold abandoned. by rewrite fmap_app, join_app. Qed.
Lemma send_nak_quiet ev : Forall (λ e, ∃ x, e = SendNak x x) ev → handed ev = [] ∧ abandoned ev = [].
Proof.
  induction 1 as [|e ev [x ->] _ [IH1 IH2]]; [done|]. unfold handed, abandoned in *. rewrite !fmap_cons, !mjoin_cons. by rewrite IH1, IH2.
Qed.

Lemma flush_spec s : ∃ ev, flush_delivery_events s = (set_rx_buffer [] s, ev) ∧ handed ev = rx_buffer s ∧ abandoned ev = [].
Proof.
  unfold flush_delivery_events. case_decide as E.
  - exists []. rewrite E. split_and!; [|done|done]. destruct s; cbn in *. by subst.
  - exists [DataDelivered (rx_buffer s)]. split_and!; [done| |done]. unfold handed. cbn. by rewrite app_nil_r.
Qed.

(** A step of the concrete receiver that the abstract one can follow. *)
Definition follows (a a' : Abs) (s : Rlp3Session) (m : rust (Rlp3Session * list RlpEvent)) : Prop :=
  ∃ s' ev, m = Some (s', ev) ∧ rel a' s' ∧ stream (given_up a') (first a') = stream (given_up a) (first a) ++ handed ev ∧
    (∃ E, given_up a' = given_up a ++ E ∧ abandoned ev = (λ k, k mod 4096) <$> E) ∧ config s' = config s.

Definition new_abs (a : Abs) (k : Z) : Abs :=
  if decide (first a = high a ∧ k = high a) then mkAbs (k + 1) (k + 1) [] (given_up a)
  else mkAbs (first a) (k + 1) (awaited a ++ seqZ (high a) (k - high a)) (given_up a).

(** The buffer after frame [k] is stored above the highest. *)
Lemma holds_new a s k : rel a s → high a ≤ k → k + 1 - first a ≤ 256 →
  holds (slot_of (awaited a ++ seqZ (high a) (k - high a)) (given_up a)) (first a) (k + 1)
    (<[k mod 4096 := chunk k]> (reseq_buffer s)).
Proof.
  intros H Hk Hw. destruct (rel_held a s H) as [H1 H2]. pose proof (rel_window a s H) as [Hn _]. split.
  - intros j Hj. destruct (decide (j = k)) as [->|Hne].
    + rewrite lookup_insert_eq. unfold slot_of. rewrite decide_False; [done|].
      intros [[Hin|Hin%elem_of_seqZ]%elem_of_app|Hin]; [apply (rel_in a s H) in Hin|..|apply (rel_up a s H) in Hin]; lia.
    + rewrite lookup_insert_ne by (intros E%num_inj; lia). destruct (decide (j < high a)) as [Hlt|Hge].
      * rewrite H1 by lia. unfold slot_of. apply decide_ext. rewrite elem_of_app, elem_of_seqZ. naive_solver lia.
      * rewrite H2 by (intros x Hx E%num_inj; lia). unfold slot_of. rewrite decide_True; [done|].
        left. apply elem_of_app. right. apply elem_of_seqZ. lia.
  - intros i Hi. rewrite lookup_insert_ne by (intros <-; apply (Hi k); lia). apply H2. intros x Hx. apply Hi. lia.
Qed.

Lemma rel_stored a s s' k :
  rel a s → high a ≤ k → k + 1 - first a ≤ 256 → (first a = high a → k ≠ high a) →
  state s' = DataTransfer → l_v_n s' = l_v_n s → l_v_r s' = (k + 1) mod 4096 →
  nk_l_seq <$> nak_list s' = (nk_l_seq <$> nak_list s) ++ ((λ k, k mod 4096) <$> seqZ (high a) (k - high a)) →
  reseq_buffer s' = <[k mod 4096 := chunk k]> (reseq_buffer s) → rx_buffer s' = [] →
  rel (mkAbs (first a) (k + 1) (awaited a ++ seqZ (high a) (k - high a)) (given_up a)) s'.
Proof.
  intros H Hk Hw Hg E1 E2 E3 E4 E5 E6. pose proof (rel_window a s H) as [Hn _]. split; cbn [first high awaited given_up].
  - done.
  - rewrite E2. apply H.
  - done.
  - lia.
  - rewrite E4, (rel_awaited a s H), fmap_app. done.
  - apply NoDup_app. split_and!; [apply H| |apply NoDup_seqZ].
    intros x Hx%(rel_in a s H) Hx'%elem_of_seqZ. lia.
  - intros x [Hx%(rel_in a s H)|Hx%elem_of_seqZ]%elem_of_app; lia.
  - intros x Hx%(rel_up a s H). lia.
  - intros x [Hx|Hx%elem_of_seqZ]%elem_of_app; [by apply (rel_apart a s H)|]. intros Hu%(rel_up a s H). lia.
  - rewrite E5. by apply holds_new.
  - intros _. destruct (decide (first a < high a)) as [Hlt|Hge].
    + destruct (rel_gap a s H Hlt); [left; apply elem_of_app; by left|by right].
    + left. apply elem_of_app. right. apply elem_of_seqZ. assert (k ≠ high a) by (apply Hg; lia). lia.
  - done.
Qed.

Lemma num_eqb a b : -4096 < a - b < 4096 → (a mod 4096 =? b mod 4096) = bool_decide (a = b).
Proof.
  intros H. destruct (Z.eqb_spec (a mod 4096) (b mod 4096)) as [E|E].
  - apply num_inj in E; [|done]. by rewrite bool_decide_eq_true_2.
  - rewrite bool_decide_eq_false_2; [done|]. by intros ->.
Qed.

Lemma seq12_gt_num r k : r < k ≤ r + 255 → seq12_gt (k mod 4096) (r mod 4096) = true.
Proof.
  intros H. unfold seq12_gt. rewrite num_eqb by lia. rewrite bool_decide_eq_false_2 by lia.
  unfold wrapping_sub, wrap, SEQ_MODULUS. change (2 ^ 16) with 65536.
  assert (((k mod 4096 - r mod 4096) mod 65536) mod 4096 = k - r) as -> by zdiv.
  change (4096 / 2 - 1) with 2047. apply andb_true_iff; split; apply Z.leb_le; lia.
Qed.

Lemma holds_empty f n m : holds f n n m → holds f (n + 1) (n + 1) m.
Proof. intros [_ H]. split; [intros; lia|]. intros i _. apply H. intros; lia. Qed.

Lemma new_follows a s k : rel a s → high a ≤ k → k + 1 - first a ≤ 256 →
  follows a (new_abs a k) s (receive_new_data (k mod 256) (chunk k) s).
Proof.
  intros H Hk Hw. pose proof (rel_window a s H) as [Hn Hw'].
  unfold receive_new_data. rewrite (compute_l_seq_num a) by (done || lia).
  rewrite (rel_high a s H), (rel_first a s H). rewrite !num_eqb by lia.
  unfold new_abs, follows. destruct (decide (k = high a)) as [->|Hne].
  - rewrite (bool_decide_eq_true_2 (high a = high a)) by done. cbn [andb].
    destruct (decide (first a = high a)) as [He|He].
    + rewrite bool_decide_eq_true_2, decide_True by auto. session3. rewrite He, !next_seq_mod.
      set (s1 := set_rx_buffer _ _).
      assert (awaited a = []) as Hnil.
      { destruct (awaited a) as [|x l] eqn:E; [done|]. pose proof (rel_in a s H x). rewrite E in *.
        assert (first a ≤ x < high a) by (apply H0; left). lia. }
      destruct (deliver_loop_slots 4097 (slot_of (awaited a) (given_up a)) (high a + 1) (high a + 1) s1)
        as (n' & m & H1 & H2 & H3 & H4 & H5); [subst s1; session3; rewrite (rel_first a s H), He; apply next_seq_mod|lia|lia|lia| |].
      { apply holds_empty. pose proof (rel_held a s H) as Hh. by rewrite He in Hh. }
      assert (n' = high a + 1) as -> by lia. unfold deliver_contiguous. rewrite H5, bind_some.
      rewrite slots_between_nil. destruct (flush_spec (moved (high a + 1) m [] s1)) as (ev & -> & Hev1 & Hev2).
      do 2 eexists. split_and!; [done| | | |done].
      * split; cbn [first high awaited given_up]; session3; try done; try lia; try apply NoDup_nil_2;
          try (by intros ? ?%elem_of_nil); [apply H| |intros x Hx%(rel_up a s H); lia|by rewrite Hnil in H4].
        change (nk_l_seq <$> nak_list s = []). by rewrite (rel_awaited a s H), Hnil.
      * cbn [first given_up]. rewrite (stream_app (given_up a) (high a)) by lia. f_equal. rewrite Hev1. subst s1. unfold moved. session3.
        rewrite (rel_rx a s H), app_nil_r. replace (high a + 1 - high a) with 1 by lia.
        rewrite seqZ_cons by lia. cbn [fmap list_fmap]. rewrite mjoin_cons.
        rewrite decide_False by (intros ?%(rel_up a s H); lia). by rewrite app_nil_r.
      * exists []. cbn. by rewrite app_nil_r.
    + rewrite bool_decide_eq_false_2, decide_False by naive_solver. cbn [negb].
      rewrite slot_ok, bind_some by apply seq12_mod. session3.
      rewrite ?(rel_high a s H), next_seq_mod.
      do 2 eexists. split_and!; [done| | | |done].
      * eapply (rel_stored a s); session3; try done; try lia; try apply H.
        by rewrite Z.sub_diag, app_nil_r.
      * cbn. by rewrite app_nil_r.
      * exists []. cbn. by rewrite app_nil_r.
  - rewrite bool_decide_eq_false_2 by done. cbn [andb]. rewrite seq12_gt_num by lia.
    destruct (gap_loop_spec 4096 (high a) k s _ ltac:(lia) ltac:(lia) ltac:(lia) eq_refl) as (l & ev & -> & E2 & E3).
    { intros j Hj. rewrite (rel_awaited a s H). intros (x & Ex & Hx%(rel_in a s H))%list_elem_of_fmap.
      apply num_inj in Ex; lia. }
    rewrite slot_ok, bind_some by apply seq12_mod. rewrite next_seq_mod.
    destruct (send_nak_quiet ev E3) as [Eq1 Eq2]. rewrite decide_False by naive_solver.
    do 2 eexists. split_and!; [done| | | |done].
    + eapply (rel_stored a s); session3; try done; try lia; try apply H.
    + cbn [first given_up]. by rewrite Eq1, app_nil_r.
    + exists []. by rewrite Eq2, app_nil_r.
Qed.

(** ** A retransmission *)

(** The receiver's fields that [rel] reads. *)
Lemma rel_ext a s s' :
  rel a s → state s' = state s → l_v_n s' = l_v_n s → l_v_r s' = l_v_r s →
  nk_l_seq <$> nak_list s' = nk_l_seq <$> nak_list s → reseq_buffer s' = reseq_buffer s → rx_buffer s' = rx_buffer s →
  rel a s'.
Proof. intros [] E1 E2 E3 E4 E5 E6. split; rewrite ?E1, ?E2, ?E3, ?E4, ?E5, ?E6; done. Qed.

Lemma follows_id a s s' : rel a s' → config s' = config s → follows a a s (Some (s', [])).
Proof.
  intros H E. exists s', []. split_and!; [done|done|by rewrite app_nil_r| |done]. exists []. by rewrite app_nil_r.
Qed.

(** The entry a retransmission answers is the one of its number. *)
Lemma find_entry a s k : rel a s → high a - 256 ≤ k < high a →
  match List.find (λ e, v_r_8 (nk_l_seq e) =? k mod 256) (nak_list s) with
  | Some e => k ∈ awaited a ∧ nk_l_seq e = k mod 4096
  | None => k ∉ awaited a
  end.
Proof.
  intros H Hk. pose proof (rel_window a s H) as [_ Hw]. destruct (List.find _ _) as [e|] eqn:E.
  - apply List.find_some in E as [He%list_elem_of_In E%Z.eqb_eq].
    destruct (awaited_seq a s e H He) as (j & Hj & Ej). pose proof (rel_in a s H j Hj).
    rewrite v_r_8_mod, Ej in E. assert (j = k) as ->; [|done]. apply low_inj; [|lia]. rewrite <- E. zdiv.
  - intros Ha. assert (k mod 4096 ∈ nk_l_seq <$> nak_list s) as Hin.
    { rewrite (rel_awaited a s H). apply list_elem_of_fmap. by exists k. }
    apply list_elem_of_fmap in Hin as (e & Ee & He). apply list_elem_of_In in He.
    pose proof (List.find_none _ _ E e He) as Hf%Z.eqb_neq. apply Hf. rewrite v_r_8_mod, <- Ee. zdiv.
Qed.

(** Two lists of numbers that agree, filtered alike. *)
Lemma filter_agree (naks : list NakEntry) (aw : list Z) (P Q : Z → Prop) `{!∀ e, Decision (P (nk_l_seq e))} `{!∀ x, Decision (Q x)} :
  nk_l_seq <$> naks = (λ k, k mod 4096) <$> aw → (∀ k, k ∈ aw → P (k mod 4096) ↔ Q k) →
  nk_l_seq <$> filter (λ e, P (nk_l_seq e)) naks = (λ k, k mod 4096) <$> filter Q aw.
Proof.
  revert aw. induction naks as [|e naks IH]; intros [|k aw] E HPQ; try done. rewrite !fmap_cons in E. injection E as E1 E2.
  assert (P (nk_l_seq e) ↔ Q k) as Hk by (rewrite E1; apply HPQ; left).
  specialize (IH aw E2 (λ j Hj, HPQ j (list_elem_of_further _ _ _ Hj))). rewrite !filter_cons.
  destruct (decide (P (nk_l_seq e))) as [Hp|Hp].
  - rewrite decide_True by tauto. by rewrite !fmap_cons, IH, E1.
  - by rewrite decide_False by tauto.
Qed.

(** The buffer once the awaited [k] is stored. *)
Lemma holds_filled a s k : rel a s → k ∈ awaited a →
  holds (slot_of (filter (λ j, j ≠ k) (awaited a)) (given_up a)) (first a) (high a)
    (<[k mod 4096 := chunk k]> (reseq_buffer s)).
Proof.
  intros H Hk. destruct (rel_held a s H) as [H1 H2]. pose proof (rel_in a s H k Hk). pose proof (rel_window a s H).
  split.
  - intros j Hj. destruct (decide (j = k)) as [->|Hne].
    + rewrite lookup_insert_eq. unfold slot_of. rewrite decide_False; [done|].
      intros [[? _]%list_elem_of_filter|Hu]; [done|]. by apply (rel_apart a s H k).
    + rewrite lookup_insert_ne by (intros E%num_inj; lia). rewrite H1 by lia. unfold slot_of. apply decide_ext.
      rewrite list_elem_of_filter. naive_solver.
  - intros i Hi. rewrite lookup_insert_ne by (intros <-; apply (Hi k); [lia|done]). by apply H2.
Qed.

(** The state with first number [n'] and buffer [m], the awaited numbers [M'] and the given up [A']. *)
Lemma rel_moved a s s' n' m M' A' :
  rel a s → first a ≤ n' ≤ high a → state s' = DataTransfer → l_v_n s' = n' mod 4096 → l_v_r s' = l_v_r s →
  nk_l_seq <$> nak_list s' = (λ k, k mod 4096) <$> M' → M' `sublist_of` awaited a → (∀ k, k ∈ M' → n' ≤ k) →
  (∀ k, k ∈ A' → k ∈ given_up a ∨ k ∈ awaited a) → (∀ k, k ∈ M' → k ∉ A') →
  reseq_buffer s' = m → holds (slot_of M' A') n' (high a) m → (n' < high a → n' ∈ M' ∨ n' ∈ A') → rx_buffer s' = [] →
  rel (mkAbs n' (high a) M' A') s'.
Proof.
  intros H Hn E1 E2 E3 E4 Hs Hlow Hup Hap E5 Hh Hg E6. pose proof (rel_window a s H) as [? ?].
  split; cbn [first high awaited given_up]; try done.
  - rewrite E3. apply H.
  - lia.
  - eapply sublist_NoDup; [apply H|done].
  - intros k Hk. split; [by apply Hlow|]. apply (rel_in a s H). by eapply elem_of_sublist.
  - intros k [Hk%(rel_up a s H)|Hk%(rel_in a s H)]%Hup; lia.
  - by rewrite E5.
Qed.

(** Handing up the octets between two numbers none of which is awaited. *)
Lemma handed_between a A' M' n' ev : 0 ≤ first a ≤ n' → (∀ k, first a ≤ k < n' → k ∉ M') →
  (∃ E, A' = given_up a ++ E ∧ ∀ k, k ∈ E → first a ≤ k) →
  handed ev = slots_between (slot_of M' A') (first a) n' →
  stream A' n' = stream (given_up a) (first a) ++ handed ev.
Proof.
  intros Hn HM (E & -> & HE) ->. rewrite (stream_slots M' _ (first a) n') by done. by rewrite stream_given_up.
Qed.

Lemma slot_of_held M A k : slot_of M A k ≠ None → (k ∉ M) ∧ (k ∉ A).
Proof. unfold slot_of. case_decide; [done|]. tauto. Qed.
Lemma slot_of_empty M A k : slot_of M A k = None → k ∈ M ∨ k ∈ A.
Proof. unfold slot_of. by case_decide. Qed.

Lemma rexmit_follows a s k : rel a s → high a - 256 ≤ k < high a →
  ∃ a', follows a a' s (receive_rexmit_data (k mod 256) (chunk k) s) ∧ high a' = high a ∧ first a ≤ first a' ∧
    (∀ j, j ∈ awaited a' ↔ j ∈ awaited a ∧ j ≠ k) ∧ given_up a' = given_up a.
Proof.
  intros H Hk. pose proof (rel_window a s H) as [Hn Hw]. unfold receive_rexmit_data.
  pose proof (find_entry a s k H Hk) as Hf. destruct (List.find _ _) as [e|] eqn:Ef.
  2:{ exists a. split_and!; [by apply follows_id|done|lia| |done]. intros j. split; [|tauto]. intros Hj. split; [done|]. by intros ->. }
  destruct Hf as [Ha ->]. pose proof (rel_in a s H k Ha) as Hik.
  set (M' := filter (λ j, j ≠ k) (awaited a)).
  assert (∀ j, j ∈ M' ↔ j ∈ awaited a ∧ j ≠ k) as HM by (intros; subst M'; rewrite list_elem_of_filter; tauto).
  assert (nk_l_seq <$> filter (λ e, nk_l_seq e ≠ k mod 4096) (nak_list s) = (λ k, k mod 4096) <$> M') as Hnaks.
  { subst M'. apply (filter_agree _ _ (λ x, x ≠ k mod 4096) (λ j, j ≠ k)); [apply H|]. intros j Hj%(rel_in a s H).
    split; [by intros Hne ->|]. intros Hne E%num_inj; [done|lia]. }
  rewrite slot_ok, bind_some by apply seq12_mod. session3.
  rewrite (proj1 (rel_held a s H)) by lia. unfold slot_of at 1. rewrite decide_True by by left.
  pose proof (holds_filled a s k H Ha) as Hh. fold M' in Hh.
  rewrite (rel_first a s H), num_eqb by lia. case_bool_decide as Ek.
  - set (s1 := set_reseq_buffer _ _). unfold deliver_contiguous.
    destruct (deliver_loop_slots 4097 (slot_of M' (given_up a)) (high a) (first a) s1)
      as (n' & m & H1 & H2 & H3 & H4 & H5); [apply H|lia|lia|lia|done|]. rewrite H5, bind_some.
    destruct (flush_spec (moved n' m (slots_between (slot_of M' (given_up a)) (first a) n') s1)) as (ev & -> & Hev1 & Hev2).
    exists (mkAbs n' (high a) M' (given_up a)). split_and!; [|done|cbn; lia|done|done].
    assert (∀ j, first a ≤ j < n' → j ∉ M') as Hlow by (intros j Hj; by apply (slot_of_held _ (given_up a)), H2).
    do 2 eexists. split_and!; [done| | | |done].
    + eapply (rel_moved a s); try done; try apply H; try lia.
      * apply sublist_filter.
      * intros j Hj. pose proof (rel_in a s H j (proj1 (proj1 (HM j) Hj))).
        destruct (decide (n' ≤ j)); [done|]. exfalso. apply (Hlow j); [lia|done].
      * tauto.
      * intros j [Hj _]%HM. by apply (rel_apart a s H).
      * intros Hlt. by apply slot_of_empty, H3.
    + cbn [first given_up]. apply (handed_between a _ M'); [lia|done| |].
      * exists []. rewrite app_nil_r. split; [done|]. by intros ? ?%elem_of_nil.
      * rewrite Hev1. subst s1. unfold moved. session3. by rewrite (rel_rx a s H).
    + exists []. by rewrite app_nil_r, Hev2.
  - exists (mkAbs (first a) (high a) M' (given_up a)). split_and!; [|done|cbn; lia|done|done].
    do 2 eexists. split_and!; [done| | | |done].
    + eapply (rel_moved a s); try done; try apply H; try lia.
      * apply sublist_filter.
      * intros j [Hj%(rel_in a s H) _]%HM. lia.
      * tauto.
      * intros j [Hj _]%HM. by apply (rel_apart a s H).
      * intros Hlt. destruct (rel_gap a s H Hlt); [left|by right]. apply HM. split; [done|]. by intros <-.
    + cbn. by rewrite app_nil_r.
    + exists []. by rewrite app_nil_r.
Qed.

(** ** The NAK timers *)
(** The entries whose rounds are exhausted, as frame numbers. *)
Lemma expired_numbers (t : NakEntry → NakEntry * list (nat * Z) * list Z) naks aw :
  nk_l_seq <$> naks = (λ k, k mod 4096) <$> aw → (∀ e, (t e).2 = [] ∨ (t e).2 = [nk_l_seq e]) →
  ∃ E, E `sublist_of` aw ∧ mjoin (snd <$> (t <$> naks)) = (λ k, k mod 4096) <$> E.
Proof.
  intros Heq Ht. revert aw Heq. induction naks as [|e naks IH]; intros [|k aw] Heq; try done; [by exists []|].
  rewrite !fmap_cons in Heq. injection Heq as E1 E2. destruct (IH aw E2) as (E & Hs & HE).
  rewrite !fmap_cons, mjoin_cons, HE. destruct (Ht e) as [->| ->].
  - exists E. split; [by apply sublist_cons|done].
  - exists (k :: E). split; [by apply sublist_skip|]. by rewrite fmap_cons, E1.
Qed.

Lemma tick_entry_expires tv mr lim p e : (tick_entry tv mr lim p e).2 = [] ∨ (tick_entry tv mr lim p e).2 = [nk_l_seq e].
Proof. unfold tick_entry. repeat (destruct (_ =? _) || destruct (in_entries _ _) || destruct (_ <? _)); cbn; auto. Qed.

Lemma abandoned_expired (l : list Z) : handed ((λ x, NakAbandoned x x) <$> l) = [] ∧ abandoned ((λ x, NakAbandoned x x) <$> l) = l.
Proof.
  induction l as [|x l [IH1 IH2]]; [done|]. unfold handed, abandoned in *. rewrite !fmap_cons, !mjoin_cons. by rewrite IH1, IH2.
Qed.

(** Giving up empties no slot that was held and fills none. *)
Lemma holds_given_up a m E : E `sublist_of` awaited a →
  holds (slot_of (awaited a) (given_up a)) (first a) (high a) m →
  holds (slot_of (filter (λ k, k ∉ E) (awaited a)) (given_up a ++ E)) (first a) (high a) m.
Proof.
  intros HE [H1 H2]. split; [|done]. intros k Hk. rewrite H1 by done. unfold slot_of. apply decide_ext.
  rewrite list_elem_of_filter, elem_of_app. destruct (decide (k ∈ E)) as [Hi|Hi]; [|tauto].
  pose proof (elem_of_sublist _ _ _ Hi HE). tauto.
Qed.

Lemma tick_follows a s : rel a s →
  ∃ a', follows a a' s (tick_nak_timers s) ∧ high a' = high a ∧ first a ≤ first a' ∧
    (∀ k, k ∈ awaited a' → k ∈ awaited a) ∧ (∀ k, k ∈ given_up a' → k ∈ given_up a ∨ k ∈ awaited a).
Proof.
  intros H. pose proof (rel_window a s H) as [Hn Hw]. unfold tick_nak_timers.
  set (t := tick_entry _ _ _ _). destruct (expired_numbers t (nak_list s) (awaited a)) as (E & HsE & ->);
    [apply H|intros; apply tick_entry_expires|].
  set (s0 := set_nak_list ((λ t, t.1.1) <$> (t <$> nak_list s)) s).
  assert (nk_l_seq <$> nak_list s0 = (λ k, k mod 4096) <$> awaited a) as Hs0.
  { subst s0. session3. rewrite <- (rel_awaited a s H), <- !list_fmap_compose. apply list_fmap_ext. intros; apply tick_entry_seq. }
  destruct (queue_groups_controls (foldl (λ g p, group_insert p.1 p.2 g) [] (mjoin ((λ t, t.1.2) <$> (t <$> nak_list s)))) s0)
    as [p ->].
  set (M' := filter (λ k, k ∉ E) (awaited a)).
  assert (∀ k, k ∈ M' ↔ k ∈ awaited a ∧ k ∉ E) as HM by (intros; subst M'; rewrite list_elem_of_filter; tauto).
  assert (∀ k, k ∈ E → k ∈ awaited a) as HE by (intros; by eapply elem_of_sublist).
  set (naks := filter _ _).
  assert (nk_l_seq <$> naks = (λ k, k mod 4096) <$> M') as Hnaks.
  { subst naks M'. apply (filter_agree _ _ (λ x, x ∉ ((λ k, k mod 4096) <$> E)) (λ k, k ∉ E)); [done|].
    intros k Hk%(rel_in a s H). split; intros Hne Hx; apply Hne; [apply list_elem_of_fmap; by exists k|].
    apply list_elem_of_fmap in Hx as (j & Ej & Hj). pose proof (rel_in a s H j (HE j Hj)).
    apply num_inj in Ej; [by subst|lia]. }
  destruct (abandoned_expired ((λ k, k mod 4096) <$> E)) as [Hq1 Hq2].
  pose proof (holds_given_up a _ E HsE (rel_held a s H)) as Hh. fold M' in Hh.
  assert (∀ k, k ∈ given_up a ++ E → k ∈ given_up a ∨ k ∈ awaited a) as HA by (intros k [|]%elem_of_app; auto).
  case_decide as EE.
  - apply fmap_nil_inv in EE. subst E. exists (mkAbs (first a) (high a) M' (given_up a ++ [])).
    split_and!; [|done|cbn; lia|intros k [Hk _]%HM; done|done]. do 2 eexists. split_and!; [done| | | |done].
    + eapply (rel_moved a s); try done; try apply H; try lia.
      * apply sublist_filter.
      * intros k [Hk%(rel_in a s H) _]%HM. lia.
      * intros k [Hk _]%HM. rewrite app_nil_r. by apply (rel_apart a s H).
      * intros Hlt. rewrite app_nil_r. destruct (rel_gap a s H Hlt); [left|by right]. apply HM. split; [done|apply not_elem_of_nil].
    + cbn. by rewrite !app_nil_r.
    + by exists [].
  - set (s1 := set_nak_list _ _). unfold advance_l_v_n_past_gaps.
    destruct (advance_loop_spec 4097 (slot_of M' (given_up a ++ E)) (high a) (λ k, k ∈ M') (first a) s1)
      as (n' & m & H1 & H2 & H3 & H4 & H5); [apply H|apply H|lia|lia|lia|done| | |].
    { intros k _ Hk. unfold slot_of. rewrite decide_True; [done|by left]. }
    { intros k Hk. apply naks_name; [done|]. intros j [Hj%(rel_in a s H) _]%HM. lia. }
    rewrite H5, bind_some.
    destruct (flush_spec (moved n' m (slots_between (slot_of M' (given_up a ++ E)) (first a) n') s1)) as (ev & -> & Hev1 & Hev2).
    exists (mkAbs n' (high a) M' (given_up a ++ E)). split_and!; [|done|cbn; lia|intros k [Hk _]%HM; done|done].
    do 2 eexists. split_and!; [done| | | |done].
    + eapply (rel_moved a s); try done; try apply H; try lia.
      * apply sublist_filter.
      * intros k Hk. pose proof (rel_in a s H k (proj1 (proj1 (HM k) Hk))).
        destruct (decide (n' ≤ k)); [done|]. exfalso. apply (H2 k); [lia|done].
      * intros k [Hk Hk']%HM [Hu|Hu]%elem_of_app; [by apply (rel_apart a s H k)|done].
      * intros Hlt. left. by apply H3.
    + cbn [first given_up]. rewrite handed_app, Hq1. cbn [app]. apply (handed_between a _ M'); [lia|done| |].
      * exists E. split; [done|]. intros k Hk%HE%(rel_in a s H). lia.
      * rewrite Hev1. subst s1 s0. unfold moved. session3. by rewrite (rel_rx a s H).
    + exists E. by rewrite abandoned_app, Hq2, Hev2, app_nil_r.
Qed.

(** ** The frames of a run *)

(** The fields of the transmitter and of the other direction are not the receiver's. *)
Definition same_rx (s s' : Rlp3Session) : Prop :=
  config s' = config s ∧ state s' = state s ∧ l_v_n s' = l_v_n s ∧ l_v_r s' = l_v_r s ∧ nak_list s' = nak_list s ∧
  reseq_buffer s' = reseq_buffer s ∧ rx_buffer s' = rx_buffer s.

Lemma same_rx_refl s : same_rx s s.
Proof. done. Qed.
Lemma same_rx_trans s1 s2 s3 : same_rx s1 s2 → same_rx s2 s3 → same_rx s1 s3.
Proof. unfold same_rx. naive_solver congruence. Qed.
Lemma rel_same_rx a s s' : rel a s → same_rx s s' → rel a s'.
Proof. intros H (_ & E1 & E2 & E3 & E4 & E5 & E6). eapply rel_ext; [done..| |done|done]. by rewrite E4. Qed.

Definition sameM (s : Rlp3Session) (m : rust Rlp3Session) : Prop := ∀ s', m = Some s' → same_rx s s'.
Lemma sameM_bind s m k : sameM s m → (∀ s', same_rx s s' → sameM s (k s')) → sameM s (m ≫= k).
Proof. intros Hm Hk s'. destruct m as [s1|]; [|done]. cbn. apply Hk. by apply Hm. Qed.
Lemma sameM_ret s s' : same_rx s s' → sameM s (Some s').
Proof. by intros ? ? [= <-]. Qed.

Lemma queue_rexmit_same s0 x s : same_rx s0 s → sameM s0 (queue_retransmission x s).
Proof.
  intros H. unfold queue_retransmission. destruct (existsb _ _); [by apply sameM_ret|].
  destruct (slot x) as [i|]; [|done]. cbn. destruct (sent_buffer s !! i); by apply sameM_ret.
Qed.
Lemma queue_range_same s0 fuel : ∀ x l s, same_rx s0 s → sameM s0 (queue_range fuel x l s).
Proof.
  induction fuel as [|fuel IH]; intros x l s H; cbn [queue_range]; [by apply sameM_ret|].
  apply sameM_bind; [by apply queue_rexmit_same|]. intros s' H'. destruct (_ =? _); [by apply sameM_ret|by apply IH].
Qed.
Lemma foldM_same {A} s0 (f : A → Rlp3Session → rust Rlp3Session) l s : same_rx s0 s →
  (∀ a s, same_rx s0 s → sameM s0 (f a s)) → sameM s0 (foldM f l s).
Proof.
  intros Hs Hf. unfold foldM. assert (sameM s0 (Some s)) as Hm by by apply sameM_ret.
  revert Hm. generalize (Some s) as m. induction l as [|x l IH]; intros m Hm; [done|]. cbn [foldl]. apply IH, sameM_bind; auto.
Qed.
Lemma process_nak_same seq hi p s : sameM s (process_nak seq hi p s).
Proof.
  unfold process_nak. assert (same_rx s (set_l_v_n_peer (Z.lor (wrap 16 (Z.shiftl hi 8)) seq) s)) as H by done.
  destruct p; apply foldM_same; try done; intros; try (by apply queue_range_same || by apply queue_rexmit_same).
  unfold queue_map. apply sameM_bind; [by apply queue_rexmit_same|]. intros s' H'. apply foldM_same; [done|].
  intros. destruct (_ =? _); [by apply sameM_ret|by apply queue_rexmit_same].
Qed.

(** Frames that carry no data and do not restart the link. *)
Definition quiet_frame (f : Rlp3Frame) : bool :=
  match f with
  | Fill _ _ | Idle1 _ _ | Idle2 _ | NakFrame _ _ _ => true
  | Control _ Ack _ _ | Control _ SyncAck false _ => true
  | _ => false
  end.

Lemma quiet_same f s s' ev : quiet_frame f = true → state s = DataTransfer →
  receive_decoded f s = Some (s', ev) → same_rx s s' ∧ ev = [].
Proof.
  intros Hq Hst. unfold receive_decoded, process_frame.
  destruct f as [? [] [] ?| | | | | | |]; cbn in Hq; try done; cbn [should_reinitialize_from_control]; rewrite Hst;
    cbn; try (by intros [= <- <-]).
  pose proof (process_nak_same seq seq_hi payload s) as Hp. destruct (process_nak _ _ _ _) as [s1|]; [|done].
  intros [= <- <-]. split; [by apply Hp|done].
Qed.

Lemma encode_bind_same (s0 s s' : Rlp3Session) (bits : list Z) f mux : same_rx s0 s →
  (b ← encode_or_default f mux; Some (s, b)) = Some (s', bits) → same_rx s0 s'.
Proof. intros H. destruct (encode_or_default f mux); [|done]. by intros [= <- _]. Qed.

Lemma idle_or_fill_same s0 s s' bits : same_rx s0 s → idle_or_fill s = Some (s', bits) → same_rx s0 s'.
Proof.
  intros H. unfold idle_or_fill, build_idle_frame, build_fill_frame. destruct (_ <=? _); by apply encode_bind_same.
Qed.

Lemma build_data_same s0 rate allow s s' bits : same_rx s0 s → build_data_frame rate allow s = Some (s', bits) → same_rx s0 s'.
Proof.
  intros H. unfold build_data_frame. case_decide.
  { destruct (sub_rate_info_bits rate) as [n|]; [|by intros [= <- _]].
    destruct (encode_sub_rate_fill _ _ _); [|done]. by intros [= <- _]. }
  destruct (reverse (pending_controls s)); [|by apply encode_bind_same].
  destruct allow; [|by apply idle_or_fill_same]. cbn [negb].
  destruct (rexmit_queue s); [|by apply encode_bind_same].
  case_decide; [|by apply idle_or_fill_same].
  unfold build_new_data_frame. destruct (new_data_frame _) as [f n]. destruct (slot _); [|done]. by apply encode_bind_same.
Qed.

Lemma next_frame_same rate allow s s' bits : state s = DataTransfer →
  next_frame_with_payload rate allow s = Some (s', bits) → same_rx s s'.
Proof.
  intros Hst. unfold next_frame_with_payload. rewrite (decide_False (P := state s = Uninitialized)) by congruence.
  rewrite Hst. by apply build_data_same.
Qed.

Lemma next_supplemental_same n s s' bits : next_supplemental_frame n s = Some (s', bits) → same_rx s s'.
Proof.
  unfold next_supplemental_frame. destruct (supplemental_format_c_data_len n) as [c|]; [|by intros [= <- _]].
  destruct (supplemental_format_d_data_len n) as [d|]; [|by intros [= <- _]].
  case_decide; [by intros [= <- _]|]. destruct (split_first _ _) as [[[pre e] post]|].
  - unfold supplemental_rexmit. destruct (supplemental_format_d_segment_data_len _ _); [|by intros [= <- _]].
    case_match.
    + destruct (slice _ _ _); [|done]. cbn. destruct (ok_or_none _) as [[b|]|]; cbn; [|by intros [= <- _]|done].
      case_match; by intros [= <- _].
    + destruct (ok_or_none _) as [[b|]|]; cbn; [by intros [= <- _]..|done].
  - unfold supplemental_new. case_decide; [by intros [= <- _]|].
    destruct (ok_or_none _) as [[b|]|]; cbn; [|by intros [= <- _]|done].
    destruct (slot _); [|done]. by intros [= <- _].
Qed.

(** ** Runs *)

(** The frames that carry number [k] of the stream. *)
Definition carries (k : Z) (rexmit : bool) (f : Rlp3Frame) : Prop :=
  f = Data (k mod 256) rexmit (chunk k) ∨ f = DataFormatB (k mod 256) rexmit (chunk k) ∨
  ∃ hi, f = Segmented (k mod 256) true true rexmit hi 0 (chunk k).

(** How many numbers the receiver holds open. *)
Definition open_window (s : Rlp3Session) : Z := (l_v_r s - l_v_n s) mod 4096.

(** A run of a session in data transfer: frames are received (new data above the highest
    number, within a window of 256; copies of one of the last 256 numbers; frames without data;
    frames that do not decode), frames are sent on the fundamental and the supplemental channel
    and octets are queued.  [n] is one past the highest number received. *)
Inductive run : Z → Rlp3Session → list RlpEvent → Z → Rlp3Session → Prop :=
| run_done n s : run n s [] n s
| run_new n s k f bits rate s' ev n' s'' evs :
    decode_at rate bits (mux_option (config s)) = Some (Some f) → carries k false f →
    n ≤ k → open_window s + (k - n) < 256 →
    receive_frame bits rate s = Some (s', ev) → run (k + 1) s' evs n' s'' → run n s (ev ++ evs) n' s''
| run_rexmit n s k f bits rate s' ev n' s'' evs :
    decode_at rate bits (mux_option (config s)) = Some (Some f) → carries k true f → n - 256 ≤ k < n →
    receive_frame bits rate s = Some (s', ev) → run n s' evs n' s'' → run n s (ev ++ evs) n' s''
| run_quiet n s f bits rate s' ev n' s'' evs :
    decode_at rate bits (mux_option (config s)) = Some (Some f) → quiet_frame f = true →
    receive_frame bits rate s = Some (s', ev) → run n s' evs n' s'' → run n s (ev ++ evs) n' s''
| run_lost n s bits rate s' ev n' s'' evs :
    rate = Blank ∨ bits = [] ∨ decode_at rate bits (mux_option (config s)) = Some None →
    receive_frame bits rate s = Some (s', ev) → run n s' evs n' s'' → run n s (ev ++ evs) n' s''
| run_send n s rate allow s' bits n' s'' evs :
    next_frame_with_payload rate allow s = Some (s', bits) → run n s' evs n' s'' → run n s evs n' s''
| run_supplemental n s block s' bits n' s'' evs :
    next_supplemental_frame block s = Some (s', bits) → run n s' evs n' s'' → run n s evs n' s''
| run_queue n s data n' s'' evs :
    run n (send_data data s) evs n' s'' → run n s evs n' s''.

Context (chunk_octets : ∀ k, chunk k ≠ []).

Lemma carried_frame k rexmit f s : carries k rexmit f → state s = DataTransfer →
  ∃ s1, same_rx s s1 ∧
  receive_decoded f s = if rexmit then receive_rexmit_data (k mod 256) (chunk k) s1 else receive_new_data (k mod 256) (chunk k) s1.
Proof.
  intros Hc Hst. unfold receive_decoded, process_frame.
  destruct Hc as [->|[->|[hi ->]]]; cbn [should_reinitialize_from_control]; rewrite Hst; unfold process_data_transfer;
    cbn [is_sync].
  - exists s. split; [done|]. rewrite (decide_False (P := chunk k = [])) by done. destruct rexmit.
    + by destruct (receive_rexmit_data _ _ s) as [[? ?]|].
    + by destruct (receive_new_data _ _ s) as [[? ?]|].
  - exists s. split; [done|]. destruct rexmit.
    + by destruct (receive_rexmit_data _ _ s) as [[? ?]|].
    + by destruct (receive_new_data _ _ s) as [[? ?]|].
  - exists (set_seg_reassembly None s). split; [done|].
    change (receive_segmented (k mod 256) true true rexmit 0 (chunk k) s)
      with (receive_assembled rexmit (k mod 256) (chunk k) (set_seg_reassembly None s)).
    unfold receive_assembled. destruct rexmit.
    + by destruct (receive_rexmit_data _ _ _) as [[? ?]|].
    + by destruct (receive_new_data _ _ _) as [[? ?]|].
Qed.

Lemma decode_empty rate mux : decode_at rate [] mux = Some None.
Proof. by destruct rate, mux; vm_compute. Qed.

Lemma rel_open a s : rel a s → open_window s = high a - first a.
Proof. intros H. unfold open_window. rewrite (rel_first a s H), (rel_high a s H). pose proof (rel_window a s H). zdiv. Qed.

Lemma follows_same a b s s1 s' ev : same_rx s s1 → follows a b s1 (Some (s', ev)) → follows a b s (Some (s', ev)).
Proof. intros (Hc & _) (s2 & ev2 & E & H1 & H2 & H3 & H4). exists s2, ev2. split_and!; try done. congruence. Qed.

Lemma follows_app a b c s s1 ev s2 ev' :
  follows a b s (Some (s1, ev)) → follows b c s1 (Some (s2, ev')) → follows a c s (Some (s2, ev ++ ev')).
Proof.
  intros (? & ? & [= <- <-] & H1 & E1 & (A1 & Ha1 & Hb1) & C1) (? & ? & [= <- <-] & H2 & E2 & (A2 & Ha2 & Hb2) & C2).
  exists s2, (ev ++ ev'). split_and!; [done|done| | |congruence].
  - by rewrite E2, E1, handed_app, app_assoc.
  - exists (A1 ++ A2). by rewrite Ha2, Ha1, app_assoc, abandoned_app, Hb1, Hb2, fmap_app.
Qed.

(** A received frame is a tick of the timers, then the frame. *)
Lemma receive_follows a s bits rate fo s' ev n : rel a s →
  (if decide (rate = Blank) then Some None else decode_at rate bits (mux_option (config s))) = Some fo →
  receive_frame bits rate s = Some (s', ev) →
  (∀ b s1 s2 ev2, rel b s1 → high b = high a → first a ≤ first b →
     match fo with Some f => receive_decoded f s1 | None => Some (s1, []) end = Some (s2, ev2) →
     ∃ c, follows b c s1 (Some (s2, ev2)) ∧ high c = n) →
  ∃ c, follows a c s (Some (s', ev)) ∧ high c = n.
Proof.
  intros H Hd Hr Hk. unfold receive_frame in Hr.
  rewrite (decide_False (P := state s = Uninitialized)) in Hr by (rewrite (rel_state a s H); done).
  destruct (tick_follows a s H) as (b & (s1 & ev1 & Et & H1 & Hrest) & Hb & Hf & _).
  assert (config s1 = config s) as Hc by apply Hrest.
  rewrite Et, bind_some in Hr.
  assert (follows a b s (Some (s1, ev1))) as Hab by (exists s1, ev1; split_and!; [done|done|apply Hrest..]).
  destruct fo as [f|].
  - destruct (decide (rate = Blank)) as [|Hnb]; [done|].
    destruct (decide (bits = [])) as [->|Hne]; [by rewrite decode_empty in Hd|].
    rewrite decide_False in Hr by tauto. rewrite Hc, Hd, bind_some in Hr.
    destruct (receive_decoded f s1) as [[s2 ev2]|] eqn:Ed; [|done]. injection Hr as <- <-.
    destruct (Hk b s1 s2 ev2) as (c & Hfc & Hn); [done..|]. exists c. split; [by eapply follows_app|done].
  - assert (s1 = s' ∧ ev1 = ev) as [<- <-].
    { destruct (decide (rate = Blank ∨ bits = [])) as [|Hn]; [by injection Hr|].
      destruct (decide (rate = Blank)) as [|]; [tauto|]. rewrite Hc, Hd in Hr. by injection Hr. }
    destruct (Hk b s1 s1 []) as (c & Hfc & Hn); [done..|]. exists c. split; [|done].
    rewrite <- (app_nil_r ev1). by eapply follows_app.
Qed.

Lemma decoded_not_blank rate bits mux f : decode_at rate bits mux = Some (Some f) →
  (if decide (rate = Blank) then Some None else decode_at rate bits mux) = Some (Some f).
Proof. intros H. case_decide as E; [|done]. by rewrite E in H. Qed.

Lemma follows_then a b s s' ev evs n' s'' : follows a b s (Some (s', ev)) →
  (rel b s' → ∃ c, follows b c s' (Some (s'', evs)) ∧ high c = n') → ∃ c, follows a c s (Some (s'', ev ++ evs)) ∧ high c = n'.
Proof.
  intros Hb Hk. pose proof Hb as (? & ? & [= <- <-] & Hrel & _). destruct (Hk Hrel) as (c & Hcf & Hcn).
  exists c. split; [by eapply follows_app|done].
Qed.
Lemma same_then a s s' evs n' s'' : rel a s → same_rx s s' →
  (rel a s' → ∃ c, follows a c s' (Some (s'', evs)) ∧ high c = n') → ∃ c, follows a c s (Some (s'', evs)) ∧ high c = n'.
Proof.
  intros H Hs Hk. destruct (Hk (rel_same_rx a s s' H Hs)) as (c & Hcf & Hcn). exists c. split; [by eapply follows_same|done].
Qed.

Lemma run_follows n s ev n' s' : run n s ev n' s' → ∀ a, rel a s → high a = n →
  ∃ a', follows a a' s (Some (s', ev)) ∧ high a' = n'.
Proof.
  induction 1 as [n s|n s k f bits rate s' ev n' s'' evs Hd Hc Hk Hw Hr _ IH|n s k f bits rate s' ev n' s'' evs Hd Hc Hk Hr _ IH
    |n s f bits rate s' ev n' s'' evs Hd Hq Hr _ IH|n s bits rate s' ev n' s'' evs Hl Hr _ IH
    |n s rate allow s' bits n' s'' evs Hs _ IH|n s block s' bits n' s'' evs Hs _ IH|n s data n' s'' evs _ IH]; intros a H Hn.
  - exists a. split; [by apply follows_id|done].
  - destruct (receive_follows a s bits rate (Some f) s' ev (k + 1) H (decoded_not_blank _ _ _ _ Hd) Hr) as (b & Hb & Hbn).
    { intros b s1 s2 ev2 H1 Eh Ef E. destruct (carried_frame k false f s1 Hc (rel_state b s1 H1)) as (s3 & Hs & E3).
      rewrite (rel_open a s H) in Hw. rewrite E3 in E. exists (new_abs b k). split.
      - eapply follows_same; [done|]. rewrite <- E. apply new_follows; [by eapply rel_same_rx|lia|lia].
      - unfold new_abs. by case_decide. }
    apply (follows_then a b s s' ev); auto.
  - destruct (receive_follows a s bits rate (Some f) s' ev n H (decoded_not_blank _ _ _ _ Hd) Hr) as (b & Hb & Hbn).
    { intros b s1 s2 ev2 H1 Eh Ef E. destruct (carried_frame k true f s1 Hc (rel_state b s1 H1)) as (s3 & Hs & E3).
      rewrite E3 in E. destruct (rexmit_follows b s3 k) as (c & Hcf & Hch & _); [by eapply rel_same_rx|lia|].
      exists c. split; [|congruence]. eapply follows_same; [done|]. by rewrite <- E. }
    apply (follows_then a b s s' ev); auto.
  - destruct (receive_follows a s bits rate (Some f) s' ev n H (decoded_not_blank _ _ _ _ Hd) Hr) as (b & Hb & Hbn).
    { intros b s1 s2 ev2 H1 Eh Ef E. destruct (quiet_same f s1 s2 ev2 Hq (rel_state b s1 H1) E) as [Hs ->].
      exists b. split; [|congruence]. apply follows_id; [by eapply rel_same_rx|apply Hs]. }
    apply (follows_then a b s s' ev); auto.
  - destruct (receive_follows a s bits rate None s' ev n H) as (b & Hb & Hbn).
    { case_decide; [done|]. destruct Hl as [|[->|Hl]]; [done|apply decode_empty|done]. }
    { done. }
    { intros b s1 s2 ev2 H1 Eh Ef [= <- <-]. exists b. split; [by apply follows_id|congruence]. }
    apply (follows_then a b s s' ev); auto.
  - pose proof (next_frame_same rate allow s s' bits (rel_state a s H) Hs) as Hsame.
    by apply (same_then a s s'); auto.
  - pose proof (next_supplemental_same block s s' bits Hs) as Hsame.
    by apply (same_then a s s'); auto.
  - by apply (same_then a s (send_data data s)); auto.
Qed.

(** A receiver that has seen no data yet. *)
Record fresh (s : Rlp3Session) : Prop := {
  fresh_state : state s = DataTransfer;
  fresh_numbers : l_v_n s = 0 ∧ l_v_r s = 0;
  fresh_empty : nak_list s = [] ∧ reseq_buffer s = ∅ ∧ rx_buffer s = []
}.

Lemma fresh_rel s : fresh s → rel (mkAbs 0 0 [] []) s.
Proof.
  intros [H1 [H2 H3] (H4 & H5 & H6)]. split; cbn [first high awaited given_up]; try done; try lia;
    try (by intros ? ?%elem_of_nil); [by rewrite H4|by apply NoDup_nil_2|].
  split; [intros; lia|]. intros i _. by rewrite H5, lookup_empty.
Qed.

Lemma stream_all n : stream [] n = mjoin (chunk <$> seqZ 0 n).
Proof. unfold stream. f_equal. Qed.

Lemma run_delivers s0 ev n s : fresh s0 → run 0 s0 ev n s →
  ∃ first lost, 0 ≤ first ≤ n ∧ handed ev = stream lost first ∧ abandoned ev = (λ k, k mod 4096) <$> lost ∧
    (first < n → first ∈ lost ∨ ∃ e, e ∈ nak_list s ∧ nk_l_seq e = first mod 4096) ∧
    (nak_list s = [] → abandoned ev = [] → handed ev = mjoin (chunk <$> seqZ 0 n)).
Proof.
  intros H0 Hrun. destruct (run_follows 0 s0 ev n s Hrun _ (fresh_rel s0 H0) eq_refl)
    as (a & (? & ? & [= <- <-] & H & Hst & (E & HE & Hab) & _) & Hn).
  cbn in Hst, HE. assert (handed ev = stream (given_up a) (first a)) as Hh by (rewrite Hst; done).
  assert (first a < n → first a ∈ E ∨ ∃ e, e ∈ nak_list s ∧ nk_l_seq e = first a mod 4096) as Hg.
  { intros Hlt. destruct (rel_gap a s H) as [Ha|Ha]; [lia| |left; congruence]. right.
    assert (first a mod 4096 ∈ nk_l_seq <$> nak_list s) as (e & Ee & He)%list_elem_of_fmap.
    { rewrite (rel_awaited a s H). apply list_elem_of_fmap. by exists (first a). }
    by exists e. }
  exists (first a), E. pose proof (rel_window a s H). split_and!; [lia|lia|congruence|done|done|].
  intros Hnil Hab0. rewrite Hab0 in Hab. symmetry in Hab. apply fmap_nil_inv in Hab.
  rewrite Hh, HE, Hab, stream_all. do 2 f_equal. f_equal.
  destruct (decide (first a < n)) as [Hlt|]; [|lia]. destruct (Hg Hlt) as [Hi|(e & He & _)]; [rewrite Hab in Hi; by apply elem_of_nil in Hi|].
  rewrite Hnil in He. by apply elem_of_nil in He.
Qed.

End Receiver.

(** C2: Reliable delivery.  Whatever frames are lost, repeated or delayed within the 8-bit
    sequence window, and whatever the session sends in between, the octets an RLP Type 3
    receiver hands up are the frames of the stream from the first on, in order, each once, with
    no frame left out but the ones it reports as abandoned; the first frame not yet handed up is
    one whose retransmission is still on the NAK list or has been abandoned; and when the NAK
    list is empty and nothing was abandoned, every frame received has been handed up. *)
Theorem rlp3_delivers chunk s0 ev n s : (∀ k, chunk k ≠ []) → fresh s0 → run chunk 0 s0 ev n s →
  ∃ first lost, 0 ≤ first ≤ n ∧ handed ev = stream chunk lost first ∧ abandoned ev = (λ k, k mod 4096) <$> lost ∧
    (first < n → first ∈ lost ∨ ∃ e, e ∈ nak_list s ∧ nk_l_seq e = first mod 4096) ∧
    (nak_list s = [] → abandoned ev = [] → handed ev = mjoin (chunk <$> seqZ 0 n)).
Proof. intros Hc Hf Hr. by apply (run_delivers chunk Hc s0 ev n s). Qed.

(** Frame 1 is lost, frame 2 arrives, the session sends its NAK, frame 1 is repeated. *)
Module Delivery.
Definition octet (k : Z) : list Z := [k mod 256].
Definition start : Rlp3Session := enter_data_transfer (initialize (new default_config)).
Definition sent (k : Z) (rexmit : bool) : list Z :=
  match encode (Data (k mod 256) rexmit (octet k)) Odd with Some (Ok bits) => bits | _ => [] end.
Definition heard_of (bits : list Z) (s : Rlp3Session) : Rlp3Session * list RlpEvent := default (s, []) (receive_frame bits Full s).
Definition s1 := (heard_of (sent 0 false) start).1.
Definition s2 := (heard_of (sent 2 false) s1).1.
Definition s3 := (default (s2, []) (next_frame Full s2)).1.
Definition s4 := (heard_of (sent 1 true) s3).1.
Definition events := (heard_of (sent 0 false) start).2 ++ (heard_of (sent 2 false) s1).2 ++ (heard_of (sent 1 true) s3).2 ++ [].

Lemma octets k : octet k ≠ [].
Proof. done. Qed.
Lemma fresh_start : fresh start.
Proof. by split. Qed.
Lemma recovered : run octet 0 start events 3 s4.
Proof.
  unfold events. eapply (run_new _ 0 start 0 (Data 0 false (octet 0)) (sent 0 false) Full s1).
  { vm_compute. reflexivity. } { by left. } { lia. } { vm_compute. done. } { vm_compute. reflexivity. }
  eapply (run_new _ 1 s1 2 (Data 2 false (octet 2)) (sent 2 false) Full s2).
  { vm_compute. reflexivity. } { by left. } { lia. } { vm_compute. done. } { vm_compute. reflexivity. }
  eapply (run_send _ 3 s2 Full true s3 (default (s2, []) (next_frame Full s2)).2). { vm_compute. reflexivity. }
  eapply (run_rexmit _ 3 s3 1 (Data 1 true (octet 1)) (sent 1 true) Full s4).
  { vm_compute. reflexivity. } { by left. } { lia. } { vm_compute. reflexivity. }
  apply run_done.
Qed.
End Delivery.

Lemma rlp3_delivers_witness : handed Delivery.events = [0; 1; 2].
Proof.
  destruct (rlp3_delivers Delivery.octet Delivery.start Delivery.events 3 Delivery.s4
    Delivery.octets Delivery.fresh_start Delivery.recovered) as (first & lost & _ & _ & _ & _ & H).
  rewrite H; [reflexivity|vm_compute; reflexivity|vm_compute; reflexivity].
Defined.
