(* ===== verification/Framing.v ===== *)
(** * PPP HDLC-like framing ([cdma-packet/src/lib/ppp/framing.rs])

    RFC 1662: escaping, the FCS-16, and the deframer that collects the byte
    chunks an RLP session hands up. *)
From S2P Require Import Prelude BitString.

(** [iter().position(p)] *)
Fixpoint position (p : Z → bool) (l : list Z) : option nat :=
  match l with
  | [] => None
  | x :: l => if p x then Some 0%nat else S <$> position p l
  end.

Definition FLAG : Z := 0x7E.
Definition ESCAPE : Z := 0x7D.
Definition ADDRESS : Z := 0xFF.
Definition CONTROL : Z := 0x03.
Definition LCP_PROTOCOL : Z := 0xC021.

Definition FCS16_TABLE : list Z := fcs_octet_step <$> seqZ 0 256.
Definition FCS16_INIT : Z := 0xFFFF.
Definition FCS16_GOOD : Z := 0xF0B8.

Definition fcs16_update (fcs b : Z) : Z :=
  Z.lxor (Z.shiftr fcs 8) (default 0 (FCS16_TABLE !! Z.to_nat (Z.land (Z.lxor fcs b) 0xFF))).
Definition fcs16 (data : list Z) : Z := foldl fcs16_update FCS16_INIT data.

Record PppPacket := mkPppPacket { protocol : Z; payload : list Z }.
#[export] Instance PppPacket_eq_dec : EqDecision PppPacket.
Proof. solve_decision. Defined.

(** ** Escaping *)
Fixpoint unescape (data : list Z) : option (list Z) :=
  match data with
  | [] => Some []
  | b :: data =>
      if b =? ESCAPE then
        match data with
        | [] => None
        | c :: data => out ← unescape data; Some (Z.lxor c 0x20 :: out)
        end
      else out ← unescape data; Some (b :: out)
  end.

Definition needs_escape_accm (b accm : Z) : bool :=
  if (b =? FLAG) || (b =? ESCAPE) then true
  else if b <? 0x20 then negb (Z.land (Z.shiftr accm b) 1 =? 0)
  else false.

Definition escape_octet (accm b : Z) : list Z :=
  if needs_escape_accm b accm then [ESCAPE; Z.lxor b 0x20] else [b].

(** ** Framing *)
Record FrameOptions := mkFrameOptions { tx_accm : Z; acfc : bool; pfc : bool }.
Definition FrameOptions_default : FrameOptions := mkFrameOptions 0xFFFFFFFF false false.

Definition header (packet : PppPacket) (opts : FrameOptions) : list Z :=
  let is_lcp := protocol packet =? LCP_PROTOCOL in
  (if negb (acfc opts) || is_lcp then [ADDRESS; CONTROL] else []) ++
  (if pfc opts && negb is_lcp && (Z.shiftr (protocol packet) 8 =? 0)
      && negb (Z.land (protocol packet) 0x01 =? 0)
   then [(protocol packet) as_u8]
   else [(Z.shiftr (protocol packet) 8) as_u8; (Z.land (protocol packet) 0xFF) as_u8]).

Definition frame_with_options (packet : PppPacket) (opts : FrameOptions) : list Z :=
  let is_lcp := protocol packet =? LCP_PROTOCOL in
  let content := header packet opts ++ payload packet in
  let fcs := Z.lxor (fcs16 content) FCS16_INIT in
  let content := content ++ [(Z.land fcs 0xFF) as_u8] ++ [(Z.shiftr fcs 8) as_u8] in
  let accm := if is_lcp then 0xFFFFFFFF else tx_accm opts in
  [FLAG] ++ mjoin (escape_octet accm <$> content) ++ [FLAG].

Definition frame (packet : PppPacket) : list Z := frame_with_options packet FrameOptions_default.

(** ** Deframing *)

(** The body of the loop once a raw frame has been cut out; [None] is [continue]. *)
Definition parse_frame (raw_frame : list Z) : option PppPacket :=
  if decide (raw_frame = []) then None
  else
    unescaped ← unescape raw_frame;
    let len := length unescaped in
    if decide (len < 5)%nat then None
    else if negb (fcs16 unescaped =? FCS16_GOOD) then None
    else
      let payload_with_fcs :=
        match unescaped with
        | a :: c :: _ =>
            if (a =? ADDRESS) && (c =? CONTROL) then take (len - 4) (drop 2 unescaped)
            else take (len - 2) unescaped
        | _ => []
        end in
      match payload_with_fcs with
      | [] => None
      | p0 :: info =>
          if negb (Z.land p0 0x01 =? 0) then Some (mkPppPacket p0 info)
          else
            match info with
            | [] => None
            | p1 :: info => Some (mkPppPacket (Z.lor ((Z.shiftl p0 8) as_u16) p1) info)
            end
      end.

(** One round of the loop of [feed]: what it leaves in the buffer, the raw frame
    it cut out, and whether the loop goes on. *)
Definition feed_round (buf : list Z) : list Z * option (list Z) :=
  match position (λ b, b =? FLAG) buf with
  | None => ([], None)
  | Some start =>
      let buf := drop start buf in
      match position (λ b, negb (b =? FLAG)) buf with
      | None => (buf, None)
      | Some frame_start =>
          match position (λ b, b =? FLAG) (drop frame_start buf) with
          | None => (buf, None)
          | Some pos =>
              let frame_end := (frame_start + pos)%nat in
              (drop frame_end buf, Some (take pos (drop frame_start buf)))
          end
      end
  end.

(** Each round that goes on removes a frame from the buffer, so the buffer's
    length bounds the rounds ([feed_loop_fuel]). *)
Fixpoint feed_loop (fuel : nat) (buf : list Z) : list Z * list PppPacket :=
  match fuel with
  | O => (buf, [])
  | S fuel =>
      match feed_round buf with
      | (buf, None) => (buf, [])
      | (buf, Some raw_frame) =>
          let '(buf, packets) := feed_loop fuel buf in
          (buf, option_list (parse_frame raw_frame) ++ packets)
      end
  end.

(** The deframer's state is its buffer. *)
Definition new_deframer : list Z := [].
Definition feed (buf data : list Z) : list Z * list PppPacket :=
  let buf := buf ++ data in feed_loop (S (length buf)) buf.

Example round_trip_lcp_packet :
  feed new_deframer (frame (mkPppPacket 0xC021 [1; 1; 0; 4])) = ([FLAG], [mkPppPacket 0xC021 [1; 1; 0; 4]]).
Proof. vm_compute. reflexivity. Qed.

(** ** The check sequence *)
Lemma table_lookup i : is_u8 i → FCS16_TABLE !! Z.to_nat i = Some (fcs_octet_step i).
Proof.
  intros [??]. unfold FCS16_TABLE. rewrite list_lookup_fmap, lookup_seqZ_lt by lia. cbn [fmap option_fmap option_map].
  do 2 f_equal. lia.
Qed.

(** The table-driven update is eight steps of the bitwise CRC. *)
Lemma fcs16_update_step fcs b : is_u16 fcs → is_u8 b → fcs16_update fcs b = fcs_octet_step (Z.lxor fcs b).
Proof.
  intros Hf Hb. unfold fcs16_update. rewrite table_lookup by (rewrite land_255; unfold is_u; zdiv).
  cbn [default].
  assert (Z.lxor fcs b = Z.lxor (Z.shiftl (Z.shiftr fcs 8) 8) (Z.land (Z.lxor fcs b) 0xFF)) as E.
  { apply Z.bits_inj'. intros n Hn. rewrite Z.lxor_spec, (Z.lxor_spec (Z.shiftl _ _)), Z.land_spec, Z.lxor_spec.
    destruct (decide (n < 8)).
    - rewrite Z.shiftl_spec_low by lia. change 0xFF with (Z.ones 8). rewrite Z.ones_spec_low by lia.
      by rewrite andb_true_r, xorb_false_l.
    - rewrite Z.shiftl_spec, Z.shiftr_spec by lia. change 0xFF with (Z.ones 8). rewrite Z.ones_spec_high by lia.
      rewrite (is_u_lt_pow 8 b) by (done || lia). rewrite andb_false_r. by replace (n - 8 + 8) with n by lia. }
  rewrite E at 2. rewrite fcs_octet_step_lxor, fcs_octet_step_shift; [done|].
  apply Z.shiftr_nonneg. destruct Hf; lia.
Qed.
