(* ===== verification/FramingProofs.v ===== *)
(** * Correctness of the PPP framing *)
From S2P Require Import Prelude BitString Framing.

(** ** The check sequence *)
Lemma fcs16_update_u16 c b : is_u16 c → is_u8 b → is_u16 (fcs16_update c b).
Proof.
  intros Hc Hb. rewrite fcs16_update_step by done. apply fcs_octet_step_u16, is_u_lxor; [lia|done|].
  by apply (is_u_mono 8).
Qed.

Lemma fcs16_fold_u16 data : ∀ c, is_u16 c → bytes data → is_u16 (foldl fcs16_update c data).
Proof.
  induction data as [|b data IH]; intros c Hc Hd; [done|]. inversion_clear Hd. cbn [foldl].
  apply IH; [|done]. by apply fcs16_update_u16.
Qed.

Lemma fcs16_u16 data : bytes data → is_u16 (fcs16 data).
Proof. apply fcs16_fold_u16. done. Qed.

Definition fcs_trailer (content : list Z) : list Z :=
  let fcs := Z.lxor (fcs16 content) FCS16_INIT in
  [(Z.land fcs 0xFF) as_u8] ++ [(Z.shiftr fcs 8) as_u8].

(** The state after the first trailer octet depends on the high octet only. *)
Lemma lxor_complement_lo c : is_u16 c →
  Z.lxor c (Z.land (Z.lxor c 0xFFFF) 0xFF) = Z.lxor (Z.shiftl (Z.shiftr c 8) 8) 0xFF.
Proof.
  intros Hc. apply Z.bits_inj'. intros n Hn.
  rewrite !Z.lxor_spec, Z.land_spec, Z.lxor_spec.
  destruct (decide (n < 8)).
  - rewrite Z.shiftl_spec_low by lia. change 0xFF with (Z.ones 8). change 0xFFFF with (Z.ones 16).
    rewrite !Z.ones_spec_low by lia. by destruct (Z.testbit c n).
  - rewrite Z.shiftl_spec, Z.shiftr_spec by lia. change 0xFF with (Z.ones 8).
    rewrite Z.ones_spec_high by lia. rewrite andb_false_r. by replace (n - 8 + 8) with n by lia.
Qed.

Lemma complement_hi c : Z.shiftr (Z.lxor c 0xFFFF) 8 = Z.lxor (Z.shiftr c 8) 0xFF.
Proof. by rewrite Z.shiftr_lxor. Qed.

Lemma good_residue content : bytes content → fcs16 (content ++ fcs_trailer content) = FCS16_GOOD.
Proof.
  intros Hb. unfold fcs_trailer. pose proof (fcs16_u16 content Hb) as Hc.
  unfold fcs16 at 1. rewrite foldl_app. change (foldl fcs16_update FCS16_INIT content) with (fcs16 content).
  revert Hc. generalize (fcs16 content) as c. intros c Hc. unfold FCS16_INIT. cbn [app foldl].
  assert (is_u16 (Z.lxor c 0xFFFF)) as Hx by (by apply is_u_lxor).
  assert (is_u8 (Z.land (Z.lxor c 0xFFFF) 0xFF)) as Hlo by (rewrite land_255; unfold is_u; zdiv).
  assert (is_u8 (Z.shiftr (Z.lxor c 0xFFFF) 8)) as Hhi by (rewrite shiftr_8; unfold is_u in *; zdiv).
  rewrite !wrap_small by done. rewrite (fcs16_update_step c) by done.
  rewrite lxor_complement_lo by done.
  assert (0 ≤ Z.shiftr c 8) by (apply Z.shiftr_nonneg; destruct Hc; lia).
  rewrite fcs_octet_step_lxor, fcs_octet_step_shift by done.
  assert (is_u16 (Z.shiftr c 8)) by (by apply is_u_shiftr).
  rewrite fcs16_update_step, complement_hi by (done || by apply is_u_lxor; [lia|done|]).
  rewrite (Z.lxor_comm (Z.shiftr c 8) (fcs_octet_step 0xFF)), Z.lxor_assoc, <- (Z.lxor_assoc (Z.shiftr c 8)).
  rewrite Z.lxor_nilpotent, Z.lxor_0_l. vm_compute. reflexivity.
Qed.

(** ** Error detection *)
Lemma fcs_bit_step_zero z : is_u16 z → fcs_bit_step z = 0 → z = 0.
Proof.
  intros Hz H. unfold fcs_bit_step in H. rewrite land_1_odd in H. destruct (Z.odd z) eqn:E; cbn in H.
  - apply Z.lxor_eq in H. rewrite Z.shiftr_div_pow2 in H by lia. unfold POLY, is_u in *. zdiv.
  - rewrite Z.shiftr_div_pow2 in H by lia. unfold is_u in *. rewrite Zodd_mod in E.
    destruct (Z.eqb_spec (z mod 2) 1); [done|]. zdiv.
Qed.

Lemma fcs_octet_step_zero z : is_u16 z → fcs_octet_step z = 0 → z = 0.
Proof.
  unfold fcs_octet_step. generalize 8%nat as n. induction n as [|n IH]; intros Hz H; [done|].
  rewrite Nat.iter_succ in H. apply IH; [done|]. apply fcs_bit_step_zero; [|done].
  clear -Hz. induction n as [|n IH]; [done|]. rewrite Nat.iter_succ. by apply fcs_bit_step_u16.
Qed.

Lemma fcs16_update_inj a b x : is_u16 a → is_u16 b → is_u8 x → fcs16_update a x = fcs16_update b x → a = b.
Proof.
  intros Ha Hb Hx H. rewrite !fcs16_update_step, !fcs_octet_step_lxor in H by done.
  assert (fcs_octet_step (Z.lxor a b) = 0) as E.
  { rewrite fcs_octet_step_lxor. apply Z.lxor_eq_0_iff.
    apply (f_equal (λ z, Z.lxor z (fcs_octet_step x))) in H.
    by rewrite !Z.lxor_assoc, Z.lxor_nilpotent, !Z.lxor_0_r in H. }
  apply fcs_octet_step_zero in E; [|by apply is_u_lxor]. by apply Z.lxor_eq in E.
Qed.

Lemma fcs16_fold_inj data : ∀ a b, is_u16 a → is_u16 b → bytes data →
  foldl fcs16_update a data = foldl fcs16_update b data → a = b.
Proof.
  induction data as [|x data IH]; intros a b Ha Hb Hd H; [done|]. inversion_clear Hd. cbn [foldl] in H.
  apply IH in H; [|by apply fcs16_update_u16..|done]. by apply fcs16_update_inj in H.
Qed.

(** Two octets in a row reach every state once. *)
Lemma fcs16_two_octets c x1 x2 y1 y2 :
  is_u16 c → is_u8 x1 → is_u8 x2 → is_u8 y1 → is_u8 y2 →
  fcs16_update (fcs16_update c x1) x2 = fcs16_update (fcs16_update c y1) y2 → x1 = y1 ∧ x2 = y2.
Proof.
  intros Hc H1 H2 H3 H4 H.
  assert (∀ z, is_u8 z → is_u16 (Z.lxor c z)) as Hw.
  { intros z Hz. apply is_u_lxor; [lia|done|by apply (is_u_mono 8)]. }
  rewrite (fcs16_update_step c x1), (fcs16_update_step c y1) in H by done.
  rewrite !fcs16_update_step in H by first [assumption|apply fcs_octet_step_u16, Hw; assumption].
  set (d1 := Z.lxor x1 y1). set (d2 := Z.lxor x2 y2).
  assert (is_u8 d1 ∧ is_u8 d2) as [D1 D2] by (split; by apply is_u_lxor).
  assert (fcs_octet_step (Z.lxor (fcs_octet_step d1) d2) = 0) as E.
  { rewrite !fcs_octet_step_lxor in *. unfold d1, d2. rewrite !fcs_octet_step_lxor in *.
    apply Z.lxor_eq_0_iff. apply (f_equal (Z.lxor (fcs_octet_step (fcs_octet_step c)))) in H.
    rewrite !Z.lxor_assoc, <- !(Z.lxor_assoc (fcs_octet_step (fcs_octet_step c)) (fcs_octet_step (fcs_octet_step c))) in H.
    rewrite Z.lxor_nilpotent, !Z.lxor_0_l in H.
    apply Z.lxor_eq_0_iff in H. apply Z.lxor_eq_0_iff. rewrite <- H.
    apply Z.bits_inj'. intros n _. rewrite !Z.lxor_spec. by repeat destruct (Z.testbit _ n). }
  apply fcs_octet_step_zero, Z.lxor_eq in E;
    [|apply is_u_lxor; [lia|by apply fcs_octet_step_u16, (is_u_mono 8)|by apply (is_u_mono 8)]].
  assert (d1 = 0) as E1.
  { pose proof (all_u8_spec (λ d, (d =? 0) || (255 <? fcs_octet_step d)) d1 ltac:(vm_compute; reflexivity) D1) as Hd.
    cbv beta in Hd. rewrite E in Hd. unfold is_u in *. lia. }
  split; [by apply Z.lxor_eq|]. rewrite E1 in E. change (fcs_octet_step 0) with 0 in E. symmetry in E. by apply Z.lxor_eq.
Qed.

(** The frame check detects every error confined to two consecutive octets:
    two contents that differ there and nowhere else cannot both pass it. *)
Theorem fcs_detects_burst (pre suf : list Z) (x1 x2 y1 y2 : Z) :
  bytes (pre ++ [x1; x2; y1; y2] ++ suf) →
  fcs16 (pre ++ [x1; x2] ++ suf) = FCS16_GOOD → fcs16 (pre ++ [y1; y2] ++ suf) = FCS16_GOOD →
  x1 = y1 ∧ x2 = y2.
Proof.
  intros Hb Hx Hy. apply bytes_app in Hb as [Hp Hb]. apply bytes_app in Hb as [Hd Hs].
  rewrite <- Hy in Hx. unfold fcs16 in Hx. rewrite !foldl_app in Hx.
  inversion_clear Hd as [|?? H1 Hd']. inversion_clear Hd' as [|?? H2 Hd]. inversion_clear Hd as [|?? H3 Hd'].
  inversion_clear Hd' as [|?? H4 _]. pose proof (fcs16_u16 pre Hp) as Hc.
  apply fcs16_fold_inj in Hx; [|cbn [foldl]; by repeat apply fcs16_update_u16..|done].
  cbn [foldl] in Hx. by apply fcs16_two_octets in Hx.
Qed.

Lemma fcs_detects_burst_witness :
  let c := [0xFF; 3; 0; 0x21; 0x45] in
  fcs16 ([] ++ [0xFF; 3] ++ [0; 0x21; 0x45] ++ fcs_trailer c) = FCS16_GOOD ∧
  fcs16 ([] ++ [0xFE; 3] ++ [0; 0x21; 0x45] ++ fcs_trailer c) ≠ FCS16_GOOD.
Proof.
  split; [vm_compute; reflexivity|]. intros H.
  pose proof (fcs_detects_burst [] ([0; 0x21; 0x45] ++ fcs_trailer [0xFF; 3; 0; 0x21; 0x45]) 0xFF 3 0xFE 3) as T.
  destruct T as [? _]; [|vm_compute; reflexivity|exact H|lia].
  apply bytesb_bytes. vm_compute. reflexivity.
Defined.

(** ** Escaping *)
Lemma unescape_escape accm content : bytes content →
  ∀ rest, unescape (mjoin (escape_octet accm <$> content) ++ rest) = out ← unescape rest; Some (content ++ out).
Proof.
  induction content as [|b content IH]; intros Hb rest.
  { cbn. by destruct (unescape rest). }
  inversion_clear Hb as [|?? Hx Hb']. rewrite fmap_cons.
  change (mjoin (?a :: ?l)) with (a ++ mjoin l). rewrite <- app_assoc.
  assert (∀ x l, x ≠ ESCAPE → unescape (x :: l) = out ← unescape l; Some (x :: out)) as Hplain.
  { intros x l Hne. cbn [unescape]. by rewrite (proj2 (Z.eqb_neq _ _) Hne). }
  unfold escape_octet. destruct (needs_escape_accm b accm) eqn:E.
  - change (([ESCAPE; Z.lxor b 0x20] ++ ?l)) with (ESCAPE :: Z.lxor b 0x20 :: l).
    cbn [unescape Z.eqb ESCAPE Pos.eqb]. rewrite IH by done. rewrite Z.lxor_assoc, Z.lxor_nilpotent, Z.lxor_0_r.
    by destruct (unescape rest).
  - cbn [app]. rewrite Hplain, IH by (done || (intros ->; vm_compute in E; done)).
    by destruct (unescape rest).
Qed.

Lemma escape_no_flag accm content : bytes content → Forall (λ b, (b =? FLAG) = false) (mjoin (escape_octet accm <$> content)).
Proof.
  intros Hb. apply Forall_join, Forall_fmap. eapply Forall_impl; [exact Hb|]. intros b Hx.
  unfold compose, escape_octet. destruct (needs_escape_accm b accm) eqn:E.
  - repeat constructor. unfold needs_escape_accm in E.
    pose proof (all_u8_spec (λ b, negb (Z.lxor b 0x20 =? FLAG) || (0x20 <=? b) && negb ((b =? FLAG) || (b =? ESCAPE))) b
      ltac:(vm_compute; reflexivity) Hx) as H. cbv beta in H.
    destruct (Z.lxor b 0x20 =? FLAG); [|done]. cbn [negb orb] in H. apply andb_true_iff in H as [H1 H2].
    apply negb_true_iff in H2. rewrite H2 in E. destruct (b <? 0x20) eqn:E2; [lia|done].
  - constructor; [|constructor]. unfold needs_escape_accm in E. by destruct (b =? FLAG).
Qed.

(** ** Cutting frames out of the buffer *)
Lemma position_app_no p l r : Forall (λ b, p b = false) l → position p (l ++ r) = Nat.add (length l) <$> position p r.
Proof.
  induction 1 as [|x l Hx Hl IH]; cbn [app position length Nat.add]; [by destruct (position p r)|].
  rewrite Hx, IH. by destruct (position p r).
Qed.

Lemma position_Some p l n : position p l = Some n →
  ∃ l1 x l2, l = l1 ++ x :: l2 ∧ length l1 = n ∧ p x = true ∧ Forall (λ b, p b = false) l1.
Proof.
  revert n. induction l as [|y l IH]; intros n H; [done|]. cbn [position] in H. destruct (p y) eqn:E.
  - injection H as <-. by exists [], y, l.
  - destruct (position p l) as [m|]; [|done]. injection H as <-.
    destruct (IH m eq_refl) as (l1 & x & l2 & -> & <- & Hx & Hl). exists (y :: l1), x, l2. by repeat constructor.
Qed.

Lemma position_None p l : position p l = None → Forall (λ b, p b = false) l.
Proof.
  induction l as [|y l IH]; intros H; [constructor|]. cbn [position] in H. destruct (p y) eqn:E; [done|].
  constructor; [done|]. apply IH. by destruct (position p l).
Qed.

Lemma position_no p l : Forall (λ b, p b = false) l → position p l = None.
Proof. intros Hl. rewrite <- (app_nil_r l), position_app_no; done. Qed.

Lemma position_here p l x r : Forall (λ b, p b = false) l → p x = true → position p (l ++ x :: r) = Some (length l).
Proof. intros Hl Hx. rewrite position_app_no by done. cbn [position]. rewrite Hx. cbn. f_equal. lia. Qed.

(** The shapes of a buffer: no flag; flags only; an open frame; a whole frame. *)
Inductive shape : list Z → Prop :=
| shape_garbage g : Forall (λ b, (b =? FLAG) = false) g → shape g
| shape_flags g n : Forall (λ b, (b =? FLAG) = false) g → shape (g ++ replicate (S n) FLAG)
| shape_open g n x body : Forall (λ b, (b =? FLAG) = false) g →
    Forall (λ b, (b =? FLAG) = false) (x :: body) → shape (g ++ replicate (S n) FLAG ++ x :: body)
| shape_whole g n x body rest : Forall (λ b, (b =? FLAG) = false) g →
    Forall (λ b, (b =? FLAG) = false) (x :: body) →
    shape (g ++ replicate (S n) FLAG ++ (x :: body) ++ FLAG :: rest).

Lemma flags_split buf : ∃ n rest, buf = replicate n FLAG ++ rest ∧
  (rest = [] ∨ ∃ x r, rest = x :: r ∧ (x =? FLAG) = false).
Proof.
  induction buf as [|y buf (n & rest & -> & H)]; [by exists 0%nat, []; auto|].
  destruct (Z.eqb_spec y FLAG) as [->|Hne]; [by exists (S n), rest|].
  exists 0%nat, (y :: replicate n FLAG ++ rest). split; [done|]. right. eexists _, _. split; [done|]. by apply Z.eqb_neq.
Qed.

Lemma shape_all buf : shape buf.
Proof.
  destruct (position (λ b, b =? FLAG) buf) as [n|] eqn:E; [|by apply shape_garbage, position_None].
  apply position_Some in E as (g & y & l2 & -> & _ & Hy%Z.eqb_eq & Hg). subst y.
  destruct (flags_split l2) as (m & rest & -> & [->|(x & r & -> & Hx)]).
  { rewrite app_nil_r. by apply (shape_flags g m). }
  destruct (position (λ b, b =? FLAG) r) as [k|] eqn:E.
  - apply position_Some in E as (body & y & rest & -> & _ & Hy%Z.eqb_eq & Hb). subst y.
    apply (shape_whole g m x body rest); [done|]. by constructor.
  - apply (shape_open g m x r); [done|]. constructor; [done|]. by apply position_None.
Qed.

Lemma round_skip g y : Forall (λ b, (b =? FLAG) = false) g → feed_round (g ++ y) = feed_round y.
Proof.
  intros Hg. unfold feed_round. rewrite position_app_no by done.
  destruct (position _ y) as [k|]; [|done]. cbn [fmap option_fmap option_map].
  by rewrite drop_app_add.
Qed.

Lemma position_flags n x r : (x =? FLAG) = false →
  position (λ b, negb (b =? FLAG)) (replicate n FLAG ++ x :: r) = Some n.
Proof.
  intros Hx. rewrite position_here; [by rewrite length_replicate| |by rewrite Hx].
  apply Forall_replicate. done.
Qed.

Lemma round_flag n r (buf := replicate (S n) FLAG ++ r) :
  feed_round buf =
    match position (λ b, negb (b =? FLAG)) buf with
    | None => (buf, None)
    | Some frame_start =>
        match position (λ b, b =? FLAG) (drop frame_start buf) with
        | None => (buf, None)
        | Some pos => (drop (frame_start + pos) buf, Some (take pos (drop frame_start buf)))
        end
    end.
Proof. done. Qed.

Lemma round_flags n : feed_round (replicate (S n) FLAG) = (replicate (S n) FLAG, None).
Proof.
  rewrite <- (app_nil_r (replicate (S n) FLAG)), round_flag, position_no; [done|].
  rewrite app_nil_r. by apply Forall_replicate.
Qed.

Lemma round_open n x body : Forall (λ b, (b =? FLAG) = false) (x :: body) →
  feed_round (replicate (S n) FLAG ++ x :: body) = (replicate (S n) FLAG ++ x :: body, None).
Proof.
  intros Hb. rewrite round_flag, position_flags by by inversion Hb.
  rewrite drop_app_length' by by rewrite length_replicate. by rewrite position_no.
Qed.

Lemma round_whole n x body rest : Forall (λ b, (b =? FLAG) = false) (x :: body) →
  feed_round (replicate (S n) FLAG ++ (x :: body) ++ FLAG :: rest) = (FLAG :: rest, Some (x :: body)).
Proof.
  intros Hb. rewrite round_flag.
  assert (position (λ b, negb (b =? FLAG)) (replicate (S n) FLAG ++ (x :: body) ++ FLAG :: rest) = Some (S n)) as ->
    by (apply (position_flags (S n) x (body ++ FLAG :: rest)); by inversion Hb).
  rewrite drop_app_length' by by rewrite length_replicate.
  rewrite position_here by done. rewrite take_app_length. f_equal.
  rewrite <- drop_drop, drop_app_length' by by rewrite length_replicate. by rewrite drop_app_length.
Qed.

(** ** The loop *)

(** A round that cuts a frame shortens the buffer. *)
Lemma round_shortens buf buf' raw : feed_round buf = (buf', Some raw) → (length buf' < length buf)%nat.
Proof.
  destruct (shape_all buf) as [g Hg|g n Hg|g n x body Hg Hb|g n x body rest Hg Hb].
  - rewrite <- (app_nil_r g), round_skip by done. done.
  - rewrite round_skip, round_flags by done. done.
  - rewrite round_skip, round_open by done. done.
  - rewrite round_skip, round_whole by done. intros [= <- <-].
    rewrite !length_app, length_replicate. cbn [length]. lia.
Qed.

Lemma feed_loop_fuel f1 : ∀ f2 buf, (length buf < f1)%nat → (length buf < f2)%nat → feed_loop f1 buf = feed_loop f2 buf.
Proof.
  induction f1 as [|f1 IH]; intros f2 buf H1 H2; [lia|]. destruct f2 as [|f2]; [lia|]. cbn [feed_loop].
  destruct (feed_round buf) as [buf' [raw|]] eqn:E; [|done]. apply round_shortens in E.
  by rewrite (IH f2 buf') by lia.
Qed.

(** The run of the loop to its end. *)
Definition deframe (buf : list Z) : list Z * list PppPacket := feed_loop (S (length buf)) buf.

Lemma deframe_eq buf :
  deframe buf = match feed_round buf with
                | (buf', None) => (buf', [])
                | (buf', Some raw) =>
                    let '(b, ps) := deframe buf' in (b, option_list (parse_frame raw) ++ ps)
                end.
Proof.
  unfold deframe at 1. cbn [feed_loop]. destruct (feed_round buf) as [buf' [raw|]] eqn:E; [|done].
  apply round_shortens in E. unfold deframe. by rewrite (feed_loop_fuel (length buf) (S (length buf')) buf') by lia.
Qed.

(** Data may arrive in pieces: what a piece leaves in the buffer is all that matters. *)
Lemma deframe_app buf x :
  deframe (buf ++ x) = let '(b, ps) := deframe buf in let '(b', qs) := deframe (b ++ x) in (b', ps ++ qs).
Proof.
  induction buf as [buf IH] using (induction_ltof1 _ length).
  destruct (shape_all buf) as [g Hg|g n Hg|g n y body Hg Hb|g n y body rest Hg Hb].
  - rewrite (deframe_eq (g ++ x)), (deframe_eq g), round_skip by done.
    rewrite <- (app_nil_r g), round_skip by done. change (feed_round []) with (@nil Z, @None (list Z)). cbn [app].
    rewrite <- deframe_eq. by destruct (deframe x).
  - rewrite (deframe_eq (g ++ _)), round_skip, round_flags by done.
    rewrite <- app_assoc, (deframe_eq (g ++ _)), round_skip by done. rewrite <- deframe_eq. by destruct (deframe _).
  - rewrite (deframe_eq (g ++ _)), round_skip, round_open by done.
    rewrite <- app_assoc, (deframe_eq (g ++ _)), round_skip by done. rewrite <- deframe_eq. by destruct (deframe _).
  - rewrite (deframe_eq (g ++ _)), round_skip, round_whole by done.
    rewrite <- !app_assoc. rewrite (deframe_eq (g ++ _)), round_skip by done.
    change (((FLAG :: rest) ++ x)) with (FLAG :: (rest ++ x)) in *.
    change ((y :: body) ++ (FLAG :: rest) ++ x) with ((y :: body) ++ FLAG :: (rest ++ x)).
    rewrite round_whole by done.
    change (FLAG :: rest ++ x) with ((FLAG :: rest) ++ x). rewrite IH.
    + destruct (deframe (FLAG :: rest)) as [b ps]. destruct (deframe (b ++ x)) as [b' qs]. by rewrite app_assoc.
    + unfold ltof. rewrite !length_app, length_replicate. cbn [length]. lia.
Qed.

(** The deframer does not depend on how the byte stream is cut into chunks:
    feeding two chunks gives the packets, and leaves the buffer, of feeding
    them as one. *)
Theorem feed_chunks (buf a b : list Z) :
  feed buf (a ++ b) = let '(buf', ps) := feed buf a in let '(buf'', qs) := feed buf' b in (buf'', ps ++ qs).
Proof.
  change (feed ?x ?y) with (deframe (x ++ y)). rewrite app_assoc, deframe_app.
  destruct (deframe (buf ++ a)) as [b1 ps]. done.
Qed.

(** ** Framing and deframing *)

(** A PPP protocol number (RFC 1661: the low octet odd, the high octet even). *)
Definition valid_protocol (p : Z) : bool := (0 <=? p) && (p <? 65536) && Z.odd p && Z.even (p / 256).

(** The packets that survive every combination of framing options: 0x00FF is the
    one number whose compressed form can be read as an address field. *)
Definition framable (packet : PppPacket) : Prop :=
  valid_protocol (protocol packet) = true ∧ protocol packet ≠ 0xFF ∧ bytes (payload packet) ∧
  (2 ≤ length (payload packet))%nat.

Definition protocol_field (packet : PppPacket) (opts : FrameOptions) : list Z :=
  if pfc opts && negb (protocol packet =? LCP_PROTOCOL) && (Z.shiftr (protocol packet) 8 =? 0)
     && negb (Z.land (protocol packet) 0x01 =? 0)
  then [protocol packet] else [protocol packet / 256; protocol packet mod 256].

Lemma valid_protocol_octets p : valid_protocol p = true →
  is_u8 (p / 256) ∧ is_u8 (p mod 256) ∧ Z.even (p / 256) = true ∧ Z.odd p = true ∧ is_u16 p.
Proof.
  unfold valid_protocol. rewrite !andb_true_iff. intros [[[H1 H2] H3] H4]. split_and!; try done; unfold is_u; zdiv.
Qed.

Lemma header_field packet opts : valid_protocol (protocol packet) = true →
  header packet opts =
    (if negb (acfc opts) || (protocol packet =? LCP_PROTOCOL) then [ADDRESS; CONTROL] else []) ++
    protocol_field packet opts ∧ bytes (protocol_field packet opts).
Proof.
  intros H. destruct (valid_protocol_octets _ H) as (H1 & H2 & _ & _ & H3). unfold header, protocol_field.
  rewrite shiftr_8, land_255, (wrap_small 8 (_ / _)), (wrap_small 8 (_ mod _)) by done.
  destruct (_ && _ && _ && _) eqn:E; [|by split; [|repeat constructor; apply H1 || apply H2]].
  rewrite !andb_true_iff in E. destruct E as [[_ E] _]. apply Z.eqb_eq in E.
  assert (is_u8 (protocol packet)) by (unfold is_u in *; zdiv).
  rewrite wrap_small by done. split; [done|]. by apply Forall_singleton.
Qed.

(** Reading the protocol field back. *)
Lemma read_protocol_field packet opts : valid_protocol (protocol packet) = true →
  match protocol_field packet opts ++ payload packet with
  | [] => None
  | p0 :: info =>
      if negb (Z.land p0 0x01 =? 0) then Some (mkPppPacket p0 info)
      else match info with
           | [] => None
           | p1 :: info => Some (mkPppPacket (Z.lor ((Z.shiftl p0 8) as_u16) p1) info)
           end
  end = Some packet.
Proof.
  intros H. destruct (valid_protocol_octets _ H) as (H1 & H2 & He & Ho & H3). unfold protocol_field.
  destruct packet as [p pl]; cbn [protocol payload] in *.
  destruct (_ && _ && _ && _) eqn:E; cbn [app].
  - rewrite !andb_true_iff in E. destruct E as [_ ->]. done.
  - rewrite land_1_odd. rewrite <- Z.negb_even, He. cbn [negb].
    rewrite Z.shiftl_mul_pow2 by lia. rewrite wrap_small by (unfold is_u in *; lia).
    rewrite <- Z.shiftl_mul_pow2, lor_shiftl_add by (done || lia). do 2 f_equal. zdiv.
Qed.

(** The unescaped frame is long enough and its first two octets tell whether the
    address and control fields are there. *)
Lemma framable_start packet opts : framable packet →
  ∃ a c l, protocol_field packet opts ++ payload packet = a :: c :: l ∧
    (3 ≤ length (protocol_field packet opts ++ payload packet))%nat ∧ (a =? ADDRESS) && (c =? CONTROL) = false.
Proof.
  intros (Hv & Hne & Hb & Hl). destruct (valid_protocol_octets _ Hv) as (H1 & H2 & He & Ho & H3).
  destruct packet as [p pl]; cbn [protocol payload] in *. destruct pl as [|x [|y pl]]; cbn [length] in Hl; try lia.
  unfold protocol_field; cbn [protocol]. destruct (_ && _ && _ && _); cbn [app length].
  - eexists _, _, _. split; [done|]. split; [lia|]. destruct (Z.eqb_spec p ADDRESS); [done|]. done.
  - eexists _, _, _. split; [done|]. split; [lia|]. destruct (Z.eqb_spec (p / 256) ADDRESS) as [E|]; [|done].
    rewrite E in He. done.
Qed.

Lemma parse_content packet opts raw : framable packet →
  let content := header packet opts ++ payload packet in
  raw ≠ [] → unescape raw = Some (content ++ fcs_trailer content) → parse_frame raw = Some packet.
Proof.
  intros Hf content Hne Hu. pose proof Hf as (Hv & _ & Hb & _).
  destruct (header_field packet opts Hv) as [Hh Hpb]. unfold parse_frame. rewrite decide_False, Hu by done.
  cbn [mbind option_bind].
  assert (bytes content) as Hc.
  { subst content. rewrite Hh, !bytes_app. split; [split; [|done]|done]. destruct (_ || _); repeat constructor; done. }
  rewrite good_residue, Z.eqb_refl by done. cbn [negb].
  assert (length (fcs_trailer content) = 2%nat) as Ht by done. set (tr := fcs_trailer content) in *. clearbody tr.
  destruct (framable_start packet opts Hf) as (a & c & l & El & Hl & Hac).
  subst content. rewrite Hh. pose proof (read_protocol_field packet opts Hv) as Hr.
  set (F := protocol_field packet opts ++ payload packet) in *. rewrite <- !app_assoc, (app_assoc (protocol_field packet opts)). fold F.
  assert (∀ x, F ++ x = a :: c :: l ++ x) as Ex by (intros x; by rewrite El).
  destruct (_ || _); cbn [app].
  - rewrite decide_False by (cbn [length]; rewrite length_app; lia).
    cbn [Z.eqb ADDRESS CONTROL Pos.eqb andb drop length].
    replace (take _ _) with F; [exact Hr|]. rewrite length_app, Ht. symmetry. apply take_app_length'. lia.
  - rewrite decide_False by (rewrite length_app; lia). rewrite (Ex tr) at 1. rewrite Hac.
    replace (take _ _) with F; [exact Hr|]. rewrite length_app, Ht. symmetry. apply take_app_length'. lia.
Qed.

Lemma frame_shape packet opts : framable packet →
  ∃ x body, frame_with_options packet opts = FLAG :: (x :: body) ++ [FLAG] ∧
    Forall (λ b, (b =? FLAG) = false) (x :: body) ∧ parse_frame (x :: body) = Some packet.
Proof.
  intros Hf. pose proof Hf as (Hv & _ & Hb & _). destruct (header_field packet opts Hv) as [Hh Hpb].
  unfold frame_with_options. cbv zeta. set (accm := if protocol packet =? LCP_PROTOCOL then 0xFFFFFFFF else tx_accm opts).
  set (content := header packet opts ++ payload packet).
  change (content ++ _ ++ _) with (content ++ fcs_trailer content).
  assert (bytes (content ++ fcs_trailer content)) as Hc.
  { rewrite bytes_app. split.
    - subst content. rewrite Hh, !bytes_app. split; [split; [|done]|done]. destruct (_ || _); repeat constructor; done.
    - repeat constructor; apply is_u_wrap; lia. }
  pose proof (unescape_escape accm _ Hc []) as Hu. pose proof (escape_no_flag accm _ Hc) as Hn.
  rewrite app_nil_r in Hu. cbn [unescape mbind option_bind] in Hu. rewrite app_nil_r in Hu.
  set (raw := mjoin _) in *. destruct raw as [|x body] eqn:E.
  { exfalso. cbn in Hu. injection Hu as Hu. subst content. rewrite Hh in Hu. destruct (framable_start packet opts Hf) as (? & ? & ? & El & _).
    rewrite <- !app_assoc, (app_assoc (protocol_field _ _)), El in Hu. by destruct (_ || _). }
  exists x, body. split; [done|]. split; [done|]. by apply (parse_content packet opts).
Qed.

(** One whole frame after a buffer that holds flags only. *)
Lemma deframe_frame packet opts n rest : framable packet →
  deframe (replicate n FLAG ++ frame_with_options packet opts ++ rest) =
    let '(b, ps) := deframe (FLAG :: rest) in (b, packet :: ps).
Proof.
  intros Hf. destruct (frame_shape packet opts Hf) as (x & body & -> & Hn & Hp).
  rewrite deframe_eq. cbn [app]. rewrite <- app_assoc.
  assert (replicate n FLAG ++ FLAG :: x :: body ++ [FLAG] ++ rest = replicate (S n) FLAG ++ (x :: body) ++ FLAG :: rest) as ->.
  { rewrite replicate_S_end, <- app_assoc. done. }
  rewrite round_whole by done. rewrite Hp. by destruct (deframe (FLAG :: rest)).
Qed.

(** A stream of frames after a buffer that holds flags only. *)
Lemma deframe_items (items : list (PppPacket * FrameOptions)) (n : nat) :
  Forall (λ i, framable i.1) items → items ≠ [] →
  deframe (replicate n FLAG ++ mjoin ((λ i, frame_with_options i.1 i.2) <$> items)) = ([FLAG], items.*1).
Proof.
  intros Hf. revert n. induction Hf as [|[p o] items Hp Hf IH]; intros n Hne; [done|]. cbn [fst] in *.
  rewrite !fmap_cons. change (mjoin (?a :: ?l)) with (a ++ mjoin l).
  rewrite deframe_frame by done. cbn [fst snd].
  destruct items as [|i items]; [vm_compute; reflexivity|].
  change (FLAG :: ?x) with (replicate 1 FLAG ++ x). by rewrite (IH 1%nat ltac:(done)).
Qed.

(** C22: framing round-trips.  A sequence of packets, each framed with options of
    its own (ACCM, address/control and protocol field compression), is handed
    back by the deframer packet for packet. *)
Theorem deframe_frames (items : list (PppPacket * FrameOptions)) (n : nat) :
  Forall (λ i, framable i.1) items → items ≠ [] →
  feed (replicate n FLAG) (mjoin ((λ i, frame_with_options i.1 i.2) <$> items)) = ([FLAG], items.*1).
Proof. apply deframe_items. Qed.

Lemma deframe_frames_witness :
  let ip := mkPppPacket 0x0021 [0x45; 0x7E; 0x7D; 0x03] in
  let lcp := mkPppPacket 0xC021 [9; 1; 0; 4] in
  feed new_deframer (mjoin ((λ i, frame_with_options i.1 i.2) <$>
    [(ip, mkFrameOptions 0 true true); (lcp, mkFrameOptions 0 true true)])) = ([FLAG], [ip; lcp]).
Proof.
  apply (deframe_frames [(mkPppPacket 0x0021 [0x45; 0x7E; 0x7D; 0x03], mkFrameOptions 0 true true);
    (mkPppPacket 0xC021 [9; 1; 0; 4], mkFrameOptions 0 true true)] 0); [|done].
  repeat constructor; cbn; done || lia || (apply bytesb_bytes; reflexivity).
Defined.

(** The deframer resynchronises.  Whatever is in its buffer and whatever
    noise comes first, the next intact frame is handed up, as the last packet,
    and leaves the deframer between frames. *)
Theorem deframe_resynchronises (buf noise : list Z) (packet : PppPacket) (opts : FrameOptions) :
  framable packet →
  ∃ before, feed buf (noise ++ frame_with_options packet opts) = ([FLAG], before ++ [packet]).
Proof.
  intros Hf. change (feed ?x ?y) with (deframe (x ++ y)). rewrite app_assoc, deframe_app.
  generalize (deframe (buf ++ noise)) as r. intros [b ps].
  assert (∃ qs, deframe (b ++ frame_with_options packet opts) = ([FLAG], qs ++ [packet])) as [qs ->].
  { assert (∀ n, deframe (replicate n FLAG ++ frame_with_options packet opts) = ([FLAG], [packet])) as Hclean.
    { intros n. rewrite <- (app_nil_r (frame_with_options _ _)), deframe_frame by done. vm_compute. reflexivity. }
    induction b as [b IH] using (induction_ltof1 _ length).
    destruct (shape_all b) as [g Hg|g n Hg|g n x body Hg Hb|g n x body rest Hg Hb].
    - exists []. rewrite deframe_eq, round_skip, <- deframe_eq by done. apply (Hclean 0%nat).
    - exists []. rewrite <- app_assoc, deframe_eq, round_skip, <- deframe_eq by done. apply (Hclean (S n)).
    - exists (option_list (parse_frame (x :: body))). rewrite <- !app_assoc, deframe_eq, round_skip by done.
      destruct (frame_shape packet opts Hf) as (y & fb & E & Hn & Hp). specialize (Hclean 0%nat). cbn [replicate app] in Hclean.
      rewrite E in *. rewrite round_whole by done. by rewrite Hclean.
    - rewrite <- !app_assoc, deframe_eq, round_skip by done.
      change ((FLAG :: rest) ++ ?z) with (FLAG :: (rest ++ z)). rewrite round_whole by done.
      destruct (IH (FLAG :: rest)) as [qs E].
      + unfold ltof. rewrite !length_app, length_replicate. cbn [length]. lia.
      + cbn [app] in E. rewrite E. eexists. by rewrite app_assoc. }
  exists (ps ++ qs). by rewrite app_assoc.
Qed.

Lemma deframe_resynchronises_witness :
  ∃ before, feed [0x7D; 0x7E; 0x01] ([0xC0; 0x21] ++ frame (mkPppPacket 0x8021 [1; 2; 0; 4]))
            = ([FLAG], before ++ [mkPppPacket 0x8021 [1; 2; 0; 4]]).
Proof.
  apply (deframe_resynchronises [0x7D; 0x7E; 0x01] [0xC0; 0x21] (mkPppPacket 0x8021 [1; 2; 0; 4]) FrameOptions_default).
  repeat constructor; cbn; done || lia || (apply bytesb_bytes; reflexivity).
Defined.

(** The table-driven check sequence is the bit-by-bit CRC of RFC 1662, and the
    trailer the framer appends leaves the residue the deframer tests for. *)
Theorem fcs16_reference (data : list Z) :
  bytes data →
  fcs16 data = foldl (λ fcs b, Nat.iter 8 fcs_bit_step (Z.lxor fcs b)) FCS16_INIT data ∧
  fcs16 (data ++ fcs_trailer data) = FCS16_GOOD.
Proof.
  intros Hb. split; [|by apply good_residue]. unfold fcs16.
  assert (is_u16 FCS16_INIT) as Hc by done. revert Hc. generalize FCS16_INIT as c.
  induction Hb as [|b data Hx Hb IH]; intros c Hc; [done|]. cbn [foldl].
  rewrite IH by by apply fcs16_update_u16. by rewrite fcs16_update_step.
Qed.

(** RFC 1662's check value: "123456789" has FCS 0x906E. *)
Lemma fcs16_reference_witness :
  fcs16 [0x31; 0x32; 0x33; 0x34; 0x35; 0x36; 0x37; 0x38; 0x39] = Z.lxor 0x906E 0xFFFF.
Proof.
  destruct (fcs16_reference [0x31; 0x32; 0x33; 0x34; 0x35; 0x36; 0x37; 0x38; 0x39]) as [-> _];
    [apply bytesb_bytes; reflexivity|vm_compute; reflexivity].
Defined.
