(* ===== verification/IpcpConfig.v ===== *)
(** * Addresses and the packet-data configuration shared by the IP allocator and IPCP

    [IpcpConfig] ([ppp/ipcp.rs]) with the Mobile IP options it carries
    ([mobile_ip.rs]); [Ipv4Addr] is the standard library's four octets. *)
From S2P Require Import Prelude.

Record Ipv4Addr := mkIp { ip0 : Z; ip1 : Z; ip2 : Z; ip3 : Z }.
#[export] Instance Ipv4Addr_eq_dec : EqDecision Ipv4Addr.
Proof. solve_decision. Defined.
Definition octets (a : Ipv4Addr) : list Z := [ip0 a; ip1 a; ip2 a; ip3 a].
Definition wf_ip (a : Ipv4Addr) : Prop := bytes (octets a).
Definition UNSPECIFIED : Ipv4Addr := mkIp 0 0 0 0.

Inductive MobileIpAuthMode := Insecure | MnHa.
Record MobileIpSecurityAssociation := mkSecurity { spi : Z; shared_secret : list Z }.

Record MobileIpConfig := mkMobileIpConfig {
  mip_enabled : bool;
  fa_address : Ipv4Addr;
  home_agent_address : Ipv4Addr;
  advertisement_count : Z;
  advertisement_lifetime_secs : Z;
  registration_lifetime_secs : Z;
  mip_primary_dns : Ipv4Addr;
  mip_secondary_dns : Ipv4Addr;
  auth_mode : MobileIpAuthMode;
  mn_ha_security : option MobileIpSecurityAssociation;
  allow_unverified_mn_aaa : bool;
  mn_ha_fallback_to_simple_ip : bool
}.

Record IpcpConfig := mkIpcpConfig {
  our_ip : Ipv4Addr;
  peer_ip : Ipv4Addr;
  primary_dns : Ipv4Addr;
  secondary_dns : Ipv4Addr;
  enable_uplink_vj_compression : bool;
  enable_downlink_vj_compression : bool;
  mobile_ip : MobileIpConfig
}.
