(* ===== verification/IpAllocator.v ===== *)
(** * IP address allocation ([cdma-packet/src/lib/ip_allocator.rs])

    The in-memory pool that gives each packet-data session an address of a /24
    subnet.  The mutex serialises the operations, so each is a function on the
    pool; [Instant::now()] is an argument, in milliseconds. *)
From S2P Require Import Prelude IpcpConfig.

Definition DEFAULT_RELEASE_GRACE : Z := 60000.

Inductive IpClaimResult :=
| Claimed (c : IpcpConfig)
| AlreadyOwned (c : IpcpConfig)
| Conflict (current_owner : string)
| OutOfPool.

(** ** The trait *)
Class IpAllocator (P : Type) := {
  allocate : Z → string → P → P * option IpcpConfig;
  release : Z → string → P → P;
  claim_peer_ip : Z → string → Ipv4Addr → P → P * IpClaimResult
}.

Module Subnet.

Record SubnetIpAllocatorInner := mkInner {
  prefix : Z * Z * Z;
  free : gset Z;
  assigned : gmap string Z;
  sticky : gmap string Z;
  next_host : Z;
  recently_released : gmap Z (string * Z);
  release_grace : Z;
  pool_primary_dns : Ipv4Addr;
  pool_secondary_dns : Ipv4Addr;
  pool_uplink_vj : bool;
  pool_downlink_vj : bool;
  pool_mobile_ip : MobileIpConfig
}.

(** Replace the parts that operations change. *)
Definition set_pool (f : gset Z) (a st : gmap string Z) (n : Z) (r : gmap Z (string * Z))
    (s : SubnetIpAllocatorInner) : SubnetIpAllocatorInner :=
  mkInner (prefix s) f a st n r (release_grace s) (pool_primary_dns s) (pool_secondary_dns s)
    (pool_uplink_vj s) (pool_downlink_vj s) (pool_mobile_ip s).

(** [(2..=254).collect()] *)
Definition pool_hosts : gset Z := list_to_set (seqZ 2 253).

(** [None]: the assertion on the gateway fails. *)
Definition new_with_packet_options (gateway pdns sdns : Ipv4Addr) (up down : bool) (mip : MobileIpConfig)
    : rust SubnetIpAllocatorInner :=
  if ip3 gateway =? 1 then
    Some (mkInner (ip0 gateway, ip1 gateway, ip2 gateway) pool_hosts ∅ ∅ 2 ∅ DEFAULT_RELEASE_GRACE
            pdns sdns up down mip)
  else panic!.

Definition config_for_host (host : Z) (s : SubnetIpAllocatorInner) : IpcpConfig :=
  let '(p0, p1, p2) := prefix s in
  mkIpcpConfig (mkIp p0 p1 p2 1) (mkIp p0 p1 p2 host) (pool_primary_dns s) (pool_secondary_dns s)
    (pool_uplink_vj s) (pool_downlink_vj s) (pool_mobile_ip s).

Definition host_for_peer_ip (a : Ipv4Addr) (s : SubnetIpAllocatorInner) : option Z :=
  if decide ((ip0 a, ip1 a, ip2 a) ≠ prefix s) then None
  else if negb ((2 <=? ip3 a) && (ip3 a <=? 254)) then None
  else Some (ip3 a).

Definition available (s : SubnetIpAllocatorInner) (host : Z) : bool :=
  bool_decide (host ∈ free s) && bool_decide (recently_released s !! host = None).

(** The two loops scan [next_host..=254] and then [2..next_host]. *)
Definition allocate_host (s : SubnetIpAllocatorInner) : SubnetIpAllocatorInner * option Z :=
  let found :=
    match filter (λ h, available s h = true) (seqZ (next_host s) (255 - next_host s)) with
    | h :: _ => Some h
    | [] => head (filter (λ h, available s h = true) (seqZ 2 (next_host s - 2)))
    end in
  match found with
  | Some host =>
      (set_pool (free s) (assigned s) (sticky s) (if host =? 254 then 2 else host + 1) (recently_released s) s,
       Some host)
  | None => (s, None)
  end.

Definition expire_recently_released (now : Z) (s : SubnetIpAllocatorInner) : SubnetIpAllocatorInner :=
  if release_grace s =? 0 then set_pool (free s) (assigned s) (sticky s) (next_host s) ∅ s
  else
    set_pool (free s) (assigned s) (sticky s) (next_host s)
      (filter (λ e, now - e.2.2 < release_grace s) (recently_released s)) s.

(** Give [host] to the session. *)
Definition take_host (session_id : string) (host : Z) (s : SubnetIpAllocatorInner) : SubnetIpAllocatorInner :=
  set_pool (free s ∖ {[host]}) (<[session_id := host]> (assigned s)) (<[session_id := host]> (sticky s))
    (next_host s) (delete host (recently_released s)) s.

Definition allocate (now : Z) (session_id : string) (s : SubnetIpAllocatorInner)
    : SubnetIpAllocatorInner * option IpcpConfig :=
  let s := expire_recently_released now s in
  match assigned s !! session_id with
  | Some host => (s, Some (config_for_host host s))
  | None =>
      let '(s, found) :=
        match sticky s !! session_id with
        | Some host => if decide (host ∈ free s) then (s, Some host) else allocate_host s
        | None => allocate_host s
        end in
      match found with
      | None => (s, None)
      | Some host => let s := take_host session_id host s in (s, Some (config_for_host host s))
      end
  end.

Definition release (now : Z) (session_id : string) (s : SubnetIpAllocatorInner) : SubnetIpAllocatorInner :=
  match assigned s !! session_id with
  | Some host =>
      set_pool ({[host]} ∪ free s) (delete session_id (assigned s)) (sticky s) (next_host s)
        (<[host := (session_id, now)]> (recently_released s)) s
  | None => s
  end.

(** [assigned.iter().find(..)]: the first entry of another session with this host,
    in the order of the map's iteration. *)
Definition other_owner (session_id : string) (host : Z) (s : SubnetIpAllocatorInner) : option string :=
  fst <$> head (filter (λ e, e.1 ≠ session_id ∧ e.2 = host) (map_to_list (assigned s))).

Definition claim_peer_ip (now : Z) (session_id : string) (a : Ipv4Addr) (s : SubnetIpAllocatorInner)
    : SubnetIpAllocatorInner * IpClaimResult :=
  let s := expire_recently_released now s in
  match host_for_peer_ip a s with
  | None => (s, OutOfPool)
  | Some host =>
      let reserved :=
        match recently_released s !! host with
        | Some (owner, _) => if decide (owner ≠ session_id) then Some owner else None
        | None => None
        end in
      match reserved with
      | Some owner => (s, Conflict owner)
      | None =>
      match other_owner session_id host s with
      | Some owner => (s, Conflict owner)
      | None =>
      if decide (assigned s !! session_id = Some host) then (s, AlreadyOwned (config_for_host host s))
      else
        let s :=
          match assigned s !! session_id with
          | Some old_host =>
              if decide (old_host ≠ host) then
                set_pool ({[old_host]} ∪ free s) (assigned s) (sticky s) (next_host s)
                  (<[old_host := (session_id, now)]> (recently_released s)) s
              else s
          | None => s
          end in
        let s := take_host session_id host s in
        (s, Claimed (config_for_host host s))
      end
      end
  end.

#[export] Instance SubnetIpAllocator : IpAllocator SubnetIpAllocatorInner := {
  allocate := allocate;
  release := release;
  claim_peer_ip := claim_peer_ip
}.

End Subnet.
