(* ===== verification/IpAllocatorProofs.v ===== *)
(** * Correctness of the IP allocator: the pool, the contract of the trait, and a client of it *)
From S2P Require Import Prelude IpcpConfig IpAllocator.
Import Subnet.

(** ** The pool invariant *)
Record pool_inv (s : SubnetIpAllocatorInner) : Prop := {
  inv_inj : ∀ a b h, assigned s !! a = Some h → assigned s !! b = Some h → a = b;
  inv_assigned : ∀ a h, assigned s !! a = Some h → 2 ≤ h ≤ 254;
  inv_free : ∀ h, h ∈ free s ↔ 2 ≤ h ≤ 254 ∧ ∀ a, assigned s !! a ≠ Some h;
  inv_sticky : ∀ a h, sticky s !! a = Some h → 2 ≤ h ≤ 254;
  inv_next : 2 ≤ next_host s ≤ 254;
  inv_recent : ∀ h e, recently_released s !! h = Some e → h ∈ free s
}.

Lemma elem_of_pool_hosts h : h ∈ pool_hosts ↔ 2 ≤ h ≤ 254.
Proof. unfold pool_hosts. rewrite elem_of_list_to_set, elem_of_seqZ. lia. Qed.

Lemma new_inv gw p d u w m s : new_with_packet_options gw p d u w m = Some s → pool_inv s.
Proof.
  unfold new_with_packet_options. destruct (_ =? _); [|done]. intros [= <-].
  split; cbn [free assigned sticky next_host recently_released];
    [intros a b h; by rewrite lookup_empty|intros a h; by rewrite lookup_empty| |intros a h; by rewrite lookup_empty|lia
    |intros h e; by rewrite lookup_empty].
  intros h. rewrite elem_of_pool_hosts. split; [|tauto]. intros H. split; [done|]. intros a. by rewrite lookup_empty.
Qed.

Lemma expire_fields now s :
  free (expire_recently_released now s) = free s ∧ assigned (expire_recently_released now s) = assigned s ∧
  sticky (expire_recently_released now s) = sticky s ∧ next_host (expire_recently_released now s) = next_host s ∧
  prefix (expire_recently_released now s) = prefix s ∧
  (∀ host, config_for_host host (expire_recently_released now s) = config_for_host host s) ∧
  (∀ h e, recently_released (expire_recently_released now s) !! h = Some e ↔
     recently_released s !! h = Some e ∧ now - e.2 < release_grace s ∧ release_grace s ≠ 0).
Proof.
  unfold expire_recently_released. destruct (Z.eqb_spec (release_grace s) 0) as [E|E]; cbn; split_and!; try done; intros h e.
  - rewrite lookup_empty, E. naive_solver.
  - rewrite map_lookup_filter_Some. cbn. tauto.
Qed.

Lemma expire_inv now s : pool_inv s → pool_inv (expire_recently_released now s).
Proof.
  intros [H1 H2 H3 H4 H5 H6]. destruct (expire_fields now s) as (E1 & E2 & E3 & E4 & _ & _ & E5).
  split; rewrite ?E1, ?E2, ?E3, ?E4; try done. intros h e [H _]%E5. by eapply H6.
Qed.

Lemma available_spec s h : available s h = true ↔ h ∈ free s ∧ recently_released s !! h = None.
Proof. unfold available. by rewrite andb_true_iff, !bool_decide_eq_true. Qed.

(** The search finds a host exactly when there is one, in the pool. *)
Lemma allocate_host_spec s : pool_inv s →
  match allocate_host s with
  | (s', Some h) => available s h = true ∧
      s' = set_pool (free s) (assigned s) (sticky s) (if h =? 254 then 2 else h + 1) (recently_released s) s
  | (s', None) => s' = s ∧ ∀ h, available s h = false
  end.
Proof.
  intros Hinv. unfold allocate_host.
  assert (∀ l h k, filter (λ h, available s h = true) l = h :: k → available s h = true) as Hhd.
  { intros l h k E. assert (h ∈ filter (λ h, available s h = true) l) as H by (rewrite E; by left).
    by apply list_elem_of_filter in H as [? _]. }
  destruct (filter _ (seqZ (next_host s) _)) as [|h k] eqn:E1; [|by split; [eapply Hhd|]].
  destruct (filter _ (seqZ 2 _)) as [|h k] eqn:E2; cbn [head]; [|by split; [eapply Hhd|]].
  split; [done|]. intros h. apply not_true_iff_false. intros Hav.
  pose proof Hav as [Hf _]%available_spec. apply (inv_free _ Hinv) in Hf as [Hf _]. pose proof (inv_next _ Hinv).
  destruct (decide (next_host s ≤ h)).
  - apply (not_elem_of_nil h). rewrite <- E1. apply list_elem_of_filter. split; [done|]. apply elem_of_seqZ. lia.
  - apply (not_elem_of_nil h). rewrite <- E2. apply list_elem_of_filter. split; [done|]. apply elem_of_seqZ. lia.
Qed.

Lemma take_host_inv id h s : pool_inv s → h ∈ free s → assigned s !! id = None → pool_inv (take_host id h s).
Proof.
  intros [H1 H2 H3 H4 H5 H6] Hf Hid. pose proof Hf as [Hr Hno]%H3. split; cbn; [..|done|].
  - intros a b g. rewrite !lookup_insert. repeat case_decide; naive_solver.
  - intros a g. rewrite lookup_insert. case_decide; naive_solver.
  - intros g. rewrite elem_of_difference, elem_of_singleton, H3. split.
    + intros [[Hg Hg'] Hne]. split; [done|]. intros a. rewrite lookup_insert. case_decide; naive_solver.
    + intros [Hg Hg']. split; [split; [done|]|].
      * intros a Ha. apply (Hg' a). rewrite lookup_insert. case_decide; [naive_solver|done].
      * intros ->. by apply (Hg' id); rewrite lookup_insert_eq.
  - intros a g. rewrite lookup_insert. case_decide; naive_solver.
  - intros g e. rewrite lookup_delete_Some. intros [Hne He]. apply elem_of_difference. split; [by eapply H6|].
    rewrite elem_of_singleton. congruence.
Qed.

Lemma set_next_inv s n : pool_inv s → 2 ≤ n ≤ 254 →
  pool_inv (set_pool (free s) (assigned s) (sticky s) n (recently_released s) s).
Proof. intros [H1 H2 H3 H4 H5 H6] Hn. by split. Qed.

Lemma allocate_inv now id s : pool_inv s → pool_inv (allocate now id s).1.
Proof.
  intros Hinv. apply (expire_inv now) in Hinv. unfold allocate.
  revert Hinv. generalize (expire_recently_released now s) as s1. clear s. intros s Hinv.
  destruct (assigned s !! id) as [h|] eqn:Ea; [done|].
  assert (pool_inv (let '(s, found) := allocate_host s in
    match found with None => (s, None) | Some host => let s := take_host id host s in (s, Some (config_for_host host s)) end).1) as Hal.
  { pose proof (allocate_host_spec s Hinv) as Hs. destruct (allocate_host s) as [s' [h|]]; cbn in *; [|by destruct Hs as [-> _]].
    destruct Hs as [[Hf _]%available_spec ->]. apply (inv_free _ Hinv) in Hf as Hr.
    apply take_host_inv; [|done|done]. apply set_next_inv; [done|]. destruct (Z.eqb_spec h 254); lia. }
  destruct (sticky s !! id) as [h|]; [|done]. case_decide; [|done]. cbn. by apply take_host_inv.
Qed.

Lemma release_inv now id s : pool_inv s → pool_inv (release now id s).
Proof.
  intros Hinv. unfold release. destruct (assigned s !! id) as [h|] eqn:Ea; [|done].
  destruct Hinv as [H1 H2 H3 H4 H5 H6]. split; cbn; try done.
  - intros a b g. rewrite !lookup_delete_Some. naive_solver.
  - intros a g. rewrite lookup_delete_Some. naive_solver.
  - intros g. rewrite elem_of_union, elem_of_singleton, H3. split.
    + intros [->|[Hg Hno]]; (split; [by eauto|]); intros a; rewrite lookup_delete_Some; naive_solver.
    + intros [Hg Hno]. destruct (decide (g = h)) as [|Hne]; [by left|]. right. split; [done|]. intros a Ha.
      apply (Hno a). rewrite lookup_delete_Some. naive_solver.
  - intros g e. rewrite elem_of_union, elem_of_singleton, lookup_insert. case_decide; [auto|]. intros He. right. by eapply H6.
Qed.

(** ** Claims *)
Lemma other_owner_None id h s : other_owner id h s = None → ∀ a, assigned s !! a = Some h → a = id.
Proof.
  unfold other_owner. intros H a Ha. destruct (decide (a = id)) as [|Hne]; [done|]. exfalso.
  destruct (filter _ _) as [|e l] eqn:E; [|done]. apply (not_elem_of_nil (a, h)). rewrite <- E.
  apply list_elem_of_filter. split; [done|]. by apply elem_of_map_to_list.
Qed.

Lemma other_owner_Some id h s o : other_owner id h s = Some o → o ≠ id ∧ assigned s !! o = Some h.
Proof.
  unfold other_owner. intros H. destruct (filter _ _) as [|[k v] l] eqn:E; [done|].
  cbn in H. injection H as ->.
  assert ((o, v) ∈ filter (λ e : string * Z, e.1 ≠ id ∧ e.2 = h) (map_to_list (assigned s))) as Hin by (rewrite E; by left).
  apply list_elem_of_filter in Hin as [[Ho Hv] Hin]. cbn in Ho, Hv. subst v. by apply elem_of_map_to_list in Hin.
Qed.

(** Claiming an address is releasing the old one and taking the new one. *)
Lemma claim_is_move now id h s old : assigned s !! id = Some old →
  take_host id h (set_pool ({[old]} ∪ free s) (assigned s) (sticky s) (next_host s)
    (<[old := (id, now)]> (recently_released s)) s) = take_host id h (release now id s).
Proof. intros E. unfold release. rewrite E. unfold take_host; cbn. by rewrite insert_delete_eq. Qed.

Lemma host_for_peer_ip_spec a s h : host_for_peer_ip a s = Some h →
  2 ≤ h ≤ 254 ∧ a = peer_ip (config_for_host h s).
Proof.
  unfold host_for_peer_ip. case_decide as E; [done|].
  destruct (negb _) eqn:En; [done|]. intros [= <-]. split; [lia|].
  unfold config_for_host. rewrite <- E. by destruct a.
Qed.

(** What a successful claim leaves. *)
Lemma claim_cases now id a s s' r : pool_inv s → claim_peer_ip now id a s = (s', r) →
  let s1 := expire_recently_released now s in
  (∃ h, r = Claimed (config_for_host h s') ∧ a = peer_ip (config_for_host h s') ∧ assigned s1 !! id ≠ Some h ∧
     h ∈ free (release now id s1) ∧ s' = take_host id h (release now id s1)) ∨
  (s' = s1 ∧ ((∃ h, r = AlreadyOwned (config_for_host h s1) ∧ a = peer_ip (config_for_host h s1) ∧ assigned s1 !! id = Some h)
     ∨ (∃ o, r = Conflict o ∧ o ≠ id) ∨ r = OutOfPool)).
Proof.
  intros Hinv H s1. apply (expire_inv now) in Hinv. unfold claim_peer_ip in H. fold s1 in Hinv, H. clearbody s1. clear s.
  destruct (host_for_peer_ip a s1) as [h|] eqn:Eh; [|injection H as <- <-; auto].
  apply host_for_peer_ip_spec in Eh as [Hr Ea].
  set (res := match recently_released s1 !! h with Some (o, _) => if decide (o ≠ id) then Some o else None | None => None end) in H.
  destruct res as [o|] eqn:Er.
  { injection H as <- <-. right. split; [done|]. right. left. exists o. split; [done|]. subst res.
    destruct (_ !! h) as [[o' t]|]; [|done]. case_decide; congruence. }
  destruct (other_owner id h s1) as [o|] eqn:Eo.
  { injection H as <- <-. right. split; [done|]. right. left. exists o. split; [done|]. by apply other_owner_Some in Eo as [? _]. }
  pose proof (other_owner_None _ _ _ Eo) as Hno. case_decide as Eid.
  { injection H as <- <-. right. split; [done|]. left. by exists h. }
  left. exists h. pose proof (release_inv now id _ Hinv) as Hinv'.
  assert (h ∈ free (release now id s1)) as Hf.
  { apply (inv_free _ Hinv'). split; [done|]. intros b Hb. unfold release in Hb.
    destruct (assigned s1 !! id) as [old|] eqn:E; cbn in Hb.
    - apply lookup_delete_Some in Hb as [Hne Hb]. by apply Hno in Hb.
    - pose proof (Hno _ Hb) as ->. congruence. }
  assert (s' = take_host id h (release now id s1) ∧ r = Claimed (config_for_host h s')) as [-> ->].
  { destruct (assigned s1 !! id) as [old|] eqn:E.
    - rewrite decide_True in H by congruence. rewrite (claim_is_move now id h s1 old E) in H. by injection H as <- <-.
    - unfold release. rewrite E. by injection H as <- <-. }
  split_and!; [done| |done|done|done]. rewrite Ea. unfold release. by destruct (assigned s1 !! id).
Qed.

Lemma release_unassigned now id s : assigned (release now id s) !! id = None.
Proof. unfold release. destruct (assigned s !! id) eqn:E; [apply lookup_delete_eq|done]. Qed.

Lemma release_other now id s a : a ≠ id → assigned (release now id s) !! a = assigned s !! a.
Proof. intros H. unfold release. destruct (assigned s !! id); [by apply lookup_delete_ne|done]. Qed.

Lemma claim_inv now id a s : pool_inv s → pool_inv (claim_peer_ip now id a s).1.
Proof.
  intros Hinv. destruct (claim_peer_ip now id a s) as [s' r] eqn:E.
  destruct (claim_cases now id a s s' r Hinv E) as [(h & _ & _ & _ & Hf & ->)|[-> _]]; cbn; [|by apply expire_inv].
  pose proof (release_inv now id _ (expire_inv now s Hinv)) as Hinv'. apply take_host_inv; [done|done|].
  apply release_unassigned.
Qed.

(** ** The contract of the trait

    What a client of the trait relies on: the sessions hold addresses, no two
    the same one, and each operation changes its own session only. *)
Class IpAllocatorLaws (P : Type) `{IpAllocator P} := {
  pool_ok : P → Prop;
  holds : P → string → Ipv4Addr → Prop;
  law_unique p a b ip : pool_ok p → holds p a ip → holds p b ip → a = b;
  law_single p a ip ip' : pool_ok p → holds p a ip → holds p a ip' → ip = ip';
  law_allocate now id p p' r : pool_ok p → IpAllocator.allocate now id p = (p', r) →
    pool_ok p' ∧ (∀ a ip, a ≠ id → holds p' a ip ↔ holds p a ip) ∧
    match r with
    | Some c => holds p' id (peer_ip c) ∧ ∀ ip, holds p id ip → ip = peer_ip c
    | None => ∀ ip, ¬ holds p id ip ∧ ¬ holds p' id ip
    end;
  law_release now id p : pool_ok p →
    let p' := IpAllocator.release now id p in
    pool_ok p' ∧ (∀ a ip, a ≠ id → holds p' a ip ↔ holds p a ip) ∧ ∀ ip, ¬ holds p' id ip;
  law_claim now id a p p' r : pool_ok p → IpAllocator.claim_peer_ip now id a p = (p', r) →
    pool_ok p' ∧ (∀ b ip, b ≠ id → holds p' b ip ↔ holds p b ip) ∧
    match r with
    | Claimed c | AlreadyOwned c => peer_ip c = a ∧ holds p' id a
    | Conflict _ | OutOfPool => ∀ ip, holds p' id ip ↔ holds p id ip
    end
}.

Definition subnet_holds (s : SubnetIpAllocatorInner) (id : string) (ip : Ipv4Addr) : Prop :=
  ∃ h, assigned s !! id = Some h ∧ ip = peer_ip (config_for_host h s).

Lemma config_inj s h h' : peer_ip (config_for_host h s) = peer_ip (config_for_host h' s) → h = h'.
Proof. unfold config_for_host. destruct (prefix s) as [[??]?]. cbn. congruence. Qed.

Lemma subnet_holds_ext s s' id : prefix s' = prefix s → assigned s' !! id = assigned s !! id →
  ∀ ip, subnet_holds s' id ip ↔ subnet_holds s id ip.
Proof.
  intros Hp Ha ip. unfold subnet_holds, config_for_host. rewrite Hp, Ha. destruct (prefix s) as [[??]?]. done.
Qed.

Lemma take_host_holds id h s : subnet_holds (take_host id h s) id (peer_ip (config_for_host h (take_host id h s))).
Proof. exists h. split; [apply lookup_insert_eq|done]. Qed.

(** What [allocate] does to the assignments. *)
Lemma allocate_cases now id s s' r : pool_inv s → allocate now id s = (s', r) →
  prefix s' = prefix s ∧
  match assigned s !! id with
  | Some h => r = Some (config_for_host h s') ∧ assigned s' = assigned s
  | None => match r with
            | Some c => ∃ h, c = config_for_host h s' ∧ h ∈ free s ∧ assigned s' = <[id := h]> (assigned s)
            | None => assigned s' = assigned s ∧ ∀ h, available (expire_recently_released now s) h = false
            end
  end.
Proof.
  intros Hinv H. unfold allocate in H. pose proof (expire_inv now s Hinv) as Hinv1.
  destruct (expire_fields now s) as (E1 & E2 & E3 & E4 & E5 & _). rewrite <- E1, <- E2, <- E5.
  revert Hinv1 H. generalize (expire_recently_released now s) as s1. clear. intros s1 Hinv H.
  destruct (assigned s1 !! id) as [h|] eqn:Ea; [by injection H as <- <-|].
  assert (∀ s' r, (let '(s, found) := allocate_host s1 in
    match found with None => (s, None) | Some host => let s := take_host id host s in (s, Some (config_for_host host s)) end)
     = (s', r) → prefix s' = prefix s1 ∧ match r with
            | Some c => ∃ h, c = config_for_host h s' ∧ h ∈ free s1 ∧ assigned s' = <[id := h]> (assigned s1)
            | None => assigned s' = assigned s1 ∧ ∀ h, available s1 h = false end) as Hal.
  { clear s' r H. intros s' r H. pose proof (allocate_host_spec s1 Hinv) as Hs. destruct (allocate_host s1) as [s2 [h|]].
    - destruct Hs as [[Hf _]%available_spec ->]. injection H as <- <-. split; [done|]. by exists h.
    - destruct Hs as [-> Hs]. by injection H as <- <-. }
  destruct (sticky s1 !! id) as [h|]; [|by apply Hal]. case_decide as Hf; [|by apply Hal].
  injection H as <- <-. split; [done|]. by exists h.
Qed.

#[export] Program Instance SubnetLaws : IpAllocatorLaws SubnetIpAllocatorInner := {
  pool_ok := pool_inv;
  holds := subnet_holds
}.
Next Obligation.
  intros p a b ip Hinv (h & Ha & ->) (h' & Hb & E). apply config_inj in E as ->. by eapply inv_inj.
Qed.
Next Obligation.
  intros p a ip ip' Hinv (h & Ha & ->) (h' & Hb & ->). congruence.
Qed.
Next Obligation.
  intros now id p p' r Hinv H. cbn in H. pose proof (allocate_inv now id p Hinv) as Hinv'. rewrite H in Hinv'.
  destruct (allocate_cases now id p p' r Hinv H) as [Hp Hc]. split; [done|].
  destruct (assigned p !! id) as [h|] eqn:Ea.
  - destruct Hc as [-> Hc]. split; [intros a ip _; apply subnet_holds_ext; congruence|].
    split; [exists h; rewrite Hc; done|]. intros ip (h' & Ha & ->). assert (h' = h) as -> by congruence.
    unfold config_for_host. rewrite Hp. by destruct (prefix p) as [[??]?].
  - destruct r as [c|].
    + destruct Hc as (h & -> & Hf & Hc). split.
      { intros a ip Hne. apply subnet_holds_ext; [done|]. rewrite Hc. by apply lookup_insert_ne. }
      split; [exists h; rewrite Hc; split; [apply lookup_insert_eq|done]|]. intros ip (h' & Ha & _). congruence.
    + destruct Hc as [Hc _]. split; [intros a ip _; apply subnet_holds_ext; congruence|].
      intros ip. split; intros (h & Ha & _); congruence.
Qed.
Next Obligation.
  intros now id p Hinv p'. cbn in p'. split; [by apply release_inv|]. split.
  - intros a ip Hne. apply subnet_holds_ext; [|by apply release_other]. unfold p', release. by destruct (assigned p !! id).
  - intros ip (h & Ha & _). unfold p' in Ha. by rewrite release_unassigned in Ha.
Qed.
Next Obligation.
  intros now id a p p' r Hinv H. cbn in H. pose proof (claim_inv now id a p Hinv) as Hinv'. rewrite H in Hinv'.
  split; [done|]. destruct (expire_fields now p) as (E1 & E2 & E3 & E4 & E5 & _).
  destruct (claim_cases now id a p p' r Hinv H) as [(h & -> & Ha & _ & Hf & Hp')|[-> Hr]].
  - split.
    + intros b ip Hne. apply subnet_holds_ext; rewrite Hp'; cbn.
      * unfold release. by destruct (assigned _ !! id).
      * rewrite lookup_insert_ne, release_other by done. by rewrite E2.
    + split; [done|]. rewrite Ha, Hp'. apply take_host_holds.
  - split; [intros b ip _; apply subnet_holds_ext; congruence|].
    destruct Hr as [(h & -> & -> & Ha)|[(o & -> & Ho)| ->]]; [|intros ip; apply subnet_holds_ext; congruence..].
    split; [done|]. by exists h.
Qed.

(** ** A client of the trait *)
Section Client.
Context {P : Type} `{IpAllocatorLaws P}.

Inductive op := OpAllocate (id : string) | OpRelease (id : string) | OpClaim (id : string) (a : Ipv4Addr).

(** The session manager's own table of leases, kept from the answers it gets. *)
Definition client_step (st : P * gmap string Ipv4Addr) (e : Z * op) : P * gmap string Ipv4Addr :=
  let '(p, leases) := st in
  match e with
  | (now, OpAllocate id) =>
      let '(p, r) := IpAllocator.allocate now id p in
      (p, match r with Some c => <[id := peer_ip c]> leases | None => leases end)
  | (now, OpRelease id) => (IpAllocator.release now id p, delete id leases)
  | (now, OpClaim id a) =>
      let '(p, r) := IpAllocator.claim_peer_ip now id a p in
      (p, match r with Claimed c | AlreadyOwned c => <[id := peer_ip c]> leases | _ => leases end)
  end.

Definition agrees (st : P * gmap string Ipv4Addr) : Prop :=
  pool_ok st.1 ∧ ∀ id ip, holds st.1 id ip ↔ st.2 !! id = Some ip.

Lemma client_step_agrees st e : agrees st → agrees (client_step st e).
Proof.
  destruct st as [p leases], e as [now [id|id|id a]]; intros [Hok Hag]; cbn [client_step fst snd] in *.
  - destruct (IpAllocator.allocate now id p) as [p' r] eqn:E.
    destruct (law_allocate now id p p' r Hok E) as (Hok' & Hother & Hr). split; [done|]. cbn [fst snd].
    intros b ip. destruct (decide (b = id)) as [->|Hne].
    + destruct r as [c|]; cbn.
      * destruct Hr as [Hh _]. rewrite lookup_insert_eq. split; [|by intros [= <-]].
        intros Hb. f_equal. by eapply law_single.
      * rewrite <- Hag. destruct (Hr ip). tauto.
    + rewrite Hother, Hag by done. destruct r; [|done]. by rewrite lookup_insert_ne.
  - destruct (law_release now id p Hok) as (Hok' & Hother & Hr). split; [done|]. cbn [fst snd].
    intros b ip. rewrite lookup_delete_Some. destruct (decide (b = id)) as [->|Hne].
    + specialize (Hr ip). tauto.
    + rewrite Hother, Hag by done. naive_solver.
  - destruct (IpAllocator.claim_peer_ip now id a p) as [p' r] eqn:E.
    destruct (law_claim now id a p p' r Hok E) as (Hok' & Hother & Hr). split; [done|]. cbn [fst snd].
    intros b ip. destruct (decide (b = id)) as [->|Hne].
    + destruct r as [c|c|o|]; [..|by rewrite Hr, Hag|by rewrite Hr, Hag]; destruct Hr as [-> Hh];
        rewrite lookup_insert_eq; (split; [|by intros [= <-]]); intros Hb; f_equal; by eapply law_single.
    + rewrite Hother, Hag by done. destruct r; try done; by rewrite lookup_insert_ne.
Qed.

(** The table stays exact, against any pool that keeps the contract. *)
Lemma client_run_agrees events st : agrees st → agrees (foldl client_step st events).
Proof. revert st. induction events as [|e events IH]; intros st Hag; [done|]. cbn [foldl]. by apply IH, client_step_agrees. Qed.
End Client.

Definition test_mobile_ip : MobileIpConfig :=
  mkMobileIpConfig false UNSPECIFIED UNSPECIFIED 0 0 0 UNSPECIFIED UNSPECIFIED Insecure None false false.
(** [default_subnet] *)
Definition default_pool : SubnetIpAllocatorInner :=
  default (mkInner (0, 0, 0) ∅ ∅ ∅ 2 ∅ 0 UNSPECIFIED UNSPECIFIED false false test_mobile_ip)
    (new_with_packet_options (mkIp 10 55 0 1) (mkIp 10 55 0 1) (mkIp 10 55 0 1) false false test_mobile_ip).

Lemma default_pool_inv : pool_inv default_pool.
Proof. eapply (new_inv (mkIp 10 55 0 1)). unfold default_pool, new_with_packet_options. reflexivity. Qed.

(** *** The subnet pool behind the trait *)
Lemma new_agrees s : pool_inv s → assigned s = ∅ → agrees (s, ∅).
Proof.
  intros Hinv He. split; [done|]. intros id ip. cbn [fst snd]. rewrite lookup_empty. split; [|done].
  intros (h & Ha & _). by rewrite He, lookup_empty in Ha.
Qed.

(** Nothing but the parts [set_pool] replaces changes. *)
Lemma client_step_prefix (st : SubnetIpAllocatorInner * gmap string Ipv4Addr) e : pool_inv st.1 →
  prefix (client_step st e).1 = prefix st.1.
Proof.
  destruct st as [p leases], e as [now [id|id|id a]]; intros Hinv; cbn [client_step fst] in *.
  - destruct (IpAllocator.allocate now id p) as [p' r] eqn:E. by destruct (allocate_cases now id p p' r Hinv E) as [Hp _].
  - cbn. unfold release. by destruct (assigned p !! id).
  - destruct (IpAllocator.claim_peer_ip now id a p) as [p' r] eqn:E. destruct (expire_fields now p) as (_&_&_&_&E5&_).
    destruct (claim_cases now id a p p' r Hinv E) as [(h & _ & _ & _ & _ & ->)|[-> _]]; [|done]. cbn. rewrite <- E5.
    unfold release. by destruct (assigned _ !! id).
Qed.

Lemma client_run_prefix events (st : SubnetIpAllocatorInner * gmap string Ipv4Addr) : agrees st →
  prefix (foldl client_step st events).1 = prefix st.1.
Proof.
  revert st. induction events as [|e events IH]; intros st Hag; [done|]. cbn [foldl].
  rewrite IH by by apply client_step_agrees. apply client_step_prefix, Hag.
Qed.

(** C30: the leases of the subnet pool are exact.  Start a pool for any gateway and run
    any allocations, releases and claims of any sessions at any times; keep a table
    of the leases from the answers alone.  The table is the pool's: a session has host [h]
    assigned exactly when the table gives it this address, each lease is
    an address of the gateway's /24 from host 2 to host 254, no two sessions ever hold the
    same address, and no host is lost: one that no session holds is free. *)
Theorem leases_exact (gateway pdns sdns : Ipv4Addr) (up down : bool) (mip : MobileIpConfig) (pool : SubnetIpAllocatorInner)
    (events : list (Z * op)) :
  new_with_packet_options gateway pdns sdns up down mip = Some pool →
  let '(pool', leases) := foldl client_step (pool, ∅) events in
  let address h := mkIp (ip0 gateway) (ip1 gateway) (ip2 gateway) h in
  (∀ id h, assigned pool' !! id = Some h ↔ leases !! id = Some (address h)) ∧
  (∀ id ip, leases !! id = Some ip → ∃ h, ip = address h ∧ 2 ≤ h ≤ 254) ∧
  (∀ a b ip, leases !! a = Some ip → leases !! b = Some ip → a = b) ∧
  (∀ h, h ∈ free pool' ↔ 2 ≤ h ≤ 254 ∧ ∀ id, leases !! id ≠ Some (address h)).
Proof.
  intros Hnew. pose proof (new_inv _ _ _ _ _ _ _ Hnew) as Hinv0.
  assert (prefix pool = (ip0 gateway, ip1 gateway, ip2 gateway) ∧ assigned pool = ∅) as [Hp He].
  { unfold new_with_packet_options in Hnew. destruct (_ =? _); [|done]. by injection Hnew as <-. }
  pose proof (new_agrees pool Hinv0 He) as Hag. pose proof (client_run_prefix events _ Hag) as Hpre.
  pose proof (client_run_agrees events _ Hag) as [Hinv Hh].
  destruct (foldl client_step (pool, ∅) events) as [pool' leases]. cbn [fst snd] in Hpre, Hinv, Hh. cbn in Hinv, Hh.
  intros address.
  assert (∀ h, peer_ip (config_for_host h pool') = address h) as Ha.
  { intros h. unfold config_for_host. by rewrite Hpre, Hp. }
  assert (∀ id h, assigned pool' !! id = Some h ↔ leases !! id = Some (address h)) as Hex.
  { intros id h. rewrite <- Hh, <- Ha. unfold subnet_holds. split; [intros ?; by exists h|]. by intros (h' & ? & ->%config_inj). }
  split_and!; [done|..].
  - intros id ip (h & Hid & ->)%Hh. exists h. split; [done|]. by eapply inv_assigned.
  - intros a b ip (h & Ea & ->)%Hh (h' & Eb & <-%config_inj)%Hh. by eapply (inv_inj _ Hinv).
  - intros h. rewrite (inv_free _ Hinv). split; intros [? Hno]; (split; [done|]); intros id ?; by apply (Hno id), Hex.
Qed.

Definition sample_events : list (Z * op) :=
  [(0, OpAllocate "a"); (1, OpAllocate "b"); (2, OpRelease "a"); (3, OpClaim "b" (mkIp 10 55 0 9));
   (4, OpAllocate "c"); (5, OpClaim "c" (mkIp 10 55 0 9))].
(** ["b"] moves to host 9, ["c"] gets the third host and is refused the ninth. *)
Lemma leases_exact_witness :
  (foldl client_step (default_pool, ∅) sample_events).2 = {["b"%string := mkIp 10 55 0 9; "c"%string := mkIp 10 55 0 4]} ∧
  ∀ a b ip, (foldl client_step (default_pool, ∅) sample_events).2 !! a = Some ip →
    (foldl client_step (default_pool, ∅) sample_events).2 !! b = Some ip → a = b.
Proof.
  split; [vm_compute; reflexivity|].
  pose proof (leases_exact (mkIp 10 55 0 1) (mkIp 10 55 0 1) (mkIp 10 55 0 1) false false test_mobile_ip default_pool
    sample_events eq_refl) as H.
  destruct (foldl client_step (default_pool, ∅) sample_events) as [pool leases]. apply H.
Defined.

(** ** The subnet pool *)

(** Host [h] is assigned, or reserved for its last owner. *)
Definition taken (now : Z) (s : SubnetIpAllocatorInner) (h : Z) : Prop :=
  (∃ a, assigned s !! a = Some h) ∨
  ∃ owner t, recently_released s !! h = Some (owner, t) ∧ now - t < release_grace s ∧ release_grace s ≠ 0.

Lemma not_free_assigned s h : pool_inv s → 2 ≤ h ≤ 254 → h ∉ free s → ∃ a, assigned s !! a = Some h.
Proof.
  intros Hinv Hh Hf. destruct (decide (Exists (λ e, e.2 = h) (map_to_list (assigned s)))) as [He|He].
  - apply Exists_exists in He as ([a g] & Hin & <-). exists a. by apply elem_of_map_to_list.
  - destruct Hf. apply (inv_free _ Hinv). split; [done|]. intros a Ha. apply He, Exists_exists.
    exists (a, h). split; [by apply elem_of_map_to_list|done].
Qed.

Lemma none_available now s : pool_inv s →
  (∀ h, available (expire_recently_released now s) h = false) ↔ ∀ h, 2 ≤ h ≤ 254 → taken now s h.
Proof.
  intros Hinv. destruct (expire_fields now s) as (E1 & _ & _ & _ & _ & _ & E7). split.
  - intros Hno h Hh. specialize (Hno h). apply not_true_iff_false in Hno. rewrite available_spec, E1 in Hno.
    destruct (recently_released (expire_recently_released now s) !! h) as [[o t]|] eqn:E.
    + right. exists o, t. by apply E7.
    + left. apply not_free_assigned; [done..|]. tauto.
  - intros Hall h. apply not_true_iff_false. rewrite available_spec, E1. intros [Hf Hr].
    apply (inv_free _ Hinv) in Hf as [Hh Hno]. destruct (Hall h Hh) as [[a Ha]|(o & t & Ho)]; [by apply (Hno a)|].
    apply (E7 h (o, t)) in Ho. congruence.
Qed.

(** [allocate] fails exactly when the session has no address, its last address
    is taken, and every host of the pool is assigned or reserved after a
    recent release. *)
Theorem allocate_fails_iff (now : Z) (id : string) (s : SubnetIpAllocatorInner) :
  pool_inv s →
  (allocate now id s).2 = None ↔
    assigned s !! id = None ∧ (∀ h, sticky s !! id = Some h → h ∉ free s) ∧ ∀ h, 2 ≤ h ≤ 254 → taken now s h.
Proof.
  intros Hinv. rewrite <- none_available by done. unfold allocate. pose proof (expire_inv now s Hinv) as Hinv1.
  destruct (expire_fields now s) as (E1 & E2 & E3 & _). rewrite <- E1, <- E2, <- E3. revert Hinv1.
  generalize (expire_recently_released now s) as s1. clear. intros s Hinv.
  destruct (assigned s !! id) as [h|]; [by split; [|intros []]|].
  pose proof (allocate_host_spec s Hinv) as Hs.
  assert (∀ Q : Prop, Q → (let '(s, found) := allocate_host s in
    match found with None => (s, None) | Some host => let s := take_host id host s in (s, Some (config_for_host host s)) end).2 = None
    ↔ None = @None Z ∧ Q ∧ ∀ h, available s h = false) as Hal.
  { intros Q HQ. destruct (allocate_host s) as [s' [h|]]; cbn.
    - destruct Hs as [Hh _]. split; [done|]. intros (_ & _ & Hno). by rewrite Hno in Hh.
    - destruct Hs. tauto. }
  destruct (sticky s !! id) as [g|]; [|by apply Hal]. case_decide as Hf.
  - cbn. split; [done|]. intros (_ & Hno & _). by destruct (Hno g).
  - apply Hal. by intros h [= <-].
Qed.

Lemma allocate_fails_iff_witness :
  (allocate 0 "a" default_pool).2 = None ↔
    assigned default_pool !! "a"%string = None ∧
    (∀ h, sticky default_pool !! "a"%string = Some h → h ∉ free default_pool) ∧
    ∀ h, 2 ≤ h ≤ 254 → taken 0 default_pool h.
Proof. apply (allocate_fails_iff 0 "a" default_pool). apply default_pool_inv. Defined.

(** A session that releases its address and comes back gets the same one,
    whatever time has passed. *)
Theorem reconnect_same_address (t1 t2 t3 : Z) (id : string) (s s1 : SubnetIpAllocatorInner) (c : IpcpConfig) :
  pool_inv s → allocate t1 id s = (s1, Some c) → assigned s !! id = None →
  (allocate t3 id (release t2 id s1)).2 = Some c.
Proof.
  intros Hinv H Hid. pose proof (allocate_inv t1 id s Hinv) as Hinv1. rewrite H in Hinv1.
  assert (∃ h, assigned s1 !! id = Some h ∧ sticky s1 !! id = Some h ∧ c = config_for_host h s1) as (h & Ha & Hst & ->).
  { unfold allocate in H. destruct (expire_fields t1 s) as (_ & E2 & _). rewrite E2, Hid in H.
    destruct (match sticky _ !! id with Some _ => _ | None => _ end) as [s2 [h|]]; [|done].
    injection H as <- <-. exists h. cbn. by rewrite !lookup_insert_eq. }
  unfold release. rewrite Ha. unfold allocate. set (s2 := set_pool _ _ _ _ _ _).
  destruct (expire_fields t3 s2) as (E1 & E2 & E3 & _ & _ & E6 & _). rewrite E2, E3. subst s2. cbn.
  rewrite lookup_delete_eq, Hst, decide_True by (rewrite E1; cbn; apply elem_of_union; left; by apply elem_of_singleton).
  cbn. f_equal. unfold config_for_host, take_host, expire_recently_released. cbn. by destruct (_ =? _).
Qed.

Lemma reconnect_same_address_witness :
  let r := allocate 0 "a" default_pool in (allocate 99999999 "a" (release 5 "a" r.1)).2 = r.2.
Proof.
  cbv zeta. destruct (allocate 0 "a" default_pool) as [s1 [c|]] eqn:E; [|vm_compute in E; discriminate E].
  apply (reconnect_same_address 0 5 99999999 "a" default_pool s1 c); [apply default_pool_inv|exact E|done].
Defined.

(** During the grace period a released address is out of reach of other
    sessions: a claim is refused in favour of the last owner, and a session
    that never held the address is not given it. *)
Theorem grace_protects (now t : Z) (id owner : string) (h : Z) (s : SubnetIpAllocatorInner) :
  pool_inv s → recently_released s !! h = Some (owner, t) → now - t < release_grace s → release_grace s ≠ 0 →
  owner ≠ id → assigned s !! id = None → sticky s !! id ≠ Some h →
  (claim_peer_ip now id (peer_ip (config_for_host h s)) s).2 = Conflict owner ∧
  ∀ c, (allocate now id s).2 = Some c → peer_ip c ≠ peer_ip (config_for_host h s).
Proof.
  intros Hinv Hr Ht Hg Ho Hid Hst. destruct (expire_fields now s) as (E1 & E2 & E3 & _ & E5 & E6 & E7).
  assert (recently_released (expire_recently_released now s) !! h = Some (owner, t)) as Hr1 by by apply E7.
  pose proof (inv_recent _ Hinv h _ Hr) as [Hh _]%(inv_free _ Hinv). split.
  - unfold claim_peer_ip. assert (host_for_peer_ip (peer_ip (config_for_host h s)) (expire_recently_released now s) = Some h) as ->.
    { unfold host_for_peer_ip, config_for_host. rewrite E5. destruct (prefix s) as [[p0 p1] p2]. cbn.
      rewrite decide_False by auto. by replace ((2 <=? h) && (h <=? 254)) with true by lia. }
    rewrite Hr1, decide_True by done. done.
  - intros c Hc. unfold allocate in Hc. rewrite E2, E3, Hid in Hc. pose proof (expire_inv now s Hinv) as Hinv1.
    assert (∀ g s', prefix s' = prefix s → g ≠ h → peer_ip (config_for_host g s') ≠ peer_ip (config_for_host h s)) as Hne.
    { intros g s' Hp Hgh. unfold config_for_host. rewrite Hp. destruct (prefix s) as [[??]?]. cbn. congruence. }
    assert ((let '(s, found) := allocate_host (expire_recently_released now s) in match found with None => (s, None)
      | Some host => let s := take_host id host s in (s, Some (config_for_host host s)) end).2 = Some c →
      peer_ip c ≠ peer_ip (config_for_host h s)) as Hal.
    { pose proof (allocate_host_spec _ Hinv1) as Hs. destruct (allocate_host _) as [s' [g|]]; [|done].
      destruct Hs as [[_ Hg']%available_spec ->]. intros [= <-]. apply Hne; [cbn; done|]. congruence. }
    destruct (sticky s !! id) as [g|]; [|by apply Hal]. case_decide; [|by apply Hal].
    injection Hc as <-. apply Hne; [cbn; done|]. congruence.
Qed.

Lemma grace_protects_witness :
  let s := release 1000 "a" (allocate 0 "a" default_pool).1 in
  (claim_peer_ip 2000 "b" (peer_ip (config_for_host 2 s)) s).2 = Conflict "a".
Proof.
  apply (grace_protects 2000 1000 "b" "a" 2 (release 1000 "a" (allocate 0 "a" default_pool).1)).
  - apply release_inv, allocate_inv, default_pool_inv.
  - vm_compute. reflexivity.
  - vm_compute. reflexivity.
  - vm_compute. discriminate.
  - discriminate.
  - vm_compute. reflexivity.
  - vm_compute. discriminate.
Defined.

(** An earlier owner of the address passes the grace period.  Session "b" held
    host 2 long ago; "a" releases it at 101 s.  At 102 s, inside the grace
    period of "a", [claim_peer_ip] still refuses the address to "b", but
    [allocate] hands it to "b" because it was b's last address. *)
Theorem sticky_bypasses_grace :
  let s1 := release 1000 "b" (allocate 0 "b" default_pool).1 in
  let '(s2, r2) := claim_peer_ip 100000 "a" (mkIp 10 55 0 2) s1 in
  let s3 := release 101000 "a" s2 in
  r2 = Claimed (config_for_host 2 default_pool) ∧
  (claim_peer_ip 102000 "b" (mkIp 10 55 0 2) s3).2 = Conflict "a" ∧
  (allocate 102000 "b" s3).2 = Some (config_for_host 2 default_pool).
Proof. vm_compute. auto. Qed.
