(* ===== verification/Vj.v ===== *)
(** * Van Jacobson TCP/IP header compression ([cdma-packet/src/lib/ppp/vj.rs])

    RFC 1144 in both directions.  Slices and vectors are indexed as in the
    code, so an access out of range is a panic ([None] of [rust A]). *)
From S2P Require Import Prelude Framing.

Definition PPP_IP_PROTOCOL : Z := 0x0021.
Definition PPP_VJ_COMPRESSED_TCP : Z := 0x002d.
Definition PPP_VJ_UNCOMPRESSED_TCP : Z := 0x002f.
Definition VJ_COMPRESSION_PROTOCOL : Z := PPP_VJ_COMPRESSED_TCP.

Definition IPPROTO_TCP : Z := 6.
Definition NEW_C : Z := 0x40.
Definition NEW_I : Z := 0x20.
Definition TCP_PUSH_BIT : Z := 0x10.
Definition NEW_S : Z := 0x08.
Definition NEW_A : Z := 0x04.
Definition NEW_W : Z := 0x02.
Definition NEW_U : Z := 0x01.
Definition SPECIAL_I : Z := Z.lor (Z.lor NEW_S NEW_W) NEW_U.
Definition SPECIAL_D : Z := Z.lor (Z.lor (Z.lor NEW_S NEW_A) NEW_W) NEW_U.
Definition SPECIALS_MASK : Z := Z.lor (Z.lor (Z.lor NEW_S NEW_A) NEW_W) NEW_U.

Definition TCP_FIN : Z := 0x01.
Definition TCP_SYN : Z := 0x02.
Definition TCP_RST : Z := 0x04.
Definition TCP_PUSH : Z := 0x08.
Definition TCP_ACK : Z := 0x10.
Definition TCP_URG : Z := 0x20.

(** ** Options *)
Record VjCompressionOptions := mkVjOptions { max_slot_id : Z; comp_slot_id : bool }.
#[export] Instance VjCompressionOptions_eq_dec : EqDecision VjCompressionOptions.
Proof. solve_decision. Defined.
Definition VjCompressionOptions_default : VjCompressionOptions := mkVjOptions 15 true.
Definition slot_count (o : VjCompressionOptions) : nat := Z.to_nat (max_slot_id o) + 1.

Definition to_ipcp_data (o : VjCompressionOptions) : list Z :=
  [(Z.shiftr VJ_COMPRESSION_PROTOCOL 8) as_u8; (Z.land VJ_COMPRESSION_PROTOCOL 0xff) as_u8;
   max_slot_id o; if comp_slot_id o then 1 else 0].

Definition from_ipcp_data (data : list Z) : option VjCompressionOptions :=
  match data with
  | [d0; d1; d2; d3] =>
      if negb (from_be16 d0 d1 =? VJ_COMPRESSION_PROTOCOL) || (1 <? d3) then None
      else Some (mkVjOptions d2 (negb (d3 =? 0)))
  | _ => None
  end.

Inductive VjError := NotNegotiated | Malformed | MissingState | Tossing.

(** ** Octet accessors *)
Definition read_u8 (data : list Z) (cursor : nat) : option (Z * nat) :=
  byte ← data !! cursor; Some (byte, S cursor).

Definition read_u16 (data : list Z) (off : nat) : rust Z :=
  a ← index data off; b ← index data (off + 1); Some (from_be16 a b).
Definition read_u32 (data : list Z) (off : nat) : rust Z :=
  a ← index data off; b ← index data (off + 1); c ← index data (off + 2); d ← index data (off + 3);
  Some (from_be32 a b c d).

(** [data[a..a + n].copy_from_slice(src)] *)
Definition write_slice (data : list Z) (a : nat) (src : list Z) : rust (list Z) :=
  if decide (a + length src ≤ length data)%nat
  then Some (take a data ++ src ++ drop (a + length src) data) else panic!.
Definition write_u16 (data : list Z) (off : nat) (v : Z) : rust (list Z) := write_slice data off (to_be16 v).
Definition write_u32 (data : list Z) (off : nat) (v : Z) : rust (list Z) := write_slice data off (to_be32 v).
Definition add_u16 (data : list Z) (off : nat) (delta : Z) : rust (list Z) :=
  v ← read_u16 data off; write_u16 data off (wrapping_add 16 v delta).
Definition add_u32 (data : list Z) (off : nat) (delta : Z) : rust (list Z) :=
  v ← read_u32 data off; write_u32 data off (wrapping_add 32 v delta).
(** [data[i] |= mask] and [data[i] &= !mask] *)
Definition or_octet (data : list Z) (i : nat) (mask : Z) : rust (list Z) :=
  b ← index data i; set_index data i (Z.lor b mask).
Definition clear_octet (data : list Z) (i : nat) (mask : Z) : rust (list Z) :=
  b ← index data i; set_index data i (Z.land b (bit_not 8 mask)).

Definition encode_nonzero (value : Z) : list Z :=
  if 256 <=? value then 0 :: to_be16 value else [value as_u8].
Definition encode_zero_allowed (value : Z) : list Z :=
  if (value =? 0) || (256 <=? value) then 0 :: to_be16 value else [value as_u8].

Definition decode_value (data : list Z) (cursor : nat) : option (Z * nat) :=
  '(first, cursor) ← read_u8 data cursor;
  if first =? 0 then
    if decide (length data - cursor < 2)%nat then None
    else a ← data !! cursor; b ← data !! S cursor; Some (from_be16 a b, S (S cursor))
  else Some (first, cursor).

(** The ones'-complement sum over one part; every call passes a single one. *)
Fixpoint sum16 (sum : Z) (part : list Z) : Z :=
  match part with
  | a :: b :: rest => sum16 (wrapping_add 32 sum (from_be16 a b)) rest
  | [a] => wrapping_add 32 sum (from_be16 a 0)
  | [] => sum
  end.
(** Two folds bring a 32-bit sum below 2^16 ([fold16_fixed]). *)
Definition fold16 (sum : Z) : Z :=
  if Z.shiftr sum 16 =? 0 then sum else Z.land sum 0xffff + Z.shiftr sum 16.
Definition checksum16 (part : list Z) : Z :=
  bit_not 16 (wrap 16 (fold16 (fold16 (sum16 0 part)))).

(** ** Parsed packets *)
Record ParsedTcpPacket := mkParsed {
  packet : list Z;
  total_len : nat;
  ip_header_len : nat;
  tcp_offset : nat;
  header_len : nat
}.

Definition parse (pkt : list Z) : rust (option ParsedTcpPacket) :=
  if decide (length pkt < 40)%nat then Some None
  else
    b0 ← index pkt 0;
    if negb (Z.shiftr b0 4 =? 4) then Some None
    else
      let ip_hlen := (Z.to_nat (Z.land b0 0x0f) * 4)%nat in
      if decide (ip_hlen < 20 ∨ length pkt < ip_hlen)%nat then Some None
      else
        tl ← read_u16 pkt 2;
        let total := Z.to_nat tl in
        if decide (total < ip_hlen + 20 ∨ length pkt < total)%nat then Some None
        else
          b9 ← index pkt 9;
          if negb (b9 =? IPPROTO_TCP) then Some None
          else
            let tcp := ip_hlen in
            b12 ← index pkt (tcp + 12);
            let tcp_hlen := (Z.to_nat (Z.shiftr b12 4) * 4)%nat in
            if decide (tcp_hlen < 20 ∨ total < tcp + tcp_hlen)%nat then Some None
            else Some (Some (mkParsed pkt total ip_hlen tcp (tcp + tcp_hlen))).

Definition from_packet (p : ParsedTcpPacket) : rust (list Z) := slice (packet p) 0 (header_len p).

(** [slice.get(a..b)] *)
Definition get_range (l : list Z) (a b : nat) : option (list Z) := slice l a b.

Definition same_flow (header : list Z) (p : ParsedTcpPacket) : rust bool :=
  b0 ← index header 0;
  let old_tcp := (Z.to_nat (Z.land b0 0x0f) * 4)%nat in
  Some (bool_decide (get_range header 12 20 = get_range (packet p) 12 20)
        && bool_decide (get_range header old_tcp (old_tcp + 4)
                        = get_range (packet p) (tcp_offset p) (tcp_offset p + 4))).

(** [a[..] == b[..]] with both slices in range. *)
Definition slices_equal (a b : rust (list Z)) : rust bool :=
  x ← a; y ← b; Some (bool_decide (x = y)).
(** [a && b]: [b] is evaluated only when [a] holds. *)
Definition and_then (a b : rust bool) : rust bool := x ← a; if (x : bool) then b else Some false.

Definition stable_header_matches (header : list Z) (p : ParsedTcpPacket) : rust bool :=
  b0 ← index header 0;
  let old_ip_hlen := (Z.to_nat (Z.land b0 0x0f) * 4)%nat in
  let old_tcp := old_ip_hlen in
  let tcp := tcp_offset p in
  and_then (Some (bool_decide (length header = header_len p)))
  (and_then (slices_equal (slice header 0 2) (slice (packet p) 0 2))
  (and_then (slices_equal (slice header 6 10) (slice (packet p) 6 10))
  (and_then (a ← index header (old_tcp + 12); b ← index (packet p) (tcp + 12); Some (a =? b))
  (and_then (slices_equal (slice header 20 old_ip_hlen) (slice (packet p) 20 (ip_header_len p)))
            (slices_equal (slice header (old_tcp + 20) (length header))
                          (slice (packet p) (tcp + 20) (header_len p))))))).

Definition is_compressible_tcp (p : ParsedTcpPacket) : rust bool :=
  fragment ← read_u16 (packet p) 6;
  if negb (Z.land fragment 0x3fff =? 0) then Some false
  else
    flags ← index (packet p) (tcp_offset p + 13);
    Some (Z.land flags (Z.lor (Z.lor (Z.lor TCP_SYN TCP_FIN) TCP_RST) TCP_ACK) =? TCP_ACK).

Definition ip_ppp (ip_packet : list Z) : PppPacket := mkPppPacket PPP_IP_PROTOCOL ip_packet.

(** ** Compression *)
Definition build_compressed_packet (p : ParsedTcpPacket) (header : list Z) : rust (option PppPacket) :=
  stable ← stable_header_matches header p;
  if negb stable then Some None
  else
    let tcp := tcp_offset p in
    b0 ← index header 0;
    let old_tcp := (Z.to_nat (Z.land b0 0x0f) * 4)%nat in
    flags ← index (packet p) (tcp + 13);
    old_flags ← index header (old_tcp + 13);
    urg ← (if negb (Z.land flags TCP_URG =? 0) then
             v ← read_u16 (packet p) (tcp + 18); Some (Some (NEW_U, encode_zero_allowed v))
           else
             v ← read_u16 (packet p) (tcp + 18); o ← read_u16 header (old_tcp + 18);
             Some (if negb (v =? o) then None else Some (0, [])));
    match urg with
    | None => Some None
    | Some (changes, encoded) =>
    if negb (Z.land (Z.lxor flags old_flags) (bit_not 8 (Z.lor TCP_PUSH TCP_URG)) =? 0) then Some None
    else
      win ← read_u16 (packet p) (tcp + 14); old_win ← read_u16 header (old_tcp + 14);
      let window_delta := wrapping_sub 16 win old_win in
      let '(changes, encoded) :=
        if negb (window_delta =? 0) then (Z.lor changes NEW_W, encoded ++ encode_nonzero window_delta)
        else (changes, encoded) in
      ack ← read_u32 (packet p) (tcp + 8); old_ack ← read_u32 header (old_tcp + 8);
      let ack_delta := wrapping_sub 32 ack old_ack in
      if negb (ack_delta =? 0) && (0xffff <? ack_delta) then Some None
      else
        let '(changes, encoded) :=
          if negb (ack_delta =? 0) then (Z.lor changes NEW_A, encoded ++ encode_nonzero (ack_delta as_u16))
          else (changes, encoded) in
        seq ← read_u32 (packet p) (tcp + 4); old_seq ← read_u32 header (old_tcp + 4);
        let seq_delta := wrapping_sub 32 seq old_seq in
        if negb (seq_delta =? 0) && (0xffff <? seq_delta) then Some None
        else
          let '(changes, encoded) :=
            if negb (seq_delta =? 0) then (Z.lor changes NEW_S, encoded ++ encode_nonzero (seq_delta as_u16))
            else (changes, encoded) in
          old_total ← read_u16 header 2;
          let old_payload_len := (Z.to_nat old_total - length header)%nat in
          total ← read_u16 (packet p) 2;
          let selected :=
            if changes =? 0 then
              if (total =? old_total) || negb (Nat.eqb (Z.to_nat old_total) (header_len p)) then None
              else Some (changes, encoded)
            else if (changes =? SPECIAL_I) || (changes =? SPECIAL_D) then None
            else if (changes =? Z.lor NEW_S NEW_A) && (seq_delta =? ack_delta)
                    && (seq_delta =? Z.of_nat old_payload_len) then Some (SPECIAL_I, [])
            else if (changes =? NEW_S) && (seq_delta =? Z.of_nat old_payload_len) then Some (SPECIAL_D, [])
            else Some (changes, encoded) in
          match selected with
          | None => Some None
          | Some (changes, encoded) =>
              ip_id ← read_u16 (packet p) 4; old_id ← read_u16 header 4;
              let ip_id_delta := wrapping_sub 16 ip_id old_id in
              let '(changes, encoded) :=
                if negb (ip_id_delta =? 1) then (Z.lor changes NEW_I, encoded ++ encode_zero_allowed ip_id_delta)
                else (changes, encoded) in
              let changes := if negb (Z.land flags TCP_PUSH =? 0) then Z.lor changes TCP_PUSH_BIT else changes in
              cksum ← slice (packet p) (tcp + 16) (tcp + 18);
              data ← slice (packet p) (header_len p) (total_len p);
              Some (Some (mkPppPacket PPP_VJ_COMPRESSED_TCP ([changes] ++ cksum ++ encoded ++ data)))
          end
    end.

(** ** State *)
Record VjState := mkVjState {
  tx_options : option VjCompressionOptions;
  rx_options : option VjCompressionOptions;
  tx_states : list (option (list Z));
  rx_states : list (option (list Z));
  tx_lru : list Z;
  last_xmit : option Z;
  last_recv : option Z;
  toss : bool
}.
Definition VjState_default : VjState := mkVjState None None [] [] [] None None true.

Definition set_tx (ts : list (option (list Z))) (lru : list Z) (lx : option Z) (s : VjState) : VjState :=
  mkVjState (tx_options s) (rx_options s) ts (rx_states s) lru lx (last_recv s) (toss s).
Definition set_rx (rs : list (option (list Z))) (lr : option Z) (t : bool) (s : VjState) : VjState :=
  mkVjState (tx_options s) (rx_options s) (tx_states s) rs (tx_lru s) (last_xmit s) lr t.

Definition configure (tx rx : option VjCompressionOptions) (s : VjState) : VjState :=
  mkVjState tx rx
    (replicate (match tx with Some o => slot_count o | None => 0%nat end) None)
    (replicate (match rx with Some o => slot_count o | None => 0%nat end) None)
    (match tx with Some o => seqZ 0 (max_slot_id o + 1) | None => [] end) None None true.

(** [tx_lru.iter().copied().find(..)]: the first slot of the same flow. *)
Fixpoint find_slot (states : list (option (list Z))) (p : ParsedTcpPacket) (lru : list Z) : rust (option Z) :=
  match lru with
  | [] => Some None
  | slot :: lru =>
      st ← index states (Z.to_nat slot);
      same ← match st with Some h => same_flow h p | None => Some false end;
      if (same : bool) then Some (Some slot) else find_slot states p lru
  end.
Definition find_tx_slot (p : ParsedTcpPacket) (s : VjState) : rust (option Z) := find_slot (tx_states s) p (tx_lru s).

Definition mark_tx_mru (slot : Z) (s : VjState) : VjState :=
  let lru :=
    match position (λ x, x =? slot) (tx_lru s) with
    | Some pos => delete pos (tx_lru s)
    | None => tx_lru s
    end in
  set_tx (tx_states s) (slot :: lru) (last_xmit s) s.

Definition allocate_tx_slot (s : VjState) : VjState * option Z :=
  match last (tx_lru s) with
  | Some slot => (mark_tx_mru slot s, Some slot)
  | None => (s, None)
  end.

Definition uncompressed_tcp_packet (slot : Z) (p : ParsedTcpPacket) (s : VjState) : rust (VjState * PppPacket) :=
  payload ← slice (packet p) 0 (total_len p);
  payload ← set_index payload 9 slot;
  Some (set_tx (tx_states s) (tx_lru s) (Some slot) s, mkPppPacket PPP_VJ_UNCOMPRESSED_TCP payload).

(** Remember the packet's header in a slot. *)
Definition store_tx (slot : Z) (p : ParsedTcpPacket) (s : VjState) : rust VjState :=
  header ← from_packet p;
  states ← set_index (tx_states s) (Z.to_nat slot) (Some header);
  Some (set_tx states (tx_lru s) (last_xmit s) s).

Definition compress_tcp (options : VjCompressionOptions) (p : ParsedTcpPacket) (ip_packet : list Z) (s : VjState)
    : rust (VjState * PppPacket) :=
  found ← find_tx_slot p s;
  match found with
  | None =>
      match allocate_tx_slot s with
      | (s, None) => Some (s, ip_ppp ip_packet)
      | (s, Some slot) => s ← store_tx slot p s; uncompressed_tcp_packet slot p s
      end
  | Some slot =>
      let s := mark_tx_mru slot s in
      st ← index (tx_states s) (Z.to_nat slot);
      header ← st;
      built ← build_compressed_packet p header;
      match built with
      | None => s ← store_tx slot p s; uncompressed_tcp_packet slot p s
      | Some compressed =>
          '(s, compressed) ←
            (if negb (comp_slot_id options) || negb (bool_decide (last_xmit s = Some slot)) then
               match payload compressed with
               | changes :: rest =>
                   Some (set_tx (tx_states s) (tx_lru s) (Some slot) s,
                         mkPppPacket (protocol compressed) (Z.lor changes NEW_C :: slot :: rest))
               | [] => panic!
               end
             else Some (s, compressed));
          s ← store_tx slot p s;
          Some (s, compressed)
      end
  end.

Definition compress_ip_packet (ip_packet : list Z) (s : VjState) : rust (VjState * PppPacket) :=
  match tx_options s with
  | None => Some (s, ip_ppp ip_packet)
  | Some options =>
      parsed ← parse ip_packet;
      match parsed with
      | None => Some (s, ip_ppp ip_packet)
      | Some p =>
          ok ← is_compressible_tcp p;
          if negb ok then Some (s, ip_ppp ip_packet) else compress_tcp options p ip_packet s
      end
  end.

(** ** Decompression *)
Abbreviation vj_result := (VjState * result VjError (list Z))%type.

Definition fail_toss (e : VjError) (s : VjState) : rust vj_result :=
  Some (set_rx (rx_states s) (last_recv s) true s, Err e).

Definition decompress_uncompressed_tcp (payload : list Z) (s : VjState) : rust vj_result :=
  match rx_options s with
  | None => Some (s, Err NotNegotiated)
  | Some options =>
      match payload !! 9%nat with
      | None => fail_toss Malformed s
      | Some slot =>
          if max_slot_id options <? slot then fail_toss Malformed s
          else
            pkt ← set_index payload 9 IPPROTO_TCP;
            parsed ← parse pkt;
            match parsed with
            | None => fail_toss Malformed s
            | Some p =>
                header ← from_packet p;
                states ← set_index (rx_states s) (Z.to_nat slot) (Some header);
                Some (set_rx states (Some slot) false s, Ok pkt)
            end
      end
  end.

(** The delta fields; the inner [None] is a malformed payload. *)
Definition apply_field (present : bool) (payload : list Z) (cursor : nat) (header : list Z)
    (apply : list Z → Z → rust (list Z)) : rust (option (nat * list Z)) :=
  if present then
    match decode_value payload cursor with
    | None => Some None
    | Some (v, cursor) => header ← apply header v; Some (Some (cursor, header))
    end
  else Some (Some (cursor, header)).

Definition apply_general (changes : Z) (payload : list Z) (cursor tcp : nat) (header : list Z)
    : rust (option (nat * list Z)) :=
  header ← (if negb (Z.land changes NEW_U =? 0) then or_octet header (tcp + 13) TCP_URG
            else clear_octet header (tcp + 13) TCP_URG);
  u ← apply_field (negb (Z.land changes NEW_U =? 0)) payload cursor header (λ h v, write_u16 h (tcp + 18) v);
  match u with None => Some None | Some (cursor, header) =>
  w ← apply_field (negb (Z.land changes NEW_W =? 0)) payload cursor header (λ h d, add_u16 h (tcp + 14) d);
  match w with None => Some None | Some (cursor, header) =>
  a ← apply_field (negb (Z.land changes NEW_A =? 0)) payload cursor header (λ h d, add_u32 h (tcp + 8) d);
  match a with None => Some None | Some (cursor, header) =>
  apply_field (negb (Z.land changes NEW_S =? 0)) payload cursor header (λ h d, add_u32 h (tcp + 4) d)
  end end end.

Definition apply_specials (changes : Z) (payload : list Z) (cursor tcp : nat) (header : list Z)
    : rust (option (nat * list Z)) :=
  let c := Z.land changes SPECIALS_MASK in
  if c =? SPECIAL_I then
    total ← read_u16 header 2;
    let data_len := Z.of_nat (Z.to_nat total - length header) in
    header ← add_u32 header (tcp + 8) (data_len as_u32);
    header ← add_u32 header (tcp + 4) (data_len as_u32);
    Some (Some (cursor, header))
  else if c =? SPECIAL_D then
    total ← read_u16 header 2;
    let data_len := Z.of_nat (Z.to_nat total - length header) in
    header ← add_u32 header (tcp + 4) (data_len as_u32);
    Some (Some (cursor, header))
  else apply_general changes payload cursor tcp header.

Definition apply_ip_id (changes : Z) (payload : list Z) (cursor : nat) (header : list Z)
    : rust (option (nat * list Z)) :=
  if negb (Z.land changes NEW_I =? 0) then apply_field true payload cursor header (λ h d, add_u16 h 4 d)
  else header ← add_u16 header 4 1; Some (Some (cursor, header)).

(** The header rebuilt from the slot's header and the changes; the inner [None] is
    a malformed payload. *)
Definition rebuild (changes : Z) (payload : list Z) (cursor : nat) (header : list Z) (checksum : Z)
    : rust (option (list Z * list Z)) :=
  let header_len := length header in
  b0 ← index header 0;
  let ip_hlen := (Z.to_nat (Z.land b0 0x0f) * 4)%nat in
  let tcp := ip_hlen in
  header ← write_u16 header (tcp + 16) checksum;
  header ← (if negb (Z.land changes TCP_PUSH_BIT =? 0) then or_octet header (tcp + 13) TCP_PUSH
            else clear_octet header (tcp + 13) TCP_PUSH);
  r ← apply_specials changes payload cursor tcp header;
  match r with None => Some None | Some (cursor, header) =>
  r ← apply_ip_id changes payload cursor header;
  match r with None => Some None | Some (cursor, header) =>
  data ← slice payload cursor (length payload);
  let total_len := (header_len + length data)%nat in
  if decide (0xffff < Z.of_nat total_len) then Some None
  else
    header ← write_u16 header 2 ((Z.of_nat total_len) as_u16);
    header ← set_index header 10 0;
    header ← set_index header 11 0;
    ip_part ← slice header 0 ip_hlen;
    header ← write_u16 header 10 (checksum16 ip_part);
    Some (Some (header, data))
  end end.

Definition decompress_slot (changes : Z) (payload : list Z) (cursor : nat) (s : VjState) : rust vj_result :=
  match last_recv s with
  | None => fail_toss MissingState s
  | Some slot =>
      st ← index (rx_states s) (Z.to_nat slot);
      match st with
      | None => fail_toss MissingState s
      | Some header =>
          if decide (length payload - cursor < 2)%nat then fail_toss Malformed s
          else
            checksum ← read_u16 payload cursor;
            r ← rebuild changes payload (cursor + 2) header checksum;
            match r with
            | None => fail_toss Malformed s
            | Some (header, data) =>
                states ← set_index (rx_states s) (Z.to_nat slot) (Some header);
                Some (set_rx states (last_recv s) (toss s) s, Ok (header ++ data))
            end
      end
  end.

Definition decompress_compressed_tcp (payload : list Z) (s : VjState) : rust vj_result :=
  match rx_options s with
  | None => Some (s, Err NotNegotiated)
  | Some options =>
      match read_u8 payload 0 with
      | None => fail_toss Malformed s
      | Some (changes, cursor) =>
          if negb (Z.land changes NEW_C =? 0) then
            match read_u8 payload cursor with
            | None => fail_toss Malformed s
            | Some (slot, cursor) =>
                if max_slot_id options <? slot then fail_toss Malformed s
                else decompress_slot (Z.land changes (bit_not 8 NEW_C)) payload cursor
                       (set_rx (rx_states s) (Some slot) false s)
            end
          else if toss s then Some (s, Err Tossing)
          else decompress_slot changes payload cursor s
      end
  end.

Definition decompress_packet (protocol : Z) (payload : list Z) (s : VjState) : rust vj_result :=
  if protocol =? PPP_IP_PROTOCOL then Some (s, Ok payload)
  else if protocol =? PPP_VJ_UNCOMPRESSED_TCP then decompress_uncompressed_tcp payload s
  else if protocol =? PPP_VJ_COMPRESSED_TCP then decompress_compressed_tcp payload s
  else Some (s, Err Malformed).
