(* ===== verification/VjHeader.v ===== *)
(** * TCP/IP headers as records of fields

    The layout of the headers that [vj.rs] patches octet by octet: what each
    accessor reads and each write does, in terms of the header's fields. *)
From S2P Require Import Prelude Framing Vj.

(** The fields of a TCP/IPv4 header, in order. *)
Record hdr := mkHdr {
  h_vh : Z; h_tos : Z; h_len : Z; h_id : Z;
  h_mid : list Z;     (* fragment word, TTL, protocol *)
  h_ipck : Z;
  h_addrs : list Z; h_ipopts : list Z; h_ports : list Z;
  h_seq : Z; h_ack : Z; h_off : Z; h_flags : Z; h_win : Z; h_tck : Z; h_urp : Z;
  h_tcpopts : list Z
}.

Definition fields (h : hdr) : list (list Z) :=
  [[h_vh h; h_tos h]; to_be16 (h_len h); to_be16 (h_id h); h_mid h; to_be16 (h_ipck h); h_addrs h;
   h_ipopts h; h_ports h; to_be32 (h_seq h); to_be32 (h_ack h); [h_off h]; [h_flags h];
   to_be16 (h_win h); to_be16 (h_tck h); to_be16 (h_urp h); h_tcpopts h].
Definition render (h : hdr) : list Z := mjoin (fields h).
Definition tcp_at (h : hdr) : nat := (20 + length (h_ipopts h))%nat.

Record wf_hdr (h : hdr) : Prop := {
  wf_vh : is_u8 (h_vh h); wf_tos : is_u8 (h_tos h);
  wf_len : is_u16 (h_len h); wf_id : is_u16 (h_id h); wf_ipck : is_u16 (h_ipck h);
  wf_mid : length (h_mid h) = 4%nat; wf_addrs : length (h_addrs h) = 8%nat; wf_ports : length (h_ports h) = 4%nat;
  wf_seq : is_u32 (h_seq h); wf_ack : is_u32 (h_ack h); wf_off : is_u8 (h_off h); wf_flags : is_u8 (h_flags h);
  wf_win : is_u16 (h_win h); wf_tck : is_u16 (h_tck h); wf_urp : is_u16 (h_urp h);
  wf_ihl : (Z.to_nat (Z.land (h_vh h) 0x0f) * 4)%nat = tcp_at h;
  wf_lists : bytes (h_mid h ++ h_addrs h ++ h_ipopts h ++ h_ports h ++ h_tcpopts h)
}.

(** ** Fields of a concatenation *)
Lemma field_split (fs : list (list Z)) k f :
  fs !! k = Some f → mjoin fs = mjoin (take k fs) ++ f ++ mjoin (drop (S k) fs).
Proof.
  intros H. rewrite <- (take_drop_middle fs k f H) at 1. by rewrite join_app.
Qed.

Lemma field_update (fs : list (list Z)) k f g :
  fs !! k = Some f → mjoin (<[k := g]> fs) = mjoin (take k fs) ++ g ++ mjoin (drop (S k) fs).
Proof.
  intros H. pose proof (lookup_lt_Some _ _ _ H) as Hk.
  rewrite (field_split (<[k := g]> fs) k g) by by apply list_lookup_insert_eq.
  by rewrite take_insert_ge, drop_insert_lt by lia.
Qed.

Lemma index_mid {A} (pre : list A) x suf : index (pre ++ x :: suf) (length pre) = Some x.
Proof. unfold index. by rewrite lookup_app_r, Nat.sub_diag by lia. Qed.

Lemma index_app_off {A} (pre l : list A) i : index (pre ++ l) (length pre + i) = index l i.
Proof. unfold index. rewrite lookup_app_r by lia. f_equal. lia. Qed.

Lemma read_u16_at pre v suf : is_u16 v → read_u16 (pre ++ to_be16 v ++ suf) (length pre) = Some v.
Proof.
  intros Hv. unfold read_u16. rewrite <- (Nat.add_0_r (length pre)) at 1. rewrite !index_app_off. cbn.
  f_equal. by apply split_u16.
Qed.

Lemma read_u32_at pre v suf : is_u32 v → read_u32 (pre ++ to_be32 v ++ suf) (length pre) = Some v.
Proof.
  intros Hv. unfold read_u32. rewrite <- (Nat.add_0_r (length pre)) at 1. rewrite !index_app_off. cbn.
  f_equal. by apply (from_be32_to_be32 v).
Qed.

Lemma write_slice_at pre old new suf :
  length old = length new → write_slice (pre ++ old ++ suf) (length pre) new = Some (pre ++ new ++ suf).
Proof.
  intros Hl. unfold write_slice. rewrite decide_True by (rewrite !length_app; lia).
  rewrite take_app_length, (app_assoc pre old), drop_app_length' by (rewrite length_app; lia). done.
Qed.

Lemma set_index_at pre (x y : Z) suf : set_index (pre ++ x :: suf) (length pre) y = Some (pre ++ y :: suf).
Proof.
  rewrite set_index_Some by (rewrite length_app; cbn; lia). by rewrite insert_app_r_alt, Nat.sub_diag by lia.
Qed.

(** ** The accessors on a header *)
Ltac header_length :=
  repeat progress (cbn [fields take mjoin list_join app length to_be16 to_be32]; rewrite ?length_app); lia.

Section Accessors.
Context (h : hdr) (Hwf : wf_hdr h) (suf : list Z).
Let Hmid := wf_mid h Hwf.
Let Haddrs := wf_addrs h Hwf.
Let Hports := wf_ports h Hwf.
Abbreviation tcp := (tcp_at h).

Lemma render_split k f (E : fields h !! k = Some f) :
  render h ++ suf = mjoin (take k (fields h)) ++ f ++ (mjoin (drop (S k) (fields h)) ++ suf).
Proof. unfold render. rewrite (field_split _ k f E) at 1. by rewrite <- !app_assoc. Qed.

Lemma read_field16 k v off :
  fields h !! k = Some (to_be16 v) → is_u16 v → off = length (mjoin (take k (fields h))) →
  read_u16 (render h ++ suf) off = Some v.
Proof. intros E Hv ->. rewrite (render_split k _ E). by apply read_u16_at. Qed.

Lemma read_field32 k v off :
  fields h !! k = Some (to_be32 v) → is_u32 v → off = length (mjoin (take k (fields h))) →
  read_u32 (render h ++ suf) off = Some v.
Proof. intros E Hv ->. rewrite (render_split k _ E). by apply read_u32_at. Qed.

Lemma read_field8 k v off :
  fields h !! k = Some [v] → off = length (mjoin (take k (fields h))) → index (render h ++ suf) off = Some v.
Proof. intros E ->. rewrite (render_split k _ E). apply index_mid. Qed.

Lemma read_len : read_u16 (render h ++ suf) 2 = Some (h_len h).
Proof. apply (read_field16 1); [done|by apply wf_len|header_length]. Qed.
Lemma read_id : read_u16 (render h ++ suf) 4 = Some (h_id h).
Proof. apply (read_field16 2); [done|by apply wf_id|header_length]. Qed.
Lemma read_vh : index (render h ++ suf) 0 = Some (h_vh h).
Proof. done. Qed.
Lemma read_tcp_seq : read_u32 (render h ++ suf) (tcp + 4) = Some (h_seq h).
Proof. apply (read_field32 8); [done|by apply wf_seq|unfold tcp_at; header_length]. Qed.
Lemma read_ack : read_u32 (render h ++ suf) (tcp + 8) = Some (h_ack h).
Proof. apply (read_field32 9); [done|by apply wf_ack|unfold tcp_at; header_length]. Qed.
Lemma read_off : index (render h ++ suf) (tcp + 12) = Some (h_off h).
Proof. apply (read_field8 10); [done|unfold tcp_at; header_length]. Qed.
Lemma read_flags : index (render h ++ suf) (tcp + 13) = Some (h_flags h).
Proof. apply (read_field8 11); [done|unfold tcp_at; header_length]. Qed.
Lemma read_win : read_u16 (render h ++ suf) (tcp + 14) = Some (h_win h).
Proof. apply (read_field16 12); [done|by apply wf_win|unfold tcp_at; header_length]. Qed.
Lemma read_urp : read_u16 (render h ++ suf) (tcp + 18) = Some (h_urp h).
Proof. apply (read_field16 14); [done|by apply wf_urp|unfold tcp_at; header_length]. Qed.

Lemma slice_field k f a b :
  fields h !! k = Some f → a = length (mjoin (take k (fields h))) → b = (a + length f)%nat →
  slice (render h ++ suf) a b = Some f.
Proof. intros E -> ->. rewrite (render_split k _ E). by apply slice_app. Qed.

Lemma slice_mid : slice (render h ++ suf) 6 10 = Some (h_mid h).
Proof. apply (slice_field 3); [done|header_length|lia]. Qed.
Lemma slice_addrs : slice (render h ++ suf) 12 20 = Some (h_addrs h).
Proof. apply (slice_field 5); [done|header_length|lia]. Qed.
Lemma slice_ipopts : slice (render h ++ suf) 20 tcp = Some (h_ipopts h).
Proof. apply (slice_field 6); [done|header_length|unfold tcp_at; lia]. Qed.
Lemma slice_ports : slice (render h ++ suf) tcp (tcp + 4) = Some (h_ports h).
Proof. apply (slice_field 7); [done|unfold tcp_at; header_length|lia]. Qed.
Lemma slice_tck : slice (render h ++ suf) (tcp + 16) (tcp + 18) = Some (to_be16 (h_tck h)).
Proof. apply (slice_field 13); [done|unfold tcp_at; header_length|cbn [to_be16 length]; lia]. Qed.
Lemma slice_first : slice (render h ++ suf) 0 2 = Some [h_vh h; h_tos h].
Proof. apply (slice_field 0); done. Qed.

Lemma length_render : length (render h) = (tcp + 20 + length (h_tcpopts h))%nat.
Proof. unfold render, tcp_at. header_length. Qed.
Lemma slice_tcpopts : slice (render h ++ suf) (tcp + 20) (length (render h)) = Some (h_tcpopts h).
Proof.
  apply (slice_field 15); [done|unfold tcp_at; header_length|]. rewrite length_render. lia.
Qed.
End Accessors.

(** ** Updates of one field *)
Definition set_len (x : Z) (h : hdr) : hdr :=
  mkHdr (h_vh h) (h_tos h) x (h_id h) (h_mid h) (h_ipck h) (h_addrs h) (h_ipopts h) (h_ports h) (h_seq h) (h_ack h)
    (h_off h) (h_flags h) (h_win h) (h_tck h) (h_urp h) (h_tcpopts h).
Definition set_id (x : Z) (h : hdr) : hdr :=
  mkHdr (h_vh h) (h_tos h) (h_len h) x (h_mid h) (h_ipck h) (h_addrs h) (h_ipopts h) (h_ports h) (h_seq h) (h_ack h)
    (h_off h) (h_flags h) (h_win h) (h_tck h) (h_urp h) (h_tcpopts h).
Definition set_ipck (x : Z) (h : hdr) : hdr :=
  mkHdr (h_vh h) (h_tos h) (h_len h) (h_id h) (h_mid h) x (h_addrs h) (h_ipopts h) (h_ports h) (h_seq h) (h_ack h)
    (h_off h) (h_flags h) (h_win h) (h_tck h) (h_urp h) (h_tcpopts h).
Definition set_seq (x : Z) (h : hdr) : hdr :=
  mkHdr (h_vh h) (h_tos h) (h_len h) (h_id h) (h_mid h) (h_ipck h) (h_addrs h) (h_ipopts h) (h_ports h) x (h_ack h)
    (h_off h) (h_flags h) (h_win h) (h_tck h) (h_urp h) (h_tcpopts h).
Definition set_ack (x : Z) (h : hdr) : hdr :=
  mkHdr (h_vh h) (h_tos h) (h_len h) (h_id h) (h_mid h) (h_ipck h) (h_addrs h) (h_ipopts h) (h_ports h) (h_seq h) x
    (h_off h) (h_flags h) (h_win h) (h_tck h) (h_urp h) (h_tcpopts h).
Definition set_flags (x : Z) (h : hdr) : hdr :=
  mkHdr (h_vh h) (h_tos h) (h_len h) (h_id h) (h_mid h) (h_ipck h) (h_addrs h) (h_ipopts h) (h_ports h) (h_seq h) (h_ack h)
    (h_off h) x (h_win h) (h_tck h) (h_urp h) (h_tcpopts h).
Definition set_win (x : Z) (h : hdr) : hdr :=
  mkHdr (h_vh h) (h_tos h) (h_len h) (h_id h) (h_mid h) (h_ipck h) (h_addrs h) (h_ipopts h) (h_ports h) (h_seq h) (h_ack h)
    (h_off h) (h_flags h) x (h_tck h) (h_urp h) (h_tcpopts h).
Definition set_tck (x : Z) (h : hdr) : hdr :=
  mkHdr (h_vh h) (h_tos h) (h_len h) (h_id h) (h_mid h) (h_ipck h) (h_addrs h) (h_ipopts h) (h_ports h) (h_seq h) (h_ack h)
    (h_off h) (h_flags h) (h_win h) x (h_urp h) (h_tcpopts h).
Definition set_urp (x : Z) (h : hdr) : hdr :=
  mkHdr (h_vh h) (h_tos h) (h_len h) (h_id h) (h_mid h) (h_ipck h) (h_addrs h) (h_ipopts h) (h_ports h) (h_seq h) (h_ack h)
    (h_off h) (h_flags h) (h_win h) (h_tck h) x (h_tcpopts h).

(** The IP header alone: what the IP checksum covers. *)
Definition ip_bytes (h : hdr) : list Z := mjoin (take 7 (fields h)).

Section Writes.
Context (h : hdr) (Hwf : wf_hdr h).
Let Hmid := wf_mid h Hwf.
Let Haddrs := wf_addrs h Hwf.
Let Hports := wf_ports h Hwf.
Abbreviation tcp := (tcp_at h).

Lemma write_field k f g off :
  fields h !! k = Some f → length f = length g → off = length (mjoin (take k (fields h))) →
  write_slice (render h) off g = Some (mjoin (<[k := g]> (fields h))).
Proof.
  intros E Hl ->. unfold render at 1. rewrite (field_split _ _ _ E), (field_update _ _ _ _ E).
  by apply write_slice_at.
Qed.

Lemma set_field8 k x y off :
  fields h !! k = Some [x] → off = length (mjoin (take k (fields h))) →
  set_index (render h) off y = Some (mjoin (<[k := [y]]> (fields h))).
Proof.
  intros E ->. unfold render at 1. rewrite (field_split _ _ _ E), (field_update _ _ _ _ E). apply set_index_at.
Qed.

Lemma write_len v : write_u16 (render h) 2 v = Some (render (set_len v h)).
Proof. apply (write_field 1 (to_be16 (h_len h))); [done|done|header_length]. Qed.
Lemma write_id v : write_u16 (render h) 4 v = Some (render (set_id v h)).
Proof. apply (write_field 2 (to_be16 (h_id h))); [done|done|header_length]. Qed.
Lemma write_ipck v : write_u16 (render h) 10 v = Some (render (set_ipck v h)).
Proof. apply (write_field 4 (to_be16 (h_ipck h))); [done|done|header_length]. Qed.
Lemma write_tcp_seq v : write_u32 (render h) (tcp + 4) v = Some (render (set_seq v h)).
Proof. apply (write_field 8 (to_be32 (h_seq h))); [done|done|unfold tcp_at; header_length]. Qed.
Lemma write_ack v : write_u32 (render h) (tcp + 8) v = Some (render (set_ack v h)).
Proof. apply (write_field 9 (to_be32 (h_ack h))); [done|done|unfold tcp_at; header_length]. Qed.
Lemma write_win v : write_u16 (render h) (tcp + 14) v = Some (render (set_win v h)).
Proof. apply (write_field 12 (to_be16 (h_win h))); [done|done|unfold tcp_at; header_length]. Qed.
Lemma write_tck v : write_u16 (render h) (tcp + 16) v = Some (render (set_tck v h)).
Proof. apply (write_field 13 (to_be16 (h_tck h))); [done|done|unfold tcp_at; header_length]. Qed.
Lemma write_urp v : write_u16 (render h) (tcp + 18) v = Some (render (set_urp v h)).
Proof. apply (write_field 14 (to_be16 (h_urp h))); [done|done|unfold tcp_at; header_length]. Qed.

Lemma render_nil : render h = render h ++ [].
Proof. by rewrite app_nil_r. Qed.

Lemma or_flags m : or_octet (render h) (tcp + 13) m = Some (render (set_flags (Z.lor (h_flags h) m) h)).
Proof.
  unfold or_octet. rewrite render_nil, read_flags, <- render_nil by done. cbn [mbind option_bind].
  apply (set_field8 11 (h_flags h)); [done|unfold tcp_at; header_length].
Qed.
Lemma clear_flags m :
  clear_octet (render h) (tcp + 13) m = Some (render (set_flags (Z.land (h_flags h) (bit_not 8 m)) h)).
Proof.
  unfold clear_octet. rewrite render_nil, read_flags, <- render_nil by done. cbn [mbind option_bind].
  apply (set_field8 11 (h_flags h)); [done|unfold tcp_at; header_length].
Qed.

Lemma add_id d : add_u16 (render h) 4 d = Some (render (set_id (wrapping_add 16 (h_id h) d) h)).
Proof. unfold add_u16. rewrite render_nil, read_id, <- render_nil by done. apply write_id. Qed.
Lemma add_win d : add_u16 (render h) (tcp + 14) d = Some (render (set_win (wrapping_add 16 (h_win h) d) h)).
Proof. unfold add_u16. rewrite render_nil, read_win, <- render_nil by done. apply write_win. Qed.
Lemma add_seq d : add_u32 (render h) (tcp + 4) d = Some (render (set_seq (wrapping_add 32 (h_seq h) d) h)).
Proof. unfold add_u32. rewrite render_nil, read_tcp_seq, <- render_nil by done. apply write_tcp_seq. Qed.
Lemma add_ack d : add_u32 (render h) (tcp + 8) d = Some (render (set_ack (wrapping_add 32 (h_ack h) d) h)).
Proof. unfold add_u32. rewrite render_nil, read_ack, <- render_nil by done. apply write_ack. Qed.

(** Clearing the IP checksum octet by octet. *)
Lemma clear_ipck : ∃ x, set_index (render h) 10 0 = Some x ∧ set_index x 11 0 = Some (render (set_ipck 0 h)).
Proof.
  exists (mjoin (take 4 (fields h)) ++ 0 :: h_ipck h mod 256 :: mjoin (drop 5 (fields h))).
  assert (length (mjoin (take 4 (fields h))) = 10%nat) as Hl by header_length.
  unfold render. rewrite (field_split (fields h) 4 (to_be16 (h_ipck h))) by done. cbn [to_be16 app]. split.
  - rewrite <- Hl. apply set_index_at.
  - rewrite (field_split (fields (set_ipck 0 h)) 4 (to_be16 0)) by done.
    change (take 4 (fields (set_ipck 0 h))) with (take 4 (fields h)).
    change (drop 5 (fields (set_ipck 0 h))) with (drop 5 (fields h)).
    rewrite (cons_middle 0), (app_assoc (mjoin (take 4 (fields h)))).
    replace 11%nat with (length (mjoin (take 4 (fields h)) ++ [0])) by (rewrite length_app, Hl; done).
    rewrite set_index_at. by rewrite <- app_assoc.
Qed.

Lemma slice_ip : slice (render h) 0 tcp = Some (ip_bytes h).
Proof.
  unfold render. rewrite <- (take_drop 7 (fields h)), join_app, slice_Some; fold (ip_bytes h).
  - rewrite drop_0, Nat.sub_0_r. rewrite take_app_length'; [done|]. unfold ip_bytes, tcp_at. header_length.
  - lia.
  - rewrite length_app. unfold ip_bytes, tcp_at. header_length.
Qed.
End Writes.

Lemma wf_set_len v h : wf_hdr h → is_u16 v → wf_hdr (set_len v h).
Proof. intros [] ?. by split. Qed.
Lemma wf_set_id v h : wf_hdr h → is_u16 v → wf_hdr (set_id v h).
Proof. intros [] ?. by split. Qed.
Lemma wf_set_ipck v h : wf_hdr h → is_u16 v → wf_hdr (set_ipck v h).
Proof. intros [] ?. by split. Qed.
Lemma wf_set_seq v h : wf_hdr h → is_u32 v → wf_hdr (set_seq v h).
Proof. intros [] ?. by split. Qed.
Lemma wf_set_ack v h : wf_hdr h → is_u32 v → wf_hdr (set_ack v h).
Proof. intros [] ?. by split. Qed.
Lemma wf_set_flags v h : wf_hdr h → is_u8 v → wf_hdr (set_flags v h).
Proof. intros [] ?. by split. Qed.
Lemma wf_set_win v h : wf_hdr h → is_u16 v → wf_hdr (set_win v h).
Proof. intros [] ?. by split. Qed.
Lemma wf_set_tck v h : wf_hdr h → is_u16 v → wf_hdr (set_tck v h).
Proof. intros [] ?. by split. Qed.
Lemma wf_set_urp v h : wf_hdr h → is_u16 v → wf_hdr (set_urp v h).
Proof. intros [] ?. by split. Qed.

(** ** Parsing *)

(** A header of an IPv4 packet that carries TCP. *)
Record tcp_hdr (h : hdr) : Prop := {
  tcp_wf : wf_hdr h;
  tcp_version : Z.shiftr (h_vh h) 4 = 4;
  tcp_protocol : h_mid h !! 3%nat = Some IPPROTO_TCP;
  tcp_data_offset : (Z.to_nat (Z.shiftr (h_off h) 4) * 4)%nat = (20 + length (h_tcpopts h))%nat
}.

(** The packet splits into its header, its payload and what is beyond its total length. *)
Record parsed_as (p : ParsedTcpPacket) (h : hdr) (data rest : list Z) : Prop := {
  pa_packet : packet p = render h ++ data ++ rest;
  pa_tcp : tcp_hdr h;
  pa_total : total_len p = Z.to_nat (h_len h);
  pa_data : Z.to_nat (h_len h) = (length (render h) + length data)%nat;
  pa_ip : ip_header_len p = tcp_at h;
  pa_offset : tcp_offset p = tcp_at h;
  pa_header : header_len p = length (render h)
}.

Lemma twenty_octets (l : list Z) : (20 ≤ length l)%nat → ∃ a b c d e f g h i j k m n o p q r s t u l',
  l = [a; b; c; d; e; f; g; h; i; j; k; m; n; o; p; q; r; s; t; u] ++ l'.
Proof.
  intros H. do 20 (destruct l as [|? l]; [cbn in H; lia|]). do 21 eexists. reflexivity.
Qed.

Lemma bytes_cons x l : bytes (x :: l) ↔ is_u8 x ∧ bytes l.
Proof. apply Forall_cons. Qed.

(** Any octets of the right lengths are a header. *)
Lemma split_header (l : list Z) (ip tcph : nat) b0 b12 :
  bytes l → l !! 0%nat = Some b0 → l !! (ip + 12)%nat = Some b12 →
  (Z.to_nat (Z.land b0 0x0f) * 4)%nat = ip → (20 ≤ ip)%nat → (20 ≤ tcph)%nat → length l = (ip + tcph)%nat →
  ∃ h, l = render h ∧ wf_hdr h ∧ h_vh h = b0 ∧ h_off h = b12 ∧ tcp_at h = ip ∧ length (h_tcpopts h) = (tcph - 20)%nat.
Proof.
  intros Hb E0 E12 Hihl Hip Htcp Hlen.
  destruct (twenty_octets l) as (a0 & a1 & a2 & a3 & a4 & a5 & a6 & a7 & a8 & a9 & a10 & a11 & a12 & a13 & a14 & a15
    & a16 & a17 & a18 & a19 & l1 & ->); [lia|].
  rewrite length_app in Hlen. cbn [length] in Hlen. injection E0 as ->.
  rewrite <- (take_drop (ip - 20) l1) in *. set (opts := take (ip - 20) l1) in *.
  assert (length opts = (ip - 20)%nat) as Hopts by (subst opts; rewrite length_take; rewrite length_app, length_drop, length_take in Hlen; lia).
  set (l2 := drop (ip - 20) l1) in *. clearbody opts l2.
  destruct (twenty_octets l2) as (c0 & c1 & c2 & c3 & c4 & c5 & c6 & c7 & c8 & c9 & c10 & c11 & c12 & c13 & c14 & c15
    & c16 & c17 & c18 & c19 & topts & ->); [rewrite length_app in Hlen; lia|].
  exists (mkHdr b0 a1 (from_be16 a2 a3) (from_be16 a4 a5) [a6; a7; a8; a9] (from_be16 a10 a11)
    [a12; a13; a14; a15; a16; a17; a18; a19] opts [c0; c1; c2; c3] (from_be32 c4 c5 c6 c7) (from_be32 c8 c9 c10 c11)
    c12 c13 (from_be16 c14 c15) (from_be16 c16 c17) (from_be16 c18 c19) topts).
  rewrite !bytes_app, !bytes_cons in Hb. destruct Hb as [Ha [Ho [Hc Ht]]]. 
  assert (c12 = b12) as ->.
  { rewrite lookup_app_r in E12 by (cbn; lia). rewrite lookup_app_r in E12 by (rewrite Hopts; cbn; lia).
    replace (_ - _ - _)%nat with 12%nat in E12 by (rewrite Hopts; cbn; lia). by injection E12. }
  split_and!; cbn [h_vh h_off h_tcpopts]; try done.
  - unfold render. cbn [fields h_vh h_tos h_len h_id h_mid h_ipck h_addrs h_ipopts h_ports h_seq h_ack h_off h_flags
      h_win h_tck h_urp h_tcpopts mjoin list_join]. rewrite !to_be16_from_be16, !to_be32_from_be32 by tauto.
    by rewrite !app_nil_r.
  - split; cbn; try tauto; try (by apply from_be16_u16; tauto).
    + unfold from_be32, is_u in *. lia.
    + unfold from_be32, is_u in *. lia.
    + unfold tcp_at; cbn. lia.
    + rewrite !bytes_cons, !bytes_app, !bytes_cons. tauto.
  - unfold tcp_at; cbn. lia.
  - rewrite !length_app in Hlen. cbn in Hlen. lia.
Qed.

Lemma read_u16_in_range l off : (off + 2 ≤ length l)%nat → bytes l → ∃ v, read_u16 l off = Some v ∧ is_u16 v.
Proof.
  intros H Hb. destruct (lookup_lt_is_Some_2 l off) as [a Ha]; [lia|].
  destruct (lookup_lt_is_Some_2 l (off + 1)) as [b Hb']; [lia|].
  exists (from_be16 a b). unfold read_u16, index. rewrite Ha, Hb'. split; [done|].
  apply from_be16_u16; by eapply bytes_lookup.
Qed.

Lemma read_u16_app l k off : (off + 2 ≤ length l)%nat → read_u16 (l ++ k) off = read_u16 l off.
Proof. intros H. unfold read_u16, index. by rewrite !lookup_app_l by lia. Qed.


(** [parse] never panics, and what it accepts is a TCP/IP packet. *)
Lemma parse_spec pkt : bytes pkt → ∃ r, parse pkt = Some r ∧
  ∀ p, r = Some p → packet p = pkt ∧ ∃ h data rest, parsed_as p h data rest.
Proof.
  intros Hb. unfold parse. case_decide as Hlen; [by eexists|].
  destruct (lookup_lt_is_Some_2 pkt 0) as [b0 E0]; [lia|]. change (index pkt 0) with (pkt !! 0%nat). rewrite E0, bind_some.
  destruct (negb _) eqn:Ev; [by eexists|]. apply negb_false_iff, Z.eqb_eq in Ev.
  set (ip := (Z.to_nat (Z.land b0 0x0f) * 4)%nat). case_decide as Hip; [by eexists|]. apply Decidable.not_or in Hip as [Hip1 Hip2].
  destruct (read_u16_in_range pkt 2) as (tl & Etl & Htl); [lia|done|]. rewrite Etl, bind_some.
  case_decide as Htot; [by eexists|]. apply Decidable.not_or in Htot as [Ht1 Ht2].
  destruct (lookup_lt_is_Some_2 pkt 9) as [b9 E9]; [lia|]. change (index pkt 9) with (pkt !! 9%nat). rewrite E9, bind_some.
  destruct (negb _) eqn:Ep; [by eexists|]. apply negb_false_iff, Z.eqb_eq in Ep. subst b9.
  destruct (lookup_lt_is_Some_2 pkt (ip + 12)) as [b12 E12]; [lia|]. change (index pkt (ip + 12)) with (pkt !! (ip + 12)%nat). rewrite E12, bind_some.
  set (tcph := (Z.to_nat (Z.shiftr b12 4) * 4)%nat). case_decide as Htcp; [by eexists|]. apply Decidable.not_or in Htcp as [Ht3 Ht4].
  eexists. split; [done|]. intros p [= <-]. split; [done|]. cbn [packet].
  set (n := (ip + tcph)%nat). assert (n ≤ length pkt)%nat by lia.
  destruct (split_header (take n pkt) ip tcph b0 b12) as (h & Eh & Hwf & Hvh & Hoff & Hat & Hto);
    try (rewrite lookup_take_lt by lia; done); try lia; [by apply Forall_take|rewrite length_take; lia|].
  assert (length (render h) = n) as Hl by (rewrite <- Eh, length_take; lia).
  assert (pkt = render h ++ drop n pkt) as Epkt by (rewrite <- Eh; by rewrite take_drop).
  assert (h_len h = tl) as Hhl.
  { rewrite Epkt, (read_len h Hwf) in Etl. by injection Etl. }
  assert (h_mid h !! 3%nat = Some IPPROTO_TCP) as Hmid.
  { pose proof (slice_mid h Hwf (drop n pkt)) as Hs. rewrite <- Epkt in Hs.
    rewrite slice_Some in Hs by lia. injection Hs as <-. rewrite lookup_take_lt, lookup_drop by lia. done. }
  exists h, (take (Z.to_nat tl - n) (drop n pkt)), (drop (Z.to_nat tl - n) (drop n pkt)).
  split; cbn [packet total_len ip_header_len tcp_offset header_len]; rewrite ?Hhl, ?Hl; try done.
  - by rewrite take_drop.
  - split; [done|by rewrite Hvh|done|rewrite Hoff, Hto; lia].
  - rewrite length_take, length_drop. lia.
Qed.

Lemma parse_render h data rest : tcp_hdr h → Z.to_nat (h_len h) = (length (render h) + length data)%nat →
  parse (render h ++ data ++ rest) =
    Some (Some (mkParsed (render h ++ data ++ rest) (Z.to_nat (h_len h)) (tcp_at h) (tcp_at h) (length (render h)))).
Proof.
  intros [Hwf Hv Hm Ho] Hd. pose proof (length_render h Hwf) as Hl. unfold parse.
  assert (20 ≤ tcp_at h)%nat by (unfold tcp_at; lia).
  rewrite decide_False by (rewrite length_app; lia). rewrite read_vh by done. rewrite bind_some, Hv.
  cbn [Z.eqb Pos.eqb negb]. rewrite (wf_ihl h Hwf). rewrite decide_False by (rewrite length_app; lia).
  rewrite read_len by done. rewrite bind_some, decide_False by (rewrite !length_app; lia).
  assert (index (render h ++ data ++ rest) 9 = Some IPPROTO_TCP) as ->.
  { pose proof (slice_mid h Hwf (data ++ rest)) as Hs. rewrite slice_Some in Hs by (rewrite ?length_app; lia).
    injection Hs as Hs. rewrite <- Hs in Hm. rewrite lookup_take_lt, lookup_drop in Hm by lia. done. }
  rewrite bind_some, Z.eqb_refl. cbn [negb]. rewrite read_off by done. rewrite bind_some.
  rewrite decide_False by lia. rewrite Ho, Hl. do 3 f_equal. lia.
Qed.
