(* ===== verification/VjProofs.v ===== *)
(** * Correctness of Van Jacobson compression *)
From S2P Require Import Prelude Framing Vj VjHeader.

(** ** Values *)
Lemma read_u8_at pre x suf : read_u8 (pre ++ x :: suf) (length pre) = Some (x, S (length pre)).
Proof. unfold read_u8. by rewrite lookup_app_r, Nat.sub_diag by lia. Qed.

Lemma decode_long pre v suf : is_u16 v →
  decode_value (pre ++ (0 :: to_be16 v) ++ suf) (length pre) = Some (v, length (pre ++ 0 :: to_be16 v)).
Proof.
  intros Hv. unfold decode_value. cbn [app]. rewrite read_u8_at. cbn [mbind option_bind Z.eqb to_be16 app].
  rewrite decide_False by (rewrite length_app; cbn; lia).
  rewrite !lookup_app_r by lia. replace (S (length pre) - length pre)%nat with 1%nat by lia.
  replace (S (S (length pre)) - length pre)%nat with 2%nat by lia. cbn.
  rewrite split_u16 by done. do 2 f_equal. rewrite length_app. cbn. lia.
Qed.

Lemma decode_short pre v suf : 0 < v < 256 →
  decode_value (pre ++ [v] ++ suf) (length pre) = Some (v, length (pre ++ [v])).
Proof.
  intros Hv. unfold decode_value. cbn [app]. rewrite read_u8_at. cbn [mbind option_bind].
  destruct (Z.eqb_spec v 0); [lia|]. rewrite length_app. cbn. do 2 f_equal. lia.
Qed.

Lemma decode_zero_allowed pre v suf : is_u16 v →
  decode_value (pre ++ encode_zero_allowed v ++ suf) (length pre) = Some (v, length (pre ++ encode_zero_allowed v)).
Proof.
  intros Hv. unfold encode_zero_allowed. destruct (_ || _) eqn:E; [by apply decode_long|].
  rewrite wrap_small by (unfold is_u in *; lia). apply decode_short. unfold is_u in *. lia.
Qed.

Lemma decode_nonzero pre v suf : is_u16 v → v ≠ 0 →
  decode_value (pre ++ encode_nonzero v ++ suf) (length pre) = Some (v, length (pre ++ encode_nonzero v)).
Proof.
  intros Hv Hne. unfold encode_nonzero. destruct (_ <=? _) eqn:E; [by apply decode_long|].
  rewrite wrap_small by (unfold is_u in *; lia). apply decode_short. unfold is_u in *. lia.
Qed.

(** ** The checksum loop *)
Lemma sum16_u32 l : ∀ s, is_u32 s → is_u32 (sum16 s l).
Proof.
  assert (∀ n l s, (length l ≤ n)%nat → is_u32 s → is_u32 (sum16 s l)) as H; [|intros s Hs; by apply (H (length l))].
  induction n as [|n IH]; intros [|a [|b k]] s Hl Hs; cbn in *; try done; try lia; try (by apply is_u_wrap).
  apply IH; [lia|]. by apply is_u_wrap.
Qed.

(** After two rounds the loop of [checksum16] has stopped. *)
Lemma fold16_fixed s : is_u32 s → is_u16 (fold16 (fold16 s)).
Proof.
  intros Hs. assert (∀ z, 0 ≤ z → Z.land z 0xffff = z mod 65536 ∧ Z.shiftr z 16 = z / 65536) as Hz.
  { intros z Hz. split; [apply (Z.land_ones z 16); lia|by rewrite Z.shiftr_div_pow2]. }
  assert (∀ z, 0 ≤ z → fold16 z = if z / 65536 =? 0 then z else z mod 65536 + z / 65536) as Hf.
  { intros z Hz'. unfold fold16. by destruct (Hz z Hz') as [-> ->]. }
  unfold is_u in *. rewrite (Hf s) by lia.
  assert (0 ≤ (if s / 65536 =? 0 then s else s mod 65536 + s / 65536) ≤ 131070) as Hb by (destruct (_ =? _) eqn:E; zdiv).
  revert Hb. generalize (if s / 65536 =? 0 then s else s mod 65536 + s / 65536) as z. intros z Hb.
  rewrite Hf by lia. destruct (_ =? _) eqn:E; zdiv.
Qed.

Lemma checksum16_u16 l : is_u16 (checksum16 l).
Proof. apply is_u_bit_not; [lia|]. apply is_u_wrap. lia. Qed.

(** ** The change octet *)
Definition chg (i p s a w u : bool) : Z :=
  Z.b2z u + 2 * Z.b2z w + 4 * Z.b2z a + 8 * Z.b2z s + 16 * Z.b2z p + 32 * Z.b2z i.

Lemma chg_bits i p s a w u :
  negb (Z.land (chg i p s a w u) NEW_U =? 0) = u ∧ negb (Z.land (chg i p s a w u) NEW_W =? 0) = w ∧
  negb (Z.land (chg i p s a w u) NEW_A =? 0) = a ∧ negb (Z.land (chg i p s a w u) NEW_S =? 0) = s ∧
  negb (Z.land (chg i p s a w u) TCP_PUSH_BIT =? 0) = p ∧ negb (Z.land (chg i p s a w u) NEW_I =? 0) = i ∧
  Z.land (chg i p s a w u) NEW_C = 0 ∧ Z.land (Z.lor (chg i p s a w u) NEW_C) NEW_C = NEW_C ∧
  Z.land (Z.lor (chg i p s a w u) NEW_C) (bit_not 8 NEW_C) = chg i p s a w u ∧
  Z.land (chg i p s a w u) SPECIALS_MASK = chg false false s a w u.
Proof. destruct i, p, s, a, w, u; vm_compute; repeat split. Qed.

(** ** The octets patched into a header *)

(** The header that the deltas of the general form rebuild. *)
Lemma wrapping_delta w x y : 0 ≤ w → is_u w x → wrapping_add w y (wrapping_sub w x y) = x.
Proof.
  intros Hw Hx. unfold wrapping_add, wrapping_sub, wrap. rewrite Z.add_mod_idemp_r by lia.
  replace (y + (x - y)) with x by lia. by apply Z.mod_small.
Qed.

(** A field that is present is decoded and applied; one that is absent is equal. *)
Lemma apply_field_present payload pre enc suf v h h' f :
  payload = pre ++ enc ++ suf → decode_value (pre ++ enc ++ suf) (length pre) = Some (v, length (pre ++ enc)) →
  f h v = Some h' → apply_field true payload (length pre) h f = Some (Some (length (pre ++ enc), h')).
Proof. intros -> Hd Hf. unfold apply_field. rewrite Hd, Hf. done. Qed.

(** Flags: the push and urgent bits follow the change octet. *)
Definition flag_bit (b : bool) (mask f : Z) : Z := if b then Z.lor f mask else Z.land f (bit_not 8 mask).

Lemma flags_rebuilt o n :
  is_u8 o → is_u8 n → Z.land (Z.lxor n o) (bit_not 8 (Z.lor TCP_PUSH TCP_URG)) = 0 →
  flag_bit (negb (Z.land n TCP_URG =? 0)) TCP_URG (flag_bit (negb (Z.land n TCP_PUSH =? 0)) TCP_PUSH o) = n ∧
  (Z.land n TCP_URG = Z.land o TCP_URG → flag_bit (negb (Z.land n TCP_PUSH =? 0)) TCP_PUSH o = n).
Proof.
  intros Ho Hn H.
  pose proof (all_u8_spec (λ o, all_u8 (λ n,
    negb (Z.land (Z.lxor n o) (bit_not 8 (Z.lor TCP_PUSH TCP_URG)) =? 0) ||
    ((flag_bit (negb (Z.land n TCP_URG =? 0)) TCP_URG (flag_bit (negb (Z.land n TCP_PUSH =? 0)) TCP_PUSH o) =? n) &&
     (negb (Z.land n TCP_URG =? Z.land o TCP_URG) || (flag_bit (negb (Z.land n TCP_PUSH =? 0)) TCP_PUSH o =? n)))))
    o ltac:(vm_compute; reflexivity) Ho) as Hall. cbv beta in Hall.
  apply all_u8_spec with (z := n) in Hall; [|done]. cbv beta in Hall. rewrite H in Hall. cbn [Z.eqb negb orb] in Hall.
  apply andb_true_iff in Hall as [H1 H2]. split; [by apply Z.eqb_eq|]. intros E. rewrite E, Z.eqb_refl in H2. cbn in H2.
  by apply Z.eqb_eq.
Qed.

(** ** What the compressor decides *)
Section Plan.
Context (o n : hdr).
Definition dw := wrapping_sub 16 (h_win n) (h_win o).
Definition da := wrapping_sub 32 (h_ack n) (h_ack o).
Definition ds := wrapping_sub 32 (h_seq n) (h_seq o).
Definition di := wrapping_sub 16 (h_id n) (h_id o).
Definition bu := negb (Z.land (h_flags n) TCP_URG =? 0).
Definition bw := negb (dw =? 0).
Definition ba := negb (da =? 0).
Definition bs := negb (ds =? 0).
Definition bi := negb (di =? 1).
Definition bp := negb (Z.land (h_flags n) TCP_PUSH =? 0).
(** The payload length of the previous packet. *)
Definition dlen : Z := Z.of_nat (Z.to_nat (h_len o) - length (render o)).
Definition enc_u := if bu then encode_zero_allowed (h_urp n) else [].
Definition enc_w := if bw then encode_nonzero dw else [].
Definition enc_a := if ba then encode_nonzero (da as_u16) else [].
Definition enc_s := if bs then encode_nonzero (ds as_u16) else [].
Definition enc_i := if bi then encode_zero_allowed di else [].

Inductive planned : Z → list Z → Prop :=
| plan_general :
    chg false false bs ba bw bu ≠ SPECIAL_I → chg false false bs ba bw bu ≠ SPECIAL_D →
    planned (chg bi bp bs ba bw bu) (enc_u ++ enc_w ++ enc_a ++ enc_s ++ enc_i)
| plan_I : bu = false → bw = false → ds = da → ds = dlen → planned (chg bi bp true false true true) enc_i
| plan_D : bu = false → bw = false → ba = false → ds = dlen → planned (chg bi bp true true true true) enc_i.

(** What stays the same from the slot's header to the new one. *)
Record stable : Prop := {
  st_vh : h_vh n = h_vh o; st_tos : h_tos n = h_tos o; st_mid : h_mid n = h_mid o; st_off : h_off n = h_off o;
  st_ipopts : h_ipopts n = h_ipopts o; st_tcpopts : h_tcpopts n = h_tcpopts o;
  st_length : length (render o) = length (render n)
}.
End Plan.

Lemma and_then_true a b : and_then a b = Some true → a = Some true ∧ b = Some true.
Proof. destruct a as [[]|]; cbn; intros H; by try discriminate. Qed.

Lemma and_then_Some b c : and_then (Some b) (Some c) = Some (b && c).
Proof. by destruct b. Qed.

Lemma slices_equal_Some x y a b : x = Some a → y = Some b → slices_equal x y = Some (bool_decide (a = b)).
Proof. by intros -> ->. Qed.

(** Accessors on a header with nothing behind it. *)
Ltac bare h := rewrite (render_nil h).

Lemma stable_inv o p n data rest : wf_hdr o → parsed_as p n data rest →
  ∃ b, stable_header_matches (render o) p = Some b ∧ (b = true → stable o n).
Proof.
  intros Ho [Epkt [Hn _ _ _] _ _ Eip Eoff Ehl]. unfold stable_header_matches.
  assert (index (render o) 0 = Some (h_vh o)) as -> by done.
  rewrite bind_some, (wf_ihl o Ho), Epkt, Eip, Eoff, Ehl.
  rewrite (slices_equal_Some _ _ [h_vh o; h_tos o] [h_vh n; h_tos n]); [|bare o; by apply slice_first|by apply slice_first].
  rewrite (slices_equal_Some _ _ (h_mid o) (h_mid n)); [|bare o; by apply slice_mid|by apply slice_mid].
  rewrite (slices_equal_Some _ _ (h_ipopts o) (h_ipopts n)); [|bare o; by apply slice_ipopts|by apply slice_ipopts].
  rewrite (slices_equal_Some _ _ (h_tcpopts o) (h_tcpopts n));
    [|rewrite (render_nil o) at 1; by apply slice_tcpopts|by apply slice_tcpopts].
  assert (index (render o) (tcp_at o + 12) = Some (h_off o)) as -> by (bare o; by apply read_off).
  rewrite bind_some, read_off, bind_some, !and_then_Some by done.
  eexists. split; [done|]. rewrite !andb_true_iff, !bool_decide_eq_true, Z.eqb_eq.
  intros (H1 & H2 & H3 & H4 & H5 & H6). injection H2 as H2 H2'. by split.
Qed.

Lemma same_flow_inv o p n data rest : wf_hdr o → parsed_as p n data rest →
  ∃ b, same_flow (render o) p = Some b ∧ (b = true → h_addrs n = h_addrs o ∧ h_ports n = h_ports o).
Proof.
  intros Ho [Epkt [Hn _ _ _] _ _ _ Eoff _]. unfold same_flow, get_range.
  assert (index (render o) 0 = Some (h_vh o)) as -> by done.
  rewrite bind_some, (wf_ihl o Ho), Epkt, Eoff. bare o.
  rewrite !slice_addrs, !slice_ports by done. eexists. split; [done|].
  rewrite andb_true_iff, !bool_decide_eq_true. by intros [[= ->] [= ->]].
Qed.

(** What [build_compressed_packet] reads of the old and of the new header. *)
Record readable (h : hdr) (l : list Z) : Prop := {
  rd_flags : index l (tcp_at h + 13) = Some (h_flags h);
  rd_urp : read_u16 l (tcp_at h + 18) = Some (h_urp h);
  rd_win : read_u16 l (tcp_at h + 14) = Some (h_win h);
  rd_ack : read_u32 l (tcp_at h + 8) = Some (h_ack h);
  rd_seq : read_u32 l (tcp_at h + 4) = Some (h_seq h);
  rd_len : read_u16 l 2 = Some (h_len h);
  rd_id : read_u16 l 4 = Some (h_id h)
}.

Lemma render_readable h suf : wf_hdr h → readable h (render h ++ suf).
Proof.
  intros H. split;
    [by apply read_flags|by apply read_urp|by apply read_win|by apply read_ack|by apply read_tcp_seq|by apply read_len|by apply read_id].
Qed.

(** The change octet as it is accumulated. *)
Definition opt_bit (b : bool) (m : Z) : Z := if b then m else 0.

Lemma chg_acc (u w a s i p : bool) :
  let c3 := Z.lor (Z.lor (Z.lor (opt_bit u NEW_U) (opt_bit w NEW_W)) (opt_bit a NEW_A)) (opt_bit s NEW_S) in
  c3 = chg false false s a w u ∧ Z.lor (Z.lor c3 (opt_bit i NEW_I)) (opt_bit p TCP_PUSH_BIT) = chg i p s a w u ∧
  Z.lor (Z.lor SPECIAL_I (opt_bit i NEW_I)) (opt_bit p TCP_PUSH_BIT) = chg i p true false true true ∧
  Z.lor (Z.lor SPECIAL_D (opt_bit i NEW_I)) (opt_bit p TCP_PUSH_BIT) = chg i p true true true true ∧
  (c3 = Z.lor NEW_S NEW_A → u = false ∧ w = false ∧ a = true ∧ s = true) ∧
  (c3 = NEW_S → u = false ∧ w = false ∧ a = false ∧ s = true) .
Proof. destruct u, w, a, s, i, p; vm_compute; repeat split; discriminate. Qed.

(** [changes |= bit; encode(..)] under a condition. *)
Lemma acc_if (b : bool) (m c : Z) (e v : list Z) :
  (if b then (Z.lor c m, e ++ v) else (c, e)) = (Z.lor c (opt_bit b m), e ++ if b then v else []).
Proof. destruct b; cbn [opt_bit]; [done|]. by rewrite Z.lor_0_r, app_nil_r. Qed.
Lemma acc_if1 (b : bool) (m c : Z) : (if b then Z.lor c m else c) = Z.lor c (opt_bit b m).
Proof. destruct b; cbn [opt_bit]; [done|]. by rewrite Z.lor_0_r. Qed.

(** A compressed packet describes the new header in terms of the old one. *)
Record compressed_as (o n : hdr) (data : list Z) (ppp : PppPacket) : Prop := {
  ca_protocol : protocol ppp = PPP_VJ_COMPRESSED_TCP;
  ca_stable : stable o n;
  ca_urp : bu n = true ∨ h_urp n = h_urp o;
  ca_flags : Z.land (Z.lxor (h_flags n) (h_flags o)) (bit_not 8 (Z.lor TCP_PUSH TCP_URG)) = 0;
  ca_ack : da o n ≤ 0xffff; ca_seq : ds o n ≤ 0xffff;
  ca_plan : ∃ changes enc, planned o n changes enc ∧ payload ppp = [changes] ++ to_be16 (h_tck n) ++ enc ++ data
}.

Lemma build_inv o p n data rest : wf_hdr o → parsed_as p n data rest →
  ∃ r, build_compressed_packet p (render o) = Some r ∧ ∀ ppp, r = Some ppp → compressed_as o n data ppp.
Proof.
  intros Ho Hp. pose proof Hp as [Epkt [Hn _ _ _] Etl Ed _ Eoff Ehl]. unfold build_compressed_packet.
  destruct (stable_inv o p n data rest Ho Hp) as (st & -> & Hst). rewrite bind_some.
  destruct st; cbn [negb]; [|by eexists]. specialize (Hst eq_refl).
  assert (index (render o) 0 = Some (h_vh o)) as -> by done. rewrite bind_some, (wf_ihl o Ho), Eoff, Epkt.
  pose proof (render_readable o [] Ho) as Ro. rewrite <- (render_nil o) in Ro.
  pose proof (render_readable n (data ++ rest) Hn) as Rn.
  rewrite (rd_flags _ _ Ro), (rd_flags _ _ Rn), (rd_urp _ _ Ro), (rd_urp _ _ Rn), (rd_win _ _ Ro), (rd_win _ _ Rn).
  rewrite (rd_ack _ _ Ro), (rd_ack _ _ Rn), (rd_seq _ _ Ro), (rd_seq _ _ Rn), (rd_len _ _ Ro), (rd_len _ _ Rn).
  rewrite (rd_id _ _ Ro), (rd_id _ _ Rn). rewrite !bind_some. fold (bu n).
  match goal with |- ∃ r, ?x ≫= ?k = _ ∧ _ =>
    assert (x = Some None ∨ x = Some (Some (opt_bit (bu n) NEW_U, enc_u n)) ∧ (bu n = true ∨ h_urp n = h_urp o)) as [-> | [-> Hurp]]
  end.
  { unfold enc_u. destruct (bu n); [right; split; [done|by left]|]. cbn [mbind option_bind].
    destruct (Z.eqb_spec (h_urp n) (h_urp o)); [right; split; [done|by right]|by left]. }
  { by eexists. }
  rewrite bind_some. destruct (negb _) eqn:Efl; [by eexists|]. apply negb_false_iff, Z.eqb_eq in Efl.
  rewrite !bind_some. fold (dw o n) (bw o n). rewrite acc_if. cbv beta iota. rewrite !bind_some. fold (da o n) (ba o n).
  destruct (ba o n && _) eqn:Ea; [by eexists|]. rewrite acc_if. cbv beta iota. rewrite !bind_some. fold (ds o n) (bs o n).
  destruct (bs o n && _) eqn:Es; [by eexists|]. rewrite acc_if. cbv beta iota. rewrite !bind_some.
  fold (enc_w o n) (enc_a o n) (enc_s o n) (dlen o).
  destruct (chg_acc (bu n) (bw o n) (ba o n) (bs o n) (bi o n) (bp n)) as (E3 & E5 & EI & ED & H9 & H1).
  assert (da o n ≤ 0xffff) by (unfold ba in Ea; lia). assert (ds o n ≤ 0xffff) by (unfold bs in Es; lia).
  set (c3 := Z.lor (Z.lor _ _) _) in *. set (e3 := ((_ ++ _) ++ _) ++ _).
  match goal with |- ∃ r, match ?x with _ => _ end = _ ∧ _ =>
    assert (x = None ∨ ∃ ch enc, x = Some (ch, enc) ∧
      planned o n (Z.lor (Z.lor ch (opt_bit (bi o n) NEW_I)) (opt_bit (bp n) TCP_PUSH_BIT)) (enc ++ enc_i o n))
      as [-> | (ch & enc & -> & Hplan)]
  end; [|by eexists|].
  - assert (c3 ≠ SPECIAL_I → c3 ≠ SPECIAL_D →
      planned o n (Z.lor (Z.lor c3 (opt_bit (bi o n) NEW_I)) (opt_bit (bp n) TCP_PUSH_BIT)) (e3 ++ enc_i o n)) as Hgen.
    { intros N1 N2. rewrite E5. subst e3. rewrite <- !(assoc_L (++)). rewrite E3 in N1, N2. by apply plan_general. }
    destruct (Z.eqb_spec c3 0) as [E0|_].
    { destruct (_ || _); [by left|right]. exists c3, e3. split; [done|]. apply Hgen; rewrite E0; done. }
    destruct (Z.eqb_spec c3 SPECIAL_I); [by left|]. destruct (Z.eqb_spec c3 SPECIAL_D); [by left|]. cbn [orb]. right.
    destruct (Z.eqb_spec c3 (Z.lor NEW_S NEW_A)) as [E|_]; cbn [andb].
    { destruct (H9 E) as (? & ? & ? & ?). destruct ((ds o n =? da o n) && (ds o n =? dlen o)) eqn:Eq.
      - exists SPECIAL_I, []. split; [done|]. rewrite EI. apply plan_I; [done|done|lia|lia].
      - exists c3, e3. split; [by rewrite E|]. by apply Hgen. }
    destruct (Z.eqb_spec c3 NEW_S) as [E|_]; cbn [andb]; [|by exists c3, e3; split; [|apply Hgen]].
    destruct (H1 E) as (? & ? & ? & ?). destruct (ds o n =? dlen o) eqn:Eq; [|by exists c3, e3; split; [|apply Hgen]].
    exists SPECIAL_D, []. split; [done|]. rewrite ED. apply plan_D; [done|done|done|lia].
  - rewrite !bind_some. fold (di o n) (bi o n) (bp n). rewrite acc_if. cbv beta iota. rewrite slice_tck by done.
    rewrite bind_some, acc_if1. rewrite Ehl, Etl, (slice_app _ data rest), bind_some by (done || lia).
    eexists. split; [done|]. intros ppp [= <-]. split; try done. by eexists _, _.
Qed.

(** ** What the decompressor rebuilds *)
Lemma apply_field_step (b : bool) payload pre e suf h h' f v :
  payload = pre ++ (if b then e else []) ++ suf →
  (b = true → decode_value (pre ++ e ++ suf) (length pre) = Some (v, length (pre ++ e)) ∧ f h v = Some h') →
  (b = false → h' = h) →
  apply_field b payload (length pre) h f = Some (Some (length (pre ++ if b then e else []), h')).
Proof.
  intros Ep Ht Hf. destruct b.
  - destruct (Ht eq_refl) as [Hd Hv]. by eapply apply_field_present.
  - rewrite Hf, app_nil_r by done. done.
Qed.

Lemma wrapping_sub_0 w x y : 0 ≤ w → is_u w x → is_u w y → wrapping_sub w x y = 0 → x = y.
Proof.
  intros Hw Hx Hy E. rewrite <- (wrapping_delta w x y) by done. rewrite E.
  unfold wrapping_add. by rewrite Z.add_0_r, wrap_small.
Qed.

Section Rebuild.
Context (o n : hdr) (Ho : wf_hdr o) (Hn : wf_hdr n).

Lemma win_changed : bw o n = true → dw o n ≠ 0.
Proof. unfold bw. intros H. by apply negb_true_iff, Z.eqb_neq in H. Qed.
Lemma win_same : bw o n = false → h_win n = h_win o.
Proof.
  unfold bw, dw. intros H. apply negb_false_iff, Z.eqb_eq in H.
  by apply (wrapping_sub_0 16); [lia|apply wf_win|apply wf_win|].
Qed.
Lemma ack_same : ba o n = false → h_ack n = h_ack o.
Proof.
  unfold ba, da. intros H. apply negb_false_iff, Z.eqb_eq in H.
  by apply (wrapping_sub_0 32); [lia|apply wf_ack|apply wf_ack|].
Qed.
Lemma seq_same : bs o n = false → h_seq n = h_seq o.
Proof.
  unfold bs, ds. intros H. apply negb_false_iff, Z.eqb_eq in H.
  by apply (wrapping_sub_0 32); [lia|apply wf_seq|apply wf_seq|].
Qed.

(** A 32-bit delta that fits 16 bits survives the cast. *)
Lemma delta16 b d : b = negb (d =? 0) → 0 ≤ d ≤ 0xffff → b = true → is_u16 (d as_u16) ∧ d as_u16 ≠ 0 ∧ d as_u16 = d.
Proof.
  intros -> Hd H. apply negb_true_iff, Z.eqb_neq in H. rewrite wrap_small by (unfold is_u; lia). unfold is_u. lia.
Qed.

(** The header after the general form: window, ack, sequence, urgent. *)
Definition after_general (h : hdr) : hdr :=
  set_seq (h_seq n) (set_ack (h_ack n) (set_win (h_win n) (set_urp (h_urp n)
    (set_flags (flag_bit (bu n) TCP_URG (h_flags h)) h)))).

Lemma apply_general_correct i p payload pre suf h :
  wf_hdr h → tcp_at h = tcp_at o → h_win h = h_win o → h_ack h = h_ack o → h_seq h = h_seq o → h_urp h = h_urp o →
  (bu n = true ∨ h_urp n = h_urp o) → da o n ≤ 0xffff → ds o n ≤ 0xffff →
  payload = pre ++ enc_u n ++ enc_w o n ++ enc_a o n ++ enc_s o n ++ suf →
  apply_general (chg i p (bs o n) (ba o n) (bw o n) (bu n)) payload (length pre) (tcp_at o) (render h) =
    Some (Some (length (pre ++ enc_u n ++ enc_w o n ++ enc_a o n ++ enc_s o n), render (after_general h))).
Proof using Ho Hn.
  intros Hh Et Ew Ea Es Eu Hurp Hda Hds Ep. unfold apply_general, after_general.
  destruct (chg_bits i p (bs o n) (ba o n) (bw o n) (bu n)) as (-> & -> & -> & -> & _).
  set (h1 := set_flags (flag_bit (bu n) TCP_URG (h_flags h)) h).
  assert (wf_hdr h1) as H1.
  { apply wf_set_flags; [done|]. unfold flag_bit. pose proof (wf_flags h Hh) as Hf.
    destruct (bu n); [by apply is_u_lor|]. by apply is_u_land. }
  assert ((if bu n then or_octet (render h) (tcp_at o + 13) TCP_URG else clear_octet (render h) (tcp_at o + 13) TCP_URG)
    = Some (render h1)) as ->.
  { rewrite <- Et. subst h1. unfold flag_bit. destruct (bu n); [apply or_flags|apply clear_flags]; done. }
  rewrite bind_some.
  set (h2 := set_urp (h_urp n) h1). assert (wf_hdr h2) as H2 by (apply wf_set_urp; [done|by apply wf_urp]).
  rewrite (apply_field_step _ _ pre (encode_zero_allowed (h_urp n)) (enc_w o n ++ enc_a o n ++ enc_s o n ++ suf)
    (render h1) (render h2) _ (h_urp n)).
  2:{ exact Ep. }
  2:{ intros _. split; [apply decode_zero_allowed; by apply wf_urp|]. rewrite <- Et. by apply (write_urp h1). }
  2:{ intros E. subst h2 h1. rewrite E in Hurp. destruct Hurp as [?|Hurp]; [done|]. rewrite Hurp, <- Eu. by destruct h. }
  fold (enc_u n). rewrite bind_some. cbv beta iota. rewrite (assoc_L (++)) in Ep.
  set (h3 := set_win (h_win n) h2). assert (wf_hdr h3) as H3 by (apply wf_set_win; [done|by apply wf_win]).
  rewrite (apply_field_step _ _ (pre ++ enc_u n) (encode_nonzero (dw o n)) (enc_a o n ++ enc_s o n ++ suf)
    (render h2) (render h3) _ (dw o n)).
  2:{ exact Ep. }
  2:{ intros E. split; [apply decode_nonzero; [by apply is_u_wrap|by apply win_changed]|].
      rewrite <- Et. etrans; [by apply (add_win h2)|]. change (h_win h2) with (h_win h). rewrite Ew. unfold dw.
      rewrite wrapping_delta by (lia || by apply wf_win). done. }
  2:{ intros E. subst h3 h2 h1. rewrite (win_same E), <- Ew. by destruct h. }
  fold (enc_w o n). rewrite bind_some. cbv beta iota. rewrite (assoc_L (++)) in Ep.
  set (h4 := set_ack (h_ack n) h3). assert (wf_hdr h4) as H4 by (apply wf_set_ack; [done|by apply wf_ack]).
  assert (0 ≤ da o n) by (apply Z.mod_pos_bound; lia). assert (0 ≤ ds o n) by (apply Z.mod_pos_bound; lia).
  rewrite (apply_field_step _ _ ((pre ++ enc_u n) ++ enc_w o n) (encode_nonzero ((da o n) as_u16)) (enc_s o n ++ suf)
    (render h3) (render h4) _ ((da o n) as_u16)).
  2:{ exact Ep. }
  2:{ intros E. destruct (delta16 (ba o n) (da o n)) as (D1 & D2 & D3); [done|lia|done|].
      split; [by apply decode_nonzero|]. rewrite D3, <- Et. etrans; [by apply (add_ack h3)|].
      change (h_ack h3) with (h_ack h). rewrite Ea. unfold da. rewrite wrapping_delta by (lia || by apply wf_ack). done. }
  2:{ intros E. subst h4 h3 h2 h1. rewrite (ack_same E), <- Ea. by destruct h. }
  fold (enc_a o n). rewrite bind_some. cbv beta iota. rewrite (assoc_L (++)) in Ep.
  set (h5 := set_seq (h_seq n) h4).
  rewrite (apply_field_step _ _ (((pre ++ enc_u n) ++ enc_w o n) ++ enc_a o n) (encode_nonzero ((ds o n) as_u16)) suf
    (render h4) (render h5) _ ((ds o n) as_u16)).
  2:{ exact Ep. }
  2:{ intros E. destruct (delta16 (bs o n) (ds o n)) as (D1 & D2 & D3); [done|lia|done|].
      split; [by apply decode_nonzero|]. rewrite D3, <- Et. etrans; [by apply (add_seq h4)|].
      change (h_seq h4) with (h_seq h). rewrite Es. unfold ds. rewrite wrapping_delta by (lia || by apply wf_seq). done. }
  2:{ intros E. subst h5 h4 h3 h2 h1. rewrite (seq_same E), <- Es. by destruct h. }
  fold (enc_s o n). by rewrite <- !(assoc_L (++)).
Qed.

(** The slot's header with the TCP fields of the new one. *)
Definition with_tcp : hdr :=
  set_seq (h_seq n) (set_ack (h_ack n) (set_win (h_win n) (set_urp (h_urp n) (set_flags (h_flags n) (set_tck (h_tck n) o))))).
(** The slot's header when the deltas are applied. *)
Definition before_deltas : hdr := set_flags (flag_bit (bp n) TCP_PUSH (h_flags o)) (set_tck (h_tck n) o).

Lemma wf_before : wf_hdr before_deltas.
Proof using Ho Hn.
  apply wf_set_flags; [apply wf_set_tck; [done|by apply wf_tck]|]. pose proof (wf_flags o Ho).
  unfold flag_bit. destruct (bp n); [by apply is_u_lor|by apply is_u_land].
Qed.

Lemma len_before : length (render before_deltas) = length (render o).
Proof using Ho Hn. by rewrite !length_render by (done || apply wf_before). Qed.

Context (Hurp : bu n = true ∨ h_urp n = h_urp o).
Context (Hflags : Z.land (Z.lxor (h_flags n) (h_flags o)) (bit_not 8 (Z.lor TCP_PUSH TCP_URG)) = 0).
Context (Hda : da o n ≤ 0xffff) (Hds : ds o n ≤ 0xffff).
Context (Hurg : bu n = false → Z.land (h_flags o) TCP_URG = 0).

(** The special forms: the deltas are the previous payload length. *)
Lemma special_flags : bu n = false → flag_bit (bp n) TCP_PUSH (h_flags o) = h_flags n.
Proof using Ho Hn Hflags Hurg.
  intros E. apply (flags_rebuilt (h_flags o) (h_flags n)); [by apply wf_flags|by apply wf_flags|done|].
  rewrite Hurg by done. unfold bu in E. by apply negb_false_iff, Z.eqb_eq in E.
Qed.

Lemma special_tcp a : bu n = false → bw o n = false → a = h_ack n →
  set_seq (h_seq n) (set_ack a before_deltas) = with_tcp.
Proof using Ho Hn Hurp Hflags Hurg Hda Hds.
  intros E1 E2 ->. unfold before_deltas, with_tcp. rewrite special_flags, (win_same E2) by done.
  rewrite E1 in Hurp. destruct Hurp as [|Eu]; [done|]. rewrite Eu. by destruct o.
Qed.

Lemma add_seq_data h : wf_hdr h → tcp_at h = tcp_at o → h_seq h = h_seq o → ds o n = dlen o →
  add_u32 (render h) (tcp_at o + 4) ((dlen o) as_u32) = Some (render (set_seq (h_seq n) h)).
Proof using Ho Hn Hds.
  intros Hh Et Es E. rewrite <- E. rewrite wrap_small by (apply is_u_wrap; lia). rewrite <- Et, add_seq by done.
  rewrite Es. unfold ds. by rewrite wrapping_delta by (lia || by apply wf_seq).
Qed.

Lemma apply_specials_correct changes enc payload pre data :
  planned o n changes enc → payload = pre ++ enc ++ data →
  ∃ e, enc = e ++ enc_i o n ∧
    apply_specials changes payload (length pre) (tcp_at o) (render before_deltas) =
      Some (Some (length (pre ++ e), render with_tcp)) ∧
    negb (Z.land changes NEW_I =? 0) = bi o n ∧ negb (Z.land changes TCP_PUSH_BIT =? 0) = bp n.
Proof using Ho Hn Hurp Hflags Hurg Hda Hds.
  pose proof wf_before as Hb. intros Hpl Ep.
  assert (Z.of_nat (Z.to_nat (h_len before_deltas) - length (render before_deltas)) = dlen o) as Hdl by (by rewrite len_before).
  assert (read_u16 (render before_deltas) 2 = Some (h_len before_deltas)) as Hrl by (bare before_deltas; by apply read_len).
  unfold apply_specials. destruct Hpl as [N1 N2|Eu Ew Eda Eds|Eu Ew Ea Eds].
  - exists (enc_u n ++ enc_w o n ++ enc_a o n ++ enc_s o n). rewrite <- !(assoc_L (++)).
    destruct (chg_bits (bi o n) (bp n) (bs o n) (ba o n) (bw o n) (bu n)) as (_ & _ & _ & _ & -> & -> & _ & _ & _ & ->).
    apply Z.eqb_neq in N1, N2. rewrite N1, N2. split_and!; try done.
    rewrite (apply_general_correct _ _ _ _ (enc_i o n ++ data)) by (done || by rewrite Ep, <- !(assoc_L (++))).
    do 4 f_equal. unfold after_general, with_tcp, before_deltas. cbn [h_flags set_flags].
    destruct (flags_rebuilt (h_flags o) (h_flags n)) as [Hf _]; [by apply wf_flags|by apply wf_flags|done|].
    unfold bu, bp. by rewrite Hf.
  - exists []. split; [done|]. destruct (chg_bits (bi o n) (bp n) true false true true) as (_ & _ & _ & _ & -> & -> & _ & _ & _ & ->).
    split; [|done]. rewrite app_nil_r. change (chg false false true false true true =? SPECIAL_I) with true. cbv iota.
    rewrite Hrl, bind_some, Hdl. 
    assert (add_u32 (render before_deltas) (tcp_at o + 8) ((dlen o) as_u32) = Some (render (set_ack (h_ack n) before_deltas))) as ->.
    { rewrite <- Eds, Eda, wrap_small by (apply is_u_wrap; lia). etrans; [by apply (add_ack before_deltas)|].
      change (h_ack before_deltas) with (h_ack o). unfold da. by rewrite wrapping_delta by (lia || by apply wf_ack). }
    rewrite bind_some, add_seq_data, bind_some by (done || (apply wf_set_ack; [done|by apply wf_ack])).
    by rewrite special_tcp.
  - exists []. split; [done|]. destruct (chg_bits (bi o n) (bp n) true true true true) as (_ & _ & _ & _ & -> & -> & _ & _ & _ & ->).
    split; [|done]. rewrite app_nil_r. change (chg false false true true true true =? SPECIAL_I) with false.
    change (chg false false true true true true =? SPECIAL_D) with true. cbv iota.
    rewrite Hrl, bind_some, Hdl. rewrite add_seq_data, bind_some by done.
    rewrite <- (special_tcp (h_ack o)) by (done || by rewrite (ack_same Ea)).
    assert (set_ack (h_ack o) before_deltas = before_deltas) as -> by (unfold before_deltas; by destruct o). done.
Qed.

Lemma apply_ip_id_correct changes payload pre data h :
  negb (Z.land changes NEW_I =? 0) = bi o n → payload = pre ++ enc_i o n ++ data → wf_hdr h → h_id h = h_id o →
  apply_ip_id changes payload (length pre) (render h) = Some (Some (length (pre ++ enc_i o n), render (set_id (h_id n) h))).
Proof using Ho Hn.
  intros Eb Ep Hh Eid. unfold apply_ip_id. rewrite Eb. unfold enc_i in *. destruct (bi o n) eqn:Ebi.
  - rewrite (apply_field_present _ pre (encode_zero_allowed (di o n)) data (di o n) _ (render (set_id (h_id n) h))); [done|done| |].
    + apply decode_zero_allowed. by apply is_u_wrap.
    + rewrite add_id by done. rewrite Eid. unfold di. by rewrite wrapping_delta by (lia || by apply wf_id).
  - rewrite add_id, bind_some, app_nil_r, Eid by done. do 5 f_equal. unfold bi in Ebi.
    apply negb_false_iff, Z.eqb_eq in Ebi. rewrite <- Ebi. unfold di. apply wrapping_delta; [lia|by apply wf_id].
Qed.
End Rebuild.

(** The IP checksum is the one the decompressor computes. *)
Definition good_checksum (h : hdr) : Prop := h_ipck h = checksum16 (ip_bytes (set_ipck 0 h)).

Lemma same_tcp_part o n : stable o n → h_addrs n = h_addrs o → h_ports n = h_ports o →
  set_ipck (h_ipck n) (set_len (h_len n) (set_id (h_id n) (with_tcp o n))) = n.
Proof. intros [] ? ?. destruct o, n; cbn in *. by subst. Qed.

Lemma rebuild_correct o n data ppp changes enc pre :
  wf_hdr o → wf_hdr n → compressed_as o n data ppp → h_addrs n = h_addrs o → h_ports n = h_ports o →
  good_checksum n → (bu n = false → Z.land (h_flags o) TCP_URG = 0) →
  Z.to_nat (h_len n) = (length (render n) + length data)%nat → planned o n changes enc →
  rebuild changes (pre ++ enc ++ data) (length pre) (render o) (h_tck n) = Some (Some (render n, data)).
Proof.
  intros Ho Hn [_ Hst Hurp Hfl Hda Hds _] Haddr Hports Hck Hurg Hlen Hpl. unfold rebuild.
  assert (index (render o) 0 = Some (h_vh o)) as -> by done. rewrite bind_some, (wf_ihl o Ho).
  rewrite write_tck, bind_some by done.
  assert (wf_hdr (set_tck (h_tck n) o)) as Ht by (apply wf_set_tck; [done|by apply wf_tck]).
  destruct (apply_specials_correct o n Ho Hn Hurp Hfl Hda Hds Hurg changes enc (pre ++ enc ++ data) pre data Hpl eq_refl)
    as (e & Ee & Hspec & HI & HP).
  rewrite HP.
  assert ((if bp n then or_octet (render (set_tck (h_tck n) o)) (tcp_at o + 13) TCP_PUSH
           else clear_octet (render (set_tck (h_tck n) o)) (tcp_at o + 13) TCP_PUSH) = Some (render (before_deltas o n))) as ->.
  { unfold before_deltas, flag_bit.
    destruct (bp n); [by apply (or_flags (set_tck (h_tck n) o))|by apply (clear_flags (set_tck (h_tck n) o))]. }
  rewrite bind_some, Hspec, bind_some. cbv beta iota. subst enc.
  set (h1 := with_tcp o n). assert (wf_hdr h1) as H1.
  { unfold h1, with_tcp. repeat first [apply wf_set_seq|apply wf_set_ack|apply wf_set_win|apply wf_set_urp|apply wf_set_flags];
      try done; by apply Hn. }
  rewrite (apply_ip_id_correct o n Ho Hn changes _ (pre ++ e) data h1) by (done || by rewrite <- !(assoc_L (++))).
  rewrite bind_some. cbv beta iota. set (h2 := set_id (h_id n) h1).
  assert (wf_hdr h2) as H2 by (apply wf_set_id; [done|by apply wf_id]).
  replace (pre ++ (e ++ enc_i o n) ++ data) with (((pre ++ e) ++ enc_i o n) ++ data ++ [])
    by by rewrite app_nil_r, <- !(assoc_L (++)).
  rewrite (slice_app _ data []), bind_some by (done || rewrite !length_app; cbn; lia).
  rewrite (st_length _ _ Hst), <- Hlen. pose proof (wf_len n Hn) as Hlu.
  rewrite decide_False by (unfold is_u in Hlu; lia). rewrite Z2Nat.id, wrap_small by (done || unfold is_u in Hlu; lia).
  rewrite write_len, bind_some by done.
  set (h3 := set_len (h_len n) h2). assert (wf_hdr h3) as H3 by (apply wf_set_len; done).
  destruct (clear_ipck h3 H3) as (x & -> & E). rewrite bind_some, E, bind_some.
  assert (set_ipck 0 h3 = set_ipck 0 n) as Ez.
  { transitivity (set_ipck 0 (set_ipck (h_ipck n) h3)); [done|]. by subst h3 h2 h1; rewrite same_tcp_part. }
  rewrite Ez. assert (wf_hdr (set_ipck 0 n)) as Hz by (apply wf_set_ipck; [done|unfold is_u; lia]).
  replace (tcp_at o) with (tcp_at (set_ipck 0 n)) by (unfold tcp_at; cbn; by rewrite (st_ipopts _ _ Hst)).
  rewrite slice_ip, bind_some, <- Hck, write_ipck, bind_some by done. done.
Qed.
