(* ===== verification/VjLink.v ===== *)
(** * A Van Jacobson compressor talking to a decompressor

    What one compressed packet does to the slots of the sender, the relation
    between the slots of the two ends, and the theorems about whole streams. *)
From S2P Require Import Prelude Framing Vj VjHeader VjProofs.

(** ** The sender's slots *)
Record tx_inv (o : VjCompressionOptions) (s : VjState) : Prop := {
  tx_opts : tx_options s = Some o;
  tx_length : length (tx_states s) = slot_count o;
  tx_lru_range : Forall (λ x, 0 ≤ x ≤ max_slot_id o) (tx_lru s);
  tx_headers : ∀ k l, tx_states s !! k = Some (Some l) → ∃ h, l = render h ∧ wf_hdr h
}.

(** What one call of [compress_ip_packet] sends and remembers. *)
Inductive sent (o : VjCompressionOptions) (pkt : list Z) (s s' : VjState) (ppp : PppPacket) : Prop :=
| sent_plain :
    ppp = ip_ppp pkt → tx_states s' = tx_states s → last_xmit s' = last_xmit s → sent o pkt s s' ppp
| sent_uncompressed n data rest slot :
    pkt = render n ++ data ++ rest → tcp_hdr n → Z.to_nat (h_len n) = (length (render n) + length data)%nat →
    0 ≤ slot ≤ max_slot_id o →
    ppp = mkPppPacket PPP_VJ_UNCOMPRESSED_TCP (<[9%nat := slot]> (render n ++ data)) →
    tx_states s' = <[Z.to_nat slot := Some (render n)]> (tx_states s) → last_xmit s' = Some slot → sent o pkt s s' ppp
| sent_compressed h n data rest slot base changes enc :
    pkt = render n ++ data ++ rest → tcp_hdr n → Z.to_nat (h_len n) = (length (render n) + length data)%nat →
    0 ≤ slot ≤ max_slot_id o →
    tx_states s !! Z.to_nat slot = Some (Some (render h)) → wf_hdr h → h_addrs n = h_addrs h → h_ports n = h_ports h →
    compressed_as h n data base → planned h n changes enc →
    (ppp = mkPppPacket PPP_VJ_COMPRESSED_TCP (Z.lor changes NEW_C :: slot :: to_be16 (h_tck n) ++ enc ++ data) ∨
     last_xmit s = Some slot ∧
     ppp = mkPppPacket PPP_VJ_COMPRESSED_TCP ([changes] ++ to_be16 (h_tck n) ++ enc ++ data)) →
    tx_states s' = <[Z.to_nat slot := Some (render n)]> (tx_states s) → last_xmit s' = Some slot → sent o pkt s s' ppp.

Lemma find_slot_spec o states p n data rest lru :
  parsed_as p n data rest → length states = slot_count o → Forall (λ x, 0 ≤ x ≤ max_slot_id o) lru →
  (∀ k l, states !! k = Some (Some l) → ∃ h, l = render h ∧ wf_hdr h) →
  ∃ r, find_slot states p lru = Some r ∧ ∀ slot, r = Some slot →
    0 ≤ slot ≤ max_slot_id o ∧ ∃ h, states !! Z.to_nat slot = Some (Some (render h)) ∧ wf_hdr h ∧
      h_addrs n = h_addrs h ∧ h_ports n = h_ports h.
Proof.
  intros Hp Hl Hlru Hst. induction lru as [|slot lru IH]; [by eexists|]. inversion Hlru as [|?? Hs Hlru']; subst.
  cbn [find_slot]. change (index states (Z.to_nat slot)) with (states !! Z.to_nat slot).
  destruct (lookup_lt_is_Some_2 states (Z.to_nat slot)) as [st Es]; [unfold slot_count in Hl; lia|].
  rewrite Es, bind_some. destruct st as [l|]; [|by apply IH].
  destruct (Hst _ _ Es) as (h & -> & Hh). destruct (same_flow_inv h p n data rest Hh Hp) as (b & -> & Hb). rewrite bind_some.
  destruct b; [|by apply IH]. eexists. split; [done|]. intros ? [= <-]. split; [done|]. destruct Hb; [done|]. by exists h.
Qed.

Lemma mark_tx_mru_fields slot s :
  tx_states (mark_tx_mru slot s) = tx_states s ∧ last_xmit (mark_tx_mru slot s) = last_xmit s ∧
  tx_options (mark_tx_mru slot s) = tx_options s.
Proof. by destruct s. Qed.

Lemma mark_tx_mru_inv o slot s : tx_inv o s → 0 ≤ slot ≤ max_slot_id o → tx_inv o (mark_tx_mru slot s).
Proof.
  intros [] Hs. destruct (mark_tx_mru_fields slot s) as (E1 & E2 & E3).
  split; [by rewrite E3|by rewrite E1| |by rewrite E1].
  unfold mark_tx_mru. cbn [tx_lru set_tx]. constructor; [done|]. destruct (position _ _); [by apply Forall_delete|done].
Qed.

(** Remembering the packet's header in a slot of the table. *)
Lemma store_tx_spec o slot p n data rest s :
  tx_inv o s → 0 ≤ slot ≤ max_slot_id o → parsed_as p n data rest →
  ∃ s', store_tx slot p s = Some s' ∧ tx_inv o s' ∧
    tx_states s' = <[Z.to_nat slot := Some (render n)]> (tx_states s) ∧ last_xmit s' = last_xmit s.
Proof.
  intros [] Hs [Epkt [Hn _ _ _] _ _ _ _ Ehl]. unfold store_tx, from_packet.
  rewrite Epkt, Ehl. assert (slice (render n ++ data ++ rest) 0 (length (render n)) = Some (render n)) as -> by
    by apply (slice_app [] (render n) (data ++ rest)).
  rewrite bind_some, set_index_Some, bind_some by (unfold slot_count in *; lia).
  eexists. split; [done|]. split; [|done]. split; cbn; [done|by rewrite length_insert|done|].
  intros k l Hk. destruct (decide (k = Z.to_nat slot)) as [->|]; [|rewrite list_lookup_insert_ne in Hk by done; eauto].
  rewrite list_lookup_insert_eq in Hk by (unfold slot_count in *; lia). injection Hk as <-. by exists n.
Qed.

Lemma length_header h : wf_hdr h → (40 ≤ length (render h))%nat.
Proof. intros H. rewrite (length_render h H). unfold tcp_at. lia. Qed.

Lemma send_uncompressed o pkt slot p n data rest s0 s :
  tx_inv o s → 0 ≤ slot ≤ max_slot_id o → parsed_as p n data rest → packet p = pkt → tx_states s = tx_states s0 →
  ∃ s' ppp, (s ← store_tx slot p s; uncompressed_tcp_packet slot p s) = Some (s', ppp) ∧ tx_inv o s' ∧ sent o pkt s0 s' ppp.
Proof.
  intros Hs Hslot Hp Epkt0 Est. destruct (store_tx_spec o slot p n data rest s Hs Hslot Hp) as (s1 & -> & H1 & E1 & E2).
  rewrite bind_some. destruct Hp as [Epkt Hn Etl Ed _ _ _]. unfold uncompressed_tcp_packet.
  pose proof (length_header n (tcp_wf _ Hn)). rewrite Epkt, Etl, Ed.
  assert (slice (render n ++ data ++ rest) 0 (length (render n) + length data) = Some (render n ++ data)) as ->.
  { rewrite (assoc_L (++)). apply (slice_app [] (render n ++ data) rest); [done|]. rewrite length_app. lia. }
  rewrite bind_some, set_index_Some, bind_some by (rewrite length_app; lia).
  eexists _, _. split; [done|]. split; [by destruct H1; split|].
  eapply (sent_uncompressed o pkt s0 _ _ n data rest slot); [by rewrite <- Epkt0|done..| |done]. cbn. by rewrite E1, Est.
Qed.

Lemma send_compressed o pkt slot p n data rest s0 s h base :
  tx_inv o s → 0 ≤ slot ≤ max_slot_id o → parsed_as p n data rest → packet p = pkt →
  tx_states s = tx_states s0 → last_xmit s = last_xmit s0 →
  tx_states s0 !! Z.to_nat slot = Some (Some (render h)) → wf_hdr h → h_addrs n = h_addrs h → h_ports n = h_ports h →
  compressed_as h n data base →
  ∃ s' ppp,
    ('(s, compressed) ←
       (if negb (comp_slot_id o) || negb (bool_decide (last_xmit s = Some slot)) then
          match payload base with
          | changes :: rest =>
              Some (set_tx (tx_states s) (tx_lru s) (Some slot) s, mkPppPacket (protocol base) (Z.lor changes NEW_C :: slot :: rest))
          | [] => panic!
          end
        else Some (s, base));
     s ← store_tx slot p s; Some (s, compressed)) = Some (s', ppp) ∧ tx_inv o s' ∧ sent o pkt s0 s' ppp.
Proof.
  intros Hs Hslot Hp Epkt0 Est Elx Hold Hh Ha Hpo Hca. pose proof Hca as [Eproto _ _ _ _ _ (changes & enc & Hpl & Epay)].
  pose proof Hp as [Epkt Hn _ Ed _ _ _]. rewrite Epay, Eproto. cbn [app].
  destruct (_ || _) eqn:Ec; rewrite bind_some.
  - destruct (store_tx_spec o slot p n data rest (set_tx (tx_states s) (tx_lru s) (Some slot) s)) as (s1 & -> & H1 & E1 & E2);
      [by destruct Hs; split|done|done|].
    rewrite bind_some. eexists _, _. split; [done|]. split; [done|].
    apply (sent_compressed o pkt s0 s1 _ h n data rest slot base changes enc); try done; [congruence|by left|].
    cbn in E1. by rewrite E1, Est.
  - apply orb_false_iff in Ec as [_ Ec]. apply negb_false_iff, bool_decide_eq_true in Ec.
    destruct (store_tx_spec o slot p n data rest s) as (s1 & -> & H1 & E1 & E2); [done..|].
    rewrite bind_some. eexists _, _. split; [done|]. split; [done|].
    apply (sent_compressed o pkt s0 s1 _ h n data rest slot base changes enc); try done; [congruence| |by rewrite E1, Est|congruence].
    right. split; [congruence|]. destruct base; cbn in *. by subst.
Qed.

(** [compress_ip_packet] never panics and does one of three things. *)
Lemma compress_spec o pkt s : bytes pkt → tx_inv o s →
  ∃ s' ppp, compress_ip_packet pkt s = Some (s', ppp) ∧ tx_inv o s' ∧ sent o pkt s s' ppp.
Proof.
  intros Hb Hs. unfold compress_ip_packet. rewrite (tx_opts o s Hs).
  assert (∀ s', tx_inv o s' → tx_states s' = tx_states s → last_xmit s' = last_xmit s →
    ∃ s1 ppp, Some (s', ip_ppp pkt) = Some (s1, ppp) ∧ tx_inv o s1 ∧ sent o pkt s s1 ppp) as Hplain.
  { intros s' ???. eexists _, _. split; [done|]. split; [done|]. by apply sent_plain. }
  destruct (parse_spec pkt Hb) as (r & -> & Hr). rewrite bind_some. destruct r as [p|]; [|by apply Hplain].
  destruct (Hr p eq_refl) as (Epkt & n & data & rest & Hp).
  assert (∃ b, is_compressible_tcp p = Some b) as (b & ->).
  { unfold is_compressible_tcp. pose proof Hp as [E [Hn _ _ _] _ _ _ Eo _]. pose proof (length_header n Hn).
    destruct (read_u16_in_range (packet p) 6) as (v & -> & _); [rewrite E, length_app; lia|by rewrite Epkt|].
    rewrite bind_some. destruct (negb _); [by eexists|]. rewrite E, Eo, read_flags by done. by eexists. }
  rewrite bind_some. destruct b; cbn [negb]; [|by apply Hplain]. unfold compress_tcp, find_tx_slot.
  destruct (find_slot_spec o (tx_states s) p n data rest (tx_lru s) Hp) as (r & -> & Hr'); [apply Hs..|]. rewrite bind_some.
  destruct r as [slot|].
  - destruct (Hr' slot eq_refl) as (Hslot & h & Eh & Hh & Ha & Hpo).
    destruct (mark_tx_mru_fields slot s) as (M1 & M2 & M3). rewrite M1.
    change (index (tx_states s) (Z.to_nat slot)) with (tx_states s !! Z.to_nat slot). rewrite Eh, !bind_some.
    destruct (build_inv h p n data rest Hh Hp) as (r & -> & Hbuild). rewrite bind_some.
    pose proof (mark_tx_mru_inv o slot s Hs Hslot). destruct r as [base|].
    + specialize (Hbuild base eq_refl). rewrite <- M1. by eapply send_compressed.
    + by eapply send_uncompressed.
  - unfold allocate_tx_slot. destruct (last (tx_lru s)) as [slot|] eqn:El; [|by apply Hplain].
    assert (0 ≤ slot ≤ max_slot_id o) as Hslot.
    { apply last_Some_elem_of in El. by apply (Forall_forall (λ x, 0 ≤ x ≤ max_slot_id o) (tx_lru s)); [apply Hs|]. }
    destruct (mark_tx_mru_fields slot s) as (M1 & _ & _).
    eapply send_uncompressed; [by apply mark_tx_mru_inv|done..].
Qed.

(** ** Packets the compressor is meant for *)

(** No octets behind the datagram, a correct IP checksum, no urgent data. *)
Definition ip_checksum_ok (p : ParsedTcpPacket) : bool :=
  match (x ← set_index (packet p) 10 0; x ← set_index x 11 0; ip_part ← slice x 0 (ip_header_len p);
         ck ← read_u16 (packet p) 10; Some (ck =? checksum16 ip_part)) with
  | Some b => b
  | None => false
  end.
Definition urgent (p : ParsedTcpPacket) : bool :=
  match index (packet p) (tcp_offset p + 13) with Some f => negb (Z.land f TCP_URG =? 0) | None => false end.
Definition clean (pkt : list Z) : bool :=
  bytesb pkt &&
  match parse pkt with
  | Some (Some p) => Nat.eqb (total_len p) (length pkt) && ip_checksum_ok p && negb (urgent p)
  | _ => true
  end.

Lemma set_index_app {A} (l k m : list A) i x : set_index l i x = Some m → set_index (l ++ k) i x = Some (m ++ k).
Proof.
  unfold set_index. case_decide; [|done]. intros [= <-]. rewrite decide_True by (rewrite length_app; lia).
  by rewrite insert_app_l.
Qed.

Lemma slice_app_l {A} (l k m : list A) a b : slice l a b = Some m → slice (l ++ k) a b = Some m.
Proof.
  unfold slice. case_decide as H; [|done]. intros [= <-]. rewrite decide_True by (rewrite length_app; lia).
  rewrite drop_app_le, take_app_le by (rewrite ?length_drop; lia). done.
Qed.

Lemma clean_spec pkt : clean pkt = true → bytes pkt ∧
  ∀ n data rest, pkt = render n ++ data ++ rest → tcp_hdr n → Z.to_nat (h_len n) = (length (render n) + length data)%nat →
    rest = [] ∧ good_checksum n ∧ Z.land (h_flags n) TCP_URG = 0.
Proof.
  unfold clean. intros [Hb H]%andb_true_iff. split; [by apply bytesb_bytes|]. intros n data rest -> Hn Hl.
  rewrite parse_render in H by done. cbn [total_len] in H. apply andb_true_iff in H as [[Ht Hck]%andb_true_iff Hu].
  apply Nat.eqb_eq in Ht. rewrite !length_app in Ht. assert (rest = []) as -> by (apply length_zero_iff_nil; lia).
  split; [done|]. pose proof (tcp_wf _ Hn) as Hw. split.
  - revert Hck. unfold ip_checksum_ok. cbn [packet ip_header_len]. destruct (clear_ipck n Hw) as (x & E1 & E2).
    rewrite (set_index_app _ _ _ _ _ E1), bind_some, (set_index_app _ _ _ _ _ E2), bind_some.
    assert (wf_hdr (set_ipck 0 n)) as Hz by (apply wf_set_ipck; [done|unfold is_u; lia]).
    rewrite (slice_app_l _ _ (ip_bytes (set_ipck 0 n))) by by apply (slice_ip (set_ipck 0 n)). rewrite bind_some.
    rewrite (read_field16 n (data ++ []) 4 (h_ipck n)); [|done|by apply wf_ipck|pose proof (wf_mid n Hw); header_length].
    rewrite bind_some. apply Z.eqb_eq.
  - revert Hu. unfold urgent. cbn [packet tcp_offset]. rewrite read_flags by done. rewrite negb_involutive. apply Z.eqb_eq.
Qed.

(** ** Both ends *)
Definition urg_clear (l : list Z) : Prop := ∀ h, l = render h → wf_hdr h → Z.land (h_flags h) TCP_URG = 0.

Lemma render_flags_inj h h' : wf_hdr h → wf_hdr h' → render h = render h' → h_flags h = h_flags h'.
Proof.
  intros H H' E. assert (h_vh h = h_vh h') as Ev.
  { pose proof (read_vh h []) as R1. pose proof (read_vh h' []) as R2. rewrite E in R1. congruence. }
  pose proof (wf_ihl h H) as I1. pose proof (wf_ihl h' H') as I2. rewrite Ev, I2 in I1.
  pose proof (read_flags h H []) as R1. pose proof (read_flags h' H' []) as R2. rewrite E, <- I1 in R1. congruence.
Qed.

Record synced (o : VjCompressionOptions) (tx rx : VjState) : Prop := {
  sy_tx : tx_inv o tx;
  sy_rx_opts : rx_options rx = Some o;
  sy_rx_length : length (rx_states rx) = slot_count o;
  sy_slots : ∀ k l, tx_states tx !! k = Some (Some l) → rx_states rx !! k = Some (Some l);
  sy_urg : ∀ k l, tx_states tx !! k = Some (Some l) → urg_clear l;
  sy_last : ∀ slot, last_xmit tx = Some slot → last_recv rx = Some slot ∧ toss rx = false
}.

(** The two ends after they both stored a header in the same slot. *)
Lemma synced_store o tx rx tx' slot n t rx' :
  synced o tx rx → tx_inv o tx' → 0 ≤ slot ≤ max_slot_id o → wf_hdr n → Z.land (h_flags n) TCP_URG = 0 →
  tx_states tx' = <[Z.to_nat slot := Some (render n)]> (tx_states tx) → last_xmit tx' = Some slot →
  rx' = set_rx (<[Z.to_nat slot := Some (render n)]> (rx_states rx)) (Some slot) t rx → t = false → synced o tx' rx'.
Proof.
  intros [Htx Hro Hrl Hsl Hurg Hlast] Htx' Hslot Hn Hu Est Elx -> ->. pose proof (tx_length _ _ Htx) as Hl.
  assert (Z.to_nat slot < slot_count o)%nat by (unfold slot_count; lia).
  split; cbn; rewrite ?length_insert; try done.
  - intros k l. rewrite Est. destruct (decide (k = Z.to_nat slot)) as [->|].
    + by rewrite !list_lookup_insert_eq by lia.
    + rewrite !list_lookup_insert_ne by done. apply Hsl.
  - intros k l. rewrite Est. destruct (decide (k = Z.to_nat slot)) as [->|].
    + rewrite list_lookup_insert_eq by lia. intros [= <-] h E Hh. by rewrite <- (render_flags_inj n h).
    + rewrite list_lookup_insert_ne by done. apply Hurg.
  - intros ? E. rewrite Elx in E. injection E as <-. done.
Qed.

Lemma receive_uncompressed o n data slot rx :
  rx_options rx = Some o → length (rx_states rx) = slot_count o → 0 ≤ slot ≤ max_slot_id o →
  tcp_hdr n → Z.to_nat (h_len n) = (length (render n) + length data)%nat →
  decompress_uncompressed_tcp (<[9%nat := slot]> (render n ++ data)) rx =
    Some (set_rx (<[Z.to_nat slot := Some (render n)]> (rx_states rx)) (Some slot) false rx, Ok (render n ++ data)).
Proof.
  intros Ho Hl Hslot Hn Hd. pose proof (tcp_wf n Hn) as Hw. pose proof (length_header n Hw).
  unfold decompress_uncompressed_tcp. rewrite Ho, list_lookup_insert_eq by (rewrite length_app; lia).
  destruct (Z.ltb_spec (max_slot_id o) slot); [lia|].
  rewrite set_index_Some, list_insert_insert_eq, bind_some by (rewrite length_insert, length_app; lia).
  rewrite (list_insert_id (render n ++ data)).
  - pose proof (parse_render n data [] Hn Hd) as Hp. rewrite app_nil_r in Hp. rewrite Hp, bind_some. unfold from_packet. cbn [packet header_len].
    rewrite (slice_app [] (render n) data) by done. rewrite bind_some, set_index_Some by (unfold slot_count in *; lia). done.
  - pose proof (slice_mid n Hw data) as Hs. rewrite slice_Some in Hs by (rewrite ?length_app; lia). injection Hs as Hs.
    pose proof (tcp_protocol n Hn) as Hm. rewrite <- Hs in Hm. by rewrite lookup_take_lt, lookup_drop in Hm by lia.
Qed.

(** A payload whose slot is known: the rebuilt packet is the original. *)
Lemma receive_slot h n data base changes enc pre slot rx :
  wf_hdr h → wf_hdr n → compressed_as h n data base → h_addrs n = h_addrs h → h_ports n = h_ports h →
  good_checksum n → Z.land (h_flags h) TCP_URG = 0 →
  Z.to_nat (h_len n) = (length (render n) + length data)%nat → planned h n changes enc →
  last_recv rx = Some slot → rx_states rx !! Z.to_nat slot = Some (Some (render h)) →
  decompress_slot changes (pre ++ to_be16 (h_tck n) ++ enc ++ data) (length pre) rx =
    Some (set_rx (<[Z.to_nat slot := Some (render n)]> (rx_states rx)) (Some slot) (toss rx) rx, Ok (render n ++ data)).
Proof.
  intros Hh Hn Hca Ha Hp Hck Hu Hd Hpl Hlast Hslot. unfold decompress_slot. rewrite Hlast.
  change (index (rx_states rx) (Z.to_nat slot)) with (rx_states rx !! Z.to_nat slot). rewrite Hslot, bind_some.
  rewrite decide_False by (rewrite !length_app; cbn; lia). rewrite read_u16_at, bind_some by by apply wf_tck.
  replace (length pre + 2)%nat with (length (pre ++ to_be16 (h_tck n))) by (rewrite length_app; done).
  rewrite (assoc_L (++)), (rebuild_correct h n data base) by done.
  rewrite bind_some, set_index_Some, bind_some by by eapply lookup_lt_Some. done.
Qed.

Definition relay (pkt : list Z) (tx rx : VjState) : rust (VjState * VjState * result VjError (list Z)) :=
  '(tx, ppp) ← compress_ip_packet pkt tx;
  '(rx, out) ← decompress_packet (protocol ppp) (payload ppp) rx;
  Some (tx, rx, out).
Fixpoint relay_all (pkts : list (list Z)) (tx rx : VjState) : rust (list (result VjError (list Z))) :=
  match pkts with
  | [] => Some []
  | pkt :: pkts => '(tx, rx, out) ← relay pkt tx rx; outs ← relay_all pkts tx rx; Some (out :: outs)
  end.

(** No compressed octet carries the slot flag by accident. *)
Lemma planned_bits o n changes enc : planned o n changes enc →
  Z.land changes NEW_C = 0 ∧ Z.land (Z.lor changes NEW_C) NEW_C = NEW_C ∧
  Z.land (Z.lor changes NEW_C) (bit_not 8 NEW_C) = changes.
Proof.
  assert (∀ i p s a w u, Z.land (chg i p s a w u) NEW_C = 0 ∧ Z.land (Z.lor (chg i p s a w u) NEW_C) NEW_C = NEW_C ∧
    Z.land (Z.lor (chg i p s a w u) NEW_C) (bit_not 8 NEW_C) = chg i p s a w u) as H.
  { intros i p s a w u. destruct (chg_bits i p s a w u) as (_ & _ & _ & _ & _ & _ & H1 & H2 & H3 & _). by split_and!. }
  intros Hpl. destruct Hpl; apply H.
Qed.

Lemma relay_step o pkt tx rx : synced o tx rx → clean pkt = true →
  ∃ tx' rx', relay pkt tx rx = Some (tx', rx', Ok pkt) ∧ synced o tx' rx'.
Proof.
  intros Hsy [Hb Hclean]%clean_spec. unfold relay. pose proof (sy_rx_length _ _ _ Hsy) as Hrl. pose proof (sy_rx_opts _ _ _ Hsy) as Hro.
  destruct (compress_spec o pkt tx Hb (sy_tx _ _ _ Hsy)) as (tx' & ppp & -> & Htx' & Hsent). rewrite bind_some.
  destruct Hsent as [-> Est Elx|n data rest slot -> Hn Hd Hslot -> Est Elx
    |h n data rest slot base changes enc -> Hn Hd Hslot Hold Hh Ha Hp Hca Hpl Hppp Est Elx].
  - eexists _, _. split; [done|]. destruct Hsy. split; rewrite ?Est, ?Elx; done.
  - destruct (Hclean n data rest eq_refl Hn Hd) as (-> & Hck & Hu). cbn [protocol payload].
    unfold decompress_packet. cbn [Z.eqb PPP_IP_PROTOCOL PPP_VJ_UNCOMPRESSED_TCP Pos.eqb].
    rewrite (receive_uncompressed o) by done. rewrite bind_some, app_nil_r. eexists _, _. split; [done|].
    by eapply synced_store; [done|done|done|by apply tcp_wf|done|..].
  - destruct (Hclean n data rest eq_refl Hn Hd) as (-> & Hck & Hu). rewrite app_nil_r.
    pose proof (sy_urg _ _ _ Hsy _ _ Hold h eq_refl Hh) as Hur. pose proof (sy_slots _ _ _ Hsy _ _ Hold) as Hrx.
    pose proof (tcp_wf n Hn) as Hw. destruct (planned_bits h n changes enc Hpl) as (B1 & B2 & B3).
    destruct Hppp as [-> | [Elast ->]]; cbn [protocol payload]; unfold decompress_packet;
      cbn [Z.eqb PPP_IP_PROTOCOL PPP_VJ_UNCOMPRESSED_TCP PPP_VJ_COMPRESSED_TCP Pos.eqb];
      unfold decompress_compressed_tcp; rewrite Hro; unfold read_u8; cbn [lookup list_lookup app mbind option_bind].
    + rewrite B2. cbn [NEW_C Z.eqb negb]. destruct (Z.ltb_spec (max_slot_id o) slot); [lia|]. rewrite B3.
      rewrite (receive_slot h n data base changes enc [Z.lor changes NEW_C; slot] slot) by done.
      rewrite bind_some. eexists _, _. split; [done|]. by eapply synced_store.
    + rewrite B1. cbn [Z.eqb negb]. destruct (sy_last _ _ _ Hsy _ Elast) as [Hl Ht]. rewrite Ht.
      rewrite (receive_slot h n data base changes enc [changes] slot) by done.
      rewrite bind_some. eexists _, _. split; [done|]. by eapply synced_store.
Qed.

(** ** Streams *)
Lemma synced_configure o r1 t2 s1 s2 : synced o (configure (Some o) r1 s1) (configure t2 (Some o) s2).
Proof.
  assert (∀ k l, (replicate (slot_count o) None : list (option (list Z))) !! k = Some (Some l) → False) as Hnone.
  { intros k l H. apply lookup_replicate in H as [H _]. done. }
  split; cbn; try done; [|by rewrite length_replicate|intros k l H; by destruct (Hnone k l)..].
  split; cbn; [done|by rewrite length_replicate| |intros k l H; by destruct (Hnone k l)].
  apply Forall_forall. intros x Hx. apply elem_of_seqZ in Hx. lia.
Qed.

Lemma relay_all_synced o pkts : ∀ tx rx, synced o tx rx → Forall (λ p, clean p = true) pkts →
  relay_all pkts tx rx = Some (map Ok pkts).
Proof.
  induction pkts as [|pkt pkts IH]; intros tx rx Hsy Hc; [done|]. inversion Hc as [|?? H1 H2]; subst.
  destruct (relay_step o pkt tx rx Hsy H1) as (tx' & rx' & E & Hsy'). cbn [relay_all]. rewrite E, bind_some.
  cbv beta iota. rewrite (IH tx' rx' Hsy' H2). done.
Qed.

(** ** Decompression of arbitrary payloads *)
Definition good (t : nat) (l : list Z) : Prop := ∃ h, l = render h ∧ wf_hdr h ∧ tcp_at h = t.

Section Total.
Context (payload : list Z) (Hb : bytes payload) (t : nat).

(** A step that does not panic and keeps a header a header. *)
Definition step_ok (r : rust (option (nat * list Z))) : Prop :=
  ∃ x, r = Some x ∧ ∀ c l, x = Some (c, l) → good t l ∧ (c ≤ length payload)%nat.
Definition patch_ok (r : rust (list Z)) : Prop := ∃ l, r = Some l ∧ good t l.

Lemma step_bind r k : step_ok r → (∀ c l, good t l → (c ≤ length payload)%nat → step_ok (k c l)) →
  step_ok (x ← r; match x with None => Some None | Some (c, l) => k c l end).
Proof.
  intros (x & -> & Hx) Hk. rewrite bind_some. destruct x as [[c l]|]; [|by exists None].
  destruct (Hx c l eq_refl). by apply Hk.
Qed.

Lemma patch_bind r k : patch_ok r → (∀ l, good t l → step_ok (k l)) → step_ok (l ← r; k l).
Proof. intros (l & -> & Hl) Hk. rewrite bind_some. by apply Hk. Qed.

Lemma step_done c l : good t l → (c ≤ length payload)%nat → step_ok (Some (Some (c, l))).
Proof. intros. eexists. split; [done|]. by intros ?? [= <- <-]. Qed.

Lemma decode_value_range c v c' : decode_value payload c = Some (v, c') → is_u16 v ∧ (c' ≤ length payload)%nat.
Proof using Hb.
  unfold decode_value, read_u8. destruct (payload !! c) as [b|] eqn:E; [|done]. cbn [mbind option_bind].
  pose proof (bytes_lookup _ _ _ Hb E) as Hu. pose proof (lookup_lt_Some _ _ _ E).
  destruct (b =? 0); [|intros [= <- <-]; split; [by eapply is_u_mono; [|done]|lia]].
  case_decide; [done|]. destruct (payload !! S c) as [x|] eqn:E1; [|done]. destruct (payload !! S (S c)) as [y|] eqn:E2; [|done].
  cbn. intros [= <- <-]. pose proof (lookup_lt_Some _ _ _ E2).
  split; [apply from_be16_u16; by eapply bytes_lookup|lia].
Qed.

Lemma apply_field_total b c l f : good t l → (c ≤ length payload)%nat →
  (∀ v, is_u16 v → patch_ok (f l v)) → step_ok (apply_field b payload c l f).
Proof using Hb.
  intros Hl Hc Hf. unfold apply_field. destruct b; [|by apply step_done].
  destruct (decode_value payload c) as [[v c']|] eqn:E; [|by exists None].
  destruct (decode_value_range c v c' E). apply patch_bind; [by apply Hf|]. intros. by apply step_done.
Qed.

Ltac patch L W := intros (h & -> & Hh & <-); rewrite L by done; eexists; split; [done|];
  eexists; split; [done|]; split; [apply W; [done|]|done].
Lemma patch_urp l v : is_u16 v → good t l → patch_ok (write_u16 l (t + 18) v).
Proof. intros Hv. by patch write_urp wf_set_urp. Qed.
Lemma patch_tck l v : is_u16 v → good t l → patch_ok (write_u16 l (t + 16) v).
Proof. intros Hv. by patch write_tck wf_set_tck. Qed.
Lemma patch_win l d : good t l → patch_ok (add_u16 l (t + 14) d).
Proof. patch add_win wf_set_win. by apply is_u_wrap. Qed.
Lemma patch_ack l d : good t l → patch_ok (add_u32 l (t + 8) d).
Proof. patch add_ack wf_set_ack. by apply is_u_wrap. Qed.
Lemma patch_seq l d : good t l → patch_ok (add_u32 l (t + 4) d).
Proof. patch add_seq wf_set_seq. by apply is_u_wrap. Qed.
Lemma patch_id l d : good t l → patch_ok (add_u16 l 4 d).
Proof. patch add_id wf_set_id. by apply is_u_wrap. Qed.
Lemma patch_or l m : is_u8 m → good t l → patch_ok (or_octet l (t + 13) m).
Proof. intros Hm. patch or_flags wf_set_flags. apply is_u_lor; [lia|by apply wf_flags|done]. Qed.
Lemma patch_clear l m : is_u8 m → good t l → patch_ok (clear_octet l (t + 13) m).
Proof.
  intros Hm. patch clear_flags wf_set_flags. apply is_u_land; [lia|by apply wf_flags|].
  pose proof (is_u_bit_not 8 m ltac:(lia) Hm) as []. lia.
Qed.
Lemma patch_flag (b : bool) l m : is_u8 m → good t l →
  patch_ok (if b then or_octet l (t + 13) m else clear_octet l (t + 13) m).
Proof. destruct b; [apply patch_or|apply patch_clear]. Qed.

Lemma apply_general_total changes c l : good t l → (c ≤ length payload)%nat → step_ok (apply_general changes payload c t l).
Proof using Hb.
  intros Hl Hc. unfold apply_general. apply patch_bind; [by apply patch_flag|]. intros l1 H1.
  apply step_bind; [apply apply_field_total; [done|done|intros; by apply patch_urp]|]. intros c2 l2 H2 Hc2.
  apply step_bind; [apply apply_field_total; [done|done|intros; by apply patch_win]|]. intros c3 l3 H3 Hc3.
  apply step_bind; [apply apply_field_total; [done|done|intros; by apply patch_ack]|]. intros c4 l4 H4 Hc4.
  apply apply_field_total; [done|done|intros; by apply patch_seq].
Qed.

Lemma read_total l : good t l → ∃ v, read_u16 l 2 = Some v.
Proof. intros (h & -> & Hh & _). bare h. rewrite read_len by done. by eexists. Qed.

Lemma apply_specials_total changes c l : good t l → (c ≤ length payload)%nat → step_ok (apply_specials changes payload c t l).
Proof using Hb.
  intros Hl Hc. unfold apply_specials. destruct (read_total l Hl) as (v & ->). rewrite !bind_some.
  destruct (_ =? SPECIAL_I); [|destruct (_ =? SPECIAL_D); [|by apply apply_general_total]].
  - apply patch_bind; [by apply patch_ack|]. intros l1 H1. apply patch_bind; [by apply patch_seq|].
    intros l2 H2. by apply step_done.
  - apply patch_bind; [by apply patch_seq|]. intros l2 H2. by apply step_done.
Qed.

Lemma apply_ip_id_total changes c l : good t l → (c ≤ length payload)%nat → step_ok (apply_ip_id changes payload c l).
Proof using Hb.
  intros Hl Hc. unfold apply_ip_id. destruct (negb _).
  - apply apply_field_total; [done|done|intros; by apply patch_id].
  - apply patch_bind; [by apply patch_id|]. intros. by apply step_done.
Qed.
End Total.

Lemma rebuild_total changes payload c o ck : wf_hdr o → bytes payload → (c ≤ length payload)%nat → is_u16 ck →
  ∃ r, rebuild changes payload c (render o) ck = Some r ∧ ∀ l d, r = Some (l, d) → ∃ n, l = render n ∧ wf_hdr n.
Proof.
  intros Ho Hb Hc Hck. unfold rebuild. assert (index (render o) 0 = Some (h_vh o)) as -> by done.
  rewrite bind_some, (wf_ihl o Ho). set (t := tcp_at o).
  destruct (patch_tck t (render o) ck Hck) as (l1 & -> & H1); [by exists o|]. rewrite bind_some.
  destruct (patch_flag t (negb (Z.land changes TCP_PUSH_BIT =? 0)) l1 TCP_PUSH) as (l2 & -> & H2); [done|done|]. rewrite bind_some.
  destruct (apply_specials_total payload Hb t changes c l2 H2 Hc) as (x & -> & Hx). rewrite bind_some.
  destruct x as [[c3 l3]|]; [|by eexists]. destruct (Hx _ _ eq_refl) as [H3 Hc3].
  destruct (apply_ip_id_total payload Hb t changes c3 l3 H3 Hc3) as (y & -> & Hy). rewrite bind_some.
  destruct y as [[c4 l4]|]; [|by eexists]. destruct (Hy _ _ eq_refl) as [(h & -> & Hh & Et) Hc4].
  rewrite slice_Some, bind_some by lia. case_decide as Hlen; [by eexists|]. rewrite write_len, bind_some by done.
  set (h1 := set_len _ h). assert (wf_hdr h1) as Hh1 by (apply wf_set_len; [done|by apply is_u_wrap]).
  destruct (clear_ipck h1 Hh1) as (x & -> & E). rewrite bind_some, E, bind_some. set (h2 := set_ipck 0 h1) in *.
  assert (wf_hdr h2) as Hh2 by (apply wf_set_ipck; [done|unfold is_u; lia]).
  assert (slice (render h2) 0 t = Some (ip_bytes h2)) as -> by (rewrite <- Et; by apply (slice_ip h2)).
  rewrite bind_some, write_ipck, bind_some by done. eexists. split; [done|]. intros ?? [= <- <-].
  eexists. split; [done|]. apply wf_set_ipck; [done|apply checksum16_u16].
Qed.

Record rx_inv (s : VjState) : Prop := {
  rx_length : ∀ o, rx_options s = Some o → length (rx_states s) = slot_count o;
  rx_headers : ∀ k l, rx_states s !! k = Some (Some l) → ∃ h, l = render h ∧ wf_hdr h;
  rx_last : ∀ k, last_recv s = Some k → (Z.to_nat k < length (rx_states s))%nat
}.

Lemma rx_inv_store s k n t lr : rx_inv s → (Z.to_nat k < length (rx_states s))%nat → wf_hdr n → lr = Some k →
  rx_inv (set_rx (<[Z.to_nat k := Some (render n)]> (rx_states s)) lr t s).
Proof.
  intros [Hl Hh Hr] Hk Hn ->. split; cbn; rewrite ?length_insert; [done| |by intros ? [= <-]].
  intros j l Hj. destruct (decide (j = Z.to_nat k)) as [->|].
  - rewrite list_lookup_insert_eq in Hj by done. injection Hj as <-. by exists n.
  - rewrite list_lookup_insert_ne in Hj by done. eauto.
Qed.

Lemma fail_toss_inv e s : rx_inv s → ∃ s' r, fail_toss e s = Some (s', r) ∧ rx_inv s'.
Proof. intros []. eexists _, _. split; [done|]. by split. Qed.

Lemma decompress_slot_total changes payload c s : bytes payload → rx_inv s →
  ∃ s' r, decompress_slot changes payload c s = Some (s', r) ∧ rx_inv s'.
Proof.
  intros Hb Hs. unfold decompress_slot. destruct (last_recv s) as [slot|] eqn:El; [|by apply fail_toss_inv].
  pose proof (rx_last s Hs _ El) as Hslot. destruct (lookup_lt_is_Some_2 _ _ Hslot) as [st Est].
  change (index (rx_states s) (Z.to_nat slot)) with (rx_states s !! Z.to_nat slot). rewrite Est, bind_some.
  destruct st as [l|]; [|by apply fail_toss_inv]. destruct (rx_headers s Hs _ _ Est) as (h & -> & Hh).
  case_decide as Hlen; [by apply fail_toss_inv|].
  destruct (read_u16_in_range payload c) as (ck & -> & Hck); [lia|done|]. rewrite bind_some.
  destruct (rebuild_total changes payload (c + 2) h ck) as (r & -> & Hr); [done|done|lia|done|]. rewrite bind_some.
  destruct r as [[l d]|]; [|by apply fail_toss_inv]. destruct (Hr l d eq_refl) as (n & -> & Hn).
  rewrite set_index_Some, bind_some by done. eexists _, _. split; [done|]. by apply rx_inv_store.
Qed.

Lemma decompress_total proto payload s : bytes payload → rx_inv s →
  ∃ s' r, decompress_packet proto payload s = Some (s', r) ∧ rx_inv s'.
Proof.
  intros Hb Hs. unfold decompress_packet. destruct (_ =? _); [by eexists _, _|]. destruct (_ =? _).
  - unfold decompress_uncompressed_tcp. destruct (rx_options s) as [o|] eqn:Eo; [|by eexists _, _].
    destruct (payload !! 9%nat) as [slot|] eqn:E9; [|by apply fail_toss_inv].
    destruct (Z.ltb_spec (max_slot_id o) slot); [by apply fail_toss_inv|].
    rewrite set_index_Some, bind_some by by eapply lookup_lt_Some.
    destruct (parse_spec (<[9%nat := IPPROTO_TCP]> payload)) as (r & -> & Hr).
    { apply Forall_insert; [done|]. unfold IPPROTO_TCP, is_u. lia. }
    rewrite bind_some. destruct r as [p|]; [|by apply fail_toss_inv].
    destruct (Hr p eq_refl) as (Epkt & n & data & rest & [Ep Hn _ _ _ _ Ehl]). unfold from_packet. rewrite Ep, Ehl.
    assert (slice (render n ++ data ++ rest) 0 (length (render n)) = Some (render n)) as -> by by apply (slice_app [] (render n)).
    pose proof (rx_length s Hs o Eo) as Hl. unfold slot_count in Hl.
    rewrite bind_some, set_index_Some, bind_some by lia. eexists _, _. split; [done|].
    apply rx_inv_store; [done|lia|by apply tcp_wf|done].
  - destruct (_ =? _); [|by eexists _, _]. unfold decompress_compressed_tcp.
    destruct (rx_options s) as [o|] eqn:Eo; [|by eexists _, _].
    destruct (read_u8 payload 0) as [[changes c]|]; [|by apply fail_toss_inv]. destruct (negb _).
    + destruct (read_u8 payload c) as [[slot c']|] eqn:E; [|by apply fail_toss_inv].
      destruct (Z.ltb_spec (max_slot_id o) slot); [by apply fail_toss_inv|]. apply decompress_slot_total; [done|].
      pose proof (rx_length s Hs o Eo) as Hl. unfold slot_count in Hl. destruct Hs. split; cbn; [done|done|].
      intros k [= <-]. lia.
    + destruct (toss s); [by eexists _, _|]. by apply decompress_slot_total.
Qed.

(** Any sequence of frames from the peer. *)
Fixpoint decompress_all (frames : list (Z * list Z)) (s : VjState) : rust (VjState * list (result VjError (list Z))) :=
  match frames with
  | [] => Some (s, [])
  | (proto, payload) :: frames =>
      '(s, r) ← decompress_packet proto payload s; '(s, rs) ← decompress_all frames s; Some (s, r :: rs)
  end.

Lemma rx_inv_configure tx rx s : rx_inv (configure tx rx s).
Proof.
  split; cbn; [by intros o ->; rewrite length_replicate| |done].
  intros k l H. by apply lookup_replicate in H as [? _].
Qed.

(** An error leaves the slots alone and makes the decompressor toss. *)
Lemma fail_toss_error e s s' r : fail_toss e s = Some (s', r) → toss s' = true ∧ rx_states s' = rx_states s ∧ rx_options s' = rx_options s.
Proof. unfold fail_toss. by intros [= <- <-]. Qed.

Ltac tosses H := apply fail_toss_error in H as (? & ? & ?); split_and!; congruence.

Lemma decompress_slot_error changes payload c s s' e : decompress_slot changes payload c s = Some (s', Err e) →
  toss s' = true ∧ rx_states s' = rx_states s ∧ rx_options s' = rx_options s.
Proof.
  unfold decompress_slot. intros H. destruct (last_recv s); [|tosses H].
  apply bind_Some in H as ([l|] & _ & H); [|tosses H]. case_decide; [tosses H|].
  apply bind_Some in H as (ck & _ & H). apply bind_Some in H as ([[h d]|] & _ & H); [|tosses H].
  apply bind_Some in H as (? & _ & H). discriminate.
Qed.

Lemma decompress_error proto payload s s' e o :
  rx_options s = Some o → proto = PPP_VJ_COMPRESSED_TCP ∨ proto = PPP_VJ_UNCOMPRESSED_TCP →
  decompress_packet proto payload s = Some (s', Err e) →
  toss s' = true ∧ rx_states s' = rx_states s ∧ rx_options s' = rx_options s.
Proof.
  intros Ho Hp H. unfold decompress_packet in H. destruct Hp as [-> | ->]; cbn in H.
  - unfold decompress_compressed_tcp in H. rewrite Ho in H. destruct (read_u8 payload 0) as [[changes c]|]; [|tosses H].
    destruct (negb _).
    + destruct (read_u8 payload c) as [[slot c']|]; [|tosses H]. destruct (_ <? _); [tosses H|].
      apply decompress_slot_error in H as (? & ? & ?). done.
    + destruct (toss s) eqn:Et; [by injection H as <- <-|]. by apply decompress_slot_error in H.
  - unfold decompress_uncompressed_tcp in H. rewrite Ho in H. destruct (payload !! 9%nat); [|tosses H].
    destruct (_ <? _); [tosses H|]. apply bind_Some in H as (pkt & _ & H). apply bind_Some in H as ([p|] & _ & H); [|tosses H].
    apply bind_Some in H as (? & _ & H). apply bind_Some in H as (? & _ & H). discriminate.
Qed.

(** ** The theorems *)

(** C9: what a compressor sends, a decompressor with the same options rebuilds: for
    every stream of IP packets with nothing behind the datagram, correct IP
    checksums and no urgent data (TCP or not, compressible or not, any number of
    flows), relaying the packets one by one returns exactly the packets. *)
Theorem vj_lossless o r1 t2 s1 s2 pkts : Forall (λ p, clean p = true) pkts →
  relay_all pkts (configure (Some o) r1 s1) (configure t2 (Some o) s2) = Some (map Ok pkts).
Proof. intros H. apply (relay_all_synced o); [apply synced_configure|done]. Qed.

(** A TCP/IP packet without options: identification, sequence, acknowledgement, flags, data. *)
Definition tcp_packet (id seq ack flags urp : Z) (data : list Z) : list Z :=
  let h := mkHdr 0x45 0 (40 + Z.of_nat (length data)) id [0; 0; 64; 6] 0 [10; 0; 0; 1; 10; 0; 0; 2] [] [4; 0; 0; 80]
             seq ack 0x50 flags 0x2000 0x1234 urp [] in
  render (set_ipck (checksum16 (ip_bytes h)) h) ++ data.

Definition sample_stream : list (list Z) :=
  [tcp_packet 1 100 7 0x10 0 [1; 2; 3]; tcp_packet 2 103 7 0x18 0 [4; 5]; tcp_packet 4 105 9 0x10 0 []; [1; 2; 3];
   tcp_packet 5 105 9 0x10 0 [7; 7]; tcp_packet 6 107 10 0x10 0 []].

Lemma vj_lossless_witness :
  relay_all sample_stream (configure (Some VjCompressionOptions_default) None VjState_default)
    (configure None (Some VjCompressionOptions_default) VjState_default) = Some (map Ok sample_stream).
Proof. apply vj_lossless. repeat constructor; vm_compute; reflexivity. Defined.

(** The stream above uses the uncompressed, both special, and the general forms. *)
Example sample_is_compressed :
  (fix go pkts s := match pkts with
     | [] => Some []
     | p :: ps => '(s, ppp) ← compress_ip_packet p s; l ← go ps s; Some (length (payload ppp) :: l) end)
    sample_stream (configure (Some VjCompressionOptions_default) None VjState_default)
  = Some [43; 5; 4; 3; 5; 5]%nat.
Proof. vm_compute. reflexivity. Qed.

(** A peer cannot crash the decompressor: any sequence of frames, of any
    protocol number and any octets, is answered frame by frame. *)
Theorem vj_decompress_never_panics tx rx s frames : Forall (λ f, bytes f.2) frames →
  ∃ s' rs, decompress_all frames (configure tx rx s) = Some (s', rs) ∧ length rs = length frames.
Proof.
  generalize (rx_inv_configure tx rx s). generalize (configure tx rx s) as st. induction frames as [|[proto payload] frames IH];
    intros st Hst Hf; [by eexists _, _|]. inversion Hf as [|?? Hb Hf']; subst. cbn [decompress_all].
  destruct (decompress_total proto payload st Hb Hst) as (s1 & r & -> & H1). rewrite bind_some.
  destruct (IH s1 H1 Hf') as (s2 & rs & -> & Hl). eexists _, _. split; [done|]. cbn. by rewrite Hl.
Qed.

Lemma vj_decompress_never_panics_witness :
  ∃ s' rs, decompress_all [(0x2d, [0x4f]); (0x2f, [1; 2]); (0x2d, [])] (configure None (Some VjCompressionOptions_default) VjState_default)
    = Some (s', rs) ∧ length rs = 3%nat.
Proof. apply (vj_decompress_never_panics None (Some VjCompressionOptions_default) VjState_default). repeat constructor; done. Defined.

(** After any frame that fails, no slot has changed and every compressed frame
    without an explicit slot is tossed: nothing is rebuilt from a slot the peer
    may not mean. *)
Theorem vj_error_tosses proto frame s s' e o changes rest :
  rx_options s = Some o → proto = PPP_VJ_COMPRESSED_TCP ∨ proto = PPP_VJ_UNCOMPRESSED_TCP →
  decompress_packet proto frame s = Some (s', Err e) → Z.land changes NEW_C = 0 →
  rx_states s' = rx_states s ∧ decompress_packet PPP_VJ_COMPRESSED_TCP (changes :: rest) s' = Some (s', Err Tossing).
Proof.
  intros Ho Hp Hd Hc. destruct (decompress_error _ _ _ _ _ _ Ho Hp Hd) as (Ht & Hs & Ho'). split; [done|].
  unfold decompress_packet. cbn [Z.eqb PPP_IP_PROTOCOL PPP_VJ_UNCOMPRESSED_TCP PPP_VJ_COMPRESSED_TCP Pos.eqb].
  unfold decompress_compressed_tcp. rewrite Ho', Ho. cbn [read_u8 lookup list_lookup mbind option_bind]. by rewrite Hc, Ht.
Qed.

Definition failed_state : VjState :=
  set_rx (replicate 16 None) (Some 3) true (configure None (Some VjCompressionOptions_default) VjState_default).

Lemma vj_error_tosses_witness :
  decompress_packet PPP_VJ_COMPRESSED_TCP [0; 1; 2] failed_state = Some (failed_state, Err Tossing).
Proof.
  apply (vj_error_tosses 0x2d [0x40; 3; 0; 0] (configure None (Some VjCompressionOptions_default) VjState_default)
    failed_state MissingState VjCompressionOptions_default 0 [1; 2]); [reflexivity|by left|vm_compute; reflexivity|reflexivity].
Defined.

(** Urgent data breaks the round trip.  A packet with the urgent flag, then one
    without it that fits the unidirectional special form: the special branch of the
    decompressor does not clear the flag, and the second packet comes out urgent. *)
Theorem vj_stale_urgent :
  let o := VjCompressionOptions_default in
  let p1 := tcp_packet 1 100 7 0x30 0 [1; 2; 3] in
  let p2 := tcp_packet 2 103 7 0x10 0 [4; 5] in
  relay_all [p1; p2] (configure (Some o) None VjState_default) (configure None (Some o) VjState_default)
    = Some [Ok p1; Ok (<[33%nat := 0x30]> p2)] ∧ p2 !! 33%nat = Some 0x10.
Proof. vm_compute. split; reflexivity. Qed.
