(* ===== verification/ControlPacket.v ===== *)
(** * Control packets and their options

    LCP ([ppp/lcp.rs]) and IPCP ([ppp/ipcp.rs]) use the same packet layout and the
    same type-length-value options; each source file has its own copy of this code. *)
From S2P Require Import Prelude Framing.

(** ** Packets: [LcpPacket] and [IpcpPacket] *)
Record ControlPacket := mkControl { code : Z; identifier : Z; data : list Z }.
#[export] Instance ControlPacket_eq_dec : EqDecision ControlPacket.
Proof. solve_decision. Defined.

Definition parse_packet (payload : list Z) : option ControlPacket :=
  match payload with
  | c :: i :: hi :: lo :: _ =>
      let length_field := Z.lor (Z.shiftl hi 8) lo in
      let n := Z.to_nat length_field in
      if decide (n < 4 ∨ length payload < n)%nat then None
      else Some (mkControl c i (take (n - 4) (drop 4 payload)))
  | _ => None
  end.

(** [4 + self.data.len() as u16]: 16-bit arithmetic. *)
Definition packet_to_bytes (p : ControlPacket) : list Z :=
  let length_field := wrapping_add 16 4 ((Z.of_nat (length (data p))) as_u16) in
  [code p; identifier p; (Z.shiftr length_field 8) as_u8; (Z.land length_field 0xFF) as_u8] ++ data p.

(** ** Options: [LcpOption] and [IpcpOption] *)
Record ControlOption := mkOption { opt_type : Z; opt_data : list Z }.
#[export] Instance ControlOption_eq_dec : EqDecision ControlOption.
Proof. solve_decision. Defined.

(** Every turn of the loop consumes at least two octets, so [length data] turns suffice. *)
Fixpoint parse_options_fuel (fuel : nat) (data : list Z) : list ControlOption :=
  match fuel, data with
  | S fuel, t :: l :: _ =>
      let opt_len := Z.to_nat l in
      if decide (opt_len < 2 ∨ length data < opt_len)%nat then []
      else mkOption t (take (opt_len - 2) (drop 2 data)) :: parse_options_fuel fuel (drop opt_len data)
  | _, _ => []
  end.
Definition parse_options (data : list Z) : list ControlOption := parse_options_fuel (length data) data.

Definition serialize_option (o : ControlOption) : list Z :=
  [opt_type o; (Z.of_nat (2 + length (opt_data o))) as_u8] ++ opt_data o.
Definition serialize_options (opts : list ControlOption) : list Z := mjoin (serialize_option <$> opts).

(** ** Round trips *)
Definition wf_packet (p : ControlPacket) : Prop :=
  is_u8 (code p) ∧ is_u8 (identifier p) ∧ Z.of_nat (length (data p)) ≤ 65531.
Definition wf_option (o : ControlOption) : Prop := (length (opt_data o) ≤ 253)%nat.

Lemma length_field_split n : 0 ≤ n < 65536 → Z.lor (Z.shiftl (wrap 8 (Z.shiftr n 8)) 8) (wrap 8 (Z.land n 0xFF)) = n.
Proof.
  intros Hn. rewrite shiftr_8, land_255, !wrap_small by (unfold is_u; zdiv).
  rewrite lor_shiftl_add by (lia || unfold is_u; zdiv). zdiv.
Qed.

Lemma parse_packet_bytes p rest : Z.of_nat (length (data p)) ≤ 65531 → parse_packet (packet_to_bytes p ++ rest) = Some p.
Proof.
  intros Hl. unfold packet_to_bytes, wrapping_add. rewrite (wrap_small 16 (Z.of_nat _)) by (unfold is_u; lia).
  rewrite (wrap_small 16 (4 + _)) by (unfold is_u; lia). set (n := 4 + Z.of_nat (length (data p))).
  unfold parse_packet. cbn [app]. rewrite length_field_split by lia.
  rewrite decide_False by (cbn [length]; rewrite length_app; lia). cbn [drop].
  replace (Z.to_nat n - 4)%nat with (length (data p)) by lia. rewrite drop_0, take_app_length. by destruct p.
Qed.

(** More turns than octets change nothing. *)
Lemma parse_options_enough f : ∀ g data, (length data ≤ f)%nat → (length data ≤ g)%nat →
  parse_options_fuel f data = parse_options_fuel g data.
Proof.
  induction f as [|f IH]; intros [|g] data Hf Hg; try (by destruct data; cbn in *; [|lia]).
  cbn [parse_options_fuel]. destruct data as [|t [|l k]]; [done|done|]. case_decide as H; [done|].
  f_equal. apply IH; rewrite length_drop; lia.
Qed.

Lemma parse_options_S f t l k :
  parse_options_fuel (S f) (t :: l :: k) =
    if decide (Z.to_nat l < 2 ∨ length (t :: l :: k) < Z.to_nat l)%nat then []
    else mkOption t (take (Z.to_nat l - 2) (drop 2 (t :: l :: k))) :: parse_options_fuel f (drop (Z.to_nat l) (t :: l :: k)).
Proof. done. Qed.

Lemma parse_option_cons o k : wf_option o → parse_options (serialize_option o ++ k) = o :: parse_options k.
Proof.
  intros Ho. unfold wf_option in Ho. unfold serialize_option. cbn [app].
  rewrite wrap_small by (unfold is_u; lia). set (n := Z.of_nat (2 + length (opt_data o))).
  unfold parse_options at 1. cbn [length]. rewrite parse_options_S.
  rewrite decide_False by (cbn [length]; rewrite length_app; lia).
  replace (Z.to_nat n) with (S (S (length (opt_data o)))) by lia. cbn [drop Nat.sub].
  rewrite !drop_0, Nat.sub_0_r, take_app_length, drop_app_length. f_equal; [by destruct o|].
  apply parse_options_enough; cbn; rewrite ?length_app; lia.
Qed.

Lemma parse_serialize opts : Forall wf_option opts → parse_options (serialize_options opts) = opts.
Proof.
  induction opts as [|o opts IH]; [done|]. intros H. inversion H as [|?? Ho Hopts]; subst.
  change (serialize_options (o :: opts)) with (serialize_option o ++ serialize_options opts).
  rewrite parse_option_cons by done. by rewrite IH.
Qed.

(** What the parser returns is well formed, whatever the octets. *)
Lemma parse_options_wf data : bytes data → Forall wf_option (parse_options data).
Proof.
  unfold parse_options. generalize (length data) at 1 as f. intros f. revert data.
  induction f as [|f IH]; intros data Hb; [constructor|]. cbn [parse_options_fuel].
  destruct data as [|t [|l k]]; [constructor|constructor|]. case_decide as H; [constructor|].
  inversion Hb as [|?? _ Hb']; subst. inversion Hb' as [|?? Hl _]; subst. unfold is_u in Hl.
  constructor; [unfold wf_option; cbn [opt_data]; rewrite length_take; lia|]. apply IH. by apply Forall_drop.
Qed.

(** The options cover a prefix of the octets: nothing is invented. *)
Lemma parse_options_prefix data : bytes data → serialize_options (parse_options data) `prefix_of` data.
Proof.
  unfold parse_options. generalize (length data) at 1 as f. intros f. revert data.
  induction f as [|f IH]; intros data Hb; [apply prefix_nil|]. cbn [parse_options_fuel].
  destruct data as [|t [|l k]]; [done|apply prefix_nil|]. case_decide as H; [apply prefix_nil|].
  inversion Hb as [|?? _ Hb']; subst. inversion Hb' as [|?? Hl _]; subst. unfold is_u in Hl.
  set (d := t :: l :: k) in *. set (n := Z.to_nat l) in *.
  assert (serialize_option (mkOption t (take (n - 2) (drop 2 d))) = take n d) as E.
  { unfold serialize_option. cbn [opt_type opt_data]. rewrite length_take, length_drop.
    replace (2 + _ `min` _)%nat with n by lia. subst n. rewrite Z2Nat.id by lia. rewrite wrap_small by (unfold is_u; lia).
    subst d. destruct (Z.to_nat l) as [|[|m]] eqn:En; [lia|lia|]. cbn. by rewrite drop_0, Nat.sub_0_r. }
  change (serialize_option (mkOption t (take (n - 2) (drop 2 d))) ++ serialize_options (parse_options_fuel f (drop n d)) `prefix_of` d).
  rewrite E. rewrite <- (take_drop n d) at 3. apply prefix_app. apply IH. by apply Forall_drop.
Qed.

(** A control packet with options survives serialisation: parsing the octets
    (with any PPP padding behind them) gives the packet and its options back. *)
Theorem control_packet_roundtrip c i opts padding :
  Forall wf_option opts → Z.of_nat (length (serialize_options opts)) ≤ 65531 →
  ∃ p, parse_packet (packet_to_bytes (mkControl c i (serialize_options opts)) ++ padding) = Some p ∧
    code p = c ∧ identifier p = i ∧ parse_options (data p) = opts.
Proof.
  intros Ho Hl. eexists. split; [by apply parse_packet_bytes|]. split_and!; [done|done|by apply parse_serialize].
Qed.

Lemma control_packet_roundtrip_witness :
  ∃ p, parse_packet (packet_to_bytes (mkControl 1 7 (serialize_options [mkOption 1 [5; 220]; mkOption 7 []])) ++ [0; 0]) = Some p ∧
    code p = 1 ∧ identifier p = 7 ∧ parse_options (data p) = [mkOption 1 [5; 220]; mkOption 7 []].
Proof. apply control_packet_roundtrip; [repeat constructor; unfold wf_option; cbn; lia|vm_compute; discriminate]. Defined.

(** The option parser reads any octets: what it returns are well-formed options,
    and their serialisation is a prefix of the octets. *)
Theorem parse_options_sound data : bytes data →
  Forall wf_option (parse_options data) ∧ serialize_options (parse_options data) `prefix_of` data.
Proof. intros Hb. split; [by apply parse_options_wf|by apply parse_options_prefix]. Qed.

Lemma parse_options_sound_witness :
  serialize_options (parse_options [1; 4; 5; 220; 7; 2; 9; 200; 1]) `prefix_of` [1; 4; 5; 220; 7; 2; 9; 200; 1].
Proof. apply parse_options_sound. by apply bytesb_bytes. Defined.
