(* ===== verification/Lcp.v ===== *)
(** * LCP, the PPP link control protocol ([cdma-packet/src/lib/ppp/lcp.rs])

    The session of the network side: the options it requests, how it answers
    the peer's requests, the restart timer and the echo keepalive.  Log messages
    and the log context are left out; the process-wide seed and counter behind
    [session_magic] are its arguments. *)
From S2P Require Import Prelude Framing ControlPacket.

Module Lcp.

Definition CONFIGURE_REQUEST : Z := 1.
Definition CONFIGURE_ACK : Z := 2.
Definition CONFIGURE_NAK : Z := 3.
Definition CONFIGURE_REJECT : Z := 4.
Definition TERMINATE_REQUEST : Z := 5.
Definition TERMINATE_ACK : Z := 6.
Definition CODE_REJECT : Z := 7.
Definition ECHO_REQUEST : Z := 9.
Definition ECHO_REPLY : Z := 10.
Definition DISCARD_REQUEST : Z := 11.

Definition CODE_REJECT_MAX_DATA : nat := 1400.
Definition CONFIGURE_RESTART_TICKS : Z := 50.
Definition DEFAULT_MAX_CONFIGURE_RESTARTS : Z := 10.
Definition SESSION_MAGIC_INCREMENT : Z := 0x9E3779B9.
Definition DEFAULT_REQUESTED_RX_ACCM : Z := 0.

Definition OPT_MRU : Z := 1.
Definition OPT_ACCM : Z := 2.
Definition OPT_MAGIC_NUMBER : Z := 5.
Definition OPT_PFC : Z := 7.
Definition OPT_ACFC : Z := 8.
Definition SUPPORTED_OPTIONS : list Z := [OPT_MRU; OPT_ACCM; OPT_MAGIC_NUMBER; OPT_PFC; OPT_ACFC].
Definition ECHO_MAX_FAILURES : Z := 3.

(** The magic number of the [sequence]-th session and the counter's next value.  The
    loop skips a zero; two turns are enough since the increment is odd. *)
Definition magic_at (seed sequence : Z) : Z :=
  wrapping_add 32 seed (wrap 32 (sequence * SESSION_MAGIC_INCREMENT)).
Fixpoint session_magic_loop (fuel : nat) (seed sequence : Z) : option (Z * Z) :=
  match fuel with
  | O => None
  | S fuel =>
      let magic := magic_at seed sequence in
      let sequence := wrapping_add 32 sequence 1 in
      if negb (magic =? 0) then Some (magic, sequence) else session_magic_loop fuel seed sequence
  end.
Definition session_magic (seed sequence : Z) : option (Z * Z) := session_magic_loop 2 seed sequence.

Record NegotiatedOptions := mkNegotiated {
  peer_sends_pfc : bool;
  peer_sends_acfc : bool;
  we_send_pfc : bool;
  we_send_acfc : bool;
  neg_tx_accm : Z;
  neg_rx_accm : Z
}.
#[export] Instance NegotiatedOptions_eq_dec : EqDecision NegotiatedOptions.
Proof. solve_decision. Defined.
Definition NegotiatedOptions_default : NegotiatedOptions := mkNegotiated false false false false 0xFFFFFFFF 0xFFFFFFFF.

Inductive LcpState := Closed | RequestSent | AckReceived | AckSent | Opened.
#[export] Instance LcpState_eq_dec : EqDecision LcpState.
Proof. solve_decision. Defined.

Record LcpSession := mkLcpSession {
  state : LcpState;
  next_id : Z;
  our_mru : Z;
  our_magic : Z;
  magic_negotiated : bool;
  peer_acked : bool;
  we_acked : bool;
  last_request_id : option Z;
  last_request_data : list Z;
  last_acked_peer_request_data : list Z;
  restart_ticks_remaining : Z;
  configure_restarts : Z;
  max_configure_restarts : Z;
  configure_failed : bool;
  negotiated : NegotiatedOptions;
  echo_pending_id : option Z;
  echo_failures : Z
}.

Record LcpOpenState := mkLcpOpenState {
  open_negotiated : NegotiatedOptions;
  open_last_acked_peer_request_data : list Z
}.

(** Field updates. *)
Definition set_state (x : LcpState) (s : LcpSession) : LcpSession :=
  mkLcpSession x (next_id s) (our_mru s) (our_magic s) (magic_negotiated s) (peer_acked s) (we_acked s)
    (last_request_id s) (last_request_data s) (last_acked_peer_request_data s) (restart_ticks_remaining s)
    (configure_restarts s) (max_configure_restarts s) (configure_failed s) (negotiated s) (echo_pending_id s)
    (echo_failures s).
Definition set_next_id (x : Z) (s : LcpSession) : LcpSession :=
  mkLcpSession (state s) x (our_mru s) (our_magic s) (magic_negotiated s) (peer_acked s) (we_acked s)
    (last_request_id s) (last_request_data s) (last_acked_peer_request_data s) (restart_ticks_remaining s)
    (configure_restarts s) (max_configure_restarts s) (configure_failed s) (negotiated s) (echo_pending_id s)
    (echo_failures s).
Definition set_our_mru (x : Z) (s : LcpSession) : LcpSession :=
  mkLcpSession (state s) (next_id s) x (our_magic s) (magic_negotiated s) (peer_acked s) (we_acked s)
    (last_request_id s) (last_request_data s) (last_acked_peer_request_data s) (restart_ticks_remaining s)
    (configure_restarts s) (max_configure_restarts s) (configure_failed s) (negotiated s) (echo_pending_id s)
    (echo_failures s).
Definition set_our_magic (x : Z) (s : LcpSession) : LcpSession :=
  mkLcpSession (state s) (next_id s) (our_mru s) x (magic_negotiated s) (peer_acked s) (we_acked s)
    (last_request_id s) (last_request_data s) (last_acked_peer_request_data s) (restart_ticks_remaining s)
    (configure_restarts s) (max_configure_restarts s) (configure_failed s) (negotiated s) (echo_pending_id s)
    (echo_failures s).
Definition set_magic_negotiated (x : bool) (s : LcpSession) : LcpSession :=
  mkLcpSession (state s) (next_id s) (our_mru s) (our_magic s) x (peer_acked s) (we_acked s) (last_request_id s)
    (last_request_data s) (last_acked_peer_request_data s) (restart_ticks_remaining s) (configure_restarts s)
    (max_configure_restarts s) (configure_failed s) (negotiated s) (echo_pending_id s) (echo_failures s).
Definition set_peer_acked (x : bool) (s : LcpSession) : LcpSession :=
  mkLcpSession (state s) (next_id s) (our_mru s) (our_magic s) (magic_negotiated s) x (we_acked s)
    (last_request_id s) (last_request_data s) (last_acked_peer_request_data s) (restart_ticks_remaining s)
    (configure_restarts s) (max_configure_restarts s) (configure_failed s) (negotiated s) (echo_pending_id s)
    (echo_failures s).
Definition set_we_acked (x : bool) (s : LcpSession) : LcpSession :=
  mkLcpSession (state s) (next_id s) (our_mru s) (our_magic s) (magic_negotiated s) (peer_acked s) x
    (last_request_id s) (last_request_data s) (last_acked_peer_request_data s) (restart_ticks_remaining s)
    (configure_restarts s) (max_configure_restarts s) (configure_failed s) (negotiated s) (echo_pending_id s)
    (echo_failures s).
Definition set_last_request_id (x : option Z) (s : LcpSession) : LcpSession :=
  mkLcpSession (state s) (next_id s) (our_mru s) (our_magic s) (magic_negotiated s) (peer_acked s) (we_acked s) x
    (last_request_data s) (last_acked_peer_request_data s) (restart_ticks_remaining s) (configure_restarts s)
    (max_configure_restarts s) (configure_failed s) (negotiated s) (echo_pending_id s) (echo_failures s).
Definition set_last_request_data (x : list Z) (s : LcpSession) : LcpSession :=
  mkLcpSession (state s) (next_id s) (our_mru s) (our_magic s) (magic_negotiated s) (peer_acked s) (we_acked s)
    (last_request_id s) x (last_acked_peer_request_data s) (restart_ticks_remaining s) (configure_restarts s)
    (max_configure_restarts s) (configure_failed s) (negotiated s) (echo_pending_id s) (echo_failures s).
Definition set_last_acked_peer_request_data (x : list Z) (s : LcpSession) : LcpSession :=
  mkLcpSession (state s) (next_id s) (our_mru s) (our_magic s) (magic_negotiated s) (peer_acked s) (we_acked s)
    (last_request_id s) (last_request_data s) x (restart_ticks_remaining s) (configure_restarts s)
    (max_configure_restarts s) (configure_failed s) (negotiated s) (echo_pending_id s) (echo_failures s).
Definition set_restart_ticks_remaining (x : Z) (s : LcpSession) : LcpSession :=
  mkLcpSession (state s) (next_id s) (our_mru s) (our_magic s) (magic_negotiated s) (peer_acked s) (we_acked s)
    (last_request_id s) (last_request_data s) (last_acked_peer_request_data s) x (configure_restarts s)
    (max_configure_restarts s) (configure_failed s) (negotiated s) (echo_pending_id s) (echo_failures s).
Definition set_configure_restarts (x : Z) (s : LcpSession) : LcpSession :=
  mkLcpSession (state s) (next_id s) (our_mru s) (our_magic s) (magic_negotiated s) (peer_acked s) (we_acked s)
    (last_request_id s) (last_request_data s) (last_acked_peer_request_data s) (restart_ticks_remaining s) x
    (max_configure_restarts s) (configure_failed s) (negotiated s) (echo_pending_id s) (echo_failures s).
Definition set_max_configure_restarts (x : Z) (s : LcpSession) : LcpSession :=
  mkLcpSession (state s) (next_id s) (our_mru s) (our_magic s) (magic_negotiated s) (peer_acked s) (we_acked s)
    (last_request_id s) (last_request_data s) (last_acked_peer_request_data s) (restart_ticks_remaining s)
    (configure_restarts s) x (configure_failed s) (negotiated s) (echo_pending_id s) (echo_failures s).
Definition set_configure_failed (x : bool) (s : LcpSession) : LcpSession :=
  mkLcpSession (state s) (next_id s) (our_mru s) (our_magic s) (magic_negotiated s) (peer_acked s) (we_acked s)
    (last_request_id s) (last_request_data s) (last_acked_peer_request_data s) (restart_ticks_remaining s)
    (configure_restarts s) (max_configure_restarts s) x (negotiated s) (echo_pending_id s) (echo_failures s).
Definition set_negotiated (x : NegotiatedOptions) (s : LcpSession) : LcpSession :=
  mkLcpSession (state s) (next_id s) (our_mru s) (our_magic s) (magic_negotiated s) (peer_acked s) (we_acked s)
    (last_request_id s) (last_request_data s) (last_acked_peer_request_data s) (restart_ticks_remaining s)
    (configure_restarts s) (max_configure_restarts s) (configure_failed s) x (echo_pending_id s) (echo_failures s).
Definition set_echo_pending_id (x : option Z) (s : LcpSession) : LcpSession :=
  mkLcpSession (state s) (next_id s) (our_mru s) (our_magic s) (magic_negotiated s) (peer_acked s) (we_acked s)
    (last_request_id s) (last_request_data s) (last_acked_peer_request_data s) (restart_ticks_remaining s)
    (configure_restarts s) (max_configure_restarts s) (configure_failed s) (negotiated s) x (echo_failures s).
Definition set_echo_failures (x : Z) (s : LcpSession) : LcpSession :=
  mkLcpSession (state s) (next_id s) (our_mru s) (our_magic s) (magic_negotiated s) (peer_acked s) (we_acked s)
    (last_request_id s) (last_request_data s) (last_acked_peer_request_data s) (restart_ticks_remaining s)
    (configure_restarts s) (max_configure_restarts s) (configure_failed s) (negotiated s) (echo_pending_id s) x.

Definition new (magic : Z) : LcpSession :=
  mkLcpSession Closed 1 1500 magic false false false None [] [] 0 0 DEFAULT_MAX_CONFIGURE_RESTARTS false
    NegotiatedOptions_default None 0.

Definition set_max_restarts (restarts : Z) (s : LcpSession) : LcpSession :=
  set_max_configure_restarts (Z.max restarts 1) s.

Definition to_ppp (p : ControlPacket) : PppPacket := mkPppPacket LCP_PROTOCOL (packet_to_bytes p).

Definition our_request_options (s : LcpSession) : list ControlOption :=
  [mkOption OPT_MRU [(Z.shiftr (our_mru s) 8) as_u8; (Z.land (our_mru s) 0xFF) as_u8];
   mkOption OPT_ACCM (to_be32 DEFAULT_REQUESTED_RX_ACCM);
   mkOption OPT_MAGIC_NUMBER (to_be32 (our_magic s));
   mkOption OPT_PFC []; mkOption OPT_ACFC []].

Definition alloc_id (s : LcpSession) : LcpSession * Z := (set_next_id (wrapping_add 8 (next_id s) 1) s, next_id s).

Definition send_configure_request (data : list Z) (s : LcpSession) : LcpSession * PppPacket :=
  let '(s, id) := alloc_id s in
  let s := set_last_request_id (Some id) s in
  let s := set_last_request_data data s in
  let s := set_restart_ticks_remaining CONFIGURE_RESTART_TICKS s in
  let s := set_state RequestSent s in
  let s := set_configure_failed false s in
  (s, to_ppp (mkControl CONFIGURE_REQUEST id data)).

Definition start (s : LcpSession) : LcpSession * PppPacket :=
  send_configure_request (serialize_options (our_request_options s)) s.

Definition update_state (s : LcpSession) : LcpSession :=
  set_state (match we_acked s, peer_acked s with
             | true, true => Opened
             | true, false => AckSent
             | false, true => AckReceived
             | false, false => state s
             end) s.

(** What the session forgets when its requests are exhausted. *)
Definition fail_negotiation (s : LcpSession) : LcpSession :=
  let s := set_state Closed s in
  let s := set_peer_acked false s in
  let s := set_we_acked false s in
  let s := set_last_request_id None s in
  let s := set_last_request_data [] s in
  let s := set_restart_ticks_remaining 0 s in
  set_configure_failed true s.

(** [saturating_add(1)] on a [u32]. *)
Definition saturating_succ (x : Z) : Z := Z.min (x + 1) (2 ^ 32 - 1).

Definition maybe_retransmit_configure_request (s : LcpSession) : LcpSession * option PppPacket :=
  if bool_decide (state s = Closed) || bool_decide (state s = Opened) then (s, None)
  else
    match last_request_id s with
    | None => (s, None)
    | Some id =>
        if 0 <? restart_ticks_remaining s then
          (set_restart_ticks_remaining (restart_ticks_remaining s - 1) s, None)
        else
          let s := set_configure_restarts (saturating_succ (configure_restarts s)) s in
          if max_configure_restarts s <? configure_restarts s then (fail_negotiation s, None)
          else
            let s := set_restart_ticks_remaining CONFIGURE_RESTART_TICKS s in
            (s, Some (to_ppp (mkControl CONFIGURE_REQUEST id (last_request_data s))))
    end.

(** [u32::from_be_bytes] of an option of four octets. *)
Definition be32_of (l : list Z) : option Z :=
  match l with [a; b; c; d] => Some (from_be32 a b c d) | _ => None end.

(** [x.rotate_left(13)] on a [u32]. *)
Definition rotate_left_13 (x : Z) : Z := Z.lor (wrap 32 (Z.shiftl x 13)) (Z.shiftr x 19).
Definition loopback_magic (magic : Z) : Z := Z.lxor (rotate_left_13 magic) 0x5A5A5A5A.

(** One option of the peer's request: acceptable, or what goes into the Nak or the Reject. *)
Inductive verdict := Accept | Nak (o : ControlOption) | Reject (o : ControlOption).
Definition judge (magic : Z) (o : ControlOption) : verdict :=
  let t := opt_type o in
  if (t =? OPT_MRU) || (t =? OPT_ACCM) then Accept
  else if t =? OPT_MAGIC_NUMBER then
    if bool_decide (be32_of (opt_data o) = Some magic)
    then Nak (mkOption OPT_MAGIC_NUMBER (to_be32 (loopback_magic magic))) else Accept
  else if (t =? OPT_PFC) || (t =? OPT_ACFC) then Accept
  else Reject o.
Definition nak_of (v : verdict) : option ControlOption := match v with Nak o => Some o | _ => None end.
Definition reject_of (v : verdict) : option ControlOption := match v with Reject o => Some o | _ => None end.

(** The options of an acknowledged peer request, recorded one by one. *)
Definition record_peer_option (n : NegotiatedOptions) (o : ControlOption) : NegotiatedOptions :=
  let '(mkNegotiated ppfc pacfc wpfc wacfc txa rxa) := n in
  if opt_type o =? OPT_ACCM then
    match be32_of (opt_data o) with Some v => mkNegotiated ppfc pacfc wpfc wacfc v rxa | None => n end
  else if opt_type o =? OPT_PFC then mkNegotiated true pacfc wpfc wacfc txa rxa
  else if opt_type o =? OPT_ACFC then mkNegotiated ppfc true wpfc wacfc txa rxa
  else n.

(** The peer restarts an open link: everything agreed is forgotten. *)
Definition restart_negotiation (s : LcpSession) : LcpSession :=
  let s := set_peer_acked false s in
  let s := set_we_acked false s in
  let s := set_magic_negotiated false s in
  let s := set_last_request_id None s in
  let s := set_last_request_data [] s in
  let s := set_restart_ticks_remaining 0 s in
  let s := set_last_acked_peer_request_data [] s in
  let s := set_negotiated NegotiatedOptions_default s in
  set_state RequestSent s.

Definition answer_request (lcp : ControlPacket) (s : LcpSession) : LcpSession * PppPacket :=
  let opts := parse_options (data lcp) in
  let verdicts := judge (our_magic s) <$> opts in
  let reject_opts := omap reject_of verdicts in
  let nak_opts := omap nak_of verdicts in
  match reject_opts, nak_opts with
  | _ :: _, _ => (update_state s, to_ppp (mkControl CONFIGURE_REJECT (identifier lcp) (serialize_options reject_opts)))
  | [], _ :: _ => (update_state s, to_ppp (mkControl CONFIGURE_NAK (identifier lcp) (serialize_options nak_opts)))
  | [], [] =>
      let s := set_negotiated (foldl record_peer_option (negotiated s) opts) s in
      let s := set_we_acked true s in
      let s := set_last_acked_peer_request_data (data lcp) s in
      (update_state s, to_ppp (mkControl CONFIGURE_ACK (identifier lcp) (data lcp)))
  end.

Definition receive_configure_request (lcp : ControlPacket) (s : LcpSession) : LcpSession * list PppPacket :=
  if bool_decide (state s = Opened) && bool_decide (data lcp = last_acked_peer_request_data s) then
    (s, [to_ppp (mkControl CONFIGURE_ACK (identifier lcp) (data lcp))])
  else if bool_decide (state s = Opened) then
    let '(s, req) := start (restart_negotiation s) in
    let '(s, resp) := answer_request lcp s in
    (s, [req; resp])
  else
    let '(s, resp) := answer_request lcp s in
    (s, [resp]).

(** Our options as the peer acknowledged them. *)
Definition record_our_option (n : NegotiatedOptions) (o : ControlOption) : NegotiatedOptions :=
  let '(mkNegotiated ppfc pacfc wpfc wacfc txa rxa) := n in
  if opt_type o =? OPT_ACCM then
    match be32_of (opt_data o) with Some v => mkNegotiated ppfc pacfc wpfc wacfc txa v | None => n end
  else if opt_type o =? OPT_PFC then mkNegotiated ppfc pacfc true wacfc txa rxa
  else if opt_type o =? OPT_ACFC then mkNegotiated ppfc pacfc wpfc true txa rxa
  else n.
Definition clear_our_options (n : NegotiatedOptions) : NegotiatedOptions :=
  mkNegotiated (peer_sends_pfc n) (peer_sends_acfc n) false false (neg_tx_accm n) 0xFFFFFFFF.
Definition is_magic (o : ControlOption) : bool :=
  (opt_type o =? OPT_MAGIC_NUMBER) && Nat.eqb (length (opt_data o)) 4.

Definition apply_peer_ack_to_our_options (opts : list ControlOption) (s : LcpSession) : LcpSession :=
  let s := set_negotiated (foldl record_our_option (clear_our_options (negotiated s)) opts) s in
  if existsb is_magic opts then set_magic_negotiated true s else s.

Definition receive_configure_ack (lcp : ControlPacket) (s : LcpSession) : LcpSession * list PppPacket :=
  if negb (bool_decide (last_request_id s = Some (identifier lcp))) || negb (bool_decide (data lcp = last_request_data s))
  then (s, [])
  else
    let s := apply_peer_ack_to_our_options (parse_options (data lcp)) s in
    let s := set_peer_acked true s in
    let s := set_restart_ticks_remaining CONFIGURE_RESTART_TICKS s in
    (update_state s, []).

(** [iter_mut().find(..)] and [*existing = suggested]; [None] when there is no such option. *)
Fixpoint replace_option (suggested : ControlOption) (opts : list ControlOption) : option (list ControlOption) :=
  match opts with
  | [] => None
  | o :: opts =>
      if opt_type o =? opt_type suggested then Some (suggested :: opts)
      else opts' ← replace_option suggested opts; Some (o :: opts')
  end.
Definition adopt_option (opts : list ControlOption) (suggested : ControlOption) : list ControlOption :=
  match replace_option suggested opts with
  | Some opts => opts
  | None => if bool_decide (opt_type suggested ∈ SUPPORTED_OPTIONS) then opts ++ [suggested] else opts
  end.
Definition apply_nak_options (current_data nak_data : list Z) : list ControlOption :=
  foldl adopt_option (parse_options current_data) (parse_options nak_data).

Definition adopt_magic (magic : Z) (o : ControlOption) : Z :=
  if opt_type o =? OPT_MAGIC_NUMBER then default magic (be32_of (opt_data o)) else magic.

Definition receive_configure_nak (lcp : ControlPacket) (s : LcpSession) : LcpSession * list PppPacket :=
  if negb (bool_decide (last_request_id s = Some (identifier lcp))) then (s, [])
  else
    let opts := apply_nak_options (last_request_data s) (data lcp) in
    let s := set_our_magic (foldl adopt_magic (our_magic s) opts) s in
    let new_data := serialize_options opts in
    let s := set_peer_acked false s in
    let '(s, req) := send_configure_request new_data s in
    (update_state s, [req]).

Definition last_request_options (s : LcpSession) : list ControlOption := parse_options (last_request_data s).

Definition receive_configure_reject (lcp : ControlPacket) (s : LcpSession) : LcpSession * list PppPacket :=
  if negb (bool_decide (last_request_id s = Some (identifier lcp))) then (s, [])
  else
    let rejected_types := opt_type <$> parse_options (data lcp) in
    let kept := filter (λ o, opt_type o ∉ rejected_types) (last_request_options s) in
    let s := set_peer_acked false s in
    let '(s, req) := send_configure_request (serialize_options kept) s in
    (update_state s, [req]).

Definition echo_magic (s : LcpSession) : Z := if magic_negotiated s then our_magic s else 0.

Definition receive_echo_request (lcp : ControlPacket) (s : LcpSession) : LcpSession * list PppPacket :=
  let reply_data := to_be32 (echo_magic s) ++ (if decide (4 < length (data lcp))%nat then drop 4 (data lcp) else []) in
  (s, [to_ppp (mkControl ECHO_REPLY (identifier lcp) reply_data)]).

Definition receive_echo_reply (lcp : ControlPacket) (s : LcpSession) : LcpSession * list PppPacket :=
  if bool_decide (echo_pending_id s = Some (identifier lcp))
  then (set_echo_failures 0 (set_echo_pending_id None s), []) else (s, []).

Definition receive_terminate_request (lcp : ControlPacket) (s : LcpSession) : LcpSession * list PppPacket :=
  let s := set_state Closed s in
  let s := set_peer_acked false s in
  let s := set_we_acked false s in
  let s := set_magic_negotiated false s in
  let s := set_last_request_id None s in
  let s := set_last_request_data [] s in
  let s := set_last_acked_peer_request_data [] s in
  let s := set_restart_ticks_remaining 0 s in
  let s := set_negotiated NegotiatedOptions_default s in
  let s := set_configure_failed false s in
  (s, [to_ppp (mkControl TERMINATE_ACK (identifier lcp) [])]).

Definition receive_unknown (ppp : PppPacket) (s : LcpSession) : LcpSession * list PppPacket :=
  let rejected := take CODE_REJECT_MAX_DATA (payload ppp) in
  let '(s, id) := alloc_id s in
  (s, [to_ppp (mkControl CODE_REJECT id rejected)]).

Definition receive (ppp : PppPacket) (s : LcpSession) : LcpSession * list PppPacket :=
  match parse_packet (payload ppp) with
  | None => (s, [])
  | Some lcp =>
      let c := code lcp in
      if c =? CONFIGURE_REQUEST then receive_configure_request lcp s
      else if c =? CONFIGURE_ACK then receive_configure_ack lcp s
      else if c =? CONFIGURE_NAK then receive_configure_nak lcp s
      else if c =? CONFIGURE_REJECT then receive_configure_reject lcp s
      else if c =? ECHO_REQUEST then receive_echo_request lcp s
      else if c =? ECHO_REPLY then receive_echo_reply lcp s
      else if c =? TERMINATE_REQUEST then receive_terminate_request lcp s
      else if c =? DISCARD_REQUEST then (s, [])
      else if c =? CODE_REJECT then (s, [])
      else receive_unknown ppp s
  end.

Definition is_open (s : LcpSession) : bool := bool_decide (state s = Opened).

Definition open_state (s : LcpSession) : option LcpOpenState :=
  if is_open s then Some (mkLcpOpenState (negotiated s) (last_acked_peer_request_data s)) else None.

Definition restore_open_state (st : LcpOpenState) (s : LcpSession) : LcpSession :=
  let s := set_state Opened s in
  let s := set_peer_acked true s in
  let s := set_we_acked true s in
  let s := set_last_request_id None s in
  let s := set_last_request_data [] s in
  let s := set_last_acked_peer_request_data (open_last_acked_peer_request_data st) s in
  let s := set_restart_ticks_remaining 0 s in
  let s := set_configure_failed false s in
  let s := set_negotiated (open_negotiated st) s in
  let s := set_echo_pending_id None s in
  set_echo_failures 0 s.

Definition send_echo (s : LcpSession) : LcpSession * option PppPacket :=
  let '(s, id) := alloc_id s in
  let s := set_echo_pending_id (Some id) s in
  (s, Some (to_ppp (mkControl ECHO_REQUEST id (to_be32 (echo_magic s))))).

Definition maybe_send_echo (s : LcpSession) : LcpSession * option PppPacket :=
  if negb (bool_decide (state s = Opened)) then (s, None)
  else
    match echo_pending_id s with
    | Some _ =>
        let s := set_echo_failures (wrapping_add 8 (echo_failures s) 1) s in
        if ECHO_MAX_FAILURES <=? echo_failures s then (s, None) else send_echo s
    | None => send_echo s
    end.

Definition echo_dead (s : LcpSession) : bool := ECHO_MAX_FAILURES <=? echo_failures s.

Definition force_open (s : LcpSession) : LcpSession :=
  let s := set_peer_acked true s in
  let s := set_we_acked true s in
  let s := set_restart_ticks_remaining 0 s in
  let s := set_configure_failed false s in
  set_state Opened s.

End Lcp.
