(* ===== verification/LcpProofs.v ===== *)
(** * Correctness of LCP *)
From S2P Require Import Prelude Framing ControlPacket Lcp.
Import Lcp.

(** ** The magic number *)

(** [SESSION_MAGIC_INCREMENT] is a unit modulo 2^32. *)
Definition increment_inverse : Z := 0x144CBC89.
Lemma increment_unit : (SESSION_MAGIC_INCREMENT * increment_inverse) mod 2 ^ 32 = 1.
Proof. reflexivity. Qed.

Lemma magic_at_mod seed q : magic_at seed q = (seed + q * SESSION_MAGIC_INCREMENT) mod 2 ^ 32.
Proof. unfold magic_at, wrapping_add, wrap. by rewrite Z.add_mod_idemp_r by lia. Qed.

Lemma magic_at_inj seed q1 q2 : is_u32 q1 → is_u32 q2 → magic_at seed q1 = magic_at seed q2 → q1 = q2.
Proof.
  intros H1 H2 E. rewrite !magic_at_mod in E.
  assert (((q1 - q2) * SESSION_MAGIC_INCREMENT) mod 2 ^ 32 = 0) as E0.
  { replace ((q1 - q2) * SESSION_MAGIC_INCREMENT)
      with ((seed + q1 * SESSION_MAGIC_INCREMENT) - (seed + q2 * SESSION_MAGIC_INCREMENT)) by ring.
    by rewrite Zminus_mod, E, Z.sub_diag. }
  assert ((q1 - q2) mod 2 ^ 32 = 0) as E1.
  { rewrite <- (Z.mul_1_r (q1 - q2)), <- increment_unit, Z.mul_mod_idemp_r by lia.
    rewrite Z.mul_assoc, <- Z.mul_mod_idemp_l, E0 by lia. done. }
  unfold is_u in *. apply Z.mod_divide in E1; [|lia]. destruct E1 as [k E1]. assert (k = 0) as -> by lia. lia.
Qed.

Lemma session_magic_total seed q : is_u32 q →
  ∃ m q', session_magic seed q = Some (m, q') ∧ m ≠ 0 ∧ is_u32 m ∧
    (m = magic_at seed q ∨ magic_at seed q = 0 ∧ m = magic_at seed (wrapping_add 32 q 1)).
Proof.
  intros Hq. unfold session_magic, session_magic_loop.
  assert (∀ x, is_u32 (magic_at seed x)) as Hu by (intros x; by apply is_u_wrap).
  destruct (Z.eqb_spec (magic_at seed q) 0) as [E0|N0]; cbn [negb].
  2:{ eexists _, _. split; [done|]. split_and!; [done|apply Hu|by left]. }
  destruct (Z.eqb_spec (magic_at seed (wrapping_add 32 q 1)) 0) as [E1|N1]; cbn [negb].
  2:{ eexists _, _. split; [done|]. split_and!; [done|apply Hu|by right]. }
  exfalso. rewrite <- E1 in E0. apply magic_at_inj in E0; [|done|by apply is_u_wrap].
  unfold wrapping_add, wrap, is_u in *. zdiv.
Qed.

(** ** Octets and options of our requests *)
Lemma be32_of_to_be32 v : be32_of (to_be32 v) = Some v.
Proof. unfold be32_of, to_be32. f_equal. by apply from_be32_to_be32. Qed.

Lemma our_request_wf s : Forall wf_option (our_request_options s).
Proof. repeat constructor; unfold wf_option; cbn; lia. Qed.

Lemma our_request_parse s : parse_options (serialize_options (our_request_options s)) = our_request_options s.
Proof. apply parse_serialize, our_request_wf. Qed.

Lemma parse_to_ppp p : Z.of_nat (length (data p)) ≤ 65531 → parse_packet (payload (to_ppp p)) = Some p.
Proof. intros H. unfold to_ppp. cbn [payload]. rewrite <- (app_nil_r (packet_to_bytes p)). by apply parse_packet_bytes. Qed.

(** ** Every history of a session *)

(** The session as the packet engine drives it: it is started while no request of ours
    is acknowledged, the peer may send any octets at any time, and the timers may
    fire at any time.  [sent] and [rcvd] are the packets so far, latest first. *)
Inductive history (m : Z) : list PppPacket → list PppPacket → LcpSession → Prop :=
| h_new : history m [] [] (new m)
| h_max sent rcvd s r : history m sent rcvd s → history m sent rcvd (set_max_restarts r s)
| h_start sent rcvd s s' p :
    history m sent rcvd s → peer_acked s = false → start s = (s', p) → history m (p :: sent) rcvd s'
| h_receive sent rcvd s s' ppp out :
    history m sent rcvd s → bytes (payload ppp) → receive ppp s = (s', out) → history m (out ++ sent) (ppp :: rcvd) s'
| h_tick sent rcvd s s' o :
    history m sent rcvd s → maybe_retransmit_configure_request s = (s', o) → history m (option_list o ++ sent) rcvd s'
| h_echo sent rcvd s s' o :
    history m sent rcvd s → maybe_send_echo s = (s', o) → history m (option_list o ++ sent) rcvd s'.

(** The options that govern what we receive. *)
Definition our_part (n : NegotiatedOptions) : bool * bool * Z := (we_send_pfc n, we_send_acfc n, neg_rx_accm n).
Definition requested (data : list Z) : bool * bool * Z :=
  our_part (foldl record_our_option NegotiatedOptions_default (parse_options data)).

(** The options that govern what we send: those of the peer's requests, taken over one after the other. *)
Definition peer_part (n : NegotiatedOptions) : bool * bool * Z := (peer_sends_pfc n, peer_sends_acfc n, neg_tx_accm n).
Definition taken (requests : list (list Z)) : bool * bool * Z :=
  peer_part (foldl record_peer_option NegotiatedOptions_default (mjoin (parse_options <$> requests))).

Definition supported (opts : list ControlOption) : Prop :=
  Forall wf_option opts ∧ Forall (λ o, opt_type o ∈ SUPPORTED_OPTIONS) opts.

Section Invariant.
Context (sent rcvd : list PppPacket).

Definition request_sent (id : Z) (d : list Z) : Prop :=
  (∃ opts, d = serialize_options opts ∧ supported opts) ∧ to_ppp (mkControl CONFIGURE_REQUEST id d) ∈ sent.
Definition ack_received (id : Z) (d : list Z) : Prop :=
  ∃ ppp, ppp ∈ rcvd ∧ parse_packet (payload ppp) = Some (mkControl CONFIGURE_ACK id d).
Definition request_acked (d : list Z) : Prop :=
  ∃ id ppp, ppp ∈ rcvd ∧ parse_packet (payload ppp) = Some (mkControl CONFIGURE_REQUEST id d) ∧
    to_ppp (mkControl CONFIGURE_ACK id d) ∈ sent.

(** The peer's part comes from acknowledged requests; the acknowledgement that holds is that of the last. *)
Definition took (n : NegotiatedOptions) (wa : bool) (d : list Z) : Prop :=
  ∃ requests, Forall request_acked requests ∧ peer_part n = taken requests ∧ (wa = true → last requests = Some d).

Definition flags_ok (st : LcpState) (wa pa : bool) : Prop :=
  match st with
  | Opened => wa = true ∧ pa = true
  | AckSent => wa = true ∧ pa = false
  | AckReceived => wa = false ∧ pa = true
  | Closed => wa = false ∧ pa = false
  | RequestSent => pa = false
  end.

Record inv (s : LcpSession) : Prop := {
  i_flags : flags_ok (state s) (we_acked s) (peer_acked s);
  i_request : ∀ id, last_request_id s = Some id → request_sent id (last_request_data s);
  i_peer : peer_acked s = true → ∃ id, last_request_id s = Some id ∧ ack_received id (last_request_data s) ∧
    our_part (negotiated s) = requested (last_request_data s);
  i_took : took (negotiated s) (we_acked s) (last_acked_peer_request_data s)
}.
End Invariant.

Lemma took_nothing sent rcvd n d : peer_part n = peer_part NegotiatedOptions_default → took sent rcvd n false d.
Proof. intros E. exists []. split_and!; [apply Forall_nil_2|done|done]. Qed.
Lemma took_same sent rcvd n n' wa wa' d d' : took sent rcvd n wa d → peer_part n' = peer_part n →
  (wa' = true → wa = true ∧ d' = d) → took sent rcvd n' wa' d'.
Proof.
  intros (requests & Hr & En & Hd) E Hwa. exists requests. split_and!; [done|by rewrite E|]. intros Hw.
  destruct (Hwa Hw) as [Hw' ->]. by apply Hd.
Qed.

Lemma supported_nil : supported [].
Proof. by split. Qed.

Lemma inv_mono sent rcvd sent' rcvd' s : sent ⊆ sent' → rcvd ⊆ rcvd' → inv sent rcvd s → inv sent' rcvd' s.
Proof.
  intros H1 H2 [Hf Hr Hp Hw]. split; [done| | |].
  - intros id E. destruct (Hr id E) as [? ?]. split; [done|]. by apply H1.
  - intros E. destruct (Hp E) as (id & Ei & (ppp & ? & ?) & ?). exists id. split; [done|]. split; [|done].
    exists ppp. split; [by apply H2|done].
  - destruct Hw as (requests & Hq & Hw). exists requests. split; [|done]. eapply Forall_impl; [exact Hq|].
    intros d (id & ppp & ? & ? & ?). exists id, ppp. split_and!; [by apply H2|done|by apply H1].
Qed.

(** The parts of the session the invariant reads. *)
Lemma inv_ext sent rcvd s s' :
  state s' = state s → we_acked s' = we_acked s → peer_acked s' = peer_acked s → last_request_id s' = last_request_id s →
  last_request_data s' = last_request_data s → last_acked_peer_request_data s' = last_acked_peer_request_data s →
  negotiated s' = negotiated s → inv sent rcvd s → inv sent rcvd s'.
Proof.
  intros E1 E2 E3 E4 E5 E6 E7 [Hf Hr Hp Hw]. split; rewrite ?E1, ?E2, ?E3, ?E4, ?E5, ?E6, ?E7; done.
Qed.

Lemma flags_update wa pa st : flags_ok st wa pa ∨ st = RequestSent →
  flags_ok (match wa, pa with true, true => Opened | true, false => AckSent | false, true => AckReceived | false, false => st end) wa pa.
Proof. destruct wa, pa; cbn; intros [H | ->]; done. Qed.

(** Sending a request: the acknowledgement of the peer is gone. *)
Lemma inv_send sent rcvd s s' p opts : supported opts → peer_acked s = false →
  inv sent rcvd s → send_configure_request (serialize_options opts) s = (s', p) →
  inv (p :: sent) rcvd s' ∧ state s' = RequestSent ∧ peer_acked s' = false.
Proof.
  intros Ho Hpa Hinv [= <- <-]. apply (inv_mono _ _ (to_ppp (mkControl CONFIGURE_REQUEST (next_id s) (serialize_options opts)) :: sent) rcvd) in Hinv;
    [|set_solver|done]. destruct s; cbn in *. subst. destruct Hinv as [Hf Hr Hp Hw]; cbn in *. split; [|done].
  split; cbn; [done| |done|done]. intros id [= <-]. split; [by eexists|]. by left.
Qed.

Lemma inv_update sent rcvd s : inv sent rcvd s → inv sent rcvd (update_state s).
Proof.
  intros [Hf Hr Hp Hw]. split; cbn; [|done..]. apply flags_update. by left.
Qed.

(** *** The peer's request *)
Lemma record_peer_our_part opts : ∀ n, our_part (foldl record_peer_option n opts) = our_part n.
Proof.
  induction opts as [|o opts IH]; intros n; [done|]. cbn [foldl]. rewrite IH. destruct n. unfold record_peer_option.
  repeat case_match; done.
Qed.

Lemma record_peer_congr opts : ∀ n n', peer_part n = peer_part n' →
  peer_part (foldl record_peer_option n opts) = peer_part (foldl record_peer_option n' opts).
Proof.
  induction opts as [|o opts IH]; intros n n' E; [done|]. cbn [foldl]. apply IH. destruct n, n'. unfold record_peer_option.
  cbn in *. injection E as -> -> ->. repeat case_match; done.
Qed.
Lemma record_taken n requests d : peer_part n = taken requests →
  peer_part (foldl record_peer_option n (parse_options d)) = taken (requests ++ [d]).
Proof.
  intros E. unfold taken. rewrite fmap_app, join_app, foldl_app. cbn [fmap list_fmap mjoin list_join]. rewrite app_nil_r.
  by apply record_peer_congr.
Qed.
Lemma record_our_peer_part opts : ∀ n, peer_part (foldl record_our_option n opts) = peer_part n.
Proof.
  induction opts as [|o opts IH]; intros n; [done|]. cbn [foldl]. rewrite IH. destruct n. unfold record_our_option.
  repeat case_match; done.
Qed.

Lemma inv_answer sent rcvd s s' p lcp ppp :
  parse_packet (payload ppp) = Some lcp → code lcp = CONFIGURE_REQUEST → ppp ∈ rcvd →
  inv sent rcvd s → answer_request lcp s = (s', p) → inv (p :: sent) rcvd s'.
Proof.
  intros Hparse Hcode Hin Hinv. unfold answer_request.
  destruct (omap reject_of _) as [|r rs]; [destruct (omap nak_of _) as [|k ks]|]; intros [= <- <-];
    try (apply inv_update; by apply (inv_mono sent rcvd); [set_solver|done|]).
  apply (inv_mono _ _ (to_ppp (mkControl CONFIGURE_ACK (identifier lcp) (data lcp)) :: sent) rcvd) in Hinv; [|set_solver|done].
  destruct s, Hinv as [Hf Hr Hp Hw]; cbn in *. split; cbn; [by case_match|done| |].
  - intros E. rewrite record_peer_our_part. by apply Hp.
  - destruct Hw as (requests & Hq & En & _). exists (requests ++ [data lcp]). split_and!; [|by apply record_taken|by rewrite last_snoc].
    apply Forall_app. split; [done|]. apply Forall_singleton. exists (identifier lcp), ppp. split_and!; [done| |by left].
    rewrite Hparse. destruct lcp; cbn in *. by subst.
Qed.

Lemma inv_restart sent rcvd s : inv sent rcvd s → inv sent rcvd (restart_negotiation s).
Proof. intros _. destruct s. split; try done. by apply took_nothing. Qed.

Lemma our_request_supported s : supported (our_request_options s).
Proof. split; [apply our_request_wf|]. repeat constructor; cbn; set_solver. Qed.

Lemma inv_request sent rcvd s s' out lcp ppp :
  parse_packet (payload ppp) = Some lcp → code lcp = CONFIGURE_REQUEST → ppp ∈ rcvd →
  inv sent rcvd s → receive_configure_request lcp s = (s', out) → inv (out ++ sent) rcvd s'.
Proof.
  intros Hparse Hcode Hin Hinv. unfold receive_configure_request. case_match.
  { intros [= <- <-]. by apply (inv_mono sent rcvd); [set_solver|done|]. }
  clear H. case_match.
  - destruct (start _) as [s1 req] eqn:Es. destruct (answer_request lcp s1) as [s2 resp] eqn:Ea. intros [= <- <-].
    destruct (inv_send sent rcvd (restart_negotiation s) s1 req _ (our_request_supported (restart_negotiation s))) as (H1 & _ & _);
      [by destruct s|by apply inv_restart|exact Es|].
    apply (inv_mono (resp :: req :: sent) rcvd); [set_solver|done|]. by eapply inv_answer.
  - destruct (answer_request lcp s) as [s2 resp] eqn:Ea. intros [= <- <-]. by eapply inv_answer.
Qed.

(** *** The peer's acknowledgement *)
Lemma record_our_congr opts : ∀ n n', our_part n = our_part n' →
  our_part (foldl record_our_option n opts) = our_part (foldl record_our_option n' opts).
Proof.
  induction opts as [|o opts IH]; intros n n' E; [done|]. cbn [foldl]. apply IH. destruct n, n'. unfold record_our_option.
  cbn in *. injection E as -> -> ->. repeat case_match; done.
Qed.

Lemma inv_ack sent rcvd s s' out lcp ppp :
  parse_packet (payload ppp) = Some lcp → code lcp = CONFIGURE_ACK → ppp ∈ rcvd →
  inv sent rcvd s → receive_configure_ack lcp s = (s', out) → inv (out ++ sent) rcvd s'.
Proof.
  intros Hparse Hcode Hin Hinv. unfold receive_configure_ack. destruct (_ || _) eqn:E; [by intros [= <- <-]|].
  apply orb_false_iff in E as [E1 E2]. apply negb_false_iff, bool_decide_eq_true in E1, E2. intros [= <- <-].
  assert (ack_received rcvd (identifier lcp) (last_request_data s)) as Hack.
  { exists ppp. split; [done|]. rewrite Hparse. rewrite <- E2. destruct lcp; cbn in *. by subst. }
  assert (inv sent rcvd (update_state (set_peer_acked true (set_negotiated (foldl record_our_option (clear_our_options (negotiated s)) (parse_options (data lcp))) s)))) as H.
  { destruct s, Hinv as [Hf Hr Hp Hw]; cbn in *. split; cbn; [by case_match|done| |].
    - intros _. exists (identifier lcp). split_and!; [done|done|]. rewrite E2. unfold requested. by apply record_our_congr.
    - eapply took_same; [exact Hw|by rewrite record_our_peer_part|done]. }
  cbn [app]. revert H. unfold apply_peer_ack_to_our_options. destruct (existsb _ _); by apply inv_ext.
Qed.

(** *** The peer's Nak and Reject *)
Lemma replace_supported o opts opts' : wf_option o → supported opts → replace_option o opts = Some opts' → supported opts'.
Proof.
  intros Ho. revert opts'. induction opts as [|x opts IH]; intros opts' [Hw Hs]; [done|]. cbn [replace_option].
  inversion Hw as [|?? Hx Hw']; subst. inversion Hs as [|?? Hx' Hs']; subst.
  destruct (Z.eqb_spec (opt_type x) (opt_type o)) as [E|].
  - intros [= <-]. split; constructor; try done. by rewrite <- E.
  - intros H. apply bind_Some in H as (k & Hk & [= <-]). destruct (IH k) as [? ?]; [by split|done|]. split; by constructor.
Qed.

Lemma adopt_supported opts suggestions : Forall wf_option suggestions → supported opts →
  supported (foldl adopt_option opts suggestions).
Proof.
  intros Hf. revert opts. induction Hf as [|o l Ho Hl IH]; intros opts Hs; [done|]. cbn [foldl]. apply IH. unfold adopt_option.
  destruct (replace_option o opts) eqn:E; [by eapply replace_supported|]. case_bool_decide; [|done].
  destruct Hs. split; apply Forall_app; split; auto.
Qed.

Lemma pending_supported sent rcvd s id : inv sent rcvd s → last_request_id s = Some id →
  supported (parse_options (last_request_data s)).
Proof. intros Hinv E. destruct (i_request _ _ _ Hinv id E) as [(opts & -> & Hs) _]. by rewrite parse_serialize by apply Hs. Qed.

Lemma inv_forget sent rcvd s m : inv sent rcvd s → inv sent rcvd (set_state RequestSent (set_peer_acked false (set_our_magic m s))).
Proof. intros [Hf Hr Hp Hw]. by split. Qed.

(** Sending again after the peer's answer. *)
Lemma inv_resend sent rcvd s s' p opts m : supported opts → inv sent rcvd s →
  send_configure_request (serialize_options opts) (set_peer_acked false (set_our_magic m s)) = (s', p) →
  inv (p :: sent) rcvd (update_state s').
Proof.
  intros Ho Hinv E. apply inv_update.
  destruct (inv_send sent rcvd (set_state RequestSent (set_peer_acked false (set_our_magic m s))) s' p opts) as [H _];
    [done|done|by apply inv_forget|exact E|done].
Qed.

Lemma data_bytes ppp lcp : bytes (payload ppp) → parse_packet (payload ppp) = Some lcp → bytes (data lcp).
Proof.
  intros Hb. unfold parse_packet. destruct (payload ppp) as [|a [|b [|c [|d k]]]]; try done. case_decide; [done|].
  intros [= <-]. cbn [data]. unfold bytes in *. rewrite !Forall_cons in Hb. apply Forall_take. cbn. tauto.
Qed.

Lemma inv_nak sent rcvd s s' out lcp : bytes (data lcp) →
  inv sent rcvd s → receive_configure_nak lcp s = (s', out) → inv (out ++ sent) rcvd s'.
Proof.
  intros Hb Hinv. unfold receive_configure_nak. destruct (negb _) eqn:E; [by intros [= <- <-]|].
  apply negb_false_iff, bool_decide_eq_true in E. destruct (send_configure_request _ _) as [s1 req] eqn:Es. intros [= <- <-].
  eapply inv_resend; [|done|exact Es]. apply adopt_supported; [by apply parse_options_wf|by eapply pending_supported].
Qed.

Lemma set_our_magic_same s : set_our_magic (our_magic s) s = s.
Proof. by destruct s. Qed.

Lemma inv_reject sent rcvd s s' out lcp :
  inv sent rcvd s → receive_configure_reject lcp s = (s', out) → inv (out ++ sent) rcvd s'.
Proof.
  intros Hinv. unfold receive_configure_reject. destruct (negb _) eqn:E; [by intros [= <- <-]|].
  apply negb_false_iff, bool_decide_eq_true in E. destruct (send_configure_request _ _) as [s1 req] eqn:Es. intros [= <- <-].
  rewrite <- (set_our_magic_same s) in Es. eapply inv_resend; [|done|exact Es].
  destruct (pending_supported _ _ _ _ Hinv E) as [? ?]. rewrite (set_our_magic_same s). unfold last_request_options.
  split; apply Forall_forall; intros x [_ Hx]%list_elem_of_filter; revert x Hx; by apply Forall_forall.
Qed.

(** *** All events *)
Lemma inv_receive sent rcvd s s' ppp out : bytes (payload ppp) → inv sent rcvd s → receive ppp s = (s', out) →
  inv (out ++ sent) (ppp :: rcvd) s'.
Proof.
  intros Hb Hinv0. assert (inv sent (ppp :: rcvd) s) as Hinv by (apply (inv_mono sent rcvd); [done|set_solver|done]).
  clear Hinv0. unfold receive. destruct (parse_packet (payload ppp)) as [lcp|] eqn:Ep; [|by intros [= <- <-]].
  assert (ppp ∈ ppp :: rcvd) as Hin by by left. pose proof (data_bytes _ _ Hb Ep) as Hbd.
  assert (∀ out' t, state t = state s → we_acked t = we_acked s → peer_acked t = peer_acked s → last_request_id t = last_request_id s →
    last_request_data t = last_request_data s → last_acked_peer_request_data t = last_acked_peer_request_data s →
    negotiated t = negotiated s → inv (out' ++ sent) (ppp :: rcvd) t) as Hsame.
  { intros. apply (inv_ext _ _ s); try done. apply (inv_mono sent (ppp :: rcvd)); [set_solver|done|done]. }
  destruct (Z.eqb_spec (code lcp) CONFIGURE_REQUEST); [by eapply inv_request|].
  destruct (Z.eqb_spec (code lcp) CONFIGURE_ACK); [by eapply inv_ack|].
  destruct (_ =? _); [by apply inv_nak|]. destruct (_ =? _); [by apply inv_reject|].
  destruct (_ =? _); [intros [= <- <-]; by apply (Hsame [_])|].
  destruct (_ =? _); [unfold receive_echo_reply; case_match; intros [= <- <-]; by apply (Hsame [])|].
  destruct (_ =? _); [intros [= <- <-]; destruct s; split; try done; by apply took_nothing|].
  destruct (_ =? _); [by intros [= <- <-]|]. destruct (_ =? _); [by intros [= <- <-]|].
  intros [= <- <-]. by apply (Hsame [_]).
Qed.

Lemma inv_tick sent rcvd s s' o : inv sent rcvd s → maybe_retransmit_configure_request s = (s', o) →
  inv (option_list o ++ sent) rcvd s'.
Proof.
  intros Hinv. unfold maybe_retransmit_configure_request. destruct (_ || _); [by intros [= <- <-]|].
  destruct (last_request_id s) as [id|] eqn:Ei; [|by intros [= <- <-]].
  destruct (0 <? _); [intros [= <- <-]; by apply (inv_ext _ _ s)|].
  destruct (_ <? _); intros [= <- <-].
  { destruct s, Hinv as [Hf Hr Hp Hw]. split; try done. by eapply took_same; [exact Hw|..]. }
  apply (inv_ext _ _ s); try done.
  apply (inv_mono sent rcvd); [set_solver|done|done].
Qed.

Lemma inv_echo sent rcvd s s' o : inv sent rcvd s → maybe_send_echo s = (s', o) → inv (option_list o ++ sent) rcvd s'.
Proof.
  intros Hinv. unfold maybe_send_echo, send_echo, alloc_id. cbv beta iota zeta.
  assert (∀ p, inv (p ++ sent) rcvd s) as H by (intros p; apply (inv_mono sent rcvd); [set_solver|done|done]).
  destruct (negb _); [by intros [= <- <-]|]. destruct (echo_pending_id s); [destruct (_ <=? _)|]; intros [= <- <-];
    by apply (inv_ext _ _ s); try apply H.
Qed.

Lemma history_inv m sent rcvd s : history m sent rcvd s → inv sent rcvd s.
Proof.
  induction 1 as [|sent rcvd s r _ IH|sent rcvd s s' p _ IH Hp E|sent rcvd s s' ppp out _ IH Hb E|sent rcvd s s' o _ IH E|sent rcvd s s' o _ IH E].
  - split; try done. by apply took_nothing.
  - by apply (inv_ext _ _ s).
  - destruct (inv_send sent rcvd s s' p _ (our_request_supported s) Hp IH E) as [H _]. exact H.
  - by eapply inv_receive.
  - by eapply inv_tick.
  - by eapply inv_echo.
Qed.

(** ** The restart timer *)
Fixpoint ticks (n : nat) (s : LcpSession) : LcpSession * list PppPacket :=
  match n with
  | O => (s, [])
  | S n =>
      let '(s, o) := maybe_retransmit_configure_request s in
      let '(s, out) := ticks n s in
      (s, option_list o ++ out)
  end.

Lemma ticks_app a b s :
  ticks (a + b) s = let '(s1, o1) := ticks a s in let '(s2, o2) := ticks b s1 in (s2, o1 ++ o2).
Proof.
  revert s. induction a as [|a IH]; intros s; cbn [ticks Nat.add].
  - by destruct (ticks b s).
  - destruct (maybe_retransmit_configure_request s) as [s1 o]. rewrite IH. destruct (ticks a s1) as [s2 o2].
    destruct (ticks b s2). by rewrite <- (assoc_L (++)).
Qed.

(** A session that waits for an answer to its request. *)
Record waiting (s : LcpSession) (id t k : Z) : Prop := {
  w_state : state s ≠ Closed ∧ state s ≠ Opened;
  w_id : last_request_id s = Some id;
  w_ticks : restart_ticks_remaining s = t;
  w_restarts : configure_restarts s = k
}.

Lemma tick_waiting s id t k : waiting s id t k →
  maybe_retransmit_configure_request s =
    if 0 <? t then (set_restart_ticks_remaining (t - 1) s, None)
    else if max_configure_restarts s <? saturating_succ k then (fail_negotiation (set_configure_restarts (saturating_succ k) s), None)
    else (set_restart_ticks_remaining CONFIGURE_RESTART_TICKS (set_configure_restarts (saturating_succ k) s),
          Some (to_ppp (mkControl CONFIGURE_REQUEST id (last_request_data s)))).
Proof.
  intros [[H1 H2] Hid <- <-]. unfold maybe_retransmit_configure_request.
  rewrite !bool_decide_eq_false_2 by done. cbn [orb]. rewrite Hid. done.
Qed.

Lemma ticks_quiet n s id t k : waiting s id t k → Z.of_nat n ≤ t →
  ticks n s = (set_restart_ticks_remaining (t - Z.of_nat n) s, []).
Proof.
  revert s t. induction n as [|n IH]; intros s t Hw Hn.
  - rewrite Z.sub_0_r. destruct Hw as [_ _ <- _]. cbn. by destruct s.
  - cbn [ticks]. rewrite (tick_waiting s id t k Hw). destruct (Z.ltb_spec 0 t); [|lia].
    rewrite (IH _ (t - 1)); [|destruct Hw; by split|lia]. cbn [option_list app]. f_equal.
    replace (t - 1 - Z.of_nat n) with (t - Z.of_nat (S n)) by lia. by destruct s.
Qed.

Definition PERIOD : nat := S (Z.to_nat CONFIGURE_RESTART_TICKS).

(** One period: silence, then the request once more or the end. *)
Lemma one_period s id k : waiting s id CONFIGURE_RESTART_TICKS k →
  ticks PERIOD s =
    if max_configure_restarts s <? saturating_succ k
    then (fail_negotiation (set_configure_restarts (saturating_succ k) (set_restart_ticks_remaining 0 s)), [])
    else (set_configure_restarts (saturating_succ k) s, [to_ppp (mkControl CONFIGURE_REQUEST id (last_request_data s))]).
Proof.
  intros Hw. unfold PERIOD. rewrite <- Nat.add_1_r, ticks_app, (ticks_quiet _ s id CONFIGURE_RESTART_TICKS k Hw) by (unfold CONFIGURE_RESTART_TICKS; lia).
  rewrite Z2Nat.id, Z.sub_diag by (unfold CONFIGURE_RESTART_TICKS; lia). cbn [ticks].
  rewrite (tick_waiting _ id 0 k) by (destruct Hw; by split). cbn [Z.ltb Z.compare max_configure_restarts set_restart_ticks_remaining].
  destruct (_ <? _); [done|]. cbn [option_list app last_request_data set_restart_ticks_remaining]. f_equal.
  destruct Hw as [_ _ Ht _]. destruct s; cbn in *. by subst.
Qed.

Lemma saturating_small k : 0 ≤ k < 2 ^ 32 - 1 → saturating_succ k = k + 1.
Proof. unfold saturating_succ. lia. Qed.

Lemma all_periods n : ∀ s id k, waiting s id CONFIGURE_RESTART_TICKS k → 0 ≤ k → max_configure_restarts s = k + Z.of_nat n →
  max_configure_restarts s < 2 ^ 32 - 1 →
  ∃ s', ticks (S n * PERIOD) s = (s', replicate n (to_ppp (mkControl CONFIGURE_REQUEST id (last_request_data s)))) ∧
    state s' = Closed ∧ configure_failed s' = true ∧ last_request_id s' = None.
Proof.
  induction n as [|n IH]; intros s id k Hw Hk Hm Hmax.
  - rewrite Nat.mul_1_l, (one_period s id k Hw), saturating_small by lia. destruct (Z.ltb_spec (max_configure_restarts s) (k + 1)); [|lia].
    eexists. split; [done|]. done.
  - replace (S (S n) * PERIOD)%nat with (PERIOD + S n * PERIOD)%nat by lia.
    rewrite ticks_app, (one_period s id k Hw), saturating_small by lia.
    destruct (Z.ltb_spec (max_configure_restarts s) (k + 1)); [lia|].
    destruct (IH (set_configure_restarts (k + 1) s) id (k + 1)) as (s' & E & Hs'); [destruct Hw; by split|lia|cbn; lia|done|].
    rewrite E. eexists. split; [done|]. done.
Qed.

Lemma start_fields s :
  waiting (start s).1 (next_id s) CONFIGURE_RESTART_TICKS (configure_restarts s) ∧
  (start s).2 = to_ppp (mkControl CONFIGURE_REQUEST (next_id s) (last_request_data (start s).1)) ∧
  max_configure_restarts (start s).1 = max_configure_restarts s.
Proof. destruct s. by split_and!. Qed.

(** ** The restart budget *)
Inductive event := EStart | EReceive (ppp : PppPacket) | ETick | EEcho | EForceOpen.
Definition step (e : event) (s : LcpSession) : LcpSession * list PppPacket :=
  match e with
  | EStart => let '(s, p) := start s in (s, [p])
  | EReceive ppp => receive ppp s
  | ETick => let '(s, o) := maybe_retransmit_configure_request s in (s, option_list o)
  | EEcho => let '(s, o) := maybe_send_echo s in (s, option_list o)
  | EForceOpen => (force_open s, [])
  end.
(** The number of requests repeated by the timer. *)
Fixpoint repeats (es : list event) (s : LcpSession) : nat :=
  match es with
  | [] => 0
  | e :: es => (match e with ETick => length (step e s).2 | _ => 0 end + repeats es (step e s).1)%nat
  end.

Definition budget (s : LcpSession) : Z * Z := (configure_restarts s, max_configure_restarts s).

Lemma send_budget d s : budget (send_configure_request d s).1 = budget s.
Proof. done. Qed.

Lemma answer_budget lcp s : budget (answer_request lcp s).1 = budget s.
Proof. unfold answer_request. by destruct (omap reject_of _); [destruct (omap nak_of _)|]. Qed.

Lemma update_budget s : budget (update_state s) = budget s.
Proof. done. Qed.

Lemma request_budget lcp s : budget (receive_configure_request lcp s).1 = budget s.
Proof.
  unfold receive_configure_request. case_match; [done|]. case_match.
  - assert (budget (start (restart_negotiation s)).1 = budget s) as Es by done.
    destruct (start (restart_negotiation s)) as [s1 p]. cbn [fst] in Es.
    pose proof (answer_budget lcp s1) as Ea. destruct (answer_request lcp s1) as [s2 q]. cbn [fst] in *. congruence.
  - pose proof (answer_budget lcp s) as Ea. by destruct (answer_request lcp s).
Qed.

Lemma ack_budget lcp s : budget (receive_configure_ack lcp s).1 = budget s.
Proof.
  unfold receive_configure_ack. case_match; [done|]. cbn [fst]. rewrite update_budget. unfold apply_peer_ack_to_our_options.
  by destruct (existsb _ _).
Qed.

Lemma nak_budget lcp s : budget (receive_configure_nak lcp s).1 = budget s.
Proof.
  unfold receive_configure_nak. case_match; [done|]. match goal with |- context [send_configure_request ?d ?s1] =>
    pose proof (send_budget d s1) as E; destruct (send_configure_request d s1) as [s2 p] end.
  cbn [fst] in *. by rewrite update_budget, E.
Qed.

Lemma reject_budget lcp s : budget (receive_configure_reject lcp s).1 = budget s.
Proof.
  unfold receive_configure_reject. case_match; [done|]. match goal with |- context [send_configure_request ?d ?s1] =>
    pose proof (send_budget d s1) as E; destruct (send_configure_request d s1) as [s2 p] end.
  cbn [fst] in *. by rewrite update_budget, E.
Qed.

Lemma echo_reply_budget lcp s : budget (receive_echo_reply lcp s).1 = budget s.
Proof. unfold receive_echo_reply. by case_match. Qed.

Lemma receive_budget ppp s : budget (receive ppp s).1 = budget s.
Proof.
  unfold receive. destruct (parse_packet _) as [lcp|]; [|done].
  destruct (_ =? _); [apply request_budget|]. destruct (_ =? _); [apply ack_budget|].
  destruct (_ =? _); [apply nak_budget|]. destruct (_ =? _); [apply reject_budget|].
  destruct (_ =? _); [done|]. destruct (_ =? _); [apply echo_reply_budget|].
  destruct (_ =? _); [done|]. destruct (_ =? _); [done|]. by destruct (_ =? _).
Qed.

Lemma echo_budget s : budget (maybe_send_echo s).1 = budget s.
Proof. unfold maybe_send_echo. case_match; [done|]. case_match; [|done]. by case_match. Qed.

Lemma tick_budget s : is_u32 (configure_restarts s) → max_configure_restarts s < 2 ^ 32 - 1 →
  let '(s', o) := maybe_retransmit_configure_request s in
  max_configure_restarts s' = max_configure_restarts s ∧ is_u32 (configure_restarts s') ∧
  configure_restarts s ≤ configure_restarts s' ∧
  (o ≠ None → configure_restarts s' = configure_restarts s + 1 ∧ configure_restarts s' ≤ max_configure_restarts s).
Proof.
  intros Hk Hm. unfold maybe_retransmit_configure_request. destruct (_ || _); [done|].
  destruct (last_request_id s); [|done]. destruct (0 <? _); [done|].
  cbn [max_configure_restarts configure_restarts set_configure_restarts]. destruct (Z.ltb_spec (max_configure_restarts s) (saturating_succ (configure_restarts s))) as [H|H].
  - cbn. unfold saturating_succ, is_u in *. split_and!; [done|lia|lia|lia|done].
  - cbn. revert H. unfold saturating_succ, is_u in *. intros H. split_and!; [done|lia|lia|lia|]. intros _. lia.
Qed.

Lemma repeats_bound es : ∀ s, is_u32 (configure_restarts s) → max_configure_restarts s < 2 ^ 32 - 1 →
  Z.of_nat (repeats es s) ≤ Z.max 0 (max_configure_restarts s - configure_restarts s).
Proof.
  induction es as [|e es IH]; intros s Hk Hm; [cbn; lia|]. cbn [repeats].
  assert (∀ s', budget s' = budget s → Z.of_nat (repeats es s') ≤ Z.max 0 (max_configure_restarts s - configure_restarts s)) as Hsame.
  { intros s' [= E1 E2]. rewrite <- E1, <- E2. apply IH; congruence. }
  destruct e as [|ppp| | |]; cbn [step].
  - by apply Hsame.
  - apply Hsame, receive_budget.
  - pose proof (tick_budget s Hk Hm) as H. destruct (maybe_retransmit_configure_request s) as [s' o]. cbn [fst snd].
    destruct H as (E1 & E2 & E3 & E4). specialize (IH s' E2 ltac:(by rewrite E1)). rewrite E1 in IH.
    destruct o; cbn -[repeats]; [|lia]. destruct E4 as [E4 E5]; [done|]. lia.
  - pose proof (echo_budget s) as H. destruct (maybe_send_echo s). by apply Hsame.
  - by apply Hsame.
Qed.

(** ** Two sessions *)
Lemma receive_request_packet id d s : Z.of_nat (length d) ≤ 65531 →
  receive (to_ppp (mkControl CONFIGURE_REQUEST id d)) s = receive_configure_request (mkControl CONFIGURE_REQUEST id d) s.
Proof. intros H. unfold receive. by rewrite parse_to_ppp. Qed.
Lemma receive_ack_packet id d s : Z.of_nat (length d) ≤ 65531 →
  receive (to_ppp (mkControl CONFIGURE_ACK id d)) s = receive_configure_ack (mkControl CONFIGURE_ACK id d) s.
Proof. intros H. unfold receive. by rewrite parse_to_ppp. Qed.
Lemma receive_nak_packet id d s : Z.of_nat (length d) ≤ 65531 →
  receive (to_ppp (mkControl CONFIGURE_NAK id d)) s = receive_configure_nak (mkControl CONFIGURE_NAK id d) s.
Proof. intros H. unfold receive. by rewrite parse_to_ppp. Qed.

(** The octets of our first request depend on the magic number only. *)
Definition request_data (m : Z) : list Z := serialize_options (our_request_options (new m)).
Lemma length_request_data m : Z.of_nat (length (request_data m)) ≤ 65531.
Proof. cbn. lia. Qed.

Lemma request_parse m : parse_options (request_data m) = our_request_options (new m).
Proof. apply our_request_parse. Qed.

Lemma judge_request m1 m2 : judge m1 <$> our_request_options (new m2) =
  [Accept; Accept; (if bool_decide (m2 = m1) then Nak (mkOption OPT_MAGIC_NUMBER (to_be32 (loopback_magic m1))) else Accept); Accept; Accept].
Proof.
  unfold our_request_options. cbn [fmap list_fmap]. unfold judge. cbn [opt_type opt_data].
  cbn [Z.eqb OPT_MRU OPT_ACCM OPT_MAGIC_NUMBER OPT_PFC OPT_ACFC orb Pos.eqb]. rewrite be32_of_to_be32.
  change (our_magic (new m2)) with m2. repeat case_bool_decide; congruence.
Qed.

(** A request of another session is acknowledged. *)
Lemma answer_other m1 m2 id s : our_magic s = m1 → m2 ≠ m1 →
  answer_request (mkControl CONFIGURE_REQUEST id (request_data m2)) s =
    (update_state (set_last_acked_peer_request_data (request_data m2) (set_we_acked true
       (set_negotiated (foldl record_peer_option (negotiated s) (our_request_options (new m2))) s))),
     to_ppp (mkControl CONFIGURE_ACK id (request_data m2))).
Proof.
  intros <- Hm. unfold answer_request. cbn [data identifier]. rewrite request_parse, judge_request.
  rewrite bool_decide_eq_false_2 by done. done.
Qed.

(** Our own request is not. *)
Lemma answer_own m id s : our_magic s = m →
  answer_request (mkControl CONFIGURE_REQUEST id (request_data m)) s =
    (update_state s, to_ppp (mkControl CONFIGURE_NAK id (serialize_options [mkOption OPT_MAGIC_NUMBER (to_be32 (loopback_magic m))]))).
Proof.
  intros <-. unfold answer_request. cbn [data identifier]. rewrite request_parse, judge_request.
  rewrite bool_decide_eq_true_2 by done. done.
Qed.

Definition full : NegotiatedOptions := mkNegotiated true true true true 0 0.
Definition peer_side : NegotiatedOptions := mkNegotiated true true false false 0 0xFFFFFFFF.
Definition our_side : NegotiatedOptions := mkNegotiated false false true true 0xFFFFFFFF 0.

(** A started session with what it knows of the exchange. *)
Definition started (m : Z) (st : LcpState) (pa wa mn : bool) (acked : list Z) (n : NegotiatedOptions) : LcpSession :=
  mkLcpSession st 2 1500 m mn pa wa (Some 1) (request_data m) acked CONFIGURE_RESTART_TICKS 0
    DEFAULT_MAX_CONFIGURE_RESTARTS false n None 0.

Lemma start_new m : start (new m) =
  (started m RequestSent false false false [] NegotiatedOptions_default, to_ppp (mkControl CONFIGURE_REQUEST 1 (request_data m))).
Proof. done. Qed.

Lemma receive_peer_request m m' (pa : bool) mn st n :
  m' ≠ m → st = (if pa then AckReceived else RequestSent) → n = (if pa then our_side else NegotiatedOptions_default) →
  receive (to_ppp (mkControl CONFIGURE_REQUEST 1 (request_data m'))) (started m st pa false mn [] n) =
    (started m (if pa then Opened else AckSent) pa true mn (request_data m') (if pa then full else peer_side),
     [to_ppp (mkControl CONFIGURE_ACK 1 (request_data m'))]).
Proof.
  intros Hm -> ->. rewrite receive_request_packet by apply length_request_data. unfold receive_configure_request.
  rewrite bool_decide_eq_false_2 by by destruct pa. cbn [andb]. rewrite (answer_other m m') by done. by destruct pa.
Qed.

Lemma receive_peer_ack m (wa : bool) mn st n acked :
  st = (if wa then AckSent else RequestSent) → n = (if wa then peer_side else NegotiatedOptions_default) →
  receive (to_ppp (mkControl CONFIGURE_ACK 1 (request_data m))) (started m st false wa mn acked n) =
    (started m (if wa then Opened else AckReceived) true wa true acked (if wa then full else our_side), []).
Proof.
  intros -> ->. rewrite receive_ack_packet by apply length_request_data. unfold receive_configure_ack.
  cbn [last_request_id started identifier last_request_data data]. rewrite !bool_decide_eq_true_2 by done. cbn [negb orb].
  rewrite request_parse. by destruct wa.
Qed.

(** The two packets of the peer arrive in either order. *)
Definition deliver (request_first : bool) (req ack : PppPacket) (s : LcpSession) : LcpSession * list PppPacket :=
  let '(s, o1) := receive (if request_first then req else ack) s in
  let '(s, o2) := receive (if request_first then ack else req) s in
  (s, o1 ++ o2).

Lemma deliver_opens b m m' : m' ≠ m →
  deliver b (to_ppp (mkControl CONFIGURE_REQUEST 1 (request_data m'))) (to_ppp (mkControl CONFIGURE_ACK 1 (request_data m)))
    (started m RequestSent false false false [] NegotiatedOptions_default) =
  (started m Opened true true true (request_data m') full, [to_ppp (mkControl CONFIGURE_ACK 1 (request_data m'))]).
Proof.
  intros Hm. unfold deliver. destruct b.
  - rewrite receive_peer_request by done. cbv iota. by rewrite receive_peer_ack.
  - rewrite receive_peer_ack by done. cbv iota. by rewrite receive_peer_request.
Qed.

(** ** A looped-back link *)
Fixpoint loopback (n : nat) (q : list PppPacket) (s : LcpSession) : LcpSession * list PppPacket :=
  match n, q with
  | S n, p :: q => let '(s, out) := receive p s in loopback n (q ++ out) s
  | _, _ => (s, q)
  end.

(** Our request with magic number [m], and nothing agreed. *)
Record unopened (s : LcpSession) (id m : Z) : Prop := {
  u_state : state s = RequestSent; u_peer : peer_acked s = false; u_we : we_acked s = false;
  u_magic : our_magic s = m; u_id : last_request_id s = Some id; u_data : last_request_data s = request_data m
}.

Lemma unopened_request s id m : unopened s id m →
  receive (to_ppp (mkControl CONFIGURE_REQUEST id (request_data m))) s =
    (update_state s, [to_ppp (mkControl CONFIGURE_NAK id (serialize_options [mkOption OPT_MAGIC_NUMBER (to_be32 (loopback_magic m))]))]).
Proof.
  intros []. rewrite receive_request_packet by apply length_request_data. unfold receive_configure_request.
  rewrite bool_decide_eq_false_2 by by rewrite u_state0. cbn [andb]. by rewrite (answer_own m).
Qed.

Lemma nak_adopted m m' : apply_nak_options (request_data m) (serialize_options [mkOption OPT_MAGIC_NUMBER (to_be32 m')]) = our_request_options (new m').
Proof.
  unfold apply_nak_options. rewrite parse_serialize by (repeat constructor; unfold wf_option; cbn; lia).
  by rewrite request_parse.
Qed.

Lemma adopt_request_magic m m' : foldl adopt_magic m (our_request_options (new m')) = m'.
Proof. unfold our_request_options, adopt_magic. cbn [foldl opt_type opt_data]. cbn. f_equal. by apply (from_be32_to_be32 m'). Qed.

Lemma unopened_nak s id m m' : unopened s id m →
  ∃ s' id', receive (to_ppp (mkControl CONFIGURE_NAK id (serialize_options [mkOption OPT_MAGIC_NUMBER (to_be32 m')]))) s =
    (s', [to_ppp (mkControl CONFIGURE_REQUEST id' (request_data m'))]) ∧ unopened s' id' m'.
Proof.
  intros []. rewrite receive_nak_packet by (cbn; lia). unfold receive_configure_nak. cbn [identifier data].
  rewrite bool_decide_eq_true_2 by done. cbn [negb]. rewrite u_data0, nak_adopted, adopt_request_magic.
  eexists _, _. split; [done|]. destruct s; cbn in *. by subst.
Qed.

Lemma loopback_unopened n : ∀ s id m, unopened s id m →
  state (loopback n [to_ppp (mkControl CONFIGURE_REQUEST id (request_data m))] s).1 = RequestSent.
Proof.
  induction n as [n IH] using lt_wf_ind. intros s id m Hu. destruct n as [|n]; [apply Hu|]. cbn [loopback].
  rewrite (unopened_request s id m Hu). cbn [app].
  assert (unopened (update_state s) id m) as Hu' by (destruct Hu; split; cbn; rewrite ?u_we0, ?u_peer0; done). destruct n as [|n]; [apply Hu'|].
  cbn [loopback]. destruct (unopened_nak (update_state s) id m (loopback_magic m) Hu') as (s' & id' & E & Hs'). rewrite E.
  cbn [app]. apply IH; [lia|done].
Qed.

(** ** The suggested magic number *)
Lemma rotate_bit m i : is_u32 m → 0 ≤ i < 32 → Z.testbit (rotate_left_13 m) i = Z.testbit m ((i + 19) mod 32).
Proof.
  intros Hm Hi. unfold rotate_left_13, wrap. rewrite Z.lor_spec, Z.mod_pow2_bits_low, Z.shiftr_spec by lia.
  destruct (decide (i < 13)).
  - rewrite Z.shiftl_spec_low by lia. cbn [orb]. f_equal. zdiv.
  - rewrite Z.shiftl_spec by lia. rewrite (is_u_lt_pow 32 m (i + 19)) by (done || lia). rewrite orb_false_r. f_equal. zdiv.
Qed.

(** A bit of a fixed point follows from the bit thirteen places below. *)
Lemma fixed_bit m i b : is_u32 m → loopback_magic m = m → 0 ≤ i < 32 → Z.testbit m ((i + 19) mod 32) = b →
  Z.testbit m i = xorb b (Z.testbit 0x5A5A5A5A i).
Proof. intros Hm E Hi <-. rewrite <- E at 1. unfold loopback_magic. by rewrite Z.lxor_spec, rotate_bit. Qed.

Definition fixed_magic (b : bool) : Z := if b then 0xAFAFAFAF else 0x50505050.

Lemma fixed_bits m k : is_u32 m → loopback_magic m = m →
  Z.testbit m (Z.of_nat (13 * k) mod 32) = Z.testbit (fixed_magic (Z.testbit m 0)) (Z.of_nat (13 * k) mod 32).
Proof.
  intros Hm E. induction k as [|k IH]; [change (Z.testbit m 0 = Z.testbit (fixed_magic (Z.testbit m 0)) 0); by destruct (Z.testbit m 0)|].
  set (i := Z.of_nat (13 * S k) mod 32) in *. assert (0 ≤ i < 32) as Hi by (subst i; zdiv).
  assert ((i + 19) mod 32 = Z.of_nat (13 * k) mod 32) as Ej by (subst i; zdiv).
  rewrite (fixed_bit m i _ Hm E Hi eq_refl), Ej, IH, <- Ej. clearbody i. clear -Hi.
  destruct (Z.testbit m 0); unfold fixed_magic;
    (assert (i = 0 ∨ i = 1 ∨ i = 2 ∨ i = 3 ∨ i = 4 ∨ i = 5 ∨ i = 6 ∨ i = 7 ∨ i = 8 ∨ i = 9 ∨ i = 10 ∨ i = 11 ∨ i = 12 ∨ i = 13 ∨
      i = 14 ∨ i = 15 ∨ i = 16 ∨ i = 17 ∨ i = 18 ∨ i = 19 ∨ i = 20 ∨ i = 21 ∨ i = 22 ∨ i = 23 ∨ i = 24 ∨ i = 25 ∨ i = 26 ∨
      i = 27 ∨ i = 28 ∨ i = 29 ∨ i = 30 ∨ i = 31) as Hc by lia; repeat destruct Hc as [-> |Hc]; [reflexivity..|subst; reflexivity]).
Qed.

Lemma loopback_fixed m : is_u32 m → loopback_magic m = m → m = fixed_magic (Z.testbit m 0).
Proof.
  intros Hm E. apply Z.bits_inj'. intros i Hi. destruct (decide (i < 32)).
  - pose proof (fixed_bits m (Z.to_nat ((5 * i) mod 32)) Hm E) as H.
    replace (Z.of_nat (13 * Z.to_nat ((5 * i) mod 32)) mod 32) with i in H; [done|].
    rewrite Nat2Z.inj_mul, Z2Nat.id by (apply Z.mod_pos_bound; lia). rewrite Z.mul_mod_idemp_r by lia. zdiv.
  - rewrite !(is_u_lt_pow 32) by (lia || done || (unfold is_u, fixed_magic; destruct (Z.testbit m 0); lia)). done.
Qed.

(** ** The theorems *)


Definition sample_request : PppPacket := to_ppp (mkControl CONFIGURE_REQUEST 1 (request_data 5)).
Definition sample_ack : PppPacket := to_ppp (mkControl CONFIGURE_ACK 1 (request_data 9)).
Definition sample_open : LcpSession := started 9 Opened true true true (request_data 5) full.

Definition sample_sent : list PppPacket :=
  [to_ppp (mkControl CONFIGURE_ACK 1 (request_data 5)); to_ppp (mkControl CONFIGURE_REQUEST 1 (request_data 9))].
Definition sample_rcvd : list PppPacket := [sample_ack; sample_request].

(** Two sessions converge.  Each has sent its first request; each receives the other's
    request and the other's acknowledgement in either order.  Both links open, each has
    answered with one acknowledgement, both directions agree on the character map and the
    header compressions, and each uses its own magic number in echoes. *)
Theorem lcp_converges m1 m2 oa ob : m1 ≠ m2 →
  ∃ a ra b rb acka ackb a' b',
    start (new m1) = (a, ra) ∧ start (new m2) = (b, rb) ∧
    deliver oa rb ackb a = (a', [acka]) ∧ deliver ob ra acka b = (b', [ackb]) ∧
    is_open a' = true ∧ is_open b' = true ∧
    neg_tx_accm (negotiated a') = neg_rx_accm (negotiated b') ∧ neg_rx_accm (negotiated a') = neg_tx_accm (negotiated b') ∧
    we_send_pfc (negotiated a') = peer_sends_pfc (negotiated b') ∧ we_send_acfc (negotiated a') = peer_sends_acfc (negotiated b') ∧
    peer_sends_pfc (negotiated a') = we_send_pfc (negotiated b') ∧ peer_sends_acfc (negotiated a') = we_send_acfc (negotiated b') ∧
    echo_magic a' = m1 ∧ echo_magic b' = m2.
Proof.
  intros Hm. eexists _, _, _, _, _, _, _, _. rewrite !start_new.
  split; [done|]. split; [done|]. split; [apply (deliver_opens oa m1 m2); congruence|].
  split; [apply (deliver_opens ob m2 m1); congruence|]. done.
Qed.

Lemma lcp_converges_witness : ∃ a ra b rb acka ackb a' b',
  start (new 3) = (a, ra) ∧ start (new 4) = (b, rb) ∧ deliver true rb ackb a = (a', [acka]) ∧
  deliver false ra acka b = (b', [ackb]) ∧ is_open a' = true ∧ is_open b' = true.
Proof.
  destruct (lcp_converges 3 4 true false) as (a & ra & b & rb & acka & ackb & a' & b' & H1 & H2 & H3 & H4 & H5 & H6 & _); [lia|].
  exists a, ra, b, rb, acka, ackb, a', b'. auto 7.
Defined.

(** A silent peer is given up on.  After its first request, a session that has spent
    none of its restarts repeats it exactly [max_configure_restarts] times, one period
    of ticks apart, and is then closed and marked as failed. *)
Theorem lcp_gives_up s n : configure_restarts s = 0 → max_configure_restarts s = Z.of_nat n → Z.of_nat n < 2 ^ 32 - 1 →
  ∃ s1 req s', start s = (s1, req) ∧ ticks (S n * PERIOD) s1 = (s', replicate n req) ∧
    state s' = Closed ∧ configure_failed s' = true.
Proof.
  intros Hk Hm Hmax. pose proof (start_fields s) as (Hw & Er & Eb).
  destruct (all_periods n (start s).1 (next_id s) 0) as (s' & E & Hs & Hf & _); [by rewrite Hk in Hw|lia|by rewrite Eb|by rewrite Eb, Hm|].
  exists (start s).1, (start s).2, s'. split; [by destruct (start s)|]. rewrite Er. exact (conj E (conj Hs Hf)).
Qed.

Lemma lcp_gives_up_witness : ∃ s1 req s', start (new 7) = (s1, req) ∧ ticks (11 * PERIOD) s1 = (s', replicate 10 req) ∧
  state s' = Closed ∧ configure_failed s' = true.
Proof. apply (lcp_gives_up (new 7) 10); [reflexivity|reflexivity|lia]. Defined.

(** The restart counter is never reset.  Over any sequence of events whatsoever
    (openings, renegotiations, further starts) the timer repeats requests at most as often
    as restarts were left at the beginning; a session that has spent them repeats none
    in any later negotiation. *)
Theorem lcp_restarts_never_renewed es s : is_u32 (configure_restarts s) → max_configure_restarts s < 2 ^ 32 - 1 →
  Z.of_nat (repeats es s) ≤ Z.max 0 (max_configure_restarts s - configure_restarts s).
Proof. apply repeats_bound. Qed.

(** An opened session that spent its restarts, then a changed request of the peer and
    one period without an answer: the session is closed without a repeated request. *)
Definition renegotiation : list event :=
  EReceive (to_ppp (mkControl CONFIGURE_REQUEST 9 (serialize_options [mkOption OPT_PFC []]))) :: replicate PERIOD ETick.
Lemma lcp_restarts_never_renewed_witness :
  Z.of_nat (repeats renegotiation (set_configure_restarts 10 sample_open)) ≤ 0.
Proof. apply (lcp_restarts_never_renewed renegotiation (set_configure_restarts 10 sample_open)); vm_compute; [split|]; congruence. Defined.

(** A looped-back link never opens: a session that receives its own packets, for
    however long, stays in the request phase. *)
Theorem lcp_loopback_never_opens m n :
  let '(s, req) := start (new m) in is_open (loopback n [req] s).1 = false.
Proof.
  rewrite start_new. unfold is_open. rewrite (loopback_unopened n _ 1 m); [done|]. by split.
Qed.

(** The magic number suggested for a looped-back link differs from the rejected one,
    except for exactly two values, which are suggested again. *)
Theorem loopback_magic_fixed m : is_u32 m → loopback_magic m = m ↔ m = 0x50505050 ∨ m = 0xAFAFAFAF.
Proof.
  intros Hm. split; [|by intros [-> | ->]]. intros E. apply loopback_fixed in E; [|done]. rewrite E. unfold fixed_magic.
  case_match; auto.
Qed.

Lemma loopback_magic_fixed_witness : loopback_magic 1 = 1 ↔ 1 = 0x50505050 ∨ 1 = 0xAFAFAFAF.
Proof. apply loopback_magic_fixed. unfold is_u. lia. Defined.

(** Sessions of one process get non-zero magic numbers, and two sessions created with
    different values of the counter get different ones unless the zero was skipped. *)
Theorem session_magic_distinct seed q1 q2 : is_u32 q1 → is_u32 q2 → q1 ≠ q2 →
  magic_at seed q1 ≠ 0 → magic_at seed q2 ≠ 0 →
  ∃ m1 m2 n1 n2, session_magic seed q1 = Some (m1, n1) ∧ session_magic seed q2 = Some (m2, n2) ∧ m1 ≠ 0 ∧ m2 ≠ 0 ∧ m1 ≠ m2.
Proof.
  intros H1 H2 Hne N1 N2. destruct (session_magic_total seed q1 H1) as (m1 & n1 & E1 & ? & _ & [Em1|[? _]]); [|done].
  destruct (session_magic_total seed q2 H2) as (m2 & n2 & E2 & ? & _ & [Em2|[? _]]); [|done].
  exists m1, m2, n1, n2. split_and!; try done. rewrite Em1, Em2. intros E. by apply magic_at_inj in E.
Qed.

Lemma session_magic_distinct_witness : ∃ m1 m2 n1 n2, session_magic 77 0 = Some (m1, n1) ∧ session_magic 77 1 = Some (m2, n2) ∧
  m1 ≠ 0 ∧ m2 ≠ 0 ∧ m1 ≠ m2.
Proof. apply session_magic_distinct; vm_compute; try split; congruence. Defined.

(** Options of an earlier request survive a changed one.  Before the link opens the
    peer asks for both compressions and an empty character map, then, in a second request
    that is also acknowledged, for none of them: the link opens with the options of the
    first request in force. *)
Theorem lcp_stale_options :
  let s := (start (new 9)).1 in
  let first := to_ppp (mkControl CONFIGURE_REQUEST 1 (serialize_options [mkOption OPT_ACCM [0; 0; 0; 0]; mkOption OPT_PFC []; mkOption OPT_ACFC []])) in
  let second := to_ppp (mkControl CONFIGURE_REQUEST 2 (serialize_options [mkOption OPT_MRU [5; 220]])) in
  let s := (receive sample_ack (receive second (receive first s).1).1).1 in
  is_open s = true ∧ parse_options (last_acked_peer_request_data s) = [mkOption OPT_MRU [5; 220]] ∧
  peer_sends_pfc (negotiated s) = true ∧ peer_sends_acfc (negotiated s) = true ∧ neg_tx_accm (negotiated s) = 0.
Proof. vm_compute. repeat split. Qed.
