(* ===== verification/Ipcp.v ===== *)
(** * IPCP, the PPP control protocol for IP ([cdma-packet/src/lib/ppp/ipcp.rs])

    The session of the network side: it requests its own address and header
    compression, and assigns the mobile its address and name servers.  Log
    messages and the log context are left out. *)
From S2P Require Import Prelude Framing ControlPacket IpcpConfig Vj.

Module Ipcp.

Definition IPCP_PROTOCOL : Z := 0x8021.
Definition CONFIGURE_REQUEST : Z := 1.
Definition CONFIGURE_ACK : Z := 2.
Definition CONFIGURE_NAK : Z := 3.
Definition CONFIGURE_REJECT : Z := 4.
Definition TERMINATE_REQUEST : Z := 5.
Definition TERMINATE_ACK : Z := 6.
Definition CODE_REJECT : Z := 7.

Definition CONFIGURE_RESTART_TICKS : Z := 50.
Definition DEFAULT_MAX_CONFIGURE_RESTARTS : Z := 10.
Definition MAX_FAILURE : Z := 5.
Definition CODE_REJECT_MAX_DATA : nat := 1400.

Definition IPCP_OPT_IP_COMPRESSION : Z := 2.
Definition OPT_IP_ADDRESS : Z := 3.
Definition OPT_MOBILE_IPV4 : Z := 4.
Definition OPT_PRIMARY_DNS : Z := 129.
Definition OPT_SECONDARY_DNS : Z := 131.

Definition ip_to_bytes (a : Ipv4Addr) : list Z := octets a.
Definition bytes_to_ip (data : list Z) : option Ipv4Addr :=
  match data with [a; b; c; d] => Some (mkIp a b c d) | _ => None end.

(** The packets and options of this file are those of [ControlPacket]. *)
Definition to_ppp (p : ControlPacket) : PppPacket := mkPppPacket IPCP_PROTOCOL (packet_to_bytes p).

(** [iter().find(|o| o.opt_type == t)] *)
Definition find_option (t : Z) (opts : list ControlOption) : option ControlOption :=
  find (λ o, opt_type o =? t) opts.

Definition configure_request_peer_ip (ppp : PppPacket) : option Ipv4Addr :=
  ipcp ← parse_packet (payload ppp);
  if negb (code ipcp =? CONFIGURE_REQUEST) then None
  else o ← find_option OPT_IP_ADDRESS (parse_options (data ipcp)); bytes_to_ip (opt_data o).

Inductive IpcpState := Closed | RequestSent | AckReceived | AckSent | Opened.
#[export] Instance IpcpState_eq_dec : EqDecision IpcpState.
Proof. solve_decision. Defined.

Record IpcpSession := mkIpcpSession {
  state : IpcpState;
  config : IpcpConfig;
  next_id : Z;
  peer_acked : bool;
  we_acked : bool;
  last_request_id : option Z;
  last_request_data : list Z;
  last_acked_peer_request_data : list Z;
  restart_ticks_remaining : Z;
  configure_restarts : Z;
  max_configure_restarts : Z;
  configure_failed : bool;
  consecutive_naks_sent : gmap Z Z;
  request_local_ip : bool;
  request_vj : bool;
  requested_vj : VjCompressionOptions;
  peer_vj : option VjCompressionOptions;
  local_vj : option VjCompressionOptions
}.

Record IpcpOpenState := mkIpcpOpenState {
  open_config : IpcpConfig;
  open_request_local_ip : bool;
  open_request_vj : bool;
  open_requested_vj : VjCompressionOptions;
  open_peer_vj : option VjCompressionOptions;
  open_local_vj : option VjCompressionOptions;
  open_last_acked_peer_request_data : list Z
}.

(** Field updates. *)
Definition set_state (x : IpcpState) (s : IpcpSession) : IpcpSession :=
  mkIpcpSession x (config s) (next_id s) (peer_acked s) (we_acked s) (last_request_id s) (last_request_data s)
    (last_acked_peer_request_data s) (restart_ticks_remaining s) (configure_restarts s) (max_configure_restarts s)
    (configure_failed s) (consecutive_naks_sent s) (request_local_ip s) (request_vj s) (requested_vj s) (peer_vj s)
    (local_vj s).
Definition set_config (x : IpcpConfig) (s : IpcpSession) : IpcpSession :=
  mkIpcpSession (state s) x (next_id s) (peer_acked s) (we_acked s) (last_request_id s) (last_request_data s)
    (last_acked_peer_request_data s) (restart_ticks_remaining s) (configure_restarts s) (max_configure_restarts s)
    (configure_failed s) (consecutive_naks_sent s) (request_local_ip s) (request_vj s) (requested_vj s) (peer_vj s)
    (local_vj s).
Definition set_next_id (x : Z) (s : IpcpSession) : IpcpSession :=
  mkIpcpSession (state s) (config s) x (peer_acked s) (we_acked s) (last_request_id s) (last_request_data s)
    (last_acked_peer_request_data s) (restart_ticks_remaining s) (configure_restarts s) (max_configure_restarts s)
    (configure_failed s) (consecutive_naks_sent s) (request_local_ip s) (request_vj s) (requested_vj s) (peer_vj s)
    (local_vj s).
Definition set_peer_acked (x : bool) (s : IpcpSession) : IpcpSession :=
  mkIpcpSession (state s) (config s) (next_id s) x (we_acked s) (last_request_id s) (last_request_data s)
    (last_acked_peer_request_data s) (restart_ticks_remaining s) (configure_restarts s) (max_configure_restarts s)
    (configure_failed s) (consecutive_naks_sent s) (request_local_ip s) (request_vj s) (requested_vj s) (peer_vj s)
    (local_vj s).
Definition set_we_acked (x : bool) (s : IpcpSession) : IpcpSession :=
  mkIpcpSession (state s) (config s) (next_id s) (peer_acked s) x (last_request_id s) (last_request_data s)
    (last_acked_peer_request_data s) (restart_ticks_remaining s) (configure_restarts s) (max_configure_restarts s)
    (configure_failed s) (consecutive_naks_sent s) (request_local_ip s) (request_vj s) (requested_vj s) (peer_vj s)
    (local_vj s).
Definition set_last_request_id (x : option Z) (s : IpcpSession) : IpcpSession :=
  mkIpcpSession (state s) (config s) (next_id s) (peer_acked s) (we_acked s) x (last_request_data s)
    (last_acked_peer_request_data s) (restart_ticks_remaining s) (configure_restarts s) (max_configure_restarts s)
    (configure_failed s) (consecutive_naks_sent s) (request_local_ip s) (request_vj s) (requested_vj s) (peer_vj s)
    (local_vj s).
Definition set_last_request_data (x : list Z) (s : IpcpSession) : IpcpSession :=
  mkIpcpSession (state s) (config s) (next_id s) (peer_acked s) (we_acked s) (last_request_id s) x
    (last_acked_peer_request_data s) (restart_ticks_remaining s) (configure_restarts s) (max_configure_restarts s)
    (configure_failed s) (consecutive_naks_sent s) (request_local_ip s) (request_vj s) (requested_vj s) (peer_vj s)
    (local_vj s).
Definition set_last_acked_peer_request_data (x : list Z) (s : IpcpSession) : IpcpSession :=
  mkIpcpSession (state s) (config s) (next_id s) (peer_acked s) (we_acked s) (last_request_id s)
    (last_request_data s) x (restart_ticks_remaining s) (configure_restarts s) (max_configure_restarts s)
    (configure_failed s) (consecutive_naks_sent s) (request_local_ip s) (request_vj s) (requested_vj s) (peer_vj s)
    (local_vj s).
Definition set_restart_ticks_remaining (x : Z) (s : IpcpSession) : IpcpSession :=
  mkIpcpSession (state s) (config s) (next_id s) (peer_acked s) (we_acked s) (last_request_id s)
    (last_request_data s) (last_acked_peer_request_data s) x (configure_restarts s) (max_configure_restarts s)
    (configure_failed s) (consecutive_naks_sent s) (request_local_ip s) (request_vj s) (requested_vj s) (peer_vj s)
    (local_vj s).
Definition set_configure_restarts (x : Z) (s : IpcpSession) : IpcpSession :=
  mkIpcpSession (state s) (config s) (next_id s) (peer_acked s) (we_acked s) (last_request_id s)
    (last_request_data s) (last_acked_peer_request_data s) (restart_ticks_remaining s) x (max_configure_restarts s)
    (configure_failed s) (consecutive_naks_sent s) (request_local_ip s) (request_vj s) (requested_vj s) (peer_vj s)
    (local_vj s).
Definition set_max_configure_restarts (x : Z) (s : IpcpSession) : IpcpSession :=
  mkIpcpSession (state s) (config s) (next_id s) (peer_acked s) (we_acked s) (last_request_id s)
    (last_request_data s) (last_acked_peer_request_data s) (restart_ticks_remaining s) (configure_restarts s) x
    (configure_failed s) (consecutive_naks_sent s) (request_local_ip s) (request_vj s) (requested_vj s) (peer_vj s)
    (local_vj s).
Definition set_configure_failed (x : bool) (s : IpcpSession) : IpcpSession :=
  mkIpcpSession (state s) (config s) (next_id s) (peer_acked s) (we_acked s) (last_request_id s)
    (last_request_data s) (last_acked_peer_request_data s) (restart_ticks_remaining s) (configure_restarts s)
    (max_configure_restarts s) x (consecutive_naks_sent s) (request_local_ip s) (request_vj s) (requested_vj s)
    (peer_vj s) (local_vj s).
Definition set_consecutive_naks_sent (x : gmap Z Z) (s : IpcpSession) : IpcpSession :=
  mkIpcpSession (state s) (config s) (next_id s) (peer_acked s) (we_acked s) (last_request_id s)
    (last_request_data s) (last_acked_peer_request_data s) (restart_ticks_remaining s) (configure_restarts s)
    (max_configure_restarts s) (configure_failed s) x (request_local_ip s) (request_vj s) (requested_vj s)
    (peer_vj s) (local_vj s).
Definition set_request_local_ip (x : bool) (s : IpcpSession) : IpcpSession :=
  mkIpcpSession (state s) (config s) (next_id s) (peer_acked s) (we_acked s) (last_request_id s)
    (last_request_data s) (last_acked_peer_request_data s) (restart_ticks_remaining s) (configure_restarts s)
    (max_configure_restarts s) (configure_failed s) (consecutive_naks_sent s) x (request_vj s) (requested_vj s)
    (peer_vj s) (local_vj s).
Definition set_request_vj (x : bool) (s : IpcpSession) : IpcpSession :=
  mkIpcpSession (state s) (config s) (next_id s) (peer_acked s) (we_acked s) (last_request_id s)
    (last_request_data s) (last_acked_peer_request_data s) (restart_ticks_remaining s) (configure_restarts s)
    (max_configure_restarts s) (configure_failed s) (consecutive_naks_sent s) (request_local_ip s) x
    (requested_vj s) (peer_vj s) (local_vj s).
Definition set_requested_vj (x : VjCompressionOptions) (s : IpcpSession) : IpcpSession :=
  mkIpcpSession (state s) (config s) (next_id s) (peer_acked s) (we_acked s) (last_request_id s)
    (last_request_data s) (last_acked_peer_request_data s) (restart_ticks_remaining s) (configure_restarts s)
    (max_configure_restarts s) (configure_failed s) (consecutive_naks_sent s) (request_local_ip s) (request_vj s) x
    (peer_vj s) (local_vj s).
Definition set_peer_vj (x : option VjCompressionOptions) (s : IpcpSession) : IpcpSession :=
  mkIpcpSession (state s) (config s) (next_id s) (peer_acked s) (we_acked s) (last_request_id s)
    (last_request_data s) (last_acked_peer_request_data s) (restart_ticks_remaining s) (configure_restarts s)
    (max_configure_restarts s) (configure_failed s) (consecutive_naks_sent s) (request_local_ip s) (request_vj s)
    (requested_vj s) x (local_vj s).
Definition set_local_vj (x : option VjCompressionOptions) (s : IpcpSession) : IpcpSession :=
  mkIpcpSession (state s) (config s) (next_id s) (peer_acked s) (we_acked s) (last_request_id s)
    (last_request_data s) (last_acked_peer_request_data s) (restart_ticks_remaining s) (configure_restarts s)
    (max_configure_restarts s) (configure_failed s) (consecutive_naks_sent s) (request_local_ip s) (request_vj s)
    (requested_vj s) (peer_vj s) x.

Definition new (config : IpcpConfig) : IpcpSession :=
  mkIpcpSession Closed config 1 false false None [] [] 0 0 DEFAULT_MAX_CONFIGURE_RESTARTS false ∅ true
    (enable_uplink_vj_compression config) VjCompressionOptions_default None None.

Definition set_max_restarts (restarts : Z) (s : IpcpSession) : IpcpSession :=
  set_max_configure_restarts (Z.max restarts 1) s.

Definition our_request_data (s : IpcpSession) : list Z :=
  serialize_options
    ((if request_local_ip s then [mkOption OPT_IP_ADDRESS (ip_to_bytes (our_ip (config s)))] else []) ++
     (if request_vj s then [mkOption IPCP_OPT_IP_COMPRESSION (to_ipcp_data (requested_vj s))] else [])).

Definition alloc_id (s : IpcpSession) : IpcpSession * Z := (set_next_id (wrapping_add 8 (next_id s) 1) s, next_id s).

Definition send_configure_request (data : list Z) (s : IpcpSession) : IpcpSession * PppPacket :=
  let '(s, id) := alloc_id s in
  let s := set_last_request_id (Some id) s in
  let s := set_last_request_data data s in
  let s := set_restart_ticks_remaining CONFIGURE_RESTART_TICKS s in
  let s := set_state RequestSent s in
  let s := set_configure_failed false s in
  (s, to_ppp (mkControl CONFIGURE_REQUEST id data)).

Definition start (s : IpcpSession) : IpcpSession * PppPacket := send_configure_request (our_request_data s) s.

Definition update_state (s : IpcpSession) : IpcpSession :=
  set_state (match we_acked s, peer_acked s with
             | true, true => Opened
             | true, false => AckSent
             | false, true => AckReceived
             | false, false => state s
             end) s.

Definition fail_negotiation (s : IpcpSession) : IpcpSession :=
  let s := set_state Closed s in
  let s := set_peer_acked false s in
  let s := set_we_acked false s in
  let s := set_last_request_id None s in
  let s := set_last_request_data [] s in
  let s := set_restart_ticks_remaining 0 s in
  set_configure_failed true s.

(** [saturating_add(1)] on a [u32]. *)
Definition saturating_succ (x : Z) : Z := Z.min (x + 1) (2 ^ 32 - 1).

Definition maybe_retransmit_configure_request (s : IpcpSession) : IpcpSession * option PppPacket :=
  if bool_decide (state s = Closed) || bool_decide (state s = Opened) || bool_decide (state s = AckReceived) then (s, None)
  else
    match last_request_id s with
    | None => (s, None)
    | Some id =>
        if 0 <? restart_ticks_remaining s then
          (set_restart_ticks_remaining (restart_ticks_remaining s - 1) s, None)
        else
          let s := set_configure_restarts (saturating_succ (configure_restarts s)) s in
          if max_configure_restarts s <? configure_restarts s then (fail_negotiation s, None)
          else
            let s := set_restart_ticks_remaining CONFIGURE_RESTART_TICKS s in
            (s, Some (to_ppp (mkControl CONFIGURE_REQUEST id (last_request_data s))))
    end.

Definition nak_count (t : Z) (s : IpcpSession) : Z := default 0 (consecutive_naks_sent s !! t).
(** [*consecutive_naks_sent.entry(t).or_insert(0) += 1] *)
Definition count_nak (naks : gmap Z Z) (o : ControlOption) : gmap Z Z :=
  <[opt_type o := wrapping_add 32 (default 0 (naks !! opt_type o)) 1]> naks.

Definition parse_vj_option (data : list Z) : option VjCompressionOptions :=
  o ← find_option IPCP_OPT_IP_COMPRESSION (parse_options data); from_ipcp_data (opt_data o).

(** One option of the peer's request: acceptable, or what goes into the Nak or the Reject. *)
Inductive verdict := Accept | Nak (o : ControlOption) | Reject (o : ControlOption).
Definition judge_address (o : ControlOption) (a : Ipv4Addr) : verdict :=
  if bool_decide (bytes_to_ip (opt_data o) = Some a) then Accept else Nak (mkOption (opt_type o) (ip_to_bytes a)).
Definition judge (c : IpcpConfig) (o : ControlOption) : verdict :=
  let t := opt_type o in
  if t =? OPT_IP_ADDRESS then judge_address o (peer_ip c)
  else if t =? OPT_PRIMARY_DNS then judge_address o (primary_dns c)
  else if t =? OPT_SECONDARY_DNS then judge_address o (secondary_dns c)
  else if t =? IPCP_OPT_IP_COMPRESSION then
    if negb (enable_downlink_vj_compression c) || bool_decide (from_ipcp_data (opt_data o) = None) then Reject o else Accept
  else Reject o.
Definition nak_of (v : verdict) : option ControlOption := match v with Nak o => Some o | _ => None end.
Definition reject_of (v : verdict) : option ControlOption := match v with Reject o => Some o | _ => None end.

Definition has_option (t : Z) (opts : list ControlOption) : bool := existsb (λ o, opt_type o =? t) opts.

(** The suggestion for a request without an IP-Address option. *)
Definition appended (opts : list ControlOption) (s : IpcpSession) : list ControlOption :=
  if negb (has_option OPT_IP_ADDRESS opts) && negb (mip_enabled (mobile_ip (config s)))
     && (nak_count OPT_IP_ADDRESS s <? MAX_FAILURE)
  then [mkOption OPT_IP_ADDRESS (ip_to_bytes (peer_ip (config s)))] else [].

(** [peer_naks.retain(..)]: at Max-Failure a Nak is dropped and the peer's option rejected. *)
Definition keep_nak (s : IpcpSession) (o : ControlOption) : bool :=
  ((opt_type o =? OPT_IP_ADDRESS) && negb (mip_enabled (mobile_ip (config s))))
  || negb (MAX_FAILURE <=? nak_count (opt_type o) s).
Definition retained (s : IpcpSession) (naks : list ControlOption) : list ControlOption :=
  filter (λ o, keep_nak s o = true) naks.
Definition converted (s : IpcpSession) (opts naks : list ControlOption) : list ControlOption :=
  omap (λ o, find_option (opt_type o) opts) (filter (λ o, keep_nak s o = false) naks).

Definition answer_request (ipcp : ControlPacket) (s : IpcpSession) : IpcpSession * PppPacket :=
  let opts := parse_options (data ipcp) in
  let verdicts := judge (config s) <$> opts in
  let peer_naks := omap nak_of verdicts in
  let rejects := omap reject_of verdicts ++ converted s opts peer_naks in
  let nak_opts := retained s peer_naks ++ appended opts s in
  match rejects, nak_opts with
  | _ :: _, _ =>
      let s := set_we_acked false s in
      let s := set_peer_vj None s in
      (update_state s, to_ppp (mkControl CONFIGURE_REJECT (identifier ipcp) (serialize_options rejects)))
  | [], [] =>
      let s := set_we_acked true s in
      let s := set_last_acked_peer_request_data (data ipcp) s in
      let s := set_peer_vj (parse_vj_option (data ipcp)) s in
      let s := set_consecutive_naks_sent ∅ s in
      (update_state s, to_ppp (mkControl CONFIGURE_ACK (identifier ipcp) (data ipcp)))
  | [], _ :: _ =>
      let s := set_consecutive_naks_sent (foldl count_nak (consecutive_naks_sent s) nak_opts) s in
      let s := set_peer_vj None s in
      (update_state s, to_ppp (mkControl CONFIGURE_NAK (identifier ipcp) (serialize_options nak_opts)))
  end.

(** Back to the initial requests. *)
Definition reset_requests (s : IpcpSession) : IpcpSession :=
  let s := set_peer_acked false s in
  let s := set_we_acked false s in
  let s := set_last_request_id None s in
  let s := set_last_request_data [] s in
  let s := set_last_acked_peer_request_data [] s in
  let s := set_restart_ticks_remaining 0 s in
  let s := set_consecutive_naks_sent ∅ s in
  let s := set_request_local_ip true s in
  let s := set_request_vj (enable_uplink_vj_compression (config s)) s in
  let s := set_requested_vj VjCompressionOptions_default s in
  let s := set_peer_vj None s in
  set_local_vj None s.

Definition receive_configure_request (ipcp : ControlPacket) (s : IpcpSession) : IpcpSession * list PppPacket :=
  if bool_decide (state s = Opened) && bool_decide (data ipcp = last_acked_peer_request_data s) then
    (s, [to_ppp (mkControl CONFIGURE_ACK (identifier ipcp) (data ipcp))])
  else if bool_decide (state s = Opened) then
    let '(s, req) := start (set_state RequestSent (reset_requests s)) in
    let '(s, resp) := answer_request ipcp s in
    (s, [req; resp])
  else
    let '(s, resp) := answer_request ipcp s in
    (s, [resp]).

Definition receive_configure_ack (ipcp : ControlPacket) (s : IpcpSession) : IpcpSession * list PppPacket :=
  if negb (bool_decide (last_request_id s = Some (identifier ipcp))) || negb (bool_decide (data ipcp = last_request_data s))
  then (s, [])
  else
    let s := set_peer_acked true s in
    let s := set_local_vj (parse_vj_option (data ipcp)) s in
    let s := set_restart_ticks_remaining 0 s in
    (update_state s, []).

(** The options of a Nak: our address is kept, a supported compression is adopted. *)
Definition adopt_nak (s : IpcpSession) (o : ControlOption) : IpcpSession :=
  if opt_type o =? IPCP_OPT_IP_COMPRESSION then
    match from_ipcp_data (opt_data o) with
    | Some vj => set_requested_vj vj s
    | None => set_request_vj false s
    end
  else s.

Definition receive_configure_nak (ipcp : ControlPacket) (s : IpcpSession) : IpcpSession * list PppPacket :=
  if negb (bool_decide (last_request_id s = Some (identifier ipcp))) then (s, [])
  else
    let s := foldl adopt_nak s (parse_options (data ipcp)) in
    let request := our_request_data s in
    let s := set_peer_acked false s in
    let s := set_local_vj None s in
    let '(s, req) := send_configure_request request s in
    (update_state s, [req]).

Definition drop_rejected (s : IpcpSession) (o : ControlOption) : IpcpSession :=
  let s := if opt_type o =? OPT_IP_ADDRESS then set_request_local_ip false s else s in
  if opt_type o =? IPCP_OPT_IP_COMPRESSION then set_request_vj false s else s.

Definition receive_configure_reject (ipcp : ControlPacket) (s : IpcpSession) : IpcpSession * list PppPacket :=
  if negb (bool_decide (last_request_id s = Some (identifier ipcp))) then (s, [])
  else
    let s := foldl drop_rejected s (parse_options (data ipcp)) in
    let s := set_peer_acked false s in
    let s := set_local_vj None s in
    let '(s, req) := send_configure_request (our_request_data s) s in
    (update_state s, [req]).

Definition receive_terminate_request (ipcp : ControlPacket) (s : IpcpSession) : IpcpSession * list PppPacket :=
  let s := set_state Closed (reset_requests s) in
  let s := set_configure_failed false s in
  (s, [to_ppp (mkControl TERMINATE_ACK (identifier ipcp) [])]).

Definition receive_terminate_ack (s : IpcpSession) : IpcpSession * list PppPacket :=
  let s := set_state Closed s in
  let s := set_peer_acked false s in
  let s := set_we_acked false s in
  let s := set_last_request_id None s in
  let s := set_last_request_data [] s in
  let s := set_last_acked_peer_request_data [] s in
  let s := set_restart_ticks_remaining 0 s in
  let s := set_peer_vj None s in
  let s := set_local_vj None s in
  (s, []).

Definition receive_unknown (ppp : PppPacket) (s : IpcpSession) : IpcpSession * list PppPacket :=
  let rejected := take CODE_REJECT_MAX_DATA (payload ppp) in
  let '(s, id) := alloc_id s in
  (s, [to_ppp (mkControl CODE_REJECT id rejected)]).

Definition receive (ppp : PppPacket) (s : IpcpSession) : IpcpSession * list PppPacket :=
  match parse_packet (payload ppp) with
  | None => (s, [])
  | Some ipcp =>
      let c := code ipcp in
      if c =? CONFIGURE_REQUEST then receive_configure_request ipcp s
      else if c =? CONFIGURE_ACK then receive_configure_ack ipcp s
      else if c =? CONFIGURE_NAK then receive_configure_nak ipcp s
      else if c =? CONFIGURE_REJECT then receive_configure_reject ipcp s
      else if c =? TERMINATE_REQUEST then receive_terminate_request ipcp s
      else if c =? TERMINATE_ACK then receive_terminate_ack s
      else if c =? CODE_REJECT then (s, [])
      else receive_unknown ppp s
  end.

Definition is_open (s : IpcpSession) : bool := bool_decide (state s = Opened).

Definition open_state (s : IpcpSession) : option IpcpOpenState :=
  if is_open s then
    Some (mkIpcpOpenState (config s) (request_local_ip s) (request_vj s) (requested_vj s) (peer_vj s) (local_vj s)
            (last_acked_peer_request_data s))
  else None.

Definition restore_open_state (st : IpcpOpenState) (s : IpcpSession) : IpcpSession :=
  let s := set_config (open_config st) s in
  let s := set_request_local_ip (open_request_local_ip st) s in
  let s := set_request_vj (open_request_vj st) s in
  let s := set_requested_vj (open_requested_vj st) s in
  let s := set_peer_vj (open_peer_vj st) s in
  let s := set_local_vj (open_local_vj st) s in
  let s := set_last_acked_peer_request_data (open_last_acked_peer_request_data st) s in
  let s := set_state Opened s in
  let s := set_peer_acked true s in
  let s := set_we_acked true s in
  let s := set_last_request_id None s in
  let s := set_last_request_data [] s in
  let s := set_restart_ticks_remaining 0 s in
  let s := set_configure_failed false s in
  set_consecutive_naks_sent ∅ s.

Definition disable_mobile_ip (c : IpcpConfig) : IpcpConfig :=
  let m := mobile_ip c in
  mkIpcpConfig (our_ip c) (peer_ip c) (primary_dns c) (secondary_dns c) (enable_uplink_vj_compression c)
    (enable_downlink_vj_compression c)
    (mkMobileIpConfig false (fa_address m) (home_agent_address m) (advertisement_count m) (advertisement_lifetime_secs m)
       (registration_lifetime_secs m) (mip_primary_dns m) (mip_secondary_dns m) (auth_mode m) (mn_ha_security m)
       (allow_unverified_mn_aaa m) (mn_ha_fallback_to_simple_ip m)).

Definition restart_for_simple_ip (s : IpcpSession) : IpcpSession * PppPacket :=
  let s := set_config (disable_mobile_ip (config s)) s in
  let s := reset_requests s in
  let s := set_configure_failed false s in
  start s.

Definition with_peer_ip (a : Ipv4Addr) (c : IpcpConfig) : IpcpConfig :=
  mkIpcpConfig (our_ip c) a (primary_dns c) (secondary_dns c) (enable_uplink_vj_compression c)
    (enable_downlink_vj_compression c) (mobile_ip c).
Definition reassign_peer_ip (a : Ipv4Addr) (s : IpcpSession) : IpcpSession := set_config (with_peer_ip a (config s)) s.

Definition peer_ip_address_negotiated (s : IpcpSession) : bool :=
  has_option OPT_IP_ADDRESS (parse_options (last_acked_peer_request_data s)).
Definition omitted_peer_ip_naks (s : IpcpSession) : Z := nak_count OPT_IP_ADDRESS s.

End Ipcp.
