(* ===== verification/IpcpProofs.v ===== *)
(** * Correctness of IPCP *)
From S2P Require Import Prelude Framing ControlPacket IpcpConfig Vj Ipcp.
Import Ipcp.

Lemma ipcp_parse_to_ppp p : Z.of_nat (length (data p)) ≤ 65531 → parse_packet (payload (to_ppp p)) = Some p.
Proof. intros H. unfold to_ppp. cbn [payload]. rewrite <- (app_nil_r (packet_to_bytes p)). by apply parse_packet_bytes. Qed.

(** ** Every history of a session *)

(** Everything the engine does with a session: started while no request of ours is
    acknowledged, any octets from the peer, the timer at any time, the peer's address
    reassigned, the negotiation restarted without Mobile IP, and an open session restored
    in a later one.  [sent] and [rcvd] are the packets so far, [addrs] the addresses
    assigned so far, latest first. *)
Inductive history (c : IpcpConfig) : list Ipv4Addr → list PppPacket → list PppPacket → IpcpSession → Prop :=
| h_new : history c [peer_ip c] [] [] (new c)
| h_max addrs sent rcvd s r : history c addrs sent rcvd s → history c addrs sent rcvd (set_max_restarts r s)
| h_start addrs sent rcvd s s' p :
    history c addrs sent rcvd s → peer_acked s = false → start s = (s', p) → history c addrs (p :: sent) rcvd s'
| h_receive addrs sent rcvd s s' ppp out :
    history c addrs sent rcvd s → receive ppp s = (s', out) → history c addrs (out ++ sent) (ppp :: rcvd) s'
| h_tick addrs sent rcvd s s' o :
    history c addrs sent rcvd s → maybe_retransmit_configure_request s = (s', o) →
    history c addrs (option_list o ++ sent) rcvd s'
| h_reassign addrs sent rcvd s a :
    history c addrs sent rcvd s → history c (a :: addrs) sent rcvd (reassign_peer_ip a s)
| h_restart addrs sent rcvd s s' p :
    history c addrs sent rcvd s → restart_for_simple_ip s = (s', p) → history c addrs (p :: sent) rcvd s'
| h_resume addrs sent rcvd s st c' :
    history c addrs sent rcvd s → open_state s = Some st →
    history c addrs sent rcvd (restore_open_state st (new c')).

Definition acceptable (c : IpcpConfig) (d : list Z) : Prop := Forall (λ o, judge c o = Accept) (parse_options d).

(** What no operation changes: our address, the name servers and the compression allowed. *)
Definition same_terms (c c' : IpcpConfig) : Prop :=
  our_ip c' = our_ip c ∧ primary_dns c' = primary_dns c ∧ secondary_dns c' = secondary_dns c ∧
  enable_uplink_vj_compression c' = enable_uplink_vj_compression c ∧
  enable_downlink_vj_compression c' = enable_downlink_vj_compression c.

(** A request may leave the address out only with Mobile IP, or after [MAX_FAILURE] suggestions. *)
Definition address_settled (s : IpcpSession) (opts : list ControlOption) : Prop :=
  has_option OPT_IP_ADDRESS opts = true ∨ mip_enabled (mobile_ip (config s)) = true ∨ MAX_FAILURE ≤ nak_count OPT_IP_ADDRESS s.

Section Invariant.
Context (c : IpcpConfig) (addrs : list Ipv4Addr) (sent rcvd : list PppPacket).

Definition request_sent (id : Z) (d : list Z) : Prop := to_ppp (mkControl CONFIGURE_REQUEST id d) ∈ sent.
Definition ack_received (id : Z) (d : list Z) : Prop :=
  ∃ ppp, ppp ∈ rcvd ∧ parse_packet (payload ppp) = Some (mkControl CONFIGURE_ACK id d).

(** The peer's request [d] was received in the state [s0] and acknowledged. *)
Definition judged (s0 : IpcpSession) (d : list Z) : Prop :=
  ∃ addrs0 sent0 rcvd0 id ppp,
    history c addrs0 sent0 rcvd0 s0 ∧ addrs0 `suffix_of` addrs ∧ sent0 ⊆ sent ∧ ppp :: rcvd0 `suffix_of` rcvd ∧
    head addrs0 = Some (peer_ip (config s0)) ∧
    parse_packet (payload ppp) = Some (mkControl CONFIGURE_REQUEST id d) ∧ to_ppp (mkControl CONFIGURE_ACK id d) ∈ sent.

Record inv (s : IpcpSession) : Prop := {
  i_config : same_terms c (config s) ∧ head addrs = Some (peer_ip (config s));
  i_opened : state s = Opened → we_acked s = true ∧ peer_acked s = true;
  i_request : ∀ id, last_request_id s = Some id → request_sent id (last_request_data s);
  i_peer : peer_acked s = true → ∃ id d, request_sent id d ∧ ack_received id d ∧ local_vj s = parse_vj_option d ∧
    (last_request_id s = Some id ∧ last_request_data s = d ∨ last_request_id s = None);
  i_we : we_acked s = true → ∃ s0, judged s0 (last_acked_peer_request_data s) ∧
    acceptable (config s0) (last_acked_peer_request_data s) ∧ address_settled s0 (parse_options (last_acked_peer_request_data s))
}.
End Invariant.

Lemma ipcp_inv_mono c addrs sent rcvd sent' rcvd' s : sent ⊆ sent' → rcvd `suffix_of` rcvd' →
  inv c addrs sent rcvd s → inv c addrs sent' rcvd' s.
Proof.
  intros H1 H2 [Hc Hf Hr Hp Hw]. split; [done|done| | |].
  - intros id E. by apply H1, Hr.
  - intros E. destruct (Hp E) as (id & d & Hs & (ppp & Hin & ?) & ? & ?). exists id, d. split_and!; [by apply H1| |done|done].
    exists ppp. split; [|done]. destruct H2 as [k ->]. apply elem_of_app. by right.
  - intros E. destruct (Hw E) as (s0 & (addrs0 & sent0 & rcvd0 & id & ppp & ?&?&?& H3 &?&?&?) & ? & ?). exists s0.
    split_and!; [|done|done]. exists addrs0, sent0, rcvd0, id, ppp.
    split_and!; [done|done|set_solver|by trans rcvd|done|done|by apply H1].
Qed.

(** The parts of the session the invariant reads. *)
Definition view (s : IpcpSession) :=
  (config s, state s, we_acked s, peer_acked s, last_request_id s, last_request_data s, last_acked_peer_request_data s, local_vj s).
Lemma ipcp_inv_ext c addrs sent rcvd s s' : view s' = view s → inv c addrs sent rcvd s → inv c addrs sent rcvd s'.
Proof.
  unfold view. intros [= E1 E2 E3 E4 E5 E6 E7 E8] [Hc Hf Hr Hp Hw].
  split; rewrite ?E1, ?E2, ?E3, ?E4, ?E5, ?E6, ?E7, ?E8; done.
Qed.

Lemma ipcp_inv_update c addrs sent rcvd s : state s ≠ Opened ∨ (we_acked s = true ∧ peer_acked s = true) →
  inv c addrs sent rcvd s → inv c addrs sent rcvd (update_state s).
Proof.
  intros Ho [Hc Hf Hr Hp Hw]. split; cbn; [done| |done|done|done]. intros E.
  destruct (we_acked s), (peer_acked s); try done. tauto.
Qed.

Lemma ipcp_inv_send c addrs sent rcvd s s' p d : peer_acked s = false →
  inv c addrs sent rcvd s → send_configure_request d s = (s', p) → inv c addrs (p :: sent) rcvd s' ∧ state s' = RequestSent.
Proof.
  intros Hpa Hinv [= <- <-].
  apply (ipcp_inv_mono c addrs _ _ (to_ppp (mkControl CONFIGURE_REQUEST (next_id s) d) :: sent) rcvd) in Hinv; [|set_solver|done].
  destruct s; cbn in *. subst. destruct Hinv as [Hc Hf Hr Hp Hw]; cbn in *. split; [|done].
  split; cbn; [done|done| |done|done]. intros id [= <-]. by left.
Qed.

(** *** The peer's request *)
Lemma judged_all c opts : omap reject_of (judge c <$> opts) = [] → omap nak_of (judge c <$> opts) = [] →
  Forall (λ o, judge c o = Accept) opts.
Proof.
  induction opts as [|o opts IH]; [constructor|]. cbn [fmap list_fmap omap list_omap].
  destruct (judge c o) eqn:E; cbn; try done. intros. constructor; [done|]. by apply IH.
Qed.

Lemma retained_or_converted s opts naks : Forall (λ o, has_option (opt_type o) opts = true) naks →
  retained s naks = [] → converted s opts naks = [] → naks = [].
Proof.
  unfold retained, converted. destruct naks as [|o naks]; [done|]. intros Hf. inversion Hf as [|?? Ho _]; subst.
  rewrite !filter_cons. destruct (keep_nak s o) eqn:E; [by rewrite decide_True|].
  rewrite decide_False, decide_True by done. intros _. cbn [omap list_omap].
  unfold find_option, has_option in *. apply existsb_exists in Ho as (x & Hx & Ex).
  destruct (find (λ x, opt_type x =? opt_type o) opts) eqn:Ef; [done|].
  apply (List.find_none _ _ Ef) in Hx. congruence.
Qed.

Lemma judge_nak_type c o o' : judge c o = Nak o' → opt_type o' = opt_type o.
Proof. unfold judge, judge_address. repeat case_match; intros [= <-]; done. Qed.

Lemma naks_have_options c opts : Forall (λ o, has_option (opt_type o) opts = true) (omap nak_of (judge c <$> opts)).
Proof.
  apply Forall_forall. intros x Hx. apply list_elem_of_omap in Hx as (v & Hv & Ev).
  apply list_elem_of_fmap in Hv as (o & -> & Ho). destruct (judge c o) eqn:E; try done. injection Ev as ->.
  apply existsb_exists. exists o. split; [by apply list_elem_of_In|]. rewrite (judge_nak_type _ _ _ E). apply Z.eqb_refl.
Qed.

(** What is acknowledged is acceptable, and its address is settled. *)
Lemma acked_acceptable s opts :
  omap reject_of (judge (config s) <$> opts) ++ converted s opts (omap nak_of (judge (config s) <$> opts)) = [] →
  retained s (omap nak_of (judge (config s) <$> opts)) ++ appended opts s = [] →
  Forall (λ o, judge (config s) o = Accept) opts ∧ address_settled s opts.
Proof.
  intros [Hr Hc]%app_nil [Ht Happ]%app_nil. split.
  - apply judged_all; [done|]. by apply (retained_or_converted s opts); [apply naks_have_options|..].
  - unfold appended in Happ. unfold address_settled. destruct (has_option _ _); [by left|].
    destruct (mip_enabled _); [by right; left|].
    destruct (Z.ltb_spec (nak_count OPT_IP_ADDRESS s) MAX_FAILURE); [done|by right; right].
Qed.

(** [s0] is the state in which the request was received: [s], or [s] before a renegotiation. *)
Lemma ipcp_inv_answer c addrs sent rcvd s s' p ipcp ppp sent0 rcvd0 s0 :
  parse_packet (payload ppp) = Some ipcp → code ipcp = CONFIGURE_REQUEST → ppp :: rcvd0 `suffix_of` rcvd → state s ≠ Opened →
  history c addrs sent0 rcvd0 s0 → sent0 ⊆ sent → config s0 = config s →
  (∀ opts, address_settled s opts → address_settled s0 opts) →
  inv c addrs sent rcvd s → answer_request ipcp s = (s', p) → inv c addrs (p :: sent) rcvd s'.
Proof.
  intros Hparse Hcode Hin Hst Hh0 Hs0 Hc0 Hset Hinv. unfold answer_request. set (opts := parse_options (data ipcp)).
  destruct (_ ++ converted _ _ _) as [|r rs] eqn:Er; [destruct (retained _ _ ++ _) as [|k ks] eqn:Ek|]; intros [= <- <-].
  - destruct (acked_acceptable s opts Er Ek) as [Hacc Hadr]. rewrite <- Hc0 in Hacc. apply Hset in Hadr.
    apply (ipcp_inv_mono c addrs _ _ (to_ppp (mkControl CONFIGURE_ACK (identifier ipcp) (data ipcp)) :: sent) rcvd) in Hinv; [|set_solver|done].
    apply ipcp_inv_update; [left; by destruct s|]. destruct s, Hinv as [Hc Hf Hr Hp Hw]; cbn in *.
    split; cbn; [done|done|done|done|]. intros _. exists s0. split; [|done].
    exists addrs, sent0, rcvd0, (identifier ipcp), ppp.
    split_and!; [done|done|set_solver|done|rewrite Hc0; tauto| |by left]. rewrite Hparse. destruct ipcp; cbn in *. by subst.
  - apply ipcp_inv_update; [left; by destruct s|]. apply (ipcp_inv_ext _ _ _ _ s); [by destruct s|].
    by apply (ipcp_inv_mono c addrs sent rcvd); [set_solver|done|].
  - apply ipcp_inv_update; [left; by destruct s|].
    apply (ipcp_inv_mono c addrs _ _ (to_ppp (mkControl CONFIGURE_REJECT (identifier ipcp) (serialize_options (r :: rs))) :: sent) rcvd) in Hinv;
      [|set_solver|done].
    destruct s, Hinv as [Hc Hf Hr Hp Hw]; cbn in *. split; cbn; done.
Qed.

Lemma inv_reset c addrs sent rcvd s st : st ≠ Opened → inv c addrs sent rcvd s → inv c addrs sent rcvd (set_state st (reset_requests s)).
Proof. intros Hst [Hc _ _ _ _]. destruct s; cbn in *. by split; cbn. Qed.

Lemma start_keeps s s' p : start s = (s', p) → config s' = config s ∧ consecutive_naks_sent s' = consecutive_naks_sent s.
Proof. destruct s. by intros [= <- _]. Qed.

Lemma reset_settled s s0 opts : consecutive_naks_sent s = ∅ → config s0 = config s →
  address_settled s opts → address_settled s0 opts.
Proof.
  unfold address_settled, nak_count. intros -> ->. rewrite lookup_empty. cbn. unfold MAX_FAILURE. intros [?|[?|?]]; [auto..|lia].
Qed.

Lemma ipcp_inv_request c addrs sent rcvd s s' out ipcp ppp :
  parse_packet (payload ppp) = Some ipcp → code ipcp = CONFIGURE_REQUEST → history c addrs sent rcvd s →
  inv c addrs sent (ppp :: rcvd) s → receive_configure_request ipcp s = (s', out) → inv c addrs (out ++ sent) (ppp :: rcvd) s'.
Proof.
  intros Hparse Hcode Hh Hinv. unfold receive_configure_request. case_match.
  { intros [= <- <-]. by apply (ipcp_inv_mono c addrs sent (ppp :: rcvd)); [set_solver|done|]. }
  clear H. case_bool_decide as Ho.
  - destruct (start _) as [s1 req] eqn:Es. destruct (answer_request ipcp s1) as [s2 resp] eqn:Ea. intros [= <- <-].
    assert (peer_acked (set_state RequestSent (reset_requests s)) = false) as Hpa by done.
    destruct (start_keeps _ _ _ Es) as [Ec En].
    destruct (ipcp_inv_send c addrs sent (ppp :: rcvd) _ s1 req _ Hpa (inv_reset c addrs sent _ s RequestSent ltac:(done) Hinv) Es) as (H1 & H2).
    apply (ipcp_inv_mono c addrs (resp :: req :: sent) (ppp :: rcvd)); [set_solver|done|].
    eapply (ipcp_inv_answer c addrs (req :: sent) _ s1 s2 resp ipcp ppp sent rcvd s); try done; [by rewrite H2|set_solver|].
    + intros opts. by apply reset_settled; [rewrite En|rewrite Ec].
  - destruct (answer_request ipcp s) as [s2 resp] eqn:Ea. intros [= <- <-].
    by eapply (ipcp_inv_answer c addrs sent _ s s2 resp ipcp ppp sent rcvd s).
Qed.

(** *** The peer's answers *)
Lemma ipcp_inv_ack c addrs sent rcvd s s' out ipcp ppp :
  parse_packet (payload ppp) = Some ipcp → code ipcp = CONFIGURE_ACK → ppp ∈ rcvd →
  inv c addrs sent rcvd s → receive_configure_ack ipcp s = (s', out) → inv c addrs (out ++ sent) rcvd s'.
Proof.
  intros Hparse Hcode Hin Hinv. unfold receive_configure_ack. destruct (_ || _) eqn:E; [by intros [= <- <-]|].
  apply orb_false_iff in E as [E1 E2]. apply negb_false_iff, bool_decide_eq_true in E1, E2. intros [= <- <-].
  assert (ack_received rcvd (identifier ipcp) (last_request_data s)) as Hack.
  { exists ppp. split; [done|]. rewrite Hparse. rewrite <- E2. destruct ipcp; cbn in *. by subst. }
  cbn [app]. destruct s, Hinv as [Hc Hf Hr Hp Hw]; cbn in *. split; cbn; [done| |done| |done].
  - intros E. by case_match.
  - intros _. exists (identifier ipcp), (data ipcp). rewrite E2. split_and!; auto.
Qed.

(** The folds over a Nak or a Reject change the requests only. *)
Lemma adopt_nak_view opts : ∀ s, view (foldl adopt_nak s opts) = view s.
Proof.
  induction opts as [|o opts IH]; intros s; [done|]. cbn [foldl]. rewrite IH. unfold adopt_nak.
  destruct (_ =? _); [|done]. by destruct (from_ipcp_data _).
Qed.
Lemma drop_rejected_view opts : ∀ s, view (foldl drop_rejected s opts) = view s.
Proof.
  induction opts as [|o opts IH]; intros s; [done|]. cbn [foldl]. rewrite IH. unfold drop_rejected.
  by destruct (_ =? _), (_ =? _).
Qed.

Lemma ipcp_inv_resend c addrs sent rcvd s s' p d : inv c addrs sent rcvd s →
  send_configure_request d (set_local_vj None (set_peer_acked false s)) = (s', p) → inv c addrs (p :: sent) rcvd (update_state s').
Proof.
  intros [Hc Hf Hr Hp Hw] E.
  assert (inv c addrs sent rcvd (set_state RequestSent (set_local_vj None (set_peer_acked false s)))) as Hinv.
  { destruct s; cbn in *. by split; cbn. }
  destruct (ipcp_inv_send c addrs sent rcvd (set_state RequestSent (set_local_vj None (set_peer_acked false s))) s' p d) as [H1 H2];
    [done|done|exact E|]. apply ipcp_inv_update; [left; by rewrite H2|done].
Qed.

Lemma ipcp_inv_nak c addrs sent rcvd s s' out ipcp :
  inv c addrs sent rcvd s → receive_configure_nak ipcp s = (s', out) → inv c addrs (out ++ sent) rcvd s'.
Proof.
  intros Hinv. unfold receive_configure_nak. destruct (negb _); [by intros [= <- <-]|]. cbv zeta.
  pose proof (adopt_nak_view (parse_options (data ipcp)) s) as Hv.
  destruct (send_configure_request _ _) as [s1 req] eqn:Es. intros [= <- <-].
  eapply ipcp_inv_resend; [|exact Es]. by eapply ipcp_inv_ext.
Qed.

Lemma ipcp_inv_reject c addrs sent rcvd s s' out ipcp :
  inv c addrs sent rcvd s → receive_configure_reject ipcp s = (s', out) → inv c addrs (out ++ sent) rcvd s'.
Proof.
  intros Hinv. unfold receive_configure_reject. destruct (negb _); [by intros [= <- <-]|]. cbv zeta.
  pose proof (drop_rejected_view (parse_options (data ipcp)) s) as Hv.
  destruct (send_configure_request _ _) as [s1 req] eqn:Es. intros [= <- <-].
  eapply ipcp_inv_resend; [|exact Es]. by eapply ipcp_inv_ext.
Qed.

Lemma ipcp_inv_receive c addrs sent rcvd s s' ppp out : history c addrs sent rcvd s →
  inv c addrs sent rcvd s → receive ppp s = (s', out) → inv c addrs (out ++ sent) (ppp :: rcvd) s'.
Proof.
  intros Hh Hinv0.
  assert (inv c addrs sent (ppp :: rcvd) s) as Hinv by (apply (ipcp_inv_mono c addrs sent rcvd); [done|by apply suffix_cons_r|done]).
  clear Hinv0. unfold receive. destruct (parse_packet (payload ppp)) as [ipcp|] eqn:Ep; [|by intros [= <- <-]].
  assert (ppp ∈ ppp :: rcvd) as Hin by by left.
  destruct (Z.eqb_spec (code ipcp) CONFIGURE_REQUEST); [by eapply ipcp_inv_request|].
  destruct (Z.eqb_spec (code ipcp) CONFIGURE_ACK); [by eapply ipcp_inv_ack|].
  destruct (_ =? _); [by apply ipcp_inv_nak|]. destruct (_ =? _); [by apply ipcp_inv_reject|].
  destruct (_ =? _). { intros [= <- <-]. destruct s, Hinv as [Hc _ _ _ _]; cbn in *. by split; cbn. }
  destruct (_ =? _). { intros [= <- <-]. destruct s, Hinv as [Hc _ _ _ _]; cbn in *. by split; cbn. }
  destruct (_ =? _); [by intros [= <- <-]|].
  intros [= <- <-]. apply (ipcp_inv_ext _ _ _ _ s); [done|]. by apply (ipcp_inv_mono c addrs sent (ppp :: rcvd)); [set_solver|done|].
Qed.

Lemma ipcp_inv_tick c addrs sent rcvd s s' o : inv c addrs sent rcvd s → maybe_retransmit_configure_request s = (s', o) →
  inv c addrs (option_list o ++ sent) rcvd s'.
Proof.
  intros Hinv. unfold maybe_retransmit_configure_request. destruct (_ || _); [by intros [= <- <-]|].
  destruct (last_request_id s) as [id|] eqn:Ei; [|by intros [= <- <-]].
  destruct (0 <? _); [intros [= <- <-]; by apply (ipcp_inv_ext _ _ _ _ s)|].
  destruct (_ <? _); intros [= <- <-]; [destruct s, Hinv as [Hc _ _ _ _]; cbn in *; by split; cbn|]. apply (ipcp_inv_ext _ _ _ _ s); [done|].
  apply (ipcp_inv_mono c addrs sent rcvd); [set_solver|done|done].
Qed.

(** *** The engine's operations *)
Lemma ipcp_inv_reassign c addrs sent rcvd s a : inv c addrs sent rcvd s → inv c (a :: addrs) sent rcvd (reassign_peer_ip a s).
Proof.
  intros [[Hc Ha] Hf Hr Hp Hw]. destruct s; cbn in *. split; cbn; [by split|done|done|done|]. intros E.
  destruct (Hw E) as (s0 & (addrs0 & sent0 & rcvd0 & id & ppp & ?&?&?&?&?&?&?) & ? & ?). exists s0. split_and!; [|done|done].
  exists addrs0, sent0, rcvd0, id, ppp. split_and!; try done. by apply suffix_cons_r.
Qed.

Lemma start_any_state st s : start (set_state st s) = start s.
Proof. by destruct s. Qed.

Lemma ipcp_inv_restart c addrs sent rcvd s s' p : inv c addrs sent rcvd s → restart_for_simple_ip s = (s', p) →
  inv c addrs (p :: sent) rcvd s'.
Proof.
  unfold restart_for_simple_ip. set (s1 := set_configure_failed _ _). intros [Hc Hf Hr Hp Hw] E.
  rewrite <- (start_any_state RequestSent) in E.
  assert (inv c addrs sent rcvd (set_state RequestSent s1)) as H1 by (subst s1; destruct s; cbn in *; by split; cbn).
  assert (peer_acked (set_state RequestSent s1) = false) as H2 by by subst s1; destruct s.
  clearbody s1. by destruct (ipcp_inv_send c addrs sent rcvd _ s' p _ H2 H1 E).
Qed.

Lemma ipcp_inv_resume c addrs sent rcvd s st c' : inv c addrs sent rcvd s → open_state s = Some st →
  inv c addrs sent rcvd (restore_open_state st (new c')).
Proof.
  intros [Hc Hf Hr Hp Hw]. unfold open_state, is_open. case_bool_decide as Ho; [|done]. intros [= <-].
  destruct (Hf Ho) as [Hwe Hpe]. destruct (Hp Hpe) as (id & d & ? & ? & ? & _). specialize (Hw Hwe).
  split; cbn; [done|done|done| |done]. intros _. exists id, d. auto.
Qed.

Lemma ipcp_history_inv c addrs sent rcvd s : history c addrs sent rcvd s → inv c addrs sent rcvd s.
Proof.
  induction 1 as [|addrs sent rcvd s r _ IH|addrs sent rcvd s s' p _ IH Hp E|addrs sent rcvd s s' ppp out Hh IH E|addrs sent rcvd s s' o _ IH E
    |addrs sent rcvd s a _ IH|addrs sent rcvd s s' p _ IH E|addrs sent rcvd s st c' _ IH E].
  - by split.
  - by apply (ipcp_inv_ext _ _ _ _ s).
  - by destruct (ipcp_inv_send c addrs sent rcvd s s' p _ Hp IH E) as [H _].
  - by eapply ipcp_inv_receive.
  - by eapply ipcp_inv_tick.
  - by apply ipcp_inv_reassign.
  - by eapply ipcp_inv_restart.
  - by eapply ipcp_inv_resume.
Qed.

(** ** What is acknowledged *)
Lemma bytes_to_ip_octets a : bytes_to_ip (ip_to_bytes a) = Some a.
Proof. by destruct a. Qed.

Lemma judge_accepts c o : judge c o = Accept →
  (opt_type o = OPT_IP_ADDRESS → bytes_to_ip (opt_data o) = Some (peer_ip c)) ∧
  (opt_type o = OPT_PRIMARY_DNS → bytes_to_ip (opt_data o) = Some (primary_dns c)) ∧
  (opt_type o = OPT_SECONDARY_DNS → bytes_to_ip (opt_data o) = Some (secondary_dns c)) ∧
  (opt_type o = IPCP_OPT_IP_COMPRESSION → enable_downlink_vj_compression c = true) ∧
  opt_type o ∈ [OPT_IP_ADDRESS; OPT_PRIMARY_DNS; OPT_SECONDARY_DNS; IPCP_OPT_IP_COMPRESSION].
Proof.
  unfold judge, judge_address. intros H.
  destruct (Z.eqb_spec (opt_type o) OPT_IP_ADDRESS) as [->|].
  { case_bool_decide; [|done]. split_and!; try done. set_solver. }
  destruct (Z.eqb_spec (opt_type o) OPT_PRIMARY_DNS) as [->|].
  { case_bool_decide; [|done]. split_and!; try done. set_solver. }
  destruct (Z.eqb_spec (opt_type o) OPT_SECONDARY_DNS) as [->|].
  { case_bool_decide; [|done]. split_and!; try done. set_solver. }
  destruct (Z.eqb_spec (opt_type o) IPCP_OPT_IP_COMPRESSION) as [->|]; [|done].
  destruct (enable_downlink_vj_compression c); [|done]. split_and!; try done. set_solver.
Qed.

(** An option of an address type and the value it must have. *)
Definition right_address (c : IpcpConfig) (t : Z) : option Ipv4Addr :=
  if t =? OPT_IP_ADDRESS then Some (peer_ip c)
  else if t =? OPT_PRIMARY_DNS then Some (primary_dns c)
  else if t =? OPT_SECONDARY_DNS then Some (secondary_dns c) else None.
Definition address_option (o : ControlOption) : Prop :=
  opt_type o ∈ [OPT_IP_ADDRESS; OPT_PRIMARY_DNS; OPT_SECONDARY_DNS] ∧ length (opt_data o) = 4%nat.

Lemma judge_address_option c o : address_option o → ∃ a, right_address c (opt_type o) = Some a ∧ judge c o = judge_address o a.
Proof.
  intros [Ht _]. unfold right_address, judge.
  repeat match goal with |- context [if opt_type o =? ?t then _ else _] => destruct (Z.eqb_spec (opt_type o) t) as [E|]; [by eexists|] end.
  exfalso. set_solver.
Qed.

Lemma right_accepted c t a : right_address c t = Some a → judge c (mkOption t (ip_to_bytes a)) = Accept.
Proof.
  unfold right_address, judge, judge_address. cbn [opt_type opt_data]. rewrite bytes_to_ip_octets.
  destruct (t =? OPT_IP_ADDRESS); [|destruct (t =? OPT_PRIMARY_DNS); [|destruct (t =? OPT_SECONDARY_DNS); [|done]]];
    intros [= <-]; by rewrite bool_decide_eq_true_2.
Qed.

(** The peer takes over the values of a Nak. *)
Definition take_over (naks opts : list ControlOption) : list ControlOption :=
  map (λ o, default o (find_option (opt_type o) naks)) opts.
Definition naks_for (c : IpcpConfig) (opts : list ControlOption) : list ControlOption := omap nak_of (judge c <$> opts).

Lemma naks_for_right c opts : Forall address_option opts →
  Forall (λ n, ∃ a, right_address c (opt_type n) = Some a ∧ n = mkOption (opt_type n) (ip_to_bytes a)) (naks_for c opts).
Proof.
  intros Hf. apply Forall_forall. intros n Hn. apply list_elem_of_omap in Hn as (v & Hv & Ev).
  apply list_elem_of_fmap in Hv as (o & -> & Ho). rewrite Forall_forall in Hf.
  destruct (judge_address_option c o (Hf o Ho)) as (a & Ea & Ej). rewrite Ej in Ev. unfold judge_address in Ev.
  case_bool_decide; [done|]. injection Ev as <-. exists a. done.
Qed.

Lemma naks_for_complete c opts o n : o ∈ opts → judge c o = Nak n → n ∈ naks_for c opts.
Proof.
  intros Ho Hj. apply list_elem_of_omap. exists (Nak n). split; [|done]. apply list_elem_of_fmap. by exists o.
Qed.

Lemma take_over_accepted c opts : Forall address_option opts →
  Forall (λ o, judge c o = Accept ∧ address_option o) (take_over (naks_for c opts) opts).
Proof.
  intros Hf. pose proof (naks_for_right c opts Hf) as Hn. unfold take_over. apply Forall_map, Forall_forall. intros o Ho. cbn.
  pose proof Hf as Hf'. rewrite Forall_forall in Hf'. specialize (Hf' o Ho).
  destruct (find_option (opt_type o) (naks_for c opts)) as [n|] eqn:Efind; cbn [default].
  - apply List.find_some in Efind as [Hin Et]. apply Z.eqb_eq in Et. apply list_elem_of_In in Hin.
    rewrite Forall_forall in Hn. destruct (Hn n Hin) as (a & Ea & ->). split; [by apply right_accepted|].
    split; [|done]. cbn [opt_type] in Et |- *. rewrite Et. apply Hf'.
  - split; [|done]. destruct (judge_address_option c o Hf') as (a & Ea & Ej). rewrite Ej. unfold judge_address.
    case_bool_decide as E; [done|]. exfalso.
    assert (mkOption (opt_type o) (ip_to_bytes a) ∈ naks_for c opts) as Hin.
    { apply (naks_for_complete c opts o); [done|]. rewrite Ej. unfold judge_address. by rewrite bool_decide_eq_false_2. }
    apply list_elem_of_In in Hin. apply (List.find_none _ _ Efind) in Hin. cbn in Hin. lia.
Qed.

(** ** How requests are answered *)
Lemma ipcp_receive_request_packet id d s : Z.of_nat (length d) ≤ 65531 →
  receive (to_ppp (mkControl CONFIGURE_REQUEST id d)) s = receive_configure_request (mkControl CONFIGURE_REQUEST id d) s.
Proof. intros H. unfold receive. by rewrite ipcp_parse_to_ppp. Qed.

Lemma receive_when_not_open id d s : Z.of_nat (length d) ≤ 65531 → state s ≠ Opened →
  receive (to_ppp (mkControl CONFIGURE_REQUEST id d)) s =
    let '(s, resp) := answer_request (mkControl CONFIGURE_REQUEST id d) s in (s, [resp]).
Proof.
  intros Hl Hs. rewrite ipcp_receive_request_packet by done. unfold receive_configure_request.
  by rewrite bool_decide_eq_false_2.
Qed.

Lemma accept_all c opts : Forall (λ o, judge c o = Accept) opts →
  omap reject_of (judge c <$> opts) = [] ∧ omap nak_of (judge c <$> opts) = [].
Proof.
  induction 1 as [|o opts Ho _ [IH1 IH2]]; [done|]. cbn [fmap list_fmap omap list_omap]. rewrite Ho. cbn. done.
Qed.

(** All options acceptable and nothing to suggest: the request is acknowledged. *)
Lemma answer_ack id d s : acceptable (config s) d → appended (parse_options d) s = [] →
  ∃ s', answer_request (mkControl CONFIGURE_REQUEST id d) s = (s', to_ppp (mkControl CONFIGURE_ACK id d)) ∧
    we_acked s' = true ∧ last_acked_peer_request_data s' = d.
Proof.
  intros Ha Happ. unfold answer_request. cbn [data identifier]. destruct (accept_all _ _ Ha) as [-> ->]. rewrite Happ.
  eexists. split; [done|]. by destruct s.
Qed.

Lemma naks_kept s naks : consecutive_naks_sent s = ∅ → retained s naks = naks ∧ ∀ opts, converted s opts naks = [].
Proof.
  intros E. assert (∀ o, keep_nak s o = true) as Hk.
  { intros o. unfold keep_nak, nak_count. rewrite E, lookup_empty. cbn. by rewrite orb_true_r. }
  unfold retained, converted. induction naks as [|o naks [IH1 IH2]]; [done|]. rewrite !filter_cons. split.
  - rewrite decide_True by apply Hk. by rewrite IH1.
  - intros opts. rewrite decide_False by by rewrite Hk. apply IH2.
Qed.

Lemma rejects_none c opts : Forall address_option opts → omap reject_of (judge c <$> opts) = [].
Proof.
  induction 1 as [|o opts Ho _ IH]; [done|]. cbn [fmap list_fmap omap list_omap].
  destruct (judge_address_option c o Ho) as (a & _ & ->). unfold judge_address. by case_bool_decide.
Qed.

(** Wrong addresses are answered with the right ones. *)
Lemma answer_nak id opts s :
  Forall wf_option opts → Forall address_option opts → consecutive_naks_sent s = ∅ → naks_for (config s) opts ≠ [] →
  appended opts s = [] → we_acked s = false → state s ≠ Opened →
  ∃ s', answer_request (mkControl CONFIGURE_REQUEST id (serialize_options opts)) s =
      (s', to_ppp (mkControl CONFIGURE_NAK id (serialize_options (naks_for (config s) opts)))) ∧
    config s' = config s ∧ state s' ≠ Opened ∧ peer_acked s' = peer_acked s.
Proof.
  intros Hw Hf E Hne Happ Hwe Hst. unfold answer_request. cbn [data identifier]. rewrite parse_serialize by done.
  rewrite rejects_none, Happ, app_nil_r by done. fold (naks_for (config s) opts).
  destruct (naks_kept s (naks_for (config s) opts) E) as [-> ->]. cbn [app].
  destruct (naks_for (config s) opts) as [|k ks] eqn:Ek; [done|]. eexists. split; [done|].
  destruct s; cbn in *. subst. split_and!; [done| |done]. by case_match.
Qed.

Lemma length_address_options opts : Forall address_option opts → length (serialize_options opts) = (6 * length opts)%nat.
Proof.
  induction 1 as [|o opts [_ Ho] _ IH]; [done|].
  change (serialize_options (o :: opts)) with (serialize_option o ++ serialize_options opts).
  rewrite length_app, IH. unfold serialize_option. rewrite length_app, Ho. cbn [length]. lia.
Qed.

Lemma address_options_wf opts : Forall address_option opts → Forall wf_option opts.
Proof. intros H. eapply Forall_impl; [exact H|]. intros o [_ Ho]. unfold wf_option. lia. Qed.

Lemma appended_nil opts s : has_option OPT_IP_ADDRESS opts = true → appended opts s = [].
Proof. unfold appended. by intros ->. Qed.

Lemma take_over_has naks opts : has_option OPT_IP_ADDRESS opts = true →
  has_option OPT_IP_ADDRESS (take_over naks opts) = true.
Proof.
  intros H. unfold has_option in *. apply existsb_exists in H as (o & Ho & Et). apply existsb_exists.
  exists (default o (find_option (opt_type o) naks)). split; [by apply (List.in_map (λ o, default o (find_option (opt_type o) naks)))|].
  destruct (find_option (opt_type o) naks) as [n|] eqn:E; [|done]. apply List.find_some in E as [_ E]. cbn. lia.
Qed.

(** ** Omitted address *)
Definition no_address (d : list Z) : Prop := has_option OPT_IP_ADDRESS (parse_options d) = false.

(** The same request, again and again. *)
Fixpoint ask (n : nat) (ppp : PppPacket) (s : IpcpSession) : IpcpSession * list PppPacket :=
  match n with
  | O => (s, [])
  | S n => let '(s, o1) := receive ppp s in let '(s, o2) := ask n ppp s in (s, o1 ++ o2)
  end.

Lemma ask_step n id d s : Z.of_nat (length d) ≤ 65531 → acceptable (config s) d → no_address d →
  mip_enabled (mobile_ip (config s)) = false → state s ≠ Opened → we_acked s = false →
  nak_count OPT_IP_ADDRESS s = MAX_FAILURE - Z.of_nat n → Z.of_nat n ≤ MAX_FAILURE →
  ∃ s', ask (S n) (to_ppp (mkControl CONFIGURE_REQUEST id d)) s =
      (s', replicate n (to_ppp (mkControl CONFIGURE_NAK id (serialize_options [mkOption OPT_IP_ADDRESS (ip_to_bytes (peer_ip (config s)))])))
           ++ [to_ppp (mkControl CONFIGURE_ACK id d)]) ∧ we_acked s' = true.
Proof.
  intros Hl Ha Hno Hmip. revert s Ha Hmip. induction n as [|n IH]; intros s Ha Hmip Hst Hwe Hn Hmax; cbn [ask];
    rewrite receive_when_not_open by done.
  - destruct (answer_ack id d s Ha) as (s' & -> & Hw & _).
    { unfold appended. rewrite Hn. cbn [Z.of_nat]. rewrite Z.sub_0_r, Z.ltb_irrefl, andb_false_r. done. }
    eexists. split; [done|]. done.
  - unfold answer_request. cbn [data identifier]. destruct (accept_all _ _ Ha) as [-> ->].
    assert (appended (parse_options d) s = [mkOption OPT_IP_ADDRESS (ip_to_bytes (peer_ip (config s)))]) as ->.
    { unfold appended. rewrite Hno, Hmip, Hn. destruct (Z.ltb_spec (MAX_FAILURE - Z.of_nat (S n)) MAX_FAILURE); [done|lia]. }
    cbn [converted retained filter list_filter omap list_omap app foldl].
    match goal with |- context [update_state ?x] => set (s1 := update_state x) end.
    destruct (IH s1) as (s' & E & Hw).
    + by destruct s.
    + by destruct s.
    + destruct s; cbn in *. subst. by case_match.
    + by destruct s.
    + subst s1. destruct s; cbn in *. unfold nak_count in *. cbn in *. rewrite lookup_insert_eq. cbn.
      unfold wrapping_add. rewrite wrap_small by (unfold is_u, MAX_FAILURE in *; lia). lia.
    + lia.
    + cbn [ask] in E. eexists. split; [|exact Hw]. rewrite E. subst s1. by destruct s.
Qed.

(** ** The theorems *)

(** C29: the mobile gets the address it was assigned.  Whatever it sends, and however the
    session is driven (restarts, timers, reassigned addresses, a fallback to simple IP,
    resumption in a later session), once IPCP is open its last acknowledged request was
    received in an earlier state [s0] and acknowledged there: the IP-Address option
    carries the address assigned to the mobile in [s0], the latest then assigned, the DNS options the
    configured name servers, header compression is asked for only if it is allowed, and
    there is no other option.  A request without an IP-Address option was acknowledged only
    with Mobile IP or after [MAX_FAILURE] suggestions.  Our own address and the other
    terms are as configured; a request of ours was sent and acknowledged with the same
    identifier and options, the last one unless the session is resumed, and
    the compression we use is that of this request. *)
Theorem ipcp_opened_assigns c addrs sent rcvd s : history c addrs sent rcvd s → is_open s = true →
  same_terms c (config s) ∧ head addrs = Some (peer_ip (config s)) ∧
  (∃ s0, judged c addrs sent rcvd s0 (last_acked_peer_request_data s) ∧
    Forall (λ o,
      (opt_type o = OPT_IP_ADDRESS → bytes_to_ip (opt_data o) = Some (peer_ip (config s0))) ∧
      (opt_type o = OPT_PRIMARY_DNS → bytes_to_ip (opt_data o) = Some (primary_dns c)) ∧
      (opt_type o = OPT_SECONDARY_DNS → bytes_to_ip (opt_data o) = Some (secondary_dns c)) ∧
      (opt_type o = IPCP_OPT_IP_COMPRESSION → enable_downlink_vj_compression c = true) ∧
      opt_type o ∈ [OPT_IP_ADDRESS; OPT_PRIMARY_DNS; OPT_SECONDARY_DNS; IPCP_OPT_IP_COMPRESSION])
      (parse_options (last_acked_peer_request_data s)) ∧
    address_settled s0 (parse_options (last_acked_peer_request_data s))) ∧
  ∃ id d, request_sent sent id d ∧ ack_received rcvd id d ∧ local_vj s = parse_vj_option d ∧
    (last_request_id s = Some id ∧ last_request_data s = d ∨ last_request_id s = None).
Proof.
  intros Hh Ho. pose proof (ipcp_history_inv _ _ _ _ _ Hh) as [[Hc Hadr] Hf Hr Hp Hw]. apply bool_decide_eq_true in Ho.
  destruct (Hf Ho) as [Hwe Hpe]. destruct (Hw Hwe) as (s0 & Hj & Ha & Hset). split; [done|]. split; [done|]. split; [|by apply Hp].
  exists s0. split; [done|]. split; [|done]. destruct Hj as (addrs0 & sent0 & rcvd0 & id & ppp & Hh0 & _).
  destruct (ipcp_history_inv _ _ _ _ _ Hh0) as [[(_ & E1 & E2 & _ & E3) _] _ _ _ _].
  eapply Forall_impl; [exact Ha|]. intros o Hj. rewrite <- E1, <- E2, <- E3. by apply judge_accepts.
Qed.

Definition no_mobile_ip : MobileIpConfig :=
  mkMobileIpConfig false UNSPECIFIED UNSPECIFIED 0 0 0 UNSPECIFIED UNSPECIFIED Insecure None false false.
Definition sample_config : IpcpConfig :=
  mkIpcpConfig (mkIp 10 0 0 1) (mkIp 10 0 0 2) (mkIp 10 55 0 1) (mkIp 10 55 0 1) false false no_mobile_ip.
Definition sample_started : IpcpSession := (start (new sample_config)).1.
Definition asking (a : Ipv4Addr) : PppPacket :=
  to_ppp (mkControl CONFIGURE_REQUEST 7 (serialize_options [mkOption OPT_IP_ADDRESS (ip_to_bytes a)])).
Definition our_ack : PppPacket := to_ppp (mkControl CONFIGURE_ACK 1 (our_request_data (new sample_config))).
Definition sample_ack_sent : IpcpSession := (receive (asking (mkIp 10 0 0 2)) sample_started).1.
Definition sample_opened : IpcpSession := (receive our_ack sample_ack_sent).1.

(** The address is reassigned before our request is acknowledged, and the session resumed:
    what it has acknowledged is the address of the earlier state. *)
Definition sample_reassigned : IpcpSession := (receive our_ack (reassign_peer_ip (mkIp 10 0 0 9) sample_ack_sent)).1.
Definition sample_open_state : IpcpOpenState :=
  mkIpcpOpenState (config sample_reassigned) true false VjCompressionOptions_default None None
    (last_acked_peer_request_data sample_reassigned).
Definition sample_resumed : IpcpSession := restore_open_state sample_open_state (new sample_config).

Lemma ipcp_opened_assigns_witness : same_terms sample_config (config sample_resumed) ∧
  last_acked_peer_request_data sample_resumed = serialize_options [mkOption OPT_IP_ADDRESS [10; 0; 0; 2]] ∧
  peer_ip (config sample_resumed) = mkIp 10 0 0 9.
Proof.
  split; [|split; vm_compute; reflexivity].
  apply (ipcp_opened_assigns sample_config [mkIp 10 0 0 9; mkIp 10 0 0 2]
    ([to_ppp (mkControl CONFIGURE_ACK 7 (serialize_options [mkOption OPT_IP_ADDRESS [10; 0; 0; 2]])); (start (new sample_config)).2])
    [our_ack; asking (mkIp 10 0 0 2)] sample_resumed); [|vm_compute; reflexivity].
  apply (h_resume sample_config _ _ _ sample_reassigned); [|vm_compute; reflexivity].
  apply (h_receive sample_config _ _ _ (reassign_peer_ip (mkIp 10 0 0 9) sample_ack_sent) sample_reassigned our_ack []);
    [|vm_compute; reflexivity].
  apply (h_reassign sample_config [_]).
  apply (h_receive sample_config _ [_] [] sample_started sample_ack_sent (asking (mkIp 10 0 0 2)) [_]); [|vm_compute; reflexivity].
  apply (h_start sample_config _ [] [] (new sample_config)); [constructor|reflexivity|reflexivity].
Defined.

(** One round of correction is enough.  A request with IP-Address and DNS options of
    any values that is not acceptable is answered by a Configure-Nak; when the peer takes
    over the suggested values, its next request is acknowledged. *)
Theorem ipcp_one_round s id id' opts :
  Forall address_option opts → has_option OPT_IP_ADDRESS opts = true → (length opts ≤ 1000)%nat →
  consecutive_naks_sent s = ∅ → state s ≠ Opened → we_acked s = false → naks_for (config s) opts ≠ [] →
  let naks := naks_for (config s) opts in
  let corrected := serialize_options (take_over naks opts) in
  ∃ s1 s2,
    receive (to_ppp (mkControl CONFIGURE_REQUEST id (serialize_options opts))) s =
      (s1, [to_ppp (mkControl CONFIGURE_NAK id (serialize_options naks))]) ∧
    receive (to_ppp (mkControl CONFIGURE_REQUEST id' corrected)) s1 = (s2, [to_ppp (mkControl CONFIGURE_ACK id' corrected)]) ∧
    we_acked s2 = true ∧ last_acked_peer_request_data s2 = corrected.
Proof.
  intros Hf Hip Hlen Hnaks Hst Hwe Hne naks corrected. pose proof (take_over_accepted (config s) opts Hf) as Ht.
  assert (Forall address_option (take_over naks opts)) as Hf' by (eapply Forall_impl; [exact Ht|by intros o []]).
  assert (length (take_over naks opts) = length opts) as Hlt by apply length_map.
  destruct (answer_nak id opts s) as (s1 & E1 & Ec & Hs1 & _); try done;
    [by apply address_options_wf|by apply appended_nil|].
  rewrite receive_when_not_open, E1; [|rewrite length_address_options by done; lia|done]. exists s1.
  destruct (answer_ack id' corrected s1) as (s2 & E2 & Hw2 & Hl2).
  { unfold acceptable. subst corrected. rewrite parse_serialize by by apply address_options_wf. rewrite Ec.
    eapply Forall_impl; [exact Ht|by intros o []]. }
  { subst corrected. rewrite parse_serialize by by apply address_options_wf. by apply appended_nil, take_over_has. }
  exists s2. split; [done|]. rewrite receive_when_not_open, E2; [done| |done].
  subst corrected. rewrite length_address_options by done. lia.
Qed.

Definition zero_request : list ControlOption :=
  [mkOption OPT_IP_ADDRESS [0; 0; 0; 0]; mkOption OPT_PRIMARY_DNS [0; 0; 0; 0]; mkOption OPT_SECONDARY_DNS [0; 0; 0; 0]].
Lemma ipcp_one_round_witness :
  let corrected := serialize_options (take_over (naks_for sample_config zero_request) zero_request) in
  ∃ s1 s2, receive (to_ppp (mkControl CONFIGURE_REQUEST 1 (serialize_options zero_request))) sample_started = (s1, [to_ppp
      (mkControl CONFIGURE_NAK 1 (serialize_options (naks_for sample_config zero_request)))]) ∧
    receive (to_ppp (mkControl CONFIGURE_REQUEST 2 corrected)) s1 = (s2, [to_ppp (mkControl CONFIGURE_ACK 2 corrected)]) ∧
    we_acked s2 = true ∧ last_acked_peer_request_data s2 = corrected.
Proof.
  apply (ipcp_one_round sample_started 1 2 zero_request).
  - repeat constructor; cbn; set_solver.
  - reflexivity.
  - cbn. lia.
  - reflexivity.
  - discriminate.
  - reflexivity.
  - vm_compute. discriminate.
Defined.

(** A peer that never asks for an address is not stuck.  Without Mobile IP, an
    otherwise acceptable request that omits the IP-Address option and is repeated
    unchanged gets [MAX_FAILURE] suggestions of the assigned address, and then an
    acknowledgement. *)
Theorem ipcp_omitted_address_accepted id d s :
  Z.of_nat (length d) ≤ 65531 → acceptable (config s) d → no_address d → mip_enabled (mobile_ip (config s)) = false →
  state s ≠ Opened → we_acked s = false → consecutive_naks_sent s = ∅ →
  ∃ s', ask 6 (to_ppp (mkControl CONFIGURE_REQUEST id d)) s =
      (s', replicate 5 (to_ppp (mkControl CONFIGURE_NAK id (serialize_options [mkOption OPT_IP_ADDRESS (ip_to_bytes (peer_ip (config s)))])))
           ++ [to_ppp (mkControl CONFIGURE_ACK id d)]) ∧ we_acked s' = true.
Proof.
  intros Hl Ha Hno Hmip Hst Hwe E. apply ask_step; try done. unfold nak_count. by rewrite E, lookup_empty.
Qed.

Definition dns_only : list Z := serialize_options [mkOption OPT_PRIMARY_DNS [10; 55; 0; 1]].
Lemma ipcp_omitted_address_accepted_witness :
  ∃ s', ask 6 (to_ppp (mkControl CONFIGURE_REQUEST 3 dns_only)) sample_started =
      (s', replicate 5 (to_ppp (mkControl CONFIGURE_NAK 3 (serialize_options [mkOption OPT_IP_ADDRESS [10; 0; 0; 2]])))
           ++ [to_ppp (mkControl CONFIGURE_ACK 3 dns_only)]) ∧ we_acked s' = true.
Proof.
  apply (ipcp_omitted_address_accepted 3 dns_only sample_started); try reflexivity; [vm_compute; discriminate| |discriminate].
  repeat constructor.
Defined.

(** A reassigned address does not reach an open session.  After [reassign_peer_ip], a
    repeated request of an open session is acknowledged with whatever address it was
    opened with: it is not judged again. *)
Theorem ipcp_reassign_ignored s a id : is_open s = true → Z.of_nat (length (last_acked_peer_request_data s)) ≤ 65531 →
  let req := mkControl CONFIGURE_REQUEST id (last_acked_peer_request_data s) in
  receive (to_ppp req) (reassign_peer_ip a s) =
    (reassign_peer_ip a s, [to_ppp (mkControl CONFIGURE_ACK id (last_acked_peer_request_data s))]).
Proof.
  intros Ho Hl req. unfold req. rewrite ipcp_receive_request_packet by done. unfold receive_configure_request.
  unfold is_open in Ho. apply bool_decide_eq_true in Ho. change (state (reassign_peer_ip a s)) with (state s).
  change (last_acked_peer_request_data (reassign_peer_ip a s)) with (last_acked_peer_request_data s).
  by rewrite !bool_decide_eq_true_2.
Qed.

(** The mobile asks for the old address again and is told that it has it. *)
Lemma ipcp_reassign_ignored_witness :
  (receive (asking (mkIp 10 0 0 2)) (reassign_peer_ip (mkIp 10 0 0 9) sample_opened)).2 =
    [to_ppp (mkControl CONFIGURE_ACK 7 (serialize_options [mkOption OPT_IP_ADDRESS (ip_to_bytes (mkIp 10 0 0 2))]))].
Proof.
  exact (f_equal snd (ipcp_reassign_ignored sample_opened (mkIp 10 0 0 9) 7
    ltac:(vm_compute; reflexivity) ltac:(vm_compute; discriminate))).
Defined.

(** A Configure-Nak does not take back an acknowledgement.  The mobile's first request
    is acknowledged, its second, changed one is not; when our own request is acknowledged
    the session opens, although the mobile's last request was refused. *)
Theorem ipcp_opens_after_nak :
  let s := sample_ack_sent in
  let '(s, answer) := receive (asking (mkIp 10 0 0 77)) s in
  let s := (receive our_ack s).1 in
  answer = [to_ppp (mkControl CONFIGURE_NAK 7 (serialize_options [mkOption OPT_IP_ADDRESS [10; 0; 0; 2]]))] ∧ is_open s = true.
Proof. vm_compute. split; reflexivity. Qed.

(** In [AckReceived] the timer repeats nothing and never fails, for however long. *)
Fixpoint ticks (n : nat) (s : IpcpSession) : IpcpSession * list PppPacket :=
  match n with
  | O => (s, [])
  | S n =>
      let '(s, o) := maybe_retransmit_configure_request s in
      let '(s, out) := ticks n s in
      (s, option_list o ++ out)
  end.
Lemma ipcp_ack_received_waits n s : state s = AckReceived → ticks n s = (s, []).
Proof.
  intros H. assert (maybe_retransmit_configure_request s = (s, None)) as E.
  { unfold maybe_retransmit_configure_request. by rewrite H. }
  induction n as [|n IH]; [done|]. cbn [ticks]. by rewrite E, IH.
Qed.
