(* ===== verification/Text.v ===== *)
(** * Rust strings: the parts of [char], [str] and [String] the modem and Mobile IP code use

    A [String] is the list of its characters (Unicode scalar values); [as_bytes]
    is its UTF-8 encoding and [from_utf8_lossy] the decoding of the standard
    library, which replaces each maximal ill-formed prefix by U+FFFD. *)
From S2P Require Import Prelude.
From Stdlib Require Import Ascii.

Module Text.

Definition chars := list Z.

(** A literal of the source. *)
Fixpoint lit (s : string) : chars :=
  match s with
  | EmptyString => []
  | String a s => Z.of_nat (nat_of_ascii a) :: lit s
  end.

(** ** UTF-8 *)
Definition utf8_char (c : Z) : list Z :=
  if c <? 0x80 then [c]
  else if c <? 0x800 then [0xC0 + c / 64; 0x80 + c mod 64]
  else if c <? 0x10000 then [0xE0 + c / 4096; 0x80 + c / 64 mod 64; 0x80 + c mod 64]
  else [0xF0 + c / 262144; 0x80 + c / 4096 mod 64; 0x80 + c / 64 mod 64; 0x80 + c mod 64].
Definition as_bytes (s : chars) : list Z := mjoin (utf8_char <$> s).

Definition REPLACEMENT : Z := 0xFFFD.
Definition in_range (lo hi b : Z) : bool := (lo <=? b) && (b <=? hi).
Definition is_cont (b : Z) : bool := in_range 0x80 0xBF b.

(** The second octet a three- or four-octet sequence may have. *)
Definition second3 (b c : Z) : bool :=
  if b =? 0xE0 then in_range 0xA0 0xBF c
  else if b =? 0xED then in_range 0x80 0x9F c
  else is_cont c.
Definition second4 (b c : Z) : bool :=
  if b =? 0xF0 then in_range 0x90 0xBF c
  else if b =? 0xF4 then in_range 0x80 0x8F c
  else is_cont c.

(** One character of the lossy decoding of [b :: rest], with what is left. *)
Definition decode_char (b : Z) (rest : list Z) : Z * list Z :=
  if b <? 0x80 then (b, rest)
  else if in_range 0xC2 0xDF b then
    match rest with
    | c :: r => if is_cont c then ((b - 0xC0) * 64 + (c - 0x80), r) else (REPLACEMENT, rest)
    | [] => (REPLACEMENT, rest)
    end
  else if in_range 0xE0 0xEF b then
    match rest with
    | c :: r =>
        if second3 b c then
          match r with
          | d :: r' => if is_cont d then ((b - 0xE0) * 4096 + (c - 0x80) * 64 + (d - 0x80), r') else (REPLACEMENT, r)
          | [] => (REPLACEMENT, r)
          end
        else (REPLACEMENT, rest)
    | [] => (REPLACEMENT, rest)
    end
  else if in_range 0xF0 0xF4 b then
    match rest with
    | c :: r =>
        if second4 b c then
          match r with
          | d :: r' =>
              if is_cont d then
                match r' with
                | e :: r'' =>
                    if is_cont e
                    then ((b - 0xF0) * 262144 + (c - 0x80) * 4096 + (d - 0x80) * 64 + (e - 0x80), r'')
                    else (REPLACEMENT, r')
                | [] => (REPLACEMENT, r')
                end
              else (REPLACEMENT, r)
          | [] => (REPLACEMENT, r)
          end
        else (REPLACEMENT, rest)
    | [] => (REPLACEMENT, rest)
    end
  else (REPLACEMENT, rest).

Fixpoint from_utf8_lossy_fuel (fuel : nat) (v : list Z) : chars :=
  match fuel, v with
  | S fuel, b :: rest => let '(c, rest) := decode_char b rest in c :: from_utf8_lossy_fuel fuel rest
  | _, _ => []
  end.
Definition from_utf8_lossy (v : list Z) : chars := from_utf8_lossy_fuel (length v) v.

(** ** ASCII classes and cases *)
Definition to_ascii_uppercase_char (c : Z) : Z := if in_range 97 122 c then c - 32 else c.
Definition to_ascii_uppercase (s : chars) : chars := to_ascii_uppercase_char <$> s.
Definition is_ascii_digit (c : Z) : bool := in_range 48 57 c.
(** [char::is_whitespace] *)
Definition is_whitespace (c : Z) : bool :=
  in_range 9 13 c || bool_decide (c ∈ [0x20; 0x85; 0xA0; 0x1680; 0x2028; 0x2029; 0x202F; 0x205F; 0x3000])
  || in_range 0x2000 0x200A c.

Fixpoint trim_start_matches (p : Z → bool) (s : chars) : chars :=
  match s with
  | c :: r => if p c then trim_start_matches p r else s
  | [] => []
  end.
Definition trim_end_matches (p : Z → bool) (s : chars) : chars := rev (trim_start_matches p (rev s)).
Definition trim (s : chars) : chars := trim_end_matches is_whitespace (trim_start_matches is_whitespace s).

(** [str::find(char)], the index counted in characters. *)
Fixpoint find_char (c : Z) (s : chars) : option nat :=
  match s with
  | [] => None
  | x :: s => if x =? c then Some 0%nat else S <$> find_char c s
  end.
(** [split_once] *)
Definition split_once (c : Z) (s : chars) : option (chars * chars) :=
  i ← find_char c s; Some (take i s, drop (S i) s).
(** [strip_suffix] of one character *)
Definition strip_suffix (c : Z) (s : chars) : option chars :=
  match rev s with
  | x :: r => if x =? c then Some (rev r) else None
  | [] => None
  end.

(** ** Numbers *)
Fixpoint decimal_fuel (fuel : nat) (n : Z) (acc : chars) : chars :=
  match fuel with
  | O => acc
  | S fuel =>
      let acc := 48 + n mod 10 :: acc in
      if n / 10 =? 0 then acc else decimal_fuel fuel (n / 10) acc
  end.
(** [format!("{n}")]; ten digits are enough for a [u32]. *)
Definition decimal (n : Z) : chars := decimal_fuel 10 n [].
(** [format!("{n:03}")] *)
Definition decimal3 (n : Z) : chars := let d := decimal n in replicate (3 - length d) 48 ++ d.

Fixpoint digits_value (max acc : Z) (s : chars) : option Z :=
  match s with
  | [] => Some acc
  | c :: s =>
      if is_ascii_digit c then
        let acc := acc * 10 + (c - 48) in
        if acc <=? max then digits_value max acc s else None
      else None
  end.
(** [str::parse::<u8>] *)
Definition parse_u8 (s : chars) : option Z :=
  match s with
  | [] => None
  | 43 :: ((_ :: _) as r) => digits_value 255 0 r
  | _ => digits_value 255 0 s
  end.

(** ** Properties *)
Definition ascii (s : chars) : Prop := Forall (λ c, 0 ≤ c < 128) s.

Lemma as_bytes_ascii s : ascii s → as_bytes s = s.
Proof.
  induction 1 as [|c s Hc Hs IH]; [done|]. change (as_bytes (c :: s)) with (utf8_char c ++ as_bytes s).
  rewrite IH. unfold utf8_char. by rewrite (proj2 (Z.ltb_lt c 0x80)) by lia.
Qed.

Lemma from_utf8_lossy_ascii s : ascii s → from_utf8_lossy s = s.
Proof.
  unfold from_utf8_lossy. induction 1 as [|c s Hc Hs IH]; [done|].
  cbn [from_utf8_lossy_fuel length decode_char]. unfold decode_char.
  rewrite (proj2 (Z.ltb_lt c 0x80)) by lia. by rewrite IH.
Qed.

Lemma find_char_None c s : c ∉ s → find_char c s = None.
Proof.
  induction s as [|x s IH]; [done|]. rewrite not_elem_of_cons. intros [??]. cbn.
  rewrite (proj2 (Z.eqb_neq x c)) by congruence. by rewrite IH.
Qed.

Lemma parse_u8_range s v : parse_u8 s = Some v → is_u8 v.
Proof.
  assert (∀ s acc, 0 ≤ acc ≤ 255 → digits_value 255 acc s = Some v → is_u8 v) as H.
  { intros s'. induction s' as [|c s' IH]; intros acc Hacc; cbn [digits_value]; [intros ?; simplify_eq; unfold is_u; lia|].
    destruct (is_ascii_digit c) eqn:E; [|done]. unfold is_ascii_digit, in_range in E.
    destruct (_ <=? 255) eqn:E'; [|done]. apply IH. lia. }
  unfold parse_u8. intros Hv.
  repeat (case_match; try done; subst); eapply H; try exact Hv; lia.
Qed.

Example lossy_examples :
  from_utf8_lossy [0x41; 0xC3; 0xA9; 0xE2; 0x82; 0x41; 0xF0; 0x9F; 0x98; 0x80; 0xFF]
  = [0x41; 0xE9; REPLACEMENT; 0x41; 0x1F600; REPLACEMENT].
Proof. reflexivity. Qed.
Example parse_u8_examples :
  (parse_u8 (lit "+7"), parse_u8 (lit "256"), parse_u8 (lit "+"), parse_u8 (lit "007")) = (Some 7, None, None, Some 7).
Proof. reflexivity. Qed.

(** *** Decoding undoes encoding *)
Definition scalar (c : Z) : Prop := 0 ≤ c < 0xD800 ∨ 0xE000 ≤ c ≤ 0x10FFFF.

Lemma decode_utf8_char c rest :
  scalar c → ∃ b t, utf8_char c = b :: t ∧ decode_char b (t ++ rest) = (c, rest).
Proof.
  intros Hc. unfold utf8_char, scalar in *.
  destruct (Z.ltb_spec c 0x80); [eexists _, []; split; [done|]; unfold decode_char; by rewrite (proj2 (Z.ltb_lt c 0x80))|].
  destruct (Z.ltb_spec c 0x800); [|destruct (Z.ltb_spec c 0x10000)];
    (eexists _, _; split; [done|]); cbn [app]; unfold decode_char.
  - rewrite (proj2 (Z.ltb_ge _ 0x80)) by zdiv.
    replace (in_range 0xC2 0xDF _) with true by (symmetry; unfold in_range; zdiv).
    replace (is_cont _) with true by (symmetry; unfold is_cont, in_range; zdiv). f_equal. zdiv.
  - rewrite (proj2 (Z.ltb_ge _ 0x80)) by zdiv.
    replace (in_range 0xC2 0xDF _) with false by (symmetry; unfold in_range; zdiv).
    replace (in_range 0xE0 0xEF _) with true by (symmetry; unfold in_range; zdiv).
    replace (second3 _ _) with true.
    2: { symmetry. unfold second3, is_cont, in_range. destruct (Z.eqb_spec (0xE0 + c / 4096) 0xE0) as [E|E];
         [zdiv|]. destruct (Z.eqb_spec (0xE0 + c / 4096) 0xED) as [E'|E']; zdiv. }
    replace (is_cont _) with true by (symmetry; unfold is_cont, in_range; zdiv). f_equal. zdiv.
  - rewrite (proj2 (Z.ltb_ge _ 0x80)) by zdiv.
    replace (in_range 0xC2 0xDF _) with false by (symmetry; unfold in_range; zdiv).
    replace (in_range 0xE0 0xEF _) with false by (symmetry; unfold in_range; zdiv).
    replace (in_range 0xF0 0xF4 _) with true by (symmetry; unfold in_range; zdiv).
    replace (second4 _ _) with true.
    2: { symmetry. unfold second4, is_cont, in_range. destruct (Z.eqb_spec (0xF0 + c / 262144) 0xF0) as [E|E];
         [zdiv|]. destruct (Z.eqb_spec (0xF0 + c / 262144) 0xF4) as [E'|E']; zdiv. }
    replace (is_cont (0x80 + c / 64 mod 64)) with true by (symmetry; unfold is_cont, in_range; zdiv).
    replace (is_cont _) with true by (symmetry; unfold is_cont, in_range; zdiv). f_equal. zdiv.
Qed.

Lemma utf8_roundtrip s : Forall scalar s → from_utf8_lossy (as_bytes s) = s.
Proof.
  intros Hs. unfold from_utf8_lossy.
  assert (∀ fuel, (length (as_bytes s) ≤ fuel)%nat → from_utf8_lossy_fuel fuel (as_bytes s) = s) as H; [|by apply H].
  induction Hs as [|c s Hc Hs IH]; intros fuel Hf; [by destruct fuel|].
  change (as_bytes (c :: s)) with (utf8_char c ++ as_bytes s) in *.
  destruct (decode_utf8_char c (as_bytes s) Hc) as (b & t & E & D). rewrite E in *.
  cbn [app length] in *. rewrite length_app in Hf. destruct fuel as [|fuel]; [lia|].
  cbn [from_utf8_lossy_fuel]. rewrite D. f_equal. apply IH. lia.
Qed.

End Text.
