(* ===== verification/Tia617.v ===== *)
(** * TIA-617 control-channel codec ([cdma-modem/src/tia617.rs])

    Control constructs are multiplexed into the octet stream of the modem-server
    connection behind an escape octet.  The encoder, the streaming decoder, and:
    the decoder recovers every stream of constructs and data whatever the
    chunks it arrives in, a message of any length is segmented so that its end
    is visible, and octets pass transparently exactly when none is the escape. *)
From S2P Require Import Prelude.

Module Tia617.

Definition ESCAPE : Z := 0x19.
Definition LEN_BIAS : Z := 0x20.
Definition MAX_STRING : nat := 94.

Definition EXTEND_IWF0 : Z := 0x60.
Definition EXTEND_IWF1 : Z := 0x61.
Definition EXTEND_MS1 : Z := 0x41.
Definition TYPE_B : Z := 0x42.
Definition TYPE_C : Z := 0x43.
Definition TYPE_STATUS : Z := 0x62.

Inductive Item :=
| Raw (data : list Z)
| Construct (extend type_byte : Z) (string : list Z).
#[export] Instance Item_eq_dec : EqDecision Item.
Proof. solve_decision. Defined.

(** ** Encoding *)
Definition encode_construct (extend type_byte : Z) (string : list Z) : list Z :=
  [ESCAPE; extend; wrapping_add 8 LEN_BIAS ((Z.of_nat (length string)) as_u8); type_byte] ++ string.

Definition encode_message (extend type_byte : Z) (string : list Z) : list Z :=
  if decide (length string < MAX_STRING)%nat then encode_construct extend type_byte string
  else
    mjoin (encode_construct extend type_byte <$> chunks MAX_STRING string) ++
    (if decide (length string mod MAX_STRING = 0)%nat then encode_construct extend type_byte [] else []).

(** ** Decoding *)
Record Decoder := mkDecoder { partial : list Z; in_construct : bool }.
Definition new_decoder : Decoder := mkDecoder [] false.

(** The lengths checked before make the reads of [partial] succeed. *)
Definition try_complete (d : Decoder) : option Item :=
  match partial d with
  | extend :: len :: type_byte :: string =>
      let str_len := Z.to_nat (wrapping_sub 8 len LEN_BIAS) in
      if decide (length (partial d) < 3 + str_len)%nat then None
      else Some (Construct extend type_byte (take str_len string))
  | _ => None
  end.

(** The body of the loop of [feed]: the decoder, the run [raw] and the items so far. *)
Definition feed_octet (st : Decoder * list Z * list Item) (b : Z) : Decoder * list Z * list Item :=
  let '(d, raw, items) := st in
  if in_construct d then
    let d := mkDecoder (partial d ++ [b]) true in
    match try_complete d with
    | Some item =>
        let '(raw, items) := if decide (raw ≠ []) then ([], items ++ [Raw raw]) else (raw, items) in
        (mkDecoder [] false, raw, items ++ [item])
    | None => (d, raw, items)
    end
  else if b =? ESCAPE then (mkDecoder [] true, raw, items)
  else (d, raw ++ [b], items).

Definition feed (bytes : list Z) (d : Decoder) : Decoder * list Item :=
  let '(d, raw, items) := foldl feed_octet (d, [], []) bytes in
  (d, if decide (raw ≠ []) then items ++ [Raw raw] else items).

(** ** What a stream means: octets and constructs in order *)
Inductive token := Octet (b : Z) | Control (extend type_byte : Z) (string : list Z).
Definition tokens_of (i : Item) : list token :=
  match i with Raw data => Octet <$> data | Construct e t s => [Control e t s] end.
Definition tokens (l : list Item) : list token := mjoin (tokens_of <$> l).

#[local] Arguments tokens : simpl never.

Lemma tokens_app l k : tokens (l ++ k) = tokens l ++ tokens k.
Proof. unfold tokens. by rewrite fmap_app, join_app. Qed.
Lemma tokens_one i : tokens [i] = tokens_of i.
Proof. apply app_nil_r. Qed.

(** The decoder as an automaton: one octet in, at most one token out. *)
Definition step (d : Decoder) (b : Z) : Decoder * list token :=
  if in_construct d then
    let d := mkDecoder (partial d ++ [b]) true in
    match try_complete d with
    | Some item => (new_decoder, tokens_of item)
    | None => (d, [])
    end
  else if b =? ESCAPE then (mkDecoder [] true, [])
  else (d, [Octet b]).
Fixpoint steps (d : Decoder) (bs : list Z) : Decoder * list token :=
  match bs with
  | [] => (d, [])
  | b :: bs => let '(d, t) := step d b in let '(d, ts) := steps d bs in (d, t ++ ts)
  end.

Lemma steps_app d bs cs :
  steps d (bs ++ cs) = let '(d, t) := steps d bs in let '(d, u) := steps d cs in (d, t ++ u).
Proof.
  revert d. induction bs as [|b bs IH]; intros d; cbn [app steps]; [by destruct (steps d cs)|].
  destruct (step d b) as [d1 t]. rewrite IH. destruct (steps d1 bs) as [d2 u].
  destruct (steps d2 cs) as [d3 v]. by rewrite (assoc_L (++)).
Qed.

Lemma feed_octet_step d raw items b :
  (feed_octet (d, raw, items) b).1.1 = (step d b).1 ∧
  tokens (feed_octet (d, raw, items) b).2 ++ (Octet <$> (feed_octet (d, raw, items) b).1.2)
    = tokens items ++ (Octet <$> raw) ++ (step d b).2.
Proof.
  unfold feed_octet, step. destruct (in_construct d).
  - destruct (try_complete _) as [item|]; [|by rewrite app_nil_r].
    destruct (decide (raw ≠ [])) as [|E]; split; try done; cbn.
    + by rewrite !tokens_app, !tokens_one, app_nil_r, <- (assoc_L (++)).
    + apply dec_stable in E as ->. cbn. by rewrite tokens_app, tokens_one, app_nil_r.
  - destruct (b =? ESCAPE); split; try done; cbn; [by rewrite app_nil_r|]. by rewrite fmap_app.
Qed.

Lemma foldl_feed_octet bs d raw items :
  let r := foldl feed_octet (d, raw, items) bs in
  r.1.1 = (steps d bs).1 ∧
  tokens r.2 ++ (Octet <$> r.1.2) = tokens items ++ (Octet <$> raw) ++ (steps d bs).2.
Proof.
  revert d raw items. induction bs as [|b bs IH]; intros d raw items; cbn [foldl steps fst snd];
    [by rewrite app_nil_r|].
  destruct (feed_octet_step d raw items b) as [E T].
  destruct (feed_octet (d, raw, items) b) as [[d1 raw1] items1].
  destruct (step d b) as [d' t]. cbn in E, T. simplify_eq.
  destruct (IH d' raw1 items1) as [-> ->]. destruct (steps d' bs) as [d2 u]. cbn [fst snd]. split; [done|].
  rewrite (assoc_L (++)), T. cbn [snd]. by rewrite !(assoc_L (++)).
Qed.

Lemma feed_steps bs d : (feed bs d).1 = (steps d bs).1 ∧ tokens (feed bs d).2 = (steps d bs).2.
Proof.
  unfold feed. destruct (foldl_feed_octet bs d [] []) as [E T].
  destruct (foldl _ _ _) as [[d' raw] items]. cbn in E, T. subst. split; [done|].
  change (tokens [] ++ (steps d bs).2) with (steps d bs).2 in T. cbn [snd]. rewrite <- T. destruct (decide (raw ≠ [])) as [|N]; [by rewrite tokens_app, tokens_one|].
  apply dec_stable in N as ->. cbn. by rewrite app_nil_r.
Qed.

(** Feeding chunk after chunk. *)
Fixpoint feed_all (cs : list (list Z)) (d : Decoder) : Decoder * list Item :=
  match cs with
  | [] => (d, [])
  | c :: cs => let '(d, i) := feed c d in let '(d, its) := feed_all cs d in (d, i ++ its)
  end.
Lemma feed_all_steps cs d :
  (feed_all cs d).1 = (steps d (mjoin cs)).1 ∧ tokens (feed_all cs d).2 = (steps d (mjoin cs)).2.
Proof.
  revert d. induction cs as [|c cs IH]; intros d; [done|]. cbn [feed_all]. rewrite mjoin_cons, steps_app. destruct (feed_steps c d) as [E T]. destruct (feed c d) as [d1 i], (steps d c) as [d1' t].
  cbn in E, T. subst. destruct (IH d1') as [E T]. destruct (feed_all cs d1') as [d2 its].
  destruct (steps d1' (mjoin cs)) as [d2' u].
  cbn in E, T |- *. subst. split; [done|]. by rewrite tokens_app.
Qed.

(** *** Constructs *)
Lemma try_complete_partial e l t s :
  (length s ≤ Z.to_nat (wrapping_sub 8 l LEN_BIAS))%nat →
  try_complete (mkDecoder (e :: l :: t :: s) true) =
    if decide (length s = Z.to_nat (wrapping_sub 8 l LEN_BIAS)) then Some (Construct e t s) else None.
Proof.
  intros H. unfold try_complete. cbn. case_decide as E; case_decide as E'; try done; try lia.
  by rewrite firstn_all2 by lia.
Qed.

Lemma steps_string e l t s s' :
  (length (s ++ s') = Z.to_nat (wrapping_sub 8 l LEN_BIAS))%nat → s' ≠ [] →
  steps (mkDecoder (e :: l :: t :: s) true) s' = (new_decoder, [Control e t (s ++ s')]).
Proof.
  revert s. induction s' as [|b s' IH]; intros s HL Hn; [done|]. cbn [steps step in_construct partial].
  unfold step. cbn [in_construct partial app].
  rewrite length_app in HL. cbn [length] in HL.
  rewrite try_complete_partial by (rewrite length_app; cbn; lia). rewrite length_app. cbn [length].
  destruct (decide (s' = [])) as [->|Hs'].
  - cbn [length] in HL. by rewrite decide_True by lia.
  - rewrite decide_False by (destruct s'; cbn in *; [done|lia]).
    rewrite IH; [by rewrite <- (assoc_L (++)) | rewrite !length_app; cbn; lia | done].
Qed.

Lemma length_field (s : list Z) : (length s ≤ 223)%nat →
  Z.to_nat (wrapping_sub 8 (wrapping_add 8 LEN_BIAS ((Z.of_nat (length s)) as_u8)) LEN_BIAS) = length s.
Proof. intros. unfold wrapping_sub, wrapping_add, wrap, LEN_BIAS. zdiv. Qed.

Lemma steps_construct e t s :
  (length s ≤ 223)%nat → steps new_decoder (encode_construct e t s) = (new_decoder, [Control e t s]).
Proof.
  intros HL. unfold encode_construct. set (l := wrapping_add 8 LEN_BIAS _).
  assert (HF := length_field s HL). fold l in HF.
  change ([ESCAPE; e; l; t] ++ s) with ([ESCAPE; e; l] ++ (t :: s)). rewrite steps_app.
  change (steps new_decoder [ESCAPE; e; l]) with (mkDecoder [e; l] true, @nil token). cbn [steps app].
  unfold step. cbn [in_construct partial app].
  rewrite (try_complete_partial e l t []) by (cbn; lia). destruct (decide (s = [])) as [->|Hs].
  - by rewrite decide_True by (cbn in *; lia).
  - rewrite decide_False by (destruct s; cbn in *; [done|lia]). by rewrite steps_string.
Qed.

Lemma steps_raw d data : in_construct d = false → ESCAPE ∉ data → steps d data = (d, Octet <$> data).
Proof.
  intros Hd. induction data as [|b data IH]; [done|]. rewrite not_elem_of_cons. intros [Hb Hn].
  cbn [steps]. unfold step. rewrite Hd, (proj2 (Z.eqb_neq b ESCAPE)) by congruence. by rewrite IH.
Qed.

Lemma feed_raw data :
  ESCAPE ∉ data → feed data new_decoder = (new_decoder, if decide (data = []) then [] else [Raw data]).
Proof.
  assert (∀ l raw, ESCAPE ∉ l → foldl feed_octet (new_decoder, raw, []) l = (new_decoder, raw ++ l, [])) as HR.
  { induction l as [|b l IH]; intros raw Hl; cbn [foldl]; [by rewrite app_nil_r|].
    apply not_elem_of_cons in Hl as [Hb Hl]. unfold feed_octet at 2. cbn [in_construct new_decoder].
    rewrite (proj2 (Z.eqb_neq b ESCAPE)) by congruence. change (mkDecoder [] false) with new_decoder.
    rewrite IH by done. by rewrite <- (assoc_L (++)). }
  intros Hn. unfold feed. rewrite HR by done. cbn [app]. by repeat case_decide.
Qed.

(** *** Streams *)
Definition encode_item (i : Item) : list Z :=
  match i with Raw data => data | Construct e t s => encode_construct e t s end.
Definition sendable (i : Item) : Prop :=
  match i with Raw data => ESCAPE ∉ data | Construct _ _ s => (length s ≤ 223)%nat end.

Lemma steps_items its :
  Forall sendable its → steps new_decoder (mjoin (encode_item <$> its)) = (new_decoder, tokens its).
Proof.
  induction 1 as [|i its Hi _ IH]; [done|]. rewrite fmap_cons, mjoin_cons, steps_app. assert (steps new_decoder (encode_item i) = (new_decoder, tokens_of i)) as ->.
  { destruct i; [by apply steps_raw | by apply steps_construct]. }
  by rewrite IH.
Qed.

(** Whatever the chunks a stream of data and constructs arrives in, the decoder recovers
    the same octets and constructs in order and is ready for the next. *)
Theorem tia617_stream cs its :
  Forall sendable its → mjoin cs = mjoin (encode_item <$> its) →
  (feed_all cs new_decoder).1 = new_decoder ∧ tokens (feed_all cs new_decoder).2 = tokens its.
Proof. intros Hs E. destruct (feed_all_steps cs new_decoder) as [-> ->]. rewrite E. by rewrite steps_items. Qed.

(** Two halves of a construct split in the middle of its string. *)
Lemma tia617_stream_witness :
  (feed_all [[1; ESCAPE; 0x61; 0x22]; [0x43; 7]; [8; 9]] new_decoder).1 = new_decoder ∧
  tokens (feed_all [[1; ESCAPE; 0x61; 0x22]; [0x43; 7]; [8; 9]] new_decoder).2
    = tokens [Raw [1]; Construct 0x61 0x43 [7; 8]; Raw [9]].
Proof.
  apply tia617_stream; [|reflexivity].
  repeat constructor; cbn; rewrite ?not_elem_of_cons; repeat split; try (vm_compute; congruence); try lia;
    apply not_elem_of_nil.
Defined.

(** *** Messages *)
(** The segments of a message: full ones and a shorter last one. *)
Definition segments (s : list Z) : list (list Z) :=
  if decide (length s < MAX_STRING)%nat then [s]
  else chunks MAX_STRING s ++ (if decide (length s mod MAX_STRING = 0)%nat then [[]] else []).

Lemma encode_message_segments e t s :
  encode_message e t s = mjoin (encode_construct e t <$> segments s).
Proof.
  unfold encode_message, segments. case_decide; [symmetry; apply app_nil_r|].
  rewrite fmap_app, join_app. f_equal. case_decide; [symmetry; apply app_nil_r|done].
Qed.

Lemma segments_spec s :
  mjoin (segments s) = s ∧
  ∃ full last, segments s = full ++ [last] ∧ Forall (λ c, length c = MAX_STRING) full ∧ (length last < MAX_STRING)%nat.
Proof.
  induction s as [s IH] using (induction_ltof1 _ length). unfold ltof in IH.
  unfold segments. case_decide as Hs; [split; [apply app_nil_r|]; by exists [], s|].
  assert (s ≠ []) by (intros ->; apply Hs; unfold MAX_STRING; cbn; lia).
  rewrite chunks_cons by (unfold MAX_STRING; lia || done). rewrite <- app_comm_cons, mjoin_cons.
  assert (length (drop MAX_STRING s) < length s)%nat as Hlt by (rewrite length_drop; unfold MAX_STRING in *; lia).
  destruct (IH _ Hlt) as [IJ (full & last & IE & IF & IL)].
  assert (chunks MAX_STRING (drop MAX_STRING s) ++ (if decide (length s mod MAX_STRING = 0)%nat then [[]] else [])
          = segments (drop MAX_STRING s)) as E.
  { unfold segments. rewrite length_drop.
    assert (length s mod MAX_STRING = (length s - MAX_STRING) mod MAX_STRING)%nat as ->.
    { replace (length s) with ((length s - MAX_STRING) + 1 * MAX_STRING)%nat at 1 by lia.
      by rewrite Nat.Div0.mod_add. }
    destruct (decide (length s - MAX_STRING < MAX_STRING)%nat) as [Hl|]; [|done].
    rewrite Nat.mod_small by done. case_decide as Hz.
    - assert (drop MAX_STRING s = []) as -> by (apply length_zero_iff_nil; rewrite length_drop; lia). done.
    - assert (drop MAX_STRING s ≠ []) by (intros E%(f_equal length); rewrite length_drop in E; by cbn in E).
      rewrite chunks_cons by (done || unfold MAX_STRING; lia).
      assert (length (drop MAX_STRING s) ≤ MAX_STRING)%nat by (rewrite length_drop; lia).
      by rewrite app_nil_r, take_ge, (drop_ge (drop MAX_STRING s)). }
  rewrite E, IJ, take_drop. split; [done|].
  exists (take MAX_STRING s :: full), last. rewrite IE. repeat split; try done.
  constructor; [|done]. rewrite length_take. lia.
Qed.

(** A message of any length, rendered and decoded, comes out as constructs of its type whose
    strings are the message cut into full segments and one shorter last segment, so the
    receiver sees where it ends. *)
Theorem tia617_message e t s :
  ∃ full last,
    tokens (feed (encode_message e t s) new_decoder).2 = (Control e t <$> full ++ [last]) ∧
    mjoin (full ++ [last]) = s ∧
    Forall (λ c, length c = MAX_STRING) full ∧ (length last < MAX_STRING)%nat.
Proof.
  destruct (segments_spec s) as [HJ (full & last & HE & HF & HL)]. exists full, last.
  rewrite <- HE, HJ. repeat split; try done.
  destruct (feed_steps (encode_message e t s) new_decoder) as [_ ->]. rewrite encode_message_segments.
  replace (encode_construct e t <$> segments s) with (encode_item <$> (Construct e t <$> segments s))
    by (rewrite <- list_fmap_compose; done).
  rewrite steps_items.
  - cbn [snd]. unfold tokens. rewrite <- list_fmap_compose. clear.
    induction (segments s) as [|c k IHk]; [done|]. cbn. f_equal. exact IHk.
  - rewrite HE. apply Forall_fmap, Forall_app. split; [|constructor; [|done]];
      [eapply Forall_impl; [exact HF|]; cbn; intros c ->|cbn]; unfold MAX_STRING in *; lia.
Qed.

(** *** Transparency *)
Lemma steps_length d bs : (length (steps d bs).2 ≤ length bs)%nat.
Proof.
  revert d. induction bs as [|b bs IH]; intros d; cbn [steps]; [done|].
  assert (length (step d b).2 ≤ 1)%nat as Hb.
  { unfold step. destruct (in_construct d); [|by destruct (b =? ESCAPE); cbn; lia].
    unfold try_complete. repeat case_match; simplify_eq; cbn; lia. }
  destruct (step d b) as [d1 t]. specialize (IH d1). destruct (steps d1 bs) as [d2 u]. cbn in *.
  rewrite length_app. lia.
Qed.

(** Octets pass through the decoder unchanged exactly when none of them is the escape octet:
    the stream has no way to carry the octet 0x19 as data. *)
Theorem tia617_transparent_iff data :
  tokens (feed data new_decoder).2 = (Octet <$> data) ↔ ESCAPE ∉ data.
Proof.
  destruct (feed_steps data new_decoder) as [_ ->]. split; [|intros; by rewrite steps_raw].
  intros E (pre & post & -> & Hpre)%list_elem_of_split_l. rewrite steps_app, (steps_raw new_decoder pre) in E by done.
  cbn [steps step in_construct new_decoder] in E. change (ESCAPE =? ESCAPE) with true in E. cbn [app] in E.
  assert (HL := steps_length (mkDecoder [] true) post). destruct (steps _ post) as [d u].
  rewrite fmap_app in E. apply (inj (app (Octet <$> pre))) in E. apply (f_equal length) in E.
  rewrite length_fmap in E. cbn in *. lia.
Qed.

End Tia617.
