(* ===== verification/AtCommand.v ===== *)
(** * AT command lines and result codes ([cdma-modem/src/at.rs], [result.rs])

    The scanner of [parse_body] keeps an index into the characters of the line;
    here it is the rest of the line.  A number overflows as in the release
    profile.  The scanner always ends: every turn consumes a character
    ([parse_body_fuel_enough]). *)
From S2P Require Import Prelude Text.
Import Text.

Module At.

Inductive AtCommand :=
| Dial (dial_string digits : chars)
| Answer
| Hangup
| ReturnOnline
| Echo (v : bool)
| Verbose (v : bool)
| Quiet (v : bool)
| Reset
| FactoryReset
| SetRegister (reg value : Z)
| QueryRegister (reg : Z)
| Extended (name : chars) (value : option chars) (query : bool)
| Unknown (body : chars).
#[export] Instance AtCommand_eq_dec : EqDecision AtCommand.
Proof. solve_decision. Defined.

Definition DIAL_MODIFIERS : chars := lit "TPW@!$,;()- R".

Definition extract_digits (dial_string : chars) : chars :=
  filter (λ c, to_ascii_uppercase_char c ∉ DIAL_MODIFIERS) dial_string.

(** [read_number]: the value and the rest of the characters. *)
Fixpoint read_number_from (val : Z) (s : chars) : Z * chars :=
  match s with
  | c :: r => if is_ascii_digit c then read_number_from (wrap 32 (val * 10 + (c - 48))) r else (val, s)
  | [] => (val, [])
  end.
Definition read_number (s : chars) : Z * chars := read_number_from 0 s.
Definition consume_number (s : chars) : chars := (read_number s).2.

Definition parse_extended (token : chars) : AtCommand :=
  match split_once 61 token with
  | Some (name, value) => Extended (to_ascii_uppercase name) (Some value) false
  | None =>
      match strip_suffix 63 token with
      | Some name => Extended (to_ascii_uppercase name) None true
      | None => Extended (to_ascii_uppercase token) None false
      end
  end.

(** The token of an extended command, and the rest: [str::find] counts octets,
    and the index it is added to counts characters. *)
Definition extended_token (rest : chars) : chars * chars :=
  let k := default (length rest) (find_char 59 rest) in
  let token := take k rest in
  (token, drop (length (as_bytes token)) rest).

(** One turn of the loop of [parse_body] at [c :: r]: the command, if any, and the
    rest of the line ([None] after [break]). *)
Definition scan (c : Z) (r : chars) : list AtCommand * option chars :=
  let u := to_ascii_uppercase_char c in
  if u =? 68 then ([Dial r (extract_digits r)], None)
  else if u =? 65 then ([Answer], Some r)
  else if u =? 72 then ([Hangup], Some (consume_number r))
  else if u =? 79 then ([ReturnOnline], Some r)
  else if u =? 69 then let '(n, r) := read_number r in ([Echo (negb (n =? 0))], Some r)
  else if u =? 86 then let '(n, r) := read_number r in ([Verbose (negb (n =? 0))], Some r)
  else if u =? 81 then let '(n, r) := read_number r in ([Quiet (negb (n =? 0))], Some r)
  else if u =? 90 then ([Reset], Some (consume_number r))
  else if u =? 38 then
    match r with
    | x :: r =>
        let next := to_ascii_uppercase_char x in
        ([if next =? 70 then FactoryReset else Unknown [38; next]], Some (consume_number r))
    | [] => ([], Some [])
    end
  else if u =? 83 then
    let '(reg, r) := read_number r in
    match r with
    | 61 :: r => let '(value, r) := read_number r in ([SetRegister (reg as_u8) (value as_u8)], Some r)
    | 63 :: r => ([QueryRegister (reg as_u8)], Some r)
    | _ => ([QueryRegister (reg as_u8)], Some r)
    end
  else if u =? 43 then
    let '(token, r) := extended_token r in ([parse_extended token], Some r)
  else if (u =? 59) || (u =? 32) then ([], Some r)
  else ([Unknown [u]], Some r).

Fixpoint parse_body_fuel (fuel : nat) (body : chars) : list AtCommand :=
  match fuel, body with
  | S fuel, c :: r =>
      match scan c r with
      | (cmds, Some r) => cmds ++ parse_body_fuel fuel r
      | (cmds, None) => cmds
      end
  | _, _ => []
  end.
Definition parse_body (body : chars) : list AtCommand := parse_body_fuel (length body) body.

Definition strip_at_prefix (line : chars) : option chars :=
  match line with
  | a :: t :: body =>
      if (to_ascii_uppercase_char a =? 65) && (to_ascii_uppercase_char t =? 84) then Some body else None
  | _ => None
  end.
Definition parse_line (line : chars) : option (list AtCommand) :=
  parse_body <$> strip_at_prefix (trim_end_matches (λ c, (c =? 13) || (c =? 10)) line).

(** ** Result codes *)
Inductive ResultCode :=
| RcOk | Connect (rate : option Z) | Ring | NoCarrier | RcError | NoDialtone | Busy | NoAnswer.
#[export] Instance ResultCode_eq_dec : EqDecision ResultCode.
Proof. solve_decision. Defined.

Definition numeric (c : ResultCode) : Z :=
  match c with
  | RcOk => 0 | Connect _ => 1 | Ring => 2 | NoCarrier => 3 | RcError => 4
  | NoDialtone => 6 | Busy => 7 | NoAnswer => 8
  end.
Definition verbose_text (c : ResultCode) : chars :=
  match c with
  | RcOk => lit "OK"
  | Connect None => lit "CONNECT"
  | Connect (Some rate) => lit "CONNECT " ++ decimal rate
  | Ring => lit "RING"
  | NoCarrier => lit "NO CARRIER"
  | RcError => lit "ERROR"
  | NoDialtone => lit "NO DIALTONE"
  | Busy => lit "BUSY"
  | NoAnswer => lit "NO ANSWER"
  end.

Example parses_dial_with_modifiers :
  parse_line (lit "ATDT5551212") = Some [Dial (lit "T5551212") (lit "5551212")].
Proof. reflexivity. Qed.
Example parses_chained :
  parse_line (lit "ATE0V1S7=60S0?+CRM=0;+CMIP?&F") =
  Some [Echo false; Verbose true; SetRegister 7 60; QueryRegister 0; Extended (lit "CRM") (Some (lit "0")) false;
        Extended (lit "CMIP?&F") None false].
Proof. reflexivity. Qed.

(** ** The scanner *)
Lemma read_number_length val s : (length (read_number_from val s).2 ≤ length s)%nat.
Proof.
  revert val. induction s as [|c s IH]; intros val; cbn; [done|].
  destruct (is_ascii_digit c); [|done]. specialize (IH (wrap 32 (val * 10 + (c - 48)))). lia.
Qed.

Lemma scan_shorter c r cmds r' : scan c r = (cmds, Some r') → (length r' ≤ length r)%nat.
Proof.
  assert (∀ s, (length (consume_number s) ≤ length s)%nat) as HC by (intros; apply read_number_length).
  assert (∀ s n t, read_number s = (n, t) → (length t ≤ length s)%nat) as HR.
  { intros s n t E. assert (H := read_number_length 0 s). unfold read_number in E. by rewrite E in H. }
  unfold scan. intros E.
  repeat (case_match; simplify_eq; try done);
    repeat match goal with H : read_number _ = _ |- _ => apply HR in H end; cbn [length] in *;
    rewrite ?HC; try lia.
  all: match goal with H : extended_token _ = _ |- _ => unfold extended_token in H; simplify_eq end;
    rewrite length_drop; lia.
Qed.

Lemma parse_body_fuel_enough fuel body :
  (length body ≤ fuel)%nat → parse_body_fuel fuel body = parse_body body.
Proof.
  unfold parse_body. revert body. induction fuel as [fuel IH] using lt_wf_ind. intros [|c r] Hf; [by destruct fuel|].
  destruct fuel as [|fuel]; cbn [length] in Hf; [lia|]. cbn [parse_body_fuel length].
  destruct (scan c r) as [cmds [r'|]] eqn:E; [|done]. apply scan_shorter in E. f_equal.
  rewrite (IH fuel), (IH (length r)) by lia. done.
Qed.

Lemma parse_body_cons c r :
  parse_body (c :: r) = let '(cmds, rest) := scan c r in cmds ++ (from_option parse_body [] rest).
Proof.
  unfold parse_body at 1. cbn [parse_body_fuel length]. destruct (scan c r) as [cmds [r'|]] eqn:E.
  - apply scan_shorter in E. by rewrite parse_body_fuel_enough.
  - by rewrite app_nil_r.
Qed.

Lemma parse_body_extended token rest :
  59 ∉ token → ascii token → parse_body (43 :: token ++ 59 :: rest) = parse_extended token :: parse_body rest.
Proof.
  intros Hn Ha. rewrite parse_body_cons. unfold scan.
  change (to_ascii_uppercase_char 43) with 43. cbn [Z.eqb Pos.eqb]. unfold extended_token.
  assert (find_char 59 (token ++ 59 :: rest) = Some (length token)) as ->.
  { clear Ha. induction token as [|x token IH]; [done|]. apply not_elem_of_cons in Hn as [??]. cbn.
    rewrite (proj2 (Z.eqb_neq x 59)) by congruence. by rewrite IH. }
  change (default ?d (Some ?k)) with k. rewrite take_app_length. rewrite as_bytes_ascii by done.
  rewrite drop_app_length. cbn [from_option app].
  rewrite (parse_body_cons 59 rest). cbn. done.
Qed.

(** An extended command ends at the semicolon: the commands behind it are scanned — as long as its
    text is ASCII.  With two two-octet characters in the text the scanner skips what follows, here a
    hang-up, because the offset of the semicolon is counted in octets and added to an index of characters. *)
Theorem at_extended_offset :
  (∀ token rest, 59 ∉ token → ascii token →
     parse_body (43 :: token ++ 59 :: rest) = parse_extended token :: parse_body rest) ∧
  parse_body (43 :: [0xE9; 0xE9] ++ 59 :: lit "H") = [parse_extended [0xE9; 0xE9]].
Proof. split; [exact parse_body_extended | reflexivity]. Qed.

End At.
