(* ===== verification/ModemIwf.v ===== *)
(** * The emulated modem of the async data service ([cdma-modem/src/modem.rs])

    Command lines are collected octet by octet and interpreted; online, octets
    pass to the data path.  The registers are indexed by an octet, so the array
    of 256 is never left. *)
From S2P Require Import Prelude Text Tia617 AtCommand.
Import Text At.

Module Modem.

Definition S_REGISTER_COUNT : nat := 256.

Inductive ModemState := Command | Dialing | Online | OnlineCommand.
#[export] Instance ModemState_eq_dec : EqDecision ModemState.
Proof. solve_decision. Defined.

Inductive Reply := RepResult (c : ResultCode) | Info (text : chars).
#[export] Instance Reply_eq_dec : EqDecision Reply.
Proof. solve_decision. Defined.

Inductive ModemEvent :=
| EvReply (r : Reply)
| EvDial (digits dial_string : chars)
| EvAnswer
| EvUserData (data : list Z)
| EvHangup.
#[export] Instance ModemEvent_eq_dec : EqDecision ModemEvent.
Proof. solve_decision. Defined.

Record ModemIwf := mkModemIwf {
  state : ModemState;
  echo : bool;
  verbose : bool;
  quiet : bool;
  config_done : bool;
  crm : Z;
  ms_ip : option chars;
  iwf_ip : option chars;
  s_registers : list Z;
  line_buf : list Z
}.

(** Field updates. *)
Definition set_state (x : ModemState) (s : ModemIwf) : ModemIwf :=
  mkModemIwf x (echo s) (verbose s) (quiet s) (config_done s) (crm s) (ms_ip s) (iwf_ip s) (s_registers s)
    (line_buf s).
Definition set_echo (x : bool) (s : ModemIwf) : ModemIwf :=
  mkModemIwf (state s) x (verbose s) (quiet s) (config_done s) (crm s) (ms_ip s) (iwf_ip s) (s_registers s)
    (line_buf s).
Definition set_verbose (x : bool) (s : ModemIwf) : ModemIwf :=
  mkModemIwf (state s) (echo s) x (quiet s) (config_done s) (crm s) (ms_ip s) (iwf_ip s) (s_registers s)
    (line_buf s).
Definition set_quiet (x : bool) (s : ModemIwf) : ModemIwf :=
  mkModemIwf (state s) (echo s) (verbose s) x (config_done s) (crm s) (ms_ip s) (iwf_ip s) (s_registers s)
    (line_buf s).
Definition set_config_done (x : bool) (s : ModemIwf) : ModemIwf :=
  mkModemIwf (state s) (echo s) (verbose s) (quiet s) x (crm s) (ms_ip s) (iwf_ip s) (s_registers s) (line_buf
    s).
Definition set_crm (x : Z) (s : ModemIwf) : ModemIwf :=
  mkModemIwf (state s) (echo s) (verbose s) (quiet s) (config_done s) x (ms_ip s) (iwf_ip s) (s_registers s)
    (line_buf s).
Definition set_ms_ip (x : option chars) (s : ModemIwf) : ModemIwf :=
  mkModemIwf (state s) (echo s) (verbose s) (quiet s) (config_done s) (crm s) x (iwf_ip s) (s_registers s)
    (line_buf s).
Definition set_iwf_ip (x : option chars) (s : ModemIwf) : ModemIwf :=
  mkModemIwf (state s) (echo s) (verbose s) (quiet s) (config_done s) (crm s) (ms_ip s) x (s_registers s)
    (line_buf s).
Definition set_s_registers (x : list Z) (s : ModemIwf) : ModemIwf :=
  mkModemIwf (state s) (echo s) (verbose s) (quiet s) (config_done s) (crm s) (ms_ip s) (iwf_ip s) x (line_buf
    s).
Definition set_line_buf (x : list Z) (s : ModemIwf) : ModemIwf :=
  mkModemIwf (state s) (echo s) (verbose s) (quiet s) (config_done s) (crm s) (ms_ip s) (iwf_ip s) (s_registers
    s) x.

Definition default_registers : list Z :=
  foldl (λ r '(i, v), <[Z.to_nat i := v]> r) (replicate S_REGISTER_COUNT 0)
    [(3, 13); (4, 10); (5, 8); (6, 2); (7, 50); (8, 2); (9, 6); (10, 14); (11, 95)].

Definition load_defaults (s : ModemIwf) : ModemIwf :=
  set_s_registers default_registers (set_quiet false (set_verbose true (set_echo true s))).

Definition new : ModemIwf :=
  load_defaults (mkModemIwf Command true true false false 0 None None (replicate S_REGISTER_COUNT 0) []).

Definition set_addresses (ms iwf : option chars) (s : ModemIwf) : ModemIwf := set_iwf_ip iwf (set_ms_ip ms s).

Definition on_tcp_established (s : ModemIwf) : ModemIwf :=
  set_line_buf [] (set_state Command (set_config_done false (load_defaults s))).

Definition on_carrier_up (rate_bps : Z) (s : ModemIwf) : ModemIwf * list ModemEvent :=
  (set_state Online s, [EvReply (RepResult (Connect (Some rate_bps)))]).

Definition on_carrier_lost (s : ModemIwf) : ModemIwf * list ModemEvent :=
  (set_line_buf [] (set_state Command s), [EvReply (RepResult NoCarrier)]).

Definition enter_online_command (s : ModemIwf) : ModemIwf * list ModemEvent :=
  if decide (state s = Online)
  then (set_line_buf [] (set_state OnlineCommand s), [EvReply (RepResult RcOk)])
  else (s, []).

(** Whether the extension is accepted, with the session and the events after it. *)
Definition process_extended (name : chars) (value : option chars) (query : bool) (s : ModemIwf)
    : ModemIwf * list ModemEvent * bool :=
  if decide (name = lit "CFG") then (set_config_done true s, [], true)
  else if decide (name = lit "CRM") then
    match value with
    | Some v =>
        match parse_u8 (trim v) with
        | Some n => (set_crm n s, [], true)
        | None => (s, [], false)
        end
    | None => (s, if query then [EvReply (Info (lit "+CRM: " ++ decimal (crm s)))] else [], true)
    end
  else if decide (name = lit "CMIP") then (s, option_list ((λ ip, EvReply (Info ip)) <$> ms_ip s), true)
  else if decide (name = lit "CBIP") then (s, option_list ((λ ip, EvReply (Info ip)) <$> iwf_ip s), true)
  else if decide (name ∈ [lit "CXT"; lit "CAD"; lit "CQD"; lit "CTA"; lit "CDR"; lit "CDS"; lit "CBC"; lit "CRC";
                          lit "CSS"; lit "CSQ"]) then (s, [], true)
  else (s, [], false).

(** The loop of [process_line] over one command: session, events, [ok] and [suppress_final]. *)
Definition process_command (st : ModemIwf * list ModemEvent * bool * bool) (cmd : AtCommand)
    : ModemIwf * list ModemEvent * bool * bool :=
  let '(s, events, ok, suppress_final) := st in
  match cmd with
  | Dial dial_string digits => (set_state Dialing s, events ++ [EvDial digits dial_string], ok, true)
  | Answer => (set_state Dialing s, events ++ [EvAnswer], ok, true)
  | Hangup =>
      let was_up := bool_decide (state s = Online ∨ state s = OnlineCommand) in
      (set_state Command s, if was_up then events ++ [EvHangup] else events, ok, suppress_final)
  | ReturnOnline =>
      if decide (state s = OnlineCommand) then (set_state Online s, events, ok, true)
      else (s, events, false, suppress_final)
  | Echo v => (set_echo v s, events, ok, suppress_final)
  | Verbose v => (set_verbose v s, events, ok, suppress_final)
  | Quiet v => (set_quiet v s, events, ok, suppress_final)
  | Reset | FactoryReset => (load_defaults s, events, ok, suppress_final)
  | SetRegister reg value => (set_s_registers (<[Z.to_nat reg := value]> (s_registers s)) s, events, ok, suppress_final)
  | QueryRegister reg =>
      let v := default 0 (s_registers s !! Z.to_nat reg) in
      (s, events ++ [EvReply (Info (decimal3 v))], ok, suppress_final)
  | Extended name value query =>
      let '(s, evs, accepted) := process_extended name value query s in
      (s, events ++ evs, ok && accepted, suppress_final)
  | Unknown _ => (s, events, false, suppress_final)
  end.

Definition process_line (line : chars) (s : ModemIwf) : ModemIwf * list ModemEvent :=
  match parse_line line with
  | None => (s, if decide (trim line ≠ []) then [EvReply (RepResult RcError)] else [])
  | Some cmds =>
      let '(s, events, ok, suppress_final) := foldl process_command (s, [], true, false) cmds in
      (s, if suppress_final then events else events ++ [EvReply (RepResult (if ok then RcOk else RcError))])
  end.

Definition feed_octet (st : ModemIwf * list ModemEvent) (b : Z) : ModemIwf * list ModemEvent :=
  let '(s, events) := st in
  if b =? 13 then
    let line := from_utf8_lossy (line_buf s) in
    let '(s, evs) := process_line line (set_line_buf [] s) in
    (s, events ++ evs)
  else if negb (b =? 10) then (set_line_buf (line_buf s ++ [b]) s, events)
  else (s, events).

Definition feed (bytes : list Z) (s : ModemIwf) : ModemIwf * list ModemEvent :=
  if decide (state s = Online) then (s, [EvUserData bytes])
  else foldl feed_octet (s, []) bytes.

Example dial_and_connect :
  let '(s, e1) := feed (lit "AT+CRM=0" ++ [13; 10] ++ lit "ATDT 555-1212" ++ [13]) new in
  let '(s, e2) := on_carrier_up 14400 s in
  e1 = [EvReply (RepResult RcOk); EvDial (lit "5551212") (lit "T 555-1212")] ∧
  e2 = [EvReply (RepResult (Connect (Some 14400)))] ∧ feed [0x7E] s = (s, [EvUserData [0x7E]]).
Proof. vm_compute. repeat split. Qed.

End Modem.

(** * The modem server: TIA-617 codec and modem together ([cdma-modem/src/server.rs]) *)
Import Text At Modem.

Module Server.

Inductive ServerEvent :=
| ToMobile (bytes : list Z)
| SvDial (digits dial_string : chars)
| SvAnswer
| UserData (data : list Z)
| SvHangup.
#[export] Instance ServerEvent_eq_dec : EqDecision ServerEvent.
Proof. solve_decision. Defined.

Record ModemServer := mkServer { modem : ModemIwf; decoder : Tia617.Decoder }.

Definition new_server : ModemServer := mkServer Modem.new Tia617.new_decoder.
Definition server_set_addresses (ms iwf : option chars) (s : ModemServer) : ModemServer :=
  mkServer (Modem.set_addresses ms iwf (modem s)) (decoder s).
Definition server_on_tcp_established (s : ModemServer) : ModemServer :=
  mkServer (Modem.on_tcp_established (modem s)) Tia617.new_decoder.

Definition render_reply (m : ModemIwf) (r : Reply) : option (list Z) :=
  match r with
  | RepResult rc =>
      if quiet m then None
      else
        let text := if verbose m then as_bytes (verbose_text rc) else [wrapping_add 8 (numeric rc) 48] in
        Some (Tia617.encode_message Tia617.EXTEND_IWF0 Tia617.TYPE_STATUS text)
  | Info text => Some (Tia617.encode_message Tia617.EXTEND_IWF1 Tia617.TYPE_C (as_bytes text))
  end.

Definition translate_event (m : ModemIwf) (ev : ModemEvent) : list ServerEvent :=
  match ev with
  | EvReply reply => option_list (ToMobile <$> render_reply m reply)
  | EvDial digits dial_string => [SvDial digits dial_string]
  | EvAnswer => [SvAnswer]
  | EvUserData d => [UserData d]
  | EvHangup => [SvHangup]
  end.
Definition translate (events : list ModemEvent) (m : ModemIwf) : list ServerEvent := mjoin (translate_event m <$> events).

Definition server_on_carrier_up (rate_bps : Z) (s : ModemServer) : ModemServer * list ServerEvent :=
  let '(m, events) := Modem.on_carrier_up rate_bps (modem s) in (mkServer m (decoder s), translate events m).
Definition server_on_carrier_lost (s : ModemServer) : ModemServer * list ServerEvent :=
  let '(m, events) := Modem.on_carrier_lost (modem s) in (mkServer m (decoder s), translate events m).

Definition feed_item (st : ModemIwf * list ModemEvent) (item : Tia617.Item) : ModemIwf * list ModemEvent :=
  let '(m, events) := st in
  match item with
  | Tia617.Raw data => let '(m, evs) := Modem.feed data m in (m, events ++ evs)
  | Tia617.Construct extend type_byte string =>
      if (extend =? Tia617.EXTEND_MS1) && (type_byte =? Tia617.TYPE_B) && bool_decide (string = [])
      then let '(m, evs) := enter_online_command m in (m, events ++ evs)
      else (m, events)
  end.
Definition server_feed (bytes : list Z) (s : ModemServer) : ModemServer * list ServerEvent :=
  let '(d, items) := Tia617.feed bytes (decoder s) in
  let '(m, events) := foldl feed_item (modem s, []) items in
  (mkServer m d, translate events m).

Example full_dial_flow :
  let s := server_on_tcp_established new_server in
  let '(s, e1) := server_feed (lit "ATDT5551212" ++ [13]) s in
  let '(s, e2) := server_on_carrier_up 14400 s in
  let '(s, e3) := server_feed [0x7E; 0xFF; 0x03] s in
  e1 = [SvDial (lit "5551212") (lit "T5551212")] ∧
  e2 = [ToMobile (Tia617.encode_construct Tia617.EXTEND_IWF0 Tia617.TYPE_STATUS (lit "CONNECT 14400"))] ∧
  e3 = [UserData [0x7E; 0xFF; 0x03]].
Proof. vm_compute. repeat split. Qed.

End Server.
