(* ===== verification/IpChecksum.v ===== *)
(** * The Internet checksum

    Three routines of the code compute it: the parts folded at the end
    ([checksum16] of [ppp/vj.rs] and [checksum] of [modem_endpoint.rs]), and a
    fold after each word ([checksum] of [mobile_ip.rs]).  All are shown equal to
    the one's complement sum, and a filled-in checksum verifies. *)
From S2P Require Import Prelude Vj VjProofs.

(** [checksum] of [modem_endpoint.rs]; [sum16] and [fold16] are the loops it shares with [vj.rs]. *)
Definition tcp_ip_checksum (data : list Z) : Z := bit_not 16 (wrap 16 (fold16 (fold16 (sum16 0 data)))).

(** [checksum] of [mobile_ip.rs]: one fold is enough after each word. *)
Definition add_word (sum word : Z) : Z := fold16 (wrapping_add 32 sum word).
Fixpoint sum_folded (sum : Z) (data : list Z) : Z :=
  match data with
  | a :: b :: rest => sum_folded (add_word sum (from_be16 a b)) rest
  | [a] => add_word sum (Z.shiftl a 8)
  | [] => sum
  end.
Definition mip_checksum (data : list Z) : Z := bit_not 16 (wrap 16 (sum_folded 0 data)).

(** ** The reference: the sum of the 16-bit words modulo 2^16 - 1, nonzero for a nonzero sum *)
Fixpoint word_sum (data : list Z) : Z :=
  match data with
  | a :: b :: rest => from_be16 a b + word_sum rest
  | [a] => from_be16 a 0
  | [] => 0
  end.
Definition ones_sum (s : Z) : Z := if s =? 0 then 0 else 1 + (s - 1) mod 65535.
Definition inet_checksum (data : list Z) : Z := 0xFFFF - ones_sum (word_sum data).

Lemma pair_ind (P : list Z → Prop) :
  P [] → (∀ a, P [a]) → (∀ a b l, P l → P (a :: b :: l)) → ∀ l, P l.
Proof.
  intros H0 H1 H2 l. cut (P l ∧ ∀ a, P (a :: l)); [tauto|].
  induction l as [|x l [IH1 IH2]]; split; auto.
Qed.

Lemma bytes_cons2 a b l : bytes (a :: b :: l) → is_u8 a ∧ is_u8 b ∧ bytes l.
Proof. unfold bytes. rewrite !Forall_cons. tauto. Qed.

Lemma word_sum_bounds l : bytes l → 0 ≤ word_sum l ≤ 65535 * Z.of_nat (length l).
Proof.
  induction l as [|a|a b l IH] using pair_ind; intros Hl; [done| |].
  - apply Forall_cons in Hl as [[??] _]. cbn [word_sum length]. unfold from_be16. lia.
  - apply bytes_cons2 in Hl as (Ha & Hb & Hl). specialize (IH Hl).
    assert (H := from_be16_u16 a b Ha Hb). cbn [word_sum length]. unfold is_u in H. lia.
Qed.

Lemma word_sum_app l k : (length l mod 2 = 0)%nat → word_sum (l ++ k) = word_sum l + word_sum k.
Proof.
  induction l as [|a|a b l IH] using pair_ind; intros Hl; [cbn [app word_sum]; lia|done|]. cbn [app word_sum].
  rewrite IH; [lia|]. cbn [length] in Hl.
  replace (S (S (length l))) with (length l + 1 * 2)%nat in Hl by lia. by rewrite Nat.Div0.mod_add in Hl.
Qed.

Lemma shiftr_16 z : Z.shiftr z 16 = z / 65536.
Proof. apply (Z.shiftr_div_pow2 z 16). lia. Qed.
Lemma land_ffff z : Z.land z 0xffff = z mod 65536.
Proof. apply (Z.land_ones z 16). lia. Qed.

Lemma fold16_div z : fold16 z = if z / 65536 =? 0 then z else z mod 65536 + z / 65536.
Proof. unfold fold16. by rewrite shiftr_16, land_ffff. Qed.

Lemma ones_sum_small z : 0 ≤ z ≤ 65535 → ones_sum z = z.
Proof. intros. unfold ones_sum. destruct (Z.eqb_spec z 0); [lia|]. rewrite Z.mod_small; lia. Qed.
Lemma ones_sum_bounds z : 0 ≤ z → 0 ≤ ones_sum z ≤ 65535 ∧ (z ≠ 0 → ones_sum z ≠ 0).
Proof. intros. unfold ones_sum. destruct (Z.eqb_spec z 0); zdiv. Qed.

Lemma ones_sum_fold z : 0 ≤ z → ones_sum (fold16 z) = ones_sum z.
Proof.
  intros Hz. rewrite fold16_div. destruct (Z.eqb_spec (z / 65536) 0); [done|]. unfold ones_sum.
  rewrite !(proj2 (Z.eqb_neq _ 0)) by zdiv. f_equal.
  replace (z - 1) with ((z mod 65536 + z / 65536 - 1) + (z / 65536) * 65535) by zdiv.
  by rewrite Z.mod_add.
Qed.

Lemma ones_sum_add a b : 0 ≤ a → 0 ≤ b → ones_sum (ones_sum a + b) = ones_sum (a + b).
Proof.
  intros Ha Hb. unfold ones_sum at 2. destruct (Z.eqb_spec a 0) as [->|Hn]; [done|]. unfold ones_sum.
  assert (0 ≤ (a - 1) mod 65535) by (apply Z.mod_pos_bound; lia).
  rewrite !(proj2 (Z.eqb_neq _ 0)) by lia. f_equal.
  replace (1 + (a - 1) mod 65535 + b - 1) with ((a - 1) mod 65535 + b) by lia.
  rewrite Zplus_mod_idemp_l. f_equal. lia.
Qed.

Lemma bit_not_16 z : is_u16 z → bit_not 16 z = 0xFFFF - z.
Proof.
  intros Hz. unfold bit_not. assert (Z.land z (Z.ones 16) = z) as HL.
  { rewrite Z.land_ones by lia. by apply Z.mod_small. }
  assert (Z.lxor z (Z.ones 16) = Z.lnot z + 2 ^ 16) as ->; [|unfold Z.lnot; lia].
  apply Z.bits_inj'. intros n Hn. destruct (decide (n < 16)).
  - rewrite Z.lxor_spec, Z.ones_spec_low, xorb_true_r by lia.
    rewrite <- (Z.mod_pow2_bits_low (Z.lnot z + 2 ^ 16) 16) by lia.
    replace (Z.lnot z + 2 ^ 16) with (Z.lnot z + 1 * 2 ^ 16) by lia.
    rewrite Z.mod_add by lia. rewrite Z.mod_pow2_bits_low by lia. by rewrite Z.lnot_spec.
  - rewrite Z.lxor_spec, Z.ones_spec_high, xorb_false_r by lia. rewrite (is_u_lt_pow 16) by (done || lia).
    symmetry. apply (is_u_lt_pow 16); [lia| |lia]. unfold is_u, Z.lnot in *. lia.
Qed.

(** ** The routines compute it *)
Lemma sum16_word_sum l s : bytes l → 0 ≤ s → s + word_sum l < 2 ^ 32 → sum16 s l = s + word_sum l.
Proof.
  revert s. induction l as [|a|a b l IH] using pair_ind; intros s Hl Hs Hb; cbn [sum16 word_sum] in *; [lia| |].
  - apply Forall_cons in Hl as [[??] _]. apply wrap_small. unfold from_be16, is_u in *. lia.
  - apply bytes_cons2 in Hl as (Ha & Hb' & Hl). assert (H := from_be16_u16 a b Ha Hb').
    assert (H' := word_sum_bounds l Hl). unfold is_u in H.
    assert (wrapping_add 32 s (from_be16 a b) = s + from_be16 a b) as -> by (apply wrap_small; unfold is_u; lia).
    rewrite IH; [lia|done|lia|lia].
Qed.

Lemma short_sum l : bytes l → Z.of_nat (length l) ≤ 65536 → 0 ≤ word_sum l < 2 ^ 32.
Proof. intros H ?. assert (H' := word_sum_bounds l H). lia. Qed.

Lemma tcp_ip_checksum_inet l :
  bytes l → Z.of_nat (length l) ≤ 65536 → tcp_ip_checksum l = inet_checksum l.
Proof.
  intros Hl Hs. assert (HB := short_sum l Hl Hs). unfold tcp_ip_checksum, inet_checksum.
  rewrite sum16_word_sum by (done || lia). rewrite Z.add_0_l.
  assert (HF := fold16_fixed (word_sum l) HB).
  rewrite wrap_small, bit_not_16 by done. f_equal.
  rewrite <- (ones_sum_small (fold16 _)) by (unfold is_u in HF; lia).
  assert (0 ≤ fold16 (word_sum l)) by (rewrite fold16_div; destruct (_ =? _); zdiv).
  by rewrite !ones_sum_fold by lia.
Qed.

Lemma add_word_spec s w : 0 ≤ s ≤ 65535 → 0 ≤ w ≤ 65535 → add_word s w = ones_sum (s + w).
Proof.
  intros Hs Hw. unfold add_word. assert (wrapping_add 32 s w = s + w) as -> by (apply wrap_small; unfold is_u; lia).
  rewrite <- ones_sum_fold by lia. symmetry. apply ones_sum_small. rewrite fold16_div.
  destruct (Z.eqb_spec ((s + w) / 65536) 0); zdiv.
Qed.

Lemma sum_folded_spec l s : bytes l → 0 ≤ s ≤ 65535 → sum_folded s l = ones_sum (s + word_sum l).
Proof.
  revert s. induction l as [|a|a b l IH] using pair_ind; intros s Hl Hs; cbn [sum_folded word_sum].
  - rewrite Z.add_0_r. symmetry. by apply ones_sum_small.
  - apply Forall_cons in Hl as [Ha _]. unfold is_u in Ha. rewrite Z.shiftl_mul_pow2 by lia.
    rewrite add_word_spec by lia. unfold from_be16. f_equal. lia.
  - apply bytes_cons2 in Hl as (Ha & Hb & Hl). assert (H := from_be16_u16 a b Ha Hb).
    assert (H' := word_sum_bounds l Hl). unfold is_u in H. rewrite add_word_spec by lia.
    rewrite IH by (done || apply ones_sum_bounds; lia). rewrite ones_sum_add by lia. f_equal. lia.
Qed.

Lemma mip_checksum_inet l : bytes l → mip_checksum l = inet_checksum l.
Proof.
  intros Hl. unfold mip_checksum, inet_checksum. rewrite sum_folded_spec by (done || lia). rewrite Z.add_0_l.
  assert (H := ones_sum_bounds (word_sum l) (proj1 (word_sum_bounds l Hl))).
  rewrite wrap_small, bit_not_16 by (unfold is_u; lia). done.
Qed.

(** The three checksum routines of the code compute the same function, the one's complement
    checksum of RFC 1071, on every octet string of at most 65536 octets. *)
Theorem checksums_agree l :
  bytes l → Z.of_nat (length l) ≤ 65536 →
  checksum16 l = inet_checksum l ∧ tcp_ip_checksum l = inet_checksum l ∧ mip_checksum l = inet_checksum l.
Proof.
  intros Hl Hs. repeat split; [|by apply tcp_ip_checksum_inet|by apply mip_checksum_inet].
  exact (tcp_ip_checksum_inet l Hl Hs).
Qed.

Lemma checksums_agree_witness :
  checksum16 [0x45; 0; 0xFF; 0xFF; 7] = 0xB3FF ∧ mip_checksum [0x45; 0; 0xFF; 0xFF; 7] = 0xB3FF.
Proof.
  destruct (checksums_agree [0x45; 0; 0xFF; 0xFF; 7]) as (H1 & _ & H3); [by apply bytesb_bytes|cbn; lia|].
  rewrite H1, H3. split; reflexivity.
Defined.

(** ** A filled-in checksum verifies *)
Lemma inet_checksum_u16 l : bytes l → is_u16 (inet_checksum l).
Proof.
  intros Hl. unfold inet_checksum. assert (H := ones_sum_bounds (word_sum l) (proj1 (word_sum_bounds l Hl))).
  unfold is_u. lia.
Qed.

Lemma inet_checksum_verifies pre post :
  bytes pre → bytes post → (length pre mod 2 = 0)%nat →
  inet_checksum (pre ++ to_be16 (inet_checksum (pre ++ [0; 0] ++ post)) ++ post) = 0.
Proof.
  intros Hpre Hpost He. set (z := pre ++ [0; 0] ++ post).
  assert (bytes z) as Hz by (unfold z; rewrite !bytes_app; repeat split; try done; repeat constructor; lia).
  assert (HC := inet_checksum_u16 z Hz). set (c := inet_checksum z) in *.
  assert (word_sum (pre ++ to_be16 c ++ post) = word_sum z + c) as E.
  { unfold z. rewrite !(word_sum_app pre) by done. cbn [app word_sum to_be16].
    rewrite split_u16 by done. change (from_be16 0 0) with 0. lia. }
  assert (HB := word_sum_bounds z Hz). assert (HO := ones_sum_bounds (word_sum z) (proj1 HB)).
  unfold inet_checksum at 1. rewrite E. unfold is_u in HC.
  rewrite <- ones_sum_add by lia. unfold c, inet_checksum.
  replace (ones_sum (word_sum z) + (0xFFFF - ones_sum (word_sum z))) with 65535 by lia. reflexivity.
Qed.
