(* ===== verification/ModemEndpoint.v ===== *)
(** * The TCP/380 modem-server endpoint ([cdma-packet/src/lib/modem_endpoint.rs])

    A single-connection TCP that carries the modem server.  [parse_ipv4_tcp]
    slices the packet by its own length field; [None] is the panic of a slice
    whose end is before its start. *)
From S2P Require Import Prelude IpcpConfig IpChecksum Text ModemIwf.
Import Text Server.

Module Endpoint.

Definition IP_PROTO_TCP : Z := 6.
Definition MODEM_SERVER_PORT : Z := 380.
Definition TCP_FIN : Z := 0x01.
Definition TCP_SYN : Z := 0x02.
Definition TCP_RST : Z := 0x04.
Definition TCP_PSH : Z := 0x08.
Definition TCP_ACK : Z := 0x10.
Definition CONNECT_RATE_BPS : Z := 14400.
Definition IWF_INITIAL_SEQ : Z := 0x1000.
Definition TCP_MSS : nat := 512.

Inductive TcpState := SynReceived | Established | CloseWait | LastAck | TcpClosed.
#[export] Instance TcpState_eq_dec : EqDecision TcpState.
Proof. solve_decision. Defined.

Record TcpConn := mkConn { remote_port : Z; snd_nxt : Z; rcv_nxt : Z; tcp_state : TcpState }.

Record EndpointOut := mkOut {
  downlink : list (list Z);
  user_data : list Z;
  dialed : option chars;
  hangup : bool;
  matched : bool
}.
Definition EndpointOut_default : EndpointOut := mkOut [] [] None false false.

Record Tcp380Endpoint := mkEndpoint {
  iwf_ip : Ipv4Addr;
  ms_ip : Ipv4Addr;
  conn : option TcpConn;
  server : ModemServer;
  connected : bool
}.

(** [Ipv4Addr::to_string] *)
Definition ip_to_string (a : Ipv4Addr) : chars :=
  decimal (ip0 a) ++ [46] ++ decimal (ip1 a) ++ [46] ++ decimal (ip2 a) ++ [46] ++ decimal (ip3 a).

Definition new (iwf ms : Ipv4Addr) : Tcp380Endpoint :=
  mkEndpoint iwf ms None (server_set_addresses (Some (ip_to_string ms)) (Some (ip_to_string iwf)) new_server) false.

(** ** Packets *)
Record TcpSegment := mkSegment {
  dst_ip : Ipv4Addr;
  src_port : Z;
  dst_port : Z;
  seg_seq : Z;
  seg_flags : Z;
  seg_payload : list Z
}.

(** [u16::from_be_bytes([v[i], v[i + 1]])] and the four-octet forms. *)
Definition read16 (v : list Z) (i : nat) : rust Z := a ← index v i; b ← index v (i + 1); Some (from_be16 a b).
Definition read32 (v : list Z) (i : nat) : rust Z :=
  a ← index v i; b ← index v (i + 1); c ← index v (i + 2); d ← index v (i + 3); Some (from_be32 a b c d).
Definition read_ip (v : list Z) (i : nat) : rust Ipv4Addr :=
  a ← index v i; b ← index v (i + 1); c ← index v (i + 2); d ← index v (i + 3); Some (mkIp a b c d).

(** The TCP header behind the IP header. *)
Definition parse_tcp (dst : Ipv4Addr) (tcp : list Z) : rust (option TcpSegment) :=
  if decide (length tcp < 20)%nat then Some None
  else
    sp ← read16 tcp 0;
    dp ← read16 tcp 2;
    sq ← read32 tcp 4;
    b12 ← index tcp 12;
    let data_off := (Z.to_nat (Z.shiftr b12 4) * 4)%nat in
    if decide (length tcp < data_off)%nat then Some None
    else
      fl ← index tcp 13;
      pl ← slice tcp data_off (length tcp);
      Some (Some (mkSegment dst sp dp sq fl pl)).

Definition parse_ipv4_tcp (ip : list Z) : rust (option TcpSegment) :=
  if decide (length ip < 20)%nat then Some None
  else
    b0 ← index ip 0;
    if negb (Z.shiftr b0 4 =? 4) then Some None
    else
      let ihl := (Z.to_nat (Z.land b0 0x0F) * 4)%nat in
      if decide (length ip < ihl + 20)%nat then Some None
      else
        b9 ← index ip 9;
        if negb (b9 =? IP_PROTO_TCP) then Some None
        else
          total ← read16 ip 2;
          let total_len := Nat.min (Z.to_nat total) (length ip) in
          dst ← read_ip ip 16;
          tcp ← slice ip ihl total_len;
          parse_tcp dst tcp.

Definition tcp_checksum (src dst : Ipv4Addr) (tcp : list Z) : Z :=
  tcp_ip_checksum (octets src ++ octets dst ++ [0; IP_PROTO_TCP] ++ to_be16 ((Z.of_nat (length tcp)) as_u16) ++ tcp).

(** The headers around their checksum field, which is zero while it is computed. *)
Definition ip_header (total_len : nat) (src dst : Ipv4Addr) (csum : Z) : list Z :=
  [0x45; 0] ++ to_be16 ((Z.of_nat total_len) as_u16) ++ [0; 0; 0; 0; 64; IP_PROTO_TCP] ++ to_be16 csum
  ++ octets src ++ octets dst.
Definition tcp_segment (sport dport seq ack flags csum : Z) (payload : list Z) : list Z :=
  to_be16 sport ++ to_be16 dport ++ to_be32 seq ++ to_be32 ack ++ [Z.shiftl 5 4; flags] ++ to_be16 8192
  ++ to_be16 csum ++ [0; 0] ++ payload.

Definition build_ipv4_tcp (src dst : Ipv4Addr) (sport dport seq ack flags : Z) (payload : list Z) : list Z :=
  let tcp_len := (20 + length payload)%nat in
  let total_len := (20 + tcp_len)%nat in
  let ip_csum := tcp_ip_checksum (ip_header total_len src dst 0) in
  let tcp_csum := tcp_checksum src dst (tcp_segment sport dport seq ack flags 0 payload) in
  ip_header total_len src dst ip_csum ++ tcp_segment sport dport seq ack flags tcp_csum payload.

Definition build_segment (e : Tcp380Endpoint) (c : TcpConn) (flags seq : Z) (payload : list Z) : list Z :=
  build_ipv4_tcp (iwf_ip e) (ms_ip e) MODEM_SERVER_PORT (remote_port c) seq (rcv_nxt c) flags payload.

(** ** The connection *)
Definition push (pkt : list Z) (o : EndpointOut) : EndpointOut :=
  mkOut (downlink o ++ [pkt]) (user_data o) (dialed o) (hangup o) (matched o).
Definition with_snd_nxt (x : Z) (c : TcpConn) : TcpConn := mkConn (remote_port c) x (rcv_nxt c) (tcp_state c).
Definition with_rcv_nxt (x : Z) (c : TcpConn) : TcpConn := mkConn (remote_port c) (snd_nxt c) x (tcp_state c).
Definition with_state (x : TcpState) (c : TcpConn) : TcpConn := mkConn (remote_port c) (snd_nxt c) (rcv_nxt c) x.
Definition with_conn (c : option TcpConn) (e : Tcp380Endpoint) : Tcp380Endpoint :=
  mkEndpoint (iwf_ip e) (ms_ip e) c (server e) (connected e).
Definition with_server (s : ModemServer) (e : Tcp380Endpoint) : Tcp380Endpoint :=
  mkEndpoint (iwf_ip e) (ms_ip e) (conn e) s (connected e).
Definition with_connected (b : bool) (e : Tcp380Endpoint) : Tcp380Endpoint :=
  mkEndpoint (iwf_ip e) (ms_ip e) (conn e) (server e) b.

Definition apply_event (e : Tcp380Endpoint) (st : TcpConn * EndpointOut) (ev : ServerEvent) : TcpConn * EndpointOut :=
  let '(c, out) := st in
  match ev with
  | ToMobile bytes =>
      (with_snd_nxt (wrapping_add 32 (snd_nxt c) ((Z.of_nat (length bytes)) as_u32)) c,
       push (build_segment e c (Z.lor TCP_PSH TCP_ACK) (snd_nxt c) bytes) out)
  | SvDial digits _ => (c, mkOut (downlink out) (user_data out) (Some digits) (hangup out) (matched out))
  | SvAnswer => (c, out)
  | UserData d => (c, mkOut (downlink out) (user_data out ++ d) (dialed out) (hangup out) (matched out))
  | SvHangup => (c, mkOut (downlink out) (user_data out) (dialed out) true (matched out))
  end.
Definition apply_events (e : Tcp380Endpoint) (events : list ServerEvent) (c : TcpConn) (out : EndpointOut)
    : TcpConn * EndpointOut := foldl (apply_event e) (c, out) events.

Definition drive_modem (payload : list Z) (c : TcpConn) (out : EndpointOut) (e : Tcp380Endpoint)
    : Tcp380Endpoint * TcpConn * EndpointOut :=
  let '(srv, events) := server_feed payload (server e) in
  let e := with_server srv e in
  let '(c, out) := apply_events e events c out in (e, c, out).

Definition has (flags mask : Z) : bool := negb (Z.land flags mask =? 0).

(** The handling of a segment of the connection [c], which has been taken out of the endpoint. *)
Definition on_segment (seg : TcpSegment) (c : TcpConn) (out : EndpointOut) (e : Tcp380Endpoint)
    : Tcp380Endpoint * EndpointOut :=
  let '(e, c) :=
    if bool_decide (tcp_state c = SynReceived) && has (seg_flags seg) TCP_ACK
    then (with_server (server_on_tcp_established (server e)) e, with_state Established c) else (e, c) in
  let '(e, c, out) :=
    if bool_decide (seg_payload seg ≠ []) && (seg_seq seg =? rcv_nxt c) then
      let c := with_rcv_nxt (wrapping_add 32 (rcv_nxt c) ((Z.of_nat (length (seg_payload seg))) as_u32)) c in
      let '(e, c, out) := drive_modem (seg_payload seg) c out e in
      (e, c, push (build_segment e c TCP_ACK (snd_nxt c) []) out)
    else (e, c, out) in
  let '(e, c, out) :=
    if has (seg_flags seg) TCP_FIN && bool_decide (tcp_state c = Established) then
      let c := with_state CloseWait (with_rcv_nxt (wrapping_add 32 (rcv_nxt c) 1) c) in
      let out := push (build_segment e c TCP_ACK (snd_nxt c) []) out in
      let out := push (build_segment e c (Z.lor TCP_FIN TCP_ACK) (snd_nxt c) []) out in
      let c := with_state LastAck (with_snd_nxt (wrapping_add 32 (snd_nxt c) 1) c) in
      (with_connected false e, c, mkOut (downlink out) (user_data out) (dialed out) true (matched out))
    else if bool_decide (tcp_state c = LastAck) && has (seg_flags seg) TCP_ACK
    then (e, with_state TcpClosed c, out)
    else (e, c, out) in
  (if decide (tcp_state c ≠ TcpClosed) then with_conn (Some c) e else e, out).

Definition on_uplink_ip (ip : list Z) (e : Tcp380Endpoint) : rust (Tcp380Endpoint * EndpointOut) :=
  let out := EndpointOut_default in
  parsed ← parse_ipv4_tcp ip;
  match parsed with
  | None => Some (e, out)
  | Some seg =>
      if bool_decide (dst_ip seg ≠ iwf_ip e) || negb (dst_port seg =? MODEM_SERVER_PORT) then Some (e, out)
      else
        let out := mkOut [] [] None false true in
        if has (seg_flags seg) TCP_RST then
          Some (with_server (server_on_tcp_established (server e)) (with_connected false (with_conn None e)), out)
        else
          match conn e with
          | None =>
              if has (seg_flags seg) TCP_SYN then
                let c := mkConn (src_port seg) IWF_INITIAL_SEQ (wrapping_add 32 (seg_seq seg) 1) SynReceived in
                let out := push (build_segment e c (Z.lor TCP_SYN TCP_ACK) (snd_nxt c) []) out in
                Some (with_conn (Some (with_snd_nxt (wrapping_add 32 (snd_nxt c) 1) c)) e, out)
              else Some (e, out)
          | Some c =>
              if negb (src_port seg =? remote_port c) then Some (e, out)
              else Some (on_segment seg c out (with_conn None e))
          end
  end.

Definition carrier_up (e : Tcp380Endpoint) : Tcp380Endpoint * EndpointOut :=
  let '(srv, events) := server_on_carrier_up CONNECT_RATE_BPS (server e) in
  let e := with_server srv (with_connected true e) in
  match conn e with
  | Some c =>
      let '(c, out) := apply_events e events c EndpointOut_default in (with_conn (Some c) e, out)
  | None => (e, EndpointOut_default)
  end.

(** The segments of [send_online], with the connection after them. *)
Fixpoint send_chunks (e : Tcp380Endpoint) (c : TcpConn) (cs : list (list Z)) : TcpConn * list (list Z) :=
  match cs with
  | [] => (c, [])
  | chunk :: cs =>
      let pkt := build_segment e c (Z.lor TCP_PSH TCP_ACK) (snd_nxt c) chunk in
      let c := with_snd_nxt (wrapping_add 32 (snd_nxt c) ((Z.of_nat (length chunk)) as_u32)) c in
      let '(c, pkts) := send_chunks e c cs in (c, pkt :: pkts)
  end.
Definition send_online (bytes : list Z) (e : Tcp380Endpoint) : Tcp380Endpoint * list (list Z) :=
  if decide (bytes = []) then (e, [])
  else
    match conn e with
    | Some c =>
        if decide (tcp_state c = Established) then
          let '(c, out) := send_chunks e c (chunks TCP_MSS bytes) in (with_conn (Some c) e, out)
        else (e, [])
    | None => (e, [])
    end.

End Endpoint.
