(* ===== verification/ModemProofs.v ===== *)
(** * The async modem service: the command interpreter, the transparency of the
    data path, and the TCP endpoint *)
From S2P Require Import Prelude IpcpConfig IpChecksum Text Tia617 AtCommand ModemIwf ModemEndpoint.
Import Text At Modem Server Endpoint.

(** ** Command lines *)
Definition is_result (ev : ModemEvent) : bool :=
  match ev with EvReply (RepResult _) => true | _ => false end.
Definition results (evs : list ModemEvent) : list ModemEvent := filter (λ ev, is_result ev = true) evs.
Definition takes_line (c : AtCommand) : bool :=
  match c with Dial _ _ | Answer | ReturnOnline => true | _ => false end.

Lemma results_app l k : results (l ++ k) = results l ++ results k.
Proof. apply filter_app. Qed.

Lemma process_extended_results name value query s :
  results (process_extended name value query s).1.2 = [].
Proof. unfold process_extended. destruct (Modem.ms_ip s), (Modem.iwf_ip s); repeat (case_match; try done). Qed.

(** The interpretation of the commands of a line emits no final result by itself, and withholds the
    final result only for a command that takes the line. *)
Lemma process_commands_results cmds s evs ok sup :
  let r := foldl process_command (s, evs, ok, sup) cmds in
  results r.1.1.2 = results evs ∧ (r.2 = true → sup = true ∨ existsb takes_line cmds = true).
Proof.
  revert s evs ok sup. induction cmds as [|c cmds IH]; intros s evs ok sup; [cbn; auto|].
  cbn [foldl existsb].
  assert (∃ s' evs' ok' sup', process_command (s, evs, ok, sup) c = (s', evs', ok', sup') ∧
            results evs' = results evs ∧ (sup' = true → sup = true ∨ takes_line c = true)) as (s' & evs' & ok' & sup' & -> & HR & HS).
  { assert (HE := process_extended_results).
    destruct c as [| | | | | | | | | | |name value query|]; cbn [process_command]; try (eexists _, _, _, _; split; [done|]; auto);
      try (rewrite results_app; split; [apply app_nil_r|auto]).
    - split; [|auto]. case_bool_decide; [|done]. rewrite results_app. apply app_nil_r.
    - case_decide; (eexists _, _, _, _; split; [done|]; auto).
    - specialize (HE name value query s). destruct (process_extended name value query s) as [[s' e'] a].
      eexists _, _, _, _; split; [done|]. rewrite results_app. cbn [fst snd] in HE. rewrite HE. split; [apply app_nil_r|auto]. }
  destruct (IH s' evs' ok' sup') as [-> H2]. split; [done|]. intros Hr.
  destruct (H2 Hr) as [Hs| ->]; [|rewrite orb_true_r; auto].
  destruct (HS Hs) as [-> | ->]; auto.
Qed.

(** A command line is answered by at most one result code, and by exactly one unless it is blank or
    holds a command that takes the line (dial, answer, return online). *)
Theorem modem_one_result line s :
  (length (results (process_line line s).2) ≤ 1)%nat ∧
  (trim line ≠ [] → from_option (existsb takes_line) false (parse_line line) = false →
   length (results (process_line line s).2) = 1%nat).
Proof.
  unfold process_line. destruct (parse_line line) as [cmds|]; cbn [from_option].
  - destruct (process_commands_results cmds s [] true false) as [HR HS].
    destruct (foldl _ _ cmds) as [[[s' evs] ok] sup]. cbn [fst snd] in *.
    destruct sup.
    + rewrite HR. split; [cbn; lia|]. intros _ E. destruct (HS eq_refl) as [|E']; [done|]. by rewrite E in E'.
    + rewrite results_app, HR. split; [done|]. done.
  - case_decide; cbn; split; try lia; done.
Qed.

(** ** Online data *)
Definition user_octets (evs : list ServerEvent) : list Z :=
  mjoin ((λ ev, match ev with UserData d => d | _ => [] end) <$> evs).
Definition modem_octets (evs : list ModemEvent) : list Z :=
  mjoin ((λ ev, match ev with EvUserData d => d | _ => [] end) <$> evs).

Lemma modem_octets_app l k : modem_octets (l ++ k) = modem_octets l ++ modem_octets k.
Proof. unfold modem_octets. by rewrite fmap_app, join_app. Qed.

Lemma user_octets_translate m evs : user_octets (translate evs m) = modem_octets evs.
Proof.
  unfold user_octets, translate, modem_octets. induction evs as [|ev evs IH]; [done|].
  rewrite !fmap_cons, !mjoin_cons, fmap_app, join_app, IH. f_equal.
  destruct ev; cbn; rewrite ?app_nil_r; try done. by destruct (render_reply m r).
Qed.

Lemma process_extended_no_data name value query s :
  modem_octets (process_extended name value query s).1.2 = [].
Proof. unfold process_extended. destruct (Modem.ms_ip s), (Modem.iwf_ip s); repeat (case_match; try done). Qed.

Lemma process_line_no_data line s : modem_octets (process_line line s).2 = [].
Proof.
  unfold process_line. destruct (parse_line line) as [cmds|]; [|by case_decide].
  assert (∀ st, modem_octets st.1.1.2 = [] → modem_octets (foldl process_command st cmds).1.1.2 = []) as H.
  { induction cmds as [|c cmds IH]; intros [[[s' evs] ok] sup] Hst; [done|]. cbn [foldl]. apply IH. cbn [fst snd] in Hst.
    destruct c; cbn [process_command fst snd]; try done; try (by rewrite modem_octets_app, Hst).
    - case_bool_decide; cbn [fst snd]; [by rewrite modem_octets_app, Hst|done].
    - by case_decide.
    - assert (HE := process_extended_no_data name value query s').
      destruct (process_extended name value query s') as [[s2 e2] a2]. cbn [fst snd] in *.
      by rewrite modem_octets_app, Hst. }
  specialize (H (s, [], true, false) eq_refl).
  destruct (foldl _ _ cmds) as [[[s' evs] ok] sup]. cbn [fst snd] in *.
  destruct sup; [done|]. by rewrite modem_octets_app, H.
Qed.

Lemma modem_feed_data data s :
  modem_octets (Modem.feed data s).2 = if decide (state s = Online) then data else [].
Proof.
  unfold Modem.feed. case_decide; [cbn; by rewrite app_nil_r|].
  assert (∀ st, modem_octets st.2 = [] → modem_octets (foldl Modem.feed_octet st data).2 = []) as HF; [|by apply HF].
  clear. induction data as [|b data IH]; intros [s evs] Hst; [done|]. cbn [foldl]. apply IH.
  cbn [Modem.feed_octet]. unfold Modem.feed_octet. cbn [snd] in Hst. destruct (b =? 13).
  - assert (HP := process_line_no_data (from_utf8_lossy (line_buf s)) (set_line_buf [] s)).
    destruct (process_line _ _) as [s' e']. cbn [snd] in *. by rewrite modem_octets_app, Hst, HP.
  - by destruct (negb (b =? 10)).
Qed.

Definition raw_octets (ts : list Tia617.token) : nat :=
  length (filter (λ t, (match t with Tia617.Octet _ => true | _ => false end) = true) ts).

Lemma raw_octets_app l k : (raw_octets (l ++ k) = raw_octets l + raw_octets k)%nat.
Proof. unfold raw_octets. by rewrite filter_app, length_app. Qed.
Lemma raw_octets_length l : (raw_octets l ≤ length l)%nat.
Proof. apply length_filter. Qed.
Lemma raw_octets_octets l : raw_octets (Tia617.Octet <$> l) = length l.
Proof.
  induction l as [|x l IH]; [done|]. rewrite fmap_cons. unfold raw_octets in *. rewrite filter_cons, decide_True by done.
  cbn [length]. by rewrite IH.
Qed.

Lemma feed_items_count items m evs :
  (length (modem_octets (foldl feed_item (m, evs) items).2) ≤ length (modem_octets evs) + raw_octets (Tia617.tokens items))%nat.
Proof.
  revert m evs. induction items as [|it items IH]; intros m evs; cbn [foldl]; [cbn [snd]; lia|].
  change (Tia617.tokens (it :: items)) with (Tia617.tokens_of it ++ Tia617.tokens items). rewrite raw_octets_app.
  destruct it as [data|e t str]; cbn [feed_item Tia617.tokens_of].
  - assert (HD := modem_feed_data data m). destruct (Modem.feed data m) as [m' e']. cbn [snd] in HD.
    specialize (IH m' (evs ++ e')). rewrite modem_octets_app, length_app in IH. rewrite raw_octets_octets.
    assert (length (modem_octets e') ≤ length data)%nat by (rewrite HD; case_decide; cbn; lia). lia.
  - destruct (_ && _ && _).
    + destruct (enter_online_command m) as [m' e'] eqn:E. specialize (IH m' (evs ++ e')).
      rewrite modem_octets_app, length_app in IH.
      assert (modem_octets e' = []) as H by (unfold enter_online_command in E; case_decide; by simplify_eq).
      rewrite H in IH. cbn [length] in IH. lia.
    + specialize (IH m evs). lia.
Qed.

(** While the modem is online, the octets the mobile sends reach the data path unchanged exactly when
    none of them is 0x19: the escape octet cannot be sent as data. *)
Theorem online_transparent_iff data m :
  state m = Online →
  user_octets (server_feed data (mkServer m Tia617.new_decoder)).2 = data ↔ Tia617.ESCAPE ∉ data.
Proof.
  intros Hm. unfold server_feed. cbn [decoder modem].
  destruct (Tia617.feed_steps data Tia617.new_decoder) as [_ HT].
  destruct (Tia617.feed data Tia617.new_decoder) as [d items] eqn:EF. cbn [snd] in HT. split.
  - intros E Hin. assert (HC := feed_items_count items m []).
    destruct (foldl feed_item (m, []) items) as [m' evs]. cbn [snd] in *. rewrite user_octets_translate in E.
    rewrite E, HT in HC. apply list_elem_of_split_l in Hin as (pre & post & -> & Hpre).
    rewrite Tia617.steps_app, (Tia617.steps_raw _ pre) in HC by done.
    cbn [Tia617.steps] in HC. unfold Tia617.step in HC. cbn [Tia617.in_construct Tia617.new_decoder] in HC.
    change (Tia617.ESCAPE =? Tia617.ESCAPE) with true in HC. cbn match in HC.
    assert (HL := Tia617.steps_length (Tia617.mkDecoder [] true) post).
    destruct (Tia617.steps _ post) as [d2 u]. cbn [snd app] in *.
    assert (HU := raw_octets_length u).
    rewrite raw_octets_app, raw_octets_octets, length_app in HC. cbn in HC. lia.
  - intros Hn. rewrite Tia617.feed_raw in EF by done. simplify_eq.
    case_decide as Hd; [by subst|]. cbn [foldl feed_item]. unfold Modem.feed. rewrite decide_True by done.
    cbn [app snd]. rewrite user_octets_translate. apply app_nil_r.
Qed.

Definition online_modem : ModemIwf := set_state Online Modem.new.
(** An octet of a PPP frame that needs no escape under the ACCM the network side asks for (zero). *)
Lemma online_transparent_iff_witness :
  state online_modem = Online ∧
  user_octets (server_feed [0x7E; 0x21; 0x19; 0x45; 0x20; 0x00; 0x7E] (mkServer online_modem Tia617.new_decoder)).2
    ≠ [0x7E; 0x21; 0x19; 0x45; 0x20; 0x00; 0x7E].
Proof.
  split; [reflexivity|]. rewrite online_transparent_iff by reflexivity. intros H. apply H.
  vm_compute. do 2 right. left.
Defined.
