(* ===== verification/EndpointProofs.v ===== *)
(** * The TCP/380 endpoint: its packets, its octet streams, and where it fails *)
From S2P Require Import Prelude IpcpConfig IpChecksum Text Tia617 ModemIwf ModemEndpoint.
Import Text Modem Server Endpoint.

(** ** Building and parsing *)
Record sendable_segment (src dst : Ipv4Addr) (sport dport seq ack flags : Z) (payload : list Z) : Prop := {
  ss_src : wf_ip src;
  ss_dst : wf_ip dst;
  ss_sport : is_u16 sport;
  ss_dport : is_u16 dport;
  ss_seq : is_u32 seq;
  ss_ack : is_u32 ack;
  ss_flags : is_u8 flags;
  ss_payload : bytes payload;
  ss_len : Z.of_nat (length payload) ≤ 65495
}.

Lemma bytes_ip_header n src dst c :
  wf_ip src → wf_ip dst → is_u16 c → bytes (ip_header n src dst c).
Proof.
  intros Hs Hd Hc. unfold ip_header. rewrite !bytes_app. repeat split; try done; try (by apply bytesb_bytes);
    apply bytes_to_be16; [apply is_u_wrap; lia|done].
Qed.

Lemma bytes_tcp_segment sp dp sq ak fl c pl :
  is_u16 sp → is_u16 dp → is_u32 sq → is_u32 ak → is_u8 fl → is_u16 c → bytes pl →
  bytes (tcp_segment sp dp sq ak fl c pl).
Proof.
  intros. unfold tcp_segment. rewrite !bytes_app.
  repeat split; try done; try (by apply bytes_to_be16); try (by apply bytes_to_be32); try (by apply bytesb_bytes).
  change (Z.shiftl 5 4) with 80. constructor; [unfold is_u; lia|]. by constructor.
Qed.

Lemma length_tcp_segment sp dp sq ak fl c pl : length (tcp_segment sp dp sq ak fl c pl) = (20 + length pl)%nat.
Proof. reflexivity. Qed.
Lemma length_ip_header n src dst c : length (ip_header n src dst c) = 20%nat.
Proof. reflexivity. Qed.


Lemma read16_app (l k : list Z) i : (i + 1 < length l)%nat → read16 (l ++ k) i = read16 l i.
Proof. intros. unfold read16. by rewrite !index_app_l by lia. Qed.
Lemma read_ip_app (l k : list Z) i : (i + 3 < length l)%nat → read_ip (l ++ k) i = read_ip l i.
Proof. intros. unfold read_ip. by rewrite !index_app_l by lia. Qed.

Lemma parse_tcp_segment dst sp dp sq ak fl c pl :
  is_u16 sp → is_u16 dp → is_u32 sq →
  parse_tcp dst (tcp_segment sp dp sq ak fl c pl) = Some (Some (mkSegment dst sp dp sq fl pl)).
Proof.
  intros Hsp Hdp Hsq. unfold parse_tcp. rewrite length_tcp_segment, decide_False by lia.
  assert (read16 (tcp_segment sp dp sq ak fl c pl) 0 = Some sp) as -> by (cbn; by rewrite split_u16).
  assert (read16 (tcp_segment sp dp sq ak fl c pl) 2 = Some dp) as -> by (cbn; by rewrite split_u16).
  assert (read32 (tcp_segment sp dp sq ak fl c pl) 4 = Some sq) as -> by (cbn; by rewrite (from_be32_to_be32 sq)).
  change (index (tcp_segment sp dp sq ak fl c pl) 12) with (Some 80).
  change (index (tcp_segment sp dp sq ak fl c pl) 13) with (Some fl). rewrite !bind_some.
  change (Z.to_nat (Z.shiftr 80 4) * 4)%nat with 20%nat. rewrite decide_False by lia.
  rewrite slice_Some by (rewrite ?length_tcp_segment; lia). rewrite bind_some.
  change (drop 20 (tcp_segment sp dp sq ak fl c pl)) with pl. by rewrite take_ge by lia.
Qed.

Lemma parse_build src dst sp dp sq ak fl pl :
  sendable_segment src dst sp dp sq ak fl pl →
  parse_ipv4_tcp (build_ipv4_tcp src dst sp dp sq ak fl pl) = Some (Some (mkSegment dst sp dp sq fl pl)).
Proof.
  intros []. unfold build_ipv4_tcp. set (ipc := tcp_ip_checksum _). set (tc := tcp_checksum _ _ _).
  set (n := (20 + (20 + length pl))%nat). assert (HI := length_ip_header n src dst ipc).
  unfold parse_ipv4_tcp. rewrite length_app, HI, length_tcp_segment, decide_False by lia.
  rewrite !index_app_l, read16_app, read_ip_app by (rewrite HI; lia).
  change (index (ip_header n src dst ipc) 0) with (Some 0x45).
  change (index (ip_header n src dst ipc) 9) with (Some IP_PROTO_TCP). rewrite !bind_some.
  change (negb (Z.shiftr 69 4 =? 4)) with false. change (Z.to_nat (Z.land 69 15) * 4)%nat with 20%nat.
  change (negb (IP_PROTO_TCP =? IP_PROTO_TCP)) with false. cbn match. rewrite decide_False by lia.
  assert (read16 (ip_header n src dst ipc) 2 = Some (Z.of_nat n)) as ->.
  { assert (wrap 16 (Z.of_nat n) = Z.of_nat n) as E by (apply wrap_small; unfold is_u, n; lia).
    unfold ip_header. rewrite E. cbn [read16 index lookup list_lookup to_be16 app mbind option_bind plus].
    rewrite split_u16 by (unfold is_u, n; lia). done. }
  assert (read_ip (ip_header n src dst ipc) 16 = Some dst) as -> by (by destruct dst).
  rewrite !bind_some. replace (Nat.min _ _) with n by (unfold n; lia).
  rewrite <- (app_nil_r (tcp_segment _ _ _ _ _ _ _)) at 1.
  rewrite slice_app by (rewrite ?HI, ?length_tcp_segment; unfold n; lia). rewrite bind_some.
  by apply parse_tcp_segment.
Qed.

Lemma ip_header_verifies n src dst :
  wf_ip src → wf_ip dst → tcp_ip_checksum (ip_header n src dst (tcp_ip_checksum (ip_header n src dst 0))) = 0.
Proof.
  intros Hs Hd. assert (bytes (ip_header n src dst 0)) as H0 by (apply bytes_ip_header; unfold is_u; done || lia).
  rewrite (tcp_ip_checksum_inet (ip_header n src dst 0)) by (done || rewrite length_ip_header; lia).
  assert (HC := inet_checksum_u16 _ H0). rewrite tcp_ip_checksum_inet by
    (rewrite ?length_ip_header; try lia; by apply bytes_ip_header).
  unfold ip_header. rewrite !(assoc_L (++)).
  set (pre := (([69; 0] ++ to_be16 _) ++ _)). rewrite <- !(assoc_L (++)).
  apply (inet_checksum_verifies pre (octets src ++ octets dst)); [|by apply bytes_app|done].
  unfold pre. rewrite !bytes_app. repeat split; try (by apply bytesb_bytes). apply bytes_to_be16, is_u_wrap. lia.
Qed.

Lemma tcp_segment_verifies src dst sp dp sq ak fl pl :
  sendable_segment src dst sp dp sq ak fl pl →
  tcp_checksum src dst (tcp_segment sp dp sq ak fl (tcp_checksum src dst (tcp_segment sp dp sq ak fl 0 pl)) pl) = 0.
Proof.
  intros []. unfold tcp_checksum. rewrite !length_tcp_segment. set (n := wrap 16 _).
  set (pre := octets src ++ octets dst ++ [0; IP_PROTO_TCP] ++ to_be16 n ++ to_be16 sp ++ to_be16 dp ++ to_be32 sq
              ++ to_be32 ak ++ [Z.shiftl 5 4; fl] ++ to_be16 8192).
  assert (∀ c, octets src ++ octets dst ++ [0; IP_PROTO_TCP] ++ to_be16 n ++ tcp_segment sp dp sq ak fl c pl
            = pre ++ to_be16 c ++ ([0; 0] ++ pl)) as E by reflexivity. rewrite !E.
  assert (bytes pre) as Hpre.
  { unfold pre. rewrite !bytes_app. repeat split; try done; try (by apply bytes_to_be16); try (by apply bytes_to_be32);
      try (by apply bytesb_bytes).
    - apply bytes_to_be16, is_u_wrap. lia.
    - change (Z.shiftl 5 4) with 80. constructor; [unfold is_u; lia|]. by constructor. }
  assert (bytes ([0; 0] ++ pl)) as Hpost by (rewrite bytes_app; split; [by apply bytesb_bytes|done]).
  assert (∀ c, is_u16 c → tcp_ip_checksum (pre ++ to_be16 c ++ [0; 0] ++ pl)
            = inet_checksum (pre ++ to_be16 c ++ [0; 0] ++ pl)) as HI.
  { intros c Hc. apply tcp_ip_checksum_inet.
    - rewrite !bytes_app. repeat split; [done|by apply bytes_to_be16|by apply bytesb_bytes|done].
    - rewrite !length_app. change (length pre) with 28%nat. cbn [length to_be16]. lia. }
  rewrite (HI 0) by (unfold is_u; lia). change (to_be16 0) with [0; 0].
  rewrite HI; [by apply inet_checksum_verifies|]. apply inet_checksum_u16.
  rewrite !bytes_app. repeat split; try (by apply bytesb_bytes); done.
Qed.

(** A segment the endpoint builds is parsed back to its fields, and its IP header and TCP checksums verify. *)
Theorem endpoint_segment_roundtrip src dst sp dp sq ak fl pl :
  sendable_segment src dst sp dp sq ak fl pl →
  parse_ipv4_tcp (build_ipv4_tcp src dst sp dp sq ak fl pl) = Some (Some (mkSegment dst sp dp sq fl pl)) ∧
  tcp_ip_checksum (take 20 (build_ipv4_tcp src dst sp dp sq ak fl pl)) = 0 ∧
  tcp_checksum src dst (drop 20 (build_ipv4_tcp src dst sp dp sq ak fl pl)) = 0.
Proof.
  intros H. split; [by apply parse_build|]. assert (H' := H). destruct H'. unfold build_ipv4_tcp.
  split; [rewrite take_app_length'|rewrite drop_app_length']; try done; [by apply ip_header_verifies|by apply tcp_segment_verifies].
Qed.

Definition ip_a : Ipv4Addr := mkIp 10 55 0 1.
Definition ip_b : Ipv4Addr := mkIp 10 55 0 2.
Lemma sample_sendable : sendable_segment ip_a ip_b 380 1024 0x1001 7 0x18 [65; 84; 13].
Proof. split; try (unfold is_u; lia); try (by apply bytesb_bytes). cbn. lia. Qed.
Lemma endpoint_segment_roundtrip_witness :
  parse_ipv4_tcp (build_ipv4_tcp ip_a ip_b 380 1024 0x1001 7 0x18 [65; 84; 13])
    = Some (Some (mkSegment ip_b 380 1024 0x1001 0x18 [65; 84; 13])) ∧
  tcp_ip_checksum (take 20 (build_ipv4_tcp ip_a ip_b 380 1024 0x1001 7 0x18 [65; 84; 13])) = 0 ∧
  tcp_checksum ip_a ip_b (drop 20 (build_ipv4_tcp ip_a ip_b 380 1024 0x1001 7 0x18 [65; 84; 13])) = 0.
Proof. apply endpoint_segment_roundtrip. exact sample_sendable. Defined.

(** ** A short length field *)
Definition field16 (ip : list Z) (i : nat) : Z := default 0 (read16 ip i).

Lemma index_lt {A} (l : list A) i : (i < length l)%nat → ∃ x, index l i = Some x.
Proof. exact (lookup_lt_is_Some_2 l i). Qed.

Lemma read16_lt l i : (i + 1 < length l)%nat → read16 l i = Some (field16 l i).
Proof.
  intros H. unfold field16, read16. destruct (index_lt l i) as [x ->]; [lia|].
  destruct (index_lt l (i + 1)) as [y ->]; [lia|]. done.
Qed.

Lemma parse_tcp_total dst tcp : is_Some (parse_tcp dst tcp).
Proof.
  unfold parse_tcp. case_decide as HL; [eauto|]. rewrite !read16_lt by lia. unfold read32.
  destruct (index_lt tcp 4) as [? ->]; [lia|]. destruct (index_lt tcp (4 + 1)) as [? ->]; [lia|].
  destruct (index_lt tcp (4 + 2)) as [? ->]; [lia|]. destruct (index_lt tcp (4 + 3)) as [? ->]; [lia|].
  destruct (index_lt tcp 12) as [b ->]; [lia|]. destruct (index_lt tcp 13) as [? ->]; [lia|]. rewrite !bind_some.
  case_decide; [eauto|]. rewrite slice_Some by lia. rewrite bind_some. eauto.
Qed.

(** What the code checks of a packet before it slices it. *)
Definition header_octets (ip : list Z) : nat := (Z.to_nat (Z.land (default 0%Z (head ip)) 0x0F) * 4)%nat.
Definition passes_checks (ip : list Z) : bool :=
  bool_decide (20 ≤ length ip)%nat && (Z.shiftr (default 0 (head ip)) 4 =? 4)
  && bool_decide (header_octets ip + 20 ≤ length ip)%nat && bool_decide (ip !! 9%nat = Some IP_PROTO_TCP).

Lemma parse_panics_iff ip :
  parse_ipv4_tcp ip = None ↔ passes_checks ip = true ∧ (Z.to_nat (field16 ip 2) < header_octets ip)%nat.
Proof.
  unfold parse_ipv4_tcp. destruct ip as [|b0 ip']; [cbn [andb]; split; [done|intros [? _]; done]|].
  set (ip := b0 :: ip'). unfold passes_checks, header_octets.
  change (index ip 0) with (Some b0). rewrite bind_some. change (head ip) with (Some b0).
  change (default 0 (Some b0)) with b0.
  case_decide as H1; [rewrite bool_decide_eq_false_2 by lia; cbn [andb]; split; [done|intros [? _]; done]|].
  rewrite bool_decide_eq_true_2 by lia. cbn [andb].
  destruct (Z.shiftr b0 4 =? 4); cbn [negb andb]; [|split; [done|intros [? _]; done]].
  case_decide as H2; [rewrite bool_decide_eq_false_2 by lia; cbn [andb]; split; [done|intros [? _]; done]|].
  rewrite bool_decide_eq_true_2 by lia. cbn [andb].
  destruct (index_lt ip 9) as [b9 E9]; [lia|]. rewrite E9, bind_some. unfold index in E9. rewrite E9.
  destruct (Z.eqb_spec b9 IP_PROTO_TCP) as [->|N]; cbn [negb];
    [|rewrite bool_decide_eq_false_2 by congruence; split; [done|intros [? _]; done]].
  rewrite bool_decide_eq_true_2 by done. rewrite read16_lt by lia. rewrite bind_some.
  assert (∃ d, read_ip ip 16 = Some d) as [d ->].
  { unfold read_ip. destruct (index_lt ip 16) as [? ->]; [lia|]. destruct (index_lt ip (16 + 1)) as [? ->]; [lia|].
    destruct (index_lt ip (16 + 2)) as [? ->]; [lia|]. destruct (index_lt ip (16 + 3)) as [? ->]; [lia|]. eauto. }
  rewrite bind_some. unfold slice. case_decide as HS.
  - rewrite bind_some. destruct (parse_tcp_total d (take (Nat.min (Z.to_nat (field16 ip 2)) (length ip)
      - Z.to_nat (Z.land b0 15) * 4) (drop (Z.to_nat (Z.land b0 15) * 4) ip))) as [x ->].
    split; [done|]. intros [_ ?]. lia.
  - split; [|done]. intros _. split; [done|]. lia.
Qed.

(** An uplink packet makes the endpoint panic exactly when it passes the checks the code makes of an
    IPv4/TCP packet and its total length is less than its header length. *)
Theorem endpoint_panics_iff ip e :
  on_uplink_ip ip e = None ↔ passes_checks ip = true ∧ (Z.to_nat (field16 ip 2) < header_octets ip)%nat.
Proof.
  rewrite <- parse_panics_iff. unfold on_uplink_ip. destruct (parse_ipv4_tcp ip) as [[seg|]|]; cbn.
  - split; [|done]. repeat case_match; done.
  - done.
  - done.
Qed.

(** A twenty-octet header that claims a total length of zero. *)
Definition short_total : list Z :=
  [0x45; 0; 0; 0; 0; 0; 0; 0; 64; 6; 0; 0; 10; 55; 0; 2; 10; 55; 0; 1] ++ replicate 20 0.
Example endpoint_panics : on_uplink_ip short_total (Endpoint.new ip_a ip_b) = None.
Proof. reflexivity. Qed.

(** ** Receiving *)
Definition quiet_flags (fl : Z) : Prop := has fl TCP_FIN = false ∧ has fl TCP_RST = false.

Lemma on_uplink_other_seq pkt seg e c :
  parse_ipv4_tcp pkt = Some (Some seg) →
  dst_ip seg = iwf_ip e → dst_port seg = MODEM_SERVER_PORT → quiet_flags (seg_flags seg) →
  conn e = Some c → tcp_state c = Established → src_port seg = remote_port c → seg_seq seg ≠ rcv_nxt c →
  on_uplink_ip pkt e = Some (e, mkOut [] [] None false true).
Proof.
  intros HP Hip Hport [HF HR] Hc Hst Hsp Hsq. unfold on_uplink_ip. rewrite HP, bind_some.
  rewrite bool_decide_eq_false_2 by congruence. rewrite Hport, Z.eqb_refl. cbn [negb orb]. rewrite HR, Hc, Hsp, Z.eqb_refl.
  cbn [negb]. unfold on_segment. rewrite Hst. rewrite (bool_decide_eq_false_2 (Established = SynReceived)) by done.
  cbn [andb]. rewrite (proj2 (Z.eqb_neq (seg_seq seg) (rcv_nxt c))) by done. rewrite andb_false_r, HF. cbn [andb].
  rewrite Hst, (bool_decide_eq_false_2 (Established = LastAck)) by done. cbn [andb].
  rewrite decide_True by (rewrite Hst; done). do 2 f_equal. destruct e. unfold with_conn. cbn in *. by rewrite Hc.
Qed.

(** On an established connection a segment that does not begin at the next expected octet — a
    retransmission whose acknowledgement was lost, for one — is answered by nothing at all: no octet is
    delivered, and no acknowledgement is sent that could stop the retransmissions. *)
Theorem endpoint_deaf_to_repeats pkt seg e c :
  parse_ipv4_tcp pkt = Some (Some seg) →
  dst_ip seg = iwf_ip e → dst_port seg = MODEM_SERVER_PORT → quiet_flags (seg_flags seg) →
  conn e = Some c → tcp_state c = Established → src_port seg = remote_port c → seg_seq seg ≠ rcv_nxt c →
  on_uplink_ip pkt e = Some (e, mkOut [] [] None false true).
Proof. apply on_uplink_other_seq. Qed.

Section Stream.
(** The octets a mobile sends on one connection, in segments that may be lost, repeated and reordered. *)
Context (iwf ms : Ipv4Addr) (port isn snd_seq ack : Z) (srv : ModemServer) (up : bool) (stream : list Z).
Context (Hiwf : wf_ip iwf) (Hms : wf_ip ms) (Hport : is_u16 port) (Hack : is_u32 ack).
Context (Honline : state (modem srv) = Online) (Hrest : decoder srv = Tia617.new_decoder).
Context (Hstream : bytes stream) (Hesc : Tia617.ESCAPE ∉ stream) (Hlen : Z.of_nat (length stream) < 2 ^ 32).

(** The endpoint after the first [k] octets. *)
Definition endpoint_at (k : nat) : Tcp380Endpoint :=
  mkEndpoint iwf ms (Some (mkConn port snd_seq (wrap 32 (isn + Z.of_nat k)) Established)) srv up.

(** A segment of the mobile: where it begins, its length, and its flags. *)
Definition mobile_segment (x : nat * nat * Z) : list Z :=
  let '(off, len, fl) := x in
  build_ipv4_tcp ms iwf port MODEM_SERVER_PORT (wrap 32 (isn + Z.of_nat off)) ack fl (take len (drop off stream)).
Definition possible (x : nat * nat * Z) : Prop :=
  let '(off, len, fl) := x in
  (off ≤ length stream)%nat ∧ Z.of_nat len ≤ 65495 ∧ is_u8 fl ∧ quiet_flags fl.

Lemma server_feed_online p :
  p ≠ [] → Tia617.ESCAPE ∉ p → server_feed p srv = (srv, [UserData p]).
Proof.
  intros Hp Hn. unfold server_feed. rewrite Hrest, Tia617.feed_raw, decide_False by done. cbn [foldl feed_item app].
  unfold Modem.feed. rewrite decide_True by done. cbn. do 2 f_equal. destruct srv. cbn in *. by rewrite Hrest.
Qed.

Lemma wrap_offset_inj a b :
  (a ≤ length stream)%nat → (b ≤ length stream)%nat →
  wrap 32 (isn + Z.of_nat a) = wrap 32 (isn + Z.of_nat b) → a = b.
Proof. intros Ha Hb E. unfold wrap in E. zdiv. Qed.

Lemma segment_sendable off len fl :
  possible (off, len, fl) →
  sendable_segment ms iwf port MODEM_SERVER_PORT (wrap 32 (isn + Z.of_nat off)) ack fl (take len (drop off stream)).
Proof.
  intros (Ho & Hl & Hf & _). split; try done; try (apply is_u_wrap; lia); try (unfold is_u, MODEM_SERVER_PORT; lia).
  - by apply Forall_take, Forall_drop.
  - rewrite length_take. lia.
Qed.

Lemma receive_segment k off len fl :
  (k ≤ length stream)%nat → possible (off, len, fl) →
  ∃ out, let new := bool_decide (off = k) && bool_decide (take len (drop off stream) ≠ []) in
    on_uplink_ip (mobile_segment (off, len, fl)) (endpoint_at k)
      = Some (endpoint_at (if new then k + length (take len (drop off stream)) else k)%nat, out) ∧
    user_data out = if new then take len (drop off stream) else [].
Proof.
  intros Hk Hp. assert (HS := segment_sendable off len fl Hp). apply parse_build in HS. cbn zeta.
  destruct Hp as (Ho & Hl & Hf & HF & HR). cbn [mobile_segment].
  set (pl := take len (drop off stream)) in *.
  assert (Tia617.ESCAPE ∉ pl) as Hpl.
  { intros H. apply Hesc. apply (subseteq_drop off), (subseteq_take len), H. }
  destruct (decide (off = k)) as [->|Hne]; [rewrite (bool_decide_eq_true_2 (k = k)) by done|rewrite (bool_decide_eq_false_2 (off = k)) by done].
  2: { exists (mkOut [] [] None false true). cbn [andb]. split; [|done].
       eapply on_uplink_other_seq; [exact HS|reflexivity|reflexivity|by split|reflexivity|reflexivity|reflexivity|].
       cbn. intros E. apply Hne. by apply wrap_offset_inj. }
  unfold on_uplink_ip. rewrite HS, bind_some. cbn [dst_ip dst_port iwf_ip endpoint_at seg_flags src_port].
  rewrite (bool_decide_eq_false_2 (iwf ≠ iwf)) by (intros N; by apply N).
  cbn [negb orb Z.eqb Pos.eqb MODEM_SERVER_PORT]. rewrite HR.
  cbn [conn endpoint_at remote_port]. rewrite Z.eqb_refl. cbn [negb]. unfold on_segment.
  cbn [tcp_state seg_flags seg_payload seg_seq rcv_nxt].
  rewrite (bool_decide_eq_false_2 (Established = SynReceived)) by done. cbn [andb]. rewrite Z.eqb_refl, andb_true_r.
  case_bool_decide as Hnil.
  - unfold drive_modem. cbn [server endpoint_at with_conn].
    rewrite server_feed_online by done. cbn [apply_events foldl apply_event].
    rewrite HF. cbn [andb tcp_state with_rcv_nxt]. rewrite (bool_decide_eq_false_2 (Established = LastAck)) by done.
    cbn [andb]. rewrite decide_True by done. eexists.
    split; [apply f_equal, f_equal2; [|reflexivity]|reflexivity]. unfold endpoint_at, with_conn, with_server, with_rcv_nxt. cbn. do 3 f_equal.
    unfold wrapping_add, wrap. rewrite Nat2Z.inj_add. zdiv.
  - rewrite HF. cbn [andb tcp_state]. rewrite (bool_decide_eq_false_2 (Established = LastAck)) by done. cbn [andb].
    rewrite decide_True by done. eexists. split; reflexivity.
Qed.

(** The octets handed up while the segments [xs] arrive. *)
Fixpoint deliver_segments (xs : list (nat * nat * Z)) (e : Tcp380Endpoint) : rust (Tcp380Endpoint * list Z) :=
  match xs with
  | [] => Some (e, [])
  | x :: xs =>
      '(e, out) ← on_uplink_ip (mobile_segment x) e;
      '(e, up) ← deliver_segments xs e;
      Some (e, user_data out ++ up)
  end.

Lemma deliver_segments_prefix xs k :
  (k ≤ length stream)%nat → Forall possible xs →
  ∃ n, (k ≤ n ≤ length stream)%nat ∧ deliver_segments xs (endpoint_at k) = Some (endpoint_at n, take (n - k) (drop k stream)).
Proof.
  intros Hk Hxs. revert k Hk. induction Hxs as [|[[off len] fl] xs Hx _ IH]; intros k Hk.
  { exists k. rewrite Nat.sub_diag. split; [lia|done]. }
  cbn [deliver_segments]. destruct (receive_segment k off len fl Hk Hx) as (out & -> & HU). rewrite bind_some.
  destruct (decide (off = k)) as [->|Hne]; [rewrite (bool_decide_eq_true_2 (k = k)) in * by done|rewrite (bool_decide_eq_false_2 (off = k)) in * by done]; cbn [andb] in *.
  2: { destruct (IH k Hk) as (n & Hn & ->). exists n. split; [done|]. cbn. by rewrite HU. }
  case_bool_decide as Hnil.
  2: { destruct (IH k Hk) as (n & Hn & ->). exists n. split; [done|]. cbn. by rewrite HU. }
  set (p := take len (drop k stream)) in *.
  assert (length p = Nat.min len (length stream - k))%nat as Hp by (unfold p; by rewrite length_take, length_drop).
  destruct (IH (k + length p)%nat) as (n & Hn & ->); [lia|]. exists n. split; [lia|]. rewrite bind_some.
  rewrite HU. do 2 f_equal.
  assert (p = take (length p) (drop k stream)) as Ep.
  { unfold p. rewrite length_take, length_drop. destruct (decide (len ≤ length stream - k)%nat).
    - by rewrite Nat.min_l by done.
    - rewrite Nat.min_r by lia. rewrite !take_ge by (rewrite length_drop; lia). done. }
  rewrite Ep at 1. replace (n - k)%nat with (length p + (n - (k + length p)))%nat by lia.
  rewrite <- take_take_drop, drop_drop. done.
Qed.
End Stream.

(** Whatever segments of the mobile's stream arrive, in any order and however often repeated, the
    endpoint hands up exactly a prefix of the stream and acknowledges that prefix: nothing is
    delivered twice, out of order or unacknowledged, and no segment makes it fail. *)
Theorem endpoint_hands_up_prefix iwf ms port isn snd_seq ack srv up stream xs :
  wf_ip iwf → wf_ip ms → is_u16 port → is_u32 ack →
  state (modem srv) = Online → decoder srv = Tia617.new_decoder →
  bytes stream → Tia617.ESCAPE ∉ stream → Z.of_nat (length stream) < 2 ^ 32 →
  Forall (possible stream) xs →
  ∃ n, (n ≤ length stream)%nat ∧
    deliver_segments iwf ms port isn ack stream xs (endpoint_at iwf ms port isn snd_seq srv up 0)
      = Some (endpoint_at iwf ms port isn snd_seq srv up n, take n stream).
Proof.
  intros. destruct (deliver_segments_prefix iwf ms port isn snd_seq ack srv up stream) with (xs := xs) (k := 0%nat)
    as (n & Hn & E); try done; [lia|]. exists n. split; [lia|]. by rewrite Nat.sub_0_r, drop_0 in E.
Qed.

Definition online_server : ModemServer := mkServer (set_state Online Modem.new) Tia617.new_decoder.
(** The first two octets arrive twice, the last one first. *)
Lemma endpoint_hands_up_prefix_witness :
  ∃ n, (n ≤ 3)%nat ∧
    deliver_segments ip_a ip_b 1024 0xFFFFFFFF 7 [1; 2; 3] [(2%nat, 1%nat, 24); (0%nat, 2%nat, 24); (0%nat, 2%nat, 24); (2%nat, 1%nat, 24)]
      (endpoint_at ip_a ip_b 1024 0xFFFFFFFF 0x1001 online_server true 0)
    = Some (endpoint_at ip_a ip_b 1024 0xFFFFFFFF 0x1001 online_server true n, take n [1; 2; 3]).
Proof.
  apply (endpoint_hands_up_prefix ip_a ip_b 1024 0xFFFFFFFF 0x1001 7 online_server true [1; 2; 3]);
    try (by apply bytesb_bytes); try (unfold is_u; lia); try reflexivity.
  - rewrite !not_elem_of_cons. repeat split; try done. apply not_elem_of_nil.
  - repeat constructor; cbn; unfold is_u; lia.
Defined.

Lemma endpoint_deaf_to_repeats_witness :
  on_uplink_ip (build_ipv4_tcp ip_b ip_a 1024 380 5 7 0x18 [65]) (endpoint_at ip_a ip_b 1024 6 0x1001 online_server true 0)
  = Some (endpoint_at ip_a ip_b 1024 6 0x1001 online_server true 0, mkOut [] [] None false true).
Proof.
  eapply (endpoint_deaf_to_repeats _ (mkSegment ip_a 1024 380 5 0x18 [65]));
    try reflexivity; [split; reflexivity|vm_compute; discriminate].
Defined.

(** ** Sending *)
Inductive contiguous : Z → list TcpSegment → Z → Prop :=
| contiguous_nil n : contiguous n [] n
| contiguous_cons n seg segs m :
    seg_seq seg = n → contiguous (wrapping_add 32 n ((Z.of_nat (length (seg_payload seg))) as_u32)) segs m →
    contiguous n (seg :: segs) m.

Record wf_conn (e : Tcp380Endpoint) (c : TcpConn) : Prop := {
  wf_iwf : wf_ip (iwf_ip e);
  wf_ms : wf_ip (ms_ip e);
  wf_port : is_u16 (remote_port c);
  wf_snd : is_u32 (snd_nxt c);
  wf_rcv : is_u32 (rcv_nxt c)
}.

Lemma send_chunks_contiguous e c cs :
  wf_conn e c → Forall (λ p, bytes p ∧ (length p ≤ TCP_MSS)%nat) cs →
  ∃ segs, (parse_ipv4_tcp <$> (send_chunks e c cs).2) = Some ∘ Some <$> segs ∧ seg_payload <$> segs = cs ∧
    Forall (λ s, dst_ip s = ms_ip e ∧ src_port s = MODEM_SERVER_PORT ∧ dst_port s = remote_port c) segs ∧
    contiguous (snd_nxt c) segs (snd_nxt (send_chunks e c cs).1) ∧
    (send_chunks e c cs).1 = with_snd_nxt (snd_nxt (send_chunks e c cs).1) c.
Proof.
  intros Hc Hcs. revert c Hc. induction Hcs as [|p cs [Hp Hl] _ IH]; intros c Hc.
  { exists []. cbn. repeat split; try constructor. by destruct c. }
  assert (HW := Hc). destruct Hc as [? ? ? ? ?]. cbn [send_chunks].
  set (c' := with_snd_nxt _ c). destruct (IH c') as (segs & HP & HS & HF & HC & HE).
  { split; try done. apply is_u_wrap. lia. }
  destruct (send_chunks e c' cs) as [c2 pkts]. cbn [fst snd] in *.
  exists (mkSegment (ms_ip e) MODEM_SERVER_PORT (remote_port c) (snd_nxt c) (Z.lor TCP_PSH TCP_ACK) p :: segs).
  rewrite !fmap_cons, HP. repeat split.
  - f_equal. unfold build_segment, compose. apply parse_build.
    split; try done; try (unfold is_u, MODEM_SERVER_PORT; cbn; lia). unfold TCP_MSS in Hl. lia.
  - cbn. by rewrite HS.
  - constructor; [done|]. exact HF.
  - constructor; [done|]. exact HC.
  - rewrite HE at 1. by destruct c.
Qed.

Lemma chunks_bounded {A} n (l : list A) : (0 < n)%nat → Forall (λ p, (length p ≤ n)%nat) (chunks n l).
Proof.
  intros Hn. induction l as [l IH] using (induction_ltof1 _ length). unfold ltof in IH.
  destruct (decide (l = [])) as [->|Hl]; [constructor|]. rewrite chunks_cons by done. constructor.
  - rewrite length_take. lia.
  - apply IH. rewrite length_drop. destruct l; cbn; [done|lia].
Qed.

Lemma bytes_chunks n l : bytes l → Forall bytes (chunks n l).
Proof.
  unfold chunks. generalize (length l). intros fuel. revert l.
  induction fuel as [|fuel IH]; intros l Hl; [constructor|]. destruct l as [|x l]; [constructor|].
  cbn [chunks_fuel]. constructor; [by apply Forall_take|]. apply IH. by apply Forall_drop.
Qed.

(** Data for the mobile leaves as valid TCP segments of at most 512 octets with contiguous sequence
    numbers, whose payloads make up the data: a receiver that takes them in order has the data. *)
Theorem send_online_stream data e c :
  conn e = Some c → tcp_state c = Established → wf_conn e c → bytes data →
  ∃ segs, (parse_ipv4_tcp <$> (send_online data e).2) = Some ∘ Some <$> segs ∧
    mjoin (seg_payload <$> segs) = data ∧
    Forall (λ s, dst_ip s = ms_ip e ∧ dst_port s = remote_port c ∧ (length (seg_payload s) ≤ TCP_MSS)%nat) segs ∧
    ∃ n, contiguous (snd_nxt c) segs n ∧ conn (send_online data e).1 = Some (with_snd_nxt n c).
Proof.
  intros Hc Hst Hw Hd. unfold send_online. case_decide as Hn.
  { exists []. subst. repeat split; try constructor. exists (snd_nxt c). split; [constructor|]. cbn [fst]. rewrite Hc. by destruct c. }
  rewrite Hc, decide_True by done.
  assert (HB := chunks_bounded TCP_MSS data). assert (HY := bytes_chunks TCP_MSS data Hd).
  destruct (send_chunks_contiguous e c (chunks TCP_MSS data) Hw) as (segs & HP & HS & HF & HC & HE).
  { apply Forall_and. split; [done|]. apply HB. unfold TCP_MSS. lia. }
  destruct (send_chunks e c (chunks TCP_MSS data)) as [c2 pkts]. cbn [fst snd] in *.
  exists segs. repeat split; [done|rewrite HS; apply mjoin_chunks; unfold TCP_MSS; lia| |].
  - rewrite Forall_forall in HF |- *. intros s Hs. destruct (HF s Hs) as (? & ? & ?). repeat split; try done.
    rewrite Forall_forall in HB. apply HB; [unfold TCP_MSS; lia|]. rewrite <- HS. by apply list_elem_of_fmap_2.
  - exists (snd_nxt c2). split; [done|]. cbn. by rewrite HE at 1.
Qed.

Lemma send_online_stream_witness :
  ∃ segs, (parse_ipv4_tcp <$> (send_online (replicate 600 7) (endpoint_at ip_a ip_b 1024 6 0xFFFFFFFF online_server true 0)).2)
      = Some ∘ Some <$> segs ∧ mjoin (seg_payload <$> segs) = replicate 600 7.
Proof.
  destruct (send_online_stream (replicate 600 7) (endpoint_at ip_a ip_b 1024 6 0xFFFFFFFF online_server true 0)
    (mkConn 1024 0xFFFFFFFF 6 Established)) as (segs & H1 & H2 & _); try reflexivity.
  - split; cbn; try (by apply bytesb_bytes); unfold is_u; lia.
  - apply bytesb_bytes. reflexivity.
  - by exists segs.
Defined.
