(* ===== verification/AsyncNas.v ===== *)
(** * The end-user PPP terminator of an async data call ([cdma-packet/src/lib/async_nas.rs])

    LCP, IPCP and the deframer composed over an octet stream.  [magic] is the
    magic number the process hands to the LCP session. *)
From S2P Require Import Prelude Framing IpcpConfig ControlPacket Lcp Ipcp Vj.

Module Nas.

Record NasOut := mkNasOut { to_mobile : list Z; to_network : list (list Z) }.

Record AsyncNas := mkNas {
  deframer : list Z;
  lcp : Lcp.LcpSession;
  ipcp : Ipcp.IpcpSession;
  lcp_started : bool;
  ipcp_started : bool
}.

Definition new (magic : Z) (ipcp_config : IpcpConfig) : AsyncNas :=
  mkNas new_deframer (Lcp.new magic) (Ipcp.new ipcp_config) false false.
Definition is_open (n : AsyncNas) : bool := Lcp.is_open (lcp n) && Ipcp.is_open (ipcp n).

Definition start (n : AsyncNas) : AsyncNas * list Z :=
  if lcp_started n then (n, [])
  else
    let '(l, req) := Lcp.start (lcp n) in
    (mkNas (deframer n) l (ipcp n) true (ipcp_started n), frame req).

Definition tick (n : AsyncNas) : AsyncNas * list Z :=
  if negb (Lcp.is_open (lcp n)) then
    let '(l, req) := Lcp.maybe_retransmit_configure_request (lcp n) in
    (mkNas (deframer n) l (ipcp n) (lcp_started n) (ipcp_started n), from_option frame [] req)
  else (n, []).

(** The body of the loop of [feed] for one packet. *)
Definition feed_packet (st : AsyncNas * NasOut) (pkt : PppPacket) : AsyncNas * NasOut :=
  let '(n, out) := st in
  if protocol pkt =? LCP_PROTOCOL then
    let '(l, replies) := Lcp.receive pkt (lcp n) in
    let out := mkNasOut (to_mobile out ++ mjoin (frame <$> replies)) (to_network out) in
    if Lcp.is_open l && negb (ipcp_started n) then
      let '(i, req) := Ipcp.start (ipcp n) in
      (mkNas (deframer n) l i (lcp_started n) true, mkNasOut (to_mobile out ++ frame req) (to_network out))
    else (mkNas (deframer n) l (ipcp n) (lcp_started n) (ipcp_started n), out)
  else if protocol pkt =? Ipcp.IPCP_PROTOCOL then
    let '(i, replies) := Ipcp.receive pkt (ipcp n) in
    (mkNas (deframer n) (lcp n) i (lcp_started n) (ipcp_started n),
     mkNasOut (to_mobile out ++ mjoin (frame <$> replies)) (to_network out))
  else if protocol pkt =? PPP_IP_PROTOCOL then (n, mkNasOut (to_mobile out) (to_network out ++ [payload pkt]))
  else (n, out).

Definition feed (bytes : list Z) (n : AsyncNas) : AsyncNas * NasOut :=
  let '(buf, packets) := Framing.feed (deframer n) bytes in
  foldl feed_packet (mkNas buf (lcp n) (ipcp n) (lcp_started n) (ipcp_started n), mkNasOut [] []) packets.

Definition send_ip (ip_packet : list Z) (n : AsyncNas) : list Z :=
  if negb (Ipcp.is_open (ipcp n)) then [] else frame (mkPppPacket PPP_IP_PROTOCOL ip_packet).

(** ** Retransmission *)
Lemma tick_ipcp n : ipcp (tick n).1 = ipcp n ∧ ipcp_started (tick n).1 = ipcp_started n.
Proof. unfold tick. destruct (negb _); [|done]. by destruct (Lcp.maybe_retransmit_configure_request (lcp n)). Qed.

Fixpoint ticks (k : nat) (n : AsyncNas) : AsyncNas * list Z :=
  match k with
  | O => (n, [])
  | S k => let '(n, o) := tick n in let '(n, os) := ticks k n in (n, o ++ os)
  end.

(** Once LCP is open the clock of the end-user PPP drives nothing any more: however long the mobile is
    silent, no octet is sent and IPCP stays as it is, so a lost IPCP Configure-Request is never repeated. *)
Theorem nas_never_retransmits_ipcp n k : Lcp.is_open (lcp n) = true → ticks k n = (n, []).
Proof.
  intros Ho. induction k as [|k IH]; [done|]. cbn [ticks]. unfold tick. rewrite Ho. cbn [negb]. by rewrite IH.
Qed.

Definition sample_config : IpcpConfig :=
  let dns := mkIp 10 0 0 1 in
  mkIpcpConfig (mkIp 10 55 0 1) (mkIp 10 55 0 2) dns dns false false
    (mkMobileIpConfig false dns dns 3 9000 1200 dns dns Insecure None false false).
(** A NAS whose LCP is open and whose IPCP has asked once. *)
Definition waiting : AsyncNas :=
  let n := new 1 sample_config in
  mkNas [] (Lcp.force_open (lcp n)) (Ipcp.start (ipcp n)).1 true true.
Lemma nas_never_retransmits_ipcp_witness :
  Lcp.is_open (lcp waiting) = true ∧ Ipcp.is_open (ipcp waiting) = false ∧
  ticks (100 * 100) waiting = (waiting, []).
Proof.
  split; [reflexivity|]. split; [reflexivity|]. apply nas_never_retransmits_ipcp. reflexivity.
Defined.

End Nas.
