(* ===== verification/MobileIp.v ===== *)
(** * Mobile IPv4 registration ([cdma-packet/src/lib/mobile_ip.rs])

    The foreign and home agent of a packet session: agent advertisements, the
    parser of registration requests, their authentication, the window of
    issued challenges, and the replies.  [md5] (crate [md5]) and the values
    [draw 0, draw 1, ...] the UUID generator (crate [uuid]) hands out are
    parameters; the generator's position is process-wide state that is passed
    along.  [None] is a challenge loop that has not found a new value after
    [CHALLENGE_DRAWS] draws. *)
From S2P Require Import Prelude IpcpConfig IpChecksum Text.
Import Text.

Module Mip.

Definition UDP_PORT_MOBILE_IP : Z := 434.
Definition IP_PROTO_ICMP : Z := 1.
Definition IP_PROTO_UDP : Z := 17.
Definition BROADCAST : Ipv4Addr := mkIp 255 255 255 255.

Definition ICMP_ROUTER_ADVERTISEMENT : Z := 9.
Definition ICMP_ROUTER_SOLICITATION : Z := 10.
Definition MIP_MOBILE_HOME_AUTH_EXT : Z := 32.
Definition MIP_MOBILE_FOREIGN_AUTH_EXT : Z := 33.
Definition MIP_GENERALIZED_AUTH_EXT : Z := 36.
Definition MIP_GENERALIZED_AUTH_SUBTYPE_MN_AAA : Z := 1.
Definition MIP_MN_NAI_EXT : Z := 131.
Definition MIP_MOBILE_FOREIGN_CHALLENGE_EXT : Z := 132.
Definition MIP_CHALLENGE_WINDOW : nat := 2.
Definition MIP_AUTHENTICATOR_LEN : nat := 16.
Definition AUTH_EXTENSION_SPI_LEN : nat := 4.
Definition MIP_AUTH_EXTENSION_VALUE_LEN : Z := 20.
Definition MIP_RRQ_TYPE : Z := 1.
Definition MIP_RRP_TYPE : Z := 3.
Definition MIP_LIFETIME_DEREGISTER : Z := 0.
Definition RRQ_FLAG_D : Z := 0x20.

Definition RRP_CODE_ACCEPTED : Z := 0.
Definition RRP_CODE_ACCEPTED_SIMULTANEOUS_UNSUPPORTED : Z := 1.
Definition RRP_CODE_ADMINISTRATIVELY_PROHIBITED : Z := 65.
Definition RRP_CODE_MOBILE_NODE_AUTH_FAILED : Z := 67.
Definition RRP_CODE_UNKNOWN_MN_FA_CHALLENGE : Z := 104.
Definition RRP_CODE_MISSING_MN_FA_CHALLENGE : Z := 105.
Definition RRP_CODE_STALE_MN_FA_CHALLENGE : Z := 106.
Definition RRP_CODE_HA_MOBILE_NODE_AUTH_FAILED : Z := 131.

Definition is_unspecified (a : Ipv4Addr) : bool := bool_decide (a = UNSPECIFIED).

(** [v[i]] where the length of [v] has been checked. *)
Definition at_ (v : list Z) (i : nat) : Z := default 0 (v !! i).
Definition be16_at (v : list Z) (i : nat) : Z := from_be16 (at_ v i) (at_ v (i + 1)).
Definition be32_at (v : list Z) (i : nat) : Z := from_be32 (at_ v i) (at_ v (i + 1)) (at_ v (i + 2)) (at_ v (i + 3)).
Definition ip_at (v : list Z) (i : nat) : Ipv4Addr := mkIp (at_ v i) (at_ v (i + 1)) (at_ v (i + 2)) (at_ v (i + 3)).
(** [u64::to_be_bytes] and [u64::from_be_bytes] *)
Definition to_be64 (v : Z) : list Z := to_be32 (v / 2 ^ 32) ++ to_be32 (v mod 2 ^ 32).
Definition be64_at (v : list Z) (i : nat) : Z := be32_at v i * 2 ^ 32 + be32_at v (i + 4).

(** ** Packets *)
Record ParsedIpv4Packet := mkIpv4 { source : Ipv4Addr; destination : Ipv4Addr; ip_protocol : Z; ip_payload : list Z }.
Definition parse_ipv4 (packet : list Z) : option ParsedIpv4Packet :=
  if decide (length packet < 20)%nat then None
  else if negb (Z.shiftr (at_ packet 0) 4 =? 4) then None
  else
    let ihl := (Z.to_nat (Z.land (at_ packet 0) 0x0f) * 4)%nat in
    if decide (ihl < 20 ∨ length packet < ihl)%nat then None
    else
      let total_len := Z.to_nat (be16_at packet 2) in
      if decide (total_len < ihl ∨ length packet < total_len)%nat then None
      else Some (mkIpv4 (ip_at packet 12) (ip_at packet 16) (at_ packet 9) (take (total_len - ihl) (drop ihl packet))).
Definition reply_address (ip : ParsedIpv4Packet) : Ipv4Addr :=
  if is_unspecified (source ip) then BROADCAST else source ip.

Record ParsedUdpPacket := mkUdp { source_port : Z; destination_port : Z; udp_payload : list Z }.
Definition parse_udp (packet : list Z) : option ParsedUdpPacket :=
  if decide (length packet < 8)%nat then None
  else
    let len := Z.to_nat (be16_at packet 4) in
    if decide (len < 8 ∨ length packet < len)%nat then None
    else Some (mkUdp (be16_at packet 0) (be16_at packet 2) (take (len - 8) (drop 8 packet))).

Definition fill_checksum (packet : list Z) (offset : nat) : list Z :=
  let packet := <[(offset + 1)%nat := 0]> (<[offset := 0]> packet) in
  let sum := mip_checksum packet in
  <[(offset + 1)%nat := sum mod 256]> (<[offset := sum / 256]> packet).

Definition build_ipv4_packet_with_ttl (source destination : Ipv4Addr) (protocol : Z) (payload : list Z) (ttl : Z) : list Z :=
  let total_len := (20 + length payload)%nat in
  fill_checksum
    ([0x45; 0] ++ to_be16 ((Z.of_nat total_len) as_u16) ++ [0; 0; 0; 0; ttl; protocol; 0; 0]
     ++ octets source ++ octets destination) 10 ++ payload.
Definition build_ipv4_packet (source destination : Ipv4Addr) (protocol : Z) (payload : list Z) : list Z :=
  build_ipv4_packet_with_ttl source destination protocol payload 64.

Definition build_udp_packet (source_port destination_port : Z) (payload : list Z) : list Z :=
  let len := (8 + length payload)%nat in
  to_be16 source_port ++ to_be16 destination_port ++ to_be16 ((Z.of_nat len) as_u16) ++ [0; 0] ++ payload.
Definition build_udp_packet_with_ipv4_checksum (source destination : Ipv4Addr) (source_port destination_port : Z)
    (payload : list Z) : list Z :=
  let packet := build_udp_packet source_port destination_port payload in
  let protected := octets source ++ octets destination ++ [0; IP_PROTO_UDP]
    ++ to_be16 ((Z.of_nat (length packet)) as_u16) ++ packet in
  let checksum := if mip_checksum protected =? 0 then 0xFFFF else mip_checksum protected in
  <[7%nat := checksum mod 256]> (<[6%nat := checksum / 256]> packet).

(** ** Registration requests *)
Record MobileIpAuthentication := mkAuth { auth_spi : Z; authenticator : list Z; protected_data_len : nat }.
#[export] Instance MobileIpAuthentication_eq_dec : EqDecision MobileIpAuthentication.
Proof. solve_decision. Defined.

Inductive MobileIpExtension :=
| MnFaChallenge (value : list Z)
| MobileHomeAuth (a : MobileIpAuthentication)
| MobileForeignAuth (a : MobileIpAuthentication)
| MnAaaAuth (a : MobileIpAuthentication)
| MnNai (value : list Z)
| UnknownExtension (extension_type : Z) (subtype : option Z) (data : list Z).
#[export] Instance MobileIpExtension_eq_dec : EqDecision MobileIpExtension.
Proof. solve_decision. Defined.

Record RegistrationRequest := mkRrq {
  flags : Z;
  lifetime_secs : Z;
  home_address : Ipv4Addr;
  home_agent : Ipv4Addr;
  care_of_address : Ipv4Addr;
  identification : Z;
  extensions : list MobileIpExtension;
  wire_data : list Z
}.

Definition parse_authentication (value : list Z) (protected_data_len : nat) : option MobileIpAuthentication :=
  if decide (length value < AUTH_EXTENSION_SPI_LEN)%nat then None
  else Some (mkAuth (be32_at value 0) (drop AUTH_EXTENSION_SPI_LEN value) protected_data_len).

(** The extension of type [t] with a one-octet length whose value begins at [start]. *)
Definition plain_extension (t : Z) (value : list Z) (start : nat) : MobileIpExtension :=
  if t =? MIP_MOBILE_FOREIGN_CHALLENGE_EXT then MnFaChallenge value
  else if t =? MIP_MOBILE_HOME_AUTH_EXT then
    from_option MobileHomeAuth (UnknownExtension t None value) (parse_authentication value (start + AUTH_EXTENSION_SPI_LEN))
  else if t =? MIP_MOBILE_FOREIGN_AUTH_EXT then
    from_option MobileForeignAuth (UnknownExtension t None value) (parse_authentication value (start + AUTH_EXTENSION_SPI_LEN))
  else if t =? MIP_MN_NAI_EXT then MnNai value
  else UnknownExtension t None value.
Definition generalized_extension (subtype : Z) (value : list Z) (start : nat) : MobileIpExtension :=
  match parse_authentication value (start + AUTH_EXTENSION_SPI_LEN) with
  | Some a =>
      if subtype =? MIP_GENERALIZED_AUTH_SUBTYPE_MN_AAA then MnAaaAuth a
      else UnknownExtension MIP_GENERALIZED_AUTH_EXT (Some subtype) value
  | None => UnknownExtension MIP_GENERALIZED_AUTH_EXT (Some subtype) value
  end.

(** [rest] is the data from [offset] on; every turn consumes an octet. *)
Fixpoint parse_extensions_fuel (fuel : nat) (rest : list Z) (offset : nat) : option (list MobileIpExtension) :=
  match fuel, rest with
  | _, [] => Some []
  | O, _ => Some []
  | S fuel, t :: tl =>
      if t =? 0 then parse_extensions_fuel fuel tl (offset + 1)
      else if t =? MIP_GENERALIZED_AUTH_EXT then
        match tl with
        | subtype :: l1 :: l0 :: value =>
            let len := Z.to_nat (from_be16 l1 l0) in
            if decide (length value < len)%nat then None
            else
              exts ← parse_extensions_fuel fuel (drop len value) (offset + 4 + len);
              Some (generalized_extension subtype (take len value) (offset + 4) :: exts)
        | _ => None
        end
      else
        match tl with
        | l :: value =>
            let len := Z.to_nat l in
            if decide (length value < len)%nat then None
            else
              exts ← parse_extensions_fuel fuel (drop len value) (offset + 2 + len);
              Some (plain_extension t (take len value) (offset + 2) :: exts)
        | [] => None
        end
  end.
Definition parse_extensions (data : list Z) (offset : nat) : option (list MobileIpExtension) :=
  parse_extensions_fuel (length data) (drop offset data) offset.

Definition parse_registration_request (data : list Z) : option RegistrationRequest :=
  if bool_decide (length data < 24)%nat || negb (at_ data 0 =? MIP_RRQ_TYPE) then None
  else
    exts ← parse_extensions data 24;
    Some (mkRrq (at_ data 1) (be16_at data 2) (ip_at data 4) (ip_at data 8) (ip_at data 12) (be64_at data 16) exts data).

Definition is_mn_ha (e : MobileIpExtension) : bool := match e with MobileHomeAuth _ => true | _ => false end.
Definition is_mn_aaa (e : MobileIpExtension) : bool := match e with MnAaaAuth _ => true | _ => false end.
Definition is_mn_fa (e : MobileIpExtension) : bool := match e with MobileForeignAuth _ => true | _ => false end.
Definition is_challenge (e : MobileIpExtension) : bool := match e with MnFaChallenge _ => true | _ => false end.
Definition has_ext (p : MobileIpExtension → bool) (r : RegistrationRequest) : bool := existsb p (extensions r).
Definition count_ext (p : MobileIpExtension → bool) (r : RegistrationRequest) : nat :=
  length (filter (λ e, p e = true) (extensions r)).
Fixpoint position_ext (p : MobileIpExtension → bool) (l : list MobileIpExtension) : option nat :=
  match l with
  | [] => None
  | e :: l => if p e then Some 0%nat else S <$> position_ext p l
  end.
Definition mn_fa_challenge (r : RegistrationRequest) : option (list Z) :=
  head (omap (λ e, match e with MnFaChallenge v => Some v | _ => None end) (extensions r)).
Definition mn_ha_auth (r : RegistrationRequest) : option MobileIpAuthentication :=
  head (omap (λ e, match e with MobileHomeAuth a => Some a | _ => None end) (extensions r)).
Definition mn_aaa_auth (r : RegistrationRequest) : option MobileIpAuthentication :=
  head (omap (λ e, match e with MnAaaAuth a => Some a | _ => None end) (extensions r)).
Definition mn_nai (r : RegistrationRequest) : option (list Z) :=
  head (omap (λ e, match e with MnNai v => Some v | _ => None end) (extensions r)).
Definition nai (r : RegistrationRequest) : option chars := from_utf8_lossy <$> mn_nai r.

(** ** The session *)
Record MobileIpBinding := mkBinding {
  b_nai : option chars;
  b_home_address : Ipv4Addr;
  b_home_agent : Ipv4Addr;
  b_identification : Z;
  b_lifetime_secs : Z
}.
Record IssuedChallenge := mkIssued { value : list Z; used : bool }.
Inductive ChallengeStatus := Unused | Used | UnknownChallenge.
Record CompletedRegistration := mkCompleted { c_request : list Z; c_binding : MobileIpBinding; c_reply : list Z }.

Record MobileIpSession := mkMipSession {
  mip_config : MobileIpConfig;
  advertisements_sent : Z;
  sequence : Z;
  challenge : list Z;
  issued_challenges : list IssuedChallenge;
  binding : option MobileIpBinding;
  last_registration : option CompletedRegistration
}.

Inductive MobileIpPacketResult :=
| NotMobileIp
| Ignored
| AuthenticationRequired
| MipReply (reply : list Z)
| Deregistered (reply : list Z)
| Registered (b : MobileIpBinding) (reply : list Z).

Inductive AuthenticatorScope := WithSpi | WithoutSpi.
Definition protected_len (s : AuthenticatorScope) (through_spi : nat) : nat :=
  match s with WithSpi => through_spi | WithoutSpi => (through_spi - AUTH_EXTENSION_SPI_LEN)%nat end.

(** The reasons are log texts. *)
Inductive RegistrationAuthentication :=
| Accepted (s : AuthenticatorScope)
| InfrastructureRequired
| Rejected (code : Z).

Definition issue_challenge (c : list Z) (s : MobileIpSession) : MobileIpSession :=
  let issued := if decide (length (issued_challenges s) = MIP_CHALLENGE_WINDOW)
                then drop 1 (issued_challenges s) else issued_challenges s in
  mkMipSession (mip_config s) (advertisements_sent s) (sequence s) c (issued ++ [mkIssued c false])
    (binding s) (last_registration s).

Definition challenge_status (c : list Z) (s : MobileIpSession) : ChallengeStatus :=
  match head (filter (λ i, value i = c) (rev (issued_challenges s))) with
  | Some i => if used i then Used else Unused
  | None => UnknownChallenge
  end.

(** [iter_mut().rev().find(..)] and [issued.used = true]: the list is walked from its end. *)
Fixpoint mark_last (c : list Z) (l : list IssuedChallenge) : list IssuedChallenge :=
  match l with
  | [] => []
  | i :: l =>
      if decide (c ∈ (value <$> l)) then i :: mark_last c l
      else if decide (value i = c) then mkIssued (value i) true :: l
      else i :: l
  end.
Definition mark_challenge_used (c : list Z) (s : MobileIpSession) : MobileIpSession :=
  mkMipSession (mip_config s) (advertisements_sent s) (sequence s) (challenge s) (mark_last c (issued_challenges s))
    (binding s) (last_registration s).

Definition set_binding (b : option MobileIpBinding) (s : MobileIpSession) : MobileIpSession :=
  mkMipSession (mip_config s) (advertisements_sent s) (sequence s) (challenge s) (issued_challenges s) b
    (last_registration s).
Definition set_last_registration (r : option CompletedRegistration) (s : MobileIpSession) : MobileIpSession :=
  mkMipSession (mip_config s) (advertisements_sent s) (sequence s) (challenge s) (issued_challenges s) (binding s) r.

Definition selected_home_agent (requested : Ipv4Addr) (s : MobileIpSession) : Ipv4Addr :=
  if is_unspecified requested || bool_decide (requested = BROADCAST) then home_agent_address (mip_config s) else requested.

Definition append_3gpp2_dns_nvse (primary_dns secondary_dns : Ipv4Addr) : list Z :=
  [134; 22] ++ to_be16 0 ++ to_be32 5535 ++ to_be16 17 ++ [3; 1; 6] ++ octets primary_dns ++ [2; 6]
  ++ octets secondary_dns ++ [0].

Definition agent_advertisement_packet (destination : Ipv4Addr) (s : MobileIpSession) : MobileIpSession * list Z :=
  let c := mip_config s in
  let seq := wrapping_add 16 (sequence s) 1 in
  let icmp := [ICMP_ROUTER_ADVERTISEMENT; 0; 0; 0; 1; 2] ++ to_be16 (advertisement_lifetime_secs c)
    ++ octets (fa_address c) ++ [0; 0; 0; 0] ++ [16; 10] ++ to_be16 seq ++ to_be16 (registration_lifetime_secs c)
    ++ [Z.lor (Z.lor 0x80 0x10) 0x01; 0] ++ octets (fa_address c)
    ++ [24; (Z.of_nat (length (challenge s))) as_u8] ++ challenge s in
  (mkMipSession c (advertisements_sent s) seq (challenge s) (issued_challenges s) (binding s) (last_registration s),
   build_ipv4_packet_with_ttl (fa_address c) destination IP_PROTO_ICMP (fill_checksum icmp 2) 1).

Definition next_unsolicited_advertisement (s : MobileIpSession) : MobileIpSession * option (list Z) :=
  if negb (mip_enabled (mip_config s)) || (advertisement_count (mip_config s) <=? advertisements_sent s) then (s, None)
  else
    let s := mkMipSession (mip_config s) (Z.min (advertisements_sent s + 1) 255) (sequence s) (challenge s)
      (issued_challenges s) (binding s) (last_registration s) in
    let '(s, pkt) := agent_advertisement_packet BROADCAST s in (s, Some pkt).

Definition registration_reply_destination (ip : ParsedIpv4Packet) (home : Ipv4Addr) : Ipv4Addr :=
  if negb (is_unspecified home) then home else reply_address ip.

Definition constant_time_eq (left right : list Z) : bool :=
  if decide (length left ≠ length right) then false
  else foldl (λ d '(l, r), Z.lor d (Z.lxor l r)) 0 (zip left right) =? 0.

Section Keyed.
Context (md5 : list Z → list Z) (draw : nat → list Z).

Definition keyed_md5_prefix_suffix (secret protected_data : list Z) : list Z :=
  md5 (secret ++ protected_data ++ secret).

(** The loop of [rotate_challenge]: the generator's position and the first value that is not issued. *)
Definition CHALLENGE_DRAWS : nat := 3.
Fixpoint draw_challenge (fuel : nat) (issued : list (list Z)) (u : nat) : option (nat * list Z) :=
  match fuel with
  | O => None
  | S fuel => if decide (draw u ∈ issued) then draw_challenge fuel issued (S u) else Some (S u, draw u)
  end.
Definition rotate_challenge (u : nat) (s : MobileIpSession) : option (nat * MobileIpSession) :=
  '(u, c) ← draw_challenge CHALLENGE_DRAWS (value <$> issued_challenges s) u;
  Some (u, issue_challenge c s).

Definition new (config : MobileIpConfig) (u : nat) : option (nat * MobileIpSession) :=
  rotate_challenge u (mkMipSession config 0 0 [] [] None None).
Definition reset (config : MobileIpConfig) (u : nat) : option (nat * MobileIpSession) := new config u.

(** The scope under which the authenticator of the request verifies. *)
Definition verified_scope (sec : MobileIpSecurityAssociation) (r : RegistrationRequest) (a : MobileIpAuthentication)
    : option AuthenticatorScope :=
  head (filter (λ sc, constant_time_eq
      (keyed_md5_prefix_suffix (shared_secret sec) (take (protected_len sc (protected_data_len a)) (wire_data r)))
      (authenticator a) = true) [WithSpi; WithoutSpi]).

(** The checks behind the MN-HA authenticator, on the challenge and what follows it. *)
Definition authenticate_challenge (scope : AuthenticatorScope) (r : RegistrationRequest) (s : MobileIpSession)
    : RegistrationAuthentication :=
  match mn_fa_challenge r with
  | None => Rejected RRP_CODE_MISSING_MN_FA_CHALLENGE
  | Some c =>
      if negb (bool_decide (count_ext is_challenge r = 1%nat)) then Rejected RRP_CODE_MOBILE_NODE_AUTH_FAILED
      else
        match challenge_status c s with
        | Used => Rejected RRP_CODE_STALE_MN_FA_CHALLENGE
        | UnknownChallenge => Rejected RRP_CODE_UNKNOWN_MN_FA_CHALLENGE
        | Unused =>
            if negb (has_ext is_mn_aaa r) && negb (has_ext is_mn_fa r) then Rejected RRP_CODE_MOBILE_NODE_AUTH_FAILED
            else
              let ha := default 0%nat (position_ext is_mn_ha (extensions r)) in
              let ch := default 0%nat (position_ext is_challenge (extensions r)) in
              let following := position_ext (λ e, is_mn_aaa e || is_mn_fa e) (extensions r) in
              if bool_decide (ch ≤ ha)%nat || from_option (λ p, bool_decide (p ≤ ch)%nat) true following
              then Rejected RRP_CODE_MOBILE_NODE_AUTH_FAILED
              else if negb (bool_decide (count_ext is_mn_aaa r + count_ext is_mn_fa r = 1)%nat)
              then Rejected RRP_CODE_MOBILE_NODE_AUTH_FAILED
              else if from_option (λ a, negb (bool_decide (length (authenticator a) = MIP_AUTHENTICATOR_LEN))) false (mn_aaa_auth r)
              then Rejected RRP_CODE_MOBILE_NODE_AUTH_FAILED
              else if has_ext is_mn_fa r then InfrastructureRequired
              else if has_ext is_mn_aaa r && negb (allow_unverified_mn_aaa (mip_config s)) then InfrastructureRequired
              else Accepted scope
        end
  end.

Definition authenticate_registration_request (r : RegistrationRequest) (s : MobileIpSession)
    : RegistrationAuthentication :=
  match auth_mode (mip_config s) with
  | Insecure =>
      if has_ext is_mn_ha r || has_ext is_mn_aaa r || has_ext is_mn_fa r then InfrastructureRequired
      else Accepted WithSpi
  | MnHa =>
      match mn_ha_security (mip_config s) with
      | None => InfrastructureRequired
      | Some sec =>
          match mn_ha_auth r with
          | None => Rejected RRP_CODE_HA_MOBILE_NODE_AUTH_FAILED
          | Some a =>
              if negb (bool_decide (count_ext is_mn_ha r = 1%nat)) then Rejected RRP_CODE_HA_MOBILE_NODE_AUTH_FAILED
              else if negb (auth_spi a =? spi sec) then
                if mn_ha_fallback_to_simple_ip (mip_config s) then InfrastructureRequired
                else Rejected RRP_CODE_HA_MOBILE_NODE_AUTH_FAILED
              else if negb (bool_decide (length (authenticator a) = MIP_AUTHENTICATOR_LEN))
              then Rejected RRP_CODE_HA_MOBILE_NODE_AUTH_FAILED
              else
                match verified_scope sec r a with
                | None => Rejected RRP_CODE_HA_MOBILE_NODE_AUTH_FAILED
                | Some scope => authenticate_challenge scope r s
                end
          end
      end
  end.

Definition registration_reply_body (r : RegistrationRequest) (code : Z) (home : Ipv4Addr) (scope : AuthenticatorScope)
    (s : MobileIpSession) : list Z :=
  let accepted := (code =? RRP_CODE_ACCEPTED) || (code =? RRP_CODE_ACCEPTED_SIMULTANEOUS_UNSUPPORTED) in
  let lifetime := if accepted then Z.min (lifetime_secs r) (registration_lifetime_secs (mip_config s))
                  else MIP_LIFETIME_DEREGISTER in
  let rrp := [MIP_RRP_TYPE; code] ++ to_be16 lifetime ++ octets home ++ octets (selected_home_agent (home_agent r) s)
    ++ to_be64 (identification r)
    ++ from_option (λ n, [MIP_MN_NAI_EXT; (Z.of_nat (length n)) as_u8] ++ n) [] (mn_nai r)
    ++ (if accepted && negb (lifetime =? MIP_LIFETIME_DEREGISTER)
        then append_3gpp2_dns_nvse (mip_primary_dns (mip_config s)) (mip_secondary_dns (mip_config s)) else []) in
  let rrp :=
    match mn_ha_security (mip_config s) with
    | Some sec =>
        let rrp := rrp ++ [MIP_MOBILE_HOME_AUTH_EXT; MIP_AUTH_EXTENSION_VALUE_LEN] ++ to_be32 (spi sec) in
        rrp ++ keyed_md5_prefix_suffix (shared_secret sec) (take (protected_len scope (length rrp)) rrp)
    | None => rrp
    end in
  rrp ++ [MIP_MOBILE_FOREIGN_CHALLENGE_EXT; (Z.of_nat (length (challenge s))) as_u8] ++ challenge s.

Definition registration_reply_packet (ip : ParsedIpv4Packet) (destination_port : Z) (r : RegistrationRequest) (code : Z)
    (home : Ipv4Addr) (scope : AuthenticatorScope) (s : MobileIpSession) : list Z :=
  let rrp := registration_reply_body r code home scope s in
  let dst := registration_reply_destination ip home in
  let fa := fa_address (mip_config s) in
  build_ipv4_packet fa dst IP_PROTO_UDP
    (build_udp_packet_with_ipv4_checksum fa dst UDP_PORT_MOBILE_IP destination_port rrp).

(** What [handle_ipv4_packet] does with an authenticated request; [rotated] tells whether the
    challenge has been rotated already. *)
Definition complete_registration (ip : ParsedIpv4Packet) (port : Z) (r : RegistrationRequest) (scope : AuthenticatorScope)
    (assigned : Ipv4Addr) (rotated : bool) (u : nat) (s : MobileIpSession)
    : option (nat * MobileIpSession * MobileIpPacketResult) :=
  if negb (Z.land (flags r) RRQ_FLAG_D =? 0) then
    Some (u, s, MipReply (registration_reply_packet ip port r RRP_CODE_ADMINISTRATIVELY_PROHIBITED (home_address r) scope s))
  else
    let home := if is_unspecified (home_address r) then assigned else home_address r in
    if lifetime_secs r =? MIP_LIFETIME_DEREGISTER then
      let s := set_last_registration None (set_binding None s) in
      '(u, s) ← (if rotated then Some (u, s) else rotate_challenge u s);
      Some (u, s, Deregistered (registration_reply_packet ip port r RRP_CODE_ACCEPTED home scope s))
    else
      let lifetime := Z.min (lifetime_secs r) (registration_lifetime_secs (mip_config s)) in
      let b := mkBinding (nai r) home (selected_home_agent (home_agent r) s) (identification r) lifetime in
      let s := set_binding (Some b) s in
      '(u, s) ← (if rotated then Some (u, s) else rotate_challenge u s);
      let reply := registration_reply_packet ip port r RRP_CODE_ACCEPTED home scope s in
      Some (u, set_last_registration (Some (mkCompleted (wire_data r) b reply)) s, Registered b reply).

(** A request that is not a repetition of the last one accepted. *)
Definition process_request (ip : ParsedIpv4Packet) (port : Z) (r : RegistrationRequest) (assigned : Ipv4Addr)
    (u : nat) (s : MobileIpSession) : option (nat * MobileIpSession * MobileIpPacketResult) :=
  match authenticate_registration_request r s with
  | InfrastructureRequired => Some (u, s, AuthenticationRequired)
  | Rejected code =>
      Some (u, s, MipReply (registration_reply_packet ip port r code (home_address r) WithSpi s))
  | Accepted scope =>
      match mn_fa_challenge r with
      | Some c =>
          '(u, s) ← rotate_challenge u (mark_challenge_used c s);
          complete_registration ip port r scope assigned true u s
      | None => complete_registration ip port r scope assigned false u s
      end
  end.

Definition handle_registration (ip : ParsedIpv4Packet) (port : Z) (r : RegistrationRequest) (assigned : Ipv4Addr)
    (u : nat) (s : MobileIpSession) : option (nat * MobileIpSession * MobileIpPacketResult) :=
  match last_registration s with
  | Some completed =>
      if decide (c_request completed = wire_data r)
      then Some (u, s, Registered (c_binding completed) (c_reply completed))
      else process_request ip port r assigned u s
  | None => process_request ip port r assigned u s
  end.

Definition handle_ipv4_packet (packet : list Z) (assigned_home_address : Ipv4Addr) (u : nat) (s : MobileIpSession)
    : option (nat * MobileIpSession * MobileIpPacketResult) :=
  if negb (mip_enabled (mip_config s)) then Some (u, s, NotMobileIp)
  else
    match parse_ipv4 packet with
    | None => Some (u, s, Ignored)
    | Some ip =>
        if (ip_protocol ip =? IP_PROTO_ICMP) && bool_decide (head (ip_payload ip) = Some ICMP_ROUTER_SOLICITATION) then
          let '(s, reply) := agent_advertisement_packet (reply_address ip) s in Some (u, s, MipReply reply)
        else if negb (ip_protocol ip =? IP_PROTO_UDP) then Some (u, s, NotMobileIp)
        else
          match parse_udp (ip_payload ip) with
          | None => Some (u, s, Ignored)
          | Some udp =>
              if negb (destination_port udp =? UDP_PORT_MOBILE_IP) then Some (u, s, NotMobileIp)
              else
                match parse_registration_request (udp_payload udp) with
                | None => Some (u, s, Ignored)
                | Some r => handle_registration ip (source_port udp) r assigned_home_address u s
                end
          end
    end.
End Keyed.

End Mip.
