(* ===== verification/MobileIpProofs.v ===== *)
(** * Mobile IP: authentication, challenges, and the packets *)
From S2P Require Import Prelude IpcpConfig IpChecksum Text MobileIp.
Import Text Mip.

Ltac bytes_list :=
  unfold bytes; repeat first [apply Forall_nil_2 | apply Forall_cons_2; [first [done | unfold is_u; lia]|]].

(** ** Comparing authenticators *)
Lemma constant_time_eq_true l r : constant_time_eq l r = true ↔ l = r.
Proof.
  assert (∀ l r d, length l = length r →
    foldl (λ d '(l, r), Z.lor d (Z.lxor l r)) d (zip l r) = 0 ↔ d = 0 ∧ l = r) as H.
  { clear. induction l as [|x l IH]; intros [|y r] d Hl; try done; [tauto|]. cbn [zip zip_with foldl].
    rewrite IH by (cbn in Hl; lia). rewrite Z.lor_eq_0_iff, Z.lxor_eq_0_iff. split; [intros [[??] ?]; by subst|].
    intros [-> [= -> ->]]. done. }
  unfold constant_time_eq. case_decide as Hl; [split; [done|]; by intros ->|].
  rewrite Z.eqb_eq, H by done. tauto.
Qed.

(** ** Packets *)
Lemma fill_checksum_spec pre post c1 c2 :
  bytes pre → bytes post → (length pre mod 2 = 0)%nat →
  fill_checksum (pre ++ [c1; c2] ++ post) (length pre)
    = pre ++ to_be16 (inet_checksum (pre ++ [0; 0] ++ post)) ++ post.
Proof.
  intros Hpre Hpost He. unfold fill_checksum.
  assert (∀ a b x y, <[(length pre + 1)%nat := y]> (<[length pre := x]> (pre ++ [a; b] ++ post)) = pre ++ [x; y] ++ post) as HI.
  { intros a b x y. rewrite insert_app_r_alt by lia. rewrite Nat.sub_diag. cbn [app insert list_insert].
    rewrite insert_app_r_alt by lia. replace (length pre + 1 - length pre)%nat with 1%nat by lia. done. }
  rewrite !HI. rewrite mip_checksum_inet; [done|].
  rewrite !bytes_app. repeat split; try done. bytes_list.
Qed.

Definition ip_prefix (n : nat) (protocol ttl : Z) : list Z :=
  [0x45; 0] ++ to_be16 ((Z.of_nat n) as_u16) ++ [0; 0; 0; 0; ttl; protocol].

Lemma build_ipv4_spec src dst proto pl ttl :
  wf_ip src → wf_ip dst → is_u8 proto → is_u8 ttl →
  let pre := ip_prefix (20 + length pl) proto ttl in
  build_ipv4_packet_with_ttl src dst proto pl ttl
  = pre ++ to_be16 (inet_checksum (pre ++ [0; 0] ++ octets src ++ octets dst)) ++ octets src ++ octets dst ++ pl.
Proof.
  intros Hs Hd Hp Ht. cbn zeta. unfold build_ipv4_packet_with_ttl.
  set (n := (20 + length pl)%nat).
  change ([69; 0] ++ to_be16 (Z.of_nat n) as_u16 ++ [0; 0; 0; 0; ttl; proto; 0; 0] ++ octets src ++ octets dst)
    with (ip_prefix n proto ttl ++ [0; 0] ++ octets src ++ octets dst).
  change 10%nat with (length (ip_prefix n proto ttl)). rewrite fill_checksum_spec; [by rewrite <- !(assoc_L (++))| | |done].
  - unfold ip_prefix. rewrite !bytes_app. repeat split; [by apply bytesb_bytes|apply bytes_to_be16, is_u_wrap; lia|].
    bytes_list.
  - by apply bytes_app.
Qed.

Lemma at_app_l l k i : (i < length l)%nat → at_ (l ++ k) i = at_ l i.
Proof. intros. unfold at_. by rewrite lookup_app_l. Qed.

Lemma parse_build_ipv4 src dst proto pl ttl :
  wf_ip src → wf_ip dst → is_u8 proto → is_u8 ttl → Z.of_nat (length pl) ≤ 65515 →
  parse_ipv4 (build_ipv4_packet_with_ttl src dst proto pl ttl) = Some (mkIpv4 src dst proto pl) ∧
  mip_checksum (take 20 (build_ipv4_packet_with_ttl src dst proto pl ttl)) = 0.
Proof.
  intros Hs Hd Hp Ht Hl. rewrite build_ipv4_spec by done. set (pre := ip_prefix _ _ _).
  assert (bytes pre) as Hpre.
  { unfold pre, ip_prefix. rewrite !bytes_app. repeat split; [by apply bytesb_bytes|apply bytes_to_be16, is_u_wrap; lia|].
    bytes_list. }
  set (c := inet_checksum _). split.
  - set (hdr := pre ++ to_be16 c ++ octets src ++ octets dst).
    replace (pre ++ to_be16 c ++ octets src ++ octets dst ++ pl) with (hdr ++ pl) by (unfold hdr; by rewrite <- !(assoc_L (++))).
    assert (length hdr = 20%nat) as HL by reflexivity.
    unfold parse_ipv4. rewrite length_app, HL, decide_False by lia.
    unfold be16_at, ip_at. rewrite !at_app_l by (rewrite HL; lia).
    change (at_ hdr 0) with 0x45. change (negb (Z.shiftr 69 4 =? 4)) with false. cbn match.
    change (Z.to_nat (Z.land 69 15) * 4)%nat with 20%nat. rewrite decide_False by lia.
    assert (from_be16 (at_ hdr 2) (at_ hdr (2 + 1)) = Z.of_nat (20 + length pl)) as ->.
    { unfold hdr, pre, ip_prefix. rewrite wrap_small by (unfold is_u; lia). cbn [at_ lookup list_lookup app to_be16 plus default from_option].
      apply split_u16. unfold is_u. lia. }
    rewrite Nat2Z.id, decide_False by lia. f_equal. f_equal; try (by destruct src); try (by destruct dst).
    replace (20 + length pl - 20)%nat with (length pl) by lia. rewrite <- HL, drop_app_length. by rewrite take_ge.
  - rewrite !(assoc_L (++)). rewrite <- (assoc_L (++) _ (octets src)), <- (assoc_L (++) pre).
    rewrite take_app_length' by reflexivity.
    rewrite mip_checksum_inet.
    + apply inet_checksum_verifies; [done|by apply bytes_app|done].
    + rewrite !bytes_app. repeat split; try done. apply bytes_to_be16, inet_checksum_u16.
      rewrite !bytes_app. repeat split; try done; by apply bytesb_bytes.
Qed.

Definition udp_pseudo (src dst : Ipv4Addr) (udp : list Z) : list Z :=
  octets src ++ octets dst ++ [0; IP_PROTO_UDP] ++ to_be16 ((Z.of_nat (length udp)) as_u16) ++ udp.

Lemma build_udp_spec src dst sp dp pl :
  ∃ c, build_udp_packet_with_ipv4_checksum src dst sp dp pl
       = to_be16 sp ++ to_be16 dp ++ to_be16 ((Z.of_nat (8 + length pl)) as_u16) ++ to_be16 c ++ pl ∧
       c = (let s := mip_checksum (udp_pseudo src dst (build_udp_packet sp dp pl)) in if s =? 0 then 0xFFFF else s).
Proof. eexists. split; [|reflexivity]. reflexivity. Qed.

Lemma udp_verifies pre post :
  bytes pre → bytes post → (length pre mod 2 = 0)%nat →
  let s := inet_checksum (pre ++ [0; 0] ++ post) in
  inet_checksum (pre ++ to_be16 (if s =? 0 then 0xFFFF else s) ++ post) = 0.
Proof.
  intros Hpre Hpost He s. destruct (Z.eqb_spec s 0) as [E|]; [|by apply inet_checksum_verifies].
  unfold s, inet_checksum in *.
  assert (word_sum (pre ++ to_be16 65535 ++ post) = word_sum (pre ++ [0; 0] ++ post) + 65535) as ->.
  { rewrite !(word_sum_app pre) by done. change (to_be16 65535) with [255; 255]. cbn [app word_sum]. unfold from_be16. lia. }
  assert (0 ≤ word_sum (pre ++ [0; 0] ++ post)).
  { apply word_sum_bounds. rewrite !bytes_app. repeat split; try done. by apply bytesb_bytes. }
  rewrite <- ones_sum_add by lia. replace (ones_sum (word_sum (pre ++ [0; 0] ++ post))) with 65535 by lia. reflexivity.
Qed.

Lemma parse_build_udp src dst sp dp pl :
  wf_ip src → wf_ip dst → is_u16 sp → is_u16 dp → bytes pl → Z.of_nat (length pl) ≤ 65507 →
  parse_udp (build_udp_packet_with_ipv4_checksum src dst sp dp pl) = Some (mkUdp sp dp pl) ∧
  mip_checksum (udp_pseudo src dst (build_udp_packet_with_ipv4_checksum src dst sp dp pl)) = 0.
Proof.
  intros Hs Hd Hsp Hdp Hpl Hl. destruct (build_udp_spec src dst sp dp pl) as (c & -> & Hc).
  rewrite wrap_small by (unfold is_u; lia). split.
  - set (hdr := to_be16 sp ++ to_be16 dp ++ to_be16 (Z.of_nat (8 + length pl)) ++ to_be16 c).
    replace (to_be16 sp ++ _) with (hdr ++ pl) by (unfold hdr; by rewrite <- !(assoc_L (++))).
    assert (length hdr = 8%nat) as HL by reflexivity.
    unfold parse_udp. rewrite length_app, HL, decide_False by lia. unfold be16_at. rewrite !at_app_l by (rewrite HL; lia).
    assert (from_be16 (at_ hdr 4) (at_ hdr (4 + 1)) = Z.of_nat (8 + length pl)) as -> by (apply split_u16; unfold is_u; lia).
    rewrite Nat2Z.id, decide_False by lia.
    change (at_ hdr 0) with (sp / 256). change (at_ hdr (0 + 1)) with (sp mod 256).
    change (at_ hdr 2) with (dp / 256). change (at_ hdr (2 + 1)) with (dp mod 256). rewrite !split_u16 by done.
    replace (8 + length pl - 8)%nat with (length pl) by lia. rewrite <- HL, drop_app_length. by rewrite take_ge.
  - set (n := (8 + length pl)%nat) in *.
    set (pre := octets src ++ octets dst ++ [0; IP_PROTO_UDP] ++ to_be16 (Z.of_nat n) ++ to_be16 sp ++ to_be16 dp
                ++ to_be16 (Z.of_nat n)).
    assert (is_u16 (Z.of_nat n)) as Hn by (unfold is_u, n; lia).
    assert (∀ x y, udp_pseudo src dst (to_be16 sp ++ to_be16 dp ++ to_be16 (Z.of_nat n) ++ [x; y] ++ pl) = pre ++ [x; y] ++ pl) as HU.
    { intros x y. unfold udp_pseudo. rewrite !length_app. cbn [length to_be16].
      replace (2 + (2 + (2 + (2 + length pl))))%nat with n by (unfold n; lia). rewrite wrap_small by done. reflexivity. }
    assert (bytes pre) as Hpre.
    { unfold pre. rewrite !bytes_app. repeat split; try done; try (by apply bytes_to_be16). by apply bytesb_bytes. }
    assert (build_udp_packet sp dp pl = to_be16 sp ++ to_be16 dp ++ to_be16 (Z.of_nat n) ++ [0; 0] ++ pl) as EB.
    { unfold build_udp_packet. rewrite wrap_small by done. done. }
    rewrite EB, HU in Hc. cbn zeta in Hc.
    assert (bytes (pre ++ [0; 0] ++ pl)) as H0.
    { rewrite !bytes_app. repeat split; try done. by apply bytesb_bytes. }
    rewrite (mip_checksum_inet _ H0) in Hc.
    assert (HK := inet_checksum_u16 _ H0).
    assert (is_u16 c) as Hcu by (rewrite Hc; destruct (_ =? 0); [unfold is_u; lia|done]).
    change (to_be16 c) with [c / 256; c mod 256]. rewrite HU.
    change [c / 256; c mod 256] with (to_be16 c). rewrite mip_checksum_inet.
    + rewrite Hc. by apply udp_verifies.
    + rewrite !bytes_app. repeat split; try done. by apply bytes_to_be16.
Qed.

(** The IP/UDP packet around a registration message is parsed back to its addresses, ports and
    payload, and both its checksums verify, also when the UDP checksum comes out as zero. *)
Theorem mip_packet_roundtrip src dst sp dp pl :
  wf_ip src → wf_ip dst → is_u16 sp → is_u16 dp → bytes pl → Z.of_nat (length pl) ≤ 65507 →
  let udp := build_udp_packet_with_ipv4_checksum src dst sp dp pl in
  let pkt := build_ipv4_packet src dst IP_PROTO_UDP udp in
  parse_ipv4 pkt = Some (mkIpv4 src dst IP_PROTO_UDP udp) ∧ parse_udp udp = Some (mkUdp sp dp pl) ∧
  mip_checksum (take 20 pkt) = 0 ∧ mip_checksum (udp_pseudo src dst udp) = 0.
Proof.
  intros Hs Hd Hsp Hdp Hpl Hl udp pkt.
  destruct (parse_build_udp src dst sp dp pl) as [H1 H2]; try done.
  destruct (parse_build_ipv4 src dst IP_PROTO_UDP udp 64) as [H3 H4]; try done; try (unfold is_u, IP_PROTO_UDP; lia).
  unfold udp. destruct (build_udp_spec src dst sp dp pl) as (c & -> & _). rewrite !length_app. cbn [length to_be16]. lia.
Qed.

Lemma mip_packet_roundtrip_witness :
  let a := mkIp 10 55 0 1 in let b := mkIp 10 55 0 9 in
  let udp := build_udp_packet_with_ipv4_checksum a b 434 434 [3; 0; 1] in
  let pkt := build_ipv4_packet a b IP_PROTO_UDP udp in
  parse_ipv4 pkt = Some (mkIpv4 a b IP_PROTO_UDP udp) ∧ parse_udp udp = Some (mkUdp 434 434 [3; 0; 1]) ∧
  mip_checksum (take 20 pkt) = 0 ∧ mip_checksum (udp_pseudo a b udp) = 0.
Proof.
  intros a b. apply mip_packet_roundtrip; try (by apply bytesb_bytes); try (unfold is_u; lia). cbn. lia.
Defined.

(** ** Authentication *)
Section Auth.
Context (md5 : list Z → list Z) (draw : nat → list Z).

Lemma head_filter_some {A} (P : A → Prop) `{!∀ x, Decision (P x)} (l : list A) x :
  head (filter P l) = Some x → P x ∧ x ∈ l.
Proof.
  destruct (filter P l) as [|y k] eqn:E; [done|]. cbn. intros [= ->].
  assert (x ∈ filter P l) as Hx by (rewrite E; left). by apply list_elem_of_filter in Hx.
Qed.

Lemma verified_scope_some sec r a sc :
  verified_scope md5 sec r a = Some sc →
  authenticator a = keyed_md5_prefix_suffix md5 (shared_secret sec) (take (protected_len sc (protected_data_len a)) (wire_data r)).
Proof. intros H. apply head_filter_some in H as [H _]. apply constant_time_eq_true in H. done. Qed.

Lemma challenge_status_unused c s : challenge_status c s = Unused → mkIssued c false ∈ issued_challenges s.
Proof.
  unfold challenge_status. destruct (head _) as [i|] eqn:E; [|done]. apply head_filter_some in E as [<- Hi].
  destruct (used i) eqn:Eu; [done|]. intros _. rewrite <- elem_of_reverse. unfold reverse. rewrite <- rev_alt.
  rewrite <- Eu. by destruct i.
Qed.

(** What an accepted request proves. *)
Record authentic (sec : MobileIpSecurityAssociation) (r : RegistrationRequest) (s : MobileIpSession) : Prop := {
  au_mn_ha : ∃ a sc, mn_ha_auth r = Some a ∧ count_ext is_mn_ha r = 1%nat ∧ auth_spi a = spi sec ∧
    length (authenticator a) = MIP_AUTHENTICATOR_LEN ∧
    authenticator a = keyed_md5_prefix_suffix md5 (shared_secret sec)
      (take (protected_len sc (protected_data_len a)) (wire_data r));
  au_challenge : ∃ c, mn_fa_challenge r = Some c ∧ count_ext is_challenge r = 1%nat ∧ mkIssued c false ∈ issued_challenges s;
  au_aaa : count_ext is_mn_aaa r = 1%nat ∧ count_ext is_mn_fa r = 0%nat ∧ allow_unverified_mn_aaa (mip_config s) = true
}.

Lemma count_zero p r : has_ext p r = false → count_ext p r = 0%nat.
Proof.
  unfold has_ext, count_ext. induction (extensions r) as [|e l IH]; [done|]. cbn [existsb]. intros [H1 H2]%orb_false_iff.
  rewrite filter_cons, decide_False by congruence. by apply IH.
Qed.

Lemma authenticate_challenge_accepted scope r s sc :
  authenticate_challenge scope r s = Accepted sc →
  (∃ c, mn_fa_challenge r = Some c ∧ count_ext is_challenge r = 1%nat ∧ mkIssued c false ∈ issued_challenges s) ∧
  count_ext is_mn_aaa r = 1%nat ∧ count_ext is_mn_fa r = 0%nat ∧ allow_unverified_mn_aaa (mip_config s) = true.
Proof.
  unfold authenticate_challenge. destruct (mn_fa_challenge r) as [c|]; [|done].
  destruct (bool_decide (count_ext is_challenge r = 1%nat)) eqn:E1; [|done]. cbn [negb].
  apply bool_decide_eq_true in E1. destruct (challenge_status c s) eqn:E2; [|done..].
  apply challenge_status_unused in E2. destruct (negb (has_ext is_mn_aaa r) && negb (has_ext is_mn_fa r)) eqn:E3; [done|].
  destruct (_ || _); [done|].
  destruct (bool_decide (count_ext is_mn_aaa r + count_ext is_mn_fa r = 1)%nat) eqn:E4; [|done]. cbn [negb].
  apply bool_decide_eq_true in E4. destruct (from_option _ false (mn_aaa_auth r)); [done|].
  destruct (has_ext is_mn_fa r) eqn:E5; [done|]. apply count_zero in E5.
  destruct (has_ext is_mn_aaa r) eqn:E6; [|done]. destruct (allow_unverified_mn_aaa (mip_config s)); [|done].
  intros _. split; [by exists c|]. lia.
Qed.

Lemma authenticate_accepted sec r s sc :
  auth_mode (mip_config s) = MnHa → mn_ha_security (mip_config s) = Some sec →
  authenticate_registration_request md5 r s = Accepted sc → authentic sec r s.
Proof.
  intros Hm Hs. unfold authenticate_registration_request. rewrite Hm, Hs.
  destruct (mn_ha_auth r) as [a|] eqn:Ea; [|done].
  destruct (bool_decide (count_ext is_mn_ha r = 1%nat)) eqn:E1; [|done]. apply bool_decide_eq_true in E1. cbn [negb].
  destruct (Z.eqb_spec (auth_spi a) (spi sec)) as [E2|]; cbn [negb];
    [|destruct (mn_ha_fallback_to_simple_ip (mip_config s)); done].
  destruct (bool_decide (length (authenticator a) = MIP_AUTHENTICATOR_LEN)) eqn:E3; [|done].
  apply bool_decide_eq_true in E3. cbn [negb].
  destruct (verified_scope md5 sec r a) as [scope|] eqn:E4; [|done]. apply verified_scope_some in E4.
  intros H. apply authenticate_challenge_accepted in H as (HC & HA). split; [|done|done].
  exists a, scope. done.
Qed.

(** The registration request a packet carries, and the port it came from. *)
Definition request_of (packet : list Z) : option (ParsedIpv4Packet * Z * RegistrationRequest) :=
  ip ← parse_ipv4 packet;
  if (ip_protocol ip =? IP_PROTO_ICMP) && bool_decide (head (ip_payload ip) = Some ICMP_ROUTER_SOLICITATION) then None
  else if negb (ip_protocol ip =? IP_PROTO_UDP) then None
  else
    udp ← parse_udp (ip_payload ip);
    if negb (destination_port udp =? UDP_PORT_MOBILE_IP) then None
    else r ← parse_registration_request (udp_payload udp); Some (ip, source_port udp, r).

Definition same_challenges (s s' : MobileIpSession) : Prop :=
  mip_config s' = mip_config s ∧ challenge s' = challenge s ∧ issued_challenges s' = issued_challenges s ∧
  binding s' = binding s ∧ last_registration s' = last_registration s.

(** A packet is a registration request, or it leaves registration alone. *)
Lemma handle_cases packet home u s u' s' res :
  handle_ipv4_packet md5 draw packet home u s = Some (u', s', res) →
  (∃ ip port r, mip_enabled (mip_config s) = true ∧ request_of packet = Some (ip, port, r) ∧
     handle_registration md5 draw ip port r home u s = Some (u', s', res)) ∨
  ((if mip_enabled (mip_config s) then request_of packet else None) = None ∧
   u' = u ∧ same_challenges s s' ∧ (res = NotMobileIp ∨ res = Ignored ∨ ∃ p, res = MipReply p)).
Proof.
  unfold handle_ipv4_packet, request_of, same_challenges. intros H.
  destruct (mip_enabled (mip_config s)); cbn [negb] in H; [|right; simplify_eq; eauto 10].
  destruct (parse_ipv4 packet) as [ip|]; [|right; simplify_eq; eauto 10]. rewrite bind_some.
  destruct (_ && _).
  { right. destruct (agent_advertisement_packet (reply_address ip) s) as [s1 p] eqn:E.
    apply (f_equal fst) in E. cbn [fst agent_advertisement_packet] in E. simplify_eq.
    split; [done|]. split; [done|]. split; [done|]. right. right. by exists p. }
  destruct (negb (ip_protocol ip =? IP_PROTO_UDP)); [right; simplify_eq; eauto 10|].
  destruct (parse_udp (ip_payload ip)) as [udp|]; [|right; simplify_eq; eauto 10]. rewrite bind_some.
  destruct (negb (destination_port udp =? UDP_PORT_MOBILE_IP)); [right; simplify_eq; eauto 10|].
  destruct (parse_registration_request (udp_payload udp)) as [r|]; [|right; simplify_eq; eauto 10].
  left. rewrite bind_some. eauto 10.
Qed.

Lemma rotate_keeps u s u' s' : rotate_challenge draw u s = Some (u', s') →
  mip_config s' = mip_config s ∧ binding s' = binding s ∧ last_registration s' = last_registration s.
Proof. unfold rotate_challenge. destruct (draw_challenge _ _ _ _) as [[u2 c2]|]; [|done]. cbn. intros. by simplify_eq. Qed.

(** What a completed request leaves behind. *)
Definition completed (r : RegistrationRequest) (home : Ipv4Addr) (s s' : MobileIpSession) (res : MobileIpPacketResult) : Prop :=
  match res with
  | Registered b _ =>
      b_home_address b = (if is_unspecified (home_address r) then home else home_address r) ∧
      b_lifetime_secs b = Z.min (lifetime_secs r) (registration_lifetime_secs (mip_config s)) ∧
      lifetime_secs r ≠ 0 ∧ b_identification b = identification r ∧ binding s' = Some b
  | Deregistered _ => lifetime_secs r = 0 ∧ binding s' = None ∧ last_registration s' = None
  | _ => binding s' = binding s ∧ last_registration s' = last_registration s
  end.

Lemma complete_completed ip port r scope home rot u s u' s' res :
  complete_registration md5 draw ip port r scope home rot u s = Some (u', s', res) → completed r home s s' res.
Proof.
  unfold complete_registration. destruct (negb _); [intros; by simplify_eq|].
  assert (∀ s0 u1 s1, (if rot then Some (u, s0) else rotate_challenge draw u s0) = Some (u1, s1) →
    mip_config s1 = mip_config s0 ∧ binding s1 = binding s0 ∧ last_registration s1 = last_registration s0) as HK.
  { intros s0 u1 s1. destruct rot; [intros; by simplify_eq|apply rotate_keeps]. }
  destruct (Z.eqb_spec (lifetime_secs r) MIP_LIFETIME_DEREGISTER) as [El|Hn].
  - destruct (if rot then _ else _) as [[u1 s1]|] eqn:E; [|done]. apply HK in E as (_ & Eb & Elr).
    rewrite bind_some. intros. simplify_eq. cbn. by rewrite Eb, Elr.
  - destruct (if rot then _ else _) as [[u1 s1]|] eqn:E; [|done]. apply HK in E as (_ & Eb & _).
    rewrite bind_some. intros. simplify_eq. cbn. by rewrite Eb.
Qed.

Lemma process_authentic ip port r home u s u' s' res sec :
  auth_mode (mip_config s) = MnHa → mn_ha_security (mip_config s) = Some sec →
  process_request md5 draw ip port r home u s = Some (u', s', res) →
  completed r home s s' res ∧ match res with Registered _ _ | Deregistered _ => authentic sec r s | _ => True end.
Proof.
  intros Hm Hsec. unfold process_request.
  destruct (authenticate_registration_request md5 r s) as [sc| |] eqn:EA; [|intros; by simplify_eq..].
  apply (authenticate_accepted sec) in EA; [|done..]. pose proof EA as [_ (c & Ec & _) _]. rewrite Ec.
  destruct (rotate_challenge draw u (mark_challenge_used c s)) as [[u1 s1]|] eqn:ER; [|done]. rewrite bind_some.
  apply rotate_keeps in ER as (E1 & E2 & E3). intros H%complete_completed. split; [|by case_match].
  destruct res; cbn in *; rewrite ?E1, ?E2, ?E3 in H; done.
Qed.
End Auth.

(** C32: with MN-HA authentication configured and a security association, the registration
    state changes only for authentic requests.  A packet is answered as a registration only
    if it repeats the last accepted request, which changes nothing, or if its single MN-HA authenticator is
    the keyed MD5, under the configured secret and SPI, of the octets of the request in front of it, and
    its challenge is one that the agent issued and that no request has used; the binding then gets the requested or the assigned home address and a
    lifetime within the configured one.  A deregistration is accepted only from such a
    request, and every other answer leaves the binding and the last registration as they are. *)
Theorem mip_registered_authentic md5 draw packet home u s u' s' sec res :
  auth_mode (mip_config s) = MnHa → mn_ha_security (mip_config s) = Some sec →
  handle_ipv4_packet md5 draw packet home u s = Some (u', s', res) →
  match res with
  | Registered b reply => ∃ ip port r, request_of packet = Some (ip, port, r) ∧
      ((∃ last, last_registration s = Some last ∧ c_request last = wire_data r ∧ b = c_binding last ∧ reply = c_reply last ∧ s' = s) ∨
       (authentic md5 sec r s ∧
        b_home_address b = (if is_unspecified (home_address r) then home else home_address r) ∧
        b_lifetime_secs b = Z.min (lifetime_secs r) (registration_lifetime_secs (mip_config s)) ∧
        lifetime_secs r ≠ 0 ∧ binding s' = Some b))
  | Deregistered _ => ∃ ip port r, request_of packet = Some (ip, port, r) ∧ authentic md5 sec r s ∧
      lifetime_secs r = 0 ∧ binding s' = None ∧ last_registration s' = None
  | _ => binding s' = binding s ∧ last_registration s' = last_registration s
  end.
Proof.
  intros Hm Hsec H. apply handle_cases in H as [(ip & port & r & _ & HR & H)|(_ & _ & (_ & _ & _ & Hb & Hl) & [->|[->|[p ->]]])]; [|done..].
  unfold handle_registration in H. destruct (last_registration s) as [last|] eqn:EL; [case_decide as EW|].
  { simplify_eq. exists ip, port, r. split; [done|]. left. by exists last. }
  all: apply (process_authentic md5 draw _ _ _ _ _ _ _ _ _ sec Hm Hsec) in H as [HC HA]; destruct res; cbn in HC;
    rewrite ?EL in HC; try tauto; exists ip, port, r; tauto.
Qed.

(** A concrete instance: a hash that adds up its octets, a generator that counts. *)
Definition sum_hash (l : list Z) : list Z := replicate 16 (foldl Z.add 0 l mod 256).
Definition count_draw (n : nat) : list Z := replicate 12 7 ++ to_be32 (Z.of_nat n).
Definition sample_secret : MobileIpSecurityAssociation := mkSecurity 0x100 [1; 2; 3; 4].
Definition sample_mip_config : MobileIpConfig :=
  let a := mkIp 10 55 0 1 in
  mkMobileIpConfig true a a 3 9000 1200 a a MnHa (Some sample_secret) true false.
Definition sample_request (challenge : list Z) (id : Z) : list Z :=
  let fixed := [MIP_RRQ_TYPE; 0] ++ to_be16 1800 ++ [0; 0; 0; 0] ++ [10; 55; 0; 1] ++ [10; 55; 0; 1] ++ to_be64 id in
  let signed := fixed ++ [MIP_MOBILE_HOME_AUTH_EXT; 20] ++ to_be32 0x100 in
  signed ++ keyed_md5_prefix_suffix sum_hash (shared_secret sample_secret) signed
  ++ [MIP_MOBILE_FOREIGN_CHALLENGE_EXT; 16] ++ challenge ++ [MIP_GENERALIZED_AUTH_EXT; 1; 0; 20] ++ to_be32 2 ++ replicate 16 0.
Definition sample_packet (challenge : list Z) (id : Z) : list Z :=
  let a := mkIp 10 55 0 9 in let b := mkIp 10 55 0 1 in
  build_ipv4_packet a b IP_PROTO_UDP (build_udp_packet_with_ipv4_checksum a b 434 434 (sample_request challenge id)).
Definition sample_session : nat * MobileIpSession := default (0%nat, mkMipSession sample_mip_config 0 0 [] [] None None)
  (new count_draw sample_mip_config 0).
Definition sample_home : Ipv4Addr := mkIp 10 55 0 77.

Lemma mip_registered_authentic_witness :
  ∃ u' s' b reply ip port r,
    handle_ipv4_packet sum_hash count_draw (sample_packet (count_draw 0) 5) sample_home sample_session.1 sample_session.2
      = Some (u', s', Registered b reply) ∧
    request_of (sample_packet (count_draw 0) 5) = Some (ip, port, r) ∧
    authentic sum_hash sample_secret r sample_session.2 ∧ b_home_address b = sample_home ∧ b_lifetime_secs b = 1200.
Proof.
  destruct (handle_ipv4_packet sum_hash count_draw (sample_packet (count_draw 0) 5) sample_home sample_session.1 sample_session.2)
    as [[[u' s'] [| | | | |b reply]]|] eqn:E; try (vm_compute in E; discriminate).
  destruct (mip_registered_authentic sum_hash count_draw (sample_packet (count_draw 0) 5) sample_home sample_session.1
    sample_session.2 u' s' sample_secret (Registered b reply) eq_refl eq_refl E) as (ip & port & r & HR & [HL|HA]).
  - destruct HL as (last & HL & _). vm_compute in HL. discriminate.
  - exists u', s', b, reply, ip, port, r. destruct HA as (HA & Hh & Hl & _).
    split; [reflexivity|]. split; [exact HR|]. split; [exact HA|]. rewrite Hh, Hl. vm_compute in HR.
    injection HR as <- <- <-. vm_compute. split; reflexivity.
Defined.

(** ** Challenges are used once *)
(** Any three UUIDs in a row are distinct. *)
Definition fresh_draws (draw : nat → list Z) : Prop := ∀ u, NoDup [draw u; draw (S u); draw (S (S u))].
Lemma inj_fresh (draw : nat → list Z) : (∀ i j, draw i = draw j → i = j) → fresh_draws draw.
Proof.
  intros Hi u. assert (draw u ≠ draw (S u) ∧ draw u ≠ draw (S (S u)) ∧ draw (S u) ≠ draw (S (S u))) as (? & ? & ?).
  { repeat split; intros E%Hi; lia. }
  rewrite !NoDup_cons, !not_elem_of_cons. repeat split; auto using not_elem_of_nil, NoDup_nil_2.
Qed.

Lemma value_mark_last c l : value <$> mark_last c l = value <$> l.
Proof.
  induction l as [|i l IH]; [done|]. cbn [mark_last]. case_decide; [by rewrite !fmap_cons, IH|]. by case_decide.
Qed.

Section Totality.
Context (md5 : list Z → list Z) (draw : nat → list Z) (Hfresh : fresh_draws draw).

(** Three draws are enough for a window of two. *)
Lemma draw_challenge_total issued u :
  (length issued ≤ MIP_CHALLENGE_WINDOW)%nat → ∃ u' c, draw_challenge draw CHALLENGE_DRAWS issued u = Some (u', c).
Proof.
  intros HL. unfold CHALLENGE_DRAWS. cbn [draw_challenge].
  do 3 (case_decide; [|by eexists _, _]). exfalso.
  pose proof (Hfresh u) as HN.
  assert (length [draw u; draw (S u); draw (S (S u))] ≤ length issued)%nat as H'; [|cbn in H'; unfold MIP_CHALLENGE_WINDOW in HL; lia].
  apply NoDup_incl_length; [by apply NoDup_ListNoDup|].
  intros x Hx. apply list_elem_of_In. apply list_elem_of_In in Hx.
  rewrite !elem_of_cons, elem_of_nil in Hx. by destruct Hx as [->|[->|[->|[]]]].
Qed.

Lemma rotate_total u s :
  (length (issued_challenges s) ≤ MIP_CHALLENGE_WINDOW)%nat → is_Some (rotate_challenge draw u s).
Proof.
  intros HL. unfold rotate_challenge. destruct (draw_challenge_total (value <$> issued_challenges s) u) as (u' & c & ->);
    [by rewrite length_fmap|]. rewrite bind_some. eauto.
Qed.

Lemma complete_total ip port r scope home rot u s :
  (length (issued_challenges s) ≤ MIP_CHALLENGE_WINDOW)%nat →
  is_Some (complete_registration md5 draw ip port r scope home rot u s).
Proof.
  intros HL. unfold complete_registration. destruct (negb _); [eauto|].
  destruct (lifetime_secs r =? MIP_LIFETIME_DEREGISTER); (destruct rot; [rewrite bind_some; eauto|]).
  - destruct (rotate_total u (set_last_registration None (set_binding None s))) as [[u1 s1] ->]; [done|].
    rewrite bind_some. eauto.
  - set (b := mkBinding _ _ _ _ _). destruct (rotate_total u (set_binding (Some b) s)) as [[u1 s1] ->]; [done|].
    rewrite bind_some. eauto.
Qed.

Lemma process_total ip port r home u s :
  (length (issued_challenges s) ≤ MIP_CHALLENGE_WINDOW)%nat → is_Some (process_request md5 draw ip port r home u s).
Proof.
  intros HL. unfold process_request. destruct (authenticate_registration_request md5 r s); [|eauto..].
  destruct (mn_fa_challenge r) as [c|]; [|by apply complete_total].
  assert (length (issued_challenges (mark_challenge_used c s)) = length (issued_challenges s)) as EM.
  { cbn. by rewrite <- (length_fmap value), value_mark_last, length_fmap. }
  destruct (rotate_total u (mark_challenge_used c s)) as [[u1 s1] ER]; [by rewrite EM|]. rewrite ER, bind_some.
  apply complete_total. unfold rotate_challenge in ER. destruct (draw_challenge _ _ _ _) as [[u2 c2]|]; [|done].
  rewrite bind_some in ER. simplify_eq. cbn [issued_challenges issue_challenge]. rewrite length_app. cbn [length].
  case_decide as Hd; [rewrite length_drop|]; rewrite EM in *; unfold MIP_CHALLENGE_WINDOW in *; lia.
Qed.

Lemma handle_total packet home u s :
  (length (issued_challenges s) ≤ MIP_CHALLENGE_WINDOW)%nat → is_Some (handle_ipv4_packet md5 draw packet home u s).
Proof.
  intros HL. unfold handle_ipv4_packet. destruct (negb _); [eauto|]. destruct (parse_ipv4 packet); [|eauto].
  destruct (_ && _); [destruct (agent_advertisement_packet _ s); eauto|]. destruct (negb _); [eauto|].
  destruct (parse_udp _); [|eauto]. destruct (negb _); [eauto|].
  destruct (parse_registration_request _); [|eauto]. unfold handle_registration.
  destruct (last_registration s); [case_decide; [eauto|]|]; by apply process_total.
Qed.
End Totality.

Section Challenges.
Context (md5 : list Z → list Z) (draw : nat → list Z).
(** UUIDs do not repeat. *)
Context (draw_inj : ∀ i j, draw i = draw j → i = j).

(** What holds of the window of issued challenges after [u] draws, with the challenges [acc] accepted so far. *)
Record window (u : nat) (acc : list (list Z)) (s : MobileIpSession) : Prop := {
  w_length : (length (issued_challenges s) ≤ MIP_CHALLENGE_WINDOW)%nat;
  w_drawn : Forall (λ i, ∃ k, (k < u)%nat ∧ value i = draw k) (issued_challenges s);
  w_distinct : NoDup (value <$> issued_challenges s);
  w_accepted : Forall (λ c, ∃ k, (k < u)%nat ∧ c = (draw k)) acc;
  w_unused : ∀ i, i ∈ issued_challenges s → used i = false → value i ∉ acc;
  w_once : NoDup acc
}.

Lemma draw_challenge_fresh fuel issued u u' c :
  draw_challenge draw fuel issued u = Some (u', c) → (c ∉ issued) ∧ (u < u')%nat ∧ c = draw (u' - 1).
Proof.
  revert u. induction fuel as [|fuel IH]; intros u; [done|]. cbn [draw_challenge].
  case_decide as H; [intros E; apply IH in E; intuition lia|]. intros [= <- <-].
  split; [done|]. split; [lia|]. f_equal. lia.
Qed.

Lemma rotate_window u acc s u' s' :
  window u acc s → rotate_challenge draw u s = Some (u', s') →
  window u' acc s' ∧ mip_config s' = mip_config s ∧ (u < u')%nat.
Proof.
  intros [HL HD HN HA HU HO] H. unfold rotate_challenge in H.
  destruct (draw_challenge _ _ _ _) as [[u1 c]|] eqn:E; [|done]. cbn in H. simplify_eq.
  apply draw_challenge_fresh in E as (HF & Hlt & Hc). split; [|done].
  set (kept := if decide (length (issued_challenges s) = MIP_CHALLENGE_WINDOW) then drop 1 (issued_challenges s)
               else issued_challenges s).
  assert (kept ⊆ issued_challenges s) as HK by (unfold kept; case_decide; [apply subseteq_drop|done]).
  assert (length kept ≤ 1)%nat as HK1.
  { unfold kept. case_decide as Hd; [rewrite length_drop; unfold MIP_CHALLENGE_WINDOW in *; lia|].
    unfold MIP_CHALLENGE_WINDOW in *. lia. }
  change (issued_challenges (issue_challenge c s)) with (kept ++ [mkIssued c false]).
  split; change (issued_challenges (issue_challenge c s)) with (kept ++ [mkIssued c false]).
  - rewrite length_app. cbn. unfold MIP_CHALLENGE_WINDOW. lia.
  - rewrite Forall_forall in HD |- *. intros i [Hi|Hi]%elem_of_app.
    + destruct (HD i (HK i Hi)) as (k & Hk & ->). exists k. split; [lia|done].
    + apply list_elem_of_singleton in Hi as ->. exists (u' - 1)%nat. split; [lia|done].
  - rewrite fmap_app. apply NoDup_app. split; [|split].
    + unfold kept. case_decide; [|done]. rewrite fmap_drop. by eapply sublist_NoDup; [|apply sublist_drop].
    + intros x Hx Hx'. apply list_elem_of_fmap in Hx as (i & -> & Hi). apply list_elem_of_singleton in Hx'. cbn in Hx'.
      apply HF. rewrite <- Hx'. by apply list_elem_of_fmap_2, HK.
    + apply NoDup_singleton.
  - eapply Forall_impl; [exact HA|]. intros x (k & Hk & ->). exists k. split; [lia|done].
  - intros i [Hi|Hi]%elem_of_app Hu; [by apply HU; [apply HK|]|]. apply list_elem_of_singleton in Hi as ->.
    cbn. intros Hin. rewrite Forall_forall in HA. destruct (HA c Hin) as (k & Hk & Ek). rewrite Hc in Ek.
    apply draw_inj in Ek. lia.
  - done.
Qed.


Lemma mark_last_unused c l i :
  NoDup (value <$> l) → i ∈ mark_last c l → used i = false → i ∈ l ∧ value i ≠ c.
Proof.
  induction l as [|j l IH]; [intros _ H; by apply elem_of_nil in H|]. rewrite fmap_cons. intros [Hj Hl]%NoDup_cons. cbn [mark_last].
  case_decide as H1; [|case_decide as H2].
  - intros [->|Hi]%elem_of_cons Hu.
    + split; [left|]. intros E. apply Hj. by rewrite E.
    + destruct (IH Hl Hi Hu). split; [by right|done].
  - intros [->|Hi]%elem_of_cons Hu; [done|]. split; [by right|]. intros E. apply H1. rewrite <- E.
    by apply list_elem_of_fmap_2.
  - intros [->|Hi]%elem_of_cons Hu; [split; [left|done]|]. split; [by right|]. intros E. apply H1. rewrite <- E.
    by apply list_elem_of_fmap_2.
Qed.

(** Accepting a request that carries an unused challenge. *)
Lemma mark_window u acc s c :
  window u acc s → mkIssued c false ∈ issued_challenges s → window u (acc ++ [c]) (mark_challenge_used c s).
Proof.
  intros [HL HD HN HA HU HO] Hc.
  assert (∃ k, (k < u)%nat ∧ c = draw k) as Hk.
  { rewrite Forall_forall in HD. destruct (HD _ Hc) as (k & ? & E). by exists k. }
  assert (c ∉ acc) as Hnew by exact (HU _ Hc eq_refl).
  split; cbn [issued_challenges mark_challenge_used].
  - rewrite <- (length_fmap value), value_mark_last, length_fmap. done.
  - rewrite Forall_forall in HD |- *. intros i Hi.
    assert (value i ∈ (value <$> issued_challenges s)) as Hv by (rewrite <- (value_mark_last c); by apply list_elem_of_fmap_2).
    apply list_elem_of_fmap in Hv as (j & -> & Hj). by apply HD.
  - by rewrite value_mark_last.
  - apply Forall_app. split; [done|]. by constructor.
  - intros i Hi Hu. apply mark_last_unused in Hi as [Hi Hv]; [|done..].
    rewrite elem_of_app, list_elem_of_singleton. intros [Ha|Ha]; [by apply (HU i)|done].
  - apply NoDup_app. split; [done|]. split; [|apply NoDup_singleton].
    intros x Hx ->%list_elem_of_singleton. done.
Qed.

(** The challenge with which a packet's request is accepted, if it is. *)
Definition accepted_by (packet : list Z) (s : MobileIpSession) : option (list Z) :=
  '(_, _, r) ← (if mip_enabled (mip_config s) then request_of packet else None);
  if decide (c_request <$> last_registration s = Some (wire_data r)) then None
  else match authenticate_registration_request md5 r s with Accepted _ => mn_fa_challenge r | _ => None end.

Lemma window_issued u acc s s' :
  issued_challenges s' = issued_challenges s → window u acc s → window u acc s'.
Proof. intros E []. split; rewrite ?E; done. Qed.

(** A session over time: the packets it handles, advertisements, and resets. *)
Inductive session_run (config : MobileIpConfig) : nat → MobileIpSession → list (list Z) → Prop :=
| run_new u0 u s : new draw config u0 = Some (u, s) → session_run config u s []
| run_packet u s acc packet home u' s' res :
    session_run config u s acc → handle_ipv4_packet md5 draw packet home u s = Some (u', s', res) →
    session_run config u' s' (acc ++ option_list (accepted_by packet s))
| run_advertise u s acc s' adv :
    session_run config u s acc → next_unsolicited_advertisement s = (s', adv) → session_run config u s' acc
| run_reset u s acc u' s' :
    session_run config u s acc → reset draw config u = Some (u', s') → session_run config u' s' acc.

Lemma new_window config u acc u' s :
  Forall (λ c, ∃ k, (k < u)%nat ∧ c = (draw k)) acc → NoDup acc →
  new draw config u = Some (u', s) → window u' acc s ∧ mip_config s = config.
Proof.
  intros HA HO H. destruct (rotate_window u acc (mkMipSession config 0 0 [] [] None None) u' s) as (HW & HC & _); [|done|done].
  split; cbn [issued_challenges]; [cbn; lia|apply Forall_nil_2|apply NoDup_nil_2|done| |done].
  intros i Hi. by apply elem_of_nil in Hi.
Qed.

Lemma complete_window ip port r scope home rot u acc s u' s' res :
  window u acc s → complete_registration md5 draw ip port r scope home rot u s = Some (u', s', res) →
  window u' acc s' ∧ mip_config s' = mip_config s.
Proof.
  intros HW. unfold complete_registration. destruct (negb _); [intros; by simplify_eq|].
  destruct (lifetime_secs r =? MIP_LIFETIME_DEREGISTER).
  - set (s1 := set_last_registration None (set_binding None s)).
    assert (window u acc s1) as HW1 by (by apply (window_issued u acc s)). destruct rot; [rewrite bind_some; intros; by simplify_eq|].
    destruct (rotate_challenge draw u s1) as [[u2 s2]|] eqn:E; [|done].
    apply (rotate_window u acc) in E as (? & E2 & _); [|done]. rewrite bind_some. intros; by simplify_eq.
  - set (b := mkBinding _ _ _ _ _).
    assert (window u acc (set_binding (Some b) s)) as HW1 by (by apply (window_issued u acc s)).
    destruct rot; [rewrite bind_some; intros; simplify_eq; split; [by apply (window_issued u' acc s)|done]|].
    destruct (rotate_challenge draw u (set_binding (Some b) s)) as [[u2 s2]|] eqn:E; [|done].
    apply (rotate_window u acc) in E as (HW2 & E2 & _); [|done]. rewrite bind_some. intros; simplify_eq.
    split; [by apply (window_issued u' acc s2)|done].
Qed.

Lemma process_window ip port r home u acc s u' s' res sec :
  auth_mode (mip_config s) = MnHa → mn_ha_security (mip_config s) = Some sec → window u acc s →
  process_request md5 draw ip port r home u s = Some (u', s', res) →
  mip_config s' = mip_config s ∧
  window u' (acc ++ option_list (match authenticate_registration_request md5 r s with Accepted _ => mn_fa_challenge r | _ => None end)) s'.
Proof.
  intros Hm Hsec HW H. unfold process_request in H.
  destruct (authenticate_registration_request md5 r s) as [sc| |code] eqn:EA;
    [|cbn; rewrite app_nil_r; by simplify_eq..].
  apply (authenticate_accepted md5 sec) in EA; [|done..]. destruct EA as [_ (c & Ec & _ & Hi) _]. rewrite Ec in H |- *.
  destruct (rotate_challenge draw u (mark_challenge_used c s)) as [[u1 s1]|] eqn:ER; [|done]. cbn in H.
  apply (rotate_window u (acc ++ [c])) in ER as (HW1 & E1 & _); [|by apply mark_window].
  apply (complete_window _ _ _ _ _ _ _ (acc ++ [c])) in H as [HW2 E2]; [|done]. cbn [option_list]. split; [|done].
  rewrite E2, E1. done.
Qed.

Lemma run_window config sec u s acc :
  auth_mode config = MnHa → mn_ha_security config = Some sec →
  session_run config u s acc → window u acc s ∧ mip_config s = config.
Proof.
  intros Hm Hsec. induction 1 as [u0 u s H|u s acc packet home u' s' res _ [HW HC] H|u s acc s' adv _ [HW HC] H|u s acc u' s' _ [HW HC] H].
  - by apply (new_window config u0 []) in H; [|apply Forall_nil_2|apply NoDup_nil_2].
  - apply handle_cases in H as HH. subst config. unfold accepted_by.
    destruct HH as [(ip & port & r & Hen & HR & HH)|(HN & -> & HS & Hres)].
    + rewrite Hen, HR, bind_some. unfold handle_registration in HH.
      destruct (last_registration s) as [l|] eqn:EL.
      * cbn [fmap option_fmap option_map]. case_decide as E1; case_decide as E2; try congruence.
        -- simplify_eq. cbn. by rewrite app_nil_r.
        -- apply (process_window _ _ _ _ _ acc _ _ _ _ sec) in HH as [? ?]; done.
      * rewrite decide_False by done. apply (process_window _ _ _ _ _ acc _ _ _ _ sec) in HH as [? ?]; done.
    + rewrite HN. cbn. rewrite app_nil_r. destruct HS as (EC & _ & EI & _). split; [by eapply window_issued|done].
  - unfold next_unsolicited_advertisement in H. destruct (_ || _); [by simplify_eq|].
    cbn in H. simplify_eq. split; [by apply (window_issued u acc s)|done].
  - destruct HW as [_ _ _ HA _ HO]. by apply (new_window config u acc) in H.
Qed.

End Challenges.

(** C31: over any life of a session with MN-HA authentication and a security association — packets,
    advertisements, resets — no challenge is accepted twice, so a captured registration cannot be
    replayed (the octets of the last accepted request, which get the same reply again and change
    nothing, apart); and every packet is answered: the loop that
    looks for a new challenge ends within three draws.  Without authentication ([Insecure]) the agent
    does not ask for a challenge. *)
Theorem mip_challenge_once md5 draw config sec u s acc :
  (∀ i j, draw i = draw j → i = j) → auth_mode config = MnHa → mn_ha_security config = Some sec →
  session_run md5 draw config u s acc →
  NoDup acc ∧ ∀ packet home, is_Some (handle_ipv4_packet md5 draw packet home u s).
Proof.
  intros Hd Hm Hs Hr. destruct (run_window md5 draw Hd config sec u s acc Hm Hs Hr) as [[HL _ _ _ _ HO] _].
  split; [done|]. intros. apply handle_total; [by apply inj_fresh|done].
Qed.

Lemma count_draw_inj i j : count_draw i = count_draw j → i = j.
Proof.
  intros H. apply (inj (app (replicate 12 7))) in H. unfold to_be32 in H.
  apply (f_equal (λ l, match l with [a; b; c; d] => from_be32 a b c d | _ => 0 end)) in H.
  rewrite (from_be32_to_be32 (Z.of_nat i)), (from_be32_to_be32 (Z.of_nat j)) in H by done. lia.
Qed.
(** The sample registration, and its replay with another identification. *)
Lemma mip_challenge_once_witness :
  ∃ u s acc, session_run sum_hash count_draw sample_mip_config u s acc ∧ acc = [count_draw 0] ∧ NoDup acc.
Proof.
  destruct (new count_draw sample_mip_config 0) as [[u0 s0]|] eqn:E0; [|discriminate].
  destruct (handle_ipv4_packet sum_hash count_draw (sample_packet (count_draw 0) 5) sample_home u0 s0) as [[[u1 s1] r1]|] eqn:E1.
  2: { vm_compute in E0. injection E0 as <- <-. vm_compute in E1. discriminate. }
  assert (session_run sum_hash count_draw sample_mip_config u1 s1
    ([] ++ option_list (accepted_by sum_hash (sample_packet (count_draw 0) 5) s0))) as HR.
  { eapply run_packet; [eapply run_new; exact E0|exact E1]. }
  exists u1, s1, ([] ++ option_list (accepted_by sum_hash (sample_packet (count_draw 0) 5) s0)).
  split; [exact HR|]. split.
  - vm_compute in E0. injection E0 as <- <-. vm_compute. reflexivity.
  - exact (proj1 (mip_challenge_once sum_hash count_draw sample_mip_config sample_secret u1 s1 _
      count_draw_inj eq_refl eq_refl HR)).
Defined.

(** ** Replies can be verified *)
Lemma parse_plain_extension fuel t v rest off :
  t ≠ 0 → t ≠ MIP_GENERALIZED_AUTH_EXT → (length v ≤ 255)%nat →
  parse_extensions_fuel (S fuel) ([t; (Z.of_nat (length v)) as_u8] ++ v ++ rest) off =
    exts ← parse_extensions_fuel fuel rest (off + 2 + length v);
    Some (plain_extension t v (off + 2) :: exts).
Proof.
  intros H0 H36 HL. rewrite wrap_small by (unfold is_u; lia). cbn [app parse_extensions_fuel].
  rewrite (proj2 (Z.eqb_neq t 0)), (proj2 (Z.eqb_neq t MIP_GENERALIZED_AUTH_EXT)) by done.
  rewrite Nat2Z.id, length_app, decide_False by lia. by rewrite take_app_length, drop_app_length.
Qed.

Definition mn_ha_of (exts : list MobileIpExtension) : option MobileIpAuthentication :=
  head (omap (λ e, match e with MobileHomeAuth a => Some a | _ => None end) exts).

Lemma parse_signed_tail fuel md5 sec pre off sc ch :
  (∀ l, length (md5 l) = 16%nat) → is_u32 (spi sec) → (length ch ≤ 255)%nat → off = length pre →
  let signed := pre ++ [MIP_MOBILE_HOME_AUTH_EXT; MIP_AUTH_EXTENSION_VALUE_LEN] ++ to_be32 (spi sec) in
  let auth := keyed_md5_prefix_suffix md5 (shared_secret sec) (take (protected_len sc (length signed)) signed) in
  parse_extensions_fuel (S (S (S fuel)))
    ([MIP_MOBILE_HOME_AUTH_EXT; MIP_AUTH_EXTENSION_VALUE_LEN] ++ to_be32 (spi sec) ++ auth
     ++ [MIP_MOBILE_FOREIGN_CHALLENGE_EXT; (Z.of_nat (length ch)) as_u8] ++ ch) off
  = Some [MobileHomeAuth (mkAuth (spi sec) auth (length signed)); MnFaChallenge ch].
Proof.
  intros Hmd Hspi Hch -> signed auth.
  assert (length (to_be32 (spi sec) ++ auth) = 20%nat) as HL by (rewrite length_app; unfold auth, keyed_md5_prefix_suffix; by rewrite Hmd).
  rewrite (assoc_L (++) (to_be32 (spi sec))).
  change [MIP_MOBILE_HOME_AUTH_EXT; MIP_AUTH_EXTENSION_VALUE_LEN]
    with [MIP_MOBILE_HOME_AUTH_EXT; (Z.of_nat 20) as_u8]. rewrite <- HL at 1.
  rewrite parse_plain_extension by (done || rewrite ?HL; lia).
  rewrite <- (app_nil_r ch) at 2. rewrite parse_plain_extension by done. cbn [parse_extensions_fuel mbind option_bind].
  unfold plain_extension. change (MIP_MOBILE_HOME_AUTH_EXT =? MIP_MOBILE_FOREIGN_CHALLENGE_EXT) with false.
  change (MIP_MOBILE_HOME_AUTH_EXT =? MIP_MOBILE_HOME_AUTH_EXT) with true.
  change (MIP_MOBILE_FOREIGN_CHALLENGE_EXT =? MIP_MOBILE_FOREIGN_CHALLENGE_EXT) with true. cbn match.
  unfold parse_authentication. rewrite HL, decide_False by (unfold AUTH_EXTENSION_SPI_LEN; lia). cbn [from_option].
  do 2 f_equal. f_equal. f_equal.
  - unfold be32_at. cbn [at_ to_be32 app lookup list_lookup plus default from_option]. by apply from_be32_to_be32.
  - unfold signed, AUTH_EXTENSION_SPI_LEN. rewrite !length_app. cbn [length to_be32]. lia.
Qed.

(** A registration reply of an agent with a security association carries one MN-HA authenticator with
    the association's SPI that verifies over the reply in the scope of the request, and the challenge
    the next registration has to use. *)
Theorem mip_reply_verifies md5 r code home scope s sec :
  (∀ l, length (md5 l) = 16%nat) → mn_ha_security (mip_config s) = Some sec → is_u32 (spi sec) →
  (length (challenge s) ≤ 255)%nat → (∀ n, mn_nai r = Some n → (length n ≤ 255)%nat) →
  let body := registration_reply_body md5 r code home scope s in
  ∃ exts a, parse_extensions body 20 = Some exts ∧ mn_ha_of exts = Some a ∧ last exts = Some (MnFaChallenge (challenge s)) ∧
    auth_spi a = spi sec ∧ length (authenticator a) = MIP_AUTHENTICATOR_LEN ∧
    authenticator a = keyed_md5_prefix_suffix md5 (shared_secret sec)
      (take (protected_len scope (protected_data_len a)) body).
Proof.
  intros Hmd Hsec Hspi Hch Hnai body. unfold body, registration_reply_body. rewrite Hsec.
  set (acc := _ || _). set (lt := if acc then _ else _).
  set (fixed := [MIP_RRP_TYPE; code] ++ to_be16 lt ++ octets home ++ octets (selected_home_agent (home_agent r) s)
    ++ to_be64 (identification r)).
  set (nai_ext := from_option _ [] (mn_nai r)). set (dns := if acc && _ then _ else []).
  replace ([MIP_RRP_TYPE; code] ++ _) with (fixed ++ nai_ext ++ dns) by (unfold fixed; by rewrite <- !(assoc_L (++))).
  set (pre := fixed ++ nai_ext ++ dns).
  set (signed := pre ++ [MIP_MOBILE_HOME_AUTH_EXT; MIP_AUTH_EXTENSION_VALUE_LEN] ++ to_be32 (spi sec)).
  set (auth := keyed_md5_prefix_suffix md5 (shared_secret sec) (take (protected_len scope (length signed)) signed)).
  set (tl := [MIP_MOBILE_FOREIGN_CHALLENGE_EXT; (Z.of_nat (length (challenge s))) as_u8] ++ challenge s).
  assert (length fixed = 20%nat) as HF by reflexivity.
  set (bd := (signed ++ auth) ++ tl).
  assert (bd = fixed ++ nai_ext ++ dns ++ ([MIP_MOBILE_HOME_AUTH_EXT; MIP_AUTH_EXTENSION_VALUE_LEN] ++ to_be32 (spi sec)
    ++ auth ++ tl)) as EB by (unfold bd, signed, pre; by rewrite <- !(assoc_L (++))).
  set (exts := (from_option (λ n, [MnNai n]) [] (mn_nai r)) ++ (if decide (dns = []) then [] else [UnknownExtension 134 None (drop 2 dns)])
     ++ [MobileHomeAuth (mkAuth (spi sec) auth (length signed)); MnFaChallenge (challenge s)]).
  assert (∀ fuel off, off = length pre → parse_extensions_fuel (S (S (S fuel)))
      ([MIP_MOBILE_HOME_AUTH_EXT; MIP_AUTH_EXTENSION_VALUE_LEN] ++ to_be32 (spi sec) ++ auth ++ tl) off
      = Some [MobileHomeAuth (mkAuth (spi sec) auth (length signed)); MnFaChallenge (challenge s)]) as HT
    by (intros; by apply parse_signed_tail).
  assert (length pre = 20 + length nai_ext + length dns)%nat as HP by (unfold pre; rewrite !length_app, HF; lia).
  assert (parse_extensions bd 20 = Some exts) as EP.
  { unfold parse_extensions. rewrite EB at 2. rewrite drop_app_length' by done.
    assert (∃ f, length bd = S (S (S (S (S f))))) as [f ->].
    { exists (length bd - 5)%nat. rewrite EB, !length_app, HF. lia. }
    assert (∀ off f, off = (20 + length nai_ext)%nat → parse_extensions_fuel (S (S (S (S f))))
      (dns ++ [MIP_MOBILE_HOME_AUTH_EXT; MIP_AUTH_EXTENSION_VALUE_LEN] ++ to_be32 (spi sec) ++ auth ++ tl) off
      = Some ((if decide (dns = []) then [] else [UnknownExtension 134 None (drop 2 dns)])
         ++ [MobileHomeAuth (mkAuth (spi sec) auth (length signed)); MnFaChallenge (challenge s)])) as HD.
    { clear EB bd exts. clearbody auth signed tl pre. intros off f' ->. unfold dns in *. destruct (acc && _) eqn:EA.
      - set (v := drop 2 (append_3gpp2_dns_nvse (mip_primary_dns (mip_config s)) (mip_secondary_dns (mip_config s)))).
        change (append_3gpp2_dns_nvse (mip_primary_dns (mip_config s)) (mip_secondary_dns (mip_config s)))
          with ([134; (Z.of_nat (length v)) as_u8] ++ v). rewrite <- (assoc_L (++)).
        rewrite parse_plain_extension by (done || cbn; lia).
        rewrite HT; [done|]. rewrite HP. cbn. lia.
      - apply (HT (S f')). rewrite HP. cbn. lia. }
    unfold exts, nai_ext. destruct (mn_nai r) as [n|] eqn:EN; cbn [from_option].
    - rewrite <- (assoc_L (++)). rewrite parse_plain_extension by (done || by apply Hnai).
      rewrite HD; [done|]. unfold nai_ext. cbn. lia.
    - cbn [app]. apply HD. unfold nai_ext. cbn. lia. }
  exists exts, (mkAuth (spi sec) auth (length signed)). split; [exact EP|].
  split; [|split; [|split; [done|split]]].
  - unfold exts, mn_ha_of. rewrite !omap_app. destruct (mn_nai r); cbn [from_option]; by case_decide.
  - unfold exts. rewrite (assoc_L (++)), last_app. done.
  - apply Hmd.
  - cbn [authenticator protected_data_len]. unfold auth at 1. f_equal. unfold bd. rewrite <- (assoc_L (++)).
    rewrite take_app_le; [done|]. destruct scope; cbn; lia.
Qed.

Definition sample_rrq : RegistrationRequest :=
  mkRrq 0 1800 UNSPECIFIED (mkIp 10 55 0 1) (mkIp 10 55 0 1) 5 [MnNai [97; 64; 98]] [].
Lemma mip_reply_verifies_witness :
  ∃ exts a, parse_extensions (registration_reply_body sum_hash sample_rrq RRP_CODE_ACCEPTED sample_home WithoutSpi sample_session.2) 20
      = Some exts ∧ mn_ha_of exts = Some a ∧ auth_spi a = 0x100.
Proof.
  destruct (mip_reply_verifies sum_hash sample_rrq RRP_CODE_ACCEPTED sample_home WithoutSpi sample_session.2 sample_secret)
    as (exts & a & H1 & H2 & _ & H4 & _).
  - intros l. apply length_replicate.
  - reflexivity.
  - unfold is_u. cbn. lia.
  - vm_compute. lia.
  - intros n [= <-]. cbn. lia.
  - exists exts, a. split; [exact H1|]. split; [exact H2|exact H4].
Defined.
