(* ===== verification/EngineParts.v ===== *)
(** * What the session's invariant needs of its parts

    Facts about the deframer, Van Jacobson compression, IPCP and Mobile IP as the
    session uses them: octets stay octets, each direction of the compression
    leaves the other alone, IPCP keeps its configuration, the challenge window keeps
    its size. *)
From S2P Require Import Prelude Framing FramingProofs IpcpConfig Vj VjHeader VjProofs VjLink ControlPacket Ipcp.
From S2P Require Import IpcpProofs MobileIp MobileIpProofs.

(** ** The deframer *)
Lemma unescape_bytes raw out : bytes raw → unescape raw = Some out → bytes out.
Proof.
  revert out. induction raw as [raw IH] using (induction_ltof1 _ length). unfold ltof in IH.
  intros out Hb Hu. destruct raw as [|b raw]; [by injection Hu as <-|]. inversion Hb as [|?? Hb0 Hb']; subst.
  cbn [unescape] in Hu. destruct (b =? ESCAPE).
  - destruct raw as [|c raw]; [done|]. inversion Hb' as [|?? Hc Hb'']; subst.
    apply bind_Some in Hu as (o & Hu & [= <-]). constructor.
    + apply is_u_lxor; [lia|done|unfold is_u; lia].
    + apply (IH raw); [cbn; lia|done|done].
  - apply bind_Some in Hu as (o & Hu & [= <-]). constructor; [done|]. by apply (IH raw); [cbn; lia| |].
Qed.

Lemma parse_frame_bytes raw ppp : bytes raw → parse_frame raw = Some ppp → bytes (payload ppp).
Proof.
  intros Hb Hp. unfold parse_frame in Hp. case_decide; [done|].
  apply bind_Some in Hp as (u & Hu & Hp). apply (unescape_bytes _ _ Hb) in Hu as Hub.
  case_decide; [done|]. destruct (negb _); [done|].
  match type of Hp with match ?x with _ => _ end = _ => set (pl := x) in Hp end. assert (bytes pl) as Hpl.
  { subst pl. destruct u as [|a [|c u]]; [apply Forall_nil_2..|].
    destruct (_ && _); [apply Forall_take, Forall_drop|apply Forall_take]; done. }
  destruct pl as [|p0 info]; [done|]. inversion Hpl as [|?? _ Hinfo]; subst.
  destruct (negb _); [by injection Hp as <-|]. destruct info as [|p1 info]; [done|].
  injection Hp as <-. by inversion Hinfo.
Qed.

Lemma feed_round_bytes buf buf' raw : bytes buf → feed_round buf = (buf', raw) →
  bytes buf' ∧ ∀ r, raw = Some r → bytes r.
Proof.
  intros Hb. unfold feed_round. destruct (position _ buf) as [start|]; [|intros [= <- <-]; split; [apply Forall_nil_2|done]].
  assert (bytes (drop start buf)) as Hd by by apply Forall_drop.
  destruct (position _ (drop start buf)) as [fs|]; [|by intros [= <- <-]].
  destruct (position _ (drop fs _)) as [pos|]; [|by intros [= <- <-]]. intros [= <- <-].
  split; [by apply Forall_drop|]. intros r [= <-]. by apply Forall_take, Forall_drop.
Qed.

Lemma feed_bytes buf d buf' ppps : bytes buf → bytes d → feed buf d = (buf', ppps) →
  bytes buf' ∧ Forall (λ ppp, bytes (payload ppp)) ppps.
Proof.
  intros Hbuf Hd. assert (bytes (buf ++ d)) as Hb by by apply bytes_app. clear Hbuf Hd. unfold feed. cbv zeta.
  generalize (S (length (buf ++ d))) as fuel. revert Hb. generalize (buf ++ d) as b. intros b Hb fuel.
  revert b Hb buf' ppps. induction fuel as [|fuel IH]; intros b Hb buf' ppps; cbn [feed_loop]; [intros [= <- <-]; split; [done|apply Forall_nil_2]|].
  destruct (feed_round b) as [b1 [raw|]] eqn:Er; destruct (feed_round_bytes _ _ _ Hb Er) as [Hb1 Hr];
    [|intros [= <- <-]; split; [done|apply Forall_nil_2]].
  destruct (feed_loop fuel b1) as [b2 ps] eqn:El. intros [= <- <-].
  destruct (IH b1 Hb1 b2 ps El) as [Hb2 Hps]. split; [done|]. apply Forall_app. split; [|done].
  destruct (parse_frame raw) as [ppp|] eqn:Ep; [|by apply Forall_nil_2].
  apply Forall_singleton. by apply (parse_frame_bytes raw); [apply Hr|].
Qed.

(** ** Van Jacobson compression *)
Definition rx_side (s : VjState) := (rx_options s, rx_states s, last_recv s, toss s).
Definition tx_side (s : VjState) := (tx_options s, tx_states s, tx_lru s, last_xmit s).

Lemma store_tx_rx slot p s s' : store_tx slot p s = Some s' → rx_side s' = rx_side s.
Proof.
  unfold store_tx. intros H. apply bind_Some in H as (h & _ & H). apply bind_Some in H as (st & _ & H).
  by injection H as <-.
Qed.
Lemma uncompressed_rx slot p s s' ppp : uncompressed_tcp_packet slot p s = Some (s', ppp) → rx_side s' = rx_side s.
Proof.
  unfold uncompressed_tcp_packet. intros H. apply bind_Some in H as (x & _ & H). apply bind_Some in H as (y & _ & H).
  by injection H as <- <-.
Qed.
Lemma store_uncompressed_rx slot p s s' ppp :
  (s1 ← store_tx slot p s; uncompressed_tcp_packet slot p s1) = Some (s', ppp) → rx_side s' = rx_side s.
Proof.
  intros H. apply bind_Some in H as (s1 & E%store_tx_rx & H%uncompressed_rx). by rewrite H.
Qed.

Lemma compress_rx pkt s s' ppp : compress_ip_packet pkt s = Some (s', ppp) → rx_side s' = rx_side s.
Proof.
  unfold compress_ip_packet. destruct (tx_options s) as [o|]; [|by intros [= <- <-]]. intros H.
  apply bind_Some in H as ([p|] & _ & H); [|by injection H as <- <-].
  apply bind_Some in H as (ok & _ & H). destruct (negb ok); [by injection H as <- <-|].
  unfold compress_tcp in H. apply bind_Some in H as ([slot|] & _ & H).
  - apply bind_Some in H as (st & _ & H). apply bind_Some in H as (h & _ & H). apply bind_Some in H as ([c|] & _ & H).
    + apply bind_Some in H as ([s1 c1] & E1 & H). apply bind_Some in H as (s2 & E%store_tx_rx & H).
      injection H as <- <-. rewrite E. destruct (_ || _); [|by injection E1 as <- <-].
      destruct (payload c); [done|]. by injection E1 as <- <-.
    + by apply store_uncompressed_rx in H.
  - unfold allocate_tx_slot in H. destruct (last (tx_lru s)); [|by injection H as <- <-].
    by apply store_uncompressed_rx in H.
Qed.

Lemma fail_toss_tx e s s' r : fail_toss e s = Some (s', r) → tx_side s' = tx_side s.
Proof. by intros [= <- <-]. Qed.
Ltac tossed H := first [by injection H as <- <- | by eapply fail_toss_tx in H].

Lemma decompress_slot_tx changes payload c s s' r : decompress_slot changes payload c s = Some (s', r) → tx_side s' = tx_side s.
Proof.
  unfold decompress_slot. intros H. destruct (last_recv s); [|tossed H].
  apply bind_Some in H as ([l|] & _ & H); [|tossed H]. case_decide; [tossed H|].
  apply bind_Some in H as (ck & _ & H). apply bind_Some in H as ([[l' d]|] & _ & H); [|tossed H].
  apply bind_Some in H as (x & _ & H). tossed H.
Qed.

Lemma decompress_tx proto payload s s' r : decompress_packet proto payload s = Some (s', r) → tx_side s' = tx_side s.
Proof.
  unfold decompress_packet. intros H. destruct (_ =? _); [tossed H|]. destruct (_ =? _).
  - unfold decompress_uncompressed_tcp in H. destruct (rx_options s); [|tossed H].
    destruct (payload !! 9%nat); [|tossed H]. destruct (_ <? _); [tossed H|].
    apply bind_Some in H as (x & _ & H). apply bind_Some in H as ([p|] & _ & H); [|tossed H].
    apply bind_Some in H as (y & _ & H). apply bind_Some in H as (st & _ & H). tossed H.
  - destruct (_ =? _); [|tossed H]. unfold decompress_compressed_tcp in H. destruct (rx_options s); [|tossed H].
    destruct (read_u8 payload 0) as [[changes c]|]; [|tossed H]. destruct (negb _).
    + destruct (read_u8 payload c) as [[slot c']|]; [|tossed H]. destruct (_ <? _); [tossed H|].
      by apply decompress_slot_tx in H.
    + destruct (toss s); [tossed H|]. by apply decompress_slot_tx in H.
Qed.

(** Both directions in order. *)
Definition vj_ok (s : VjState) : Prop := (∀ o, tx_options s = Some o → tx_inv o s) ∧ rx_inv s.

Lemma rx_inv_side s s' : rx_side s' = rx_side s → rx_inv s → rx_inv s'.
Proof. intros [= E1 E2 E3 _] [H1 H2 H3]. split; rewrite ?E1, ?E2, ?E3; auto. Qed.
Lemma tx_inv_side o s s' : tx_side s' = tx_side s → tx_inv o s → tx_inv o s'.
Proof. intros [= E1 E2 E3 _] [H1 H2 H3 H4]. split; rewrite ?E1, ?E2, ?E3; auto. Qed.

Lemma vj_ok_configure tx rx s : vj_ok (configure tx rx s).
Proof.
  split; [|apply rx_inv_configure]. intros o Ho. cbn in Ho. subst tx. apply (synced_configure o rx None s s).
Qed.
Lemma vj_ok_default : vj_ok VjState_default.
Proof. split; [done|]. split; done. Qed.

Lemma compress_total pkt s : bytes pkt → vj_ok s → ∃ s' ppp, compress_ip_packet pkt s = Some (s', ppp) ∧ vj_ok s'.
Proof.
  intros Hb [Htx Hrx]. destruct (tx_options s) as [o|] eqn:Eo.
  - destruct (compress_spec o pkt s Hb (Htx o eq_refl)) as (s' & ppp & E & Hs & _). exists s', ppp. split; [done|].
    split; [|by apply (rx_inv_side s); [apply compress_rx in E|]]. intros o' Eo'.
    assert (o' = o) as -> by (rewrite (tx_opts o s' Hs) in Eo'; congruence). done.
  - unfold compress_ip_packet. rewrite Eo. eexists _, _. split; [done|]. split; [by rewrite Eo|done].
Qed.

Lemma decompress_ok proto payload s : bytes payload → vj_ok s →
  ∃ s' r, decompress_packet proto payload s = Some (s', r) ∧ vj_ok s'.
Proof.
  intros Hb [Htx Hrx]. destruct (decompress_total proto payload s Hb Hrx) as (s' & r & E & H'). exists s', r.
  split; [done|]. split; [|done]. apply decompress_tx in E. intros o Ho. apply (tx_inv_side o s); [done|].
  apply Htx. unfold tx_side in E. congruence.
Qed.

(** ** IPCP keeps its configuration *)
Lemma ipcp_config_adopt opts s : Ipcp.config (foldl Ipcp.adopt_nak s opts) = Ipcp.config s.
Proof. pose proof (adopt_nak_view opts s) as E. unfold view in E. congruence. Qed.
Lemma ipcp_config_drop opts s : Ipcp.config (foldl Ipcp.drop_rejected s opts) = Ipcp.config s.
Proof. pose proof (drop_rejected_view opts s) as E. unfold view in E. congruence. Qed.
Lemma ipcp_config_send d s : Ipcp.config (Ipcp.send_configure_request d s).1 = Ipcp.config s.
Proof. done. Qed.
Lemma ipcp_config_answer p s : Ipcp.config (Ipcp.answer_request p s).1 = Ipcp.config s.
Proof. unfold Ipcp.answer_request. cbv zeta. by repeat case_match. Qed.

Lemma ipcp_config_request p s : Ipcp.config (Ipcp.receive_configure_request p s).1 = Ipcp.config s.
Proof.
  unfold Ipcp.receive_configure_request. destruct (_ && _); [done|]. destruct (bool_decide _).
  - destruct (Ipcp.start _) as [s1 req] eqn:Es. apply (f_equal (λ x, Ipcp.config x.1)) in Es. cbn [fst] in Es.
    unfold Ipcp.start in Es. rewrite ipcp_config_send in Es. pose proof (ipcp_config_answer p s1) as Ea.
    destruct (Ipcp.answer_request p s1). cbn [fst] in *. by rewrite Ea, <- Es.
  - pose proof (ipcp_config_answer p s) as Ea. by destruct (Ipcp.answer_request p s).
Qed.

Lemma ipcp_config_receive ppp s : Ipcp.config (Ipcp.receive ppp s).1 = Ipcp.config s.
Proof.
  unfold Ipcp.receive. destruct (parse_packet (payload ppp)) as [p|]; [|done]. cbv zeta.
  destruct (_ =? _); [apply ipcp_config_request|]. destruct (_ =? _).
  { unfold Ipcp.receive_configure_ack. by destruct (_ || _). }
  destruct (_ =? _).
  { unfold Ipcp.receive_configure_nak. destruct (negb _); [done|]. cbv zeta. apply ipcp_config_adopt. }
  destruct (_ =? _).
  { unfold Ipcp.receive_configure_reject. destruct (negb _); [done|]. cbv zeta. apply ipcp_config_drop. }
  by repeat (destruct (_ =? _); [done|]).
Qed.

Lemma ipcp_config_retransmit s : Ipcp.config (Ipcp.maybe_retransmit_configure_request s).1 = Ipcp.config s.
Proof.
  unfold Ipcp.maybe_retransmit_configure_request. destruct (_ || _); [done|]. destruct (Ipcp.last_request_id s); [|done].
  destruct (_ <? _); [done|]. cbv zeta. by destruct (_ <? _).
Qed.

(** ** Mobile IP *)
Section Window.
Context (md5 : list Z → list Z) (draw : nat → list Z).
Definition window_ok (s : Mip.MobileIpSession) : Prop := (length (Mip.issued_challenges s) ≤ Mip.MIP_CHALLENGE_WINDOW)%nat.

Lemma rotate_window_ok u s u' s' : window_ok s → Mip.rotate_challenge draw u s = Some (u', s') →
  window_ok s' ∧ Mip.mip_config s' = Mip.mip_config s.
Proof.
  unfold window_ok, Mip.rotate_challenge. intros HL H. apply bind_Some in H as ([u1 c] & _ & H). injection H as <- <-.
  split; [|done]. cbn [Mip.issued_challenges Mip.issue_challenge]. rewrite length_app. cbn [length].
  case_decide; [rewrite length_drop|]; unfold Mip.MIP_CHALLENGE_WINDOW in *; lia.
Qed.

Lemma new_window_ok c u u' s : Mip.new draw c u = Some (u', s) → window_ok s ∧ Mip.mip_config s = c.
Proof. intros H. apply rotate_window_ok in H; [done|]. unfold window_ok. cbn. lia. Qed.

Lemma mip_new_total c u : fresh_draws draw → is_Some (Mip.new draw c u).
Proof. intros Hinj. apply rotate_total; [done|]. cbn. lia. Qed.

Lemma complete_window_ok ip port r scope home rot u s u' s' res : window_ok s →
  Mip.complete_registration md5 draw ip port r scope home rot u s = Some (u', s', res) →
  window_ok s' ∧ Mip.mip_config s' = Mip.mip_config s.
Proof.
  intros HL. unfold Mip.complete_registration. destruct (negb _); [by intros [= <- <- <-]|].
  destruct (_ =? _); (destruct rot; [rewrite bind_some; by intros [= <- <- <-]|]); intros H;
    apply bind_Some in H as ([u1 s1] & E & H); injection H as <- <- <-; by apply (rotate_window_ok u _ u1 s1) in E.
Qed.

Lemma process_window_ok ip port r home u s u' s' res : window_ok s →
  Mip.process_request md5 draw ip port r home u s = Some (u', s', res) →
  window_ok s' ∧ Mip.mip_config s' = Mip.mip_config s.
Proof.
  intros HL. unfold Mip.process_request. destruct (Mip.authenticate_registration_request md5 r s);
    [|by intros [= <- <- <-]..]. destruct (Mip.mn_fa_challenge r) as [c|]; [|by apply complete_window_ok].
  intros H. apply bind_Some in H as ([u1 s1] & E & H). apply rotate_window_ok in E as [HL1 E1].
  - apply complete_window_ok in H as [? E2]; [|done]. split; [done|]. by rewrite E2, E1.
  - unfold window_ok. cbn. by rewrite <- (length_fmap Mip.value), value_mark_last, length_fmap.
Qed.

Lemma handle_window_ok packet home u s u' s' res : window_ok s →
  Mip.handle_ipv4_packet md5 draw packet home u s = Some (u', s', res) →
  window_ok s' ∧ Mip.mip_config s' = Mip.mip_config s.
Proof.
  intros HL H. apply handle_cases in H as [(ip & port & r & _ & _ & H)|(_ & _ & (E1 & _ & E2 & _) & _)];
    [|unfold window_ok; by rewrite E2].
  unfold Mip.handle_registration in H. destruct (Mip.last_registration s) as [c|]; [|by apply process_window_ok in H].
  case_decide; [by injection H as <- <- <-|]. by apply process_window_ok in H.
Qed.

Lemma advertisement_window s : window_ok (Mip.next_unsolicited_advertisement s).1 ↔ window_ok s.
Proof. unfold Mip.next_unsolicited_advertisement. by destruct (_ || _). Qed.
Lemma advertisement_config s : Mip.mip_config (Mip.next_unsolicited_advertisement s).1 = Mip.mip_config s.
Proof. unfold Mip.next_unsolicited_advertisement. by destruct (_ || _). Qed.
End Window.
