(* ===== verification/RlpBackend.v ===== *)
(** * The bearers of a packet session ([engine.rs], [trait RlpBackend] and its implementations)

    The trait is a class; its instances are the A8/A10 byte stream, the HRPD
    default packet application, RLP type 1 and RLP type 2.  The strings and rates a
    backend keeps for the telemetry screen only are left out.  [SteadyBackend] is what
    the session's invariant asks of a bearer, [TotalBackend] what it takes not to panic;
    [BackendProofs] and [Rlp3Backend] have the instances. *)
From S2P Require Import Prelude BitString Rlp RlpSession Rlp2Frames Rlp2Session.

Class RlpBackend (B : Type) := {
  receive_frame_bits : list Z → Z → B → rust (B * option (list Z));
  enqueue_data : list Z → B → B;
  next_frame_bits : bool → B → rust (B * (list Z * Z));
  next_full_frame_bits : bool → B → rust (B * (list Z * Z));
  max_downlink_frames_per_tick : B → nat;
  next_sch_frame_bits : nat → Z → B → rust (B * option (list Z * Z));
  is_data_transfer : B → bool;
  tx_queue_len : B → nat
}.

(** What every bearer keeps: what is handed up comes from a bearer in data transfer, or from
    one that was [awaiting] retransmissions when the frame arrived; only a frame makes a bearer
    await some, and it is in data transfer while it does. *)
Class SteadyBackend (B : Type) `{RlpBackend B} := {
  steady : B → Prop;
  awaiting : B → Prop;
  awaiting_up b : steady b → awaiting b → is_data_transfer b = true;
  receive_steady bits rate b b' d : steady b → receive_frame_bits bits rate b = Some (b', d) →
    steady b' ∧ (d ≠ None → is_data_transfer b' = true ∨ awaiting b);
  enqueue_steady d b : steady b → steady (enqueue_data d b) ∧ (awaiting (enqueue_data d b) → awaiting b);
  next_steady allow b b' f : steady b → next_frame_bits allow b = Some (b', f) → steady b' ∧ (awaiting b' → awaiting b);
  next_full_steady allow b b' f : steady b → next_full_frame_bits allow b = Some (b', f) → steady b' ∧ (awaiting b' → awaiting b);
  sch_steady n rate b b' f : steady b → next_sch_frame_bits n rate b = Some (b', f) → steady b' ∧ (awaiting b' → awaiting b)
}.

(** What a session that must not panic asks of a bearer: it never panics on the frames of
    [frame_ok], and it hands up octets. *)
Class TotalBackend (B : Type) `{RlpBackend B} := {
  bearer_ok : B → Prop;
  frame_ok : list Z → Z → Prop;
  erasure_ok : frame_ok [] 0;
  receive_total bits rate b : bearer_ok b → frame_ok bits rate →
    ∃ b' d, receive_frame_bits bits rate b = Some (b', d) ∧ bearer_ok b' ∧ bytes (default [] d);
  enqueue_total d b : bearer_ok b → bearer_ok (enqueue_data d b);
  next_total allow b : bearer_ok b → ∃ b' f, next_frame_bits allow b = Some (b', f) ∧ bearer_ok b';
  next_full_total allow b : bearer_ok b → ∃ b' f, next_full_frame_bits allow b = Some (b', f) ∧ bearer_ok b';
  sch_total n rate b : bearer_ok b → ∃ b' f, next_sch_frame_bits n rate b = Some (b', f) ∧ bearer_ok b'
}.

(** No promise: for what holds of a bearer that may panic. *)
Program Definition no_promise (B : Type) `{RlpBackend B} : TotalBackend B :=
  {| bearer_ok _ := False; frame_ok _ _ := True |}.
Solve Obligations with done.

(** What the downlink asks of a bearer of octets: frames go out as long as octets are queued,
    and what the receiver makes of a frame is the front of the queue. *)
Class OctetBearer (B : Type) `{RlpBackend B} := {
  queued : B → list Z;
  queued_enqueue d b : queued (enqueue_data d b) = queued b ++ d;
  receive_empty b : receive_frame_bits [] 0 b = Some (b, None);
  next_empty b : queued b = [] → next_frame_bits true b = Some (b, ([], 0));
  next_octets b : queued b ≠ [] → bytes (queued b) →
    ∃ b' bits d, next_frame_bits true b = Some (b', (bits, 0)) ∧ bits ≠ [] ∧ d ≠ [] ∧ queued b = d ++ queued b' ∧
      ∀ peer, ∃ peer', receive_frame_bits bits 0 peer = Some (peer', Some d)
}.

(** The default body of [next_sch_frame_bits]: no supplemental channel. *)
Definition no_sch {B} (_ : nat) (_ : Z) (b : B) : rust (B * option (list Z * Z)) := Some (b, None).

(** ** The A8/A10 unstructured byte stream *)
Module A10.
Definition MAX_OCTETS : nat := 1024.
Definition MAX_CHUNKS_PER_TICK : nat := 16.
Record UnstructuredByteStreamBackend := mkA10 { tx_queue : list Z }.

Definition new : UnstructuredByteStreamBackend := mkA10 [].
Definition receive (octets : list Z) (_ : Z) (b : UnstructuredByteStreamBackend)
    : rust (UnstructuredByteStreamBackend * option (list Z)) :=
  Some (b, if decide (octets = []) then None else Some octets).
Definition enqueue (data : list Z) (b : UnstructuredByteStreamBackend) : UnstructuredByteStreamBackend :=
  mkA10 (tx_queue b ++ data).
Definition next (allow_payload : bool) (b : UnstructuredByteStreamBackend)
    : rust (UnstructuredByteStreamBackend * (list Z * Z)) :=
  if negb allow_payload || bool_decide (tx_queue b = []) then Some (b, ([], 0))
  else
    let n := Nat.min (length (tx_queue b)) MAX_OCTETS in
    Some (mkA10 (drop n (tx_queue b)), (take n (tx_queue b), 0)).
Definition next_full (allow_payload : bool) (b : UnstructuredByteStreamBackend)
    : rust (UnstructuredByteStreamBackend * (list Z * Z)) :=
  if negb allow_payload || bool_decide (length (tx_queue b) < MAX_OCTETS)%nat then Some (b, ([], 0))
  else next allow_payload b.
End A10.

#[export] Instance a10_backend : RlpBackend A10.UnstructuredByteStreamBackend := {
  receive_frame_bits := A10.receive;
  enqueue_data := A10.enqueue;
  next_frame_bits := A10.next;
  next_full_frame_bits := A10.next_full;
  max_downlink_frames_per_tick _ := A10.MAX_CHUNKS_PER_TICK;
  next_sch_frame_bits := no_sch;
  is_data_transfer _ := true;
  tx_queue_len b := length (A10.tx_queue b)
}.

(** ** The HRPD default packet application *)
Module Hrpd.
Definition MAX_OCTETS : nat := 121.
Definition SEQUENCE_BITS : nat := 22.
Record HrpdDefaultPacketBackend := mkHrpd { tx_queue : list Z; tx_seq : Z; rx_last_seq : option Z }.

Definition new : HrpdDefaultPacketBackend := mkHrpd [] 0 None.
(** [cdma_common::hrpd::traffic]: the sequence number and the octets, as bits. *)
Definition default_packet_rlp_packet_bits (seq : Z) (octets : list Z) : list Z :=
  to_bits SEQUENCE_BITS (Z.land seq (Z.ones 22)) ++ octet_bits octets.
(** An octet of the packet: the fold over its bits in [u8]. *)
Definition pack_octet (bits : list Z) : Z := foldl (λ acc b, Z.lor (wrap 8 (Z.shiftl acc 1)) (Z.land b 1)) 0 bits.
Definition receive (bits : list Z) (_ : Z) (b : HrpdDefaultPacketBackend)
    : rust (HrpdDefaultPacketBackend * option (list Z)) :=
  if bool_decide (length bits < SEQUENCE_BITS)%nat
     || negb (bool_decide ((length bits - SEQUENCE_BITS) mod 8 = 0)%nat) then Some (b, None)
  else
    let seq := of_bits (take SEQUENCE_BITS bits) in
    let octets := pack_octet <$> chunks 8 (drop SEQUENCE_BITS bits) in
    Some (mkHrpd (tx_queue b) (tx_seq b) (Some seq), if decide (octets = []) then None else Some octets).
Definition enqueue (data : list Z) (b : HrpdDefaultPacketBackend) : HrpdDefaultPacketBackend :=
  mkHrpd (tx_queue b ++ data) (tx_seq b) (rx_last_seq b).
Definition next (allow_payload : bool) (b : HrpdDefaultPacketBackend)
    : rust (HrpdDefaultPacketBackend * (list Z * Z)) :=
  if negb allow_payload || bool_decide (tx_queue b = []) then Some (b, ([], 0))
  else
    let n := Nat.min (length (tx_queue b)) MAX_OCTETS in
    let bits := default_packet_rlp_packet_bits (tx_seq b) (take n (tx_queue b)) in
    Some (mkHrpd (drop n (tx_queue b)) (Z.land (wrap 32 (tx_seq b + 1)) (Z.ones 22)) (rx_last_seq b), (bits, 0)).
End Hrpd.

#[export] Instance hrpd_backend : RlpBackend Hrpd.HrpdDefaultPacketBackend := {
  receive_frame_bits := Hrpd.receive;
  enqueue_data := Hrpd.enqueue;
  next_frame_bits := Hrpd.next;
  next_full_frame_bits := Hrpd.next;
  max_downlink_frames_per_tick _ := 1%nat;
  next_sch_frame_bits := no_sch;
  is_data_transfer _ := true;
  tx_queue_len b := length (Hrpd.tx_queue b)
}.

(** ** RLP type 1 *)
Module Rlp1.
Record Rlp1Backend := mkRlp1 { session : RlpSession; mux_option : RlpMuxOption }.
Definition new (mux : RlpMuxOption) : Rlp1Backend := mkRlp1 RlpSession.new mux.
Definition receive (bits : list Z) (rate_bps : Z) (b : Rlp1Backend) : rust (Rlp1Backend * option (list Z)) :=
  decoded ← match rate_from_bps (mux_option b) rate_bps with
            | Some rate => decode_frame_for_mux bits rate (mux_option b)
            | None => Some None
            end;
  let '(s, delivery) := receive_frame decoded (session b) in
  Some (mkRlp1 s (mux_option b), delivery).
Definition enqueue (data : list Z) (b : Rlp1Backend) : Rlp1Backend :=
  mkRlp1 (RlpSession.enqueue_data data (session b)) (mux_option b).
(** [Result::expect] panics on an error. *)
Definition expect {E A} (r : rust (result E A)) : rust A :=
  r ≫= λ r, match r with Ok a => Some a | Err _ => panic! end.
Definition next (_ : bool) (b : Rlp1Backend) : rust (Rlp1Backend * (list Z * Z)) :=
  let mux := mux_option b in
  let '(s, out) := next_frame_for_mux mux (session b) in
  let '(frame, rate) :=
    match out with
    | SendFrame frame => (frame, if is_idle frame then Eighth else Full)
    | Nothing => (idle_frame 0, Eighth)
    end in
  bits ← expect (encode_frame_for_mux frame rate mux);
  Some (mkRlp1 s mux, (bits, rate_bps mux rate)).
End Rlp1.

#[export] Instance rlp1_backend : RlpBackend Rlp1.Rlp1Backend := {
  receive_frame_bits := Rlp1.receive;
  enqueue_data := Rlp1.enqueue;
  next_frame_bits := Rlp1.next;
  next_full_frame_bits := Rlp1.next;
  max_downlink_frames_per_tick _ := 1%nat;
  next_sch_frame_bits := no_sch;
  is_data_transfer b := bool_decide (RlpSession.state (Rlp1.session b) = DataTransfer);
  tx_queue_len b := length (RlpSession.tx_queue (Rlp1.session b))
}.

(** ** RLP type 2 *)
Module Rlp2B.
Import Rlp2 Session2.
Record Rlp2Backend := mkRlp2 { session : Rlp2Session }.
Definition new : Rlp2Backend := mkRlp2 Session2.new.
Definition receive (bits : list Z) (rate_bps : Z) (b : Rlp2Backend) : rust (Rlp2Backend * option (list Z)) :=
  decoded ← match rate_from_bps Two rate_bps with
            | Some rate => Rlp2.decode_frame_for_mux bits rate Two
            | None => Some None
            end;
  let '(s, delivery) := Session2.receive_frame decoded (session b) in
  Some (mkRlp2 s, delivery).
Definition enqueue (data : list Z) (b : Rlp2Backend) : Rlp2Backend := mkRlp2 (Session2.enqueue_data data (session b)).
Definition next (_ : bool) (b : Rlp2Backend) : rust (Rlp2Backend * (list Z * Z)) :=
  let '(s, (frame, rate)) := Session2.next_frame (session b) in
  bits ← Rlp1.expect (Rlp2.encode_frame_for_mux frame rate Two);
  Some (mkRlp2 s, (bits, rate_bps Two rate)).
End Rlp2B.

#[export] Instance rlp2_backend : RlpBackend Rlp2B.Rlp2Backend := {
  receive_frame_bits := Rlp2B.receive;
  enqueue_data := Rlp2B.enqueue;
  next_frame_bits := Rlp2B.next;
  next_full_frame_bits := Rlp2B.next;
  max_downlink_frames_per_tick _ := 1%nat;
  next_sch_frame_bits := no_sch;
  is_data_transfer b := match Session2.state (Rlp2B.session b) with Session2.DataTransfer => true | _ => false end;
  tx_queue_len b := length (Session2.tx_queue (Rlp2B.session b))
}.
