(* ===== verification/CrcBits.v ===== *)
(** * The air-interface CRCs ([cdma-common/src/crc.rs])

    Seven shift-register CRCs over a vector with one bit per element, most significant
    coefficient first.  They differ in width, polynomial, the initial register (all ones) and a
    final complement; the code writes the loop out seven times.  The algebra of the loop is
    proved once: it is linear for exclusive or, appending the CRC leaves the zero register, and
    a burst of errors no longer than the register always changes the CRC. *)
From S2P Require Import Prelude BitString.

(** [feedback = ((register >> (w - 1)) & 1) ^ (bit & 1); register = (register << 1) & mask;
    if feedback == 1 { register ^= poly }] *)
Definition crc_step (w poly register bit : Z) : Z :=
  let feedback := Z.lxor (Z.land (Z.shiftr register (w - 1)) 1) (Z.land bit 1) in
  let register := Z.land (Z.shiftl register 1) (Z.ones w) in
  if feedback =? 1 then Z.lxor register poly else register.
Definition crc_run (w poly : Z) (register : Z) (data : list Z) : Z := foldl (crc_step w poly) register data.

Definition crc6 (data : list Z) : Z := crc_run 6 0x27 0x3F data.
Definition crc6_rc2 (data : list Z) : Z := crc_run 6 0x07 0x3F data.
Definition crc8 (data : list Z) : Z := crc_run 8 0x9B 0xFF data.
Definition crc10 (data : list Z) : Z := crc_run 10 0x3D9 0x3FF data.
Definition crc12 (data : list Z) : Z := crc_run 12 0x0F13 0x0FFF data.
Definition crc16_ccitt (data : list Z) : Z := Z.lxor (crc_run 16 0x1021 0xFFFF data) 0xFFFF.
Definition crc16_sch (data : list Z) : Z := crc_run 16 0xC867 0xFFFF data.

(** The values the tests of [crc.rs] pin. *)
Example crc16_sch_one_bit : crc16_sch [1] = 0xFFFE. Proof. reflexivity. Qed.
Example crc16_sch_empty : crc16_sch [] = 0xFFFF. Proof. reflexivity. Qed.

(** ** Algebra of the register *)
Section Register.
Context (w poly : Z).
Hypothesis Hw : 1 ≤ w.
Hypothesis Hpoly : is_u w poly.

Lemma crc_step_u r b : is_u w r → is_u w (crc_step w poly r b).
Proof.
  intros Hr. unfold crc_step.
  assert (is_u w (Z.land (Z.shiftl r 1) (Z.ones w))) as H.
  { rewrite Z.land_ones by lia. unfold is_u. apply Z.mod_pos_bound. lia. }
  destruct (_ =? _); [by apply is_u_lxor; [lia|..]|done].
Qed.

Lemma crc_run_u data : ∀ r, is_u w r → is_u w (crc_run w poly r data).
Proof. induction data as [|b data IH]; intros r Hr; [done|]. by apply IH, crc_step_u. Qed.

(** The feedback bit, as a boolean. *)
Definition top (r : Z) : bool := Z.testbit r (w - 1).

Lemma feedback_bit r b : is_u 1 b →
  (Z.lxor (Z.land (Z.shiftr r (w - 1)) 1) (Z.land b 1) =? 1) = xorb (top r) (b =? 1).
Proof.
  intros Hb. unfold top. rewrite land_1, <- Z.bit0_mod, Z.shiftr_spec, Z.add_0_l by lia.
  assert (b = 0 ∨ b = 1) as [->| ->] by (unfold is_u in Hb; lia); by destruct (Z.testbit r (w - 1)).
Qed.

Lemma crc_step_xorb r b : is_u 1 b →
  crc_step w poly r b = Z.lxor (Z.land (Z.shiftl r 1) (Z.ones w)) (if xorb (top r) (b =? 1) then poly else 0).
Proof. intros Hb. unfold crc_step. rewrite feedback_bit by done. destruct (xorb _ _); [done|by rewrite Z.lxor_0_r]. Qed.

Lemma crc_step_linear r r' b b' : is_u 1 b → is_u 1 b' →
  crc_step w poly (Z.lxor r r') (Z.lxor b b') = Z.lxor (crc_step w poly r b) (crc_step w poly r' b').
Proof.
  intros Hb Hb'. rewrite !crc_step_xorb by (done || by apply is_u_lxor).
  assert ((Z.lxor b b' =? 1) = xorb (b =? 1) (b' =? 1)) as ->.
  { assert (b = 0 ∨ b = 1) as [->| ->] by (unfold is_u in Hb; lia);
      assert (b' = 0 ∨ b' = 1) as [->| ->] by (unfold is_u in Hb'; lia); done. }
  unfold top. rewrite Z.lxor_spec, Z.shiftl_lxor.
  apply Z.bits_inj'. intros n Hn. rewrite !Z.lxor_spec, !Z.land_spec, !Z.lxor_spec.
  destruct (Z.testbit r (w - 1)), (Z.testbit r' (w - 1)), (b =? 1), (b' =? 1);
    destruct (Z.testbit (Z.shiftl r 1) n), (Z.testbit (Z.shiftl r' 1) n), (Z.testbit (Z.ones w) n); cbn;
    rewrite ?Z.bits_0; try done; by destruct (Z.testbit poly n).
Qed.

Lemma crc_run_linear data data' : ∀ r r', bitstring data → bitstring data' → length data = length data' →
  crc_run w poly (Z.lxor r r') (zip_with Z.lxor data data')
  = Z.lxor (crc_run w poly r data) (crc_run w poly r' data').
Proof.
  revert data'. induction data as [|b data IH]; intros [|b' data'] r r' Hb Hb' Hl; try done.
  inversion_clear Hb. inversion_clear Hb'. cbn [zip_with crc_run foldl]. injection Hl as Hl.
  rewrite crc_step_linear by done. by apply IH.
Qed.

(** ** The step is injective on registers: the polynomial has its constant term. *)
Hypothesis Hodd : Z.testbit poly 0 = true.

Lemma shift_bits r n : is_u w r → 0 ≤ n →
  Z.testbit (Z.land (Z.shiftl r 1) (Z.ones w)) n = (n <? w) && (1 <=? n) && Z.testbit r (n - 1).
Proof.
  intros Hr Hn. rewrite Z.land_spec, Z.testbit_ones_nonneg by lia.
  destruct (Z.ltb_spec n w); cbn; [|by rewrite andb_false_r]. rewrite andb_true_r.
  destruct (Z.leb_spec 1 n); cbn; [by rewrite Z.shiftl_spec by lia|]. by rewrite Z.shiftl_spec_low by lia.
Qed.

Lemma crc_step_zero r : is_u w r → crc_step w poly r 0 = 0 → r = 0.
Proof.
  intros Hr. rewrite crc_step_xorb by (unfold is_u; lia). cbn [Z.eqb]. rewrite xorb_false_r. intros H.
  assert (top r = false) as Ht.
  { destruct (top r) eqn:E; [|done]. apply (f_equal (λ z, Z.testbit z 0)) in H.
    rewrite Z.lxor_spec, shift_bits, Z.bits_0, Hodd in H by (done || lia). by destruct (0 <? w). }
  rewrite Ht, Z.lxor_0_r in H. apply Z.bits_inj'. intros n Hn. rewrite Z.bits_0.
  destruct (decide (n < w - 1)) as [Hl|Hl].
  - apply (f_equal (λ z, Z.testbit z (n + 1))) in H. rewrite shift_bits, Z.bits_0 in H by (done || lia).
    replace (n + 1 - 1) with n in H by lia.
    by replace ((n + 1 <? w) && (1 <=? n + 1)) with true in H by lia.
  - destruct (decide (n = w - 1)) as [->|]; [exact Ht|]. apply (is_u_lt_pow w); [lia|done|lia].
Qed.

Lemma crc_run_zeros_zero n : ∀ r, is_u w r → crc_run w poly r (replicate n 0) = 0 → r = 0.
Proof.
  induction n as [|n IH]; intros r Hr H; [done|]. cbn [replicate crc_run foldl] in H.
  apply crc_step_zero; [done|]. apply IH; [by apply crc_step_u|exact H].
Qed.

Lemma crc_run_zero_zeros n : crc_run w poly 0 (replicate n 0) = 0.
Proof.
  induction n as [|n IH]; [done|]. cbn [replicate crc_run foldl]. rewrite crc_step_xorb by (unfold is_u; lia).
  unfold top. rewrite Z.bits_0, Z.shiftl_0_l, Z.land_0_l. exact IH.
Qed.

(** ** Feeding bits is adding them to the top of the register *)
Fixpoint align (e : list Z) : Z :=
  match e with [] => 0 | b :: e => Z.lxor (Z.shiftl b (w - 1)) (Z.shiftr (align e) 1) end.

Lemma align_u e : bitstring e → is_u w (align e).
Proof.
  induction e as [|x e IH]; intros He; cbn [align]; [unfold is_u; lia|]. inversion_clear He as [|?? Hx He'].
  apply is_u_lxor; [lia| |apply is_u_shiftr; [lia|auto]].
  rewrite Z.shiftl_mul_pow2 by lia. unfold is_u in *. replace (2 ^ w) with (2 * 2 ^ (w - 1)); [nia|].
  rewrite <- Z.pow_succ_r by lia. f_equal. lia.
Qed.

Lemma align_bits e : ∀ n, bitstring e → 0 ≤ n < w → (length e ≤ Z.to_nat w)%nat →
  Z.testbit (align e) n = match e !! Z.to_nat (w - 1 - n) with Some b => b =? 1 | None => false end.
Proof.
  induction e as [|b e IH]; intros n He Hn Hl; [apply Z.bits_0|]. inversion_clear He as [|?? Hb He'].
  cbn [align]. cbn [length] in Hl. rewrite Z.lxor_spec.
  assert (b = 0 ∨ b = 1) as Hb01 by (unfold is_u in Hb; lia).
  destruct (decide (n = w - 1)) as [->|Hne].
  - rewrite Z.sub_diag. cbn [Z.to_nat lookup list_lookup]. rewrite Z.shiftl_spec, Z.sub_diag, Z.shiftr_spec by lia.
    assert (Z.testbit (align e) (w - 1 + 1) = false) as ->.
    { apply (is_u_lt_pow w); [lia|by apply align_u|lia]. }
    rewrite xorb_false_r. destruct Hb01 as [->| ->]; done.
  - assert (Z.testbit (Z.shiftl b (w - 1)) n = false) as -> by (apply Z.shiftl_spec_low; lia).
    rewrite Z.shiftr_spec, IH by (done || lia).
    replace (Z.to_nat (w - 1 - n)) with (S (Z.to_nat (w - 1 - (n + 1)))) by lia. done.
Qed.

Lemma crc_step_align r b e : is_u w r → is_u 1 b → bitstring e → (length e < Z.to_nat w)%nat →
  Z.lxor (crc_step w poly r b) (align e) = crc_step w poly (Z.lxor r (align (b :: e))) 0.
Proof.
  intros Hr Hb He Hl. assert (b = 0 ∨ b = 1) as Hb01 by (unfold is_u in Hb; lia).
  assert (bitstring (b :: e)) as Hbe by by apply Forall_cons_2.
  pose proof (align_u _ Hbe) as Hu. pose proof (align_u e He) as Hue.
  rewrite !crc_step_xorb by (done || (unfold is_u; lia)). cbn [Z.eqb]. rewrite xorb_false_r.
  assert (top (Z.lxor r (align (b :: e))) = xorb (top r) (b =? 1)) as ->.
  { unfold top. rewrite Z.lxor_spec, align_bits by (done || cbn; lia). by rewrite Z.sub_diag. }
  apply Z.bits_inj'. intros n Hn. rewrite !Z.lxor_spec.
  rewrite !shift_bits by (done || by apply is_u_lxor; [lia|..]). rewrite Z.lxor_spec.
  set (p := Z.testbit (if xorb _ _ then poly else 0) n). clearbody p.
  destruct (Z.ltb_spec n w) as [Hnw|Hnw]; cbn [andb].
  2:{ rewrite (is_u_lt_pow w (align e)) by (done || lia). by destruct p. }
  destruct (Z.leb_spec 1 n) as [Hn1|Hn1]; cbn [andb].
  - rewrite !align_bits by (done || cbn; lia).
    replace (Z.to_nat (w - 1 - (n - 1))) with (S (Z.to_nat (w - 1 - n))) by lia. cbn [lookup list_lookup].
    change (list_lookup (Z.to_nat (w - 1 - n)) e) with (e !! Z.to_nat (w - 1 - n)).
    destruct (Z.testbit r (n - 1)), p, (match e !! Z.to_nat (w - 1 - n) with Some x => x =? 1 | None => false end); done.
  - rewrite align_bits by (done || lia).
    assert (e !! Z.to_nat (w - 1 - n) = None) as -> by (apply lookup_ge_None_2; lia). by destruct p.
Qed.

Lemma crc_run_align e : ∀ r, is_u w r → bitstring e → (length e ≤ Z.to_nat w)%nat →
  crc_run w poly r e = crc_run w poly (Z.lxor r (align e)) (replicate (length e) 0).
Proof.
  induction e as [|b e IH]; intros r Hr He Hl; [cbn; by rewrite Z.lxor_0_r|].
  inversion_clear He as [|?? Hb He']. cbn [length] in Hl. cbn [crc_run foldl length replicate].
  rewrite <- crc_step_align by (done || lia). apply IH; [by apply crc_step_u|done|lia].
Qed.

(** A nonzero pattern no longer than the register leaves a nonzero register. *)
Lemma crc_run_burst e : bitstring e → (length e ≤ Z.to_nat w)%nat → crc_run w poly 0 e = 0 → e = replicate (length e) 0.
Proof.
  intros He Hl H. rewrite crc_run_align, Z.lxor_0_l in H by (done || (unfold is_u; lia)).
  apply crc_run_zeros_zero in H; [|by apply align_u]. apply list_eq. intros i.
  destruct (decide (i < length e)%nat) as [Hi|Hi].
  - rewrite lookup_replicate_2 by done. destruct (lookup_lt_is_Some_2 e i Hi) as [b Eb]. rewrite Eb. f_equal.
    pose proof (Forall_lookup_1 _ _ _ _ He Eb) as Hb. cbn in Hb.
    pose proof (align_bits e (w - 1 - Z.of_nat i) He ltac:(lia) Hl) as Ha.
    rewrite H, Z.bits_0 in Ha. replace (Z.to_nat (w - 1 - (w - 1 - Z.of_nat i))) with i in Ha by lia.
    rewrite Eb in Ha. unfold is_u in Hb. lia.
  - rewrite !lookup_ge_None_2; [done|by rewrite length_replicate; lia|lia].
Qed.

(** ** Bursts: two messages that differ within [w] consecutive bits have different registers. *)
Lemma zip_lxor_self l : zip_with Z.lxor l l = replicate (length l) 0.
Proof. induction l as [|x l IH]; [done|]. cbn. by rewrite Z.lxor_nilpotent, IH. Qed.

Lemma zip_lxor_zero e e' : length e = length e' → zip_with Z.lxor e e' = replicate (length e) 0 → e = e'.
Proof.
  revert e'. induction e as [|x e IH]; intros [|x' e'] Hl H; try done. cbn in H. injection H as Hx He. injection Hl as Hl.
  apply Z.lxor_eq in Hx. subst. f_equal. by apply IH.
Qed.

Lemma bitstring_zip e e' : bitstring e → bitstring e' → bitstring (zip_with Z.lxor e e').
Proof.
  intros He. revert e'. induction He as [|x e Hx _ IH]; intros e' He'; [apply Forall_nil_2|].
  destruct He' as [|x' e' Hx' He']; [apply Forall_nil_2|]. apply Forall_cons_2; [by apply is_u_lxor; [lia|..]|by apply IH].
Qed.

Lemma crc_run_app r a b : crc_run w poly r (a ++ b) = crc_run w poly (crc_run w poly r a) b.
Proof. apply foldl_app. Qed.

Lemma burst_detected init pre e e' suf :
  bitstring pre → bitstring e → bitstring e' → bitstring suf →
  length e = length e' → (length e ≤ Z.to_nat w)%nat → e ≠ e' →
  crc_run w poly init (pre ++ e ++ suf) ≠ crc_run w poly init (pre ++ e' ++ suf).
Proof.
  intros Hp He He' Hs Hl Hw' Hne Heq. apply Hne, zip_lxor_zero; [done|].
  assert (length (zip_with Z.lxor e e') = length e) as Hlz by (rewrite length_zip_with; lia). rewrite <- Hlz.
  pose proof (bitstring_zip e e' He He') as Hz. apply crc_run_burst; [done|lia|].
  apply (crc_run_zeros_zero (length suf)); [apply crc_run_u; unfold is_u; lia|].
  assert (crc_run w poly (Z.lxor init init) (zip_with Z.lxor (pre ++ e ++ suf) (pre ++ e' ++ suf)) = 0) as H.
  { rewrite crc_run_linear by (rewrite ?length_app; (by repeat apply Forall_app_2) || lia).
    by rewrite Heq, Z.lxor_nilpotent. }
  rewrite Z.lxor_nilpotent, !zip_with_app, !zip_lxor_self, !crc_run_app, crc_run_zero_zeros in H by done. exact H.
Qed.

(** ** Appending the register empties it. *)
Lemma align_to_bits r : is_u w r → align (to_bits (Z.to_nat w) r) = r.
Proof.
  intros Hr. apply Z.bits_inj'. intros n Hn.
  pose proof (bitstring_to_bits (Z.to_nat w) r) as Hb.
  destruct (decide (n < w)) as [Hlt|].
  - rewrite align_bits by (rewrite ?length_to_bits; done || lia).
    unfold to_bits. rewrite list_lookup_fmap, lookup_seq_lt by lia. cbn [fmap option_fmap option_map Nat.add].
    rewrite land_1. replace (Z.of_nat _) with n by lia.
    rewrite <- Z.bit0_mod, Z.shiftr_spec, Z.add_0_l by lia. by destruct (Z.testbit r n).
  - rewrite !(is_u_lt_pow w) by (done || lia || by apply align_u). done.
Qed.

Lemma crc_residue r : is_u w r → crc_run w poly r (to_bits (Z.to_nat w) r) = 0.
Proof.
  intros Hr. rewrite crc_run_align by (rewrite ?length_to_bits; done || apply bitstring_to_bits).
  rewrite align_to_bits, Z.lxor_nilpotent by done. apply crc_run_zero_zeros.
Qed.
End Register.

(** ** The seven CRCs *)
Lemma lxor_mask_inj a b m : Z.lxor a m = Z.lxor b m → a = b.
Proof.
  intros H. apply (f_equal (λ z, Z.lxor z m)) in H. by rewrite !Z.lxor_assoc, !Z.lxor_nilpotent, !Z.lxor_0_r in H.
Qed.

(** Two bit strings of the same length that differ only within a window. *)
Definition differ_within (k : nat) (a b : list Z) : Prop :=
  ∃ pre e e' suf, a = pre ++ e ++ suf ∧ b = pre ++ e' ++ suf ∧ length e = length e' ∧ (length e ≤ k)%nat ∧ e ≠ e'.

Lemma differ_detected w poly init k a b :
  1 ≤ w → is_u w poly → Z.testbit poly 0 = true → k = Z.to_nat w → bitstring a → bitstring b →
  differ_within k a b → crc_run w poly init a ≠ crc_run w poly init b.
Proof.
  intros Hw Hp Ho -> Ha Hb (pre & e & e' & suf & -> & -> & Hl & Hk & Hne).
  apply Forall_app in Ha as [? [? ?]%Forall_app]. apply Forall_app in Hb as [_ [? _]%Forall_app].
  by apply burst_detected.
Qed.

(** The frame quality indicators detect every burst of errors no longer than they are: two
    frames that differ within 6, 8, 10, 12 or 16 consecutive bits never have the same CRC. *)
Theorem fqi_detects_burst (a b : list Z) :
  bitstring a → bitstring b →
  (differ_within 6 a b → crc6 a ≠ crc6 b ∧ crc6_rc2 a ≠ crc6_rc2 b) ∧
  (differ_within 8 a b → crc8 a ≠ crc8 b) ∧ (differ_within 10 a b → crc10 a ≠ crc10 b) ∧
  (differ_within 12 a b → crc12 a ≠ crc12 b) ∧
  (differ_within 16 a b → crc16_ccitt a ≠ crc16_ccitt b ∧ crc16_sch a ≠ crc16_sch b).
Proof.
  intros Ha Hb. split_and!; intros Hd; try split.
  6: intros H%lxor_mask_inj; revert H.
  all: eapply differ_detected; [| | | | |exact Hb|exact Hd]; done.
Qed.

Lemma fqi_detects_burst_witness :
  bitstring [1; 0; 1] ∧ bitstring [1; 1; 0] ∧ crc16_sch [1; 0; 1] ≠ crc16_sch [1; 1; 0].
Proof.
  split; [by repeat constructor|]. split; [by repeat constructor|].
  apply (fqi_detects_burst [1; 0; 1] [1; 1; 0]); [by repeat constructor..|].
  exists [1], [0; 1], [1; 0], []. split_and!; [done..|cbn; lia|done].
Defined.

Lemma crc_bounds data : is_u 6 (crc6 data) ∧ is_u 6 (crc6_rc2 data) ∧ is_u 8 (crc8 data) ∧ is_u 10 (crc10 data)
  ∧ is_u 12 (crc12 data) ∧ is_u16 (crc16_ccitt data) ∧ is_u16 (crc16_sch data).
Proof.
  split_and!; try (apply crc_run_u; [lia|done|done]). apply is_u_lxor; [lia| |done]. apply crc_run_u; [lia|done|done].
Qed.
