(* ===== verification/Rlp3Backend.v ===== *)
(** * The RLP Type 3 bearer and the supplemental channel ([engine.rs], [cdma-common/src/sch.rs])

    [Rlp3Backend] is the bearer of SO 33 sessions: an RLP Type 3 session on the fundamental
    channel, and the multiplex sublayer that packs its blocks into the frames of the forward
    supplemental channel.  The telemetry strings and log counters of the code are left out.  The
    proofs: the frames of the supplemental channel, what the session above relies on
    ([SteadyBackend]), and exactly when the bearer panics. *)
From S2P Require Import Prelude BitString Rlp RlpProofs Rlp3Frames Rlp3Proofs Rlp3Session Rlp3SessionProofs RlpBackend CrcBits.

(** ** Supplemental channel profiles *)
Record Rc3FschProfile := mkProfile {
  rate_bps : Z;
  info_bits : nat;
  walsh_len : nat;
  num_bits_idx : Z;
  mux_option : Z;
  coding_indicator : Z
}.
#[export] Instance Rc3FschProfile_eq_dec : EqDecision Rc3FschProfile.
Proof. solve_decision. Defined.

Definition from_rate_bps (rate_bps : Z) : option Rc3FschProfile :=
  if rate_bps =? 19200 then Some (mkProfile rate_bps 360 32 0x1 0x0809 0)
  else if rate_bps =? 38400 then Some (mkProfile rate_bps 744 16 0x2 0x0811 0)
  else if rate_bps =? 76800 then Some (mkProfile rate_bps 1512 8 0x3 0x0821 0)
  else if rate_bps =? 153600 then Some (mkProfile rate_bps 3048 4 0x4 0x0921 0)
  else None.
Definition default_19k2 : Rc3FschProfile := mkProfile 19200 360 32 0x1 0x0809 0.
Definition fsch_frame_bits (p : Rc3FschProfile) : nat := (info_bits p + 16 + 8)%nat.
Definition coded_symbols (p : Rc3FschProfile) : nat := (fsch_frame_bits p * 4)%nat.
Definition qpsk_symbols (p : Rc3FschProfile) : nat := (coded_symbols p / 2)%nat.
Definition symbols_per_pcg (p : Rc3FschProfile) : nat := (coded_symbols p / 16)%nat.
Definition lc_decimation (p : Rc3FschProfile) : nat := (walsh_len p / 2)%nat.

(** ** Multiplex sublayer *)
Module SchMux.
Definition SCH_0X0809_DATA_BLOCK_BITS : nat := 170.
Definition SCH_0X0921_DATA_BLOCK_BITS : nat := 346.
Definition SCH_TYPE3_HEADER_BITS : nat := 6.
Definition SCH_TYPE3_LTUS_REQUIRED_INFO_BITS : nat := 744.
Definition SCH_TYPE3_LTUS_SIZE_BITS : nat := 368.
Definition SCH_TYPE3_LTUS_PAYLOAD_BITS : nat := 352.
Definition SCH_TYPE3_LTUS_CRC_BITS : nat := 16.
Definition SCH_PRIMARY_SR_ID : Z := 1.
Definition SCH_FILL_SR_ID : Z := 7.

Definition sch_type3_data_block_bits (p : Rc3FschProfile) : option nat :=
  if (mux_option p =? 0x0809) || (mux_option p =? 0x0811) || (mux_option p =? 0x0821)
  then Some SCH_0X0809_DATA_BLOCK_BITS
  else if mux_option p =? 0x0921 then Some SCH_0X0921_DATA_BLOCK_BITS else None.

Definition sch_type3_uses_ltus (info_bits : nat) : bool := bool_decide (SCH_TYPE3_LTUS_REQUIRED_INFO_BITS ≤ info_bits)%nat.

Definition blocks_per_ltu (data_block_bits : nat) : nat :=
  if decide (data_block_bits = SCH_0X0809_DATA_BLOCK_BITS) then 2
  else if decide (data_block_bits = SCH_0X0921_DATA_BLOCK_BITS) then 1 else 0.

Definition max_sch_type3_blocks_for_profile (p : Rc3FschProfile) : nat :=
  match sch_type3_data_block_bits p with
  | None => 0
  | Some data_block_bits =>
      if sch_type3_uses_ltus (info_bits p)
      then (info_bits p / SCH_TYPE3_LTUS_SIZE_BITS) * blocks_per_ltu data_block_bits
      else info_bits p / (SCH_TYPE3_HEADER_BITS + data_block_bits)
  end.

Definition push_bits (bits : list Z) (value : Z) (width : nat) : list Z := bits ++ to_bits width value.

(** [bits.resize(n, 0)] *)
Definition resize (bits : list Z) (n : nat) : list Z := take n bits ++ replicate (n - length bits) 0.

Definition append_sch_type3_muxpdu (bits : list Z) (sr_id : Z) (data_block : list Z) : list Z :=
  push_bits (push_bits bits sr_id 3) 0 3 ++ data_block.
Definition append_sch_type3_fill_muxpdu (bits : list Z) : list Z :=
  let bits := push_bits (push_bits bits SCH_FILL_SR_ID 3) 0 3 in
  resize bits (length bits + SCH_0X0809_DATA_BLOCK_BITS).
Definition append_sch_type3_ltu_muxpdu (bits : list Z) (sr_id : Z) (data_block : list Z) : list Z :=
  append_sch_type3_muxpdu bits sr_id data_block.
Definition append_sch_type3_ltu_fill_muxpdu (bits : list Z) (data_block_bits : nat) : list Z :=
  let bits := push_bits (push_bits bits SCH_FILL_SR_ID 3) 0 3 in
  resize bits (length bits + data_block_bits).

(** One LTU: the blocks left for it, then fill. *)
Fixpoint ltu_payload (n : nat) (data_block_bits : nat) (bits : list Z) (blocks : list (list Z)) : list Z * list (list Z) :=
  match n with
  | O => (bits, blocks)
  | S n =>
      match blocks with
      | block :: blocks => ltu_payload n data_block_bits (append_sch_type3_ltu_muxpdu bits SCH_PRIMARY_SR_ID block) blocks
      | [] => ltu_payload n data_block_bits (append_sch_type3_ltu_fill_muxpdu bits data_block_bits) []
      end
  end.

Fixpoint ltus (count : nat) (data_block_bits : nat) (bits : list Z) (blocks : list (list Z)) : list Z :=
  match count with
  | O => bits
  | S count =>
      let '(payload, blocks) := ltu_payload (blocks_per_ltu data_block_bits) data_block_bits [] blocks in
      let crc := crc16_sch payload in
      ltus count data_block_bits (push_bits (bits ++ payload) crc SCH_TYPE3_LTUS_CRC_BITS) blocks
  end.

Definition build_sch_type3_ltu_sdu (blocks : list (list Z)) (info_bits data_block_bits : nat) : list Z :=
  resize (ltus (info_bits / SCH_TYPE3_LTUS_SIZE_BITS) data_block_bits [] blocks) info_bits.

(** [for block in blocks { if no room { break } append }] *)
Fixpoint append_blocks (info_bits data_block_bits : nat) (bits : list Z) (blocks : list (list Z)) : list Z :=
  match blocks with
  | [] => bits
  | block :: blocks =>
      if decide (info_bits < length bits + SCH_TYPE3_HEADER_BITS + data_block_bits)%nat then bits
      else append_blocks info_bits data_block_bits (append_sch_type3_muxpdu bits SCH_PRIMARY_SR_ID block) blocks
  end.

Definition build_sch_type3_sdu (blocks : list (list Z)) (p : Rc3FschProfile) : list Z :=
  let n := info_bits p in
  let data_block_bits := default SCH_0X0809_DATA_BLOCK_BITS (sch_type3_data_block_bits p) in
  if sch_type3_uses_ltus n then build_sch_type3_ltu_sdu blocks n data_block_bits
  else
    let bits := append_blocks n data_block_bits [] blocks in
    let bits := if decide (length bits + SCH_TYPE3_HEADER_BITS ≤ n)%nat then append_sch_type3_fill_muxpdu bits else bits in
    resize bits n.
End SchMux.

(** ** The bearer *)
Module Rlp3B.
Import Rlp3 Session3 SchMux.

Record Rlp3Backend := mkRlp3 { session : Rlp3Session }.
Definition new (config : Rlp3Config) : Rlp3Backend := mkRlp3 (Session3.new config).

Definition rate_of (rate_bps : Z) : FrameRate :=
  if rate_bps =? 9600 then Full else if rate_bps =? 4800 then Half
  else if (rate_bps =? 2700) || (rate_bps =? 2400) then Quarter
  else if (rate_bps =? 1500) || (rate_bps =? 1200) then Eighth else Blank.
Definition bps_of (rate : FrameRate) : Z :=
  match rate with Full => 9600 | Half => 4800 | Quarter => 2700 | Eighth => 1200 | Blank => 0 end.

Definition delivered (events : list RlpEvent) : list Z :=
  mjoin ((λ e, match e with DataDelivered data => data | _ => [] end) <$> events).

Definition receive (bits : list Z) (rate_bps : Z) (b : Rlp3Backend) : rust (Rlp3Backend * option (list Z)) :=
  '(s, events) ← Session3.receive_frame bits (rate_of rate_bps) (session b);
  let '(s, rest) := Session3.receive_data s in
  let data := delivered events ++ default [] rest in
  Some (mkRlp3 s, if decide (data = []) then None else Some data).

Definition enqueue (data : list Z) (b : Rlp3Backend) : Rlp3Backend := mkRlp3 (send_data data (session b)).

Definition next (allow_payload : bool) (b : Rlp3Backend) : rust (Rlp3Backend * (list Z * Z)) :=
  let s := session b in
  let has_data :=
    if decide (state s ≠ DataTransfer) then true
    else if allow_payload then negb (tx_queue_is_empty s) || has_pending_controls s
    else has_pending_control_frames s in
  let rate := if has_data then Full else Quarter in
  '(s, bits) ← (if allow_payload then next_frame rate s else next_frame_control_only rate s);
  Some (mkRlp3 s, (bits, bps_of rate)).

(** [while blocks.len() < max_blocks { .. blocks.push(block) }] *)
Fixpoint take_blocks (fuel data_block_bits max_blocks : nat) (blocks : list (list Z)) (s : Rlp3Session)
    : rust (Rlp3Session * list (list Z)) :=
  match fuel with
  | O => Some (s, blocks)
  | S fuel =>
      if decide (length blocks < max_blocks)%nat then
        '(s, block) ← next_supplemental_frame data_block_bits s;
        match block with
        | None => Some (s, blocks)
        | Some block => take_blocks fuel data_block_bits max_blocks (blocks ++ [block]) s
        end
      else Some (s, blocks)
  end.

Definition next_sch (n : nat) (rate : Z) (b : Rlp3Backend) : rust (Rlp3Backend * option (list Z * Z)) :=
  match from_rate_bps rate with
  | None => Some (b, None)
  | Some p =>
      if decide (state (session b) ≠ DataTransfer ∨ n ≠ Rlp3Backend.info_bits p) then Some (b, None)
      else match sch_type3_data_block_bits p with
      | None => Some (b, None)
      | Some data_block_bits =>
          '(s, first) ← next_supplemental_frame data_block_bits (session b);
          let blocks := match first with Some block => [block] | None => [] end in
          let max_blocks := max_sch_type3_blocks_for_profile p in
          '(s, blocks) ← take_blocks max_blocks data_block_bits max_blocks blocks s;
          Some (mkRlp3 s, Some (build_sch_type3_sdu blocks p, Rlp3Backend.rate_bps p))
      end
  end.
End Rlp3B.

#[export] Instance rlp3_backend : RlpBackend Rlp3B.Rlp3Backend := {
  receive_frame_bits := Rlp3B.receive;
  enqueue_data := Rlp3B.enqueue;
  next_frame_bits := Rlp3B.next;
  next_full_frame_bits := Rlp3B.next;
  max_downlink_frames_per_tick _ := 1%nat;
  next_sch_frame_bits := Rlp3B.next_sch;
  is_data_transfer b := match Session3.state (Rlp3B.session b) with Session3.DataTransfer => true | _ => false end;
  tx_queue_len b := length (Session3.tx_queue (Rlp3B.session b))
}.

(** * The type 3 bearer: the frames it sends and what it takes *)
Import Rlp3 Session3 SchMux.

(** ** Supplemental frames *)
Lemma length_resize bits n : length (resize bits n) = n.
Proof. unfold resize. rewrite length_app, length_take, length_replicate. lia. Qed.
Lemma resize_id bits : resize bits (length bits) = bits.
Proof. unfold resize. by rewrite take_ge, Nat.sub_diag, app_nil_r by lia. Qed.
Lemma resize_grow bits n : (length bits ≤ n)%nat → resize bits n = bits ++ replicate (n - length bits) 0.
Proof. intros. unfold resize. by rewrite take_ge by lia. Qed.

Lemma length_sdu blocks p : length (build_sch_type3_sdu blocks p) = Rlp3Backend.info_bits p.
Proof. unfold build_sch_type3_sdu, build_sch_type3_ltu_sdu. destruct (sch_type3_uses_ltus _); apply length_resize. Qed.

(** A multiplex PDU: the service, three zero bits, the block. *)
Definition mux_pdu (sr_id : Z) (block : list Z) : list Z := to_bits 3 sr_id ++ to_bits 3 0 ++ block.

(** The PDUs of an LTU: its blocks, then fill. *)
Definition ltu_blocks (n size : nat) (blocks : list (list Z)) : list Z :=
  mjoin (mux_pdu SCH_PRIMARY_SR_ID <$> take n blocks) ++
  mjoin (replicate (n - length blocks) (mux_pdu SCH_FILL_SR_ID (replicate size 0))).

Lemma ltu_payload_spec n size : ∀ bits blocks,
  ltu_payload n size bits blocks = (bits ++ ltu_blocks n size blocks, drop n blocks).
Proof.
  unfold ltu_blocks. induction n as [|n IH]; intros bits blocks; cbn [ltu_payload].
  { by rewrite take_0, app_nil_r. }
  destruct blocks as [|b blocks]; rewrite IH; unfold append_sch_type3_ltu_muxpdu, append_sch_type3_muxpdu,
    append_sch_type3_ltu_fill_muxpdu, push_bits, mux_pdu.
  - f_equal; [|by rewrite !drop_nil]. rewrite resize_grow by lia. rewrite !take_nil, !Nat.sub_0_r.
    replace (_ + size - _)%nat with size by lia. cbn [fmap list_fmap mjoin list_join app replicate].
    by rewrite <- !app_assoc.
  - cbn [take fmap list_fmap mjoin list_join length Nat.sub drop]. by rewrite <- !app_assoc.
Qed.

(** The LTUs of a frame, each followed by its CRC. *)
Fixpoint ltu_stream (count n size : nat) (blocks : list (list Z)) : list Z :=
  match count with
  | O => []
  | S count =>
      let payload := ltu_blocks n size blocks in
      payload ++ to_bits 16 (crc16_sch payload) ++ ltu_stream count n size (drop n blocks)
  end.

Lemma ltus_spec count size : ∀ bits blocks,
  ltus count size bits blocks = bits ++ ltu_stream count (blocks_per_ltu size) size blocks.
Proof.
  induction count as [|count IH]; intros bits blocks; cbn [ltus ltu_stream]; [by rewrite app_nil_r|].
  rewrite ltu_payload_spec, IH. unfold push_bits. cbn [app]. by rewrite <- !app_assoc.
Qed.

Definition sized (n : nat) (blocks : list (list Z)) : Prop := Forall (λ b, length b = n) blocks.

Lemma length_mux_pdu sr b : length (mux_pdu sr b) = (6 + length b)%nat.
Proof. unfold mux_pdu. by rewrite !length_app, !length_to_bits. Qed.

Lemma length_ltu_blocks n size blocks : sized size blocks → length (ltu_blocks n size blocks) = (n * (6 + size))%nat.
Proof.
  intros H. unfold ltu_blocks. revert n. induction H as [|b blocks Hb _ IH]; intros n.
  - rewrite take_nil, Nat.sub_0_r. cbn [fmap list_fmap mjoin list_join app].
    induction n as [|n IHn]; [done|]. cbn [replicate]. rewrite mjoin_cons, length_app, IHn, length_mux_pdu, length_replicate. lia.
  - destruct n as [|n]; [done|]. cbn [take length Nat.sub].
    rewrite fmap_cons, mjoin_cons, <- app_assoc, length_app, IH, length_mux_pdu, Hb. lia.
Qed.

Lemma sized_drop n k blocks : sized n blocks → sized n (drop k blocks).
Proof. apply Forall_drop. Qed.

(** The [i]-th LTU of the stream passes its CRC check. *)
Lemma ltu_stream_crc count n size len : len = (n * (6 + size))%nat → ∀ blocks i, sized size blocks → (i < count)%nat →
  crc_run 16 0xC867 0xFFFF (take (len + 16) (drop ((len + 16) * i) (ltu_stream count n size blocks))) = 0.
Proof.
  intros Hlen. induction count as [|count IH]; intros blocks i Hb Hi; [lia|]. cbn [ltu_stream].
  set (payload := ltu_blocks n size blocks). assert (length payload = len) as Hp by (by subst; apply length_ltu_blocks).
  rewrite app_assoc. assert (length (payload ++ to_bits 16 (crc16_sch payload)) = (len + 16)%nat) as Hl.
  { by rewrite length_app, length_to_bits, Hp. }
  destruct i as [|i].
  - rewrite Nat.mul_0_r, drop_0, <- Hl, take_app_length. rewrite crc_run_app. by apply (crc_residue 16 0xC867), crc_bounds.
  - replace ((len + 16) * S i)%nat with ((len + 16) + (len + 16) * i)%nat by lia.
    rewrite <- drop_drop, <- Hl, drop_app_length, Hl. apply IH; [by apply sized_drop|lia].
Qed.

Lemma length_ltu_stream count n size : ∀ blocks, sized size blocks →
  length (ltu_stream count n size blocks) = (count * (n * (6 + size) + 16))%nat.
Proof.
  induction count as [|count IH]; intros blocks Hb; [done|]. cbn [ltu_stream].
  rewrite !length_app, length_to_bits, IH, length_ltu_blocks by (done || by apply sized_drop). lia.
Qed.

Lemma take_blocks_ok fuel size max : ∀ blocks s, inv3 s → sized size blocks →
  ∃ s' blocks', Rlp3B.take_blocks fuel size max blocks s = Some (s', blocks') ∧ inv3 s' ∧ sized size blocks'.
Proof.
  induction fuel as [|fuel IH]; intros blocks s H Hb; cbn [Rlp3B.take_blocks]; [by do 2 eexists|].
  case_decide; [|by do 2 eexists]. destruct (next_supplemental_ok size s H) as (s1 & b & -> & H1 & Hs). cbn.
  destruct b as [b|]; [|by do 2 eexists]. apply IH; [done|]. apply Forall_app_2; [done|]. apply Forall_singleton. by apply Hs.
Qed.

(** The profiles of the four rates. *)
Lemma profile_cases rate p : from_rate_bps rate = Some p → Rlp3Backend.rate_bps p = rate ∧
  ∃ size, sch_type3_data_block_bits p = Some size ∧ (size = 170 ∨ size = 346)%nat.
Proof.
  unfold from_rate_bps. destruct (Z.eqb_spec rate 19200); [|destruct (Z.eqb_spec rate 38400); [|destruct (Z.eqb_spec rate 76800);
    [|destruct (Z.eqb_spec rate 153600); [|done]]]]; intros [= <-]; (split; [done|]); eexists; (split; [reflexivity|]); auto.
Qed.

Lemma ltu_frame_crc blocks n size i : sized size blocks → (size = 170 ∨ size = 346)%nat → (i < n / 368)%nat →
  crc_run 16 0xC867 0xFFFF (take 368 (drop (368 * i) (build_sch_type3_ltu_sdu blocks n size))) = 0.
Proof.
  intros Hb Hs Hi. unfold build_sch_type3_ltu_sdu. rewrite ltus_spec. cbn [app].
  set (k := blocks_per_ltu size). assert (352 = k * (6 + size))%nat as Hk by (destruct Hs as [-> | ->]; reflexivity).
  pose proof (length_ltu_stream (n / 368) k size blocks Hb) as Hl. rewrite <- Hk in Hl. change (352 + 16)%nat with 368%nat in Hl.
  pose proof (Nat.Div0.mul_div_le n 368). unfold SCH_TYPE3_LTUS_SIZE_BITS.
  rewrite resize_grow by lia. rewrite drop_app_le, take_app_le by (rewrite ?length_drop, Hl; nia).
  apply (ltu_stream_crc (n / 368) k size 352 Hk blocks i Hb Hi).
Qed.

(** The supplemental channel.  Asking the Type 3 bearer for a supplemental frame always
    returns; a frame it gives has exactly the number of information bits of the requested
    rate's profile, and at the rates that use logical transmission units (38.4 kbps up) every
    368-bit unit in it passes the 16-bit CRC check. *)
Theorem sch_frame_sized n rate b : inv3 (Rlp3B.session b) →
  ∃ b' r, Rlp3B.next_sch n rate b = Some (b', r) ∧ inv3 (Rlp3B.session b') ∧
    ∀ bits bps, r = Some (bits, bps) → length bits = n ∧ bps = rate ∧
      (sch_type3_uses_ltus n = true → ∀ i, (i < n / 368)%nat →
         crc_run 16 0xC867 0xFFFF (take 368 (drop (368 * i) bits)) = 0).
Proof.
  intros H. unfold Rlp3B.next_sch. destruct (from_rate_bps rate) as [p|] eqn:Ep; [|by do 2 eexists].
  apply profile_cases in Ep as (Hrate & size & Esize & Hsize). rewrite Esize.
  case_decide as Hc; [by do 2 eexists|]. assert (n = Rlp3Backend.info_bits p) as Hn by (destruct (decide (n = Rlp3Backend.info_bits p)); tauto).
  destruct (next_supplemental_ok size (Rlp3B.session b) H) as (s1 & f & -> & H1 & Hs). rewrite bind_some.
  destruct (take_blocks_ok (max_sch_type3_blocks_for_profile p) size (max_sch_type3_blocks_for_profile p)
    (match f with Some block => [block] | None => [] end) s1 H1) as (s2 & blocks & -> & H2 & Hb).
  { destruct f as [f|]; [apply Forall_singleton; by apply Hs|apply Forall_nil_2]. }
  rewrite bind_some. do 2 eexists. split_and!; [done|done|]. intros bits bps [= <- <-].
  split_and!; [rewrite Hn; apply length_sdu|done|]. intros Hl i Hi. unfold build_sch_type3_sdu.
  rewrite <- Hn, Hl, Esize. by apply ltu_frame_crc.
Qed.

Definition sch_bearer : Rlp3B.Rlp3Backend :=
  Rlp3B.mkRlp3 (send_data (replicate 100 0x7E) (enter_data_transfer (initialize (Session3.new default_config)))).
Lemma sch_frame_sized_witness :
  ∃ b' r, Rlp3B.next_sch 744 38400 sch_bearer = Some (b', r) ∧ inv3 (Rlp3B.session b') ∧
    ∀ bits bps, r = Some (bits, bps) → length bits = 744%nat ∧ bps = 38400 ∧
      (sch_type3_uses_ltus 744 = true → ∀ i, (i < 744 / 368)%nat →
         crc_run 16 0xC867 0xFFFF (take 368 (drop (368 * i) bits)) = 0).
Proof.
  apply (sch_frame_sized 744 38400 sch_bearer). apply inv3_tx, inv3_state, inv3_initialize.
Defined.

(** ** The bearer's receiver and transmitter *)

(** One tick of the session's timer: a frame from the air, then a frame to it. *)
Definition bearer_tick (b : Rlp3B.Rlp3Backend) (f : option Rlp3Frame) : rust Rlp3B.Rlp3Backend :=
  let bits := match f with Some f => match encode f Odd with Some (Ok bits) => bits | _ => [] end | None => [] end in
  '(b, _) ← Rlp3B.receive bits (match f with Some _ => 9600 | None => 0 end) b;
  '(b, _) ← Rlp3B.next true b;
  Some b.

Fixpoint bearer_ticks (b : Rlp3B.Rlp3Backend) (fs : list (option Rlp3Frame)) : rust Rlp3B.Rlp3Backend :=
  match fs with [] => Some b | f :: fs => b ← bearer_tick b f; bearer_ticks b fs end.

(** The handshake, frame 0, frame 61 (60 frames lost), then some of the frames retransmitted. *)
Definition thinning : list (option Rlp3Frame) :=
  [Some (Control 0 Sync true false); Some (Control 0 Ack false false); Some (Data 0 false [1]); Some (Data 61 false [1])]
  ++ ((λ k, Some (Data k true [1])) <$> [40; 42; 44; 46; 48; 50; 52; 54]) ++ [None]
  ++ ((λ k, Some (Data k true [1])) <$> [3; 5; 7; 9]).

Lemma thinning_frames : Forall (λ f, ∀ x, f = Some x → wf_frame3 x ∧ fits3 x Odd = true) thinning.
Proof.
  unfold thinning. cbn [app fmap list_fmap].
  repeat (apply Forall_cons_2; [intros x Hx; (discriminate Hx || (injection Hx as <-; split; [repeat (constructor || split); vm_compute; done || lia|reflexivity]))|]).
  apply Forall_nil_2.
Qed.

Lemma thinned : is_Some (bearer_ticks (Rlp3B.new default_config) thinning).
Proof.
  assert (bool_decide (is_Some (bearer_ticks (Rlp3B.new default_config) thinning)) = true) as H by (vm_compute; reflexivity).
  by apply bool_decide_eq_true in H.
Qed.
Lemma thinned_panics : bearer_ticks (Rlp3B.new default_config) (thinning ++ [None]) = None.
Proof. vm_compute. reflexivity. Qed.

(** ** What the bearer keeps: data comes in data transfer *)
Lemma deliver_loop_state fuel : ∀ s s', deliver_loop fuel s = Some s' → state s' = state s.
Proof.
  induction fuel as [|fuel IH]; intros s s'; cbn [deliver_loop]; [by intros [= <-]|].
  destruct (slot _) as [i|]; [|done]. cbn. destruct (reseq_buffer s !! i); [by intros ->%IH|by intros [= <-]].
Qed.

(** The result is in state [st], with nothing left to be handed up. *)
Definition flushed_in (st : Rlp3State) (r : rust (Rlp3Session * list RlpEvent)) : Prop :=
  ∀ s ev, r = Some (s, ev) → state s = st ∧ rx_buffer s = [].

Lemma flushed_flush s : flushed_in (state s) (Some (flush_delivery_events s)).
Proof. intros s' ev. unfold flush_delivery_events. case_decide; by intros [= <- <-]. Qed.
Lemma flushed_deliver st s : state s = st → flushed_in st (s ← deliver_contiguous s; Some (flush_delivery_events s)).
Proof.
  unfold deliver_contiguous. generalize 4097%nat as fuel. intros fuel <- s' ev E.
  apply bind_Some in E as (s1 & E1 & E). rewrite <- (deliver_loop_state _ _ _ E1). exact (flushed_flush s1 s' ev E).
Qed.
Lemma flushed_slot {A} st (i : option A) k : (∀ i, flushed_in st (k i)) → flushed_in st (i ≫= k).
Proof. intros Hk. destruct i; [apply Hk|intros s ev E; discriminate E]. Qed.
Lemma flushed_ret st s ev : state s = st → rx_buffer s = [] → flushed_in st (Some (s, ev)).
Proof. by intros ? ? ? ? [= <- <-]. Qed.

Lemma gap_loop_same fuel : ∀ a b s, let r := gap_loop fuel a b s in state r.1 = state s ∧ rx_buffer r.1 = rx_buffer s.
Proof.
  induction fuel as [|fuel IH]; intros a b s; cbn [gap_loop]; [done|]. destruct (_ =? _); [done|].
  specialize (IH (next_seq a) b (add_nak_entry a s)). destruct (gap_loop _ _ _ _) as [s' ev]. cbn in *.
  destruct IH as [-> ->]. unfold add_nak_entry. by destruct (existsb _ _).
Qed.

Lemma receive_new_flushed q d s : rx_buffer s = [] → flushed_in (state s) (receive_new_data q d s).
Proof.
  intros Hr. unfold receive_new_data. cbv zeta.
  destruct (_ && _); [by apply flushed_deliver|].
  destruct (_ && _); [apply flushed_slot; intros i; by apply flushed_ret|].
  destruct (seq12_gt _ _).
  { destruct (gap_loop_same 4096 (l_v_r s) (compute_l_seq q s) s) as [E1 E2]. destruct (gap_loop _ _ _ _) as [s' ev].
    cbn in E1, E2. apply flushed_slot. intros i. apply flushed_ret; cbn; congruence. }
  destruct (seq12_lt _ _); [by apply flushed_ret|]. apply flushed_slot. intros i.
  destruct (reseq_buffer s !! i); [by apply flushed_ret|].
  destruct (_ =? _); [by apply flushed_deliver|by apply flushed_ret].
Qed.
Lemma receive_rexmit_flushed q d s : rx_buffer s = [] → flushed_in (state s) (receive_rexmit_data q d s).
Proof.
  intros Hr. unfold receive_rexmit_data. destruct (List.find _ _); [|by apply flushed_ret]. cbv zeta.
  apply flushed_slot. intros i. destruct (_ !! i); [by apply flushed_ret|].
  destruct (_ =? _); [by apply flushed_deliver|by apply flushed_ret].
Qed.
Lemma receive_segmented_flushed q sqi l rx k d s : rx_buffer s = [] → flushed_in (state s) (receive_segmented q sqi l rx k d s).
Proof.
  intros Hr. assert (∀ rx q d, flushed_in (state s) (receive_assembled rx q d (set_seg_reassembly None s))) as Ha.
  { intros [] q' d'; [by apply (receive_rexmit_flushed _ _ (set_seg_reassembly None s))|by apply (receive_new_flushed _ _ (set_seg_reassembly None s))]. }
  unfold receive_segmented. destruct sqi.
  - apply flushed_slot. intros segs. cbv zeta. destruct (if l then _ else _); [apply Ha|by apply flushed_ret].
  - destruct (seg_reassembly s); [|by apply flushed_ret]. destruct (negb _); [by apply flushed_ret|].
    apply flushed_slot. intros r'. destruct (if last_seg_seen r' then _ else _); [apply Ha|by apply flushed_ret].
Qed.

(** A NAK of the peer only fills the retransmission queue. *)
Definition queues (f : Rlp3Session → rust Rlp3Session) : Prop := ∀ s s', f s = Some s' → state s' = state s ∧ rx_buffer s' = rx_buffer s.
Lemma queues_rexmit x : queues (queue_retransmission x).
Proof.
  intros s s'. unfold queue_retransmission. destruct (existsb _ _); [by intros [= <-]|]. intros E.
  apply bind_Some in E as (i & _ & E). destruct (sent_buffer s !! i); by injection E as <-.
Qed.
Lemma queues_bind f g : queues f → queues g → queues (λ s, s ← f s; g s).
Proof. intros Hf Hg s s' E. apply bind_Some in E as (s1 & [<- <-]%Hf & E). by apply Hg. Qed.
Lemma queues_range fuel : ∀ x last, queues (queue_range fuel x last).
Proof.
  induction fuel as [|fuel IH]; intros x last s s'; cbn [queue_range]; [by intros [= <-]|]. intros E.
  apply bind_Some in E as (s1 & E1 & E). apply queues_rexmit in E1 as [<- <-].
  destruct (_ =? _); [by injection E as <-|by eapply IH].
Qed.
Lemma queues_foldM {A} (f : A → Rlp3Session → rust Rlp3Session) l : (∀ a, queues (f a)) → queues (foldM f l).
Proof.
  intros Hf s. unfold foldM. assert (∀ acc s', foldl (λ acc a, s ← acc; f a s) acc l = Some s' →
    ∃ s0, acc = Some s0 ∧ state s' = state s0 ∧ rx_buffer s' = rx_buffer s0) as Hl.
  { induction l as [|a l IH]; intros acc s'; cbn [foldl]; [intros ->; by exists s'|]. intros (s1 & E & Hs)%IH.
    apply bind_Some in E as (s0 & -> & E%Hf). exists s0. split; [done|]. destruct Hs as [-> ->]. apply E. }
  intros s' (s0 & [= <-] & Hs)%Hl. exact Hs.
Qed.
Lemma process_nak_queues q hi p s s' : process_nak q hi p s = Some s' → state s' = state s ∧ rx_buffer s' = rx_buffer s.
Proof.
  unfold process_nak. destruct p as [es|es|es|es]; intros E; refine (queues_foldM _ _ _ (set_l_v_n_peer _ s) s' E);
    intros e; [apply queues_range| |apply queues_rexmit..].
  apply queues_bind; [apply queues_rexmit|]. apply queues_foldM. intros bit s1 s2. destruct (_ =? _); [by intros [= <-]|apply queues_rexmit].
Qed.

(** What a frame leaves: data transfer, or a session with nothing handed up and nothing awaited. *)
Definition settled (r : rust (Rlp3Session * list RlpEvent)) : Prop :=
  ∀ s ev, r = Some (s, ev) → rx_buffer s = [] ∧ (state s = DataTransfer ∨ nak_list s = [] ∧ Rlp3B.delivered ev = []).
Lemma settled_flushed r : flushed_in DataTransfer r → settled r.
Proof. intros Hr s ev [? ?]%Hr. auto. Qed.
Lemma settled_ret s ev : rx_buffer s = [] → nak_list s = [] → Rlp3B.delivered ev = [] → settled (Some (s, ev)).
Proof. intros ? ? ? s' ev' [= <- <-]. auto. Qed.
Lemma settled_app r l : Rlp3B.delivered l = [] → settled r → settled ('(s, ev) ← r; Some (s, l ++ ev)).
Proof.
  intros Hl Hr s ev E. apply bind_Some in E as ([s1 ev1] & E1 & [= <- <-]). destruct (Hr s1 ev1 E1) as [? [?|[? Hd]]]; [by auto|].
  split; [done|]. right. split; [done|]. unfold Rlp3B.delivered in *. by rewrite fmap_app, join_app, Hl, Hd.
Qed.

Lemma process_data_settled f s : rx_buffer s = [] → state s = DataTransfer → settled (process_data_transfer f s).
Proof.
  intros Hr Hs. unfold process_data_transfer. destruct (is_sync f); [by apply settled_ret|]. apply settled_flushed.
  rewrite <- Hs. destruct f as [seq ct iv np|seq hi p|seq r d|seq sqi l r h q d|seq r d|seq hi|seq hi|seq]; try by apply flushed_ret.
  - intros s' ev E. apply bind_Some in E as (s1 & [E1 E2]%process_nak_queues & [= <- <-]). by rewrite E1, E2.
  - destruct r; [by apply receive_rexmit_flushed|]. case_decide; [by apply flushed_ret|by apply receive_new_flushed].
  - by apply receive_segmented_flushed.
  - destruct r; [by apply receive_rexmit_flushed|by apply receive_new_flushed].
Qed.
Lemma process_frame_settled f s : rx_buffer s = [] → (nak_list s ≠ [] → state s = DataTransfer) → settled (process_frame f s).
Proof.
  intros Hr Hn. unfold process_frame. assert (state s = DataTransfer ∨ nak_list s = []) as Hn'.
  { destruct (nak_list s); [by right|left; by apply Hn]. }
  assert (settled (enter_with f s)) as He. { apply (settled_app _ [StateChanged DataTransfer]); [done|]. by apply process_data_settled. }
  destruct (state s) eqn:Es; try (destruct Hn' as [|Hn']; [done|]); [done| | | |by apply process_data_settled].
  - unfold process_sync_state. destruct f as [seq [] iv np|seq hi p|seq r d|seq sqi l r h q d|seq r d|seq hi|seq hi|seq]; by apply settled_ret.
  - unfold process_sync_ack_state.
    destruct f as [seq [] iv np|seq hi p|seq r d|seq sqi l r h q d|seq r d|seq hi|seq hi|seq]; try exact He; by apply settled_ret.
  - unfold process_ack_state.
    destruct f as [seq [] iv np|seq hi p|seq r d|seq sqi l r h q d|seq r d|seq hi|seq hi|seq]; try exact He; by apply settled_ret.
Qed.
Lemma receive_decoded_settled f s : rx_buffer s = [] → (nak_list s ≠ [] → state s = DataTransfer) → settled (receive_decoded f s).
Proof.
  intros Hr Hn. unfold receive_decoded. destruct (should_reinitialize_from_control f).
  - apply settled_app; [by case_decide|]. by apply process_frame_settled.
  - apply settled_app; [done|]. by apply process_frame_settled.
Qed.

Lemma tick_flushed s s' ev : rx_buffer s = [] → tick_nak_timers s = Some (s', ev) →
  rx_buffer s' = [] ∧ (nak_list s = [] → nak_list s' = [] ∧ ev = []).
Proof.
  intros Hr. unfold tick_nak_timers. edestruct queue_groups_controls as [p ->].
  set (ticked := tick_entry _ _ _ _ <$> nak_list s). case_decide as Ed.
  - intros [= <- <-]. split; [done|]. intros En. subst ticked. cbn. by rewrite En.
  - intros E. split.
    + apply bind_Some in E as (s1 & _ & E). unfold flush_delivery_events in E. case_decide; by injection E as <- <-.
    + intros En. destruct Ed. subst ticked. by rewrite En.
Qed.

(** The bearer between two operations. *)
Definition steady3 (b : Rlp3B.Rlp3Backend) : Prop :=
  let s := Rlp3B.session b in inv3 s ∧ rx_buffer s = [] ∧ (nak_list s ≠ [] → state s = DataTransfer).

Lemma rlp3_receive_steady bits rate b b' d : steady3 b → Rlp3B.receive bits rate b = Some (b', d) →
  steady3 b' ∧ (d ≠ None → state (Rlp3B.session b') = DataTransfer ∨ nak_list (Rlp3B.session b) ≠ []).
Proof.
  destruct b as [s]. intros (Hi & Hr & Hn). cbn in Hi, Hr, Hn. unfold Rlp3B.receive. cbn [Rlp3B.session]. intros E.
  destruct (receive_frame_ok bits (Rlp3B.rate_of rate) s Hi) as (s1 & ev & E1 & Hi1 & _). rewrite E1, bind_some in E.
  assert (rx_buffer s1 = [] ∧ (state s1 = DataTransfer ∨ nak_list s1 = [] ∧ (nak_list s = [] → Rlp3B.delivered ev = []))) as [Hr1 Hs1].
  { clear E. unfold receive_frame in E1. set (s0 := if decide _ then _ else s) in E1.
    assert (rx_buffer s0 = [] ∧ (nak_list s0 ≠ [] → state s0 = DataTransfer) ∧ (nak_list s = [] → nak_list s0 = [])) as (Hr0 & Hn0 & Hx)
      by (subst s0; clear E1; case_decide; [split_and!; [done|by intros []|done]|done]). clearbody s0. apply bind_Some in E1 as ([s2 ev2] & Et & E1).
    pose proof (tick_state _ _ _ Et) as Est. pose proof (tick_flushed _ _ _ Hr0 Et) as [Hr2 Hn2].
    assert (nak_list s2 ≠ [] → state s2 = DataTransfer) as Hn2'.
    { intros Hy. rewrite Est. apply Hn0. intros Hz. by destruct (Hn2 Hz). }
    assert (state s2 = DataTransfer ∨ nak_list s2 = [] ∧ (nak_list s = [] → Rlp3B.delivered ev2 = [])) as Hs2.
    { destruct (decide (nak_list s2 = [])) as [Ey|Ey]; [|left; by apply Hn2']. right. split; [done|]. intros Hz. by destruct (Hn2 (Hx Hz)) as [_ ->]. }
    case_decide; [by injection E1 as <- <-|]. apply bind_Some in E1 as (f & _ & E1).
    destruct f as [f|]; [|by injection E1 as <- <-]. apply bind_Some in E1 as ([s3 ev3] & E3 & [= <- <-]).
    destruct (receive_decoded_settled f s2 Hr2 Hn2' s3 ev3 E3) as [? [?|[? Hd3]]]; [by auto|]. split; [done|]. right. split; [done|].
    intros Hz. destruct (Hn2 (Hx Hz)) as [_ ->]. exact Hd3. }
  unfold receive_data in E. rewrite decide_True in E by done. injection E as <- <-. cbn. split.
  - split_and!; [done|done|]. intros Hy. by destruct Hs1 as [|[? _]].
  - rewrite app_nil_r. intros Hd. destruct Hs1 as [|[_ Hs1]]; [by left|]. right. intros Hz. by rewrite (Hs1 Hz) in Hd.
Qed.

(** Sending leaves the receiver alone. *)
Definition same_rx (s s' : Rlp3Session) : Prop := rx_buffer s' = rx_buffer s ∧ nak_list s' = nak_list s.
Lemma build_data_backend rate allow s s' bits : build_data_frame rate allow s = Some (s', bits) → same_rx s s' ∧ state s' = state s.
Proof.
  assert (∀ s s' bits, idle_or_fill s = Some (s', bits) → same_rx s s' ∧ state s' = state s) as Hi.
  { intros s1 s2 b. unfold idle_or_fill. cbv zeta. case_match; intros E; apply bind_Some in E as (? & _ & [= <- _]); done. }
  unfold build_data_frame. cbv zeta. case_decide.
  { destruct (sub_rate_info_bits rate); [|by intros [= <- _]]. intros E. by apply bind_Some in E as (? & _ & [= <- _]). }
  destruct (reverse _) as [|ctrl rest]; [|intros E; by apply bind_Some in E as (? & _ & [= <- _])].
  destruct (negb allow); [apply Hi|]. destruct (rexmit_queue s); [|intros E; by apply bind_Some in E as (? & _ & [= <- _])].
  case_decide; [|apply Hi]. unfold build_new_data_frame. destruct (new_data_frame _) as [f n]. intros E.
  apply bind_Some in E as (i & _ & E). by apply bind_Some in E as (? & _ & [= <- _]).
Qed.
Lemma next_frame_backend rate allow s s' bits : (nak_list s ≠ [] → state s = DataTransfer) →
  next_frame_with_payload rate allow s = Some (s', bits) →
  (rx_buffer s = [] → rx_buffer s' = []) ∧ (nak_list s' ≠ [] → nak_list s ≠ [] ∧ state s' = DataTransfer).
Proof.
  intros Hn. unfold next_frame_with_payload. set (s0 := if decide _ then _ else s).
  assert ((rx_buffer s = [] → rx_buffer s0 = []) ∧ (nak_list s0 ≠ [] → nak_list s ≠ [] ∧ state s0 = DataTransfer)) as [Hr0 Hn0]
    by (subst s0; case_decide; [split; [done|by intros []]|by auto]). clearbody s0. cbv zeta.
  assert (same_rx s0 s' → state s' = state s0 ∨ state s' = DataTransfer → (rx_buffer s = [] → rx_buffer s' = []) ∧
    (nak_list s' ≠ [] → nak_list s ≠ [] ∧ state s' = DataTransfer)) as Hk.
  { intros [-> ->] Hs. split; [done|]. intros Hy. destruct (Hn0 Hy) as [? E0]. split; [done|]. destruct Hs as [->|?]; done. }
  destruct (state s0) eqn:Es; intros E; [done| | | |].
  1,2: apply bind_Some in E as (? & _ & [= <- <-]); apply Hk; [done|by left].
  2: { destruct (build_data_backend _ _ _ _ _ E) as [Hs1 Hs2]. apply Hk; [done|right; congruence]. }
  destruct (_ <? _); [|apply bind_Some in E as (? & _ & [= <- <-]); apply Hk; [done|by left]].
  destruct (build_data_backend _ _ _ _ _ E) as [Hs1 Hs2]. apply Hk; [done|by right].
Qed.
Lemma next_supplemental_backend n s s' r : next_supplemental_frame n s = Some (s', r) → same_rx s s' ∧ state s' = state s.
Proof.
  unfold next_supplemental_frame. destruct (supplemental_format_c_data_len n), (supplemental_format_d_data_len n); try by intros [= <- _].
  case_decide; [by intros [= <- _]|]. destruct (split_first _ _) as [[[pre e] post]|].
  - unfold supplemental_rexmit. destruct (supplemental_format_d_segment_data_len _ _); [|by intros [= <- _]]. cbv zeta.
    destruct (_ || _).
    + intros E. apply bind_Some in E as (d & _ & E). apply bind_Some in E as ([b|] & _ & E); [|by injection E as <- _].
      injection E as <- _. by case_bool_decide.
    + intros E. apply bind_Some in E as ([b|] & _ & E); by injection E as <- _.
  - unfold supplemental_new. cbv zeta. case_decide; [by intros [= <- _]|]. intros E.
    apply bind_Some in E as ([b|] & _ & E); [|by injection E as <- _]. by apply bind_Some in E as (i & _ & [= <- _]).
Qed.
Lemma take_blocks_same fuel n m : ∀ blocks s s' r, Rlp3B.take_blocks fuel n m blocks s = Some (s', r) → same_rx s s' ∧ state s' = state s.
Proof.
  induction fuel as [|fuel IH]; intros blocks s s' r; cbn [Rlp3B.take_blocks]; [by intros [= <- _]|].
  case_decide; [|by intros [= <- _]]. intros E. apply bind_Some in E as ([s1 b] & [[E1 E2] E3]%next_supplemental_backend & E).
  destruct b; [|by injection E as <- _]. apply IH in E as [[F1 F2] F3]. unfold same_rx. by rewrite F1, F2, F3.
Qed.

Lemma rlp3_next_steady allow b b' f : steady3 b → Rlp3B.next allow b = Some (b', f) →
  steady3 b' ∧ (nak_list (Rlp3B.session b') ≠ [] → nak_list (Rlp3B.session b) ≠ []).
Proof.
  destruct b as [s]. intros (Hi & Hr & Hn). cbn in Hi, Hr, Hn. unfold Rlp3B.next. cbv zeta. cbn [Rlp3B.session].
  set (rate := if (if decide _ then _ else _) : bool then Full else Quarter). intros E. apply bind_Some in E as ([s1 bits] & E & [= <- <-]).
  assert (next_frame_with_payload rate allow s = Some (s1, bits)) as E1 by by destruct allow.
  destruct (next_frame_backend _ _ _ _ _ Hn E1) as [H1 H2]. cbn. split; [|intros Hy; by apply H2].
  split_and!; [|by apply H1|intros Hy; by apply H2]. by eapply (proj2 (rlp3_next_panics_iff rate allow s Hi)).
Qed.
Lemma rlp3_sch_steady n rate b b' f : steady3 b → Rlp3B.next_sch n rate b = Some (b', f) →
  steady3 b' ∧ (nak_list (Rlp3B.session b') ≠ [] → nak_list (Rlp3B.session b) ≠ []).
Proof.
  destruct b as [s]. intros (Hi & Hr & Hn) E. cbn in Hi, Hr, Hn.
  destruct (sch_frame_sized n rate (Rlp3B.mkRlp3 s) Hi) as (b1 & r & E1 & Hi1 & _). rewrite E in E1. injection E1 as <- <-.
  assert (same_rx s (Rlp3B.session b') ∧ state (Rlp3B.session b') = state s) as [[E1 E2] E3].
  { clear Hi1. revert E. unfold Rlp3B.next_sch. destruct (from_rate_bps rate); [|by intros [= <- _]].
    case_decide; [by intros [= <- _]|]. destruct (sch_type3_data_block_bits _); [|by intros [= <- _]]. intros E.
    apply bind_Some in E as ([s1 x] & [[E1 E2] E3]%next_supplemental_backend & E).
    apply bind_Some in E as ([s2 y] & [[E4 E5] E6]%take_blocks_same & [= <- _]). cbn in *.
    unfold same_rx. by rewrite E4, E5, E6. }
  unfold steady3. rewrite E1, E2, E3. by split.
Qed.

#[export] Program Instance rlp3_steady : SteadyBackend Rlp3B.Rlp3Backend := {
  steady := steady3;
  awaiting b := nak_list (Rlp3B.session b) ≠ []
}.
Next Obligation. intros b (_ & _ & Hn) Ha. cbn. by rewrite (Hn Ha). Qed.
Next Obligation.
  intros bits rate b b' d Hb E. destruct (rlp3_receive_steady _ _ _ _ _ Hb E) as [H1 H2]. split; [done|]. intros Hd. cbn.
  destruct (H2 Hd) as [->|?]; [by left|by right].
Qed.
Next Obligation. intros d [s] (Hi & Hr & Hn). split; [|done]. by split_and!; [apply inv3_tx| |]. Qed.
Next Obligation. intros. by eapply rlp3_next_steady. Qed.
Next Obligation. intros. by eapply rlp3_next_steady. Qed.
Next Obligation. intros. by eapply rlp3_sch_steady. Qed.
Lemma steady3_new c : steady3 (Rlp3B.new c).
Proof. split_and!; [apply inv3_new|done|by intros []]. Qed.

(** The bearer sends at full rate whenever a control frame waits, so it panics exactly when the NAK due does not fit. *)
Lemma rlp3_bearer_panics allow b (s := Rlp3B.session b) : steady3 b →
  Rlp3B.next allow b = None ↔ builds s = true ∧ ∃ f, last (pending_controls s) = Some f ∧ nak_too_long (mux_option (config s)) f.
Proof.
  subst s. destruct b as [s]. intros (Hi & _). cbn in Hi |- *. unfold Rlp3B.next. cbv zeta. cbn [Rlp3B.session].
  set (has_data := if decide _ then _ else _ : bool).
  assert (∀ m : rust (Rlp3Session * list Z), ('(s, bits) ← m; Some (Rlp3B.mkRlp3 s, (bits, Rlp3B.bps_of (if has_data then Full else Quarter)))) = None
    ↔ m = None) as -> by (intros [[]|]; done).
  assert ((if allow then next_frame (if has_data then Full else Quarter) s else next_frame_control_only (if has_data then Full else Quarter) s)
    = next_frame_with_payload (if has_data then Full else Quarter) allow s) as -> by by destruct allow.
  rewrite (proj1 (rlp3_next_panics_iff _ allow s Hi)). split; [tauto|]. intros (Hb & f & Hf & Hn).
  assert (has_data = true) as ->; [|by eauto]. subst has_data.
  assert (pending_controls s ≠ []) as Hp by (intros E; by rewrite E in Hf).
  case_decide; [done|]. destruct allow; unfold has_pending_controls, has_pending_control_frames; rewrite (bool_decide_eq_false_2 _ Hp); cbn;
    by rewrite ?orb_true_r.
Qed.
