(* ===== verification/BackendProofs.v ===== *)
(** * What the bearers promise

    The bearers are steady ([SteadyBackend]: the RLP bearers hand up data only in data
    transfer), the octet bearers and RLP type 1 never panic ([TotalBackend]), the octet bearers
    carry the queued octets in order ([OctetBearer]), and the RLP type 1 session
    never makes a frame that its encoder refuses. *)
From S2P Require Import Prelude BitString Rlp RlpProofs RlpSession RlpSessionProofs Rlp2Frames Rlp2Session RlpBackend.

(** ** RLP type 1: frames that can be sent *)
Section Transmit.
Context (mux : RlpMuxOption).

(** A frame that goes out at full rate. *)
Definition sendable (f : RlpFrame) : Prop := is_u8 (seq f) ∧ encodable f Full mux = true ∧ is_idle f = false.
(** What is queued, remembered and collected: frames that can be sent, and octets. *)
Definition tx_ok (s : RlpSession) : Prop :=
  (is_u8 (v_s s) ∧ Forall sendable (pending_controls s) ∧ Forall sendable (pending_retransmissions s) ∧
   ∀ k f, tx_history s !! k = Some f → sendable f) ∧
  (bytes (rx_buffer s) ∧ (∀ k d, reseq_buffer s !! k = Some d → bytes d) ∧
   ∀ a, segment_assembly s = Some a → bytes (asm_data a)).
Definition frame_bytes (f : RlpFrame) : Prop :=
  match f with Data _ d | DataFormatB _ d | Segmented _ _ d => bytes d | _ => True end.

Lemma tx_ok_initialize s : tx_ok (initialize s).
Proof. split; split_and!; cbn; done || apply Forall_nil_2 || (unfold is_u; lia). Qed.

Lemma control_sendable sq ct em fi la : is_u8 sq → sendable (Control sq ct em fi la).
Proof. by intros. Qed.

Lemma queue_naks_tx fuel : ∀ a b s, tx_ok s → tx_ok (queue_naks_loop fuel a b s).
Proof.
  induction fuel as [|fuel IH]; intros a b s ((Hv & Hc & Hr & Hh) & Hx); [done|]. cbn [queue_naks_loop].
  set (s1 := if _ && _ then _ else s). assert (tx_ok s1) as H1.
  { subst s1. destruct (_ && _); [|done]. split; [split_and!; try done|done]. cbn. apply Forall_app. split; [done|].
    by apply Forall_singleton, control_sendable. }
  destruct (a =? b); [done|]. by apply IH.
Qed.

Lemma queue_naks_range_tx a b s : tx_ok s → tx_ok (queue_naks_for_missing_range a b s).
Proof. apply queue_naks_tx. Qed.
Lemma set_v_r_tx x s : tx_ok s → tx_ok (set_v_r x s).
Proof. done. Qed.

Lemma deliver_tx s : tx_ok s → tx_ok (deliver_contiguous s).
Proof.
  unfold deliver_contiguous. generalize 257%nat as fuel. intros fuel. revert s.
  induction fuel as [|fuel IH]; intros s Hs; [done|]. cbn [deliver_contiguous_loop]. destruct (reseq_buffer s !! v_n s) as [d|] eqn:Ed; [|done]. apply IH.
  destruct Hs as (Ht & Hx & Hq & Ha). split; [done|]. split_and!; [| |done].
  - cbn. apply bytes_app. split; [done|]. by eapply Hq.
  - intros k e. cbn. intros [_ He]%lookup_delete_Some. by eapply Hq.
Qed.
(** What an operation leaves and hands up. *)
Definition step_ok (r : RlpSession * option (list Z)) : Prop := tx_ok r.1 ∧ bytes (default [] r.2).
Lemma step_none s : tx_ok s → step_ok (s, None).
Proof. intros Hs. split; [done|apply Forall_nil_2]. Qed.
Lemma flush_tx s : tx_ok s → step_ok (flush s).
Proof.
  intros Hs. split; [|rewrite flush_default; apply Hs]. rewrite flush_fst. destruct Hs as (Ht & Hx & Hq & Ha).
  split; [done|]. split_and!; [apply Forall_nil_2|done|done].
Qed.
Lemma window_tx (c : bool) s : tx_ok s → step_ok (if c then (initialize s, None) else flush s).
Proof. intros Hs. destruct c; [apply step_none, tx_ok_initialize|by apply flush_tx]. Qed.
Lemma store_tx q d s : bytes d → tx_ok s → tx_ok (set_reseq_buffer (<[q := d]> (reseq_buffer s)) s).
Proof.
  intros Hd (Ht & Hx & Hq & Ha). split; [done|]. split_and!; [done| |done]. intros k e. cbn.
  intros [[_ <-]|[_ He]]%lookup_insert_Some; [done|]. by eapply Hq.
Qed.
Lemma append_tx d s : bytes d → tx_ok s → tx_ok (set_rx_buffer (rx_buffer s ++ d) s).
Proof. intros Hd (Ht & Hx & Hq & Ha). split; [done|]. split_and!; [by apply bytes_app|done|done]. Qed.

Lemma receive_data_tx q d s : bytes d → tx_ok s → step_ok (receive_data q d s).
Proof.
  intros Hd Hs. unfold receive_data. cbv zeta.
  assert (tx_ok (set_nak_outstanding (nak_outstanding s ∖ {[q]}) s)) as H0 by exact Hs.
  destruct (seq_compare q (v_r s)).
  - destruct (seq_lt _ _); [by apply step_none|]. destruct (bool_decide _); [|by apply flush_tx].
    apply flush_tx. pose proof (store_tx q d _ Hd H0) as H1. destruct (_ =? _); [apply deliver_tx|]; exact H1.
  - destruct (_ =? _); [apply flush_tx, deliver_tx, append_tx; [done|exact H0]|apply window_tx].
    apply (store_tx q d (set_v_r _ _)); [done|exact H0].
  - apply window_tx, set_v_r_tx, queue_naks_range_tx. by apply store_tx.
Qed.

Lemma process_nak_tx fuel : ∀ a b s, tx_ok s → tx_ok (process_nak_loop fuel a b s).
Proof.
  induction fuel as [|fuel IH]; intros a b s Hs; [done|]. cbn [process_nak_loop].
  destruct (_ || _); [apply tx_ok_initialize|]. cbv zeta. destruct (tx_history s !! a) as [f|] eqn:Ef.
  - assert (tx_ok (set_pending_retransmissions (pending_retransmissions s ++ [f]) s)) as H1.
    { destruct Hs as ((Hv & Hc & Hr & Hh) & Hx). split; [split_and!; try done|done]. cbn. apply Forall_app. split; [done|].
      apply Forall_singleton. by eapply Hh. }
    destruct (a =? b); [done|]. by apply IH.
  - destruct (a =? b); [done|]. by apply IH.
Qed.

Lemma idle_tx q s : tx_ok s → tx_ok (update_vr_for_idle q s).
Proof. intros Hs. unfold update_vr_for_idle. destruct (seq_gt _ _); [|done]. by apply set_v_r_tx, queue_naks_range_tx. Qed.

Lemma assembly_tx a s : (∀ x, a = Some x → bytes (asm_data x)) → tx_ok s → tx_ok (set_segment_assembly a s).
Proof. intros Ha (Ht & Hx & Hq & _). split; [done|]. by split_and!. Qed.

Lemma segmented_tx q st d s : bytes d → tx_ok s → step_ok (receive_segmented q st d s).
Proof.
  intros Hd Hs. destruct st; cbn [receive_segmented]; [| | |by apply step_none].
  - apply step_none, assembly_tx; [|done]. by intros x [= <-].
  - destruct (segment_assembly s) as [a|] eqn:Ea; [|by apply step_none]. destruct (_ || _); apply step_none, assembly_tx; try done.
    intros x [= <-]. cbn. apply bytes_app. split; [|done]. by eapply Hs.
  - destruct (segment_assembly s) as [a|] eqn:Ea; [|by apply step_none]. cbv zeta.
    assert (tx_ok (set_segment_assembly None s)) as H1 by by apply assembly_tx.
    destruct (negb _); [by apply step_none|]. apply receive_data_tx; [|done]. apply bytes_app. split; [|done]. by eapply Hs.
Qed.

Lemma process_frame_tx f s : frame_bytes f → tx_ok s → step_ok (process_data_frame f s).
Proof.
  intros Hf Hs. destruct f as [sq ct em fi la|sq data|sq data|sq st data|sq]; cbn [process_data_frame].
  - destruct ct; try by apply step_none. by apply step_none, process_nak_tx.
  - case_decide; [by apply step_none, idle_tx|by apply receive_data_tx].
  - by apply receive_data_tx.
  - by apply segmented_tx.
  - by apply step_none, idle_tx.
Qed.

Lemma receive_frame_tx f s : (∀ g, f = Some g → frame_bytes g) → tx_ok s → step_ok (receive_frame f s).
Proof.
  intros Hf Hs. unfold receive_frame. set (s0 := if decide _ then _ else s).
  assert (tx_ok s0) as H0 by (subst s0; case_decide; [apply tx_ok_initialize|done]).
  clearbody s0. destruct f as [f|]; [|destruct (_ <? _); apply step_none; [apply tx_ok_initialize|exact H0]].
  specialize (Hf f eq_refl). cbv zeta. set (s1 := set_consecutive_erasures 0 s0). assert (tx_ok s1) as H1 by exact H0.
  clearbody s1. clear s0 H0. assert (step_ok (s1, None)) as Hn by by apply step_none.
  assert (step_ok (process_data_frame f (enter_data_transfer s1))) as Hd by by apply process_frame_tx.
  destruct (state s1); [exact Hn| | | |].
  - destruct f as [sq [] em fi la| | | |]; exact Hn.
  - destruct f as [sq [] em fi la| | | |]; exact Hn || exact Hd.
  - destruct f as [sq [] em fi la| | | |]; first [exact Hn|exact Hd|apply step_none, tx_ok_initialize].
  - destruct (is_sync_frame f); [apply step_none, tx_ok_initialize|]. by apply process_frame_tx.
Qed.

(** What goes out, and at which rate. *)
Definition rate_of (f : RlpFrame) : RlpRate := if is_idle f then Eighth else Full.
Definition goes_out (f : RlpFrame) : Prop := is_u8 (seq f) ∧ encodable f (rate_of f) mux = true.
Lemma sendable_goes_out f : sendable f → goes_out f.
Proof. intros (H1 & H2 & H3). split; [done|]. unfold rate_of. by rewrite H3. Qed.

Lemma build_data_tx s : tx_ok s →
  tx_ok (build_data_frame mux s).1 ∧ ∃ f, (build_data_frame mux s).2 = SendFrame f ∧ goes_out f.
Proof.
  intros ((Hv & Hc & Hr & Hh) & Hx). unfold build_data_frame.
  destruct (pending_controls s) as [|f rest] eqn:Ec.
  2: { inversion Hc; subst. split; [by split|]. eexists. split; [done|]. by apply sendable_goes_out. }
  destruct (pending_retransmissions s) as [|f rest] eqn:Er.
  2: { inversion Hr; subst. cbn. split; [split; [split_and!; cbn; rewrite ?Ec; done|done]|]. eexists. split; [done|]. by apply sendable_goes_out. }
  assert (tx_ok s ∧ ∃ f, SendFrame (idle_frame (v_s s)) = SendFrame f ∧ goes_out f) as Hidle.
  { split; [unfold tx_ok; by rewrite Ec, Er|]. eexists. done. }
  case_decide as Hq; [exact Hidle|].
  assert (∀ len mk, sendable (mk (v_s s) (take len (tx_queue s))) →
    let r := (let data := take len (tx_queue s) in let frame := mk (v_s s) data in
      let s := set_tx_queue (drop len (tx_queue s)) s in
      let s := set_tx_history (<[v_s s := frame]> (tx_history s)) s in
      (set_v_s (wrapping_add 8 (v_s s) 1) s, SendFrame frame)) in
    tx_ok r.1 ∧ ∃ f, r.2 = SendFrame f ∧ goes_out f) as Hsend.
  { intros len mk Hf. cbn. split; [|eexists; split; [done|by apply sendable_goes_out]].
    split; [split_and!; cbn; rewrite ?Ec, ?Er; [by apply is_u_wrap|done|done|]|done]. intros k f Hk.
    destruct (decide (k = v_s s)) as [->|]; [rewrite lookup_insert_eq in Hk|rewrite lookup_insert_ne in Hk by done; by eapply Hh].
    by injection Hk as <-. }
  assert (∀ n, (0 < n)%nat → (n ≤ length (tx_queue s))%nat → (n ≤ max_len_for_rate Full mux)%nat →
    sendable (data_frame (v_s s) (take n (tx_queue s)))) as Hdata.
  { intros n H0 H1 H2. split_and!; [done| |].
    - cbn. apply bool_decide_eq_true. rewrite length_take. split; [done|lia].
    - cbn. apply bool_decide_eq_false. intros E%(f_equal length). rewrite length_take in E. cbn in E. lia. }
  assert (0 < length (tx_queue s))%nat by (destruct (tx_queue s); cbn; [done|lia]).
  repeat case_decide; try exact Hidle; apply Hsend.
  - split_and!; [done| |done]. cbn. apply bool_decide_eq_true. split; [done|]. rewrite length_take. lia.
  - apply Hdata; destruct mux; cbn in *; lia.
  - apply Hdata; destruct mux; cbn in *; lia.
Qed.

Lemma next_frame_tx s : tx_ok s →
  tx_ok (next_frame_for_mux mux s).1 ∧ ∃ f, (next_frame_for_mux mux s).2 = SendFrame f ∧ goes_out f.
Proof.
  intros Hs. unfold next_frame_for_mux. set (s0 := if decide _ then _ else s).
  assert (tx_ok s0 ∧ state s0 ≠ Uninitialized) as [H0 Hu].
  { subst s0. case_decide; [split; [apply tx_ok_initialize|done]|done]. }
  clearbody s0. assert (∀ ct s1, tx_ok s1 → tx_ok s1 ∧ ∃ f, SendFrame (Control (v_s s1) ct 0 0 0) = SendFrame f ∧ goes_out f) as Hctl.
  { intros ct s1 H1. split; [done|]. eexists. split; [done|]. split; [apply H1|done]. }
  destruct (state s0); [done|apply (Hctl Sync); exact H0|apply (Hctl SyncAck); exact H0| |by apply build_data_tx].
  destruct (_ <? _); [apply build_data_tx; exact H0|apply (Hctl Ack); exact H0].
Qed.
End Transmit.

(** ** RLP type 1: what comes in *)
Lemma get_octets_bytes bits off len d : get_octets bits off len = Some d → bytes d.
Proof.
  intros E%mapM_Some. apply Forall_forall. intros x [i Hx]%list_elem_of_lookup.
  destruct (Forall2_lookup_r _ _ _ _ _ E Hx) as (j & _ & Hj). apply bind_Some in Hj as (v & _ & Hj).
  injection Hj as <-. by apply is_u_wrap.
Qed.

Lemma decode_unsegmented_bytes bits sq rate mux f : decode_unsegmented bits sq rate mux = Some (Some f) → frame_bytes f.
Proof.
  intros E. apply bind_Some in E as (len & _ & E). cbv zeta in E. case_decide; [done|]. case_decide.
  - injection E as <-. apply Forall_nil_2.
  - apply bind_Some in E as (d & Hd%get_octets_bytes & E). by injection E as <-.
Qed.
Lemma decode_control_bytes bits sq f : decode_control bits sq = Some (Some f) → frame_bytes f.
Proof.
  intros E. apply bind_Some in E as (ctl & _ & E). destruct (from_ctl_bits _); [|done].
  do 6 apply bind_Some in E as (? & _ & E). cbv zeta in E. case_decide; [done|]. by injection E as <-.
Qed.
Lemma decode_segmented_bytes bits sq rate mux f : decode_segmented bits sq rate mux = Some (Some f) → frame_bytes f.
Proof.
  intros E. apply bind_Some in E as (ctl & _ & E). destruct (segment_type_of _); [|done].
  case_decide; [injection E as <-; apply Forall_nil_2|]. apply bind_Some in E as (len & _ & E). cbv zeta in E.
  case_decide; [done|]. case_decide; [done|]. apply bind_Some in E as (d & Hd%get_octets_bytes & E). by injection E as <-.
Qed.
Lemma decode_non_full_bytes bits rate mux f : decode_non_full_rate bits rate mux = Some (Some f) → frame_bytes f.
Proof.
  intros E. apply bind_Some in E as (sq & _ & E). apply bind_Some in E as (b & _ & E).
  destruct (b =? 0); [by eapply decode_unsegmented_bytes|]. apply bind_Some in E as (b1 & _ & E).
  destruct (b1 =? 1); [by eapply decode_control_bytes|by eapply decode_segmented_bytes].
Qed.

Lemma decode_frame_bytes bits rate mux f : decode_frame_for_mux bits rate mux = Some (Some f) → frame_bytes f.
Proof.
  unfold decode_frame_for_mux. case_decide; [done|]. destruct rate; try apply decode_non_full_bytes.
  - unfold decode_full_rate. destruct mux; intros E; apply bind_Some in E as (ty & _ & E); cbv zeta in E;
      (destruct (_ =? _); [by eapply decode_non_full_bytes|]); (destruct (_ =? _); [|done]);
      apply bind_Some in E as (sq & _ & E); apply bind_Some in E as (d & Hd%get_octets_bytes & E); by injection E as <-.
  - intros E. apply bind_Some in E as (? & _ & E). apply bind_Some in E as (? & _ & E). apply bind_Some in E as (? & _ & E).
    case_decide; [done|]. by injection E as <-.
Qed.

(** The rates the session knows have room for every frame. *)
Lemma rate_from_bps_room mux bps rate : rate_from_bps mux bps = Some rate → (rate, mux) ≠ (Quarter, One).
Proof.
  destruct mux; [|congruence]. cbn [rate_from_bps].
  destruct (_ =? _); [congruence|]. destruct (_ =? _); [congruence|]. destruct (_ =? _); congruence.
Qed.

Lemma decode_in_rate mux bits bps :
  ∃ r, match rate_from_bps mux bps with Some rate => decode_frame_for_mux bits rate mux | None => Some None end = Some r ∧
    ∀ f, r = Some f → frame_bytes f.
Proof.
  destruct (rate_from_bps mux bps) as [rate|] eqn:Er; [|by exists None].
  destruct (decode_total bits rate mux) as (r & E & _); [by eapply rate_from_bps_room|]. exists r. split; [done|].
  intros f ->. by eapply decode_frame_bytes.
Qed.

(** ** Data only in data transfer *)
Lemma queue_naks_state fuel : ∀ a b s, RlpSession.state (queue_naks_loop fuel a b s) = RlpSession.state s.
Proof.
  induction fuel as [|fuel IH]; intros a b s; [done|]. cbn [queue_naks_loop]. destruct (_ && _), (_ =? _); by rewrite ?IH.
Qed.
Lemma queue_naks_range_state a b s : RlpSession.state (queue_naks_for_missing_range a b s) = RlpSession.state s.
Proof. apply queue_naks_state. Qed.
Lemma set_v_r_state x s : RlpSession.state (set_v_r x s) = RlpSession.state s.
Proof. done. Qed.
Lemma deliver_state s : RlpSession.state (deliver_contiguous s) = RlpSession.state s.
Proof.
  unfold deliver_contiguous. generalize 257%nat as fuel. intros fuel. revert s.
  induction fuel as [|fuel IH]; intros s; [done|]. cbn [deliver_contiguous_loop]. destruct (_ !! _); [|done]. by rewrite IH.
Qed.

(** An operation that hands something up ends in the state it began in. *)
Definition up_in (st : RlpState) (r : RlpSession * option (list Z)) : Prop := r.2 ≠ None → RlpSession.state r.1 = st.
Lemma none_up st s : up_in st (s, None).
Proof. by intros []. Qed.
#[local] Hint Resolve none_up : core.
Lemma flush_up st s : RlpSession.state s = st → up_in st (flush s).
Proof. intros <- _. by rewrite flush_fst. Qed.
Lemma window_up (c : bool) st s : RlpSession.state s = st → up_in st (if c then (initialize s, None) else flush s).
Proof. intros Hs. destruct c; [done|by apply flush_up]. Qed.

Lemma receive_data_up q d s : up_in (RlpSession.state s) (receive_data q d s).
Proof.
  unfold receive_data. cbv zeta. destruct (seq_compare q (v_r s)).
  - destruct (seq_lt _ _); [done|]. destruct (bool_decide _); apply flush_up; [|done].
    destruct (_ =? _); [|done]. by rewrite deliver_state.
  - destruct (_ =? _); [apply flush_up|by apply window_up]. by rewrite deliver_state.
  - apply window_up. by rewrite set_v_r_state, queue_naks_range_state.
Qed.

Lemma process_frame_up f s : up_in (RlpSession.state s) (process_data_frame f s).
Proof.
  destruct f as [sq ct em fi la|sq data|sq data|sq st data|sq]; cbn [process_data_frame]; [by destruct ct| |apply receive_data_up| |done].
  - case_decide; [apply none_up|apply receive_data_up].
  - destruct st; [done| | |done]; cbn [receive_segmented]; (destruct (segment_assembly s); [|done]).
    + by destruct (_ || _).
    + destruct (negb _); [done|]. apply (receive_data_up _ _ (set_segment_assembly None s)).
Qed.

Lemma receive_frame_up f s d : (receive_frame f s).2 = Some d → RlpSession.state (receive_frame f s).1 = DataTransfer.
Proof.
  unfold receive_frame. set (s0 := if decide _ then _ else s). clearbody s0.
  destruct f as [f|]; [|done]. cbv zeta. set (s1 := set_consecutive_erasures 0 s0). clearbody s1. clear s0 s.
  intros E. assert (∀ r, r.2 = Some d → up_in DataTransfer r → RlpSession.state r.1 = DataTransfer) as Hup.
  { intros r Er Hr. apply Hr. by rewrite Er. }
  destruct (RlpSession.state s1) eqn:Es; [done| | | |].
  - destruct f as [sq [] em fi la| | | |]; done.
  - destruct f as [sq [] em fi la| | | |]; try done; (apply Hup; [exact E|]); apply (process_frame_up _ (enter_data_transfer s1)).
  - destruct f as [sq [] em fi la| | | |]; try done; (apply Hup; [exact E|]); apply (process_frame_up _ (enter_data_transfer s1)).
  - destruct (is_sync_frame f); [done|]. apply Hup; [exact E|]. rewrite <- Es. apply process_frame_up.
Qed.

(** ** The instances *)
#[export] Program Instance rlp1_total : TotalBackend Rlp1.Rlp1Backend := {
  bearer_ok b := tx_ok (Rlp1.mux_option b) (Rlp1.session b);
  frame_ok _ _ := True
}.
Next Obligation. done. Qed.
Next Obligation.
  intros bits rate [s mux] Hb _. cbn in *. unfold Rlp1.receive. cbn.
  destruct (decode_in_rate mux bits rate) as (r & -> & Hr). rewrite bind_some.
  destruct (receive_frame_tx mux r s Hr Hb) as [H1 H2]. destruct (receive_frame r s) as [s' d].
  eexists _, _. split; [done|]. by split.
Qed.
Next Obligation. by intros d [s mux]. Qed.
Next Obligation.
  intros allow [s mux] Hb. cbn in *. unfold Rlp1.next. cbn. destruct (next_frame_tx mux s Hb) as (H1 & f & Ef & Hs & Hf).
  destruct (next_frame_for_mux mux s) as [s' out]. cbn [fst snd] in *. subst out.
  destruct (encode_ok_iff f (rate_of f) mux Hs) as (r & E & Hr). destruct (proj2 Hr Hf) as [bits ->].
  unfold rate_of in E. rewrite E. unfold Rlp1.expect. rewrite !bind_some. eexists _, _. by split.
Qed.
Next Obligation. intros. by apply rlp1_total_obligation_4. Qed.
Next Obligation. intros n rate b Hb. by eexists _, _. Qed.

#[export] Program Instance a10_total : TotalBackend A10.UnstructuredByteStreamBackend := {
  bearer_ok _ := True;
  frame_ok octets _ := bytes octets
}.
Next Obligation. apply Forall_nil_2. Qed.
Next Obligation.
  intros bits rate b _ Hb. cbn in *. eexists _, _. split; [done|]. split; [done|]. case_decide; [apply Forall_nil_2|done].
Qed.
Next Obligation. done. Qed.
Next Obligation. intros allow b _. cbn. unfold A10.next. destruct (_ || _); by eexists _, _. Qed.
Next Obligation.
  intros allow b _. cbn. unfold A10.next_full, A10.next. destruct (_ || _); [by eexists _, _|]. destruct (_ || _); by eexists _, _.
Qed.
Next Obligation. intros n rate b _. by eexists _, _. Qed.

Lemma pack_octet_u8 bits : is_u8 (Hrpd.pack_octet bits).
Proof.
  unfold Hrpd.pack_octet. assert (is_u8 0) as H0 by (unfold is_u; lia). revert H0. generalize 0 as acc.
  induction bits as [|b bits IH]; intros acc Ha; [done|]. cbn [foldl]. apply IH, is_u_lor; [lia|by apply is_u_wrap|].
  rewrite land_1. unfold is_u. pose proof (Z.mod_pos_bound b 2). lia.
Qed.

#[export] Program Instance hrpd_total : TotalBackend Hrpd.HrpdDefaultPacketBackend := {
  bearer_ok _ := True;
  frame_ok _ _ := True
}.
Next Obligation. done. Qed.
Next Obligation.
  intros bits rate b _ _. cbn. unfold Hrpd.receive. destruct (_ || _); eexists _, _; (split; [done|]); (split; [done|]); [apply Forall_nil_2|].
  case_decide; [apply Forall_nil_2|]. cbn. apply Forall_fmap, Forall_true. intros c. apply pack_octet_u8.
Qed.
Next Obligation. done. Qed.
Next Obligation. intros allow b _. cbn. unfold Hrpd.next. destruct (_ || _); by eexists _, _. Qed.
Next Obligation. intros. by apply hrpd_total_obligation_4. Qed.
Next Obligation. intros n rate b _. by eexists _, _. Qed.

(** ** What every bearer keeps *)
#[export] Program Instance a10_steady : SteadyBackend A10.UnstructuredByteStreamBackend := { steady _ := True; awaiting _ := False }.
Solve Obligations with (intros; cbn; auto).
#[export] Program Instance hrpd_steady : SteadyBackend Hrpd.HrpdDefaultPacketBackend := { steady _ := True; awaiting _ := False }.
Solve Obligations with (intros; cbn; auto).
#[export] Program Instance rlp1_steady : SteadyBackend Rlp1.Rlp1Backend := { steady _ := True; awaiting _ := False }.
Next Obligation. done. Qed.
Next Obligation.
  intros bits rate [s mux] b' d _. cbn. unfold Rlp1.receive. intros E. apply bind_Some in E as (r & _ & E).
  cbn in E. pose proof (receive_frame_up r s) as Hu. destruct (receive_frame r s) as [s' [d'|]]; injection E as <- <-; [|by split].
  cbn in *. split; [done|]. left. by rewrite (Hu d' eq_refl).
Qed.
Solve Obligations with (intros; cbn; auto).

Lemma deliver2_up f s d : (Session2.deliver f s).2 = Some d → Session2.state (Session2.deliver f s).1 = Session2.state s.
Proof. unfold Session2.deliver. repeat first [case_match | case_decide]; done. Qed.
Lemma receive2_up f s d : (Session2.receive_frame f s).2 = Some d → Session2.state (Session2.receive_frame f s).1 = Session2.DataTransfer.
Proof.
  unfold Session2.receive_frame. set (s0 := if decide _ then _ else s). clearbody s0. destruct f as [f|]; [|done]. cbv zeta.
  set (s1 := Session2.set_erasures 0 s0). assert (Session2.state s1 = Session2.state s0) as E1 by done. clearbody s1.
  assert (∀ s2, Session2.state s2 = Session2.DataTransfer → (Session2.deliver f s2).2 = Some d →
    Session2.state (Session2.deliver f s2).1 = Session2.DataTransfer) as Hd by (intros s2 <-; apply deliver2_up).
  destruct (Session2.state s1) eqn:Es; [done| | | |destruct (Session2.is_sync f); [done|by apply Hd]];
    destruct f as [? [] ?| | | |]; try done; by apply Hd.
Qed.
#[export] Program Instance rlp2_steady : SteadyBackend Rlp2B.Rlp2Backend := { steady _ := True; awaiting _ := False }.
Next Obligation. done. Qed.
Next Obligation.
  intros bits rate [s] b' d _. cbn. unfold Rlp2B.receive. intros E. apply bind_Some in E as (r & _ & E).
  cbn in E. pose proof (receive2_up r s) as Hu. destruct (Session2.receive_frame r s) as [s' [d'|]]; injection E as <- <-; [|by split].
  cbn in *. split; [done|]. left. by rewrite (Hu d' eq_refl).
Qed.
Solve Obligations with (intros; cbn; auto).

(** ** The octets go out in order *)
#[export] Program Instance a10_octets : OctetBearer A10.UnstructuredByteStreamBackend := { queued := A10.tx_queue }.
Next Obligation. done. Qed.
Next Obligation. done. Qed.
Next Obligation. intros b E. cbn in *. unfold A10.next. by rewrite bool_decide_eq_true_2. Qed.
Next Obligation.
  intros b E _. cbn in *. unfold A10.next. rewrite bool_decide_eq_false_2 by done. cbn [negb orb].
  set (n := Nat.min _ _). assert (take n (A10.tx_queue b) ≠ []) as Hn.
  { subst n. destruct (A10.tx_queue b); [done|]. by rewrite Nat.min_comm. }
  eexists _, _, _. split; [done|]. split_and!; [exact Hn|exact Hn|symmetry; apply take_drop|].
  intros p. exists p. unfold A10.receive. by rewrite decide_False.
Qed.

Lemma pack_to_bits x : is_u8 x → Hrpd.pack_octet (to_bits 8 x) = x.
Proof.
  intros Hx. assert (Forall (λ x, Hrpd.pack_octet (to_bits 8 x) = x) (seqZ 0 256)) as HF.
  { apply (bool_decide_unpack _). vm_compute. exact I. }
  rewrite Forall_forall in HF. apply HF, elem_of_seqZ. unfold is_u in Hx. lia.
Qed.
Lemma unpack_octets data : bytes data → Hrpd.pack_octet <$> chunks 8 (octet_bits data) = data.
Proof.
  induction data as [|x data IH]; intros Hd; [done|]. inversion Hd; subst. rewrite octet_bits_cons, chunks_cons; [|lia|].
  2: { intros E%(f_equal length). by rewrite length_app, length_to_bits in E. }
  rewrite take_app_length', drop_app_length' by by rewrite length_to_bits. cbn. by rewrite pack_to_bits, IH.
Qed.

#[export] Program Instance hrpd_octets : OctetBearer Hrpd.HrpdDefaultPacketBackend := { queued := Hrpd.tx_queue }.
Next Obligation. done. Qed.
Next Obligation. done. Qed.
Next Obligation. intros b E. cbn in *. unfold Hrpd.next. by rewrite bool_decide_eq_true_2. Qed.
Next Obligation.
  intros b E Hb. cbn in *. unfold Hrpd.next. rewrite bool_decide_eq_false_2 by done. cbn [negb orb].
  set (n := Nat.min _ _). assert (take n (Hrpd.tx_queue b) ≠ []) as Hn.
  { subst n. destruct (Hrpd.tx_queue b); [done|]. by rewrite Nat.min_comm. }
  assert (bytes (take n (Hrpd.tx_queue b))) as Ht by by apply Forall_take.
  eexists _, _, _. split; [done|]. unfold Hrpd.default_packet_rlp_packet_bits. split_and!.
  - by intros [? _]%app_nil.
  - exact Hn.
  - symmetry; apply take_drop.
  - intros p. unfold Hrpd.receive. rewrite length_app, length_to_bits, length_octet_bits.
    rewrite bool_decide_eq_false_2 by (unfold Hrpd.SEQUENCE_BITS; lia).
    replace (Hrpd.SEQUENCE_BITS + _ - Hrpd.SEQUENCE_BITS)%nat with (length (take n (Hrpd.tx_queue b)) * 8)%nat by lia.
    rewrite Nat.Div0.mod_mul, bool_decide_eq_true_2 by done. cbn [negb orb].
    rewrite drop_app_length' by by rewrite length_to_bits. rewrite unpack_octets by done. rewrite decide_False by done. by eexists.
Qed.

(** ** The life of a bearer *)
Inductive BearerOp := Receive (bits : list Z) (rate_bps : Z) | Enqueue (data : list Z) | Next (allow_payload : bool).
Definition bearer_step {B} `{RlpBackend B} (b : B) (op : BearerOp) : rust B :=
  match op with
  | Receive bits rate => fst <$> receive_frame_bits bits rate b
  | Enqueue data => Some (enqueue_data data b)
  | Next allow => fst <$> next_frame_bits allow b
  end.
Definition bearer_run {B} `{RlpBackend B} (ops : list BearerOp) (b : B) : rust B :=
  foldl (λ acc op, b ← acc; bearer_step b op) (Some b) ops.

Lemma bearer_run_total {B} `{TotalBackend B} ops (b : B) : (∀ bits rate, frame_ok bits rate) → bearer_ok b →
  ∃ b', bearer_run ops b = Some b' ∧ bearer_ok b'.
Proof.
  intros Hf. revert b. induction ops as [|op ops IH]; intros b Hb; [by exists b|].
  assert (∃ b', bearer_step b op = Some b' ∧ bearer_ok b') as (b' & E & Hb').
  { destruct op as [bits rate|data|allow]; cbn.
    - destruct (receive_total bits rate b Hb (Hf _ _)) as (b' & d & -> & ? & _). by exists b'.
    - eexists. split; [done|]. by apply enqueue_total.
    - destruct (next_total allow b Hb) as (b' & d & -> & ?). by exists b'. }
  unfold bearer_run. cbn [foldl]. rewrite bind_some, E. by apply IH.
Qed.

(** The RLP type 1 bearer never panics: whatever bits arrive at whatever rate, whatever
    is queued, and however often a frame is asked for, in any order. *)
Theorem rlp1_bearer_never_panics (mux : RlpMuxOption) (ops : list BearerOp) :
  ∃ b, bearer_run ops (Rlp1.new mux) = Some b.
Proof.
  destruct (bearer_run_total ops (Rlp1.new mux)) as (b & E & _); [done| |by exists b].
  split; split_and!; cbn; done || apply Forall_nil_2 || (unfold is_u; lia).
Qed.
