(* ===== verification/Engine.v ===== *)
(** * The packet session ([cdma-packet/src/lib/engine.rs], [PacketSession])

    One bearer, the PPP stack above it, Mobile IP, and for async data calls the
    emulated modem.  The operations run in a small monad over the session, the
    actions emitted so far ([actions: &mut Vec<SessionAction>]) and what the process
    shares between sessions: the position of the UUID generator and the sequence
    number of the magic numbers.  [None] is a panic of a component (or a generator
    that repeats itself, see [MobileIp]).  Log messages, the capture file and the ring
    of diagnostic events are left out. *)
From S2P Require Import Prelude Framing IpcpConfig Vj ControlPacket Lcp Ipcp Text ModemEndpoint AsyncNas MobileIp RlpBackend Rlp3Frames Rlp3Session Rlp3Backend.
Import Text.

Module Engine.
#[local] Existing Instance Lcp.LcpState_eq_dec.

Inductive SessionPhase := RlpSync | Lcp | Ipcp | Mip4Pending | Active | Closed.
#[export] Instance SessionPhase_eq_dec : EqDecision SessionPhase.
Proof. solve_decision. Defined.

Inductive SessionAction :=
| SendFrame (bits : list Z) (rate_bps : Z)
| SendSchFrame (bits : list Z) (rate_bps : Z)
| DeliverIpPacket (packet : list Z)
| CloseSession (reason : chars).
#[export] Instance SessionAction_eq_dec : EqDecision SessionAction.
Proof. solve_decision. Defined.

Definition RLP_SYNC_MAX_TICKS : Z := 500.
Definition HRPD_A10_PPP_MAX_CONFIGURE_RESTARTS : Z := 60.
Definition LCP_ONE_SIDED_ACK_MIN_RETRANSMITS : Z := 2.
Definition PENDING_DOWNLINK_IP_MAX_PACKETS : nat := 256.
Definition PENDING_DOWNLINK_IP_MAX_OCTETS : nat := Z.to_nat (256 * 1024).
Definition SERVICE_OPTION_ASYNC_DATA : Z := 12.
Definition SERVICE_OPTION_PACKET_DATA_RC3 : Z := 33.
Definition DEFAULT_RC3_F_SCH_RATE_BPS : Z := 19200.

(** [Rc3FschProfile::from_rate_bps] ([cdma-common/src/sch.rs]): the information bits of a supplemental frame. *)
Definition fsch_info_bits (rate_bps : Z) : option nat :=
  if rate_bps =? 19200 then Some 360%nat
  else if rate_bps =? 38400 then Some 744%nat
  else if rate_bps =? 76800 then Some 1512%nat
  else if rate_bps =? 153600 then Some 3048%nat
  else None.

Record PppSessionState := mkPppState {
  state_lcp : Lcp.LcpOpenState;
  state_ipcp : Ipcp.IpcpOpenState;
  state_mobile_ip : Mip.MobileIpSession;
  state_vj : VjState
}.

Record AsyncModem := mkAsyncModem { endpoint : Endpoint.Tcp380Endpoint; nas : option Nas.AsyncNas }.

Section Session.
Context {B : Type} `{RlpBackend B}.

Record PacketSession := mkSession {
  rlp : B;
  deframer : list Z;
  lcp : Lcp.LcpSession;
  ipcp : Ipcp.IpcpSession;
  mobile_ip : Mip.MobileIpSession;
  vj : VjState;
  phase : SessionPhase;
  ppp_tx_queue : list PppPacket;
  pending_downlink_ip : list (list Z);
  pending_downlink_ip_octets : nat;
  lcp_started : bool;
  ipcp_started : bool;
  sch_active : bool;
  sch_info_bits : nat;
  sch_rate_bps : Z;
  sch_data_ready : bool;
  rlp_sync_ticks : Z;
  pending_ppp_resume : option PppSessionState;
  ppp_activity_since_last_check : bool;
  peer_requested_lcp_terminate : bool;
  lcp_open_after_one_sided_ack : bool;
  is_async_data : bool;
  async_modem : option AsyncModem
}.

Definition set_rlp (x : B) (s : PacketSession) : PacketSession :=
  mkSession x (deframer s) (lcp s) (ipcp s) (mobile_ip s) (vj s) (phase s) (ppp_tx_queue s) (pending_downlink_ip
    s) (pending_downlink_ip_octets s) (lcp_started s) (ipcp_started s) (sch_active s) (sch_info_bits s)
    (sch_rate_bps s) (sch_data_ready s) (rlp_sync_ticks s) (pending_ppp_resume s) (ppp_activity_since_last_check
    s) (peer_requested_lcp_terminate s) (lcp_open_after_one_sided_ack s) (is_async_data s) (async_modem s).
Definition set_deframer (x : list Z) (s : PacketSession) : PacketSession :=
  mkSession (rlp s) x (lcp s) (ipcp s) (mobile_ip s) (vj s) (phase s) (ppp_tx_queue s) (pending_downlink_ip s)
    (pending_downlink_ip_octets s) (lcp_started s) (ipcp_started s) (sch_active s) (sch_info_bits s) (sch_rate_bps
    s) (sch_data_ready s) (rlp_sync_ticks s) (pending_ppp_resume s) (ppp_activity_since_last_check s)
    (peer_requested_lcp_terminate s) (lcp_open_after_one_sided_ack s) (is_async_data s) (async_modem s).
Definition set_lcp (x : Lcp.LcpSession) (s : PacketSession) : PacketSession :=
  mkSession (rlp s) (deframer s) x (ipcp s) (mobile_ip s) (vj s) (phase s) (ppp_tx_queue s) (pending_downlink_ip
    s) (pending_downlink_ip_octets s) (lcp_started s) (ipcp_started s) (sch_active s) (sch_info_bits s)
    (sch_rate_bps s) (sch_data_ready s) (rlp_sync_ticks s) (pending_ppp_resume s) (ppp_activity_since_last_check
    s) (peer_requested_lcp_terminate s) (lcp_open_after_one_sided_ack s) (is_async_data s) (async_modem s).
Definition set_ipcp (x : Ipcp.IpcpSession) (s : PacketSession) : PacketSession :=
  mkSession (rlp s) (deframer s) (lcp s) x (mobile_ip s) (vj s) (phase s) (ppp_tx_queue s) (pending_downlink_ip
    s) (pending_downlink_ip_octets s) (lcp_started s) (ipcp_started s) (sch_active s) (sch_info_bits s)
    (sch_rate_bps s) (sch_data_ready s) (rlp_sync_ticks s) (pending_ppp_resume s) (ppp_activity_since_last_check
    s) (peer_requested_lcp_terminate s) (lcp_open_after_one_sided_ack s) (is_async_data s) (async_modem s).
Definition set_mobile_ip (x : Mip.MobileIpSession) (s : PacketSession) : PacketSession :=
  mkSession (rlp s) (deframer s) (lcp s) (ipcp s) x (vj s) (phase s) (ppp_tx_queue s) (pending_downlink_ip s)
    (pending_downlink_ip_octets s) (lcp_started s) (ipcp_started s) (sch_active s) (sch_info_bits s) (sch_rate_bps
    s) (sch_data_ready s) (rlp_sync_ticks s) (pending_ppp_resume s) (ppp_activity_since_last_check s)
    (peer_requested_lcp_terminate s) (lcp_open_after_one_sided_ack s) (is_async_data s) (async_modem s).
Definition set_vj (x : VjState) (s : PacketSession) : PacketSession :=
  mkSession (rlp s) (deframer s) (lcp s) (ipcp s) (mobile_ip s) x (phase s) (ppp_tx_queue s)
    (pending_downlink_ip s) (pending_downlink_ip_octets s) (lcp_started s) (ipcp_started s) (sch_active s)
    (sch_info_bits s) (sch_rate_bps s) (sch_data_ready s) (rlp_sync_ticks s) (pending_ppp_resume s)
    (ppp_activity_since_last_check s) (peer_requested_lcp_terminate s) (lcp_open_after_one_sided_ack s)
    (is_async_data s) (async_modem s).
Definition set_phase (x : SessionPhase) (s : PacketSession) : PacketSession :=
  mkSession (rlp s) (deframer s) (lcp s) (ipcp s) (mobile_ip s) (vj s) x (ppp_tx_queue s) (pending_downlink_ip
    s) (pending_downlink_ip_octets s) (lcp_started s) (ipcp_started s) (sch_active s) (sch_info_bits s)
    (sch_rate_bps s) (sch_data_ready s) (rlp_sync_ticks s) (pending_ppp_resume s) (ppp_activity_since_last_check
    s) (peer_requested_lcp_terminate s) (lcp_open_after_one_sided_ack s) (is_async_data s) (async_modem s).
Definition set_ppp_tx_queue (x : list PppPacket) (s : PacketSession) : PacketSession :=
  mkSession (rlp s) (deframer s) (lcp s) (ipcp s) (mobile_ip s) (vj s) (phase s) x (pending_downlink_ip s)
    (pending_downlink_ip_octets s) (lcp_started s) (ipcp_started s) (sch_active s) (sch_info_bits s) (sch_rate_bps
    s) (sch_data_ready s) (rlp_sync_ticks s) (pending_ppp_resume s) (ppp_activity_since_last_check s)
    (peer_requested_lcp_terminate s) (lcp_open_after_one_sided_ack s) (is_async_data s) (async_modem s).
Definition set_pending_downlink_ip (x : list (list Z)) (s : PacketSession) : PacketSession :=
  mkSession (rlp s) (deframer s) (lcp s) (ipcp s) (mobile_ip s) (vj s) (phase s) (ppp_tx_queue s) x
    (pending_downlink_ip_octets s) (lcp_started s) (ipcp_started s) (sch_active s) (sch_info_bits s) (sch_rate_bps
    s) (sch_data_ready s) (rlp_sync_ticks s) (pending_ppp_resume s) (ppp_activity_since_last_check s)
    (peer_requested_lcp_terminate s) (lcp_open_after_one_sided_ack s) (is_async_data s) (async_modem s).
Definition set_pending_downlink_ip_octets (x : nat) (s : PacketSession) : PacketSession :=
  mkSession (rlp s) (deframer s) (lcp s) (ipcp s) (mobile_ip s) (vj s) (phase s) (ppp_tx_queue s)
    (pending_downlink_ip s) x (lcp_started s) (ipcp_started s) (sch_active s) (sch_info_bits s) (sch_rate_bps s)
    (sch_data_ready s) (rlp_sync_ticks s) (pending_ppp_resume s) (ppp_activity_since_last_check s)
    (peer_requested_lcp_terminate s) (lcp_open_after_one_sided_ack s) (is_async_data s) (async_modem s).
Definition set_lcp_started (x : bool) (s : PacketSession) : PacketSession :=
  mkSession (rlp s) (deframer s) (lcp s) (ipcp s) (mobile_ip s) (vj s) (phase s) (ppp_tx_queue s)
    (pending_downlink_ip s) (pending_downlink_ip_octets s) x (ipcp_started s) (sch_active s) (sch_info_bits s)
    (sch_rate_bps s) (sch_data_ready s) (rlp_sync_ticks s) (pending_ppp_resume s) (ppp_activity_since_last_check
    s) (peer_requested_lcp_terminate s) (lcp_open_after_one_sided_ack s) (is_async_data s) (async_modem s).
Definition set_ipcp_started (x : bool) (s : PacketSession) : PacketSession :=
  mkSession (rlp s) (deframer s) (lcp s) (ipcp s) (mobile_ip s) (vj s) (phase s) (ppp_tx_queue s)
    (pending_downlink_ip s) (pending_downlink_ip_octets s) (lcp_started s) x (sch_active s) (sch_info_bits s)
    (sch_rate_bps s) (sch_data_ready s) (rlp_sync_ticks s) (pending_ppp_resume s) (ppp_activity_since_last_check
    s) (peer_requested_lcp_terminate s) (lcp_open_after_one_sided_ack s) (is_async_data s) (async_modem s).
Definition set_sch_active (x : bool) (s : PacketSession) : PacketSession :=
  mkSession (rlp s) (deframer s) (lcp s) (ipcp s) (mobile_ip s) (vj s) (phase s) (ppp_tx_queue s)
    (pending_downlink_ip s) (pending_downlink_ip_octets s) (lcp_started s) (ipcp_started s) x (sch_info_bits s)
    (sch_rate_bps s) (sch_data_ready s) (rlp_sync_ticks s) (pending_ppp_resume s) (ppp_activity_since_last_check
    s) (peer_requested_lcp_terminate s) (lcp_open_after_one_sided_ack s) (is_async_data s) (async_modem s).
Definition set_sch_info_bits (x : nat) (s : PacketSession) : PacketSession :=
  mkSession (rlp s) (deframer s) (lcp s) (ipcp s) (mobile_ip s) (vj s) (phase s) (ppp_tx_queue s)
    (pending_downlink_ip s) (pending_downlink_ip_octets s) (lcp_started s) (ipcp_started s) (sch_active s) x
    (sch_rate_bps s) (sch_data_ready s) (rlp_sync_ticks s) (pending_ppp_resume s) (ppp_activity_since_last_check
    s) (peer_requested_lcp_terminate s) (lcp_open_after_one_sided_ack s) (is_async_data s) (async_modem s).
Definition set_sch_rate_bps (x : Z) (s : PacketSession) : PacketSession :=
  mkSession (rlp s) (deframer s) (lcp s) (ipcp s) (mobile_ip s) (vj s) (phase s) (ppp_tx_queue s)
    (pending_downlink_ip s) (pending_downlink_ip_octets s) (lcp_started s) (ipcp_started s) (sch_active s)
    (sch_info_bits s) x (sch_data_ready s) (rlp_sync_ticks s) (pending_ppp_resume s)
    (ppp_activity_since_last_check s) (peer_requested_lcp_terminate s) (lcp_open_after_one_sided_ack s)
    (is_async_data s) (async_modem s).
Definition set_sch_data_ready (x : bool) (s : PacketSession) : PacketSession :=
  mkSession (rlp s) (deframer s) (lcp s) (ipcp s) (mobile_ip s) (vj s) (phase s) (ppp_tx_queue s)
    (pending_downlink_ip s) (pending_downlink_ip_octets s) (lcp_started s) (ipcp_started s) (sch_active s)
    (sch_info_bits s) (sch_rate_bps s) x (rlp_sync_ticks s) (pending_ppp_resume s) (ppp_activity_since_last_check
    s) (peer_requested_lcp_terminate s) (lcp_open_after_one_sided_ack s) (is_async_data s) (async_modem s).
Definition set_rlp_sync_ticks (x : Z) (s : PacketSession) : PacketSession :=
  mkSession (rlp s) (deframer s) (lcp s) (ipcp s) (mobile_ip s) (vj s) (phase s) (ppp_tx_queue s)
    (pending_downlink_ip s) (pending_downlink_ip_octets s) (lcp_started s) (ipcp_started s) (sch_active s)
    (sch_info_bits s) (sch_rate_bps s) (sch_data_ready s) x (pending_ppp_resume s) (ppp_activity_since_last_check
    s) (peer_requested_lcp_terminate s) (lcp_open_after_one_sided_ack s) (is_async_data s) (async_modem s).
Definition set_pending_ppp_resume (x : option PppSessionState) (s : PacketSession) : PacketSession :=
  mkSession (rlp s) (deframer s) (lcp s) (ipcp s) (mobile_ip s) (vj s) (phase s) (ppp_tx_queue s)
    (pending_downlink_ip s) (pending_downlink_ip_octets s) (lcp_started s) (ipcp_started s) (sch_active s)
    (sch_info_bits s) (sch_rate_bps s) (sch_data_ready s) (rlp_sync_ticks s) x (ppp_activity_since_last_check s)
    (peer_requested_lcp_terminate s) (lcp_open_after_one_sided_ack s) (is_async_data s) (async_modem s).
Definition set_ppp_activity_since_last_check (x : bool) (s : PacketSession) : PacketSession :=
  mkSession (rlp s) (deframer s) (lcp s) (ipcp s) (mobile_ip s) (vj s) (phase s) (ppp_tx_queue s)
    (pending_downlink_ip s) (pending_downlink_ip_octets s) (lcp_started s) (ipcp_started s) (sch_active s)
    (sch_info_bits s) (sch_rate_bps s) (sch_data_ready s) (rlp_sync_ticks s) (pending_ppp_resume s) x
    (peer_requested_lcp_terminate s) (lcp_open_after_one_sided_ack s) (is_async_data s) (async_modem s).
Definition set_peer_requested_lcp_terminate (x : bool) (s : PacketSession) : PacketSession :=
  mkSession (rlp s) (deframer s) (lcp s) (ipcp s) (mobile_ip s) (vj s) (phase s) (ppp_tx_queue s)
    (pending_downlink_ip s) (pending_downlink_ip_octets s) (lcp_started s) (ipcp_started s) (sch_active s)
    (sch_info_bits s) (sch_rate_bps s) (sch_data_ready s) (rlp_sync_ticks s) (pending_ppp_resume s)
    (ppp_activity_since_last_check s) x (lcp_open_after_one_sided_ack s) (is_async_data s) (async_modem s).
Definition set_lcp_open_after_one_sided_ack (x : bool) (s : PacketSession) : PacketSession :=
  mkSession (rlp s) (deframer s) (lcp s) (ipcp s) (mobile_ip s) (vj s) (phase s) (ppp_tx_queue s)
    (pending_downlink_ip s) (pending_downlink_ip_octets s) (lcp_started s) (ipcp_started s) (sch_active s)
    (sch_info_bits s) (sch_rate_bps s) (sch_data_ready s) (rlp_sync_ticks s) (pending_ppp_resume s)
    (ppp_activity_since_last_check s) (peer_requested_lcp_terminate s) x (is_async_data s) (async_modem s).
Definition set_is_async_data (x : bool) (s : PacketSession) : PacketSession :=
  mkSession (rlp s) (deframer s) (lcp s) (ipcp s) (mobile_ip s) (vj s) (phase s) (ppp_tx_queue s)
    (pending_downlink_ip s) (pending_downlink_ip_octets s) (lcp_started s) (ipcp_started s) (sch_active s)
    (sch_info_bits s) (sch_rate_bps s) (sch_data_ready s) (rlp_sync_ticks s) (pending_ppp_resume s)
    (ppp_activity_since_last_check s) (peer_requested_lcp_terminate s) (lcp_open_after_one_sided_ack s) x
    (async_modem s).
Definition set_async_modem (x : option AsyncModem) (s : PacketSession) : PacketSession :=
  mkSession (rlp s) (deframer s) (lcp s) (ipcp s) (mobile_ip s) (vj s) (phase s) (ppp_tx_queue s)
    (pending_downlink_ip s) (pending_downlink_ip_octets s) (lcp_started s) (ipcp_started s) (sch_active s)
    (sch_info_bits s) (sch_rate_bps s) (sch_data_ready s) (rlp_sync_ticks s) (pending_ppp_resume s)
    (ppp_activity_since_last_check s) (peer_requested_lcp_terminate s) (lcp_open_after_one_sided_ack s)
    (is_async_data s) x.

(** ** The monad *)
Record Sys := mkSys { uuids : nat; magics : Z; session : PacketSession; actions : list SessionAction }.
Definition M (A : Type) : Type := Sys → option (Sys * A).
#[local] Instance M_ret : MRet M := λ A a st, Some (st, a).
#[local] Instance M_bind : MBind M := λ A C f m st,
  match m st with Some (st, a) => f a st | None => None end.

Definition get {A} (f : PacketSession → A) : M A := λ st, Some (st, f (session st)).
Definition modify (f : PacketSession → PacketSession) : M unit :=
  λ st, Some (mkSys (uuids st) (magics st) (f (session st)) (actions st), tt).
Definition emit (a : SessionAction) : M unit :=
  λ st, Some (mkSys (uuids st) (magics st) (session st) (actions st ++ [a]), tt).
Definition lift {A} (r : rust A) : M A := λ st, match r with Some a => Some (st, a) | None => None end.
(** A computation that draws from the UUID generator. *)
Definition with_uuid {A} (f : nat → option (nat * A)) : M A :=
  λ st, match f (uuids st) with
        | Some (u, a) => Some (mkSys u (magics st) (session st) (actions st), a)
        | None => None
        end.
Definition when (b : bool) (m : M unit) : M unit := if b then m else mret tt.
Fixpoint each {A} (f : A → M unit) (l : list A) : M unit :=
  match l with
  | [] => mret tt
  | x :: l => f x;; each f l
  end.

Definition phase_is (p : SessionPhase) (s : PacketSession) : bool := bool_decide (phase s = p).
Definition push_ppp (ppp : PppPacket) : M unit := modify (λ s, set_ppp_tx_queue (ppp_tx_queue s ++ [ppp]) s).

(** ** Downlink packets *)
Definition enqueue_downlink_ip_packet (ip_packet : list Z) : M unit :=
  modify (set_ppp_activity_since_last_check true);;
  v ← get vj;
  '(v, ppp) ← lift (compress_ip_packet ip_packet v);
  modify (set_vj v);;
  push_ppp ppp.

(** The eviction loop of [queue_pending_downlink_ip]. *)
Fixpoint evict (q : list (list Z)) (octets : nat) : list (list Z) * nat :=
  match q with
  | [] => ([], octets)
  | p :: q' =>
      if bool_decide (PENDING_DOWNLINK_IP_MAX_PACKETS < length q)%nat
         || bool_decide (PENDING_DOWNLINK_IP_MAX_OCTETS < octets)%nat
      then evict q' (octets - length p)
      else (q, octets)
  end.
Definition queue_pending_downlink_ip (ip_packet : list Z) : M unit :=
  modify (λ s,
    let '(q, octets) := evict (pending_downlink_ip s ++ [ip_packet]) (pending_downlink_ip_octets s + length ip_packet) in
    set_pending_downlink_ip_octets octets (set_pending_downlink_ip q s)).

(** The loop pops the front of the queue: [q] is the queue. *)
Fixpoint flush_loop (q : list (list Z)) : M unit :=
  match q with
  | [] => mret tt
  | p :: q =>
      modify (λ s, set_pending_downlink_ip_octets (pending_downlink_ip_octets s - length p) (set_pending_downlink_ip q s));;
      enqueue_downlink_ip_packet p;;
      flush_loop q
  end.
Definition flush_pending_downlink_ip : M unit := q ← get pending_downlink_ip; flush_loop q.

(** ** The emulated modem of an async data call *)
Variable seed : Z.
(** [LcpSession::new] takes the next magic number of the process. *)
Definition next_magic : M Z := λ st,
  match Lcp.session_magic seed (magics st) with
  | Some (magic, q) => Some (mkSys (uuids st) q (session st) (actions st), magic)
  | None => None
  end.

Definition maybe_start_async_modem : M unit :=
  s ← get id;
  when (is_async_data s && bool_decide (async_modem s = None))
    (let c := Ipcp.config (ipcp s) in
     modify (set_async_modem (Some (mkAsyncModem (Endpoint.new (our_ip c) (peer_ip c)) None)))).

Definition MobileIpConfig_default : MobileIpConfig :=
  let a := mkIp 10 55 0 1 in mkMobileIpConfig false a a 3 9000 1200 a a Insecure None false false.
Definition IpcpConfig_default : IpcpConfig :=
  mkIpcpConfig (mkIp 10 0 0 1) (mkIp 10 0 0 2) (mkIp 10 55 0 1) (mkIp 10 55 0 1) false false MobileIpConfig_default.

(** The call connects: a NAS is created and started over the modem's TCP connection. *)
Definition start_nas (e : Endpoint.Tcp380Endpoint) : M (Endpoint.Tcp380Endpoint * Nas.AsyncNas) :=
  c ← get (λ s, Ipcp.config (ipcp s));
  let d := IpcpConfig_default in
  let cfg := mkIpcpConfig (our_ip c) (peer_ip c) (primary_dns d) (secondary_dns d) (enable_uplink_vj_compression d)
               (enable_downlink_vj_compression d) (IpcpConfig.mobile_ip d) in
  magic ← next_magic;
  let '(e, cup) := Endpoint.carrier_up e in
  each enqueue_downlink_ip_packet (Endpoint.downlink cup);;
  let '(n, start) := Nas.start (Nas.new magic cfg) in
  let '(e, pkts) := Endpoint.send_online start e in
  each enqueue_downlink_ip_packet pkts;;
  mret (e, n).

Definition drive_async_uplink (ip_packet : list Z) : M bool :=
  m ← get async_modem;
  match m with
  | None => mret false
  | Some m =>
      '(e, out) ← lift (Endpoint.on_uplink_ip ip_packet (endpoint m));
      if negb (Endpoint.matched out) then
        modify (set_async_modem (Some (mkAsyncModem e (nas m))));; mret false
      else
        each enqueue_downlink_ip_packet (Endpoint.downlink out);;
        '(e, n) ← match Endpoint.dialed out, nas m with
                  | Some _, None => '(e, n) ← start_nas e; mret (e, Some n)
                  | _, _ => mret (e, nas m)
                  end;
        '(e, n) ← match n with
                  | Some n =>
                      if decide (Endpoint.user_data out = []) then mret (e, Some n)
                      else
                        let '(n, nas_out) := Nas.feed (Endpoint.user_data out) n in
                        let '(e, pkts) := Endpoint.send_online (Nas.to_mobile nas_out) e in
                        each enqueue_downlink_ip_packet pkts;;
                        each (λ ip, emit (DeliverIpPacket ip)) (Nas.to_network nas_out);;
                        mret (e, Some n)
                  | None => mret (e, None)
                  end;
        modify (set_async_modem (Some (mkAsyncModem e n)));;
        mret true
  end.

Definition route_async_downlink (ip_packet : list Z) : M bool :=
  m ← get async_modem;
  match m with
  | Some (mkAsyncModem e (Some n)) =>
      let async_bytes := Nas.send_ip ip_packet n in
      let '(e, pkts) := Endpoint.send_online async_bytes e in
      each enqueue_downlink_ip_packet pkts;;
      modify (set_async_modem (Some (mkAsyncModem e (Some n))));;
      mret (negb (bool_decide (async_bytes = [])))
  | _ => mret false
  end.

Definition tick_async_modem : M unit :=
  m ← get async_modem;
  match m with
  | Some (mkAsyncModem e (Some n)) =>
      let '(n, bytes) := Nas.tick n in
      let '(e, pkts) := Endpoint.send_online bytes e in
      each enqueue_downlink_ip_packet pkts;;
      modify (set_async_modem (Some (mkAsyncModem e (Some n))))
  | _ => mret tt
  end.

Definition send_ip_packet (ip_packet : list Z) : M unit :=
  s ← get id;
  handled ← (if phase_is Active s && is_async_data s then route_async_downlink ip_packet else mret false);
  if handled : bool then mret tt
  else
    match phase s with
    | Active => enqueue_downlink_ip_packet ip_packet
    | Closed => mret tt
    | _ => queue_pending_downlink_ip ip_packet
    end.

(** ** Uplink packets *)
Variable md5 : list Z → list Z.
Variable draw : nat → list Z.

Definition handle_mobile_ip_packet (ip_packet : list Z) : M bool :=
  s ← get id;
  '(mip, r) ← with_uuid (λ u,
     '(u, mip, r) ← Mip.handle_ipv4_packet md5 draw ip_packet (peer_ip (Ipcp.config (ipcp s))) u (mobile_ip s);
     Some (u, (mip, r)));
  modify (set_mobile_ip mip);;
  match r with
  | Mip.NotMobileIp => mret false
  | Mip.Ignored => mret true
  | Mip.AuthenticationRequired =>
      i ← get ipcp;
      let '(i, req) := Ipcp.restart_for_simple_ip i in
      modify (set_ipcp i);;
      push_ppp req;;
      modify (set_phase Ipcp);;
      modify (set_ppp_activity_since_last_check true);;
      mret true
  | Mip.MipReply reply | Mip.Deregistered reply =>
      push_ppp (mkPppPacket PPP_IP_PROTOCOL reply);;
      modify (set_ppp_activity_since_last_check true);;
      s ← get id;
      when (bool_decide (Mip.binding (mobile_ip s) = None) && phase_is Active s) (modify (set_phase Mip4Pending));;
      mret true
  | Mip.Registered binding reply =>
      push_ppp (mkPppPacket PPP_IP_PROTOCOL reply);;
      modify (λ s, set_ipcp (Ipcp.reassign_peer_ip (Mip.b_home_address binding) (ipcp s)) s);;
      modify (set_phase Active);;
      modify (set_ppp_activity_since_last_check true);;
      flush_pending_downlink_ip;;
      mret true
  end.

Definition parse_uplink_ipv4 (payload : list Z) : option Ipv4Addr :=
  if bool_decide (length payload < 20)%nat || negb (Z.shiftr (default 0 (payload !! 0%nat)) 4 =? 4) then None
  else
    let o i := default 0 (payload !! i) in
    let src := mkIp (o 12%nat) (o 13%nat) (o 14%nat) (o 15%nat) in
    if decide (src = UNSPECIFIED) then None else Some src.

(** What follows the Mobile IP handling in [deliver_uplink_ip_packet]. *)
Definition forward_uplink_ip_packet (ip_packet : list Z) : M unit :=
  match parse_uplink_ipv4 ip_packet with
  | None => mret tt
  | Some src =>
      s ← get id;
      if negb (phase_is Active s) then mret tt
      else if bool_decide (src ≠ peer_ip (Ipcp.config (ipcp s))) then mret tt
      else
        consumed ← (if is_async_data s then drive_async_uplink ip_packet else mret false);
        when (negb consumed) (emit (DeliverIpPacket ip_packet));;
        modify (set_ppp_activity_since_last_check true)
  end.
Definition deliver_uplink_ip_packet (ip_packet : list Z) : M unit :=
  s ← get id;
  if phase_is Mip4Pending s then handle_mobile_ip_packet ip_packet;; mret tt
  else
    handled ← (if mip_enabled (Mip.mip_config (mobile_ip s)) && negb (bool_decide (Mip.binding (mobile_ip s) = None))
               then handle_mobile_ip_packet ip_packet else mret false);
    if handled : bool then mret tt else forward_uplink_ip_packet ip_packet.

Definition enter_ipcp_open_phase : M unit :=
  modify (λ s, set_vj (configure (Ipcp.peer_vj (ipcp s)) (Ipcp.local_vj (ipcp s)) (vj s)) s);;
  s ← get id;
  let c := IpcpConfig.mobile_ip (Ipcp.config (ipcp s)) in
  if mip_enabled c && negb (Ipcp.peer_ip_address_negotiated (ipcp s)) then
    mip ← with_uuid (Mip.reset draw c);
    modify (set_phase Mip4Pending);;
    let '(mip, adv) := Mip.next_unsolicited_advertisement mip in
    modify (set_mobile_ip mip);;
    match adv with
    | Some advertisement => push_ppp (mkPppPacket PPP_IP_PROTOCOL advertisement)
    | None => mret tt
    end
  else
    modify (set_phase Active);;
    maybe_start_async_modem;;
    flush_pending_downlink_ip.

(** The peer restarted LCP: the upper layers are set up again. *)
Definition reset_upper_layers : M unit :=
  c ← get (λ s, Ipcp.config (ipcp s));
  modify (set_ipcp (Ipcp.new c));;
  mip ← with_uuid (Mip.new draw (IpcpConfig.mobile_ip c));
  modify (set_mobile_ip mip);;
  modify (set_vj VjState_default);;
  modify (set_ipcp_started false);;
  modify (set_sch_data_ready false);;
  modify (set_phase Lcp).

Definition receive_lcp (ppp : PppPacket) : M unit :=
  l ← get lcp;
  let was_open := Lcp.is_open l in
  let '(l, responses) := Lcp.receive ppp l in
  modify (set_lcp l);;
  each push_ppp responses;;
  when (bool_decide (head (payload ppp) = Some Lcp.TERMINATE_REQUEST)) (modify (set_peer_requested_lcp_terminate true));;
  when (was_open && negb (Lcp.is_open l)) reset_upper_layers;;
  s ← get id;
  when (Lcp.is_open (lcp s) && phase_is Lcp s) (modify (set_phase Ipcp)).

Definition receive_ipcp (ppp : PppPacket) : M unit :=
  l ← get lcp;
  when (negb (Lcp.is_open l) && bool_decide (Lcp.state l = Lcp.AckSent))
    (modify (set_lcp (Lcp.force_open l));; modify (set_phase Ipcp));;
  i ← get ipcp;
  let '(i, responses) := Ipcp.receive ppp i in
  modify (set_ipcp i);;
  each push_ppp responses;;
  s ← get id;
  when (Ipcp.is_open (ipcp s) && phase_is Ipcp s) enter_ipcp_open_phase.

Definition process_uplink_ppp (ppp : PppPacket) : M unit :=
  let p := protocol ppp in
  if p =? LCP_PROTOCOL then receive_lcp ppp
  else if p =? Ipcp.IPCP_PROTOCOL then receive_ipcp ppp
  else if p =? PPP_IP_PROTOCOL then deliver_uplink_ip_packet (payload ppp)
  else if (p =? PPP_VJ_UNCOMPRESSED_TCP) || (p =? PPP_VJ_COMPRESSED_TCP) then
    v ← get vj;
    '(v, r) ← lift (decompress_packet p (payload ppp) v);
    modify (set_vj v);;
    match r with
    | Ok ip_packet => deliver_uplink_ip_packet ip_packet
    | Err _ => mret tt
    end
  else mret tt.

(** The bearer has come up: the cached PPP state is restored, or LCP begins. *)
Definition link_established : M unit :=
  r ← get pending_ppp_resume;
  match r with
  | Some st =>
      modify (set_pending_ppp_resume None);;
      modify (λ s, set_lcp (Lcp.restore_open_state (state_lcp st) (lcp s)) s);;
      modify (λ s, set_ipcp (Ipcp.restore_open_state (state_ipcp st) (ipcp s)) s);;
      modify (set_mobile_ip (state_mobile_ip st));;
      modify (set_vj (state_vj st));;
      modify (set_lcp_started true);;
      modify (set_ipcp_started true);;
      modify (set_phase Active);;
      modify (set_ppp_activity_since_last_check true);;
      flush_pending_downlink_ip
  | None => modify (set_phase Lcp)
  end;;
  modify (set_rlp_sync_ticks 0).

Definition process_uplink (uplink : option (list Z * Z)) : M unit :=
  let '(bits, rate_bps) := default ([], 0) uplink in
  b ← get rlp;
  '(b, delivery) ← lift (receive_frame_bits bits rate_bps b);
  modify (set_rlp b);;
  s ← get id;
  when (phase_is RlpSync s && is_data_transfer (rlp s)) link_established;;
  match delivery with
  | None => mret tt
  | Some data =>
      buf ← get deframer;
      let '(buf, ppp_packets) := feed buf data in
      modify (set_deframer buf);;
      each (λ ppp, modify (set_ppp_activity_since_last_check true);; process_uplink_ppp ppp) ppp_packets
  end.

Definition maybe_open_lcp_after_one_sided_ack : M unit :=
  s ← get id;
  if negb (lcp_open_after_one_sided_ack s) || negb (phase_is Lcp s) || Lcp.is_open (lcp s) then mret tt
  else if negb (Lcp.peer_acked (lcp s)) || (Lcp.configure_restarts (lcp s) <? LCP_ONE_SIDED_ACK_MIN_RETRANSMITS)
  then mret tt
  else modify (λ s, set_lcp (Lcp.force_open (lcp s)) s);; modify (set_phase Ipcp).

(** ** Emission *)
Definition frame_opts (s : PacketSession) : FrameOptions :=
  if Lcp.is_open (lcp s) then
    let n := Lcp.negotiated (lcp s) in
    mkFrameOptions (Lcp.neg_tx_accm n) (Lcp.we_send_acfc n) (Lcp.we_send_pfc n)
  else FrameOptions_default.

Fixpoint send_frames (n : nat) (flush_partial allow : bool) : M unit :=
  match n with
  | O => mret tt
  | S n =>
      b ← get rlp;
      '(b, (bits, rate)) ← lift (if flush_partial then next_frame_bits allow b else next_full_frame_bits allow b);
      modify (set_rlp b);;
      if decide (bits = []) then mret tt
      else emit (SendFrame bits rate);; send_frames n flush_partial allow
  end.

Definition append_pending_downlink_actions (flush_partial : bool) : M unit :=
  s ← get id;
  let opts := frame_opts s in
  modify (set_ppp_tx_queue []);;
  each (λ ppp,
    modify (set_ppp_activity_since_last_check true);;
    modify (λ s, set_rlp (enqueue_data (frame_with_options ppp opts) (rlp s)) s)) (ppp_tx_queue s);;
  s ← get id;
  let sch_data_path := sch_active s && phase_is Active s && sch_data_ready s in
  send_frames (Nat.max (max_downlink_frames_per_tick (rlp s)) 1) flush_partial (negb sch_data_path);;
  s ← get id;
  if sch_active s && phase_is Active s && sch_data_ready s then
    '(b, sch) ← lift (next_sch_frame_bits (sch_info_bits s) (sch_rate_bps s) (rlp s));
    modify (set_rlp b);;
    match sch with
    | Some (bits, rate) => emit (SendSchFrame bits rate)
    | None => mret tt
    end
  else mret tt.

(** ** One period of 20 ms *)
Definition sync_timeout_reason : chars :=
  lit "RLP3 SYNC timeout after " ++ decimal (RLP_SYNC_MAX_TICKS * 20) ++ lit " ms".
Definition configure_failed_reason (name : string) (restarts : Z) : chars :=
  lit name ++ lit " Configure-Request failed after " ++ decimal restarts ++ lit " retransmits".

Definition start_negotiation : M unit :=
  s ← get id;
  when (phase_is Lcp s && negb (lcp_started s))
    (let '(l, req) := Lcp.start (lcp s) in
     modify (set_lcp l);; push_ppp req;; modify (set_lcp_started true));;
  s ← get id;
  when (phase_is Ipcp s && negb (ipcp_started s))
    (let '(i, req) := Ipcp.start (ipcp s) in
     modify (set_ipcp i);; push_ppp req;; modify (set_ipcp_started true)).

Definition retransmit_lcp : M unit :=
  s ← get id;
  when (phase_is Lcp s)
    (let '(l, req) := Lcp.maybe_retransmit_configure_request (lcp s) in
     modify (set_lcp l);;
     match req with Some req => push_ppp req | None => mret tt end).
Definition report_lcp_failure : M unit :=
  s ← get id;
  when (phase_is Lcp s && Lcp.configure_failed (lcp s))
    (emit (CloseSession (configure_failed_reason "LCP" (Lcp.configure_restarts (lcp s))))).
Definition retransmit_ipcp : M unit :=
  s ← get id;
  when (phase_is Ipcp s)
    (let '(i, req) := Ipcp.maybe_retransmit_configure_request (ipcp s) in
     modify (set_ipcp i);;
     match req with Some req => push_ppp req | None => mret tt end).
Definition report_ipcp_failure : M unit :=
  s ← get id;
  when (phase_is Ipcp s && Ipcp.configure_failed (ipcp s))
    (emit (CloseSession (configure_failed_reason "IPCP" (Ipcp.configure_restarts (ipcp s))))).

Definition saturating_succ_u32 (x : Z) : Z := Z.min (x + 1) (2 ^ 32 - 1).
(** The tick counter of the SYNC handshake; the result tells whether it has just run out. *)
Definition count_sync_tick : M bool :=
  s ← get id;
  if phase_is RlpSync s then
    let n := saturating_succ_u32 (rlp_sync_ticks s) in
    modify (set_rlp_sync_ticks n);;
    mret (n =? RLP_SYNC_MAX_TICKS)
  else modify (set_rlp_sync_ticks 0);; mret false.

Definition tick (uplink : option (list Z * Z)) : M unit :=
  process_uplink uplink;;
  timed_out ← count_sync_tick;
  if timed_out : bool then emit (CloseSession sync_timeout_reason)
  else
    s ← get id;
    when (is_async_data s) tick_async_modem;;
    start_negotiation;;
    retransmit_lcp;;
    maybe_open_lcp_after_one_sided_ack;;
    report_lcp_failure;;
    retransmit_ipcp;;
    report_ipcp_failure;;
    append_pending_downlink_actions true.

Definition ingest_a10_byte_stream (octets : list Z) : M unit := process_uplink (Some (octets, 0)).
Definition emit_full_pending_downlink : M unit := append_pending_downlink_actions false.

Definition maybe_send_echo : M (option (list Z)) :=
  l ← get lcp;
  let '(l, ppp) := Lcp.maybe_send_echo l in
  modify (set_lcp l);;
  match ppp with
  | None => mret None
  | Some ppp =>
      modify (set_ppp_activity_since_last_check true);;
      let bytes := frame ppp in
      modify (λ s, set_rlp (enqueue_data bytes (rlp s)) s);;
      mret (Some bytes)
  end.

(** ** Operations of the owner *)
Definition close : M unit :=
  modify (λ s, set_pending_downlink_ip_octets 0 (set_pending_downlink_ip [] (set_phase Closed s))).
Definition reassign_peer_ip (a : Ipv4Addr) : M unit :=
  modify (λ s, set_ipcp (Ipcp.reassign_peer_ip a (ipcp s)) s).
Definition set_sch_active_flag (active : bool) : M unit :=
  modify (set_sch_active active);; when (negb active) (modify (set_sch_data_ready false)).
Definition set_sch_active_with_rate (active : bool) (rate_bps : Z) : M unit :=
  match fsch_info_bits rate_bps with
  | Some n => modify (λ s, set_sch_rate_bps rate_bps (set_sch_info_bits n s))
  | None => mret tt
  end;;
  set_sch_active_flag active.
Definition enable_sch_data_path : M unit := modify (set_sch_data_ready true).
Definition take_ppp_activity : M bool :=
  a ← get ppp_activity_since_last_check; modify (set_ppp_activity_since_last_check false);; mret a.
Definition take_peer_requested_lcp_terminate : M bool :=
  a ← get peer_requested_lcp_terminate; modify (set_peer_requested_lcp_terminate false);; mret a.

Definition snapshot_ppp_state (s : PacketSession) : option PppSessionState :=
  l ← Lcp.open_state (lcp s);
  i ← Ipcp.open_state (ipcp s);
  Some (mkPppState l i (mobile_ip s) (vj s)).

(** The common part of the constructors: the session, with the generator and the magic numbers behind it. *)
Definition new_session (b : B) (one_sided async : bool) (c : IpcpConfig) (resume : option PppSessionState) (u : nat) (q : Z)
    : option (nat * Z * PacketSession) :=
  '(u, mip) ← match resume with
              | Some st => Some (u, state_mobile_ip st)
              | None => Mip.new draw (IpcpConfig.mobile_ip c) u
              end;
  '(magic, q) ← Lcp.session_magic seed q;
  Some (u, q,
    mkSession b new_deframer (Lcp.new magic) (Ipcp.new c) mip VjState_default RlpSync [] [] 0 false false false 360
      DEFAULT_RC3_F_SCH_RATE_BPS false 0 resume false false one_sided async None).
Definition set_ppp_max_configure_restarts (restarts : Z) (s : PacketSession) : PacketSession :=
  set_ipcp (Ipcp.set_max_restarts restarts (ipcp s)) (set_lcp (Lcp.set_max_restarts restarts (lcp s)) s).
End Session.

Arguments PacketSession : clear implicits.
Arguments Sys : clear implicits.
Arguments M : clear implicits.
#[export] Existing Instance M_ret.
#[export] Existing Instance M_bind.

(** ** The constructors *)
Definition new_a10_unstructured_byte_stream (seed : Z) (draw : nat → list Z) (c : IpcpConfig)
    (resume : option PppSessionState) (u : nat) (q : Z)
    : option (nat * Z * PacketSession A10.UnstructuredByteStreamBackend) :=
  '(u, q, s) ← new_session seed draw A10.new true false c resume u q;
  Some (u, q, set_ppp_max_configure_restarts HRPD_A10_PPP_MAX_CONFIGURE_RESTARTS s).
Definition new_hrpd_default_packet (seed : Z) (draw : nat → list Z) (c : IpcpConfig)
    (resume : option PppSessionState) (u : nat) (q : Z) : option (nat * Z * PacketSession Hrpd.HrpdDefaultPacketBackend) :=
  new_session seed draw Hrpd.new false false c resume u q.
(** The bearer of service option 33 is RLP type 3, that of every other RLP type 1. *)
Definition new_with_ppp_resume_rc3 (seed : Z) (draw : nat → list Z) (c : IpcpConfig)
    (resume : option PppSessionState) (u : nat) (q : Z) : option (nat * Z * PacketSession Rlp3B.Rlp3Backend) :=
  new_session seed draw (Rlp3B.new Session3.default_config) false false c resume u q.
Definition new_with_ppp_resume (service_option : Z) (seed : Z) (draw : nat → list Z) (c : IpcpConfig)
    (resume : option PppSessionState) (u : nat) (q : Z) : option (nat * Z * PacketSession Rlp1.Rlp1Backend) :=
  let async := service_option =? SERVICE_OPTION_ASYNC_DATA in
  new_session seed draw (Rlp1.new (if async then Rlp.Two else Rlp.One)) false async c resume u q.

End Engine.
