(* ===== verification/EngineLogic.v ===== *)
(** * A program logic for the session monad, and what the session keeps

    [wp pan m Q st]: the run of [m] from [st] ends in a result and state that satisfy
    [Q], or panics and [pan] holds; [pan] is [True] for partial and [False] for total
    correctness. *)
From S2P Require Import Prelude Framing IpcpConfig Vj ControlPacket Lcp Ipcp IpcpProofs ModemEndpoint AsyncNas MobileIp.
From S2P Require Import RlpBackend Engine.
Import Engine.

Section Logic.
Context {B : Type} `{RlpBackend B}.
Implicit Types (st : Sys B) (s : PacketSession B).
Variable pan : Prop.

Definition wp {A} (m : M B A) (Q : A → Sys B → Prop) st : Prop :=
  match m st with Some (st', a) => Q a st' | None => pan end.

Lemma wp_mono {A} (m : M B A) (Q Q' : A → Sys B → Prop) st : wp m Q st → (∀ a st', Q a st' → Q' a st') → wp m Q' st.
Proof. unfold wp. destruct (m st) as [[]|]; auto. Qed.

Lemma wp_ret {A} (a : A) (Q : A → Sys B → Prop) st : Q a st → wp (mret a) Q st.
Proof. done. Qed.

Lemma wp_bind {A C} (m : M B A) (f : A → M B C) (Q : C → Sys B → Prop) st :
  wp m (λ a, wp (f a) Q) st → wp (x ← m; f x) Q st.
Proof. unfold wp, mbind, M_bind. by destruct (m st) as [[]|]. Qed.

Lemma wp_get {A} (f : PacketSession B → A) (Q : A → Sys B → Prop) st : Q (f (session st)) st → wp (get f) Q st.
Proof. done. Qed.

Lemma wp_modify f (Q : unit → Sys B → Prop) st :
  Q tt (mkSys (uuids st) (magics st) (f (session st)) (actions st)) → wp (modify f) Q st.
Proof. done. Qed.

Lemma wp_emit a (Q : unit → Sys B → Prop) st :
  Q tt (mkSys (uuids st) (magics st) (session st) (actions st ++ [a])) → wp (emit a) Q st.
Proof. done. Qed.

Lemma wp_lift {A} (r : rust A) (Q : A → Sys B → Prop) st :
  match r with Some a => Q a st | None => pan end → wp (lift r) Q st.
Proof. unfold wp, lift. by destruct r. Qed.

Lemma wp_uuid {A} (f : nat → option (nat * A)) (Q : A → Sys B → Prop) st :
  match f (uuids st) with
  | Some (u, a) => Q a (mkSys u (magics st) (session st) (actions st))
  | None => pan
  end → wp (with_uuid f) Q st.
Proof. unfold wp, with_uuid. by destruct (f (uuids st)) as [[]|]. Qed.

Lemma wp_when (b : bool) (m : M B unit) (Q : unit → Sys B → Prop) st :
  (b = true → wp m Q st) → (b = false → Q tt st) → wp (when b m) Q st.
Proof. unfold when. destruct b; [auto|]. intros _ HQ. by apply HQ. Qed.

(** A loop that keeps [I]; [Hx] may use what is known of the elements. *)
Lemma wp_each {A} (P : A → Prop) (f : A → M B unit) (I : Sys B → Prop) l st :
  Forall P l → I st → (∀ x st, P x → I st → wp (f x) (λ _, I) st) → wp (each f l) (λ _, I) st.
Proof.
  intros Hl HI Hf. revert st HI. induction Hl as [|x l Hx Hl IH]; intros st HI; [done|].
  cbn [each]. apply wp_bind. eapply wp_mono; [by apply (Hf x)|]. auto.
Qed.

Lemma each_app {A} (f : A → M B unit) l m st st1 : each f l st = Some (st1, tt) → each f (l ++ m) st = each f m st1.
Proof.
  revert st. induction l as [|x l IH]; intros st; cbn [each app]; [by intros [= ->]|].
  unfold mbind, M_bind. destruct (f x st) as [[st2 []]|]; [apply IH|done].
Qed.
Lemma wp_each_app {A} (f : A → M B unit) l m Q st : wp (each f l) (λ _, wp (each f m) Q) st → wp (each f (l ++ m)) Q st.
Proof.
  revert st. induction l as [|x l IH]; intros st; cbn [each app]; [done|].
  unfold wp at 1 3, mbind, M_bind. destruct (f x st) as [[st2 []]|]; [apply IH|done].
Qed.
End Logic.

(** One step of the walk. *)
Ltac wstep :=
  lazymatch goal with
  | |- EngineLogic.wp _ (mbind _ _) _ _ => apply wp_bind
  | |- EngineLogic.wp _ (get _) _ _ => apply wp_get
  | |- EngineLogic.wp _ (modify _) _ _ => apply wp_modify
  | |- EngineLogic.wp _ (emit _) _ _ => apply wp_emit
  | |- EngineLogic.wp _ (mret _) _ _ => apply wp_ret
  | |- EngineLogic.wp _ (push_ppp _) _ _ => apply wp_modify
  | |- EngineLogic.wp _ (when _ _) _ _ => apply wp_when; intros ?
  end; cbv beta; cbn [session uuids magics actions].
