(* ===== verification/EngineInv.v ===== *)
(** * The invariant of the packet session

    One walk through the operations proves three things at once: the queue, phase
    and link invariant of every session ([pan := True], [peer := None]); that no
    session panics on the octet bearers ([pan := False]); and that a Simple IP
    session delivers only packets of its peer ([peer := Some a]). *)
From S2P Require Import Prelude Framing FramingProofs IpcpConfig Vj VjLink ControlPacket Lcp Ipcp IpcpProofs.
From S2P Require Import ModemEndpoint AsyncNas MobileIp MobileIpProofs EngineParts RlpBackend Engine EngineLogic.
Import Engine.

(** ** The parts of the invariant *)
Definition queue_ok (q : list (list Z)) (octets : nat) : Prop :=
  octets = sum_list_with length q ∧ (length q ≤ PENDING_DOWNLINK_IP_MAX_PACKETS)%nat ∧
  (octets ≤ PENDING_DOWNLINK_IP_MAX_OCTETS)%nat.
Definition drained (p : SessionPhase) (q : list (list Z)) : Prop := p = Active ∨ p = Closed → q = [].
Definition needs_lcp (p : SessionPhase) : bool :=
  match p with Ipcp | Mip4Pending | Active => true | _ => false end.
Definition link_open (p : SessionPhase) (l : Lcp.LcpSession) : Prop := needs_lcp p = true → Lcp.is_open l = true.
(** A Mobile IP binding lives only as long as the link. *)
Definition bound_open (p : SessionPhase) (r : option PppSessionState) (m : Mip.MobileIpSession) (l : Lcp.LcpSession) : Prop :=
  (p = Lcp ∨ p = RlpSync ∧ r = None → Mip.binding m = None) ∧
  (p ≠ RlpSync → Mip.binding m ≠ None → Lcp.is_open l = true).
Lemma bound_up p r m l : needs_lcp p = true ∨ p = Closed → Lcp.is_open l = true → bound_open p r m l.
Proof. intros Hp Hl. split; [|done]. intros [->|[-> _]]; by destruct Hp. Qed.
(** Nothing a component of the session could panic on. *)
Definition total_ok {B} `{TotalBackend B} (b : B) (v : VjState) (buf : list Z) (m : Mip.MobileIpSession) (async : bool) (q : list (list Z))
    (r : option PppSessionState) : Prop :=
  bearer_ok b ∧ vj_ok v ∧ bytes buf ∧ window_ok m ∧ async = false ∧ Forall bytes q ∧
  ∀ st, r = Some st → vj_ok (state_vj st) ∧ window_ok (state_mobile_ip st).
(** The address of the mobile: that of the IPCP configuration, or of the one that waits to be resumed. *)
Definition assigned (c : IpcpConfig) (r : option PppSessionState) : Ipv4Addr :=
  match r with Some st => peer_ip (Ipcp.open_config (state_ipcp st)) | None => peer_ip c end.
(** A session without Mobile IP or modem whose mobile has the address [a]. *)
Definition simple_config (c : IpcpConfig) : Prop := mip_enabled (IpcpConfig.mobile_ip c) = false.
Definition simple_resume (r : option PppSessionState) : Prop :=
  ∀ st, r = Some st → simple_config (Ipcp.open_config (state_ipcp st)) ∧
    mip_enabled (Mip.mip_config (state_mobile_ip st)) = false.
Definition simple_ok (a : Ipv4Addr) (c : IpcpConfig) (m : Mip.MobileIpSession) (p : SessionPhase) (async : bool)
    (r : option PppSessionState) : Prop :=
  (assigned c r = a ∧ simple_config c) ∧ mip_enabled (Mip.mip_config m) = false ∧ p ≠ Mip4Pending ∧ async = false ∧ simple_resume r.
(** What waits for the bearer: before it is up it awaits nothing, and a state to resume waits only until then. *)
Definition waits {B} `{SteadyBackend B} (p : SessionPhase) (r : option PppSessionState) (b : B) : Prop :=
  steady b ∧ (p = RlpSync → ¬ awaiting b) ∧ (r ≠ None → p = RlpSync).
Lemma waits_up {B} `{SteadyBackend B} p p' r (b : B) : waits p r b → p ≠ RlpSync → p' ≠ RlpSync → waits p' r b.
Proof. intros (Hs & _ & Hr) Hp Hp'. split_and!; [done|done|]. intros Hn. by destruct Hp, Hr. Qed.
Lemma waits_bearer {B} `{SteadyBackend B} p r (b b' : B) : waits p r b → steady b' → (awaiting b' → awaiting b) → waits p r b'.
Proof. intros (Hs & Ha & Hr) Hs' Ha'. split_and!; [done|naive_solver|done]. Qed.
Definition delivers (a : Ipv4Addr) (act : SessionAction) : Prop :=
  match act with DeliverIpPacket p => parse_uplink_ipv4 p = Some a | _ => True end.

Section Invariant.
Context {B : Type} {H : RlpBackend B} {keeps : SteadyBackend B} {bearer : TotalBackend B}.
(** [old]: what was emitted before the walk began. *)
Context (pan : Prop) (peer : option Ipv4Addr) (old : list SessionAction) (seed : Z) (md5 : list Z → list Z) (draw : nat → list Z).
Context (Hdraw : pan ∨ fresh_draws draw).
Implicit Types (st : Sys B) (s : PacketSession B).
Abbreviation wp := (wp pan).

(** What holds between any two operations; [Base] leaves the phase out. *)
Definition Base st : Prop :=
  let s := session st in
  queue_ok (pending_downlink_ip s) (pending_downlink_ip_octets s) ∧
  (pan ∨ total_ok (rlp s) (vj s) (deframer s) (mobile_ip s) (is_async_data s) (pending_downlink_ip s) (pending_ppp_resume s)) ∧
  ∀ a, peer = Some a → simple_ok a (Ipcp.config (ipcp s)) (mobile_ip s) (phase s) (is_async_data s) (pending_ppp_resume s) ∧
    ∃ new, actions st = old ++ new ∧ Forall (delivers a) new.
Definition Inv st : Prop :=
  let s := session st in
  Base st ∧ drained (phase s) (pending_downlink_ip s) ∧ link_open (phase s) (lcp s) ∧
  bound_open (phase s) (pending_ppp_resume s) (mobile_ip s) (lcp s) ∧
  waits (phase s) (pending_ppp_resume s) (rlp s).
(** The bearer is up. *)
Definition Up st : Prop := Inv st ∧ phase (session st) ≠ RlpSync.

(** ** Sending *)

(** What the sending operations leave alone. *)
Definition sends st st' : Prop :=
  let s := session st in let s' := session st' in
  rlp s' = rlp s ∧ actions st' = actions st ∧ phase s' = phase s ∧ lcp s' = lcp s ∧ ipcp s' = ipcp s ∧ mobile_ip s' = mobile_ip s ∧
  deframer s' = deframer s ∧ is_async_data s' = is_async_data s ∧ pending_ppp_resume s' = pending_ppp_resume s ∧
  (pan ∨ vj_ok (vj s) → pan ∨ vj_ok (vj s')).

Lemma sends_refl st : sends st st.
Proof. by repeat split. Qed.
Lemma sends_trans st1 st2 st3 : sends st1 st2 → sends st2 st3 → sends st1 st3.
Proof.
  intros (A0 & A1 & A2 & A3 & A4 & A5 & A6 & A7 & A8 & A9) (B0 & B1 & B2 & B3 & B4 & B5 & B6 & B7 & B8 & B9).
  unfold sends. rewrite B0, B1, B2, B3, B4, B5, B6, B7, B8. split_and!; auto.
Qed.

Lemma wp_enqueue p st : pan ∨ (bytes p ∧ vj_ok (vj (session st))) →
  wp (enqueue_downlink_ip_packet p)
    (λ _ st', sends st st' ∧ pending_downlink_ip (session st') = pending_downlink_ip (session st) ∧
       pending_downlink_ip_octets (session st') = pending_downlink_ip_octets (session st)) st.
Proof.
  intros Hok. unfold enqueue_downlink_ip_packet. do 5 wstep. apply wp_lift.
  destruct (compress_ip_packet p _) as [[v ppp]|] eqn:E.
  - do 3 wstep. split_and!; [|done|done]. unfold sends. cbn. split_and!; try done.
    intros _. destruct Hok as [?|[Hb Hv]]; [by left|right].
    destruct (compress_total p _ Hb Hv) as (v' & ppp' & E' & Hv'). cbn in E, E'. rewrite E in E'. by simplify_eq.
  - destruct Hok as [?|[Hb Hv]]; [done|]. destruct (compress_total p _ Hb Hv) as (v' & ppp' & E' & _).
    cbn in E. rewrite E in E'. done.
Qed.

(** A sequence of packets for the mobile. *)
Lemma wp_enqueue_all l st : pan →
  wp (each enqueue_downlink_ip_packet l)
    (λ _ st', sends st st' ∧ pending_downlink_ip (session st') = pending_downlink_ip (session st) ∧
       pending_downlink_ip_octets (session st') = pending_downlink_ip_octets (session st)) st.
Proof.
  intros Hp. apply (wp_each pan (λ _, True)); [by apply Forall_true|split; [apply sends_refl|done]|].
  intros p st1 _ (S1 & E1 & E2). eapply wp_mono; [apply wp_enqueue; by left|].
  intros _ st2 (S2 & E3 & E4). split; [by eapply sends_trans|]. split; congruence.
Qed.

Lemma wp_flush st : queue_ok (pending_downlink_ip (session st)) (pending_downlink_ip_octets (session st)) →
  pan ∨ (vj_ok (vj (session st)) ∧ Forall bytes (pending_downlink_ip (session st))) →
  wp flush_pending_downlink_ip
    (λ _ st', sends st st' ∧ pending_downlink_ip (session st') = [] ∧ pending_downlink_ip_octets (session st') = 0%nat) st.
Proof.
  intros (Hsum & _) Hok. unfold flush_pending_downlink_ip. do 2 wstep. revert Hsum Hok.
  generalize (eq_refl (pending_downlink_ip (session st))).
  generalize (pending_downlink_ip (session st)) at 2 3 4 5 as q. intros q. revert st.
  induction q as [|p q IH]; intros st Eq Hsum Hok; cbn [flush_loop].
  { wstep. split; [apply sends_refl|]. done. }
  do 3 wstep. eapply wp_mono; [apply wp_enqueue|].
  { destruct Hok as [?|[Hv Hb]]; [by left|right]. inversion Hb; subst. done. }
  intros _ st1 (S1 & E1 & E2). cbn in E1, E2. rewrite Hsum in E2. cbn [sum_list_with] in E2.
  eapply wp_mono; [apply IH|].
  - done.
  - rewrite E2. lia.
  - destruct Hok as [?|[Hv Hb]]; [by left|]. destruct S1 as (_ & _ & _ & _ & _ & _ & _ & _ & _ & S1). inversion Hb; subst.
    destruct S1 as [?|?]; [by right|by left|by right].
  - intros _ st2 (S2 & E3 & E4). split; [|done]. eapply sends_trans; [|exact S2]. exact S1.
Qed.

(** ** Queueing *)
Lemma evict_ok q : ∀ n, n = sum_list_with length q →
  let r := evict q n in queue_ok r.1 r.2 ∧ ∃ k, r.1 = drop k q.
Proof.
  induction q as [|p q IH]; intros n Hn; cbn [evict].
  { cbn in Hn |- *. split; [|by exists 0%nat]. unfold queue_ok. cbn. subst n. unfold PENDING_DOWNLINK_IP_MAX_PACKETS. lia. }
  destruct (bool_decide _ || bool_decide _) eqn:E.
  - cbn [sum_list_with] in Hn. destruct (IH (n - length p)%nat) as [H1 [k Hk]]; [lia|]. split; [done|]. by exists (S k).
  - apply orb_false_iff in E as [E1%bool_decide_eq_false E2%bool_decide_eq_false]. cbn [fst snd].
    split; [|by exists 0%nat]. unfold queue_ok. split_and!; [done|lia|lia].
Qed.

Lemma wp_queue_pending p st : Inv st → pan ∨ bytes p → phase (session st) ≠ Active → phase (session st) ≠ Closed →
  wp (queue_pending_downlink_ip p) (λ _ st', Inv st' ∧ phase (session st') = phase (session st)) st.
Proof.
  intros ((Hq & Ht & Hs) & Hd & Hl & Hb & Hy) Hp HA HC. unfold queue_pending_downlink_ip. wstep.
  pose proof (evict_ok (pending_downlink_ip (session st) ++ [p])
    (pending_downlink_ip_octets (session st) + length p)%nat) as [Hq' [k Hk]].
  { destruct Hq as [-> _]. rewrite sum_list_with_app. cbn. lia. }
  destruct (evict _ _) as [q n]. cbn [fst snd] in *. split; [|done]. split_and!; try done.
  - unfold Base. split_and!; [done| |done]. destruct Ht as [?|(T0 & T1 & T2 & T3 & T4 & T5 & T6)]; [by left|].
    destruct Hp as [?|Hp]; [by left|]. right. unfold total_ok. split_and!; try done.
    cbn. subst q. apply Forall_drop, Forall_app. split; [done|]. by apply Forall_singleton.
  - unfold drained. cbn. intros [?|?]; done.
Qed.

(** ** Mobile IP *)
Lemma Base_sends st st' q n : Base st → sends st st' → pending_downlink_ip (session st') = q →
  pending_downlink_ip_octets (session st') = n → queue_ok q n → (pan ∨ Forall bytes q) → Base st'.
Proof.
  intros (Hq & Ht & Hs) (S0 & S1 & S2 & S3 & S4 & S5 & S6 & S7 & S8 & S9) <- <- HQ HB. split_and!; [done| |].
  - destruct Ht as [?|(T0 & T1 & T2 & T3 & T4 & T5 & T6)]; [by left|]. destruct HB as [?|HB]; [by left|].
    destruct S9 as [?|?]; [by right|by left|right]. unfold total_ok. rewrite S0, S5, S6, S7, S8. done.
  - intros a Ha. rewrite S1, S2, S4, S5, S7, S8. by apply Hs.
Qed.

Lemma Base_pending st : Base st →
  pan ∨ (vj_ok (vj (session st)) ∧ Forall bytes (pending_downlink_ip (session st))).
Proof. intros (_ & [?|(_ & T1 & _ & _ & _ & T5 & _)] & _); [by left|by right]. Qed.

Lemma queue_ok_nil : queue_ok [] 0.
Proof. unfold queue_ok. cbn. lia. Qed.

(** The flush that ends every way into [Active]. *)
Lemma wp_flush_active st : Base st → phase (session st) = Active → Lcp.is_open (lcp (session st)) = true →
  waits Active (pending_ppp_resume (session st)) (rlp (session st)) → wp flush_pending_downlink_ip (λ _ st', Up st') st.
Proof.
  intros HB HA HL Hy. eapply wp_mono; [apply wp_flush; [apply HB|by apply Base_pending]|].
  intros _ st' (Hs & Eq & En). pose proof Hs as (S0 & _ & S2 & S3 & _ & _ & _ & _ & S8 & _).
  assert (Base st') as HB'.
  { eapply (Base_sends st); [done..|apply queue_ok_nil|right; by apply Forall_nil_2]. }
  split; [|by rewrite S2, HA]. unfold Inv. rewrite Eq. split; [done|]. split; [done|]. split_and!.
  - intros _. by rewrite S3.
  - rewrite S2, S3, HA. by apply bound_up; [left|].
  - by rewrite S0, S2, S8, HA.
Qed.

Lemma wp_mobile_ip p st : Up st → Lcp.is_open (lcp (session st)) = true → phase (session st) ≠ Lcp → peer = None →
  wp (handle_mobile_ip_packet md5 draw p) (λ _ st', Up st') st.
Proof.
  intros [((Hq & Ht & Hs) & Hd & Hl & Hb & Hy) HR] HL HNL HN. unfold handle_mobile_ip_packet.
  assert (needs_lcp (phase (session st)) = true ∨ phase (session st) = Closed) as Hph.
  { destruct (phase (session st)); auto; done. } do 3 wstep. apply wp_uuid.
  destruct (Mip.handle_ipv4_packet md5 draw p _ _ _) as [[[u mip] r]|] eqn:E.
  2: { cbn. destruct Ht as [?|(_ & _ & _ & HW & _)]; [done|]. destruct Hdraw as [?|Hinj]; [done|].
       destruct (handle_total md5 draw Hinj p (peer_ip (Ipcp.config (ipcp (session st)))) (uuids st) (mobile_ip (session st)) HW)
         as [x Ex]. unfold id in E. rewrite E in Ex. done. }
  rewrite bind_some. do 2 wstep.
  assert (pan ∨ total_ok (rlp (session st)) (vj (session st)) (deframer (session st)) mip (is_async_data (session st))
     (pending_downlink_ip (session st)) (pending_ppp_resume (session st))) as Ht1.
  { destruct Ht as [?|(T0 & T1 & T2 & T3 & T4 & T5 & T6)]; [by left|right]. unfold total_ok. split_and!; try done.
    by eapply (handle_window_ok md5 draw p); [exact T3|exact E]. }
  assert (∀ s2, rlp s2 = rlp (session st) → pending_downlink_ip s2 = pending_downlink_ip (session st) →
     pending_downlink_ip_octets s2 = pending_downlink_ip_octets (session st) → vj s2 = vj (session st) →
     deframer s2 = deframer (session st) → mobile_ip s2 = mip → is_async_data s2 = is_async_data (session st) →
     pending_ppp_resume s2 = pending_ppp_resume (session st) → Base (mkSys u (magics st) s2 (actions st))) as HB1.
  { intros s2 E0 E1 E2 E3 E4 E5 E6 E7. unfold Base. cbn. rewrite E0, E1, E2, E3, E4, E5, E6, E7. split_and!; [done|done|].
    intros a Ha. by rewrite HN in Ha. }
  assert (∀ reply, wp (push_ppp (mkPppPacket PPP_IP_PROTOCOL reply);; modify (set_ppp_activity_since_last_check true);;
      s ← get id; when (bool_decide (Mip.binding (mobile_ip s) = None) && phase_is Active s) (modify (set_phase Mip4Pending));;
      mret true) (λ _, Up) (mkSys u (magics st) (set_mobile_ip mip (session st)) (actions st))) as replied.
  { intros reply. do 8 wstep; [wstep|]; wstep; split; try done.
    - split_and!; [by apply HB1|by intros [?|?]|by intros _|by apply bound_up; [left|]|by eapply waits_up].
    - split_and!; [by apply HB1|done|by intros _|by apply bound_up|done]. }
  destruct r as [| | |reply|reply|b reply].
  - wstep. split; [|done]. split_and!; [by apply HB1|done|by intros _|by apply bound_up|done].
  - wstep. split; [|done]. split_and!; [by apply HB1|done|by intros _|by apply bound_up|done].
  - do 2 wstep. destruct (Ipcp.restart_for_simple_ip _) as [i req]. do 9 wstep.
    split; [|done]. split_and!; [by apply HB1|by intros [?|?]|by intros _|by apply bound_up; [left|]|by eapply waits_up].
  - by apply (replied reply).
  - by apply (replied reply).
  - do 9 wstep. eapply wp_mono; [apply wp_flush_active; [by apply HB1|done|done|by eapply waits_up]|]. intros [] st2 HU. wstep. exact HU.
Qed.

(** ** Async data calls *)
Lemma async_partial st : Base st → is_async_data (session st) = true → pan ∧ peer = None.
Proof.
  intros (_ & Ht & Hs) Ea. split.
  - destruct Ht as [?|(_ & _ & _ & _ & E & _)]; [done|]. congruence.
  - destruct peer as [a|]; [|done]. destruct (Hs a eq_refl) as [(_ & _ & _ & E & _) _]. congruence.
Qed.

(** The modem touches only itself, the queue of PPP packets and the compression. *)
Definition modems st st' : Prop :=
  let s := session st in let s' := session st' in
  phase s' = phase s ∧ lcp s' = lcp s ∧ mobile_ip s' = mobile_ip s ∧ is_async_data s' = is_async_data s ∧
  pending_downlink_ip s' = pending_downlink_ip s ∧ pending_downlink_ip_octets s' = pending_downlink_ip_octets s ∧
  pending_ppp_resume s' = pending_ppp_resume s ∧ rlp s' = rlp s.

Lemma modems_trans st1 st2 st3 : modems st1 st2 → modems st2 st3 → modems st1 st3.
Proof. unfold modems. intros (?&?&?&?&?&?&?&?) (?&?&?&?&?&?&?&?). split_and!; congruence. Qed.
Lemma modems_inv st st' : pan → peer = None → modems st st' → Inv st → Inv st'.
Proof.
  intros Hp HN (E1 & E2 & E3 & E4 & E5 & E6 & E7 & E8) ((Hq & _) & Hd & Hl & Hb & Hy). unfold Inv, Base.
  rewrite E1, E2, E3, E5, E6, E7, E8. split; [|done]. split_and!; [done|by left|]. intros a Ha. by rewrite HN in Ha.
Qed.

Lemma wp_modem_packets l st : pan → wp (each enqueue_downlink_ip_packet l) (λ _, modems st) st.
Proof.
  intros Hp. eapply wp_mono; [by apply wp_enqueue_all|].
  intros _ st' ((S0 & _ & S2 & S3 & _ & S5 & _ & S7 & S8 & _) & E1 & E2). done.
Qed.

Lemma wp_start_nas e st : pan → wp (start_nas seed e) (λ _, modems st) st.
Proof.
  intros Hp. unfold start_nas. do 3 wstep. unfold EngineLogic.wp at 1, next_magic.
  destruct (Lcp.session_magic seed (magics st)) as [[magic q]|]; [|done].
  destruct (Endpoint.carrier_up e) as [e1 cup]. wstep. eapply wp_mono; [by apply wp_modem_packets|].
  intros [] st1 M1. destruct (Nas.start _) as [n bytes]. destruct (Endpoint.send_online bytes e1) as [e2 pkts].
  wstep. eapply wp_mono; [by apply wp_modem_packets|]. intros [] st2 M2. wstep. by eapply modems_trans.
Qed.

Lemma wp_deliver_all l st : wp (each (λ ip, emit (DeliverIpPacket ip)) l) (λ _, modems st) st.
Proof.
  apply (wp_each pan (λ _, True)); [by apply Forall_true|done|]. intros ip st1 _ M1. by wstep.
Qed.

Lemma wp_drive_async p st : pan → wp (drive_async_uplink seed p) (λ _, modems st) st.
Proof.
  intros Hp. unfold drive_async_uplink. do 2 wstep. destruct (async_modem (session st)) as [[e n]|]; [|done].
  wstep. apply wp_lift. cbn [endpoint nas]. destruct (Endpoint.on_uplink_ip p e) as [[e1 out]|]; [|done].
  destruct (negb _); [by do 3 wstep|]. wstep. eapply wp_mono; [by apply wp_modem_packets|]. intros [] st1 M1. wstep.
  eapply (wp_mono pan _ (λ _, modems st)).
  { destruct (Endpoint.dialed out); [|by wstep]. destruct n; [by wstep|]. wstep.
    eapply wp_mono; [by apply wp_start_nas|]. intros [e2 n2] st2 M2. wstep. by eapply modems_trans. }
  intros [e2 n2] st2 M2. wstep. eapply (wp_mono pan _ (λ _, modems st)).
  { destruct n2 as [n2|]; [|by wstep]. case_decide; [by wstep|]. destruct (Nas.feed _ n2) as [n3 out2].
    destruct (Endpoint.send_online _ e2) as [e3 pkts]. wstep. eapply wp_mono; [by apply wp_modem_packets|].
    intros [] st3 M3. wstep. eapply wp_mono; [apply wp_deliver_all|]. intros [] st4 M4. wstep.
    eapply modems_trans; [exact M2|]. by eapply modems_trans. }
  intros [e3 n3] st3 M3. do 3 wstep. exact M3.
Qed.

Lemma wp_route_async p st : pan → wp (route_async_downlink p) (λ _, modems st) st.
Proof.
  intros Hp. unfold route_async_downlink. do 2 wstep. destruct (async_modem (session st)) as [[e [n|]]|]; [|done..].
  destruct (Endpoint.send_online _ e) as [e1 pkts]. wstep. eapply wp_mono; [by apply wp_modem_packets|].
  intros [] st1 M1. do 3 wstep. exact M1.
Qed.

Lemma wp_tick_async st : pan → wp tick_async_modem (λ _, modems st) st.
Proof.
  intros Hp. unfold tick_async_modem. do 2 wstep. destruct (async_modem (session st)) as [[e [n|]]|]; [|done..].
  destruct (Nas.tick n) as [n1 bytes]. destruct (Endpoint.send_online _ e) as [e1 pkts]. wstep.
  eapply wp_mono; [by apply wp_modem_packets|]. intros [] st1 M1. wstep. exact M1.
Qed.

(** ** Uplink packets *)
Lemma Base_emit st a act : Base st → (∀ b, peer = Some b → delivers b act) → a = actions st ++ [act] →
  Base (mkSys (uuids st) (magics st) (session st) a).
Proof.
  intros (Hq & Ht & Hs) Hd ->. split_and!; [done|done|]. intros b Hb. destruct (Hs b Hb) as [H1 (new & -> & H2)]. split; [done|].
  exists (new ++ [act]). cbn. rewrite app_assoc. split; [done|]. apply Forall_app. split; [done|]. by apply Forall_singleton, Hd.
Qed.

Lemma wp_forward p st : Up st → wp (forward_uplink_ip_packet seed p) (λ _, Up) st.
Proof.
  intros [HI HR]. unfold forward_uplink_ip_packet. destruct (parse_uplink_ipv4 p) as [src|] eqn:Ep; [|done].
  do 2 wstep. destruct (phase_is Active _) eqn:EA; cbn [negb]; [|done]. case_bool_decide as Esrc; [done|]. wstep.
  destruct (is_async_data _) eqn:Ea.
  - destruct (async_partial st) as [Hp HN]; [apply HI|done|]. eapply wp_mono; [by apply wp_drive_async|].
    intros consumed st1 M1. assert (Inv st1) as HI1 by by apply (modems_inv st).
    assert (phase (session st1) ≠ RlpSync) as HR1 by (destruct M1 as (-> & _); done).
    do 2 wstep; [do 2 wstep|wstep]; split; try done. destruct HI1 as (HB1 & HI1). split; [|done].
    apply (Base_emit st1 _ (DeliverIpPacket p)); [done| |done]. intros b Hb. by rewrite HN in Hb.
  - wstep. do 2 wstep; [|done]. do 2 wstep. split; [|done].  destruct HI as (HB1 & HI1). split; [|done].
    apply (Base_emit st _ (DeliverIpPacket p)); [done| |done]. intros b Hb. cbn.
    destruct HB1 as (_ & _ & Hs). destruct (Hs b Hb) as [((<- & _) & _) _]. rewrite Ep. f_equal.
    destruct HI1 as (_ & _ & _ & _ & _ & Hr). destruct (pending_ppp_resume (session st)) as [r|]; [destruct HR; by apply Hr|]. cbn.
    destruct (decide (src = peer_ip (Ipcp.config (ipcp (session st))))); tauto.
Qed.

Lemma simple_no_mip st a : Base st → peer = Some a →
  phase (session st) ≠ Mip4Pending ∧ mip_enabled (Mip.mip_config (mobile_ip (session st))) = false.
Proof. intros (_ & _ & Hs) Ha. by destruct (Hs a Ha) as [(_ & E & HM & _) _]. Qed.

Lemma wp_deliver p st : Up st → wp (deliver_uplink_ip_packet seed md5 draw p) (λ _, Up) st.
Proof.
  intros HU. pose proof HU as [(HB & Hd & Hl & Hb & Hy) HR]. unfold deliver_uplink_ip_packet. do 2 wstep. unfold id.
  destruct (phase_is Mip4Pending _) eqn:EM.
  - apply bool_decide_eq_true in EM. wstep. eapply wp_mono; [apply wp_mobile_ip; [done| | |]|].
    + apply Hl. by rewrite EM.
    + by rewrite EM.
    + destruct peer as [a|] eqn:Ea; [|done]. by destruct (simple_no_mip st a HB Ea).
    + intros ? st1 H1. by wstep.
  - wstep. destruct (mip_enabled _ && _) eqn:EE.
    + apply andb_true_iff in EE as [E1 E2%negb_true_iff%bool_decide_eq_false].
      eapply wp_mono; [apply wp_mobile_ip; [done|by apply Hb| |]|].
      * intros EL. by apply E2, Hb; left.
      * destruct peer as [a|] eqn:Ea; [|done]. destruct (simple_no_mip st a HB Ea). congruence.
      * intros [] st1 H1; [by wstep|]. by apply wp_forward.
    + wstep. by apply wp_forward.
Qed.

(** ** PPP *)
Lemma wp_push_all l st : Inv st →
  wp (each push_ppp l) (λ _ st', Inv st' ∧ phase (session st') = phase (session st) ∧ lcp (session st') = lcp (session st) ∧
    ipcp (session st') = ipcp (session st)) st.
Proof.
  intros HI. apply (wp_each pan (λ _, True)); [by apply Forall_true|done|]. intros ppp st1 _ H1. wstep. exact H1.
Qed.

(** A phase other than [Mip4Pending] does not matter to [Base]. *)
Lemma Base_phase st s' p : Base st → p ≠ Mip4Pending → s' = set_phase p (session st) →
  Base (mkSys (uuids st) (magics st) s' (actions st)).
Proof.
  intros (Hq & Ht & Hs) Hp ->. split_and!; [done|done|]. intros a Ha.
  destruct (Hs a Ha) as [((S0 & S1) & S2 & S3 & S4 & S5) HD]. split; [|done]. unfold simple_ok. by split_and!.
Qed.

Lemma wp_enter_ipcp_open st : Up st → Lcp.is_open (lcp (session st)) = true →
  wp (enter_ipcp_open_phase draw) (λ _, Up) st.
Proof.
  intros [((Hq & Ht & Hs) & Hd & Hl & Hb & Hy) HR] HL. unfold enter_ipcp_open_phase. do 4 wstep.
  set (v := configure _ _ _). assert (vj_ok v) as Hv by apply vj_ok_configure.
  destruct (mip_enabled _ && _) eqn:EM.
  - apply andb_true_iff in EM as [EM _]. unfold id in EM. cbn in EM.
    assert (peer = None) as HN.
    { destruct peer as [a|]; [|done]. destruct (Hs a eq_refl) as [([_ E] & _) _]. congruence. }
    wstep. apply wp_uuid. destruct (Mip.reset draw _ _) as [[u mip]|] eqn:E.
    2: { cbn. destruct Hdraw as [?|Hinj]; [done|].
         by destruct (proj1 (eq_None_not_Some _) E (mip_new_total draw _ _ Hinj)). }
    pose proof (new_window_ok draw _ _ _ _ E) as [HW _]. do 2 wstep.
    pose proof (advertisement_window mip) as HW2. destruct (Mip.next_unsolicited_advertisement mip) as [mip2 adv].
    cbn [fst] in HW2. do 2 wstep.
    assert (∀ q, Up (mkSys u (magics st) (set_ppp_tx_queue q (set_mobile_ip mip2 (set_phase Mip4Pending (set_vj v (session st))))) (actions st))) as HU.
    { intros q. split; [|done]. split_and!; [|by intros [?|?]|by intros _|by apply bound_up; [left|]|by eapply waits_up].
      split_and!; [done| |intros a Ha; by rewrite HN in Ha].
      destruct Ht as [?|(T0 & T1 & T2 & T3 & T4 & T5 & T6)]; [by left|right]. unfold total_ok. split_and!; try done. by apply HW2. }
    destruct adv as [adv|]; wstep; [apply HU|apply (HU (ppp_tx_queue (session st)))].
  - do 3 wstep. assert (Base (mkSys (uuids st) (magics st) (set_phase Active (set_vj v (session st))) (actions st))) as HB.
    { apply (Base_phase (mkSys (uuids st) (magics st) (set_vj v (session st)) (actions st)) _ Active); [|done|done].
      split_and!; [done| |done].
      destruct Ht as [?|(T0 & T1 & T2 & T3 & T4 & T5 & T6)]; [by left|right]. unfold total_ok. by split_and!. }
    assert (waits Active (pending_ppp_resume (session st)) (rlp (session st))) as Hya by by eapply waits_up.
    unfold maybe_start_async_modem. do 3 wstep; [wstep|]; by apply wp_flush_active.
Qed.

Lemma wp_reset_upper st : Base st → waits Lcp (pending_ppp_resume (session st)) (rlp (session st)) → wp (reset_upper_layers draw) (λ _ st', Up st' ∧ lcp (session st') = lcp (session st)) st.
Proof.
  intros (Hq & Ht & Hs) Hy. unfold reset_upper_layers. do 5 wstep. apply wp_uuid.
  destruct (Mip.new draw _ _) as [[u mip]|] eqn:E.
  2: { cbn. destruct Hdraw as [?|Hinj]; [done|].
       by destruct (proj1 (eq_None_not_Some _) E (mip_new_total draw _ _ Hinj)). }
  pose proof (new_window_ok draw _ _ _ _ E) as [HW HC].
  assert (Mip.binding mip = None) as HB.
  { unfold Mip.new, Mip.rotate_challenge in E. apply bind_Some in E as ([u1 c] & _ & E). by injection E as <- <-. }
  do 9 wstep. split; [|done]. split; [|done]. split_and!; [|by intros [?|?]|done| |done].
  - split_and!; [done| |].
    + destruct Ht as [?|(T0 & T1 & T2 & T3 & T4 & T5 & T6)]; [by left|right]. unfold total_ok. cbn.
      split_and!; done || apply vj_ok_default.
    + intros a Ha. destruct (Hs a Ha) as [((S0 & S1) & S2 & S3 & S4 & S5) HD]. split; [|done]. unfold simple_ok. cbn.
      split_and!; try done. by rewrite HC.
  - split; [done|]. intros _ Hx. cbn in Hx. by rewrite HB in Hx.
Qed.

Lemma wp_receive_lcp ppp st : Up st → wp (receive_lcp draw ppp) (λ _, Up) st.
Proof.
  intros [((Hq & Ht & Hs) & Hd & Hl & Hb & Hy) HR]. unfold receive_lcp. do 2 wstep.
  destruct (Lcp.receive ppp (lcp (session st))) as [l responses]. do 3 wstep.
  set (st0 := mkSys _ _ (set_lcp l _) _).
  assert (Base st0) as HB0 by done.
  eapply (wp_mono pan _ (λ _ st1, Base st1 ∧ drained (phase (session st1)) (pending_downlink_ip (session st1)) ∧
    phase (session st1) = phase (session st) ∧ lcp (session st1) = l ∧ mobile_ip (session st1) = mobile_ip (session st) ∧
    waits (phase (session st)) (pending_ppp_resume (session st1)) (rlp (session st1)))).
  { apply (wp_each pan (λ _, True)); [by apply Forall_true|done|]. intros r st1 _ H1. wstep. exact H1. }
  intros [] st1 (HB1 & Hd1 & E1 & E2 & E3 & Hy1). wstep.
  eapply (wp_mono pan _ (λ _ st1, Base st1 ∧ drained (phase (session st1)) (pending_downlink_ip (session st1)) ∧
    phase (session st1) = phase (session st) ∧ lcp (session st1) = l ∧ mobile_ip (session st1) = mobile_ip (session st) ∧
    waits (phase (session st)) (pending_ppp_resume (session st1)) (rlp (session st1)))).
  { wstep; [wstep|]; done. }
  clear st1 HB1 Hd1 E1 E2 E3 Hy1. intros [] st1 (HB1 & Hd1 & E1 & E2 & E3 & Hy1). wstep.
  eapply (wp_mono pan _ (λ _ st2, Up st2 ∧ lcp (session st2) = l)).
  { wstep; [eapply wp_mono; [apply wp_reset_upper; [done|by eapply waits_up]|]; intros [] st2 [HU E]; split; [done|congruence]|].
    split; [|done]. split; [|by rewrite E1]. unfold Inv. rewrite E1, E2, E3. rewrite E1 in Hd1. split_and!; [done|done| | |done].
    - intros Hn. specialize (Hl Hn). rewrite Hl in H0. by destruct (Lcp.is_open l).
    - destruct Hb as [Hb1 Hb2]. split; [intros [Hx|[Hx _]]; [apply Hb1; by left|done]|].
      intros _ Hm. specialize (Hb2 HR Hm). rewrite Hb2 in H0. by destruct (Lcp.is_open l). }
  intros [] st2 [HU E]. do 3 wstep; [|done]. apply andb_true_iff in H0 as [Ho Hp]. apply bool_decide_eq_true in Hp.
  unfold id in Ho, Hp. wstep. destruct HU as [(HB2 & _ & _ & _ & Hy2) HR2]. split; [|done].
  split_and!; [|by intros [?|?]|by intros _|by apply bound_up; [left|]|by eapply waits_up]. by apply (Base_phase st2 _ Ipcp).
Qed.

Lemma wp_receive_ipcp ppp st : Up st → wp (receive_ipcp draw ppp) (λ _, Up) st.
Proof.
  intros HU. unfold receive_ipcp. do 3 wstep.
  eapply (wp_mono pan _ (λ _, Up)).
  { destruct HU as [((Hq & Ht & Hs) & Hd & Hl & Hb & Hy) HR]. wstep; [|done]. do 3 wstep. split; [|done].
    split_and!; [|by intros [?|?]|by intros _|by apply bound_up; [left|]|by eapply waits_up].
    by apply (Base_phase (mkSys (uuids st) (magics st) (set_lcp (Lcp.force_open (lcp (session st))) (session st)) (actions st)) _ Ipcp). }
  clear st HU. intros [] st HU. do 2 wstep.
  pose proof (ipcp_config_receive ppp (ipcp (session st))) as EC.
  destruct (Ipcp.receive ppp (ipcp (session st))) as [i responses]. cbn [fst] in EC. do 3 wstep.
  eapply wp_mono; [apply wp_push_all|].
  { destruct HU as [((Hq & Ht & Hs) & Hd & Hl & Hb & Hy) HR]. split_and!; [|done..]. split_and!; [done|done|].
    intros a Ha. destruct (Hs a Ha) as [((S0 & S1) & S2 & S3 & S4 & S5) HD]. split; [|done]. unfold simple_ok. cbn.
    rewrite EC. by split_and!. }
  intros [] st1 (HI1 & E1 & E2 & E3). do 3 wstep.
  - apply andb_true_iff in H0 as [_ Hp]. apply bool_decide_eq_true in Hp. unfold id in Hp.
    apply wp_enter_ipcp_open; [split; [done|by rewrite Hp]|]. destruct HI1 as (_ & _ & Hl1 & _). apply Hl1. by rewrite Hp.
  - split; [done|]. rewrite E1. apply HU.
Qed.

Lemma wp_uplink_ppp ppp st : Up st → pan ∨ bytes (payload ppp) →
  wp (process_uplink_ppp seed md5 draw ppp) (λ _, Up) st.
Proof.
  intros HU Hp. unfold process_uplink_ppp. cbv zeta. destruct (_ =? _); [by apply wp_receive_lcp|].
  destruct (_ =? _); [by apply wp_receive_ipcp|]. destruct (_ =? _); [by apply wp_deliver|].
  destruct (_ || _); [|by wstep]. do 3 wstep. apply wp_lift.
  destruct HU as [((Hq & Ht & Hs) & Hd & Hl & Hb & Hy) HR].
  destruct (decompress_packet _ _ _) as [[v r]|] eqn:E.
  - do 2 wstep. match goal with |- EngineLogic.wp _ _ _ ?st1 => assert (Up st1) as HU end.
    { split; [|done]. split_and!; [|done..]. split_and!; [done| |done].
      destruct Ht as [?|(T0 & T1 & T2 & T3 & T4 & T5 & T6)]; [by left|]. destruct Hp as [?|Hp]; [by left|right].
      destruct (decompress_ok (protocol ppp) (payload ppp) _ Hp T1) as (v' & r' & E' & Hv). rewrite E in E'.
      injection E' as <- <-. unfold total_ok. by split_and!. }
    destruct r; [by apply wp_deliver|by wstep].
  - destruct Ht as [?|(_ & T1 & _)]; [done|]. destruct Hp as [?|Hp]; [done|].
    destruct (decompress_ok (protocol ppp) (payload ppp) _ Hp T1) as (v' & r' & E' & _). by rewrite E in E'.
Qed.

(** ** The bearer *)
Lemma wp_link_established st : Base st → drained (phase (session st)) (pending_downlink_ip (session st)) →
  bound_open (phase (session st)) (pending_ppp_resume (session st)) (mobile_ip (session st)) (lcp (session st)) →
  steady (rlp (session st)) → phase (session st) = RlpSync → wp link_established (λ _, Up) st.
Proof.
  intros HB Hd Hb Hy HR. pose proof HB as (Hq & Ht & Hs). unfold link_established. do 2 wstep.
  destruct (pending_ppp_resume (session st)) as [r|] eqn:Er.
  - do 19 wstep. eapply wp_mono; [apply wp_flush_active; [|done|done|done]|].
    + split_and!; [done| |].
      * destruct Ht as [?|(T0 & T1 & T2 & T3 & T4 & T5 & T6)]; [by left|right]. destruct (T6 r eq_refl). unfold total_ok. by split_and!.
      * intros a Ha. destruct (Hs a Ha) as [((S0 & S1) & S2 & S3 & S4 & S5) HD]. destruct (S5 r eq_refl). split; [|done].
        unfold simple_ok. by split_and!.
    + intros [] st1 HU. wstep. exact HU.
  - do 3 wstep. split; [|done]. split_and!; [|by intros [?|?]|done| |by split_and!; [|done|cbn; rewrite Er]].
    + exact (Base_phase st (set_phase Lcp (session st)) Lcp HB (ltac:(done)) eq_refl).
    + destruct Hb as [Hb _]. split; [|intros _ Hm; destruct Hm]; intros; apply Hb; by right.
Qed.

Lemma Base_rlp st b : Base st → pan ∨ bearer_ok b → Base (mkSys (uuids st) (magics st) (set_rlp b (session st)) (actions st)).
Proof.
  intros (Hq & Ht & Hs) Hb. split_and!; [done| |done].
  destruct Ht as [?|(T0 & T1 & T2 & T3 & T4 & T5 & T6)]; [by left|]. destruct Hb as [?|Hb]; [by left|right].
  unfold total_ok. by split_and!.
Qed.
Lemma Inv_rlp st b : Inv st → pan ∨ bearer_ok b → steady b ∧ (awaiting b → awaiting (rlp (session st))) → Inv (mkSys (uuids st) (magics st) (set_rlp b (session st)) (actions st)).
Proof.
  intros (HB & Hd & Hl & Hbo & Hy) Hb [Hs Ha]. split_and!; [by apply Base_rlp|done..|]. by eapply waits_bearer.
Qed.
Lemma Inv_steady st : Inv st → steady (rlp (session st)).
Proof. by intros (_ & _ & _ & _ & Hy & _). Qed.
Lemma Inv_bearer st : Inv st → pan ∨ bearer_ok (rlp (session st)).
Proof. intros ((_ & [?|(T0 & _)] & _) & _); [by left|by right]. Qed.

Definition uplink_ok (uplink : option (list Z * Z)) : Prop :=
  let '(bits, rate) := default ([], 0) uplink in pan ∨ frame_ok bits rate ∨ uplink = None.

Lemma wp_process_uplink uplink st : Inv st → uplink_ok uplink → wp (process_uplink seed md5 draw uplink) (λ _, Inv) st.
Proof.
  intros HI Hok. unfold process_uplink, uplink_ok in *. destruct (default ([], 0) uplink) as [bits rate] eqn:Eu.
  do 3 wstep. apply wp_lift.
  assert (pan ∨ ∃ b' d, receive_frame_bits bits rate (rlp (session st)) = Some (b', d) ∧ bearer_ok b' ∧ bytes (default [] d)) as Hr.
  { destruct (Inv_bearer st HI) as [?|T0]; [by left|]. destruct Hok as [?|Hok]; [by left|right].
    apply receive_total; [done|]. destruct Hok as [?| ->]; [done|]. cbn in Eu. injection Eu as <- <-. apply erasure_ok. }
  destruct (receive_frame_bits bits rate (rlp (session st))) as [[b d]|] eqn:E.
  2: { destruct Hr as [?|(b' & d & E' & _)]; done. }
  assert (pan ∨ bearer_ok b ∧ bytes (default [] d)) as Hb. { destruct Hr as [?|(b' & d' & [= <- <-] & ? & ?)]; [by left|by right]. }
  destruct (receive_steady bits rate _ b d (Inv_steady st HI) E) as [Hsb Hdb].
  pose proof HI as (HB & Hd & Hl & Hbo & Hy & Haw & Hre).
  assert (Base (mkSys (uuids st) (magics st) (set_rlp b (session st)) (actions st))) as HIb.
  { apply Base_rlp; [done|]. destruct Hb as [?|[? _]]; [by left|by right]. }
  do 5 wstep.
  eapply (wp_mono pan _ (λ _ st1, Inv st1 ∧ (d ≠ None → phase (session st1) ≠ RlpSync))).
  { wstep.
    - apply andb_true_iff in H0 as [Hp%bool_decide_eq_true _].
      eapply wp_mono; [by apply wp_link_established|]. by intros [] st1 [? ?].
    - unfold id, phase_is in H0. cbn in H0. assert (phase (session st) = RlpSync → is_data_transfer b = false) as Hnd.
      { intros Hp. rewrite Hp in H0. by destruct (is_data_transfer b). }
      split; [split_and!; try done|].
      + split_and!; [done| |done]. intros Hp Ha. pose proof (awaiting_up b Hsb Ha) as Hx. by rewrite (Hnd Hp) in Hx.
      + intros Hn Hp. cbn in Hp. destruct (Hdb Hn) as [Ht|Ha]; [by rewrite (Hnd Hp) in Ht|by destruct (Haw Hp)]. }
  intros [] st1 [HI1 HU1]. destruct d as [data|]; [|by wstep]. do 2 wstep.
  assert (phase (session st1) ≠ RlpSync) as HR by by apply HU1.
  destruct (feed (deframer (session st1)) data) as [buf ppps] eqn:Ef. do 2 wstep.
  assert (pan ∨ (bytes buf ∧ Forall (λ ppp, bytes (payload ppp)) ppps)) as Hf.
  { destruct Hb as [?|[_ Hb]]; [by left|]. destruct HI1 as ((_ & [?|(_ & _ & T2 & _)] & _) & _); [by left|right].
    by eapply feed_bytes; [exact T2|exact Hb|exact Ef]. }
  eapply wp_mono.
  { apply (wp_each pan (λ ppp, pan ∨ bytes (payload ppp)) _ Up).
    - destruct Hf as [?|[_ Hf]]; [by apply Forall_true; left|]. eapply Forall_impl; [exact Hf|]. by right.
    - split; [|done]. destruct HI1 as ((Hq & Ht & Hs) & HI1). split; [|done]. split_and!; [done| |done].
      destruct Ht as [?|(T0 & T1 & T2 & T3 & T4 & T5 & T6)]; [by left|]. destruct Hf as [?|[Hf _]]; [by left|right].
      unfold total_ok. by split_and!.
    - intros ppp st2 Hp HU. do 2 wstep. by apply wp_uplink_ppp. }
  by intros [] st2 [? _].
Qed.

(** ** Emission *)
Lemma Inv_emit st act : Inv st → (∀ b, delivers b act) → Inv (mkSys (uuids st) (magics st) (session st) (actions st ++ [act])).
Proof. intros (HB & Hd & Hl & Hb & Hy) Ha. split_and!; [|done..]. by apply (Base_emit st _ act). Qed.

Lemma wp_send_frames n flush allow st : Inv st → wp (send_frames n flush allow) (λ _, Inv) st.
Proof.
  revert st. induction n as [|n IH]; intros st HI; cbn [send_frames]; [by wstep|]. do 3 wstep. apply wp_lift.
  assert (pan ∨ ∃ b' f, (if flush then next_frame_bits allow (rlp (session st)) else next_full_frame_bits allow (rlp (session st)))
    = Some (b', f) ∧ bearer_ok b') as Hr.
  { destruct (Inv_bearer st HI) as [?|T0]; [by left|right]. destruct flush; [by apply next_total|by apply next_full_total]. }
  destruct (if flush then _ else _) as [[b [bits rate]]|] eqn:Er.
  - do 2 wstep. match goal with |- EngineLogic.wp _ _ _ ?st1 => assert (Inv st1) as H1 end.
    { apply Inv_rlp; [done| |].
      - destruct Hr as [?|(b' & f & [= <- _] & ?)]; [by left|by right].
      - pose proof (Inv_steady st HI). destruct flush; [by eapply next_steady|by eapply next_full_steady]. }
    case_decide; [by wstep|]. do 2 wstep. apply IH. by apply (Inv_emit (mkSys _ _ (set_rlp b (session st)) _)).
  - destruct Hr as [?|(b' & f & [=] & _)]; done.
Qed.

Lemma wp_append flush st : Inv st → wp (append_pending_downlink_actions flush) (λ _, Inv) st.
Proof.
  intros HI. unfold append_pending_downlink_actions. do 5 wstep. eapply (wp_mono pan _ (λ _, Inv)).
  { apply (wp_each pan (λ _, True)); [by apply Forall_true|exact HI|]. intros ppp st1 _ H1. do 3 wstep.
    refine (Inv_rlp (mkSys (uuids st1) (magics st1) (set_ppp_activity_since_last_check true (session st1)) (actions st1)) _ H1 _ _).
    - destruct (Inv_bearer st1 H1) as [?|?]; [by left|right]. by apply enqueue_total.
    - by apply enqueue_steady, Inv_steady. }
  intros [] st1 H1. do 3 wstep. eapply wp_mono; [by apply wp_send_frames|]. intros [] st2 H2. do 2 wstep.
  destruct (_ && _); [|by wstep]. wstep. apply wp_lift. unfold id.
  pose proof (sch_total (sch_info_bits (session st2)) (sch_rate_bps (session st2)) (rlp (session st2))) as Hsch.
  destruct (next_sch_frame_bits _ _ _) as [[b sch]|] eqn:Es.
  - assert (Inv (mkSys (uuids st2) (magics st2) (set_rlp b (session st2)) (actions st2))) as H3.
    { apply Inv_rlp; [done| |by eapply sch_steady; [apply Inv_steady|]].
      destruct (Inv_bearer st2 H2) as [?|?]; [by left|right]. by destruct Hsch as (b' & f & [= <- _] & ?). }
    do 2 wstep. destruct sch as [[bits rate]|]; wstep; [|exact H3].
    by apply (Inv_emit (mkSys _ _ (set_rlp b (session st2)) _)).
  - destruct (Inv_bearer st2 H2) as [?|?]; [done|]. by destruct Hsch as (b' & f & [=] & ?).
Qed.

(** ** A period *)
Lemma wp_start_negotiation st : Inv st → wp start_negotiation (λ _, Inv) st.
Proof.
  intros HI. unfold start_negotiation. do 3 wstep. eapply (wp_mono pan _ (λ _, Inv)).
  { wstep; [|done]. apply andb_true_iff in H0 as [Hp%bool_decide_eq_true _]. unfold id in Hp.
    destruct (Lcp.start _) as [l req]. do 5 wstep. destruct HI as (HB & Hd & Hl & Hb & Hy). split_and!; [done|done| | |done].
    - cbn. rewrite Hp. done.
    - destruct Hb as [Hb _]. cbn. rewrite Hp in *. split; [by intros; apply Hb; left|]. intros _ Hm. destruct Hm. apply Hb. by left. }
  intros [] st1 H1. do 3 wstep; [|done]. apply andb_true_iff in H0 as [Hp%bool_decide_eq_true _]. unfold id in Hp.
  destruct (Ipcp.start _) as [i req] eqn:Ei. do 5 wstep.
  destruct H1 as ((Hq & Ht & Hs) & Hd & Hl & Hb & Hy). split_and!; [|done..]. split_and!; [done|done|]. cbn.
  unfold Ipcp.start in Ei. unfold id in Ei. pose proof (ipcp_config_send (Ipcp.our_request_data (ipcp (session st1))) (ipcp (session st1))) as E.
  rewrite Ei in E. cbn [fst] in E. rewrite E. done.
Qed.

(** While LCP negotiates there is no binding, and the LCP session may change freely. *)
Lemma Inv_lcp st l : Inv st → phase (session st) = Lcp → 
  Inv (mkSys (uuids st) (magics st) (set_lcp l (session st)) (actions st)).
Proof.
  intros (HB & Hd & Hl & Hb & Hy) Hp. split_and!; [done|done| | |done]; cbn; rewrite Hp in *; [done|].
  destruct Hb as [Hb _]. split; [by intros; apply Hb; left|]. intros _ Hm. destruct Hm. apply Hb. by left.
Qed.
Lemma Inv_ipcp st i : Inv st → Ipcp.config i = Ipcp.config (ipcp (session st)) →
  Inv (mkSys (uuids st) (magics st) (set_ipcp i (session st)) (actions st)).
Proof. intros ((Hq & Ht & Hs) & Hd & Hl & Hb & Hy) E. split_and!; [|done..]. split_and!; [done|done|]. cbn. by rewrite E. Qed.

Lemma wp_retransmit_lcp st : Inv st → wp retransmit_lcp (λ _, Inv) st.
Proof.
  intros HI. unfold retransmit_lcp. do 3 wstep; [|done]. apply bool_decide_eq_true in H0. unfold id in *.
  destruct (Lcp.maybe_retransmit_configure_request _) as [l req]. do 2 wstep.
  pose proof (Inv_lcp st l HI H0) as H1. destruct req; wstep; exact H1.
Qed.
Lemma wp_retransmit_ipcp st : Inv st → wp retransmit_ipcp (λ _, Inv) st.
Proof.
  intros HI. unfold retransmit_ipcp. do 3 wstep; [|done]. unfold id in *.
  pose proof (ipcp_config_retransmit (ipcp (session st))) as E.
  destruct (Ipcp.maybe_retransmit_configure_request _) as [i req]. do 2 wstep.
  pose proof (Inv_ipcp st i HI E) as H1. destruct req; wstep; exact H1.
Qed.
Lemma wp_one_sided st : Inv st → wp maybe_open_lcp_after_one_sided_ack (λ _, Inv) st.
Proof.
  intros HI. unfold maybe_open_lcp_after_one_sided_ack. do 2 wstep. unfold id. destruct (_ || _ || _) eqn:E; [by wstep|].
  apply orb_false_iff in E as [[_ Hp%negb_false_iff%bool_decide_eq_true]%orb_false_iff _].
  destruct (_ || _); [by wstep|]. do 3 wstep. destruct HI as (HB & _ & _ & _ & Hy).
  split_and!; [|by intros [?|?]|by intros _|by apply bound_up; [left|]|by eapply waits_up; [exact Hy|rewrite Hp|]].
  by apply (Base_phase (mkSys (uuids st) (magics st) (set_lcp (Lcp.force_open (lcp (session st))) (session st)) (actions st)) _ Ipcp).
Qed.
Lemma wp_report st (b : bool) act : Inv st → (∀ a, delivers a act) → wp (when b (emit act)) (λ _, Inv) st.
Proof. intros HI Ha. wstep; [|done]. wstep. by apply Inv_emit. Qed.

Lemma wp_count_sync st : Inv st → wp count_sync_tick (λ _, Inv) st.
Proof. intros HI. unfold count_sync_tick. do 2 wstep. destruct (phase_is _ _); do 3 wstep; exact HI. Qed.

Lemma wp_tick uplink st : Inv st → uplink_ok uplink → wp (tick seed md5 draw uplink) (λ _, Inv) st.
Proof.
  intros HI Hu. unfold tick. wstep. eapply wp_mono; [by apply wp_process_uplink|]. intros [] st1 H1. wstep.
  eapply wp_mono; [by apply wp_count_sync|]. intros timed_out st2 H2.
  destruct timed_out; [wstep; by apply Inv_emit|]. do 3 wstep. eapply (wp_mono pan _ (λ _, Inv)).
  { wstep; [|done]. destruct (async_partial st2) as [Hp HN]; [apply H2|done|].
    eapply wp_mono; [by apply wp_tick_async|]. intros [] st3 M3. by apply (modems_inv st2). }
  intros [] st3 H3. wstep. eapply wp_mono; [by apply wp_start_negotiation|]. intros [] st4 H4. wstep.
  eapply wp_mono; [by apply wp_retransmit_lcp|]. intros [] st5 H5. wstep.
  eapply wp_mono; [by apply wp_one_sided|]. intros [] st6 H6. wstep.
  unfold report_lcp_failure. do 2 wstep. eapply wp_mono; [by apply wp_report|]. intros [] st7 H7. wstep.
  eapply wp_mono; [by apply wp_retransmit_ipcp|]. intros [] st8 H8. wstep.
  unfold report_ipcp_failure. do 2 wstep. eapply wp_mono; [by apply wp_report|]. intros [] st9 H9.
  by apply wp_append.
Qed.

(** ** Every life of a session *)
Lemma wp_send_ip p st : Inv st → pan ∨ bytes p → wp (send_ip_packet p) (λ _, Inv) st.
Proof.
  intros HI Hp. unfold send_ip_packet. do 3 wstep. unfold id.
  eapply (wp_mono pan _ (λ h st1, Inv st1 ∧ (h = false → phase (session st1) = phase (session st)))).
  { destruct (_ && _) eqn:E; [|by wstep]. apply andb_true_iff in E as [_ Ea].
    destruct (async_partial st) as [Hpan HN]; [apply HI|done|]. eapply wp_mono; [by apply wp_route_async|].
    intros h st1 M1. split; [by apply (modems_inv st)|]. intros _. apply M1. }
  intros handled st1 [H1 E1]. destruct handled; [by wstep|]. specialize (E1 eq_refl).
  destruct (phase (session st)) eqn:Ep; try (eapply wp_mono; [apply wp_queue_pending; [done|done|by rewrite E1..]|]; by intros [] ? [? _]);
    [|by wstep].
  pose proof H1 as (HB & Hd & Hl & Hb & Hy). eapply wp_mono; [apply wp_enqueue|].
  - destruct Hp as [?|Hp]; [by left|]. destruct HB as (_ & [?|(_ & T1 & _)] & _); [by left|by right].
  - intros [] st2 (S & E2 & E3). pose proof S as (S0 & _ & S2 & S3 & _ & S5 & _ & _ & S8 & _).
    unfold Inv. rewrite S0, S2, S3, S5, S8, E2. split; [|done].
    eapply (Base_sends st1); [done..|apply HB|]. destruct (Base_pending st1 HB) as [?|[_ ?]]; [by left|by right].
Qed.

Lemma wp_echo st : Inv st → wp maybe_send_echo (λ _, Inv) st.
Proof.
  intros HI. unfold maybe_send_echo. do 2 wstep.
  assert (Lcp.is_open (Lcp.maybe_send_echo (lcp (session st))).1 = Lcp.is_open (lcp (session st))) as Eo.
  { unfold Lcp.maybe_send_echo. destruct (negb _); [done|]. destruct (Lcp.echo_pending_id _); [|done]. cbv zeta. by destruct (_ <=? _). }
  destruct (Lcp.maybe_send_echo _) as [l ppp]. cbn [fst] in Eo. do 2 wstep.
  match goal with |- EngineLogic.wp _ _ _ ?st1 => assert (Inv st1) as H1 end.
  { destruct HI as (HB & Hd & Hl & Hb & Hy). unfold link_open, bound_open in *. split; [done|]. cbn. unfold link_open, bound_open. by rewrite Eo. }
  destruct ppp; [|by wstep]. do 5 wstep.
  refine (Inv_rlp (mkSys (uuids st) (magics st) (set_ppp_activity_since_last_check true (set_lcp l (session st))) (actions st)) _ H1 _ _).
  - destruct (Inv_bearer _ H1) as [?|?]; [by left|right]. by apply enqueue_total.
  - by apply enqueue_steady, (Inv_steady _ H1).
Qed.
End Invariant.
