(* ===== verification/EngineProofs.v ===== *)
(** * The packet session as a whole

    The owner of a session ([session_task.rs], [hrpd_session_task.rs]) drives it with
    the operations of [Event], in any order; it drops a session once it has closed it.
    [life] is a session from its constructor on; the theorems are about every life. *)
From S2P Require Import Prelude Framing IpcpConfig Vj VjLink ControlPacket Lcp LcpProofs Ipcp IpcpProofs Text.
From S2P Require Import ModemEndpoint AsyncNas MobileIp MobileIpProofs EngineParts Rlp RlpSession RlpBackend.
From S2P Require Import Rlp3SessionProofs Rlp3Backend BackendProofs Engine EngineLogic EngineInv.
Import Engine.

(** ** The operations of the owner *)
Inductive Event :=
| Tick (uplink : option (list Z * Z))
| IngestA10 (octets : list Z)
| SendIp (packet : list Z)
| EmitFull
| SendEcho
| Reassign (a : Ipv4Addr)
| SetSch (active : bool)
| SetSchRate (active : bool) (rate_bps : Z)
| EnableSchData
| TakeActivity
| TakeTerminate.

Section Life.
Context {B : Type} `{RlpBackend B} (seed : Z) (md5 : list Z → list Z) (draw : nat → list Z).

Definition step (e : Event) : M B unit :=
  match e with
  | Tick uplink => tick seed md5 draw uplink
  | IngestA10 octets => ingest_a10_byte_stream seed md5 draw octets
  | SendIp packet => send_ip_packet packet
  | EmitFull => emit_full_pending_downlink
  | SendEcho => maybe_send_echo;; mret tt
  | Reassign a => reassign_peer_ip a
  | SetSch active => set_sch_active_flag active
  | SetSchRate active rate => set_sch_active_with_rate active rate
  | EnableSchData => enable_sch_data_path
  | TakeActivity => take_ppp_activity;; mret tt
  | TakeTerminate => take_peer_requested_lcp_terminate;; mret tt
  end.

(** The state after [events] from what a constructor returns; [None] is a panic. *)
Definition life (created : option (nat * Z * PacketSession B)) (events : list Event) : option (Sys B) :=
  '(u, q, s) ← created;
  '(st, _) ← each step events (mkSys u q s []);
  Some st.
End Life.

(** ** The invariant over a life *)
Section Lives.
Context {B : Type} {H : RlpBackend B} {keeps : SteadyBackend B} {bearer : TotalBackend B}.
Context (pan : Prop) (peer : option Ipv4Addr) (old : list SessionAction) (seed : Z) (md5 : list Z → list Z) (draw : nat → list Z).
Context (Hdraw : pan ∨ fresh_draws draw).
Abbreviation Inv := (Inv pan peer old).

(** What an event may carry. *)
Definition event_ok (e : Event) : Prop :=
  match e with
  | Tick uplink => uplink_ok pan uplink
  | IngestA10 octets => pan ∨ frame_ok octets 0
  | SendIp packet => pan ∨ bytes packet
  | Reassign _ => peer = None
  | _ => True
  end.

(** What the invariant does not look at. *)
Definition unseen (f : PacketSession B → PacketSession B) : Prop :=
  ∀ st, Inv st → Inv (mkSys (uuids st) (magics st) (f (session st)) (actions st)).
Lemma wp_unseen f st : unseen f → Inv st → wp pan (modify f) (λ _, Inv) st.
Proof. intros Hf HI. by apply wp_modify, Hf. Qed.

Lemma wp_reassign a st : peer = None → Inv st → wp pan (reassign_peer_ip a) (λ _, Inv) st.
Proof. intros HN ((Hq & Ht & _) & HI). apply wp_modify. split; [|done]. split_and!; [done|done|]. intros b Hb. by rewrite HN in Hb. Qed.
Lemma wp_sch active st : Inv st → wp pan (set_sch_active_flag active) (λ _, Inv) st.
Proof. intros HI. apply wp_bind, wp_modify. by destruct active. Qed.

Lemma wp_step e st : event_ok e → Inv st → wp pan (step seed md5 draw e) (λ _, Inv) st.
Proof.
  intros He HI. destruct e; cbn [step event_ok] in *.
  - by apply wp_tick.
  - apply wp_process_uplink; [done..|]. destruct He; [by left|by right; left].
  - by apply wp_send_ip.
  - by apply wp_append.
  - apply wp_bind. eapply wp_mono; [by apply wp_echo|]. done.
  - by apply wp_reassign.
  - by apply wp_sch.
  - unfold set_sch_active_with_rate. apply wp_bind. destruct (fsch_info_bits _); [apply wp_modify|apply wp_ret]; by apply wp_sch.
  - by apply wp_modify.
  - do 2 apply wp_bind. by apply wp_get, wp_bind, wp_modify.
  - do 2 apply wp_bind. by apply wp_get, wp_bind, wp_modify.
Qed.

Lemma wp_life events st : Forall event_ok events → Inv st → wp pan (each (step seed md5 draw) events) (λ _, Inv) st.
Proof. intros He HI. apply (wp_each pan event_ok); [done|done|]. intros e st1. apply wp_step. Qed.

(** What the state to resume from has to satisfy. *)
Definition resume_ok (resume : option PppSessionState) : Prop :=
  (pan ∨ ∀ st, resume = Some st → vj_ok (state_vj st) ∧ window_ok (state_mobile_ip st)) ∧
  (peer ≠ None → simple_resume resume).

Lemma new_session_inv b one_sided async c resume u q u' q' s : old = [] → steady b → ¬ awaiting b →
  pan ∨ (bearer_ok b ∧ async = false) → resume_ok resume → (∀ a, peer = Some a → async = false ∧ simple_config c ∧ assigned c resume = a) →
  new_session seed draw b one_sided async c resume u q = Some (u', q', s) → Inv (mkSys u' q' s []).
Proof.
  intros -> Hsb Hab Hb [Hr1 Hr2] Hs E. unfold new_session in E. apply bind_Some in E as ([u1 mip] & Em & E).
  apply bind_Some in E as ([magic q1] & _ & E). injection E as <- <- <-.
  assert ((pan ∨ window_ok mip) ∧ (resume = None → Mip.binding mip = None ∧ Mip.mip_config mip = IpcpConfig.mobile_ip c)) as [Hw Hm].
  { destruct resume as [r|].
    - injection Em as <- <-. split; [|done]. destruct Hr1 as [?|Hr]; [by left|right]. by apply (Hr r).
    - destruct (new_window_ok draw _ _ _ _ Em) as [HW HC]. split; [by right|]. intros _. split; [|done].
      unfold Mip.new, Mip.rotate_challenge in Em. apply bind_Some in Em as ([u2 x] & _ & Em). by injection Em as <- <-. }
  split; [split_and!|split; [by intros [?|?]|split; [done|split]]].
  - apply queue_ok_nil.
  - destruct Hb as [?|[Hb ->]]; [by left|]. destruct Hr1 as [?|Hr1]; [by left|]. destruct Hw as [?|Hw]; [by left|right].
    unfold total_ok. cbn. split_and!; try done; apply vj_ok_default || by apply Forall_nil_2.
  - intros a Ha. destruct (Hs a Ha) as (-> & Hc & Has). assert (simple_resume resume) as Hsr. { apply Hr2. by rewrite Ha. }
    split; [|exists []; split; [done|apply Forall_nil_2]]. unfold simple_ok. cbn. split_and!; try done.
    destruct resume as [r|]; [|destruct (Hm eq_refl) as [_ ->]; apply Hc]. injection Em as <- <-. by apply (Hsr r).
  - split; [|done]. intros [?|[_ ?]]; [done|]. by apply Hm.
  - by split_and!.
Qed.

Lemma restarts_inv n st : Inv st → Inv (mkSys (uuids st) (magics st) (set_ppp_max_configure_restarts n (session st)) (actions st)).
Proof. done. Qed.

(** The state a life leaves for the next bearer. *)
Lemma snapshot_resume_ok st : Inv st → resume_ok (snapshot_ppp_state (session st)).
Proof.
  intros ((Hq & Ht & Hs) & _). split.
  - destruct Ht as [?|(T0 & T1 & T2 & T3 & _)]; [by left|right]. intros r E. unfold snapshot_ppp_state in E.
    apply bind_Some in E as (l & _ & E). apply bind_Some in E as (i & _ & E). by injection E as <-.
  - intros Hp r E. unfold snapshot_ppp_state in E. apply bind_Some in E as (l & _ & E). apply bind_Some in E as (i & Ei & E).
    injection E as <-. destruct peer as [a|]; [|done]. destruct (Hs a eq_refl) as [(S1 & S2 & _) _]. split; [|done].
    unfold Ipcp.open_state in Ei. destruct (Ipcp.is_open _); [|done]. injection Ei as <-. apply S1.
Qed.
End Lives.

(** ** The theorems *)
Lemma life_wp {B} {H : RlpBackend B} (pan : Prop) seed md5 draw (created : option (nat * Z * PacketSession B)) events (Q : Sys B → Prop) st :
  (∀ u q s, created = Some (u, q, s) → wp pan (each (step seed md5 draw) events) (λ _, Q) (mkSys u q s [])) →
  life seed md5 draw created events = Some st → Q st.
Proof.
  intros Hw E. apply bind_Some in E as ([[u q] s] & -> & E). specialize (Hw u q s eq_refl). unfold wp in Hw.
  apply bind_Some in E as ([st' []] & E1 & E). rewrite E1 in Hw. by injection E as <-.
Qed.

Lemma event_ok_partial {B} {H : RlpBackend B} {bearer : TotalBackend B} peer e :
  (∀ a, e = Reassign a → peer = None) → event_ok (B := B) True peer e.
Proof. intros Ha. destruct e as [[[]|]| | | | | | | | | |]; cbn; try done; try by left. by eapply Ha. Qed.

(** What is so of a session between any two operations. *)
Definition session_ok {B} {H : RlpBackend B} (st : Sys B) : Prop :=
  let s := session st in
  pending_downlink_ip_octets s = sum_list_with length (pending_downlink_ip s) ∧
  (length (pending_downlink_ip s) ≤ PENDING_DOWNLINK_IP_MAX_PACKETS)%nat ∧
  (pending_downlink_ip_octets s ≤ PENDING_DOWNLINK_IP_MAX_OCTETS)%nat ∧
  (phase s = Active → pending_downlink_ip s = []) ∧
  (phase s = Ipcp ∨ phase s = Mip4Pending ∨ phase s = Active → Lcp.is_open (lcp s) = true).

Section Partial.
Context {B : Type} {H : RlpBackend B} {keeps : SteadyBackend B} (seed : Z) (md5 : list Z → list Z) (draw : nat → list Z).
#[local] Existing Instance no_promise.

Lemma life_inv created events st :
  (∀ u q s, created = Some (u, q, s) → Inv True None [] (mkSys u q s [])) →
  life seed md5 draw created events = Some st → Inv True None [] st.
Proof.
  intros Hc E. eapply life_wp; [|exact E]. intros u q s E1. apply wp_life; [by left| |by apply Hc].
  apply Forall_true. intros e. by apply event_ok_partial.
Qed.
Lemma created_inv (b : B) one_sided async c resume u q u' q' s : steady b → ¬ awaiting b →
  new_session seed draw b one_sided async c resume u q = Some (u', q', s) → Inv True None [] (mkSys u' q' s []).
Proof. intros Hs Ha E. eapply new_session_inv; [done|done|done|by left|split; [by left|done]|done|exact E]. Qed.
Lemma inv_session_ok st : Inv True None [] st → session_ok st.
Proof.
  intros (((Hq1 & Hq2 & Hq3) & _) & Hd & Hl & _). unfold session_ok. cbv zeta. split_and!; try done.
  - intros Ha. apply Hd. by left.
  - intros Hp. apply Hl. by destruct Hp as [->|[->| ->]].
Qed.

(** The walk starts again from here. *)
Lemma Inv_rebase peer old (st : Sys B) : Inv True peer old st → Inv True peer (actions st) st.
Proof.
  intros ((Hq & Ht & Hs) & HI). split; [|done]. split_and!; [done|done|]. intros a Ha. destruct (Hs a Ha) as [Hs1 _].
  split; [done|]. exists []. by rewrite app_nil_r.
Qed.
Definition Simple (st : Sys B) : Prop := ∃ a, Inv True (Some a) (actions st) st.
Lemma simple_step e st : Simple st →
  wp True (step seed md5 draw e) (λ _ st', Simple st' ∧ ∃ new, actions st' = actions st ++ new ∧
    Forall (delivers (assigned (Ipcp.config (ipcp (session st'))) (pending_ppp_resume (session st')))) new) st.
Proof.
  intros [a HI]. assert ((∀ x, e ≠ Reassign x) ∨ ∃ x, e = Reassign x) as [He|[x ->]].
  { destruct e; first [by left|by right; eexists]. }
  - eapply wp_mono; [apply (wp_step True (Some a) (actions st)); [by left| |exact HI]|].
    + apply event_ok_partial. intros x Hx. by destruct (He x).
    + intros u st' HI'. cbv beta in HI'. split; [exists a; by eapply Inv_rebase|]. pose proof HI' as ((_ & _ & Hs) & _).
      destruct (Hs a eq_refl) as [((-> & _) & _) Hn]. exact Hn.
  - cbn [step]. apply wp_modify. destruct HI as ((Hq & Ht & Hs) & HI). destruct (Hs a eq_refl) as [((_ & S1) & S2 & S3 & S4 & S5) _].
    split; [|exists []; cbn; by rewrite app_nil_r].
    eexists. split; [|exact HI]. split_and!; [done|by left|]. intros ? [= <-].
    split; [|exists []; cbn; by rewrite app_nil_r]. unfold simple_ok. by split_and!.
Qed.
End Partial.

Lemma rc3_inv seed md5 draw c resume u q events st :
  life seed md5 draw (new_with_ppp_resume_rc3 seed draw c resume u q) events = Some st → Inv (bearer := no_promise _) True None [] st.
Proof.
  intros E. eapply life_inv; [|exact E]. intros u' q' s Ec. eapply created_inv; [apply steady3_new|by intros []|exact Ec].
Qed.

(** C17: in every life of a session (whichever constructor of the code made it: over the A8/A10 byte
    stream, the HRPD default packet application, RLP type 3 for service option 33 or RLP type 1 for
    every other option, the async data calls among them; resumed or not; whatever comes up and down)
    the count of queued octets is the sum over the queued packets, at most 256 packets and 256 KiB
    wait, nothing waits once the session is active, and IP traffic or its negotiation happens only on
    an open link. *)
Theorem session_invariant seed md5 draw c resume u q events service_option :
  (∀ st, life seed md5 draw (new_a10_unstructured_byte_stream seed draw c resume u q) events = Some st → session_ok st) ∧
  (∀ st, life seed md5 draw (new_hrpd_default_packet seed draw c resume u q) events = Some st → session_ok st) ∧
  (∀ st, life seed md5 draw (new_with_ppp_resume_rc3 seed draw c resume u q) events = Some st → session_ok st) ∧
  (∀ st, life seed md5 draw (new_with_ppp_resume service_option seed draw c resume u q) events = Some st → session_ok st).
Proof.
  split_and!; intros st E; [| |by eapply inv_session_ok, rc3_inv|]; (eapply inv_session_ok, life_inv; [|exact E]); intros u' q' s Ec.
  - apply bind_Some in Ec as ([[u1 q1] s1] & Ec & [= <- <- <-]).
    apply (restarts_inv True None [] _ (mkSys u1 q1 s1 [])). eapply created_inv; [exact I|by intros []|exact Ec].
  - eapply created_inv; [exact I|by intros []|exact Ec].
  - eapply created_inv; [exact I|by intros []|exact Ec].
Qed.

(** C21: a session without Mobile IP that is not an async data call (any bearer, fresh or resumed, whatever
    the owner reassigns) hands to the network only packets of its mobile: every packet that an operation
    delivers is IPv4, and its source is the address assigned to the mobile, the peer address of the IPCP
    configuration (of the one to be resumed while the bearer is not up). *)
Theorem simple_ip_source {B} {H : RlpBackend B} {keeps : SteadyBackend B} seed md5 draw (b : B) one_sided c resume u q events e st st' :
  steady b → ¬ awaiting b → simple_config c → simple_resume resume →
  life seed md5 draw (new_session seed draw b one_sided false c resume u q) events = Some st →
  step seed md5 draw e st = Some (st', tt) →
  ∃ new, actions st' = actions st ++ new ∧
    ∀ p, DeliverIpPacket p ∈ new →
      parse_uplink_ipv4 p = Some (assigned (Ipcp.config (ipcp (session st'))) (pending_ppp_resume (session st'))).
Proof.
  intros Hs Ha Hc Hr E Ee. assert (Simple st) as HS.
  { eapply life_wp; [|exact E]. intros u' q' s E1. apply (wp_each True (λ _, True)); [by apply Forall_true| |].
    - exists (assigned c resume). eapply new_session_inv; [done|done|done|by left|split; [by left|done]| |exact E1]. by intros a [= <-].
    - intros e1 st1 _ H1. eapply wp_mono; [by apply simple_step|]. by intros _ st2 [? _]. }
  pose proof (simple_step seed md5 draw e st HS) as Hw. unfold wp in Hw. rewrite Ee in Hw. destruct Hw as (_ & new & E1 & Hn).
  exists new. split; [done|]. intros p Hp. rewrite Forall_forall in Hn. exact (Hn _ Hp).
Qed.

(** Events that carry octets. *)
Definition octets_only (e : Event) : Prop :=
  match e with
  | Tick (Some (bits, _)) => bytes bits
  | IngestA10 octets | SendIp octets => bytes octets
  | _ => True
  end.
(** What the three constructors share. *)
Lemma life_total {B} {H : RlpBackend B} {keeps : SteadyBackend B} {bearer : TotalBackend B} seed md5 draw (created : option (nat * Z * PacketSession B)) events :
  fresh_draws draw → (∀ octets rate, bytes octets → frame_ok octets rate) → Forall octets_only events →
  (∃ u q s, created = Some (u, q, s) ∧ Inv False None [] (mkSys u q s [])) →
  ∃ st, life seed md5 draw created events = Some st ∧ resume_ok False None (snapshot_ppp_state (session st)).
Proof.
  intros Hf Hok He (u & q & s & -> & HI). unfold life. rewrite bind_some.
  assert (wp False (each (step seed md5 draw) events) (λ _, Inv False None []) (mkSys u q s [])) as Hw.
  { apply wp_life; [by right| |done]. eapply Forall_impl; [exact He|]. intros e Hb.
    destruct e as [[[]|]|octets|packet| | | | | | | |]; cbn in *; try done; right; [left|by right|..]; auto. }
  unfold wp in Hw. destruct (each _ _ _) as [[st []]|]; [|done]. rewrite bind_some. eexists. split; [done|].
  by eapply snapshot_resume_ok.
Qed.
Lemma new_session_total {B} {H : RlpBackend B} {keeps : SteadyBackend B} {bearer : TotalBackend B} seed draw (b : B) one_sided c resume u q :
  fresh_draws draw → is_u32 q → bearer_ok b → steady b → ¬ awaiting b → resume_ok False None resume →
  ∃ u' q' s, new_session seed draw b one_sided false c resume u q = Some (u', q', s) ∧ Inv False None [] (mkSys u' q' s []).
Proof.
  intros Hf Hq Hb Hsb Hab Hr. destruct (new_session seed draw b one_sided false c resume u q) as [[[u' q'] s]|] eqn:E.
  { exists u', q', s. split; [done|]. eapply new_session_inv; [done|done|done|by right|done|done|exact E]. }
  exfalso. unfold new_session in E. destruct (LcpProofs.session_magic_total seed q Hq) as (m & q' & Em & _).
  destruct resume as [r|].
  - rewrite bind_some, Em, bind_some in E. done.
  - destruct (mip_new_total draw (IpcpConfig.mobile_ip c) u Hf) as [[u1 mip] En]. rewrite En, bind_some, Em, bind_some in E. done.
Qed.

(** C16: no packet data session panics: over the A8/A10 byte stream, the HRPD default packet
    application and RLP type 1, whatever octets arrive and are sent in whatever order, every
    operation returns, and the PPP state kept at the end is fit to resume another session. *)
Theorem session_never_panics seed md5 draw c resume u q events service_option :
  fresh_draws draw → is_u32 q → Forall octets_only events → resume_ok False None resume →
  service_option ≠ SERVICE_OPTION_ASYNC_DATA → service_option ≠ SERVICE_OPTION_PACKET_DATA_RC3 →
  (∃ st, life seed md5 draw (new_a10_unstructured_byte_stream seed draw c resume u q) events = Some st ∧
     resume_ok False None (snapshot_ppp_state (session st))) ∧
  (∃ st, life seed md5 draw (new_hrpd_default_packet seed draw c resume u q) events = Some st ∧
     resume_ok False None (snapshot_ppp_state (session st))) ∧
  (∃ st, life seed md5 draw (new_with_ppp_resume service_option seed draw c resume u q) events = Some st ∧
     resume_ok False None (snapshot_ppp_state (session st))).
Proof.
  intros Hf Hq He Hr Hso _. split_and!; apply life_total; try done.
  - unfold new_a10_unstructured_byte_stream.
    destruct (new_session_total seed draw A10.new true c resume u q) as (u' & q' & s & -> & HI); [done..|by intros []|done|]. rewrite bind_some.
    eexists _, _, _. split; [done|]. by apply (restarts_inv False None [] _ (mkSys u' q' s [])).
  - by apply new_session_total; [..|intros []|].
  - unfold new_with_ppp_resume. destruct (Z.eqb_spec service_option SERVICE_OPTION_ASYNC_DATA); [done|]. apply new_session_total; try done; [|by intros []].
    split; split_and!; cbn; done || apply Forall_nil_2 || (unfold is_u; lia).
Qed.

(** ** A sample life *)

(** The other end of the A10 byte stream: the PPP peer of [AsyncNas] with the addresses swapped. *)
Definition handset_config : IpcpConfig :=
  mkIpcpConfig (mkIp 10 0 0 2) (mkIp 10 0 0 1) (mkIp 10 55 0 1) (mkIp 10 55 0 1) false false MobileIpConfig_default.
Definition frames_of (l : list SessionAction) : list Z :=
  mjoin ((λ a, match a with SendFrame bits _ => bits | _ => [] end) <$> l).
(** One exchange: the session ticks on what the handset has sent, the handset answers. *)
Definition exchange (acc : option (Sys A10.UnstructuredByteStreamBackend * Nas.AsyncNas * list Z * list Event)) :=
  '(st, n, up, events) ← acc;
  let e := Tick (Some (up, 0)) in
  '(st, _) ← step 7 sum_hash count_draw e (mkSys (uuids st) (magics st) (session st) []);
  let '(n, out) := Nas.feed (frames_of (actions st)) n in
  Some (st, n, Nas.to_mobile out, events ++ [e]).
Definition sample_created := new_session 7 count_draw A10.new true false IpcpConfig_default None 0 0.
Definition sample_ip (src : Ipv4Addr) : list Z :=
  [0x45; 0; 0; 20; 0; 1; 0; 0; 64; 17; 0; 0] ++ octets src ++ [192; 0; 2; 1].
(** The negotiation, a packet of the mobile, and one with a source address it was not given. *)
Definition sample_events : list Event :=
  let opened := '(u, q, s) ← sample_created;
    let '(n, up) := Nas.start (Nas.new 99 handset_config) in
    '(st, _) ← step 7 sum_hash count_draw (SendIp [1; 2; 3]) (mkSys u q s []);
    Nat.iter 4 exchange (Some (st, n, up, [SendIp [1; 2; 3]])) in
  let uplink p := IngestA10 (frame (mkPppPacket PPP_IP_PROTOCOL p)) in
  default [] ((λ x, x.2) <$> opened) ++ [uplink (sample_ip (mkIp 10 0 0 2)); uplink (sample_ip (mkIp 10 9 9 9))].
Definition sample_outcome :=
  st ← life 7 sum_hash count_draw sample_created sample_events;
  Some (phase (session st), Lcp.is_open (lcp (session st)), pending_downlink_ip (session st),
        omap (λ a, match a with DeliverIpPacket p => Some p | _ => None end) (actions st)).
Example sample_runs :
  sample_outcome = Some (Active, true, [], [sample_ip (mkIp 10 0 0 2)]).
Proof. vm_compute. reflexivity. Qed.

(** ** Resumption *)
Section Resume.
Context {B : Type} {H : RlpBackend B} (seed : Z) (md5 : list Z → list Z) (draw : nat → list Z).

(** A bearer that is up and idle. *)
Definition idle_bearer (b : B) : Prop :=
  receive_frame_bits [] 0 b = Some (b, None) ∧ is_data_transfer b = true ∧ next_frame_bits true b = Some (b, ([], 0)).
Definition resumed (r : PppSessionState) (st : Sys B) : Prop :=
  let s := session st in
  phase s = Active ∧ snapshot_ppp_state s = Some r ∧ Lcp.echo_magic (lcp s) = 0 ∧ actions st = [].

Lemma phase_is_ne p (s : PacketSession B) : phase s ≠ p → phase_is p s = false.
Proof. apply bool_decide_eq_false_2. Qed.
Lemma phase_is_eq p (s : PacketSession B) : phase s = p → phase_is p s = true.
Proof. apply bool_decide_eq_true_2. Qed.

(** Negotiation is for the phases [Lcp] and [Ipcp]. *)
Lemma wp_quiet pan (k : M B unit) Q st : phase (session st) ≠ Lcp → phase (session st) ≠ Ipcp → wp pan k Q st →
  wp pan (start_negotiation;; retransmit_lcp;; maybe_open_lcp_after_one_sided_ack;; report_lcp_failure;; retransmit_ipcp;;
    report_ipcp_failure;; k) Q st.
Proof.
  intros HL HI Hk. assert (∀ p, p = Lcp ∨ p = Ipcp → phase_is p (session st) = false) as Hn.
  { intros p Hp. apply phase_is_ne. by destruct Hp as [->| ->]. }
  unfold start_negotiation, retransmit_lcp, maybe_open_lcp_after_one_sided_ack, report_lcp_failure, retransmit_ipcp, report_ipcp_failure.
  repeat first [rewrite Hn by (by left) || (by right); cbn [andb negb]; rewrite ?orb_true_r; cbn [orb when]|wstep; unfold id]. exact Hk.
Qed.

Lemma wp_idle_append (r : PppSessionState) st : resumed r st → idle_bearer (rlp (session st)) → ppp_tx_queue (session st) = [] →
  sch_active (session st) = false → wp False (append_pending_downlink_actions true) (λ _, resumed r) st.
Proof.
  intros Hr (_ & _ & En) Eq Es. unfold append_pending_downlink_actions. do 5 wstep. unfold id. rewrite Eq. cbn [each]. do 4 wstep.
  unfold id. cbn [set_ppp_tx_queue sch_active phase sch_data_ready rlp]. rewrite Es. cbn [negb andb].
  destruct (Nat.max _ 1) as [|n] eqn:En1; [lia|]. cbn [send_frames]. do 3 wstep. apply wp_lift. cbn [set_ppp_tx_queue rlp]. rewrite En.
  do 2 wstep. rewrite decide_True by done. do 3 wstep. unfold id. cbn [set_ppp_tx_queue set_rlp sch_active]. rewrite Es. cbn [andb]. wstep.
  exact Hr.
Qed.

Lemma wp_resume_tick (r : PppSessionState) u q (s : PacketSession B) :
  idle_bearer (rlp s) → phase s = RlpSync → pending_ppp_resume s = Some r → pending_downlink_ip s = [] → ppp_tx_queue s = [] →
  is_async_data s = false → sch_active s = false → Lcp.magic_negotiated (lcp s) = false →
  wp False (tick seed md5 draw None) (λ _, resumed r) (mkSys u q s []).
Proof.
  intros Hi Ep Er Eq Et Ea Es Em. unfold tick, process_uplink. cbn [default]. do 4 wstep. apply wp_lift.
  destruct Hi as (E1 & E2 & E3). rewrite E1. do 5 wstep.
  unfold id. wstep; [|unfold phase_is in *; cbn in *; by rewrite Ep, E2 in *].
  unfold link_established. do 2 wstep. cbn [set_rlp pending_ppp_resume]. rewrite Er. do 19 wstep.
  unfold flush_pending_downlink_ip. do 2 wstep. change (pending_downlink_ip _) with (pending_downlink_ip s).
  rewrite Eq. cbn [flush_loop]. do 4 wstep. unfold count_sync_tick. do 2 wstep. unfold id.
  rewrite phase_is_ne by done. do 5 wstep. unfold id. change (is_async_data _) with (is_async_data s). rewrite Ea. cbn [when]. wstep.
  apply wp_quiet; [done..|]. apply wp_idle_append; try done.
  unfold resumed. split_and!; [done| |unfold Lcp.echo_magic; cbn; by rewrite Em|done]. by destruct r as [[] [] mip v].
Qed.
End Resume.

Lemma wp_life_tick {B} {H : RlpBackend B} seed md5 draw u q (s : PacketSession B) uplink (Q : Sys B → Prop) :
  wp False (tick seed md5 draw uplink) (λ _, Q) (mkSys u q s []) →
  ∃ st, life seed md5 draw (Some (u, q, s)) [Tick uplink] = Some st ∧ Q st.
Proof.
  unfold wp, life. intros Hw. rewrite bind_some. cbn [each step]. unfold mbind at 2, M_bind.
  destruct (tick seed md5 draw uplink _) as [[st []]|]; [|done]. exists st. by split.
Qed.

(** What [new_session] makes for a cached PPP state. *)
Lemma new_session_resumes {B} {H : RlpBackend B} seed md5 draw (b : B) one_sided c r u q u' q' s n :
  idle_bearer b → new_session seed draw b one_sided false c (Some r) u q = Some (u', q', s) →
  (∃ st, life seed md5 draw (Some (u', q', s)) [Tick None] = Some st ∧ resumed r st) ∧
  (∃ st, life seed md5 draw (Some (u', q', set_ppp_max_configure_restarts n s)) [Tick None] = Some st ∧ resumed r st).
Proof.
  intros Hi E. unfold new_session in E. rewrite bind_some in E. apply bind_Some in E as ([magic q1] & _ & E). injection E as <- <- <-.
  split; apply wp_life_tick; by apply wp_resume_tick.
Qed.

(** A session created with the PPP state another session left ([snapshot_ppp_state]) is
    active after one period on the octet bearers, without a word to the mobile, and has that
    state: link options, addresses, Mobile IP binding and header compression.  The magic
    number is not part of it: echoes of a resumed session carry 0. *)
Theorem session_resumes seed md5 draw c r u q : is_u32 q →
  (∃ st, life seed md5 draw (new_a10_unstructured_byte_stream seed draw c (Some r) u q) [Tick None] = Some st ∧ resumed r st) ∧
  (∃ st, life seed md5 draw (new_hrpd_default_packet seed draw c (Some r) u q) [Tick None] = Some st ∧ resumed r st).
Proof.
  intros Hq. unfold new_a10_unstructured_byte_stream, new_hrpd_default_packet.
  assert (∀ B (H : RlpBackend B) (b : B) one_sided, ∃ u' q' s,
    new_session seed draw b one_sided false c (Some r) u q = Some (u', q', s)) as Hnew.
  { intros B H b one_sided. unfold new_session. rewrite bind_some.
    destruct (LcpProofs.session_magic_total seed q Hq) as (m & q' & -> & _). rewrite bind_some. by eexists _, _, _. }
  split.
  - destruct (Hnew _ _ A10.new true) as (u' & q' & s & E). rewrite E, bind_some.
    by eapply (new_session_resumes seed md5 draw A10.new true c r u q).
  - destruct (Hnew _ _ Hrpd.new false) as (u' & q' & s & E). rewrite E.
    by eapply (new_session_resumes seed md5 draw Hrpd.new false c r u q _ _ _ 0).
Qed.

(** ** The bearer that never synchronizes *)
Definition closes (l : list SessionAction) : list Text.chars :=
  omap (λ a, match a with CloseSession reason => Some reason | _ => None end) l.
Definition unsynced (b : Rlp1.Rlp1Backend) : Prop :=
  bearer_ok b ∧ (RlpSession.state (Rlp1.session b) = Uninitialized ∨ RlpSession.state (Rlp1.session b) = StSync).

Lemma unsynced_receive b : unsynced b → ∃ b', receive_frame_bits [] 0 b = Some (b', None) ∧ unsynced b'.
Proof.
  intros [Hb Hs]. destruct (receive_total [] 0 b Hb I) as (b' & d & E & Hb' & _). exists b'.
  assert (d = None ∧ RlpSession.state (Rlp1.session b') = StSync) as [-> Hs']; [|split; [done|]; split; [done|by right]].
  destruct b as [s mux]. cbn in *. unfold Rlp1.receive in E. cbn [Rlp1.mux_option Rlp1.session] in E.
  assert (rate_from_bps mux 0 = None) as Er by by destruct mux. rewrite Er, bind_some in E. unfold receive_frame in E. cbv zeta in E.
  injection E as <- <-. split; [done|]. cbn. destruct (_ <? _); [done|]. cbn. case_decide; [done|]. by destruct Hs.
Qed.
Lemma unsynced_next allow b : unsynced b → ∃ b' f, next_frame_bits allow b = Some (b', f) ∧ unsynced b'.
Proof.
  intros [Hb Hs]. destruct (next_total allow b Hb) as (b' & f & E & Hb'). exists b', f. split; [done|]. split; [done|]. right.
  destruct b as [s mux]. cbn in *. unfold Rlp1.next in E. cbn [Rlp1.mux_option Rlp1.session] in E. unfold next_frame_for_mux in E.
  assert (∃ s0, (if decide (RlpSession.state s = Uninitialized) then initialize s else s) = s0 ∧ RlpSession.state s0 = StSync) as (s0 & E0 & Hs0).
  { eexists. split; [done|]. case_decide; [done|]. by destruct Hs. }
  cbv zeta in E. rewrite E0, Hs0 in E. cbv iota beta in E. apply bind_Some in E as (bits & _ & E). by injection E as <- <-.
Qed.

(** After [n] silent periods. *)
Definition waiting (n : nat) (st : Sys Rlp1.Rlp1Backend) : Prop :=
  let s := session st in
  unsynced (rlp s) ∧ phase s = RlpSync ∧ async_modem s = None ∧ sch_active s = false ∧ ppp_tx_queue s = [] ∧
  rlp_sync_ticks s = Z.of_nat n ∧
  closes (actions st) = if decide (500 ≤ n)%nat then [sync_timeout_reason] else [].

Lemma wp_waiting_append n st : waiting n st → wp False (append_pending_downlink_actions true) (λ _, waiting n) st.
Proof.
  intros (Hb & Hp & Hm & Hs & Hq & Hn & Hc). unfold append_pending_downlink_actions. do 5 wstep. unfold id. rewrite Hq. cbn [each].
  do 4 wstep. change (Nat.max _ 1) with 1%nat. cbn [send_frames]. do 3 wstep. apply wp_lift.
  destruct (unsynced_next (negb (sch_active (set_ppp_tx_queue [] (session st)) && phase_is Active (set_ppp_tx_queue [] (session st)) &&
    sch_data_ready (set_ppp_tx_queue [] (session st)))) (rlp (session st)) Hb) as (b & [bits rate] & E & Hb').
  change (rlp (set_ppp_tx_queue [] (session st))) with (rlp (session st)). rewrite E. do 2 wstep.
  assert (∀ acts, closes acts = closes (actions st) →
    wp False (s ← get id; if sch_active s && phase_is Active s && sch_data_ready s then
      '(b, sch) ← lift (next_sch_frame_bits (sch_info_bits s) (sch_rate_bps s) (rlp s));
      modify (set_rlp b);;
      match sch with Some (bits, rate) => emit (SendSchFrame bits rate) | None => mret tt end
      else mret tt) (λ _, waiting n) (mkSys (uuids st) (magics st) (set_rlp b (set_ppp_tx_queue [] (session st))) acts)) as Hend.
  { intros acts Ha. do 2 wstep. unfold id. change (sch_active (set_rlp _ _)) with (sch_active (session st)). rewrite Hs. cbn [andb]. wstep.
    unfold waiting. cbn [session actions]. rewrite Ha. by split_and!. }
  destruct (decide (bits = [])).
  { wstep. by apply Hend. }
  do 3 wstep. apply Hend. unfold closes. rewrite omap_app. cbn. by rewrite app_nil_r.
Qed.

(** A session that still synchronizes does not negotiate. *)
Lemma wp_waiting_tick seed md5 draw n st : Z.of_nat n < 2 ^ 32 - 1 → waiting n st →
  wp False (tick seed md5 draw None) (λ _, waiting (S n)) st.
Proof.
  intros Hlt (Hb & Hp & Hm & Hs & Hq & Hn & Hc). unfold tick, process_uplink. cbn [default]. do 4 wstep. apply wp_lift.
  destruct (unsynced_receive _ Hb) as (b & E & Hb'). rewrite E. do 5 wstep. unfold id.
  assert (is_data_transfer b = false) as Hd. { apply bool_decide_eq_false. destruct Hb' as [_ [->| ->]]; done. }
  cbn [set_rlp rlp]. rewrite Hd, andb_false_r. cbn [when]. do 3 wstep. unfold count_sync_tick. do 2 wstep. unfold id.
  rewrite phase_is_eq by done. do 3 wstep. change (rlp_sync_ticks (set_rlp b (session st))) with (rlp_sync_ticks (session st)).
  rewrite Hn. unfold saturating_succ_u32. rewrite Z.min_l by lia. replace (Z.of_nat n + 1) with (Z.of_nat (S n)) by lia.
  destruct (Z.eqb_spec (Z.of_nat (S n)) RLP_SYNC_MAX_TICKS) as [E5|N5]; unfold RLP_SYNC_MAX_TICKS in *.
  - wstep. unfold waiting. cbn [session actions]. split_and!; try done. unfold closes. rewrite omap_app. fold (closes (actions st)).
    rewrite Hc, decide_False, decide_True by lia. done.
  - match goal with |- wp _ _ _ ?st1 => assert (waiting (S n) st1) as Hw end.
    { unfold waiting. cbn [session actions]. split_and!; try done. rewrite Hc. repeat case_decide; done || lia. }
    do 3 wstep. eapply (wp_mono False _ (λ _, waiting (S n))).
    { wstep; [|done]. unfold tick_async_modem. do 2 wstep. cbn [set_rlp_sync_ticks set_rlp async_modem]. rewrite Hm. by wstep. }
    intros [] st1 Hw1. pose proof Hw1 as (W1 & W2 & W3).
    apply wp_quiet; [by rewrite W2..|]. by apply wp_waiting_append.
Qed.

(** A session whose bearer stays silent is reported once, at the 500th period (10 s),
    and keeps waiting: before that it only sends SYNC frames, and no period panics. *)
Theorem sync_timeout_once service_option seed md5 draw c resume u q u' q' s n :
  service_option ≠ SERVICE_OPTION_PACKET_DATA_RC3 →
  new_with_ppp_resume service_option seed draw c resume u q = Some (u', q', s) → Z.of_nat n < 2 ^ 32 →
  ∃ st, life seed md5 draw (Some (u', q', s)) (replicate n (Tick None)) = Some st ∧ phase (session st) = RlpSync ∧
    rlp_sync_ticks (session st) = Z.of_nat n ∧
    closes (actions st) = if decide (500 ≤ n)%nat then [sync_timeout_reason] else [].
Proof.
  intros _ E Hn. assert (waiting 0 (mkSys u' q' s [])) as Hw.
  { unfold new_with_ppp_resume, new_session in E. apply bind_Some in E as ([u1 mip] & _ & E).
    apply bind_Some in E as ([magic q1] & _ & E). injection E as <- <- <-. unfold waiting. cbn. split_and!; try done.
    split; [|by left]. split; split_and!; cbn; done || apply Forall_nil_2 || (unfold is_u; lia). }
  unfold life. rewrite bind_some.
  assert (∀ m k st, waiting k st → Z.of_nat (k + m) < 2 ^ 32 →
    wp False (each (step seed md5 draw) (replicate m (Tick None))) (λ _, waiting (k + m)) st) as Hall.
  { induction m as [|m IH]; intros k st Hk Hlt; cbn [replicate each step]; [by wstep; rewrite Nat.add_0_r|]. wstep.
    eapply wp_mono; [apply (wp_waiting_tick _ _ _ k); [lia|done]|]. intros [] st1 H1. rewrite <- Nat.add_succ_comm. apply IH; [done|lia]. }
  specialize (Hall n 0%nat _ Hw Hn). unfold wp in Hall. destruct (each _ _ _) as [[st []]|]; [|done]. rewrite bind_some.
  exists st. destruct Hall as (_ & ? & _ & _ & _ & ? & ?). by split_and!.
Qed.

(** ** The theorems on the sample life *)
Lemma sample_lives : ∃ st, life 7 sum_hash count_draw sample_created sample_events = Some st ∧ phase (session st) = Active ∧
  DeliverIpPacket (sample_ip (mkIp 10 0 0 2)) ∈ actions st.
Proof.
  assert ((st ← life 7 sum_hash count_draw sample_created sample_events;
    Some (phase (session st), bool_decide (DeliverIpPacket (sample_ip (mkIp 10 0 0 2)) ∈ actions st))) = Some (Active, true)) as E
    by (vm_compute; reflexivity).
  apply bind_Some in E as (st & E & Hs). exists st. split; [done|]. injection Hs as Hp Hd. split; [done|].
  by apply (bool_decide_eq_true_1 _).
Qed.
(** A session of service option 33 that has a packet to send before its bearer is up. *)
Definition rc3_events : list Event := [SendIp [1; 2; 3]; Tick None; SendIp [4; 5]].
Lemma rc3_lives : ∃ st, life 7 sum_hash count_draw (new_with_ppp_resume_rc3 7 count_draw IpcpConfig_default None 0 0) rc3_events = Some st ∧
  pending_downlink_ip (session st) = [[1; 2; 3]; [4; 5]].
Proof.
  assert ((st ← life 7 sum_hash count_draw (new_with_ppp_resume_rc3 7 count_draw IpcpConfig_default None 0 0) rc3_events;
    Some (bool_decide (pending_downlink_ip (session st) = [[1; 2; 3]; [4; 5]]))) = Some true) as E by (vm_compute; reflexivity).
  apply bind_Some in E as (st & E & Hs). injection Hs as Hs. exists st. split; [exact E|exact (bool_decide_eq_true_1 _ Hs)].
Qed.
Lemma session_invariant_witness : ∃ st, life 7 sum_hash count_draw (new_with_ppp_resume_rc3 7 count_draw IpcpConfig_default None 0 0) rc3_events
    = Some st ∧ pending_downlink_ip (session st) = [[1; 2; 3]; [4; 5]] ∧ pending_downlink_ip_octets (session st) = 5%nat.
Proof.
  destruct rc3_lives as (st & E & Hq). exists st. split; [done|]. split; [done|].
  destruct (session_invariant 7 sum_hash count_draw IpcpConfig_default None 0 0 rc3_events 7) as (_ & _ & Hr & _).
  destruct (Hr st E) as (-> & _). by rewrite Hq.
Defined.

(** The sample life up to its two uplink packets, and the first of them. *)
Definition sample_opened : list Event := take (length sample_events - 2) sample_events.
Definition sample_uplink : Event := IngestA10 (frame (mkPppPacket PPP_IP_PROTOCOL (sample_ip (mkIp 10 0 0 2)))).
Lemma sample_delivers : ∃ st st', life 7 sum_hash count_draw sample_created sample_opened = Some st ∧
  step 7 sum_hash count_draw sample_uplink st = Some (st', tt) ∧
  actions st' = actions st ++ [DeliverIpPacket (sample_ip (mkIp 10 0 0 2))] ∧
  assigned (Ipcp.config (ipcp (session st'))) (pending_ppp_resume (session st')) = mkIp 10 0 0 2.
Proof.
  assert ((st ← life 7 sum_hash count_draw sample_created sample_opened; '(st', _) ← step 7 sum_hash count_draw sample_uplink st;
    Some (bool_decide (actions st' = actions st ++ [DeliverIpPacket (sample_ip (mkIp 10 0 0 2))] ∧
      assigned (Ipcp.config (ipcp (session st'))) (pending_ppp_resume (session st')) = mkIp 10 0 0 2))) = Some true) as E
    by (vm_compute; reflexivity).
  apply bind_Some in E as (st & E & Hs). apply bind_Some in Hs as ([st' []] & Es & Hs). injection Hs as Hs.
  destruct (bool_decide_eq_true_1 _ Hs). exists st, st'. split; [exact E|]. split; [exact Es|]. by split.
Qed.
Lemma in_last {A} (x : A) l : x ∈ l ++ [x].
Proof. apply elem_of_app. right. by apply list_elem_of_singleton. Qed.
Lemma simple_ip_source_witness : ∃ st st', life 7 sum_hash count_draw sample_created sample_opened = Some st ∧
  step 7 sum_hash count_draw sample_uplink st = Some (st', tt) ∧
  DeliverIpPacket (sample_ip (mkIp 10 0 0 2)) ∈ actions st' ∧
  parse_uplink_ipv4 (sample_ip (mkIp 10 0 0 2)) = Some (mkIp 10 0 0 2).
Proof.
  destruct sample_delivers as (st & st' & E & Es & Ea & Eadr). exists st, st'. split; [done|]. split; [done|].
  destruct (simple_ip_source (keeps := a10_steady) 7 sum_hash count_draw A10.new true IpcpConfig_default None 0 0 sample_opened sample_uplink st st' I
    (λ x, x) eq_refl (λ _ e, match e with end) E Es) as (new & En & Hn).
  assert (new = [DeliverIpPacket (sample_ip (mkIp 10 0 0 2))]) as -> by (eapply app_inv_head; rewrite <- En; exact Ea).
  rewrite Ea. split; [exact (in_last _ (actions st))|]. rewrite Eadr in Hn. exact (Hn _ (in_last _ [])).
Defined.

Lemma session_never_panics_witness :
  (∃ st, life 7 sum_hash count_draw (new_a10_unstructured_byte_stream 7 count_draw IpcpConfig_default None 0 0)
     [IngestA10 [0x7E; 0xFF; 0x7E]; SendIp [1; 2]; Tick None] = Some st ∧ resume_ok False None (snapshot_ppp_state (session st))).
Proof.
  refine (proj1 (session_never_panics 7 sum_hash count_draw IpcpConfig_default None 0 0
    [IngestA10 [0x7E; 0xFF; 0x7E]; SendIp [1; 2]; Tick None] 7 (inj_fresh _ count_draw_inj) _ _ _ _ _)).
  - unfold is_u. lia.
  - repeat (apply Forall_cons; split; [first [exact I|apply bytesb_bytes; reflexivity]|]). apply Forall_nil_2.
  - split; [right|]; done.
  - done.
  - done.
Defined.

Definition sample_state : PppSessionState :=
  mkPppState (Lcp.mkLcpOpenState Lcp.NegotiatedOptions_default []) (Ipcp.mkIpcpOpenState IpcpConfig_default true false VjCompressionOptions_default None None [])
    (Mip.mkMipSession MobileIpConfig_default 0 0 [] [] None None) VjState_default.
Lemma session_resumes_witness :
  (∃ st, life 7 sum_hash count_draw (new_a10_unstructured_byte_stream 7 count_draw IpcpConfig_default (Some sample_state) 0 0) [Tick None] = Some st ∧
     resumed sample_state st) ∧
  (∃ st, life 7 sum_hash count_draw (new_hrpd_default_packet 7 count_draw IpcpConfig_default (Some sample_state) 0 0) [Tick None] = Some st ∧
     resumed sample_state st).
Proof. apply session_resumes. unfold is_u. lia. Defined.

Lemma sample_rlp1 : ∃ u q s, new_with_ppp_resume 7 7 count_draw IpcpConfig_default None 0 0 = Some (u, q, s).
Proof. eexists _, _, _. vm_compute. reflexivity. Qed.
Lemma sync_timeout_once_witness : ∃ u q s st, new_with_ppp_resume 7 7 count_draw IpcpConfig_default None 0 0 = Some (u, q, s) ∧
  life 7 sum_hash count_draw (Some (u, q, s)) (replicate 600 (Tick None)) = Some st ∧ closes (actions st) = [sync_timeout_reason].
Proof.
  destruct sample_rlp1 as (u & q & s & E).
  destruct (sync_timeout_once 7 7 sum_hash count_draw IpcpConfig_default None 0 0 u q s 600 ltac:(done) E) as (st & H1 & _ & _ & H2); [lia|].
  rewrite decide_True in H2 by lia. by exists u, q, s, st.
Defined.
