(* ===== verification/EngineLink.v ===== *)
(** * Two sessions back to back

    What one session sends down its bearer, another takes up: the downlink queue, header
    compression, framing and the bearer of the sender, and the bearer, deframer,
    decompression and source check of the receiver, composed. *)
From S2P Require Import Prelude Rlp3Frames Rlp3Proofs Rlp3Session Framing FramingProofs IpcpConfig Vj VjHeader VjProofs VjLink ControlPacket Lcp Ipcp.
From S2P Require Import Text ModemEndpoint AsyncNas MobileIp MobileIpProofs EngineParts RlpBackend Rlp3SessionProofs Rlp3Backend BackendProofs Engine.
From S2P Require Import EngineLogic EngineInv EngineProofs.
Import Engine.

(** ** Header compression between the two *)

(** Both ends agree, or nothing is compressed. *)
Definition vj_link (tx rx : VjState) : Prop :=
  tx_options tx = None ∨ ∃ o, is_u8 (max_slot_id o) ∧ synced o tx rx.

Lemma to_be16_bytes v : is_u16 v → bytes (to_be16 v).
Proof.
  intros [? ?]. unfold to_be16, bytes, is_u. apply Forall_cons. split; [|apply Forall_singleton]; unfold is_u; zdiv.
Qed.
Lemma encode_bytes v : is_u16 v → bytes (encode_nonzero v) ∧ bytes (encode_zero_allowed v).
Proof.
  intros Hv. assert (bytes (0 :: to_be16 v)) as Hl.
  { apply Forall_cons. split; [unfold is_u; lia|by apply to_be16_bytes]. }
  assert (bytes [v as_u8]) as Hs by (apply Forall_singleton; by apply is_u_wrap).
  unfold encode_nonzero, encode_zero_allowed. destruct (_ <=? _), (_ =? _); done.
Qed.
Lemma planned_bytes h n changes enc : wf_hdr n → planned h n changes enc →
  is_u8 changes ∧ is_u8 (Z.lor changes NEW_C) ∧ bytes enc.
Proof.
  intros Hn Hp. assert (∀ i p s a w u, is_u8 (chg i p s a w u) ∧ is_u8 (Z.lor (chg i p s a w u) NEW_C)) as Hc.
  { intros [] [] [] [] [] []; split; unfold is_u; vm_compute; split; congruence. }
  assert (∀ x, is_u16 (x as_u16)) as Hw by (intros x; by apply is_u_wrap).
  assert (bytes (enc_i h n)) as Hi by (unfold enc_i; destruct (bi _ _); [apply encode_bytes, Hw|apply Forall_nil_2]).
  destruct Hp; (split; [apply Hc|split; [apply Hc|]]); [|done..]. rewrite !bytes_app. split_and!; [..|done].
  - unfold enc_u. destruct (bu _); [apply encode_bytes, Hn|apply Forall_nil_2].
  - unfold enc_w. destruct (bw _ _); [apply encode_bytes, Hw|apply Forall_nil_2].
  - unfold enc_a. destruct (ba _ _); [apply encode_bytes, Hw|apply Forall_nil_2].
  - unfold enc_s. destruct (bs _ _); [apply encode_bytes, Hw|apply Forall_nil_2].
Qed.

(** What a compressor sends can be framed. *)
Lemma sent_framable o p s s' ppp : is_u8 (max_slot_id o) → bytes p → (2 ≤ length p)%nat → sent o p s s' ppp → framable ppp.
Proof.
  intros Ho Hb Hl Hs. destruct Hs as [-> _ _|n data rest slot -> Hn Hd Hslot -> _ _
    |h n data rest slot base changes enc -> Hn Hd Hslot _ Hh _ _ _ Hpl Hppp _ _].
  - done.
  - apply bytes_app in Hb as [Hb1 [Hb2 _]%bytes_app]. pose proof (length_header n (tcp_wf n Hn)). split_and!; [done..| |].
    + cbn [payload]. apply Forall_insert; [by apply bytes_app|]. unfold is_u in *. lia.
    + cbn [payload]. rewrite length_insert, length_app. lia.
  - apply bytes_app in Hb as [_ [Hb _]%bytes_app]. pose proof (tcp_wf n Hn) as Hw.
    destruct (planned_bytes h n changes enc Hw Hpl) as (H1 & H2 & H3).
    assert (bytes (to_be16 (h_tck n) ++ enc ++ data)) as Hx by (rewrite !bytes_app; split_and!; [apply to_be16_bytes, Hw|done..]).
    destruct Hppp as [-> |[_ ->]]; (split_and!; [done..| |cbn; lia]); cbn [payload].
    + apply Forall_cons. split; [done|]. apply Forall_cons. split; [unfold is_u in *; lia|done].
    + by apply Forall_cons.
Qed.

Lemma vj_link_step p tx rx : vj_link tx rx → clean p = true → (2 ≤ length p)%nat →
  ∃ tx' ppp rx', compress_ip_packet p tx = Some (tx', ppp) ∧ framable ppp ∧
    decompress_packet (protocol ppp) (payload ppp) rx = Some (rx', Ok p) ∧ vj_link tx' rx'.
Proof.
  intros Hv Hc Hl. pose proof (clean_spec p Hc) as [Hb _]. destruct Hv as [Ho|(o & Ho & Hs)].
  - exists tx, (ip_ppp p), rx. unfold compress_ip_packet. rewrite Ho. split_and!; [done|done|done|by left].
  - destruct (relay_step o p tx rx Hs Hc) as (tx' & rx' & E & Hs'). unfold relay in E.
    apply bind_Some in E as ([tx1 ppp] & E1 & E). apply bind_Some in E as ([rx1 out] & E2 & E). injection E as -> -> ->.
    destruct (compress_spec o p tx Hb (sy_tx _ _ _ Hs)) as (tx2 & ppp2 & E3 & _ & Hsent). rewrite E1 in E3. injection E3 as <- <-.
    exists tx', ppp, rx'. split_and!; [done|by eapply sent_framable|done|right; by exists o].
Qed.

Lemma frame_octets ppp opts : framable ppp → bytes (frame_with_options ppp opts) ∧ frame_with_options ppp opts ≠ [].
Proof.
  intros (Hv & _ & Hb & _). split; [|done]. destruct (header_field ppp opts Hv) as [Hh Hp].
  assert (bytes [FLAG]) as Hf by (apply Forall_singleton; unfold is_u; vm_compute; split; congruence).
  unfold frame_with_options. rewrite !bytes_app. split_and!; [done| |done].
  set (content := header ppp opts ++ payload ppp). cbv zeta. generalize (if protocol ppp =? LCP_PROTOCOL then 0xFFFFFFFF else tx_accm opts) as accm. intros accm.
  assert (bytes (content ++ [(Z.land (Z.lxor (fcs16 content) FCS16_INIT) 255) as_u8] ++
    [(Z.shiftr (Z.lxor (fcs16 content) FCS16_INIT) 8) as_u8])) as Hc.
  { rewrite !bytes_app. split_and!; [|apply Forall_singleton; by apply is_u_wrap..]. subst content. rewrite Hh, !bytes_app.
    split_and!; [|done|done]. destruct (_ || _); [|apply Forall_nil_2]. by apply bytesb_bytes. }
  induction Hc as [|x l Hx Hl IH]; [apply Forall_nil_2|]. rewrite fmap_cons. change (mjoin (?a :: ?b)) with (a ++ mjoin b).
  apply bytes_app. split; [|done]. unfold escape_octet. destruct (needs_escape_accm _ _); [|by apply Forall_singleton].
  apply Forall_cons. split; [unfold is_u; vm_compute; split; congruence|]. apply Forall_singleton.
  apply is_u_lxor; [lia|done|unfold is_u; lia].
Qed.

(** What the receiver will make of the packets in flight. *)
Fixpoint decodes (ppps : list PppPacket) (pkts : list (list Z)) (rx rx_end : VjState) : Prop :=
  match ppps, pkts with
  | [], [] => rx = rx_end
  | ppp :: ppps, p :: pkts =>
      ∃ rx', decompress_packet (protocol ppp) (payload ppp) rx = Some (rx', Ok p) ∧ decodes ppps pkts rx' rx_end
  | _, _ => False
  end.

Section Link.
Context {B : Type} {H : RlpBackend B} {oct : OctetBearer B} (seed : Z) (md5 : list Z → list Z) (draw : nat → list Z).
Abbreviation wp := (wp False).

(** ** The sender *)
Definition sending (s : PacketSession B) : Prop :=
  phase s = Active ∧ is_async_data s = false ∧ sch_active s = false.

(** The octets the sender has still to send. *)
Definition stream (s : PacketSession B) : list Z :=
  queued (rlp s) ++ mjoin ((λ ppp, frame_with_options ppp (frame_opts s)) <$> ppp_tx_queue s).

Lemma wp_send_all pkts : ∀ st rx, sending (session st) → vj_link (vj (session st)) rx →
  Forall (λ p, clean p = true ∧ (2 ≤ length p)%nat) pkts →
  wp (each (step seed md5 draw) (SendIp <$> pkts)) (λ _ st', ∃ ppps rx', sending (session st') ∧ actions st' = actions st ∧
    rlp (session st') = rlp (session st) ∧ frame_opts (session st') = frame_opts (session st) ∧
    ppp_tx_queue (session st') = ppp_tx_queue (session st) ++ ppps ∧ Forall framable ppps ∧
    decodes ppps pkts rx rx' ∧ vj_link (vj (session st')) rx') st.
Proof.
  induction pkts as [|p pkts IH]; intros st rx (Hp & Ha & Hs) Hv Hc.
  { rewrite fmap_nil. cbn [each]. wstep. exists [], rx. rewrite app_nil_r. by split_and!. }
  inversion Hc as [|? ? [Hcl Hlen] Hc']; subst. rewrite fmap_cons. cbn [each step]. wstep. unfold send_ip_packet. do 3 wstep.
  unfold id. rewrite Ha, andb_false_r. wstep. rewrite Hp. unfold enqueue_downlink_ip_packet. do 5 wstep. apply wp_lift.
  change (vj (set_ppp_activity_since_last_check true (session st))) with (vj (session st)).
  destruct (vj_link_step p _ rx Hv Hcl Hlen) as (tx' & ppp & rx' & E & Hf & Ed & Hv'). rewrite E. do 3 wstep.
  eapply wp_mono; [apply (IH _ rx'); [by split_and!|exact Hv'|done]|].
  intros [] st' (ppps & rx2 & S1 & S2 & S3 & S4 & S5 & S6 & S7 & S8). exists (ppp :: ppps), rx2.
  split_and!; [apply S1|exact S2|exact S3|exact S4| |by apply Forall_cons| |done].
  - rewrite S5. cbn. by rewrite <- app_assoc.
  - by exists rx'.
Qed.
(** Frames that carry octets: any receiver makes those octets of them. *)
Inductive carried : list SessionAction → list Z → Prop :=
| carried_nil : carried [] []
| carried_frame acts x bits d : carried acts x →
    (∀ peer : B, ∃ peer', receive_frame_bits bits 0 peer = Some (peer', Some d)) → carried (acts ++ [SendFrame bits 0]) (x ++ d).

Lemma wp_emit_frames n : ∀ st x, carried (actions st) x → bytes (queued (rlp (session st))) →
  wp (send_frames n true true) (λ _ st', ∃ d b, session st' = set_rlp b (session st) ∧ carried (actions st') (x ++ d) ∧
    queued (rlp (session st)) = d ++ queued b ∧ (n ≠ 0%nat → queued (rlp (session st)) ≠ [] → d ≠ [])) st.
Proof.
  induction n as [|n IH]; intros st x Hx Hb; cbn [send_frames].
  { wstep. exists [], (rlp (session st)). rewrite app_nil_r. split_and!; [by destruct st as [? ? [] ?]|done..]. }
  do 3 wstep. apply wp_lift. destruct (decide (queued (rlp (session st)) = [])) as [E|Hne].
  - rewrite next_empty by done. do 2 wstep. rewrite decide_True by done. wstep. exists [], (rlp (session st)). rewrite app_nil_r. by split_and!.
  - destruct (next_octets _ Hne Hb) as (b & bits & d & E & Hbits & Hd & Eq & Hr). rewrite E. do 2 wstep.
    rewrite decide_False by done. do 2 wstep. eapply wp_mono; [apply (IH _ (x ++ d))|].
    + by apply carried_frame.
    + rewrite Eq in Hb. by apply bytes_app in Hb as [_ Hb].
    + intros [] st' (d' & b' & E1 & E2 & E3 & _). exists (d ++ d'), b'. rewrite app_assoc. split_and!; [by rewrite E1|done| |].
      * rewrite Eq. cbn in E3. by rewrite E3, app_assoc.
      * intros _ _. by destruct d.
Qed.

(** What sending leaves alone. *)
Definition keeps (s s' : PacketSession B) : Prop :=
  (sending s → sending s') ∧ frame_opts s' = frame_opts s ∧ vj s' = vj s.
Lemma wp_enqueue_frames opts l : ∀ st,
  wp (each (λ ppp, modify (set_ppp_activity_since_last_check true);;
        modify (λ s, set_rlp (enqueue_data (frame_with_options ppp opts) (rlp s)) s)) l)
    (λ _ st', keeps (session st) (session st') ∧ actions st' = actions st ∧ ppp_tx_queue (session st') = ppp_tx_queue (session st) ∧
       queued (rlp (session st')) = queued (rlp (session st)) ++ mjoin ((λ ppp, frame_with_options ppp opts) <$> l)) st.
Proof.
  induction l as [|ppp l IH]; intros st; cbn [each].
  { wstep. split_and!; try done. cbn. by rewrite app_nil_r. }
  do 4 wstep. eapply wp_mono; [apply IH|]. intros [] st' ((K1 & K2 & K3) & E1 & E2 & E3). split_and!; [|done..|].
  - split_and!; [intros ?; by apply K1|done..].
  - rewrite E3. cbn [session set_rlp set_ppp_activity_since_last_check rlp]. rewrite queued_enqueue, fmap_cons. change (mjoin (?a :: ?m)) with (a ++ mjoin m). by rewrite app_assoc.
Qed.

Lemma wp_send_tick st x : sending (session st) → carried (actions st) x → bytes (stream (session st)) →
  wp (tick seed md5 draw None) (λ _ st', ∃ d, sending (session st') ∧ vj (session st') = vj (session st) ∧
    carried (actions st') (x ++ d) ∧ stream (session st) = d ++ stream (session st') ∧
    (stream (session st) ≠ [] → d ≠ [])) st.
Proof.
  intros Hs Hx Hb. pose proof Hs as (Hp & Ha & Hsch). unfold tick, process_uplink. cbn [default]. do 4 wstep. apply wp_lift.
  rewrite receive_empty. do 5 wstep. unfold id. rewrite phase_is_ne by (cbn; congruence). cbn [andb when]. do 3 wstep.
  unfold count_sync_tick. do 2 wstep. unfold id. rewrite phase_is_ne by (cbn; congruence). do 5 wstep.
  unfold id. change (is_async_data (set_rlp_sync_ticks _ _)) with (is_async_data (session st)). rewrite Ha. cbn [when]. wstep. apply wp_quiet; [cbn; congruence..|].
  unfold append_pending_downlink_actions. do 5 wstep. eapply wp_mono; [apply wp_enqueue_frames|].
  intros [] st1 ((K1 & K2 & K3) & E1 & E2 & E3). specialize (K1 Hs). do 2 wstep. destruct K1 as (P1 & A1 & C1). unfold id. rewrite C1.
  cbn [andb negb]. wstep. change (queued (rlp _) ++ _) with (stream (session st)) in E3.
  eapply wp_mono; [apply (wp_emit_frames _ st1 x); [by rewrite E1|by rewrite E3]|].
  intros [] st2 (d & b & Es & Hc & Eq & Hd). do 2 wstep. unfold id. rewrite Es. cbn [set_rlp sch_active]. rewrite C1. cbn [andb]. wstep.
  exists d. rewrite Es. split_and!; [done|done|done| |].
  - rewrite <- E3, Eq. unfold stream at 1. cbn [set_rlp rlp ppp_tx_queue]. rewrite E2. cbn. by rewrite app_nil_r.
  - intros Hne. apply Hd; [lia|]. by rewrite E3.
Qed.
Lemma wp_drain n : ∀ st x, sending (session st) → carried (actions st) x → bytes (stream (session st)) →
  (length (stream (session st)) ≤ n)%nat →
  wp (each (step seed md5 draw) (replicate n (Tick None)))
    (λ _ st', vj (session st') = vj (session st) ∧ carried (actions st') (x ++ stream (session st))) st.
Proof.
  induction n as [|n IH]; intros st x Hs Hx Hb Hl; cbn [replicate each step].
  { wstep. split; [done|]. destruct (stream (session st)); [|cbn in Hl; lia]. by rewrite app_nil_r. }
  wstep. eapply wp_mono; [by apply wp_send_tick|]. intros [] st1 (d & S1 & S2 & S3 & S4 & S5). rewrite S4 in *.
  eapply wp_mono; [apply (IH st1 (x ++ d)); [done|done|by apply bytes_app in Hb as [_ ?]|]|].
  - rewrite length_app in Hl. destruct d as [|o d]; [|cbn in Hl; lia]. destruct (stream (session st1)); [cbn; lia|]. by destruct S5.
  - intros [] st2 [E1 E2]. rewrite app_assoc. split; [congruence|done].
Qed.

(** ** The receiver *)
Definition receiving (src : Ipv4Addr) (s : PacketSession B) : Prop :=
  phase s = Active ∧ is_async_data s = false ∧ mip_enabled (Mip.mip_config (mobile_ip s)) = false ∧
  peer_ip (Ipcp.config (ipcp s)) = src.

Lemma wp_deliver_packet src p st : receiving src (session st) → parse_uplink_ipv4 p = Some src →
  wp (deliver_uplink_ip_packet seed md5 draw p) (λ _ st', receiving src (session st') ∧ vj (session st') = vj (session st) ∧
    deframer (session st') = deframer (session st) ∧ actions st' = actions st ++ [DeliverIpPacket p]) st.
Proof.
  intros (Hp & Ha & Hm & Hsrc) Eip. unfold deliver_uplink_ip_packet. do 2 wstep. unfold id. rewrite phase_is_ne by congruence.
  rewrite Hm. cbn [andb]. do 2 wstep. unfold forward_uplink_ip_packet. rewrite Eip. do 2 wstep. unfold id. rewrite phase_is_eq by done.
  cbn [negb]. rewrite bool_decide_eq_false_2 by congruence. rewrite Ha. do 2 wstep. cbn [negb when]. do 3 wstep. done.
Qed.

Lemma wp_receive_packet src ppp p rx st : receiving src (session st) → parse_uplink_ipv4 p = Some src →
  decompress_packet (protocol ppp) (payload ppp) (vj (session st)) = Some (rx, Ok p) →
  wp (process_uplink_ppp seed md5 draw ppp) (λ _ st', receiving src (session st') ∧ vj (session st') = rx ∧
    deframer (session st') = deframer (session st) ∧ actions st' = actions st ++ [DeliverIpPacket p]) st.
Proof.
  intros Hr Hs Ed. unfold process_uplink_ppp. cbv zeta. pose proof Ed as Ep. unfold decompress_packet in Ep.
  destruct (Z.eqb_spec (protocol ppp) PPP_IP_PROTOCOL) as [E|N1].
  { rewrite E. injection Ep as <- ->. by apply wp_deliver_packet. }
  assert (protocol ppp = PPP_VJ_UNCOMPRESSED_TCP ∨ protocol ppp = PPP_VJ_COMPRESSED_TCP) as Hv.
  { destruct (Z.eqb_spec (protocol ppp) PPP_VJ_UNCOMPRESSED_TCP); [by left|].
    destruct (Z.eqb_spec (protocol ppp) PPP_VJ_COMPRESSED_TCP); [by right|done]. }
  assert ((protocol ppp =? LCP_PROTOCOL) = false) as -> by by destruct Hv as [->| ->].
  assert ((protocol ppp =? Ipcp.IPCP_PROTOCOL) = false) as -> by by destruct Hv as [->| ->].
  assert ((protocol ppp =? PPP_VJ_UNCOMPRESSED_TCP) || (protocol ppp =? PPP_VJ_COMPRESSED_TCP) = true) as -> by by destruct Hv as [->| ->].
  do 3 wstep. apply wp_lift. rewrite Ed. do 2 wstep.
  eapply wp_mono; [apply (wp_deliver_packet src p); [exact Hr|done]|]. done.
Qed.

Lemma wp_receive_packets src ppps : ∀ st pkts rest rx, receiving src (session st) →
  Forall (λ p, parse_uplink_ipv4 p = Some src) pkts → decodes (ppps ++ rest) pkts (vj (session st)) rx →
  wp (each (λ ppp, modify (set_ppp_activity_since_last_check true);; process_uplink_ppp seed md5 draw ppp) ppps)
    (λ _ st', ∃ done todo, pkts = done ++ todo ∧ receiving src (session st') ∧ deframer (session st') = deframer (session st) ∧
       decodes rest todo (vj (session st')) rx ∧ actions st' = actions st ++ (DeliverIpPacket <$> done)) st.
Proof.
  induction ppps as [|ppp ppps IH]; intros st pkts rest rx Hr Hs Hd; cbn [each].
  { wstep. exists [], pkts. rewrite app_nil_r. by split_and!. }
  cbn [app decodes] in Hd. destruct pkts as [|p pkts]; [done|]. destruct Hd as (rx' & Ed & Hd). inversion Hs; subst.
  do 3 wstep. set (st0 := mkSys _ _ _ _). assert (vj (session st0) = vj (session st)) as Ev by done.
  eapply (wp_mono False _ (λ _ st1, receiving src (session st1) ∧ vj (session st1) = rx' ∧
    deframer (session st1) = deframer (session st) ∧ actions st1 = actions st ++ [DeliverIpPacket p])).
  { by apply (wp_receive_packet src ppp p rx' st0). }
  intros [] st1 (R1 & R2 & R3 & R4). eapply wp_mono; [apply (IH st1 pkts rest rx); [done|done|by rewrite R2]|].
  intros [] st2 (done & todo & -> & S1 & S2 & S3 & S4). exists (p :: done), todo. split_and!; [done|done|congruence|done|].
  rewrite S4, R4, fmap_cons. by rewrite <- app_assoc.
Qed.
Lemma deframe_flags k : deframe (replicate k FLAG) = (replicate k FLAG, []).
Proof. destruct k as [|k]; [done|]. by rewrite deframe_eq, round_flags. Qed.
Lemma deframe_stable a b ps : deframe a = (b, ps) → deframe b = (b, []).
Proof.
  intros E. pose proof (deframe_app a []) as Ea. rewrite !app_nil_r, E in Ea. rewrite app_nil_r in Ea.
  destruct (deframe b) as [b' qs]. injection Ea as <- Eq. f_equal. apply (inj (app ps)). by rewrite app_nil_r.
Qed.

(** The receiver takes the frames up one by one. *)
Definition uplink_frame (a : SessionAction) : M B unit :=
  match a with
  | SendFrame bits rate => process_uplink seed md5 draw (Some (bits, rate))
  | _ => mret tt
  end.

(** What is still to come, as the deframer will see it. *)
Definition expects (src : Ipv4Addr) (rest : list Z) (todo : list (list Z)) (rx : VjState) (st : Sys B) : Prop :=
  receiving src (session st) ∧ Forall (λ p, parse_uplink_ipv4 p = Some src) todo ∧
  ∃ b ppps, deframe (deframer (session st) ++ rest) = (b, ppps) ∧ decodes ppps todo (vj (session st)) rx ∧ (rest = [] → ppps = []).

Lemma wp_uplink_chunk src bits d rest todo rx st : (∀ peer : B, ∃ peer', receive_frame_bits bits 0 peer = Some (peer', Some d)) →
  expects src (d ++ rest) todo rx st →
  wp (uplink_frame (SendFrame bits 0)) (λ _ st', ∃ done todo', todo = done ++ todo' ∧ expects src rest todo' rx st' ∧
    actions st' = actions st ++ (DeliverIpPacket <$> done)) st.
Proof.
  intros Hrx (Hr & Hs & b & ppps & Ed & Hd & _). cbn [uplink_frame]. unfold process_uplink.
  change (default ([], 0) (Some (bits, 0))) with (bits, 0). cbv iota. do 3 wstep. apply wp_lift.
  destruct (Hrx (rlp (session st))) as [peer' E]. rewrite E. do 5 wstep. unfold id. pose proof Hr as (Hp & _).
  rewrite phase_is_ne by (cbn; congruence). cbn [andb when]. do 3 wstep.
  cbn [set_rlp deframer].
  rewrite app_assoc, deframe_app in Ed.
  change (feed (deframer (session st)) d) with (deframe (deframer (session st) ++ d)).
  destruct (deframe (deframer (session st) ++ d)) as [b1 ps] eqn:E1. do 2 wstep.
  destruct (deframe (b1 ++ rest)) as [b2 qs] eqn:E2. injection Ed as <- <-.
  eapply wp_mono; [apply (wp_receive_packets src ps _ todo qs rx); [exact Hr|exact Hs|exact Hd]|].
  intros [] st' (dn & todo' & -> & R1 & R2 & R3 & R4). exists dn, todo'. split_and!; [done| |done]. split_and!; [done| |].
  - by apply Forall_app in Hs as [_ ?].
  - exists b2, qs. rewrite R2. cbn [session set_deframer deframer]. split_and!; [done|done|]. intros ->.
    rewrite app_nil_r, (deframe_stable _ _ _ E1) in E2. by injection E2 as _ <-.
Qed.

Lemma wp_uplink_all src acts x : carried acts x → ∀ rest todo rx st, expects src (x ++ rest) todo rx st →
  wp (each uplink_frame acts) (λ _ st', ∃ done todo', todo = done ++ todo' ∧ expects src rest todo' rx st' ∧
    actions st' = actions st ++ (DeliverIpPacket <$> done)) st.
Proof.
  induction 1 as [|acts x bits d Hc IH Hrx]; intros rest todo rx st He.
  { cbn [each]. wstep. exists [], todo. rewrite app_nil_r. by split_and!. }
  apply wp_each_app. rewrite <- app_assoc in He. eapply wp_mono; [by apply (IH (d ++ rest) todo rx)|].
  intros [] st1 (dn & todo1 & -> & He1 & Ea). cbn [each]. wstep.
  eapply wp_mono; [by apply (wp_uplink_chunk src bits d rest todo1 rx)|].
  intros [] st2 (dn2 & todo2 & -> & He2 & Ea2). wstep. exists (dn ++ dn2), todo2. rewrite app_assoc. split_and!; [done|done|].
  by rewrite Ea2, Ea, fmap_app, app_assoc.
Qed.
End Link.

(** C3: what is sent arrives.  Packets given to an active session, over the A8/A10 byte stream or
    the HRPD application, come out of the session at the other end: all of them, unchanged and in
    order, however the bearer cuts the stream, with or without header compression; and the two
    compressors still agree.  ([clean]: nothing behind the datagram, correct checksum, not urgent.) *)
Theorem session_carries {B} {H : RlpBackend B} {oct : OctetBearer B} seed md5 draw (a b : Sys B) src k pkts :
  sending (session a) → stream (session a) = [] → actions a = [] →
  receiving src (session b) → deframer (session b) = replicate k FLAG →
  vj_link (vj (session a)) (vj (session b)) →
  Forall (λ p, clean p = true ∧ parse_uplink_ipv4 p = Some src) pkts →
  ∃ n a' b',
    each (step seed md5 draw) ((SendIp <$> pkts) ++ replicate n (Tick None)) a = Some (a', tt) ∧
    each (uplink_frame seed md5 draw) (actions a') b = Some (b', tt) ∧
    actions b' = actions b ++ (DeliverIpPacket <$> pkts) ∧
    vj_link (vj (session a')) (vj (session b')).
Proof.
  intros Hs Est Ha Hr Hbuf Hv Hp.
  assert (Forall (λ p, clean p = true ∧ (2 ≤ length p)%nat) pkts) as Hc.
  { eapply Forall_impl; [exact Hp|]. intros p [Hc Hi]. split; [done|]. unfold parse_uplink_ipv4 in Hi.
    destruct (bool_decide_reflect (length p < 20)%nat); [done|lia]. }
  pose proof (wp_send_all seed md5 draw pkts a _ Hs Hv Hc) as Hw. unfold wp in Hw.
  destruct (each (step seed md5 draw) (SendIp <$> pkts) a) as [[a1 []]|] eqn:E1; [|done].
  destruct Hw as (ppps & rx & S1 & S2 & S3 & S4 & S5 & S6 & S7 & S8).
  unfold stream in Est. apply app_nil in Est as [Eq Et].
  assert (ppp_tx_queue (session a) = []) as Eq'.
  { destruct (ppp_tx_queue (session a)); [done|]. rewrite fmap_cons in Et. done. }
  rewrite Eq' in S5. cbn [app] in S5. set (opts := frame_opts (session a)) in *.
  assert (stream (session a1) = mjoin ((λ ppp, frame_with_options ppp opts) <$> ppps)) as Es.
  { unfold stream. by rewrite S3, Eq, S4, S5. }
  assert (bytes (stream (session a1))) as Hb.
  { rewrite Es. clear -S6. induction S6 as [|ppp ppps Hf _ IH]; [apply Forall_nil_2|]. rewrite fmap_cons.
    change (mjoin (?x :: ?y)) with (x ++ mjoin y). apply bytes_app. split; [by apply frame_octets|done]. }
  set (n := length (stream (session a1))). exists n.
  pose proof (wp_drain seed md5 draw n a1 [] S1 ltac:(rewrite S2, Ha; constructor) Hb ltac:(done)) as Hw. unfold wp in Hw.
  destruct (each (step seed md5 draw) (replicate n (Tick None)) a1) as [[a2 []]|] eqn:E2; [|done]. destruct Hw as [Ev Hcar].
  cbn [app] in Hcar. exists a2.
  assert (expects src (stream (session a1) ++ []) pkts rx b) as He.
  { split_and!; [done|by eapply Forall_impl; [exact Hp|]; intros p [_ ?]|].
    rewrite Hbuf, app_nil_r, Es. destruct (decide (ppps = [])) as [->|Hne].
    - eexists _, []. split_and!; [|exact S7|done]. cbn. rewrite app_nil_r. apply deframe_flags.
    - exists [FLAG], ppps. split_and!; [|exact S7|].
      + pose proof (deframe_items ((λ ppp, (ppp, opts)) <$> ppps) k) as Ed. rewrite <- !list_fmap_compose in Ed.
        unfold compose in Ed. cbn [fst snd] in Ed. rewrite Ed; [by rewrite list_fmap_id| |by destruct ppps].
        by apply Forall_fmap.
      + intros E. destruct ppps; [done|]. by rewrite fmap_cons in E. }
  pose proof (wp_uplink_all seed md5 draw src _ _ Hcar [] pkts rx b He) as Hw. unfold wp in Hw.
  destruct (each (uplink_frame seed md5 draw) (actions a2) b) as [[b' []]|] eqn:E3; [|done].
  destruct Hw as (dn & todo & -> & (Hr' & _ & b1 & qs & _ & Hd & Hq) & Eact). rewrite (Hq eq_refl) in Hd.
  destruct todo; [|done]. cbn in Hd. rewrite app_nil_r in *. exists b'. split_and!; [|done|done|by rewrite Ev, Hd].
  by rewrite (each_app _ _ _ _ _ E1).
Qed.

(** An active session over the byte stream. *)
Definition sample_active (c : IpcpConfig) (v : VjState) : Sys A10.UnstructuredByteStreamBackend :=
  mkSys 0 0 (mkSession A10.new [] (Lcp.force_open (Lcp.new 1)) (Ipcp.new c)
    (Mip.mkMipSession MobileIpConfig_default 0 0 [] [] None None) v Active [] [] 0 true true false 360 DEFAULT_RC3_F_SCH_RATE_BPS
    false 0 None false false true false None) [].
Lemma session_carries_witness :
  let o := VjCompressionOptions_default in
  let pkts := [tcp_packet 1 100 7 0x10 0 [1; 2; 3]; tcp_packet 2 103 7 0x18 0 [4; 0x7E]; tcp_packet 4 105 9 0x10 0 []] in
  let a := sample_active IpcpConfig_default (configure (Some o) None VjState_default) in
  let b := sample_active handset_config (configure None (Some o) VjState_default) in
  ∃ n a' b',
    each (step 7 sum_hash count_draw) ((SendIp <$> pkts) ++ replicate n (Tick None)) a = Some (a', tt) ∧
    each (uplink_frame 7 sum_hash count_draw) (actions a') b = Some (b', tt) ∧
    actions b' = actions b ++ (DeliverIpPacket <$> pkts) ∧
    vj_link (vj (session a')) (vj (session b')).
Proof.
  cbv zeta. apply (session_carries 7 sum_hash count_draw (sample_active IpcpConfig_default _) (sample_active handset_config _) (mkIp 10 0 0 1) 0).
  - done.
  - done.
  - done.
  - done.
  - done.
  - right. exists VjCompressionOptions_default. split; [unfold is_u; vm_compute; split; congruence|]. apply synced_configure.
  - repeat (apply Forall_cons; split; [split; vm_compute; reflexivity|]). apply Forall_nil_2.
Defined.

(** * Sessions of service option 33

    The panic of the RLP Type 3 transmitter, from the frames of a mobile through the whole
    packet session. *)
Import Rlp3 Session3 Engine.

(** The period of the session in which the frame arrives. *)
Definition period (f : option Rlp3Frame) : Event :=
  Tick (f ← f; r ← encode f Odd; match r with Ok bits => Some (bits, 9600) | Err _ => None end).

Definition rc3_life (fs : list (option Rlp3Frame)) :=
  life 7 sum_hash count_draw (new_with_ppp_resume_rc3 7 count_draw IpcpConfig_default None 0 0) (period <$> fs).

(** The state in which the seventeen periods of [thinning] leave the session: a NAK too long for the frame is due. *)
Definition overgrown (st : Sys Rlp3B.Rlp3Backend) : Prop :=
  let s := Rlp3B.session (rlp (session st)) in
  builds s = true ∧ ∃ f, last (pending_controls s) = Some f ∧ nak_too_long (mux_option (config s)) f.
Lemma thinning_overgrows : ∃ st, rc3_life thinning = Some st ∧ overgrown st.
Proof.
  assert ((st ← rc3_life thinning; let s := Rlp3B.session (rlp (session st)) in
    f ← last (pending_controls s); Some (builds s && bool_decide (nak_too_long (mux_option (config s)) f))) = Some true) as E
    by (vm_compute; reflexivity).
  apply bind_Some in E as (st & E & Hs). apply bind_Some in Hs as (f & Hf & Hs). injection Hs as Hs.
  apply andb_true_iff in Hs as [Hb Hn]. exists st. split; [exact E|]. split; [exact Hb|]. exists f. split; [exact Hf|].
  exact (bool_decide_eq_true_1 _ Hn).
Qed.

(** C19: a session of service option 33 can be made to panic.  In whatever state a life of the session has reached,
    asking its bearer for the next downlink frame panics exactly when the handshake is over and the control frame due
    is a NAK with more gaps than the information bits of the frame have room for; and a mobile can bring this about:
    there is a sequence of well-formed frames after which the session is alive, such a NAK is due, and one more
    period, with nothing from the mobile, is a panic of the whole session. *)
Theorem rc3_session_panics :
  (∀ seed md5 draw c resume u q events st allow,
     life seed md5 draw (new_with_ppp_resume_rc3 seed draw c resume u q) events = Some st →
     next_frame_bits allow (rlp (session st)) = None ↔ overgrown st) ∧
  ∃ fs st, Forall (λ f, ∀ x, f = Some x → wf_frame3 x ∧ fits3 x Odd = true) fs ∧
    rc3_life fs = Some st ∧ overgrown st ∧ rc3_life (fs ++ [None]) = None.
Proof.
  split.
  - intros seed md5 draw c resume u q events st allow E. apply rlp3_bearer_panics.
    apply rc3_inv in E as (_ & _ & _ & _ & Hs & _). exact Hs.
  - destruct thinning_overgrows as (st & E & Ho). exists thinning, st. split; [apply thinning_frames|].
    split; [exact E|]. split; [exact Ho|]. vm_compute. reflexivity.
Qed.
