(* ===== verification/Octets.v ===== *)
(** * Parsing octet strings

    The readers of the A-interface codecs return [rust (result E A)]: the outer [None] is a
    panic (an index past the end of the input), [Err] the error value the code returns.  The
    file has the [?] operator for such computations, the big-endian reads
    ([u16::from_be_bytes([input[i], input[i + 1]])] and its wider kin) and the lemmas on
    reading back what was written. *)
From S2P Require Import Prelude.

#[export] Instance result_eq_dec {E A} `{EqDecision E, EqDecision A} : EqDecision (result E A).
Proof. solve_decision. Defined.

(** The [?] operator over a computation that may also panic. *)
Definition and_then {E A B} (m : rust (result E A)) (k : A → rust (result E B)) : rust (result E B) :=
  r ← m; match r with Ok a => k a | Err e => Some (Err e) end.
Notation "x '←!' y ; z" := (and_then y (λ x, z)) (at level 20, y at level 100, z at level 200, only parsing) : rust_scope.
Notation "' x '←!' y ; z" := (and_then y (λ x, z))
  (at level 20, x pattern, y at level 100, z at level 200, only parsing) : rust_scope.

(** [?] on a plain [Result]. *)
Definition rbind {E A B} (m : result E A) (k : A → result E B) : result E B :=
  match m with Ok a => k a | Err e => Err e end.
Notation "x '←r' y ; z" := (rbind y (λ x, z)) (at level 20, y at level 100, z at level 200, only parsing) : rust_scope.
Notation "' x '←r' y ; z" := (rbind y (λ x, z))
  (at level 20, x pattern, y at level 100, z at level 200, only parsing) : rust_scope.

(** [if cond { return Err(e) }] *)
Definition ensure {E} (b : bool) (e : E) : result E unit := if b then Ok tt else Err e.

Lemma and_then_ok {E A B} (a : A) (k : A → rust (result E B)) : and_then (Some (Ok a)) k = k a.
Proof. done. Qed.
Lemma Ok_inj {E A} (a b : A) : Ok (E := E) a = Ok b → a = b.
Proof. congruence. Qed.

(** ** Big-endian reads *)
Definition be16_at (input : list Z) (i : nat) : rust Z :=
  a ← index input i; b ← index input (i + 1); Some (from_be16 a b).
Definition be32_at (input : list Z) (i : nat) : rust Z :=
  a ← index input i; b ← index input (i + 1); c ← index input (i + 2); d ← index input (i + 3); Some (from_be32 a b c d).
Definition from_be64 (hi lo : Z) : Z := hi * 4294967296 + lo.
Definition to_be64 (v : Z) : list Z := to_be32 (v / 4294967296) ++ to_be32 (v mod 4294967296).
Definition be64_at (input : list Z) (i : nat) : rust Z :=
  hi ← be32_at input i; lo ← be32_at input (i + 4); Some (from_be64 hi lo).
(** [&input[i..]] *)
Definition slice_from (input : list Z) (i : nat) : rust (list Z) := slice input i (length input).
(** [[input[i], .., input[i + n - 1]]] *)
Definition octets_at (input : list Z) (i n : nat) : rust (list Z) := slice input i (i + n).

Abbreviation is_u64 := (is_u 64).

(** ** Reading back *)
Lemma slice_from_app (p s : list Z) i : i = length p → slice_from (p ++ s) i = Some s.
Proof.
  intros ->. unfold slice_from. rewrite slice_Some by (rewrite ?length_app; lia).
  rewrite drop_app_length, length_app. f_equal. apply take_ge. lia.
Qed.
Lemma octets_at_app (p m s : list Z) i n : i = length p → n = length m → octets_at (p ++ m ++ s) i n = Some m.
Proof. intros -> ->. by apply slice_app. Qed.

Lemma index_skip_app (p s : list Z) i : (length p ≤ i)%nat → index (p ++ s) i = index s (i - length p).
Proof. intros. unfold index. by apply lookup_app_r. Qed.

Lemma be16_at_app (p s : list Z) v i : i = length p → is_u16 v → be16_at (p ++ to_be16 v ++ s) i = Some v.
Proof.
  intros -> Hv. unfold be16_at. rewrite !(index_skip_app p) by lia. rewrite Nat.sub_diag.
  replace (length p + 1 - length p)%nat with 1%nat by lia. cbn. by rewrite split_u16.
Qed.
Lemma be32_at_app (p s : list Z) v i : i = length p → be32_at (p ++ to_be32 v ++ s) i = Some v.
Proof.
  intros ->. unfold be32_at. rewrite !(index_skip_app p) by lia. rewrite Nat.sub_diag.
  replace (length p + 1 - length p)%nat with 1%nat by lia. replace (length p + 2 - length p)%nat with 2%nat by lia.
  replace (length p + 3 - length p)%nat with 3%nat by lia. cbn. f_equal. by apply from_be32_to_be32.
Qed.
Lemma length_to_be16 v : length (to_be16 v) = 2%nat.
Proof. done. Qed.
Lemma length_to_be32 v : length (to_be32 v) = 4%nat.
Proof. done. Qed.
Lemma length_to_be64 v : length (to_be64 v) = 8%nat.
Proof. done. Qed.
Lemma be64_at_app (p s : list Z) v i : i = length p → be64_at (p ++ to_be64 v ++ s) i = Some v.
Proof.
  intros ->. unfold be64_at, to_be64. rewrite <- app_assoc.
  rewrite (be32_at_app p _ _ (length p)), bind_some by done.
  rewrite app_assoc, be32_at_app, bind_some by (rewrite length_app, length_to_be32; lia). f_equal. unfold from_be64. zdiv.
Qed.

(** ** Reading in range *)
Lemma index_total (l : list Z) i : (i < length l)%nat → ∃ v, index l i = Some v.
Proof. apply lookup_lt_is_Some_2. Qed.
Lemma index_byte l i v : bytes l → index l i = Some v → is_u8 v.
Proof. intros H Hi. eapply Forall_lookup_1; done. Qed.
Lemma be16_at_total (l : list Z) i : (i + 2 ≤ length l)%nat → ∃ v, be16_at l i = Some v ∧ (bytes l → is_u16 v).
Proof.
  intros H. unfold be16_at. destruct (index_total l i) as [a Ha]; [lia|]. destruct (index_total l (i + 1)) as [b Hb]; [lia|].
  rewrite Ha, Hb. eexists. split; [done|]. intros Hl. apply from_be16_u16; by eapply index_byte.
Qed.
Lemma be32_at_total (l : list Z) i : (i + 4 ≤ length l)%nat → ∃ v, be32_at l i = Some v ∧ (bytes l → is_u32 v).
Proof.
  intros H. unfold be32_at. destruct (index_total l i) as [a Ha]; [lia|]. destruct (index_total l (i + 1)) as [b Hb]; [lia|].
  destruct (index_total l (i + 2)) as [c Hc]; [lia|]. destruct (index_total l (i + 3)) as [d Hd]; [lia|].
  rewrite Ha, Hb, Hc, Hd. eexists. split; [done|]. intros Hl.
  pose proof (index_byte _ _ _ Hl Ha). pose proof (index_byte _ _ _ Hl Hb). pose proof (index_byte _ _ _ Hl Hc).
  pose proof (index_byte _ _ _ Hl Hd). unfold is_u, from_be32 in *. lia.
Qed.
(** What a read leaves: the octets read, then the rest. *)
Lemma be16_at_drop (l : list Z) i :
  (i + 2 ≤ length l)%nat →
  ∃ v, be16_at l i = Some v ∧ (bytes l → is_u16 v ∧ drop i l = to_be16 v ++ drop (i + 2) l).
Proof.
  intros H. unfold be16_at. destruct (index_total l i) as [a Ha]; [lia|]. destruct (index_total l (i + 1)) as [b Hb]; [lia|].
  rewrite Ha, Hb. eexists. split; [done|]. intros Hl.
  pose proof (index_byte _ _ _ Hl Ha). pose proof (index_byte _ _ _ Hl Hb).
  split; [by apply from_be16_u16|]. rewrite to_be16_from_be16 by done. unfold index in *.
  rewrite (drop_S _ _ _ Ha), <- Nat.add_1_r, (drop_S _ _ _ Hb). cbn. do 3 f_equal. lia.
Qed.
Lemma be32_at_drop (l : list Z) i :
  (i + 4 ≤ length l)%nat →
  ∃ v, be32_at l i = Some v ∧ (bytes l → drop i l = to_be32 v ++ drop (i + 4) l).
Proof.
  intros H. unfold be32_at. destruct (index_total l i) as [a Ha]; [lia|]. destruct (index_total l (i + 1)) as [b Hb]; [lia|].
  destruct (index_total l (i + 2)) as [c Hc]; [lia|]. destruct (index_total l (i + 3)) as [d Hd]; [lia|].
  rewrite Ha, Hb, Hc, Hd. eexists. split; [done|]. intros Hl.
  rewrite to_be32_from_be32 by (by eapply index_byte). unfold index in *.
  rewrite (drop_S _ _ _ Ha), <- Nat.add_1_r, (drop_S _ _ _ Hb). replace (S (i + 1)) with (i + 2)%nat by lia.
  rewrite (drop_S _ _ _ Hc). replace (S (i + 2)) with (i + 3)%nat by lia. rewrite (drop_S _ _ _ Hd). cbn.
  do 5 f_equal. lia.
Qed.
Lemma be64_at_total (l : list Z) i : (i + 8 ≤ length l)%nat → ∃ v, be64_at l i = Some v ∧ (bytes l → is_u64 v).
Proof.
  intros H. unfold be64_at. destruct (be32_at_total l i) as (a & -> & Ha); [lia|].
  destruct (be32_at_total l (i + 4)) as (b & -> & Hb); [lia|]. eexists. split; [done|]. intros Hl.
  specialize (Ha Hl). specialize (Hb Hl). unfold is_u, from_be64 in *. lia.
Qed.
Lemma slice_from_total (l : list Z) i : (i ≤ length l)%nat → slice_from l i = Some (drop i l).
Proof. intros. unfold slice_from. rewrite slice_Some by lia. by rewrite take_ge by (rewrite length_drop; lia). Qed.
Lemma octets_at_total (l : list Z) i n : (i + n ≤ length l)%nat → octets_at l i n = Some (take n (drop i l)).
Proof. intros. unfold octets_at. rewrite slice_Some by lia. by replace (i + n - i)%nat with n by lia. Qed.

Lemma bytes_drop i l : bytes l → bytes (drop i l).
Proof. apply Forall_drop. Qed.
Lemma bytes_take i l : bytes l → bytes (take i l).
Proof. apply Forall_take. Qed.
Lemma bytes_to_be64 v : is_u64 v → bytes (to_be64 v).
Proof. intros H. unfold to_be64. apply bytes_app. split; apply bytes_to_be32; unfold is_u in *; zdiv. Qed.
#[export] Hint Resolve bytes_drop bytes_take bytes_to_be64 : rust.

(** ** What a parser returns

    [yields P m]: [m] does not panic, and a value it returns satisfies [P]. *)
Definition yields {E A} (P : A → Prop) (m : rust (result E A)) : Prop :=
  match m with None => False | Some (Ok a) => P a | Some (Err _) => True end.

Lemma yields_and_then {E A B} (Q : A → Prop) (P : B → Prop) (m : rust (result E A)) k :
  yields Q m → (∀ a, Q a → yields P (k a)) → yields P (and_then m k).
Proof. destruct m as [[a|e]|]; cbn; auto. Qed.
Lemma yields_mono {E A} (P Q : A → Prop) (m : rust (result E A)) : yields P m → (∀ a, P a → Q a) → yields Q m.
Proof. destruct m as [[a|e]|]; cbn; auto. Qed.
Lemma yields_read {E A} (P : A → Prop) (R : Z → Prop) (m : rust Z) (k : Z → rust (result E A)) :
  (∃ v, m = Some v ∧ R v) → (∀ v, R v → yields P (k v)) → yields P (m ≫= k).
Proof. intros (v & -> & Hv) Hk. by apply Hk. Qed.
