(* ===== verification/A8Bearer.v ===== *)
(** * The A8 user plane ([cdma-a8/src/lib.rs])

    Keyed GRE packets and the bearer table: the sessions of a node, the GRE keys its peers
    send with, and the endpoints packets are accepted from while a session moves.  Sockets,
    the transport configuration and its error strings are left out.  Counters are unbounded;
    the GRE sequence number is a [u32]. *)
From S2P Require Import Prelude Octets.

Module A8.

Inductive Error :=
| Truncated (needed actual : nat)
| UnsupportedGreFlags (flags : Z)
| InvalidProtocolType (ty : Z)
| MissingSessionKey
| MissingSequenceNumber
| DuplicateSession (id : Z)
| DuplicateInboundSessionKey (key : Z)
| AddressFamilyMismatch (session_id : Z)
| UnknownSession (id : Z)
| UnknownInboundSessionKey (key : Z)
| TransitionInProgress (session_id : Z)
| EndpointMismatch (session_id : Z).
#[export] Instance Error_eq_dec : EqDecision Error.
Proof. solve_decision. Defined.

(** ** GRE packets *)
Inductive GreProtocolType := UnstructuredByteStream | PointToPointProtocol.
#[export] Instance GreProtocolType_eq_dec : EqDecision GreProtocolType.
Proof. solve_decision. Defined.
Definition protocol_u16 (t : GreProtocolType) : Z :=
  match t with UnstructuredByteStream => 0x8881 | PointToPointProtocol => 0x880b end.

Definition GRE_KEY_FLAG : Z := 0x2000.
Definition GRE_SEQUENCE_FLAG : Z := 0x1000.

Record GrePacket := mkGre {
  key_present : bool;
  sequence_present : bool;
  protocol_type : Z;
  key : option Z;
  sequence_number : option Z;
  payload : list Z
}.
#[export] Instance GrePacket_eq_dec : EqDecision GrePacket.
Proof. solve_decision. Defined.

Definition octet_stream (key : Z) (sequence_number : option Z) (payload : list Z) : GrePacket :=
  mkGre true (bool_decide (is_Some sequence_number)) (protocol_u16 UnstructuredByteStream) (Some key) sequence_number payload.
Definition ppp (key : Z) (payload : list Z) : GrePacket :=
  mkGre true false (protocol_u16 PointToPointProtocol) (Some key) None payload.

Definition encode (p : GrePacket) : result Error (list Z) :=
  let flags := Z.lor (if key_present p then GRE_KEY_FLAG else 0) (if sequence_present p then GRE_SEQUENCE_FLAG else 0) in
  let out := to_be16 flags ++ to_be16 (protocol_type p) in
  out ←r (if key_present p then
            match key p with None => Err MissingSessionKey | Some key => Ok (out ++ to_be32 key) end
          else Ok out);
  out ←r (if sequence_present p then
            match sequence_number p with
            | None => Err MissingSequenceNumber
            | Some sequence_number => Ok (out ++ to_be32 sequence_number)
            end
          else Ok out);
  Ok (out ++ payload p).

(** A 32-bit field that a flag announces, and the offset behind it. *)
Definition optional_u32 (present : bool) (input : list Z) (offset : nat) : rust (result Error (option Z * nat)) :=
  if present then
    if decide (length input < offset + 4)%nat then Some (Err (Truncated (offset + 4) (length input)))
    else value ← be32_at input offset; Some (Ok (Some value, offset + 4)%nat)
  else Some (Ok (None, offset)).

Definition decode (input : list Z) : rust (result Error GrePacket) :=
  let GRE_SUPPORTED_FLAGS := Z.lor GRE_KEY_FLAG GRE_SEQUENCE_FLAG in
  if decide (length input < 4)%nat then Some (Err (Truncated 4 (length input)))
  else
    flags ← be16_at input 0;
    if negb (Z.land flags (bit_not 16 GRE_SUPPORTED_FLAGS) =? 0) then Some (Err (UnsupportedGreFlags flags))
    else
      let key_present := negb (Z.land flags GRE_KEY_FLAG =? 0) in
      let sequence_present := negb (Z.land flags GRE_SEQUENCE_FLAG =? 0) in
      protocol_type ← be16_at input 2;
      '(key, offset) ←! optional_u32 key_present input 4;
      '(sequence_number, offset) ←! optional_u32 sequence_present input offset;
      payload ← slice_from input offset;
      Some (Ok (mkGre key_present sequence_present protocol_type key sequence_number payload)).

(** [strip_inbound_ip_header]: an IPv4 raw socket delivers the IP header too. *)
Inductive IpAddr := V4 (octets : list Z) | V6 (octets : list Z).
#[export] Instance IpAddr_eq_dec : EqDecision IpAddr.
Proof. solve_decision. Defined.

Definition strip_inbound_ip_header (family_ip : IpAddr) (frame : list Z) : rust (result Error (list Z)) :=
  match family_ip with
  | V6 _ => Some (Ok frame)
  | V4 _ =>
      if decide (frame = []) then Some (Err (Truncated 1 0))
      else
        first ← index frame 0;
        let header_len := (Z.to_nat (Z.land first 0x0f) * 4)%nat in
        if decide (length frame < header_len)%nat then Some (Err (Truncated header_len (length frame)))
        else rest ← slice_from frame header_len; Some (Ok rest)
  end.

(** ** Sessions *)
Inductive SequencingMode := Unsequenced | Required.
#[export] Instance SequencingMode_eq_dec : EqDecision SequencingMode.
Proof. solve_decision. Defined.

Record BearerProfile := mkProfile {
  profile_protocol : GreProtocolType;
  sequencing : SequencingMode;
  packet_boundary_supported : bool;
  gre_segmentation_supported : bool;
  short_data_indication_supported : bool;
  flow_control_supported : bool
}.
#[export] Instance BearerProfile_eq_dec : EqDecision BearerProfile.
Proof. solve_decision. Defined.
Definition standard_packet_data : BearerProfile := mkProfile UnstructuredByteStream Required false false false false.
Definition ppp_compatibility : BearerProfile := mkProfile PointToPointProtocol Unsequenced false false false false.
Definition has_unresolved_wire_attributes (p : BearerProfile) : bool :=
  packet_boundary_supported p || gre_segmentation_supported p || short_data_indication_supported p || flow_control_supported p.

Record BearerEndpoint := mkEndpoint { local_ip : IpAddr; remote_ip : IpAddr }.
#[export] Instance BearerEndpoint_eq_dec : EqDecision BearerEndpoint.
Proof. solve_decision. Defined.
Definition endpoint_v4 (local_ipv4 remote_ipv4 : list Z) : BearerEndpoint := mkEndpoint (V4 local_ipv4) (V4 remote_ipv4).
Definition endpoint_v6 (local_ipv6 remote_ipv6 : list Z) : BearerEndpoint := mkEndpoint (V6 local_ipv6) (V6 remote_ipv6).
Definition has_matching_address_family (e : BearerEndpoint) : bool :=
  match local_ip e, remote_ip e with V4 _, V4 _ | V6 _, V6 _ => true | _, _ => false end.

Record BearerSession := mkBearer {
  session_id : Z;
  inbound_session_key : Z;
  outbound_session_key : Z;
  endpoint : BearerEndpoint;
  profile : BearerProfile
}.
#[export] Instance BearerSession_eq_dec : EqDecision BearerSession.
Proof. solve_decision. Defined.
Definition with_profile (session_key : Z) (e : BearerEndpoint) (p : BearerProfile) : BearerSession :=
  mkBearer session_key session_key session_key e p.
Definition new_session (session_key : Z) (e : BearerEndpoint) : BearerSession := with_profile session_key e standard_packet_data.

Record InboundPacket := mkInbound {
  in_session_id : Z; in_gre_key : Z; in_endpoint : BearerEndpoint; rx_ordinal : Z;
  in_gre_sequence : option Z; in_payload : list Z
}.
Record OutboundPacket := mkOutbound {
  out_session_id : Z; out_gre_key : Z; out_endpoint : BearerEndpoint; tx_ordinal : Z;
  out_gre_sequence : option Z; payload_len : nat; wire_bytes : list Z
}.

Record BearerStats := mkStats {
  tx_packets : Z; tx_bytes : Z; rx_packets : Z; rx_bytes : Z;
  malformed_packets : Z; unknown_session_packets : Z; dropped_packets : Z; endpoint_mismatch_packets : Z;
  duplicate_sequence_packets : Z; reordered_sequence_packets : Z; sequence_gap_events : Z;
  sessions_created : Z; sessions_rebound : Z; sessions_dormant_rebound : Z; sessions_mobility_rebound : Z;
  sessions_hard_handoff_rebound : Z; sessions_removed : Z; transitions_completed : Z; active_sessions : Z;
  transition_rx_packets : Z
}.
Definition BearerStats_default : BearerStats := mkStats 0 0 0 0 0 0 0 0 0 0 0 0 0 0 0 0 0 0 0 0.

Record SessionStats := mkSessionStats {
  s_tx_packets : Z; s_tx_bytes : Z; s_rx_packets : Z; s_rx_bytes : Z;
  s_endpoint_mismatch_packets : Z; s_dropped_packets : Z; s_transition_rx_packets : Z;
  last_tx_ordinal : Z; last_rx_ordinal : Z; last_tx_sequence : option Z; last_rx_sequence : option Z;
  s_duplicate_sequence_packets : Z; s_reordered_sequence_packets : Z; s_sequence_gap_events : Z
}.
Definition SessionStats_default : SessionStats := mkSessionStats 0 0 0 0 0 0 0 0 0 None None 0 0 0.

Inductive RebindMode := DormantResume | Mobility | HardHandoff.
#[export] Instance RebindMode_eq_dec : EqDecision RebindMode.
Proof. solve_decision. Defined.
Record SessionTransition := mkTransition { mode : RebindMode; previous_endpoint : BearerEndpoint }.
#[export] Instance SessionTransition_eq_dec : EqDecision SessionTransition.
Proof. solve_decision. Defined.

Inductive ApplySessionOutcome :=
| Created
| ApplyUnchanged
| ApplyRebound (previous_endpoint : BearerEndpoint) (previous_inbound previous_outbound : Z) (previous_profile : BearerProfile).
Inductive RebindOutcome :=
| RebindUnchanged
| Rebound (previous_endpoint : BearerEndpoint) (mode : RebindMode).

Record SessionEntry := mkEntry {
  session : BearerSession;
  entry_stats : SessionStats;
  transition : option SessionTransition;
  next_tx_ordinal : Z;
  next_rx_ordinal : Z;
  next_tx_sequence : Z
}.
Record BearerTable := mkTable {
  sessions : gmap Z SessionEntry;
  inbound_key_index : gmap Z Z;
  stats : BearerStats
}.
Definition BearerTable_default : BearerTable := mkTable ∅ ∅ BearerStats_default.

(** ** Field updates *)
Definition set_sessions (x : gmap Z SessionEntry) (t : BearerTable) : BearerTable :=
  mkTable x (inbound_key_index t) (stats t).
Definition set_inbound_key_index (x : gmap Z Z) (t : BearerTable) : BearerTable :=
  mkTable (sessions t) x (stats t).
Definition set_stats (x : BearerStats) (t : BearerTable) : BearerTable :=
  mkTable (sessions t) (inbound_key_index t) x.
Definition set_session (x : BearerSession) (e : SessionEntry) : SessionEntry :=
  mkEntry x (entry_stats e) (transition e) (next_tx_ordinal e) (next_rx_ordinal e) (next_tx_sequence e).
Definition set_entry_stats (x : SessionStats) (e : SessionEntry) : SessionEntry :=
  mkEntry (session e) x (transition e) (next_tx_ordinal e) (next_rx_ordinal e) (next_tx_sequence e).
Definition set_transition (x : option SessionTransition) (e : SessionEntry) : SessionEntry :=
  mkEntry (session e) (entry_stats e) x (next_tx_ordinal e) (next_rx_ordinal e) (next_tx_sequence e).
Definition set_next_tx_ordinal (x : Z) (e : SessionEntry) : SessionEntry :=
  mkEntry (session e) (entry_stats e) (transition e) x (next_rx_ordinal e) (next_tx_sequence e).
Definition set_next_rx_ordinal (x : Z) (e : SessionEntry) : SessionEntry :=
  mkEntry (session e) (entry_stats e) (transition e) (next_tx_ordinal e) x (next_tx_sequence e).
Definition set_next_tx_sequence (x : Z) (e : SessionEntry) : SessionEntry :=
  mkEntry (session e) (entry_stats e) (transition e) (next_tx_ordinal e) (next_rx_ordinal e) x.
Definition set_endpoint (x : BearerEndpoint) (s : BearerSession) : BearerSession :=
  mkBearer (session_id s) (inbound_session_key s) (outbound_session_key s) x (profile s).
Definition set_tx_packets (x : Z) (s : BearerStats) : BearerStats :=
  mkStats x (tx_bytes s) (rx_packets s) (rx_bytes s) (malformed_packets s) (unknown_session_packets s) (dropped_packets s) (endpoint_mismatch_packets s) (duplicate_sequence_packets s) (reordered_sequence_packets s) (sequence_gap_events s) (sessions_created s) (sessions_rebound s) (sessions_dormant_rebound s) (sessions_mobility_rebound s) (sessions_hard_handoff_rebound s) (sessions_removed s) (transitions_completed s) (active_sessions s) (transition_rx_packets s).
Definition set_tx_bytes (x : Z) (s : BearerStats) : BearerStats :=
  mkStats (tx_packets s) x (rx_packets s) (rx_bytes s) (malformed_packets s) (unknown_session_packets s) (dropped_packets s) (endpoint_mismatch_packets s) (duplicate_sequence_packets s) (reordered_sequence_packets s) (sequence_gap_events s) (sessions_created s) (sessions_rebound s) (sessions_dormant_rebound s) (sessions_mobility_rebound s) (sessions_hard_handoff_rebound s) (sessions_removed s) (transitions_completed s) (active_sessions s) (transition_rx_packets s).
Definition set_rx_packets (x : Z) (s : BearerStats) : BearerStats :=
  mkStats (tx_packets s) (tx_bytes s) x (rx_bytes s) (malformed_packets s) (unknown_session_packets s) (dropped_packets s) (endpoint_mismatch_packets s) (duplicate_sequence_packets s) (reordered_sequence_packets s) (sequence_gap_events s) (sessions_created s) (sessions_rebound s) (sessions_dormant_rebound s) (sessions_mobility_rebound s) (sessions_hard_handoff_rebound s) (sessions_removed s) (transitions_completed s) (active_sessions s) (transition_rx_packets s).
Definition set_rx_bytes (x : Z) (s : BearerStats) : BearerStats :=
  mkStats (tx_packets s) (tx_bytes s) (rx_packets s) x (malformed_packets s) (unknown_session_packets s) (dropped_packets s) (endpoint_mismatch_packets s) (duplicate_sequence_packets s) (reordered_sequence_packets s) (sequence_gap_events s) (sessions_created s) (sessions_rebound s) (sessions_dormant_rebound s) (sessions_mobility_rebound s) (sessions_hard_handoff_rebound s) (sessions_removed s) (transitions_completed s) (active_sessions s) (transition_rx_packets s).
Definition set_malformed_packets (x : Z) (s : BearerStats) : BearerStats :=
  mkStats (tx_packets s) (tx_bytes s) (rx_packets s) (rx_bytes s) x (unknown_session_packets s) (dropped_packets s) (endpoint_mismatch_packets s) (duplicate_sequence_packets s) (reordered_sequence_packets s) (sequence_gap_events s) (sessions_created s) (sessions_rebound s) (sessions_dormant_rebound s) (sessions_mobility_rebound s) (sessions_hard_handoff_rebound s) (sessions_removed s) (transitions_completed s) (active_sessions s) (transition_rx_packets s).
Definition set_unknown_session_packets (x : Z) (s : BearerStats) : BearerStats :=
  mkStats (tx_packets s) (tx_bytes s) (rx_packets s) (rx_bytes s) (malformed_packets s) x (dropped_packets s) (endpoint_mismatch_packets s) (duplicate_sequence_packets s) (reordered_sequence_packets s) (sequence_gap_events s) (sessions_created s) (sessions_rebound s) (sessions_dormant_rebound s) (sessions_mobility_rebound s) (sessions_hard_handoff_rebound s) (sessions_removed s) (transitions_completed s) (active_sessions s) (transition_rx_packets s).
Definition set_dropped_packets (x : Z) (s : BearerStats) : BearerStats :=
  mkStats (tx_packets s) (tx_bytes s) (rx_packets s) (rx_bytes s) (malformed_packets s) (unknown_session_packets s) x (endpoint_mismatch_packets s) (duplicate_sequence_packets s) (reordered_sequence_packets s) (sequence_gap_events s) (sessions_created s) (sessions_rebound s) (sessions_dormant_rebound s) (sessions_mobility_rebound s) (sessions_hard_handoff_rebound s) (sessions_removed s) (transitions_completed s) (active_sessions s) (transition_rx_packets s).
Definition set_endpoint_mismatch_packets (x : Z) (s : BearerStats) : BearerStats :=
  mkStats (tx_packets s) (tx_bytes s) (rx_packets s) (rx_bytes s) (malformed_packets s) (unknown_session_packets s) (dropped_packets s) x (duplicate_sequence_packets s) (reordered_sequence_packets s) (sequence_gap_events s) (sessions_created s) (sessions_rebound s) (sessions_dormant_rebound s) (sessions_mobility_rebound s) (sessions_hard_handoff_rebound s) (sessions_removed s) (transitions_completed s) (active_sessions s) (transition_rx_packets s).
Definition set_duplicate_sequence_packets (x : Z) (s : BearerStats) : BearerStats :=
  mkStats (tx_packets s) (tx_bytes s) (rx_packets s) (rx_bytes s) (malformed_packets s) (unknown_session_packets s) (dropped_packets s) (endpoint_mismatch_packets s) x (reordered_sequence_packets s) (sequence_gap_events s) (sessions_created s) (sessions_rebound s) (sessions_dormant_rebound s) (sessions_mobility_rebound s) (sessions_hard_handoff_rebound s) (sessions_removed s) (transitions_completed s) (active_sessions s) (transition_rx_packets s).
Definition set_reordered_sequence_packets (x : Z) (s : BearerStats) : BearerStats :=
  mkStats (tx_packets s) (tx_bytes s) (rx_packets s) (rx_bytes s) (malformed_packets s) (unknown_session_packets s) (dropped_packets s) (endpoint_mismatch_packets s) (duplicate_sequence_packets s) x (sequence_gap_events s) (sessions_created s) (sessions_rebound s) (sessions_dormant_rebound s) (sessions_mobility_rebound s) (sessions_hard_handoff_rebound s) (sessions_removed s) (transitions_completed s) (active_sessions s) (transition_rx_packets s).
Definition set_sequence_gap_events (x : Z) (s : BearerStats) : BearerStats :=
  mkStats (tx_packets s) (tx_bytes s) (rx_packets s) (rx_bytes s) (malformed_packets s) (unknown_session_packets s) (dropped_packets s) (endpoint_mismatch_packets s) (duplicate_sequence_packets s) (reordered_sequence_packets s) x (sessions_created s) (sessions_rebound s) (sessions_dormant_rebound s) (sessions_mobility_rebound s) (sessions_hard_handoff_rebound s) (sessions_removed s) (transitions_completed s) (active_sessions s) (transition_rx_packets s).
Definition set_sessions_created (x : Z) (s : BearerStats) : BearerStats :=
  mkStats (tx_packets s) (tx_bytes s) (rx_packets s) (rx_bytes s) (malformed_packets s) (unknown_session_packets s) (dropped_packets s) (endpoint_mismatch_packets s) (duplicate_sequence_packets s) (reordered_sequence_packets s) (sequence_gap_events s) x (sessions_rebound s) (sessions_dormant_rebound s) (sessions_mobility_rebound s) (sessions_hard_handoff_rebound s) (sessions_removed s) (transitions_completed s) (active_sessions s) (transition_rx_packets s).
Definition set_sessions_rebound (x : Z) (s : BearerStats) : BearerStats :=
  mkStats (tx_packets s) (tx_bytes s) (rx_packets s) (rx_bytes s) (malformed_packets s) (unknown_session_packets s) (dropped_packets s) (endpoint_mismatch_packets s) (duplicate_sequence_packets s) (reordered_sequence_packets s) (sequence_gap_events s) (sessions_created s) x (sessions_dormant_rebound s) (sessions_mobility_rebound s) (sessions_hard_handoff_rebound s) (sessions_removed s) (transitions_completed s) (active_sessions s) (transition_rx_packets s).
Definition set_sessions_dormant_rebound (x : Z) (s : BearerStats) : BearerStats :=
  mkStats (tx_packets s) (tx_bytes s) (rx_packets s) (rx_bytes s) (malformed_packets s) (unknown_session_packets s) (dropped_packets s) (endpoint_mismatch_packets s) (duplicate_sequence_packets s) (reordered_sequence_packets s) (sequence_gap_events s) (sessions_created s) (sessions_rebound s) x (sessions_mobility_rebound s) (sessions_hard_handoff_rebound s) (sessions_removed s) (transitions_completed s) (active_sessions s) (transition_rx_packets s).
Definition set_sessions_mobility_rebound (x : Z) (s : BearerStats) : BearerStats :=
  mkStats (tx_packets s) (tx_bytes s) (rx_packets s) (rx_bytes s) (malformed_packets s) (unknown_session_packets s) (dropped_packets s) (endpoint_mismatch_packets s) (duplicate_sequence_packets s) (reordered_sequence_packets s) (sequence_gap_events s) (sessions_created s) (sessions_rebound s) (sessions_dormant_rebound s) x (sessions_hard_handoff_rebound s) (sessions_removed s) (transitions_completed s) (active_sessions s) (transition_rx_packets s).
Definition set_sessions_hard_handoff_rebound (x : Z) (s : BearerStats) : BearerStats :=
  mkStats (tx_packets s) (tx_bytes s) (rx_packets s) (rx_bytes s) (malformed_packets s) (unknown_session_packets s) (dropped_packets s) (endpoint_mismatch_packets s) (duplicate_sequence_packets s) (reordered_sequence_packets s) (sequence_gap_events s) (sessions_created s) (sessions_rebound s) (sessions_dormant_rebound s) (sessions_mobility_rebound s) x (sessions_removed s) (transitions_completed s) (active_sessions s) (transition_rx_packets s).
Definition set_sessions_removed (x : Z) (s : BearerStats) : BearerStats :=
  mkStats (tx_packets s) (tx_bytes s) (rx_packets s) (rx_bytes s) (malformed_packets s) (unknown_session_packets s) (dropped_packets s) (endpoint_mismatch_packets s) (duplicate_sequence_packets s) (reordered_sequence_packets s) (sequence_gap_events s) (sessions_created s) (sessions_rebound s) (sessions_dormant_rebound s) (sessions_mobility_rebound s) (sessions_hard_handoff_rebound s) x (transitions_completed s) (active_sessions s) (transition_rx_packets s).
Definition set_transitions_completed (x : Z) (s : BearerStats) : BearerStats :=
  mkStats (tx_packets s) (tx_bytes s) (rx_packets s) (rx_bytes s) (malformed_packets s) (unknown_session_packets s) (dropped_packets s) (endpoint_mismatch_packets s) (duplicate_sequence_packets s) (reordered_sequence_packets s) (sequence_gap_events s) (sessions_created s) (sessions_rebound s) (sessions_dormant_rebound s) (sessions_mobility_rebound s) (sessions_hard_handoff_rebound s) (sessions_removed s) x (active_sessions s) (transition_rx_packets s).
Definition set_active_sessions (x : Z) (s : BearerStats) : BearerStats :=
  mkStats (tx_packets s) (tx_bytes s) (rx_packets s) (rx_bytes s) (malformed_packets s) (unknown_session_packets s) (dropped_packets s) (endpoint_mismatch_packets s) (duplicate_sequence_packets s) (reordered_sequence_packets s) (sequence_gap_events s) (sessions_created s) (sessions_rebound s) (sessions_dormant_rebound s) (sessions_mobility_rebound s) (sessions_hard_handoff_rebound s) (sessions_removed s) (transitions_completed s) x (transition_rx_packets s).
Definition set_transition_rx_packets (x : Z) (s : BearerStats) : BearerStats :=
  mkStats (tx_packets s) (tx_bytes s) (rx_packets s) (rx_bytes s) (malformed_packets s) (unknown_session_packets s) (dropped_packets s) (endpoint_mismatch_packets s) (duplicate_sequence_packets s) (reordered_sequence_packets s) (sequence_gap_events s) (sessions_created s) (sessions_rebound s) (sessions_dormant_rebound s) (sessions_mobility_rebound s) (sessions_hard_handoff_rebound s) (sessions_removed s) (transitions_completed s) (active_sessions s) x.
Definition set_s_tx_packets (x : Z) (s : SessionStats) : SessionStats :=
  mkSessionStats x (s_tx_bytes s) (s_rx_packets s) (s_rx_bytes s) (s_endpoint_mismatch_packets s) (s_dropped_packets s) (s_transition_rx_packets s) (last_tx_ordinal s) (last_rx_ordinal s) (last_tx_sequence s) (last_rx_sequence s) (s_duplicate_sequence_packets s) (s_reordered_sequence_packets s) (s_sequence_gap_events s).
Definition set_s_tx_bytes (x : Z) (s : SessionStats) : SessionStats :=
  mkSessionStats (s_tx_packets s) x (s_rx_packets s) (s_rx_bytes s) (s_endpoint_mismatch_packets s) (s_dropped_packets s) (s_transition_rx_packets s) (last_tx_ordinal s) (last_rx_ordinal s) (last_tx_sequence s) (last_rx_sequence s) (s_duplicate_sequence_packets s) (s_reordered_sequence_packets s) (s_sequence_gap_events s).
Definition set_s_rx_packets (x : Z) (s : SessionStats) : SessionStats :=
  mkSessionStats (s_tx_packets s) (s_tx_bytes s) x (s_rx_bytes s) (s_endpoint_mismatch_packets s) (s_dropped_packets s) (s_transition_rx_packets s) (last_tx_ordinal s) (last_rx_ordinal s) (last_tx_sequence s) (last_rx_sequence s) (s_duplicate_sequence_packets s) (s_reordered_sequence_packets s) (s_sequence_gap_events s).
Definition set_s_rx_bytes (x : Z) (s : SessionStats) : SessionStats :=
  mkSessionStats (s_tx_packets s) (s_tx_bytes s) (s_rx_packets s) x (s_endpoint_mismatch_packets s) (s_dropped_packets s) (s_transition_rx_packets s) (last_tx_ordinal s) (last_rx_ordinal s) (last_tx_sequence s) (last_rx_sequence s) (s_duplicate_sequence_packets s) (s_reordered_sequence_packets s) (s_sequence_gap_events s).
Definition set_s_endpoint_mismatch_packets (x : Z) (s : SessionStats) : SessionStats :=
  mkSessionStats (s_tx_packets s) (s_tx_bytes s) (s_rx_packets s) (s_rx_bytes s) x (s_dropped_packets s) (s_transition_rx_packets s) (last_tx_ordinal s) (last_rx_ordinal s) (last_tx_sequence s) (last_rx_sequence s) (s_duplicate_sequence_packets s) (s_reordered_sequence_packets s) (s_sequence_gap_events s).
Definition set_s_dropped_packets (x : Z) (s : SessionStats) : SessionStats :=
  mkSessionStats (s_tx_packets s) (s_tx_bytes s) (s_rx_packets s) (s_rx_bytes s) (s_endpoint_mismatch_packets s) x (s_transition_rx_packets s) (last_tx_ordinal s) (last_rx_ordinal s) (last_tx_sequence s) (last_rx_sequence s) (s_duplicate_sequence_packets s) (s_reordered_sequence_packets s) (s_sequence_gap_events s).
Definition set_s_transition_rx_packets (x : Z) (s : SessionStats) : SessionStats :=
  mkSessionStats (s_tx_packets s) (s_tx_bytes s) (s_rx_packets s) (s_rx_bytes s) (s_endpoint_mismatch_packets s) (s_dropped_packets s) x (last_tx_ordinal s) (last_rx_ordinal s) (last_tx_sequence s) (last_rx_sequence s) (s_duplicate_sequence_packets s) (s_reordered_sequence_packets s) (s_sequence_gap_events s).
Definition set_last_tx_ordinal (x : Z) (s : SessionStats) : SessionStats :=
  mkSessionStats (s_tx_packets s) (s_tx_bytes s) (s_rx_packets s) (s_rx_bytes s) (s_endpoint_mismatch_packets s) (s_dropped_packets s) (s_transition_rx_packets s) x (last_rx_ordinal s) (last_tx_sequence s) (last_rx_sequence s) (s_duplicate_sequence_packets s) (s_reordered_sequence_packets s) (s_sequence_gap_events s).
Definition set_last_rx_ordinal (x : Z) (s : SessionStats) : SessionStats :=
  mkSessionStats (s_tx_packets s) (s_tx_bytes s) (s_rx_packets s) (s_rx_bytes s) (s_endpoint_mismatch_packets s) (s_dropped_packets s) (s_transition_rx_packets s) (last_tx_ordinal s) x (last_tx_sequence s) (last_rx_sequence s) (s_duplicate_sequence_packets s) (s_reordered_sequence_packets s) (s_sequence_gap_events s).
Definition set_last_tx_sequence (x : option Z) (s : SessionStats) : SessionStats :=
  mkSessionStats (s_tx_packets s) (s_tx_bytes s) (s_rx_packets s) (s_rx_bytes s) (s_endpoint_mismatch_packets s) (s_dropped_packets s) (s_transition_rx_packets s) (last_tx_ordinal s) (last_rx_ordinal s) x (last_rx_sequence s) (s_duplicate_sequence_packets s) (s_reordered_sequence_packets s) (s_sequence_gap_events s).
Definition set_last_rx_sequence (x : option Z) (s : SessionStats) : SessionStats :=
  mkSessionStats (s_tx_packets s) (s_tx_bytes s) (s_rx_packets s) (s_rx_bytes s) (s_endpoint_mismatch_packets s) (s_dropped_packets s) (s_transition_rx_packets s) (last_tx_ordinal s) (last_rx_ordinal s) (last_tx_sequence s) x (s_duplicate_sequence_packets s) (s_reordered_sequence_packets s) (s_sequence_gap_events s).
Definition set_s_duplicate_sequence_packets (x : Z) (s : SessionStats) : SessionStats :=
  mkSessionStats (s_tx_packets s) (s_tx_bytes s) (s_rx_packets s) (s_rx_bytes s) (s_endpoint_mismatch_packets s) (s_dropped_packets s) (s_transition_rx_packets s) (last_tx_ordinal s) (last_rx_ordinal s) (last_tx_sequence s) (last_rx_sequence s) x (s_reordered_sequence_packets s) (s_sequence_gap_events s).
Definition set_s_reordered_sequence_packets (x : Z) (s : SessionStats) : SessionStats :=
  mkSessionStats (s_tx_packets s) (s_tx_bytes s) (s_rx_packets s) (s_rx_bytes s) (s_endpoint_mismatch_packets s) (s_dropped_packets s) (s_transition_rx_packets s) (last_tx_ordinal s) (last_rx_ordinal s) (last_tx_sequence s) (last_rx_sequence s) (s_duplicate_sequence_packets s) x (s_sequence_gap_events s).
Definition set_s_sequence_gap_events (x : Z) (s : SessionStats) : SessionStats :=
  mkSessionStats (s_tx_packets s) (s_tx_bytes s) (s_rx_packets s) (s_rx_bytes s) (s_endpoint_mismatch_packets s) (s_dropped_packets s) (s_transition_rx_packets s) (last_tx_ordinal s) (last_rx_ordinal s) (last_tx_sequence s) (last_rx_sequence s) (s_duplicate_sequence_packets s) (s_reordered_sequence_packets s) x.

(** [field += n] *)
Definition bump {R} (get : R → Z) (set : Z → R → R) (n : Z) (r : R) : R := set (get r + n) r.
Abbreviation count get set := (bump get set 1).
Definition on_stats (f : BearerStats → BearerStats) (t : BearerTable) : BearerTable := set_stats (f (stats t)) t.
Definition on_entry_stats (f : SessionStats → SessionStats) (e : SessionEntry) : SessionEntry := set_entry_stats (f (entry_stats e)) e.
Definition put_entry (id : Z) (e : SessionEntry) (t : BearerTable) : BearerTable := set_sessions (<[id := e]> (sessions t)) t.

(** ** The table *)
Definition session_count (t : BearerTable) : nat := size (sessions t).
Definition has_session (id : Z) (t : BearerTable) : bool := bool_decide (is_Some (sessions t !! id)).

Definition validate_session (s : BearerSession) : result Error unit :=
  ensure (has_matching_address_family (endpoint s)) (AddressFamilyMismatch (session_id s)).
Definition reserve_inbound_key (key : Z) (id : option Z) (t : BearerTable) : result Error unit :=
  match inbound_key_index t !! key with
  | Some existing => if decide (Some existing ≠ id) then Err (DuplicateInboundSessionKey key) else Ok tt
  | None => Ok tt
  end.

Definition same_binding (a b : BearerSession) : bool :=
  bool_decide (endpoint a = endpoint b) && bool_decide (profile a = profile b) &&
  (inbound_session_key a =? inbound_session_key b) && (outbound_session_key a =? outbound_session_key b).

Definition apply_session (s : BearerSession) (t : BearerTable) : BearerTable * result Error ApplySessionOutcome :=
  match validate_session s with
  | Err e => (t, Err e)
  | Ok _ =>
  match reserve_inbound_key (inbound_session_key s) (Some (session_id s)) t with
  | Err e => (t, Err e)
  | Ok _ =>
      match sessions t !! session_id s with
      | None =>
          let t := put_entry (session_id s) (mkEntry s SessionStats_default None 1 1 0) t in
          let t := set_inbound_key_index (<[inbound_session_key s := session_id s]> (inbound_key_index t)) t in
          let t := on_stats (count sessions_created set_sessions_created) t in
          (on_stats (set_active_sessions (Z.of_nat (size (sessions t)))) t, Ok Created)
      | Some existing =>
          if same_binding (session existing) s then (t, Ok ApplyUnchanged)
          else if bool_decide (is_Some (transition existing)) then (t, Err (TransitionInProgress (session_id s)))
          else
            let old := session existing in
            let t := if inbound_session_key old =? inbound_session_key s then t
                     else set_inbound_key_index
                            (<[inbound_session_key s := session_id s]> (delete (inbound_session_key old) (inbound_key_index t))) t in
            let t := put_entry (session_id s) (set_transition None (set_session s existing)) t in
            (on_stats (λ st, count sessions_dormant_rebound set_sessions_dormant_rebound
                               (count sessions_rebound set_sessions_rebound st)) t,
             Ok (ApplyRebound (endpoint old) (inbound_session_key old) (outbound_session_key old) (profile old)))
      end
  end
  end.

Definition create_session (s : BearerSession) (t : BearerTable) : BearerTable * result Error unit :=
  if has_session (session_id s) t then (t, Err (DuplicateSession (session_id s)))
  else
    let '(t, r) := apply_session s t in
    (t, match r with Ok _ => Ok tt | Err e => Err e end).

Definition rebind_session_with_mode (id : Z) (e : BearerEndpoint) (m : RebindMode) (t : BearerTable)
    : BearerTable * result Error RebindOutcome :=
  match sessions t !! id with
  | None => (t, Err (UnknownSession id))
  | Some existing =>
      if negb (has_matching_address_family e) then (t, Err (AddressFamilyMismatch id))
      else if decide (endpoint (session existing) = e) then (t, Ok RebindUnchanged)
      else if bool_decide (is_Some (transition existing)) then (t, Err (TransitionInProgress id))
      else
        let previous := endpoint (session existing) in
        let existing := set_session (set_endpoint e (session existing)) existing in
        let existing := set_transition (match m with
                                        | DormantResume => None
                                        | Mobility | HardHandoff => Some (mkTransition m previous)
                                        end) existing in
        let t := put_entry id existing t in
        let t := on_stats (λ st, let st := count sessions_rebound set_sessions_rebound st in
                                 match m with
                                 | DormantResume => count sessions_dormant_rebound set_sessions_dormant_rebound st
                                 | Mobility => count sessions_mobility_rebound set_sessions_mobility_rebound st
                                 | HardHandoff => count sessions_hard_handoff_rebound set_sessions_hard_handoff_rebound st
                                 end) t in
        (t, Ok (Rebound previous m))
  end.
Definition rebind_session (id : Z) (e : BearerEndpoint) (t : BearerTable) : BearerTable * result Error unit :=
  let '(t, r) := rebind_session_with_mode id e DormantResume t in
  (t, match r with Ok _ => Ok tt | Err e => Err e end).

Definition finalize_rebind (id : Z) (t : BearerTable) : BearerTable * result Error bool :=
  match sessions t !! id with
  | None => (t, Err (UnknownSession id))
  | Some existing =>
      let had_transition := bool_decide (is_Some (transition existing)) in
      let t := put_entry id (set_transition None existing) t in
      (if had_transition then on_stats (count transitions_completed set_transitions_completed) t else t, Ok had_transition)
  end.

Definition remove_session_if_present (id : Z) (t : BearerTable) : BearerTable * option BearerSession :=
  match sessions t !! id with
  | None => (t, None)
  | Some entry =>
      let t := set_sessions (delete id (sessions t)) t in
      let t := set_inbound_key_index (filter (λ p, p.2 ≠ id) (inbound_key_index t)) t in
      let t := on_stats (count sessions_removed set_sessions_removed) t in
      (on_stats (set_active_sessions (Z.of_nat (size (sessions t)))) t, Some (session entry))
  end.
Definition remove_session (id : Z) (t : BearerTable) : BearerTable * result Error BearerSession :=
  let '(t, r) := remove_session_if_present id t in
  (t, match r with Some s => Ok s | None => Err (UnknownSession id) end).

Definition add_inbound_key_alias (id key : Z) (t : BearerTable) : BearerTable * result Error unit :=
  if negb (has_session id t) then (t, Err (UnknownSession id))
  else
    match inbound_key_index t !! key with
    | Some existing => (t, if existing =? id then Ok tt else Err (DuplicateInboundSessionKey key))
    | None => (set_inbound_key_index (<[key := id]> (inbound_key_index t)) t, Ok tt)
    end.

Definition lookup_session (id : Z) (t : BearerTable) : option BearerSession := session <$> sessions t !! id.
Definition session_snapshot (id : Z) (t : BearerTable) : option (BearerSession * SessionStats * option SessionTransition) :=
  (λ e, (session e, entry_stats e, transition e)) <$> sessions t !! id.

(** ** Packets *)
Definition build_outbound_packet (id : Z) (payload : list Z) (t : BearerTable) : BearerTable * result Error OutboundPacket :=
  match sessions t !! id with
  | None => (t, Err (UnknownSession id))
  | Some entry =>
      let '(gre_sequence, entry) :=
        match sequencing (profile (session entry)) with
        | Unsequenced => (None, entry)
        | Required => (Some (next_tx_sequence entry), set_next_tx_sequence (wrapping_add 32 (next_tx_sequence entry) 1) entry)
        end in
      let gre_key := outbound_session_key (session entry) in
      match encode (mkGre true (bool_decide (is_Some gre_sequence)) (protocol_u16 (profile_protocol (profile (session entry))))
                      (Some gre_key) gre_sequence payload) with
      | Err e => (put_entry id entry t, Err e)
      | Ok wire =>
          let ordinal := next_tx_ordinal entry in
          let n := Z.of_nat (length payload) in
          let entry := count next_tx_ordinal set_next_tx_ordinal entry in
          let t := on_stats (λ st, bump tx_bytes set_tx_bytes n (count tx_packets set_tx_packets st)) t in
          let entry := on_entry_stats (λ st, set_last_tx_sequence gre_sequence (set_last_tx_ordinal ordinal
                         (bump s_tx_bytes set_s_tx_bytes n (count s_tx_packets set_s_tx_packets st)))) entry in
          (put_entry id entry t,
           Ok (mkOutbound id gre_key (endpoint (session entry)) ordinal gre_sequence (length payload) wire))
      end
  end.
Definition encode_for_session (id : Z) (payload : list Z) (t : BearerTable) : BearerTable * result Error (list Z) :=
  let '(t, r) := build_outbound_packet id payload t in
  (t, match r with Ok p => Ok (wire_bytes p) | Err e => Err e end).

(** How a sequence number compares with the last one: duplicate, reordered, gap. *)
Inductive SequenceEvent := InOrder | Duplicate | Reordered | SequenceGap.
Definition sequence_event (sequence : Z) (last : option Z) : SequenceEvent :=
  match last with
  | None => InOrder
  | Some last_sequence =>
      let delta := wrapping_sub 32 sequence last_sequence in
      if delta =? 0 then Duplicate
      else if negb (Z.land delta 0x80000000 =? 0) then Reordered
      else if 1 <? delta then SequenceGap else InOrder
  end.
Definition note_sequence (ev : SequenceEvent) (st : BearerStats) : BearerStats :=
  match ev with
  | InOrder => st
  | Duplicate => count duplicate_sequence_packets set_duplicate_sequence_packets st
  | Reordered => count reordered_sequence_packets set_reordered_sequence_packets st
  | SequenceGap => count sequence_gap_events set_sequence_gap_events st
  end.
Definition note_session_sequence (ev : SequenceEvent) (st : SessionStats) : SessionStats :=
  match ev with
  | InOrder => st
  | Duplicate => count s_duplicate_sequence_packets set_s_duplicate_sequence_packets st
  | Reordered => count s_reordered_sequence_packets set_s_reordered_sequence_packets st
  | SequenceGap => count s_sequence_gap_events set_s_sequence_gap_events st
  end.

Definition accepts_endpoint (e : BearerEndpoint) (entry : SessionEntry) : bool :=
  bool_decide (endpoint (session entry) = e) ||
  match transition entry with Some tr => bool_decide (previous_endpoint tr = e) | None => false end.

(** Sequence accounting of an accepted packet. *)
Definition account_sequence (gre_sequence : option Z) (t : BearerTable) (entry : SessionEntry) : BearerTable * SessionEntry :=
  match gre_sequence with
  | Some sequence =>
      let ev := sequence_event sequence (last_rx_sequence (entry_stats entry)) in
      (on_stats (note_sequence ev) t,
       on_entry_stats (λ st, set_last_rx_sequence (Some sequence) (note_session_sequence ev st)) entry)
  | None => (t, entry)
  end.
(** A packet from the draining endpoint is counted, one from the new endpoint ends a hard handoff. *)
Definition settle_transition (e : BearerEndpoint) (t : BearerTable) (entry : SessionEntry) : BearerTable * SessionEntry :=
  match transition entry with
  | Some tr =>
      if decide (e = previous_endpoint tr) then
        (on_stats (count transition_rx_packets set_transition_rx_packets) t,
         on_entry_stats (count s_transition_rx_packets set_s_transition_rx_packets) entry)
      else if decide (mode tr = HardHandoff) then
        (on_stats (count transitions_completed set_transitions_completed) t, set_transition None entry)
      else (t, entry)
  | None => (t, entry)
  end.
(** The packet is accepted: sequence accounting, counters, the end of a hard handoff. *)
Definition accept_packet (id key : Z) (e : BearerEndpoint) (gre_sequence : option Z) (data : list Z) (entry : SessionEntry)
    (t : BearerTable) : BearerTable * result Error InboundPacket :=
  let '(t, entry) := account_sequence gre_sequence t entry in
  let n := Z.of_nat (length data) in
  let t := on_stats (λ st, bump rx_bytes set_rx_bytes n (count rx_packets set_rx_packets st)) t in
  let entry := on_entry_stats (λ st, bump s_rx_bytes set_s_rx_bytes n (count s_rx_packets set_s_rx_packets st)) entry in
  let ordinal := next_rx_ordinal entry in
  let entry := count next_rx_ordinal set_next_rx_ordinal entry in
  let entry := on_entry_stats (set_last_rx_ordinal ordinal) entry in
  let '(t, entry) := settle_transition e t entry in
  (put_entry id entry t, Ok (mkInbound id key e ordinal gre_sequence data)).

Definition decode_for_session (e : BearerEndpoint) (input : list Z) (t : BearerTable)
    : rust (BearerTable * result Error InboundPacket) :=
  let malformed := on_stats (count malformed_packets set_malformed_packets) t in
  let unknown := on_stats (count unknown_session_packets set_unknown_session_packets) t in
  r ← decode input;
  Some match r with
  | Err error => (malformed, Err error)
  | Ok packet =>
      match key packet with
      | None => (malformed, Err MissingSessionKey)
      | Some inbound_key =>
          match inbound_key_index t !! inbound_key with
          | None => (unknown, Err (UnknownInboundSessionKey inbound_key))
          | Some id =>
              match sessions t !! id with
              | None => (unknown, Err (UnknownInboundSessionKey inbound_key))
              | Some entry =>
                  if negb (protocol_type packet =? protocol_u16 (profile_protocol (profile (session entry)))) then
                    (malformed, Err (InvalidProtocolType (protocol_type packet)))
                  else if decide (sequencing (profile (session entry)) = Required ∧ sequence_number packet = None) then
                    (malformed, Err MissingSequenceNumber)
                  else if negb (accepts_endpoint e entry) then
                    let t := on_stats (λ st, count endpoint_mismatch_packets set_endpoint_mismatch_packets
                                               (count dropped_packets set_dropped_packets st)) t in
                    let entry := on_entry_stats (λ st, count s_endpoint_mismatch_packets set_s_endpoint_mismatch_packets
                                                         (count s_dropped_packets set_s_dropped_packets st)) entry in
                    (put_entry id entry t, Err (EndpointMismatch id))
                  else accept_packet id inbound_key e (sequence_number packet) (payload packet) entry t
              end
          end
      end
  end.

End A8.
