(* ===== verification/A8Proofs.v ===== *)
(** * Correctness of the A8 user plane

    The GRE codec is a bijection between well-formed packets and accepted octet strings; the
    bearer table keeps its indices consistent under every operation; a received packet
    reaches the session that owns its key and no other; two tables whose sessions mirror each
    other carry any interleaving of payloads in order. *)
From S2P Require Import Prelude Octets A8Bearer.
Import A8.

(** ** The GRE codec *)
Definition gre_wf (p : GrePacket) : Prop :=
  is_u16 (protocol_type p) ∧ key_present p = bool_decide (is_Some (key p)) ∧
  sequence_present p = bool_decide (is_Some (sequence_number p)).

(** The GRE header a well-formed packet is written with. *)
Definition gre_flags (k s : bool) : Z := Z.lor (if k then GRE_KEY_FLAG else 0) (if s then GRE_SEQUENCE_FLAG else 0).
Definition field32 (o : option Z) : list Z := default [] (to_be32 <$> o).

Lemma gre_encode_wf p :
  gre_wf p →
  encode p = Ok (to_be16 (gre_flags (key_present p) (sequence_present p)) ++ to_be16 (protocol_type p) ++
                 field32 (key p) ++ field32 (sequence_number p) ++ payload p).
Proof.
  destruct p as [kp sp pt k s pl]. intros (_ & Hk & Hs). cbn in *. subst kp sp.
  destruct k, s; unfold encode; cbn; reflexivity.
Qed.

Lemma optional_u32_field (o : option Z) pre rest i :
  i = length pre →
  optional_u32 (bool_decide (is_Some o)) (pre ++ field32 o ++ rest) i = Some (Ok (o, length (pre ++ field32 o))).
Proof.
  intros ->. unfold optional_u32. unfold field32. destruct o as [v|]; cbn [fmap option_fmap option_map from_option id].
  - rewrite bool_decide_eq_true_2 by eauto.
    rewrite decide_False by (rewrite !length_app, length_to_be32; lia).
    rewrite be32_at_app, bind_some by done. by rewrite length_app, length_to_be32.
  - rewrite bool_decide_eq_false_2 by (intros [? ?]; done). cbn. by rewrite length_app, Nat.add_0_r.
Qed.

Lemma gre_flags_facts k s :
  is_u16 (gre_flags k s) ∧
  Z.land (gre_flags k s) (bit_not 16 (Z.lor GRE_KEY_FLAG GRE_SEQUENCE_FLAG)) = 0 ∧
  negb (Z.land (gre_flags k s) GRE_KEY_FLAG =? 0) = k ∧ negb (Z.land (gre_flags k s) GRE_SEQUENCE_FLAG =? 0) = s.
Proof. destruct k, s; (split; [vm_compute; split; congruence | split_and!; reflexivity]). Qed.

Lemma gre_decode_encode p w : gre_wf p → encode p = Ok w → decode w = Some (Ok p).
Proof.
  intros Hwf Hw. rewrite (gre_encode_wf p Hwf) in Hw. apply Ok_inj in Hw. subst w. destruct Hwf as (Hpt & Hk & Hs).
  destruct (gre_flags_facts (key_present p) (sequence_present p)) as (Hu & Hz & Hfk & Hfs).
  set (fl := gre_flags _ _) in *. unfold decode.
  rewrite decide_False by (cbn; lia).
  set (rest := to_be16 (protocol_type p) ++ _).
  rewrite (be16_at_app [] rest fl 0 eq_refl Hu : be16_at (to_be16 fl ++ rest) 0 = _), bind_some, Hz. unfold rest. cbn [Z.eqb negb].
  rewrite Hfk, Hfs, (be16_at_app (to_be16 fl) _ (protocol_type p) 2), bind_some by done.
  rewrite (app_assoc (to_be16 fl)), Hk, (optional_u32_field (key p) (to_be16 fl ++ _) _ 4), and_then_ok by done.
  rewrite (app_assoc _ (field32 (key p))), Hs, optional_u32_field, and_then_ok by done.
  rewrite (app_assoc _ (field32 (sequence_number p))), slice_from_app, bind_some by done.
  rewrite <- Hk, <- Hs. by destruct p.
Qed.

(** Every input decodes or is refused, and what decodes is well formed. *)
Lemma optional_u32_total b input i :
  (i ≤ length input)%nat →
  yields (λ '(o, j), b = bool_decide (is_Some o) ∧ (j ≤ length input)%nat ∧
                     (bytes input → drop i input = field32 o ++ drop j input))
         (optional_u32 b input i).
Proof.
  intros Hi. unfold optional_u32. destruct b; [|cbn; auto].
  destruct (decide _); [done|]. destruct (be32_at_drop input i) as (v & -> & Hv); [lia|]. cbn.
  split_and!; [done|lia|]. intros Hb. by apply Hv.
Qed.

Lemma gre_flags_only f :
  is_u16 f → Z.land f (bit_not 16 (Z.lor GRE_KEY_FLAG GRE_SEQUENCE_FLAG)) = 0 →
  f = gre_flags (negb (Z.land f GRE_KEY_FLAG =? 0)) (negb (Z.land f GRE_SEQUENCE_FLAG =? 0)).
Proof.
  intros Hf Hz. assert (is_u8 (f / 256) ∧ is_u8 (f mod 256)) as [Hhi Hlo] by (unfold is_u in *; zdiv).
  set (ok f := implb (Z.land f (bit_not 16 (Z.lor GRE_KEY_FLAG GRE_SEQUENCE_FLAG)) =? 0)
                 (f =? gre_flags (negb (Z.land f GRE_KEY_FLAG =? 0)) (negb (Z.land f GRE_SEQUENCE_FLAG =? 0)))).
  assert (all_u8 (λ a, all_u8 (λ b, ok (from_be16 a b))) = true) as Hall by (vm_compute; reflexivity).
  pose proof (all_u8_spec _ (f / 256) Hall Hhi) as Hrow. cbv beta in Hrow.
  pose proof (all_u8_spec _ (f mod 256) Hrow Hlo) as Hok. cbv beta in Hok.
  rewrite split_u16 in Hok by done. unfold ok in Hok. rewrite Hz in Hok. cbn in Hok. by apply Z.eqb_eq.
Qed.

Lemma gre_decode_total w :
  yields (λ p, bytes w → gre_wf p ∧ encode p = Ok w) (decode w).
Proof.
  unfold decode. destruct (decide _) as [|Hlen]; [done|].
  apply yields_read with (R := λ f, bytes w → is_u16 f ∧ w = to_be16 f ++ drop 2 w).
  { destruct (be16_at_drop w 0) as (v & ? & Hv); [lia|]. rewrite drop_0 in Hv. eauto. }
  intros f Hf. destruct (Z.land f _ =? 0) eqn:Hz; cbn [negb]; [|done].
  apply yields_read with (R := λ p, bytes w → is_u16 p ∧ drop 2 w = to_be16 p ++ drop 4 w).
  { destruct (be16_at_drop w 2) as (v & ? & Hv); [lia|]. eauto. }
  intros pt Hpt. eapply yields_and_then; [apply optional_u32_total; lia|]. intros [k o1] (Hk & Ho1 & Hd1).
  eapply yields_and_then; [apply optional_u32_total; lia|]. intros [s o2] (Hs & Ho2 & Hd2).
  rewrite slice_from_total, bind_some by lia. cbn. intros Hb.
  destruct (Hf Hb) as [Hfu Hw]. destruct (Hpt Hb) as [Hpu Hw2].
  assert (gre_wf (mkGre (negb (Z.land f GRE_KEY_FLAG =? 0)) (negb (Z.land f GRE_SEQUENCE_FLAG =? 0)) pt k s (drop o2 w))) as Hwf
    by done.
  split; [done|]. rewrite (gre_encode_wf _ Hwf). cbn [key_present sequence_present protocol_type key sequence_number payload].
  rewrite <- gre_flags_only by (done || by apply Z.eqb_eq).
  by rewrite <- Hd2, <- Hd1, <- Hw2, <- Hw by done.
Qed.

(** The GRE codec is a bijection: a well-formed packet is encoded and decodes to itself, every octet string is decoded
    or refused without panic, and a string that is decoded is the encoding of the well-formed packet it decodes to, so no
    two wire images mean the same packet. *)
Theorem gre_codec_bijective :
  (∀ p, gre_wf p → ∃ w, encode p = Ok w ∧ decode w = Some (Ok p)) ∧
  (∀ w, bytes w → match decode w with
                  | Some (Ok p) => gre_wf p ∧ encode p = Ok w
                  | Some (Err _) => True
                  | None => False
                  end).
Proof.
  split.
  - intros p Hp. eexists. split; [by apply gre_encode_wf|]. by eapply gre_decode_encode; [|apply gre_encode_wf].
  - intros w Hw. pose proof (gre_decode_total w) as H. destruct (decode w) as [[p|e]|]; cbn in *; auto.
Qed.

(** ** The table invariant *)
Record entry_ok (id : Z) (e : SessionEntry) : Prop := {
  ok_id : session_id (session e) = id;
  ok_family : has_matching_address_family (endpoint (session e)) = true;
  ok_transition : ∀ tr, transition e = Some tr →
    mode tr ≠ DormantResume ∧ previous_endpoint tr ≠ endpoint (session e) ∧
    has_matching_address_family (previous_endpoint tr) = true;
  ok_sequence : is_u32 (next_tx_sequence e)
}.
(** What the counters say of a table with [n] sessions. *)
Record counts_ok (n : nat) (st : BearerStats) : Prop := {
  ok_active : active_sessions st = Z.of_nat n;
  ok_created : sessions_created st - sessions_removed st = Z.of_nat n;
  ok_rebound : sessions_rebound st =
    sessions_dormant_rebound st + sessions_mobility_rebound st + sessions_hard_handoff_rebound st
}.
Record table_inv (t : BearerTable) : Prop := {
  inv_index : ∀ key id, inbound_key_index t !! key = Some id → is_Some (sessions t !! id);
  inv_own : ∀ id e, sessions t !! id = Some e → inbound_key_index t !! inbound_session_key (session e) = Some id;
  inv_entry : ∀ id e, sessions t !! id = Some e → entry_ok id e;
  inv_counts : counts_ok (size (sessions t)) (stats t)
}.

Inductive TableOp :=
| OpApply (s : BearerSession)
| OpCreate (s : BearerSession)
| OpRebind (id : Z) (e : BearerEndpoint) (m : RebindMode)
| OpFinalize (id : Z)
| OpRemove (id : Z)
| OpAlias (id key : Z)
| OpSend (id : Z) (payload : list Z)
| OpReceive (e : BearerEndpoint) (input : list Z).

Definition table_step (o : TableOp) (t : BearerTable) : rust BearerTable :=
  match o with
  | OpApply s => Some (apply_session s t).1
  | OpCreate s => Some (create_session s t).1
  | OpRebind id e m => Some (rebind_session_with_mode id e m t).1
  | OpFinalize id => Some (finalize_rebind id t).1
  | OpRemove id => Some (remove_session_if_present id t).1
  | OpAlias id key => Some (add_inbound_key_alias id key t).1
  | OpSend id data => Some (build_outbound_packet id data t).1
  | OpReceive e input => '(t, _) ← decode_for_session e input t; Some t
  end.
Fixpoint table_run (ops : list TableOp) (t : BearerTable) : rust BearerTable :=
  match ops with [] => Some t | o :: ops => t ← table_step o t; table_run ops t end.

Lemma on_stats_inv f t :
  table_inv t → counts_ok (size (sessions t)) (f (stats t)) → table_inv (on_stats f t).
Proof. intros [] Hc. by split. Qed.

Lemma put_entry_inv id e e' t :
  table_inv t → sessions t !! id = Some e → inbound_session_key (session e') = inbound_session_key (session e) →
  entry_ok id e' → table_inv (put_entry id e' t).
Proof.
  intros [Hi Ho He Hc] Hid Hk Hok. split; cbn.
  - intros k j Hj. rewrite lookup_insert_is_Some'. right. eauto.
  - intros j x Hj. apply lookup_insert_Some in Hj as [[<- <-]|[_ Hj]]; [rewrite Hk|]; eauto.
  - intros j x Hj. apply lookup_insert_Some in Hj as [[<- <-]|[_ Hj]]; eauto.
  - rewrite map_size_insert_Some by eauto. done.
Qed.

Ltac counts := split; cbn in *; lia.

Lemma entry_ok_new s : has_matching_address_family (endpoint s) = true → entry_ok (session_id s) (mkEntry s SessionStats_default None 1 1 0).
Proof. by split. Qed.

Lemma rebind_inv id e m t : table_inv t → table_inv (rebind_session_with_mode id e m t).1.
Proof.
  intros Ht. unfold rebind_session_with_mode. destruct (sessions t !! id) as [x|] eqn:Hid; [|done].
  destruct (has_matching_address_family e) eqn:Hf; cbn [negb]; [|done]. destruct (decide _) as [|Hne]; [done|].
  case_bool_decide; [done|]. cbn [fst]. apply on_stats_inv.
  - eapply put_entry_inv; [done|done|by destruct m|]. destruct (inv_entry _ Ht _ _ Hid) as [Hi Hfa Htr Hs].
    split; cbn; [done|done| |done]. destruct m; [done|..]; intros tr [= <-]; cbn; auto.
  - cbn. rewrite map_size_insert_Some by eauto. destruct (inv_counts _ Ht). destruct m; counts.
Qed.

Lemma finalize_inv id t : table_inv t → table_inv (finalize_rebind id t).1.
Proof.
  intros Ht. unfold finalize_rebind. destruct (sessions t !! id) as [x|] eqn:Hid; [|done]. cbn [fst].
  assert (table_inv (put_entry id (set_transition None x) t)) as H.
  { eapply put_entry_inv; [done|done|done|]. destruct (inv_entry _ Ht _ _ Hid). by split. }
  case_bool_decide; [|done]. apply on_stats_inv; [done|]. destruct (inv_counts _ H). counts.
Qed.

Lemma remove_inv id t : table_inv t → table_inv (remove_session_if_present id t).1.
Proof.
  intros Ht. unfold remove_session_if_present. destruct (sessions t !! id) as [x|] eqn:Hid; [|done].
  destruct Ht as [Hi Ho He Hc]. split; cbn.
  - intros k j Hj. apply map_lookup_filter_Some in Hj as [Hj Hne]. cbn in Hne.
    rewrite lookup_delete_ne by done. eauto.
  - intros j y Hj. apply lookup_delete_Some in Hj as [Hne Hj]. apply map_lookup_filter_Some. eauto.
  - intros j y Hj. apply lookup_delete_Some in Hj as [Hne Hj]. eauto.
  - assert (size (sessions t) = S (size (delete id (sessions t)))) as Hsz.
    { rewrite map_size_delete_Some by eauto. enough (size (sessions t) ≠ 0)%nat by lia.
      intros Hz%map_size_empty_inv. by rewrite Hz, lookup_empty in Hid. }
    rewrite Hsz in Hc. destruct Hc. counts.
Qed.

Lemma alias_inv id k t : table_inv t → table_inv (add_inbound_key_alias id k t).1.
Proof.
  intros Ht. unfold add_inbound_key_alias, has_session. case_bool_decide as Hs; cbn [negb]; [|done].
  destruct (inbound_key_index t !! k) eqn:Hk; [done|]. destruct Ht as [Hi Ho He Hc]. split; cbn; [..|done].
  - intros j i Hj. apply lookup_insert_Some in Hj as [[<- <-]|[_ Hj]]; eauto.
  - intros j y Hj. rewrite lookup_insert_ne; [eauto|]. intros ->. apply Ho in Hj. congruence.
  - eauto.
Qed.

Lemma reserve_own k id t u :
  reserve_inbound_key k (Some id) t = Ok u → ∀ i, inbound_key_index t !! k = Some i → i = id.
Proof.
  unfold reserve_inbound_key. intros Hr i Hi. rewrite Hi in Hr. destruct (decide _) as [|Hn]; [done|].
  apply dec_stable in Hn. congruence.
Qed.

(** A session moves to another inbound key, free or already its own. *)
Lemma put_rekeyed_inv x e' k id t :
  table_inv t → sessions t !! id = Some x → inbound_session_key (session x) ≠ k → inbound_session_key (session e') = k →
  (∀ i, inbound_key_index t !! k = Some i → i = id) → entry_ok id e' →
  table_inv (put_entry id e' (set_inbound_key_index (<[k := id]> (delete (inbound_session_key (session x)) (inbound_key_index t))) t)).
Proof.
  intros [Hi Ho He Hc] Hid Hne Hk' Hown Hok. subst k. split; cbn.
  - intros k j Hj. rewrite lookup_insert_is_Some'.
    apply lookup_insert_Some in Hj as [[<- <-]|[_ Hj]]; [by left|]. apply lookup_delete_Some in Hj as [_ Hj]. eauto.
  - intros j y Hj. apply lookup_insert_Some in Hj as [[<- <-]|[Hnj Hj]]; [by rewrite lookup_insert_eq|].
    pose proof (Ho _ _ Hj) as Hy. pose proof (Ho _ _ Hid) as Hx.
    rewrite lookup_insert_ne, lookup_delete_ne; [done|intros Heq; congruence|].
    intros Heq. rewrite <- Heq in Hy. apply Hown in Hy. congruence.
  - intros j y Hj. apply lookup_insert_Some in Hj as [[<- <-]|[_ Hj]]; eauto.
  - rewrite map_size_insert_Some by eauto. done.
Qed.

Lemma apply_inv s t : table_inv t → table_inv (apply_session s t).1.
Proof.
  intros Ht. unfold apply_session, validate_session, ensure.
  destruct (has_matching_address_family (endpoint s)) eqn:Hf; [|done].
  destruct (reserve_inbound_key _ _ _) as [u|e] eqn:Hr; [|done]. pose proof (reserve_own _ _ _ _ Hr) as Hown. clear Hr.
  destruct Ht as [Hi Ho He Hc]. destruct (sessions t !! session_id s) as [x|] eqn:Hid.
  - destruct (same_binding _ _); [done|]. case_bool_decide; [done|].
    assert (entry_ok (session_id s) (set_transition None (set_session s x))) as Hok.
    { destruct (He _ _ Hid). by split. }
    cbn [fst]. apply on_stats_inv; destruct (Z.eqb_spec (inbound_session_key (session x)) (inbound_session_key s)) as [Hk|Hk].
    + by eapply put_entry_inv.
    + apply put_rekeyed_inv; auto. by split.
    + cbn. rewrite map_size_insert_Some by eauto. destruct Hc. counts.
    + cbn. rewrite map_size_insert_Some by eauto. destruct Hc. counts.
  - cbn [fst]. split; cbn.
    + intros k j Hj. rewrite lookup_insert_is_Some'. apply lookup_insert_Some in Hj as [[<- <-]|[_ Hj]]; [by left|]. eauto.
    + intros j y Hj. apply lookup_insert_Some in Hj as [[<- <-]|[Hne Hj]]; [by rewrite lookup_insert_eq|].
      pose proof (Ho _ _ Hj) as Hy. rewrite lookup_insert_ne; [done|]. intros Heq. rewrite <- Heq in Hy. apply Hown in Hy. congruence.
    + intros j y Hj. apply lookup_insert_Some in Hj as [[<- <-]|[Hne Hj]]; [by apply entry_ok_new|eauto].
    + rewrite map_size_insert_None by done. destruct Hc. counts.
Qed.

Lemma create_inv s t : table_inv t → table_inv (create_session s t).1.
Proof.
  intros Ht. unfold create_session. destruct (has_session _ _); [done|].
  pose proof (apply_inv s t Ht). by destruct (apply_session s t).
Qed.

(** ** What sending does *)
(** The sequence number a session writes next, and the one after it. *)
Definition tx_sequence (x : SessionEntry) : option Z :=
  match sequencing (profile (session x)) with Unsequenced => None | Required => Some (next_tx_sequence x) end.
Definition seq_succ (x : SessionEntry) : Z :=
  match sequencing (profile (session x)) with
  | Unsequenced => next_tx_sequence x
  | Required => wrapping_add 32 (next_tx_sequence x) 1
  end.
Definition wire_packet (x : SessionEntry) (data : list Z) : GrePacket :=
  mkGre true (bool_decide (is_Some (tx_sequence x))) (protocol_u16 (profile_protocol (profile (session x))))
    (Some (outbound_session_key (session x))) (tx_sequence x) data.

Lemma wire_packet_wf x data : gre_wf (wire_packet x data).
Proof.
  split; [|done]. cbn. destruct (profile_protocol _); vm_compute; split; congruence.
Qed.

Lemma send_spec id data t x :
  sessions t !! id = Some x →
  ∃ t' x' o,
    build_outbound_packet id data t = (t', Ok o) ∧
    sessions t' = <[id := x']> (sessions t) ∧ inbound_key_index t' = inbound_key_index t ∧
    (counts_ok (size (sessions t)) (stats t) → counts_ok (size (sessions t)) (stats t')) ∧
    session x' = session x ∧ transition x' = transition x ∧ next_tx_sequence x' = seq_succ x ∧
    next_rx_ordinal x' = next_rx_ordinal x ∧ last_rx_sequence (entry_stats x') = last_rx_sequence (entry_stats x) ∧
    out_session_id o = id ∧ out_endpoint o = endpoint (session x) ∧ tx_ordinal o = next_tx_ordinal x ∧
    decode (wire_bytes o) = Some (Ok (wire_packet x data)).
Proof.
  intros Hid. unfold build_outbound_packet, tx_sequence, seq_succ. rewrite Hid.
  pose proof (gre_encode_wf _ (wire_packet_wf x data)) as He.
  pose proof (gre_decode_encode _ _ (wire_packet_wf x data) He) as Hd.
  destruct (sequencing (profile (session x))) eqn:Hs.
  - assert (wire_packet x data = mkGre true (bool_decide (is_Some (@None Z))) (protocol_u16 (profile_protocol (profile (session x))))
              (Some (outbound_session_key (session x))) None data) as Hp by (unfold wire_packet, tx_sequence; by rewrite Hs).
    rewrite <- Hp, He. do 3 eexists. split; [reflexivity|]. cbn. split_and!; try done. intros []. by split.
  - set (y := set_next_tx_sequence _ x).
    assert (wire_packet x data = mkGre true (bool_decide (is_Some (Some (next_tx_sequence x))))
              (protocol_u16 (profile_protocol (profile (session y))))
              (Some (outbound_session_key (session y))) (Some (next_tx_sequence x)) data) as Hp
      by (unfold wire_packet, tx_sequence; by rewrite Hs).
    rewrite <- Hp, He. do 3 eexists. split; [reflexivity|]. cbn. split_and!; try done. intros []. by split.
Qed.

Lemma seq_succ_u32 x : is_u32 (next_tx_sequence x) → is_u32 (seq_succ x).
Proof. intros. unfold seq_succ. destruct (sequencing _); [done|]. by apply is_u_wrap. Qed.

Lemma send_inv id data t : table_inv t → table_inv (build_outbound_packet id data t).1.
Proof.
  intros Ht. destruct (sessions t !! id) as [x|] eqn:Hid.
  - destruct (send_spec id data t x Hid) as (t' & x' & o & -> & Hs & Hx & Hc & Hses & Htr & Hsq & _). cbn.
    destruct (inv_entry _ Ht _ _ Hid) as [Hi Hf Hok Hu].
    assert (entry_ok id x') as He'.
    { split; rewrite ?Hses, ?Htr, ?Hsq; auto using seq_succ_u32. }
    destruct (put_entry_inv id x x' t Ht Hid ltac:(by rewrite Hses) He') as [A B C D]. cbn in A, B, C, D.
    rewrite map_size_insert_Some in D by eauto.
    split; rewrite ?Hs, ?Hx; auto. rewrite map_size_insert_Some by eauto. auto.
  - unfold build_outbound_packet. by rewrite Hid.
Qed.

(** ** What receiving does *)
Definition after_accept (e : BearerEndpoint) (x : SessionEntry) : option SessionTransition :=
  match transition x with
  | Some tr => if decide (e ≠ previous_endpoint tr ∧ mode tr = HardHandoff) then None else Some tr
  | None => None
  end.

(** The three anomalies counted for a session. *)
Definition anomalies (st : SessionStats) : Z * Z * Z :=
  (s_duplicate_sequence_packets st, s_reordered_sequence_packets st, s_sequence_gap_events st).

(** [t'] differs from [t] in counters that say nothing of how many sessions there are. *)
Definition same_bindings (t t' : BearerTable) : Prop :=
  sessions t' = sessions t ∧ inbound_key_index t' = inbound_key_index t ∧
  ∀ n, counts_ok n (stats t) → counts_ok n (stats t').
(** The entry keeps its binding and what it sends. *)
Definition same_sender (x x' : SessionEntry) : Prop :=
  session x' = session x ∧ next_tx_sequence x' = next_tx_sequence x.

Ltac same_entry := unfold same_bindings, same_sender; do 2 eexists; split; [done|]; split_and!; cbn; try done; intros ? []; by split.

Lemma account_spec seq t x :
  ∃ t' x', account_sequence seq t x = (t', x') ∧ same_bindings t t' ∧ same_sender x x' ∧
    transition x' = transition x ∧ next_rx_ordinal x' = next_rx_ordinal x ∧
    last_rx_sequence (entry_stats x') = match seq with Some s => Some s | None => last_rx_sequence (entry_stats x) end ∧
    (match seq with Some s => sequence_event s (last_rx_sequence (entry_stats x)) = InOrder | None => True end →
     anomalies (entry_stats x') = anomalies (entry_stats x)).
Proof.
  unfold account_sequence. destruct seq as [s|]; [destruct (sequence_event s _)|]; same_entry.
Qed.

Lemma settle_spec e t x :
  ∃ t' x', settle_transition e t x = (t', x') ∧ same_bindings t t' ∧ same_sender x x' ∧
    transition x' = after_accept e x ∧ next_rx_ordinal x' = next_rx_ordinal x ∧
    last_rx_sequence (entry_stats x') = last_rx_sequence (entry_stats x) ∧ anomalies (entry_stats x') = anomalies (entry_stats x).
Proof.
  unfold settle_transition, after_accept. destruct (transition x) as [tr|] eqn:Htr.
  - destruct (decide (e = previous_endpoint tr)); [|destruct (decide (mode tr = HardHandoff))].
    + rewrite decide_False by tauto. same_entry.
    + rewrite decide_True by tauto. same_entry.
    + rewrite decide_False by tauto. same_entry.
  - same_entry.
Qed.

Lemma accept_spec id k e seq data x t :
  ∃ t' x',
    accept_packet id k e seq data x t = (put_entry id x' t', Ok (mkInbound id k e (next_rx_ordinal x) seq data)) ∧
    same_bindings t t' ∧ same_sender x x' ∧ transition x' = after_accept e x ∧ next_rx_ordinal x' = next_rx_ordinal x + 1 ∧
    last_rx_sequence (entry_stats x') = match seq with Some s => Some s | None => last_rx_sequence (entry_stats x) end ∧
    (match seq with Some s => sequence_event s (last_rx_sequence (entry_stats x)) = InOrder | None => True end →
     anomalies (entry_stats x') = anomalies (entry_stats x)).
Proof.
  unfold accept_packet.
  destruct (account_spec seq t x) as (t1 & x1 & -> & Ht1 & Hx1 & Htr1 & Ho1 & Hl1 & Ha1).
  set (t2 := on_stats _ t1). set (x2 := on_entry_stats (set_last_rx_ordinal _) _).
  destruct (settle_spec e t2 x2) as (t3 & x3 & -> & Ht3 & Hx3 & Htr3 & Ho3 & Hl3 & Ha3).
  exists t3, x3. split; [by subst x2; cbn; rewrite Ho1|].
  destruct Ht1 as (? & ? & Hc1), Ht3 as (? & ? & Hc3), Hx1, Hx3. split_and!.
  - split_and!; [etrans; eauto..|]. intros n Hn. apply Hc3. destruct (Hc1 n Hn). by split.
  - split; etrans; eauto.
  - rewrite Htr3. unfold after_accept. by subst x2; cbn; rewrite Htr1.
  - rewrite Ho3. subst x2; cbn. by rewrite Ho1.
  - by rewrite Hl3.
  - intros Hs. rewrite Ha3. by apply Ha1.
Qed.

Ltac refused :=
  do 2 eexists; split; [done|]; left; eexists; split; [done|]; split_and!; try done; intros ? []; by split.

(** The ways a received packet ends: refused, refused for its endpoint, accepted. *)
Lemma decode_for_session_cases e w t :
  ∃ t' r, decode_for_session e w t = Some (t', r) ∧
    ((∃ err, r = Err err ∧ same_bindings t t') ∨
     (∃ id x t0, sessions t !! id = Some x ∧ r = Err (EndpointMismatch id) ∧ same_bindings t t0 ∧
        ∃ st, t' = put_entry id (set_entry_stats st x) t0) ∨
     (∃ p id x k, decode w = Some (Ok p) ∧ key p = Some k ∧ inbound_key_index t !! k = Some id ∧ sessions t !! id = Some x ∧
        protocol_type p = protocol_u16 (profile_protocol (profile (session x))) ∧
        (sequencing (profile (session x)) = Required → is_Some (sequence_number p)) ∧
        accepts_endpoint e x = true ∧ (t', r) = accept_packet id k e (sequence_number p) (payload p) x t)).
Proof.
  unfold decode_for_session. pose proof (gre_decode_total w) as Hw. destruct (decode w) as [[p|err]|] eqn:Hd; [..|done]; clear Hw.
  2: refused.
  rewrite bind_some. destruct (key p) as [k|] eqn:Hk; [destruct (inbound_key_index t !! k) as [id|] eqn:Hi; [destruct (sessions t !! id) as [x|] eqn:Hx|]|].
  2-4: refused.
  destruct (Z.eqb_spec (protocol_type p) (protocol_u16 (profile_protocol (profile (session x))))) as [Hp|Hp]; cbn [negb].
  2: refused.
  destruct (decide _) as [|Hq]; [refused|].
  destruct (accepts_endpoint e x) eqn:Ha; cbn [negb].
  - destruct (accept_packet _ _ _ _ _ _ _) as [t' r] eqn:Hacc. do 2 eexists. split; [done|]. right; right.
    exists p, id, x, k. split_and!; try done. intros. destruct (sequence_number p); [eauto|]. tauto.
  - do 2 eexists. split; [done|]. right; left. do 3 eexists. split_and!; [done|done| |by eexists].
    split_and!; try done. intros ? []. by split.
Qed.

Lemma same_bindings_inv t t' : same_bindings t t' → table_inv t → table_inv t'.
Proof. intros (Hs & Hi & Hc) [A B C D]. split; rewrite ?Hs, ?Hi; auto. Qed.

Lemma after_accept_from e x tr : after_accept e x = Some tr → transition x = Some tr.
Proof. unfold after_accept. destruct (transition x) as [tr'|]; [destruct (decide _)|]; congruence. Qed.

Lemma receive_inv e w t t' r : table_inv t → decode_for_session e w t = Some (t', r) → table_inv t'.
Proof.
  intros Ht Hd. destruct (decode_for_session_cases e w t) as (t1 & r1 & Hd1 & Hc).
  rewrite Hd1 in Hd. injection Hd as -> ->.
  destruct Hc as [(err & -> & Hsb) | [(id & x & t0 & Hid & -> & Hsb & st & ->) | (p & id & x & k & _ & _ & _ & Hid & _ & _ & _ & Hacc)]].
  - by eapply same_bindings_inv.
  - pose proof (same_bindings_inv _ _ Hsb Ht). destruct Hsb as (Hs & _).
    eapply put_entry_inv; [done|by rewrite Hs|done|]. destruct (inv_entry _ Ht _ _ Hid). by split.
  - destruct (accept_spec id k e (sequence_number p) (payload p) x t) as (t2 & x2 & Heq & Hsb & [Hx2 Hq2] & Htr & _).
    rewrite Heq in Hacc. injection Hacc as -> _.
    pose proof (same_bindings_inv _ _ Hsb Ht). destruct Hsb as (Hs & _).
    eapply put_entry_inv; [done|by rewrite Hs|by rewrite Hx2|].
    destruct (inv_entry _ Ht _ _ Hid) as [Hi Hf Hok Hu]. split; rewrite ?Hx2, ?Hq2; auto.
    intros tr Htr'. rewrite Htr in Htr'. apply Hok. by eapply after_accept_from.
Qed.

Lemma table_step_inv o t : table_inv t → ∃ t', table_step o t = Some t' ∧ table_inv t'.
Proof.
  intros Ht. destruct o; cbn; try (eexists; split; [reflexivity|]);
    eauto using apply_inv, create_inv, rebind_inv, finalize_inv, remove_inv, alias_inv, send_inv.
  destruct (decode_for_session_cases e input t) as (t' & r & Hd & _). rewrite Hd. cbn. eauto using receive_inv.
Qed.

Lemma default_inv : table_inv BearerTable_default.
Proof. by split. Qed.

(** C34: Whatever sequence of session installs, rebinds, hand-offs, removals, key aliases, sends and received packets
    (any octets) a bearer table goes through, no operation panics and in the resulting table every indexed GRE key leads
    to an installed session, every session owns the key it was installed with, no session is draining toward its own
    endpoint, and the session counters equal the number of sessions. *)
Theorem a8_table_invariant ops : ∃ t, table_run ops BearerTable_default = Some t ∧ table_inv t.
Proof.
  generalize default_inv. generalize BearerTable_default as t. induction ops as [|o ops IH]; intros t Ht; [eauto|].
  destruct (table_step_inv o t Ht) as (t1 & H1 & Ht1). cbn. rewrite H1. by apply IH.
Qed.

(** Isolation of sessions: when a table accepts a packet, the packet's key was indexed to the session it is delivered
    to, the endpoint it came from is the one that session is bound to or draining from, its protocol type is the
    session's, a session that requires sequence numbers got one, the payload is what follows the GRE header, and every
    other session and the key index are left as they were. *)
Theorem a8_accepts_only_owner e w t t' i :
  bytes w → decode_for_session e w t = Some (t', Ok i) →
  ∃ x, inbound_key_index t !! in_gre_key i = Some (in_session_id i) ∧ sessions t !! in_session_id i = Some x ∧
    (endpoint (session x) = e ∨ ∃ tr, transition x = Some tr ∧ previous_endpoint tr = e) ∧
    (sequencing (profile (session x)) = Required → is_Some (in_gre_sequence i)) ∧
    encode (mkGre true (bool_decide (is_Some (in_gre_sequence i))) (protocol_u16 (profile_protocol (profile (session x))))
              (Some (in_gre_key i)) (in_gre_sequence i) (in_payload i)) = Ok w ∧
    inbound_key_index t' = inbound_key_index t ∧
    delete (in_session_id i) (sessions t') = delete (in_session_id i) (sessions t) ∧
    lookup_session (in_session_id i) t' = Some (session x).
Proof.
  intros Hb Hd. destruct (decode_for_session_cases e w t) as (t1 & r1 & Hd1 & Hc).
  rewrite Hd1 in Hd. injection Hd as -> ->.
  destruct Hc as [(err & ? & _) | [(id & x & t0 & _ & ? & _) | (p & id & x & k & Hp & Hk & Hi & Hid & Hpt & Hrq & Ha & Hacc)]]; [done..|].
  destruct (accept_spec id k e (sequence_number p) (payload p) x t) as (t2 & x2 & Heq & (Hs & Hx & _) & [Hx2 _] & _).
  rewrite Heq in Hacc. injection Hacc as -> ->. cbn. exists x.
  pose proof (gre_decode_total w) as Hw. rewrite Hp in Hw. destruct (Hw Hb) as [(_ & Hkp & Hsp) Henc].
  split_and!; try done.
  - unfold accepts_endpoint in Ha. apply orb_true_iff in Ha as [Ha|Ha]; [left; by apply bool_decide_eq_true_1 in Ha|].
    right. destruct (transition x) as [tr|]; [|done]. apply bool_decide_eq_true_1 in Ha. eauto.
  - rewrite Hk in Hkp. rewrite <- Henc, <- Hpt. destruct p; cbn in *. by subst.
  - by rewrite Hs, delete_insert_eq.
  - unfold lookup_session. cbn. rewrite lookup_insert_eq. cbn. by rewrite Hx2.
Qed.

(** ** Two tables, one on each side *)
Definition flip_endpoint (e : BearerEndpoint) : BearerEndpoint := mkEndpoint (remote_ip e) (local_ip e).

(** Session [i] of the sending table and session [j] of the receiving one are the ends of one bearer, and what the sender
    writes next follows what the receiver saw last. *)
Definition follows (next : Z) (last : option Z) : Prop :=
  is_u32 next ∧ match last with None => True | Some l => is_u32 l ∧ next = wrapping_add 32 l 1 end.
Definition linked (ta tb : BearerTable) (i j : Z) : Prop :=
  ∃ xa xb, sessions ta !! i = Some xa ∧ sessions tb !! j = Some xb ∧
    inbound_key_index tb !! outbound_session_key (session xa) = Some j ∧
    profile_protocol (profile (session xb)) = profile_protocol (profile (session xa)) ∧
    sequencing (profile (session xb)) = sequencing (profile (session xa)) ∧
    endpoint (session xb) = flip_endpoint (endpoint (session xa)) ∧
    (sequencing (profile (session xa)) = Required → follows (next_tx_sequence xa) (last_rx_sequence (entry_stats xb))).

Definition session_anomalies (j : Z) (t : BearerTable) : option (Z * Z * Z) := anomalies ∘ entry_stats <$> sessions t !! j.

(** One side sends payloads on its sessions, in any interleaving; the other receives the packets. *)
Fixpoint carry (sends : list (Z * list Z)) (ta tb : BearerTable) : rust (BearerTable * BearerTable * list (result Error InboundPacket)) :=
  match sends with
  | [] => Some (ta, tb, [])
  | (i, data) :: sends =>
      match build_outbound_packet i data ta with
      | (ta, Err e) => '(ta, tb, rs) ← carry sends ta tb; Some (ta, tb, Err e :: rs)
      | (ta, Ok o) =>
          '(tb, r) ← decode_for_session (flip_endpoint (out_endpoint o)) (wire_bytes o) tb;
          '(ta, tb, rs) ← carry sends ta tb; Some (ta, tb, r :: rs)
      end
  end.

Lemma sequence_event_next next last : follows next last → sequence_event next last = InOrder.
Proof.
  intros [Hn Hl]. unfold sequence_event. destruct last as [l|]; [|done]. destruct Hl as [Hl ->].
  replace (wrapping_sub 32 (wrapping_add 32 l 1) l) with 1; [done|].
  unfold wrapping_sub, wrapping_add, wrap, is_u in *. change (2 ^ 32) with 4294967296 in *. zdiv.
Qed.

Lemma follows_next next : is_u32 next → follows (wrapping_add 32 next 1) (Some next).
Proof. intros. split; [by apply is_u_wrap|done]. Qed.

(** One packet across a linked pair. *)
Lemma linked_hop i j ta tb data :
  linked ta tb i j →
  ∃ ta' tb' o r xa' xb',
    build_outbound_packet i data ta = (ta', Ok o) ∧
    decode_for_session (flip_endpoint (out_endpoint o)) (wire_bytes o) tb = Some (tb', Ok r) ∧
    in_session_id r = j ∧ in_payload r = data ∧
    sessions ta' = <[i := xa']> (sessions ta) ∧ sessions tb' = <[j := xb']> (sessions tb) ∧
    inbound_key_index tb' = inbound_key_index tb ∧ linked ta' tb' i j ∧ session_anomalies j tb' = session_anomalies j tb.
Proof.
  intros (xa & xb & Ha & Hb & Hk & Hp & Hq & He & Hf).
  destruct (send_spec i data ta xa Ha) as (ta' & xa' & o & Hs & Hta & _ & _ & Hxa & _ & Hsq & _ & _ & _ & Hoe & _ & Hd).
  set (seq := tx_sequence xa) in *.
  destruct (accept_spec j (outbound_session_key (session xa)) (endpoint (session xb)) seq data xb tb)
    as (t2 & xb' & Hacc & (Hs2 & Hi2 & _) & [Hxb' _] & _ & _ & Hl & Han).
  exists ta', (put_entry j xb' t2), o. do 2 eexists. exists xb'.
  assert (decode_for_session (flip_endpoint (out_endpoint o)) (wire_bytes o) tb =
          Some (accept_packet j (outbound_session_key (session xa)) (endpoint (session xb)) seq data xb tb)) as Hrx.
  { unfold decode_for_session. rewrite Hd, bind_some. cbn [key wire_packet]. rewrite Hk, Hb. cbn [protocol_type sequence_number payload].
    rewrite Hp, Z.eqb_refl. cbn [negb]. rewrite decide_False; [|intros [H1 H2]; cbn in H2; unfold seq, tx_sequence in H2; by rewrite <- Hq, H1 in H2].
    rewrite Hoe, <- He. unfold accepts_endpoint. by rewrite bool_decide_eq_true_2. }
  rewrite Hrx, Hacc. cbn. split_and!; try done; try (by rewrite Hs2).
  - exists xa', xb'. cbn. rewrite Hta, Hs2, Hi2, !lookup_insert_eq, Hxa, Hxb', Hsq, Hl. split_and!; try done.
    intros Hreq. subst seq. unfold seq_succ, tx_sequence. rewrite Hreq. apply follows_next. by destruct (Hf Hreq).
  - unfold session_anomalies. cbn. rewrite lookup_insert_eq, Hb. cbn. f_equal. apply Han. subst seq. unfold tx_sequence.
    destruct (sequencing (profile (session xa))); [done|]. by apply sequence_event_next, Hf.
Qed.

Lemma linked_other i j i' j' ta tb ta' tb' xa xb :
  linked ta tb i j → i ≠ i' → j ≠ j' → sessions ta' = <[i' := xa]> (sessions ta) → sessions tb' = <[j' := xb]> (sessions tb) →
  inbound_key_index tb' = inbound_key_index tb → linked ta' tb' i j.
Proof.
  intros (x & y & Hx & Hy & H) Hi Hj Ha Hb Hk. exists x, y. rewrite Ha, Hb, Hk, !lookup_insert_ne by done. done.
Qed.

(** C10: End-to-end user plane: when the sessions of two tables are paired (mirrored endpoints, the sender's outbound key
    indexed to the peer session, same framing), any interleaving of payloads sent on the paired sessions is delivered
    payload by payload, each to the paired session and in order, and no duplicate, reordering or gap is counted, across
    the wrap-around of the 32-bit sequence number. *)
Theorem a8_delivers (pairing : gmap Z Z) sends ta tb :
  (∀ i i' j, pairing !! i = Some j → pairing !! i' = Some j → i = i') →
  (∀ i j, pairing !! i = Some j → linked ta tb i j) →
  Forall (λ '(i, _), is_Some (pairing !! i)) sends →
  ∃ ta' tb' rs, carry sends ta tb = Some (ta', tb', rs) ∧
    Forall2 (λ '(i, data) r, ∃ p, r = Ok p ∧ pairing !! i = Some (in_session_id p) ∧ in_payload p = data) sends rs ∧
    ∀ i j, pairing !! i = Some j → linked ta' tb' i j ∧ session_anomalies j tb' = session_anomalies j tb.
Proof.
  intros Hinj. revert ta tb. induction sends as [|[i data] sends IH]; intros ta tb Hl Hs.
  - exists ta, tb, []. split_and!; [done|constructor|]. auto.
  - apply Forall_cons in Hs as [[j Hj] Hs].
    destruct (linked_hop i j ta tb data (Hl _ _ Hj)) as (ta1 & tb1 & o & r & xa & xb & Ho & Hr & Hrj & Hrd & Hsa & Hsb & Hk & Hl1 & Han).
    assert (∀ i' j', pairing !! i' = Some j' → linked ta1 tb1 i' j' ∧ session_anomalies j' tb1 = session_anomalies j' tb) as Hl'.
    { intros i' j' Hij. destruct (decide (i' = i)) as [->|Hne]; [by replace j' with j by congruence|].
      assert (j' ≠ j) by naive_solver. split; [by eapply linked_other; eauto|].
      unfold session_anomalies. by rewrite Hsb, lookup_insert_ne. }
    destruct (IH ta1 tb1) as (ta2 & tb2 & rs & Hc & HF & Hend); [intros; by apply Hl'|done|].
    exists ta2, tb2, (Ok r :: rs). cbn. rewrite Ho, Hr, bind_some, Hc. split_and!; [done| |].
    + constructor; [|done]. exists r. by rewrite Hrj.
    + intros i' j' Hij. destruct (Hend _ _ Hij) as [? ->]. split; [done|]. by destruct (Hl' _ _ Hij).
Qed.

(** ** Moving a session *)
(** Does the table take packets of session [id] from endpoint [e]? *)
Definition accepts (t : BearerTable) (id : Z) (e : BearerEndpoint) : bool :=
  match sessions t !! id with Some x => accepts_endpoint e x | None => false end.

Lemma receive_accepts e w t t' r id x e' :
  decode_for_session e w t = Some (t', Ok r) → in_session_id r = id → sessions t !! id = Some x →
  accepts t' id e' = accepts_endpoint e' (set_transition (after_accept e x) x).
Proof.
  intros Hd Hr Hx. destruct (decode_for_session_cases e w t) as (t1 & r1 & Hd1 & Hc).
  rewrite Hd1 in Hd. injection Hd as -> ->.
  destruct Hc as [(err & ? & _) | [(? & ? & ? & _ & ? & _) | (p & id0 & x0 & k & _ & _ & _ & Hid & _ & _ & _ & Hacc)]]; [done..|].
  destruct (accept_spec id0 k e (sequence_number p) (payload p) x0 t) as (t2 & x2 & Heq & _ & [Hx2 _] & Htr & _).
  rewrite Heq in Hacc. injection Hacc as -> ->. cbn in Hr. subst id0. rewrite Hx in Hid. injection Hid as <-.
  unfold accepts. cbn. rewrite lookup_insert_eq. unfold accepts_endpoint. cbn. by rewrite Hx2, Htr.
Qed.

(** Moving a bearer: after a rebind to a new endpoint the session takes packets from the new endpoint, and from the
    old one only for a mobility or hard-handoff rebind; a packet from the old endpoint changes nothing of that, the first
    accepted packet from the new endpoint ends the overlap of a hard handoff and of no other rebind, and finalizing leaves
    the new endpoint only. *)
Theorem a8_handoff_window t id x e m :
  sessions t !! id = Some x → transition x = None → has_matching_address_family e = true → endpoint (session x) ≠ e →
  ∃ t1, rebind_session_with_mode id e m t = (t1, Ok (Rebound (endpoint (session x)) m)) ∧
    lookup_session id t1 = Some (set_endpoint e (session x)) ∧
    (∀ a, accepts t1 id a = bool_decide (a = e ∨ a = endpoint (session x) ∧ m ≠ DormantResume)) ∧
    (∀ w t2 p, decode_for_session e w t1 = Some (t2, Ok p) → in_session_id p = id →
       ∀ a, accepts t2 id a = bool_decide (a = e ∨ a = endpoint (session x) ∧ m = Mobility)) ∧
    (∀ w t2 p, decode_for_session (endpoint (session x)) w t1 = Some (t2, Ok p) → in_session_id p = id →
       ∀ a, accepts t2 id a = accepts t1 id a) ∧
    (∀ a, accepts (finalize_rebind id t1).1 id a = bool_decide (a = e)).
Proof.
  intros Hx Htr Hf Hne. unfold rebind_session_with_mode. rewrite Hx, Hf, Htr. cbn [negb].
  rewrite decide_False, bool_decide_eq_false_2 by (done || intros [? ?]; done).
  set (x1 := set_transition _ _). set (t1 := on_stats _ _). exists t1.
  assert (sessions t1 !! id = Some x1) as Hx1 by (cbn; by rewrite lookup_insert_eq).
  split_and!; [done| | | | |].
  - unfold lookup_session. by rewrite Hx1.
  - intros a. unfold accepts. rewrite Hx1. unfold accepts_endpoint. cbn.
    destruct m; cbn; repeat case_bool_decide; naive_solver.
  - intros w t2 p Hd Hp a. rewrite (receive_accepts _ _ _ _ _ _ _ a Hd Hp Hx1). unfold accepts_endpoint, after_accept. cbn.
    destruct m; cbn; rewrite ?decide_False, ?decide_True by naive_solver; cbn; repeat case_bool_decide; naive_solver.
  - intros w t2 p Hd Hp a. rewrite (receive_accepts _ _ _ _ _ _ _ a Hd Hp Hx1). unfold accepts. rewrite Hx1.
    unfold accepts_endpoint, after_accept. cbn. destruct m; cbn; rewrite ?decide_False by naive_solver; done.
  - intros a. unfold finalize_rebind. rewrite Hx1. unfold accepts. cbn [fst].
    case_bool_decide; cbn; rewrite lookup_insert_eq; unfold accepts_endpoint; cbn; rewrite orb_false_r; by repeat case_bool_decide.
Qed.

(** ** Concrete tables *)
Definition ex_endpoint : BearerEndpoint := endpoint_v4 [10; 0; 0; 1] [10; 0; 0; 2].
Definition ex_pcf : BearerTable :=
  (apply_session (mkBearer 2 101 201 ex_endpoint ppp_compatibility)
    (apply_session (mkBearer 1 100 200 ex_endpoint standard_packet_data) BearerTable_default).1).1.
Definition ex_pdsn : BearerTable :=
  (apply_session (mkBearer 8 201 101 (flip_endpoint ex_endpoint) ppp_compatibility)
    (apply_session (mkBearer 7 200 100 (flip_endpoint ex_endpoint) standard_packet_data) BearerTable_default).1).1.
Definition ex_pairing : gmap Z Z := {[ 1 := 7; 2 := 8 ]}.
Definition ex_sends : list (Z * list Z) := [(1, [1; 2; 3]); (2, [9]); (1, []); (1, [4; 5]); (2, [8; 7])].

Lemma ex_pairing_cases i j : ex_pairing !! i = Some j → i = 1 ∧ j = 7 ∨ i = 2 ∧ j = 8.
Proof.
  unfold ex_pairing. intros H. apply lookup_insert_Some in H as [[<- <-]|[_ H]]; [auto|].
  apply lookup_singleton_Some in H as [<- <-]. auto.
Qed.
Lemma ex_linked i j : ex_pairing !! i = Some j → linked ex_pcf ex_pdsn i j.
Proof.
  intros [[-> ->]|[-> ->]]%ex_pairing_cases;
    (do 2 eexists; split_and!; [vm_compute; reflexivity..|]; vm_compute; intros; first [split; [split; congruence|done] | done]).
Qed.

Lemma a8_delivers_witness :
  ∃ ta' tb' rs, carry ex_sends ex_pcf ex_pdsn = Some (ta', tb', rs) ∧
    Forall2 (λ '(i, data) r, ∃ p, r = Ok p ∧ ex_pairing !! i = Some (in_session_id p) ∧ in_payload p = data) ex_sends rs ∧
    ∀ i j, ex_pairing !! i = Some j → linked ta' tb' i j ∧ session_anomalies j tb' = session_anomalies j ex_pdsn.
Proof.
  apply (a8_delivers ex_pairing ex_sends ex_pcf ex_pdsn).
  - intros i i' j [[-> ->]|[-> ->]]%ex_pairing_cases [[-> ?]|[-> ?]]%ex_pairing_cases; done.
  - exact ex_linked.
  - repeat constructor; by eexists.
Defined.

Definition ex_packet : list Z := [0x30; 0; 0x88; 0x81; 0; 0; 0; 200; 0; 0; 0; 0; 0x7e; 0xff].
Lemma ex_packet_accepted : ∃ t' i, decode_for_session (flip_endpoint ex_endpoint) ex_packet ex_pdsn = Some (t', Ok i) ∧
  in_session_id i = 7 ∧ in_payload i = [0x7e; 0xff].
Proof. do 2 eexists. split_and!; vm_compute; reflexivity. Qed.
Lemma a8_accepts_only_owner_witness :
  ∃ t' i x, decode_for_session (flip_endpoint ex_endpoint) ex_packet ex_pdsn = Some (t', Ok i) ∧
    lookup_session (in_session_id i) t' = Some (session x).
Proof.
  destruct ex_packet_accepted as (t' & i & Hd & _). exists t', i.
  destruct (a8_accepts_only_owner _ _ _ _ _ (bytesb_bytes ex_packet eq_refl) Hd) as (x & _ & _ & _ & _ & _ & _ & _ & Hx).
  by exists x.
Defined.

Definition ex_moved : BearerEndpoint := endpoint_v4 [10; 0; 0; 1] [10; 0; 0; 3].
Lemma ex_installed : ∃ x, sessions ex_pcf !! 1 = Some x ∧ transition x = None ∧ endpoint (session x) = ex_endpoint.
Proof. eexists. split_and!; vm_compute; reflexivity. Qed.
Lemma a8_handoff_window_witness :
  ∃ t1 r, rebind_session_with_mode 1 ex_moved HardHandoff ex_pcf = (t1, Ok r) ∧
    accepts t1 1 ex_moved = true ∧ accepts t1 1 ex_endpoint = true ∧ accepts (finalize_rebind 1 t1).1 1 ex_endpoint = false.
Proof.
  destruct ex_installed as (x & Hx & Htr & He).
  destruct (a8_handoff_window ex_pcf 1 x ex_moved HardHandoff Hx Htr eq_refl) as (t1 & Hr & _ & Ha & _ & _ & Hf); [by rewrite He|].
  exists t1. eexists. split; [exact Hr|]. rewrite !Ha, Hf, He. done.
Defined.

(** A packet behind the last one is noted and becomes the last one: the packet after it counts as a gap, and a number seen
    before it passes as new. *)
Lemma reordered_becomes_last :
  sequence_event 5 (Some 4) = InOrder ∧ sequence_event 4 (Some 5) = Reordered ∧
  sequence_event 6 (Some 4) = SequenceGap ∧
  ∀ t x, last_rx_sequence (entry_stats (account_sequence (Some 4) t x).2) = Some 4.
Proof. done. Qed.
