(* ===== verification/A10.v ===== *)
(** * The A10 user plane ([cdma-a10/src/lib.rs])

    The bearer between the PCF and the PDSN: the A8 table behind an interface that names IPv4
    endpoints only.  Every operation converts its arguments, runs on the inner table and
    converts what comes back; the theorem is that the way back never fails, although it runs
    after the inner table has changed. *)
From S2P Require Import Prelude Octets A8Bearer A8Proofs.

Module A10.

Record BearerEndpoint := mkEndpoint { local_ipv4 : list Z; remote_ipv4 : list Z }.
Record BearerSession := mkBearer {
  session_id : Z;
  inbound_session_key : Z;
  outbound_session_key : Z;
  endpoint : BearerEndpoint;
  profile : A8.BearerProfile
}.
Definition with_profile (session_key : Z) (e : BearerEndpoint) (p : A8.BearerProfile) : BearerSession :=
  mkBearer session_key session_key session_key e p.
Definition new_session (session_key : Z) (e : BearerEndpoint) : BearerSession := with_profile session_key e A8.standard_packet_data.

Record InboundPacket := mkInbound {
  in_session_id : Z; in_gre_key : Z; in_endpoint : BearerEndpoint; rx_ordinal : Z;
  in_gre_sequence : option Z; in_payload : list Z
}.
Record OutboundPacket := mkOutbound {
  out_session_id : Z; out_gre_key : Z; out_endpoint : BearerEndpoint; tx_ordinal : Z;
  out_gre_sequence : option Z; payload_len : nat; wire_bytes : list Z
}.
Inductive ApplySessionOutcome :=
| Created
| ApplyUnchanged
| ApplyRebound (previous_endpoint : BearerEndpoint) (previous_inbound previous_outbound : Z) (previous_profile : A8.BearerProfile).
Record SessionTransition := mkTransition { mode : A8.RebindMode; previous_endpoint : BearerEndpoint }.
Inductive RebindOutcome :=
| RebindUnchanged
| Rebound (previous_endpoint : BearerEndpoint) (mode : A8.RebindMode).

(** ** Conversions *)
Definition into_a8_endpoint (e : BearerEndpoint) : A8.BearerEndpoint := A8.mkEndpoint (A8.V4 (local_ipv4 e)) (A8.V4 (remote_ipv4 e)).
Definition from_a8_endpoint (e : A8.BearerEndpoint) : result A8.Error BearerEndpoint :=
  match A8.local_ip e with
  | A8.V4 local_ip =>
      match A8.remote_ip e with
      | A8.V4 remote_ip => Ok (mkEndpoint local_ip remote_ip)
      | A8.V6 _ => Err (A8.AddressFamilyMismatch 0)
      end
  | A8.V6 _ => Err (A8.AddressFamilyMismatch 0)
  end.
Definition into_a8_session (s : BearerSession) : A8.BearerSession :=
  A8.mkBearer (session_id s) (inbound_session_key s) (outbound_session_key s) (into_a8_endpoint (endpoint s)) (profile s).
Definition from_a8_session (s : A8.BearerSession) : result A8.Error BearerSession :=
  e ←r from_a8_endpoint (A8.endpoint s);
  Ok (mkBearer (A8.session_id s) (A8.inbound_session_key s) (A8.outbound_session_key s) e (A8.profile s)).

(** ** The table *)
Abbreviation BearerTable := A8.BearerTable.

Definition ok {E A} (r : result E A) : option A := match r with Ok a => Some a | Err _ => None end.

Definition create_session (s : BearerSession) (t : BearerTable) : BearerTable * result A8.Error unit :=
  A8.create_session (into_a8_session s) t.
Definition apply_session (s : BearerSession) (t : BearerTable) : BearerTable * result A8.Error ApplySessionOutcome :=
  let '(t, r) := A8.apply_session (into_a8_session s) t in
  (t, o ←r r;
      match o with
      | A8.Created => Ok Created
      | A8.ApplyUnchanged => Ok ApplyUnchanged
      | A8.ApplyRebound e i o p => e ←r from_a8_endpoint e; Ok (ApplyRebound e i o p)
      end).
Definition rebind_session (id : Z) (e : BearerEndpoint) (t : BearerTable) : BearerTable * result A8.Error unit :=
  A8.rebind_session id (into_a8_endpoint e) t.
Definition rebind_session_with_mode (id : Z) (e : BearerEndpoint) (m : A8.RebindMode) (t : BearerTable)
    : BearerTable * result A8.Error RebindOutcome :=
  let '(t, r) := A8.rebind_session_with_mode id (into_a8_endpoint e) m t in
  (t, o ←r r;
      match o with
      | A8.RebindUnchanged => Ok RebindUnchanged
      | A8.Rebound e m => e ←r from_a8_endpoint e; Ok (Rebound e m)
      end).
Definition finalize_rebind (id : Z) (t : BearerTable) : BearerTable * result A8.Error bool := A8.finalize_rebind id t.
Definition remove_session (id : Z) (t : BearerTable) : BearerTable * result A8.Error BearerSession :=
  let '(t, r) := A8.remove_session id t in (t, s ←r r; from_a8_session s).
Definition remove_session_if_present (id : Z) (t : BearerTable) : BearerTable * option BearerSession :=
  let '(t, r) := A8.remove_session_if_present id t in (t, s ← r; ok (from_a8_session s)).
Definition lookup_session (id : Z) (t : BearerTable) : option BearerSession :=
  s ← A8.lookup_session id t; ok (from_a8_session s).
Definition session_snapshot (id : Z) (t : BearerTable) : option (BearerSession * A8.SessionStats * option SessionTransition) :=
  '(s, st, tr) ← A8.session_snapshot id t;
  s ← ok (from_a8_session s);
  Some (s, st, tr ← tr; e ← ok (from_a8_endpoint (A8.previous_endpoint tr)); Some (mkTransition (A8.mode tr) e)).
Definition build_outbound_packet (id : Z) (payload : list Z) (t : BearerTable) : BearerTable * result A8.Error OutboundPacket :=
  let '(t, r) := A8.build_outbound_packet id payload t in
  (t, p ←r r;
      e ←r from_a8_endpoint (A8.out_endpoint p);
      Ok (mkOutbound (A8.out_session_id p) (A8.out_gre_key p) e (A8.tx_ordinal p) (A8.out_gre_sequence p)
            (A8.payload_len p) (A8.wire_bytes p))).
Definition encode_for_session (id : Z) (payload : list Z) (t : BearerTable) : BearerTable * result A8.Error (list Z) :=
  let '(t, r) := build_outbound_packet id payload t in (t, p ←r r; Ok (wire_bytes p)).
Definition decode_for_session (e : BearerEndpoint) (input : list Z) (t : BearerTable)
    : rust (BearerTable * result A8.Error InboundPacket) :=
  '(t, r) ← A8.decode_for_session (into_a8_endpoint e) input t;
  Some (t, p ←r r;
           e ←r from_a8_endpoint (A8.in_endpoint p);
           Ok (mkInbound (A8.in_session_id p) (A8.in_gre_key p) e (A8.rx_ordinal p) (A8.in_gre_sequence p) (A8.in_payload p))).

(** ** Every endpoint of the inner table is an IPv4 one *)
Definition v4_endpoint (e : A8.BearerEndpoint) : Prop := ∃ e', from_a8_endpoint e = Ok e'.
Definition v4_entry (x : A8.SessionEntry) : Prop :=
  v4_endpoint (A8.endpoint (A8.session x)) ∧
  ∀ tr, A8.transition x = Some tr → v4_endpoint (A8.previous_endpoint tr).
Definition v4_table (t : BearerTable) : Prop := map_Forall (λ _, v4_entry) (A8.sessions t).

Inductive TableOp :=
| OpApply (s : BearerSession)
| OpCreate (s : BearerSession)
| OpRebind (id : Z) (e : BearerEndpoint) (m : A8.RebindMode)
| OpFinalize (id : Z)
| OpRemove (id : Z)
| OpSend (id : Z) (payload : list Z)
| OpReceive (e : BearerEndpoint) (input : list Z).

Definition error_of {A} (r : result A8.Error A) : option A8.Error := match r with Ok _ => None | Err e => Some e end.
Definition table_step (o : TableOp) (t : BearerTable) : rust (BearerTable * option A8.Error) :=
  match o with
  | OpApply s => let '(t, r) := apply_session s t in Some (t, error_of r)
  | OpCreate s => let '(t, r) := create_session s t in Some (t, error_of r)
  | OpRebind id e m => let '(t, r) := rebind_session_with_mode id e m t in Some (t, error_of r)
  | OpFinalize id => let '(t, r) := finalize_rebind id t in Some (t, error_of r)
  | OpRemove id => let '(t, r) := remove_session id t in Some (t, error_of r)
  | OpSend id data => let '(t, r) := build_outbound_packet id data t in Some (t, error_of r)
  | OpReceive e input => '(t, r) ← decode_for_session e input t; Some (t, error_of r)
  end.
Fixpoint table_run (ops : list TableOp) (t : BearerTable) : rust (BearerTable * list (option A8.Error)) :=
  match ops with
  | [] => Some (t, [])
  | o :: ops => '(t, e) ← table_step o t; '(t, es) ← table_run ops t; Some (t, e :: es)
  end.

(** The same operations on the A8 table, and what they answer. *)
Definition a8_step (o : TableOp) (t : BearerTable) : rust (BearerTable * option A8.Error) :=
  match o with
  | OpApply s => let '(t, r) := A8.apply_session (into_a8_session s) t in Some (t, error_of r)
  | OpCreate s => let '(t, r) := A8.create_session (into_a8_session s) t in Some (t, error_of r)
  | OpRebind id e m => let '(t, r) := A8.rebind_session_with_mode id (into_a8_endpoint e) m t in Some (t, error_of r)
  | OpFinalize id => let '(t, r) := A8.finalize_rebind id t in Some (t, error_of r)
  | OpRemove id => let '(t, r) := A8.remove_session id t in Some (t, error_of r)
  | OpSend id data => let '(t, r) := A8.build_outbound_packet id data t in Some (t, error_of r)
  | OpReceive e input => '(t, r) ← A8.decode_for_session (into_a8_endpoint e) input t; Some (t, error_of r)
  end.
Fixpoint a8_run (ops : list TableOp) (t : BearerTable) : rust (BearerTable * list (option A8.Error)) :=
  match ops with
  | [] => Some (t, [])
  | o :: ops => '(t, e) ← a8_step o t; '(t, es) ← a8_run ops t; Some (t, e :: es)
  end.

Lemma v4_into e : v4_endpoint (into_a8_endpoint e).
Proof. by eexists. Qed.
Lemma v4_session s : v4_endpoint (A8.endpoint s) → ∃ s', from_a8_session s = Ok s'.
Proof. intros [e He]. unfold from_a8_session. rewrite He. by eexists. Qed.

Lemma v4_insert id x t sx : v4_table t → A8.sessions sx = <[id := x]> (A8.sessions t) → v4_entry x → v4_table sx.
Proof. intros Ht Hs Hx. unfold v4_table. rewrite Hs. by apply map_Forall_insert_2. Qed.
Lemma v4_same t t' : v4_table t → A8.sessions t' = A8.sessions t → v4_table t'.
Proof. unfold v4_table. by intros ? ->. Qed.
#[local] Hint Resolve v4_into : core.

(** What each operation of the inner table does to an IPv4 table, and that what it returns converts. *)
Lemma apply_v4 s t :
  v4_table t → v4_endpoint (A8.endpoint s) →
  v4_table (A8.apply_session s t).1 ∧
  ∀ e i o p, (A8.apply_session s t).2 = Ok (A8.ApplyRebound e i o p) → v4_endpoint e.
Proof.
  intros Ht Hs. unfold A8.apply_session. destruct (A8.validate_session s); [|done].
  destruct (A8.reserve_inbound_key _ _ _); [|done]. destruct (A8.sessions t !! A8.session_id s) as [x|] eqn:Hx.
  - destruct (A8.same_binding _ _); [done|]. case_bool_decide; [done|]. destruct (Ht _ _ Hx) as [He Htr]. cbn [fst snd]. split.
    + eapply (v4_insert (A8.session_id s)); [exact Ht|cbn; by destruct (_ =? _)|]. by split.
    + by intros ? ? ? ? [= <- _ _ _].
  - split; [|done]. eapply (v4_insert (A8.session_id s)); [exact Ht|done|]. by split.
Qed.

Lemma rebind_v4 id e m t :
  v4_table t → v4_endpoint e →
  v4_table (A8.rebind_session_with_mode id e m t).1 ∧
  ∀ e' m', (A8.rebind_session_with_mode id e m t).2 = Ok (A8.Rebound e' m') → v4_endpoint e'.
Proof.
  intros Ht He. unfold A8.rebind_session_with_mode. destruct (A8.sessions t !! id) as [x|] eqn:Hx; [|done].
  destruct (negb _); [done|]. destruct (decide _); [done|]. case_bool_decide; [done|]. destruct (Ht _ _ Hx) as [Hp Htr].
  cbn [fst snd]. split; [|by intros ? ? [= <- _]].
  eapply (v4_insert id); [exact Ht|done|]. split; [done|]. cbn. destruct m; [done|..]; by intros ? [= <-].
Qed.

Lemma finalize_v4 id t : v4_table t → v4_table (A8.finalize_rebind id t).1.
Proof.
  intros Ht. unfold A8.finalize_rebind. destruct (A8.sessions t !! id) as [x|] eqn:Hx; [|done]. cbn [fst].
  eapply (v4_insert id (A8.set_transition None x)); [exact Ht|by case_bool_decide|]. destruct (Ht _ _ Hx). by split.
Qed.

Lemma remove_v4 id t :
  v4_table t → v4_table (A8.remove_session id t).1 ∧ ∀ s, (A8.remove_session id t).2 = Ok s → v4_endpoint (A8.endpoint s).
Proof.
  intros Ht. unfold A8.remove_session, A8.remove_session_if_present.
  destruct (A8.sessions t !! id) as [x|] eqn:Hx; [|done]. cbn [fst snd]. split.
  - unfold v4_table. cbn. by apply map_Forall_delete.
  - intros ? [= <-]. by destruct (Ht _ _ Hx).
Qed.

Lemma send_v4 id data t :
  v4_table t → v4_table (A8.build_outbound_packet id data t).1 ∧
  ∀ p, (A8.build_outbound_packet id data t).2 = Ok p → v4_endpoint (A8.out_endpoint p).
Proof.
  intros Ht. destruct (A8.sessions t !! id) as [x|] eqn:Hx.
  - destruct (send_spec id data t x Hx) as (t' & x' & o & -> & Hs & _ & _ & Hses & Htr & _ & _ & _ & _ & Ho & _). cbn.
    destruct (Ht _ _ Hx) as [He Hp]. split; [|by intros ? [= <-]; rewrite Ho].
    eapply (v4_insert id); [exact Ht|done|]. split; rewrite ?Hses, ?Htr; done.
  - unfold A8.build_outbound_packet. by rewrite Hx.
Qed.

Lemma receive_v4 e w t :
  v4_table t → v4_endpoint e →
  ∃ t' r, A8.decode_for_session e w t = Some (t', r) ∧ v4_table t' ∧ ∀ p, r = Ok p → v4_endpoint (A8.in_endpoint p).
Proof.
  intros Ht He. destruct (decode_for_session_cases e w t) as (t' & r & Hd & Hc). exists t', r. split; [done|].
  destruct Hc as [(err & -> & Hs & _) | [(id & x & t0 & Hid & -> & (Hs & _) & st & ->) | (p & id & x & k & _ & _ & _ & Hid & _ & _ & _ & Hacc)]].
  - split; [by eapply v4_same|done].
  - split; [|done]. eapply (v4_insert id); [exact Ht|cbn; by rewrite Hs|]. by destruct (Ht _ _ Hid).
  - destruct (accept_spec id k e (A8.sequence_number p) (A8.payload p) x t) as (t2 & x2 & Heq & (Hs & _) & [Hx2 _] & Htr & _).
    rewrite Heq in Hacc. injection Hacc as -> ->. destruct (Ht _ _ Hid) as [Hxe Hxt]. split; [|by intros ? [= <-]].
    eapply (v4_insert id); [exact Ht|cbn; by rewrite Hs|]. split; rewrite ?Hx2; [done|].
    intros tr Htr'. rewrite Htr in Htr'. apply Hxt. by eapply after_accept_from.
Qed.

Lemma a10_step o t : v4_table t → table_step o t = a8_step o t ∧ ∃ t' e, a8_step o t = Some (t', e) ∧ v4_table t'.
Proof.
  intros Ht. destruct o as [s|s|id e m|id|id|id data|e input]; cbn [table_step a8_step].
  - destruct (apply_v4 (into_a8_session s) t Ht (v4_into _)) as [H1 H2]. unfold apply_session.
    destruct (A8.apply_session _ _) as [t' [[| |e i o p]|err]]; cbn in *; (split; [|eauto]); try done.
    by destruct (H2 e i o p eq_refl) as [e' ->].
  - destruct (apply_v4 (into_a8_session s) t Ht (v4_into _)) as [H1 _]. unfold create_session, A8.create_session.
    destruct (A8.has_session _ _); [eauto|]. destruct (A8.apply_session _ _) as [t' r]; cbn in *. eauto.
  - destruct (rebind_v4 id (into_a8_endpoint e) m t Ht (v4_into _)) as [H1 H2]. unfold rebind_session_with_mode.
    destruct (A8.rebind_session_with_mode _ _ _ _) as [t' [[|e' m']|err]]; cbn in *; (split; [|eauto]); try done.
    by destruct (H2 e' m' eq_refl) as [? ->].
  - pose proof (finalize_v4 id t Ht). unfold finalize_rebind. destruct (A8.finalize_rebind _ _). eauto.
  - destruct (remove_v4 id t Ht) as [H1 H2]. unfold remove_session.
    destruct (A8.remove_session _ _) as [t' [s|err]]; cbn in *; (split; [|eauto]); [|done].
    by destruct (v4_session s (H2 s eq_refl)) as [? ->].
  - destruct (send_v4 id data t Ht) as [H1 H2]. unfold build_outbound_packet.
    destruct (A8.build_outbound_packet _ _ _) as [t' [p|err]]; cbn in *; (split; [|eauto]); [|done].
    by destruct (H2 p eq_refl) as [? ->].
  - destruct (receive_v4 (into_a8_endpoint e) input t Ht (v4_into _)) as (t' & r & Hd & H1 & H2). unfold decode_for_session.
    rewrite Hd. cbn. split; [|eauto]. destruct r as [p|]; [|done]. cbn. by destruct (H2 p eq_refl) as [? ->].
Qed.

(** The A10 table refines the A8 table: through any sequence of its operations, received octets included, the
    A10 interface goes through the same tables as the A8 interface and answers an error exactly when, and the one that,
    the A8 interface answers; the conversion of results to IPv4 endpoints, which runs after the table has been changed,
    never fails. *)
Theorem a10_refines_a8 ops : ∃ t es,
  table_run ops A8.BearerTable_default = Some (t, es) ∧ a8_run ops A8.BearerTable_default = Some (t, es).
Proof.
  assert (v4_table A8.BearerTable_default) as H by apply map_Forall_empty. revert H.
  generalize A8.BearerTable_default as t. induction ops as [|o ops IH]; intros t Ht; [cbn; eauto|].
  destruct (a10_step o t Ht) as [Heq (t1 & e & Hs & Ht1)].
  destruct (IH t1 Ht1) as (t2 & es & H1 & H2). cbn [table_run a8_run].
  rewrite Heq, Hs, !bind_some, H1, H2. cbn. eauto.
Qed.

End A10.
