(* ===== verification/A11Codec.v ===== *)
(** * A11 signaling messages ([cdma-a11/src/lib.rs])

    The registration and session messages between the PCF and the PDSN: extensions, vendor
    extensions, the eight message bodies with what each requires, their encoding and
    decoding, and the keyed-MD5 authentication.  MD5 is a library: it is a parameter of the
    definitions that use it.  Error contexts and reasons are the source's strings. *)
From stdpp Require Import strings.
From S2P Require Import Prelude Octets.

Module A11.

Definition THREEGPP2_VENDOR_ID : Z := 0x0000159f.
Definition PROTOCOL_TYPE_UNSTRUCTURED_BYTE_STREAM : Z := 0x8881.
Definition SESSION_SPECIFIC_MSID_TYPE_IMSI : Z := 0x0006.
Definition A11_RESERVED_SPI_MAX : Z := 0x00ff.
Definition A11_AUTHENTICATOR_BYTES : nat := 16.

Inductive Error :=
| EmptyMessage
| UnknownMessageType (ty : Z)
| Truncated (needed actual : nat)
| InvalidExtensionLength (expected_min actual : nat)
| InvalidSpi
| InvalidValue (context reason : string)
| DuplicateExtension (extension_type : Z)
| AuthenticationRejected (context reason : string)
| ProcedureViolation (context reason : string).
#[export] Instance Error_eq_dec : EqDecision Error.
Proof. solve_decision. Defined.

Inductive MessageType :=
| TRegistrationRequest | TRegistrationReply | TRegistrationUpdate | TRegistrationAcknowledge
| TSessionUpdate | TSessionUpdateAcknowledge | TCapabilitiesInfo | TCapabilitiesInfoAcknowledge.
#[export] Instance MessageType_eq_dec : EqDecision MessageType.
Proof. solve_decision. Defined.
Definition message_type_u8 (t : MessageType) : Z :=
  match t with
  | TRegistrationRequest => 0x01 | TRegistrationReply => 0x03
  | TRegistrationUpdate => 0x14 | TRegistrationAcknowledge => 0x15
  | TSessionUpdate => 0x16 | TSessionUpdateAcknowledge => 0x17
  | TCapabilitiesInfo => 0x18 | TCapabilitiesInfoAcknowledge => 0x19
  end.
Definition message_type_from_u8 (value : Z) : result Error MessageType :=
  if value =? 0x01 then Ok TRegistrationRequest
  else if value =? 0x03 then Ok TRegistrationReply
  else if value =? 0x14 then Ok TRegistrationUpdate
  else if value =? 0x15 then Ok TRegistrationAcknowledge
  else if value =? 0x16 then Ok TSessionUpdate
  else if value =? 0x17 then Ok TSessionUpdateAcknowledge
  else if value =? 0x18 then Ok TCapabilitiesInfo
  else if value =? 0x19 then Ok TCapabilitiesInfoAcknowledge
  else Err (UnknownMessageType value).

(** ** Authentication extensions *)
Inductive AuthenticationExtensionType := MobileHome | AuthRegistrationUpdate.
#[export] Instance AuthenticationExtensionType_eq_dec : EqDecision AuthenticationExtensionType.
Proof. solve_decision. Defined.
Definition auth_type_u8 (t : AuthenticationExtensionType) : Z :=
  match t with MobileHome => 0x20 | AuthRegistrationUpdate => 0x28 end.
Definition auth_type_from_u8 (value : Z) : result Error AuthenticationExtensionType :=
  if value =? 0x20 then Ok MobileHome
  else if value =? 0x28 then Ok AuthRegistrationUpdate
  else Err (InvalidValue "authentication.extension_type" "unsupported authentication extension type").

Record AuthenticationExtension := mkAuth {
  auth_type : AuthenticationExtensionType;
  security_parameter_index : Z;
  authenticator : list Z
}.
#[export] Instance AuthenticationExtension_eq_dec : EqDecision AuthenticationExtension.
Proof. solve_decision. Defined.

Definition auth_encode (a : AuthenticationExtension) : result Error (list Z) :=
  if security_parameter_index a =? 0 then Err InvalidSpi
  else if decide (length (authenticator a) ≠ 16%nat) then Err (InvalidExtensionLength 16 (length (authenticator a)))
  else
    let len := (4 + length (authenticator a))%nat in
    Ok ([auth_type_u8 (auth_type a); (Z.of_nat len) as_u8] ++ to_be32 (security_parameter_index a) ++ authenticator a).

Definition auth_decode (extension_type : Z) (value : list Z) : rust (result Error AuthenticationExtension) :=
  if decide (length value < 4)%nat then Some (Err (InvalidExtensionLength 4 (length value)))
  else
    spi ← be32_at value 0;
    if spi =? 0 then Some (Err InvalidSpi)
    else
      authenticator ← slice_from value 4;
      if decide (length authenticator ≠ 16%nat) then Some (Err (InvalidExtensionLength 16 (length authenticator)))
      else ty ←! Some (auth_type_from_u8 extension_type); Some (Ok (mkAuth ty spi authenticator)).

(** ** Raw and critical vendor extensions *)
Record RawExtension := mkRaw { raw_type : Z; raw_value : list Z }.
#[export] Instance RawExtension_eq_dec : EqDecision RawExtension.
Proof. solve_decision. Defined.
Definition raw_encode (r : RawExtension) : result Error (list Z) :=
  if decide (255 < length (raw_value r))%nat then Err (InvalidExtensionLength 255 (length (raw_value r)))
  else Ok ([raw_type r; (Z.of_nat (length (raw_value r))) as_u8] ++ raw_value r).

Record CriticalVendorExtension := mkCvse { cvse_reserved : Z; cvse_value : list Z }.
#[export] Instance CriticalVendorExtension_eq_dec : EqDecision CriticalVendorExtension.
Proof. solve_decision. Defined.
Definition CVSE_TYPE : Z := 0x26.
Definition CVSE_HEADER_LENGTH : nat := 4.
Definition cvse_encode (c : CriticalVendorExtension) : result Error (list Z) :=
  if decide (65535 < Z.of_nat (length (cvse_value c))) then Err (InvalidExtensionLength (Z.to_nat 65535) (length (cvse_value c)))
  else Ok ([CVSE_TYPE; cvse_reserved c] ++ to_be16 (Z.of_nat (length (cvse_value c))) ++ cvse_value c).
Definition cvse_decode (input : list Z) : rust (result Error CriticalVendorExtension) :=
  if decide (length input < CVSE_HEADER_LENGTH)%nat then Some (Err (Truncated CVSE_HEADER_LENGTH (length input)))
  else
    ty ← index input 0;
    if negb (ty =? CVSE_TYPE) then Some (Err (InvalidValue "cvse.type" "A.S0017 CVSE must use element type 0x26"))
    else
      len ← be16_at input 2;
      let needed := (CVSE_HEADER_LENGTH + Z.to_nat len)%nat in
      if decide (length input ≠ needed) then Some (Err (Truncated needed (length input)))
      else
        reserved ← index input 1;
        value ← slice_from input CVSE_HEADER_LENGTH;
        Some (Ok (mkCvse reserved value)).

(** ** Normal vendor extensions *)
Inductive SessionParameterNvse := RnPdit (seconds : Z) | AlwaysOn.
#[export] Instance SessionParameterNvse_eq_dec : EqDecision SessionParameterNvse.
Proof. solve_decision. Defined.
Inductive PdsnEnabledFeatureNvse := FlowControlEnabled | PacketBoundaryEnabled.
#[export] Instance PdsnEnabledFeatureNvse_eq_dec : EqDecision PdsnEnabledFeatureNvse.
Proof. solve_decision. Defined.
Inductive PcfEnabledFeatureNvse := ShortDataIndicationSupported | GreSegmentationEnabled.
#[export] Instance PcfEnabledFeatureNvse_eq_dec : EqDecision PcfEnabledFeatureNvse.
Proof. solve_decision. Defined.
Record UnknownNvse := mkUnknown {
  vendor_id : Z; application_type : Z; application_subtype : Z; application_data : list Z
}.
#[export] Instance UnknownNvse_eq_dec : EqDecision UnknownNvse.
Proof. solve_decision. Defined.
Inductive Nvse :=
| AccessNetworkIdentifiers (data : list Z)
| AnchorPPAddress (address : list Z)
| AllDormantIndicator
| PdsnCode (code : Z)
| SessionParameter (p : SessionParameterNvse)
| ServiceOption (value : Z)
| PdsnEnabledFeature (f : PdsnEnabledFeatureNvse)
| PcfEnabledFeature (f : PcfEnabledFeatureNvse)
| NvseUnknown (u : UnknownNvse).
#[export] Instance Nvse_eq_dec : EqDecision Nvse.
Proof. solve_decision. Defined.
Definition NVSE_TYPE : Z := 0x86.

Definition nvse_header_bytes (application_type application_subtype : Z) (application_data_len : nat) : result Error (list Z) :=
  let len := (8 + application_data_len)%nat in
  if decide (255 < len)%nat then Err (InvalidExtensionLength 255 len)
  else Ok ([NVSE_TYPE; (Z.of_nat len) as_u8; 0; 0] ++ to_be32 THREEGPP2_VENDOR_ID ++ [application_type; application_subtype]).

Definition pdsn_code_supported (code : Z) : bool := (0xc1 <=? code) && (code <=? 0xc8) || (code =? 0xca) || (code =? 0xcb).

Definition nvse_encode (n : Nvse) : result Error (list Z) :=
  match n with
  | AccessNetworkIdentifiers data => out ←r nvse_header_bytes 0x04 0x01 (length data); Ok (out ++ data)
  | AnchorPPAddress address => out ←r nvse_header_bytes 0x05 0x01 4; Ok (out ++ address)
  | AllDormantIndicator => out ←r nvse_header_bytes 0x06 0x01 2; Ok (out ++ [0; 0])
  | PdsnCode code =>
      if negb (pdsn_code_supported code) then Err (InvalidValue "nvse.pdsn_code" "unsupported PDSN Code value")
      else out ←r nvse_header_bytes 0x07 0x01 1; Ok (out ++ [code])
  | SessionParameter (RnPdit value) =>
      if value =? 0 then Err (InvalidValue "nvse.rn_pdit" "RN-PDIT must be in the range 1..=255 seconds")
      else out ←r nvse_header_bytes 0x08 0x01 1; Ok (out ++ [value])
  | SessionParameter AlwaysOn => nvse_header_bytes 0x08 0x02 0
  | ServiceOption value => out ←r nvse_header_bytes 0x09 0x01 2; Ok (out ++ to_be16 value)
  | PdsnEnabledFeature FlowControlEnabled => nvse_header_bytes 0x0a 0x01 0
  | PdsnEnabledFeature PacketBoundaryEnabled => nvse_header_bytes 0x0a 0x02 0
  | PcfEnabledFeature ShortDataIndicationSupported => nvse_header_bytes 0x0b 0x01 0
  | PcfEnabledFeature GreSegmentationEnabled => nvse_header_bytes 0x0b 0x02 0
  | NvseUnknown u =>
      let len := (8 + length (application_data u))%nat in
      if decide (255 < len)%nat then Err (InvalidExtensionLength 255 len)
      else Ok ([NVSE_TYPE; (Z.of_nat len) as_u8; 0; 0] ++ to_be32 (vendor_id u) ++
               [application_type u; application_subtype u] ++ application_data u)
  end.

(** The typed content of a 3GPP2 extension, by its application type and subtype. *)
Definition empty_data (data : list Z) (n : Nvse) : rust (result Error Nvse) :=
  if decide (data ≠ []) then Some (Err (InvalidExtensionLength 0 (length data))) else Some (Ok n).
Definition exact_data (n : nat) (data : list Z) (k : rust (result Error Nvse)) : rust (result Error Nvse) :=
  if decide (length data ≠ n) then Some (Err (InvalidExtensionLength n (length data))) else k.
Definition nvse_typed (vendor ty subtype : Z) (data : list Z) : rust (result Error Nvse) :=
  if decide ((ty, subtype) = (0x04, 0x01)) then Some (Ok (AccessNetworkIdentifiers data))
  else if decide ((ty, subtype) = (0x05, 0x01)) then
    exact_data 4 data (address ← octets_at data 0 4; Some (Ok (AnchorPPAddress address)))
  else if decide ((ty, subtype) = (0x06, 0x01)) then
    if decide (data ≠ [0; 0]) then
      Some (Err (InvalidValue "nvse.all_dormant_indicator" "All Dormant Indicator must encode the value 0x0000"))
    else Some (Ok AllDormantIndicator)
  else if decide ((ty, subtype) = (0x07, 0x01)) then exact_data 1 data (code ← index data 0; Some (Ok (PdsnCode code)))
  else if decide ((ty, subtype) = (0x08, 0x01)) then
    exact_data 1 data (value ← index data 0; Some (Ok (SessionParameter (RnPdit value))))
  else if decide ((ty, subtype) = (0x08, 0x02)) then empty_data data (SessionParameter AlwaysOn)
  else if decide ((ty, subtype) = (0x09, 0x01)) then exact_data 2 data (value ← be16_at data 0; Some (Ok (ServiceOption value)))
  else if decide ((ty, subtype) = (0x0a, 0x01)) then empty_data data (PdsnEnabledFeature FlowControlEnabled)
  else if decide ((ty, subtype) = (0x0a, 0x02)) then empty_data data (PdsnEnabledFeature PacketBoundaryEnabled)
  else if decide ((ty, subtype) = (0x0b, 0x01)) then empty_data data (PcfEnabledFeature ShortDataIndicationSupported)
  else if decide ((ty, subtype) = (0x0b, 0x02)) then empty_data data (PcfEnabledFeature GreSegmentationEnabled)
  else Some (Ok (NvseUnknown (mkUnknown vendor ty subtype data))).

Definition nvse_decode (input : list Z) : rust (result Error Nvse) :=
  if decide (length input < 10)%nat then Some (Err (InvalidExtensionLength 10 (length input - 2)))
  else
    ty ← index input 0;
    if negb (ty =? NVSE_TYPE) then Some (Err (InvalidValue "nvse.type" "A.S0017 NVSE must use element type 0x86"))
    else
      len ← index input 1;
      let len := Z.to_nat len in
      if decide (length input ≠ 2 + len)%nat then Some (Err (Truncated (2 + len) (length input)))
      else if decide (len < 8)%nat then Some (Err (InvalidExtensionLength 8 len))
      else
        value ← slice_from input 2;
        v0 ← index value 0;
        v1 ← index value 1;
        if negb (v0 =? 0) || negb (v1 =? 0) then Some (Err (InvalidValue "nvse.reserved" "reserved NVSE bytes must be zero"))
        else
          vendor ← be32_at value 2;
          ty ← index value 6;
          subtype ← index value 7;
          data ← slice_from value 8;
          if negb (vendor =? THREEGPP2_VENDOR_ID) then Some (Ok (NvseUnknown (mkUnknown vendor ty subtype data)))
          else nvse_typed vendor ty subtype data.

Definition application_key (n : Nvse) : Z * Z * Z :=
  match n with
  | AccessNetworkIdentifiers _ => (THREEGPP2_VENDOR_ID, 0x04, 0x01)
  | AnchorPPAddress _ => (THREEGPP2_VENDOR_ID, 0x05, 0x01)
  | AllDormantIndicator => (THREEGPP2_VENDOR_ID, 0x06, 0x01)
  | PdsnCode _ => (THREEGPP2_VENDOR_ID, 0x07, 0x01)
  | SessionParameter (RnPdit _) => (THREEGPP2_VENDOR_ID, 0x08, 0x01)
  | SessionParameter AlwaysOn => (THREEGPP2_VENDOR_ID, 0x08, 0x02)
  | ServiceOption _ => (THREEGPP2_VENDOR_ID, 0x09, 0x01)
  | PdsnEnabledFeature FlowControlEnabled => (THREEGPP2_VENDOR_ID, 0x0a, 0x01)
  | PdsnEnabledFeature PacketBoundaryEnabled => (THREEGPP2_VENDOR_ID, 0x0a, 0x02)
  | PcfEnabledFeature ShortDataIndicationSupported => (THREEGPP2_VENDOR_ID, 0x0b, 0x01)
  | PcfEnabledFeature GreSegmentationEnabled => (THREEGPP2_VENDOR_ID, 0x0b, 0x02)
  | NvseUnknown u => (vendor_id u, application_type u, application_subtype u)
  end.

(** ** The Session Specific Extension *)
Record SessionSpecificExtension := mkSession {
  protocol_type : Z;
  pcf_session_id : Z;
  session_id_version : Z;
  mn_session_reference_id : Z;
  mn_id_type : Z;
  mn_id : list Z
}.
#[export] Instance SessionSpecificExtension_eq_dec : EqDecision SessionSpecificExtension.
Proof. solve_decision. Defined.
Definition SESSION_TYPE : Z := 0x27.

(** The octets of an IMSI behind the first one. *)
Fixpoint validate_msid_digits (even_digits : bool) (msid : list Z) : result Error unit :=
  match msid with
  | [] => Ok tt
  | byte :: rest =>
      let low := Z.land byte 0x0f in
      let high := Z.shiftr byte 4 in
      if 9 <? low then Err (InvalidValue "session.mn_id.low_digit" "IMSI low digit must be BCD encoded")
      else
        let is_last := bool_decide (rest = []) in
        if high =? 0x0f then
          if even_digits && is_last then validate_msid_digits even_digits rest
          else Err (InvalidValue "session.mn_id.filler" "IMSI filler nibble is only valid for the final even-digit octet")
        else if 9 <? high then Err (InvalidValue "session.mn_id.high_digit" "IMSI high digit must be BCD encoded")
        else validate_msid_digits even_digits rest
  end.
Definition validate_session_msid_bcd (msid : list Z) : rust (result Error unit) :=
  first ← index msid 0;
  let first_digit := Z.shiftr first 4 in
  let odd_even := Z.land first 0x0f in
  if 9 <? first_digit then Some (Err (InvalidValue "session.mn_id.first_digit" "first IMSI digit must be BCD encoded"))
  else if negb ((odd_even =? 0) || (odd_even =? 1)) then
    Some (Err (InvalidValue "session.mn_id.odd_even" "odd/even indicator must be 0 or 1"))
  else Some (validate_msid_digits (odd_even =? 0) (drop 1 msid)).

Definition validate_session (s : SessionSpecificExtension) : rust (result Error unit) :=
  if negb (protocol_type s =? PROTOCOL_TYPE_UNSTRUCTURED_BYTE_STREAM) then
    Some (Err (InvalidValue "session.protocol_type" "A.S0017 A11 requires protocol type 0x8881"))
  else if pcf_session_id s =? 0 then Some (Err (InvalidValue "session.pcf_session_id" "pcf_session_id must be non-zero"))
  else if 1 <? session_id_version s then
    Some (Err (InvalidValue "session.session_id_version" "session ID version must be 0 or 1"))
  else if negb ((1 <=? mn_session_reference_id s) && (mn_session_reference_id s <=? 6)) then
    Some (Err (InvalidValue "session.mn_session_reference_id" "MN Session Reference ID must be in the range 1..=6"))
  else if negb (mn_id_type s =? SESSION_SPECIFIC_MSID_TYPE_IMSI) then
    Some (Err (InvalidValue "session.mn_id_type" "MSID type must be IMSI (0x0006)"))
  else if decide (¬ (6 ≤ length (mn_id s) ≤ 8)%nat) then Some (Err (InvalidExtensionLength 6 (length (mn_id s))))
  else validate_session_msid_bcd (mn_id s).

Definition session_encode (s : SessionSpecificExtension) : rust (result Error (list Z)) :=
  _ ←! validate_session s;
  let len := (13 + length (mn_id s))%nat in
  Some (Ok ([SESSION_TYPE; (Z.of_nat len) as_u8] ++ to_be16 (protocol_type s) ++ to_be32 (pcf_session_id s) ++
            [0; (Z.shiftl (session_id_version s) 6) as_u8] ++ to_be16 (mn_session_reference_id s) ++
            to_be16 (mn_id_type s) ++ [(Z.of_nat (length (mn_id s))) as_u8] ++ mn_id s)).

Definition session_decode (input : list Z) : rust (result Error (SessionSpecificExtension * nat)) :=
  if decide (length input < 2)%nat then Some (Err (Truncated 2 (length input)))
  else
    len ← index input 1;
    let len := Z.to_nat len in
    if decide (length input < 2 + len)%nat then Some (Err (Truncated (2 + len) (length input)))
    else
      ty ← index input 0;
      if decide (ty ≠ SESSION_TYPE ∨ (len < 13)%nat) then Some (Err (InvalidExtensionLength 13 len))
      else
        value ← slice input 2 (2 + len);
        v6 ← index value 6;
        if negb (v6 =? 0) then Some (Err (InvalidValue "session.reserved" "reserved session byte must be zero"))
        else
          v7 ← index value 7;
          if negb (Z.land v7 0x3f =? 0) then Some (Err (InvalidValue "session.reserved" "reserved session bits must be zero"))
          else
            mn_len ← index value 12;
            let mn_len := Z.to_nat mn_len in
            if decide (length value ≠ 13 + mn_len)%nat then Some (Err (InvalidExtensionLength (13 + mn_len) (length value)))
            else
              protocol_type ← be16_at value 0;
              pcf_session_id ← be32_at value 2;
              mn_session_reference_id ← be16_at value 8;
              mn_id_type ← be16_at value 10;
              mn_id ← slice value 13 (13 + mn_len);
              let session := mkSession protocol_type pcf_session_id (Z.shiftr v7 6) mn_session_reference_id mn_id_type mn_id in
              _ ←! validate_session session;
              Some (Ok (session, 2 + len)%nat).

(** ** Extensions *)
Inductive Extension :=
| ExtSessionSpecific (s : SessionSpecificExtension)
| ExtAuthentication (a : AuthenticationExtension)
| ExtCriticalVendor (c : CriticalVendorExtension)
| ExtNvse (n : Nvse)
| ExtRaw (r : RawExtension).
#[export] Instance Extension_eq_dec : EqDecision Extension.
Proof. solve_decision. Defined.

Definition extension_type (e : Extension) : Z :=
  match e with
  | ExtSessionSpecific _ => SESSION_TYPE
  | ExtAuthentication a => auth_type_u8 (auth_type a)
  | ExtCriticalVendor _ => CVSE_TYPE
  | ExtNvse _ => NVSE_TYPE
  | ExtRaw r => raw_type r
  end.
Definition extension_encode (e : Extension) : rust (result Error (list Z)) :=
  match e with
  | ExtSessionSpecific s => session_encode s
  | ExtAuthentication a => Some (auth_encode a)
  | ExtCriticalVendor c => Some (cvse_encode c)
  | ExtNvse n => Some (nvse_encode n)
  | ExtRaw r => Some (raw_encode r)
  end.

Definition extension_decode (input : list Z) : rust (result Error Extension) :=
  if decide (length input < 2)%nat then Some (Err (Truncated 2 (length input)))
  else
    extension_type ← index input 0;
    let header_length := if extension_type =? CVSE_TYPE then CVSE_HEADER_LENGTH else 2%nat in
    if decide (length input < header_length)%nat then Some (Err (Truncated header_length (length input)))
    else
      len ← (if extension_type =? CVSE_TYPE then be16_at input 2 else index input 1);
      let len := Z.to_nat len in
      if decide (length input ≠ header_length + len)%nat then Some (Err (Truncated (header_length + len) (length input)))
      else
        value ← slice_from input header_length;
        if extension_type =? SESSION_TYPE then
          '(extension, used) ←! session_decode input;
          if decide (used ≠ length input) then Some (Err (Truncated (length input) used))
          else Some (Ok (ExtSessionSpecific extension))
        else if (extension_type =? 0x20) || (extension_type =? 0x28) then
          a ←! auth_decode extension_type value; Some (Ok (ExtAuthentication a))
        else if extension_type =? CVSE_TYPE then c ←! cvse_decode input; Some (Ok (ExtCriticalVendor c))
        else if extension_type =? 0x86 then n ←! nvse_decode input; Some (Ok (ExtNvse n))
        else Some (Ok (ExtRaw (mkRaw extension_type value))).

(** ** What each message requires *)
Definition invalid_nvse (t : MessageType) : result Error unit :=
  Err (InvalidValue "nvse"
         match t with
         | TRegistrationRequest => "NVSE content is not valid for A11-Registration Request"
         | TRegistrationReply => "NVSE content is not valid for A11-Registration Reply"
         | TRegistrationUpdate => "NVSE content is not valid for A11-Registration Update"
         | TRegistrationAcknowledge => "NVSE content is not valid for A11-Registration Acknowledge"
         | TSessionUpdate => "NVSE content is not valid for A11-Session Update"
         | TSessionUpdateAcknowledge => "NVSE content is not valid for A11-Session Update Acknowledge"
         | TCapabilitiesInfo => "NVSE content is not valid for A11-Capabilities Info"
         | TCapabilitiesInfoAcknowledge => "NVSE content is not valid for A11-Capabilities Info Ack"
         end).
Definition validate_nvse_for_message (n : Nvse) (t : MessageType) : result Error unit :=
  match t, n with
  | TRegistrationRequest, (AccessNetworkIdentifiers _ | AnchorPPAddress _ | AllDormantIndicator | ServiceOption _ | PcfEnabledFeature _ | NvseUnknown _) => Ok tt
  | TRegistrationReply, (AnchorPPAddress _ | SessionParameter _ | PdsnEnabledFeature _ | NvseUnknown _) => Ok tt
  | TRegistrationUpdate, (PdsnCode _ | NvseUnknown _) => Ok tt
  | TSessionUpdate, (AnchorPPAddress _ | SessionParameter _ | NvseUnknown _) => Ok tt
  | TCapabilitiesInfo, (PdsnEnabledFeature _ | PcfEnabledFeature _ | PdsnCode _ | NvseUnknown _) => Ok tt
  | TCapabilitiesInfoAcknowledge, (PdsnEnabledFeature _ | PcfEnabledFeature _ | NvseUnknown _) => Ok tt
  | _, _ => invalid_nvse t
  end.

(** [set.insert(x)] where a second insert of [x] is an error. *)
Definition insert_new `{Countable A} (x : A) (seen : gset A) (e : Error) : result Error (gset A) :=
  if decide (x ∈ seen) then Err e else Ok ({[ x ]} ∪ seen).

(** The three sets of keys seen so far in a list of extensions. *)
Record Seen := mkSeen { raw_types : gset Z; auth_types : gset Z; nvse_keys : gset (Z * Z * Z) }.
Definition Seen_empty : Seen := mkSeen ∅ ∅ ∅.
Definition see (session_error : Error) (e : Extension) (s : Seen) : result Error Seen :=
  match e with
  | ExtSessionSpecific _ => Err session_error
  | ExtAuthentication a =>
      let key := auth_type_u8 (auth_type a) in
      x ←r insert_new key (auth_types s) (DuplicateExtension key); Ok (mkSeen (raw_types s) x (nvse_keys s))
  | ExtCriticalVendor _ => Ok s
  | ExtNvse n =>
      x ←r insert_new (application_key n) (nvse_keys s) (DuplicateExtension NVSE_TYPE); Ok (mkSeen (raw_types s) (auth_types s) x)
  | ExtRaw r =>
      x ←r insert_new (raw_type r) (raw_types s) (DuplicateExtension (raw_type r)); Ok (mkSeen x (auth_types s) (nvse_keys s))
  end.

Fixpoint validate_extensions_from (s : Seen) (extensions : list Extension) (t : MessageType) : result Error unit :=
  match extensions with
  | [] => Ok tt
  | e :: rest =>
      s ←r see (InvalidValue "extensions" "session specific extension is carried in the mandatory session field") e s;
      _ ←r (match e with ExtNvse n => validate_nvse_for_message n t | _ => Ok tt end);
      validate_extensions_from s rest t
  end.
Definition validate_extensions (extensions : list Extension) (t : MessageType) : result Error unit :=
  validate_extensions_from Seen_empty extensions t.

Fixpoint validate_nvse_list_from (keys : gset (Z * Z * Z)) (nvses : list Nvse) (t : MessageType) : result Error unit :=
  match nvses with
  | [] => Ok tt
  | n :: rest =>
      keys ←r insert_new (application_key n) keys (DuplicateExtension NVSE_TYPE);
      _ ←r validate_nvse_for_message n t;
      validate_nvse_list_from keys rest t
  end.
Definition validate_nvse_list (nvses : list Nvse) (t : MessageType) : result Error unit := validate_nvse_list_from ∅ nvses t.

Definition validate_authentication_extension (a : AuthenticationExtension) (expected_type : AuthenticationExtensionType)
    (context : string) : result Error unit :=
  ensure (bool_decide (auth_type a = expected_type)) (InvalidValue context "unexpected authentication extension type").
Definition required_extension_authentication (extensions : list Extension) (expected_type : AuthenticationExtensionType)
    (context : string) : result Error AuthenticationExtension :=
  match last extensions with
  | None => Err (InvalidValue context "required authentication extension is missing")
  | Some (ExtAuthentication a) =>
      if decide (auth_type a = expected_type) then Ok a
      else Err (InvalidValue context "unexpected authentication extension type")
  | Some _ => Err (InvalidValue context "required authentication extension is missing")
  end.
Definition require_authentication_extension (extensions : list Extension) (expected_type : AuthenticationExtensionType)
    (context : string) : result Error unit :=
  _ ←r required_extension_authentication extensions expected_type context; Ok tt.

Definition validate_registration_reply_code (code : Z) : result Error unit :=
  ensure (bool_decide (code ∈ [0x00; 0x80; 0x81; 0x82; 0x83; 0x85; 0x86; 0x88; 0x89; 0x8a; 0x8d]))
    (InvalidValue "registration reply.code" "unsupported A.S0017 registration reply code").
Definition validate_update_status (status : Z) (allow_session_parameters_not_updated : bool) (context : string)
    : result Error unit :=
  ensure (if allow_session_parameters_not_updated then bool_decide (status ∈ [0x00; 0x80; 0x83; 0x85; 0x86; 0xc9])
          else bool_decide (status ∈ [0x00; 0x80; 0x83; 0x85; 0x86]))
    (InvalidValue context "unsupported A.S0017 update status value").
Definition validate_identification_non_zero (identification : Z) : result Error unit :=
  ensure (negb (identification =? 0)) (InvalidValue "identification" "identification must be non-zero").
Definition validate_home_address_zero (address : list Z) (context : string) : result Error unit :=
  ensure (bool_decide (address = [0; 0; 0; 0])) (InvalidValue context "home address must be 0.0.0.0 on the A11 interface").
Definition validate_reserved_2 (reserved : list Z) (context reason : string) : result Error unit :=
  ensure (bool_decide (reserved = [0; 0])) (InvalidValue context reason).
Definition validate_reserved_3 (reserved : list Z) (context reason : string) : result Error unit :=
  ensure (bool_decide (reserved = [0; 0; 0])) (InvalidValue context reason).

(** ** Messages *)
Record RegistrationRequest := mkRequest {
  rq_flags : Z; rq_lifetime : Z; rq_home_address : list Z; rq_home_agent : list Z; rq_care_of_address : list Z;
  rq_identification : Z; rq_session : SessionSpecificExtension; rq_extensions : list Extension
}.
Record RegistrationReply := mkReply {
  rp_code : Z; rp_lifetime : Z; rp_home_address : list Z; rp_home_agent : list Z;
  rp_identification : Z; rp_session : SessionSpecificExtension; rp_extensions : list Extension
}.
Record RegistrationUpdate := mkUpdate {
  ru_reserved : list Z; ru_home_address : list Z; ru_home_agent : list Z; ru_identification : Z;
  ru_session : SessionSpecificExtension; ru_nvses : list Nvse; ru_authentication : AuthenticationExtension
}.
Record RegistrationAcknowledge := mkAcknowledge {
  ra_reserved : list Z; ra_status : Z; ra_home_address : list Z; ra_care_of_address : list Z; ra_identification : Z;
  ra_session : SessionSpecificExtension; ra_authentication : AuthenticationExtension
}.
Record SessionUpdate := mkSessionUpdate {
  su_reserved : list Z; su_home_address : list Z; su_home_agent : list Z; su_identification : Z;
  su_session : SessionSpecificExtension; su_nvses : list Nvse; su_authentication : AuthenticationExtension
}.
Record SessionUpdateAcknowledge := mkSessionUpdateAck {
  sa_reserved : list Z; sa_status : Z; sa_home_address : list Z; sa_care_of_address : list Z; sa_identification : Z;
  sa_session : SessionSpecificExtension; sa_authentication : AuthenticationExtension
}.
Record CapabilitiesInfo := mkCapabilities {
  ci_reserved : list Z; ci_home_address : list Z; ci_home_agent : list Z; ci_care_of_address : list Z;
  ci_identification : Z; ci_nvses : list Nvse; ci_authentication : AuthenticationExtension
}.
Record CapabilitiesInfoAcknowledge := mkCapabilitiesAck {
  ca_reserved : list Z; ca_home_address : list Z; ca_care_of_address : list Z;
  ca_identification : Z; ca_nvses : list Nvse; ca_authentication : AuthenticationExtension
}.
Inductive Message :=
| MRegistrationRequest (m : RegistrationRequest)
| MRegistrationReply (m : RegistrationReply)
| MRegistrationUpdate (m : RegistrationUpdate)
| MRegistrationAcknowledge (m : RegistrationAcknowledge)
| MSessionUpdate (m : SessionUpdate)
| MSessionUpdateAcknowledge (m : SessionUpdateAcknowledge)
| MCapabilitiesInfo (m : CapabilitiesInfo)
| MCapabilitiesInfoAcknowledge (m : CapabilitiesInfoAcknowledge).

Definition message_type (m : Message) : MessageType :=
  match m with
  | MRegistrationRequest _ => TRegistrationRequest
  | MRegistrationReply _ => TRegistrationReply
  | MRegistrationUpdate _ => TRegistrationUpdate
  | MRegistrationAcknowledge _ => TRegistrationAcknowledge
  | MSessionUpdate _ => TSessionUpdate
  | MSessionUpdateAcknowledge _ => TSessionUpdateAcknowledge
  | MCapabilitiesInfo _ => TCapabilitiesInfo
  | MCapabilitiesInfoAcknowledge _ => TCapabilitiesInfoAcknowledge
  end.

(** *** Validation *)
Definition request_validate (m : RegistrationRequest) : rust (result Error unit) :=
  _ ←! validate_session (rq_session m);
  Some (
    _ ←r ensure ((rq_flags m =? 0x0a) || (rq_flags m =? 0x8a))
           (InvalidValue "registration request.flags" "flags must encode one of the A.S0017 request flag patterns");
    _ ←r ensure (negb (rq_lifetime m =? 65535)) (InvalidValue "registration request.lifetime" "lifetime must not be 0xffff");
    _ ←r validate_home_address_zero (rq_home_address m) "registration request.home_address";
    _ ←r validate_extensions (rq_extensions m) TRegistrationRequest;
    _ ←r require_authentication_extension (rq_extensions m) MobileHome "registration request.extensions";
    validate_identification_non_zero (rq_identification m)).
Definition reply_validate (m : RegistrationReply) : rust (result Error unit) :=
  _ ←! validate_session (rp_session m);
  Some (
    _ ←r validate_registration_reply_code (rp_code m);
    _ ←r ensure (negb (rp_lifetime m =? 65535)) (InvalidValue "registration reply.lifetime" "lifetime must not be 0xffff");
    _ ←r validate_home_address_zero (rp_home_address m) "registration reply.home_address";
    _ ←r validate_extensions (rp_extensions m) TRegistrationReply;
    _ ←r require_authentication_extension (rp_extensions m) MobileHome "registration reply.extensions";
    validate_identification_non_zero (rp_identification m)).
Definition update_validate (m : RegistrationUpdate) : rust (result Error unit) :=
  _ ←! validate_session (ru_session m);
  Some (
    _ ←r validate_reserved_3 (ru_reserved m) "registration update.reserved" "reserved octets must be zero";
    _ ←r validate_home_address_zero (ru_home_address m) "registration update.home_address";
    _ ←r validate_nvse_list (ru_nvses m) TRegistrationUpdate;
    _ ←r validate_authentication_extension (ru_authentication m) AuthRegistrationUpdate
           "registration update.authentication_extension";
    validate_identification_non_zero (ru_identification m)).
Definition acknowledge_validate (m : RegistrationAcknowledge) : rust (result Error unit) :=
  _ ←! validate_session (ra_session m);
  Some (
    _ ←r validate_reserved_2 (ra_reserved m) "registration acknowledge.reserved" "reserved octets must be zero";
    _ ←r validate_update_status (ra_status m) false "registration acknowledge.status";
    _ ←r validate_home_address_zero (ra_home_address m) "registration acknowledge.home_address";
    _ ←r validate_authentication_extension (ra_authentication m) AuthRegistrationUpdate
           "registration acknowledge.authentication_extension";
    validate_identification_non_zero (ra_identification m)).
Definition is_session_content (n : Nvse) : bool :=
  match n with AnchorPPAddress _ | SessionParameter _ | NvseUnknown _ => true | _ => false end.
Definition session_update_validate (m : SessionUpdate) : rust (result Error unit) :=
  _ ←! validate_session (su_session m);
  Some (
    _ ←r validate_reserved_3 (su_reserved m) "session update.reserved" "reserved octets must be zero";
    _ ←r validate_home_address_zero (su_home_address m) "session update.home_address";
    _ ←r validate_nvse_list (su_nvses m) TSessionUpdate;
    _ ←r ensure (existsb is_session_content (su_nvses m))
           (InvalidValue "session update.nvses" "session update must carry session-parameter or anchor-P-P NVSE content");
    _ ←r validate_authentication_extension (su_authentication m) AuthRegistrationUpdate
           "session update.authentication_extension";
    validate_identification_non_zero (su_identification m)).
Definition session_update_ack_validate (m : SessionUpdateAcknowledge) : rust (result Error unit) :=
  _ ←! validate_session (sa_session m);
  Some (
    _ ←r validate_reserved_2 (sa_reserved m) "session update acknowledge.reserved" "reserved octets must be zero";
    _ ←r validate_update_status (sa_status m) true "session update acknowledge.status";
    _ ←r validate_home_address_zero (sa_home_address m) "session update acknowledge.home_address";
    _ ←r validate_authentication_extension (sa_authentication m) AuthRegistrationUpdate
           "session update acknowledge.authentication_extension";
    validate_identification_non_zero (sa_identification m)).
Definition is_feature_content (n : Nvse) : bool :=
  match n with PdsnEnabledFeature _ | PcfEnabledFeature _ | NvseUnknown _ => true | _ => false end.
Definition capabilities_validate (m : CapabilitiesInfo) : result Error unit :=
  _ ←r validate_reserved_3 (ci_reserved m) "capabilities info.reserved" "reserved octets must be zero";
  _ ←r validate_home_address_zero (ci_home_address m) "capabilities info.home_address";
  _ ←r validate_nvse_list (ci_nvses m) TCapabilitiesInfo;
  _ ←r ensure (existsb is_feature_content (ci_nvses m))
         (InvalidValue "capabilities info.nvses" "capabilities info must include feature NVSE content");
  _ ←r validate_authentication_extension (ci_authentication m) AuthRegistrationUpdate
         "capabilities info.authentication_extension";
  validate_identification_non_zero (ci_identification m).
Definition capabilities_ack_validate (m : CapabilitiesInfoAcknowledge) : result Error unit :=
  _ ←r validate_reserved_3 (ca_reserved m) "capabilities info acknowledge.reserved" "reserved octets must be zero";
  _ ←r validate_home_address_zero (ca_home_address m) "capabilities info acknowledge.home_address";
  _ ←r validate_nvse_list (ca_nvses m) TCapabilitiesInfoAcknowledge;
  _ ←r ensure (existsb is_feature_content (ca_nvses m))
         (InvalidValue "capabilities info acknowledge.nvses" "capabilities info acknowledge must include feature NVSE content");
  _ ←r validate_authentication_extension (ca_authentication m) AuthRegistrationUpdate
         "capabilities info acknowledge.authentication_extension";
  validate_identification_non_zero (ca_identification m).

(** *** Encoding *)
Fixpoint encode_extensions (extensions : list Extension) : rust (result Error (list Z)) :=
  match extensions with
  | [] => Some (Ok [])
  | e :: rest => a ←! extension_encode e; b ←! encode_extensions rest; Some (Ok (a ++ b))
  end.
Fixpoint encode_nvses (nvses : list Nvse) : result Error (list Z) :=
  match nvses with
  | [] => Ok []
  | n :: rest => a ←r nvse_encode n; b ←r encode_nvses rest; Ok (a ++ b)
  end.

Definition encode_request (t : MessageType) (m : RegistrationRequest) : rust (result Error (list Z)) :=
  _ ←! request_validate m;
  session ←! session_encode (rq_session m);
  extensions ←! encode_extensions (rq_extensions m);
  Some (Ok ([message_type_u8 t; rq_flags m] ++ to_be16 (rq_lifetime m) ++ rq_home_address m ++ rq_home_agent m ++
            rq_care_of_address m ++ to_be64 (rq_identification m) ++ session ++ extensions)).
Definition encode_reply (t : MessageType) (m : RegistrationReply) : rust (result Error (list Z)) :=
  _ ←! reply_validate m;
  session ←! session_encode (rp_session m);
  extensions ←! encode_extensions (rp_extensions m);
  Some (Ok ([message_type_u8 t; rp_code m] ++ to_be16 (rp_lifetime m) ++ rp_home_address m ++ rp_home_agent m ++
            to_be64 (rp_identification m) ++ session ++ extensions)).
Definition encode_update (t : MessageType) (m : RegistrationUpdate) : rust (result Error (list Z)) :=
  _ ←! update_validate m;
  session ←! session_encode (ru_session m);
  nvses ←! Some (encode_nvses (ru_nvses m));
  auth ←! Some (auth_encode (ru_authentication m));
  Some (Ok ([message_type_u8 t] ++ ru_reserved m ++ ru_home_address m ++ ru_home_agent m ++
            to_be64 (ru_identification m) ++ session ++ nvses ++ auth)).
Definition encode_acknowledge (t : MessageType) (m : RegistrationAcknowledge) : rust (result Error (list Z)) :=
  _ ←! acknowledge_validate m;
  session ←! session_encode (ra_session m);
  auth ←! Some (auth_encode (ra_authentication m));
  Some (Ok ([message_type_u8 t] ++ ra_reserved m ++ [ra_status m] ++ ra_home_address m ++ ra_care_of_address m ++
            to_be64 (ra_identification m) ++ session ++ auth)).
Definition encode_session_update (t : MessageType) (m : SessionUpdate) : rust (result Error (list Z)) :=
  _ ←! session_update_validate m;
  session ←! session_encode (su_session m);
  nvses ←! Some (encode_nvses (su_nvses m));
  auth ←! Some (auth_encode (su_authentication m));
  Some (Ok ([message_type_u8 t] ++ su_reserved m ++ su_home_address m ++ su_home_agent m ++
            to_be64 (su_identification m) ++ session ++ nvses ++ auth)).
Definition encode_session_update_acknowledge (t : MessageType) (m : SessionUpdateAcknowledge) : rust (result Error (list Z)) :=
  _ ←! session_update_ack_validate m;
  session ←! session_encode (sa_session m);
  auth ←! Some (auth_encode (sa_authentication m));
  Some (Ok ([message_type_u8 t] ++ sa_reserved m ++ [sa_status m] ++ sa_home_address m ++ sa_care_of_address m ++
            to_be64 (sa_identification m) ++ session ++ auth)).
Definition encode_capabilities_info (t : MessageType) (m : CapabilitiesInfo) : rust (result Error (list Z)) :=
  _ ←! Some (capabilities_validate m);
  nvses ←! Some (encode_nvses (ci_nvses m));
  auth ←! Some (auth_encode (ci_authentication m));
  Some (Ok ([message_type_u8 t] ++ ci_reserved m ++ ci_home_address m ++ ci_home_agent m ++ ci_care_of_address m ++
            to_be64 (ci_identification m) ++ nvses ++ auth)).
Definition encode_capabilities_info_ack (t : MessageType) (m : CapabilitiesInfoAcknowledge) : rust (result Error (list Z)) :=
  _ ←! Some (capabilities_ack_validate m);
  nvses ←! Some (encode_nvses (ca_nvses m));
  auth ←! Some (auth_encode (ca_authentication m));
  Some (Ok ([message_type_u8 t] ++ ca_reserved m ++ ca_home_address m ++ ca_care_of_address m ++
            to_be64 (ca_identification m) ++ nvses ++ auth)).

Definition encode (m : Message) : rust (result Error (list Z)) :=
  match m with
  | MRegistrationRequest m => encode_request TRegistrationRequest m
  | MRegistrationReply m => encode_reply TRegistrationReply m
  | MRegistrationUpdate m => encode_update TRegistrationUpdate m
  | MRegistrationAcknowledge m => encode_acknowledge TRegistrationAcknowledge m
  | MSessionUpdate m => encode_session_update TSessionUpdate m
  | MSessionUpdateAcknowledge m => encode_session_update_acknowledge TSessionUpdateAcknowledge m
  | MCapabilitiesInfo m => encode_capabilities_info TCapabilitiesInfo m
  | MCapabilitiesInfoAcknowledge m => encode_capabilities_info_ack TCapabilitiesInfoAcknowledge m
  end.

(** *** Decoding *)
(** [fuel] bounds the iterations; every one consumes at least two octets. *)
Fixpoint collect_loop (fuel : nat) (input : list Z) (offset : nat) (seen : Seen) (extensions : list Extension)
    : rust (result Error (list Extension)) :=
  if decide (offset < length input)%nat then
    match fuel with
    | O => panic!
    | S fuel =>
        if decide (length input - offset < 2)%nat then Some (Err (Truncated (offset + 2) (length input)))
        else
          ty ← index input offset;
          '(header_length, len) ←!
            (if ty =? CVSE_TYPE then
               if decide (length input - offset < CVSE_HEADER_LENGTH)%nat then
                 Some (Err (Truncated (offset + CVSE_HEADER_LENGTH) (length input)))
               else n ← be16_at input (offset + 2); Some (Ok (CVSE_HEADER_LENGTH, Z.to_nat n))
             else n ← index input (offset + 1); Some (Ok (2%nat, Z.to_nat n)));
          let stop := (offset + header_length + len)%nat in
          if decide (length input < stop)%nat then Some (Err (Truncated stop (length input)))
          else
            w ← slice input offset stop;
            extension ←! extension_decode w;
            seen ←! Some (see (InvalidValue "extensions"
                           "duplicate Session Specific Extension must not appear after the base session field") extension seen);
            collect_loop fuel input stop seen (extensions ++ [extension])
    end
  else Some (Ok extensions).
Definition collect_extensions (input : list Z) : rust (result Error (list Extension)) :=
  collect_loop (length input) input 0 Seen_empty [].

Definition decode_required_authentication_extension (input : list Z) (expected_type : AuthenticationExtensionType)
    (context : string) : rust (result Error AuthenticationExtension) :=
  if decide (input = []) then Some (Err (Truncated 2 0))
  else
    extension ←! extension_decode input;
    match extension with
    | ExtAuthentication extension =>
        _ ←! Some (validate_authentication_extension extension expected_type context);
        Some (Ok extension)
    | _ => Some (Err (InvalidValue context "message must end with the required authentication extension"))
    end.

Fixpoint nvse_auth_loop (fuel : nat) (input : list Z) (offset : nat) (expected_type : AuthenticationExtensionType)
    (context : string) (keys : gset (Z * Z * Z)) (nvses : list Nvse) : rust (result Error (list Nvse * AuthenticationExtension)) :=
  if decide (offset < length input)%nat then
    match fuel with
    | O => panic!
    | S fuel =>
        if decide (length input - offset < 2)%nat then Some (Err (Truncated (offset + 2) (length input)))
        else
          ty ← index input offset;
          len ← index input (offset + 1);
          let stop := (offset + 2 + Z.to_nat len)%nat in
          if decide (length input < stop)%nat then Some (Err (Truncated stop (length input)))
          else if ty =? auth_type_u8 expected_type then
            if decide (stop ≠ length input) then
              Some (Err (InvalidValue context "authentication extension must terminate the message"))
            else
              w ← slice input offset stop;
              a ←! decode_required_authentication_extension w expected_type context;
              Some (Ok (nvses, a))
          else if negb (ty =? NVSE_TYPE) then
            Some (Err (InvalidValue context "only NVSEs may appear before the required authentication extension"))
          else
            w ← slice input offset stop;
            nvse ←! nvse_decode w;
            keys ←! Some (insert_new (application_key nvse) keys (DuplicateExtension NVSE_TYPE));
            nvse_auth_loop fuel input stop expected_type context keys (nvses ++ [nvse])
    end
  else Some (Err (InvalidValue context "required authentication extension is missing")).
Definition decode_nvse_sequence_with_auth (input : list Z) (expected_type : AuthenticationExtensionType) (context : string)
    : rust (result Error (list Nvse * AuthenticationExtension)) :=
  if decide (input = []) then Some (Err (Truncated 2 0))
  else nvse_auth_loop (length input) input 0 expected_type context ∅ [].

Definition decode_request (input : list Z) : rust (result Error RegistrationRequest) :=
  if decide (length input < 24)%nat then Some (Err (Truncated 24 (length input)))
  else
    w ← slice_from input 24;
    '(session, used) ←! session_decode w;
    flags ← index input 1;
    lifetime ← be16_at input 2;
    home_address ← octets_at input 4 4;
    home_agent ← octets_at input 8 4;
    care_of_address ← octets_at input 12 4;
    identification ← be64_at input 16;
    w ← slice_from input (24 + used);
    extensions ←! collect_extensions w;
    let message := mkRequest flags lifetime home_address home_agent care_of_address identification session extensions in
    _ ←! request_validate message;
    Some (Ok message).
Definition decode_reply (input : list Z) : rust (result Error RegistrationReply) :=
  if decide (length input < 20)%nat then Some (Err (Truncated 20 (length input)))
  else
    w ← slice_from input 20;
    '(session, used) ←! session_decode w;
    code ← index input 1;
    lifetime ← be16_at input 2;
    home_address ← octets_at input 4 4;
    home_agent ← octets_at input 8 4;
    identification ← be64_at input 12;
    w ← slice_from input (20 + used);
    extensions ←! collect_extensions w;
    let message := mkReply code lifetime home_address home_agent identification session extensions in
    _ ←! reply_validate message;
    Some (Ok message).
Definition decode_update (input : list Z) : rust (result Error RegistrationUpdate) :=
  if decide (length input < 20)%nat then Some (Err (Truncated 20 (length input)))
  else
    w ← slice_from input 20;
    '(session, used) ←! session_decode w;
    w ← slice_from input (20 + used);
    '(nvses, authentication) ←! decode_nvse_sequence_with_auth w AuthRegistrationUpdate "registration update";
    reserved ← octets_at input 1 3;
    home_address ← octets_at input 4 4;
    home_agent ← octets_at input 8 4;
    identification ← be64_at input 12;
    let message := mkUpdate reserved home_address home_agent identification session nvses authentication in
    _ ←! update_validate message;
    Some (Ok message).
Definition decode_acknowledge (input : list Z) : rust (result Error RegistrationAcknowledge) :=
  if decide (length input < 20)%nat then Some (Err (Truncated 20 (length input)))
  else
    w ← slice_from input 20;
    '(session, used) ←! session_decode w;
    reserved ← octets_at input 1 2;
    status ← index input 3;
    home_address ← octets_at input 4 4;
    care_of_address ← octets_at input 8 4;
    identification ← be64_at input 12;
    w ← slice_from input (20 + used);
    authentication ←! decode_required_authentication_extension w AuthRegistrationUpdate "registration acknowledge";
    let message := mkAcknowledge reserved status home_address care_of_address identification session authentication in
    _ ←! acknowledge_validate message;
    Some (Ok message).
Definition decode_session_update (input : list Z) : rust (result Error SessionUpdate) :=
  if decide (length input < 20)%nat then Some (Err (Truncated 20 (length input)))
  else
    w ← slice_from input 20;
    '(session, used) ←! session_decode w;
    w ← slice_from input (20 + used);
    '(nvses, authentication) ←! decode_nvse_sequence_with_auth w AuthRegistrationUpdate "session update";
    reserved ← octets_at input 1 3;
    home_address ← octets_at input 4 4;
    home_agent ← octets_at input 8 4;
    identification ← be64_at input 12;
    let message := mkSessionUpdate reserved home_address home_agent identification session nvses authentication in
    _ ←! session_update_validate message;
    Some (Ok message).
Definition decode_session_update_acknowledge (input : list Z) : rust (result Error SessionUpdateAcknowledge) :=
  if decide (length input < 20)%nat then Some (Err (Truncated 20 (length input)))
  else
    w ← slice_from input 20;
    '(session, used) ←! session_decode w;
    reserved ← octets_at input 1 2;
    status ← index input 3;
    home_address ← octets_at input 4 4;
    care_of_address ← octets_at input 8 4;
    identification ← be64_at input 12;
    w ← slice_from input (20 + used);
    authentication ←! decode_required_authentication_extension w AuthRegistrationUpdate "session update acknowledge";
    let message := mkSessionUpdateAck reserved status home_address care_of_address identification session authentication in
    _ ←! session_update_ack_validate message;
    Some (Ok message).
Definition decode_capabilities_info (input : list Z) : rust (result Error CapabilitiesInfo) :=
  if decide (length input < 24)%nat then Some (Err (Truncated 24 (length input)))
  else
    w ← slice_from input 24;
    '(nvses, authentication) ←! decode_nvse_sequence_with_auth w AuthRegistrationUpdate "capabilities info";
    reserved ← octets_at input 1 3;
    home_address ← octets_at input 4 4;
    home_agent ← octets_at input 8 4;
    care_of_address ← octets_at input 12 4;
    identification ← be64_at input 16;
    let message := mkCapabilities reserved home_address home_agent care_of_address identification nvses authentication in
    _ ←! Some (capabilities_validate message);
    Some (Ok message).
Definition decode_capabilities_info_ack (input : list Z) : rust (result Error CapabilitiesInfoAcknowledge) :=
  if decide (length input < 20)%nat then Some (Err (Truncated 20 (length input)))
  else
    w ← slice_from input 20;
    '(nvses, authentication) ←! decode_nvse_sequence_with_auth w AuthRegistrationUpdate "capabilities info acknowledge";
    reserved ← octets_at input 1 3;
    home_address ← octets_at input 4 4;
    care_of_address ← octets_at input 8 4;
    identification ← be64_at input 12;
    let message := mkCapabilitiesAck reserved home_address care_of_address identification nvses authentication in
    _ ←! Some (capabilities_ack_validate message);
    Some (Ok message).

Definition decode_message (input : list Z) : rust (result Error Message) :=
  match input with
  | [] => Some (Err EmptyMessage)
  | ty :: _ =>
      t ←! Some (message_type_from_u8 ty);
      match t with
      | TRegistrationRequest => m ←! decode_request input; Some (Ok (MRegistrationRequest m))
      | TRegistrationReply => m ←! decode_reply input; Some (Ok (MRegistrationReply m))
      | TRegistrationUpdate => m ←! decode_update input; Some (Ok (MRegistrationUpdate m))
      | TRegistrationAcknowledge => m ←! decode_acknowledge input; Some (Ok (MRegistrationAcknowledge m))
      | TSessionUpdate => m ←! decode_session_update input; Some (Ok (MSessionUpdate m))
      | TSessionUpdateAcknowledge => m ←! decode_session_update_acknowledge input; Some (Ok (MSessionUpdateAcknowledge m))
      | TCapabilitiesInfo => m ←! decode_capabilities_info input; Some (Ok (MCapabilitiesInfo m))
      | TCapabilitiesInfoAcknowledge => m ←! decode_capabilities_info_ack input; Some (Ok (MCapabilitiesInfoAcknowledge m))
      end
  end.

End A11.
