(* ===== verification/A11CodecProofs.v ===== *)
(** * Correctness of the A11 codec

    Every extension and message that is encoded decodes to itself; the decoders return on
    every input; what is decoded is, up to the two NVSE values only the encoder checks, the
    encoding of what it decodes to. *)
From stdpp Require Import strings.
From S2P Require Import Prelude Octets A11Codec.
Import A11.

(** ** Generic steps *)
Lemma length_as_u8 n : (n ≤ 255)%nat → (Z.of_nat n) as_u8 = Z.of_nat n.
Proof. intros. apply wrap_small. unfold is_u. lia. Qed.

Lemma and_then_inv {E A B} (m : rust (result E A)) (k : A → rust (result E B)) b :
  and_then m k = Some (Ok b) → ∃ a, m = Some (Ok a) ∧ k a = Some (Ok b).
Proof. destruct m as [[a|e]|]; cbn; [eauto|done..]. Qed.
Lemma rbind_inv {E A B} (m : result E A) (k : A → result E B) b :
  rbind m k = Ok b → ∃ a, m = Ok a ∧ k a = Ok b.
Proof. destruct m; cbn; [eauto|done]. Qed.
Lemma ensure_inv {E} b (e : E) u : ensure b e = Ok u → b = true.
Proof. destruct b; [done|]. by intros. Qed.

Lemma index_eq_drop (l : list Z) i v : index l i = Some v → drop i l = v :: drop (S i) l.
Proof. unfold index. apply drop_S. Qed.

(** ** Authentication extensions *)
Lemma auth_type_from_to t : auth_type_from_u8 (auth_type_u8 t) = Ok t.
Proof. by destruct t. Qed.
Lemma auth_type_from_inv z t : auth_type_from_u8 z = Ok t → auth_type_u8 t = z.
Proof.
  unfold auth_type_from_u8. destruct (Z.eqb_spec z 0x20); [by intros [= <-]|].
  destruct (Z.eqb_spec z 0x28); [by intros [= <-]|done].
Qed.

Lemma auth_encode_inv a w :
  auth_encode a = Ok w →
  security_parameter_index a ≠ 0 ∧ length (authenticator a) = 16%nat ∧
  w = [auth_type_u8 (auth_type a); 20] ++ to_be32 (security_parameter_index a) ++ authenticator a.
Proof.
  unfold auth_encode. destruct (Z.eqb_spec (security_parameter_index a) 0); [done|].
  destruct (decide _) as [|Hl]; [done|]. intros [= <-]. apply dec_stable in Hl. by rewrite Hl.
Qed.
Lemma auth_decode_encode a w :
  auth_encode a = Ok w → auth_decode (auth_type_u8 (auth_type a)) (drop 2 w) = Some (Ok a).
Proof.
  intros (Hs & Hl & ->)%auth_encode_inv.
  change (drop 2 _) with (to_be32 (security_parameter_index a) ++ authenticator a). unfold auth_decode.
  rewrite decide_False by (rewrite length_app, length_to_be32; lia).
  pose proof (be32_at_app [] (authenticator a) (security_parameter_index a) 0 eq_refl) as Hb. cbn [app] in Hb.
  rewrite Hb, bind_some. destruct (Z.eqb_spec (security_parameter_index a) 0); [done|].
  rewrite slice_from_app, bind_some by done. rewrite decide_False by lia. rewrite auth_type_from_to. by destruct a.
Qed.
Lemma auth_decode_total ty v :
  yields (λ a, bytes v → auth_encode a = Ok ([ty; Z.of_nat (length v)] ++ v) ∧ auth_type_u8 (auth_type a) = ty) (auth_decode ty v).
Proof.
  unfold auth_decode. destruct (decide _) as [|Hl]; [done|].
  destruct (be32_at_drop v 0) as (spi & -> & Hd); [lia|]. rewrite bind_some. destruct (Z.eqb_spec spi 0) as [|Hs]; [done|].
  rewrite slice_from_total, bind_some by lia. destruct (decide _) as [|Ha]; [done|]. apply dec_stable in Ha.
  destruct (auth_type_from_u8 ty) as [t|] eqn:Ht; [|done]. cbn. intros Hb. apply auth_type_from_inv in Ht. subst ty.
  split; [|done]. unfold auth_encode. cbn [security_parameter_index authenticator auth_type].
  destruct (Z.eqb_spec spi 0); [done|]. rewrite Ha, decide_False by lia. rewrite length_drop in Ha.
  replace (length v) with 20%nat by lia. specialize (Hd Hb). rewrite drop_0 in Hd. by rewrite Hd at 2.
Qed.

(** ** Normal vendor extensions *)
(** The values the decoder takes and the encoder refuses. *)
Definition nvse_encodable (n : Nvse) : Prop :=
  match n with
  | PdsnCode code => pdsn_code_supported code = true
  | SessionParameter (RnPdit value) => value ≠ 0
  | _ => True
  end.
(** A typed extension is not hidden behind [Unknown]; fields fit their types. *)
Definition known_keys : list (Z * Z) :=
  [(0x04, 0x01); (0x05, 0x01); (0x06, 0x01); (0x07, 0x01); (0x08, 0x01); (0x08, 0x02); (0x09, 0x01);
   (0x0a, 0x01); (0x0a, 0x02); (0x0b, 0x01); (0x0b, 0x02)].
Definition nvse_wf (n : Nvse) : Prop :=
  match n with
  | AnchorPPAddress address => length address = 4%nat
  | ServiceOption value => is_u16 value
  | NvseUnknown u => vendor_id u = THREEGPP2_VENDOR_ID → (application_type u, application_subtype u) ∉ known_keys
  | _ => True
  end.

(** The application data of an extension. *)
Definition nvse_data (n : Nvse) : list Z :=
  match n with
  | AccessNetworkIdentifiers data => data
  | AnchorPPAddress address => address
  | AllDormantIndicator => [0; 0]
  | PdsnCode code => [code]
  | SessionParameter (RnPdit value) => [value]
  | ServiceOption value => to_be16 value
  | NvseUnknown u => application_data u
  | _ => []
  end.
Definition nvse_image (n : Nvse) : list Z :=
  let '(vendor, ty, subtype) := application_key n in
  [NVSE_TYPE; Z.of_nat (8 + length (nvse_data n)); 0; 0] ++ to_be32 vendor ++ [ty; subtype] ++ nvse_data n.

Lemma nvse_encode_eq n :
  nvse_wf n → nvse_encodable n →
  nvse_encode n = if decide (length (nvse_data n) ≤ 247)%nat then Ok (nvse_image n)
                  else Err (InvalidExtensionLength 255 (8 + length (nvse_data n))).
Proof.
  intros Hw He.
  destruct n as [d|a| |c|[v|]|v|[]|[]|u]; cbn in Hw, He; unfold nvse_encode, nvse_header_bytes, nvse_image; cbn [nvse_data application_key];
    rewrite ?He; cbn [negb].
  all: try (destruct (Z.eqb_spec v 0); [done|]).
  all: try (rewrite Hw).
  all: try (rewrite decide_False by (cbn; lia); rewrite decide_True by (cbn; lia); cbn; reflexivity).
  - destruct (decide (255 < _)%nat); [by rewrite decide_False by lia|]. rewrite decide_True, length_as_u8 by lia.
    cbn [rbind]. by rewrite <- !app_assoc.
  - destruct (decide (255 < _)%nat); [by rewrite decide_False by lia|]. by rewrite decide_True, length_as_u8 by lia.
Qed.

Lemma nvse_encode_encodable n w : nvse_encode n = Ok w → nvse_encodable n.
Proof.
  destruct n as [| | |c|[v|]| | | |]; cbn; try done; [by destruct (pdsn_code_supported c)|by destruct (Z.eqb_spec v 0)].
Qed.

Lemma nvse_typed_data n vendor ty subtype :
  nvse_wf n → application_key n = (vendor, ty, subtype) →
  (if negb (vendor =? THREEGPP2_VENDOR_ID) then Some (Ok (NvseUnknown (mkUnknown vendor ty subtype (nvse_data n))))
   else nvse_typed vendor ty subtype (nvse_data n)) = Some (Ok n).
Proof.
  intros Hw. destruct n as [d|a| |c|[v|]|v|[]|[]|u]; cbn in Hw; intros [= <- <- <-]; try reflexivity.
  - destruct a as [|a [|b [|c [|d [|]]]]]; try done.
  - change (Some (Ok (E := Error) (ServiceOption (from_be16 (v / 256) (v mod 256)))) = Some (Ok (ServiceOption v))). by rewrite split_u16.
  - cbn [nvse_data]. destruct u as [v t s d]; cbn in *. destruct (Z.eqb_spec v THREEGPP2_VENDOR_ID) as [->|]; [|done].
    cbn [negb]. specialize (Hw eq_refl). unfold nvse_typed, known_keys in *.
    repeat (rewrite decide_False by (intros Heq; rewrite Heq in Hw; apply Hw; set_solver)). done.
Qed.

Lemma nvse_decode_image n :
  nvse_wf n → (length (nvse_data n) ≤ 247)%nat → nvse_decode (nvse_image n) = Some (Ok n).
Proof.
  intros Hw Hl. unfold nvse_image. destruct (application_key n) as [[vendor ty] subtype] eqn:Hk.
  pose proof (nvse_typed_data n _ _ _ Hw Hk) as Ht. set (data := nvse_data n) in *.
  set (value := [0; 0] ++ to_be32 vendor ++ [ty; subtype] ++ data).
  change ([NVSE_TYPE; Z.of_nat (8 + length data); 0; 0] ++ to_be32 vendor ++ [ty; subtype] ++ data)
    with ([NVSE_TYPE; Z.of_nat (8 + length data)] ++ value).
  assert (length value = (8 + length data)%nat) as Hv by done.
  unfold nvse_decode. rewrite decide_False by (cbn; lia).
  change (index (_ ++ value) 0) with (Some NVSE_TYPE). rewrite bind_some. cbn [negb Z.eqb NVSE_TYPE Pos.eqb].
  change (index (_ ++ value) 1) with (Some (Z.of_nat (8 + length data))). rewrite bind_some, Nat2Z.id.
  rewrite decide_False by (rewrite length_app, Hv; cbn; lia). rewrite decide_False by lia.
  rewrite slice_from_app, bind_some by done.
  change (index value 0) with (Some 0). change (index value 1) with (Some 0). rewrite !bind_some. cbn [negb Z.eqb orb].
  rewrite (be32_at_app [0; 0] ([ty; subtype] ++ data) vendor 2 eq_refl : be32_at value 2 = _), bind_some.
  change (index value 6) with (Some ty). change (index value 7) with (Some subtype). rewrite !bind_some.
  rewrite (slice_from_app ([0; 0] ++ to_be32 vendor ++ [ty; subtype]) data 8 eq_refl : slice_from value 8 = _), bind_some.
  done.
Qed.

Lemma nvse_typed_total vendor ty subtype data :
  vendor = THREEGPP2_VENDOR_ID →
  yields (λ n, bytes data → nvse_wf n ∧ application_key n = (vendor, ty, subtype) ∧ nvse_data n = data)
         (nvse_typed vendor ty subtype data).
Proof.
  intros ->. unfold nvse_typed, exact_data, empty_data.
  repeat case_decide; simplify_eq; try done; cbn; try (intros; split_and!; done).
  - rewrite octets_at_total by lia. cbn. rewrite drop_0. intros _. split_and!; [by rewrite length_take; lia|done|by rewrite take_ge by lia].
  - by destruct data as [|x [|]].
  - by destruct data as [|x [|]].
  - destruct data as [|x [|y [|]]]; try done. cbn. intros [? [? _]%Forall_cons]%Forall_cons.
    split_and!; [by apply from_be16_u16|done|by apply to_be16_from_be16].
  - intros _. split_and!; [|done..]. intros _. unfold known_keys. set_solver.
Qed.

Lemma nvse_decode_total w :
  yields (λ n, bytes w → nvse_wf n ∧ w = nvse_image n ∧ (length (nvse_data n) ≤ 247)%nat) (nvse_decode w).
Proof.
  unfold nvse_decode. destruct (decide _) as [|Hl]; [done|].
  destruct (index_total w 0) as [ty Hty]; [lia|]. destruct (index_total w 1) as [len Hlen]; [lia|].
  rewrite Hty, bind_some. destruct (Z.eqb_spec ty NVSE_TYPE) as [->|]; cbn [negb]; [|done].
  rewrite Hlen, bind_some. destruct (decide _) as [|Hn]; [done|]. apply dec_stable in Hn. destruct (decide _) as [|H8]; [done|].
  rewrite slice_from_total, bind_some by lia. set (v := drop 2 w).
  assert (length v = Z.to_nat len) as Hv by (unfold v; rewrite length_drop; lia).
  destruct (index_total v 0) as [v0 H0]; [lia|]. destruct (index_total v 1) as [v1 H1]; [lia|]. rewrite H0, H1, !bind_some.
  destruct (negb (v0 =? 0) || _) eqn:Hr; [done|]. apply orb_false_iff in Hr as [Hr0%negb_false_iff%Z.eqb_eq Hr1%negb_false_iff%Z.eqb_eq].
  destruct (be32_at_drop v 2) as (vendor & Hve & Hvd); [lia|]. rewrite Hve, bind_some.
  destruct (index_total v 6) as [t Ht]; [lia|]. destruct (index_total v 7) as [s Hs]; [lia|]. rewrite Ht, Hs, !bind_some.
  rewrite slice_from_total, bind_some by lia. set (data := drop 8 v).
  assert (bytes w → w = [NVSE_TYPE; len; 0; 0] ++ to_be32 vendor ++ [t; s] ++ data ∧ is_u8 len) as Hw.
  { intros Hb. assert (bytes v) as Hbv by (unfold v; auto with rust). split; [|exact (index_byte _ _ _ Hb Hlen)].
    rewrite <- (drop_0 w), (index_eq_drop _ _ _ Hty), (index_eq_drop _ _ _ Hlen). fold v.
    rewrite <- (drop_0 v), (index_eq_drop _ _ _ H0), (index_eq_drop _ _ _ H1), (Hvd Hbv).
    change (2 + 4)%nat with 6%nat. rewrite (index_eq_drop _ _ _ Ht), (index_eq_drop _ _ _ Hs). by rewrite Hr0, Hr1. }
  assert (length data = (Z.to_nat len - 8)%nat) as Hdl by (unfold data; rewrite length_drop; lia).
  assert (bytes w → bytes data) as Hbd by (intros; unfold data, v; auto with rust).
  assert (∀ n, nvse_wf n → application_key n = (vendor, t, s) → nvse_data n = data → bytes w →
               nvse_wf n ∧ w = nvse_image n ∧ (length (nvse_data n) ≤ 247)%nat) as Hfin.
  { intros n Hwf Hk Hd Hb. destruct (Hw Hb) as [Hweq Hu]. split; [done|]. unfold nvse_image. rewrite Hk, Hd, Hdl.
    unfold is_u in Hu. split; [|lia].
    assert (Z.of_nat (8 + (Z.to_nat len - 8)) = len) as -> by lia. done. }
  clear Hw. destruct (Z.eqb_spec vendor THREEGPP2_VENDOR_ID) as [Hven|]; cbn [negb].
  - eapply yields_mono; [by apply nvse_typed_total|]. intros n Hn' Hb. destruct (Hn' (Hbd Hb)) as (? & ? & ?). by apply Hfin.
  - intros Hb. apply Hfin; [by intros ?|done..].
Qed.

(** ** The Session Specific Extension *)
Lemma validate_session_returns s : ∃ r, validate_session s = Some r.
Proof.
  unfold validate_session. repeat (case_match; [eauto|]). unfold validate_session_msid_bcd.
  destruct (index_total (mn_id s) 0) as [f ->]; [lia|]. cbn. repeat (case_match; [eauto|]). eauto.
Qed.
Lemma validate_session_ok s u :
  validate_session s = Some (Ok u) →
  protocol_type s = PROTOCOL_TYPE_UNSTRUCTURED_BYTE_STREAM ∧ pcf_session_id s ≠ 0 ∧ session_id_version s ≤ 1 ∧
  1 ≤ mn_session_reference_id s ≤ 6 ∧ mn_id_type s = SESSION_SPECIFIC_MSID_TYPE_IMSI ∧ (6 ≤ length (mn_id s) ≤ 8)%nat.
Proof.
  unfold validate_session. intros H. repeat (case_match; [done|]).
  rewrite ?negb_false_iff, ?andb_true_iff in *. split_and!; lia.
Qed.

Definition session_image (s : SessionSpecificExtension) : list Z :=
  [SESSION_TYPE; Z.of_nat (13 + length (mn_id s))] ++ to_be16 (protocol_type s) ++ to_be32 (pcf_session_id s) ++
  [0; session_id_version s * 64] ++ to_be16 (mn_session_reference_id s) ++ to_be16 (mn_id_type s) ++
  [Z.of_nat (length (mn_id s))] ++ mn_id s.

(** The field fits its type; validation does the rest. *)
Definition session_wf (s : SessionSpecificExtension) : Prop := 0 ≤ session_id_version s.

Lemma session_encode_eq s w :
  session_wf s → session_encode s = Some (Ok w) ↔ validate_session s = Some (Ok tt) ∧ w = session_image s.
Proof.
  intros Hw. unfold session_encode. destruct (validate_session s) as [[[]|e]|] eqn:Hv; [|naive_solver..].
  destruct (validate_session_ok _ _ Hv) as (_ & _ & Hver & _ & _ & Hl). rewrite and_then_ok.
  rewrite !length_as_u8 by lia.
  assert ((Z.shiftl (session_id_version s) 6) as_u8 = session_id_version s * 64) as ->.
  { rewrite Z.shiftl_mul_pow2 by lia. apply wrap_small. unfold session_wf, is_u in *. lia. }
  unfold session_image. naive_solver.
Qed.

Lemma session_decode_image s rest :
  session_wf s → validate_session s = Some (Ok tt) →
  session_decode (session_image s ++ rest) = Some (Ok (s, length (session_image s))).
Proof.
  intros Hw Hv. destruct (validate_session_ok _ _ Hv) as (Hp & Hid & Hver & Hr & Ht & Hl).
  set (n := (13 + length (mn_id s))%nat).
  set (value := to_be16 (protocol_type s) ++ to_be32 (pcf_session_id s) ++ [0; session_id_version s * 64] ++
                to_be16 (mn_session_reference_id s) ++ to_be16 (mn_id_type s) ++ [Z.of_nat (length (mn_id s))] ++ mn_id s).
  assert (session_image s = [SESSION_TYPE; Z.of_nat n] ++ value) as Himg by done.
  assert (length value = n) as Hvl by done.
  rewrite Himg, <- app_assoc. unfold session_decode.
  rewrite decide_False by (cbn; lia). change (index (_ ++ value ++ rest) 1) with (Some (Z.of_nat n)). rewrite bind_some, Nat2Z.id.
  rewrite decide_False by (rewrite !length_app, Hvl; cbn; lia).
  change (index (_ ++ value ++ rest) 0) with (Some SESSION_TYPE). rewrite bind_some, decide_False by (intros [|]; [done|lia]).
  rewrite slice_app, bind_some by (rewrite ?Hvl; done).
  change (index value 6) with (Some 0). change (index value 7) with (Some (session_id_version s * 64)).
  change (index value 12) with (Some (Z.of_nat (length (mn_id s)))). rewrite !bind_some. cbn [negb Z.eqb].
  replace (Z.land (session_id_version s * 64) 63) with 0 by (change 63 with (Z.ones 6); rewrite Z.land_ones by lia; unfold session_wf in *; zdiv).
  cbn [negb Z.eqb]. rewrite Nat2Z.id, decide_False by lia.
  assert (is_u16 (protocol_type s) ∧ is_u16 (mn_session_reference_id s) ∧ is_u16 (mn_id_type s)) as (U1 & U2 & U3).
  { rewrite Hp, Ht. unfold is_u, PROTOCOL_TYPE_UNSTRUCTURED_BYTE_STREAM, SESSION_SPECIFIC_MSID_TYPE_IMSI. lia. }
  rewrite (be16_at_app [] _ _ 0 eq_refl U1 : be16_at value 0 = Some (protocol_type s)), bind_some.
  rewrite (be32_at_app (to_be16 (protocol_type s)) _ _ 2 eq_refl : be32_at value 2 = Some (pcf_session_id s)), bind_some.
  rewrite (be16_at_app (to_be16 (protocol_type s) ++ to_be32 (pcf_session_id s) ++ [0; session_id_version s * 64])
             _ _ 8 eq_refl U2 : be16_at value 8 = Some (mn_session_reference_id s)), bind_some.
  rewrite (be16_at_app (to_be16 (protocol_type s) ++ to_be32 (pcf_session_id s) ++ [0; session_id_version s * 64] ++
             to_be16 (mn_session_reference_id s)) _ _ 10 eq_refl U3 : be16_at value 10 = Some (mn_id_type s)), bind_some.
  assert (slice value 13 (13 + length (mn_id s)) = Some (mn_id s)) as ->.
  { rewrite slice_Some by lia. change (drop 13 value) with (mn_id s). by rewrite take_ge by lia. }
  rewrite bind_some, Z.shiftr_div_pow2 by lia. rewrite (Z.div_mul _ (2 ^ 6)) by lia.
  replace (mkSession _ _ _ _ _ _) with s by (by destruct s). rewrite Hv, and_then_ok. by rewrite length_app, Hvl.
Qed.

Lemma session_decode_total w :
  yields (λ '(s, used), (used ≤ length w)%nat ∧
            (bytes w → session_wf s ∧ validate_session s = Some (Ok tt) ∧ w = session_image s ++ drop used w))
         (session_decode w).
Proof.
  unfold session_decode. destruct (decide _) as [|Hl]; [done|].
  destruct (index_total w 1) as [len Hlen]; [lia|]. rewrite Hlen, bind_some. destruct (decide _) as [|Hn]; [done|].
  destruct (index_total w 0) as [ty Hty]; [lia|]. rewrite Hty, bind_some. destruct (decide _) as [|H13]; [done|].
  apply Decidable.not_or in H13 as [->%dec_stable H13].
  rewrite slice_Some, bind_some by lia. replace (2 + Z.to_nat len - 2)%nat with (Z.to_nat len) by lia.
  set (v := take _ (drop 2 w)). assert (length v = Z.to_nat len) as Hv by (unfold v; rewrite length_take, length_drop; lia).
  destruct (index_total v 6) as [v6 H6]; [lia|]. destruct (index_total v 7) as [v7 H7]; [lia|].
  destruct (index_total v 12) as [ml H12]; [lia|]. rewrite H6, H7, H12, !bind_some.
  destruct (Z.eqb_spec v6 0) as [->|]; cbn [negb]; [|done]. destruct (Z.eqb_spec (Z.land v7 63) 0) as [Hlow|]; cbn [negb]; [|done].
  destruct (decide _) as [|Hm]; [done|]. apply dec_stable in Hm.
  destruct (be16_at_drop v 0) as (pt & -> & Hpt); [lia|]. destruct (be32_at_drop v 2) as (pcf & -> & Hpcf); [lia|].
  destruct (be16_at_drop v 8) as (rf & -> & Hrf); [lia|]. destruct (be16_at_drop v 10) as (mt & -> & Hmt); [lia|].
  rewrite !bind_some, slice_Some, bind_some by lia. replace (13 + Z.to_nat ml - 13)%nat with (Z.to_nat ml) by lia.
  set (mn := take _ (drop 13 v)). set (s := mkSession _ _ _ _ _ _).
  destruct (validate_session s) as [[[]|e]|] eqn:Hval; [|done|by destruct (validate_session_returns s); congruence].
  rewrite and_then_ok. cbn [yields]. split; [lia|]. intros Hb. assert (bytes v) as Hbv by (unfold v; auto with rust).
  pose proof (index_byte _ _ _ Hbv H7) as U7. pose proof (index_byte _ _ _ Hbv H12) as U12. pose proof (index_byte _ _ _ Hb Hlen) as Ul.
  assert (v7 = Z.shiftr v7 6 * 64) as Hv7.
  { rewrite Z.shiftr_div_pow2 by lia. change 63 with (Z.ones 6) in Hlow. rewrite Z.land_ones in Hlow by lia.
    change (2 ^ 6) with 64 in *. unfold is_u in U7. zdiv. }
  assert (length mn = Z.to_nat ml) as Hmnl by (unfold mn; rewrite length_take, length_drop; lia).
  split_and!; [unfold session_wf; cbn; apply Z.shiftr_nonneg; unfold is_u in U7; lia|done|].
  assert (v = to_be16 pt ++ to_be32 pcf ++ [0; v7] ++ to_be16 rf ++ to_be16 mt ++ [ml] ++ mn) as Hveq.
  { destruct (Hpt Hbv) as [_ E0], (Hrf Hbv) as [_ E8], (Hmt Hbv) as [_ E10]. specialize (Hpcf Hbv).
    cbn [Nat.add] in *. rewrite <- (drop_0 v) at 1. rewrite E0, Hpcf.
    rewrite (index_eq_drop _ _ _ H6), (index_eq_drop _ _ _ H7), E8, E10, (index_eq_drop _ _ _ H12).
    unfold mn. rewrite (take_ge (drop 13 v)) by (rewrite length_drop; lia). done. }
  assert (w = [SESSION_TYPE; len] ++ v ++ drop (2 + Z.to_nat len) w) as Hweq.
  { rewrite <- (drop_0 w) at 1. rewrite (index_eq_drop _ _ _ Hty), (index_eq_drop _ _ _ Hlen). cbn [app]. do 2 f_equal.
    unfold v. rewrite <- (take_drop (Z.to_nat len) (drop 2 w)) at 1. by rewrite drop_drop. }
  rewrite Hweq at 1. unfold session_image. subst s. cbn [protocol_type pcf_session_id session_id_version mn_session_reference_id mn_id_type mn_id].
  rewrite <- Hv7, Hmnl. unfold is_u in U12, Ul. rewrite Z2Nat.id by lia.
  replace (Z.of_nat (13 + Z.to_nat ml)) with len by lia. rewrite Hveq. by rewrite <- !app_assoc.
Qed.

(** ** Extensions *)
Definition ext_wf (e : Extension) : Prop :=
  match e with
  | ExtSessionSpecific s => session_wf s
  | ExtNvse n => nvse_wf n
  | ExtRaw r => raw_type r ∉ [0x20; 0x26; 0x27; 0x28; 0x86]
  | _ => True
  end.
Definition ext_encodable (e : Extension) : Prop := match e with ExtNvse n => nvse_encodable n | _ => True end.

(** An element and its length: one octet, two for a critical vendor extension. *)
Definition framed (w : list Z) : Prop :=
  (∃ ty v, ty ≠ CVSE_TYPE ∧ w = ty :: Z.of_nat (length v) :: v) ∨
  (∃ r v, w = [CVSE_TYPE; r] ++ to_be16 (Z.of_nat (length v)) ++ v ∧ Z.of_nat (length v) ≤ 65535).

(** What the decoder does with an element of a type with a one-octet length. *)
Definition decode_value (ty : Z) (w v : list Z) : rust (result Error Extension) :=
  if ty =? SESSION_TYPE then
    '(extension, used) ←! session_decode w;
    if decide (used ≠ length w) then Some (Err (Truncated (length w) used)) else Some (Ok (ExtSessionSpecific extension))
  else if (ty =? 0x20) || (ty =? 0x28) then a ←! auth_decode ty v; Some (Ok (ExtAuthentication a))
  else if ty =? CVSE_TYPE then c ←! cvse_decode w; Some (Ok (ExtCriticalVendor c))
  else if ty =? 0x86 then n ←! nvse_decode w; Some (Ok (ExtNvse n))
  else Some (Ok (ExtRaw (mkRaw ty v))).

Lemma extension_decode_short ty v :
  ty ≠ CVSE_TYPE → let w := ty :: Z.of_nat (length v) :: v in extension_decode w = decode_value ty w v.
Proof.
  intros Hty w. unfold extension_decode. rewrite decide_False by (cbn; lia).
  change (index w 0) with (Some ty). rewrite bind_some. destruct (Z.eqb_spec ty CVSE_TYPE); [done|].
  rewrite decide_False by (cbn; lia). change (index w 1) with (Some (Z.of_nat (length v))). rewrite bind_some, Nat2Z.id.
  rewrite decide_False by (cbn; lia).
  rewrite (slice_from_app [ty; Z.of_nat (length v)] v 2 eq_refl : slice_from w 2 = _), bind_some.
  unfold decode_value. by destruct (Z.eqb_spec ty CVSE_TYPE).
Qed.

Lemma cvse_decode_image r v :
  Z.of_nat (length v) ≤ 65535 → let w := [CVSE_TYPE; r] ++ to_be16 (Z.of_nat (length v)) ++ v in
  cvse_decode w = Some (Ok (mkCvse r v)) ∧ extension_decode w = Some (Ok (ExtCriticalVendor (mkCvse r v))).
Proof.
  intros Hv w. assert (be16_at w 2 = Some (Z.of_nat (length v))) as Hb.
  { apply (be16_at_app [CVSE_TYPE; r]); [done|]. unfold is_u. lia. }
  assert (length w = (4 + length v)%nat) as Hl by done.
  assert (slice_from w 4 = Some v) as Hs by (apply (slice_from_app ([CVSE_TYPE; r] ++ to_be16 _)); done).
  assert (cvse_decode w = Some (Ok (mkCvse r v))) as Hc.
  { unfold cvse_decode, CVSE_HEADER_LENGTH. rewrite decide_False by lia. change (index w 0) with (Some CVSE_TYPE).
    rewrite bind_some. cbn [negb Z.eqb CVSE_TYPE Pos.eqb]. rewrite Hb, bind_some, Nat2Z.id, decide_False by lia.
    change (index w 1) with (Some r). by rewrite bind_some, Hs. }
  split; [done|]. unfold extension_decode. rewrite decide_False by lia. change (index w 0) with (Some CVSE_TYPE).
  rewrite bind_some. change (CVSE_TYPE =? CVSE_TYPE) with true. unfold CVSE_HEADER_LENGTH. cbv iota.
  rewrite decide_False by lia. rewrite Hb, bind_some, Nat2Z.id, decide_False by lia. rewrite Hs, bind_some.
  cbn [Z.eqb CVSE_TYPE SESSION_TYPE Pos.eqb orb]. by rewrite Hc.
Qed.

Lemma extension_roundtrip e w :
  ext_wf e → extension_encode e = Some (Ok w) → framed w ∧ extension_decode w = Some (Ok e).
Proof.
  destruct e as [s|a|c|n|r]; cbn [ext_wf extension_encode]; intros Hw He.
  - apply session_encode_eq in He as [Hv ->]; [|done]. pose proof (session_decode_image s [] Hw Hv) as Hd.
    rewrite app_nil_r in Hd. set (v := drop 2 (session_image s)).
    assert (session_image s = SESSION_TYPE :: Z.of_nat (length v) :: v) as Heq by done.
    split; [left; by exists SESSION_TYPE, v|]. rewrite Heq at 1. rewrite extension_decode_short by done.
    rewrite <- Heq. unfold decode_value. cbn [Z.eqb SESSION_TYPE Pos.eqb]. rewrite Hd, and_then_ok. by rewrite decide_False by naive_solver.
  - injection He as He. pose proof (auth_decode_encode _ _ He) as Hd. apply auth_encode_inv in He as (_ & Hl & Heq).
    set (v := drop 2 w) in *. assert (length v = 20%nat) as Hv by (subst v w; cbn; lia).
    assert (w = auth_type_u8 (auth_type a) :: Z.of_nat (length v) :: v) as Hw' by (subst v; rewrite Hv; by subst w).
    assert (auth_type_u8 (auth_type a) ≠ CVSE_TYPE) by (by destruct (auth_type a)).
    split; [left; by eexists _, v|]. rewrite Hw', extension_decode_short by done. unfold decode_value.
    by destruct (auth_type a); cbn [auth_type_u8 Z.eqb SESSION_TYPE Pos.eqb orb] in *; rewrite Hd.
  - unfold cvse_encode in He. destruct (decide _) as [|Hl]; [done|]. injection He as <-.
    split; [right; eexists _, _; split; [done|lia]|]. destruct c as [r v]. by apply cvse_decode_image; cbn in *; lia.
  - injection He as He. pose proof (nvse_encode_encodable _ _ He) as Hen.
    rewrite nvse_encode_eq in He by done. destruct (decide _) as [Hl|]; [|done]. injection He as <-.
    pose proof (nvse_decode_image n Hw Hl) as Hd. set (v := drop 2 (nvse_image n)).
    assert (nvse_image n = NVSE_TYPE :: Z.of_nat (length v) :: v) as Heq by (unfold v, nvse_image; by destruct (application_key n) as [[? ?] ?]).
    split; [left; by exists NVSE_TYPE, v|]. rewrite Heq at 1. rewrite extension_decode_short by done. rewrite <- Heq.
    unfold decode_value. cbn [Z.eqb SESSION_TYPE NVSE_TYPE CVSE_TYPE Pos.eqb orb]. by rewrite Hd.
  - injection He as He. unfold raw_encode in He. destruct (decide _) as [|Hl]; [done|]. rewrite length_as_u8 in He by lia.
    injection He as <-. destruct r as [ty v]. cbn [raw_type raw_value] in *.
    assert (ty ≠ 0x20 ∧ ty ≠ 0x26 ∧ ty ≠ 0x27 ∧ ty ≠ 0x28 ∧ ty ≠ 0x86) as (? & ? & ? & ? & ?) by (split_and!; intros ->; apply Hw; set_solver).
    split; [left; by exists ty, v|]. rewrite extension_decode_short by done. unfold decode_value, SESSION_TYPE, CVSE_TYPE.
    by rewrite (proj2 (Z.eqb_neq ty 0x27)), (proj2 (Z.eqb_neq ty 0x20)), (proj2 (Z.eqb_neq ty 0x28)),
      (proj2 (Z.eqb_neq ty 0x26)), (proj2 (Z.eqb_neq ty 0x86)) by done.
Qed.

Lemma cvse_decode_total w :
  yields (λ c, bytes w → cvse_encode c = Ok w) (cvse_decode w).
Proof.
  unfold cvse_decode, CVSE_HEADER_LENGTH. destruct (decide _) as [|Hl]; [done|].
  destruct (index_total w 0) as [ty Hty]; [lia|]. rewrite Hty, bind_some. destruct (Z.eqb_spec ty CVSE_TYPE) as [->|]; cbn [negb]; [|done].
  destruct (be16_at_drop w 2) as (len & -> & Hlen); [lia|]. rewrite bind_some. destruct (decide _) as [|Hn]; [done|]. apply dec_stable in Hn.
  destruct (index_total w 1) as [r Hr]; [lia|]. rewrite Hr, bind_some, slice_from_total, bind_some by lia. cbn [yields]. intros Hb.
  destruct (Hlen Hb) as [Hu Hd]. unfold cvse_encode. cbn [cvse_value cvse_reserved]. rewrite length_drop.
  unfold is_u in Hu. rewrite decide_False by lia. replace (Z.of_nat (length w - 4)) with len by lia. f_equal.
  rewrite <- (drop_0 w) at 2. by rewrite (index_eq_drop _ _ _ Hty), (index_eq_drop _ _ _ Hr), Hd.
Qed.

Lemma nvse_encode_image n : nvse_wf n → nvse_encodable n → (length (nvse_data n) ≤ 247)%nat → nvse_encode n = Ok (nvse_image n).
Proof. intros ? ? ?. by rewrite nvse_encode_eq, decide_True by done. Qed.

Lemma decode_value_total ty w v :
  ty ≠ CVSE_TYPE → (bytes w → w = ty :: Z.of_nat (length v) :: v ∧ (length v ≤ 255)%nat) →
  yields (λ e, bytes w → ext_wf e ∧ (ext_encodable e → extension_encode e = Some (Ok w))) (decode_value ty w v).
Proof.
  intros Hty Hw. unfold decode_value. destruct (Z.eqb_spec ty SESSION_TYPE) as [->|H1].
  { eapply yields_and_then; [apply session_decode_total|]. intros [s used] [Hu Hs]. destruct (decide _) as [|Hl]; [done|].
    apply dec_stable in Hl. cbn. intros Hb. destruct (Hs Hb) as (? & ? & Hws). split; [done|]. intros _.
    apply session_encode_eq; [done|]. split; [done|]. rewrite Hws, drop_ge, app_nil_r by lia. done. }
  destruct ((ty =? 0x20) || (ty =? 0x28)) eqn:Ha.
  { eapply yields_and_then; [apply auth_decode_total|]. intros a Hd. cbn. intros Hb. split; [done|]. intros _.
    destruct (Hw Hb) as [Heq _]. destruct Hd as [-> _]; [|by rewrite Heq]. rewrite Heq in Hb.
    by apply Forall_cons in Hb as [_ [_ Hb]%Forall_cons]. }
  destruct (Z.eqb_spec ty CVSE_TYPE) as [|_]; [done|]. destruct (Z.eqb_spec ty 0x86) as [->|H2].
  { eapply yields_and_then; [apply nvse_decode_total|]. intros n Hd. cbn. intros Hb. destruct (Hd Hb) as (? & -> & ?).
    split; [done|]. intros He. by rewrite nvse_encode_image. }
  cbn. intros Hb. destruct (Hw Hb) as [-> Hl]. apply orb_false_iff in Ha as [Ha%Z.eqb_neq Hb'%Z.eqb_neq].
  unfold CVSE_TYPE, SESSION_TYPE in *. split; [set_solver|]. intros _. unfold raw_encode. cbn. rewrite decide_False by lia.
  by rewrite length_as_u8.
Qed.

Lemma extension_decode_total w :
  yields (λ e, bytes w → ext_wf e ∧ (ext_encodable e → extension_encode e = Some (Ok w))) (extension_decode w).
Proof.
  unfold extension_decode. destruct (decide _) as [|Hl]; [done|]. destruct (index_total w 0) as [ty Hty]; [lia|].
  rewrite Hty, bind_some. destruct (Z.eqb_spec ty CVSE_TYPE) as [->|Hne].
  - unfold CVSE_HEADER_LENGTH. destruct (decide _) as [|H4]; [done|]. destruct (be16_at_total w 2) as (len & -> & _); [lia|].
    rewrite bind_some. destruct (decide _); [done|]. rewrite slice_from_total, bind_some by lia.
    cbn [Z.eqb CVSE_TYPE SESSION_TYPE Pos.eqb orb]. eapply yields_and_then; [apply cvse_decode_total|].
    intros c Hc. cbn. intros Hb. by rewrite Hc.
  - destruct (decide _); [done|]. destruct (index_total w 1) as [len Hlen]; [lia|]. rewrite Hlen, bind_some.
    destruct (decide _) as [|Hn]; [done|]. apply dec_stable in Hn. rewrite slice_from_total, bind_some by lia.
    pose proof (decode_value_total ty w (drop 2 w) Hne) as H. unfold decode_value in H.
    rewrite (proj2 (Z.eqb_neq ty CVSE_TYPE)) in H by done. apply H. intros Hb. pose proof (index_byte _ _ _ Hb Hlen) as Hu.
    unfold is_u in Hu. rewrite length_drop. split; [|lia]. rewrite <- (drop_0 w) at 1.
    rewrite (index_eq_drop _ _ _ Hty), (index_eq_drop _ _ _ Hlen). do 2 f_equal. lia.
Qed.

(** ** Lists of extensions *)
Lemma framed_header w rest pre :
  framed w → let input := pre ++ w ++ rest in let offset := length pre in
  (2 ≤ length w)%nat ∧
  ∃ ty h n, index input offset = Some ty ∧ (h + n = length w)%nat ∧
    (if ty =? CVSE_TYPE then
       if decide (length input - offset < CVSE_HEADER_LENGTH)%nat then
         Some (Err (Truncated (offset + CVSE_HEADER_LENGTH) (length input)))
       else n ← be16_at input (offset + 2); Some (Ok (CVSE_HEADER_LENGTH, Z.to_nat n))
     else n ← index input (offset + 1); Some (Ok (2%nat, Z.to_nat n))) = Some (Ok (h, n)).
Proof.
  intros Hf input offset. destruct Hf as [(ty & v & Hty & ->)|(r & v & -> & Hv)].
  - split; [cbn; lia|]. exists ty, 2%nat, (length v). unfold input, offset, index. split_and!; [|done|].
    + by rewrite lookup_app_r, Nat.sub_diag by lia.
    + rewrite (proj2 (Z.eqb_neq ty CVSE_TYPE)) by done. rewrite lookup_app_r by lia.
      replace (length pre + 1 - length pre)%nat with 1%nat by lia. cbn. by rewrite Nat2Z.id.
  - split; [cbn; lia|]. exists CVSE_TYPE, 4%nat, (length v). unfold input, offset, index. split_and!; [|done|].
    + by rewrite lookup_app_r, Nat.sub_diag by lia.
    + cbn [Z.eqb CVSE_TYPE Pos.eqb]. rewrite decide_False by (unfold CVSE_HEADER_LENGTH; rewrite !length_app; cbn; lia).
      replace (pre ++ ([CVSE_TYPE; r] ++ to_be16 (Z.of_nat (length v)) ++ v) ++ rest)
        with ((pre ++ [CVSE_TYPE; r]) ++ to_be16 (Z.of_nat (length v)) ++ v ++ rest) by (by rewrite <- !app_assoc).
      rewrite be16_at_app, bind_some by (rewrite ?length_app; cbn; unfold is_u; lia). by rewrite Nat2Z.id.
Qed.

Lemma see_any err err' e s s' : see err e s = Ok s' → see err' e s = Ok s'.
Proof. by destruct e. Qed.

Lemma collect_loop_encoded es t w pre fuel seen acc :
  Forall ext_wf es → encode_extensions es = Some (Ok w) → validate_extensions_from seen es t = Ok tt →
  (length w ≤ fuel)%nat → collect_loop fuel (pre ++ w) (length pre) seen acc = Some (Ok (acc ++ es)).
Proof.
  revert w pre fuel seen acc. induction es as [|e es IH]; intros w pre fuel seen acc Hwf He Hv Hfuel.
  - injection He as <-. rewrite app_nil_r. destruct fuel; cbn [collect_loop]; (rewrite decide_False by lia); by rewrite app_nil_r.
  - apply Forall_cons in Hwf as [Hwe Hwf]. cbn in He.
    apply and_then_inv in He as (a & Ha & He). apply and_then_inv in He as (b & Hb & He). injection He as <-.
    cbn in Hv. apply rbind_inv in Hv as (seen' & Hs & Hv). apply rbind_inv in Hv as (_ & _ & Hv).
    destruct (extension_roundtrip _ _ Hwe Ha) as [Hf Hd].
    destruct (framed_header a b pre Hf) as (Hl2 & ty & h & n & Hi & Hhn & Hh).
    rewrite length_app in Hfuel. destruct fuel as [|fuel]; [lia|]. cbn [collect_loop].
    rewrite decide_True by (rewrite !length_app; lia). rewrite decide_False by (rewrite !length_app; lia).
    rewrite Hi, bind_some, Hh, and_then_ok. rewrite decide_False by (rewrite !length_app; lia).
    rewrite slice_app, bind_some by (rewrite ?Hhn; lia). rewrite Hd, and_then_ok.
    rewrite (see_any _ _ _ _ _ Hs), and_then_ok.
    replace (length pre + h + n)%nat with (length (pre ++ a)) by (rewrite length_app; lia).
    rewrite app_assoc. rewrite (IH b (pre ++ a) fuel seen' (acc ++ [e])) by (done || lia). by rewrite <- app_assoc.
Qed.

Lemma collect_loop_total fuel input offset seen acc :
  (length input - offset ≤ fuel)%nat →
  yields (λ es, ∃ es', es = acc ++ es' ∧ (bytes input → Forall ext_wf es' ∧
            (Forall ext_encodable es' → encode_extensions es' = Some (Ok (drop offset input)))))
         (collect_loop fuel input offset seen acc).
Proof.
  revert offset seen acc. induction fuel as [|fuel IH]; intros offset seen acc Hf; cbn [collect_loop];
    (destruct (decide (offset < length input)%nat) as [Ho|Ho];
     [|cbn; exists []; rewrite app_nil_r; split; [done|]; intros _; split; [constructor|]; intros _; by rewrite drop_ge by lia]); [lia|].
  destruct (decide _) as [|H2]; [done|]. destruct (index_total input offset) as [ty Hty]; [lia|]. rewrite Hty, bind_some.
  eapply (yields_and_then (λ '(h, n), (2 ≤ h)%nat)).
  { destruct (Z.eqb_spec ty CVSE_TYPE); [destruct (decide _); [done|]|].
    - unfold CVSE_HEADER_LENGTH in *. destruct (be16_at_total input (offset + 2)) as (v & -> & _); [lia|]. cbn. lia.
    - destruct (index_total input (offset + 1)) as [v ->]; [lia|]. cbn. lia. }
  intros [h n] Hh. destruct (decide _) as [|Hstop]; [done|]. rewrite slice_Some, bind_some by lia.
  set (stop := (offset + h + n)%nat) in *. set (w := take _ _).
  eapply yields_and_then; [apply extension_decode_total|]. intros e He.
  destruct (see _ e seen) as [seen'|err]; [|done]. rewrite and_then_ok.
  eapply yields_mono; [apply IH; lia|]. intros es (es' & -> & Hes). exists (e :: es'). split; [by rewrite <- app_assoc|].
  intros Hb. assert (bytes w) as Hbw by (unfold w; auto with rust). destruct (He Hbw) as [Hwe Hee]. destruct (Hes Hb) as [Hwf Hen].
  split; [by constructor|]. intros [Hee' Hen']%Forall_cons. cbn. rewrite (Hee Hee'), and_then_ok, (Hen Hen'), and_then_ok. do 2 f_equal.
  etrans; [|apply (take_drop (stop - offset))]. unfold w. f_equal. rewrite drop_drop. f_equal. lia.
Qed.

(** ** Vendor extensions closed by an authentication extension *)
Lemma auth_extension_roundtrip a w :
  auth_encode a = Ok w → framed w ∧ extension_decode w = Some (Ok (ExtAuthentication a)).
Proof. intros H. apply (extension_roundtrip (ExtAuthentication a)); [done|]. cbn. by rewrite H. Qed.

Lemma required_auth_encoded a w ctx :
  auth_encode a = Ok w → decode_required_authentication_extension w (auth_type a) ctx = Some (Ok a).
Proof.
  intros Ha. destruct (auth_extension_roundtrip a w Ha) as [_ Hd]. unfold decode_required_authentication_extension.
  apply auth_encode_inv in Ha as (_ & _ & Hw). rewrite decide_False by (by subst w). rewrite Hd, and_then_ok.
  unfold validate_authentication_extension, ensure. by rewrite bool_decide_eq_true_2.
Qed.
Lemma required_auth_total w ty ctx :
  yields (λ a, bytes w → auth_encode a = Ok w ∧ auth_type a = ty) (decode_required_authentication_extension w ty ctx).
Proof.
  unfold decode_required_authentication_extension. destruct (decide _); [done|].
  eapply yields_and_then; [apply extension_decode_total|]. intros [s|a|c|n'|r] He; try done.
  unfold validate_authentication_extension, ensure. case_bool_decide; [|done]. cbn. intros Hb.
  destruct (He Hb) as [_ Hen]. specialize (Hen I). cbn in Hen. split; [congruence|done].
Qed.

Lemma framed_short_header ty v rest pre :
  let w := ty :: Z.of_nat (length v) :: v in let input := pre ++ w ++ rest in
  index input (length pre) = Some ty ∧ index input (length pre + 1) = Some (Z.of_nat (length v)).
Proof.
  cbn. unfold index. split; rewrite lookup_app_r by lia; [by rewrite Nat.sub_diag|].
  by replace (length pre + 1 - length pre)%nat with 1%nat by lia.
Qed.

Lemma nvse_auth_loop_encoded ns t a wn wa pre fuel keys acc ctx :
  Forall nvse_wf ns → encode_nvses ns = Ok wn → auth_encode a = Ok wa → validate_nvse_list_from keys ns t = Ok tt →
  (length wn + length wa ≤ fuel)%nat →
  nvse_auth_loop fuel (pre ++ wn ++ wa) (length pre) (auth_type a) ctx keys acc = Some (Ok (acc ++ ns, a)).
Proof.
  intros Hwf He Ha. pose proof (required_auth_encoded a wa ctx Ha) as Hr. pose proof Ha as (_ & Hal & Hwa)%auth_encode_inv.
  revert wn pre fuel keys acc Hwf He. induction ns as [|n ns IH]; intros wn pre fuel keys acc Hwf He Hv Hfuel.
  - injection He as <-. cbn [app]. assert (length wa = 22%nat) as Hl by (rewrite Hwa; cbn; lia).
    destruct fuel as [|fuel]; [lia|]. cbn [nvse_auth_loop].
    rewrite decide_True by (rewrite !length_app; lia). rewrite decide_False by (rewrite !length_app; lia).
    set (v := drop 2 wa). assert (length v = 20%nat) as Hv20 by (unfold v; rewrite length_drop; lia).
    assert (wa = auth_type_u8 (auth_type a) :: Z.of_nat (length v) :: v) as Hshape by (rewrite Hv20; unfold v; by rewrite Hwa).
    destruct (framed_short_header (auth_type_u8 (auth_type a)) v [] pre) as [H1 H2]. rewrite <- Hshape, app_nil_r in H1, H2.
    rewrite H1, H2, !bind_some, Nat2Z.id, Hv20, decide_False by (rewrite !length_app; lia).
    rewrite Z.eqb_refl, decide_False by (rewrite !length_app; lia).
    assert (slice (pre ++ wa) (length pre) (length pre + 2 + 20) = Some wa) as ->.
    { rewrite <- (app_nil_r wa) at 1. apply slice_app; lia. }
    rewrite bind_some, Hr, and_then_ok. by rewrite app_nil_r.
  - apply Forall_cons in Hwf as [Hwn Hwf]. cbn in He. apply rbind_inv in He as (x & Hx & He). apply rbind_inv in He as (y & Hy & He).
    injection He as <-. cbn in Hv. apply rbind_inv in Hv as (keys' & Hk & Hv). apply rbind_inv in Hv as (_ & _ & Hv).
    destruct (extension_roundtrip (ExtNvse n) x Hwn) as [Hf Hd]; [cbn; by rewrite Hx|].
    assert (∃ v, x = NVSE_TYPE :: Z.of_nat (length v) :: v ∧ nvse_decode x = Some (Ok n)) as (v & Hshape & Hdn).
    { pose proof (nvse_encode_encodable _ _ Hx) as Hen. rewrite nvse_encode_eq in Hx by done. destruct (decide _) as [Hl|]; [|done]. injection Hx as <-.
      exists (drop 2 (nvse_image n)). split; [|by apply nvse_decode_image].
      unfold nvse_image. by destruct (application_key n) as [[? ?] ?]. }
    rewrite length_app in Hfuel. assert (length x = (2 + length v)%nat) as Hlx by (by rewrite Hshape).
    destruct fuel as [|fuel]; [lia|]. cbn [nvse_auth_loop].
    rewrite decide_True by (rewrite !length_app; lia). rewrite decide_False by (rewrite !length_app; lia).
    destruct (framed_short_header NVSE_TYPE v (y ++ wa) pre) as [H1 H2]. rewrite <- Hshape in H1, H2. rewrite <- (app_assoc x).
    rewrite H1, H2, !bind_some, Nat2Z.id, decide_False by (rewrite !length_app; lia).
    assert ((NVSE_TYPE =? auth_type_u8 (auth_type a)) = false) as -> by (by destruct (auth_type a)).
    cbn [negb Z.eqb NVSE_TYPE Pos.eqb]. rewrite slice_app, bind_some by lia. rewrite Hdn, and_then_ok, Hk, and_then_ok.
    replace (length pre + 2 + length v)%nat with (length (pre ++ x)) by (rewrite length_app; lia).
    rewrite app_assoc, (IH y (pre ++ x) fuel keys' (acc ++ [n])) by (done || lia). by rewrite <- app_assoc.
Qed.

Lemma nvse_sequence_encoded ns t a wn wa ctx :
  Forall nvse_wf ns → encode_nvses ns = Ok wn → auth_encode a = Ok wa → validate_nvse_list ns t = Ok tt →
  decode_nvse_sequence_with_auth (wn ++ wa) (auth_type a) ctx = Some (Ok (ns, a)).
Proof.
  intros Hwf He Ha Hv. unfold decode_nvse_sequence_with_auth.
  rewrite decide_False by (apply auth_encode_inv in Ha as (_ & _ & ->); by destruct wn).
  by rewrite (nvse_auth_loop_encoded ns t a wn wa [] _ ∅ [] ctx) by (done || rewrite length_app; lia).
Qed.

Lemma nvse_auth_loop_total fuel input offset ty ctx keys acc :
  (length input - offset ≤ fuel)%nat →
  yields (λ '(ns, a), ∃ ns', ns = acc ++ ns' ∧ (bytes input → Forall nvse_wf ns' ∧ auth_type a = ty ∧
            (Forall nvse_encodable ns' → ∃ wn wa, encode_nvses ns' = Ok wn ∧ auth_encode a = Ok wa ∧ drop offset input = wn ++ wa)))
         (nvse_auth_loop fuel input offset ty ctx keys acc).
Proof.
  revert offset keys acc. induction fuel as [|fuel IH]; intros offset keys acc Hf; cbn [nvse_auth_loop];
    (destruct (decide (offset < length input)%nat) as [Ho|Ho]; [|done]); [lia|].
  destruct (decide _) as [|H2]; [done|]. destruct (index_total input offset) as [t Ht]; [lia|].
  destruct (index_total input (offset + 1)) as [len Hlen]; [lia|]. rewrite Ht, Hlen, !bind_some.
  set (stop := (offset + 2 + Z.to_nat len)%nat). destruct (decide _) as [|Hstop]; [done|].
  destruct (t =? _).
  - destruct (decide _) as [|Hend]; [done|]. apply dec_stable in Hend. rewrite slice_Some, bind_some by lia.
    rewrite take_ge by (rewrite length_drop; lia). eapply yields_and_then; [apply required_auth_total|]. intros a Ha.
    cbn. exists []. rewrite app_nil_r. split; [done|]. intros Hb. destruct (Ha (bytes_drop _ _ Hb)). split_and!; [constructor|done|].
    intros _. by eexists [], _.
  - destruct (negb _); [done|]. rewrite slice_Some, bind_some by lia. set (w := take _ _).
    eapply yields_and_then; [apply nvse_decode_total|]. intros n Hn.
    destruct (insert_new _ keys _) as [keys'|]; [|done]. rewrite and_then_ok.
    eapply yields_mono; [apply IH; lia|]. intros [ns a] (ns' & -> & Hns). exists (n :: ns'). split; [by rewrite <- app_assoc|].
    intros Hb. destruct Hn as (Hwn & Hw & Hl); [unfold w; auto with rust|]. destruct (Hns Hb) as (Hwf & Hat & Hen).
    split_and!; [by constructor|done|]. intros [He1 He2]%Forall_cons. destruct (Hen He2) as (wn & wa & Hwn' & Hwa & Hd).
    exists (w ++ wn), wa. cbn. rewrite nvse_encode_image, Hwn' by done. cbn. rewrite <- Hw. split_and!; [done|done|].
    rewrite <- app_assoc, <- Hd. symmetry. etrans; [|apply (take_drop (stop - offset))]. unfold w. f_equal. rewrite drop_drop. f_equal. lia.
Qed.

Lemma nvse_sequence_total w ty ctx :
  yields (λ '(ns, a), bytes w → Forall nvse_wf ns ∧ auth_type a = ty ∧
            (Forall nvse_encodable ns → ∃ wn wa, encode_nvses ns = Ok wn ∧ auth_encode a = Ok wa ∧ w = wn ++ wa))
         (decode_nvse_sequence_with_auth w ty ctx).
Proof.
  unfold decode_nvse_sequence_with_auth. destruct (decide _); [done|].
  eapply yields_mono; [apply nvse_auth_loop_total; lia|]. intros [ns a] (ns' & -> & H). rewrite drop_0 in H. done.
Qed.

(** ** Message headers

    Twenty octets (type, three octets, two addresses, identification), or twenty-four with a
    third address, and the rest of the message. *)
Definition header20 (ty : Z) (r ha hb : list Z) (id : Z) (tail : list Z) : list Z := [ty] ++ r ++ ha ++ hb ++ to_be64 id ++ tail.
Definition header24 (ty : Z) (r ha hb hc : list Z) (id : Z) (tail : list Z) : list Z :=
  [ty] ++ r ++ ha ++ hb ++ hc ++ to_be64 id ++ tail.

Lemma be64_at_drop (l : list Z) i :
  (i + 8 ≤ length l)%nat → bytes l → ∃ v, be64_at l i = Some v ∧ drop i l = to_be64 v ++ drop (i + 8) l.
Proof.
  intros H Hb. destruct (be32_at_drop l i) as (a & Ha & Da); [lia|]. destruct (be32_at_drop l (i + 4)) as (b & Hb' & Db); [lia|].
  destruct (be32_at_total l (i + 4)) as (b' & Hb'' & Ub); [lia|]. assert (b' = b) as -> by congruence.
  exists (from_be64 a b). unfold be64_at. rewrite Ha, Hb'. split; [done|]. rewrite Da, Db by done.
  specialize (Ub Hb). unfold to_be64, from_be64, is_u in *. change (2 ^ 32) with 4294967296 in *.
  replace ((a * 4294967296 + b) / 4294967296) with a by zdiv. replace ((a * 4294967296 + b) mod 4294967296) with b by zdiv.
  rewrite <- app_assoc. do 3 f_equal. lia.
Qed.
Lemma take_drop_at (l : list Z) i n : drop i l = take n (drop i l) ++ drop (i + n) l.
Proof. rewrite <- (drop_drop l n i). by rewrite take_drop. Qed.

Lemma header20_split w :
  (20 ≤ length w)%nat → bytes w →
  ∃ ty r ha hb id tail, length r = 3%nat ∧ length ha = 4%nat ∧ length hb = 4%nat ∧ w = header20 ty r ha hb id tail.
Proof.
  intros Hl Hb. destruct w as [|ty w']; [cbn in Hl; lia|]. destruct (be64_at_drop (ty :: w') 12) as (id & _ & Hd); [lia|done|].
  exists ty, (take 3 w'), (take 4 (drop 3 w')), (take 4 (drop 7 w')), id, (drop 19 w'). cbn in Hl.
  change (drop 11 w' = to_be64 id ++ drop 19 w') in Hd.
  rewrite !length_take, !length_drop. split_and!; [lia..|]. unfold header20. cbn [app]. f_equal.
  rewrite <- (take_drop 3 w') at 1. f_equal. etrans; [exact (take_drop_at w' 3 4)|]. f_equal. etrans; [exact (take_drop_at w' 7 4)|]. f_equal. exact Hd.
Qed.
Lemma header24_split w :
  (24 ≤ length w)%nat → bytes w →
  ∃ ty r ha hb hc id tail, length r = 3%nat ∧ length ha = 4%nat ∧ length hb = 4%nat ∧ length hc = 4%nat ∧
    w = header24 ty r ha hb hc id tail.
Proof.
  intros Hl Hb. destruct w as [|ty w']; [cbn in Hl; lia|]. destruct (be64_at_drop (ty :: w') 16) as (id & _ & Hd); [lia|done|].
  exists ty, (take 3 w'), (take 4 (drop 3 w')), (take 4 (drop 7 w')), (take 4 (drop 11 w')), id, (drop 23 w'). cbn in Hl.
  change (drop 15 w' = to_be64 id ++ drop 23 w') in Hd.
  rewrite !length_take, !length_drop. split_and!; [lia..|]. unfold header24. cbn [app]. f_equal.
  rewrite <- (take_drop 3 w') at 1. f_equal. etrans; [exact (take_drop_at w' 3 4)|]. f_equal. etrans; [exact (take_drop_at w' 7 4)|]. f_equal.
  etrans; [exact (take_drop_at w' 11 4)|]. f_equal. exact Hd.
Qed.

Lemma at_app (p m s w : list Z) i n : w = p ++ m ++ s → i = length p → n = length m → octets_at w i n = Some m.
Proof. intros -> -> ->. by apply octets_at_app. Qed.
Lemma from_app (p s w : list Z) i : w = p ++ s → i = length p → slice_from w i = Some s.
Proof. intros -> ->. by apply slice_from_app. Qed.

Record reads20 (w r ha hb : list Z) (id : Z) (tail : list Z) : Prop := {
  rd_len : ¬ (length w < 20)%nat;
  rd_tail : slice_from w 20 = Some tail;
  rd_after : ∀ p s, tail = p ++ s → slice_from w (20 + length p) = Some s;
  rd_3 : octets_at w 1 3 = Some r;
  rd_r : ∀ i, (i < 3)%nat → index w (1 + i) = r !! i;
  rd_2 : octets_at w 1 2 = Some (take 2 r);
  rd_ha : octets_at w 4 4 = Some ha;
  rd_hb : octets_at w 8 4 = Some hb;
  rd_id : be64_at w 12 = Some id
}.
Lemma header20_reads ty r ha hb id tail :
  length r = 3%nat → length ha = 4%nat → length hb = 4%nat → reads20 (header20 ty r ha hb id tail) r ha hb id tail.
Proof.
  intros Hr Ha Hb. set (w := header20 ty r ha hb id tail).
  assert (length w = (20 + length tail)%nat) as Hl by (unfold w, header20; rewrite !length_app, length_to_be64; cbn; lia).
  split.
  - lia.
  - eapply (from_app ([ty] ++ r ++ ha ++ hb ++ to_be64 id)); [unfold w, header20; by rewrite <- !app_assoc|].
    rewrite !length_app, length_to_be64. cbn. lia.
  - intros p s ->. eapply (from_app (([ty] ++ r ++ ha ++ hb ++ to_be64 id) ++ p)); [unfold w, header20; by rewrite <- !app_assoc|].
    rewrite !length_app, length_to_be64. cbn. lia.
  - eapply (at_app [ty]); [unfold w, header20; done|done|lia].
  - intros i Hi. unfold index. change (w !! (1 + i)%nat) with ((r ++ ha ++ hb ++ to_be64 id ++ tail) !! i).
    by rewrite lookup_app_l by lia.
  - eapply (at_app [ty] _ (drop 2 r ++ ha ++ hb ++ to_be64 id ++ tail)); [|done|rewrite length_take; lia].
    unfold w, header20. by rewrite (app_assoc (take 2 r)), take_drop.
  - eapply (at_app ([ty] ++ r)); [unfold w, header20; by rewrite <- !app_assoc|rewrite !length_app; cbn; lia|lia].
  - eapply (at_app ([ty] ++ r ++ ha)); [unfold w, header20; by rewrite <- !app_assoc|rewrite !length_app; cbn; lia|lia].
  - replace w with (([ty] ++ r ++ ha ++ hb) ++ to_be64 id ++ tail) by (unfold w, header20; by rewrite <- !app_assoc).
    apply be64_at_app. rewrite !length_app. cbn. lia.
Qed.

Record reads24 (w r ha hb hc : list Z) (id : Z) (tail : list Z) : Prop := {
  rd24_len : ¬ (length w < 24)%nat;
  rd24_tail : slice_from w 24 = Some tail;
  rd24_after : ∀ p s, tail = p ++ s → slice_from w (24 + length p) = Some s;
  rd24_3 : octets_at w 1 3 = Some r;
  rd24_r : ∀ i, (i < 3)%nat → index w (1 + i) = r !! i;
  rd24_ha : octets_at w 4 4 = Some ha;
  rd24_hb : octets_at w 8 4 = Some hb;
  rd24_hc : octets_at w 12 4 = Some hc;
  rd24_id : be64_at w 16 = Some id
}.
Lemma header24_reads ty r ha hb hc id tail :
  length r = 3%nat → length ha = 4%nat → length hb = 4%nat → length hc = 4%nat →
  reads24 (header24 ty r ha hb hc id tail) r ha hb hc id tail.
Proof.
  intros Hr Ha Hb Hc. set (w := header24 ty r ha hb hc id tail).
  assert (length w = (24 + length tail)%nat) as Hl by (unfold w, header24; rewrite !length_app, length_to_be64; cbn; lia).
  split.
  - lia.
  - eapply (from_app ([ty] ++ r ++ ha ++ hb ++ hc ++ to_be64 id)); [unfold w, header24; by rewrite <- !app_assoc|].
    rewrite !length_app, length_to_be64. cbn. lia.
  - intros p s ->. eapply (from_app (([ty] ++ r ++ ha ++ hb ++ hc ++ to_be64 id) ++ p)); [unfold w, header24; by rewrite <- !app_assoc|].
    rewrite !length_app, length_to_be64. cbn. lia.
  - eapply (at_app [ty]); [unfold w, header24; done|done|lia].
  - intros i Hi. unfold index. change (w !! (1 + i)%nat) with ((r ++ ha ++ hb ++ hc ++ to_be64 id ++ tail) !! i).
    by rewrite lookup_app_l by lia.
  - eapply (at_app ([ty] ++ r)); [unfold w, header24; by rewrite <- !app_assoc|rewrite !length_app; cbn; lia|lia].
  - eapply (at_app ([ty] ++ r ++ ha)); [unfold w, header24; by rewrite <- !app_assoc|rewrite !length_app; cbn; lia|lia].
  - eapply (at_app ([ty] ++ r ++ ha ++ hb)); [unfold w, header24; by rewrite <- !app_assoc|rewrite !length_app; cbn; lia|lia].
  - replace w with (([ty] ++ r ++ ha ++ hb ++ hc) ++ to_be64 id ++ tail) by (unfold w, header24; by rewrite <- !app_assoc).
    apply be64_at_app. rewrite !length_app. cbn. lia.
Qed.
