(* ===== verification/A11Messages.v ===== *)
(** * A11 messages: encoding and decoding agree

    The eight message bodies on top of the extension lemmas: what is encoded decodes to
    itself; every octet string is decoded or refused; what is decoded is the encoding of the
    message it decodes to. *)
From stdpp Require Import strings.
From S2P Require Import Prelude Octets A11Codec A11CodecProofs.
Import A11.

(** The fields fit their types, and nothing typed hides in a raw or unknown extension. *)
Definition address_wf (a : list Z) : Prop := length a = 4%nat.
Definition message_wf (m : Message) : Prop :=
  match m with
  | MRegistrationRequest m =>
      is_u16 (rq_lifetime m) ∧ address_wf (rq_home_agent m) ∧ address_wf (rq_care_of_address m) ∧
      session_wf (rq_session m) ∧ Forall ext_wf (rq_extensions m)
  | MRegistrationReply m =>
      is_u16 (rp_lifetime m) ∧ address_wf (rp_home_agent m) ∧ session_wf (rp_session m) ∧ Forall ext_wf (rp_extensions m)
  | MRegistrationUpdate m => address_wf (ru_home_agent m) ∧ session_wf (ru_session m) ∧ Forall nvse_wf (ru_nvses m)
  | MRegistrationAcknowledge m => address_wf (ra_care_of_address m) ∧ session_wf (ra_session m)
  | MSessionUpdate m => address_wf (su_home_agent m) ∧ session_wf (su_session m) ∧ Forall nvse_wf (su_nvses m)
  | MSessionUpdateAcknowledge m => address_wf (sa_care_of_address m) ∧ session_wf (sa_session m)
  | MCapabilitiesInfo m => address_wf (ci_home_agent m) ∧ address_wf (ci_care_of_address m) ∧ Forall nvse_wf (ci_nvses m)
  | MCapabilitiesInfoAcknowledge m => address_wf (ca_care_of_address m) ∧ Forall nvse_wf (ca_nvses m)
  end.
Definition message_encodable (m : Message) : Prop :=
  match m with
  | MRegistrationRequest m => Forall ext_encodable (rq_extensions m)
  | MRegistrationReply m => Forall ext_encodable (rp_extensions m)
  | MRegistrationUpdate m => Forall nvse_encodable (ru_nvses m)
  | MSessionUpdate m => Forall nvse_encodable (su_nvses m)
  | MCapabilitiesInfo m => Forall nvse_encodable (ci_nvses m)
  | MCapabilitiesInfoAcknowledge m => Forall nvse_encodable (ca_nvses m)
  | _ => True
  end.

(** ** What validation gives *)
Ltac invert_results :=
  repeat match goal with
  | H : and_then _ _ = Some (Ok _) |- _ => apply and_then_inv in H as (? & ? & H)
  | H : Some (rbind _ _) = Some (Ok _) |- _ => injection H as H
  | H : rbind _ _ = Ok _ |- _ => apply rbind_inv in H as (? & ? & H)
  | H : ensure (bool_decide _) _ = Ok _ |- _ => apply ensure_inv, bool_decide_eq_true_1 in H
  | H : validate_home_address_zero _ _ = Ok _ |- _ => apply ensure_inv, bool_decide_eq_true_1 in H
  | H : validate_reserved_2 _ _ _ = Ok _ |- _ => apply ensure_inv, bool_decide_eq_true_1 in H
  | H : validate_reserved_3 _ _ _ = Ok _ |- _ => apply ensure_inv, bool_decide_eq_true_1 in H
  | H : validate_authentication_extension _ _ _ = Ok _ |- _ => apply ensure_inv, bool_decide_eq_true_1 in H
  | H : Some ?r = Some (Ok _) |- _ => injection H as H
  | x : unit |- _ => destruct x
  end.

Lemma collect_encoded es t w :
  Forall ext_wf es → encode_extensions es = Some (Ok w) → validate_extensions es t = Ok tt → collect_extensions w = Some (Ok es).
Proof. intros. unfold collect_extensions. by apply (collect_loop_encoded es t w [] (length w) Seen_empty []). Qed.
Lemma collect_total w :
  bytes w → yields (λ es, Forall ext_wf es ∧ (Forall ext_encodable es → encode_extensions es = Some (Ok w))) (collect_extensions w).
Proof.
  intros Hb. unfold collect_extensions. eapply yields_mono; [apply collect_loop_total; lia|].
  intros es (es' & -> & H). rewrite drop_0 in H. by apply H.
Qed.

(** The three octets behind the type, read as an octet and a 16-bit field. *)
Lemma reads_octet_u16 w r x v :
  (∀ i, (i < 3)%nat → index w (1 + i) = r !! i) → r = [x] ++ to_be16 v → is_u16 v → index w 1 = Some x ∧ be16_at w 2 = Some v.
Proof.
  intros Hr -> Hv. pose proof (Hr 0%nat ltac:(lia)) as H1. pose proof (Hr 1%nat ltac:(lia)) as H2. pose proof (Hr 2%nat ltac:(lia)) as H3.
  change (index w 1 = Some x) in H1. change (index w 2 = Some (v / 256)) in H2. change (index w 3 = Some (v mod 256)) in H3. split; [done|]. unfold be16_at. cbn [Nat.add]. rewrite H2, H3. cbn. by rewrite split_u16.
Qed.
Lemma octet_u16_split r : length r = 3%nat → bytes r → ∃ x v, r = [x] ++ to_be16 v ∧ is_u16 v.
Proof.
  intros Hl Hb. destruct r as [|x [|y [|z [|]]]]; try done. apply Forall_cons in Hb as [_ [Hy [Hz _]%Forall_cons]%Forall_cons].
  exists x, (from_be16 y z). rewrite to_be16_from_be16 by done. split; [done|]. by apply from_be16_u16.
Qed.

(** ** Registration Request *)
Lemma request_roundtrip m w :
  message_wf (MRegistrationRequest m) → encode_request TRegistrationRequest m = Some (Ok w) → decode_request w = Some (Ok m).
Proof.
  destruct m as [fl lt ha hb hc id s es]. cbn [message_wf rq_lifetime rq_home_agent rq_care_of_address rq_session rq_extensions].
  intros (Hlt & Hb & Hc & Hs & Hes) He. unfold encode_request in He. invert_results. rename H into Hval, H0 into Hse, H1 into Hxe.
  cbn [rq_session rq_extensions] in *. apply session_encode_eq in Hse as [Hvs ->]; [|done]. pose proof Hval as Hval'.
  unfold request_validate in Hval'. invert_results. cbn [rq_home_address rq_extensions] in *. subst ha.
  set (tail := session_image s ++ x1) in *.
  assert (w = header24 1 ([fl] ++ to_be16 lt) [0; 0; 0; 0] hb hc id tail) as -> by (subst w; done).
  destruct (header24_reads 1 ([fl] ++ to_be16 lt) [0; 0; 0; 0] hb hc id tail) as [Rl Rt Ra _ Rr Rha Rhb Rhc Rid]; [done..|].
  destruct (reads_octet_u16 _ _ fl lt Rr eq_refl Hlt) as [R1 R2].
  unfold decode_request. rewrite decide_False by done. rewrite Rt, bind_some. unfold tail at 1.
  rewrite session_decode_image, and_then_ok, R1, R2, Rha, Rhb, Rhc, Rid, !bind_some by done.
  rewrite (Ra _ _ eq_refl), bind_some. erewrite collect_encoded, and_then_ok by done. by rewrite Hval.
Qed.

(** A validation that starts with the session returns. *)
Ltac validation_returns s H :=
  exfalso; let R := fresh in destruct (validate_session_returns s) as [[[]|] R]; unfold request_validate, reply_validate,
    update_validate, acknowledge_validate, session_update_validate, session_update_ack_validate in H; by rewrite R in H.

(** The session at the start of the rest of a message. *)
Lemma session_prefix tail s used :
  session_wf s ∧ validate_session s = Some (Ok tt) ∧ tail = session_image s ++ drop used tail → (used ≤ length tail)%nat →
  used = length (session_image s) ∧ session_encode s = Some (Ok (session_image s)).
Proof.
  intros (Hw & Hv & Ht) Hu. split.
  - apply (f_equal length) in Ht. rewrite length_app, length_drop in Ht. lia.
  - by apply session_encode_eq.
Qed.

Lemma bytes_header20 ty r ha hb id tail : bytes (header20 ty r ha hb id tail) → bytes r ∧ bytes tail.
Proof. unfold header20. rewrite !bytes_app. naive_solver. Qed.
Lemma bytes_header24 ty r ha hb hc id tail : bytes (header24 ty r ha hb hc id tail) → bytes r ∧ bytes tail.
Proof. unfold header24. rewrite !bytes_app. naive_solver. Qed.

Definition decodes_to {A} (ctor : A → Message) (enc : A → rust (result Error (list Z))) (w : list Z) (m : A) : Prop :=
  message_wf (ctor m) ∧
  (w !! 0%nat = Some (message_type_u8 (message_type (ctor m))) → message_encodable (ctor m) → enc m = Some (Ok w)).

Lemma request_total w :
  bytes w → yields (decodes_to MRegistrationRequest (encode_request TRegistrationRequest) w) (decode_request w).
Proof.
  intros Hb. unfold decode_request. destruct (decide _) as [|Hl]; [done|].
  destruct (header24_split w) as (ty & r & ha & hb & hc & id & tail & Lr & La & Lb & Lc & ->); [lia|done|].
  destruct (bytes_header24 _ _ _ _ _ _ _ Hb) as [Br Bt]. destruct (octet_u16_split r Lr Br) as (fl & lt & Hr & Hlt).
  destruct (header24_reads ty r ha hb hc id tail) as [_ Rt Ra _ Rr Rha Rhb Rhc Rid]; [done..|].
  destruct (reads_octet_u16 _ _ fl lt Rr Hr Hlt) as [R1 R2]. rewrite Rt, bind_some.
  eapply yields_and_then; [apply session_decode_total|]. intros [s used] [Hu Hs]. specialize (Hs Bt).
  destruct (session_prefix _ _ _ Hs Hu) as [-> Hse]. destruct Hs as (Hsw & Hsv & Ht).
  rewrite R1, R2, Rha, Rhb, Rhc, Rid, !bind_some, (Ra _ _ Ht), bind_some.
  eapply yields_and_then; [apply collect_total; rewrite Ht in Bt; by apply bytes_app in Bt as [_ Bt]|]. intros es [Hwf Hen].
  set (m := mkRequest _ _ _ _ _ _ _ _). destruct (request_validate m) as [[[]|e]|] eqn:Hval; [|done|].
  - cbn. split; [done|]. intros Hty He. cbn in Hty. injection Hty as ->. unfold encode_request. rewrite Hval, and_then_ok.
    cbn [rq_session rq_extensions m]. rewrite Hse, and_then_ok, (Hen He), and_then_ok. do 2 f_equal.
    unfold header24. subst r. cbn [m]. rewrite Ht at 2. done.
  - validation_returns (rq_session m) Hval.
Qed.

(** ** Registration Reply *)
Lemma reply_roundtrip m w :
  message_wf (MRegistrationReply m) → encode_reply TRegistrationReply m = Some (Ok w) → decode_reply w = Some (Ok m).
Proof.
  destruct m as [co lt ha hb id s es]. cbn [message_wf rp_lifetime rp_home_agent rp_session rp_extensions].
  intros (Hlt & Hb & Hs & Hes) He. unfold encode_reply in He. invert_results. rename H into Hval, H0 into Hse, H1 into Hxe.
  cbn [rp_session rp_extensions] in *. apply session_encode_eq in Hse as [Hvs ->]; [|done]. pose proof Hval as Hval'.
  unfold reply_validate in Hval'. invert_results. cbn [rp_home_address rp_extensions] in *. subst ha.
  set (tail := session_image s ++ x1) in *.
  assert (w = header20 3 ([co] ++ to_be16 lt) [0; 0; 0; 0] hb id tail) as -> by (subst w; done).
  destruct (header20_reads 3 ([co] ++ to_be16 lt) [0; 0; 0; 0] hb id tail) as [Rl Rt Ra _ Rr _ Rha Rhb Rid]; [done..|].
  destruct (reads_octet_u16 _ _ co lt Rr eq_refl Hlt) as [R1 R2].
  unfold decode_reply. rewrite decide_False by done. rewrite Rt, bind_some. unfold tail at 1.
  rewrite session_decode_image, and_then_ok, R1, R2, Rha, Rhb, Rid, !bind_some by done.
  rewrite (Ra _ _ eq_refl), bind_some. erewrite collect_encoded, and_then_ok by done. by rewrite Hval.
Qed.
Lemma reply_total w :
  bytes w → yields (decodes_to MRegistrationReply (encode_reply TRegistrationReply) w) (decode_reply w).
Proof.
  intros Hb. unfold decode_reply. destruct (decide _) as [|Hl]; [done|].
  destruct (header20_split w) as (ty & r & ha & hb & id & tail & Lr & La & Lb & ->); [lia|done|].
  destruct (bytes_header20 _ _ _ _ _ _ Hb) as [Br Bt]. destruct (octet_u16_split r Lr Br) as (co & lt & Hr & Hlt).
  destruct (header20_reads ty r ha hb id tail) as [_ Rt Ra _ Rr _ Rha Rhb Rid]; [done..|].
  destruct (reads_octet_u16 _ _ co lt Rr Hr Hlt) as [R1 R2]. rewrite Rt, bind_some.
  eapply yields_and_then; [apply session_decode_total|]. intros [s used] [Hu Hs]. specialize (Hs Bt).
  destruct (session_prefix _ _ _ Hs Hu) as [-> Hse]. destruct Hs as (Hsw & Hsv & Ht).
  rewrite R1, R2, Rha, Rhb, Rid, !bind_some, (Ra _ _ Ht), bind_some.
  eapply yields_and_then; [apply collect_total; rewrite Ht in Bt; by apply bytes_app in Bt as [_ Bt]|]. intros es [Hwf Hen].
  set (m := mkReply _ _ _ _ _ _ _). destruct (reply_validate m) as [[[]|e]|] eqn:Hval; [|done|].
  - cbn. split; [done|]. intros Hty He. cbn in Hty. injection Hty as ->. unfold encode_reply. rewrite Hval, and_then_ok.
    cbn [rp_session rp_extensions m]. rewrite Hse, and_then_ok, (Hen He), and_then_ok. do 2 f_equal.
    unfold header20. subst r. cbn [m]. rewrite Ht at 2. done.
  - validation_returns (rp_session m) Hval.
Qed.

(** ** Registration Update *)
Lemma update_roundtrip m w :
  message_wf (MRegistrationUpdate m) → encode_update TRegistrationUpdate m = Some (Ok w) → decode_update w = Some (Ok m).
Proof.
  destruct m as [r ha hb id s ns a]. cbn [message_wf ru_home_agent ru_session ru_nvses].
  intros (Hb & Hs & Hns) He. unfold encode_update in He. invert_results. rename H into Hval, H0 into Hse, H1 into Hne, H2 into Hae.
  cbn [ru_session ru_nvses ru_authentication] in *. apply session_encode_eq in Hse as [Hvs ->]; [|done]. pose proof Hval as Hval'.
  unfold update_validate in Hval'. invert_results. cbn [ru_home_address ru_reserved ru_nvses ru_authentication] in *. subst ha r.
  set (tail := session_image s ++ x1 ++ x2) in *. set (ty := message_type_u8 TRegistrationUpdate).
  assert (w = header20 ty [0; 0; 0] [0; 0; 0; 0] hb id tail) as -> by (subst w; done).
  destruct (header20_reads ty [0; 0; 0] [0; 0; 0; 0] hb id tail) as [Rl Rt Ra R3 _ _ Rha Rhb Rid]; [done..|].
  unfold decode_update. rewrite decide_False by done. rewrite Rt, bind_some. unfold tail at 1.
  rewrite session_decode_image, and_then_ok, (Ra _ _ eq_refl), bind_some by done.
  match goal with Ha : auth_type a = _ |- _ => rewrite <- Ha end. erewrite nvse_sequence_encoded, and_then_ok by done.
  rewrite R3, Rha, Rhb, Rid, !bind_some. by rewrite Hval.
Qed.
Lemma update_total w :
  bytes w → yields (decodes_to MRegistrationUpdate (encode_update TRegistrationUpdate) w) (decode_update w).
Proof.
  intros Hb. unfold decode_update. destruct (decide _) as [|Hl]; [done|].
  destruct (header20_split w) as (ty & r & ha & hb & id & tail & Lr & La & Lb & ->); [lia|done|].
  destruct (bytes_header20 _ _ _ _ _ _ Hb) as [Br Bt].
  destruct (header20_reads ty r ha hb id tail) as [_ Rt Ra R3 _ _ Rha Rhb Rid]; [done..|]. rewrite Rt, bind_some.
  eapply yields_and_then; [apply session_decode_total|]. intros [s used] [Hu Hs]. specialize (Hs Bt).
  destruct (session_prefix _ _ _ Hs Hu) as [-> Hse]. destruct Hs as (Hsw & Hsv & Ht). rewrite (Ra _ _ Ht), bind_some.
  eapply yields_and_then; [apply nvse_sequence_total|]. intros [ns a] Hn.
  destruct Hn as (Hwf & Hat & Hen); [rewrite Ht in Bt; by apply bytes_app in Bt as [_ Bt]|]. rewrite R3, Rha, Rhb, Rid, !bind_some.
  set (m := mkUpdate _ _ _ _ _ _ _). destruct (update_validate m) as [[[]|e]|] eqn:Hval; [|done|].
  - cbn. split; [done|]. intros Hty He. cbn in Hty. injection Hty as ->. unfold encode_update. rewrite Hval, and_then_ok.
    destruct (Hen He) as (wn & wa & Hwn & Hwa & Hd). cbn [ru_session ru_nvses ru_authentication m].
    rewrite Hse, Hwn, Hwa, !and_then_ok. do 2 f_equal. unfold header20. cbn [m]. rewrite Ht, Hd at 1. done.
  - validation_returns (ru_session m) Hval.
Qed.

(** ** Session Update *)
Lemma session_update_roundtrip m w :
  message_wf (MSessionUpdate m) → encode_session_update TSessionUpdate m = Some (Ok w) → decode_session_update w = Some (Ok m).
Proof.
  destruct m as [r ha hb id s ns a]. cbn [message_wf su_home_agent su_session su_nvses].
  intros (Hb & Hs & Hns) He. unfold encode_session_update in He. invert_results. rename H into Hval, H0 into Hse, H1 into Hne, H2 into Hae.
  cbn [su_session su_nvses su_authentication] in *. apply session_encode_eq in Hse as [Hvs ->]; [|done]. pose proof Hval as Hval'.
  unfold session_update_validate in Hval'. invert_results. cbn [su_home_address su_reserved su_nvses su_authentication] in *. subst ha r.
  set (tail := session_image s ++ x1 ++ x2) in *. set (ty := message_type_u8 TSessionUpdate).
  assert (w = header20 ty [0; 0; 0] [0; 0; 0; 0] hb id tail) as -> by (subst w; done).
  destruct (header20_reads ty [0; 0; 0] [0; 0; 0; 0] hb id tail) as [Rl Rt Ra R3 _ _ Rha Rhb Rid]; [done..|].
  unfold decode_session_update. rewrite decide_False by done. rewrite Rt, bind_some. unfold tail at 1.
  rewrite session_decode_image, and_then_ok, (Ra _ _ eq_refl), bind_some by done.
  match goal with Ha : auth_type a = _ |- _ => rewrite <- Ha end. erewrite nvse_sequence_encoded, and_then_ok by done.
  rewrite R3, Rha, Rhb, Rid, !bind_some. by rewrite Hval.
Qed.
Lemma session_update_total w :
  bytes w → yields (decodes_to MSessionUpdate (encode_session_update TSessionUpdate) w) (decode_session_update w).
Proof.
  intros Hb. unfold decode_session_update. destruct (decide _) as [|Hl]; [done|].
  destruct (header20_split w) as (ty & r & ha & hb & id & tail & Lr & La & Lb & ->); [lia|done|].
  destruct (bytes_header20 _ _ _ _ _ _ Hb) as [Br Bt].
  destruct (header20_reads ty r ha hb id tail) as [_ Rt Ra R3 _ _ Rha Rhb Rid]; [done..|]. rewrite Rt, bind_some.
  eapply yields_and_then; [apply session_decode_total|]. intros [s used] [Hu Hs]. specialize (Hs Bt).
  destruct (session_prefix _ _ _ Hs Hu) as [-> Hse]. destruct Hs as (Hsw & Hsv & Ht). rewrite (Ra _ _ Ht), bind_some.
  eapply yields_and_then; [apply nvse_sequence_total|]. intros [ns a] Hn.
  destruct Hn as (Hwf & Hat & Hen); [rewrite Ht in Bt; by apply bytes_app in Bt as [_ Bt]|]. rewrite R3, Rha, Rhb, Rid, !bind_some.
  set (m := mkSessionUpdate _ _ _ _ _ _ _). destruct (session_update_validate m) as [[[]|e]|] eqn:Hval; [|done|].
  - cbn. split; [done|]. intros Hty He. cbn in Hty. injection Hty as ->. unfold encode_session_update. rewrite Hval, and_then_ok.
    destruct (Hen He) as (wn & wa & Hwn & Hwa & Hd). cbn [su_session su_nvses su_authentication m].
    rewrite Hse, Hwn, Hwa, !and_then_ok. do 2 f_equal. unfold header20. cbn [m]. rewrite Ht, Hd at 1. done.
  - validation_returns (su_session m) Hval.
Qed.

(** Two reserved octets and a status. *)
Lemma status_split (r : list Z) : length r = 3%nat → ∃ st, r = take 2 r ++ [st] ∧ r !! 2%nat = Some st.
Proof. intros. destruct r as [|x [|y [|z [|]]]]; try done. by exists z. Qed.

(** ** Registration Acknowledge *)
Lemma acknowledge_roundtrip m w :
  message_wf (MRegistrationAcknowledge m) → encode_acknowledge TRegistrationAcknowledge m = Some (Ok w) → decode_acknowledge w = Some (Ok m).
Proof.
  destruct m as [r st ha hb id s a]. cbn [message_wf ra_care_of_address ra_session].
  intros (Hb & Hs) He. unfold encode_acknowledge in He. invert_results. rename H into Hval, H0 into Hse, H1 into Hae.
  cbn [ra_session ra_authentication] in *. apply session_encode_eq in Hse as [Hvs ->]; [|done]. pose proof Hval as Hval'.
  unfold acknowledge_validate in Hval'. invert_results. cbn [ra_home_address ra_reserved ra_authentication] in *. subst ha r.
  set (tail := session_image s ++ x1) in *. set (ty := message_type_u8 TRegistrationAcknowledge).
  assert (w = header20 ty ([0; 0] ++ [st]) [0; 0; 0; 0] hb id tail) as -> by (subst w; done).
  destruct (header20_reads ty ([0; 0] ++ [st]) [0; 0; 0; 0] hb id tail) as [Rl Rt Ra _ Rr R2 Rha Rhb Rid]; [done..|].
  pose proof (Rr 2%nat ltac:(lia)) as Rst. change (index (header20 ty ([0; 0] ++ [st]) [0; 0; 0; 0] hb id tail) 3 = Some st) in Rst.
  unfold decode_acknowledge. rewrite decide_False by done. rewrite Rt, bind_some. unfold tail at 1.
  rewrite session_decode_image, and_then_ok, R2, Rst, Rha, Rhb, Rid, !bind_some, (Ra _ _ eq_refl), bind_some by done.
  match goal with Ha : auth_type a = _ |- _ => rewrite <- Ha end. rewrite required_auth_encoded, and_then_ok by done.
  cbn [take app]. by rewrite Hval.
Qed.
Lemma acknowledge_total w :
  bytes w → yields (decodes_to MRegistrationAcknowledge (encode_acknowledge TRegistrationAcknowledge) w) (decode_acknowledge w).
Proof.
  intros Hb. unfold decode_acknowledge. destruct (decide _) as [|Hl]; [done|].
  destruct (header20_split w) as (ty & r & ha & hb & id & tail & Lr & La & Lb & ->); [lia|done|].
  destruct (bytes_header20 _ _ _ _ _ _ Hb) as [Br Bt]. destruct (status_split r Lr) as (st & Hr & Hst).
  destruct (header20_reads ty r ha hb id tail) as [_ Rt Ra _ Rr R2 Rha Rhb Rid]; [done..|]. rewrite Rt, bind_some.
  pose proof (Rr 2%nat ltac:(lia)) as Rst. rewrite Hst in Rst. change (1 + 2)%nat with 3%nat in Rst.
  eapply yields_and_then; [apply session_decode_total|]. intros [s used] [Hu Hs]. specialize (Hs Bt).
  destruct (session_prefix _ _ _ Hs Hu) as [-> Hse]. destruct Hs as (Hsw & Hsv & Ht).
  rewrite R2, Rst, Rha, Rhb, Rid, !bind_some, (Ra _ _ Ht), bind_some.
  eapply yields_and_then; [apply required_auth_total|]. intros a Ha.
  destruct Ha as [Hwa Hat]; [rewrite Ht in Bt; by apply bytes_app in Bt as [_ Bt]|].
  set (m := mkAcknowledge _ _ _ _ _ _ _). destruct (acknowledge_validate m) as [[[]|e]|] eqn:Hval; [|done|].
  - cbn. split; [done|]. intros Hty He. cbn in Hty. injection Hty as ->. unfold encode_acknowledge. rewrite Hval, and_then_ok.
    cbn [ra_session ra_authentication m]. rewrite Hse, Hwa, !and_then_ok. do 2 f_equal. unfold header20. cbn [m ra_reserved ra_status ra_home_address ra_care_of_address ra_identification].
    rewrite (app_assoc (take 2 r)), <- Hr, <- Ht. done.
  - validation_returns (ra_session m) Hval.
Qed.

(** ** Session Update Acknowledge *)
Lemma session_update_acknowledge_roundtrip m w :
  message_wf (MSessionUpdateAcknowledge m) → encode_session_update_acknowledge TSessionUpdateAcknowledge m = Some (Ok w) → decode_session_update_acknowledge w = Some (Ok m).
Proof.
  destruct m as [r st ha hb id s a]. cbn [message_wf sa_care_of_address sa_session].
  intros (Hb & Hs) He. unfold encode_session_update_acknowledge in He. invert_results. rename H into Hval, H0 into Hse, H1 into Hae.
  cbn [sa_session sa_authentication] in *. apply session_encode_eq in Hse as [Hvs ->]; [|done]. pose proof Hval as Hval'.
  unfold session_update_ack_validate in Hval'. invert_results. cbn [sa_home_address sa_reserved sa_authentication] in *. subst ha r.
  set (tail := session_image s ++ x1) in *. set (ty := message_type_u8 TSessionUpdateAcknowledge).
  assert (w = header20 ty ([0; 0] ++ [st]) [0; 0; 0; 0] hb id tail) as -> by (subst w; done).
  destruct (header20_reads ty ([0; 0] ++ [st]) [0; 0; 0; 0] hb id tail) as [Rl Rt Ra _ Rr R2 Rha Rhb Rid]; [done..|].
  pose proof (Rr 2%nat ltac:(lia)) as Rst. change (index (header20 ty ([0; 0] ++ [st]) [0; 0; 0; 0] hb id tail) 3 = Some st) in Rst.
  unfold decode_session_update_acknowledge. rewrite decide_False by done. rewrite Rt, bind_some. unfold tail at 1.
  rewrite session_decode_image, and_then_ok, R2, Rst, Rha, Rhb, Rid, !bind_some, (Ra _ _ eq_refl), bind_some by done.
  match goal with Ha : auth_type a = _ |- _ => rewrite <- Ha end. rewrite required_auth_encoded, and_then_ok by done.
  cbn [take app]. by rewrite Hval.
Qed.
Lemma session_update_acknowledge_total w :
  bytes w → yields (decodes_to MSessionUpdateAcknowledge (encode_session_update_acknowledge TSessionUpdateAcknowledge) w) (decode_session_update_acknowledge w).
Proof.
  intros Hb. unfold decode_session_update_acknowledge. destruct (decide _) as [|Hl]; [done|].
  destruct (header20_split w) as (ty & r & ha & hb & id & tail & Lr & La & Lb & ->); [lia|done|].
  destruct (bytes_header20 _ _ _ _ _ _ Hb) as [Br Bt]. destruct (status_split r Lr) as (st & Hr & Hst).
  destruct (header20_reads ty r ha hb id tail) as [_ Rt Ra _ Rr R2 Rha Rhb Rid]; [done..|]. rewrite Rt, bind_some.
  pose proof (Rr 2%nat ltac:(lia)) as Rst. rewrite Hst in Rst. change (1 + 2)%nat with 3%nat in Rst.
  eapply yields_and_then; [apply session_decode_total|]. intros [s used] [Hu Hs]. specialize (Hs Bt).
  destruct (session_prefix _ _ _ Hs Hu) as [-> Hse]. destruct Hs as (Hsw & Hsv & Ht).
  rewrite R2, Rst, Rha, Rhb, Rid, !bind_some, (Ra _ _ Ht), bind_some.
  eapply yields_and_then; [apply required_auth_total|]. intros a Ha.
  destruct Ha as [Hwa Hat]; [rewrite Ht in Bt; by apply bytes_app in Bt as [_ Bt]|].
  set (m := mkSessionUpdateAck _ _ _ _ _ _ _). destruct (session_update_ack_validate m) as [[[]|e]|] eqn:Hval; [|done|].
  - cbn. split; [done|]. intros Hty He. cbn in Hty. injection Hty as ->. unfold encode_session_update_acknowledge. rewrite Hval, and_then_ok.
    cbn [sa_session sa_authentication m]. rewrite Hse, Hwa, !and_then_ok. do 2 f_equal. unfold header20. cbn [m sa_reserved sa_status sa_home_address sa_care_of_address sa_identification].
    rewrite (app_assoc (take 2 r)), <- Hr, <- Ht. done.
  - validation_returns (sa_session m) Hval.
Qed.

(** ** Capabilities Info *)
Lemma capabilities_info_roundtrip m w :
  message_wf (MCapabilitiesInfo m) → encode_capabilities_info TCapabilitiesInfo m = Some (Ok w) → decode_capabilities_info w = Some (Ok m).
Proof.
  destruct m as [r ha hb hc id ns a]. cbn [message_wf ci_home_agent ci_care_of_address ci_nvses].
  intros (Hb & Hc & Hns) He. unfold encode_capabilities_info in He.
  apply and_then_inv in He as ([] & [= Hval] & He). invert_results. rename H into Hne, H0 into Hae.
  cbn [ci_nvses ci_authentication] in *. pose proof Hval as Hval'.
  unfold capabilities_validate in Hval'. invert_results. cbn [ci_home_address ci_reserved ci_nvses ci_authentication] in *. subst ha r.
  set (tail := x ++ x0) in *. assert (w = header24 24 [0; 0; 0] [0; 0; 0; 0] hb hc id tail) as -> by (subst w; done).
  destruct (header24_reads 24 [0; 0; 0] [0; 0; 0; 0] hb hc id tail) as [Rl Rt Ra R3 _ Rha Rhb Rhc Rid]; [done..|].
  unfold decode_capabilities_info. rewrite decide_False by done. rewrite Rt, bind_some. unfold tail at 1.
  match goal with Ha : auth_type a = _ |- _ => rewrite <- Ha end. erewrite nvse_sequence_encoded, and_then_ok by done.
  rewrite R3, Rha, Rhb, Rhc, Rid, !bind_some. by rewrite Hval.
Qed.
Lemma capabilities_info_total w :
  bytes w → yields (decodes_to MCapabilitiesInfo (encode_capabilities_info TCapabilitiesInfo) w) (decode_capabilities_info w).
Proof.
  intros Hb. unfold decode_capabilities_info. destruct (decide _) as [|Hl]; [done|].
  destruct (header24_split w) as (ty & r & ha & hb & hc & id & tail & Lr & La & Lb & Lc & ->); [lia|done|].
  destruct (bytes_header24 _ _ _ _ _ _ _ Hb) as [Br Bt].
  destruct (header24_reads ty r ha hb hc id tail) as [_ Rt Ra R3 _ Rha Rhb Rhc Rid]; [done..|]. rewrite Rt, bind_some.
  eapply yields_and_then; [apply nvse_sequence_total|]. intros [ns a] Hn. destruct (Hn Bt) as (Hwf & Hat & Hen).
  rewrite R3, Rha, Rhb, Rhc, Rid, !bind_some.
  set (m := mkCapabilities _ _ _ _ _ _ _). destruct (capabilities_validate m) as [[]|e] eqn:Hval; [|done].
  cbn. split; [done|]. intros Hty He. cbn in Hty. injection Hty as ->. unfold encode_capabilities_info. rewrite Hval, and_then_ok.
  destruct (Hen He) as (wn & wa & Hwn & Hwa & Hd). cbn [ci_nvses ci_authentication m].
  rewrite Hwn, Hwa, !and_then_ok. do 2 f_equal. unfold header24. cbn [m]. by rewrite Hd.
Qed.

(** ** Capabilities Info Acknowledge *)
Lemma capabilities_info_ack_roundtrip m w :
  message_wf (MCapabilitiesInfoAcknowledge m) → encode_capabilities_info_ack TCapabilitiesInfoAcknowledge m = Some (Ok w) →
  decode_capabilities_info_ack w = Some (Ok m).
Proof.
  destruct m as [r ha hb id ns a]. cbn [message_wf ca_care_of_address ca_nvses].
  intros (Hb & Hns) He. unfold encode_capabilities_info_ack in He.
  apply and_then_inv in He as ([] & [= Hval] & He). invert_results. rename H into Hne, H0 into Hae.
  cbn [ca_nvses ca_authentication] in *. pose proof Hval as Hval'.
  unfold capabilities_ack_validate in Hval'. invert_results. cbn [ca_home_address ca_reserved ca_nvses ca_authentication] in *. subst ha r.
  set (tail := x ++ x0) in *. assert (w = header20 25 [0; 0; 0] [0; 0; 0; 0] hb id tail) as -> by (subst w; done).
  destruct (header20_reads 25 [0; 0; 0] [0; 0; 0; 0] hb id tail) as [Rl Rt Ra R3 _ _ Rha Rhb Rid]; [done..|].
  unfold decode_capabilities_info_ack. rewrite decide_False by done. rewrite Rt, bind_some. unfold tail at 1.
  match goal with Ha : auth_type a = _ |- _ => rewrite <- Ha end. erewrite nvse_sequence_encoded, and_then_ok by done.
  rewrite R3, Rha, Rhb, Rid, !bind_some. by rewrite Hval.
Qed.
Lemma capabilities_info_ack_total w :
  bytes w →
  yields (decodes_to MCapabilitiesInfoAcknowledge (encode_capabilities_info_ack TCapabilitiesInfoAcknowledge) w) (decode_capabilities_info_ack w).
Proof.
  intros Hb. unfold decode_capabilities_info_ack. destruct (decide _) as [|Hl]; [done|].
  destruct (header20_split w) as (ty & r & ha & hb & id & tail & Lr & La & Lb & ->); [lia|done|].
  destruct (bytes_header20 _ _ _ _ _ _ Hb) as [Br Bt].
  destruct (header20_reads ty r ha hb id tail) as [_ Rt Ra R3 _ _ Rha Rhb Rid]; [done..|]. rewrite Rt, bind_some.
  eapply yields_and_then; [apply nvse_sequence_total|]. intros [ns a] Hn. destruct (Hn Bt) as (Hwf & Hat & Hen).
  rewrite R3, Rha, Rhb, Rid, !bind_some.
  set (m := mkCapabilitiesAck _ _ _ _ _ _). destruct (capabilities_ack_validate m) as [[]|e] eqn:Hval; [|done].
  cbn. split; [done|]. intros Hty He. cbn in Hty. injection Hty as ->. unfold encode_capabilities_info_ack. rewrite Hval, and_then_ok.
  destruct (Hen He) as (wn & wa & Hwn & Hwa & Hd). cbn [ca_nvses ca_authentication m].
  rewrite Hwn, Hwa, !and_then_ok. do 2 f_equal. unfold header20. cbn [m]. by rewrite Hd.
Qed.

(** ** Messages *)
Lemma encode_starts m w : encode m = Some (Ok w) → ∃ w', w = message_type_u8 (message_type m) :: w'.
Proof.
  destruct m; cbn [encode message_type]; unfold encode_request, encode_reply, encode_update, encode_acknowledge, encode_session_update,
    encode_session_update_acknowledge, encode_capabilities_info, encode_capabilities_info_ack; intros H;
    repeat (apply and_then_inv in H as (? & _ & H)); injection H as <-; eexists; reflexivity.
Qed.
Lemma message_type_from_to t : message_type_from_u8 (message_type_u8 t) = Ok t.
Proof. by destruct t. Qed.
Lemma message_type_from_inv z t : message_type_from_u8 z = Ok t → message_type_u8 t = z.
Proof.
  unfold message_type_from_u8. intros H.
  repeat match type of H with (if ?z =? ?n then _ else _) = _ => destruct (Z.eqb_spec z n); [by injection H as <-|] end. done.
Qed.

Lemma message_roundtrip m w : message_wf m → encode m = Some (Ok w) → decode_message w = Some (Ok m).
Proof.
  intros Hw He. destruct (encode_starts m w He) as [w' ->]. unfold decode_message. rewrite message_type_from_to, and_then_ok.
  destruct m; cbn [message_type encode] in *.
  - by rewrite (request_roundtrip _ _ Hw He).
  - by rewrite (reply_roundtrip _ _ Hw He).
  - by rewrite (update_roundtrip _ _ Hw He).
  - by rewrite (acknowledge_roundtrip _ _ Hw He).
  - by rewrite (session_update_roundtrip _ _ Hw He).
  - by rewrite (session_update_acknowledge_roundtrip _ _ Hw He).
  - by rewrite (capabilities_info_roundtrip _ _ Hw He).
  - by rewrite (capabilities_info_ack_roundtrip _ _ Hw He).
Qed.

Lemma message_total w :
  bytes w → yields (λ m, message_wf m ∧ (message_encodable m → encode m = Some (Ok w))) (decode_message w).
Proof.
  intros Hb. unfold decode_message. destruct w as [|ty w]; [done|]. destruct (message_type_from_u8 ty) as [t|] eqn:Ht; [|done].
  rewrite and_then_ok. apply message_type_from_inv in Ht. subst ty.
  destruct t; (eapply yields_and_then; [first [by apply request_total | by apply reply_total | by apply update_total | by apply acknowledge_total
    | by apply session_update_total | by apply session_update_acknowledge_total | by apply capabilities_info_total
    | by apply capabilities_info_ack_total]|]); intros m [Hwf He]; (split; [done|]); intros; by apply He.
Qed.

(** C27: The A11 codec: a message whose fields fit their types and in which no typed extension hides in a raw or unknown
    one, if it is encoded at all, decodes to itself; and every received octet string is decoded or refused without a
    panic, a decoded message is well typed, and (the PDSN-code and RN-PDIT values that only the encoder checks apart)
    the string is the encoding of the message. *)
Theorem a11_codec_roundtrip :
  (∀ m w, message_wf m → encode m = Some (Ok w) → decode_message w = Some (Ok m)) ∧
  (∀ w, bytes w → match decode_message w with
                  | Some (Ok m) => message_wf m ∧ (message_encodable m → encode m = Some (Ok w))
                  | Some (Err _) => True
                  | None => False
                  end).
Proof. split; [apply message_roundtrip|]. intros w Hb. apply (message_total w Hb). Qed.
