(* ===== verification/A11Auth.v ===== *)
(** * Authentication of A11 messages ([cdma-a11/src/lib.rs])

    Signing and verifying with the keyed-MD5 prefix/suffix form.  The digest is a parameter;
    what is used of it is its sixteen octets.  Configuration (the hexadecimal form of the
    secret) is left out. *)
From stdpp Require Import strings.
From S2P Require Import Prelude Octets A11Codec A11CodecProofs A11Messages.
Import A11.

Module A11Auth.

Record A11SecurityAssociation := mkAssociation { spi : Z; shared_secret : list Z }.

Definition required_authentication_type_for_message (m : Message) : AuthenticationExtensionType :=
  match m with MRegistrationRequest _ | MRegistrationReply _ => MobileHome | _ => AuthRegistrationUpdate end.

Definition required_authentication_extension (m : Message) : result Error AuthenticationExtension :=
  match m with
  | MRegistrationRequest m => required_extension_authentication (rq_extensions m) MobileHome "registration request.extensions"
  | MRegistrationReply m => required_extension_authentication (rp_extensions m) MobileHome "registration reply.extensions"
  | MRegistrationUpdate m => Ok (ru_authentication m)
  | MRegistrationAcknowledge m => Ok (ra_authentication m)
  | MSessionUpdate m => Ok (su_authentication m)
  | MSessionUpdateAcknowledge m => Ok (sa_authentication m)
  | MCapabilitiesInfo m => Ok (ci_authentication m)
  | MCapabilitiesInfoAcknowledge m => Ok (ca_authentication m)
  end.

(** [set_extension_authentication]: the loop over the extensions, then the checks behind it.  The list is changed in
    place, also when a second extension of the type is an error. *)
Definition is_auth_of (t : AuthenticationExtensionType) (e : Extension) : bool :=
  match e with ExtAuthentication existing => bool_decide (auth_type existing = t) | _ => false end.
Fixpoint replace_authentication (extensions : list Extension) (a : AuthenticationExtension) (replaced : bool)
    : list Extension * result Error bool :=
  match extensions with
  | [] => ([], Ok replaced)
  | e :: rest =>
      if is_auth_of (auth_type a) e then
        if replaced then (e :: rest, Err (DuplicateExtension (auth_type_u8 (auth_type a))))
        else let '(rest, r) := replace_authentication rest a true in (ExtAuthentication a :: rest, r)
      else let '(rest, r) := replace_authentication rest a replaced in (e :: rest, r)
  end.
Definition is_other_auth (t : AuthenticationExtensionType) (e : Extension) : bool :=
  match e with ExtAuthentication existing => bool_decide (auth_type existing ≠ t) | _ => false end.
Definition set_extension_authentication (extensions : list Extension) (a : AuthenticationExtension) (context : string)
    : list Extension * result Error unit :=
  let '(extensions, r) := replace_authentication extensions a false in
  match r with
  | Err e => (extensions, Err e)
  | Ok true => (extensions, Ok tt)
  | Ok false =>
      if existsb (is_other_auth (auth_type a)) extensions then
        (extensions, Err (InvalidValue context "unexpected authentication extension type"))
      else (extensions ++ [ExtAuthentication a], Ok tt)
  end.

Definition set_message_authentication (m : Message) (a : AuthenticationExtension) : Message * result Error unit :=
  match m with
  | MRegistrationRequest m =>
      let '(es, r) := set_extension_authentication (rq_extensions m) a "registration request.extensions" in
      (MRegistrationRequest (mkRequest (rq_flags m) (rq_lifetime m) (rq_home_address m) (rq_home_agent m)
                               (rq_care_of_address m) (rq_identification m) (rq_session m) es), r)
  | MRegistrationReply m =>
      let '(es, r) := set_extension_authentication (rp_extensions m) a "registration reply.extensions" in
      (MRegistrationReply (mkReply (rp_code m) (rp_lifetime m) (rp_home_address m) (rp_home_agent m)
                             (rp_identification m) (rp_session m) es), r)
  | MRegistrationUpdate m =>
      (MRegistrationUpdate (mkUpdate (ru_reserved m) (ru_home_address m) (ru_home_agent m) (ru_identification m)
                              (ru_session m) (ru_nvses m) a), Ok tt)
  | MRegistrationAcknowledge m =>
      (MRegistrationAcknowledge (mkAcknowledge (ra_reserved m) (ra_status m) (ra_home_address m) (ra_care_of_address m)
                                   (ra_identification m) (ra_session m) a), Ok tt)
  | MSessionUpdate m =>
      (MSessionUpdate (mkSessionUpdate (su_reserved m) (su_home_address m) (su_home_agent m) (su_identification m)
                         (su_session m) (su_nvses m) a), Ok tt)
  | MSessionUpdateAcknowledge m =>
      (MSessionUpdateAcknowledge (mkSessionUpdateAck (sa_reserved m) (sa_status m) (sa_home_address m) (sa_care_of_address m)
                                    (sa_identification m) (sa_session m) a), Ok tt)
  | MCapabilitiesInfo m =>
      (MCapabilitiesInfo (mkCapabilities (ci_reserved m) (ci_home_address m) (ci_home_agent m) (ci_care_of_address m)
                            (ci_identification m) (ci_nvses m) a), Ok tt)
  | MCapabilitiesInfoAcknowledge m =>
      (MCapabilitiesInfoAcknowledge (mkCapabilitiesAck (ca_reserved m) (ca_home_address m) (ca_care_of_address m)
                                       (ca_identification m) (ca_nvses m) a), Ok tt)
  end.

Definition authenticated_wire_prefix (wire : list Z) : rust (result Error (list Z)) :=
  if decide (length wire < A11_AUTHENTICATOR_BYTES)%nat then Some (Err (Truncated A11_AUTHENTICATOR_BYTES (length wire)))
  else prefix ← slice wire 0 (length wire - A11_AUTHENTICATOR_BYTES); Some (Ok prefix).

Definition constant_time_eq (left right : list Z) : bool :=
  if decide (length left ≠ length right) then false
  else foldl (λ diff '(a, b), Z.lor diff (Z.lxor a b)) 0 (zip left right) =? 0.

Section auth.
Context (md5 : list Z → list Z).

Definition placeholder_authentication (sa : A11SecurityAssociation) (t : AuthenticationExtensionType) : AuthenticationExtension :=
  mkAuth t (spi sa) (replicate A11_AUTHENTICATOR_BYTES 0).
Definition compute_authenticator (sa : A11SecurityAssociation) (authenticated_wire : list Z) : list Z :=
  md5 (shared_secret sa ++ authenticated_wire ++ shared_secret sa).

(** The message is changed in place: the state it is left in, and the result. *)
Definition sign_message (sa : A11SecurityAssociation) (m : Message) : Message * rust (result Error unit) :=
  let t := required_authentication_type_for_message m in
  let '(m, r) := set_message_authentication m (placeholder_authentication sa t) in
  match r with
  | Err e => (m, Some (Err e))
  | Ok _ =>
      match (wire ←! encode m; prefix ←! authenticated_wire_prefix wire; Some (Ok (compute_authenticator sa prefix))) with
      | None => (m, panic!)
      | Some (Err e) => (m, Some (Err e))
      | Some (Ok authenticator) =>
          let '(m, r) := set_message_authentication m (mkAuth t (spi sa) authenticator) in (m, Some r)
      end
  end.

Definition verify_authentication (sa : A11SecurityAssociation) (wire : list Z) (m : Message) (a : AuthenticationExtension)
    : rust (result Error unit) :=
  if negb (security_parameter_index a =? spi sa) then
    Some (Err (AuthenticationRejected "a11.authentication" "unexpected security parameter index"))
  else if decide (auth_type a ≠ required_authentication_type_for_message m) then
    Some (Err (AuthenticationRejected "a11.authentication" "unexpected authentication extension type"))
  else if decide (length (authenticator a) ≠ A11_AUTHENTICATOR_BYTES) then
    Some (Err (AuthenticationRejected "a11.authentication" "invalid authenticator length"))
  else
    prefix ←! authenticated_wire_prefix wire;
    if negb (constant_time_eq (compute_authenticator sa prefix) (authenticator a)) then
      Some (Err (AuthenticationRejected "a11.authentication" "bad authenticator"))
    else Some (Ok tt).

Definition decode_verified (input : list Z) (sa : A11SecurityAssociation) : rust (result Error Message) :=
  m ←! decode_message input;
  a ←! Some (required_authentication_extension m);
  _ ←! verify_authentication sa input m a;
  Some (Ok m).

End auth.

(** ** The authenticator is the end of the message *)
Definition ends_with (s w : list Z) : Prop := ∃ p, w = p ++ s.
Lemma ends_with_drop s w i : ends_with s (drop i w) → ends_with s w.
Proof. intros [p Hp]. exists (take i w ++ p). by rewrite <- app_assoc, <- Hp, take_drop. Qed.
Lemma ends_with_app p s w : ends_with s w → ends_with s (p ++ w).
Proof. intros [q ->]. exists (p ++ q). by rewrite app_assoc. Qed.
Lemma auth_encode_ends a w : auth_encode a = Ok w → ends_with (authenticator a) w.
Proof.
  intros (_ & _ & ->)%auth_encode_inv. eexists ([_; _] ++ to_be32 _). by rewrite <- app_assoc.
Qed.

Lemma constant_time_eq_spec l k : constant_time_eq l k = bool_decide (l = k).
Proof.
  unfold constant_time_eq. destruct (decide _) as [Hne|Heq].
  { symmetry. apply bool_decide_eq_false_2. by intros ->. }
  apply dec_stable in Heq.
  assert (∀ acc, foldl (λ diff '(a, b), Z.lor diff (Z.lxor a b)) acc (zip l k) = 0 ↔ acc = 0 ∧ l = k) as H.
  { revert k Heq. induction l as [|x l IH]; intros [|y k] Heq acc; try done; [naive_solver|]. cbn in *.
    rewrite IH, Z.lor_eq_0_iff, Z.lxor_eq_0_iff by lia. naive_solver. }
  specialize (H 0). case_bool_decide; [apply Z.eqb_eq|apply Z.eqb_neq]; tauto.
Qed.

Lemma prefix_app p s : length s = 16%nat → authenticated_wire_prefix (p ++ s) = Some (Ok p).
Proof.
  intros Hs. unfold authenticated_wire_prefix, A11_AUTHENTICATOR_BYTES. rewrite length_app, Hs, decide_False by lia.
  rewrite slice_Some, bind_some by (rewrite ?length_app; lia). rewrite drop_0, take_app_length' by lia. done.
Qed.

(** *** In every decoded message *)
Lemma auth_extension_ends w a : bytes w → extension_decode w = Some (Ok (ExtAuthentication a)) → ends_with (authenticator a) w.
Proof.
  intros Hb Hd. pose proof (extension_decode_total w) as H. rewrite Hd in H. destruct (H Hb) as [_ He]. specialize (He I).
  cbn in He. injection He as He. by apply auth_encode_ends.
Qed.
Lemma slice_to_end (input : list Z) i j w : slice input i j = Some w → (length input ≤ j)%nat → w = drop i input.
Proof.
  unfold slice. destruct (decide _) as [Hd|]; [|done]. intros [= <-] Hj. apply take_ge. rewrite length_drop. lia.
Qed.

Lemma collect_loop_ends fuel input offset seen acc es a :
  bytes input → collect_loop fuel input offset seen acc = Some (Ok es) → last es = Some (ExtAuthentication a) →
  es = acc ∧ (length input ≤ offset)%nat ∨ ends_with (authenticator a) input.
Proof.
  intros Hb. revert offset seen acc. induction fuel as [|fuel IH]; intros offset seen acc; cbn [collect_loop];
    (destruct (decide (offset < length input)%nat); [|intros [= <-] ?; left; split; [done|lia]]); [done|].
  destruct (decide _); [done|]. destruct (index input offset) as [ty|]; [|done]. rewrite bind_some. intros H Hlast.
  apply and_then_inv in H as ([h k] & _ & H). destruct (decide _); [done|].
  destruct (slice input offset _) as [w|] eqn:Hsl; [|done]. rewrite bind_some in H.
  apply and_then_inv in H as (e & He & H). apply and_then_inv in H as (seen' & _ & H).
  destruct (IH _ _ _ H Hlast) as [[-> Hend]|]; [|auto]. right. rewrite last_snoc in Hlast. injection Hlast as ->.
  rewrite (slice_to_end _ _ _ _ Hsl Hend) in He. eapply ends_with_drop, auth_extension_ends; [|done]. by apply bytes_drop.
Qed.
Lemma collect_ends w es a t ctx :
  bytes w → collect_extensions w = Some (Ok es) → required_extension_authentication es t ctx = Ok a → ends_with (authenticator a) w.
Proof.
  intros Hb Hc Hr. assert (last es = Some (ExtAuthentication a)) as Hl.
  { unfold required_extension_authentication in Hr. destruct (last es) as [[]|]; try done. destruct (decide _); congruence. }
  destruct (collect_loop_ends _ _ _ _ _ _ _ Hb Hc Hl) as [[-> _]|]; [done|auto].
Qed.

Lemma required_auth_ends w t ctx a :
  bytes w → decode_required_authentication_extension w t ctx = Some (Ok a) → ends_with (authenticator a) w.
Proof.
  intros Hb Hd. pose proof (required_auth_total w t ctx) as H. rewrite Hd in H. destruct (H Hb). by apply auth_encode_ends.
Qed.
Lemma nvse_auth_loop_ends fuel input offset t ctx keys acc ns a :
  bytes input → nvse_auth_loop fuel input offset t ctx keys acc = Some (Ok (ns, a)) → ends_with (authenticator a) input.
Proof.
  intros Hb. revert offset keys acc. induction fuel as [|fuel IH]; intros offset keys acc; cbn [nvse_auth_loop];
    (destruct (decide (offset < length input)%nat); [|done]); [done|].
  destruct (decide _); [done|]. destruct (index input offset) as [ty|]; [|done]. destruct (index input _) as [len|]; [|done].
  rewrite !bind_some. destruct (decide _); [done|]. destruct (ty =? _).
  - destruct (decide _) as [|Hend]; [done|]. apply dec_stable in Hend. destruct (slice input offset _) as [w|] eqn:Hsl; [|done].
    rewrite bind_some. intros H. apply and_then_inv in H as (a' & Ha & [= _ <-]).
    rewrite (slice_to_end _ _ _ _ Hsl) in Ha by lia. eapply ends_with_drop, required_auth_ends; [|done]. by apply bytes_drop.
  - destruct (negb _); [done|]. destruct (slice input offset _) as [w|]; [|done]. rewrite bind_some. intros H.
    apply and_then_inv in H as (nv & _ & H). apply and_then_inv in H as (keys' & _ & H). eauto.
Qed.
Lemma nvse_sequence_ends w t ctx ns a :
  bytes w → decode_nvse_sequence_with_auth w t ctx = Some (Ok (ns, a)) → ends_with (authenticator a) w.
Proof. unfold decode_nvse_sequence_with_auth. destruct (decide _); [done|]. apply nvse_auth_loop_ends. Qed.

Lemma slice_from_inv (l : list Z) i v : slice_from l i = Some v → v = drop i l.
Proof. intros H. by apply (slice_to_end _ _ _ _ H). Qed.

Ltac read_steps H :=
  repeat match type of H with
  | (if decide _ then Some (Err _) else _) = Some (Ok _) => destruct (decide _) in H; [done|]
  | (slice_from ?w ?i ≫= _) = Some _ =>
      let v := fresh "v" in let E := fresh "Hv" in
      destruct (slice_from w i) as [v|] eqn:E; [rewrite bind_some in H; apply slice_from_inv in E|done]
  | (?m ≫= _) = Some _ => let v := fresh "v" in destruct m as [v|]; [rewrite bind_some in H|done]
  | and_then _ _ = Some (Ok _) => let v := fresh "v" in apply and_then_inv in H as (v & ? & H)
  | (let '(_, _) := ?p in _) = _ => destruct p
  end.

Lemma decoded_ends w m a :
  bytes w → decode_message w = Some (Ok m) → required_authentication_extension m = Ok a → ends_with (authenticator a) w.
Proof.
  intros Hb Hd Hr. unfold decode_message in Hd. destruct w as [|ty w]; [done|]. set (input := ty :: w) in *.
  apply and_then_inv in Hd as (t & _ & Hd).
  destruct t; apply and_then_inv in Hd as (x & Hx & [= <-]);
    unfold decode_request, decode_reply, decode_update, decode_acknowledge, decode_session_update, decode_session_update_acknowledge,
      decode_capabilities_info, decode_capabilities_info_ack in Hx; read_steps Hx; injection Hx as <-; cbn in Hr; simplify_eq;
    eapply ends_with_drop;
    first [eapply collect_ends; [by apply bytes_drop|eassumption|eassumption]
          |eapply nvse_sequence_ends; [by apply bytes_drop|eassumption]
          |eapply required_auth_ends; [by apply bytes_drop|eassumption]].
Qed.

(** ** Verification *)
Section verified.
Context (md5 : list Z → list Z).

(** What a verified message is: decoded, with the required extension carrying the association's index, and the
    authenticator, which is the end of the message, the digest of the secret, everything before it and the secret. *)
Definition authentic (sa : A11SecurityAssociation) (w : list Z) (m : Message) : Prop :=
  decode_message w = Some (Ok m) ∧
  ∃ prefix a, required_authentication_extension m = Ok a ∧ w = prefix ++ authenticator a ∧ length (authenticator a) = 16%nat ∧
    auth_type a = required_authentication_type_for_message m ∧ security_parameter_index a = spi sa ∧
    authenticator a = md5 (shared_secret sa ++ prefix ++ shared_secret sa).

Lemma verify_iff sa prefix m a :
  verify_authentication md5 sa (prefix ++ authenticator a) m a = Some (Ok tt) ↔
  length (authenticator a) = 16%nat ∧ auth_type a = required_authentication_type_for_message m ∧
  security_parameter_index a = spi sa ∧ authenticator a = md5 (shared_secret sa ++ prefix ++ shared_secret sa).
Proof.
  unfold verify_authentication. destruct (Z.eqb_spec (security_parameter_index a) (spi sa)) as [Hs|Hs]; cbn [negb]; [|naive_solver].
  destruct (decide (auth_type a ≠ _)) as [|Ht]; [naive_solver|]. apply dec_stable in Ht.
  destruct (decide _) as [|Hl]; [naive_solver|]. apply dec_stable in Hl. unfold A11_AUTHENTICATOR_BYTES in Hl.
  rewrite prefix_app, and_then_ok by done. rewrite constant_time_eq_spec. unfold compute_authenticator.
  case_bool_decide as He; cbn [negb]; naive_solver.
Qed.

Lemma decode_verified_iff w sa m : bytes w → decode_verified md5 w sa = Some (Ok m) ↔ authentic sa w m.
Proof.
  intros Hb. unfold decode_verified, authentic. split.
  - intros H. apply and_then_inv in H as (m' & Hd & H). apply and_then_inv in H as (a & [= Ha] & H).
    apply and_then_inv in H as ([] & Hv & [= ->]). split; [done|]. destruct (decoded_ends w m a Hb Hd Ha) as [prefix ->].
    apply verify_iff in Hv as (? & ? & ? & ?). exists prefix, a. done.
  - intros (Hd & prefix & a & Ha & Hw & Hv). rewrite Hd, and_then_ok, Ha, and_then_ok. subst w.
    rewrite (proj2 (verify_iff sa prefix m a)) by tauto. done.
Qed.

(** C12: Authentication of received A11 messages: an octet string is accepted with a message exactly when it decodes to
    that message, the message carries its required authentication extension for the association's SPI as its last
    element, and the last sixteen octets of the string are the keyed digest of the secret, all octets before them and the
    secret; in every other case the string is refused, without a panic. *)
Theorem a11_verified_iff_authentic w sa :
  bytes w →
  (∀ m, decode_verified md5 w sa = Some (Ok m) ↔ authentic sa w m) ∧ decode_verified md5 w sa ≠ None.
Proof.
  intros Hb. split; [intros; by apply decode_verified_iff|]. unfold decode_verified. pose proof (message_total w Hb) as Hm.
  destruct (decode_message w) as [[m|e]|]; [..|done]; [|done]. rewrite and_then_ok.
  destruct (required_authentication_extension m) as [a|]; [|done]. rewrite and_then_ok. unfold verify_authentication.
  destruct (negb _); [done|]. destruct (decide _); [done|]. destruct (decide _); [done|].
  unfold authenticated_wire_prefix. destruct (decide _); [done|]. rewrite slice_Some, bind_some, and_then_ok by lia.
  by destruct (negb _).
Qed.

End verified.

(** ** Signing *)
Lemma is_auth_of_true t e : is_auth_of t e = true → ∃ a, e = ExtAuthentication a ∧ auth_type a = t.
Proof. destruct e; cbn; try done. intros H%bool_decide_eq_true_1. eauto. Qed.

Lemma replace_wf es a b es' r : Forall ext_wf es → replace_authentication es a b = (es', r) → Forall ext_wf es'.
Proof.
  revert b es' r. induction es as [|e es IH]; intros b es' r Hw; cbn; [by intros [= <- _]|]. apply Forall_cons in Hw as [He Hw].
  destruct (is_auth_of _ e); [destruct b; [intros [= <- _]; by constructor|]|];
    destruct (replace_authentication es a _) as [es1 r1] eqn:Hr; intros [= <- _]; constructor; eauto. done.
Qed.
Lemma set_extension_wf es a ctx es' r : Forall ext_wf es → set_extension_authentication es a ctx = (es', r) → Forall ext_wf es'.
Proof.
  intros Hw. unfold set_extension_authentication. destruct (replace_authentication es a false) as [es1 r1] eqn:Hr.
  apply replace_wf in Hr; [|done]. destruct r1 as [[]|]; [|destruct (existsb _ _)|]; intros [= <- _]; try done.
  apply Forall_app. split; [done|]. by constructor.
Qed.

(** Once replaced, the only extension of the type is the one that was put. *)
Lemma replace_only es a b es' b' x :
  replace_authentication es a b = (es', Ok b') → ExtAuthentication x ∈ es' → auth_type x = auth_type a → b' = true ∧ x = a ∧ b = false.
Proof.
  revert b es'. induction es as [|e es IH]; intros b es'; cbn; [intros [= <- _]; set_solver|].
  destruct (is_auth_of (auth_type a) e) eqn:Ha.
  - destruct b; [done|]. destruct (replace_authentication es a true) as [es1 r1] eqn:Hr. intros [= <- ->] [Hx|Hx]%elem_of_cons Ht.
    + injection Hx as ->. split_and!; [|done|done].
      clear IH. assert (∀ l l' c, replace_authentication l a true = (l', Ok c) → c = true) as Hmono; [|by eapply Hmono].
      intros l. induction l as [|y l IH]; intros l' c; cbn; [by intros [= _ <-]|]. destruct (is_auth_of _ y); [done|].
      destruct (replace_authentication l a true) as [l1 r1] eqn:Hl. intros [= _ ->]. by eapply IH.
    + by destruct (IH _ _ Hr Hx Ht) as (_ & _ & ?).
  - destruct (replace_authentication es a b) as [es1 r1] eqn:Hr. intros [= <- ->] [Hx|Hx]%elem_of_cons Ht; [|by eapply IH].
    subst e. cbn in Ha. by rewrite bool_decide_eq_true_2 in Ha.
Qed.
Lemma set_extension_only es a ctx es' x :
  set_extension_authentication es a ctx = (es', Ok tt) → ExtAuthentication x ∈ es' → auth_type x = auth_type a → x = a.
Proof.
  unfold set_extension_authentication. destruct (replace_authentication es a false) as [es1 [[]|]] eqn:Hr; [|destruct (existsb _ _)|];
    intros [= <-] Hx Ht; [by destruct (replace_only _ _ _ _ _ _ Hr Hx Ht) as (_ & ? & _)|].
  apply elem_of_app in Hx as [Hx|Hx]; [by destruct (replace_only _ _ _ _ _ _ Hr Hx Ht) as (? & _ & _)|].
  by apply list_elem_of_singleton in Hx as [= ->].
Qed.

(** In a valid list the closing authentication extension is the only one of its type. *)
Lemma valid_none es t ty seen :
  validate_extensions_from seen es t = Ok tt → auth_type_u8 ty ∈ auth_types seen → Forall (λ e, is_auth_of ty e = false) es.
Proof.
  revert seen. induction es as [|e es IH]; intros seen Hv Hin; [constructor|]. cbn in Hv.
  apply rbind_inv in Hv as (seen' & Hs & Hv). apply rbind_inv in Hv as (_ & _ & Hv).
  assert (auth_type_u8 ty ∈ auth_types seen' ∧ is_auth_of ty e = false) as [Hin' He]; [|constructor; eauto].
  destruct e; cbn in Hs; try done; try (apply rbind_inv in Hs as (x & Hx & [= <-])); cbn; try by simplify_eq.
  unfold insert_new in Hx. destruct (decide _) as [|Hn]; [done|]. injection Hx as <-. split; [set_solver|].
  apply bool_decide_eq_false_2. by intros <-.
Qed.
Lemma valid_unique es a t seen :
  validate_extensions_from seen (es ++ [ExtAuthentication a]) t = Ok tt → Forall (λ e, is_auth_of (auth_type a) e = false) es.
Proof.
  revert seen. induction es as [|e es IH]; intros seen Hv; [constructor|]. cbn in Hv.
  apply rbind_inv in Hv as (seen' & Hs & Hv). apply rbind_inv in Hv as (_ & _ & Hv). constructor; [|by eapply IH].
  destruct (is_auth_of (auth_type a) e) eqn:He; [|done]. exfalso. apply is_auth_of_true in He as (x & -> & Hx). cbn in Hs.
  apply rbind_inv in Hs as (s1 & Hi & [= <-]). unfold insert_new in Hi. destruct (decide _); [done|]. injection Hi as <-.
  assert (Forall (λ e, is_auth_of (auth_type a) e = false) (es ++ [ExtAuthentication a])) as HF.
  { eapply valid_none; [done|]. cbn. rewrite Hx. set_solver. }
  apply Forall_app in HF as [_ [HF _]%Forall_cons]. cbn in HF. by rewrite bool_decide_eq_true_2 in HF.
Qed.
Lemma valid_swap es a b t seen :
  auth_type b = auth_type a →
  validate_extensions_from seen (es ++ [ExtAuthentication b]) t = validate_extensions_from seen (es ++ [ExtAuthentication a]) t.
Proof.
  intros Hab. revert seen. induction es as [|e es IH]; intros seen; cbn; [by rewrite Hab|]. destruct (see _ e seen); [|done]. cbn.
  destruct (match e with ExtNvse _ => _ | _ => _ end); [|done]. cbn. apply IH.
Qed.
Lemma replace_last es a b :
  auth_type b = auth_type a → Forall (λ e, is_auth_of (auth_type a) e = false) es →
  replace_authentication (es ++ [ExtAuthentication a]) b false = (es ++ [ExtAuthentication b], Ok true).
Proof.
  intros Hab HF. induction HF as [|e es He HF IH]; cbn; rewrite Hab; [by rewrite bool_decide_eq_true_2|]. by rewrite He, IH.
Qed.
Lemma required_last es t ctx a : required_extension_authentication es t ctx = Ok a → ∃ es0, es = es0 ++ [ExtAuthentication a] ∧ auth_type a = t.
Proof.
  unfold required_extension_authentication. destruct (last es) as [[|x| | |]|] eqn:Hl; try done. destruct (decide _); [|done].
  intros [= <-]. apply last_Some in Hl as [es0 ->]. eauto.
Qed.
Lemma encode_extensions_app es es' : encode_extensions (es ++ es') =
  (a ←! encode_extensions es; b ←! encode_extensions es'; Some (Ok (a ++ b))).
Proof.
  induction es as [|e es IH]; cbn.
  - destruct (encode_extensions es') as [[]|]; done.
  - destruct (extension_encode e) as [[a|]|]; cbn; [|done..]. rewrite IH. destruct (encode_extensions es) as [[x|]|]; cbn; [|done..].
    destruct (encode_extensions es') as [[y|]|]; cbn; [|done..]. by rewrite app_assoc.
Qed.

(** The two encodings of an authentication extension that differ in the authenticator only. *)
Lemma auth_encode_swap a b w :
  auth_encode a = Ok w → auth_type b = auth_type a → security_parameter_index b = security_parameter_index a →
  length (authenticator b) = 16%nat → ∃ p, w = p ++ authenticator a ∧ auth_encode b = Ok (p ++ authenticator b).
Proof.
  intros (Hs & Hl & ->)%auth_encode_inv Ht Hi Hb. eexists ([_; _] ++ to_be32 _). rewrite <- app_assoc. split; [done|].
  unfold auth_encode. rewrite Hi, Ht. destruct (Z.eqb_spec (security_parameter_index a) 0); [done|]. rewrite Hb, decide_False by lia.
  by rewrite <- app_assoc.
Qed.

Lemma extensions_swap es t ty ctx a b w :
  validate_extensions es t = Ok tt → required_extension_authentication es ty ctx = Ok a → encode_extensions es = Some (Ok w) →
  auth_type b = auth_type a → security_parameter_index b = security_parameter_index a → length (authenticator b) = 16%nat →
  ∃ es' p, (∀ c, set_extension_authentication es b c = (es', Ok tt)) ∧ validate_extensions es' t = Ok tt ∧
    (∀ c, required_extension_authentication es' ty c = Ok b) ∧ w = p ++ authenticator a ∧
    encode_extensions es' = Some (Ok (p ++ authenticator b)) ∧ (Forall ext_wf es → Forall ext_wf es').
Proof.
  intros Hv Hr He Ht Hs Hl. apply required_last in Hr as (es0 & -> & Hty). rewrite encode_extensions_app in He.
  apply and_then_inv in He as (w0 & He0 & He). apply and_then_inv in He as (w1 & He1 & [= <-]).
  cbn in He1. destruct (auth_encode a) as [wa|] eqn:Ha; [|done]. cbn in He1. rewrite app_nil_r in He1. injection He1 as <-.
  destruct (auth_encode_swap a b wa Ha Ht Hs Hl) as (p & -> & Hb). exists (es0 ++ [ExtAuthentication b]), (w0 ++ p). split_and!.
  - intros c. unfold set_extension_authentication. rewrite (replace_last es0 a b Ht) by by eapply valid_unique. done.
  - unfold validate_extensions. by rewrite (valid_swap es0 a b).
  - intros c. unfold required_extension_authentication. rewrite last_snoc, decide_True by congruence. done.
  - by rewrite app_assoc.
  - rewrite encode_extensions_app, He0, and_then_ok. cbn. rewrite Hb. cbn. by rewrite app_nil_r, app_assoc.
  - rewrite !Forall_app. intros [? _]. split; [done|]. by constructor.
Qed.

Lemma Some_inj {A} (x y : A) : Some x = Some y → x = y.
Proof. congruence. Qed.

(** The message can be given another authenticator, and only the end of its encoding changes. *)
Definition swappable (m : Message) : Prop :=
  ∀ w a b, encode m = Some (Ok w) → required_authentication_extension m = Ok a → auth_type b = auth_type a →
  security_parameter_index b = security_parameter_index a → length (authenticator b) = 16%nat →
  ∃ m' p, set_message_authentication m b = (m', Ok tt) ∧ w = p ++ authenticator a ∧
    encode m' = Some (Ok (p ++ authenticator b)) ∧ required_authentication_extension m' = Ok b ∧
    required_authentication_type_for_message m' = required_authentication_type_for_message m ∧ (message_wf m → message_wf m').

Lemma request_swap m : swappable (MRegistrationRequest m).
Proof.
  intros w a b He Hr Ht Hs Hl. cbn [encode required_authentication_extension] in He, Hr.
  unfold encode_request in He. apply and_then_inv in He as ([] & Hval & He). apply and_then_inv in He as (ws & Hws & He).
  apply and_then_inv in He as (we & Hwe & He). apply Some_Ok_inj in He. subst w.
  unfold request_validate in Hval. apply and_then_inv in Hval as ([] & Hvs & [= Hval]). apply rbind_inv in Hval as ([] & V1 & Hval). apply rbind_inv in Hval as ([] & V2 & Hval). apply rbind_inv in Hval as ([] & V3 & Hval).
  apply rbind_inv in Hval as ([] & V4 & Hval). apply rbind_inv in Hval as ([] & V5 & V6).
  destruct (extensions_swap _ _ _ _ _ b _ V4 Hr Hwe Ht Hs Hl) as (es' & p & Hset & Hv' & Hr' & -> & He' & Hwf).
  cbn [set_message_authentication]. rewrite Hset. eexists _, _. split; [done|]. split; [rewrite !app_assoc; reflexivity|]. split_and!.
  - cbn [encode]. unfold encode_request, request_validate, require_authentication_extension.
    cbn [rq_session rq_extensions]. rewrite Hvs, and_then_ok. cbn. rewrite V1, V2, V3, Hv', Hr'. cbn. rewrite V6. cbn.
    rewrite Hws. cbn. rewrite He'. cbn. by rewrite <- !app_assoc.
  - by cbn.
  - done.
  - cbn. naive_solver.
Qed.
Lemma reply_swap m : swappable (MRegistrationReply m).
Proof.
  intros w a b He Hr Ht Hs Hl. cbn [encode required_authentication_extension] in He, Hr.
  unfold encode_reply in He. apply and_then_inv in He as ([] & Hval & He). apply and_then_inv in He as (ws & Hws & He).
  apply and_then_inv in He as (we & Hwe & He). apply Some_Ok_inj in He. subst w.
  unfold reply_validate in Hval. apply and_then_inv in Hval as ([] & Hvs & [= Hval]). apply rbind_inv in Hval as ([] & V1 & Hval). apply rbind_inv in Hval as ([] & V2 & Hval). apply rbind_inv in Hval as ([] & V3 & Hval).
  apply rbind_inv in Hval as ([] & V4 & Hval). apply rbind_inv in Hval as ([] & V5 & V6).
  destruct (extensions_swap _ _ _ _ _ b _ V4 Hr Hwe Ht Hs Hl) as (es' & p & Hset & Hv' & Hr' & -> & He' & Hwf).
  cbn [set_message_authentication]. rewrite Hset. eexists _, _. split; [done|]. split; [rewrite !app_assoc; reflexivity|]. split_and!.
  - cbn [encode]. unfold encode_reply, reply_validate, require_authentication_extension.
    cbn [rp_session rp_extensions]. rewrite Hvs, and_then_ok. cbn. rewrite V1, V2, V3, Hv', Hr'. cbn. rewrite V6. cbn.
    rewrite Hws. cbn. rewrite He'. cbn. by rewrite <- !app_assoc.
  - by cbn.
  - done.
  - cbn. naive_solver.
Qed.
Lemma update_swap m : swappable (MRegistrationUpdate m).
Proof.
  intros w a b He Hr Ht Hs Hl. cbn [encode required_authentication_extension] in He, Hr.
  unfold encode_update in He. apply and_then_inv in He as ([] & Hval & He). injection Hr as <-.
  apply and_then_inv in He as (ws & Hws & He).
  apply and_then_inv in He as (wn & Hwn & He). apply Some_inj in Hwn.
  apply and_then_inv in He as (wa & Hwa & He). apply Some_Ok_inj in He. subst w. apply Some_inj in Hwa.
  unfold update_validate in Hval. apply and_then_inv in Hval as ([] & Hvs & [= Hval]). apply rbind_inv in Hval as ([] & V1 & Hval). apply rbind_inv in Hval as ([] & V2 & Hval). apply rbind_inv in Hval as ([] & V3 & Hval).
  apply rbind_inv in Hval as ([] & VA & VI).
  destruct (auth_encode_swap _ b _ Hwa Ht Hs Hl) as (p & -> & Hwb).
  cbn [set_message_authentication]. eexists _, _. split; [done|]. split; [rewrite !app_assoc; reflexivity|]. split_and!; [|done..].
  cbn [encode]. unfold encode_update, update_validate. cbn [ru_authentication ru_session ru_nvses].
  rewrite Hvs, and_then_ok. cbn. rewrite V1, V2, V3. cbn. unfold validate_authentication_extension in *. rewrite Ht, VA. cbn. rewrite VI. cbn.
  rewrite Hws. cbn. rewrite Hwn. cbn. rewrite Hwb. cbn. by rewrite <- !app_assoc.
Qed.
Lemma acknowledge_swap m : swappable (MRegistrationAcknowledge m).
Proof.
  intros w a b He Hr Ht Hs Hl. cbn [encode required_authentication_extension] in He, Hr.
  unfold encode_acknowledge in He. apply and_then_inv in He as ([] & Hval & He). injection Hr as <-.
  apply and_then_inv in He as (ws & Hws & He).
  apply and_then_inv in He as (wa & Hwa & He). apply Some_Ok_inj in He. subst w. apply Some_inj in Hwa.
  unfold acknowledge_validate in Hval. apply and_then_inv in Hval as ([] & Hvs & [= Hval]). apply rbind_inv in Hval as ([] & V1 & Hval). apply rbind_inv in Hval as ([] & V2 & Hval). apply rbind_inv in Hval as ([] & V3 & Hval).
  apply rbind_inv in Hval as ([] & VA & VI).
  destruct (auth_encode_swap _ b _ Hwa Ht Hs Hl) as (p & -> & Hwb).
  cbn [set_message_authentication]. eexists _, _. split; [done|]. split; [rewrite !app_assoc; reflexivity|]. split_and!; [|done..].
  cbn [encode]. unfold encode_acknowledge, acknowledge_validate. cbn [ra_authentication ra_session].
  rewrite Hvs, and_then_ok. cbn. rewrite V1, V2, V3. cbn. unfold validate_authentication_extension in *. rewrite Ht, VA. cbn. rewrite VI. cbn.
  rewrite Hws. cbn. rewrite Hwb. cbn. by rewrite <- !app_assoc.
Qed.
Lemma session_update_swap m : swappable (MSessionUpdate m).
Proof.
  intros w a b He Hr Ht Hs Hl. cbn [encode required_authentication_extension] in He, Hr.
  unfold encode_session_update in He. apply and_then_inv in He as ([] & Hval & He). injection Hr as <-.
  apply and_then_inv in He as (ws & Hws & He).
  apply and_then_inv in He as (wn & Hwn & He). apply Some_inj in Hwn.
  apply and_then_inv in He as (wa & Hwa & He). apply Some_Ok_inj in He. subst w. apply Some_inj in Hwa.
  unfold session_update_validate in Hval. apply and_then_inv in Hval as ([] & Hvs & [= Hval]). apply rbind_inv in Hval as ([] & V1 & Hval). apply rbind_inv in Hval as ([] & V2 & Hval). apply rbind_inv in Hval as ([] & V3 & Hval). apply rbind_inv in Hval as ([] & V4 & Hval).
  apply rbind_inv in Hval as ([] & VA & VI).
  destruct (auth_encode_swap _ b _ Hwa Ht Hs Hl) as (p & -> & Hwb).
  cbn [set_message_authentication]. eexists _, _. split; [done|]. split; [rewrite !app_assoc; reflexivity|]. split_and!; [|done..].
  cbn [encode]. unfold encode_session_update, session_update_validate. cbn [su_authentication su_session su_nvses].
  rewrite Hvs, and_then_ok. cbn. rewrite V1, V2, V3, V4. cbn. unfold validate_authentication_extension in *. rewrite Ht, VA. cbn. rewrite VI. cbn.
  rewrite Hws. cbn. rewrite Hwn. cbn. rewrite Hwb. cbn. by rewrite <- !app_assoc.
Qed.
Lemma session_update_ack_swap m : swappable (MSessionUpdateAcknowledge m).
Proof.
  intros w a b He Hr Ht Hs Hl. cbn [encode required_authentication_extension] in He, Hr.
  unfold encode_session_update_acknowledge in He. apply and_then_inv in He as ([] & Hval & He). injection Hr as <-.
  apply and_then_inv in He as (ws & Hws & He).
  apply and_then_inv in He as (wa & Hwa & He). apply Some_Ok_inj in He. subst w. apply Some_inj in Hwa.
  unfold session_update_ack_validate in Hval. apply and_then_inv in Hval as ([] & Hvs & [= Hval]). apply rbind_inv in Hval as ([] & V1 & Hval). apply rbind_inv in Hval as ([] & V2 & Hval). apply rbind_inv in Hval as ([] & V3 & Hval).
  apply rbind_inv in Hval as ([] & VA & VI).
  destruct (auth_encode_swap _ b _ Hwa Ht Hs Hl) as (p & -> & Hwb).
  cbn [set_message_authentication]. eexists _, _. split; [done|]. split; [rewrite !app_assoc; reflexivity|]. split_and!; [|done..].
  cbn [encode]. unfold encode_session_update_acknowledge, session_update_ack_validate. cbn [sa_authentication sa_session].
  rewrite Hvs, and_then_ok. cbn. rewrite V1, V2, V3. cbn. unfold validate_authentication_extension in *. rewrite Ht, VA. cbn. rewrite VI. cbn.
  rewrite Hws. cbn. rewrite Hwb. cbn. by rewrite <- !app_assoc.
Qed.
Lemma capabilities_swap m : swappable (MCapabilitiesInfo m).
Proof.
  intros w a b He Hr Ht Hs Hl. cbn [encode required_authentication_extension] in He, Hr.
  unfold encode_capabilities_info in He. apply and_then_inv in He as ([] & Hval & He). injection Hr as <-.
  apply and_then_inv in He as (wn & Hwn & He). apply Some_inj in Hwn.
  apply and_then_inv in He as (wa & Hwa & He). apply Some_Ok_inj in He. subst w. apply Some_inj in Hwa.
  apply Some_inj in Hval. unfold capabilities_validate in Hval. apply rbind_inv in Hval as ([] & V1 & Hval). apply rbind_inv in Hval as ([] & V2 & Hval). apply rbind_inv in Hval as ([] & V3 & Hval). apply rbind_inv in Hval as ([] & V4 & Hval).
  apply rbind_inv in Hval as ([] & VA & VI).
  destruct (auth_encode_swap _ b _ Hwa Ht Hs Hl) as (p & -> & Hwb).
  cbn [set_message_authentication]. eexists _, _. split; [done|]. split; [rewrite !app_assoc; reflexivity|]. split_and!; [|done..].
  cbn [encode]. unfold encode_capabilities_info, capabilities_validate. cbn [ci_authentication ci_nvses].
  cbn. rewrite V1, V2, V3, V4. cbn. unfold validate_authentication_extension in *. rewrite Ht, VA. cbn. rewrite VI. cbn.
  rewrite Hwn. cbn. rewrite Hwb. cbn. by rewrite <- !app_assoc.
Qed.
Lemma capabilities_ack_swap m : swappable (MCapabilitiesInfoAcknowledge m).
Proof.
  intros w a b He Hr Ht Hs Hl. cbn [encode required_authentication_extension] in He, Hr.
  unfold encode_capabilities_info_ack in He. apply and_then_inv in He as ([] & Hval & He). injection Hr as <-.
  apply and_then_inv in He as (wn & Hwn & He). apply Some_inj in Hwn.
  apply and_then_inv in He as (wa & Hwa & He). apply Some_Ok_inj in He. subst w. apply Some_inj in Hwa.
  apply Some_inj in Hval. unfold capabilities_ack_validate in Hval. apply rbind_inv in Hval as ([] & V1 & Hval). apply rbind_inv in Hval as ([] & V2 & Hval). apply rbind_inv in Hval as ([] & V3 & Hval). apply rbind_inv in Hval as ([] & V4 & Hval).
  apply rbind_inv in Hval as ([] & VA & VI).
  destruct (auth_encode_swap _ b _ Hwa Ht Hs Hl) as (p & -> & Hwb).
  cbn [set_message_authentication]. eexists _, _. split; [done|]. split; [rewrite !app_assoc; reflexivity|]. split_and!; [|done..].
  cbn [encode]. unfold encode_capabilities_info_ack, capabilities_ack_validate. cbn [ca_authentication ca_nvses].
  cbn. rewrite V1, V2, V3, V4. cbn. unfold validate_authentication_extension in *. rewrite Ht, VA. cbn. rewrite VI. cbn.
  rewrite Hwn. cbn. rewrite Hwb. cbn. by rewrite <- !app_assoc.
Qed.
Lemma encode_swap m : swappable m.
Proof.
  destruct m; auto using request_swap, reply_swap, update_swap, acknowledge_swap, session_update_swap, session_update_ack_swap,
    capabilities_swap, capabilities_ack_swap.
Qed.

(** After a placeholder was put and the message encodes, the placeholder is its required extension. *)
Lemma placed m a m' w :
  set_message_authentication m a = (m', Ok tt) → encode m' = Some (Ok w) → auth_type a = required_authentication_type_for_message m →
  required_authentication_extension m' = Ok a ∧ (message_wf m → message_wf m').
Proof.
  intros Hset He Ht. destruct m as [m|m|m|m|m|m|m|m]; cbn in Hset, Ht; try (injection Hset as <-; cbn; split; [done|tauto]).
  - destruct (set_extension_authentication _ a _) as [es r] eqn:Hse. injection Hset as <- ->. cbn [encode] in He.
    unfold encode_request in He. apply and_then_inv in He as ([] & Hval & _). unfold request_validate in Hval.
    apply and_then_inv in Hval as ([] & _ & [= Hval]). do 4 (apply rbind_inv in Hval as ([] & _ & Hval)).
    apply rbind_inv in Hval as ([] & Hq & _). apply rbind_inv in Hq as (x & Hx & _). cbn [rq_extensions] in Hx.
    pose proof (required_last _ _ _ _ Hx) as (es0 & Hes & Hxt). cbn. split; [|pose proof (set_extension_wf (rq_extensions m)); naive_solver].
    rewrite Hx. f_equal. eapply set_extension_only; [done|rewrite Hes; set_solver|congruence].
  - destruct (set_extension_authentication _ a _) as [es r] eqn:Hse. injection Hset as <- ->. cbn [encode] in He.
    unfold encode_reply in He. apply and_then_inv in He as ([] & Hval & _). unfold reply_validate in Hval.
    apply and_then_inv in Hval as ([] & _ & [= Hval]). do 4 (apply rbind_inv in Hval as ([] & _ & Hval)).
    apply rbind_inv in Hval as ([] & Hq & _). apply rbind_inv in Hq as (x & Hx & _). cbn [rp_extensions] in Hx.
    pose proof (required_last _ _ _ _ Hx) as (es0 & Hes & Hxt). cbn. split; [|pose proof (set_extension_wf (rp_extensions m)); naive_solver].
    rewrite Hx. f_equal. eapply set_extension_only; [done|rewrite Hes; set_solver|congruence].
Qed.
Lemma set_message_type m a : required_authentication_type_for_message (set_message_authentication m a).1 = required_authentication_type_for_message m.
Proof. destruct m; cbn; try done; by destruct (set_extension_authentication _ _ _). Qed.

(** Signed messages verify: with a digest of sixteen octets, whenever [sign_message] succeeds on a well-typed message
    the signed message encodes, and a peer with the same security association accepts exactly those octets as that
    message. *)
Theorem a11_signed_verifies md5 sa m m' :
  (∀ x, length (md5 x) = 16%nat) → message_wf m → sign_message md5 sa m = (m', Some (Ok tt)) →
  ∃ w, encode m' = Some (Ok w) ∧ decode_verified md5 w sa = Some (Ok m').
Proof.
  intros Hmd Hwf. unfold sign_message. set (t := required_authentication_type_for_message m).
  destruct (set_message_authentication m (placeholder_authentication sa t)) as [m1 [[]|]] eqn:Hset; [|done].
  pose proof (set_message_type m (placeholder_authentication sa t)) as Htm. rewrite Hset in Htm. cbn in Htm.
  destruct (and_then (encode m1) _) as [[mac|]|] eqn:Hmac; [|done..].
  apply and_then_inv in Hmac as (w1 & He & Hmac). apply and_then_inv in Hmac as (prefix & Hp & [= <-]).
  destruct (placed _ _ _ _ Hset He eq_refl) as [Hr Hwf1].
  destruct (encode_swap m1 w1 _ (mkAuth t (spi sa) (compute_authenticator md5 sa prefix)) He Hr eq_refl eq_refl (Hmd _))
    as (m2 & p & Hset2 & -> & He2 & Hr2 & Ht2 & Hwf2). cbn [authenticator] in He2.
  rewrite prefix_app in Hp by done. injection Hp as <-. rewrite Hset2. intros [= <-]. exists (p ++ compute_authenticator md5 sa p). split; [done|].
  unfold decode_verified. rewrite (message_roundtrip m2 _ (Hwf2 (Hwf1 Hwf)) He2), and_then_ok, Hr2, and_then_ok.
  pose proof (verify_iff md5 sa p m2 (mkAuth t (spi sa) (compute_authenticator md5 sa p))) as Hv. cbn [authenticator] in Hv.
  rewrite (proj2 Hv); [done|]. split_and!; [apply Hmd|cbn; unfold t; congruence|done|done].
Qed.

(** ** A concrete exchange, with a checksum for a digest *)
Definition ex_digest (x : list Z) : list Z := replicate 16 (foldr Z.add 0 x mod 256).
Definition ex_association : A11SecurityAssociation := mkAssociation 0x100 [1; 2; 3].
Definition ex_session : SessionSpecificExtension :=
  mkSession 0x8881 7 1 1 6 [0x31; 0x10; 0x00; 0x21; 0x43; 0x65; 0x87; 0x09].
Definition ex_request : Message :=
  MRegistrationRequest (mkRequest 0x0a 1800 [0; 0; 0; 0] [10; 0; 0; 2] [10; 0; 0; 1] 77 ex_session
    [ExtNvse (ServiceOption 33); ExtNvse (AnchorPPAddress [10; 0; 0; 9]); ExtRaw (mkRaw 0x11 [5])]).
Definition ex_signed : Message := (sign_message ex_digest ex_association ex_request).1.

Lemma ex_digest_length x : length (ex_digest x) = 16%nat.
Proof. done. Qed.
Lemma ex_sign_ok : sign_message ex_digest ex_association ex_request = (ex_signed, Some (Ok tt)).
Proof. vm_compute. reflexivity. Qed.
Lemma ex_request_wf : message_wf ex_request.
Proof.
  split_and!; [vm_compute; split; congruence|done|done|vm_compute; congruence|].
  repeat constructor; [vm_compute; congruence|set_solver].
Qed.
Lemma a11_signed_verifies_witness :
  ∃ w, encode ex_signed = Some (Ok w) ∧ decode_verified ex_digest w ex_association = Some (Ok ex_signed).
Proof. exact (a11_signed_verifies ex_digest ex_association ex_request ex_signed ex_digest_length ex_request_wf ex_sign_ok). Defined.

Definition ex_wire : list Z := match encode ex_signed with Some (Ok w) => w | _ => [] end.
Lemma ex_wire_bytes : bytes ex_wire.
Proof. apply bytesb_bytes. vm_compute. reflexivity. Qed.
Lemma ex_wire_accepted : decode_verified ex_digest ex_wire ex_association = Some (Ok ex_signed).
Proof. vm_compute. reflexivity. Qed.
Lemma a11_verified_iff_authentic_witness : authentic ex_digest ex_association ex_wire ex_signed.
Proof. apply (proj1 (a11_verified_iff_authentic ex_digest ex_wire ex_association ex_wire_bytes)), ex_wire_accepted. Defined.

(** A PDSN code the encoder refuses is taken by the decoder. *)
Lemma pdsn_code_asymmetric :
  nvse_decode [0x86; 9; 0; 0; 0; 0; 0x15; 0x9f; 7; 1; 0] = Some (Ok (PdsnCode 0)) ∧
  nvse_encode (PdsnCode 0) = Err (InvalidValue "nvse.pdsn_code" "unsupported PDSN Code value").
Proof. split; vm_compute; reflexivity. Qed.

End A11Auth.
