(* ===== verification/A11Procedure.v ===== *)
(** * A11 procedures ([cdma-a11/src/procedure.rs])

    The table that tracks registrations, updates and capability exchanges between the PCF and
    the PDSN, as the node that registers sees them.  Times are seconds ([u64]); the sum of
    the time and a lifetime panics when it leaves [u64].  The order in which a hash map is
    iterated is the one of [map_to_list]. *)
From stdpp Require Import strings.
From S2P Require Import Prelude Octets A11Codec.
Import A11.

Module A11Procedure.

Inductive Direction := Outbound | Inbound.

Record SessionKey := mkKey { key_pcf_session_id : Z; key_mn_session_reference_id : Z }.
#[export] Instance SessionKey_eq_dec : EqDecision SessionKey.
Proof. solve_decision. Defined.
#[export] Instance SessionKey_countable : Countable SessionKey.
Proof.
  apply (inj_countable' (λ k, (key_pcf_session_id k, key_mn_session_reference_id k)) (λ p, mkKey p.1 p.2)). by intros [].
Defined.
Definition from_session (s : SessionSpecificExtension) : SessionKey := mkKey (pcf_session_id s) (mn_session_reference_id s).

Inductive SessionState :=
| StPendingRegistration | StActive | StPendingUpdateAcknowledge | StPendingTeardown
| StPendingSessionUpdateAcknowledge | StPendingSessionUpdate.
Inductive ClearReason := LocalTeardownDone | RemoteTeardown | Administrative | LifetimeExpired.

Inductive ProcedureEvent :=
| EvPendingRegistration (key : SessionKey)
| EvPendingRefresh (key : SessionKey)
| EvRegistered (key : SessionKey) (expires_at : Z)
| EvRefreshed (key : SessionKey) (expires_at : Z)
| EvPendingUpdateAcknowledge (key : SessionKey)
| EvPendingTeardown (key : SessionKey)
| EvPendingSessionUpdate (key : SessionKey)
| EvPendingSessionUpdateAcknowledge (key : SessionKey)
| EvSessionParametersUpdated (key : SessionKey)
| EvPendingCapabilitiesInfo (identification : Z)
| EvPendingCapabilitiesInfoAcknowledge (identification : Z)
| EvCapabilitiesInfoCompleted (identification : Z)
| EvIgnoredCapabilitiesInfoAcknowledge (identification : Z)
| EvSessionUpdateExpired (key : SessionKey)
| EvCapabilitiesInfoExpired (identification : Z)
| EvCleared (key : SessionKey) (reason : ClearReason)
| EvRejected (key : SessionKey) (code : Z)
| EvExpired (key : SessionKey).

Inductive PendingKind := Registration | Refresh | LocalTeardown | RemoteUpdate | LocalSessionUpdate | RemoteSessionUpdate.
#[export] Instance PendingKind_eq_dec : EqDecision PendingKind.
Proof. solve_decision. Defined.
Record PendingState := mkPending {
  kind : PendingKind; p_identification : Z; p_lifetime : Z; p_home_agent : list Z; p_care_of_address : list Z; started_at : Z
}.
Record CommittedState := mkCommitted {
  c_identification : Z; c_lifetime : Z; c_home_agent : list Z; c_care_of_address : list Z; expires_at : Z
}.
Inductive CapabilitiesFeatureClass := UnknownOrMixed | PdsnFeatures | PcfFeatures.
#[export] Instance CapabilitiesFeatureClass_eq_dec : EqDecision CapabilitiesFeatureClass.
Proof. solve_decision. Defined.
Record PendingCapabilitiesState := mkPendingCapabilities {
  cap_identification : Z; feature_class : CapabilitiesFeatureClass; cap_started_at : Z
}.
Record SessionRecord := mkRecord {
  session : SessionSpecificExtension; committed : option CommittedState; pending : option PendingState
}.
Record SessionProcedureTable := mkTable {
  sessions : gmap SessionKey SessionRecord;
  outbound_capabilities : option PendingCapabilitiesState;
  inbound_capabilities : option PendingCapabilitiesState
}.
Definition new_table : SessionProcedureTable := mkTable ∅ None None.

Definition set_sessions (x : gmap SessionKey SessionRecord) (t : SessionProcedureTable) : SessionProcedureTable :=
  mkTable x (outbound_capabilities t) (inbound_capabilities t).
Definition set_outbound_capabilities (x : option PendingCapabilitiesState) (t : SessionProcedureTable) : SessionProcedureTable :=
  mkTable (sessions t) x (inbound_capabilities t).
Definition set_inbound_capabilities (x : option PendingCapabilitiesState) (t : SessionProcedureTable) : SessionProcedureTable :=
  mkTable (sessions t) (outbound_capabilities t) x.
Definition set_pending (x : option PendingState) (r : SessionRecord) : SessionRecord := mkRecord (session r) (committed r) x.
Definition put (key : SessionKey) (r : SessionRecord) (t : SessionProcedureTable) : SessionProcedureTable :=
  set_sessions (<[key := r]> (sessions t)) t.
Definition remove (key : SessionKey) (t : SessionProcedureTable) : SessionProcedureTable := set_sessions (delete key (sessions t)) t.

(** [message.validate()?] *)
Definition validated (v : rust (result Error unit)) (t : SessionProcedureTable)
    (k : rust (SessionProcedureTable * result Error ProcedureEvent)) : rust (SessionProcedureTable * result Error ProcedureEvent) :=
  r ← v; match r with Ok _ => k | Err e => Some (t, Err e) end.
Definition violation (t : SessionProcedureTable) (context reason : string) : rust (SessionProcedureTable * result Error ProcedureEvent) :=
  Some (t, Err (ProcedureViolation context reason)).
(** The record of the message's session, which must be the session it was created with. *)
Definition tracked (s : SessionSpecificExtension) (t : SessionProcedureTable) (context reason : string)
    (k : SessionRecord → rust (SessionProcedureTable * result Error ProcedureEvent))
    : rust (SessionProcedureTable * result Error ProcedureEvent) :=
  match sessions t !! from_session s with
  | None => violation t context reason
  | Some record =>
      if decide (session record ≠ s) then violation t "session" "message does not match the tracked session identity"
      else k record
  end.

Definition apply_outbound_request (now : Z) (m : RegistrationRequest) (t : SessionProcedureTable)
    : rust (SessionProcedureTable * result Error ProcedureEvent) :=
  validated (request_validate m) t (
    let key := from_session (rq_session m) in
    let transaction kind := Some (mkPending kind (rq_identification m) (rq_lifetime m) (rq_home_agent m) (rq_care_of_address m) now) in
    match sessions t !! key with
    | None =>
        if rq_lifetime m =? 0 then
          violation t "registration request" "cannot send a lifetime-zero request for an unknown session"
        else Some (put key (mkRecord (rq_session m) None (transaction Registration)) t, Ok (EvPendingRegistration key))
    | Some record =>
        if decide (session record ≠ rq_session m) then
          violation t "session" "message does not match the tracked session identity"
        else if bool_decide (is_Some (pending record)) then
          violation t "registration request" "session already has a pending transaction"
        else
          let kind := if rq_lifetime m =? 0 then LocalTeardown else Refresh in
          Some (put key (set_pending (transaction kind) record) t,
                Ok (if rq_lifetime m =? 0 then EvPendingTeardown key else EvPendingRefresh key))
    end).

Definition apply_inbound_reply (now : Z) (m : RegistrationReply) (t : SessionProcedureTable)
    : rust (SessionProcedureTable * result Error ProcedureEvent) :=
  validated (reply_validate m) t (
    let key := from_session (rp_session m) in
    tracked (rp_session m) t "registration reply" "reply received without a matching pending request" (λ record,
      match pending record with
      | None => violation t "registration reply" "reply received without a pending request"
      | Some p =>
          if negb (p_identification p =? rp_identification m) then
            violation t "registration reply" "reply identification does not match the pending request"
          else if rp_code m =? 0 then
            if decide (kind p = LocalTeardown) then
              if negb (rp_lifetime m =? 0) then
                violation t "registration reply" "accepted teardown replies must carry lifetime zero"
              else Some (remove key t, Ok (EvCleared key LocalTeardownDone))
            else if rp_lifetime m =? 0 then
              violation t "registration reply" "accepted registration replies must grant a non-zero lifetime"
            else if decide (2 ^ 64 ≤ now + rp_lifetime m) then panic!
            else
              let expires := now + rp_lifetime m in
              let c := mkCommitted (rp_identification m) (rp_lifetime m) (rp_home_agent m) (p_care_of_address p) expires in
              Some (put key (mkRecord (session record) (Some c) None) t,
                    Ok (if decide (kind p = Refresh) then EvRefreshed key expires else EvRegistered key expires))
          else
            let t := put key (set_pending None record) t in
            Some (if bool_decide (is_Some (committed record)) then t else remove key t, Ok (EvRejected key (rp_code m)))
      end)).

Definition apply_inbound_update (now : Z) (m : RegistrationUpdate) (t : SessionProcedureTable)
    : rust (SessionProcedureTable * result Error ProcedureEvent) :=
  validated (update_validate m) t (
    let key := from_session (ru_session m) in
    tracked (ru_session m) t "registration update" "update received for an unknown session" (λ record,
      if bool_decide (is_Some (pending record)) then
        violation t "registration update" "session already has a pending transaction"
      else
        match committed record with
        | None => violation t "registration update" "update received before the session was established"
        | Some c =>
            if negb (c_identification c =? ru_identification m) then
              violation t "registration update" "update identification does not match the active session"
            else if decide (c_home_agent c ≠ ru_home_agent m) then
              violation t "registration update" "update home agent does not match the active session"
            else
              let p := mkPending RemoteUpdate (ru_identification m) (c_lifetime c) (ru_home_agent m) (c_care_of_address c) now in
              Some (put key (set_pending (Some p) record) t, Ok (EvPendingTeardown key))
        end)).

Definition apply_outbound_acknowledge (m : RegistrationAcknowledge) (t : SessionProcedureTable)
    : rust (SessionProcedureTable * result Error ProcedureEvent) :=
  validated (acknowledge_validate m) t (
    let key := from_session (ra_session m) in
    tracked (ra_session m) t "registration acknowledge" "acknowledge sent for an unknown session" (λ record,
      match pending record with
      | None => violation t "registration acknowledge" "acknowledge sent without a pending update"
      | Some p =>
          if decide (kind p ≠ RemoteUpdate) then
            violation t "registration acknowledge" "acknowledge does not match the current pending transaction"
          else if negb (p_identification p =? ra_identification m) then
            violation t "registration acknowledge" "acknowledge identification does not match the pending update"
          else if decide (p_care_of_address p ≠ ra_care_of_address m) then
            violation t "registration acknowledge" "acknowledge care-of-address does not match the active session"
          else if ra_status m =? 0 then Some (remove key t, Ok (EvCleared key RemoteTeardown))
          else Some (put key (set_pending None record) t, Ok (EvRejected key (ra_status m)))
      end)).

Definition apply_outbound_session_update (now : Z) (m : SessionUpdate) (t : SessionProcedureTable)
    : rust (SessionProcedureTable * result Error ProcedureEvent) :=
  validated (session_update_validate m) t (
    let key := from_session (su_session m) in
    tracked (su_session m) t "session update" "cannot send a session update for an unknown session" (λ record,
      if bool_decide (is_Some (pending record)) then
        violation t "session update" "session already has a pending transaction"
      else
        match committed record with
        | None => violation t "session update" "cannot send a session update before registration completes"
        | Some c =>
            if decide (c_home_agent c ≠ su_home_agent m) then
              violation t "session update" "session update home agent does not match the active session"
            else
              let p := mkPending LocalSessionUpdate (su_identification m) (c_lifetime c) (su_home_agent m) (c_care_of_address c) now in
              Some (put key (set_pending (Some p) record) t, Ok (EvPendingSessionUpdate key))
        end)).

Definition apply_inbound_session_update (now : Z) (m : SessionUpdate) (t : SessionProcedureTable)
    : rust (SessionProcedureTable * result Error ProcedureEvent) :=
  validated (session_update_validate m) t (
    let key := from_session (su_session m) in
    tracked (su_session m) t "session update" "session update received for an unknown session" (λ record,
      if bool_decide (is_Some (pending record)) then
        violation t "session update" "session already has a pending transaction"
      else
        match committed record with
        | None => violation t "session update" "session update received before registration completes"
        | Some c =>
            if decide (c_home_agent c ≠ su_home_agent m) then
              violation t "session update" "session update home agent does not match the active session"
            else
              let p := mkPending RemoteSessionUpdate (su_identification m) (c_lifetime c) (su_home_agent m) (c_care_of_address c) now in
              Some (put key (set_pending (Some p) record) t, Ok (EvPendingSessionUpdateAcknowledge key))
        end)).

(** The checks of the two session-update acknowledges, which differ in the transaction they end and in a reason. *)
Definition end_session_update (k : PendingKind) (unknown none : string) (m : SessionUpdateAcknowledge) (t : SessionProcedureTable)
    : rust (SessionProcedureTable * result Error ProcedureEvent) :=
  validated (session_update_ack_validate m) t (
    let key := from_session (sa_session m) in
    tracked (sa_session m) t "session update acknowledge" unknown (λ record,
      match pending record with
      | None => violation t "session update acknowledge" none
      | Some p =>
          if decide (kind p ≠ k) then
            violation t "session update acknowledge" "acknowledge does not match the current pending transaction"
          else if negb (p_identification p =? sa_identification m) then
            violation t "session update acknowledge" "acknowledge identification does not match the pending session update"
          else if decide (p_care_of_address p ≠ sa_care_of_address m) then
            violation t "session update acknowledge" "acknowledge care-of-address does not match the active session"
          else Some (put key (set_pending None record) t,
                     Ok (if sa_status m =? 0 then EvSessionParametersUpdated key else EvRejected key (sa_status m)))
      end)).
Definition apply_inbound_session_update_acknowledge := end_session_update LocalSessionUpdate
  "session update acknowledge received for an unknown session"
  "session update acknowledge received without a pending session update".
Definition apply_outbound_session_update_acknowledge := end_session_update RemoteSessionUpdate
  "session update acknowledge sent for an unknown session"
  "session update acknowledge sent without a pending session update".

(** ** Capabilities *)
Definition is_pdsn_feature (n : Nvse) : bool := match n with PdsnEnabledFeature _ => true | _ => false end.
Definition is_pcf_feature (n : Nvse) : bool := match n with PcfEnabledFeature _ => true | _ => false end.
Definition feature_class_from_nvses (nvses : list Nvse) : CapabilitiesFeatureClass :=
  match existsb is_pdsn_feature nvses, existsb is_pcf_feature nvses with
  | true, false => PdsnFeatures
  | false, true => PcfFeatures
  | _, _ => UnknownOrMixed
  end.
Definition validate_capabilities_response_class (requested : CapabilitiesFeatureClass) (response_nvses : list Nvse) : result Error unit :=
  let response := feature_class_from_nvses response_nvses in
  match requested with
  | PdsnFeatures =>
      ensure (bool_decide (response = PcfFeatures))
        (ProcedureViolation "capabilities info acknowledge"
           "acknowledge must return PCF feature capabilities for a PDSN-feature request")
  | PcfFeatures =>
      ensure (bool_decide (response = PdsnFeatures))
        (ProcedureViolation "capabilities info acknowledge"
           "acknowledge must return PDSN feature capabilities for a PCF-feature request")
  | UnknownOrMixed => Ok tt
  end.

Definition apply_outbound_capabilities_info (now : Z) (m : CapabilitiesInfo) (t : SessionProcedureTable)
    : rust (SessionProcedureTable * result Error ProcedureEvent) :=
  validated (Some (capabilities_validate m)) t (
    if bool_decide (is_Some (outbound_capabilities t)) then
      violation t "capabilities info" "a capabilities-info procedure is already pending"
    else
      Some (set_outbound_capabilities (Some (mkPendingCapabilities (ci_identification m) (feature_class_from_nvses (ci_nvses m)) now)) t,
            Ok (EvPendingCapabilitiesInfo (ci_identification m)))).
Definition apply_inbound_capabilities_info (now : Z) (m : CapabilitiesInfo) (t : SessionProcedureTable)
    : rust (SessionProcedureTable * result Error ProcedureEvent) :=
  validated (Some (capabilities_validate m)) t (
    if bool_decide (is_Some (inbound_capabilities t)) then
      violation t "capabilities info" "a capabilities-info acknowledgement is already pending"
    else
      Some (set_inbound_capabilities (Some (mkPendingCapabilities (ci_identification m) (feature_class_from_nvses (ci_nvses m)) now)) t,
            Ok (EvPendingCapabilitiesInfoAcknowledge (ci_identification m)))).
Definition apply_inbound_capabilities_info_acknowledge (m : CapabilitiesInfoAcknowledge) (t : SessionProcedureTable)
    : rust (SessionProcedureTable * result Error ProcedureEvent) :=
  validated (Some (capabilities_ack_validate m)) t (
    match outbound_capabilities t with
    | None => Some (t, Ok (EvIgnoredCapabilitiesInfoAcknowledge (ca_identification m)))
    | Some p =>
        if negb (cap_identification p =? ca_identification m) then
          violation t "capabilities info acknowledge"
            "acknowledge identification does not match the pending capabilities-info request"
        else
          let t := set_outbound_capabilities None t in
          match validate_capabilities_response_class (feature_class p) (ca_nvses m) with
          | Err e => Some (t, Err e)
          | Ok _ => Some (t, Ok (EvCapabilitiesInfoCompleted (ca_identification m)))
          end
    end).
Definition apply_outbound_capabilities_info_acknowledge (m : CapabilitiesInfoAcknowledge) (t : SessionProcedureTable)
    : rust (SessionProcedureTable * result Error ProcedureEvent) :=
  validated (Some (capabilities_ack_validate m)) t (
    match inbound_capabilities t with
    | None => violation t "capabilities info acknowledge"
                "capabilities info acknowledge sent without a pending capabilities-info request"
    | Some p =>
        if negb (cap_identification p =? ca_identification m) then
          violation t "capabilities info acknowledge"
            "acknowledge identification does not match the pending capabilities-info request"
        else
          let t := set_inbound_capabilities None t in
          match validate_capabilities_response_class (feature_class p) (ca_nvses m) with
          | Err e => Some (t, Err e)
          | Ok _ => Some (t, Ok (EvCapabilitiesInfoCompleted (ca_identification m)))
          end
    end).

(** ** The table's operations *)
Definition apply (now : Z) (d : Direction) (m : Message) (t : SessionProcedureTable)
    : rust (SessionProcedureTable * result Error ProcedureEvent) :=
  match d, m with
  | Outbound, MRegistrationRequest m => apply_outbound_request now m t
  | Inbound, MRegistrationReply m => apply_inbound_reply now m t
  | Inbound, MRegistrationUpdate m => apply_inbound_update now m t
  | Outbound, MRegistrationAcknowledge m => apply_outbound_acknowledge m t
  | Outbound, MSessionUpdate m => apply_outbound_session_update now m t
  | Inbound, MSessionUpdate m => apply_inbound_session_update now m t
  | Inbound, MSessionUpdateAcknowledge m => apply_inbound_session_update_acknowledge m t
  | Outbound, MSessionUpdateAcknowledge m => apply_outbound_session_update_acknowledge m t
  | Outbound, MCapabilitiesInfo m => apply_outbound_capabilities_info now m t
  | Inbound, MCapabilitiesInfo m => apply_inbound_capabilities_info now m t
  | Inbound, MCapabilitiesInfoAcknowledge m => apply_inbound_capabilities_info_acknowledge m t
  | Outbound, MCapabilitiesInfoAcknowledge m => apply_outbound_capabilities_info_acknowledge m t
  | Inbound, MRegistrationRequest _ => violation t "direction" "registration requests must be applied as outbound messages"
  | Outbound, MRegistrationReply _ => violation t "direction" "registration replies must be applied as inbound messages"
  | Outbound, MRegistrationUpdate _ => violation t "direction" "registration updates must be applied as inbound messages"
  | Inbound, MRegistrationAcknowledge _ => violation t "direction" "registration acknowledges must be applied as outbound messages"
  end.

Definition clear_session (key : SessionKey) (t : SessionProcedureTable) : SessionProcedureTable * result Error ProcedureEvent :=
  match sessions t !! key with
  | Some _ => (remove key t, Ok (EvCleared key Administrative))
  | None => (t, Err (ProcedureViolation "session" "cannot clear an unknown session"))
  end.

Definition lease_over (now : Z) (r : SessionRecord) : bool :=
  match committed r with Some c => expires_at c <=? now | None => false end.
Definition expire_sessions (now : Z) (t : SessionProcedureTable) : SessionProcedureTable * list ProcedureEvent :=
  let expired := (filter (λ p, lease_over now p.2 = true) (map_to_list (sessions t))).*1 in
  foldl (λ '(t, events) key, (remove key t, events ++ [EvExpired key])) (t, []) expired.

Definition saturating_add (a b : Z) : Z := Z.min (a + b) (2 ^ 64 - 1).
Definition update_over (now tsesupd : Z) (r : SessionRecord) : bool :=
  match pending r with
  | Some p => bool_decide (kind p = LocalSessionUpdate) && (saturating_add (started_at p) tsesupd <=? now)
  | None => false
  end.
Definition expire_protocol_timers (now tsesupd_seconds tvers11_seconds : Z) (t : SessionProcedureTable)
    : SessionProcedureTable * list ProcedureEvent :=
  let expired := (filter (λ p, update_over now tsesupd_seconds p.2 = true) (map_to_list (sessions t))).*1 in
  let '(t, events) :=
    foldl (λ '(t, events) key,
             match sessions t !! key with
             | Some record => (put key (set_pending None record) t, events ++ [EvSessionUpdateExpired key])
             | None => (t, events)
             end) (t, []) expired in
  match outbound_capabilities t with
  | Some p =>
      if saturating_add (cap_started_at p) tvers11_seconds <=? now then
        (set_outbound_capabilities None t, events ++ [EvCapabilitiesInfoExpired (cap_identification p)])
      else (t, events)
  | None => (t, events)
  end.

(** ** Snapshots *)
Record SessionSnapshot := mkSnapshot {
  sn_key : SessionKey; sn_state : SessionState; sn_protocol_type : Z; sn_mn_id : list Z; sn_home_agent : list Z;
  sn_care_of_address : list Z; sn_identification : Z; sn_granted_lifetime : Z; sn_expires_at : option Z
}.
Definition record_state (r : SessionRecord) : SessionState :=
  match kind <$> pending r with
  | Some Registration | Some Refresh => StPendingRegistration
  | Some LocalTeardown => StPendingTeardown
  | Some RemoteUpdate => StPendingTeardown
  | Some RemoteSessionUpdate => StPendingSessionUpdateAcknowledge
  | Some LocalSessionUpdate => StPendingSessionUpdate
  | None => StActive
  end.
Definition is_registration (k : PendingKind) : bool := match k with Registration | Refresh => true | _ => false end.
Definition snapshot (r : SessionRecord) : SessionSnapshot :=
  let show := mkSnapshot (from_session (session r)) (record_state r) (protocol_type (session r)) (mn_id (session r)) in
  match pending r, committed r with
  | Some p, Some c =>
      if is_registration (kind p) then show (p_home_agent p) (p_care_of_address p) (p_identification p) (c_lifetime c) (Some (expires_at c))
      else show (c_home_agent c) (c_care_of_address c) (c_identification c) (c_lifetime c) (Some (expires_at c))
  | Some p, None => show (p_home_agent p) (p_care_of_address p) (p_identification p) (p_lifetime p) None
  | None, Some c => show (c_home_agent c) (c_care_of_address c) (c_identification c) (c_lifetime c) (Some (expires_at c))
  | None, None => show [0; 0; 0; 0] [0; 0; 0; 0] 0 0 None
  end.
Definition session_snapshot (key : SessionKey) (t : SessionProcedureTable) : option SessionSnapshot := snapshot <$> sessions t !! key.

End A11Procedure.
