(* ===== verification/A11ProcedureProofs.v ===== *)
(** * The A11 procedure table refines one session protocol per key

    The abstract machine of one registered session (its phase and its lease), the invariant
    of the table's records, and the theorem that for every key the events the table reports
    about it are a run of the machine that ends in the session's current state. *)
From stdpp Require Import strings.
From S2P Require Import Prelude Octets A11Codec A11CodecProofs A11Messages A11Procedure.
Import A11 A11Procedure.

(** ** The protocol of one session *)
Inductive Phase := Registering | Up | Refreshing | TearingDown | RemoteTearingDown | Updating | RemoteUpdating.
Inductive Abstract := Gone | Tracked (phase : Phase) (lease : option Z).

(** A lease granted at [now]: it is not over yet, and no longer than the largest lifetime that may be granted. *)
Definition granted (now e : Z) : Prop := now < e ≤ now + 65534.

Inductive astep (now : Z) (k : SessionKey) : Abstract → ProcedureEvent → Abstract → Prop :=
| a_register : astep now k Gone (EvPendingRegistration k) (Tracked Registering None)
| a_registered e : granted now e → astep now k (Tracked Registering None) (EvRegistered k e) (Tracked Up (Some e))
| a_refused c : c ≠ 0 → astep now k (Tracked Registering None) (EvRejected k c) Gone
| a_refresh l : astep now k (Tracked Up (Some l)) (EvPendingRefresh k) (Tracked Refreshing (Some l))
| a_refreshed l e : granted now e → astep now k (Tracked Refreshing (Some l)) (EvRefreshed k e) (Tracked Up (Some e))
| a_teardown l : astep now k (Tracked Up (Some l)) (EvPendingTeardown k) (Tracked TearingDown (Some l))
| a_torn_down l : astep now k (Tracked TearingDown (Some l)) (EvCleared k LocalTeardownDone) Gone
| a_remote_teardown l : astep now k (Tracked Up (Some l)) (EvPendingTeardown k) (Tracked RemoteTearingDown (Some l))
| a_remotely_torn_down l : astep now k (Tracked RemoteTearingDown (Some l)) (EvCleared k RemoteTeardown) Gone
| a_update l : astep now k (Tracked Up (Some l)) (EvPendingSessionUpdate k) (Tracked Updating (Some l))
| a_remote_update l : astep now k (Tracked Up (Some l)) (EvPendingSessionUpdateAcknowledge k) (Tracked RemoteUpdating (Some l))
| a_updated ph l : ph = Updating ∨ ph = RemoteUpdating → astep now k (Tracked ph (Some l)) (EvSessionParametersUpdated k) (Tracked Up (Some l))
| a_update_timeout l : astep now k (Tracked Updating (Some l)) (EvSessionUpdateExpired k) (Tracked Up (Some l))
| a_rejected ph l c : ph ≠ Up → ph ≠ Registering → c ≠ 0 → astep now k (Tracked ph (Some l)) (EvRejected k c) (Tracked Up (Some l))
  (** a registration reply is taken for any transaction with its identification *)
| a_reply_in_update ph l e : ph = RemoteTearingDown ∨ ph = Updating ∨ ph = RemoteUpdating → granted now e →
    astep now k (Tracked ph (Some l)) (EvRegistered k e) (Tracked Up (Some e))
| a_cleared ph l : astep now k (Tracked ph l) (EvCleared k Administrative) Gone
| a_expired ph l : l ≤ now → astep now k (Tracked ph (Some l)) (EvExpired k) Gone.

(** A run, each event with the time it was reported at. *)
Inductive arun (k : SessionKey) : Abstract → list (Z * ProcedureEvent) → Abstract → Prop :=
| arun_nil s : arun k s [] s
| arun_snoc s evs s1 now ev s2 : arun k s evs s1 → astep now k s1 ev s2 → arun k s (evs ++ [(now, ev)]) s2.

(** The session an event is about. *)
Definition event_key (e : ProcedureEvent) : option SessionKey :=
  match e with
  | EvPendingRegistration k | EvPendingRefresh k | EvRegistered k _ | EvRefreshed k _ | EvPendingUpdateAcknowledge k
  | EvPendingTeardown k | EvPendingSessionUpdate k | EvPendingSessionUpdateAcknowledge k | EvSessionParametersUpdated k
  | EvSessionUpdateExpired k | EvCleared k _ | EvRejected k _ | EvExpired k => Some k
  | _ => None
  end.
Definition about (k : SessionKey) (evs : list (Z * ProcedureEvent)) : list (Z * ProcedureEvent) :=
  filter (λ p, event_key p.2 = Some k) evs.

(** ** The table *)
Definition phase_of (k : PendingKind) : Phase :=
  match k with
  | Registration => Registering | Refresh => Refreshing | LocalTeardown => TearingDown | RemoteUpdate => RemoteTearingDown
  | LocalSessionUpdate => Updating | RemoteSessionUpdate => RemoteUpdating
  end.
Definition abstract (o : option SessionRecord) : Abstract :=
  match o with
  | None => Gone
  | Some r => Tracked (from_option (phase_of ∘ kind) Up (pending r)) (expires_at <$> committed r)
  end.

(** A record belongs to its key; it has a lease unless its first registration is pending. *)
Definition record_ok (k : SessionKey) (r : SessionRecord) : Prop :=
  from_session (session r) = k ∧
  match committed r, pending r with
  | None, Some p => kind p = Registration
  | None, None => False
  | Some _, Some p => kind p ≠ Registration
  | Some _, None => True
  end.
Definition table_ok (t : SessionProcedureTable) : Prop := map_Forall record_ok (sessions t).

Inductive ProcOp :=
| OpApply (now : Z) (d : Direction) (m : Message)
| OpClear (now : Z) (key : SessionKey)
| OpExpire (now : Z)
| OpTimers (now tsesupd tvers11 : Z).
Definition ok_event (now : Z) (r : result Error ProcedureEvent) : list (Z * ProcedureEvent) :=
  match r with Ok e => [(now, e)] | Err _ => [] end.
Definition proc_step (o : ProcOp) (t : SessionProcedureTable) : rust (SessionProcedureTable * list (Z * ProcedureEvent)) :=
  match o with
  | OpApply now d m => '(t, r) ← apply now d m t; Some (t, ok_event now r)
  | OpClear now key => let '(t, r) := clear_session key t in Some (t, ok_event now r)
  | OpExpire now => let '(t, evs) := expire_sessions now t in Some (t, (λ e, (now, e)) <$> evs)
  | OpTimers now a b => let '(t, evs) := expire_protocol_timers now a b t in Some (t, (λ e, (now, e)) <$> evs)
  end.
Fixpoint proc_run (ops : list ProcOp) (t : SessionProcedureTable) : rust (SessionProcedureTable * list (Z * ProcedureEvent)) :=
  match ops with
  | [] => Some (t, [])
  | o :: ops => '(t, evs) ← proc_step o t; '(t, evs') ← proc_run ops t; Some (t, evs ++ evs')
  end.

(** What one operation does to the sessions: nothing, or one step of one session. *)
Definition one_step (now : Z) (t t' : SessionProcedureTable) (r : result Error ProcedureEvent) : Prop :=
  match r with
  | Err _ => sessions t' = sessions t
  | Ok ev =>
      match event_key ev with
      | None => sessions t' = sessions t
      | Some k => delete k (sessions t') = delete k (sessions t) ∧
                  astep now k (abstract (sessions t !! k)) ev (abstract (sessions t' !! k))
      end
  end.
Definition steps_ok (now : Z) (t : SessionProcedureTable) (m : rust (SessionProcedureTable * result Error ProcedureEvent)) : Prop :=
  match m with None => True | Some (t', r) => one_step now t t' r ∧ table_ok t' end.

Lemma violation_ok now t c r : table_ok t → steps_ok now t (violation t c r).
Proof. by split. Qed.
Lemma validated_ok now v t k : table_ok t → (v = Some (Ok tt) → steps_ok now t k) → steps_ok now t (validated v t k).
Proof. intros Ht Hk. unfold validated. destruct v as [[[]|e]|]; cbn; [by apply Hk|by split|done]. Qed.
Lemma tracked_ok now s t c r k :
  table_ok t →
  (∀ record, sessions t !! from_session s = Some record → session record = s → record_ok (from_session s) record → steps_ok now t (k record)) →
  steps_ok now t (tracked s t c r k).
Proof.
  intros Ht Hk. unfold tracked. destruct (sessions t !! from_session s) as [record|] eqn:Hr; [|by apply violation_ok].
  destruct (decide _) as [|He]; [by apply violation_ok|]. apply dec_stable in He. by eapply Hk, Ht.
Qed.
Lemma put_ok now k r t ev :
  table_ok t → event_key ev = Some k → record_ok k r → astep now k (abstract (sessions t !! k)) ev (abstract (Some r)) →
  steps_ok now t (Some (put k r t, Ok ev)).
Proof.
  intros Ht Hk Hr Hs. split; [|by apply map_Forall_insert_2]. cbn. rewrite Hk, delete_insert_eq. cbn. by rewrite lookup_insert_eq.
Qed.
Lemma remove_ok now k t ev :
  table_ok t → event_key ev = Some k → astep now k (abstract (sessions t !! k)) ev Gone → steps_ok now t (Some (remove k t, Ok ev)).
Proof.
  intros Ht Hk Hs. split; [|by apply map_Forall_delete]. cbn. rewrite Hk. cbn. by rewrite delete_delete_eq, lookup_delete_eq.
Qed.

Lemma abstract_record k r p c : record_ok k r → pending r = Some p → committed r = Some c →
  abstract (Some r) = Tracked (phase_of (kind p)) (Some (expires_at c)) ∧ kind p ≠ Registration.
Proof. intros [_ H] Hp Hc. cbn. rewrite Hp, Hc in *. done. Qed.

Lemma request_ok now m t : table_ok t → steps_ok now t (apply_outbound_request now m t).
Proof.
  intros Ht. unfold apply_outbound_request. apply validated_ok; [done|]. intros _. set (k := from_session (rq_session m)).
  destruct (sessions t !! k) as [r|] eqn:Hr.
  - destruct (decide _) as [|Hs]; [by apply violation_ok|]. apply dec_stable in Hs. case_bool_decide as Hp; [by apply violation_ok|].
    destruct (Ht _ _ Hr) as [Hk Hrk]. destruct (pending r) eqn:Hpr; [exfalso; eauto|]. destruct (committed r) as [c|] eqn:Hc; [|done].
    destruct (Z.eqb_spec (rq_lifetime m) 0); (apply put_ok; [done|done|unfold record_ok; cbn; by rewrite Hc|]);
      rewrite Hr; cbn; rewrite Hpr, Hc; cbn; constructor.
  - destruct (rq_lifetime m =? 0); [by apply violation_ok|]. apply put_ok; [done|done|by split|]. rewrite Hr. constructor.
Qed.

Lemma reply_lifetime m : reply_validate m = Some (Ok tt) → rp_lifetime m ≠ 65535.
Proof.
  unfold reply_validate. intros H. invert_results.
  match goal with H : ensure (negb (_ =? 65535)) _ = Ok _ |- _ => apply ensure_inv, negb_true_iff, Z.eqb_neq in H; done end.
Qed.

Lemma reply_ok now m t : is_u16 (rp_lifetime m) → table_ok t → steps_ok now t (apply_inbound_reply now m t).
Proof.
  intros Hu Ht. unfold apply_inbound_reply. apply validated_ok; [done|]. intros Hv%reply_lifetime. set (k := from_session (rp_session m)).
  apply tracked_ok; [done|]. intros r Hr Hses [_ Hok]. fold k in Hr. destruct (pending r) as [p|] eqn:Hp; [|by apply violation_ok].
  destruct (negb (p_identification p =? _)); [by apply violation_ok|].
  assert (abstract (sessions t !! k) = Tracked (phase_of (kind p)) (expires_at <$> committed r)) as Ha by (rewrite Hr; cbn; by rewrite Hp).
  destruct (Z.eqb_spec (rp_code m) 0) as [_|Hcode].
  - destruct (decide (kind p = LocalTeardown)) as [Hk|Hk].
    + destruct (negb _); [by apply violation_ok|]. apply remove_ok; [done|done|]. rewrite Ha, Hk.
      destruct (committed r); [constructor|]. by rewrite Hk in Hok.
    + destruct (Z.eqb_spec (rp_lifetime m) 0) as [|Hl]; [by apply violation_ok|]. destruct (decide _); [done|].
      assert (granted now (now + rp_lifetime m)) by (unfold granted, is_u in *; lia).
      apply put_ok; [done|by destruct (decide _)|split; [cbn; by rewrite Hses|done]|]. rewrite Ha. cbn.
      destruct (committed r) as [c|], (kind p); cbn; try done; constructor; auto.
  - destruct (committed r) as [c|] eqn:Hc.
    + rewrite bool_decide_eq_true_2 by eauto.
      apply put_ok; [done|done|unfold record_ok; cbn; rewrite Hc; split; [by rewrite Hses|done]|]. rewrite Ha. cbn. rewrite Hc. cbn.
      constructor; [by destruct (kind p)..|done].
    + rewrite bool_decide_eq_false_2 by (intros [? ?]; done).
      assert (remove k (put k (set_pending None r) t) = remove k t) as -> by (unfold remove, set_sessions; cbn; by rewrite delete_insert_eq).
      apply remove_ok; [done|done|]. rewrite Ha. cbn in Hok |- *. rewrite Hok. by constructor.
Qed.

(** The handlers that open a transaction on an active session. *)
Ltac opens Ht r Hr Hok c :=
  case_bool_decide as Hpn; [by apply violation_ok|];
  destruct (committed r) as [c|] eqn:Hc; [|by apply violation_ok];
  repeat (match goal with |- steps_ok _ _ (if ?b then _ else _) => destruct b; [by apply violation_ok|] end);
  destruct (pending r) eqn:Hp; [exfalso; eauto|];
  apply put_ok; [done|done|unfold record_ok; cbn; rewrite Hc; by destruct Hok|]; rewrite Hr; cbn; rewrite Hp, Hc; constructor.

Lemma update_ok now m t : table_ok t → steps_ok now t (apply_inbound_update now m t).
Proof.
  intros Ht. apply validated_ok; [done|]. intros _. apply tracked_ok; [done|]. intros r Hr Hses Hok. opens Ht r Hr Hok c.
Qed.
Lemma outbound_session_update_ok now m t : table_ok t → steps_ok now t (apply_outbound_session_update now m t).
Proof.
  intros Ht. apply validated_ok; [done|]. intros _. apply tracked_ok; [done|]. intros r Hr Hses Hok. opens Ht r Hr Hok c.
Qed.
Lemma inbound_session_update_ok now m t : table_ok t → steps_ok now t (apply_inbound_session_update now m t).
Proof.
  intros Ht. apply validated_ok; [done|]. intros _. apply tracked_ok; [done|]. intros r Hr Hses Hok. opens Ht r Hr Hok c.
Qed.

(** The handlers that close one. *)
Lemma acknowledge_ok now m t : table_ok t → steps_ok now t (apply_outbound_acknowledge m t).
Proof.
  intros Ht. apply validated_ok; [done|]. intros _. apply tracked_ok; [done|]. intros r Hr Hses Hok.
  destruct (pending r) as [p|] eqn:Hp; [|by apply violation_ok]. destruct (decide _) as [|Hk]; [by apply violation_ok|].
  apply dec_stable in Hk. destruct (negb _); [by apply violation_ok|]. destruct (decide _); [by apply violation_ok|].
  destruct (committed r) as [c|] eqn:Hc; [|by destruct Hok as [_ Hok]; rewrite Hc, Hp, Hk in Hok].
  destruct (Z.eqb_spec (ra_status m) 0).
  - apply remove_ok; [done|done|]. rewrite Hr. cbn. rewrite Hp, Hc. cbn. rewrite Hk. constructor.
  - apply put_ok; [done|done|unfold record_ok; cbn; rewrite Hc; by destruct Hok|]. rewrite Hr. cbn. rewrite Hp, Hc. cbn. rewrite Hk. by constructor.
Qed.
Lemma end_session_update_ok now kd u n m t :
  kd = LocalSessionUpdate ∨ kd = RemoteSessionUpdate → table_ok t → steps_ok now t (end_session_update kd u n m t).
Proof.
  intros Hkd Ht. apply validated_ok; [done|]. intros _. apply tracked_ok; [done|]. intros r Hr Hses Hok.
  destruct (pending r) as [p|] eqn:Hp; [|by apply violation_ok]. destruct (decide _) as [|Hk]; [by apply violation_ok|].
  apply dec_stable in Hk. destruct (negb _); [by apply violation_ok|]. destruct (decide _); [by apply violation_ok|].
  destruct (committed r) as [c|] eqn:Hc; [|destruct Hok as [_ Hok]; rewrite Hc, Hp, Hk in Hok; naive_solver].
  apply put_ok; [done|by destruct (_ =? 0)|unfold record_ok; cbn; rewrite Hc; by destruct Hok|]. rewrite Hr. cbn. rewrite Hp, Hc. cbn. rewrite Hk.
  destruct (Z.eqb_spec (sa_status m) 0), Hkd as [->| ->]; constructor; auto; done.
Qed.

Lemma capabilities_ok now d m t :
  table_ok t →
  match m with MCapabilitiesInfo _ | MCapabilitiesInfoAcknowledge _ => steps_ok now t (apply now d m t) | _ => True end.
Proof.
  intros Ht. destruct m as [| | | | | |m|m]; try done; destruct d; apply validated_ok; try done; intros _.
  - case_bool_decide; by split.
  - case_bool_decide; by split.
  - destruct (inbound_capabilities t); [|by split]. destruct (negb _); [by split|]. destruct (validate_capabilities_response_class _ _); by split.
  - destruct (outbound_capabilities t); [|by split]. destruct (negb _); [by split|]. destruct (validate_capabilities_response_class _ _); by split.
Qed.

Lemma apply_ok now d m t : message_wf m → table_ok t → steps_ok now t (apply now d m t).
Proof.
  intros Hw Ht. pose proof (capabilities_ok now d m t Ht) as Hc.
  destruct m as [m|m|m|m|m|m|m|m]; try exact Hc; destruct d; try (by apply violation_ok); cbn [apply].
  - by apply request_ok.
  - apply reply_ok; [apply Hw|done].
  - by apply update_ok.
  - by apply acknowledge_ok.
  - by apply outbound_session_update_ok.
  - by apply inbound_session_update_ok.
  - apply end_session_update_ok; auto.
  - apply end_session_update_ok; auto.
Qed.

(** ** Timers *)
(** The keys of the records that satisfy a test, each once. *)
Definition keys_where (f : SessionRecord → bool) (t : SessionProcedureTable) : list SessionKey :=
  (filter (λ p, f p.2 = true) (map_to_list (sessions t))).*1.
Lemma elem_of_keys_where f t k : k ∈ keys_where f t ↔ ∃ r, sessions t !! k = Some r ∧ f r = true.
Proof.
  unfold keys_where. rewrite list_elem_of_fmap. split.
  - intros ([k' r] & -> & [Hf Hin]%list_elem_of_filter). apply elem_of_map_to_list in Hin. eauto.
  - intros (r & Hr & Hf). exists (k, r). split; [done|]. apply list_elem_of_filter. by rewrite elem_of_map_to_list.
Qed.
Lemma NoDup_keys_where f t : NoDup (keys_where f t).
Proof.
  unfold keys_where. eapply sublist_NoDup; [apply (NoDup_fst_map_to_list (sessions t))|].
  apply fmap_sublist, sublist_filter.
Qed.

Lemma filter_one (mk : SessionKey → ProcedureEvent) now k ks :
  (∀ j, event_key (mk j) = Some j) → NoDup ks →
  about k ((λ e, (now, e)) <$> (mk <$> ks)) = if decide (k ∈ ks) then [(now, mk k)] else [].
Proof.
  intros Hmk. induction 1 as [|j ks Hj HN IH]; [by rewrite decide_False by set_solver|]. unfold about in *. cbn [fmap list_fmap].
  rewrite filter_cons, IH. cbn. rewrite Hmk. destruct (decide (k = j)) as [->|Hne].
  - rewrite decide_True by done. rewrite (decide_False (P := j ∈ ks)) by done. by rewrite decide_True by set_solver.
  - rewrite (decide_False (P := Some j = Some k)) by congruence. destruct (decide (k ∈ ks)).
    + by rewrite decide_True by set_solver.
    + by rewrite decide_False by set_solver.
Qed.

Lemma expire_fold ks t evs :
  let '(t', evs') := foldl (λ '(t, events) key, (remove key t, events ++ [EvExpired key])) (t, evs) ks in
  evs' = evs ++ (EvExpired <$> ks) ∧ ∀ k, sessions t' !! k = if decide (k ∈ ks) then None else sessions t !! k.
Proof.
  revert t evs. induction ks as [|j ks IH]; intros t evs; cbn; [by rewrite app_nil_r|].
  specialize (IH (remove j t) (evs ++ [EvExpired j])). destruct (foldl _ _ ks) as [t' evs']. destruct IH as [-> IH].
  split; [by rewrite <- app_assoc|]. intros k. rewrite IH. cbn. destruct (decide (k ∈ ks)); [by rewrite decide_True by set_solver|].
  destruct (decide (k = j)) as [->|]; [rewrite lookup_delete_eq, decide_True by set_solver|rewrite lookup_delete_ne, decide_False by set_solver]; done.
Qed.

Lemma update_fold ks t evs :
  NoDup ks → Forall (λ k, is_Some (sessions t !! k)) ks →
  let '(t', evs') := foldl (λ '(t, events) key,
             match sessions t !! key with
             | Some record => (put key (set_pending None record) t, events ++ [EvSessionUpdateExpired key])
             | None => (t, events)
             end) (t, evs) ks in
  evs' = evs ++ (EvSessionUpdateExpired <$> ks) ∧
  ∀ k, sessions t' !! k = if decide (k ∈ ks) then set_pending None <$> sessions t !! k else sessions t !! k.
Proof.
  intros HN. revert t evs. induction HN as [|j ks Hj HN IH]; intros t evs HF; cbn; [by rewrite app_nil_r|].
  apply Forall_cons in HF as [[r Hr] HF]. rewrite Hr. set (t1 := put j (set_pending None r) t).
  assert (Forall (λ k, is_Some (sessions t1 !! k)) ks) as HF1.
  { eapply Forall_impl; [exact HF|]. intros k Hk. cbn. rewrite lookup_insert_is_Some'. auto. }
  specialize (IH t1 (evs ++ [EvSessionUpdateExpired j]) HF1). destruct (foldl _ _ ks) as [t' evs']. destruct IH as [-> IH].
  split; [by rewrite <- app_assoc|]. intros k. rewrite IH. unfold t1. cbn. destruct (decide (k = j)) as [->|Hne].
  - rewrite decide_False by done. rewrite decide_True by set_solver. by rewrite lookup_insert_eq, Hr.
  - rewrite lookup_insert_ne by done. destruct (decide (k ∈ ks)); [by rewrite decide_True by set_solver|by rewrite decide_False by set_solver].
Qed.

Lemma arun_app k s evs s1 evs' s2 : arun k s evs s1 → arun k s1 evs' s2 → arun k s (evs ++ evs') s2.
Proof.
  intros H1. induction 1 as [|s' evs' s1' now ev s2 H IH Hs]; [by rewrite app_nil_r|]. rewrite app_assoc. econstructor; eauto.
Qed.
Lemma arun_one now k s ev s' : astep now k s ev s' → arun k s [(now, ev)] s'.
Proof. intros. apply (arun_snoc k s [] s now ev s'); [constructor|done]. Qed.

(** An operation makes, for every key, a run labelled with the events about the key. *)
Definition runs (t t' : SessionProcedureTable) (evs : list (Z * ProcedureEvent)) : Prop :=
  table_ok t' ∧ ∀ k, arun k (abstract (sessions t !! k)) (about k evs) (abstract (sessions t' !! k)).

Lemma lookup_delete_same {A} k k' (m m' : gmap SessionKey A) : delete k m' = delete k m → k' ≠ k → m' !! k' = m !! k'.
Proof. intros H Hne. apply (f_equal (.!! k')) in H. by rewrite !lookup_delete_ne in H. Qed.

Lemma one_step_runs now t t' r : one_step now t t' r → table_ok t' → runs t t' (ok_event now r).
Proof.
  intros Hs Ht'. split; [done|]. intros k. unfold one_step in Hs. destruct r as [ev|e]; cbn [ok_event].
  - destruct (event_key ev) as [j|] eqn:Hj.
    + destruct Hs as [Hd Hs]. unfold about. rewrite filter_cons. cbn. rewrite Hj. destruct (decide (Some j = Some k)) as [[= ->]|Hne].
      * by apply arun_one.
      * rewrite (lookup_delete_same j k (sessions t) (sessions t')) by congruence. constructor.
    + unfold about. rewrite filter_cons. cbn. rewrite Hj. cbn. rewrite Hs. constructor.
  - rewrite Hs. constructor.
Qed.

Lemma expire_runs now t :
  table_ok t → let '(t', evs) := expire_sessions now t in
  runs t t' ((λ e, (now, e)) <$> evs) ∧ ∀ k r c, sessions t' !! k = Some r → committed r = Some c → now < expires_at c.
Proof.
  intros Ht. unfold expire_sessions. fold (keys_where (lease_over now) t). pose proof (expire_fold (keys_where (lease_over now) t) t []) as H.
  destruct (foldl _ _ _) as [t' evs]. destruct H as [-> H]. cbn [app]. split; [split|].
  - intros k r Hr. rewrite H in Hr. destruct (decide _); [done|]. by apply Ht.
  - intros k. rewrite filter_one, H by (done || apply NoDup_keys_where). destruct (decide _) as [Hin|]; [|constructor].
    apply elem_of_keys_where in Hin as (r & -> & Hl). apply arun_one. unfold lease_over in Hl. cbn. destruct (committed r); [|done].
    apply a_expired. cbn. lia.
  - intros k r c Hr Hc. rewrite H in Hr. destruct (decide _) as [|Hn]; [done|]. destruct (Z.lt_ge_cases now (expires_at c)); [done|].
    exfalso. apply Hn, elem_of_keys_where. exists r. split; [done|]. unfold lease_over. rewrite Hc. lia.
Qed.

Lemma timers_runs now a b t :
  table_ok t → let '(t', evs) := expire_protocol_timers now a b t in runs t t' ((λ e, (now, e)) <$> evs).
Proof.
  intros Ht. unfold expire_protocol_timers. fold (keys_where (update_over now a) t).
  pose proof (update_fold (keys_where (update_over now a) t) t [] (NoDup_keys_where _ _)) as H.
  destruct (foldl _ _ _) as [t1 evs]. destruct H as [-> H].
  { apply Forall_forall. intros k (r & -> & _)%elem_of_keys_where. eauto. }
  cbn [app]. assert (runs t t1 ((λ e, (now, e)) <$> (EvSessionUpdateExpired <$> keys_where (update_over now a) t))) as [Hok Hr1].
  { split.
    - intros k r Hr. rewrite H in Hr. destruct (decide _) as [(r0 & Hr0 & Hf)%elem_of_keys_where|]; [|by apply Ht].
      rewrite Hr0 in Hr. injection Hr as <-. destruct (Ht _ _ Hr0) as [Hk Hrk]. split; [done|]. unfold update_over in Hf. cbn.
      destruct (committed r0), (pending r0) as [p|]; try done. apply andb_true_iff in Hf as [Hf%bool_decide_eq_true_1 _]. by rewrite Hrk in Hf.
    - intros k. rewrite filter_one, H by (done || apply NoDup_keys_where). destruct (decide _) as [Hin|]; [|constructor].
      apply elem_of_keys_where in Hin as (r & Hr & Hf). rewrite Hr. apply arun_one. unfold update_over in Hf. cbn.
      destruct (Ht _ _ Hr) as [_ Hrk]. destruct (pending r) as [p|]; [|done]. apply andb_true_iff in Hf as [Hf%bool_decide_eq_true_1 _].
      destruct (committed r); [|by rewrite Hrk in Hf]. cbn. rewrite Hf. constructor. }
  destruct (outbound_capabilities t1) as [p|]; [|done]. destruct (_ <=? now); [|done]. split; [done|]. intros k.
  rewrite fmap_app. unfold about. rewrite filter_app. cbn [fmap list_fmap]. rewrite filter_cons_False by (cbn; congruence).
  rewrite filter_nil, app_nil_r. apply Hr1.
Qed.

Lemma clear_runs now key t : table_ok t → let '(t', r) := clear_session key t in runs t t' (ok_event now r).
Proof.
  intros Ht. unfold clear_session. destruct (sessions t !! key) as [r|] eqn:Hr.
  - destruct (remove_ok now key t (EvCleared key Administrative) Ht eq_refl) as [H1 H2]; [rewrite Hr; constructor|]. by apply one_step_runs.
  - by apply (one_step_runs now t t (Err _)).
Qed.

Definition op_wf (o : ProcOp) : Prop := match o with OpApply _ _ m => message_wf m | _ => True end.
Lemma proc_step_runs o t t' evs : op_wf o → table_ok t → proc_step o t = Some (t', evs) → runs t t' evs.
Proof.
  intros Hw Ht. destruct o as [now d m|now key|now|now a b]; cbn.
  - pose proof (apply_ok now d m t Hw Ht) as H. destruct (apply now d m t) as [[t1 r]|]; [|done]. cbn. intros [= <- <-].
    destruct H. by apply one_step_runs.
  - pose proof (clear_runs now key t Ht) as H. destruct (clear_session key t). by intros [= <- <-].
  - pose proof (expire_runs now t Ht) as H. destruct (expire_sessions now t). intros [= <- <-]. apply H.
  - pose proof (timers_runs now a b t Ht) as H. destruct (expire_protocol_timers now a b t). by intros [= <- <-].
Qed.

Lemma proc_run_runs ops t t' evs : Forall op_wf ops → table_ok t → proc_run ops t = Some (t', evs) → runs t t' evs.
Proof.
  intros Hw. revert t evs. induction Hw as [|o ops Ho Hw IH]; intros t evs Ht; cbn.
  - intros [= <- <-]. split; [done|]. intros k. constructor.
  - destruct (proc_step o t) as [[t1 evs1]|] eqn:Hs; [|done]. cbn. destruct (proc_run ops t1) as [[t2 evs2]|] eqn:Hr; [|done]. cbn.
    intros [= <- <-]. destruct (proc_step_runs _ _ _ _ Ho Ht Hs) as [H1 H2]. destruct (IH _ _ H1 Hr) as [H3 H4]. split; [done|]. intros k.
    unfold about. rewrite filter_app. eapply arun_app; [apply H2|apply H4].
Qed.

(** ** No panic *)
Lemma validated_returns v t k : (∃ r, v = Some r) → (∃ r, k = Some r) → ∃ r, validated v t k = Some r.
Proof. intros [[[]|e] ->] [r ->]; cbn; eauto. Qed.
Lemma tracked_returns s t c r k : (∀ x, ∃ y, k x = Some y) → ∃ y, tracked s t c r k = Some y.
Proof. intros H. unfold tracked, violation. destruct (sessions t !! _); [|eauto]. destruct (decide _); eauto. Qed.
Lemma session_validated {A} s (f : result Error A) : ∃ r, (_ ←! validate_session s; Some f) = Some r.
Proof. destruct (validate_session_returns s) as [[[]|e] ->]; cbn; eauto. Qed.

Definition time_ok (now : Z) : Prop := 0 ≤ now < 2 ^ 64 - 65536.
Lemma apply_returns now d m t : message_wf m → time_ok now → ∃ r, apply now d m t = Some r.
Proof.
  intros Hw Hn. destruct m as [m|m|m|m|m|m|m|m], d; cbn [apply]; unfold violation; try by eexists.
  all: apply validated_returns; [first [apply session_validated | by eexists]|].
  all: try (apply tracked_returns; intros x).
  all: unfold violation; repeat (case_match; try by eexists).
  unfold time_ok in Hn. destruct Hw as [Hu _]. unfold is_u in Hu. lia.
Qed.

Definition op_ok (o : ProcOp) : Prop := match o with OpApply now _ m => message_wf m ∧ time_ok now | _ => True end.
Lemma proc_run_returns ops t : Forall op_ok ops → ∃ t' evs, proc_run ops t = Some (t', evs).
Proof.
  intros H. revert t. induction H as [|o ops Ho H IH]; intros t; cbn; [eauto|].
  assert (∃ t1 evs1, proc_step o t = Some (t1, evs1)) as (t1 & evs1 & ->).
  { destruct o as [now d m|now key|now|now a b]; cbn.
    - destruct Ho as [Hw Hn]. destruct (apply_returns now d m t Hw Hn) as [[t1 r] ->]. cbn. eauto.
    - destruct (clear_session key t). eauto.
    - destruct (expire_sessions now t). eauto.
    - destruct (expire_protocol_timers now a b t). eauto. }
  cbn. destruct (IH t1) as (t2 & evs2 & ->). cbn. eauto.
Qed.

(** C13: The A11 procedure table refines the protocol of a registered session, for every session at once: through any
    sequence of sent and received messages, clears and timer expirations no operation panics, and for every session key
    the events the table reported about it are a run of the session machine (absent, registering, up with a lease,
    refreshing, torn down from either side, updated from either side) from absent to the state the table holds; an
    operation never moves a session it reports no event for. *)
Theorem a11_events_trace_sessions ops :
  Forall op_ok ops →
  ∃ t evs, proc_run ops new_table = Some (t, evs) ∧ table_ok t ∧
    ∀ k, arun k Gone (about k evs) (abstract (sessions t !! k)).
Proof.
  intros H. destruct (proc_run_returns ops new_table H) as (t & evs & Hr). exists t, evs. split; [done|].
  eapply (proc_run_runs ops new_table); [|apply map_Forall_empty|done]. eapply Forall_impl; [exact H|].
  intros [] Ho; [apply Ho|done..].
Qed.

(** A lease at the end of a run was granted in it. *)
Lemma arun_lease k s evs s' e ph :
  arun k s evs s' → s = Gone → s' = Tracked ph (Some e) →
  ∃ now ev, (now, ev) ∈ evs ∧ (ev = EvRegistered k e ∨ ev = EvRefreshed k e) ∧ granted now e.
Proof.
  intros H Hs. subst s. revert ph e. remember Gone as s0 eqn:E. induction H as [|s evs s1 now ev s2 H IH Hst]; intros ph e; [by subst|].
  subst s. specialize (IH eq_refl). intros ->.
  assert ((∃ ph', s1 = Tracked ph' (Some e)) ∨ (ev = EvRegistered k e ∨ ev = EvRefreshed k e) ∧ granted now e) as [[ph' ->]|[Hev Hg]]
    by (inversion Hst; subst; eauto 10).
  - destruct (IH _ _ eq_refl) as (n & v & Hin & Hv). exists n, v. split; [set_solver|done].
  - exists now, ev. split; [set_solver|done].
Qed.

(** Leases are bounded: after any sequence of operations followed by the expiry of sessions at some time, every
    session that is left and was granted a lease has not reached its end, and its end was fixed by a registration reply
    the table reported, less than 65535 seconds after that reply. *)
Theorem a11_leases_bounded ops now k :
  Forall op_ok ops →
  ∃ t evs t' evs', proc_run ops new_table = Some (t, evs) ∧ expire_sessions now t = (t', evs') ∧
    ∀ r c, sessions t' !! k = Some r → committed r = Some c →
      now < expires_at c ∧ sessions t !! k = Some r ∧
      ∃ τ ev, (τ, ev) ∈ about k evs ∧ (ev = EvRegistered k (expires_at c) ∨ ev = EvRefreshed k (expires_at c)) ∧
              τ < expires_at c ≤ τ + 65534.
Proof.
  intros H. destruct (proc_run_returns ops new_table H) as (t & evs & Hr).
  destruct (proc_run_runs ops new_table t evs) as [Hok Hrun]; [eapply Forall_impl; [exact H|]; intros [] Ho; [apply Ho|done..]|apply map_Forall_empty|done|].
  pose proof (expire_runs now t Hok) as He. unfold expire_sessions in *. fold (keys_where (lease_over now) t) in *.
  pose proof (expire_fold (keys_where (lease_over now) t) t []) as Hf. destruct (foldl _ _ _) as [t' evs'] eqn:Hexp.
  exists t, evs, t', evs'. split_and!; [done|by rewrite <- Hexp|]. intros r c Hl Hc. destruct Hf as [_ Hf].
  assert (sessions t !! k = Some r) as Ht by (rewrite Hf in Hl; destruct (decide _); done).
  split_and!; [by eapply He|done|]. specialize (Hrun k). rewrite Ht in Hrun. cbn in Hrun. rewrite Hc in Hrun. cbn in Hrun.
  by eapply arun_lease.
Qed.

(** A registration reply is matched by identification only, and a remote teardown keeps the identification of the
    registration: while the PDSN's Registration Update waits for its acknowledge, a repeated reply to the registration is
    taken as a new registration, extends the lease and drops the pending update, so that the acknowledge of the update is
    refused afterwards and the session stays. *)
Theorem a11_reply_cancels_remote_teardown now m t r c p a :
  sessions t !! from_session (rp_session m) = Some r → session r = rp_session m → committed r = Some c → pending r = Some p →
  kind p = RemoteUpdate → p_identification p = c_identification c → rp_identification m = c_identification c →
  reply_validate m = Some (Ok tt) → rp_code m = 0 → 0 < rp_lifetime m → now + rp_lifetime m < 2 ^ 64 →
  acknowledge_validate a = Some (Ok tt) → ra_session a = rp_session m →
  let k := from_session (rp_session m) in let e := now + rp_lifetime m in
  ∃ t', apply now Inbound (MRegistrationReply m) t = Some (t', Ok (EvRegistered k e)) ∧
    abstract (sessions t' !! k) = Tracked Up (Some e) ∧
    apply now Outbound (MRegistrationAcknowledge a) t' =
      Some (t', Err (ProcedureViolation "registration acknowledge" "acknowledge sent without a pending update")).
Proof.
  intros Hr Hs Hc Hp Hk Hid Him Hv Hcode Hl Hof Hva Has k e. cbn [apply].
  unfold apply_inbound_reply, tracked. rewrite Hv. cbn [validated]. unfold validated. cbn. rewrite Hr, Hs.
  rewrite (decide_False (P := rp_session m ≠ rp_session m)) by naive_solver. rewrite Hp, Hid, Him, Z.eqb_refl, Hcode. cbn.
  rewrite decide_False by (rewrite Hk; done). rewrite (proj2 (Z.eqb_neq (rp_lifetime m) 0)), decide_False by lia.
  rewrite (decide_False (P := kind p = Refresh)) by (rewrite Hk; done). eexists. split; [done|]. split.
  - cbn. by rewrite lookup_insert_eq.
  - unfold apply_outbound_acknowledge, validated, tracked. rewrite Hva. cbn. rewrite Has, lookup_insert_eq. cbn.
    by rewrite (decide_False (P := rp_session m ≠ rp_session m)) by naive_solver.
Qed.

(** ** A concrete run *)
Definition ex_ses : SessionSpecificExtension := mkSession 0x8881 7 1 1 6 [0x31; 0x10; 0x00; 0x21; 0x43; 0x65; 0x87; 0x09].
Definition ex_mh : AuthenticationExtension := mkAuth MobileHome 0x100 (replicate 16 0).
Definition ex_ru : AuthenticationExtension := mkAuth AuthRegistrationUpdate 0x100 (replicate 16 0).
Definition ex_req : RegistrationRequest := mkRequest 0x0a 1800 [0; 0; 0; 0] [10; 0; 0; 2] [10; 0; 0; 1] 77 ex_ses [ExtAuthentication ex_mh].
Definition ex_rep : RegistrationReply := mkReply 0 1800 [0; 0; 0; 0] [10; 0; 0; 2] 77 ex_ses [ExtAuthentication ex_mh].
Definition ex_upd : RegistrationUpdate := mkUpdate [0; 0; 0] [0; 0; 0; 0] [10; 0; 0; 2] 77 ex_ses [] ex_ru.
Definition ex_ack : RegistrationAcknowledge := mkAcknowledge [0; 0] 0 [0; 0; 0; 0] [10; 0; 0; 1] 77 ex_ses ex_ru.
Definition ex_ops : list ProcOp :=
  [OpApply 100 Outbound (MRegistrationRequest ex_req); OpApply 101 Inbound (MRegistrationReply ex_rep);
   OpApply 300 Inbound (MRegistrationUpdate ex_upd)].

Lemma ex_ops_ok : Forall op_ok ex_ops.
Proof.
  assert (time_ok 100 ∧ time_ok 101 ∧ time_ok 300) as (? & ? & ?) by (unfold time_ok; lia).
  assert (message_wf (MRegistrationRequest ex_req) ∧ message_wf (MRegistrationReply ex_rep) ∧ message_wf (MRegistrationUpdate ex_upd)) as (? & ? & ?).
  { unfold message_wf, session_wf, is_u, address_wf. cbn [rq_lifetime rp_lifetime ex_req ex_rep ex_upd rq_session rp_session ru_session ex_ses session_id_version].
    split_and!; try lia; try done; repeat constructor. }
  repeat constructor; done.
Qed.
Lemma a11_events_trace_sessions_witness :
  ∃ t evs, proc_run ex_ops new_table = Some (t, evs) ∧ table_ok t ∧ ∀ k, arun k Gone (about k evs) (abstract (sessions t !! k)).
Proof. exact (a11_events_trace_sessions ex_ops ex_ops_ok). Defined.
Lemma a11_leases_bounded_witness :
  ∃ t evs t' evs', proc_run ex_ops new_table = Some (t, evs) ∧ expire_sessions 1900 t = (t', evs') ∧
    ∀ r c, sessions t' !! mkKey 7 1 = Some r → committed r = Some c →
      1900 < expires_at c ∧ sessions t !! mkKey 7 1 = Some r ∧
      ∃ τ ev, (τ, ev) ∈ about (mkKey 7 1) evs ∧ (ev = EvRegistered (mkKey 7 1) (expires_at c) ∨ ev = EvRefreshed (mkKey 7 1) (expires_at c)) ∧
              τ < expires_at c ≤ τ + 65534.
Proof. exact (a11_leases_bounded ex_ops 1900 (mkKey 7 1) ex_ops_ok). Defined.

Definition ex_table : SessionProcedureTable := match proc_run ex_ops new_table with Some (t, _) => t | None => new_table end.
Definition ex_committed : CommittedState := mkCommitted 77 1800 [10; 0; 0; 2] [10; 0; 0; 1] 1901.
Definition ex_pending : PendingState := mkPending RemoteUpdate 77 1800 [10; 0; 0; 2] [10; 0; 0; 1] 300.
Lemma ex_table_session : sessions ex_table !! from_session ex_ses = Some (mkRecord ex_ses (Some ex_committed) (Some ex_pending)).
Proof. vm_compute. reflexivity. Qed.
Lemma ex_valid : reply_validate ex_rep = Some (Ok tt) ∧ acknowledge_validate ex_ack = Some (Ok tt).
Proof. split; vm_compute; reflexivity. Qed.
Lemma a11_reply_cancels_remote_teardown_witness :
  ∃ t', apply 310 Inbound (MRegistrationReply ex_rep) ex_table = Some (t', Ok (EvRegistered (mkKey 7 1) 2110)) ∧
    apply 310 Outbound (MRegistrationAcknowledge ex_ack) t' =
      Some (t', Err (ProcedureViolation "registration acknowledge" "acknowledge sent without a pending update")).
Proof.
  destruct (a11_reply_cancels_remote_teardown 310 ex_rep ex_table _ ex_committed ex_pending ex_ack ex_table_session
    eq_refl eq_refl eq_refl eq_refl eq_refl eq_refl (proj1 ex_valid) eq_refl ltac:(cbn; lia) ltac:(cbn; lia) (proj2 ex_valid) eq_refl)
    as (t' & H1 & _ & H2).
  by exists t'.
Defined.
