(* ===== verification/A9Codec.v ===== *)
(** * A9 signaling: messages as lists of elements ([cdma-a9/src/lib.rs])

    The raw layer of the A9 codec between the base station controller and the PCF: message
    types, information elements, the [A8_Traffic_ID], and what [validate_required] asks of a
    message: the elements it may carry, how often, in which order, and which must be there.  An
    element value is an octet string; arrays [[u8; n]] are lists. *)
From S2P Require Import Prelude Octets.

Module A9.

Inductive MessageType :=
| SetupA8 | ConnectA8 | DisconnectA8 | ReleaseA8 | ReleaseA8Complete | BsServiceRequest | BsServiceResponse
| AlConnected | AlConnectedAck | AlDisconnected | AlDisconnectedAck | ShortDataDelivery | ShortDataAck
| UpdateA8 | UpdateA8Ack | VersionInfo | VersionInfoAck.
#[export] Instance MessageType_eq_dec : EqDecision MessageType.
Proof. solve_decision. Defined.

Inductive ElementId :=
| ConRef | UserZoneId | ServiceOption | Cause | A9Indicators | BscId | QualityOfServiceParameters | A8TrafficId
| DataCount | SrId | CorrelationId | PdsnIpAddress | MobileIdentity | Is2000ServiceConfigurationRecord | RnPdit
| AnchorPdsnAddress | SoftwareVersion | AddsUserPart | CallConnectionReference | AnchorPpAddress.
#[export] Instance ElementId_eq_dec : EqDecision ElementId.
Proof. solve_decision. Defined.

Inductive Error :=
| EmptyMessage
| UnknownMessageType (value : Z)
| UnknownInformationElement (value : Z)
| Truncated (needed actual : nat)
| InvalidLength (expected actual : nat)
| DuplicateInformationElement (element_id : Z)
| MissingRequiredInformationElement (element_id : Z)
| UnexpectedInformationElement (message_type : MessageType) (element_id : Z)
| OutOfOrderInformationElement (message_type : MessageType) (element_id : Z)
| InvalidValue (context : string) (value : Z)
| PayloadMessageTypeMismatch (header payload : MessageType)
| DuplicateSession
| DuplicateTrafficId (key : Z)
| UnknownSession
| UnknownTrafficId (key : Z)
| TrafficIdMismatch (expected actual : Z)
| CauseMismatch (expected actual : Z)
| InvalidProcedureDirection (message_type : MessageType) (state : string)
| InvalidProcedureState (message_type : MessageType) (state : string).
#[export] Instance Error_eq_dec : EqDecision Error.
Proof. solve_decision. Defined.

Abbreviation Result := (result Error).

(** [message_type as u8] and [MessageType::from_u8] *)
Definition message_type_u8 (t : MessageType) : Z :=
  match t with
  | SetupA8 => 0x01 | ConnectA8 => 0x02 | DisconnectA8 => 0x03 | ReleaseA8 => 0x04 | ReleaseA8Complete => 0x05
  | BsServiceRequest => 0x06 | BsServiceResponse => 0x07 | AlConnected => 0x08 | AlConnectedAck => 0x09
  | AlDisconnected => 0x0a | AlDisconnectedAck => 0x0b | ShortDataDelivery => 0x0c | ShortDataAck => 0x0d
  | UpdateA8 => 0x0e | UpdateA8Ack => 0x0f | VersionInfo => 0x10 | VersionInfoAck => 0x11
  end.
Definition message_type_from_u8 (value : Z) : Result MessageType :=
  match value with
  | 0x01 => Ok SetupA8 | 0x02 => Ok ConnectA8 | 0x03 => Ok DisconnectA8 | 0x04 => Ok ReleaseA8
  | 0x05 => Ok ReleaseA8Complete | 0x06 => Ok BsServiceRequest | 0x07 => Ok BsServiceResponse
  | 0x08 => Ok AlConnected | 0x09 => Ok AlConnectedAck | 0x0a => Ok AlDisconnected | 0x0b => Ok AlDisconnectedAck
  | 0x0c => Ok ShortDataDelivery | 0x0d => Ok ShortDataAck | 0x0e => Ok UpdateA8 | 0x0f => Ok UpdateA8Ack
  | 0x10 => Ok VersionInfo | 0x11 => Ok VersionInfoAck
  | other => Err (UnknownMessageType other)
  end.

(** [element_id as u8] and [ElementId::from_u8] *)
Definition element_id_u8 (i : ElementId) : Z :=
  match i with
  | ConRef => 0x01 | UserZoneId => 0x02 | ServiceOption => 0x03 | Cause => 0x04 | A9Indicators => 0x05
  | BscId => 0x06 | QualityOfServiceParameters => 0x07 | A8TrafficId => 0x08 | DataCount => 0x09 | SrId => 0x0b
  | CorrelationId => 0x13 | PdsnIpAddress => 0x14 | MobileIdentity => 0x0d
  | Is2000ServiceConfigurationRecord => 0x0e | RnPdit => 0x0f | AnchorPdsnAddress => 0x30
  | SoftwareVersion => 0x31 | AddsUserPart => 0x3d | CallConnectionReference => 0x3f | AnchorPpAddress => 0x40
  end.
Definition element_id_from_u8 (value : Z) : Result ElementId :=
  match value with
  | 0x01 => Ok ConRef | 0x02 => Ok UserZoneId | 0x03 => Ok ServiceOption | 0x04 => Ok Cause
  | 0x05 => Ok A9Indicators | 0x06 => Ok BscId | 0x07 => Ok QualityOfServiceParameters | 0x08 => Ok A8TrafficId
  | 0x09 => Ok DataCount | 0x0b => Ok SrId | 0x0d => Ok MobileIdentity
  | 0x0e => Ok Is2000ServiceConfigurationRecord | 0x0f => Ok RnPdit | 0x13 => Ok CorrelationId
  | 0x14 => Ok PdsnIpAddress | 0x30 => Ok AnchorPdsnAddress | 0x31 => Ok SoftwareVersion | 0x3d => Ok AddsUserPart
  | 0x3f => Ok CallConnectionReference | 0x40 => Ok AnchorPpAddress
  | other => Err (UnknownInformationElement other)
  end.

Record InformationElement := mkElement { id : ElementId; value : list Z }.
#[export] Instance InformationElement_eq_dec : EqDecision InformationElement.
Proof. solve_decision. Defined.

(** ** [A8TrafficId] *)
Inductive A8IpAddress := V4 (address : list Z) | V6 (address : list Z).
#[export] Instance A8IpAddress_eq_dec : EqDecision A8IpAddress.
Proof. solve_decision. Defined.
Record TrafficId := mkTraffic { protocol_stack : Z; protocol_type : Z; key : Z; ip_address : A8IpAddress }.
#[export] Instance TrafficId_eq_dec : EqDecision TrafficId.
Proof. solve_decision. Defined.

Definition gre_ppp (key : Z) (address : list Z) : TrafficId := mkTraffic 1 0x8881 key (V4 address).
Definition gre_ppp_ipv6 (key : Z) (address : list Z) : TrafficId := mkTraffic 1 0x8881 key (V6 address).
Definition address_type (t : TrafficId) : Z := match ip_address t with V4 _ => 1 | V6 _ => 2 end.
Definition address_len (t : TrafficId) : nat := match ip_address t with V4 _ => 4 | V6 _ => 16 end.

Definition traffic_encode (t : TrafficId) : list Z :=
  [protocol_stack t] ++ to_be16 (protocol_type t) ++ to_be32 (key t) ++ [address_type t] ++
  match ip_address t with V4 address => address | V6 address => address end.

(** The array patterns name the octets [input[0]..input[7]]; [address] is what follows them. *)
Definition traffic_decode (input : list Z) : Result TrafficId :=
  match input with
  | protocol_stack :: t0 :: t1 :: k0 :: k1 :: k2 :: k3 :: address_type :: address =>
      let protocol_type := from_be16 t0 t1 in
      let key := from_be32 k0 k1 k2 k3 in
      if negb (protocol_stack =? 1) then Err (InvalidValue "A8TrafficId.protocol_stack" protocol_stack)
      else if negb (protocol_type =? 0x8881) then Err (InvalidValue "A8TrafficId.protocol_type" protocol_type)
      else if address_type =? 1 then
        if decide (length input ≠ 12%nat) then Err (InvalidLength 12 (length input))
        else Ok (mkTraffic protocol_stack protocol_type key (V4 address))
      else if address_type =? 2 then
        if decide (length input ≠ 24%nat) then Err (InvalidLength 24 (length input))
        else Ok (mkTraffic protocol_stack protocol_type key (V6 address))
      else Err (InvalidValue "A8TrafficId.address_type" address_type)
  | _ => Err (InvalidLength 8 (length input))
  end.

(** ** What a message may and must carry *)
Record Message := mkMessage { message_type : MessageType; elements : list InformationElement }.
#[export] Instance Message_eq_dec : EqDecision Message.
Proof. solve_decision. Defined.

Definition allowed_elements (t : MessageType) : list ElementId :=
  match t with
  | SetupA8 => [CallConnectionReference; CorrelationId; MobileIdentity; ConRef; QualityOfServiceParameters; BscId;
                A8TrafficId; ServiceOption; A9Indicators; UserZoneId]
  | ConnectA8 => [CallConnectionReference; CorrelationId; MobileIdentity; ConRef; A8TrafficId; Cause; PdsnIpAddress]
  | DisconnectA8 | ReleaseA8 => [CallConnectionReference; CorrelationId; MobileIdentity; ConRef; A8TrafficId; Cause]
  | ReleaseA8Complete | AlConnectedAck | AlDisconnectedAck => [CallConnectionReference; CorrelationId]
  | BsServiceRequest => [CorrelationId; MobileIdentity; ServiceOption; DataCount]
  | BsServiceResponse => [CorrelationId; Cause]
  | AlConnected => [CallConnectionReference; CorrelationId; A8TrafficId; PdsnIpAddress]
  | AlDisconnected => [CallConnectionReference; CorrelationId; A8TrafficId]
  | ShortDataDelivery => [CorrelationId; MobileIdentity; SrId; DataCount; AddsUserPart; A9Indicators]
  | ShortDataAck => [CorrelationId; MobileIdentity; Cause]
  | UpdateA8 => [CallConnectionReference; CorrelationId; MobileIdentity; Is2000ServiceConfigurationRecord; ServiceOption;
                 UserZoneId; QualityOfServiceParameters; Cause; RnPdit; SrId; A9Indicators; PdsnIpAddress;
                 AnchorPdsnAddress; AnchorPpAddress]
  | UpdateA8Ack => [CallConnectionReference; CorrelationId; Cause]
  | VersionInfo => [CorrelationId; Cause; SoftwareVersion]
  | VersionInfoAck => [CorrelationId; SoftwareVersion]
  end.
Definition validate_allowed (t : MessageType) (i : ElementId) : Result unit :=
  if decide (i ∈ allowed_elements t) then Ok tt else Err (UnexpectedInformationElement t (element_id_u8 i)).

(** The message types that carry mobile identities. *)
Definition carries_identities (t : MessageType) : bool :=
  match t with
  | SetupA8 | ConnectA8 | DisconnectA8 | ReleaseA8 | BsServiceRequest | ShortDataDelivery | ShortDataAck | UpdateA8 => true
  | _ => false
  end.
Definition allowed_repetitions (t : MessageType) (i : ElementId) : nat :=
  match i with
  | MobileIdentity => if carries_identities t then 3 else 1
  | _ => 1
  end.

Inductive MobileIdentityKind := KindImsi | KindEsn | KindMeid.
Definition mobile_identity_order (value : list Z) : Result MobileIdentityKind :=
  match value with
  | [] => Err (InvalidLength 1 0)
  | first :: _ =>
      let k := Z.land first 0x07 in
      if k =? 0x06 then Ok KindImsi
      else if k =? 0x05 then Ok KindEsn
      else if k =? 0x01 then Ok KindMeid
      else Err (UnknownInformationElement k)
  end.

(** The place of an element in its message, [None] where the match continues.  The arms are tried in the order of
    the source. *)
Definition element_order (t : MessageType) (i : ElementId) : option Z :=
  match t, i with
  | _, CallConnectionReference => Some 0
  | _, CorrelationId => Some 1
  | _, ConRef => Some 4
  | SetupA8, QualityOfServiceParameters => Some 5
  | SetupA8, BscId => Some 6
  | UpdateA8, Is2000ServiceConfigurationRecord => Some 5
  | UpdateA8, ServiceOption => Some 6
  | UpdateA8, UserZoneId => Some 7
  | UpdateA8, QualityOfServiceParameters => Some 8
  | UpdateA8, Cause => Some 9
  | UpdateA8, RnPdit => Some 10
  | UpdateA8, SrId => Some 11
  | UpdateA8, A9Indicators => Some 12
  | UpdateA8, PdsnIpAddress => Some 13
  | UpdateA8, AnchorPdsnAddress => Some 14
  | UpdateA8, AnchorPpAddress => Some 15
  | (SetupA8 | ConnectA8 | DisconnectA8 | ReleaseA8 | AlConnected | AlDisconnected), A8TrafficId => Some 7
  | (SetupA8 | BsServiceRequest), ServiceOption => Some 8
  | ShortDataDelivery, SrId => Some 5
  | ShortDataDelivery, DataCount => Some 6
  | ShortDataDelivery, AddsUserPart => Some 7
  | ShortDataDelivery, A9Indicators => Some 8
  | (ConnectA8 | DisconnectA8 | ReleaseA8 | BsServiceResponse | ShortDataAck | VersionInfo | UpdateA8Ack), Cause => Some 8
  | SetupA8, A9Indicators => Some 9
  | BsServiceRequest, DataCount => Some 9
  | (ConnectA8 | AlConnected), PdsnIpAddress => Some 9
  | SetupA8, UserZoneId => Some 10
  | (VersionInfo | VersionInfoAck), SoftwareVersion => Some 9
  | _, _ => None
  end.

(** The order of one element and the [saw_imsi] flag after it. *)
Definition order_of (t : MessageType) (e : InformationElement) (saw_imsi : bool) : Result (option Z * bool) :=
  if decide (id e = MobileIdentity ∧ carries_identities t = true) then
    k ←r mobile_identity_order (value e);
    match k with
    | KindImsi => Ok (Some 2, true)
    | KindEsn => if negb saw_imsi then Err (InvalidValue "MobileIdentity.sequence" 0x05) else Ok (Some 3, saw_imsi)
    | KindMeid => if negb saw_imsi then Err (InvalidValue "MobileIdentity.sequence" 0x01) else Ok (Some 4, saw_imsi)
    end
  else Ok (element_order t (id e), saw_imsi).

Fixpoint validate_element_order_from (t : MessageType) (last_order : option Z) (saw_imsi : bool) (es : list InformationElement)
    : Result unit :=
  match es with
  | [] => Ok tt
  | e :: es =>
      o ←r order_of t e saw_imsi;
      let '(order, saw_imsi) := o in
      match order with
      | None => validate_element_order_from t last_order saw_imsi es
      | Some order =>
          if (match last_order with Some previous => order <? previous | None => false end)
          then Err (OutOfOrderInformationElement t (element_id_u8 (id e)))
          else validate_element_order_from t (Some order) saw_imsi es
      end
  end.
Definition validate_element_order (t : MessageType) (es : list InformationElement) : Result unit :=
  validate_element_order_from t None false es.

(** The counts of the elements seen so far, as the [BTreeMap] keyed by the identifier octet. *)
Fixpoint validate_counts (t : MessageType) (seen : gmap Z nat) (es : list InformationElement) : Result unit :=
  match es with
  | [] => Ok tt
  | e :: es =>
      _ ←r validate_allowed t (id e);
      let count := S (default 0%nat (seen !! element_id_u8 (id e))) in
      if decide (allowed_repetitions t (id e) < count)%nat then Err (DuplicateInformationElement (element_id_u8 (id e)))
      else validate_counts t (<[element_id_u8 (id e) := count]> seen) es
  end.

Definition required_elements (t : MessageType) : list ElementId :=
  match t with
  | SetupA8 => [ConRef; BscId; A8TrafficId; ServiceOption; A9Indicators]
  | ConnectA8 | DisconnectA8 | ReleaseA8 => [ConRef; A8TrafficId; Cause]
  | BsServiceRequest => [ServiceOption; DataCount]
  | AlConnected | AlDisconnected => [A8TrafficId]
  | ShortDataDelivery => [AddsUserPart]
  | ShortDataAck => [Cause]
  | _ => []
  end.
Fixpoint require_all (required : list ElementId) (es : list InformationElement) : Result unit :=
  match required with
  | [] => Ok tt
  | i :: required =>
      if existsb (λ e, bool_decide (id e = i)) es then require_all required es
      else Err (MissingRequiredInformationElement (element_id_u8 i))
  end.
Definition validate_required (t : MessageType) (es : list InformationElement) : Result unit :=
  _ ←r validate_counts t ∅ es;
  _ ←r validate_element_order t es;
  require_all (required_elements t) es.

(** [Message::new] *)
Definition new_message (t : MessageType) (es : list InformationElement) : Result Message :=
  _ ←r validate_required t es; Ok (mkMessage t es).

(** ** Octets *)
Fixpoint encode_elements (es : list InformationElement) : Result (list Z) :=
  match es with
  | [] => Ok []
  | e :: es =>
      if decide (255 < length (value e))%nat then Err (InvalidLength 255 (length (value e)))
      else
        out ←r encode_elements es;
        Ok ([element_id_u8 (id e); (Z.of_nat (length (value e))) as_u8] ++ value e ++ out)
  end.
Definition encode (m : Message) : Result (list Z) :=
  _ ←r validate_required (message_type m) (elements m);
  out ←r encode_elements (elements m);
  Ok (message_type_u8 (message_type m) :: out).

(** The loop of [decode] at [offset]: [rest] is what follows it, [total] the length of the whole; one turn takes at
    least two octets. *)
Fixpoint decode_elements (fuel : nat) (offset total : nat) (rest : list Z) : Result (list InformationElement) :=
  match fuel, rest with
  | S fuel, i :: l =>
      match l with
      | [] => Err (Truncated (offset + 2) total)
      | len :: rest =>
          id ←r element_id_from_u8 i;
          let value_end := (offset + 2 + Z.to_nat len)%nat in
          if decide (length rest < Z.to_nat len)%nat then Err (Truncated value_end total)
          else
            es ←r decode_elements fuel value_end total (drop (Z.to_nat len) rest);
            Ok (mkElement id (take (Z.to_nat len) rest) :: es)
      end
  | _, _ => Ok []
  end.
Definition decode (input : list Z) : Result Message :=
  match input with
  | [] => Err EmptyMessage
  | t :: rest =>
      t ←r message_type_from_u8 t;
      es ←r decode_elements (length rest) 0 (length rest) rest;
      new_message t es
  end.

End A9.
