(* ===== verification/A9Elements.v ===== *)
(** * A9 signaling: typed elements ([cdma-a9/src/typed.rs], first part)

    The values of the information elements.  A one-field struct such as [ConRef(u8)] is its
    field: a number, or a list of octets for an array.  The decoders check the length before
    they index, so they are written as matches on the octets. *)
From S2P Require Import Prelude Octets Text A9Codec.
Import A9.

Module A9Elements.

(** ** Numbers and addresses *)
Definition con_ref_encode (v : Z) : list Z := [v].
Definition con_ref_decode (input : list Z) : Result Z :=
  match input with [v] => Ok v | _ => Err (InvalidLength 1 (length input)) end.

Definition correlation_id_encode (v : list Z) : list Z := v.
Definition correlation_id_decode (input : list Z) : Result (list Z) :=
  match input with [a; b; c; d] => Ok [a; b; c; d] | _ => Err (InvalidLength 4 (length input)) end.

Definition bsc_id_encode (v : list Z) : Result (list Z) :=
  if decide (v = [] ∨ (6 < length v)%nat) then Err (InvalidLength 6 (length v)) else Ok v.
Definition bsc_id_decode (input : list Z) : Result (list Z) :=
  if decide (input = [] ∨ (6 < length input)%nat) then Err (InvalidLength 6 (length input)) else Ok input.

Definition service_option_encode (v : Z) : list Z := to_be16 v.
Definition service_option_decode (input : list Z) : Result Z :=
  match input with [a; b] => Ok (from_be16 a b) | _ => Err (InvalidLength 2 (length input)) end.

Definition cause_encode (v : Z) : list Z := [v].
Definition cause_decode (input : list Z) : Result Z :=
  match input with [v] => Ok v | _ => Err (InvalidLength 1 (length input)) end.

Definition user_zone_id_encode (v : Z) : list Z := to_be16 v.
Definition user_zone_id_decode (input : list Z) : Result Z :=
  match input with [a; b] => Ok (from_be16 a b) | _ => Err (InvalidLength 2 (length input)) end.

Definition data_count_encode (v : Z) : list Z := to_be16 v.
Definition data_count_decode (input : list Z) : Result Z :=
  match input with [a; b] => Ok (from_be16 a b) | _ => Err (InvalidLength 2 (length input)) end.

Definition pdsn_ip_address_encode (v : list Z) : list Z := v.
Definition pdsn_ip_address_decode (input : list Z) : Result (list Z) :=
  match input with [a; b; c; d] => Ok [a; b; c; d] | _ => Err (InvalidLength 4 (length input)) end.
Definition anchor_pdsn_address_encode (v : list Z) : list Z := v.
Definition anchor_pdsn_address_decode (input : list Z) : Result (list Z) :=
  match input with [a; b; c; d] => Ok [a; b; c; d] | _ => Err (InvalidLength 4 (length input)) end.
Definition anchor_pp_address_encode (v : list Z) : list Z := v.
Definition anchor_pp_address_decode (input : list Z) : Result (list Z) :=
  match input with [a; b; c; d] => Ok [a; b; c; d] | _ => Err (InvalidLength 4 (length input)) end.

Record CallReference := mkCallRef { market_id : Z; generating_entity_id : Z; ref_value : Z }.
#[export] Instance CallReference_eq_dec : EqDecision CallReference.
Proof. solve_decision. Defined.
Definition call_connection_reference_encode (v : CallReference) : list Z :=
  to_be16 (market_id v) ++ to_be16 (generating_entity_id v) ++ to_be32 (ref_value v).
Definition call_connection_reference_decode (input : list Z) : Result CallReference :=
  match input with
  | [a; b; c; d; e; f; g; h] => Ok (mkCallRef (from_be16 a b) (from_be16 c d) (from_be32 e f g h))
  | _ => Err (InvalidLength 8 (length input))
  end.

(** ** Restricted values *)
Definition qos_encode (packet_priority : Z) : Result (list Z) :=
  if 0x0d <? packet_priority then Err (InvalidValue "QualityOfServiceParameters.packet_priority" packet_priority)
  else Ok [Z.land packet_priority 0x0f].
Definition qos_decode (input : list Z) : Result Z :=
  match input with
  | [v] =>
      if negb (Z.land v 0xf0 =? 0) then Err (InvalidValue "QualityOfServiceParameters.reserved_bits" v)
      else
        let packet_priority := Z.land v 0x0f in
        if 0x0d <? packet_priority then Err (InvalidValue "QualityOfServiceParameters.packet_priority" packet_priority)
        else Ok packet_priority
  | _ => Err (InvalidLength 1 (length input))
  end.

Definition sr_id_encode (v : Z) : Result (list Z) :=
  if (v =? 0) || (0x7f <? v) then Err (InvalidValue "SrId.value" v) else Ok [Z.land v 0x7f].
Definition sr_id_decode (input : list Z) : Result Z :=
  match input with
  | [v] =>
      if negb (Z.land v 0x80 =? 0) then Err (InvalidValue "SrId.reserved_bits" v)
      else if v =? 0 then Err (InvalidValue "SrId.value" 0)
      else Ok (Z.land v 0x7f)
  | _ => Err (InvalidLength 1 (length input))
  end.

Definition rn_pdit_encode (v : Z) : Result (list Z) :=
  if v =? 0 then Err (InvalidValue "RnPdit.value" 0) else Ok [v].
Definition rn_pdit_decode (input : list Z) : Result Z :=
  match input with
  | [v] => if v =? 0 then Err (InvalidValue "RnPdit.value" 0) else Ok v
  | _ => Err (InvalidLength 1 (length input))
  end.

Record Indicators := mkIndicators {
  packet_boundary_supported : bool; gre_segmentation_supported : bool; sdb_supported : bool;
  ccpd_mode : bool; data_ready : bool; handoff : bool
}.
#[export] Instance Indicators_eq_dec : EqDecision Indicators.
Proof. solve_decision. Defined.
Definition indicators_encode (v : Indicators) : list Z :=
  [Z.lor (Z.lor (Z.lor (Z.lor (Z.lor (Z.shiftl (Z.b2z (packet_boundary_supported v)) 6)
     (Z.shiftl (Z.b2z (gre_segmentation_supported v)) 5)) (Z.shiftl (Z.b2z (sdb_supported v)) 4))
     (Z.shiftl (Z.b2z (ccpd_mode v)) 3)) (Z.shiftl (Z.b2z (data_ready v)) 1)) (Z.b2z (handoff v))].
Definition indicators_decode (input : list Z) : Result Indicators :=
  match input with
  | [v] =>
      if negb (Z.land v 0x84 =? 0) then Err (InvalidValue "A9Indicators.reserved_bits" v)
      else Ok (mkIndicators (negb (Z.land v 0x40 =? 0)) (negb (Z.land v 0x20 =? 0)) (negb (Z.land v 0x10 =? 0))
                 (negb (Z.land v 0x08 =? 0)) (negb (Z.land v 0x02 =? 0)) (negb (Z.land v 0x01 =? 0)))
  | _ => Err (InvalidLength 1 (length input))
  end.

(** ** Records of octets *)
Record ServiceConfiguration := mkServiceConfiguration { fill_bits : Z; content : list Z }.
#[export] Instance ServiceConfiguration_eq_dec : EqDecision ServiceConfiguration.
Proof. solve_decision. Defined.
Definition service_configuration_encode (v : ServiceConfiguration) : Result (list Z) :=
  if 7 <? fill_bits v then Err (InvalidValue "Is2000ServiceConfigurationRecord.fill_bits" (fill_bits v))
  else if decide (content v = [] ∨ (255 < length (content v))%nat) then Err (InvalidLength 255 (length (content v)))
  else Ok ([(Z.of_nat (length (content v))) as_u8; Z.land (fill_bits v) 0x07] ++ content v).
Definition service_configuration_decode (input : list Z) : Result ServiceConfiguration :=
  match input with
  | octet_count :: fill :: content =>
      if decide (length input ≠ Z.to_nat octet_count + 2)%nat then
        Err (InvalidLength (Z.to_nat octet_count + 2) (length input))
      else if negb (Z.land fill 0xf8 =? 0) then Err (InvalidValue "Is2000ServiceConfigurationRecord.reserved_bits" fill)
      else Ok (mkServiceConfiguration (Z.land fill 0x07) content)
  | _ => Err (InvalidLength 2 (length input))
  end.

(** The text is a string: its characters, and its octets by UTF-8.  [String::from_utf8] on printable ASCII returns the
    characters with those codes. *)
Record Version := mkVersion {
  ios_major_revision_level : Z; ios_minor_revision_level : Z; ios_point_release_level : Z;
  manufacturer_carrier_software_information : Text.chars
}.
#[export] Instance Version_eq_dec : EqDecision Version.
Proof. solve_decision. Defined.
Definition printable (l : list Z) : bool := forallb (Text.in_range 0x20 0x7e) l.
Definition software_version_encode (v : Version) : Result (list Z) :=
  if negb (printable (Text.as_bytes (manufacturer_carrier_software_information v))) then
    Err (InvalidValue "SoftwareVersion.manufacturer_carrier_software_information" 0)
  else Ok ([ios_major_revision_level v; ios_minor_revision_level v; ios_point_release_level v] ++
           Text.as_bytes (manufacturer_carrier_software_information v)).
Definition software_version_decode (input : list Z) : Result Version :=
  match input with
  | major :: minor :: point :: trailer =>
      if negb (printable trailer) then Err (InvalidValue "SoftwareVersion.manufacturer_carrier_software_information" 0)
      else Ok (mkVersion major minor point trailer)
  | _ => Err (InvalidLength 3 (length input))
  end.

Record UserPart := mkUserPart { data_burst_type : Z; application_data_message : list Z }.
#[export] Instance UserPart_eq_dec : EqDecision UserPart.
Proof. solve_decision. Defined.
Definition short_data_burst (application_data_message : list Z) : UserPart := mkUserPart 0x06 application_data_message.
Definition adds_user_part_encode (v : UserPart) : Result (list Z) :=
  if decide (application_data_message v = []) then Err (InvalidLength 1 0)
  else if negb (data_burst_type v =? 0x06) then Err (InvalidValue "AddsUserPart.data_burst_type" (data_burst_type v))
  else Ok (data_burst_type v :: application_data_message v).
Definition adds_user_part_decode (input : list Z) : Result UserPart :=
  match input with
  | [] => Err (InvalidLength 1 0)
  | first :: rest =>
      if negb (Z.land first 0xc0 =? 0) then Err (InvalidValue "AddsUserPart.reserved_bits" first)
      else
        let data_burst_type := Z.land first 0x3f in
        if negb (data_burst_type =? 0x06) then Err (InvalidValue "AddsUserPart.data_burst_type" data_burst_type)
        else Ok (mkUserPart data_burst_type rest)
  end.

(** ** Mobile identities *)

(** The loop [index = 1; while index < digits.len()] over what follows the first digit: two digits in an octet, the
    first of them low, and a filler after an odd one. *)
Fixpoint pack_digits (digits : list Z) : list Z :=
  match digits with
  | low :: high :: digits => Z.lor (Z.shiftl high 4) low :: pack_digits digits
  | [low] => [Z.lor (Z.shiftl 0x0f 4) low]
  | [] => []
  end.

Definition meid_encode (meid : list Z) : list Z :=
  match meid ≫= (λ byte, [Z.shiftr byte 4; Z.land byte 0x0f]) with
  | d0 :: digits => Z.lor (Z.shiftl d0 4) 0x01 :: pack_digits digits
  | [] => []
  end.
(** [digits] are the digits stored so far, so that their number is [index]. *)
Fixpoint meid_digits (digits : list Z) (input : list Z) : Result (list Z) :=
  match input with
  | [] => Ok digits
  | byte :: input =>
      let low := Z.land byte 0x0f in
      let high := Z.shiftr byte 4 in
      let digits := if decide (length digits < 14)%nat then digits ++ [low] else digits in
      if decide (length digits < 14)%nat then meid_digits (digits ++ [high]) input
      else if negb (high =? 0x0f) then Err (InvalidValue "MobileIdentity.meid.fill" high)
      else meid_digits digits input
  end.
(** [chunks_exact(2)] *)
Fixpoint pair_digits (digits : list Z) : list Z :=
  match digits with
  | a :: b :: digits => Z.lor (Z.shiftl a 4) b :: pair_digits digits
  | _ => []
  end.
Definition meid_decode (input : list Z) : Result (list Z) :=
  match input with
  | [i0; i1; i2; i3; i4; i5; i6; i7] =>
      if negb (Z.land i0 0x08 =? 0) || negb (Z.land i0 0x07 =? 0x01) then
        Err (InvalidValue "MobileIdentity.meid.header" i0)
      else if negb (Z.shiftr i7 4 =? 0x0f) then Err (InvalidValue "MobileIdentity.meid.fill" (Z.shiftr i7 4))
      else
        digits ←r meid_digits [Z.shiftr i0 4] [i1; i2; i3; i4; i5; i6; i7];
        Ok (pair_digits digits)
  | _ => Err (InvalidLength 8 (length input))
  end.

(** [c.to_digit(10)] *)
Definition to_digit (c : Z) : option Z := if Text.is_ascii_digit c then Some (c - 48) else None.
Definition encode_imsi (imsi : Text.chars) : Result (list Z) :=
  match mapM to_digit imsi with
  | None => Err (UnknownInformationElement 0xff)
  | Some digits =>
      if decide (10 ≤ length digits ∧ length digits ≤ 15)%nat then
        match digits with
        | d0 :: rest =>
            Ok (Z.lor (Z.lor (Z.shiftl d0 4) (Z.shiftl (Z.b2z (Nat.odd (length digits))) 3)) 6 :: pack_digits rest)
        | [] => Ok []
        end
      else Err (InvalidLength 10 (length digits))
  end.

Fixpoint imsi_digits (odd : bool) (digits : Text.chars) (rest : list Z) : Result Text.chars :=
  match rest with
  | [] => Ok digits
  | byte :: rest =>
      let low := Z.land byte 0x0f in
      let high := Z.shiftr byte 4 in
      if 9 <? low then Err (InvalidValue "MobileIdentity.imsi.low_digit" low)
      else
        let digits := digits ++ [48 + low] in
        if high =? 0x0f then
          if bool_decide (rest = []) && negb odd then imsi_digits odd digits rest
          else Err (InvalidValue "MobileIdentity.imsi.filler" high)
        else if 9 <? high then Err (InvalidValue "MobileIdentity.imsi.high_digit" high)
        else imsi_digits odd (digits ++ [48 + high]) rest
  end.
Definition decode_imsi (first : Z) (rest : list Z) : Result Text.chars :=
  let odd := negb (Z.land first 0x08 =? 0) in
  let first_digit := Z.land (Z.shiftr first 4) 0x0f in
  if 9 <? first_digit then Err (InvalidValue "MobileIdentity.imsi.first_digit" first_digit)
  else imsi_digits odd [48 + first_digit] rest.

Inductive Identity := Imsi (imsi : Text.chars) | Esn (esn : Z) | Meid (meid : list Z).
#[export] Instance Identity_eq_dec : EqDecision Identity.
Proof. solve_decision. Defined.
Definition identity_encode (v : Identity) : Result (list Z) :=
  match v with
  | Imsi imsi => encode_imsi imsi
  | Esn esn => Ok (0x05 :: to_be32 esn)
  | Meid meid => Ok (meid_encode meid)
  end.
Definition identity_decode (input : list Z) : Result Identity :=
  match input with
  | [] => Err (InvalidLength 1 0)
  | first :: rest =>
      let k := Z.land first 0x07 in
      if k =? 0x06 then imsi ←r decode_imsi first rest; Ok (Imsi imsi)
      else if k =? 0x05 then
        match input with
        | [_; a; b; c; d] => Ok (Esn (from_be32 a b c d))
        | _ => Err (InvalidLength 5 (length input))
        end
      else if k =? 0x01 then meid ←r meid_decode input; Ok (Meid meid)
      else Err (UnknownInformationElement k)
  end.

(** ** Causes *)
Definition CAUSE_A8_CONNECTION_COMPLETE : Z := 0x13.
Definition CAUSE_A8_SESSION_ALREADY_ACTIVE : Z := 0x20.
Definition CAUSE_A8_PDSN_RELOCATION : Z := 0x32.
Definition CAUSE_A8_REGISTRATION_ACCEPTED : Z := 0x79.
Definition CAUSE_A8_REGISTRATION_ACCEPTED_NO_COMMIT : Z := 0x7a.
Definition CAUSE_RELEASE_NORMAL : Z := 0x10.
Definition CAUSE_RELEASE_PCF_NORMAL : Z := 0x14.
Definition CAUSE_RELEASE_SESSION_ALREADY_CLOSED : Z := 0x20.
Definition CAUSE_RELEASE_PPP_SESSION_CLOSED_BY_MS : Z := 0x77.
Definition CAUSE_BS_SERVICE_ACCEPTED : Z := 0x08.
Definition CAUSE_BS_SERVICE_REJECTED : Z := 0x11.
Definition CAUSE_VERSION_ACCEPTED : Z := 0x07.
Definition CAUSE_VERSION_ALREADY_CURRENT : Z := 0x20.

(** [match cause.0 { a | b | .. => Ok(()), _ => Err(InvalidValue { context, value }) }] *)
Definition ensure_cause (known : list Z) (context : string) (cause : Z) : Result unit :=
  if decide (cause ∈ known) then Ok tt else Err (InvalidValue context cause).
Definition ensure_connect_cause : Z → Result unit :=
  ensure_cause [CAUSE_A8_CONNECTION_COMPLETE; CAUSE_A8_SESSION_ALREADY_ACTIVE; CAUSE_A8_PDSN_RELOCATION;
                CAUSE_A8_REGISTRATION_ACCEPTED; CAUSE_A8_REGISTRATION_ACCEPTED_NO_COMMIT] "ConnectA8.cause".
Definition ensure_release_cause (cause : Z) (context : string) : Result unit :=
  ensure_cause [CAUSE_RELEASE_NORMAL; CAUSE_RELEASE_PCF_NORMAL; CAUSE_RELEASE_SESSION_ALREADY_CLOSED;
                CAUSE_RELEASE_PPP_SESSION_CLOSED_BY_MS] context cause.
Definition ensure_bs_service_response_cause : Z → Result unit :=
  ensure_cause [CAUSE_BS_SERVICE_ACCEPTED; CAUSE_BS_SERVICE_REJECTED] "BsServiceResponse.cause".
Definition ensure_version_info_cause : Z → Result unit :=
  ensure_cause [CAUSE_VERSION_ACCEPTED; CAUSE_VERSION_ALREADY_CURRENT] "VersionInfo.cause".
Definition ensure_update_a8_cause : Z → Result unit := ensure_cause [0x17; 0x1b; 0x1c; 0x1e] "UpdateA8.cause".
Definition ensure_update_a8_ack_cause : Z → Result unit := ensure_cause [0x13; 0x36] "UpdateA8Ack.cause".
Definition ensure_short_data_ack_cause : Z → Result unit := ensure_cause [0x13; 0x16; 0x17; 0x18] "ShortDataAck.cause".

End A9Elements.
