(* ===== verification/A9Typed.v ===== *)
(** * A9 signaling: typed messages ([cdma-a9/src/typed.rs], second part)

    One module per message, as the source has one struct per message with its [encode] and [decode].  An encoder makes
    the list of elements and encodes it.  A decoder runs over the elements of the raw message and stores each in its slot;
    the arms of its [match] are [arm].  The slots of all messages are one record, [Slots]: the fields of the struct under
    construction together with the local variables that hold its required fields until the end. *)
From S2P Require Import Prelude Octets Text A9Codec A9Elements.
Import A9 A9Elements.

Module A9Typed.

(** ** Shared steps *)
Definition decode_typed_message (input : list Z) (expected : MessageType) : Result (list InformationElement) :=
  m ←r decode input;
  if decide (message_type m ≠ expected) then Err (UnknownMessageType (message_type_u8 (message_type m)))
  else Ok (elements m).
(** [encode(&Message::new(message_type, elements)?)] *)
Definition encode_typed (t : MessageType) (es : list InformationElement) : Result (list Z) :=
  m ←r new_message t es; encode m.

(** [push_optional], and [elements.push(..)] for a required element *)
Definition optional (i : ElementId) (v : option (list Z)) : list InformationElement :=
  match v with Some v => [mkElement i v] | None => [] end.
Definition one (i : ElementId) (v : list Z) : list InformationElement := [mkElement i v].
(** [v.map(|v| v.encode()).transpose()?] *)
Definition transpose {A} (enc : A → Result (list Z)) (v : option A) : Result (option (list Z)) :=
  match v with Some v => w ←r enc v; Ok (Some w) | None => Ok None end.
(** [if let Some(v) = v { check(v)? }] *)
Definition if_some {A} (check : A → Result unit) (v : option A) : Result unit :=
  match v with Some v => check v | None => Ok tt end.

Definition ensure_mobile_identity_fields (imsi : option Text.chars) (esn : option Z) (meid : option (list Z)) : Result unit :=
  if (bool_decide (is_Some esn) || bool_decide (is_Some meid)) && bool_decide (imsi = None) then
    Err (InvalidValue "MobileIdentity.sequence" (if bool_decide (is_Some esn) then 0x05 else 0x01))
  else Ok tt.
Definition push_mobile_identities (imsi : option Text.chars) (esn : option Z) (meid : option (list Z))
    : Result (list InformationElement) :=
  _ ←r ensure_mobile_identity_fields imsi esn meid;
  a ←r transpose (λ v, identity_encode (Imsi v)) imsi;
  b ←r transpose (λ v, identity_encode (Esn v)) esn;
  c ←r transpose (λ v, identity_encode (Meid v)) meid;
  Ok (optional MobileIdentity a ++ optional MobileIdentity b ++ optional MobileIdentity c).

(** ** The slots of the decoders *)
Record Slots := mkSlots {
  s_call_connection_reference : option CallReference; s_correlation_id : option (list Z);
  s_imsi : option Text.chars; s_esn : option Z; s_meid : option (list Z); s_con_ref : option Z;
  s_quality_of_service_parameters : option Z; s_bsc_id : option (list Z); s_a8_traffic_id : option TrafficId;
  s_service_option : option Z; s_a9_indicators : option Indicators; s_user_zone_id : option Z;
  s_cause : option Z; s_pdsn_ip_address : option (list Z); s_data_count : option Z; s_sr_id : option Z;
  s_software_version : option Version; s_service_configuration_record : option ServiceConfiguration;
  s_rn_pdit : option Z; s_anchor_pdsn_address : option (list Z); s_anchor_pp_address : option (list Z);
  s_adds_user_part : option UserPart
}.
Definition empty_slots : Slots :=
  mkSlots None None None None None None None None None None None None None None None None None None None None None None.
Definition set_call_connection_reference (v : option CallReference) (s : Slots) : Slots :=
  mkSlots v (s_correlation_id s) (s_imsi s) (s_esn s) (s_meid s) (s_con_ref s) (s_quality_of_service_parameters s)
    (s_bsc_id s) (s_a8_traffic_id s) (s_service_option s) (s_a9_indicators s) (s_user_zone_id s) (s_cause s)
    (s_pdsn_ip_address s) (s_data_count s) (s_sr_id s) (s_software_version s) (s_service_configuration_record s)
    (s_rn_pdit s) (s_anchor_pdsn_address s) (s_anchor_pp_address s) (s_adds_user_part s).
Definition set_correlation_id (v : option (list Z)) (s : Slots) : Slots :=
  mkSlots (s_call_connection_reference s) v (s_imsi s) (s_esn s) (s_meid s) (s_con_ref s)
    (s_quality_of_service_parameters s) (s_bsc_id s) (s_a8_traffic_id s) (s_service_option s)
    (s_a9_indicators s) (s_user_zone_id s) (s_cause s) (s_pdsn_ip_address s) (s_data_count s) (s_sr_id s)
    (s_software_version s) (s_service_configuration_record s) (s_rn_pdit s) (s_anchor_pdsn_address s)
    (s_anchor_pp_address s) (s_adds_user_part s).
Definition set_imsi (v : option Text.chars) (s : Slots) : Slots :=
  mkSlots (s_call_connection_reference s) (s_correlation_id s) v (s_esn s) (s_meid s) (s_con_ref s)
    (s_quality_of_service_parameters s) (s_bsc_id s) (s_a8_traffic_id s) (s_service_option s)
    (s_a9_indicators s) (s_user_zone_id s) (s_cause s) (s_pdsn_ip_address s) (s_data_count s) (s_sr_id s)
    (s_software_version s) (s_service_configuration_record s) (s_rn_pdit s) (s_anchor_pdsn_address s)
    (s_anchor_pp_address s) (s_adds_user_part s).
Definition set_esn (v : option Z) (s : Slots) : Slots :=
  mkSlots (s_call_connection_reference s) (s_correlation_id s) (s_imsi s) v (s_meid s) (s_con_ref s)
    (s_quality_of_service_parameters s) (s_bsc_id s) (s_a8_traffic_id s) (s_service_option s)
    (s_a9_indicators s) (s_user_zone_id s) (s_cause s) (s_pdsn_ip_address s) (s_data_count s) (s_sr_id s)
    (s_software_version s) (s_service_configuration_record s) (s_rn_pdit s) (s_anchor_pdsn_address s)
    (s_anchor_pp_address s) (s_adds_user_part s).
Definition set_meid (v : option (list Z)) (s : Slots) : Slots :=
  mkSlots (s_call_connection_reference s) (s_correlation_id s) (s_imsi s) (s_esn s) v (s_con_ref s)
    (s_quality_of_service_parameters s) (s_bsc_id s) (s_a8_traffic_id s) (s_service_option s)
    (s_a9_indicators s) (s_user_zone_id s) (s_cause s) (s_pdsn_ip_address s) (s_data_count s) (s_sr_id s)
    (s_software_version s) (s_service_configuration_record s) (s_rn_pdit s) (s_anchor_pdsn_address s)
    (s_anchor_pp_address s) (s_adds_user_part s).
Definition set_con_ref (v : option Z) (s : Slots) : Slots :=
  mkSlots (s_call_connection_reference s) (s_correlation_id s) (s_imsi s) (s_esn s) (s_meid s) v
    (s_quality_of_service_parameters s) (s_bsc_id s) (s_a8_traffic_id s) (s_service_option s)
    (s_a9_indicators s) (s_user_zone_id s) (s_cause s) (s_pdsn_ip_address s) (s_data_count s) (s_sr_id s)
    (s_software_version s) (s_service_configuration_record s) (s_rn_pdit s) (s_anchor_pdsn_address s)
    (s_anchor_pp_address s) (s_adds_user_part s).
Definition set_quality_of_service_parameters (v : option Z) (s : Slots) : Slots :=
  mkSlots (s_call_connection_reference s) (s_correlation_id s) (s_imsi s) (s_esn s) (s_meid s) (s_con_ref s) v
    (s_bsc_id s) (s_a8_traffic_id s) (s_service_option s) (s_a9_indicators s) (s_user_zone_id s) (s_cause s)
    (s_pdsn_ip_address s) (s_data_count s) (s_sr_id s) (s_software_version s) (s_service_configuration_record s)
    (s_rn_pdit s) (s_anchor_pdsn_address s) (s_anchor_pp_address s) (s_adds_user_part s).
Definition set_bsc_id (v : option (list Z)) (s : Slots) : Slots :=
  mkSlots (s_call_connection_reference s) (s_correlation_id s) (s_imsi s) (s_esn s) (s_meid s) (s_con_ref s)
    (s_quality_of_service_parameters s) v (s_a8_traffic_id s) (s_service_option s) (s_a9_indicators s)
    (s_user_zone_id s) (s_cause s) (s_pdsn_ip_address s) (s_data_count s) (s_sr_id s) (s_software_version s)
    (s_service_configuration_record s) (s_rn_pdit s) (s_anchor_pdsn_address s) (s_anchor_pp_address s)
    (s_adds_user_part s).
Definition set_a8_traffic_id (v : option TrafficId) (s : Slots) : Slots :=
  mkSlots (s_call_connection_reference s) (s_correlation_id s) (s_imsi s) (s_esn s) (s_meid s) (s_con_ref s)
    (s_quality_of_service_parameters s) (s_bsc_id s) v (s_service_option s) (s_a9_indicators s)
    (s_user_zone_id s) (s_cause s) (s_pdsn_ip_address s) (s_data_count s) (s_sr_id s) (s_software_version s)
    (s_service_configuration_record s) (s_rn_pdit s) (s_anchor_pdsn_address s) (s_anchor_pp_address s)
    (s_adds_user_part s).
Definition set_service_option (v : option Z) (s : Slots) : Slots :=
  mkSlots (s_call_connection_reference s) (s_correlation_id s) (s_imsi s) (s_esn s) (s_meid s) (s_con_ref s)
    (s_quality_of_service_parameters s) (s_bsc_id s) (s_a8_traffic_id s) v (s_a9_indicators s)
    (s_user_zone_id s) (s_cause s) (s_pdsn_ip_address s) (s_data_count s) (s_sr_id s) (s_software_version s)
    (s_service_configuration_record s) (s_rn_pdit s) (s_anchor_pdsn_address s) (s_anchor_pp_address s)
    (s_adds_user_part s).
Definition set_a9_indicators (v : option Indicators) (s : Slots) : Slots :=
  mkSlots (s_call_connection_reference s) (s_correlation_id s) (s_imsi s) (s_esn s) (s_meid s) (s_con_ref s)
    (s_quality_of_service_parameters s) (s_bsc_id s) (s_a8_traffic_id s) (s_service_option s) v
    (s_user_zone_id s) (s_cause s) (s_pdsn_ip_address s) (s_data_count s) (s_sr_id s) (s_software_version s)
    (s_service_configuration_record s) (s_rn_pdit s) (s_anchor_pdsn_address s) (s_anchor_pp_address s)
    (s_adds_user_part s).
Definition set_user_zone_id (v : option Z) (s : Slots) : Slots :=
  mkSlots (s_call_connection_reference s) (s_correlation_id s) (s_imsi s) (s_esn s) (s_meid s) (s_con_ref s)
    (s_quality_of_service_parameters s) (s_bsc_id s) (s_a8_traffic_id s) (s_service_option s)
    (s_a9_indicators s) v (s_cause s) (s_pdsn_ip_address s) (s_data_count s) (s_sr_id s) (s_software_version s)
    (s_service_configuration_record s) (s_rn_pdit s) (s_anchor_pdsn_address s) (s_anchor_pp_address s)
    (s_adds_user_part s).
Definition set_cause (v : option Z) (s : Slots) : Slots :=
  mkSlots (s_call_connection_reference s) (s_correlation_id s) (s_imsi s) (s_esn s) (s_meid s) (s_con_ref s)
    (s_quality_of_service_parameters s) (s_bsc_id s) (s_a8_traffic_id s) (s_service_option s)
    (s_a9_indicators s) (s_user_zone_id s) v (s_pdsn_ip_address s) (s_data_count s) (s_sr_id s)
    (s_software_version s) (s_service_configuration_record s) (s_rn_pdit s) (s_anchor_pdsn_address s)
    (s_anchor_pp_address s) (s_adds_user_part s).
Definition set_pdsn_ip_address (v : option (list Z)) (s : Slots) : Slots :=
  mkSlots (s_call_connection_reference s) (s_correlation_id s) (s_imsi s) (s_esn s) (s_meid s) (s_con_ref s)
    (s_quality_of_service_parameters s) (s_bsc_id s) (s_a8_traffic_id s) (s_service_option s)
    (s_a9_indicators s) (s_user_zone_id s) (s_cause s) v (s_data_count s) (s_sr_id s) (s_software_version s)
    (s_service_configuration_record s) (s_rn_pdit s) (s_anchor_pdsn_address s) (s_anchor_pp_address s)
    (s_adds_user_part s).
Definition set_data_count (v : option Z) (s : Slots) : Slots :=
  mkSlots (s_call_connection_reference s) (s_correlation_id s) (s_imsi s) (s_esn s) (s_meid s) (s_con_ref s)
    (s_quality_of_service_parameters s) (s_bsc_id s) (s_a8_traffic_id s) (s_service_option s)
    (s_a9_indicators s) (s_user_zone_id s) (s_cause s) (s_pdsn_ip_address s) v (s_sr_id s)
    (s_software_version s) (s_service_configuration_record s) (s_rn_pdit s) (s_anchor_pdsn_address s)
    (s_anchor_pp_address s) (s_adds_user_part s).
Definition set_sr_id (v : option Z) (s : Slots) : Slots :=
  mkSlots (s_call_connection_reference s) (s_correlation_id s) (s_imsi s) (s_esn s) (s_meid s) (s_con_ref s)
    (s_quality_of_service_parameters s) (s_bsc_id s) (s_a8_traffic_id s) (s_service_option s)
    (s_a9_indicators s) (s_user_zone_id s) (s_cause s) (s_pdsn_ip_address s) (s_data_count s) v
    (s_software_version s) (s_service_configuration_record s) (s_rn_pdit s) (s_anchor_pdsn_address s)
    (s_anchor_pp_address s) (s_adds_user_part s).
Definition set_software_version (v : option Version) (s : Slots) : Slots :=
  mkSlots (s_call_connection_reference s) (s_correlation_id s) (s_imsi s) (s_esn s) (s_meid s) (s_con_ref s)
    (s_quality_of_service_parameters s) (s_bsc_id s) (s_a8_traffic_id s) (s_service_option s)
    (s_a9_indicators s) (s_user_zone_id s) (s_cause s) (s_pdsn_ip_address s) (s_data_count s) (s_sr_id s) v
    (s_service_configuration_record s) (s_rn_pdit s) (s_anchor_pdsn_address s) (s_anchor_pp_address s)
    (s_adds_user_part s).
Definition set_service_configuration_record (v : option ServiceConfiguration) (s : Slots) : Slots :=
  mkSlots (s_call_connection_reference s) (s_correlation_id s) (s_imsi s) (s_esn s) (s_meid s) (s_con_ref s)
    (s_quality_of_service_parameters s) (s_bsc_id s) (s_a8_traffic_id s) (s_service_option s)
    (s_a9_indicators s) (s_user_zone_id s) (s_cause s) (s_pdsn_ip_address s) (s_data_count s) (s_sr_id s)
    (s_software_version s) v (s_rn_pdit s) (s_anchor_pdsn_address s) (s_anchor_pp_address s)
    (s_adds_user_part s).
Definition set_rn_pdit (v : option Z) (s : Slots) : Slots :=
  mkSlots (s_call_connection_reference s) (s_correlation_id s) (s_imsi s) (s_esn s) (s_meid s) (s_con_ref s)
    (s_quality_of_service_parameters s) (s_bsc_id s) (s_a8_traffic_id s) (s_service_option s)
    (s_a9_indicators s) (s_user_zone_id s) (s_cause s) (s_pdsn_ip_address s) (s_data_count s) (s_sr_id s)
    (s_software_version s) (s_service_configuration_record s) v (s_anchor_pdsn_address s)
    (s_anchor_pp_address s) (s_adds_user_part s).
Definition set_anchor_pdsn_address (v : option (list Z)) (s : Slots) : Slots :=
  mkSlots (s_call_connection_reference s) (s_correlation_id s) (s_imsi s) (s_esn s) (s_meid s) (s_con_ref s)
    (s_quality_of_service_parameters s) (s_bsc_id s) (s_a8_traffic_id s) (s_service_option s)
    (s_a9_indicators s) (s_user_zone_id s) (s_cause s) (s_pdsn_ip_address s) (s_data_count s) (s_sr_id s)
    (s_software_version s) (s_service_configuration_record s) (s_rn_pdit s) v (s_anchor_pp_address s)
    (s_adds_user_part s).
Definition set_anchor_pp_address (v : option (list Z)) (s : Slots) : Slots :=
  mkSlots (s_call_connection_reference s) (s_correlation_id s) (s_imsi s) (s_esn s) (s_meid s) (s_con_ref s)
    (s_quality_of_service_parameters s) (s_bsc_id s) (s_a8_traffic_id s) (s_service_option s)
    (s_a9_indicators s) (s_user_zone_id s) (s_cause s) (s_pdsn_ip_address s) (s_data_count s) (s_sr_id s)
    (s_software_version s) (s_service_configuration_record s) (s_rn_pdit s) (s_anchor_pdsn_address s) v
    (s_adds_user_part s).
Definition set_adds_user_part (v : option UserPart) (s : Slots) : Slots :=
  mkSlots (s_call_connection_reference s) (s_correlation_id s) (s_imsi s) (s_esn s) (s_meid s) (s_con_ref s)
    (s_quality_of_service_parameters s) (s_bsc_id s) (s_a8_traffic_id s) (s_service_option s)
    (s_a9_indicators s) (s_user_zone_id s) (s_cause s) (s_pdsn_ip_address s) (s_data_count s) (s_sr_id s)
    (s_software_version s) (s_service_configuration_record s) (s_rn_pdit s) (s_anchor_pdsn_address s)
    (s_anchor_pp_address s) v.

(** [set_optional_field(&mut slot, T::decode(&element.value)?, element.id)?] *)
Definition set_optional_field {A} (get : Slots → option A) (set : option A → Slots → Slots) (dec : list Z → Result A)
    (e : InformationElement) (s : Slots) : Result Slots :=
  v ←r dec (value e);
  match get s with
  | Some _ => Err (DuplicateInformationElement (element_id_u8 (id e)))
  | None => Ok (set (Some v) s)
  end.
(** [replace] has stored the new value when the duplicate is reported; the error ends the decoder. *)
Definition apply_mobile_identity (e : InformationElement) (s : Slots) : Result Slots :=
  v ←r identity_decode (value e);
  match v with
  | Imsi imsi =>
      match s_imsi s with
      | Some _ => Err (DuplicateInformationElement (element_id_u8 MobileIdentity))
      | None => Ok (set_imsi (Some imsi) s)
      end
  | Esn esn =>
      if decide (s_imsi s = None) then Err (InvalidValue "MobileIdentity.sequence" esn)
      else
        match s_esn s with
        | Some _ => Err (DuplicateInformationElement (element_id_u8 MobileIdentity))
        | None => Ok (set_esn (Some esn) s)
        end
  | Meid meid =>
      if decide (s_imsi s = None) then Err (InvalidValue "MobileIdentity.sequence" 0x01)
      else
        match s_meid s with
        | Some _ => Err (DuplicateInformationElement (element_id_u8 MobileIdentity))
        | None => Ok (set_meid (Some meid) s)
        end
  end.
Definition unexpected (t : MessageType) (i : ElementId) : Result Slots :=
  Err (UnexpectedInformationElement t (element_id_u8 i)).
(** [slot.ok_or(Error::MissingRequiredInformationElement(id as u8))?] *)
Definition required {A} (i : ElementId) (slot : option A) : Result A :=
  match slot with Some v => Ok v | None => Err (MissingRequiredInformationElement (element_id_u8 i)) end.

(** [for element in message.elements { match element.id { .. } }] *)
Fixpoint for_elements (arm : InformationElement → Slots → Result Slots) (es : list InformationElement) (s : Slots)
    : Result Slots :=
  match es with
  | [] => Ok s
  | e :: es => s ←r arm e s; for_elements arm es s
  end.

Definition arm_call_connection_reference := set_optional_field s_call_connection_reference set_call_connection_reference call_connection_reference_decode.
Definition arm_correlation_id := set_optional_field s_correlation_id set_correlation_id correlation_id_decode.
Definition arm_con_ref := set_optional_field s_con_ref set_con_ref con_ref_decode.
Definition arm_quality_of_service_parameters := set_optional_field s_quality_of_service_parameters set_quality_of_service_parameters qos_decode.
Definition arm_bsc_id := set_optional_field s_bsc_id set_bsc_id bsc_id_decode.
Definition arm_a8_traffic_id := set_optional_field s_a8_traffic_id set_a8_traffic_id traffic_decode.
Definition arm_service_option := set_optional_field s_service_option set_service_option service_option_decode.
Definition arm_a9_indicators := set_optional_field s_a9_indicators set_a9_indicators indicators_decode.
Definition arm_user_zone_id := set_optional_field s_user_zone_id set_user_zone_id user_zone_id_decode.
Definition arm_cause := set_optional_field s_cause set_cause cause_decode.
Definition arm_pdsn_ip_address := set_optional_field s_pdsn_ip_address set_pdsn_ip_address pdsn_ip_address_decode.
Definition arm_data_count := set_optional_field s_data_count set_data_count data_count_decode.
Definition arm_sr_id := set_optional_field s_sr_id set_sr_id sr_id_decode.
Definition arm_software_version := set_optional_field s_software_version set_software_version software_version_decode.
Definition arm_service_configuration_record := set_optional_field s_service_configuration_record set_service_configuration_record service_configuration_decode.
Definition arm_rn_pdit := set_optional_field s_rn_pdit set_rn_pdit rn_pdit_decode.
Definition arm_anchor_pdsn_address := set_optional_field s_anchor_pdsn_address set_anchor_pdsn_address anchor_pdsn_address_decode.
Definition arm_anchor_pp_address := set_optional_field s_anchor_pp_address set_anchor_pp_address anchor_pp_address_decode.
Definition arm_adds_user_part := set_optional_field s_adds_user_part set_adds_user_part adds_user_part_decode.

(** ** The messages *)
Module SetupA8Message.
Record t := mk {
  call_connection_reference : option CallReference; correlation_id : option (list Z); imsi : option Text.chars;
  esn : option Z; meid : option (list Z); con_ref : Z; quality_of_service_parameters : option Z;
  bsc_id : list Z; a8_traffic_id : TrafficId; service_option : Z; a9_indicators : Indicators;
  user_zone_id : option Z
}.
#[export] Instance t_eq_dec : EqDecision t.
Proof. solve_decision. Defined.
Definition encode (m : t) : Result (list Z) :=
  identities ←r push_mobile_identities (imsi m) (esn m) (meid m);
  quality_of_service_parameters_octets ←r transpose qos_encode (quality_of_service_parameters m);
  bsc_id_octets ←r bsc_id_encode (bsc_id m);
  encode_typed SetupA8 (
    optional CallConnectionReference (call_connection_reference_encode <$> call_connection_reference m) ++
    optional CorrelationId (correlation_id_encode <$> correlation_id m) ++ identities ++
    one ConRef (con_ref_encode (con_ref m)) ++
    optional QualityOfServiceParameters quality_of_service_parameters_octets ++ one BscId bsc_id_octets ++
    one A8TrafficId (traffic_encode (a8_traffic_id m)) ++
    one ServiceOption (service_option_encode (service_option m)) ++
    one A9Indicators (indicators_encode (a9_indicators m)) ++
    optional UserZoneId (user_zone_id_encode <$> user_zone_id m)).
Definition arm (e : InformationElement) : Slots → Result Slots :=
  match id e with
  | CallConnectionReference => arm_call_connection_reference e
  | CorrelationId => arm_correlation_id e
  | MobileIdentity => apply_mobile_identity e
  | ConRef => arm_con_ref e
  | QualityOfServiceParameters => arm_quality_of_service_parameters e
  | BscId => arm_bsc_id e
  | A8TrafficId => arm_a8_traffic_id e
  | ServiceOption => arm_service_option e
  | A9Indicators => arm_a9_indicators e
  | UserZoneId => arm_user_zone_id e
  | i => λ _, unexpected SetupA8 i
  end.
Definition decode (input : list Z) : Result t :=
  es ←r decode_typed_message input SetupA8;
  s ←r for_elements arm es empty_slots;
  con_ref ←r required ConRef (s_con_ref s);
  bsc_id ←r required BscId (s_bsc_id s);
  a8_traffic_id ←r required A8TrafficId (s_a8_traffic_id s);
  service_option ←r required ServiceOption (s_service_option s);
  a9_indicators ←r required A9Indicators (s_a9_indicators s);
  Ok (mk (s_call_connection_reference s) (s_correlation_id s) (s_imsi s) (s_esn s) (s_meid s) con_ref
          (s_quality_of_service_parameters s) bsc_id a8_traffic_id service_option a9_indicators
          (s_user_zone_id s)).
End SetupA8Message.

Module ConnectA8Message.
Record t := mk {
  call_connection_reference : option CallReference; correlation_id : option (list Z); imsi : option Text.chars;
  esn : option Z; meid : option (list Z); con_ref : Z; a8_traffic_id : TrafficId; cause : Z;
  pdsn_ip_address : option (list Z)
}.
#[export] Instance t_eq_dec : EqDecision t.
Proof. solve_decision. Defined.
Definition encode (m : t) : Result (list Z) :=
  _ ←r ensure_connect_cause (cause m);
  identities ←r push_mobile_identities (imsi m) (esn m) (meid m);
  encode_typed ConnectA8 (
    optional CallConnectionReference (call_connection_reference_encode <$> call_connection_reference m) ++
    optional CorrelationId (correlation_id_encode <$> correlation_id m) ++ identities ++
    one ConRef (con_ref_encode (con_ref m)) ++ one A8TrafficId (traffic_encode (a8_traffic_id m)) ++
    one Cause (cause_encode (cause m)) ++ optional PdsnIpAddress (pdsn_ip_address_encode <$> pdsn_ip_address m)).
Definition arm (e : InformationElement) : Slots → Result Slots :=
  match id e with
  | CallConnectionReference => arm_call_connection_reference e
  | CorrelationId => arm_correlation_id e
  | MobileIdentity => apply_mobile_identity e
  | ConRef => arm_con_ref e
  | A8TrafficId => arm_a8_traffic_id e
  | Cause => arm_cause e
  | PdsnIpAddress => arm_pdsn_ip_address e
  | i => λ _, unexpected ConnectA8 i
  end.
Definition decode (input : list Z) : Result t :=
  es ←r decode_typed_message input ConnectA8;
  s ←r for_elements arm es empty_slots;
  con_ref ←r required ConRef (s_con_ref s);
  a8_traffic_id ←r required A8TrafficId (s_a8_traffic_id s);
  cause ←r required Cause (s_cause s);
  _ ←r ensure_connect_cause cause;
  Ok (mk (s_call_connection_reference s) (s_correlation_id s) (s_imsi s) (s_esn s) (s_meid s) con_ref
          a8_traffic_id cause (s_pdsn_ip_address s)).
End ConnectA8Message.

Module DisconnectA8Message.
Record t := mk {
  call_connection_reference : option CallReference; correlation_id : option (list Z); imsi : option Text.chars;
  esn : option Z; meid : option (list Z); con_ref : Z; a8_traffic_id : TrafficId; cause : Z
}.
#[export] Instance t_eq_dec : EqDecision t.
Proof. solve_decision. Defined.
Definition encode (m : t) : Result (list Z) :=
  _ ←r ensure_release_cause (cause m) "DisconnectA8.cause";
  identities ←r push_mobile_identities (imsi m) (esn m) (meid m);
  encode_typed DisconnectA8 (
    optional CallConnectionReference (call_connection_reference_encode <$> call_connection_reference m) ++
    optional CorrelationId (correlation_id_encode <$> correlation_id m) ++ identities ++
    one ConRef (con_ref_encode (con_ref m)) ++ one A8TrafficId (traffic_encode (a8_traffic_id m)) ++
    one Cause (cause_encode (cause m))).
Definition arm (e : InformationElement) : Slots → Result Slots :=
  match id e with
  | CallConnectionReference => arm_call_connection_reference e
  | CorrelationId => arm_correlation_id e
  | MobileIdentity => apply_mobile_identity e
  | ConRef => arm_con_ref e
  | A8TrafficId => arm_a8_traffic_id e
  | Cause => arm_cause e
  | i => λ _, unexpected DisconnectA8 i
  end.
Definition decode (input : list Z) : Result t :=
  es ←r decode_typed_message input DisconnectA8;
  s ←r for_elements arm es empty_slots;
  con_ref ←r required ConRef (s_con_ref s);
  a8_traffic_id ←r required A8TrafficId (s_a8_traffic_id s);
  cause ←r required Cause (s_cause s);
  _ ←r ensure_release_cause cause "DisconnectA8.cause";
  Ok (mk (s_call_connection_reference s) (s_correlation_id s) (s_imsi s) (s_esn s) (s_meid s) con_ref
          a8_traffic_id cause).
End DisconnectA8Message.

Module ReleaseA8Message.
Record t := mk {
  call_connection_reference : option CallReference; correlation_id : option (list Z); imsi : option Text.chars;
  esn : option Z; meid : option (list Z); con_ref : Z; a8_traffic_id : TrafficId; cause : Z
}.
#[export] Instance t_eq_dec : EqDecision t.
Proof. solve_decision. Defined.
Definition encode (m : t) : Result (list Z) :=
  _ ←r ensure_release_cause (cause m) "ReleaseA8.cause";
  identities ←r push_mobile_identities (imsi m) (esn m) (meid m);
  encode_typed ReleaseA8 (
    optional CallConnectionReference (call_connection_reference_encode <$> call_connection_reference m) ++
    optional CorrelationId (correlation_id_encode <$> correlation_id m) ++ identities ++
    one ConRef (con_ref_encode (con_ref m)) ++ one A8TrafficId (traffic_encode (a8_traffic_id m)) ++
    one Cause (cause_encode (cause m))).
Definition arm (e : InformationElement) : Slots → Result Slots :=
  match id e with
  | CallConnectionReference => arm_call_connection_reference e
  | CorrelationId => arm_correlation_id e
  | MobileIdentity => apply_mobile_identity e
  | ConRef => arm_con_ref e
  | A8TrafficId => arm_a8_traffic_id e
  | Cause => arm_cause e
  | i => λ _, unexpected ReleaseA8 i
  end.
Definition decode (input : list Z) : Result t :=
  es ←r decode_typed_message input ReleaseA8;
  s ←r for_elements arm es empty_slots;
  con_ref ←r required ConRef (s_con_ref s);
  a8_traffic_id ←r required A8TrafficId (s_a8_traffic_id s);
  cause ←r required Cause (s_cause s);
  _ ←r ensure_release_cause cause "ReleaseA8.cause";
  Ok (mk (s_call_connection_reference s) (s_correlation_id s) (s_imsi s) (s_esn s) (s_meid s) con_ref
          a8_traffic_id cause).
End ReleaseA8Message.

Module ReleaseA8CompleteMessage.
Record t := mk {
  call_connection_reference : option CallReference; correlation_id : option (list Z)
}.
#[export] Instance t_eq_dec : EqDecision t.
Proof. solve_decision. Defined.
Definition encode (m : t) : Result (list Z) :=
  encode_typed ReleaseA8Complete (
    optional CallConnectionReference (call_connection_reference_encode <$> call_connection_reference m) ++
    optional CorrelationId (correlation_id_encode <$> correlation_id m)).
Definition arm (e : InformationElement) : Slots → Result Slots :=
  match id e with
  | CallConnectionReference => arm_call_connection_reference e
  | CorrelationId => arm_correlation_id e
  | i => λ _, unexpected ReleaseA8Complete i
  end.
Definition decode (input : list Z) : Result t :=
  es ←r decode_typed_message input ReleaseA8Complete;
  s ←r for_elements arm es empty_slots;
  Ok (mk (s_call_connection_reference s) (s_correlation_id s)).
End ReleaseA8CompleteMessage.

Module BsServiceRequestMessage.
Record t := mk {
  correlation_id : option (list Z); imsi : option Text.chars; esn : option Z; meid : option (list Z);
  service_option : Z; data_count : Z
}.
#[export] Instance t_eq_dec : EqDecision t.
Proof. solve_decision. Defined.
Definition encode (m : t) : Result (list Z) :=
  identities ←r push_mobile_identities (imsi m) (esn m) (meid m);
  encode_typed BsServiceRequest (
    optional CorrelationId (correlation_id_encode <$> correlation_id m) ++ identities ++
    one ServiceOption (service_option_encode (service_option m)) ++
    one DataCount (data_count_encode (data_count m))).
Definition arm (e : InformationElement) : Slots → Result Slots :=
  match id e with
  | CorrelationId => arm_correlation_id e
  | MobileIdentity => apply_mobile_identity e
  | ServiceOption => arm_service_option e
  | DataCount => arm_data_count e
  | i => λ _, unexpected BsServiceRequest i
  end.
Definition decode (input : list Z) : Result t :=
  es ←r decode_typed_message input BsServiceRequest;
  s ←r for_elements arm es empty_slots;
  service_option ←r required ServiceOption (s_service_option s);
  data_count ←r required DataCount (s_data_count s);
  Ok (mk (s_correlation_id s) (s_imsi s) (s_esn s) (s_meid s) service_option data_count).
End BsServiceRequestMessage.

Module BsServiceResponseMessage.
Record t := mk {
  correlation_id : option (list Z); cause : option Z
}.
#[export] Instance t_eq_dec : EqDecision t.
Proof. solve_decision. Defined.
Definition encode (m : t) : Result (list Z) :=
  _ ←r if_some ensure_bs_service_response_cause (cause m);
  encode_typed BsServiceResponse (
    optional CorrelationId (correlation_id_encode <$> correlation_id m) ++
    optional Cause (cause_encode <$> cause m)).
Definition arm (e : InformationElement) : Slots → Result Slots :=
  match id e with
  | CorrelationId => arm_correlation_id e
  | Cause => arm_cause e
  | i => λ _, unexpected BsServiceResponse i
  end.
Definition decode (input : list Z) : Result t :=
  es ←r decode_typed_message input BsServiceResponse;
  s ←r for_elements arm es empty_slots;
  _ ←r if_some ensure_bs_service_response_cause (s_cause s);
  Ok (mk (s_correlation_id s) (s_cause s)).
End BsServiceResponseMessage.

Module AlConnectedMessage.
Record t := mk {
  call_connection_reference : option CallReference; correlation_id : option (list Z); a8_traffic_id : TrafficId;
  pdsn_ip_address : option (list Z)
}.
#[export] Instance t_eq_dec : EqDecision t.
Proof. solve_decision. Defined.
Definition encode (m : t) : Result (list Z) :=
  encode_typed AlConnected (
    optional CallConnectionReference (call_connection_reference_encode <$> call_connection_reference m) ++
    optional CorrelationId (correlation_id_encode <$> correlation_id m) ++
    one A8TrafficId (traffic_encode (a8_traffic_id m)) ++
    optional PdsnIpAddress (pdsn_ip_address_encode <$> pdsn_ip_address m)).
Definition arm (e : InformationElement) : Slots → Result Slots :=
  match id e with
  | CallConnectionReference => arm_call_connection_reference e
  | CorrelationId => arm_correlation_id e
  | A8TrafficId => arm_a8_traffic_id e
  | PdsnIpAddress => arm_pdsn_ip_address e
  | i => λ _, unexpected AlConnected i
  end.
Definition decode (input : list Z) : Result t :=
  es ←r decode_typed_message input AlConnected;
  s ←r for_elements arm es empty_slots;
  a8_traffic_id ←r required A8TrafficId (s_a8_traffic_id s);
  Ok (mk (s_call_connection_reference s) (s_correlation_id s) a8_traffic_id (s_pdsn_ip_address s)).
End AlConnectedMessage.

Module AlConnectedAckMessage.
Record t := mk {
  call_connection_reference : option CallReference; correlation_id : option (list Z)
}.
#[export] Instance t_eq_dec : EqDecision t.
Proof. solve_decision. Defined.
Definition encode (m : t) : Result (list Z) :=
  encode_typed AlConnectedAck (
    optional CallConnectionReference (call_connection_reference_encode <$> call_connection_reference m) ++
    optional CorrelationId (correlation_id_encode <$> correlation_id m)).
Definition arm (e : InformationElement) : Slots → Result Slots :=
  match id e with
  | CallConnectionReference => arm_call_connection_reference e
  | CorrelationId => arm_correlation_id e
  | i => λ _, unexpected AlConnectedAck i
  end.
Definition decode (input : list Z) : Result t :=
  es ←r decode_typed_message input AlConnectedAck;
  s ←r for_elements arm es empty_slots;
  Ok (mk (s_call_connection_reference s) (s_correlation_id s)).
End AlConnectedAckMessage.

Module AlDisconnectedMessage.
Record t := mk {
  call_connection_reference : option CallReference; correlation_id : option (list Z); a8_traffic_id : TrafficId
}.
#[export] Instance t_eq_dec : EqDecision t.
Proof. solve_decision. Defined.
Definition encode (m : t) : Result (list Z) :=
  encode_typed AlDisconnected (
    optional CallConnectionReference (call_connection_reference_encode <$> call_connection_reference m) ++
    optional CorrelationId (correlation_id_encode <$> correlation_id m) ++
    one A8TrafficId (traffic_encode (a8_traffic_id m))).
Definition arm (e : InformationElement) : Slots → Result Slots :=
  match id e with
  | CallConnectionReference => arm_call_connection_reference e
  | CorrelationId => arm_correlation_id e
  | A8TrafficId => arm_a8_traffic_id e
  | i => λ _, unexpected AlDisconnected i
  end.
Definition decode (input : list Z) : Result t :=
  es ←r decode_typed_message input AlDisconnected;
  s ←r for_elements arm es empty_slots;
  a8_traffic_id ←r required A8TrafficId (s_a8_traffic_id s);
  Ok (mk (s_call_connection_reference s) (s_correlation_id s) a8_traffic_id).
End AlDisconnectedMessage.

Module AlDisconnectedAckMessage.
Record t := mk {
  call_connection_reference : option CallReference; correlation_id : option (list Z)
}.
#[export] Instance t_eq_dec : EqDecision t.
Proof. solve_decision. Defined.
Definition encode (m : t) : Result (list Z) :=
  encode_typed AlDisconnectedAck (
    optional CallConnectionReference (call_connection_reference_encode <$> call_connection_reference m) ++
    optional CorrelationId (correlation_id_encode <$> correlation_id m)).
Definition arm (e : InformationElement) : Slots → Result Slots :=
  match id e with
  | CallConnectionReference => arm_call_connection_reference e
  | CorrelationId => arm_correlation_id e
  | i => λ _, unexpected AlDisconnectedAck i
  end.
Definition decode (input : list Z) : Result t :=
  es ←r decode_typed_message input AlDisconnectedAck;
  s ←r for_elements arm es empty_slots;
  Ok (mk (s_call_connection_reference s) (s_correlation_id s)).
End AlDisconnectedAckMessage.

Module VersionInfoMessage.
Record t := mk {
  correlation_id : option (list Z); cause : option Z; software_version : option Version
}.
#[export] Instance t_eq_dec : EqDecision t.
Proof. solve_decision. Defined.
Definition encode (m : t) : Result (list Z) :=
  _ ←r if_some ensure_version_info_cause (cause m);
  software_version_octets ←r transpose software_version_encode (software_version m);
  encode_typed VersionInfo (
    optional CorrelationId (correlation_id_encode <$> correlation_id m) ++
    optional Cause (cause_encode <$> cause m) ++ optional SoftwareVersion software_version_octets).
Definition arm (e : InformationElement) : Slots → Result Slots :=
  match id e with
  | CorrelationId => arm_correlation_id e
  | Cause => arm_cause e
  | SoftwareVersion => arm_software_version e
  | i => λ _, unexpected VersionInfo i
  end.
Definition decode (input : list Z) : Result t :=
  es ←r decode_typed_message input VersionInfo;
  s ←r for_elements arm es empty_slots;
  _ ←r if_some ensure_version_info_cause (s_cause s);
  Ok (mk (s_correlation_id s) (s_cause s) (s_software_version s)).
End VersionInfoMessage.

Module VersionInfoAckMessage.
Record t := mk {
  correlation_id : option (list Z); software_version : option Version
}.
#[export] Instance t_eq_dec : EqDecision t.
Proof. solve_decision. Defined.
Definition encode (m : t) : Result (list Z) :=
  software_version_octets ←r transpose software_version_encode (software_version m);
  encode_typed VersionInfoAck (
    optional CorrelationId (correlation_id_encode <$> correlation_id m) ++
    optional SoftwareVersion software_version_octets).
Definition arm (e : InformationElement) : Slots → Result Slots :=
  match id e with
  | CorrelationId => arm_correlation_id e
  | SoftwareVersion => arm_software_version e
  | i => λ _, unexpected VersionInfoAck i
  end.
Definition decode (input : list Z) : Result t :=
  es ←r decode_typed_message input VersionInfoAck;
  s ←r for_elements arm es empty_slots;
  Ok (mk (s_correlation_id s) (s_software_version s)).
End VersionInfoAckMessage.

Module UpdateA8Message.
Record t := mk {
  call_connection_reference : option CallReference; correlation_id : option (list Z); imsi : option Text.chars;
  esn : option Z; meid : option (list Z); service_configuration_record : option ServiceConfiguration;
  service_option : option Z; user_zone_id : option Z; quality_of_service_parameters : option Z;
  cause : option Z; rn_pdit : option Z; sr_id : option Z; a9_indicators : option Indicators;
  pdsn_ip_address : option (list Z); anchor_pdsn_address : option (list Z); anchor_pp_address : option (list Z)
}.
#[export] Instance t_eq_dec : EqDecision t.
Proof. solve_decision. Defined.
Definition encode (m : t) : Result (list Z) :=
  _ ←r if_some ensure_update_a8_cause (cause m);
  identities ←r push_mobile_identities (imsi m) (esn m) (meid m);
  service_configuration_record_octets ←r transpose service_configuration_encode (service_configuration_record m);
  quality_of_service_parameters_octets ←r transpose qos_encode (quality_of_service_parameters m);
  rn_pdit_octets ←r transpose rn_pdit_encode (rn_pdit m);
  sr_id_octets ←r transpose sr_id_encode (sr_id m);
  encode_typed UpdateA8 (
    optional CallConnectionReference (call_connection_reference_encode <$> call_connection_reference m) ++
    optional CorrelationId (correlation_id_encode <$> correlation_id m) ++ identities ++
    optional Is2000ServiceConfigurationRecord service_configuration_record_octets ++
    optional ServiceOption (service_option_encode <$> service_option m) ++
    optional UserZoneId (user_zone_id_encode <$> user_zone_id m) ++
    optional QualityOfServiceParameters quality_of_service_parameters_octets ++
    optional Cause (cause_encode <$> cause m) ++ optional RnPdit rn_pdit_octets ++ optional SrId sr_id_octets ++
    optional A9Indicators (indicators_encode <$> a9_indicators m) ++
    optional PdsnIpAddress (pdsn_ip_address_encode <$> pdsn_ip_address m) ++
    optional AnchorPdsnAddress (anchor_pdsn_address_encode <$> anchor_pdsn_address m) ++
    optional AnchorPpAddress (anchor_pp_address_encode <$> anchor_pp_address m)).
Definition arm (e : InformationElement) : Slots → Result Slots :=
  match id e with
  | CallConnectionReference => arm_call_connection_reference e
  | CorrelationId => arm_correlation_id e
  | MobileIdentity => apply_mobile_identity e
  | Is2000ServiceConfigurationRecord => arm_service_configuration_record e
  | ServiceOption => arm_service_option e
  | UserZoneId => arm_user_zone_id e
  | QualityOfServiceParameters => arm_quality_of_service_parameters e
  | Cause => arm_cause e
  | RnPdit => arm_rn_pdit e
  | SrId => arm_sr_id e
  | A9Indicators => arm_a9_indicators e
  | PdsnIpAddress => arm_pdsn_ip_address e
  | AnchorPdsnAddress => arm_anchor_pdsn_address e
  | AnchorPpAddress => arm_anchor_pp_address e
  | i => λ _, unexpected UpdateA8 i
  end.
Definition decode (input : list Z) : Result t :=
  es ←r decode_typed_message input UpdateA8;
  s ←r for_elements arm es empty_slots;
  _ ←r if_some ensure_update_a8_cause (s_cause s);
  Ok (mk (s_call_connection_reference s) (s_correlation_id s) (s_imsi s) (s_esn s) (s_meid s)
          (s_service_configuration_record s) (s_service_option s) (s_user_zone_id s)
          (s_quality_of_service_parameters s) (s_cause s) (s_rn_pdit s) (s_sr_id s) (s_a9_indicators s)
          (s_pdsn_ip_address s) (s_anchor_pdsn_address s) (s_anchor_pp_address s)).
End UpdateA8Message.

Module UpdateA8AckMessage.
Record t := mk {
  call_connection_reference : option CallReference; correlation_id : option (list Z); cause : option Z
}.
#[export] Instance t_eq_dec : EqDecision t.
Proof. solve_decision. Defined.
Definition encode (m : t) : Result (list Z) :=
  _ ←r if_some ensure_update_a8_ack_cause (cause m);
  encode_typed UpdateA8Ack (
    optional CallConnectionReference (call_connection_reference_encode <$> call_connection_reference m) ++
    optional CorrelationId (correlation_id_encode <$> correlation_id m) ++
    optional Cause (cause_encode <$> cause m)).
Definition arm (e : InformationElement) : Slots → Result Slots :=
  match id e with
  | CallConnectionReference => arm_call_connection_reference e
  | CorrelationId => arm_correlation_id e
  | Cause => arm_cause e
  | i => λ _, unexpected UpdateA8Ack i
  end.
Definition decode (input : list Z) : Result t :=
  es ←r decode_typed_message input UpdateA8Ack;
  s ←r for_elements arm es empty_slots;
  _ ←r if_some ensure_update_a8_ack_cause (s_cause s);
  Ok (mk (s_call_connection_reference s) (s_correlation_id s) (s_cause s)).
End UpdateA8AckMessage.

Module ShortDataDeliveryMessage.
Record t := mk {
  correlation_id : option (list Z); imsi : option Text.chars; esn : option Z; meid : option (list Z);
  sr_id : option Z; data_count : option Z; adds_user_part : UserPart; a9_indicators : option Indicators
}.
#[export] Instance t_eq_dec : EqDecision t.
Proof. solve_decision. Defined.
Definition encode (m : t) : Result (list Z) :=
  identities ←r push_mobile_identities (imsi m) (esn m) (meid m);
  sr_id_octets ←r transpose sr_id_encode (sr_id m);
  adds_user_part_octets ←r adds_user_part_encode (adds_user_part m);
  encode_typed ShortDataDelivery (
    optional CorrelationId (correlation_id_encode <$> correlation_id m) ++ identities ++
    optional SrId sr_id_octets ++ optional DataCount (data_count_encode <$> data_count m) ++
    one AddsUserPart adds_user_part_octets ++ optional A9Indicators (indicators_encode <$> a9_indicators m)).
Definition arm (e : InformationElement) : Slots → Result Slots :=
  match id e with
  | CorrelationId => arm_correlation_id e
  | MobileIdentity => apply_mobile_identity e
  | SrId => arm_sr_id e
  | DataCount => arm_data_count e
  | AddsUserPart => arm_adds_user_part e
  | A9Indicators => arm_a9_indicators e
  | i => λ _, unexpected ShortDataDelivery i
  end.
Definition decode (input : list Z) : Result t :=
  es ←r decode_typed_message input ShortDataDelivery;
  s ←r for_elements arm es empty_slots;
  adds_user_part ←r required AddsUserPart (s_adds_user_part s);
  Ok (mk (s_correlation_id s) (s_imsi s) (s_esn s) (s_meid s) (s_sr_id s) (s_data_count s) adds_user_part
          (s_a9_indicators s)).
End ShortDataDeliveryMessage.

Module ShortDataAckMessage.
Record t := mk {
  correlation_id : option (list Z); imsi : option Text.chars; esn : option Z; meid : option (list Z); cause : Z
}.
#[export] Instance t_eq_dec : EqDecision t.
Proof. solve_decision. Defined.
Definition encode (m : t) : Result (list Z) :=
  _ ←r ensure_short_data_ack_cause (cause m);
  identities ←r push_mobile_identities (imsi m) (esn m) (meid m);
  encode_typed ShortDataAck (
    optional CorrelationId (correlation_id_encode <$> correlation_id m) ++ identities ++
    one Cause (cause_encode (cause m))).
Definition arm (e : InformationElement) : Slots → Result Slots :=
  match id e with
  | CorrelationId => arm_correlation_id e
  | MobileIdentity => apply_mobile_identity e
  | Cause => arm_cause e
  | i => λ _, unexpected ShortDataAck i
  end.
Definition decode (input : list Z) : Result t :=
  es ←r decode_typed_message input ShortDataAck;
  s ←r for_elements arm es empty_slots;
  cause ←r required Cause (s_cause s);
  _ ←r ensure_short_data_ack_cause cause;
  Ok (mk (s_correlation_id s) (s_imsi s) (s_esn s) (s_meid s) cause).
End ShortDataAckMessage.

End A9Typed.
