(* ===== verification/A9CodecProofs.v ===== *)
(** * A9 signaling: the element and message codecs invert

    What each element decoder returns on the octets of its encoder, and the raw message
    codec on a validated message. *)
From S2P Require Import Prelude Octets Text A9Codec A9Elements A9Typed.
Import A9 A9Elements A9Typed.

Lemma decide_neq_refl {A B} `{EqDecision A} (x : A) (a b : B) : (if decide (x ≠ x) then a else b) = b.
Proof. by rewrite decide_False by naive_solver. Qed.
Lemma rbind_ok {E A B} (m : result E A) (k : A → result E B) b : rbind m k = Ok b → ∃ a, m = Ok a ∧ k a = Ok b.
Proof. destruct m; [eauto|done]. Qed.
(** Take the successful steps of a computation apart. *)
Ltac ok_inv H :=
  repeat match type of H with
  | rbind _ _ = Ok _ => let a := fresh "a" in let Ha := fresh "Hok" in apply rbind_ok in H as (a & Ha & H)
  end.

(** A fact about an octet, checked on all of them. *)
Tactic Notation "octet_fact" constr(P) "of" constr(Hv) "as" ident(H) :=
  let Hall := fresh "Hall" in
  assert (all_u8 P = true) as Hall by (vm_compute; reflexivity);
  pose proof (all_u8_spec P _ Hall Hv) as H; clear Hall; cbv beta in H.

(** ** Element values *)
Definition traffic_ok (t : TrafficId) : Prop :=
  protocol_stack t = 1 ∧ protocol_type t = 0x8881 ∧ is_u32 (key t) ∧
  match ip_address t with V4 a => length a = 4%nat ∧ bytes a | V6 a => length a = 16%nat ∧ bytes a end.
Definition call_ref_ok (v : CallReference) : Prop :=
  is_u16 (market_id v) ∧ is_u16 (generating_entity_id v) ∧ is_u32 (ref_value v).
Definition octets_ok (n : nat) (v : list Z) : Prop := length v = n ∧ bytes v.
Definition service_configuration_ok (v : ServiceConfiguration) : Prop := is_u 3 (fill_bits v) ∧ bytes (content v).
Definition version_ok (v : Version) : Prop :=
  is_u8 (ios_major_revision_level v) ∧ is_u8 (ios_minor_revision_level v) ∧ is_u8 (ios_point_release_level v) ∧
  printable (manufacturer_carrier_software_information v) = true.
Definition user_part_ok (v : UserPart) : Prop := data_burst_type v = 6 ∧ bytes (application_data_message v).

Lemma traffic_roundtrip t : traffic_ok t → traffic_decode (traffic_encode t) = Ok t.
Proof.
  destruct t as [st ty k a]. unfold traffic_ok. cbn. intros (-> & -> & Hk & Ha).
  unfold traffic_encode, to_be16, traffic_decode. cbn [app to_be32 protocol_stack protocol_type key ip_address].
  rewrite (from_be32_to_be32 k) by done. destruct a as [a|a]; destruct Ha as [Hl _]; cbn -[from_be32 Z.div Z.modulo]; by rewrite Hl.
Qed.
Lemma traffic_decode_ok w t : bytes w → traffic_decode w = Ok t → traffic_ok t ∧ traffic_encode t = w.
Proof.
  intros Hw. destruct w as [|st [|t0 [|t1 [|k0 [|k1 [|k2 [|k3 [|ty a]]]]]]]]; try done. unfold traffic_decode.
  repeat (apply Forall_cons in Hw as [? Hw]).
  destruct (st =? 1) eqn:E1; [|done]. destruct (from_be16 t0 t1 =? 0x8881) eqn:E2; [|done]. cbn [negb].
  apply Z.eqb_eq in E1 as ->. apply Z.eqb_eq in E2.
  assert (0 ≤ from_be32 k0 k1 k2 k3 < 2 ^ 32) by (unfold is_u, from_be32 in *; lia).
  destruct (ty =? 1) eqn:E3; [|destruct (ty =? 2) eqn:E4; [|done]].
  all: destruct (decide _) as [|Hl%dec_stable]; [done|]; intros [= <-]; cbn in Hl.
  - apply Z.eqb_eq in E3 as ->. split; [split_and!; cbn; try done; split; [lia|done]|].
    unfold traffic_encode. cbn [protocol_stack protocol_type key ip_address address_type].
    by rewrite to_be16_from_be16, to_be32_from_be32.
  - apply Z.eqb_eq in E4 as ->. split; [split_and!; cbn; try done; split; [lia|done]|].
    unfold traffic_encode. cbn [protocol_stack protocol_type key ip_address address_type].
    by rewrite to_be16_from_be16, to_be32_from_be32.
Qed.

Lemma fixed4_roundtrip v : octets_ok 4 v → correlation_id_decode v = Ok v.
Proof. intros [Hl _]. by destruct v as [|? [|? [|? [|? [|??]]]]]. Qed.
Lemma fixed4_ok w v : bytes w → correlation_id_decode w = Ok v → octets_ok 4 v ∧ v = w.
Proof. intros Hw. destruct w as [|? [|? [|? [|? [|??]]]]]; try done. by intros [= <-]. Qed.
Lemma be16_roundtrip v : is_u16 v → service_option_decode (service_option_encode v) = Ok v.
Proof. intros. cbn. by rewrite split_u16. Qed.
Lemma be16_ok w v : bytes w → service_option_decode w = Ok v → is_u16 v ∧ service_option_encode v = w.
Proof.
  intros Hw. destruct w as [|? [|? [|??]]]; try done. intros [= <-]. apply Forall_cons in Hw as [? Hw]. apply Forall_cons in Hw as [? _].
  split; [by apply from_be16_u16|]. by apply to_be16_from_be16.
Qed.
Lemma call_ref_roundtrip v : call_ref_ok v → call_connection_reference_decode (call_connection_reference_encode v) = Ok v.
Proof.
  destruct v as [a b c]. intros (Ha & Hb & Hc). cbn in *. rewrite !split_u16 by done. do 2 f_equal. by apply from_be32_to_be32.
Qed.
Lemma call_ref_decode_ok w v :
  bytes w → call_connection_reference_decode w = Ok v → call_ref_ok v ∧ call_connection_reference_encode v = w.
Proof.
  intros Hw. destruct w as [|? [|? [|? [|? [|? [|? [|? [|? [|??]]]]]]]]]; try done. intros [= <-].
  repeat (apply Forall_cons in Hw as [? Hw]). split.
  - split_and!; [by apply from_be16_u16..|]. unfold is_u, from_be32 in *. cbn. lia.
  - unfold call_connection_reference_encode. cbn [market_id generating_entity_id ref_value].
    by rewrite !to_be16_from_be16, to_be32_from_be32.
Qed.

Lemma bsc_id_roundtrip v w : bsc_id_encode v = Ok w → bsc_id_decode w = Ok v.
Proof. unfold bsc_id_encode, bsc_id_decode. destruct (decide _) eqn:E; [done|]. intros [= <-]. by rewrite E. Qed.
Lemma qos_roundtrip v w : is_u8 v → qos_encode v = Ok w → qos_decode w = Ok v.
Proof.
  intros Hv. unfold qos_encode. destruct (0x0d <? v) eqn:E; [done|]. intros [= <-].
  octet_fact (λ v, (0x0d <? v) || bool_decide (qos_decode [Z.land v 0x0f] = Ok v)) of Hv as H.
  rewrite E in H. by apply bool_decide_eq_true in H.
Qed.
Lemma sr_id_roundtrip v w : is_u8 v → sr_id_encode v = Ok w → sr_id_decode w = Ok v.
Proof.
  intros Hv. unfold sr_id_encode. destruct ((v =? 0) || (0x7f <? v)) eqn:E; [done|]. intros [= <-].
  octet_fact (λ v, (v =? 0) || (0x7f <? v) || bool_decide (sr_id_decode [Z.land v 0x7f] = Ok v)) of Hv as H.
  rewrite E in H. by apply bool_decide_eq_true in H.
Qed.
Lemma rn_pdit_roundtrip v w : rn_pdit_encode v = Ok w → rn_pdit_decode w = Ok v.
Proof. unfold rn_pdit_encode. destruct (v =? 0) eqn:E; [done|]. intros [= <-]. cbn. by rewrite E. Qed.
Lemma indicators_roundtrip v : indicators_decode (indicators_encode v) = Ok v.
Proof. by destruct v as [[] [] [] [] [] []]. Qed.

Lemma service_configuration_roundtrip v w :
  service_configuration_ok v → service_configuration_encode v = Ok w → service_configuration_decode w = Ok v.
Proof.
  destruct v as [f c]. unfold service_configuration_ok, service_configuration_encode. cbn [fill_bits content].
  intros [Hf Hc]. destruct (7 <? f); [done|]. destruct (decide _) as [|Hl]; [done|]. intros [= <-].
  rewrite wrap_small by (unfold is_u; destruct c; naive_solver lia). unfold service_configuration_decode. cbn [app].
  rewrite Nat2Z.id, decide_False by (cbn; lia).
  assert (is_u8 f) as Hf8 by (unfold is_u in *; lia).
  octet_fact (λ f, negb (f <? 8) || (Z.land (Z.land f 7) 0xf8 =? 0) && (Z.land (Z.land f 7) 7 =? f)) of Hf8 as H.
  rewrite (proj2 (Z.ltb_lt f 8)) in H by (unfold is_u in Hf; lia). cbn in H. apply andb_prop in H as [-> H%Z.eqb_eq]. cbn. by rewrite H.
Qed.

Lemma printable_bytes l : printable l = true → Text.as_bytes l = l.
Proof.
  unfold printable. induction l as [|c l IH]; [done|]. cbn [forallb]. intros [Hc Hl]%andb_prop.
  change (Text.as_bytes (c :: l)) with (Text.utf8_char c ++ Text.as_bytes l). rewrite IH by done.
  unfold Text.in_range in Hc. unfold Text.utf8_char. by rewrite (proj2 (Z.ltb_lt c 0x80)) by lia.
Qed.
Lemma software_version_roundtrip v w :
  printable (manufacturer_carrier_software_information v) = true → software_version_encode v = Ok w → software_version_decode w = Ok v.
Proof.
  destruct v as [a b c t]. unfold software_version_encode. cbn -[printable Text.as_bytes]. intros Hp. rewrite printable_bytes, Hp by done.
  intros [= <-]. cbn -[printable]. by rewrite Hp.
Qed.
Lemma adds_user_part_roundtrip v w : adds_user_part_encode v = Ok w → adds_user_part_decode w = Ok v.
Proof.
  destruct v as [t d]. unfold adds_user_part_encode. cbn [data_burst_type application_data_message]. destruct (decide _); [done|].
  destruct (t =? 6) eqn:E; [|done]. apply Z.eqb_eq in E as ->. by intros [= <-].
Qed.

(** ** Mobile identities *)
Definition nibble (d : Z) : Prop := is_u 4 d.
Lemma nibble_15 : nibble 0x0f.
Proof. done. Qed.
Lemma nibble_1 : nibble 1.
Proof. done. Qed.
Lemma nibbles hi lo : nibble hi → nibble lo →
  Z.land (Z.lor (Z.shiftl hi 4) lo) 0x0f = lo ∧ Z.shiftr (Z.lor (Z.shiftl hi 4) lo) 4 = hi ∧ is_u8 (Z.lor (Z.shiftl hi 4) lo).
Proof.
  intros Hh Hl. rewrite lor_shiftl_add by done. change 0x0f with (Z.ones 4). rewrite Z.land_ones, Z.shiftr_div_pow2 by lia.
  unfold nibble, is_u in *. change (2 ^ 4) with 16 in *. split_and!; zdiv.
Qed.
Lemma octet_nibbles b : is_u8 b → nibble (Z.shiftr b 4) ∧ nibble (Z.land b 0x0f) ∧ Z.lor (Z.shiftl (Z.shiftr b 4) 4) (Z.land b 0x0f) = b.
Proof.
  intros Hb. change 0x0f with (Z.ones 4). rewrite Z.land_ones, Z.shiftr_div_pow2 by lia.
  assert (nibble (b mod 2 ^ 4)) by (unfold nibble, is_u; zdiv).
  rewrite lor_shiftl_add by done. unfold nibble, is_u in *. change (2 ^ 4) with 16 in *. split_and!; zdiv.
Qed.

(** *** The MEID *)
Lemma meid_digits_pack ds acc :
  Forall nibble ds → (length acc + length ds = 14)%nat → Nat.odd (length ds) = true →
  meid_digits acc (pack_digits ds) = Ok (acc ++ ds).
Proof.
  intros Hds. remember (length ds) as n eqn:Hn. revert ds acc Hds Hn.
  induction (lt_wf n) as [n _ IH]. intros ds acc Hds -> Hlen Hodd. destruct ds as [|a [|b ds]]; [done|..].
  - cbn [pack_digits meid_digits]. apply Forall_cons in Hds as [Ha _].
    destruct (nibbles 0x0f a nibble_15 Ha) as (-> & -> & _). rewrite !(decide_True (P := (length acc < 14)%nat)) by (cbn in *; lia).
    rewrite decide_False by (rewrite length_app; cbn in *; lia). done.
  - cbn [pack_digits meid_digits]. apply Forall_cons in Hds as [Ha Hds]. apply Forall_cons in Hds as [Hb Hds].
    destruct (nibbles b a Hb Ha) as (-> & -> & _). rewrite !(decide_True (P := (length acc < 14)%nat)) by (cbn in *; lia).
    assert (length ds ≠ 0%nat) by (intros E; cbn in Hodd; rewrite E in Hodd; done).
    rewrite decide_True by (rewrite length_app; cbn in *; lia).
    rewrite (IH (length ds)); [by rewrite <- !app_assoc|cbn; lia|done|done|rewrite !length_app; cbn in *; lia|].
    cbn in Hodd. done.
Qed.
Lemma pair_digits_octets m : bytes m → pair_digits (m ≫= λ b, [Z.shiftr b 4; Z.land b 0x0f]) = m.
Proof. induction 1 as [|b m Hb _ IH]; [done|]. cbn. rewrite IH. destruct (octet_nibbles b Hb) as (_ & _ & ->). done. Qed.
Lemma pack_13 ds : Forall nibble ds → length ds = 13%nat →
  ∃ a b c d e f l, pack_digits ds = [a; b; c; d; e; f; Z.lor (Z.shiftl 0x0f 4) l] ∧ nibble l.
Proof.
  intros Hn Hl. do 13 (destruct ds as [|? ds]; [discriminate|apply Forall_cons in Hn as [? Hn]]).
  destruct ds; [|discriminate]. do 7 eexists. split; [reflexivity|]. assumption.
Qed.
Lemma meid_roundtrip m : octets_ok 7 m → meid_decode (meid_encode m) = Ok m.
Proof.
  intros [Hl Hm]. unfold meid_encode.
  assert (Forall nibble (m ≫= λ b, [Z.shiftr b 4; Z.land b 0x0f])) as Hn.
  { clear Hl. induction Hm as [|b m Hb _ IH]; [constructor|]. cbn. destruct (octet_nibbles b Hb) as (? & ? & _). constructor; [done|]. by constructor. }
  pose proof (pair_digits_octets m Hm) as Hp.
  assert (length (m ≫= λ b, [Z.shiftr b 4; Z.land b 0x0f]) = 14%nat) as H14
    by (by destruct m as [|? [|? [|? [|? [|? [|? [|? [|??]]]]]]]]).
  revert Hn Hp H14. generalize (m ≫= λ b, [Z.shiftr b 4; Z.land b 0x0f]). intros [|d ds] Hn Hp H14; [done|].
  apply Forall_cons in Hn as [Hd Hn]. injection H14 as H13.
  pose proof (meid_digits_pack ds [d] Hn ltac:(cbn; lia) ltac:(by rewrite H13)) as Hmd.
  destruct (nibbles d 1 Hd nibble_1) as (Hlo & Hhi & Hu).
  octet_fact (λ b, negb (Z.land b 0x0f =? 1) || (Z.land b 0x08 =? 0) && (Z.land b 0x07 =? 1)) of Hu as H.
  rewrite Hlo in H. cbn in H. apply andb_prop in H as [H8 H7].
  destruct (pack_13 ds Hn H13) as (i1 & i2 & i3 & i4 & i5 & i6 & l & Heq & Hl13). rewrite Heq in *.
  unfold meid_decode. rewrite H8, H7. cbn [negb orb].
  destruct (nibbles 0x0f l nibble_15 Hl13) as (_ & -> & _). cbn [Z.eqb Pos.eqb negb].
  rewrite Hhi, Hmd. cbn [rbind app]. by rewrite Hp.
Qed.
Lemma meid_identity m : octets_ok 7 m → identity_decode (meid_encode m) = Ok (Meid m).
Proof.
  intros Hm. pose proof (meid_roundtrip m Hm) as Hr. destruct Hm as [Hl Hm].
  destruct m as [|b m]; [discriminate|]. apply Forall_cons in Hm as [Hb _].
  unfold meid_encode in *. cbn [mbind list_bind app] in *. revert Hr. generalize (pack_digits (Z.land b 15 :: (m ≫= λ b, [Z.shiftr b 4; Z.land b 15]))).
  intros l Hr. unfold identity_decode.
  destruct (nibbles (Z.shiftr b 4) 1 (proj1 (octet_nibbles b Hb)) nibble_1) as (Hlo & _ & Hu).
  octet_fact (λ b, negb (Z.land b 0x0f =? 1) || (Z.land b 0x07 =? 1)) of Hu as H. rewrite Hlo in H. cbn [negb orb Z.eqb Pos.eqb] in H.
  apply Z.eqb_eq in H. rewrite H. cbn [Z.eqb Pos.eqb]. by rewrite Hr.
Qed.

(** *** The IMSI *)
Definition digit (c : Z) : Prop := 48 ≤ c ≤ 57.
Definition imsi_ok (imsi : Text.chars) : Prop := Forall digit imsi.

Lemma to_digit_digit c : to_digit c = (if decide (digit c) then Some (c - 48) else None).
Proof.
  unfold to_digit, Text.is_ascii_digit, Text.in_range, digit.
  destruct (48 <=? c) eqn:E1; destruct (c <=? 57) eqn:E2; cbn; case_decide; done || lia.
Qed.
Lemma imsi_digits_pack odd ds acc :
  Forall (λ d, 0 ≤ d ≤ 9) ds → Nat.odd (length ds) = negb odd →
  imsi_digits odd acc (pack_digits ds) = Ok (acc ++ (Z.add 48 <$> ds)).
Proof.
  intros Hds. remember (length ds) as n eqn:Hn. revert ds acc Hds Hn.
  induction (lt_wf n) as [n _ IH]. intros ds acc Hds -> Hodd. destruct ds as [|a [|b ds]].
  - cbn. by rewrite app_nil_r.
  - cbn [pack_digits imsi_digits]. apply Forall_cons in Hds as [Ha _].
    destruct (nibbles 0x0f a nibble_15 ltac:(unfold nibble, is_u; lia)) as (-> & -> & _).
    rewrite (proj2 (Z.ltb_ge 9 a)) by lia. cbn in Hodd. destruct odd; [done|]. done.
  - cbn [pack_digits imsi_digits]. apply Forall_cons in Hds as [Ha Hds]. apply Forall_cons in Hds as [Hb Hds].
    destruct (nibbles b a) as (-> & -> & _); [unfold nibble, is_u; lia..|].
    rewrite (proj2 (Z.ltb_ge 9 a)), (proj2 (Z.ltb_ge 9 b)), (proj2 (Z.eqb_neq b 0x0f)) by lia.
    rewrite (IH (length ds)); [|cbn; lia|done..]. cbn. by rewrite <- !app_assoc.
Qed.
Lemma imsi_head d n : 0 ≤ d ≤ 9 →
  let first := Z.lor (Z.lor (Z.shiftl d 4) (Z.shiftl (Z.b2z n) 3)) 6 in
  negb (Z.land first 0x08 =? 0) = n ∧ Z.land (Z.shiftr first 4) 0x0f = d ∧ Z.land first 0x07 = 6.
Proof.
  intros Hd. assert (d = 0 ∨ d = 1 ∨ d = 2 ∨ d = 3 ∨ d = 4 ∨ d = 5 ∨ d = 6 ∨ d = 7 ∨ d = 8 ∨ d = 9) as H by lia.
  destruct n; repeat destruct H as [->|H]; subst; by vm_compute.
Qed.
Lemma mapM_to_digit imsi ds : mapM to_digit imsi = Some ds → Forall (λ d, 0 ≤ d ≤ 9) ds ∧ (Z.add 48 <$> ds) = imsi.
Proof.
  revert ds. induction imsi as [|c imsi IH]; intros ds; cbn; [by intros [= <-]|]. rewrite to_digit_digit.
  case_decide as Hd; [|done]. cbn. destruct (mapM to_digit imsi) as [ds'|]; [|done]. cbn. intros [= <-].
  destruct (IH ds' eq_refl) as [? <-]. unfold digit in Hd. split; [constructor; [lia|done]|]. cbn. f_equal. lia.
Qed.
Lemma imsi_roundtrip imsi w : encode_imsi imsi = Ok w → identity_decode w = Ok (Imsi imsi).
Proof.
  unfold encode_imsi. destruct (mapM to_digit imsi) as [ds|] eqn:Hm; [|done]. apply mapM_to_digit in Hm as [Hds <-].
  case_decide as Hl; [|done]. destruct ds as [|d ds]; [cbn in Hl; lia|]. intros <-%Ok_inj.
  apply Forall_cons in Hds as [Hd Hds]. destruct (imsi_head d (Nat.odd (length (d :: ds))) Hd) as (H1 & H2 & H3).
  unfold identity_decode. rewrite H3. cbn [Z.eqb Pos.eqb]. unfold decode_imsi. rewrite H1, H2, (proj2 (Z.ltb_ge 9 d)) by lia.
  rewrite imsi_digits_pack; [done|done|]. cbn [length]. by rewrite Nat.odd_succ, <- Nat.negb_odd, negb_involutive.
Qed.
Lemma esn_roundtrip v : identity_decode (0x05 :: to_be32 v) = Ok (Esn v).
Proof. cbn. do 2 f_equal. by apply from_be32_to_be32. Qed.

(** ** The raw message codec *)
Lemma message_type_roundtrip t : message_type_from_u8 (message_type_u8 t) = Ok t.
Proof. by destruct t. Qed.
Lemma element_id_roundtrip i : element_id_from_u8 (element_id_u8 i) = Ok i.
Proof. by destruct i. Qed.
Lemma element_id_inj i j : element_id_u8 i = element_id_u8 j → i = j.
Proof. intros H. apply (f_equal element_id_from_u8) in H. rewrite !element_id_roundtrip in H. congruence. Qed.
Lemma element_id_decoded v i : element_id_from_u8 v = Ok i → element_id_u8 i = v.
Proof. unfold element_id_from_u8. intros H. repeat (case_match; try done); by injection H as <-. Qed.

Lemma decode_encode_elements es w fuel offset total :
  encode_elements es = Ok w → (length w ≤ fuel)%nat → decode_elements fuel offset total w = Ok es.
Proof.
  revert w fuel offset. induction es as [|[i v] es IH]; intros w fuel offset; cbn [encode_elements].
  - intros <-%Ok_inj _. by destruct fuel.
  - cbn [id value]. destruct (decide _) as [|Hv]; [done|]. intros H. ok_inv H. injection H as <-.
    intros Hf. destruct fuel as [|fuel]; [cbn in Hf; lia|]. cbn [app decode_elements].
    rewrite element_id_roundtrip. cbn [rbind]. rewrite wrap_small by (unfold is_u; lia). rewrite Nat2Z.id.
    rewrite decide_False by (rewrite length_app; lia). rewrite drop_app_length, take_app_length.
    rewrite (IH a); [done|done|]. cbn in Hf. rewrite length_app in Hf. lia.
Qed.
Lemma raw_roundtrip t es w : encode (mkMessage t es) = Ok w → decode w = Ok (mkMessage t es).
Proof.
  unfold encode. cbn [message_type elements]. intros H. ok_inv H. injection H as <-. unfold decode. rewrite message_type_roundtrip.
  cbn [rbind]. rewrite (decode_encode_elements es) by done. cbn [rbind]. unfold new_message. by rewrite Hok.
Qed.
(** A decoded message is the encoding of its elements, in their order. *)
Lemma decode_elements_ok fuel offset total w es :
  bytes w → (length w ≤ fuel)%nat → decode_elements fuel offset total w = Ok es →
  encode_elements es = Ok w ∧ Forall (λ e, bytes (value e)) es.
Proof.
  revert w offset es. induction fuel as [|fuel IH]; intros w offset es Hw Hf.
  - destruct w; [|cbn in Hf; lia]. intros [= <-]. by split.
  - destruct w as [|i [|len w]]; [intros [= <-]; by split|done|]. cbn [decode_elements]. intros H. ok_inv H.
    apply Forall_cons in Hw as [Hi Hw]. apply Forall_cons in Hw as [Hlen Hw].
    destruct (decide _) as [|Hl]; [done|]. ok_inv H. injection H as <-.
    destruct (IH _ _ _ (bytes_drop _ _ Hw) ltac:(cbn in Hf; rewrite length_drop; lia) Hok0) as [He Hb].
    split; [|constructor; [by apply bytes_take|done]]. cbn [encode_elements id value].
    unfold is_u in Hlen. rewrite decide_False by (rewrite length_take; lia). rewrite He. cbn [rbind].
    rewrite (element_id_decoded i), length_take, Nat.min_l, Z2Nat.id, wrap_small by (done || unfold is_u; lia).
    cbn. by rewrite take_drop.
Qed.

(** ** What the decoders accept is well typed *)
Lemma octet_ok w v : bytes w → con_ref_decode w = Ok v → is_u8 v.
Proof. intros Hw. destruct w as [|? [|??]]; try done. intros [= <-]. by apply Forall_cons in Hw as [? _]. Qed.
Lemma bsc_id_ok w v : bytes w → bsc_id_decode w = Ok v → bytes v.
Proof. intros Hw. unfold bsc_id_decode. destruct (decide _); [done|]. by intros [= <-]. Qed.
Lemma qos_ok w v : bytes w → qos_decode w = Ok v → is_u8 v.
Proof.
  intros Hw. destruct w as [|b [|??]]; try done. apply Forall_cons in Hw as [Hb _]. cbn. destruct (negb _); [done|].
  destruct (_ <? _); [done|]. intros [= <-]. by apply is_u_land.
Qed.
Lemma sr_id_ok w v : bytes w → sr_id_decode w = Ok v → is_u8 v.
Proof.
  intros Hw. destruct w as [|b [|??]]; try done. apply Forall_cons in Hw as [Hb _]. cbn. destruct (negb _); [done|].
  destruct (b =? 0); [done|]. intros [= <-]. by apply is_u_land.
Qed.
Lemma rn_pdit_ok w v : bytes w → rn_pdit_decode w = Ok v → is_u8 v.
Proof.
  intros Hw. destruct w as [|b [|??]]; try done. apply Forall_cons in Hw as [Hb _]. cbn. destruct (b =? 0); [done|]. by intros [= <-].
Qed.
Lemma service_configuration_decode_ok w v : bytes w → service_configuration_decode w = Ok v → service_configuration_ok v.
Proof.
  intros Hw. destruct w as [|n [|f c]]; try done. apply Forall_cons in Hw as [_ Hw]. apply Forall_cons in Hw as [Hf Hc].
  unfold service_configuration_decode. destruct (decide _); [done|]. destruct (negb _); [done|]. intros [= <-]. split; [|done].
  cbn [fill_bits]. change 7 with (Z.ones 3). rewrite Z.land_ones by lia. apply Z.mod_pos_bound. lia.
Qed.
Lemma software_version_decode_ok w v : bytes w → software_version_decode w = Ok v → version_ok v.
Proof.
  intros Hw. destruct w as [|a [|b [|c t]]]; try done. repeat (apply Forall_cons in Hw as [? Hw]).
  unfold software_version_decode. destruct (printable t) eqn:Hp; [|done]. intros [= <-]. done.
Qed.
Lemma adds_user_part_decode_ok w v : bytes w → adds_user_part_decode w = Ok v → user_part_ok v.
Proof.
  intros Hw. destruct w as [|f d]; [done|]. apply Forall_cons in Hw as [_ Hd]. cbn. destruct (negb _); [done|].
  destruct (Z.land f 63 =? 6) eqn:E; [|done]. intros [= <-]. split; [|done]. by apply Z.eqb_eq.
Qed.

Lemma imsi_digits_ok odd acc w imsi : bytes w → imsi_ok acc → imsi_digits odd acc w = Ok imsi → imsi_ok imsi.
Proof.
  intros Hw. revert acc. induction Hw as [|b w Hb _ IH]; intros acc Ha; [by intros [= <-]|]. cbn [imsi_digits].
  destruct (octet_nibbles b Hb) as (Hh & Hl & _). unfold nibble, is_u in *.
  destruct (9 <? Z.land b 15) eqn:E; [done|].
  assert (imsi_ok (acc ++ [48 + Z.land b 15])) by (apply Forall_app; split; [done|]; repeat constructor; lia).
  destruct (_ =? 15); [destruct (_ && _); [by apply IH|done]|]. destruct (9 <? Z.shiftr b 4) eqn:E2; [done|]. apply IH.
  apply Forall_app. split; [done|]. repeat constructor; lia.
Qed.
Lemma meid_digits_ok acc w ds :
  bytes w → Forall nibble acc → (length acc ≤ 14)%nat → meid_digits acc w = Ok ds →
  Forall nibble ds ∧ length ds = (Nat.min 14 (length acc + 2 * length w))%nat.
Proof.
  intros Hw. revert acc. induction Hw as [|b w Hb _ IH]; intros acc Ha Hl; cbn [meid_digits].
  - intros [= <-]. split; [done|]. cbn [length]. lia.
  - destruct (octet_nibbles b Hb) as (Hh & Hlo & _). intros H.
    destruct (decide (length acc < 14)%nat) as [H1|H1].
    + destruct (decide (length (acc ++ [_]) < 14)%nat) as [H2|H2]; rewrite length_app in H2; cbn in H2.
      * apply IH in H as [? Hds]; [|rewrite !Forall_app, !Forall_singleton; done|rewrite !length_app; cbn; lia].
        split; [done|]. rewrite Hds, !length_app. cbn [length]. lia.
      * destruct (negb _); [done|].
        apply IH in H as [? Hds]; [|rewrite Forall_app, Forall_singleton; done|rewrite length_app; cbn; lia].
        split; [done|]. rewrite Hds, length_app. cbn [length]. lia.
    + rewrite decide_False in H by done. destruct (negb _); [done|]. destruct (IH _ Ha Hl H) as [? Hds]. split; [done|]. rewrite Hds. cbn [length]. lia.
Qed.
Lemma pair_digits_ok n ds : length ds = (2 * n)%nat → Forall nibble ds → octets_ok n (pair_digits ds).
Proof.
  revert ds. induction n as [|n IH]; intros ds Hl Hd; [destruct ds; [split; [done|constructor]|done]|].
  destruct ds as [|a [|b ds]]; cbn in Hl; try lia. apply Forall_cons in Hd as [Ha Hd]. apply Forall_cons in Hd as [Hb Hd].
  destruct (IH ds) as [? ?]; [lia|done|]. split; [cbn; lia|]. cbn. constructor; [|done]. by apply nibbles.
Qed.
Lemma meid_decode_ok w v : bytes w → meid_decode w = Ok v → octets_ok 7 v.
Proof.
  intros Hw. unfold meid_decode. do 8 (destruct w as [|? w]; [done|apply Forall_cons in Hw as [? Hw]]). destruct w; [|done].
  destruct (_ || _); [done|]. destruct (negb _); [done|]. intros Hd. ok_inv Hd. injection Hd as <-.
  apply meid_digits_ok in Hok as [Hn Hl]; [by apply pair_digits_ok|by repeat (constructor; [done|])| |cbn; lia].
  constructor; [|done]. by apply octet_nibbles.
Qed.
Definition identity_ok (v : Identity) : Prop :=
  match v with Imsi i => imsi_ok i | Esn e => is_u32 e | Meid m => octets_ok 7 m end.
Lemma identity_decode_ok w v : bytes w → identity_decode w = Ok v → identity_ok v.
Proof.
  intros Hw. destruct w as [|f w]; [done|]. unfold identity_decode. destruct (_ =? 6) eqn:E1; [|destruct (_ =? 5) eqn:E2; [|destruct (_ =? 1) eqn:E3; [|done]]].
  - intros H. ok_inv H. injection H as <-. cbn. unfold decode_imsi in Hok. destruct (9 <? _) eqn:E; [done|].
    apply Forall_cons in Hw as [Hf Hw]. eapply imsi_digits_ok; [exact Hw| |exact Hok]. constructor; [|done]. unfold digit.
    apply Z.ltb_ge in E. assert (0 ≤ Z.land (Z.shiftr f 4) 15); [|lia]. apply Z.land_nonneg. lia.
  - do 4 (destruct w as [|? w]; [done|]). destruct w; [|done]. intros [= <-]. repeat (apply Forall_cons in Hw as [? Hw]).
    unfold identity_ok, is_u, from_be32 in *. lia.
  - intros H. ok_inv H. injection H as <-. by eapply meid_decode_ok.
Qed.

(** * Every well-formed message can be sent

    [validate_required] runs over the elements an encoder made.  The elements a message may
    leave out do not change its verdict on the others: a list is valid when it is valid with
    all of them counted and placed, so one pass over the fields of a message decides. *)

(** ** Fewer elements before, same verdict *)
Definition counted (seen : gmap Z nat) (i : Z) : nat := default 0%nat (seen !! i).
Lemma counts_mono t es seen seen' :
  (∀ i, counted seen i ≤ counted seen' i)%nat → validate_counts t seen' es = Ok tt → validate_counts t seen es = Ok tt.
Proof.
  revert seen seen'. induction es as [|e es IH]; intros seen seen' Hle; [done|]. cbn [validate_counts].
  destruct (validate_allowed t (id e)) as [[]|]; [|done]. cbn [rbind].
  pose proof (Hle (element_id_u8 (id e))) as Hi. unfold counted in Hi.
  destruct (decide (_ < S (default _ (seen' !! _)))%nat) as [|Hd]; [done|]. rewrite decide_False by lia.
  apply IH. intros j. unfold counted. destruct (decide (j = element_id_u8 (id e))) as [->|Hj];
    [rewrite !lookup_insert_eq; cbn; lia|rewrite !lookup_insert_ne by done; apply Hle].
Qed.

Definition before (a b : option Z) : Prop := ∀ x, a = Some x → ∃ y, b = Some y ∧ x ≤ y.
Lemma order_mono t es last last' saw saw' :
  before last last' → (saw' = true → saw = true) →
  validate_element_order_from t last' saw' es = Ok tt → validate_element_order_from t last saw es = Ok tt.
Proof.
  revert last last' saw saw'. induction es as [|e es IH]; intros last last' saw saw' Hb Hs; [done|]. cbn [validate_element_order_from].
  intros H. apply rbind_ok in H as ([o s] & Ho & H).
  assert (∃ s0, order_of t e saw = Ok (o, s0) ∧ (s = true → s0 = true)) as (s0 & -> & Hs0).
  { unfold order_of in *. destruct (decide _); [|injection Ho as <- <-; eauto].
    apply rbind_ok in Ho as (k & -> & Ho). cbn. destruct k, saw', saw; cbn in *; try done; injection Ho as <- <-; eauto; naive_solver. }
  cbn. destruct o as [k|]; [|by eapply IH].
  destruct (match last' with Some p => k <? p | None => false end) eqn:E; [done|].
  assert ((match last with Some p => k <? p | None => false end) = false) as ->.
  { destruct last as [p|]; [|done]. destruct (Hb p eq_refl) as (y & -> & ?). apply Z.ltb_ge in E. apply Z.ltb_ge. lia. }
  eapply IH; [|exact Hs0|exact H]. intros x [= <-]. eauto with lia.
Qed.

(** ** A pass over the fields *)
Definition valid (t : MessageType) (last : option Z) (seen : gmap Z nat) (es : list InformationElement) : Prop :=
  validate_counts t seen es = Ok tt ∧ validate_element_order_from t last false es = Ok tt.
Lemma valid_nil t last seen : valid t last seen [].
Proof. done. Qed.

Lemma valid_one t last seen i w k es :
  i ≠ MobileIdentity → i ∈ allowed_elements t → seen !! element_id_u8 i = None → element_order t i = Some k →
  match last with Some p => p <=? k | None => true end = true →
  valid t (Some k) (<[element_id_u8 i := 1%nat]> seen) es → valid t last seen (one i w ++ es).
Proof.
  intros Hi Ha Hs Hk Hl [Hc Ho]. unfold valid, one. cbn [app validate_counts validate_element_order_from id]. split.
  - unfold validate_allowed. rewrite decide_True by done. cbn [rbind]. rewrite Hs. cbn [default].
    rewrite decide_False by (destruct i; cbn; done || lia). done.
  - unfold order_of. cbn [id]. rewrite decide_False by naive_solver. cbn [rbind]. rewrite Hk.
    destruct last as [p|]; [|done]. apply Z.leb_le in Hl. by rewrite (proj2 (Z.ltb_ge k p)).
Qed.
Lemma valid_skip t last seen i k es :
  seen !! element_id_u8 i = None → match last with Some p => p <=? k | None => true end = true →
  valid t (Some k) (<[element_id_u8 i := 1%nat]> seen) es → valid t last seen es.
Proof.
  intros Hs Hl [Hc Ho]. split.
  - eapply counts_mono; [|exact Hc]. intros j. unfold counted. destruct (decide (j = element_id_u8 i)) as [->|];
      [rewrite Hs; cbn; lia|by rewrite lookup_insert_ne].
  - eapply order_mono; [|done|exact Ho]. intros x ->. exists k. split; [done|]. by apply Z.leb_le.
Qed.
Lemma valid_optional t last seen i w k es :
  i ≠ MobileIdentity → i ∈ allowed_elements t → seen !! element_id_u8 i = None → element_order t i = Some k →
  match last with Some p => p <=? k | None => true end = true →
  valid t (Some k) (<[element_id_u8 i := 1%nat]> seen) es → valid t last seen (optional i w ++ es).
Proof. intros. destruct w as [w|]; [by eapply valid_one|by eapply valid_skip]. Qed.

(** ** Identities *)
Lemma imsi_kind imsi w : encode_imsi imsi = Ok w → mobile_identity_order w = Ok KindImsi.
Proof.
  intros H. apply imsi_roundtrip in H. destruct w as [|i w]; [done|]. unfold identity_decode in H. unfold mobile_identity_order.
  destruct (Z.land i 7 =? 6) eqn:E; [done|]. destruct (Z.land i 7 =? 5);
    [by destruct w as [|? [|? [|? [|? [|??]]]]]|]. destruct (Z.land i 7 =? 1); [|done]. by destruct (meid_decode _).
Qed.
Lemma meid_kind m : octets_ok 7 m → mobile_identity_order (meid_encode m) = Ok KindMeid.
Proof.
  intros H%meid_identity. destruct (meid_encode m) as [|i w]; [done|]. unfold identity_decode in H. unfold mobile_identity_order.
  destruct (Z.land i 7 =? 6); [by destruct (decode_imsi _ _)|]. destruct (Z.land i 7 =? 5);
    [by destruct w as [|? [|? [|? [|? [|??]]]]]|]. by destruct (Z.land i 7 =? 1).
Qed.

Lemma before_some a b : a ≤ b → before (Some a) (Some b).
Proof. intros ? ? [= <-]. eauto. Qed.
Lemma before_leb last k : match last with Some p => p <=? k | None => true end = true → before last (Some k).
Proof. intros H x ->. exists k. split; [done|]. by apply Z.leb_le. Qed.

Section identities.
Context (t : MessageType) (seen : gmap Z nat).
Hypotheses (Hc : carries_identities t = true) (Ha : MobileIdentity ∈ allowed_elements t).

(** [n] identities have been counted. *)
Definition identities_valid (last : option Z) (saw : bool) (n : nat) (es : list InformationElement) : Prop :=
  validate_counts t (<[0x0d := n]> seen) es = Ok tt ∧ validate_element_order_from t last saw es = Ok tt.
Lemma identity_step last saw n v k o es :
  (n < 3)%nat → order_of t (mkElement MobileIdentity v) saw = Ok (Some k, o) → before last (Some k) →
  identities_valid (Some k) o (S n) es → identities_valid last saw n (mkElement MobileIdentity v :: es).
Proof using Hc Ha.
  intros Hn Ho Hl [Hvc Hvo]. unfold identities_valid. cbn [validate_counts validate_element_order_from id]. split.
  - unfold validate_allowed. rewrite decide_True by done. cbn [rbind element_id_u8 allowed_repetitions].
    rewrite lookup_insert_eq. cbn [default]. rewrite Hc, decide_False by (cbn; lia). by rewrite insert_insert_eq.
  - rewrite Ho. cbn [rbind]. destruct last as [p|]; [|done]. destruct (Hl p eq_refl) as (? & [= <-] & ?).
    by rewrite (proj2 (Z.ltb_ge k p)) by lia.
Qed.
Lemma identities_skip last last' saw saw' n n' es :
  before last last' → (saw' = true → saw = true) → (n ≤ n')%nat →
  identities_valid last' saw' n' es → identities_valid last saw n es.
Proof using.
  intros Hb Hs Hn [Hvc Hvo]. split; [|by eapply order_mono]. eapply counts_mono; [|exact Hvc].
  intros i. unfold counted. destruct (decide (i = 0x0d)) as [->|]; [by rewrite !lookup_insert_eq|by rewrite !lookup_insert_ne].
Qed.

Lemma order_identity v k saw :
  mobile_identity_order v = Ok k → (k ≠ KindImsi → saw = true) →
  order_of t (mkElement MobileIdentity v) saw = Ok (Some (match k with KindImsi => 2 | KindEsn => 3 | KindMeid => 4 end), true).
Proof using Hc.
  intros Hk Hs. unfold order_of. rewrite decide_True by done. cbn [value]. rewrite Hk. cbn [rbind].
  destruct k; [done|rewrite Hs by done; done..].
Qed.

Lemma valid_identities last imsi esn meid w es :
  seen !! 0x0d = None → match last with Some p => p <=? 2 | None => true end = true →
  push_mobile_identities imsi esn meid = Ok w → from_option (octets_ok 7) True meid →
  valid t (Some 4) (<[0x0d := 3%nat]> seen) es → valid t last seen (w ++ es).
Proof using Hc Ha.
  intros Hs Hl%before_leb Hp Hm Hv.
  assert (identities_valid last false 0 (w ++ es)) as [H1 H2].
  { unfold push_mobile_identities in Hp. ok_inv Hp. injection Hp as <-. rewrite <- !app_assoc.
    unfold ensure_mobile_identity_fields in Hok. destruct imsi as [imsi|]; cbn [transpose] in Hok0.
    - apply rbind_ok in Hok0 as (wi & Hi & [= <-]). apply imsi_kind in Hi.
      eapply identity_step; [lia|by apply order_identity|done|].
      assert (identities_valid (Some 3) true 2 (optional MobileIdentity a2 ++ es)) as Hmeid.
      { destruct meid as [meid|]; cbn [transpose] in Hok2; injection Hok2 as <-.
        - eapply identity_step; [lia|by apply order_identity; [by apply meid_kind|]|by apply before_some|].
          by eapply identities_skip; [..|exact Hv]; auto using before_some with lia.
        - by eapply identities_skip; [..|exact Hv]; auto using before_some with lia. }
      destruct esn as [esn|]; cbn [transpose] in Hok1; injection Hok1 as <-.
      + eapply identity_step; [lia|by apply order_identity|by apply before_some|done].
      + by eapply identities_skip; [..|exact Hmeid]; auto using before_some with lia.
    - destruct esn, meid; try done. cbn in *. injection Hok0 as <-. injection Hok1 as <-. injection Hok2 as <-.
      eapply identities_skip; [..|exact Hv]; auto with lia. intros x ->. destruct (Hl x eq_refl) as (? & [= <-] & ?). eauto with lia. }
  split; [|done]. eapply counts_mono; [|exact H1]. intros i. unfold counted.
  destruct (decide (i = 0x0d)) as [->|]; [rewrite Hs; cbn; lia|by rewrite lookup_insert_ne].
Qed.
End identities.

(** ** Octets of a valid message *)
Definition short (es : list InformationElement) : Prop := Forall (λ e, (length (value e) ≤ 255)%nat) es.
Lemma encode_elements_total es : short es → ∃ w, encode_elements es = Ok w.
Proof.
  induction 1 as [|e es He _ [w IH]]; [by exists []|]. cbn [encode_elements]. rewrite decide_False by lia. rewrite IH. cbn. eauto.
Qed.
Lemma encode_typed_total t es :
  valid t None ∅ es → require_all (required_elements t) es = Ok tt → short es → ∃ w, encode_typed t es = Ok w.
Proof.
  intros [Hc Ho] Hr Hs. destruct (encode_elements_total es Hs) as [w Hw].
  assert (validate_required t es = Ok tt) as Hv.
  { unfold validate_required. rewrite Hc. cbn. unfold validate_element_order. by rewrite Ho. }
  unfold encode_typed, new_message, encode. rewrite Hv. cbn [rbind message_type elements]. rewrite Hv. cbn [rbind]. rewrite Hw. cbn. eauto.
Qed.

Lemma short_one i w es : (length w ≤ 255)%nat → short es → short (one i w ++ es).
Proof. by constructor. Qed.
Lemma short_optional i w es : from_option (λ w, length w ≤ 255)%nat True w → short es → short (optional i w ++ es).
Proof. destruct w; [by constructor|done]. Qed.
Lemma pack_length ds : (length (pack_digits ds) ≤ length ds)%nat.
Proof.
  assert (∀ n ds, (length ds ≤ n)%nat → (length (pack_digits ds) ≤ length ds)%nat) as H; [|by eapply H].
  intros n. induction n as [|n IH]; intros [|a [|b l]] Hl; cbn in *; try lia. specialize (IH l). lia.
Qed.
Lemma short_identities imsi esn meid w es :
  push_mobile_identities imsi esn meid = Ok w → from_option (octets_ok 7) True meid → short es → short (w ++ es).
Proof.
  intros Hp Hm Hes. unfold push_mobile_identities in Hp. ok_inv Hp. injection Hp as <-. rewrite <- !app_assoc.
  apply short_optional; [|apply short_optional; [|apply short_optional; [|done]]].
  - destruct imsi as [imsi|]; cbn in Hok0; [|by injection Hok0 as <-]. apply rbind_ok in Hok0 as (wi & Hi & [= <-]). cbn.
    unfold encode_imsi in Hi. destruct (mapM to_digit imsi) as [ds|]; [|done].
    destruct (decide _) as [[Hl1 Hl]|]; [|done]. destruct ds as [|d ds]; [cbn in Hl1; lia|]. apply Ok_inj in Hi as <-. cbn in *. pose proof (pack_length ds). lia.
  - destruct esn as [esn|]; cbn in Hok1; injection Hok1 as <-; cbn; [lia|done].
  - destruct meid as [m|]; cbn in Hok2; injection Hok2 as <-; [|done]. cbn. destruct Hm as [Hl _].
    unfold meid_encode. destruct (m ≫= _) as [|d ds] eqn:E; cbn; [lia|]. pose proof (pack_length ds).
    assert (length (d :: ds) = 14%nat) as H14; [|cbn in H14; lia]. rewrite <- E.
    clear -Hl. do 7 (destruct m as [|? m]; [discriminate|]). by destruct m.
Qed.

(** ** Required elements *)
Definition has (i : ElementId) (es : list InformationElement) : Prop := existsb (λ e, bool_decide (id e = i)) es = true.
Lemma has_here i w es : has i (one i w ++ es).
Proof. unfold has. cbn. by rewrite bool_decide_true. Qed.
Lemma has_skip i l es : has i es → has i (l ++ es).
Proof. unfold has. intros H. by rewrite existsb_app, H, orb_true_r. Qed.
Lemma require_nil es : require_all [] es = Ok tt.
Proof. done. Qed.
Lemma require_cons i l es : has i es → require_all l es = Ok tt → require_all (i :: l) es = Ok tt.
Proof. unfold has. cbn. by intros ->. Qed.
