(* ===== verification/A9Messages.v ===== *)
(** * A9 signaling: the typed messages round-trip

    A message that is encoded decodes to itself, and a decoded message has every field in the
    range of its type. *)
From S2P Require Import Prelude Octets Text A9Codec A9Elements A9Typed A9CodecProofs.
Import A9 A9Elements A9Typed.

(** ** One element at a time *)
Definition opt {A} (P : A → Prop) (o : option A) : Prop := from_option P True o.

(** [slot dec o w]: the octets [w] of an optional field decode to its value [o]. *)
Definition slot {A} (dec : list Z → Result A) (o : option A) (w : option (list Z)) : Prop :=
  match o, w with Some a, Some w => dec w = Ok a | None, None => True | _, _ => False end.
Lemma slot_fmap {A} (P : A → Prop) dec enc (o : option A) :
  (∀ a, P a → dec (enc a) = Ok a) → opt P o → slot dec o (enc <$> o).
Proof. destruct o; cbn; auto. Qed.
Lemma slot_transpose {A} (P : A → Prop) dec enc (o : option A) w :
  (∀ a w, P a → enc a = Ok w → dec w = Ok a) → opt P o → transpose enc o = Ok w → slot dec o w.
Proof.
  destruct o as [a|]; cbn; [|by intros _ _ [= <-]]. destruct (enc a) as [v|] eqn:E; [|done]. cbn. intros H Ha [= <-]. cbn. eauto.
Qed.

Lemma step_optional {A} arm i get set dec (o : option A) w es s :
  (∀ v s, arm (mkElement i v) s = set_optional_field get set dec (mkElement i v) s) →
  slot dec o w → get s = None → set None s = s →
  for_elements arm (optional i w ++ es) s = for_elements arm es (set o s).
Proof.
  intros Harm Hs Hg He. destruct o as [a|], w as [w|]; try done; cbn; [|by rewrite He].
  rewrite Harm. unfold set_optional_field. cbn in *. by rewrite Hs, Hg.
Qed.
Lemma step_one {A} arm i get (set : option A → Slots → Slots) dec a w es s :
  (∀ v s, arm (mkElement i v) s = set_optional_field get set dec (mkElement i v) s) →
  dec w = Ok a → get s = None →
  for_elements arm (one i w ++ es) s = for_elements arm es (set (Some a) s).
Proof. intros Harm Hd Hg. cbn. rewrite Harm. unfold set_optional_field. cbn. by rewrite Hd, Hg. Qed.

Section identities.
Context (arm : InformationElement → Slots → Result Slots).
Hypothesis Harm : ∀ v s, arm (mkElement MobileIdentity v) s = apply_mobile_identity (mkElement MobileIdentity v) s.

Lemma step_imsi imsi w es s :
  transpose (λ v, identity_encode (Imsi v)) imsi = Ok w → s_imsi s = None →
  for_elements arm (optional MobileIdentity w ++ es) s = for_elements arm es (set_imsi imsi s).
Proof using Harm.
  destruct imsi as [v|]; cbn [transpose]; intros H Hs.
  - apply rbind_ok in H as (wi & Hi & [= <-]). apply imsi_roundtrip in Hi. cbn [optional app for_elements]. rewrite Harm.
    unfold apply_mobile_identity. cbn [value]. rewrite Hi. cbn [rbind]. by rewrite Hs.
  - injection H as <-. destruct s. cbn in *. by subst.
Qed.
Lemma step_esn esn w es s :
  transpose (λ v, identity_encode (Esn v)) esn = Ok w → s_esn s = None → (s_imsi s = None → esn = None) →
  for_elements arm (optional MobileIdentity w ++ es) s = for_elements arm es (set_esn esn s).
Proof using Harm.
  destruct esn as [v|]; cbn [transpose]; intros H Hs Hi.
  - injection H as <-. cbn [optional app for_elements]. rewrite Harm.
    unfold apply_mobile_identity. cbn [value]. rewrite esn_roundtrip. cbn [rbind]. rewrite decide_False by naive_solver. by rewrite Hs.
  - injection H as <-. destruct s. cbn in *. by subst.
Qed.
Lemma step_meid meid w es s :
  opt (octets_ok 7) meid → transpose (λ v, identity_encode (Meid v)) meid = Ok w → s_meid s = None → (s_imsi s = None → meid = None) →
  for_elements arm (optional MobileIdentity w ++ es) s = for_elements arm es (set_meid meid s).
Proof using Harm.
  destruct meid as [v|]; cbn [transpose]; intros Hm H Hs Hi.
  - injection H as <-. cbn [optional app for_elements]. rewrite Harm.
    unfold apply_mobile_identity. cbn [value]. rewrite meid_identity by done. cbn [rbind]. rewrite decide_False by naive_solver. by rewrite Hs.
  - injection H as <-. destruct s. cbn in *. by subst.
Qed.

Lemma step_identities imsi esn meid w es s :
  push_mobile_identities imsi esn meid = Ok w → opt (octets_ok 7) meid →
  s_imsi s = None → s_esn s = None → s_meid s = None →
  for_elements arm (w ++ es) s = for_elements arm es (set_meid meid (set_esn esn (set_imsi imsi s))).
Proof using Harm.
  intros Hp Hm H1 H2 H3. unfold push_mobile_identities in Hp. ok_inv Hp. injection Hp as <-. rewrite <- !app_assoc.
  unfold ensure_mobile_identity_fields in Hok.
  erewrite step_imsi, step_esn, step_meid; [done|done|done|done|..]; try done.
  all: cbn; intros ->; destruct esn, meid; done.
Qed.
End identities.

(** ** Well-typed messages *)
Definition SetupA8_ok (m : SetupA8Message.t) : Prop :=
  opt call_ref_ok (SetupA8Message.call_connection_reference m) ∧ opt (octets_ok 4) (SetupA8Message.correlation_id m) ∧
  opt imsi_ok (SetupA8Message.imsi m) ∧ opt is_u32 (SetupA8Message.esn m) ∧
  opt (octets_ok 7) (SetupA8Message.meid m) ∧ is_u8 (SetupA8Message.con_ref m) ∧
  opt is_u8 (SetupA8Message.quality_of_service_parameters m) ∧ bytes (SetupA8Message.bsc_id m) ∧
  traffic_ok (SetupA8Message.a8_traffic_id m) ∧ is_u16 (SetupA8Message.service_option m) ∧
  opt is_u16 (SetupA8Message.user_zone_id m).
Definition ConnectA8_ok (m : ConnectA8Message.t) : Prop :=
  opt call_ref_ok (ConnectA8Message.call_connection_reference m) ∧
  opt (octets_ok 4) (ConnectA8Message.correlation_id m) ∧ opt imsi_ok (ConnectA8Message.imsi m) ∧
  opt is_u32 (ConnectA8Message.esn m) ∧ opt (octets_ok 7) (ConnectA8Message.meid m) ∧
  is_u8 (ConnectA8Message.con_ref m) ∧ traffic_ok (ConnectA8Message.a8_traffic_id m) ∧
  is_u8 (ConnectA8Message.cause m) ∧ opt (octets_ok 4) (ConnectA8Message.pdsn_ip_address m).
Definition DisconnectA8_ok (m : DisconnectA8Message.t) : Prop :=
  opt call_ref_ok (DisconnectA8Message.call_connection_reference m) ∧
  opt (octets_ok 4) (DisconnectA8Message.correlation_id m) ∧ opt imsi_ok (DisconnectA8Message.imsi m) ∧
  opt is_u32 (DisconnectA8Message.esn m) ∧ opt (octets_ok 7) (DisconnectA8Message.meid m) ∧
  is_u8 (DisconnectA8Message.con_ref m) ∧ traffic_ok (DisconnectA8Message.a8_traffic_id m) ∧
  is_u8 (DisconnectA8Message.cause m).
Definition ReleaseA8_ok (m : ReleaseA8Message.t) : Prop :=
  opt call_ref_ok (ReleaseA8Message.call_connection_reference m) ∧
  opt (octets_ok 4) (ReleaseA8Message.correlation_id m) ∧ opt imsi_ok (ReleaseA8Message.imsi m) ∧
  opt is_u32 (ReleaseA8Message.esn m) ∧ opt (octets_ok 7) (ReleaseA8Message.meid m) ∧
  is_u8 (ReleaseA8Message.con_ref m) ∧ traffic_ok (ReleaseA8Message.a8_traffic_id m) ∧
  is_u8 (ReleaseA8Message.cause m).
Definition ReleaseA8Complete_ok (m : ReleaseA8CompleteMessage.t) : Prop :=
  opt call_ref_ok (ReleaseA8CompleteMessage.call_connection_reference m) ∧
  opt (octets_ok 4) (ReleaseA8CompleteMessage.correlation_id m).
Definition BsServiceRequest_ok (m : BsServiceRequestMessage.t) : Prop :=
  opt (octets_ok 4) (BsServiceRequestMessage.correlation_id m) ∧ opt imsi_ok (BsServiceRequestMessage.imsi m) ∧
  opt is_u32 (BsServiceRequestMessage.esn m) ∧ opt (octets_ok 7) (BsServiceRequestMessage.meid m) ∧
  is_u16 (BsServiceRequestMessage.service_option m) ∧ is_u16 (BsServiceRequestMessage.data_count m).
Definition BsServiceResponse_ok (m : BsServiceResponseMessage.t) : Prop :=
  opt (octets_ok 4) (BsServiceResponseMessage.correlation_id m) ∧ opt is_u8 (BsServiceResponseMessage.cause m).
Definition AlConnected_ok (m : AlConnectedMessage.t) : Prop :=
  opt call_ref_ok (AlConnectedMessage.call_connection_reference m) ∧
  opt (octets_ok 4) (AlConnectedMessage.correlation_id m) ∧ traffic_ok (AlConnectedMessage.a8_traffic_id m) ∧
  opt (octets_ok 4) (AlConnectedMessage.pdsn_ip_address m).
Definition AlConnectedAck_ok (m : AlConnectedAckMessage.t) : Prop :=
  opt call_ref_ok (AlConnectedAckMessage.call_connection_reference m) ∧
  opt (octets_ok 4) (AlConnectedAckMessage.correlation_id m).
Definition AlDisconnected_ok (m : AlDisconnectedMessage.t) : Prop :=
  opt call_ref_ok (AlDisconnectedMessage.call_connection_reference m) ∧
  opt (octets_ok 4) (AlDisconnectedMessage.correlation_id m) ∧ traffic_ok (AlDisconnectedMessage.a8_traffic_id m).
Definition AlDisconnectedAck_ok (m : AlDisconnectedAckMessage.t) : Prop :=
  opt call_ref_ok (AlDisconnectedAckMessage.call_connection_reference m) ∧
  opt (octets_ok 4) (AlDisconnectedAckMessage.correlation_id m).
Definition VersionInfo_ok (m : VersionInfoMessage.t) : Prop :=
  opt (octets_ok 4) (VersionInfoMessage.correlation_id m) ∧ opt is_u8 (VersionInfoMessage.cause m) ∧
  opt version_ok (VersionInfoMessage.software_version m).
Definition VersionInfoAck_ok (m : VersionInfoAckMessage.t) : Prop :=
  opt (octets_ok 4) (VersionInfoAckMessage.correlation_id m) ∧
  opt version_ok (VersionInfoAckMessage.software_version m).
Definition UpdateA8_ok (m : UpdateA8Message.t) : Prop :=
  opt call_ref_ok (UpdateA8Message.call_connection_reference m) ∧
  opt (octets_ok 4) (UpdateA8Message.correlation_id m) ∧ opt imsi_ok (UpdateA8Message.imsi m) ∧
  opt is_u32 (UpdateA8Message.esn m) ∧ opt (octets_ok 7) (UpdateA8Message.meid m) ∧
  opt service_configuration_ok (UpdateA8Message.service_configuration_record m) ∧
  opt is_u16 (UpdateA8Message.service_option m) ∧ opt is_u16 (UpdateA8Message.user_zone_id m) ∧
  opt is_u8 (UpdateA8Message.quality_of_service_parameters m) ∧ opt is_u8 (UpdateA8Message.cause m) ∧
  opt is_u8 (UpdateA8Message.rn_pdit m) ∧ opt is_u8 (UpdateA8Message.sr_id m) ∧
  opt (octets_ok 4) (UpdateA8Message.pdsn_ip_address m) ∧ opt (octets_ok 4) (UpdateA8Message.anchor_pdsn_address m) ∧
  opt (octets_ok 4) (UpdateA8Message.anchor_pp_address m).
Definition UpdateA8Ack_ok (m : UpdateA8AckMessage.t) : Prop :=
  opt call_ref_ok (UpdateA8AckMessage.call_connection_reference m) ∧
  opt (octets_ok 4) (UpdateA8AckMessage.correlation_id m) ∧ opt is_u8 (UpdateA8AckMessage.cause m).
Definition ShortDataDelivery_ok (m : ShortDataDeliveryMessage.t) : Prop :=
  opt (octets_ok 4) (ShortDataDeliveryMessage.correlation_id m) ∧ opt imsi_ok (ShortDataDeliveryMessage.imsi m) ∧
  opt is_u32 (ShortDataDeliveryMessage.esn m) ∧ opt (octets_ok 7) (ShortDataDeliveryMessage.meid m) ∧
  opt is_u8 (ShortDataDeliveryMessage.sr_id m) ∧ opt is_u16 (ShortDataDeliveryMessage.data_count m) ∧
  user_part_ok (ShortDataDeliveryMessage.adds_user_part m).
Definition ShortDataAck_ok (m : ShortDataAckMessage.t) : Prop :=
  opt (octets_ok 4) (ShortDataAckMessage.correlation_id m) ∧ opt imsi_ok (ShortDataAckMessage.imsi m) ∧
  opt is_u32 (ShortDataAckMessage.esn m) ∧ opt (octets_ok 7) (ShortDataAckMessage.meid m) ∧
  is_u8 (ShortDataAckMessage.cause m).

(** ** Round trips *)
Create HintDb a9.
Lemma slot_call_ref o : opt call_ref_ok o → slot call_connection_reference_decode o (call_connection_reference_encode <$> o).
Proof. apply slot_fmap, call_ref_roundtrip. Qed.
Lemma slot_correlation o : opt (octets_ok 4) o → slot correlation_id_decode o (correlation_id_encode <$> o).
Proof. apply slot_fmap, fixed4_roundtrip. Qed.
Lemma slot_pdsn o : opt (octets_ok 4) o → slot pdsn_ip_address_decode o (pdsn_ip_address_encode <$> o).
Proof. apply slot_fmap, fixed4_roundtrip. Qed.
Lemma slot_anchor_pdsn o : opt (octets_ok 4) o → slot anchor_pdsn_address_decode o (anchor_pdsn_address_encode <$> o).
Proof. apply slot_fmap, fixed4_roundtrip. Qed.
Lemma slot_anchor_pp o : opt (octets_ok 4) o → slot anchor_pp_address_decode o (anchor_pp_address_encode <$> o).
Proof. apply slot_fmap, fixed4_roundtrip. Qed.
Lemma slot_service_option o : opt is_u16 o → slot service_option_decode o (service_option_encode <$> o).
Proof. apply slot_fmap, be16_roundtrip. Qed.
Lemma slot_user_zone o : opt is_u16 o → slot user_zone_id_decode o (user_zone_id_encode <$> o).
Proof. apply slot_fmap, be16_roundtrip. Qed.
Lemma slot_data_count o : opt is_u16 o → slot data_count_decode o (data_count_encode <$> o).
Proof. apply slot_fmap, be16_roundtrip. Qed.
Lemma slot_cause o : slot cause_decode o (cause_encode <$> o).
Proof. by destruct o. Qed.
Lemma slot_indicators o : slot indicators_decode o (indicators_encode <$> o).
Proof. destruct o; [|done]. apply indicators_roundtrip. Qed.
Lemma slot_qos o w : opt is_u8 o → transpose qos_encode o = Ok w → slot qos_decode o w.
Proof. apply slot_transpose, qos_roundtrip. Qed.
Lemma slot_sr_id o w : opt is_u8 o → transpose sr_id_encode o = Ok w → slot sr_id_decode o w.
Proof. apply slot_transpose, sr_id_roundtrip. Qed.
Lemma slot_rn_pdit o w : opt is_u8 o → transpose rn_pdit_encode o = Ok w → slot rn_pdit_decode o w.
Proof. apply slot_transpose. intros a w' _. apply rn_pdit_roundtrip. Qed.
Lemma slot_version o w : opt version_ok o → transpose software_version_encode o = Ok w → slot software_version_decode o w.
Proof. apply slot_transpose. intros a w' (_ & _ & _ & Hp). by apply software_version_roundtrip. Qed.
Lemma slot_configuration o w :
  opt service_configuration_ok o → transpose service_configuration_encode o = Ok w → slot service_configuration_decode o w.
Proof. apply slot_transpose, service_configuration_roundtrip. Qed.
#[export] Hint Resolve slot_call_ref slot_correlation slot_pdsn slot_anchor_pdsn slot_anchor_pp slot_service_option slot_user_zone
  slot_data_count slot_cause slot_indicators slot_qos slot_sr_id slot_rn_pdit slot_version slot_configuration
  traffic_roundtrip be16_roundtrip indicators_roundtrip bsc_id_roundtrip adds_user_part_roundtrip : a9.

Lemma encode_typed_decodes t es w : encode_typed t es = Ok w → decode_typed_message w t = Ok es.
Proof.
  unfold encode_typed, new_message. intros H. ok_inv H. ok_inv Hok. injection Hok as <-. unfold decode_typed_message.
  rewrite (raw_roundtrip t es w H). cbn. by rewrite decide_False by naive_solver.
Qed.

Ltac step_element :=
  first [ erewrite step_optional; [|intros; reflexivity|solve [eauto with a9]|reflexivity|reflexivity]
        | erewrite step_one; [|intros; reflexivity|solve [eauto with a9 nocore | reflexivity]|reflexivity]
        | erewrite step_identities; [|intros; reflexivity|eassumption|eassumption|reflexivity|reflexivity|reflexivity] ];
  cbv beta iota delta [
    set_call_connection_reference set_correlation_id set_imsi set_esn set_meid set_con_ref
    set_quality_of_service_parameters set_bsc_id set_a8_traffic_id set_service_option set_a9_indicators set_user_zone_id
    set_cause set_pdsn_ip_address set_data_count set_sr_id set_software_version set_service_configuration_record
    set_rn_pdit set_anchor_pdsn_address set_anchor_pp_address set_adds_user_part s_call_connection_reference
    s_correlation_id s_imsi s_esn s_meid s_con_ref s_quality_of_service_parameters s_bsc_id s_a8_traffic_id
    s_service_option s_a9_indicators s_user_zone_id s_cause s_pdsn_ip_address s_data_count s_sr_id s_software_version
    s_service_configuration_record s_rn_pdit s_anchor_pdsn_address s_anchor_pp_address s_adds_user_part empty_slots].
Ltac roundtrip_message :=
  let Hok := fresh "Hok" in let H := fresh "H" in
  intros Hok H; decompose [and] Hok; clear Hok; ok_inv H; apply encode_typed_decodes in H; rewrite H; clear H; cbn [rbind];
  rewrite <- (app_nil_r (_ ++ _)), <- ?app_assoc; repeat step_element; cbn;
  try match goal with a : unit, Hc : _ = Ok ?a |- _ => cbn in Hc; rewrite Hc; cbn end; reflexivity.

Lemma SetupA8_roundtrip m w : SetupA8_ok m → SetupA8Message.encode m = Ok w → SetupA8Message.decode w = Ok m.
Proof. destruct m. unfold SetupA8_ok, SetupA8Message.encode, SetupA8Message.decode. roundtrip_message. Qed.
Lemma ConnectA8_roundtrip m w : ConnectA8_ok m → ConnectA8Message.encode m = Ok w → ConnectA8Message.decode w = Ok m.
Proof. destruct m. unfold ConnectA8_ok, ConnectA8Message.encode, ConnectA8Message.decode. roundtrip_message. Qed.
Lemma DisconnectA8_roundtrip m w : DisconnectA8_ok m → DisconnectA8Message.encode m = Ok w → DisconnectA8Message.decode w = Ok m.
Proof. destruct m. unfold DisconnectA8_ok, DisconnectA8Message.encode, DisconnectA8Message.decode. roundtrip_message. Qed.
Lemma ReleaseA8_roundtrip m w : ReleaseA8_ok m → ReleaseA8Message.encode m = Ok w → ReleaseA8Message.decode w = Ok m.
Proof. destruct m. unfold ReleaseA8_ok, ReleaseA8Message.encode, ReleaseA8Message.decode. roundtrip_message. Qed.
Lemma ReleaseA8Complete_roundtrip m w : ReleaseA8Complete_ok m → ReleaseA8CompleteMessage.encode m = Ok w → ReleaseA8CompleteMessage.decode w = Ok m.
Proof. destruct m. unfold ReleaseA8Complete_ok, ReleaseA8CompleteMessage.encode, ReleaseA8CompleteMessage.decode. roundtrip_message. Qed.
Lemma BsServiceRequest_roundtrip m w : BsServiceRequest_ok m → BsServiceRequestMessage.encode m = Ok w → BsServiceRequestMessage.decode w = Ok m.
Proof. destruct m. unfold BsServiceRequest_ok, BsServiceRequestMessage.encode, BsServiceRequestMessage.decode. roundtrip_message. Qed.
Lemma BsServiceResponse_roundtrip m w : BsServiceResponse_ok m → BsServiceResponseMessage.encode m = Ok w → BsServiceResponseMessage.decode w = Ok m.
Proof. destruct m. unfold BsServiceResponse_ok, BsServiceResponseMessage.encode, BsServiceResponseMessage.decode. roundtrip_message. Qed.
Lemma AlConnected_roundtrip m w : AlConnected_ok m → AlConnectedMessage.encode m = Ok w → AlConnectedMessage.decode w = Ok m.
Proof. destruct m. unfold AlConnected_ok, AlConnectedMessage.encode, AlConnectedMessage.decode. roundtrip_message. Qed.
Lemma AlConnectedAck_roundtrip m w : AlConnectedAck_ok m → AlConnectedAckMessage.encode m = Ok w → AlConnectedAckMessage.decode w = Ok m.
Proof. destruct m. unfold AlConnectedAck_ok, AlConnectedAckMessage.encode, AlConnectedAckMessage.decode. roundtrip_message. Qed.
Lemma AlDisconnected_roundtrip m w : AlDisconnected_ok m → AlDisconnectedMessage.encode m = Ok w → AlDisconnectedMessage.decode w = Ok m.
Proof. destruct m. unfold AlDisconnected_ok, AlDisconnectedMessage.encode, AlDisconnectedMessage.decode. roundtrip_message. Qed.
Lemma AlDisconnectedAck_roundtrip m w : AlDisconnectedAck_ok m → AlDisconnectedAckMessage.encode m = Ok w → AlDisconnectedAckMessage.decode w = Ok m.
Proof. destruct m. unfold AlDisconnectedAck_ok, AlDisconnectedAckMessage.encode, AlDisconnectedAckMessage.decode. roundtrip_message. Qed.
Lemma VersionInfo_roundtrip m w : VersionInfo_ok m → VersionInfoMessage.encode m = Ok w → VersionInfoMessage.decode w = Ok m.
Proof. destruct m. unfold VersionInfo_ok, VersionInfoMessage.encode, VersionInfoMessage.decode. roundtrip_message. Qed.
Lemma VersionInfoAck_roundtrip m w : VersionInfoAck_ok m → VersionInfoAckMessage.encode m = Ok w → VersionInfoAckMessage.decode w = Ok m.
Proof. destruct m. unfold VersionInfoAck_ok, VersionInfoAckMessage.encode, VersionInfoAckMessage.decode. roundtrip_message. Qed.
Lemma UpdateA8_roundtrip m w : UpdateA8_ok m → UpdateA8Message.encode m = Ok w → UpdateA8Message.decode w = Ok m.
Proof. destruct m. unfold UpdateA8_ok, UpdateA8Message.encode, UpdateA8Message.decode. roundtrip_message. Qed.
Lemma UpdateA8Ack_roundtrip m w : UpdateA8Ack_ok m → UpdateA8AckMessage.encode m = Ok w → UpdateA8AckMessage.decode w = Ok m.
Proof. destruct m. unfold UpdateA8Ack_ok, UpdateA8AckMessage.encode, UpdateA8AckMessage.decode. roundtrip_message. Qed.
Lemma ShortDataDelivery_roundtrip m w : ShortDataDelivery_ok m → ShortDataDeliveryMessage.encode m = Ok w → ShortDataDeliveryMessage.decode w = Ok m.
Proof. destruct m. unfold ShortDataDelivery_ok, ShortDataDeliveryMessage.encode, ShortDataDeliveryMessage.decode. roundtrip_message. Qed.
Lemma ShortDataAck_roundtrip m w : ShortDataAck_ok m → ShortDataAckMessage.encode m = Ok w → ShortDataAckMessage.decode w = Ok m.
Proof. destruct m. unfold ShortDataAck_ok, ShortDataAckMessage.encode, ShortDataAckMessage.decode. roundtrip_message. Qed.

(** ** Messages that can be sent *)
Definition is_ok {A} (r : Result A) : Prop := ∃ a, r = Ok a.
Create HintDb a9len.
Abbreviation fits := (from_option (λ w : list Z, length w ≤ 255)%nat True).
Lemma fits_fmap {A} (P : A → Prop) (enc : A → list Z) o : (∀ a, P a → length (enc a) ≤ 255)%nat → opt P o → fits (enc <$> o).
Proof. destruct o; cbn; auto. Qed.
Lemma fits_transpose {A} (P : A → Prop) (enc : A → Result (list Z)) o w :
  (∀ a w, P a → enc a = Ok w → length w ≤ 255)%nat → opt P o → transpose enc o = Ok w → fits w.
Proof.
  intros H Ho. destruct o as [a|]; cbn; [|by intros [= <-]]. destruct (enc a) eqn:E; [|done]. intros [= <-]. cbn. eauto.
Qed.
Lemma fits_call_ref o : fits (call_connection_reference_encode <$> o).
Proof. destruct o; cbn; [lia|done]. Qed.
Lemma fits_octets4 (o : option (list Z)) : opt (octets_ok 4) o → fits (correlation_id_encode <$> o).
Proof. apply fits_fmap. intros a [H _]. unfold correlation_id_encode. lia. Qed.
Lemma fits_be16 o : fits (service_option_encode <$> o).
Proof. destruct o; cbn; [lia|done]. Qed.
Lemma fits_octet o : fits (cause_encode <$> o).
Proof. destruct o; cbn; [lia|done]. Qed.
Lemma fits_indicators o : fits (indicators_encode <$> o).
Proof. destruct o; cbn; [lia|done]. Qed.
Lemma fits_traffic t : traffic_ok t → (length (traffic_encode t) ≤ 255)%nat.
Proof. intros (_ & _ & _ & H). unfold traffic_encode. destruct (ip_address t); destruct H as [H _]; cbn; lia. Qed.
Lemma fits_bsc v w : bsc_id_encode v = Ok w → (length w ≤ 255)%nat.
Proof. unfold bsc_id_encode. destruct (decide _) as [|H]; [done|]. intros [= <-]. destruct (decide (6 < length v)%nat); [tauto|lia]. Qed.
Lemma fits_qos o w : transpose qos_encode o = Ok w → fits w.
Proof.
  apply (fits_transpose (λ _, True)); [|by destruct o]. intros a w' _. unfold qos_encode. destruct (_ <? _); [done|]. intros [= <-]. cbn; lia.
Qed.
Lemma fits_sr_id o w : transpose sr_id_encode o = Ok w → fits w.
Proof.
  apply (fits_transpose (λ _, True)); [|by destruct o]. intros a w' _. unfold sr_id_encode. destruct (_ || _); [done|]. intros [= <-]. cbn; lia.
Qed.
Lemma fits_rn_pdit o w : transpose rn_pdit_encode o = Ok w → fits w.
Proof.
  apply (fits_transpose (λ _, True)); [|by destruct o]. intros a w' _. unfold rn_pdit_encode. destruct (_ =? _); [done|]. intros [= <-]. cbn; lia.
Qed.
Lemma fits_version o w :
  opt version_ok o → opt (λ v, length (manufacturer_carrier_software_information v) ≤ 252)%nat o →
  transpose software_version_encode o = Ok w → fits w.
Proof.
  intros Hv Hl. apply (fits_transpose (λ v, version_ok v ∧ length (manufacturer_carrier_software_information v) ≤ 252)%nat);
    [|by destruct o]. intros a w' [(_ & _ & _ & Hp) Ha]. unfold software_version_encode. rewrite printable_bytes, Hp by done.
  intros [= <-]. cbn. lia.
Qed.
Lemma fits_configuration o w :
  opt (λ v, length (content v) ≤ 253)%nat o → transpose service_configuration_encode o = Ok w → fits w.
Proof.
  apply fits_transpose. intros a w' Ha. unfold service_configuration_encode. destruct (_ <? _); [done|]. destruct (decide _); [done|].
  intros [= <-]. cbn. lia.
Qed.
Lemma fits_user_part v w : (length (application_data_message v) ≤ 254)%nat → adds_user_part_encode v = Ok w → (length w ≤ 255)%nat.
Proof.
  intros H. unfold adds_user_part_encode. destruct (decide _); [done|]. destruct (negb _); [done|]. intros [= <-]. cbn. lia.
Qed.
#[export] Hint Resolve fits_call_ref fits_octets4 fits_be16 fits_octet fits_indicators fits_traffic fits_bsc fits_qos fits_sr_id fits_rn_pdit
  fits_version fits_configuration fits_user_part : a9len.

Definition SetupA8_sendable (m : SetupA8Message.t) : Prop :=
  is_ok (push_mobile_identities (SetupA8Message.imsi m) (SetupA8Message.esn m) (SetupA8Message.meid m)) ∧
  is_ok (transpose qos_encode (SetupA8Message.quality_of_service_parameters m)) ∧
  is_ok (bsc_id_encode (SetupA8Message.bsc_id m)).
Definition ConnectA8_sendable (m : ConnectA8Message.t) : Prop :=
  is_ok (ensure_connect_cause (ConnectA8Message.cause m)) ∧
  is_ok (push_mobile_identities (ConnectA8Message.imsi m) (ConnectA8Message.esn m) (ConnectA8Message.meid m)).
Definition DisconnectA8_sendable (m : DisconnectA8Message.t) : Prop :=
  is_ok (ensure_release_cause (DisconnectA8Message.cause m) "DisconnectA8.cause") ∧
  is_ok (push_mobile_identities (DisconnectA8Message.imsi m) (DisconnectA8Message.esn m) (DisconnectA8Message.meid m)).
Definition ReleaseA8_sendable (m : ReleaseA8Message.t) : Prop :=
  is_ok (ensure_release_cause (ReleaseA8Message.cause m) "ReleaseA8.cause") ∧
  is_ok (push_mobile_identities (ReleaseA8Message.imsi m) (ReleaseA8Message.esn m) (ReleaseA8Message.meid m)).
Definition ReleaseA8Complete_sendable (m : ReleaseA8CompleteMessage.t) : Prop :=
  True.
Definition BsServiceRequest_sendable (m : BsServiceRequestMessage.t) : Prop :=
  is_ok (push_mobile_identities (BsServiceRequestMessage.imsi m) (BsServiceRequestMessage.esn m) (BsServiceRequestMessage.meid m)).
Definition BsServiceResponse_sendable (m : BsServiceResponseMessage.t) : Prop :=
  is_ok (if_some ensure_bs_service_response_cause (BsServiceResponseMessage.cause m)).
Definition AlConnected_sendable (m : AlConnectedMessage.t) : Prop :=
  True.
Definition AlConnectedAck_sendable (m : AlConnectedAckMessage.t) : Prop :=
  True.
Definition AlDisconnected_sendable (m : AlDisconnectedMessage.t) : Prop :=
  True.
Definition AlDisconnectedAck_sendable (m : AlDisconnectedAckMessage.t) : Prop :=
  True.
Definition VersionInfo_sendable (m : VersionInfoMessage.t) : Prop :=
  is_ok (if_some ensure_version_info_cause (VersionInfoMessage.cause m)) ∧
  is_ok (transpose software_version_encode (VersionInfoMessage.software_version m)) ∧
  opt (λ v, length (manufacturer_carrier_software_information v) ≤ 252)%nat (VersionInfoMessage.software_version m).
Definition VersionInfoAck_sendable (m : VersionInfoAckMessage.t) : Prop :=
  is_ok (transpose software_version_encode (VersionInfoAckMessage.software_version m)) ∧
  opt (λ v, length (manufacturer_carrier_software_information v) ≤ 252)%nat (VersionInfoAckMessage.software_version m).
Definition UpdateA8_sendable (m : UpdateA8Message.t) : Prop :=
  is_ok (if_some ensure_update_a8_cause (UpdateA8Message.cause m)) ∧
  is_ok (push_mobile_identities (UpdateA8Message.imsi m) (UpdateA8Message.esn m) (UpdateA8Message.meid m)) ∧
  is_ok (transpose service_configuration_encode (UpdateA8Message.service_configuration_record m)) ∧
  opt (λ v, length (content v) ≤ 253)%nat (UpdateA8Message.service_configuration_record m) ∧
  is_ok (transpose qos_encode (UpdateA8Message.quality_of_service_parameters m)) ∧
  is_ok (transpose rn_pdit_encode (UpdateA8Message.rn_pdit m)) ∧
  is_ok (transpose sr_id_encode (UpdateA8Message.sr_id m)).
Definition UpdateA8Ack_sendable (m : UpdateA8AckMessage.t) : Prop :=
  is_ok (if_some ensure_update_a8_ack_cause (UpdateA8AckMessage.cause m)).
Definition ShortDataDelivery_sendable (m : ShortDataDeliveryMessage.t) : Prop :=
  is_ok (push_mobile_identities (ShortDataDeliveryMessage.imsi m) (ShortDataDeliveryMessage.esn m) (ShortDataDeliveryMessage.meid m)) ∧
  is_ok (transpose sr_id_encode (ShortDataDeliveryMessage.sr_id m)) ∧
  is_ok (adds_user_part_encode (ShortDataDeliveryMessage.adds_user_part m)) ∧
  (length (application_data_message (ShortDataDeliveryMessage.adds_user_part m)) ≤ 254)%nat.
Definition ShortDataAck_sendable (m : ShortDataAckMessage.t) : Prop :=
  is_ok (ensure_short_data_ack_cause (ShortDataAckMessage.cause m)) ∧
  is_ok (push_mobile_identities (ShortDataAckMessage.imsi m) (ShortDataAckMessage.esn m) (ShortDataAckMessage.meid m)).

Ltac element_allowed := apply (bool_decide_unpack _); vm_compute; exact I.
Ltac valid_fields :=
  repeat first [ eapply valid_optional; [done|element_allowed|vm_compute; reflexivity|reflexivity|reflexivity|]
               | eapply valid_one; [done|element_allowed|vm_compute; reflexivity|reflexivity|reflexivity|]
               | eapply valid_identities; [reflexivity|element_allowed|vm_compute; reflexivity|reflexivity|eassumption|eassumption|]
               | apply valid_nil ].
Ltac short_fields :=
  repeat first [ apply short_optional; [solve [eauto with a9len]|]
               | apply short_one; [solve [cbn; lia | eauto with a9len]|]
               | eapply short_identities; [eassumption|eassumption|]
               | apply Forall_nil_2 ].
Ltac required_fields :=
  unfold required_elements;
  repeat first [apply require_nil | apply require_cons; [repeat first [apply has_here | apply has_skip]|]].
Ltac send_message :=
  let Hok := fresh "Hok" in let Hs := fresh "Hs" in
  intros Hok Hs; destruct_and? Hok; destruct_and? Hs;
  repeat match goal with H : is_ok _ |- _ => let a := fresh "a" in destruct H as [a H]; rewrite H; cbn [rbind] end;
  rewrite <- (app_nil_r (_ ++ _)), <- ?app_assoc;
  apply encode_typed_total; [valid_fields|required_fields|short_fields].

Lemma SetupA8_total m : SetupA8_ok m → SetupA8_sendable m → ∃ w, SetupA8Message.encode m = Ok w.
Proof. unfold SetupA8_ok, SetupA8_sendable, SetupA8Message.encode. send_message. Qed.
Lemma ConnectA8_total m : ConnectA8_ok m → ConnectA8_sendable m → ∃ w, ConnectA8Message.encode m = Ok w.
Proof. unfold ConnectA8_ok, ConnectA8_sendable, ConnectA8Message.encode. send_message. Qed.
Lemma DisconnectA8_total m : DisconnectA8_ok m → DisconnectA8_sendable m → ∃ w, DisconnectA8Message.encode m = Ok w.
Proof. unfold DisconnectA8_ok, DisconnectA8_sendable, DisconnectA8Message.encode. send_message. Qed.
Lemma ReleaseA8_total m : ReleaseA8_ok m → ReleaseA8_sendable m → ∃ w, ReleaseA8Message.encode m = Ok w.
Proof. unfold ReleaseA8_ok, ReleaseA8_sendable, ReleaseA8Message.encode. send_message. Qed.
Lemma ReleaseA8Complete_total m : ReleaseA8Complete_ok m → ReleaseA8Complete_sendable m → ∃ w, ReleaseA8CompleteMessage.encode m = Ok w.
Proof. unfold ReleaseA8Complete_ok, ReleaseA8Complete_sendable, ReleaseA8CompleteMessage.encode. send_message. Qed.
Lemma BsServiceRequest_total m : BsServiceRequest_ok m → BsServiceRequest_sendable m → ∃ w, BsServiceRequestMessage.encode m = Ok w.
Proof. unfold BsServiceRequest_ok, BsServiceRequest_sendable, BsServiceRequestMessage.encode. send_message. Qed.
Lemma BsServiceResponse_total m : BsServiceResponse_ok m → BsServiceResponse_sendable m → ∃ w, BsServiceResponseMessage.encode m = Ok w.
Proof. unfold BsServiceResponse_ok, BsServiceResponse_sendable, BsServiceResponseMessage.encode. send_message. Qed.
Lemma AlConnected_total m : AlConnected_ok m → AlConnected_sendable m → ∃ w, AlConnectedMessage.encode m = Ok w.
Proof. unfold AlConnected_ok, AlConnected_sendable, AlConnectedMessage.encode. send_message. Qed.
Lemma AlConnectedAck_total m : AlConnectedAck_ok m → AlConnectedAck_sendable m → ∃ w, AlConnectedAckMessage.encode m = Ok w.
Proof. unfold AlConnectedAck_ok, AlConnectedAck_sendable, AlConnectedAckMessage.encode. send_message. Qed.
Lemma AlDisconnected_total m : AlDisconnected_ok m → AlDisconnected_sendable m → ∃ w, AlDisconnectedMessage.encode m = Ok w.
Proof. unfold AlDisconnected_ok, AlDisconnected_sendable, AlDisconnectedMessage.encode. send_message. Qed.
Lemma AlDisconnectedAck_total m : AlDisconnectedAck_ok m → AlDisconnectedAck_sendable m → ∃ w, AlDisconnectedAckMessage.encode m = Ok w.
Proof. unfold AlDisconnectedAck_ok, AlDisconnectedAck_sendable, AlDisconnectedAckMessage.encode. send_message. Qed.
Lemma VersionInfo_total m : VersionInfo_ok m → VersionInfo_sendable m → ∃ w, VersionInfoMessage.encode m = Ok w.
Proof. unfold VersionInfo_ok, VersionInfo_sendable, VersionInfoMessage.encode. send_message. Qed.
Lemma VersionInfoAck_total m : VersionInfoAck_ok m → VersionInfoAck_sendable m → ∃ w, VersionInfoAckMessage.encode m = Ok w.
Proof. unfold VersionInfoAck_ok, VersionInfoAck_sendable, VersionInfoAckMessage.encode. send_message. Qed.
Lemma UpdateA8_total m : UpdateA8_ok m → UpdateA8_sendable m → ∃ w, UpdateA8Message.encode m = Ok w.
Proof. unfold UpdateA8_ok, UpdateA8_sendable, UpdateA8Message.encode. send_message. Qed.
Lemma UpdateA8Ack_total m : UpdateA8Ack_ok m → UpdateA8Ack_sendable m → ∃ w, UpdateA8AckMessage.encode m = Ok w.
Proof. unfold UpdateA8Ack_ok, UpdateA8Ack_sendable, UpdateA8AckMessage.encode. send_message. Qed.
Lemma ShortDataDelivery_total m : ShortDataDelivery_ok m → ShortDataDelivery_sendable m → ∃ w, ShortDataDeliveryMessage.encode m = Ok w.
Proof. unfold ShortDataDelivery_ok, ShortDataDelivery_sendable, ShortDataDeliveryMessage.encode. send_message. Qed.
Lemma ShortDataAck_total m : ShortDataAck_ok m → ShortDataAck_sendable m → ∃ w, ShortDataAckMessage.encode m = Ok w.
Proof. unfold ShortDataAck_ok, ShortDataAck_sendable, ShortDataAckMessage.encode. send_message. Qed.

(** ** Decoded messages are well typed *)
Definition slots_ok (s : Slots) : Prop :=
  opt call_ref_ok (s_call_connection_reference s) ∧ opt (octets_ok 4) (s_correlation_id s) ∧ opt imsi_ok (s_imsi s) ∧
  opt is_u32 (s_esn s) ∧ opt (octets_ok 7) (s_meid s) ∧ opt is_u8 (s_con_ref s) ∧
  opt is_u8 (s_quality_of_service_parameters s) ∧ opt bytes (s_bsc_id s) ∧ opt traffic_ok (s_a8_traffic_id s) ∧
  opt is_u16 (s_service_option s) ∧ opt is_u16 (s_user_zone_id s) ∧ opt is_u8 (s_cause s) ∧
  opt (octets_ok 4) (s_pdsn_ip_address s) ∧ opt is_u16 (s_data_count s) ∧ opt is_u8 (s_sr_id s) ∧
  opt version_ok (s_software_version s) ∧ opt service_configuration_ok (s_service_configuration_record s) ∧
  opt is_u8 (s_rn_pdit s) ∧ opt (octets_ok 4) (s_anchor_pdsn_address s) ∧ opt (octets_ok 4) (s_anchor_pp_address s) ∧
  opt user_part_ok (s_adds_user_part s).
Lemma empty_slots_ok : slots_ok empty_slots.
Proof. repeat split. Qed.
(** A step of a decoder keeps the slots well typed. *)
Definition keeps (arm : InformationElement → Slots → Result Slots) : Prop :=
  ∀ e s s', bytes (value e) → slots_ok s → arm e s = Ok s' → slots_ok s'.
Lemma keeps_field {A} (P : A → Prop) get set dec :
  (∀ w v, bytes w → dec w = Ok v → P v) → (∀ v s, P v → slots_ok s → slots_ok (set (Some v) s)) →
  keeps (set_optional_field get set dec).
Proof.
  intros Hd Hs e s s' Hb Hok H. unfold set_optional_field in H. ok_inv H. destruct (get s); [done|]. injection H as <-. eauto.
Qed.
Ltac keeps_slot := intros v s Hv Hs; destruct s; unfold slots_ok in *; cbn in *; tauto.

Lemma keeps_call_connection_reference : keeps arm_call_connection_reference.
Proof. apply (keeps_field call_ref_ok); [by intros w v Hw [? _]%call_ref_decode_ok|keeps_slot]. Qed.
Lemma keeps_correlation_id : keeps arm_correlation_id.
Proof. apply (keeps_field (octets_ok 4)); [by intros w v Hw [? _]%fixed4_ok|keeps_slot]. Qed.
Lemma keeps_con_ref : keeps arm_con_ref.
Proof. apply (keeps_field is_u8); [apply octet_ok|keeps_slot]. Qed.
Lemma keeps_quality_of_service_parameters : keeps arm_quality_of_service_parameters.
Proof. apply (keeps_field is_u8); [apply qos_ok|keeps_slot]. Qed.
Lemma keeps_bsc_id : keeps arm_bsc_id.
Proof. apply (keeps_field bytes); [apply bsc_id_ok|keeps_slot]. Qed.
Lemma keeps_a8_traffic_id : keeps arm_a8_traffic_id.
Proof. apply (keeps_field traffic_ok); [by intros w v Hw [? _]%traffic_decode_ok|keeps_slot]. Qed.
Lemma keeps_service_option : keeps arm_service_option.
Proof. apply (keeps_field is_u16); [by intros w v Hw [? _]%be16_ok|keeps_slot]. Qed.
Lemma keeps_a9_indicators : keeps arm_a9_indicators.
Proof. apply (keeps_field (λ _, True)); [done|keeps_slot]. Qed.
Lemma keeps_user_zone_id : keeps arm_user_zone_id.
Proof. apply (keeps_field is_u16); [by intros w v Hw [? _]%be16_ok|keeps_slot]. Qed.
Lemma keeps_cause : keeps arm_cause.
Proof. apply (keeps_field is_u8); [apply octet_ok|keeps_slot]. Qed.
Lemma keeps_pdsn_ip_address : keeps arm_pdsn_ip_address.
Proof. apply (keeps_field (octets_ok 4)); [by intros w v Hw [? _]%fixed4_ok|keeps_slot]. Qed.
Lemma keeps_data_count : keeps arm_data_count.
Proof. apply (keeps_field is_u16); [by intros w v Hw [? _]%be16_ok|keeps_slot]. Qed.
Lemma keeps_sr_id : keeps arm_sr_id.
Proof. apply (keeps_field is_u8); [apply sr_id_ok|keeps_slot]. Qed.
Lemma keeps_software_version : keeps arm_software_version.
Proof. apply (keeps_field version_ok); [apply software_version_decode_ok|keeps_slot]. Qed.
Lemma keeps_service_configuration_record : keeps arm_service_configuration_record.
Proof. apply (keeps_field service_configuration_ok); [apply service_configuration_decode_ok|keeps_slot]. Qed.
Lemma keeps_rn_pdit : keeps arm_rn_pdit.
Proof. apply (keeps_field is_u8); [apply rn_pdit_ok|keeps_slot]. Qed.
Lemma keeps_anchor_pdsn_address : keeps arm_anchor_pdsn_address.
Proof. apply (keeps_field (octets_ok 4)); [by intros w v Hw [? _]%fixed4_ok|keeps_slot]. Qed.
Lemma keeps_anchor_pp_address : keeps arm_anchor_pp_address.
Proof. apply (keeps_field (octets_ok 4)); [by intros w v Hw [? _]%fixed4_ok|keeps_slot]. Qed.
Lemma keeps_adds_user_part : keeps arm_adds_user_part.
Proof. apply (keeps_field user_part_ok); [apply adds_user_part_decode_ok|keeps_slot]. Qed.
Lemma keeps_identity : keeps apply_mobile_identity.
Proof.
  intros e s s' Hb Hok H. unfold apply_mobile_identity in H. ok_inv H. apply identity_decode_ok in Hok0; [|done].
  destruct a; cbn in Hok0; repeat (case_match; try done); injection H as <-; destruct s; unfold slots_ok in *; cbn in *; tauto.
Qed.

(** The arm of an element, in the decoders that have one for it. *)
Definition element_arm (i : ElementId) : InformationElement → Slots → Result Slots :=
  match i with
  | CallConnectionReference => arm_call_connection_reference
  | CorrelationId => arm_correlation_id
  | ConRef => arm_con_ref
  | QualityOfServiceParameters => arm_quality_of_service_parameters
  | BscId => arm_bsc_id
  | A8TrafficId => arm_a8_traffic_id
  | ServiceOption => arm_service_option
  | A9Indicators => arm_a9_indicators
  | UserZoneId => arm_user_zone_id
  | Cause => arm_cause
  | PdsnIpAddress => arm_pdsn_ip_address
  | DataCount => arm_data_count
  | SrId => arm_sr_id
  | SoftwareVersion => arm_software_version
  | Is2000ServiceConfigurationRecord => arm_service_configuration_record
  | RnPdit => arm_rn_pdit
  | AnchorPdsnAddress => arm_anchor_pdsn_address
  | AnchorPpAddress => arm_anchor_pp_address
  | AddsUserPart => arm_adds_user_part
  | MobileIdentity => apply_mobile_identity
  end.
Lemma keeps_element i : keeps (element_arm i).
Proof.
  destruct i; [exact keeps_con_ref| exact keeps_user_zone_id| exact keeps_service_option| exact keeps_cause|
    exact keeps_a9_indicators| exact keeps_bsc_id| exact keeps_quality_of_service_parameters|
    exact keeps_a8_traffic_id| exact keeps_data_count| exact keeps_sr_id| exact keeps_correlation_id|
    exact keeps_pdsn_ip_address| exact keeps_identity| exact keeps_service_configuration_record| exact keeps_rn_pdit|
    exact keeps_anchor_pdsn_address| exact keeps_software_version| exact keeps_adds_user_part|
    exact keeps_call_connection_reference| exact keeps_anchor_pp_address].
Qed.

Lemma for_elements_ok arm es s s' :
  keeps arm → Forall (λ e, bytes (value e)) es → slots_ok s → for_elements arm es s = Ok s' → slots_ok s'.
Proof.
  intros Hk Hes. revert s. induction Hes as [|e es He _ IH]; intros s Hs H; [by injection H as <-|]. cbn in H. ok_inv H. eauto.
Qed.
Lemma decode_typed_bytes w t es : bytes w → decode_typed_message w t = Ok es → Forall (λ e, bytes (value e)) es.
Proof.
  intros Hw H. unfold decode_typed_message in H. ok_inv H. destruct (decide _); [done|]. injection H as <-.
  unfold decode in Hok. destruct w as [|i w]; [done|]. apply Forall_cons in Hw as [_ Hw]. ok_inv Hok.
  unfold new_message in Hok. ok_inv Hok. injection Hok as <-. by eapply decode_elements_ok.
Qed.
Lemma decoded_slots w t arm es s :
  bytes w → keeps arm → decode_typed_message w t = Ok es → for_elements arm es empty_slots = Ok s → slots_ok s.
Proof. intros Hw Hk He Hs. eapply for_elements_ok; [done|by eapply decode_typed_bytes|apply empty_slots_ok|done]. Qed.
Lemma required_ok {A} i (slot : option A) v : required i slot = Ok v → slot = Some v.
Proof. destruct slot; cbn; congruence. Qed.
Ltac decoded_message f :=
  let Hw := fresh "Hw" in let H := fresh "H" in let Hslots := fresh "Hslots" in intros Hw H; ok_inv H; injection H as <-;
  match goal with Hs : for_elements ?arm _ _ = Ok ?s |- _ =>
    assert (slots_ok s) as Hslots
      by (eapply decoded_slots; [exact Hw| |eassumption|exact Hs];
          intros e s1 s2 Hb1 Hs1 He1; apply (keeps_element (id e) e s1 s2 Hb1 Hs1); revert He1; clear;
          unfold f; destruct (id e); first [exact (λ H, H) | unfold unexpected; discriminate]) end;
  repeat match goal with Hr : required _ _ = Ok _ |- _ => apply required_ok in Hr end;
  unfold slots_ok in *; repeat match goal with Hr : _ = Some _ |- _ => rewrite Hr in Hslots; clear Hr end;
  clear -Hslots; cbn in *; destruct_and? Hslots; split_and?; assumption.

Lemma SetupA8_decoded w m : bytes w → SetupA8Message.decode w = Ok m → SetupA8_ok m.
Proof. unfold SetupA8Message.decode, SetupA8_ok. decoded_message SetupA8Message.arm. Qed.
Lemma ConnectA8_decoded w m : bytes w → ConnectA8Message.decode w = Ok m → ConnectA8_ok m.
Proof. unfold ConnectA8Message.decode, ConnectA8_ok. decoded_message ConnectA8Message.arm. Qed.
Lemma DisconnectA8_decoded w m : bytes w → DisconnectA8Message.decode w = Ok m → DisconnectA8_ok m.
Proof. unfold DisconnectA8Message.decode, DisconnectA8_ok. decoded_message DisconnectA8Message.arm. Qed.
Lemma ReleaseA8_decoded w m : bytes w → ReleaseA8Message.decode w = Ok m → ReleaseA8_ok m.
Proof. unfold ReleaseA8Message.decode, ReleaseA8_ok. decoded_message ReleaseA8Message.arm. Qed.
Lemma ReleaseA8Complete_decoded w m : bytes w → ReleaseA8CompleteMessage.decode w = Ok m → ReleaseA8Complete_ok m.
Proof. unfold ReleaseA8CompleteMessage.decode, ReleaseA8Complete_ok. decoded_message ReleaseA8CompleteMessage.arm. Qed.
Lemma BsServiceRequest_decoded w m : bytes w → BsServiceRequestMessage.decode w = Ok m → BsServiceRequest_ok m.
Proof. unfold BsServiceRequestMessage.decode, BsServiceRequest_ok. decoded_message BsServiceRequestMessage.arm. Qed.
Lemma BsServiceResponse_decoded w m : bytes w → BsServiceResponseMessage.decode w = Ok m → BsServiceResponse_ok m.
Proof. unfold BsServiceResponseMessage.decode, BsServiceResponse_ok. decoded_message BsServiceResponseMessage.arm. Qed.
Lemma AlConnected_decoded w m : bytes w → AlConnectedMessage.decode w = Ok m → AlConnected_ok m.
Proof. unfold AlConnectedMessage.decode, AlConnected_ok. decoded_message AlConnectedMessage.arm. Qed.
Lemma AlConnectedAck_decoded w m : bytes w → AlConnectedAckMessage.decode w = Ok m → AlConnectedAck_ok m.
Proof. unfold AlConnectedAckMessage.decode, AlConnectedAck_ok. decoded_message AlConnectedAckMessage.arm. Qed.
Lemma AlDisconnected_decoded w m : bytes w → AlDisconnectedMessage.decode w = Ok m → AlDisconnected_ok m.
Proof. unfold AlDisconnectedMessage.decode, AlDisconnected_ok. decoded_message AlDisconnectedMessage.arm. Qed.
Lemma AlDisconnectedAck_decoded w m : bytes w → AlDisconnectedAckMessage.decode w = Ok m → AlDisconnectedAck_ok m.
Proof. unfold AlDisconnectedAckMessage.decode, AlDisconnectedAck_ok. decoded_message AlDisconnectedAckMessage.arm. Qed.
Lemma VersionInfo_decoded w m : bytes w → VersionInfoMessage.decode w = Ok m → VersionInfo_ok m.
Proof. unfold VersionInfoMessage.decode, VersionInfo_ok. decoded_message VersionInfoMessage.arm. Qed.
Lemma VersionInfoAck_decoded w m : bytes w → VersionInfoAckMessage.decode w = Ok m → VersionInfoAck_ok m.
Proof. unfold VersionInfoAckMessage.decode, VersionInfoAck_ok. decoded_message VersionInfoAckMessage.arm. Qed.
Lemma UpdateA8_decoded w m : bytes w → UpdateA8Message.decode w = Ok m → UpdateA8_ok m.
Proof. unfold UpdateA8Message.decode, UpdateA8_ok. decoded_message UpdateA8Message.arm. Qed.
Lemma UpdateA8Ack_decoded w m : bytes w → UpdateA8AckMessage.decode w = Ok m → UpdateA8Ack_ok m.
Proof. unfold UpdateA8AckMessage.decode, UpdateA8Ack_ok. decoded_message UpdateA8AckMessage.arm. Qed.
Lemma ShortDataDelivery_decoded w m : bytes w → ShortDataDeliveryMessage.decode w = Ok m → ShortDataDelivery_ok m.
Proof. unfold ShortDataDeliveryMessage.decode, ShortDataDelivery_ok. decoded_message ShortDataDeliveryMessage.arm. Qed.
Lemma ShortDataAck_decoded w m : bytes w → ShortDataAckMessage.decode w = Ok m → ShortDataAck_ok m.
Proof. unfold ShortDataAckMessage.decode, ShortDataAck_ok. decoded_message ShortDataAckMessage.arm. Qed.
