(* ===== verification/A9Session.v ===== *)
(** * A9 procedures ([cdma-a9/src/session.rs])

    The procedure engine of one end of the A9 interface: sessions by connection reference,
    indexes by traffic identifier, call reference and correlation, and the phases of the
    procedures.  Every handler checks before it changes anything, so a handler is a function
    to [Result (ProcedureEngine * ProcedureEvent)]: after an error the engine is as it was.
    A [BTreeMap] is a [gmap] keyed by octets. *)
From S2P Require Import Prelude Octets Text A9Codec A9Elements A9Typed.
Import A9 A9Elements A9Typed.

Module A9Session.

Inductive ProcedureRole := Bsc | Pcf.
#[export] Instance ProcedureRole_eq_dec : EqDecision ProcedureRole.
Proof. solve_decision. Defined.

Record PendingRequestIdentity := mkPending {
  p_call_connection_reference : option CallReference; p_correlation_id : option (list Z)
}.
#[export] Instance PendingRequestIdentity_eq_dec : EqDecision PendingRequestIdentity.
Proof. solve_decision. Defined.

Inductive SessionPhase :=
| SetupPending (initiated_by_local : bool) (pending : PendingRequestIdentity)
| Connected
| DisconnectPending (initiated_by_local : bool) (pending : PendingRequestIdentity)
| ReleasePending (initiated_by_local : bool) (pending : PendingRequestIdentity).
#[export] Instance SessionPhase_eq_dec : EqDecision SessionPhase.
Proof. solve_decision. Defined.

Inductive AccessLinkPhase :=
| AlDown
| AlConnectPending (initiated_by_local : bool) (pending : PendingRequestIdentity)
| AlUp
| AlDisconnectPending (initiated_by_local : bool) (pending : PendingRequestIdentity).
#[export] Instance AccessLinkPhase_eq_dec : EqDecision AccessLinkPhase.
Proof. solve_decision. Defined.

Inductive SessionUpdatePhase :=
| UpdateIdle
| UpdatePending (pending : PendingRequestIdentity) (initiated_by_local : bool).
#[export] Instance SessionUpdatePhase_eq_dec : EqDecision SessionUpdatePhase.
Proof. solve_decision. Defined.

Record BsServiceRequestState := mkBsRequest {
  bs_correlation_id : option (list Z); bs_imsi : option Text.chars; bs_esn : option Z; bs_meid : option (list Z);
  bs_service_option : Z; bs_data_count : Z
}.
Inductive BsServicePhase := BsIdle | BsPending (request : BsServiceRequestState) (initiated_by_local : bool).
Record VersionInfoRequestState := mkVersionRequest { v_correlation_id : option (list Z) }.
Inductive VersionInfoPhase := VersionIdle | VersionPending (request : VersionInfoRequestState) (initiated_by_local : bool).
Record ShortDataRequestState := mkShortData {
  sd_correlation_id : option (list Z); sd_imsi : option Text.chars; sd_esn : option Z; sd_meid : option (list Z)
}.
Inductive ShortDataPhase := ShortDataIdle | DeliveryPending (request : ShortDataRequestState) (initiated_by_local : bool).

Inductive ProcedureMessage :=
| PSetupA8 (m : SetupA8Message.t) | PConnectA8 (m : ConnectA8Message.t) | PDisconnectA8 (m : DisconnectA8Message.t)
| PReleaseA8 (m : ReleaseA8Message.t) | PReleaseA8Complete (m : ReleaseA8CompleteMessage.t)
| PBsServiceRequest (m : BsServiceRequestMessage.t) | PBsServiceResponse (m : BsServiceResponseMessage.t)
| PAlConnected (m : AlConnectedMessage.t) | PAlConnectedAck (m : AlConnectedAckMessage.t)
| PAlDisconnected (m : AlDisconnectedMessage.t) | PAlDisconnectedAck (m : AlDisconnectedAckMessage.t)
| PVersionInfo (m : VersionInfoMessage.t) | PVersionInfoAck (m : VersionInfoAckMessage.t)
| PUpdateA8 (m : UpdateA8Message.t) | PUpdateA8Ack (m : UpdateA8AckMessage.t)
| PShortDataDelivery (m : ShortDataDeliveryMessage.t) | PShortDataAck (m : ShortDataAckMessage.t).
Definition procedure_type (m : ProcedureMessage) : MessageType :=
  match m with
  | PSetupA8 _ => SetupA8 | PConnectA8 _ => ConnectA8 | PDisconnectA8 _ => DisconnectA8 | PReleaseA8 _ => ReleaseA8
  | PReleaseA8Complete _ => ReleaseA8Complete | PBsServiceRequest _ => BsServiceRequest
  | PBsServiceResponse _ => BsServiceResponse | PAlConnected _ => AlConnected | PAlConnectedAck _ => AlConnectedAck
  | PAlDisconnected _ => AlDisconnected | PAlDisconnectedAck _ => AlDisconnectedAck | PVersionInfo _ => VersionInfo
  | PVersionInfoAck _ => VersionInfoAck | PUpdateA8 _ => UpdateA8 | PUpdateA8Ack _ => UpdateA8Ack
  | PShortDataDelivery _ => ShortDataDelivery | PShortDataAck _ => ShortDataAck
  end.

Inductive ProcedureEvent :=
| SessionCreated (con_ref : list Z) (phase : SessionPhase)
| SessionUpdated (con_ref : list Z) (phase : SessionPhase) (access_link_phase : AccessLinkPhase)
| SessionReleased (con_ref : list Z)
| BsServiceUpdated (phase : BsServicePhase)
| VersionInfoUpdated (phase : VersionInfoPhase)
| SessionUpdateUpdated (con_ref : list Z) (phase : SessionUpdatePhase)
| ShortDataUpdated (phase : ShortDataPhase)
| Ignored (message_type : MessageType).

Record Session := mkSession {
  con_ref : Z; call_connection_reference : option CallReference; correlation_id : option (list Z);
  a8_traffic_id : TrafficId; phase : SessionPhase; access_link_phase : AccessLinkPhase;
  session_update_phase : SessionUpdatePhase
}.
Record ProcedureEngine := mkEngine {
  role : ProcedureRole;
  sessions : gmap (list Z) Session;
  traffic_index : gmap (list Z) (list Z);
  call_ref_index : gmap (list Z) (list Z);
  correlation_index : gmap (list Z) (list Z);
  bs_service_phase : BsServicePhase;
  version_info_phase : VersionInfoPhase;
  short_data_phase : ShortDataPhase
}.
Definition new_engine (role : ProcedureRole) : ProcedureEngine :=
  mkEngine role ∅ ∅ ∅ ∅ BsIdle VersionIdle ShortDataIdle.

Definition set_sessions (f : gmap (list Z) Session → gmap (list Z) Session) (e : ProcedureEngine) : ProcedureEngine :=
  mkEngine (role e) (f (sessions e)) (traffic_index e) (call_ref_index e) (correlation_index e)
    (bs_service_phase e) (version_info_phase e) (short_data_phase e).
Definition set_phase (p : SessionPhase) (s : Session) : Session :=
  mkSession (con_ref s) (call_connection_reference s) (correlation_id s) (a8_traffic_id s) p (access_link_phase s)
    (session_update_phase s).
Definition set_access_link_phase (p : AccessLinkPhase) (s : Session) : Session :=
  mkSession (con_ref s) (call_connection_reference s) (correlation_id s) (a8_traffic_id s) (phase s) p
    (session_update_phase s).
Definition set_session_update_phase (p : SessionUpdatePhase) (s : Session) : Session :=
  mkSession (con_ref s) (call_connection_reference s) (correlation_id s) (a8_traffic_id s) (phase s) (access_link_phase s) p.
Definition set_bs_service_phase (p : BsServicePhase) (e : ProcedureEngine) : ProcedureEngine :=
  mkEngine (role e) (sessions e) (traffic_index e) (call_ref_index e) (correlation_index e) p
    (version_info_phase e) (short_data_phase e).
Definition set_version_info_phase (p : VersionInfoPhase) (e : ProcedureEngine) : ProcedureEngine :=
  mkEngine (role e) (sessions e) (traffic_index e) (call_ref_index e) (correlation_index e) (bs_service_phase e) p
    (short_data_phase e).
Definition set_short_data_phase (p : ShortDataPhase) (e : ProcedureEngine) : ProcedureEngine :=
  mkEngine (role e) (sessions e) (traffic_index e) (call_ref_index e) (correlation_index e) (bs_service_phase e)
    (version_info_phase e) p.

(** ** Keys and indexes *)
Definition con_ref_key (c : Z) : list Z := [c].
Definition traffic_key (t : TrafficId) : list Z := traffic_encode t.

Definition insert_ref {A} (key : A → list Z) (v : option A) (c : list Z) (index : gmap (list Z) (list Z)) :=
  match v with Some v => <[key v := c]> index | None => index end.
Definition remove_ref {A} (key : A → list Z) (v : option A) (index : gmap (list Z) (list Z)) :=
  match v with Some v => delete (key v) index | None => index end.

Definition insert_indexes (c : list Z) (s : Session) (e : ProcedureEngine) : ProcedureEngine :=
  mkEngine (role e) (sessions e) (<[traffic_key (a8_traffic_id s) := c]> (traffic_index e))
    (insert_ref call_connection_reference_encode (call_connection_reference s) c (call_ref_index e))
    (insert_ref correlation_id_encode (correlation_id s) c (correlation_index e))
    (bs_service_phase e) (version_info_phase e) (short_data_phase e).
Definition remove_indexes (s : Session) (e : ProcedureEngine) : ProcedureEngine :=
  mkEngine (role e) (sessions e) (delete (traffic_key (a8_traffic_id s)) (traffic_index e))
    (remove_ref call_connection_reference_encode (call_connection_reference s) (call_ref_index e))
    (remove_ref correlation_id_encode (correlation_id s) (correlation_index e))
    (bs_service_phase e) (version_info_phase e) (short_data_phase e).
Definition refresh_indexes_for_refs (c : list Z) (call_ref : option CallReference) (correlation : option (list Z))
    (e : ProcedureEngine) : ProcedureEngine :=
  mkEngine (role e) (sessions e) (traffic_index e)
    (insert_ref call_connection_reference_encode call_ref c (call_ref_index e))
    (insert_ref correlation_id_encode correlation c (correlation_index e))
    (bs_service_phase e) (version_info_phase e) (short_data_phase e).

Definition session (c : list Z) (e : ProcedureEngine) : option Session := sessions e !! c.
Definition session_by_traffic_id (t : TrafficId) (e : ProcedureEngine) : option Session :=
  c ← traffic_index e !! traffic_key t; sessions e !! c.

Definition session_mut_by_con_ref (c : Z) (e : ProcedureEngine) : Result (list Z * Session) :=
  match sessions e !! con_ref_key c with Some s => Ok (con_ref_key c, s) | None => Err UnknownSession end.
Definition session_mut_by_traffic_id (t : TrafficId) (e : ProcedureEngine) : Result (list Z * Session) :=
  match traffic_index e !! traffic_key t with
  | None => Err (UnknownTrafficId (key t))
  | Some c => match sessions e !! c with Some s => Ok (c, s) | None => Err UnknownSession end
  end.
Definition session_mut_at (c : list Z) (e : ProcedureEngine) : Result Session :=
  match sessions e !! c with Some s => Ok s | None => Err UnknownSession end.

Definition lookup_con_ref_by_response (call_ref : option CallReference) (correlation : option (list Z)) (t : MessageType)
    (e : ProcedureEngine) : Result (list Z) :=
  let from_call_reference := r ← call_ref; call_ref_index e !! call_connection_reference_encode r in
  let from_correlation := r ← correlation; correlation_index e !! r in
  match from_call_reference, from_correlation with
  | Some a, Some b =>
      if decide (a ≠ b) then Err (InvalidProcedureState t "response identifiers resolve to different sessions") else Ok a
  | Some a, None => Ok a
  | None, Some b => Ok b
  | None, None => Err UnknownSession
  end.
Definition lookup_con_ref_by_identity := lookup_con_ref_by_response.

(** ** Checks *)
Definition ensure_matching_traffic_id (s : Session) (actual : TrafficId) : Result unit :=
  if decide (a8_traffic_id s ≠ actual) then Err (TrafficIdMismatch (key (a8_traffic_id s)) (key actual)) else Ok tt.
Definition ensure_response_direction (request_initiated_by_local response_initiated_by_local : bool) (t : MessageType)
    (state : string) : Result unit :=
  if Bool.eqb request_initiated_by_local response_initiated_by_local then Err (InvalidProcedureDirection t state) else Ok tt.

(** A message label and its texts. *)
Definition missing_correlation_state (label : string) : string :=
  if decide (label = "connect") then "connect correlation is missing for a setup that carried correlation"
  else if decide (label = "release") then "release correlation is missing for a disconnect that carried correlation"
  else if decide (label = "release complete") then "release complete correlation is missing for a release that carried correlation"
  else if decide (label = "BS service response") then "BS service response correlation is missing for the pending request"
  else if decide (label = "version information acknowledgement")
  then "version information acknowledgement correlation is missing for the pending request"
  else if decide (label = "short data acknowledgement")
  then "short data acknowledgement correlation is missing for the pending request"
  else if decide (label = "access link connect acknowledgement")
  then "access link connect acknowledgement correlation is missing for the pending request"
  else if decide (label = "access link disconnect acknowledgement")
  then "access link disconnect acknowledgement correlation is missing for the pending request"
  else "response correlation is missing for the pending request".
Definition mismatch_correlation_state (label : string) : string :=
  if decide (label = "connect") then "connect correlation does not match the setup request"
  else if decide (label = "release") then "release correlation does not match the disconnect request"
  else if decide (label = "release complete") then "release complete correlation does not match the release request"
  else if decide (label = "BS service response") then "BS service response correlation does not match the pending request"
  else if decide (label = "version information acknowledgement")
  then "version information acknowledgement correlation does not match the pending request"
  else if decide (label = "short data acknowledgement")
  then "short data acknowledgement correlation does not match the pending request"
  else if decide (label = "access link connect acknowledgement")
  then "access link connect acknowledgement correlation does not match the pending request"
  else if decide (label = "access link disconnect acknowledgement")
  then "access link disconnect acknowledgement correlation does not match the pending request"
  else "response correlation does not match the pending request".
Definition unexpected_correlation_state (label : string) : string :=
  if decide (label = "connect") then "connect correlation is present without setup correlation"
  else if decide (label = "release complete") then "release complete correlation is present without release correlation"
  else if decide (label = "BS service response")
  then "BS service response correlation is present without a pending request correlation"
  else if decide (label = "version information acknowledgement")
  then "version information acknowledgement correlation is present without a pending request correlation"
  else if decide (label = "short data acknowledgement")
  then "short data acknowledgement correlation is present without a pending request correlation"
  else if decide (label = "access link connect acknowledgement")
  then "access link connect acknowledgement correlation is present without a pending request correlation"
  else if decide (label = "access link disconnect acknowledgement")
  then "access link disconnect acknowledgement correlation is present without a pending request correlation"
  else "response correlation is present without a pending request correlation".
Definition mismatch_call_connection_reference_state (label : string) : string :=
  if decide (label = "connect") then "connect call connection reference does not match the setup request"
  else if decide (label = "release complete")
  then "release complete call connection reference does not match the release request"
  else if decide (label = "access link connect acknowledgement")
  then "access link connect acknowledgement call connection reference does not match the pending request"
  else if decide (label = "access link disconnect acknowledgement")
  then "access link disconnect acknowledgement call connection reference does not match the pending request"
  else "response call connection reference does not match the pending request".

Definition ensure_optional_response_correlation (expected actual : option (list Z)) (t : MessageType) (label : string)
    : Result unit :=
  match expected, actual with
  | Some expected, Some actual =>
      if decide (actual = expected) then Ok tt else Err (InvalidProcedureState t (mismatch_correlation_state label))
  | Some _, None => Ok tt
  | None, Some _ => Err (InvalidProcedureState t (unexpected_correlation_state label))
  | None, None => Ok tt
  end.
Definition ensure_required_correlation (expected actual : option (list Z)) (t : MessageType) (label : string) : Result unit :=
  match expected, actual with
  | Some expected, Some actual =>
      if decide (actual = expected) then Ok tt else Err (InvalidProcedureState t (mismatch_correlation_state label))
  | Some _, None => Err (InvalidProcedureState t (missing_correlation_state label))
  | None, Some _ => Err (InvalidProcedureState t (unexpected_correlation_state label))
  | None, None => Ok tt
  end.
Definition ensure_response_identity (pending : PendingRequestIdentity) (call_ref : option CallReference)
    (correlation : option (list Z)) (t : MessageType) (label : string) : Result unit :=
  if (match p_call_connection_reference pending, call_ref with
      | Some expected, Some actual => bool_decide (expected ≠ actual)
      | _, _ => false
      end)
  then Err (InvalidProcedureState t (mismatch_call_connection_reference_state label))
  else ensure_optional_response_correlation (p_correlation_id pending) correlation t label.
Definition ensure_release_identity_against_disconnect (pending : PendingRequestIdentity) (correlation : option (list Z))
    (t : MessageType) : Result unit :=
  if bool_decide (is_Some (p_correlation_id pending))
  then ensure_required_correlation (p_correlation_id pending) correlation t "release" else Ok tt.
Definition ensure_call_connection_reference (s : Session) (call_ref : CallReference) (t : MessageType) : Result unit :=
  match call_connection_reference s with
  | Some expected =>
      if decide (expected ≠ call_ref) then
        Err (InvalidProcedureState t "call connection reference does not match the session") else Ok tt
  | None => Ok tt
  end.
Definition ensure_correlation_id (s : Session) (correlation : list Z) (t : MessageType) : Result unit :=
  match correlation_id s with
  | Some expected =>
      if decide (expected ≠ correlation) then Err (InvalidProcedureState t "correlation does not match the session") else Ok tt
  | None => Ok tt
  end.
(** [ensure_optional_identity_match] and [ensure_optional_scalar_match] *)
Definition ensure_optional_match {A} `{EqDecision A} (expected actual : option A) (t : MessageType)
    (mismatch_state unexpected_state : string) : Result unit :=
  match expected, actual with
  | Some expected, Some actual =>
      if decide (actual = expected) then Ok tt else Err (InvalidProcedureState t mismatch_state)
  | Some _, None => Err (InvalidProcedureState t mismatch_state)
  | None, Some _ => Err (InvalidProcedureState t unexpected_state)
  | None, None => Ok tt
  end.

(** [if let Some(..) = message.call_connection_reference { ensure_call_connection_reference(..)? }] and the same for the
    correlation, as the requests that name a session make them. *)
Definition ensure_session_refs (s : Session) (call_ref : option CallReference) (correlation : option (list Z)) (t : MessageType)
    : Result unit :=
  _ ←r if_some (λ r, ensure_call_connection_reference s r t) call_ref;
  if_some (λ c, ensure_correlation_id s c t) correlation.
(** [if message.x.is_some() { session.x = message.x; }] for both references *)
Definition adopt_refs (call_ref : option CallReference) (correlation : option (list Z)) (s : Session) : Session :=
  mkSession (con_ref s) (match call_ref with Some _ => call_ref | None => call_connection_reference s end)
    (match correlation with Some _ => correlation | None => correlation_id s end) (a8_traffic_id s) (phase s)
    (access_link_phase s) (session_update_phase s).
(** Store the session that was borrowed at [c] and refresh the indexes of [r]. *)
Definition store (c r : list Z) (s : Session) (e : ProcedureEngine) : ProcedureEngine :=
  refresh_indexes_for_refs r (call_connection_reference s) (correlation_id s) (set_sessions <[c := s]> e).

(** ** Directions *)
Definition direction_valid (role : ProcedureRole) (outbound : bool) (t : MessageType) : bool :=
  match role, outbound, t with
  | Bsc, true, (SetupA8 | ReleaseA8 | AlConnected | AlDisconnected | BsServiceResponse | VersionInfo | VersionInfoAck
               | UpdateA8 | UpdateA8Ack | ShortDataDelivery | ShortDataAck) => true
  | Bsc, false, (ConnectA8 | DisconnectA8 | ReleaseA8Complete | AlConnectedAck | AlDisconnectedAck | BsServiceRequest
                | VersionInfo | VersionInfoAck | UpdateA8 | UpdateA8Ack | ShortDataDelivery) => true
  | Pcf, false, (SetupA8 | ReleaseA8 | AlConnected | AlDisconnected | BsServiceResponse | VersionInfo | VersionInfoAck
                | UpdateA8 | UpdateA8Ack | ShortDataDelivery | ShortDataAck) => true
  | Pcf, true, (ConnectA8 | DisconnectA8 | ReleaseA8Complete | AlConnectedAck | AlDisconnectedAck | BsServiceRequest
               | VersionInfo | VersionInfoAck | UpdateA8 | UpdateA8Ack | ShortDataDelivery) => true
  | _, _, _ => false
  end.
Definition validate_direction (role : ProcedureRole) (t : MessageType) (outbound : bool) : Result unit :=
  if direction_valid role outbound t then Ok tt
  else Err (InvalidProcedureDirection t
              (if outbound then "message direction is not valid for outbound routing on this role"
               else "message direction is not valid for inbound routing on this role")).
Definition short_data_requires_ack (role : ProcedureRole) (outbound : bool) : bool :=
  match role, outbound with Pcf, true | Bsc, false => true | _, _ => false end.

(** ** Handlers *)
Abbreviation Outcome := (Result (ProcedureEngine * ProcedureEvent)).

Definition apply_setup (m : SetupA8Message.t) (local : bool) (e : ProcedureEngine) : Outcome :=
  let c := con_ref_key (SetupA8Message.con_ref m) in
  if bool_decide (is_Some (sessions e !! c)) then Err DuplicateSession
  else
    let t := SetupA8Message.a8_traffic_id m in
    if bool_decide (is_Some (traffic_index e !! traffic_key t)) then Err (DuplicateTrafficId (key t))
    else
      let r := SetupA8Message.call_connection_reference m in
      let k := SetupA8Message.correlation_id m in
      let s := mkSession (SetupA8Message.con_ref m) r k t (SetupPending local (mkPending r k)) AlDown UpdateIdle in
      Ok (set_sessions <[c := s]> (insert_indexes c s e), SessionCreated c (phase s)).

Definition apply_connect (m : ConnectA8Message.t) (local : bool) (e : ProcedureEngine) : Outcome :=
  let r := ConnectA8Message.call_connection_reference m in
  let k := ConnectA8Message.correlation_id m in
  '(c, s) ←r session_mut_by_con_ref (ConnectA8Message.con_ref m) e;
  _ ←r ensure_matching_traffic_id s (ConnectA8Message.a8_traffic_id m);
  pending ←r match phase s with
             | SetupPending _ pending => Ok pending
             | _ => Err (InvalidProcedureState ConnectA8 "session is not awaiting connect")
             end;
  _ ←r ensure_response_identity pending r k ConnectA8 "connect";
  _ ←r ensure_session_refs s r k ConnectA8;
  let s := adopt_refs r k (set_phase Connected s) in
  let c' := con_ref_key (con_ref s) in
  Ok (store c c' s e, SessionUpdated c' (phase s) (access_link_phase s)).

Definition apply_disconnect (m : DisconnectA8Message.t) (local : bool) (e : ProcedureEngine) : Outcome :=
  let r := DisconnectA8Message.call_connection_reference m in
  let k := DisconnectA8Message.correlation_id m in
  '(c, s) ←r session_mut_by_con_ref (DisconnectA8Message.con_ref m) e;
  _ ←r ensure_matching_traffic_id s (DisconnectA8Message.a8_traffic_id m);
  if decide (phase s ≠ Connected) then Err (InvalidProcedureState DisconnectA8 "session is not connected")
  else
    _ ←r ensure_session_refs s r k DisconnectA8;
    let s := adopt_refs r k (set_phase (DisconnectPending local (mkPending r k)) s) in
    let c' := con_ref_key (con_ref s) in
    Ok (store c c' s e, SessionUpdated c' (phase s) (access_link_phase s)).

Definition apply_release (m : ReleaseA8Message.t) (local : bool) (e : ProcedureEngine) : Outcome :=
  let r := ReleaseA8Message.call_connection_reference m in
  let k := ReleaseA8Message.correlation_id m in
  '(c, s) ←r session_mut_by_con_ref (ReleaseA8Message.con_ref m) e;
  _ ←r ensure_matching_traffic_id s (ReleaseA8Message.a8_traffic_id m);
  _ ←r match phase s with
       | ReleasePending _ _ => Err (InvalidProcedureState ReleaseA8 "session is already releasing")
       | DisconnectPending _ pending => ensure_release_identity_against_disconnect pending k ReleaseA8
       | _ => Ok tt
       end;
  _ ←r ensure_session_refs s r k ReleaseA8;
  let s := adopt_refs r k (set_phase (ReleasePending local (mkPending r k)) s) in
  let c' := con_ref_key (con_ref s) in
  Ok (store c c' s e, SessionUpdated c' (phase s) (access_link_phase s)).

Definition apply_release_complete (m : ReleaseA8CompleteMessage.t) (e : ProcedureEngine) : Outcome :=
  let r := ReleaseA8CompleteMessage.call_connection_reference m in
  let k := ReleaseA8CompleteMessage.correlation_id m in
  c ←r lookup_con_ref_by_response r k ReleaseA8Complete e;
  s ←r session_mut_at c e;
  pending ←r match phase s with
             | ReleasePending _ pending => Ok pending
             | _ => Err (InvalidProcedureState ReleaseA8Complete "session is not awaiting release complete")
             end;
  _ ←r ensure_response_identity pending r k ReleaseA8Complete "release complete";
  Ok (remove_indexes s (set_sessions (delete c) e), SessionReleased c).

Definition apply_bs_service_request (m : BsServiceRequestMessage.t) (local : bool) (e : ProcedureEngine) : Outcome :=
  match bs_service_phase e with
  | BsIdle =>
      let p := BsPending (mkBsRequest (BsServiceRequestMessage.correlation_id m) (BsServiceRequestMessage.imsi m)
                            (BsServiceRequestMessage.esn m) (BsServiceRequestMessage.meid m)
                            (BsServiceRequestMessage.service_option m) (BsServiceRequestMessage.data_count m)) local in
      Ok (set_bs_service_phase p e, BsServiceUpdated p)
  | BsPending _ _ => Err (InvalidProcedureState BsServiceRequest "BS service request already pending")
  end.
Definition apply_bs_service_response (m : BsServiceResponseMessage.t) (local : bool) (e : ProcedureEngine) : Outcome :=
  match bs_service_phase e with
  | BsIdle => Err (InvalidProcedureState BsServiceResponse "no BS service request is pending")
  | BsPending request request_local =>
      _ ←r ensure_response_direction request_local local BsServiceResponse
             "BS service response direction does not match the pending request";
      _ ←r ensure_optional_response_correlation (bs_correlation_id request) (BsServiceResponseMessage.correlation_id m)
             BsServiceResponse "BS service response";
      Ok (set_bs_service_phase BsIdle e, BsServiceUpdated BsIdle)
  end.

Definition apply_al_connected (m : AlConnectedMessage.t) (local : bool) (e : ProcedureEngine) : Outcome :=
  let r := AlConnectedMessage.call_connection_reference m in
  let k := AlConnectedMessage.correlation_id m in
  '(c, s) ←r session_mut_by_traffic_id (AlConnectedMessage.a8_traffic_id m) e;
  if decide (phase s ≠ Connected) then Err (InvalidProcedureState AlConnected "session is not connected")
  else if decide (access_link_phase s ≠ AlDown) then Err (InvalidProcedureState AlConnected "access link is not disconnected")
  else
    _ ←r ensure_session_refs s r k AlConnected;
    let s := adopt_refs r k (set_access_link_phase (AlConnectPending local (mkPending r k)) s) in
    let c' := con_ref_key (con_ref s) in
    Ok (store c c' s e, SessionUpdated c' (phase s) (access_link_phase s)).
Definition apply_al_connected_ack (m : AlConnectedAckMessage.t) (local : bool) (e : ProcedureEngine) : Outcome :=
  let r := AlConnectedAckMessage.call_connection_reference m in
  let k := AlConnectedAckMessage.correlation_id m in
  c ←r lookup_con_ref_by_response r k AlConnectedAck e;
  s ←r session_mut_at c e;
  match access_link_phase s with
  | AlConnectPending request_local pending =>
      _ ←r ensure_response_direction request_local local AlConnectedAck
             "access link connect acknowledgement direction does not match the pending request";
      _ ←r ensure_response_identity pending r k AlConnectedAck "access link connect acknowledgement";
      let s := adopt_refs r k (set_access_link_phase AlUp s) in
      Ok (store c c s e, SessionUpdated c (phase s) (access_link_phase s))
  | _ => Err (InvalidProcedureState AlConnectedAck "access link is not awaiting connect acknowledgement")
  end.
Definition apply_al_disconnected (m : AlDisconnectedMessage.t) (local : bool) (e : ProcedureEngine) : Outcome :=
  let r := AlDisconnectedMessage.call_connection_reference m in
  let k := AlDisconnectedMessage.correlation_id m in
  '(c, s) ←r session_mut_by_traffic_id (AlDisconnectedMessage.a8_traffic_id m) e;
  if decide (access_link_phase s ≠ AlUp) then Err (InvalidProcedureState AlDisconnected "access link is not connected")
  else
    _ ←r ensure_session_refs s r k AlDisconnected;
    let s := adopt_refs r k (set_access_link_phase (AlDisconnectPending local (mkPending r k)) s) in
    let c' := con_ref_key (con_ref s) in
    Ok (store c c' s e, SessionUpdated c' (phase s) (access_link_phase s)).
Definition apply_al_disconnected_ack (m : AlDisconnectedAckMessage.t) (local : bool) (e : ProcedureEngine) : Outcome :=
  let r := AlDisconnectedAckMessage.call_connection_reference m in
  let k := AlDisconnectedAckMessage.correlation_id m in
  c ←r lookup_con_ref_by_response r k AlDisconnectedAck e;
  s ←r session_mut_at c e;
  match access_link_phase s with
  | AlDisconnectPending request_local pending =>
      _ ←r ensure_response_direction request_local local AlDisconnectedAck
             "access link disconnect acknowledgement direction does not match the pending request";
      _ ←r ensure_response_identity pending r k AlDisconnectedAck "access link disconnect acknowledgement";
      let s := adopt_refs r k (set_access_link_phase AlDown s) in
      Ok (store c c s e, SessionUpdated c (phase s) (access_link_phase s))
  | _ => Err (InvalidProcedureState AlDisconnectedAck "access link is not awaiting disconnect acknowledgement")
  end.

Definition apply_version_info (m : VersionInfoMessage.t) (local : bool) (e : ProcedureEngine) : Outcome :=
  match version_info_phase e with
  | VersionIdle =>
      let p := VersionPending (mkVersionRequest (VersionInfoMessage.correlation_id m)) local in
      Ok (set_version_info_phase p e, VersionInfoUpdated p)
  | VersionPending _ _ => Err (InvalidProcedureState VersionInfo "version information request already pending")
  end.
Definition apply_version_info_ack (m : VersionInfoAckMessage.t) (local : bool) (e : ProcedureEngine) : Outcome :=
  match version_info_phase e with
  | VersionIdle => Ok (e, Ignored VersionInfoAck)
  | VersionPending request request_local =>
      _ ←r ensure_response_direction request_local local VersionInfoAck
             "version information acknowledgement direction does not match the pending request";
      _ ←r ensure_optional_response_correlation (v_correlation_id request) (VersionInfoAckMessage.correlation_id m)
             VersionInfoAck "version information acknowledgement";
      Ok (set_version_info_phase VersionIdle e, VersionInfoUpdated VersionIdle)
  end.

Definition apply_update_a8 (m : UpdateA8Message.t) (local : bool) (e : ProcedureEngine) : Outcome :=
  let r := UpdateA8Message.call_connection_reference m in
  let k := UpdateA8Message.correlation_id m in
  c ←r lookup_con_ref_by_identity r k UpdateA8 e;
  s ←r session_mut_at c e;
  if decide (session_update_phase s ≠ UpdateIdle) then
    Err (InvalidProcedureState UpdateA8 "session update request already pending")
  else
    _ ←r ensure_session_refs s r k UpdateA8;
    let s := adopt_refs r k (set_session_update_phase (UpdatePending (mkPending r k) local) s) in
    Ok (store c c s e, SessionUpdateUpdated c (session_update_phase s)).
Definition apply_update_a8_ack (m : UpdateA8AckMessage.t) (local : bool) (e : ProcedureEngine) : Outcome :=
  let r := UpdateA8AckMessage.call_connection_reference m in
  let k := UpdateA8AckMessage.correlation_id m in
  c ←r lookup_con_ref_by_response r k UpdateA8Ack e;
  s ←r session_mut_at c e;
  match session_update_phase s with
  | UpdatePending pending request_local =>
      _ ←r ensure_response_direction request_local local UpdateA8Ack
             "session update acknowledgement direction does not match the pending request";
      _ ←r ensure_response_identity pending r k UpdateA8Ack "session update acknowledgement";
      let s := adopt_refs r k (set_session_update_phase UpdateIdle s) in
      Ok (store c c s e, SessionUpdateUpdated c (session_update_phase s))
  | UpdateIdle => Err (InvalidProcedureState UpdateA8Ack "session is not awaiting update acknowledgement")
  end.

Definition apply_short_data_delivery (m : ShortDataDeliveryMessage.t) (local : bool) (e : ProcedureEngine) : Outcome :=
  if negb (short_data_requires_ack (role e) local) then Ok (e, ShortDataUpdated (short_data_phase e))
  else
    match short_data_phase e with
    | ShortDataIdle =>
        let p := DeliveryPending (mkShortData (ShortDataDeliveryMessage.correlation_id m) (ShortDataDeliveryMessage.imsi m)
                                    (ShortDataDeliveryMessage.esn m) (ShortDataDeliveryMessage.meid m)) local in
        Ok (set_short_data_phase p e, ShortDataUpdated p)
    | DeliveryPending _ _ => Err (InvalidProcedureState ShortDataDelivery "short data delivery request already pending")
    end.
Definition apply_short_data_ack (m : ShortDataAckMessage.t) (local : bool) (e : ProcedureEngine) : Outcome :=
  match short_data_phase e with
  | ShortDataIdle => Err (InvalidProcedureState ShortDataAck "no short data delivery request is pending")
  | DeliveryPending request request_local =>
      _ ←r ensure_response_direction request_local local ShortDataAck
             "short data acknowledgement direction does not match the pending request";
      _ ←r ensure_optional_response_correlation (sd_correlation_id request) (ShortDataAckMessage.correlation_id m)
             ShortDataAck "short data acknowledgement";
      _ ←r ensure_optional_match (sd_imsi request) (ShortDataAckMessage.imsi m) ShortDataAck
             "short data acknowledgement IMSI does not match the pending request"
             "short data acknowledgement IMSI is present without a pending request IMSI";
      _ ←r ensure_optional_match (sd_esn request) (ShortDataAckMessage.esn m) ShortDataAck
             "short data acknowledgement ESN does not match the pending request"
             "short data acknowledgement ESN is present without a pending request ESN";
      _ ←r ensure_optional_match (sd_meid request) (ShortDataAckMessage.meid m) ShortDataAck
             "short data acknowledgement MEID does not match the pending request"
             "short data acknowledgement MEID is present without a pending request MEID";
      Ok (set_short_data_phase ShortDataIdle e, ShortDataUpdated ShortDataIdle)
  end.

(** ** [apply], [apply_outbound] and [apply_inbound] *)
Definition apply (m : ProcedureMessage) (local : bool) (e : ProcedureEngine) : Outcome :=
  _ ←r validate_direction (role e) (procedure_type m) local;
  match m with
  | PSetupA8 m => apply_setup m local e
  | PConnectA8 m => apply_connect m local e
  | PDisconnectA8 m => apply_disconnect m local e
  | PReleaseA8 m => apply_release m local e
  | PReleaseA8Complete m => apply_release_complete m e
  | PBsServiceRequest m => apply_bs_service_request m local e
  | PBsServiceResponse m => apply_bs_service_response m local e
  | PAlConnected m => apply_al_connected m local e
  | PAlConnectedAck m => apply_al_connected_ack m local e
  | PAlDisconnected m => apply_al_disconnected m local e
  | PAlDisconnectedAck m => apply_al_disconnected_ack m local e
  | PVersionInfo m => apply_version_info m local e
  | PVersionInfoAck m => apply_version_info_ack m local e
  | PUpdateA8 m => apply_update_a8 m local e
  | PUpdateA8Ack m => apply_update_a8_ack m local e
  | PShortDataDelivery m => apply_short_data_delivery m local e
  | PShortDataAck m => apply_short_data_ack m local e
  end.
Definition apply_outbound (m : ProcedureMessage) : ProcedureEngine → Outcome := apply m true.
Definition apply_inbound (m : ProcedureMessage) : ProcedureEngine → Outcome := apply m false.

(** ** Retargeting a connected session *)
Definition retarget_connected_a8_from (existing : TrafficId) (setup : SetupA8Message.t) (connect : ConnectA8Message.t)
    (e : ProcedureEngine) : Outcome :=
  let t := SetupA8Message.a8_traffic_id setup in
  if decide (t ≠ ConnectA8Message.a8_traffic_id connect) then
    Err (TrafficIdMismatch (key t) (key (ConnectA8Message.a8_traffic_id connect)))
  else if decide (SetupA8Message.con_ref setup ≠ ConnectA8Message.con_ref connect) then
    Err (InvalidProcedureState ConnectA8 "retargeted connect does not match setup connection reference")
  else if decide (SetupA8Message.call_connection_reference setup ≠ ConnectA8Message.call_connection_reference connect) then
    Err (InvalidProcedureState ConnectA8 "retargeted connect call reference does not match setup request")
  else if decide (SetupA8Message.correlation_id setup ≠ ConnectA8Message.correlation_id connect) then
    Err (InvalidProcedureState ConnectA8 "retargeted connect correlation does not match setup request")
  else
    match traffic_index e !! traffic_key existing with
    | None => Err (UnknownTrafficId (key existing))
    | Some old_con_ref =>
        let new_con_ref := con_ref_key (SetupA8Message.con_ref setup) in
        if decide (old_con_ref ≠ new_con_ref ∧ is_Some (sessions e !! new_con_ref)) then Err DuplicateSession
        else if decide (traffic_key existing ≠ traffic_key t ∧ is_Some (traffic_index e !! traffic_key t)) then
          Err (DuplicateTrafficId (key t))
        else
          s ←r session_mut_at old_con_ref e;
          _ ←r ensure_matching_traffic_id s existing;
          if decide (phase s ≠ Connected) then
            Err (InvalidProcedureState SetupA8 "retarget requires a connected A8 session")
          else
            let e := remove_indexes s (set_sessions (delete old_con_ref) e) in
            let s := mkSession (SetupA8Message.con_ref setup) (SetupA8Message.call_connection_reference setup)
                       (SetupA8Message.correlation_id setup) t (phase s) (access_link_phase s) (session_update_phase s) in
            Ok (set_sessions <[new_con_ref := s]> (insert_indexes new_con_ref s e),
                SessionUpdated new_con_ref (phase s) (access_link_phase s))
    end.
Definition retarget_connected_a8 (setup : SetupA8Message.t) (connect : ConnectA8Message.t) : ProcedureEngine → Outcome :=
  retarget_connected_a8_from (SetupA8Message.a8_traffic_id setup) setup connect.

End A9Session.
