(* ===== verification/A9Mirror.v ===== *)
(** * A9 procedures: the two ends of the interface agree

    The engine of the PCF is the mirror image of the engine of the BSC: the same sessions and
    phases, with "initiated locally" inverted.  Mirroring commutes with every handler, so two
    engines that start empty and apply the same messages, each from its own side, stay mirror
    images and answer alike. *)
From S2P Require Import Prelude Octets Text A9Codec A9Elements A9Typed A9CodecProofs A9Session.
Import A9 A9Elements A9Typed A9Session.

Definition flip_role (r : ProcedureRole) : ProcedureRole := match r with Bsc => Pcf | Pcf => Bsc end.
Definition flip_phase (p : SessionPhase) : SessionPhase :=
  match p with
  | SetupPending l q => SetupPending (negb l) q
  | Connected => Connected
  | DisconnectPending l q => DisconnectPending (negb l) q
  | ReleasePending l q => ReleasePending (negb l) q
  end.
Definition flip_link (p : AccessLinkPhase) : AccessLinkPhase :=
  match p with
  | AlDown => AlDown
  | AlConnectPending l q => AlConnectPending (negb l) q
  | AlUp => AlUp
  | AlDisconnectPending l q => AlDisconnectPending (negb l) q
  end.
Definition flip_update (p : SessionUpdatePhase) : SessionUpdatePhase :=
  match p with UpdateIdle => UpdateIdle | UpdatePending q l => UpdatePending q (negb l) end.
Definition flip_bs (p : BsServicePhase) : BsServicePhase := match p with BsIdle => BsIdle | BsPending q l => BsPending q (negb l) end.
Definition flip_version (p : VersionInfoPhase) : VersionInfoPhase :=
  match p with VersionIdle => VersionIdle | VersionPending q l => VersionPending q (negb l) end.
Definition flip_short (p : ShortDataPhase) : ShortDataPhase :=
  match p with ShortDataIdle => ShortDataIdle | DeliveryPending q l => DeliveryPending q (negb l) end.
Definition flip_session (s : Session) : Session :=
  mkSession (con_ref s) (call_connection_reference s) (correlation_id s) (a8_traffic_id s) (flip_phase (phase s))
    (flip_link (access_link_phase s)) (flip_update (session_update_phase s)).
Definition flip_event (v : ProcedureEvent) : ProcedureEvent :=
  match v with
  | SessionCreated c p => SessionCreated c (flip_phase p)
  | SessionUpdated c p a => SessionUpdated c (flip_phase p) (flip_link a)
  | SessionReleased c => SessionReleased c
  | BsServiceUpdated p => BsServiceUpdated (flip_bs p)
  | VersionInfoUpdated p => VersionInfoUpdated (flip_version p)
  | SessionUpdateUpdated c p => SessionUpdateUpdated c (flip_update p)
  | ShortDataUpdated p => ShortDataUpdated (flip_short p)
  | Ignored t => Ignored t
  end.
(** The engine at the other end. *)
Definition mirror (e : ProcedureEngine) : ProcedureEngine :=
  mkEngine (flip_role (role e)) (flip_session <$> sessions e) (traffic_index e) (call_ref_index e) (correlation_index e)
    (flip_bs (bs_service_phase e)) (flip_version (version_info_phase e)) (flip_short (short_data_phase e)).
Definition mirror_outcome (o : Outcome) : Outcome :=
  match o with Ok (e, v) => Ok (mirror e, flip_event v) | Err x => Err x end.

Lemma flip_phase_connected p : flip_phase p = Connected ↔ p = Connected.
Proof. destruct p; naive_solver. Qed.
Lemma flip_link_down p : flip_link p = AlDown ↔ p = AlDown.
Proof. destruct p; naive_solver. Qed.
Lemma flip_link_up p : flip_link p = AlUp ↔ p = AlUp.
Proof. destruct p; naive_solver. Qed.
Lemma flip_update_idle p : flip_update p = UpdateIdle ↔ p = UpdateIdle.
Proof. destruct p; naive_solver. Qed.

Lemma mirror_lookup c e : sessions (mirror e) !! c = flip_session <$> (sessions e !! c).
Proof. apply lookup_fmap. Qed.
Lemma mirror_insert c s e : mirror (set_sessions <[c := s]> e) = set_sessions <[c := flip_session s]> (mirror e).
Proof. unfold mirror, set_sessions. cbn. by rewrite fmap_insert. Qed.
Lemma mirror_delete c e : mirror (set_sessions (delete c) e) = set_sessions (delete c) (mirror e).
Proof. unfold mirror, set_sessions. cbn. by rewrite fmap_delete. Qed.
Lemma mirror_store c r s e : mirror (store c r s e) = store c r (flip_session s) (mirror e).
Proof. unfold store, mirror, refresh_indexes_for_refs, set_sessions. cbn. by rewrite fmap_insert. Qed.
Lemma flip_adopt r k s : flip_session (adopt_refs r k s) = adopt_refs r k (flip_session s).
Proof. done. Qed.

Lemma mirror_by_con_ref c e :
  session_mut_by_con_ref c (mirror e) =
  match session_mut_by_con_ref c e with Ok (k, s) => Ok (k, flip_session s) | Err x => Err x end.
Proof. unfold session_mut_by_con_ref. rewrite mirror_lookup. by destruct (sessions e !! _). Qed.
Lemma mirror_by_traffic t e :
  session_mut_by_traffic_id t (mirror e) =
  match session_mut_by_traffic_id t e with Ok (k, s) => Ok (k, flip_session s) | Err x => Err x end.
Proof.
  unfold session_mut_by_traffic_id. cbn [traffic_index mirror]. destruct (traffic_index e !! _); [|done].
  rewrite mirror_lookup. by destruct (sessions e !! _).
Qed.
Lemma mirror_at c e :
  session_mut_at c (mirror e) = match session_mut_at c e with Ok s => Ok (flip_session s) | Err x => Err x end.
Proof. unfold session_mut_at. rewrite mirror_lookup. by destruct (sessions e !! _). Qed.
Lemma mirror_response r k t e : lookup_con_ref_by_response r k t (mirror e) = lookup_con_ref_by_response r k t e.
Proof. done. Qed.
Lemma mirror_refs s r k t : ensure_session_refs (flip_session s) r k t = ensure_session_refs s r k t.
Proof. done. Qed.
Lemma mirror_traffic s t : ensure_matching_traffic_id (flip_session s) t = ensure_matching_traffic_id s t.
Proof. done. Qed.
Lemma mirror_direction a b t x : ensure_response_direction (negb a) (negb b) t x = ensure_response_direction a b t x.
Proof. by destruct a, b. Qed.


(** Case analysis on the checks of a handler. *)
Ltac checks :=
  repeat match goal with
  | |- context [rbind ?x _] => lazymatch x with Ok _ => fail | Err _ => fail | _ => destruct x as [?|?]; cbn [rbind]; [|done] end
  end.
Ltac mirrored := rewrite ?mirror_store, ?mirror_insert; done.

Section handlers.
Context (e : ProcedureEngine) (l : bool).

Lemma mirror_setup m : apply_setup m (negb l) (mirror e) = mirror_outcome (apply_setup m l e).
Proof.
  unfold apply_setup. rewrite mirror_lookup. cbn [traffic_index mirror].
  destruct (sessions e !! _); [done|]. cbn. destruct (traffic_index e !! _); [done|]. cbn. unfold mirror, set_sessions. cbn.
  by rewrite fmap_insert.
Qed.
Lemma mirror_connect m : apply_connect m (negb l) (mirror e) = mirror_outcome (apply_connect m l e).
Proof.
  unfold apply_connect. rewrite mirror_by_con_ref. destruct (session_mut_by_con_ref _ e) as [[c s]|]; [|done]. cbn [rbind].
  rewrite mirror_traffic, mirror_refs. checks. cbn [flip_session phase].
  destruct (phase s); cbn [flip_phase rbind]; try done. checks. cbn [mirror_outcome]. mirrored.
Qed.
Lemma mirror_disconnect m : apply_disconnect m (negb l) (mirror e) = mirror_outcome (apply_disconnect m l e).
Proof.
  unfold apply_disconnect. rewrite mirror_by_con_ref. destruct (session_mut_by_con_ref _ e) as [[c s]|]; [|done]. cbn [rbind].
  rewrite mirror_traffic, mirror_refs. checks. cbn [flip_session phase].
  destruct (phase s); cbn [flip_phase]; try done. rewrite !decide_neq_refl. checks. cbn [mirror_outcome]. mirrored.
Qed.
Lemma mirror_release m : apply_release m (negb l) (mirror e) = mirror_outcome (apply_release m l e).
Proof.
  unfold apply_release. rewrite mirror_by_con_ref. destruct (session_mut_by_con_ref _ e) as [[c s]|]; [|done]. cbn [rbind].
  rewrite mirror_traffic, mirror_refs. checks. cbn [flip_session phase].
  destruct (phase s); cbn [flip_phase rbind]; try done; checks; cbn [mirror_outcome]; mirrored.
Qed.
Lemma mirror_release_complete m : apply_release_complete m (mirror e) = mirror_outcome (apply_release_complete m e).
Proof.
  unfold apply_release_complete. rewrite mirror_response. checks. rewrite mirror_at.
  destruct (session_mut_at _ e) as [s|]; [|done]. cbn [rbind]. cbn [flip_session phase].
  destruct (phase s); cbn [flip_phase rbind]; try done. checks. cbn [mirror_outcome]. unfold mirror, remove_indexes, set_sessions. cbn.
  by rewrite fmap_delete.
Qed.
Lemma mirror_al_connected m : apply_al_connected m (negb l) (mirror e) = mirror_outcome (apply_al_connected m l e).
Proof.
  unfold apply_al_connected. rewrite mirror_by_traffic. destruct (session_mut_by_traffic_id _ e) as [[c s]|]; [|done]. cbn [rbind].
  rewrite mirror_refs. cbn [flip_session phase access_link_phase].
  destruct (phase s); cbn [flip_phase]; try done. destruct (access_link_phase s); cbn [flip_link]; try done. rewrite !decide_neq_refl. checks.
  cbn [mirror_outcome]. mirrored.
Qed.
Lemma mirror_al_connected_ack m : apply_al_connected_ack m (negb l) (mirror e) = mirror_outcome (apply_al_connected_ack m l e).
Proof.
  unfold apply_al_connected_ack. rewrite mirror_response. checks. rewrite mirror_at.
  destruct (session_mut_at _ e) as [s|]; [|done]. cbn [rbind flip_session access_link_phase].
  destruct (access_link_phase s); cbn [flip_link]; try done. rewrite mirror_direction. checks. cbn [mirror_outcome]. mirrored.
Qed.
Lemma mirror_al_disconnected m : apply_al_disconnected m (negb l) (mirror e) = mirror_outcome (apply_al_disconnected m l e).
Proof.
  unfold apply_al_disconnected. rewrite mirror_by_traffic. destruct (session_mut_by_traffic_id _ e) as [[c s]|]; [|done]. cbn [rbind].
  rewrite mirror_refs. cbn [flip_session access_link_phase].
  destruct (access_link_phase s); cbn [flip_link]; try done. rewrite !decide_neq_refl. checks. cbn [mirror_outcome]. mirrored.
Qed.
Lemma mirror_al_disconnected_ack m :
  apply_al_disconnected_ack m (negb l) (mirror e) = mirror_outcome (apply_al_disconnected_ack m l e).
Proof.
  unfold apply_al_disconnected_ack. rewrite mirror_response. checks. rewrite mirror_at.
  destruct (session_mut_at _ e) as [s|]; [|done]. cbn [rbind flip_session access_link_phase].
  destruct (access_link_phase s); cbn [flip_link]; try done. rewrite mirror_direction. checks. cbn [mirror_outcome]. mirrored.
Qed.
Lemma mirror_update m : apply_update_a8 m (negb l) (mirror e) = mirror_outcome (apply_update_a8 m l e).
Proof.
  unfold apply_update_a8, lookup_con_ref_by_identity. rewrite mirror_response. checks. rewrite mirror_at.
  destruct (session_mut_at _ e) as [s|]; [|done]. cbn [rbind]. rewrite mirror_refs. cbn [flip_session session_update_phase].
  destruct (session_update_phase s); cbn [flip_update]; try done. rewrite !decide_neq_refl. checks. cbn [mirror_outcome]. mirrored.
Qed.
Lemma mirror_update_ack m : apply_update_a8_ack m (negb l) (mirror e) = mirror_outcome (apply_update_a8_ack m l e).
Proof.
  unfold apply_update_a8_ack. rewrite mirror_response. checks. rewrite mirror_at.
  destruct (session_mut_at _ e) as [s|]; [|done]. cbn [rbind flip_session session_update_phase].
  destruct (session_update_phase s); cbn [flip_update]; try done. rewrite mirror_direction. checks. cbn [mirror_outcome]. mirrored.
Qed.
Lemma mirror_bs_request m : apply_bs_service_request m (negb l) (mirror e) = mirror_outcome (apply_bs_service_request m l e).
Proof. unfold apply_bs_service_request. cbn [mirror bs_service_phase]. by destruct (bs_service_phase e). Qed.
Lemma mirror_bs_response m : apply_bs_service_response m (negb l) (mirror e) = mirror_outcome (apply_bs_service_response m l e).
Proof.
  unfold apply_bs_service_response. cbn [mirror bs_service_phase]. destruct (bs_service_phase e); [done|]. cbn [flip_bs].
  rewrite mirror_direction. checks. done.
Qed.
Lemma mirror_version m : apply_version_info m (negb l) (mirror e) = mirror_outcome (apply_version_info m l e).
Proof. unfold apply_version_info. cbn [mirror version_info_phase]. by destruct (version_info_phase e). Qed.
Lemma mirror_version_ack m : apply_version_info_ack m (negb l) (mirror e) = mirror_outcome (apply_version_info_ack m l e).
Proof.
  unfold apply_version_info_ack. cbn [mirror version_info_phase]. destruct (version_info_phase e); [done|]. cbn [flip_version].
  rewrite mirror_direction. checks. done.
Qed.
Lemma mirror_short_data m : apply_short_data_delivery m (negb l) (mirror e) = mirror_outcome (apply_short_data_delivery m l e).
Proof.
  unfold apply_short_data_delivery. cbn [mirror short_data_phase role].
  replace (short_data_requires_ack (flip_role (role e)) (negb l)) with (short_data_requires_ack (role e) l) by (by destruct (role e), l).
  destruct (short_data_requires_ack _ _); [|done]. cbn. by destruct (short_data_phase e).
Qed.
Lemma mirror_short_data_ack m : apply_short_data_ack m (negb l) (mirror e) = mirror_outcome (apply_short_data_ack m l e).
Proof.
  unfold apply_short_data_ack. cbn [mirror short_data_phase]. destruct (short_data_phase e); [done|]. cbn [flip_short].
  rewrite mirror_direction. checks. done.
Qed.

Lemma mirror_directions t : direction_valid (flip_role (role e)) (negb l) t = direction_valid (role e) l t.
Proof. by destruct (role e), l, t. Qed.
(** A message that this end sends in a direction it may is handled alike at the other end. *)
Lemma mirror_apply m :
  direction_valid (role e) l (procedure_type m) = true → apply m (negb l) (mirror e) = mirror_outcome (apply m l e).
Proof.
  intros Hd. unfold apply, validate_direction. cbn [role mirror]. rewrite mirror_directions, Hd. cbn [rbind].
  destruct m; [apply mirror_setup|apply mirror_connect|apply mirror_disconnect|apply mirror_release|apply mirror_release_complete
    |apply mirror_bs_request|apply mirror_bs_response|apply mirror_al_connected|apply mirror_al_connected_ack
    |apply mirror_al_disconnected|apply mirror_al_disconnected_ack|apply mirror_version|apply mirror_version_ack
    |apply mirror_update|apply mirror_update_ack|apply mirror_short_data|apply mirror_short_data_ack].
Qed.
Lemma mirror_apply_wrong m :
  direction_valid (role e) l (procedure_type m) = false →
  ∃ x y, apply m l e = Err x ∧ apply m (negb l) (mirror e) = Err y.
Proof.
  intros Hd. unfold apply, validate_direction. cbn [role mirror]. rewrite mirror_directions, Hd. cbn. eauto.
Qed.
End handlers.

(** ** Two engines and the messages between them *)

(** An engine keeps its state when a message is refused. *)
Definition settle (o : Outcome) (e : ProcedureEngine) : ProcedureEngine := match o with Ok (e', _) => e' | Err _ => e end.
Definition answer (o : Outcome) : Result ProcedureEvent := match o with Ok (_, v) => Ok v | Err x => Err x end.
(** [(true, m)]: the BSC sends [m]; [(false, m)]: the PCF does.  The sender applies it outbound, the receiver inbound. *)
Fixpoint exchange (ms : list (bool * ProcedureMessage)) (bsc pcf : ProcedureEngine)
    : ProcedureEngine * ProcedureEngine * list (Result ProcedureEvent * Result ProcedureEvent) :=
  match ms with
  | [] => (bsc, pcf, [])
  | (from_bsc, m) :: ms =>
      let ob := apply m from_bsc bsc in
      let op := apply m (negb from_bsc) pcf in
      let '(bsc, pcf, answers) := exchange ms (settle ob bsc) (settle op pcf) in
      (bsc, pcf, (answer ob, answer op) :: answers)
  end.
Definition agree (a b : Result ProcedureEvent) : Prop :=
  match a, b with Ok v, Ok v' => v' = flip_event v | Err _, Err _ => True | _, _ => False end.

Lemma exchange_agrees ms e : ∀ bsc pcf answers,
  exchange ms e (mirror e) = (bsc, pcf, answers) → pcf = mirror bsc ∧ Forall (λ '(a, b), agree a b) answers.
Proof.
  revert e. induction ms as [|[l m] ms IH]; intros e bsc pcf answers; cbn [exchange]; [by intros [= <- <- <-]|].
  destruct (direction_valid (role e) l (procedure_type m)) eqn:Hd.
  - rewrite (mirror_apply e l m Hd). destruct (apply m l e) as [[e' v]|x]; cbn [mirror_outcome settle answer].
    + destruct (exchange ms e' (mirror e')) as [[b p] as_] eqn:E. intros [= <- <- <-]. destruct (IH _ _ _ _ E) as [? ?].
      split; [done|]. by constructor.
    + destruct (exchange ms e (mirror e)) as [[b p] as_] eqn:E. intros [= <- <- <-]. destruct (IH _ _ _ _ E) as [? ?].
      split; [done|]. by constructor.
  - destruct (mirror_apply_wrong e l m Hd) as (x & y & -> & ->). cbn [settle answer].
    destruct (exchange ms e (mirror e)) as [[b p] as_] eqn:E. intros [= <- <- <-]. destruct (IH _ _ _ _ E) as [? ?].
    split; [done|]. by constructor.
Qed.

(** C15: The two ends of the A9 interface agree: when a BSC and a PCF start without sessions and every message one of them
    sends is applied at both, the PCF's engine is at every moment the mirror image of the BSC's (the same sessions,
    indexes and phases, with the initiator of every pending procedure inverted), a message is accepted at one end exactly
    when it is accepted at the other, and the events they report are mirror images. *)
Theorem a9_ends_agree ms : ∃ bsc pcf answers,
  exchange ms (new_engine Bsc) (new_engine Pcf) = (bsc, pcf, answers) ∧ pcf = mirror bsc ∧
  Forall (λ '(a, b), agree a b) answers ∧ length answers = length ms.
Proof.
  destruct (exchange ms (new_engine Bsc) (new_engine Pcf)) as [[bsc pcf] answers] eqn:E.
  exists bsc, pcf, answers. split; [done|]. assert (new_engine Pcf = mirror (new_engine Bsc)) as Hm.
  { unfold mirror, new_engine. cbn. by rewrite fmap_empty. }
  assert (length answers = length ms) as Hl.
  { clear Hm. revert E. generalize (new_engine Bsc) (new_engine Pcf). revert bsc pcf answers.
    induction ms as [|[l m] ms IH]; intros bsc pcf answers b p E; cbn in E; [by injection E as <- <- <-|].
    destruct (exchange ms _ _) as [[b' p'] as_] eqn:E'. injection E as <- <- <-. cbn. f_equal. by eapply IH. }
  rewrite Hm in E. destruct (exchange_agrees _ _ _ _ _ E) as [? ?]. done.
Qed.
