(* ===== verification/A9SessionProofs.v ===== *)
(** * A9 procedures: the invariant of the engine, calls, and references that outlive their session *)
From S2P Require Import Prelude Octets Text A9Codec A9Elements A9Typed A9CodecProofs A9Session A9Mirror.
Import A9 A9Elements A9Typed A9Session.

(** ** The invariant *)
Definition is_bsc (r : ProcedureRole) : bool := match r with Bsc => true | Pcf => false end.
(** Who may have begun the procedure that is pending: the BSC sets up, releases and moves the access link, the PCF
    disconnects. *)
Definition phase_by (r : ProcedureRole) (p : SessionPhase) : Prop :=
  match p with
  | SetupPending l _ | ReleasePending l _ => l = is_bsc r
  | DisconnectPending l _ => l = negb (is_bsc r)
  | Connected => True
  end.
Definition link_by (r : ProcedureRole) (p : AccessLinkPhase) : Prop :=
  match p with AlConnectPending l _ | AlDisconnectPending l _ => l = is_bsc r | AlDown | AlUp => True end.
Definition session_ok (r : ProcedureRole) (c : list Z) (s : Session) : Prop :=
  c = con_ref_key (con_ref s) ∧ phase_by r (phase s) ∧ link_by r (access_link_phase s).
Definition indexed (ss : gmap (list Z) Session) (ti : gmap (list Z) (list Z)) : Prop :=
  ∀ k c, ti !! k = Some c ↔ ∃ s, ss !! c = Some s ∧ traffic_key (a8_traffic_id s) = k.
Record engine_inv (e : ProcedureEngine) : Prop := {
  inv_sessions : map_Forall (session_ok (role e)) (sessions e);
  inv_traffic : indexed (sessions e) (traffic_index e);
  inv_bs : ∀ q l, bs_service_phase e = BsPending q l → l = negb (is_bsc (role e));
  inv_short : ∀ q l, short_data_phase e = DeliveryPending q l → l = negb (is_bsc (role e))
}.

Lemma indexed_insert ss ti c s k :
  indexed ss ti → ss !! c = None → ti !! k = None → traffic_key (a8_traffic_id s) = k →
  indexed (<[c := s]> ss) (<[k := c]> ti).
Proof.
  intros H Hc Hk <- k' c'. destruct (decide (k' = traffic_key (a8_traffic_id s))) as [->|Hne].
  - rewrite lookup_insert_eq. split.
    + intros [= <-]. rewrite lookup_insert_eq. eauto.
    + intros (s' & Hs & Hks). destruct (decide (c' = c)) as [->|Hcc]; [done|]. rewrite lookup_insert_ne in Hs by done.
      assert (ti !! traffic_key (a8_traffic_id s) = Some c') by (apply H; eauto). congruence.
  - rewrite lookup_insert_ne by done. rewrite (H k' c'). split; intros (s' & Hs & Hks); exists s'; (split; [|done]).
    + rewrite lookup_insert_ne; congruence.
    + destruct (decide (c' = c)) as [->|Hcc]; [rewrite lookup_insert_eq in Hs; congruence|by rewrite lookup_insert_ne in Hs].
Qed.
Lemma indexed_delete ss ti c s :
  indexed ss ti → ss !! c = Some s → indexed (delete c ss) (delete (traffic_key (a8_traffic_id s)) ti).
Proof.
  intros H Hc k' c'. assert (ti !! traffic_key (a8_traffic_id s) = Some c) as Hk by (apply H; eauto).
  destruct (decide (k' = traffic_key (a8_traffic_id s))) as [->|Hne].
  - rewrite lookup_delete_eq. split; [done|]. intros (s' & Hs & Hks). apply lookup_delete_Some in Hs as [Hcc Hs].
    assert (ti !! traffic_key (a8_traffic_id s) = Some c') by (apply H; eauto). congruence.
  - rewrite lookup_delete_ne by done. rewrite (H k' c'). split; intros (s' & Hs & Hks); exists s'; (split; [|done]).
    + rewrite lookup_delete_ne; [done|]. intros <-. congruence.
    + by apply lookup_delete_Some in Hs as [_ ?].
Qed.
Lemma indexed_update ss ti c s s' :
  indexed ss ti → ss !! c = Some s → a8_traffic_id s' = a8_traffic_id s → indexed (<[c := s']> ss) ti.
Proof.
  intros H Hc Ht k' c'. rewrite (H k' c'). destruct (decide (c' = c)) as [->|]; [|by rewrite lookup_insert_ne].
  rewrite lookup_insert_eq, Hc. split; intros (s'' & [= <-] & <-); eexists; (split; [done|]); by rewrite Ht.
Qed.

Lemma new_engine_inv r : engine_inv (new_engine r).
Proof.
  split; cbn; [apply map_Forall_empty| |done..]. intros k c. rewrite lookup_empty. split; [done|]. intros (s & Hs & _).
  by rewrite lookup_empty in Hs.
Qed.
Lemma store_inv c s s' e :
  engine_inv e → sessions e !! c = Some s → con_ref s' = con_ref s → a8_traffic_id s' = a8_traffic_id s →
  phase_by (role e) (phase s') → link_by (role e) (access_link_phase s') → engine_inv (store c (con_ref_key (con_ref s')) s' e).
Proof.
  intros [H1 H2 H3 H4] Hs Hc Ht Hp Hl. split; cbn; [| |done..].
  - apply map_Forall_insert_2; [|done]. split_and!; [|done..]. rewrite Hc. by apply (H1 c s Hs).
  - by eapply indexed_update.
Qed.
Lemma store_at_inv c s s' e :
  engine_inv e → sessions e !! c = Some s → con_ref s' = con_ref s → a8_traffic_id s' = a8_traffic_id s →
  phase_by (role e) (phase s') → link_by (role e) (access_link_phase s') → engine_inv (store c c s' e).
Proof.
  intros He Hs Hc Ht Hp Hl. assert (c = con_ref_key (con_ref s')) as Hcc by (rewrite Hc; by apply (inv_sessions e He c s Hs)).
  rewrite Hcc at 2. by eapply store_inv.
Qed.

Lemma by_con_ref_ok c e k s : session_mut_by_con_ref c e = Ok (k, s) → sessions e !! k = Some s.
Proof. unfold session_mut_by_con_ref. destruct (sessions e !! _) eqn:E; [|done]. by intros [= <- <-]. Qed.
Lemma by_traffic_ok t e k s : session_mut_by_traffic_id t e = Ok (k, s) → sessions e !! k = Some s.
Proof.
  unfold session_mut_by_traffic_id. destruct (traffic_index e !! _); [|done]. destruct (sessions e !! _) eqn:E; [|done]. by intros [= <- <-].
Qed.
Lemma at_ok c e s : session_mut_at c e = Ok s → sessions e !! c = Some s.
Proof. unfold session_mut_at. destruct (sessions e !! _) eqn:E; [|done]. by intros [= <-]. Qed.

Lemma apply_role m l e e' v : apply m l e = Ok (e', v) → direction_valid (role e) l (procedure_type m) = true.
Proof. unfold apply, validate_direction. by destruct (direction_valid _ _ _). Qed.

(** The successful paths of a handler. *)
Ltac paths H :=
  cbv zeta in H; repeat match type of H with
  | rbind ?x _ = Ok _ => let a := fresh "a" in let Ha := fresh "Hok" in apply rbind_ok in H as (a & Ha & H); cbv beta zeta in H
  | (let '(_, _) := ?x in _) = Ok _ => destruct x
  | (if decide ?P then _ else _) = Ok _ => destruct (decide P); [done|]
  | (if bool_decide ?P then _ else _) = Ok _ => destruct (bool_decide P) eqn:?; [done|]
  | (match ?x with _ => _ end) = Ok _ => destruct x eqn:?; try done
  end.
Ltac found :=
  match goal with
  | H : session_mut_by_con_ref _ _ = Ok _ |- _ => apply by_con_ref_ok in H
  | H : session_mut_by_traffic_id _ _ = Ok _ |- _ => apply by_traffic_ok in H
  | H : session_mut_at _ _ = Ok _ |- _ => apply at_ok in H
  end.
(** After a handler that stores one session: the phases it had, or the new one. *)
Ltac stored He :=
  found; match goal with Hs : sessions ?e !! ?c = Some ?s |- _ =>
    destruct (inv_sessions e He c s Hs) as (_ & ? & ?) end;
  first [eapply store_inv | eapply store_at_inv]; [exact He|eassumption|reflexivity|reflexivity|cbn; try done; congruence|cbn; try done; congruence].

Lemma setup_inv m l e e' v : l = is_bsc (role e) → engine_inv e → apply_setup m l e = Ok (e', v) → engine_inv e'.
Proof.
  intros Hl [H1 H2 H3 H4] H. unfold apply_setup in H.
  destruct (sessions e !! _) eqn:Hc; [done|]. cbn [bool_decide] in H. destruct (traffic_index e !! _) eqn:Hk; [done|].
  injection H as <- <-. split; cbn; [| |done..].
  - apply map_Forall_insert_2; [|done]. done.
  - by apply indexed_insert.
Qed.
Lemma removed_inv c s e : engine_inv e → sessions e !! c = Some s → engine_inv (remove_indexes s (set_sessions (delete c) e)).
Proof.
  intros [H1 H2 H3 H4] Hs. split; cbn; [by apply map_Forall_delete|by apply indexed_delete|done..].
Qed.
Lemma put_inv c s e :
  engine_inv e → sessions e !! c = None → traffic_index e !! traffic_key (a8_traffic_id s) = None → session_ok (role e) c s →
  engine_inv (set_sessions <[c := s]> (insert_indexes c s e)).
Proof.
  intros [H1 H2 H3 H4] Hc Hk Hok. split; cbn; [by apply map_Forall_insert_2|by apply indexed_insert|done..].
Qed.

Lemma direction_bsc r l t :
  direction_valid r l t = true → t ∈ [SetupA8; ReleaseA8; AlConnected; AlDisconnected] → l = is_bsc r.
Proof. intros H Ht. destruct r, l; try done; exfalso; set_unfold; destruct_or? Ht; by subst. Qed.
Lemma direction_pcf r l t :
  direction_valid r l t = true → t ∈ [DisconnectA8; BsServiceRequest] → l = negb (is_bsc r).
Proof. intros H Ht. destruct r, l; try done; exfalso; set_unfold; destruct_or? Ht; by subst. Qed.

Lemma a9_apply_inv m l e e' v : engine_inv e → apply m l e = Ok (e', v) → engine_inv e'.
Proof.
  intros He H. pose proof (apply_role _ _ _ _ _ H) as Hd. unfold apply in H. apply rbind_ok in H as (u & _ & H).
  destruct m; cbn [procedure_type] in Hd.
  - apply direction_bsc in Hd; [|set_solver]. by eapply setup_inv.
  - unfold apply_connect in H. paths H. apply Ok_inj, pair_eq in H as [<- _]. stored He.
  - apply direction_pcf in Hd; [|set_solver]. unfold apply_disconnect in H. paths H. apply Ok_inj, pair_eq in H as [<- _]. stored He.
  - apply direction_bsc in Hd; [|set_solver]. unfold apply_release in H. paths H. apply Ok_inj, pair_eq in H as [<- _]. stored He.
  - unfold apply_release_complete in H. paths H. apply Ok_inj, pair_eq in H as [<- _]. found. by apply removed_inv.
  - apply direction_pcf in Hd; [|set_solver]. unfold apply_bs_service_request in H. paths H. apply Ok_inj, pair_eq in H as [<- _].
    destruct He. split; cbn; try done. by intros q l' [= <- <-].
  - unfold apply_bs_service_response in H. paths H. apply Ok_inj, pair_eq in H as [<- _]. destruct He. by split.
  - apply direction_bsc in Hd; [|set_solver]. unfold apply_al_connected in H. paths H. apply Ok_inj, pair_eq in H as [<- _]. stored He.
  - unfold apply_al_connected_ack in H. paths H. apply Ok_inj, pair_eq in H as [<- _]. stored He.
  - apply direction_bsc in Hd; [|set_solver]. unfold apply_al_disconnected in H. paths H. apply Ok_inj, pair_eq in H as [<- _]. stored He.
  - unfold apply_al_disconnected_ack in H. paths H. apply Ok_inj, pair_eq in H as [<- _]. stored He.
  - unfold apply_version_info in H. paths H. apply Ok_inj, pair_eq in H as [<- _]. destruct He. by split.
  - unfold apply_version_info_ack in H. paths H; apply Ok_inj, pair_eq in H as [<- _]; [done|]. destruct He. by split.
  - unfold apply_update_a8 in H. paths H. apply Ok_inj, pair_eq in H as [<- _]. stored He.
  - unfold apply_update_a8_ack in H. paths H. apply Ok_inj, pair_eq in H as [<- _]. stored He.
  - unfold apply_short_data_delivery in H. destruct (short_data_requires_ack _ _) eqn:Hr; cbn in H; [|by injection H as <- <-].
    paths H. apply Ok_inj, pair_eq in H as [<- _]. destruct He. split; cbn; try done. intros q l' [= <- <-]. by destruct (role e), l.
  - unfold apply_short_data_ack in H. paths H. apply Ok_inj, pair_eq in H as [<- _]. destruct He. by split.
Qed.

Lemma retarget_inv t m1 m2 e e' v : engine_inv e → retarget_connected_a8_from t m1 m2 e = Ok (e', v) → engine_inv e'.
Proof.
  intros He H. unfold retarget_connected_a8_from in H. do 4 (destruct (decide _) as [|?%dec_stable]; [done|]).
  destruct (traffic_index e !! traffic_key t) as [c|] eqn:Hi; [|done].
  destruct (decide _) as [|Hdup]; [done|]. destruct (decide _) as [|Hdup2]; [done|].
  apply rbind_ok in H as (s & Hs & H). apply rbind_ok in H as (u & Ht & H). destruct (decide _) as [|Hph%dec_stable]; [done|].
  apply at_ok in Hs. unfold ensure_matching_traffic_id in Ht. destruct (decide _) as [|Hst%dec_stable]; [done|].
  apply Ok_inj, pair_eq in H as [<- _]. destruct (inv_sessions e He c s Hs) as (Hc & _ & Hlk).
  apply put_inv; [by apply removed_inv|..]; cbn [sessions traffic_index role remove_indexes set_sessions a8_traffic_id].
  - destruct (decide (c = con_ref_key (SetupA8Message.con_ref m1))) as [->|Hne]; [apply lookup_delete_eq|].
    rewrite lookup_delete_ne by done. apply eq_None_not_Some. tauto.
  - rewrite Hst. destruct (decide (traffic_key t = traffic_key (SetupA8Message.a8_traffic_id m1))) as [Heq|Hne];
      [rewrite Heq; apply lookup_delete_eq|]. rewrite lookup_delete_ne by done. apply eq_None_not_Some. tauto.
  - split_and!; cbn; [done|by rewrite Hph|done].
Qed.

(** Everything that happens to an engine. *)
Inductive EngineOp :=
| OpApply (m : ProcedureMessage) (local : bool)
| OpRetarget (existing : TrafficId) (setup : SetupA8Message.t) (connect : ConnectA8Message.t).
Definition engine_step (o : EngineOp) (e : ProcedureEngine) : ProcedureEngine :=
  match o with
  | OpApply m l => settle (apply m l e) e
  | OpRetarget t m1 m2 => settle (retarget_connected_a8_from t m1 m2 e) e
  end.
Definition engine_run (ops : list EngineOp) (e : ProcedureEngine) : ProcedureEngine := foldl (λ e o, engine_step o e) e ops.
Lemma engine_step_inv o e : engine_inv e → engine_inv (engine_step o e).
Proof.
  intros He. destruct o as [m l|t m1 m2]; cbn.
  - destruct (apply m l e) as [[e' v]|] eqn:E; cbn; [by eapply a9_apply_inv|done].
  - destruct (retarget_connected_a8_from t m1 m2 e) as [[e' v]|] eqn:E; cbn; [by eapply retarget_inv|done].
Qed.
Lemma engine_run_inv ops e : engine_inv e → engine_inv (engine_run ops e).
Proof. revert e. induction ops as [|o ops IH]; intros e He; [done|]. apply IH, engine_step_inv, He. Qed.

(** C35: Through any sequence of sent and received messages and retargets an A9 engine keeps its traffic index exact: a
    traffic identifier leads to a connection reference if and only if the session stored there carries it, so no two
    sessions share one; every session is stored under its own connection reference; and every pending procedure was begun
    by the end that may begin it. *)
Theorem a9_engine_invariant r ops :
  let e := engine_run ops (new_engine r) in
  engine_inv e ∧
  (∀ c s, sessions e !! c = Some s → session_by_traffic_id (a8_traffic_id s) e = Some s) ∧
  (∀ c c' s s', sessions e !! c = Some s → sessions e !! c' = Some s' → a8_traffic_id s = a8_traffic_id s' → c = c').
Proof.
  intros e. assert (engine_inv e) as He by apply engine_run_inv, new_engine_inv. split; [done|].
  assert (∀ c s, sessions e !! c = Some s → traffic_index e !! traffic_key (a8_traffic_id s) = Some c) as Hi
    by (intros c s Hs; apply (inv_traffic e He); eauto). split.
  - intros c s Hs. unfold session_by_traffic_id. by rewrite (Hi c s Hs).
  - intros c c' s s' Hs Hs' Ht. apply Hi in Hs, Hs'. rewrite Ht in Hs. congruence.
Qed.

(** ** A call from setup to release *)
Definition fresh_ref {A} (key : A → list Z) (v : option A) (index : gmap (list Z) (list Z)) : Prop :=
  match v with Some v => index !! key v = None | None => True end.

Lemma refs_match r k c t a u st sp t' :
  ensure_session_refs (mkSession c r k t a u st) r k t' = Ok tt ∧
  ensure_response_identity (mkPending r k) r k t' sp = Ok tt.
Proof.
  split.
  - unfold ensure_session_refs, ensure_call_connection_reference, ensure_correlation_id. cbn.
    destruct r; cbn; [rewrite decide_neq_refl; cbn|]; (destruct k; cbn; [by rewrite decide_neq_refl|done]).
  - unfold ensure_response_identity, ensure_optional_response_correlation. cbn.
    assert ((match r with Some expected => match r with Some actual => bool_decide (expected ≠ actual) | None => false end | None => false end) = false) as ->
      by (destruct r; [by rewrite bool_decide_false by naive_solver|done]).
    destruct k; [by rewrite decide_True|done].
Qed.
Lemma adopt_same c r k t p a u : adopt_refs r k (mkSession c r k t p a u) = mkSession c r k t p a u.
Proof. unfold adopt_refs. cbn. by destruct r, k. Qed.

Section call.
Context (e : ProcedureEngine) (c : Z) (t : TrafficId) (r : option CallReference) (k : option (list Z)).
Hypotheses (Hc : sessions e !! con_ref_key c = None) (Ht : traffic_index e !! traffic_key t = None)
  (Hr : fresh_ref call_connection_reference_encode r (call_ref_index e))
  (Hk : fresh_ref correlation_id_encode k (correlation_index e)).
Let l := is_bsc (role e).
(** The engine while the call is in phase [p]. *)
Definition in_call (p : SessionPhase) : ProcedureEngine :=
  let s := mkSession c r k t p AlDown UpdateIdle in
  set_sessions <[con_ref_key c := s]> (insert_indexes (con_ref_key c) s e).

Lemma call_setup m :
  SetupA8Message.con_ref m = c → SetupA8Message.a8_traffic_id m = t →
  SetupA8Message.call_connection_reference m = r → SetupA8Message.correlation_id m = k →
  apply (PSetupA8 m) l e =
  Ok (in_call (SetupPending l (mkPending r k)), SessionCreated (con_ref_key c) (SetupPending l (mkPending r k))).
Proof using Hc Ht.
  intros E1 E2 E3 E4. unfold apply, validate_direction. replace (direction_valid _ _ _) with true by (unfold l; by destruct (role e)).
  cbn [rbind]. unfold apply_setup. rewrite E1, E2, E3, E4, Hc, Ht. reflexivity.
Qed.
Lemma in_call_session p : sessions (in_call p) !! con_ref_key c = Some (mkSession c r k t p AlDown UpdateIdle).
Proof. unfold in_call. cbn. by rewrite lookup_insert_eq. Qed.
(** Storing the session again leaves the indexes as they were. *)
Lemma in_call_store p p' : store (con_ref_key c) (con_ref_key c) (mkSession c r k t p' AlDown UpdateIdle) (in_call p) = in_call p'.
Proof.
  unfold store, in_call, refresh_indexes_for_refs, set_sessions, insert_indexes. cbn. rewrite !insert_insert_eq.
  f_equal; [destruct r|destruct k]; cbn; by rewrite ?insert_insert_eq.
Qed.
Lemma call_connect m p :
  ConnectA8Message.con_ref m = c → ConnectA8Message.a8_traffic_id m = t →
  ConnectA8Message.call_connection_reference m = r → ConnectA8Message.correlation_id m = k →
  p = SetupPending l (mkPending r k) →
  apply (PConnectA8 m) (negb l) (in_call p) = Ok (in_call Connected, SessionUpdated (con_ref_key c) Connected AlDown).
Proof using Hr Hk.
  intros E1 E2 E3 E4 ->. unfold apply, validate_direction.
  replace (direction_valid _ _ _) with true by (unfold l; cbn; by destruct (role e)).
  cbn [rbind]. unfold apply_connect, session_mut_by_con_ref. rewrite E1, E2, E3, E4, in_call_session. cbn [rbind].
  unfold ensure_matching_traffic_id. cbn [a8_traffic_id phase]. rewrite decide_neq_refl. cbn [rbind].
  rewrite (proj2 (refs_match r k c t Connected AlDown UpdateIdle "connect" ConnectA8)). cbn [rbind].
  rewrite (proj1 (refs_match r k c t _ _ _ "" ConnectA8)). cbn [rbind]. cbv zeta. unfold set_phase. cbn [con_ref call_connection_reference correlation_id a8_traffic_id phase access_link_phase session_update_phase].
  by rewrite adopt_same, in_call_store.
Qed.
Lemma call_release m :
  ReleaseA8Message.con_ref m = c → ReleaseA8Message.a8_traffic_id m = t →
  ReleaseA8Message.call_connection_reference m = r → ReleaseA8Message.correlation_id m = k →
  apply (PReleaseA8 m) l (in_call Connected) =
  Ok (in_call (ReleasePending l (mkPending r k)), SessionUpdated (con_ref_key c) (ReleasePending l (mkPending r k)) AlDown).
Proof using Hr Hk.
  intros E1 E2 E3 E4. unfold apply, validate_direction.
  replace (direction_valid _ _ _) with true by (unfold l; cbn; by destruct (role e)).
  cbn [rbind]. unfold apply_release, session_mut_by_con_ref. rewrite E1, E2, E3, E4, in_call_session. cbn [rbind].
  unfold ensure_matching_traffic_id. cbn [a8_traffic_id phase]. rewrite decide_neq_refl. cbn [rbind].
  rewrite (proj1 (refs_match r k c t _ _ _ "" ReleaseA8)). cbn [rbind]. cbv zeta. unfold set_phase. cbn [con_ref call_connection_reference correlation_id a8_traffic_id phase access_link_phase session_update_phase].
  by rewrite adopt_same, in_call_store.
Qed.
Lemma in_call_lookup p t' : is_Some r ∨ is_Some k → lookup_con_ref_by_response r k t' (in_call p) = Ok (con_ref_key c).
Proof using Hr Hk.
  intros Hs. unfold lookup_con_ref_by_response, in_call. cbn.
  destruct r as [r'|], k as [k'|]; cbn; rewrite ?lookup_insert_eq; rewrite ?decide_neq_refl; try done. by destruct Hs as [[]|[]].
Qed.
Lemma call_complete m p :
  is_Some r ∨ is_Some k → ReleaseA8CompleteMessage.call_connection_reference m = r → ReleaseA8CompleteMessage.correlation_id m = k →
  p = ReleasePending l (mkPending r k) →
  apply (PReleaseA8Complete m) (negb l) (in_call p) = Ok (e, SessionReleased (con_ref_key c)).
Proof using Hc Ht Hr Hk.
  intros Hs E3 E4 ->. unfold apply, validate_direction.
  replace (direction_valid _ _ _) with true by (unfold l; cbn; by destruct (role e)).
  cbn [rbind]. unfold apply_release_complete. rewrite E3, E4, in_call_lookup by done. cbn [rbind]. unfold session_mut_at.
  rewrite in_call_session. cbn [rbind phase].
  rewrite (proj2 (refs_match r k c t Connected AlDown UpdateIdle "release complete" ReleaseA8Complete)). cbn [rbind].
  do 2 f_equal. unfold remove_indexes, in_call, set_sessions, insert_indexes. cbn.
  rewrite !delete_insert_id by done. destruct e; cbn in *. f_equal.
  - destruct r; cbn in *; [by rewrite delete_insert_id|done].
  - destruct k; cbn in *; [by rewrite delete_insert_id|done].
Qed.
End call.

(** A call leaves no trace: on an engine of either role, a setup with a connection reference, traffic identifier and
    references not in use, the connect that answers it, the release and the release complete, carrying the same
    identifiers with at least one reference, are all accepted, and the engine ends exactly as it began, its other sessions
    and its indexes included. *)
Theorem a9_call_leaves_no_trace e setup connect release complete :
  let c := SetupA8Message.con_ref setup in let t := SetupA8Message.a8_traffic_id setup in
  let r := SetupA8Message.call_connection_reference setup in let k := SetupA8Message.correlation_id setup in
  let l := is_bsc (role e) in
  sessions e !! con_ref_key c = None → traffic_index e !! traffic_key t = None →
  fresh_ref call_connection_reference_encode r (call_ref_index e) → fresh_ref correlation_id_encode k (correlation_index e) →
  (ConnectA8Message.con_ref connect, ConnectA8Message.a8_traffic_id connect,
   ConnectA8Message.call_connection_reference connect, ConnectA8Message.correlation_id connect) = (c, t, r, k) →
  (ReleaseA8Message.con_ref release, ReleaseA8Message.a8_traffic_id release,
   ReleaseA8Message.call_connection_reference release, ReleaseA8Message.correlation_id release) = (c, t, r, k) →
  (ReleaseA8CompleteMessage.call_connection_reference complete, ReleaseA8CompleteMessage.correlation_id complete) = (r, k) →
  is_Some r ∨ is_Some k →
  ∃ e1 e2 e3 v1 v2 v3,
    apply (PSetupA8 setup) l e = Ok (e1, v1) ∧ apply (PConnectA8 connect) (negb l) e1 = Ok (e2, v2) ∧
    apply (PReleaseA8 release) l e2 = Ok (e3, v3) ∧
    session_by_traffic_id t e2 = Some (mkSession c r k t Connected AlDown UpdateIdle) ∧
    apply (PReleaseA8Complete complete) (negb l) e3 = Ok (e, SessionReleased (con_ref_key c)).
Proof.
  intros c t r k l Hc Ht Hr Hk [= E1 E2 E3 E4] [= E5 E6 E7 E8] [= E9 E10] Hs. do 6 eexists. split_and!.
  - by apply (call_setup e c t r k Hc Ht).
  - by apply call_connect.
  - by apply call_release.
  - unfold session_by_traffic_id, in_call. cbn. rewrite lookup_insert_eq. cbn. by rewrite lookup_insert_eq.
  - by apply call_complete.
Qed.
Lemma a9_call_leaves_no_trace_witness :
  let t := gre_ppp 7 [10; 0; 0; 1] in let r := Some (mkCallRef 1 2 3) in let k := Some [0; 0; 0; 9] in
  ∃ e1 e2 e3 v1 v2 v3,
    apply (PSetupA8 (SetupA8Message.mk r k None None None 5 None [1] t 33 (mkIndicators false false false false true false) None))
      true (new_engine Bsc) = Ok (e1, v1) ∧
    apply (PConnectA8 (ConnectA8Message.mk r k None None None 5 t 0x13 None)) false e1 = Ok (e2, v2) ∧
    apply (PReleaseA8 (ReleaseA8Message.mk r k None None None 5 t 0x10)) true e2 = Ok (e3, v3) ∧
    session_by_traffic_id t e2 = Some (mkSession 5 r k t Connected AlDown UpdateIdle) ∧
    apply (PReleaseA8Complete (ReleaseA8CompleteMessage.mk r k)) false e3 = Ok (new_engine Bsc, SessionReleased [5]).
Proof.
  intros t r k.
  apply (a9_call_leaves_no_trace (new_engine Bsc)
    (SetupA8Message.mk r k None None None 5 None [1] t 33 (mkIndicators false false false false true false) None)
    (ConnectA8Message.mk r k None None None 5 t 0x13 None) (ReleaseA8Message.mk r k None None None 5 t 0x10)
    (ReleaseA8CompleteMessage.mk r k)); try reflexivity. left. by eexists.
Defined.

(** ** A reference that outlives its session *)

(** The call reference a message names. *)
Definition named_ref (m : ProcedureMessage) : option CallReference :=
  match m with
  | PSetupA8 m => SetupA8Message.call_connection_reference m
  | PConnectA8 m => ConnectA8Message.call_connection_reference m
  | PDisconnectA8 m => DisconnectA8Message.call_connection_reference m
  | PReleaseA8 m => ReleaseA8Message.call_connection_reference m
  | PReleaseA8Complete m => ReleaseA8CompleteMessage.call_connection_reference m
  | PAlConnected m => AlConnectedMessage.call_connection_reference m
  | PAlConnectedAck m => AlConnectedAckMessage.call_connection_reference m
  | PAlDisconnected m => AlDisconnectedMessage.call_connection_reference m
  | PAlDisconnectedAck m => AlDisconnectedAckMessage.call_connection_reference m
  | PUpdateA8 m => UpdateA8Message.call_connection_reference m
  | PUpdateA8Ack m => UpdateA8AckMessage.call_connection_reference m
  | _ => None
  end.
Definition op_ref (o : EngineOp) : option CallReference :=
  match o with OpApply m _ => named_ref m | OpRetarget _ setup _ => SetupA8Message.call_connection_reference setup end.
Definition is_acknowledgement (m : ProcedureMessage) : bool :=
  match m with PAlConnectedAck _ | PAlDisconnectedAck _ | PUpdateA8Ack _ => true | _ => false end.

Section stale.
Context (r0 : CallReference).
Let K : list Z := call_connection_reference_encode r0.
Definition differs (r : option CallReference) : Prop := ∀ x, r = Some x → call_connection_reference_encode x ≠ K.
(** The reference is indexed, and no session but the one at [c], if [own], carries it. *)
Definition lingers (own : bool) (c : list Z) (e : ProcedureEngine) : Prop :=
  call_ref_index e !! K = Some c ∧
  ∀ c' s, sessions e !! c' = Some s → (own = true → c' ≠ c) → differs (call_connection_reference s).

(** The reference of the session that a handler stores. *)
Definition adopted (r : option CallReference) (s s' : Session) : Prop :=
  call_connection_reference s' = match r with Some _ => r | None => call_connection_reference s end.

Lemma insert_ref_other r c i : differs r → insert_ref call_connection_reference_encode r c i !! K = i !! K.
Proof. destruct r as [x|]; [|done]. intros H. apply lookup_insert_ne. by apply H. Qed.
Lemma remove_ref_other r i : differs r → remove_ref call_connection_reference_encode r i !! K = i !! K.
Proof. destruct r as [x|]; [|done]. intros H. apply lookup_delete_ne. by apply H. Qed.
Lemma adopted_differs r s s' : adopted r s s' → differs r → differs (call_connection_reference s) → differs (call_connection_reference s').
Proof. unfold adopted. intros ->. by destruct r. Qed.

Lemma store_lingers c c0 c1 s s' r e : lingers false c e → sessions e !! c0 = Some s → differs r → adopted r s s' →
  lingers false c (store c0 c1 s' e).
Proof.
  intros [Hi Hn] Hs Hr Ha. assert (differs (call_connection_reference s')) as Hd by (eapply adopted_differs; [done..|by eapply Hn]).
  split; cbn; [by rewrite insert_ref_other|]. intros c' s2. destruct (decide (c' = c0)) as [->|].
  - rewrite lookup_insert_eq. by intros [= <-].
  - rewrite lookup_insert_ne by done. by apply Hn.
Qed.
Lemma put_lingers c c0 s e : lingers false c e → differs (call_connection_reference s) →
  lingers false c (set_sessions <[c0 := s]> (insert_indexes c0 s e)).
Proof.
  intros [Hi Hn] Hd. split; cbn; [by rewrite insert_ref_other|]. intros c' s2. destruct (decide (c' = c0)) as [->|].
  - rewrite lookup_insert_eq. by intros [= <-].
  - rewrite lookup_insert_ne by done. by apply Hn.
Qed.
Lemma removed_lingers c c0 s e : lingers false c e → sessions e !! c0 = Some s →
  lingers false c (remove_indexes s (set_sessions (delete c0) e)).
Proof.
  intros [Hi Hn] Hs. split; cbn; [rewrite remove_ref_other; [done|by eapply Hn]|].
  intros c' s2 [_ H]%lookup_delete_Some. by eapply Hn.
Qed.

(** A message that does not name a lingering reference leaves it where it is. *)
Lemma apply_lingers c m l e e' v : lingers false c e → differs (named_ref m) → apply m l e = Ok (e', v) → lingers false c e'.
Proof.
  intros Hl Hd H. unfold apply in H. apply rbind_ok in H as (u & _ & H). destruct m; cbn [named_ref] in Hd.
  - unfold apply_setup in H. paths H. apply Ok_inj, pair_eq in H as [<- _]. by apply put_lingers.
  - unfold apply_connect in H. paths H. apply Ok_inj, pair_eq in H as [<- _]. found. by eapply store_lingers.
  - unfold apply_disconnect in H. paths H. apply Ok_inj, pair_eq in H as [<- _]. found. by eapply store_lingers.
  - unfold apply_release in H. paths H; apply Ok_inj, pair_eq in H as [<- _]; found; by eapply store_lingers.
  - unfold apply_release_complete in H. paths H. apply Ok_inj, pair_eq in H as [<- _]. found. by apply removed_lingers.
  - unfold apply_bs_service_request in H. paths H. by apply Ok_inj, pair_eq in H as [<- _].
  - unfold apply_bs_service_response in H. paths H. by apply Ok_inj, pair_eq in H as [<- _].
  - unfold apply_al_connected in H. paths H. apply Ok_inj, pair_eq in H as [<- _]. found. by eapply store_lingers.
  - unfold apply_al_connected_ack in H. paths H. apply Ok_inj, pair_eq in H as [<- _]. found. by eapply store_lingers.
  - unfold apply_al_disconnected in H. paths H. apply Ok_inj, pair_eq in H as [<- _]. found. by eapply store_lingers.
  - unfold apply_al_disconnected_ack in H. paths H. apply Ok_inj, pair_eq in H as [<- _]. found. by eapply store_lingers.
  - unfold apply_version_info in H. paths H. by apply Ok_inj, pair_eq in H as [<- _].
  - unfold apply_version_info_ack in H. by paths H; apply Ok_inj, pair_eq in H as [<- _].
  - unfold apply_update_a8 in H. paths H. apply Ok_inj, pair_eq in H as [<- _]. found. by eapply store_lingers.
  - unfold apply_update_a8_ack in H. paths H. apply Ok_inj, pair_eq in H as [<- _]. found. by eapply store_lingers.
  - unfold apply_short_data_delivery in H. destruct (negb _); paths H; by apply Ok_inj, pair_eq in H as [<- _].
  - unfold apply_short_data_ack in H. paths H. by apply Ok_inj, pair_eq in H as [<- _].
Qed.

Lemma retarget_lingers c t m1 m2 e e' v : lingers false c e → differs (SetupA8Message.call_connection_reference m1) →
  retarget_connected_a8_from t m1 m2 e = Ok (e', v) → lingers false c e'.
Proof.
  intros Hl Hd H. unfold retarget_connected_a8_from in H. do 4 (destruct (decide _) as [|?%dec_stable]; [done|]).
  destruct (traffic_index e !! traffic_key t) as [c0|]; [|done]. do 2 (destruct (decide _); [done|]).
  apply rbind_ok in H as (s & Hs%at_ok & H). apply rbind_ok in H as (u & _ & H). destruct (decide _); [done|].
  apply Ok_inj, pair_eq in H as [<- _]. apply put_lingers; [by apply removed_lingers|done].
Qed.

Lemma run_lingers c ops e : lingers false c e → Forall (λ o, differs (op_ref o)) ops → lingers false c (engine_run ops e).
Proof.
  intros Hl Hf. revert e Hl. induction Hf as [|o ops Ho _ IH]; intros e Hl; [done|]. apply IH.
  destruct o as [m l|t m1 m2]; cbn in *.
  - destruct (apply m l e) as [[e' v]|] eqn:E; cbn; [by eapply apply_lingers|done].
  - destruct (retarget_connected_a8_from t m1 m2 e) as [[e' v]|] eqn:E; cbn; [by eapply retarget_lingers|done].
Qed.

(** *** Who replaces a reference *)
Definition replaced (c : list Z) (s : Session) (e e' : ProcedureEngine) : Prop :=
  ∃ s', sessions e' !! c = Some s' ∧ call_connection_reference s = Some r0 ∧ call_connection_reference s' ≠ Some r0.
Lemma ensure_keeps s r k t x : ensure_session_refs s r k t = Ok x → call_connection_reference s = Some r0 →
  match r with Some _ => r | None => call_connection_reference s end = Some r0.
Proof.
  unfold ensure_session_refs, ensure_call_connection_reference. intros H Hs. destruct r as [r|]; [|done]. cbn in H.
  rewrite Hs in H. destruct (decide _) as [|E%dec_stable]; [done|]. by rewrite E.
Qed.
Lemma store_replaced c s c0 c1 s0 s0' r k t x e :
  sessions e !! c = Some s → sessions e !! c0 = Some s0 → ensure_session_refs s0 r k t = Ok x → adopted r s0 s0' →
  ¬ replaced c s e (store c0 c1 s0' e).
Proof.
  intros Hc H0 Hok Ha (s' & Hs & Hr & Hn). cbn in Hs. destruct (decide (c = c0)) as [->|].
  - rewrite lookup_insert_eq in Hs. assert (s0 = s) as -> by congruence. injection Hs as <-. apply Hn. rewrite Ha. by eapply ensure_keeps.
  - rewrite lookup_insert_ne in Hs by done. congruence.
Qed.
Lemma ack_replaced c s c0 s0 s0' r e : sessions e !! c = Some s → sessions e !! c0 = Some s0 → adopted r s0 s0' →
  lingers true c e → differs r → replaced c s e (store c0 c0 s0' e) → lingers false c (store c0 c0 s0' e).
Proof.
  intros Hc H0 Ha [Hi Hn] Hr (s' & Hs & Hr0 & Hne). cbn in Hs. destruct (decide (c = c0)) as [<-|]; [|rewrite lookup_insert_ne in Hs by done; congruence].
  rewrite lookup_insert_eq in Hs. assert (s0 = s) as -> by congruence. injection Hs as <-.
  assert (call_connection_reference s0' = r) as Hs0 by (unfold adopted in Ha; destruct r; [done|congruence]).
  assert (differs (call_connection_reference s0')) as Hd by by rewrite Hs0.
  split; cbn; [by rewrite insert_ref_other|]. intros c' s2. destruct (decide (c' = c)) as [->|].
  - rewrite lookup_insert_eq. by intros [= <-].
  - rewrite lookup_insert_ne by done. intros Hs2 _. by eapply Hn.
Qed.

Ltac refused Hc Hrep :=
  exfalso; refine (store_replaced _ _ _ _ _ _ _ _ _ _ _ Hc _ _ _ Hrep); [eassumption|eassumption|reflexivity].

Lemma replaced_by_ack c s m l e e' v : sessions e !! c = Some s → lingers true c e → differs (named_ref m) →
  apply m l e = Ok (e', v) → replaced c s e e' → is_acknowledgement m = true ∧ lingers false c e'.
Proof.
  intros Hc Hl Hd H Hrep. unfold apply in H. apply rbind_ok in H as (u & _ & H).
  assert (sessions e' = sessions e → False) as Hsame by (destruct Hrep as (s' & Hs & ? & ?); intros E; rewrite E in Hs; congruence).
  destruct m; cbn [named_ref] in Hd.
  - exfalso. unfold apply_setup in H. paths H. apply Ok_inj, pair_eq in H as [<- _]. destruct Hrep as (s' & Hs & ? & ?). cbn in Hs.
    apply lookup_insert_Some in Hs as [[<- _]|[_ ?]]; [|congruence]. rewrite Hc in *. done.
  - unfold apply_connect in H. paths H. apply Ok_inj, pair_eq in H as [<- _]. found. refused Hc Hrep.
  - unfold apply_disconnect in H. paths H. apply Ok_inj, pair_eq in H as [<- _]. found. refused Hc Hrep.
  - unfold apply_release in H. paths H; apply Ok_inj, pair_eq in H as [<- _]; found; refused Hc Hrep.
  - exfalso. unfold apply_release_complete in H. paths H. apply Ok_inj, pair_eq in H as [<- _]. destruct Hrep as (s' & Hs & ? & ?). cbn in Hs.
    apply lookup_delete_Some in Hs as [_ ?]. congruence.
  - unfold apply_bs_service_request in H. paths H. by apply Ok_inj, pair_eq in H as [<- _].
  - unfold apply_bs_service_response in H. paths H. by apply Ok_inj, pair_eq in H as [<- _].
  - unfold apply_al_connected in H. paths H. apply Ok_inj, pair_eq in H as [<- _]. found. refused Hc Hrep.
  - unfold apply_al_connected_ack in H. paths H. apply Ok_inj, pair_eq in H as [<- _]. found. split; [done|]. by eapply ack_replaced.
  - unfold apply_al_disconnected in H. paths H. apply Ok_inj, pair_eq in H as [<- _]. found. refused Hc Hrep.
  - unfold apply_al_disconnected_ack in H. paths H. apply Ok_inj, pair_eq in H as [<- _]. found. split; [done|]. by eapply ack_replaced.
  - unfold apply_version_info in H. paths H. by apply Ok_inj, pair_eq in H as [<- _].
  - unfold apply_version_info_ack in H. by paths H; apply Ok_inj, pair_eq in H as [<- _].
  - unfold apply_update_a8 in H. paths H. apply Ok_inj, pair_eq in H as [<- _]. found. refused Hc Hrep.
  - unfold apply_update_a8_ack in H. paths H. apply Ok_inj, pair_eq in H as [<- _]. found. split; [done|]. by eapply ack_replaced.
  - unfold apply_short_data_delivery in H. destruct (negb _); paths H; by apply Ok_inj, pair_eq in H as [<- _].
  - unfold apply_short_data_ack in H. paths H. by apply Ok_inj, pair_eq in H as [<- _].
Qed.

(** A release complete that names a lingering reference alone ends whatever is being released there. *)
Lemma lingering_release c e s l p : lingers false c e → sessions e !! c = Some s → phase s = ReleasePending l p →
  p_call_connection_reference p = None →
  apply (PReleaseA8Complete (ReleaseA8CompleteMessage.mk (Some r0) None)) (negb (is_bsc (role e))) e =
    Ok (remove_indexes s (set_sessions (delete c) e), SessionReleased c).
Proof.
  intros [Hi _] Hs Hp Hn. unfold apply, validate_direction. replace (direction_valid _ _ _) with true by (cbn; by destruct (role e)).
  cbn [rbind]. unfold apply_release_complete, lookup_con_ref_by_response.
  cbn [ReleaseA8CompleteMessage.call_connection_reference ReleaseA8CompleteMessage.correlation_id mbind option_bind].
  fold K. rewrite Hi. cbn [rbind]. unfold session_mut_at.
  rewrite Hs. cbn [rbind]. rewrite Hp. cbn [rbind]. unfold ensure_response_identity. rewrite Hn. cbn.
  by destruct (p_correlation_id p).
Qed.
End stale.


(** A call with the references [ref0] and [9], about to have its access link acknowledged under [ref1]; its release
    follows, and another call, which never names [ref0], on the same connection reference, being released. *)
Definition ref0 : CallReference := mkCallRef 1 2 3.
Definition ref1 : CallReference := mkCallRef 1 2 4.
Definition traffic0 : TrafficId := gre_ppp 7 [10; 0; 0; 1].
Definition traffic1 : TrafficId := gre_ppp 8 [10; 0; 0; 1].
Definition setup_call (r : option CallReference) (k : list Z) (t : TrafficId) : list EngineOp :=
  [OpApply (PSetupA8 (SetupA8Message.mk r (Some k) None None None 1 None [1] t 33 (mkIndicators false false false false true false) None)) true;
   OpApply (PConnectA8 (ConnectA8Message.mk r (Some k) None None None 1 t 0x13 None)) false].
Definition release_call (k : list Z) (t : TrafficId) : EngineOp :=
  OpApply (PReleaseA8 (ReleaseA8Message.mk None (Some k) None None None 1 t 0x10)) true.
Definition before_ack : ProcedureEngine :=
  engine_run (setup_call (Some ref0) [9] traffic0 ++ [OpApply (PAlConnected (AlConnectedMessage.mk None (Some [9]) traffic0 None)) true])
    (new_engine Bsc).
Definition stale_ack : ProcedureMessage := PAlConnectedAck (AlConnectedAckMessage.mk (Some ref1) (Some [9])).
Definition after_ack : list EngineOp :=
  release_call [9] traffic0 :: OpApply (PReleaseA8Complete (ReleaseA8CompleteMessage.mk None (Some [9]))) false ::
  setup_call None [10] traffic1 ++ [release_call [10] traffic1].

Definition acked : ProcedureEngine := settle (apply stale_ack false before_ack) before_ack.
Definition acked_session (r : CallReference) (link : AccessLinkPhase) : Session :=
  mkSession 1 (Some r) (Some [9]) traffic0 Connected link UpdateIdle.

