(* ===== verification/A9Transport.v ===== *)
(** * A9 signaling over UDP ([cdma-a9/src/transport.rs]) and the whole path of a message

    The versioned datagram around an encoded A9 message, and the path of a procedure message
    from the engine of one end to the other: its typed encoder, the raw codec, the datagram, and
    back.  The header is sixteen octets, so the pattern of [decode] is the length check. *)
From S2P Require Import Prelude Octets Text A9Codec A9Elements A9Typed A9CodecProofs A9Messages A9Session.
Import A9 A9Elements A9Typed A9Session.

Module A9Transport.

Definition VERSION : Z := 1.
(** [u16::MAX as usize] *)
Definition u16_MAX : nat := Z.to_nat 0xffff.
Definition HEADER_LEN : nat := 16.
Record TransportMetadata := mkMetadata { flags : Z; session_id : Z; sequence_no : Z }.
Record UdpSignalingDatagram := mkDatagram { metadata : TransportMetadata; message_type : MessageType; payload : list Z }.

(** [UdpSignalingDatagram::new] *)
Definition new (md : TransportMetadata) (payload : list Z) : Result UdpSignalingDatagram :=
  match payload with
  | [] => Err EmptyMessage
  | t :: _ =>
      t ←r message_type_from_u8 t;
      if decide (u16_MAX < length payload)%nat then Err (InvalidLength u16_MAX (length payload)) else Ok (mkDatagram md t payload)
  end.
Definition from_message (md : TransportMetadata) (m : Message) : Result UdpSignalingDatagram :=
  w ←r A9.encode m; new md w.

Definition encode (d : UdpSignalingDatagram) : Result (list Z) :=
  if decide (u16_MAX < length (payload d))%nat then Err (InvalidLength u16_MAX (length (payload d)))
  else
    match payload d with
    | [] => Err EmptyMessage
    | t :: _ =>
        t ←r message_type_from_u8 t;
        if decide (t ≠ message_type d) then Err (PayloadMessageTypeMismatch (message_type d) t)
        else Ok ([VERSION; flags (metadata d); message_type_u8 (message_type d); 0] ++ to_be32 (session_id (metadata d)) ++
                 to_be32 (sequence_no (metadata d)) ++ to_be16 ((Z.of_nat (length (payload d))) as_u16) ++ to_be16 0 ++ payload d)
    end.

Definition decode (input : list Z) : Result UdpSignalingDatagram :=
  match input with
  | version :: fl :: t :: _ :: s0 :: s1 :: s2 :: s3 :: q0 :: q1 :: q2 :: q3 :: l0 :: l1 :: _ :: _ :: payload =>
      if decide (version ≠ VERSION) then Err (InvalidValue "A9 UDP signaling wrapper version" version)
      else
        t ←r message_type_from_u8 t;
        let total_len := (HEADER_LEN + Z.to_nat (from_be16 l0 l1))%nat in
        if decide (length input < total_len)%nat then Err (Truncated total_len (length input))
        else if decide (length input ≠ total_len) then Err (InvalidLength total_len (length input))
        else
          match payload with
          | [] => Err EmptyMessage
          | pt :: _ =>
              pt ←r message_type_from_u8 pt;
              if decide (pt ≠ t) then Err (PayloadMessageTypeMismatch t pt)
              else Ok (mkDatagram (mkMetadata fl (from_be32 s0 s1 s2 s3) (from_be32 q0 q1 q2 q3)) t payload)
          end
  | _ => Err (Truncated HEADER_LEN (length input))
  end.
Definition decode_message (d : UdpSignalingDatagram) : Result Message := A9.decode (payload d).

End A9Transport.

(** ** Datagrams *)
Definition metadata_ok (md : A9Transport.TransportMetadata) : Prop :=
  is_u8 (A9Transport.flags md) ∧ is_u32 (A9Transport.session_id md) ∧ is_u32 (A9Transport.sequence_no md).
Lemma from_be32_read v : from_be32 (v / 16777216) (v / 65536 mod 256) (v / 256 mod 256) (v mod 256) = v.
Proof. by apply from_be32_to_be32. Qed.
Lemma datagram_roundtrip md t w d wire :
  A9Transport.new md (message_type_u8 t :: w) = Ok d → A9Transport.encode d = Ok wire → A9Transport.decode wire = Ok d.
Proof.
  unfold A9Transport.new. rewrite message_type_roundtrip. cbn [rbind]. destruct (decide _) as [|Hl]; [done|]. intros [= <-].
  unfold A9Transport.encode. cbn [A9Transport.payload A9Transport.message_type A9Transport.metadata]. rewrite decide_False by done.
  rewrite message_type_roundtrip. cbn [rbind]. rewrite decide_neq_refl. intros [= <-].
  unfold A9Transport.decode, to_be32, to_be16. cbn [app]. rewrite decide_neq_refl, !message_type_roundtrip, !from_be32_read. cbn [rbind].
  assert (from_be16 (((Z.of_nat (S (length w))) as_u16) / 256) (((Z.of_nat (S (length w))) as_u16) mod 256) = Z.of_nat (S (length w))) as ->.
  { unfold A9Transport.u16_MAX in Hl. cbn [length] in Hl. unfold from_be16. rewrite wrap_small; [zdiv|]. unfold is_u. lia. }
  cbn [length]. rewrite Nat2Z.id. unfold A9Transport.HEADER_LEN. rewrite decide_False by lia. rewrite decide_False by lia.
  rewrite decide_neq_refl. by destruct md.
Qed.
Lemma datagram_total md t w :
  (length w < A9Transport.u16_MAX)%nat → ∃ d wire, A9Transport.new md (message_type_u8 t :: w) = Ok d ∧ A9Transport.encode d = Ok wire ∧
    A9Transport.payload d = message_type_u8 t :: w.
Proof.
  intros Hl. unfold A9Transport.new. rewrite message_type_roundtrip. cbn [rbind]. rewrite decide_False by (cbn; lia). do 2 eexists.
  split_and!; [done| |done]. unfold A9Transport.encode. cbn [A9Transport.payload A9Transport.message_type A9Transport.metadata].
  rewrite decide_False by (cbn; lia). rewrite message_type_roundtrip. cbn [rbind]. by rewrite decide_neq_refl.
Qed.
Lemma datagram_decoded wire d :
  bytes wire → A9Transport.decode wire = Ok d → metadata_ok (A9Transport.metadata d) ∧ bytes (A9Transport.payload d).
Proof.
  intros Hb H. unfold A9Transport.decode in H. do 16 (destruct wire as [|? wire]; [done|]).
  destruct (decide _) as [|]; [done|]. apply rbind_ok in H as (t & _ & H). cbv zeta in H.
  destruct (decide _) as [|]; [done|]. destruct (decide _) as [|]; [done|]. destruct wire as [|pt wire]; [done|].
  apply rbind_ok in H as (pt' & _ & H). destruct (decide _) as [|]; [done|]. injection H as <-.
  unfold bytes in *. rewrite !Forall_cons in Hb. destruct_and! Hb. cbn. split; [|rewrite Forall_cons; done].
  unfold metadata_ok, from_be32, is_u in *. cbn. lia.
Qed.
Lemma new_datagram md t w d :
  A9Transport.new md (message_type_u8 t :: w) = Ok d →
  A9Transport.message_type d = t ∧ A9Transport.payload d = message_type_u8 t :: w ∧ A9Transport.metadata d = md.
Proof. unfold A9Transport.new. rewrite message_type_roundtrip. cbn [rbind]. destruct (decide _); [done|]. by intros [= <-]. Qed.
Lemma datagram_length md w d wire :
  A9Transport.new md w = Ok d → A9Transport.encode d = Ok wire → (length wire ≤ A9Transport.HEADER_LEN + A9Transport.u16_MAX)%nat.
Proof.
  intros _ H. unfold A9Transport.encode in H. destruct (decide _) as [|Hl]; [done|]. destruct (A9Transport.payload d) as [|t p]; [done|].
  apply rbind_ok in H as (t' & _ & H). destruct (decide _); [done|]. injection H as <-. cbn in *. lia.
Qed.

(** ** How many elements a message has *)
Definition all_ids : list Z :=
  element_id_u8 <$> [ConRef; UserZoneId; ServiceOption; Cause; A9Indicators; BscId; QualityOfServiceParameters; A8TrafficId;
    DataCount; SrId; CorrelationId; PdsnIpAddress; MobileIdentity; Is2000ServiceConfigurationRecord; RnPdit; AnchorPdsnAddress;
    SoftwareVersion; AddsUserPart; CallConnectionReference; AnchorPpAddress].
Definition total_seen (seen : gmap Z nat) (ids : list Z) : nat := sum_list_with (counted seen) ids.
Lemma total_seen_other seen i n ids : i ∉ ids → total_seen (<[i := n]> seen) ids = total_seen seen ids.
Proof.
  unfold total_seen. induction ids as [|j ids IH]; intros H; [done|]. apply not_elem_of_cons in H as [Hj H]. cbn. rewrite IH by done.
  unfold counted at 1. by rewrite lookup_insert_ne.
Qed.
Lemma total_seen_insert seen i ids :
  NoDup ids → i ∈ ids → total_seen (<[i := S (counted seen i)]> seen) ids = S (total_seen seen ids).
Proof.
  induction ids as [|j ids IH]; intros Hnd Hi; [by apply elem_of_nil in Hi|]. apply NoDup_cons in Hnd as [Hj Hnd].
  destruct (decide (i = j)) as [->|Hne].
  - change (counted (<[j := S (counted seen j)]> seen) j + total_seen (<[j := S (counted seen j)]> seen) ids =
      S (counted seen j + total_seen seen ids))%nat. rewrite total_seen_other by done. unfold counted at 1.
    by rewrite lookup_insert_eq.
  - apply elem_of_cons in Hi as [?|Hi]; [done|].
    change (counted (<[i := S (counted seen i)]> seen) j + total_seen (<[i := S (counted seen i)]> seen) ids =
      S (counted seen j + total_seen seen ids))%nat. rewrite IH by done. unfold counted at 1. rewrite lookup_insert_ne by done.
    fold (counted seen j). lia.
Qed.
Lemma total_seen_bounded seen ids : (∀ i, counted seen i ≤ 3)%nat → (total_seen seen ids ≤ 3 * length ids)%nat.
Proof. intros H. unfold total_seen. induction ids as [|i ids IH]; cbn; [lia|]. specialize (H i). lia. Qed.
Lemma counts_bound t es seen :
  (∀ i, counted seen i ≤ 3)%nat → validate_counts t seen es = Ok tt → (length es + total_seen seen all_ids ≤ 60)%nat.
Proof.
  revert seen. induction es as [|e es IH]; intros seen Hs; cbn [validate_counts].
  - intros _. exact (total_seen_bounded seen all_ids Hs).
  - intros H. apply rbind_ok in H as (? & _ & H). fold (counted seen (element_id_u8 (id e))) in H. destruct (decide _) as [|Hd]; [done|].
    apply IH in H.
    + rewrite total_seen_insert in H; [cbn [length]; lia|apply (bool_decide_unpack _); vm_compute; exact I|].
      destruct (id e); apply (bool_decide_unpack _); vm_compute; exact I.
    + intros i. unfold counted at 1. destruct (decide (i = element_id_u8 (id e))) as [->|];
        [rewrite lookup_insert_eq; cbn|rewrite lookup_insert_ne by done; apply Hs].
      assert (allowed_repetitions t (id e) ≤ 3)%nat by (destruct (id e); cbn; try lia; destruct (carries_identities t); lia). lia.
Qed.
Lemma encode_elements_length es w : encode_elements es = Ok w → (length w ≤ 257 * length es)%nat.
Proof.
  revert w. induction es as [|e es IH]; intros w; cbn [encode_elements]; [by intros [= <-]|]. destruct (decide _) as [|Hd]; [done|].
  intros H. apply rbind_ok in H as (out & Ho & H). injection H as <-. apply IH in Ho. cbn. rewrite length_app. lia.
Qed.
Lemma encode_typed_shape t es w :
  encode_typed t es = Ok w → ∃ w', w = message_type_u8 t :: w' ∧ (length w' < A9Transport.u16_MAX)%nat.
Proof.
  unfold encode_typed, new_message. intros H. apply rbind_ok in H as (m & Hm & H). apply rbind_ok in Hm as (? & _ & Hm).
  injection Hm as <-. unfold encode in H. apply rbind_ok in H as (? & Hv & H). apply rbind_ok in H as (out & Ho & H). injection H as <-.
  exists out. split; [done|]. unfold validate_required in Hv. apply rbind_ok in Hv as ([] & Hc & _). cbn [A9.message_type elements] in *.
  apply counts_bound in Hc; [|intros i; unfold counted; rewrite lookup_empty; cbn; lia]. apply encode_elements_length in Ho.
  unfold A9Transport.u16_MAX. lia.
Qed.

(** ** The path of a procedure message *)
Definition procedure_encode (m : ProcedureMessage) : Result (list Z) :=
  match m with
  | PSetupA8 m => SetupA8Message.encode m | PConnectA8 m => ConnectA8Message.encode m | PDisconnectA8 m => DisconnectA8Message.encode m
  | PReleaseA8 m => ReleaseA8Message.encode m | PReleaseA8Complete m => ReleaseA8CompleteMessage.encode m | PBsServiceRequest m => BsServiceRequestMessage.encode m
  | PBsServiceResponse m => BsServiceResponseMessage.encode m | PAlConnected m => AlConnectedMessage.encode m | PAlConnectedAck m => AlConnectedAckMessage.encode m
  | PAlDisconnected m => AlDisconnectedMessage.encode m | PAlDisconnectedAck m => AlDisconnectedAckMessage.encode m | PVersionInfo m => VersionInfoMessage.encode m
  | PVersionInfoAck m => VersionInfoAckMessage.encode m | PUpdateA8 m => UpdateA8Message.encode m | PUpdateA8Ack m => UpdateA8AckMessage.encode m
  | PShortDataDelivery m => ShortDataDeliveryMessage.encode m | PShortDataAck m => ShortDataAckMessage.encode m
  end.
Definition map_result {A B} (f : A → B) (r : Result A) : Result B := a ←r r; Ok (f a).
Definition procedure_decode (t : MessageType) (w : list Z) : Result ProcedureMessage :=
  match t with
  | SetupA8 => map_result PSetupA8 (SetupA8Message.decode w) | ConnectA8 => map_result PConnectA8 (ConnectA8Message.decode w)
  | DisconnectA8 => map_result PDisconnectA8 (DisconnectA8Message.decode w) | ReleaseA8 => map_result PReleaseA8 (ReleaseA8Message.decode w)
  | ReleaseA8Complete => map_result PReleaseA8Complete (ReleaseA8CompleteMessage.decode w) | BsServiceRequest => map_result PBsServiceRequest (BsServiceRequestMessage.decode w)
  | BsServiceResponse => map_result PBsServiceResponse (BsServiceResponseMessage.decode w) | AlConnected => map_result PAlConnected (AlConnectedMessage.decode w)
  | AlConnectedAck => map_result PAlConnectedAck (AlConnectedAckMessage.decode w) | AlDisconnected => map_result PAlDisconnected (AlDisconnectedMessage.decode w)
  | AlDisconnectedAck => map_result PAlDisconnectedAck (AlDisconnectedAckMessage.decode w) | VersionInfo => map_result PVersionInfo (VersionInfoMessage.decode w)
  | VersionInfoAck => map_result PVersionInfoAck (VersionInfoAckMessage.decode w) | UpdateA8 => map_result PUpdateA8 (UpdateA8Message.decode w)
  | UpdateA8Ack => map_result PUpdateA8Ack (UpdateA8AckMessage.decode w) | ShortDataDelivery => map_result PShortDataDelivery (ShortDataDeliveryMessage.decode w)
  | ShortDataAck => map_result PShortDataAck (ShortDataAckMessage.decode w)
  end.
Definition procedure_ok (m : ProcedureMessage) : Prop :=
  match m with
  | PSetupA8 m => SetupA8_ok m | PConnectA8 m => ConnectA8_ok m | PDisconnectA8 m => DisconnectA8_ok m | PReleaseA8 m => ReleaseA8_ok m
  | PReleaseA8Complete m => ReleaseA8Complete_ok m | PBsServiceRequest m => BsServiceRequest_ok m | PBsServiceResponse m => BsServiceResponse_ok m | PAlConnected m => AlConnected_ok m
  | PAlConnectedAck m => AlConnectedAck_ok m | PAlDisconnected m => AlDisconnected_ok m | PAlDisconnectedAck m => AlDisconnectedAck_ok m | PVersionInfo m => VersionInfo_ok m
  | PVersionInfoAck m => VersionInfoAck_ok m | PUpdateA8 m => UpdateA8_ok m | PUpdateA8Ack m => UpdateA8Ack_ok m | PShortDataDelivery m => ShortDataDelivery_ok m
  | PShortDataAck m => ShortDataAck_ok m
  end.
Definition procedure_sendable (m : ProcedureMessage) : Prop :=
  match m with
  | PSetupA8 m => SetupA8_sendable m | PConnectA8 m => ConnectA8_sendable m | PDisconnectA8 m => DisconnectA8_sendable m
  | PReleaseA8 m => ReleaseA8_sendable m | PReleaseA8Complete m => ReleaseA8Complete_sendable m | PBsServiceRequest m => BsServiceRequest_sendable m
  | PBsServiceResponse m => BsServiceResponse_sendable m | PAlConnected m => AlConnected_sendable m | PAlConnectedAck m => AlConnectedAck_sendable m
  | PAlDisconnected m => AlDisconnected_sendable m | PAlDisconnectedAck m => AlDisconnectedAck_sendable m | PVersionInfo m => VersionInfo_sendable m
  | PVersionInfoAck m => VersionInfoAck_sendable m | PUpdateA8 m => UpdateA8_sendable m | PUpdateA8Ack m => UpdateA8Ack_sendable m
  | PShortDataDelivery m => ShortDataDelivery_sendable m | PShortDataAck m => ShortDataAck_sendable m
  end.
Definition send (md : A9Transport.TransportMetadata) (m : ProcedureMessage) : Result (list Z) :=
  w ←r procedure_encode m; d ←r A9Transport.new md w; A9Transport.encode d.
Definition receive (wire : list Z) : Result (A9Transport.TransportMetadata * ProcedureMessage) :=
  d ←r A9Transport.decode wire; m ←r procedure_decode (A9Transport.message_type d) (A9Transport.payload d);
  Ok (A9Transport.metadata d, m).

Lemma procedure_roundtrip m w : procedure_ok m → procedure_encode m = Ok w → procedure_decode (procedure_type m) w = Ok m.
Proof.
  destruct m; cbn; intros Hok H; unfold map_result.
  - by rewrite (SetupA8_roundtrip _ _ Hok H).
  - by rewrite (ConnectA8_roundtrip _ _ Hok H).
  - by rewrite (DisconnectA8_roundtrip _ _ Hok H).
  - by rewrite (ReleaseA8_roundtrip _ _ Hok H).
  - by rewrite (ReleaseA8Complete_roundtrip _ _ Hok H).
  - by rewrite (BsServiceRequest_roundtrip _ _ Hok H).
  - by rewrite (BsServiceResponse_roundtrip _ _ Hok H).
  - by rewrite (AlConnected_roundtrip _ _ Hok H).
  - by rewrite (AlConnectedAck_roundtrip _ _ Hok H).
  - by rewrite (AlDisconnected_roundtrip _ _ Hok H).
  - by rewrite (AlDisconnectedAck_roundtrip _ _ Hok H).
  - by rewrite (VersionInfo_roundtrip _ _ Hok H).
  - by rewrite (VersionInfoAck_roundtrip _ _ Hok H).
  - by rewrite (UpdateA8_roundtrip _ _ Hok H).
  - by rewrite (UpdateA8Ack_roundtrip _ _ Hok H).
  - by rewrite (ShortDataDelivery_roundtrip _ _ Hok H).
  - by rewrite (ShortDataAck_roundtrip _ _ Hok H).
Qed.
Lemma procedure_total m : procedure_ok m → procedure_sendable m → ∃ w, procedure_encode m = Ok w.
Proof.
  destruct m; cbn; intros Hok Hs.
  - by apply SetupA8_total.
  - by apply ConnectA8_total.
  - by apply DisconnectA8_total.
  - by apply ReleaseA8_total.
  - by apply ReleaseA8Complete_total.
  - by apply BsServiceRequest_total.
  - by apply BsServiceResponse_total.
  - by apply AlConnected_total.
  - by apply AlConnectedAck_total.
  - by apply AlDisconnected_total.
  - by apply AlDisconnectedAck_total.
  - by apply VersionInfo_total.
  - by apply VersionInfoAck_total.
  - by apply UpdateA8_total.
  - by apply UpdateA8Ack_total.
  - by apply ShortDataDelivery_total.
  - by apply ShortDataAck_total.
Qed.
Lemma procedure_decoded t w m : bytes w → procedure_decode t w = Ok m → procedure_ok m.
Proof.
  intros Hw H. destruct t; cbn in H; unfold map_result in H; apply rbind_ok in H as (a & Ha & H); injection H as <-; cbn; revert Ha;
    first [by apply SetupA8_decoded | by apply ConnectA8_decoded | by apply DisconnectA8_decoded | by apply ReleaseA8_decoded | by apply ReleaseA8Complete_decoded | by apply BsServiceRequest_decoded | by apply BsServiceResponse_decoded | by apply AlConnected_decoded | by apply AlConnectedAck_decoded | by apply AlDisconnected_decoded | by apply AlDisconnectedAck_decoded | by apply VersionInfo_decoded | by apply VersionInfoAck_decoded | by apply UpdateA8_decoded | by apply UpdateA8Ack_decoded | by apply ShortDataDelivery_decoded | by apply ShortDataAck_decoded].
Qed.
Lemma procedure_shape m w :
  procedure_encode m = Ok w → ∃ w', w = message_type_u8 (procedure_type m) :: w' ∧ (length w' < A9Transport.u16_MAX)%nat.
Proof.
  destruct m; cbn [procedure_encode procedure_type]; intros H;
    [unfold SetupA8Message.encode in H|unfold ConnectA8Message.encode in H|unfold DisconnectA8Message.encode in H|unfold ReleaseA8Message.encode in H|unfold ReleaseA8CompleteMessage.encode in H|unfold BsServiceRequestMessage.encode in H|unfold BsServiceResponseMessage.encode in H|unfold AlConnectedMessage.encode in H|unfold AlConnectedAckMessage.encode in H|unfold AlDisconnectedMessage.encode in H|unfold AlDisconnectedAckMessage.encode in H|unfold VersionInfoMessage.encode in H|unfold VersionInfoAckMessage.encode in H|unfold UpdateA8Message.encode in H|unfold UpdateA8AckMessage.encode in H|unfold ShortDataDeliveryMessage.encode in H|unfold ShortDataAckMessage.encode in H];
    ok_inv H; by eapply encode_typed_shape.
Qed.

(** C14: An A9 procedure message reaches the other end: a well-typed message that its encoder accepts (the values the
    typed encoders check are in range) is sent in a datagram whose length its header can state; every datagram sent is received with
    the same metadata and the same message; and whatever octets arrive, a message that is received is well typed. *)
Theorem a9_signaling_delivers :
  (∀ md m, metadata_ok md → procedure_ok m → procedure_sendable m → ∃ wire, send md m = Ok wire) ∧
  (∀ md m wire, metadata_ok md → procedure_ok m → send md m = Ok wire → receive wire = Ok (md, m) ∧ (length wire ≤ A9Transport.HEADER_LEN + A9Transport.u16_MAX)%nat) ∧
  (∀ wire md m, bytes wire → receive wire = Ok (md, m) → metadata_ok md ∧ procedure_ok m).
Proof.
  split_and!.
  - intros md m _ Hok Hs. destruct (procedure_total m Hok Hs) as [w Hw]. destruct (procedure_shape m w Hw) as (w' & -> & Hl).
    destruct (datagram_total md (procedure_type m) w' Hl) as (d & wire & Hd & He & _). exists wire. unfold send. rewrite Hw. cbn [rbind]. by rewrite Hd.
  - intros md m wire _ Hok H. unfold send in H. ok_inv H. destruct (procedure_shape m _ Hok0) as (w' & -> & Hl).
    split; [|by eapply datagram_length].
    unfold receive. rewrite (datagram_roundtrip _ _ _ _ _ Hok1 H). cbn [rbind]. destruct (new_datagram _ _ _ _ Hok1) as (-> & -> & ->).
    by rewrite (procedure_roundtrip m _ Hok Hok0).
  - intros wire md m Hb H. unfold receive in H. ok_inv H. destruct (datagram_decoded _ _ Hb Hok) as [Hmd Hp].
    injection H as <- <-. split; [done|by eapply procedure_decoded].
Qed.
(** A setup sent and received. *)
Lemma a9_signaling_delivers_witness :
  let md := A9Transport.mkMetadata 0 7 1 in
  let m := PSetupA8 (SetupA8Message.mk (Some (mkCallRef 1 2 3)) None (Some [51; 49; 48; 50; 54; 48; 49; 50; 51; 52; 53; 54; 55; 56; 57]) (Some 5) None 5 None [1]
    (gre_ppp 7 [10; 0; 0; 1]) 59 (mkIndicators false false false false true false) None) in
  ∃ wire, send md m = Ok wire ∧ receive wire = Ok (md, m) ∧ procedure_ok m.
Proof.
  intros md m. assert (metadata_ok md) as Hmd by (repeat split; vm_compute; congruence).
  assert (procedure_ok m) as Hok by (cbn; repeat (split || constructor); vm_compute; congruence).
  assert (procedure_sendable m) as Hs by (cbn; split_and!; eexists; vm_compute; reflexivity).
  destruct (proj1 a9_signaling_delivers md m Hmd Hok Hs) as [wire Hw]. exists wire.
  split_and!; [exact Hw|exact (proj1 (proj1 (proj2 a9_signaling_delivers) md m wire Hmd Hok Hw))|exact Hok].
Defined.
