(* ===== verification/NodeTimers.v ===== *)
(** * Timers of the packet nodes

    What the session managers of the PCF and the PDSN share: readings of the monotonic clock,
    and a pass over the keys of a map in which every entry is looked at once and kept, changed
    or removed.  A call that reads the clock several times takes its readings in order from a
    [Clock]; the number of the next reading is threaded through it.  An [Instant] is a [Z] of
    nanoseconds, a [Duration] one that is not negative. *)
From stdpp Require Import sorting.
From S2P Require Import Prelude.

Abbreviation Clock := (nat → Z).
(** [Instant]s never go back. *)
Definition monotone (c : Clock) : Prop := ∀ i j, (i ≤ j)%nat → c i ≤ c j.
(** [since.elapsed()] at [now], which saturates *)
Definition elapsed (since now : Z) : Z := Z.max 0 (now - since).
(** [earliest.map_or(deadline, |e| e.min(deadline))] *)
Definition earlier (deadline : Z) (earliest : option Z) : option Z :=
  Some (match earliest with Some e => Z.min e deadline | None => deadline end).
(** The keys of a [BTreeMap] in its order. *)
Definition ordered_keys {A} (m : gmap Z A) : list Z := merge_sort Z.le (map_to_list m).*1.

Lemma ordered_keys_elem {A} (m : gmap Z A) k : k ∈ ordered_keys m ↔ is_Some (m !! k).
Proof.
  unfold ordered_keys. rewrite merge_sort_Permutation, list_elem_of_fmap. split.
  - intros ([k' v] & -> & H). apply elem_of_map_to_list in H. cbn. eauto.
  - intros [v H]. exists (k, v). split; [done|]. by apply elem_of_map_to_list.
Qed.
Lemma ordered_keys_NoDup {A} (m : gmap Z A) : NoDup (ordered_keys m).
Proof. unfold ordered_keys. rewrite merge_sort_Permutation. apply NoDup_fst_map_to_list. Qed.
Lemma ordered_keys_sorted {A} (m : gmap Z A) : Sorted Z.le (ordered_keys m).
Proof. apply Sorted_merge_sort. intros x y. lia. Qed.

Lemma expired_iff since now timeout : 0 < timeout → timeout ≤ elapsed since now ↔ since + timeout ≤ now.
Proof. unfold elapsed. lia. Qed.

(** ** The earliest deadline *)
Section earliest.
Context {V : Type} (deadline : V → option Z).
Definition earliest_of (vs : list V) : option Z :=
  foldl (λ e v, match deadline v with Some d => earlier d e | None => e end) None vs.
Lemma earliest_spec vs acc d :
  foldl (λ e v, match deadline v with Some d => earlier d e | None => e end) acc vs = Some d →
  (acc = Some d ∨ ∃ v, v ∈ vs ∧ deadline v = Some d) ∧ (∀ a, acc = Some a → d ≤ a) ∧ (∀ v x, v ∈ vs → deadline v = Some x → d ≤ x).
Proof.
  revert acc. induction vs as [|v vs IH]; intros acc; cbn.
  - intros ->. split_and!; [by left|by intros a [= ->]|]. by intros v x ?%elem_of_nil.
  - intros H. apply IH in H as (H1 & H2 & H3). destruct (deadline v) as [x|] eqn:Ex.
    + pose proof (H2 _ eq_refl) as Hd. split_and!.
      * destruct H1 as [[= H1]|(v' & ? & ?)]; [|right; exists v'; split; [by right|done]].
        destruct acc as [a|]; [|right; exists v; split; [by left|congruence]].
        destruct (Z.min_spec a x) as [[? E]|[? E]]; rewrite E in H1;
          [left; by f_equal|right; exists v; split; [by left|congruence]].
      * intros a ->. lia.
      * intros v' y [->|?]%elem_of_cons Hy; [|by eapply H3]. destruct acc; replace y with x by congruence; lia.
    + split_and!; [|done|].
      * destruct H1 as [?|(v' & ? & ?)]; [by left|right; exists v'; split; [by right|done]].
      * intros v' y [->|?]%elem_of_cons Hy; [congruence|by eapply H3].
Qed.
Lemma earliest_none vs acc :
  foldl (λ e v, match deadline v with Some d => earlier d e | None => e end) acc vs = None →
  acc = None ∧ ∀ v, v ∈ vs → deadline v = None.
Proof.
  revert acc. induction vs as [|v vs IH]; intros acc; cbn; [intros ->; split; [done|by intros v ?%elem_of_nil]|].
  intros H. apply IH in H as [H1 H2]. destruct (deadline v) eqn:E; [done|]. split; [done|].
  intros v' [->|?]%elem_of_cons; [done|by apply H2].
Qed.
Lemma earliest_in vs d : earliest_of vs = Some d → ∃ v, v ∈ vs ∧ deadline v = Some d.
Proof. intros Hd. by apply earliest_spec in Hd as ([|?] & _ & _). Qed.
Lemma earliest_le vs v x : v ∈ vs → deadline v = Some x → ∃ d, earliest_of vs = Some d ∧ d ≤ x.
Proof.
  intros Hv Hx. unfold earliest_of. destruct (foldl _ _ _) as [d|] eqn:Ed.
  - apply earliest_spec in Ed as (_ & _ & Hd). eauto.
  - apply earliest_none in Ed as [_ Ed]. rewrite Ed in Hx by done. done.
Qed.
End earliest.

(** ** A pass over the entries of a map *)
Section pass.
Context {K V E : Type} `{Countable K} (visit : K → nat → V → option V * list E * nat).
Definition put_back (k : K) (v : option V) (m : gmap K V) : gmap K V :=
  match v with Some v => <[k := v]> m | None => delete k m end.
(** Visit the entries of [ks]; the [n]-th reading of the clock is the next. *)
Fixpoint pass (ks : list K) (n : nat) (m : gmap K V) : gmap K V * list E * nat :=
  match ks with
  | [] => (m, [], n)
  | k :: ks =>
      match m !! k with
      | None => pass ks n m
      | Some v =>
          let '(v, ev, n) := visit k n v in
          let '(m, evs, n) := pass ks n (put_back k v m) in
          (m, ev ++ evs, n)
      end
  end.
Hypothesis advances : ∀ k n v, (n ≤ (visit k n v).2)%nat.

Lemma lookup_put_back k v m : put_back k v m !! k = v.
Proof. destruct v; cbn; [apply lookup_insert_eq|apply lookup_delete_eq]. Qed.
Lemma lookup_put_back_ne k k' v m : k ≠ k' → put_back k v m !! k' = m !! k'.
Proof. intros. destruct v; cbn; [by apply lookup_insert_ne|by apply lookup_delete_ne]. Qed.

Lemma pass_advances ks n m : (n ≤ (pass ks n m).2)%nat.
Proof using advances.
  revert n m. induction ks as [|k ks IH]; intros n m; cbn; [done|]. destruct (m !! k) as [v|]; [|apply IH].
  pose proof (advances k n v) as Hn. destruct (visit k n v) as [[v' ev] n']. specialize (IH n' (put_back k v' m)).
  destruct (pass ks n' _) as [[m' evs] n'']. cbn in *. lia.
Qed.
Lemma pass_other ks n m k : k ∉ ks → (pass ks n m).1.1 !! k = m !! k.
Proof.
  revert n m. induction ks as [|k' ks IH]; intros n m Hk; cbn; [done|]. apply not_elem_of_cons in Hk as [Hne Hk].
  destruct (m !! k') as [v|]; [|by apply IH]. destruct (visit k' n v) as [[v' ev] n']. specialize (IH n' (put_back k' v' m) Hk).
  destruct (pass ks n' _) as [[m' evs] n'']. cbn in *. by rewrite IH, lookup_put_back_ne.
Qed.
Lemma pass_none ks n m k : m !! k = None → (pass ks n m).1.1 !! k = None.
Proof.
  revert n m. induction ks as [|k' ks IH]; intros n m Hk; cbn; [done|]. destruct (m !! k') as [v|] eqn:Hv; [|by apply IH].
  destruct (visit k' n v) as [[v' ev] n']. specialize (IH n' (put_back k' v' m)). destruct (pass ks n' _) as [[m' evs] n''].
  apply IH. rewrite lookup_put_back_ne; [done|]. intros ->. congruence.
Qed.
(** Each entry is visited once, at some reading from [n] on. *)
Lemma pass_visited ks n m k v :
  NoDup ks → k ∈ ks → m !! k = Some v →
  ∃ i, (n ≤ i)%nat ∧ ((visit k i v).2 ≤ (pass ks n m).2)%nat ∧ (pass ks n m).1.1 !! k = (visit k i v).1.1 ∧
       (∀ e, e ∈ (visit k i v).1.2 → e ∈ (pass ks n m).1.2).
Proof using advances.
  revert n m. induction ks as [|k' ks IH]; intros n m Hnd Hk Hv; [by apply elem_of_nil in Hk|]. apply NoDup_cons in Hnd as [Hk' Hnd].
  cbn [pass]. apply elem_of_cons in Hk as [->|Hk].
  - rewrite Hv. exists n. split; [done|]. destruct (visit k' n v) as [[v' ev] n'] eqn:Ev.
    pose proof (pass_advances ks n' (put_back k' v' m)). pose proof (pass_other ks n' (put_back k' v' m) k' Hk') as Ho.
    destruct (pass ks n' _) as [[m' evs] n'']. cbn in *. split_and!; [done|by rewrite Ho, lookup_put_back|intros e He; apply elem_of_app; by left].
  - destruct (m !! k') as [w|]; [|by apply IH]. pose proof (advances k' n w). destruct (visit k' n w) as [[w' ev] n'] eqn:Ev.
    destruct (IH n' (put_back k' w' m)) as (i & ? & ? & ? & He); [done..|rewrite lookup_put_back_ne; [done|]; by intros ->|].
    destruct (pass ks n' _) as [[m' evs] n'']. exists i. cbn in *. split_and!; [lia|done..|]. intros e Hi. apply elem_of_app. eauto.
Qed.
(** Entries that are kept at every reading of the pass: nothing happens. *)
Lemma pass_quiet ks n m :
  (∀ k v i, m !! k = Some v → (n ≤ i)%nat → ((visit k i v).2 ≤ (pass ks n m).2)%nat → (visit k i v).1 = (Some v, [])) →
  (pass ks n m).1 = (m, []).
Proof using advances.
  revert n. induction ks as [|k ks IH]; intros n Hq; cbn in *; [done|]. destruct (m !! k) as [v|] eqn:Hv; [|by apply IH].
  pose proof (Hq k v n Hv (le_n _)) as Hn. pose proof (advances k n v). destruct (visit k n v) as [[v' ev] n'] eqn:Ev. cbn in *.
  pose proof (pass_advances ks n' (put_back k v' m)) as Ha.
  destruct (pass ks n' (put_back k v' m)) as [[m' evs] n''] eqn:Ep. cbn in *. specialize (Hn Ha) as [= -> ->].
  cbn in Ep. rewrite insert_id in Ep by done. specialize (IH n'). rewrite Ep in IH. cbn in IH.
  apply IH. intros k' w i Hw Hi Hle. apply (Hq k' w i); [done|lia|done].
Qed.
(** Every event comes from a visit. *)
Lemma pass_events ks n m e :
  NoDup ks → e ∈ (pass ks n m).1.2 → ∃ k v i, k ∈ ks ∧ m !! k = Some v ∧ e ∈ (visit k i v).1.2.
Proof.
  revert n m. induction ks as [|k ks IH]; intros n m Hnd He; [by apply elem_of_nil in He|]. apply NoDup_cons in Hnd as [Hk Hnd].
  cbn in He. destruct (m !! k) as [v|] eqn:Hv.
  - destruct (visit k n v) as [[v' ev] n'] eqn:Ev. destruct (pass ks n' (put_back k v' m)) as [[m' evs] n''] eqn:Ep. cbn in He.
    apply elem_of_app in He as [He|He].
    + exists k, v, n. rewrite Ev. split_and!; [by left|done..].
    + destruct (IH n' (put_back k v' m) Hnd) as (k' & w & i & Hk' & Hw & Hi); [by rewrite Ep|]. exists k', w, i.
      rewrite lookup_put_back_ne in Hw by (by intros ->). split_and!; [by right|done..].
  - destruct (IH n m Hnd He) as (k' & w & i & ? & ? & ?). exists k', w, i. split_and!; [by right|done..].
Qed.
End pass.

(** ** A pass that enforces deadlines

    [visit] acts on an entry exactly when a reading has reached its deadline, and what it puts
    back is due later. *)
Section due.
Context {K V E : Type} `{Countable K} (deadline : V → option Z) (c : Clock) (visit : K → nat → V → option V * list E * nat).
Hypothesis clock_monotone : monotone c.
(** What one visit promises. *)
Definition due (k : K) (n : nat) (v : V) : Prop :=
  let '(v', ev, n') := visit k n v in
  (n ≤ n')%nat ∧
  ((v' = Some v ∧ ev = [] ∧ ∀ d, deadline v = Some d → c n < d) ∨
   (ev ≠ [] ∧ (∃ d i, deadline v = Some d ∧ d ≤ c i ∧ (i < n')%nat) ∧
    ∀ w d, v' = Some w → deadline w = Some d → c n < d)).
Hypothesis visit_due : ∀ k n v, due k n v.

Lemma visit_advances k n v : (n ≤ (visit k n v).2)%nat.
Proof using visit_due. pose proof (visit_due k n v) as Hd. unfold due in Hd. destruct (visit k n v) as [[??]?]. by destruct Hd. Qed.
Lemma pass_on_time ks m m' evs n' :
  NoDup ks → (∀ k, is_Some (m !! k) → k ∈ ks) → pass visit ks 0 m = (m', evs, n') →
  (∀ k v d, m !! k = Some v → deadline v = Some d → d ≤ c 0%nat → evs ≠ []) ∧
  ((∀ k v d n, m !! k = Some v → deadline v = Some d → c n < d) → m' = m ∧ evs = []) ∧
  (∀ k v d, m' !! k = Some v → deadline v = Some d → c 0%nat < d) ∧
  (∀ e, e ∈ evs → ∃ k v d n i, m !! k = Some v ∧ e ∈ (visit k n v).1.2 ∧ deadline v = Some d ∧ d ≤ c i).
Proof using clock_monotone visit_due.
  intros Hnd Hall Hp. split_and!.
  - intros k v d Hk Hd Hle. destruct (pass_visited visit visit_advances ks 0 m k v Hnd) as (i & _ & _ & _ & Hev); [eauto|done|].
    pose proof (visit_due k i v) as Hdue. unfold due in Hdue. rewrite Hp in Hev. destruct (visit k i v) as [[v' ev] j]. cbn in *.
    destruct Hdue as [_ [(_ & _ & Hlt)|(Hne & _)]].
    + specialize (Hlt d Hd). pose proof (clock_monotone 0%nat i). lia.
    + intros ->. destruct ev as [|e ev]; [done|]. assert (e ∈ []) as Hnil by (apply Hev; by left). by apply elem_of_nil in Hnil.
  - intros Hq. pose proof (pass_quiet visit visit_advances ks 0 m) as Hquiet. rewrite Hp in Hquiet. cbn in Hquiet.
    assert ((m', evs) = (m, [])) as [= -> ->]; [|done]. apply Hquiet. intros k v i Hk _ _. pose proof (visit_due k i v) as Hdue.
    unfold due in Hdue. destruct (visit k i v) as [[v' ev] j]. cbn.
    destruct Hdue as [_ [(-> & -> & _)|(_ & (d & a & Hd & Hle & _) & _)]]; [done|]. specialize (Hq k v d a Hk Hd). lia.
  - intros k v d Hk Hd. destruct (m !! k) as [w|] eqn:Hw.
    + destruct (pass_visited visit visit_advances ks 0 m k w Hnd) as (i & _ & _ & Hl & _); [eauto|done|]. rewrite Hp in Hl. cbn in Hl.
      pose proof (visit_due k i w) as Hdue. unfold due in Hdue. destruct (visit k i w) as [[v' ev] j]. cbn in *.
      pose proof (clock_monotone 0%nat i (Nat.le_0_l _)). rewrite Hk in Hl. subst v'. destruct Hdue as [_ [([= ->] & _ & Hlt)|(_ & _ & Hlt)]].
      * specialize (Hlt d Hd). lia.
      * specialize (Hlt v d eq_refl Hd). lia.
    + assert (k ∉ ks ∨ k ∈ ks) as [Hk'|Hk'] by (destruct (decide (k ∈ ks)); tauto).
      * pose proof (pass_other visit ks 0 m k Hk') as Ho. rewrite Hp in Ho. cbn in Ho. congruence.
      * pose proof (pass_none visit ks 0 m k Hw) as Ho. rewrite Hp in Ho. cbn in Ho. congruence.
  - intros e He. destruct (pass_events visit ks 0 m e Hnd) as (k & v & i & _ & Hv & Hi); [by rewrite Hp|].
    pose proof (visit_due k i v) as Hdue. unfold due in Hdue. destruct (visit k i v) as [[v' ev] j] eqn:Ev. cbn in Hi.
    destruct Hdue as [_ [(_ & -> & _)|(_ & (d & a & Hd & Hle & _) & _)]]; [by apply elem_of_nil in Hi|].
    exists k, v, d, i, a. rewrite Ev. done.
Qed.
End due.
