(* ===== verification/PcfSession.v ===== *)
(** * The PCF's sessions ([cdma-pcf/src/session.rs], [a9_agent.rs])

    The packet control function anchors a packet-data session: it accepts the A9 setup, binds
    the A8 bearer, registers over A11, binds the A10 bearer and releases on request or on a
    timer.  The manager owns an A9 engine of role [Pcf].  The readings of the clock in a call
    are an argument. *)
From stdpp Require Import strings sorting.
From S2P Require Import Prelude Text Octets A8Bearer A10 A11Codec A11Procedure A9Codec A9Elements A9Typed A9CodecProofs A9Session A9Mirror.
From S2P Require Import A9SessionProofs NodeTimers.

Module PcfSession.
Import A9Session.

Inductive PcfSessionPhase := A9Accepted | A11RegistrationPending | Active | Releasing | Released.
#[export] Instance PcfSessionPhase_eq_dec : EqDecision PcfSessionPhase.
Proof. solve_decision. Defined.
Record PcfTimerPolicy := mkPolicy {
  a9_setup_timeout : Z; a11_registration_timeout : Z; inactivity_timeout : Z; release_timeout : Z
}.
Definition from_secs (s : Z) : Z := s * 1000000000.
Definition default_policy : PcfTimerPolicy := mkPolicy (from_secs 10) (from_secs 15) (from_secs 120) (from_secs 10).

Record PcfSession := mkPcf {
  id : Z;
  mobile_identity : option (list Z);
  phase : PcfSessionPhase;
  a8_bearer : option A8.BearerSession;
  a10_bearer : option A10.BearerSession;
  a11_session_key : option A11Procedure.SessionKey;
  phase_entered_at : Z;
  last_activity_at : Z
}.
Inductive PcfEvent :=
| SessionCreated (id : Z)
| A9Applied (event : ProcedureEvent)
| A8BearerBound (id : Z)
| A10BearerBound (id : Z)
| A11RegistrationQueued (id : Z) (queue_depth : nat)
| A11RegistrationCompleted (id : Z) (key : A11Procedure.SessionKey)
| ReleaseStarted (id : Z)
| SessionRemoved (id : Z)
| TimerExpired (id : Z) (phase : PcfSessionPhase) (reason : string).
Inductive PcfError :=
| DuplicateSession (id : Z)
| UnknownSession (id : Z)
| InvalidSessionPhase (id : Z) (phase : PcfSessionPhase) (operation : string).

Record PcfSessionManager := mkManager {
  a9_engine : ProcedureEngine;
  next_session_id : Z;
  sessions : gmap Z PcfSession;
  pending_a11 : gmap Z (list A11.Message)
}.
Definition new_manager : PcfSessionManager := mkManager (new_engine Pcf) 0 ∅ ∅.
Definition set_a9_engine (e : ProcedureEngine) (m : PcfSessionManager) : PcfSessionManager :=
  mkManager e (next_session_id m) (sessions m) (pending_a11 m).
Definition set_sessions (f : gmap Z PcfSession → gmap Z PcfSession) (m : PcfSessionManager) : PcfSessionManager :=
  mkManager (a9_engine m) (next_session_id m) (f (sessions m)) (pending_a11 m).
Definition set_pending_a11 (q : gmap Z (list A11.Message)) (m : PcfSessionManager) : PcfSessionManager :=
  mkManager (a9_engine m) (next_session_id m) (sessions m) q.
(** [session.phase = p; session.phase_entered_at = at] *)
Definition enter (p : PcfSessionPhase) (at_ : Z) (s : PcfSession) : PcfSession :=
  mkPcf (id s) (mobile_identity s) p (a8_bearer s) (a10_bearer s) (a11_session_key s) at_ (last_activity_at s).
Definition set_last_activity_at (at_ : Z) (s : PcfSession) : PcfSession :=
  mkPcf (id s) (mobile_identity s) (phase s) (a8_bearer s) (a10_bearer s) (a11_session_key s) (phase_entered_at s) at_.
Definition set_a8_bearer (b : A8.BearerSession) (s : PcfSession) : PcfSession :=
  mkPcf (id s) (mobile_identity s) (phase s) (Some b) (a10_bearer s) (a11_session_key s) (phase_entered_at s) (last_activity_at s).
Definition set_a10_bearer (b : A10.BearerSession) (s : PcfSession) : PcfSession :=
  mkPcf (id s) (mobile_identity s) (phase s) (a8_bearer s) (Some b) (a11_session_key s) (phase_entered_at s) (last_activity_at s).
Definition set_a11_session_key (k : A11Procedure.SessionKey) (s : PcfSession) : PcfSession :=
  mkPcf (id s) (mobile_identity s) (phase s) (a8_bearer s) (a10_bearer s) (Some k) (phase_entered_at s) (last_activity_at s).

(** Every operation returns the manager and its result: one that fails may have changed it. *)
Abbreviation Run A := (PcfSessionManager * A)%type.
Abbreviation Outcome := (Run (result PcfError PcfEvent)).
Definition a9_outcome (o : A9.Result (ProcedureEngine * ProcedureEvent)) (m : PcfSessionManager) : Run (A9.Result PcfEvent) :=
  match o with
  | Ok (e, v) => (set_a9_engine e m, Ok (A9Applied v))
  | Err x => (m, Err x)
  end.
Definition apply_inbound_a9 (message : ProcedureMessage) (m : PcfSessionManager) : Run (A9.Result PcfEvent) :=
  a9_outcome (apply_inbound message (a9_engine m)) m.
Definition apply_outbound_a9 (message : ProcedureMessage) (m : PcfSessionManager) : Run (A9.Result PcfEvent) :=
  a9_outcome (apply_outbound message (a9_engine m)) m.
Definition retarget_connected_a9 (setup : A9Typed.SetupA8Message.t) (connect : A9Typed.ConnectA8Message.t) (m : PcfSessionManager)
    : Run (A9.Result PcfEvent) :=
  a9_outcome (retarget_connected_a8 setup connect (a9_engine m)) m.
Definition retarget_connected_a9_from (existing : A9.TrafficId) (setup : A9Typed.SetupA8Message.t)
    (connect : A9Typed.ConnectA8Message.t) (m : PcfSessionManager) : Run (A9.Result PcfEvent) :=
  a9_outcome (retarget_connected_a8_from existing setup connect (a9_engine m)) m.
Definition session_values (m : PcfSessionManager) : list PcfSession := omap (λ k, sessions m !! k) (ordered_keys (sessions m)).
Definition session_id_by_mobile_identity (identity : list Z) (m : PcfSessionManager) : option Z :=
  id <$> head (filter (λ s, mobile_identity s = Some identity) (session_values m)).
Definition retarget_same_mobile_connected_a9_from (i : Z) (existing : A9.TrafficId) (identity : list Z)
    (setup : A9Typed.SetupA8Message.t) (connect : A9Typed.ConnectA8Message.t) (m : PcfSessionManager) : Run (A9.Result PcfEvent) :=
  match sessions m !! i with
  | None => (m, Err A9.UnknownSession)
  | Some s =>
      if decide (mobile_identity s ≠ Some identity) then
        (m, Err (A9.InvalidProcedureState A9.SetupA8 "duplicate SetupA8 mobile identity does not match PCF session"))
      else retarget_connected_a9_from existing setup connect m
  end.

Definition create_from_a9 (c : Clock) (identity : option (list Z)) (m : PcfSessionManager) : Outcome :=
  let i := wrap 64 (next_session_id m + 1) in
  let m := mkManager (a9_engine m) i (sessions m) (pending_a11 m) in
  if bool_decide (is_Some (sessions m !! i)) then (m, Err (DuplicateSession i))
  else
    let s := mkPcf i identity A9Accepted None None None (c 0%nat) (c 0%nat) in
    (set_sessions <[i := s]> m, Ok (SessionCreated i)).

(** [let session = self.session_mut(id)?], then the phases in which [operation] is allowed *)
Definition with_session (i : Z) (m : PcfSessionManager) (k : PcfSession → Outcome) : Outcome :=
  match sessions m !! i with None => (m, Err (UnknownSession i)) | Some s => k s end.
Definition bind_a8_bearer (c : Clock) (i : Z) (bearer : A8.BearerSession) (m : PcfSessionManager) : Outcome :=
  with_session i m (λ s,
    if decide (phase s ≠ A9Accepted) then (m, Err (InvalidSessionPhase i (phase s) "bind_a8_bearer"))
    else
      let s := set_last_activity_at (c 1%nat) (enter A11RegistrationPending (c 0%nat) (set_a8_bearer bearer s)) in
      (set_sessions <[i := s]> m, Ok (A8BearerBound i))).
Definition bind_a10_bearer (i : Z) (bearer : A10.BearerSession) (m : PcfSessionManager) : Outcome :=
  with_session i m (λ s,
    if decide (phase s ∉ [A11RegistrationPending; Active]) then (m, Err (InvalidSessionPhase i (phase s) "bind_a10_bearer"))
    else (set_sessions <[i := set_a10_bearer bearer s]> m, Ok (A10BearerBound i))).
Definition enqueue_a11 (i : Z) (message : A11.Message) (m : PcfSessionManager) : Outcome :=
  with_session i m (λ s,
    if decide (phase s ∉ [A11RegistrationPending; Active; Releasing]) then (m, Err (InvalidSessionPhase i (phase s) "enqueue_a11"))
    else
      let queue := default [] (pending_a11 m !! i) ++ [message] in
      (set_pending_a11 (<[i := queue]> (pending_a11 m)) m, Ok (A11RegistrationQueued i (length queue)))).
Definition pop_pending_a11 (m : PcfSessionManager) : Run (option A11.Message) :=
  match head (ordered_keys (pending_a11 m)) with
  | None => (m, None)
  | Some first_key =>
      match pending_a11 m !! first_key with
      | None => (m, None)
      | Some queue =>
          let rest := tail queue in
          (set_pending_a11 (if decide (rest = []) then delete first_key (pending_a11 m)
                            else <[first_key := rest]> (pending_a11 m)) m, head queue)
      end
  end.
Definition complete_a11_registration (c : Clock) (i : Z) (key : A11Procedure.SessionKey) (m : PcfSessionManager) : Outcome :=
  with_session i m (λ s,
    if decide (phase s ∉ [A11RegistrationPending; Active]) then
      (m, Err (InvalidSessionPhase i (phase s) "complete_a11_registration"))
    else
      let s := set_last_activity_at (c 1%nat) (enter Active (c 0%nat) (set_a11_session_key key s)) in
      (set_sessions <[i := s]> m, Ok (A11RegistrationCompleted i key))).
Definition start_release (c : Clock) (i : Z) (m : PcfSessionManager) : Outcome :=
  with_session i m (λ s, (set_sessions <[i := enter Releasing (c 0%nat) s]> m, Ok (ReleaseStarted i))).
Definition remove_session (i : Z) (m : PcfSessionManager) : Outcome :=
  with_session i m (λ _, (set_sessions (delete i) m, Ok (SessionRemoved i))).
Definition session (i : Z) (m : PcfSessionManager) : result PcfError PcfSession :=
  match sessions m !! i with None => Err (UnknownSession i) | Some s => Ok s end.
Definition record_activity (c : Clock) (i : Z) (m : PcfSessionManager) : Run (result PcfError unit) :=
  match sessions m !! i with
  | None => (m, Err (UnknownSession i))
  | Some s => (set_sessions <[i := set_last_activity_at (c 0%nat) s]> m, Ok tt)
  end.

(** One turn of the loop of [poll_timers]: what becomes of the session, the event and the next reading. *)
Definition poll_session (policy : PcfTimerPolicy) (c : Clock) (i : Z) (n : nat) (s : PcfSession)
    : option PcfSession * list PcfEvent * nat :=
  let since_entered := elapsed (phase_entered_at s) (c n) in
  let expired reason := [TimerExpired i (phase s) reason] in
  match phase s with
  | A9Accepted =>
      if a9_setup_timeout policy <=? since_entered then (None, expired "A9 setup timeout", S n) else (Some s, [], S n)
  | A11RegistrationPending =>
      if a11_registration_timeout policy <=? since_entered then (None, expired "A11 registration timeout", S n)
      else (Some s, [], S n)
  | Active =>
      if inactivity_timeout policy <=? elapsed (last_activity_at s) (c (S n)) then
        (Some (enter Releasing (c (S (S n))) s), expired "inactivity timeout", S (S (S n)))
      else (Some s, [], S (S n))
  | Releasing =>
      if release_timeout policy <=? since_entered then (None, expired "release timeout", S n) else (Some s, [], S n)
  | Released => (Some s, [], S n)
  end.
Definition poll_timers (policy : PcfTimerPolicy) (c : Clock) (m : PcfSessionManager) : Run (list PcfEvent) :=
  let '(ss, events, _) := pass (poll_session policy c) (ordered_keys (sessions m)) 0 (sessions m) in
  (set_sessions (λ _, ss) m, events).
Definition session_deadline (policy : PcfTimerPolicy) (s : PcfSession) : option Z :=
  match phase s with
  | A9Accepted => Some (phase_entered_at s + a9_setup_timeout policy)
  | A11RegistrationPending => Some (phase_entered_at s + a11_registration_timeout policy)
  | Active => Some (last_activity_at s + inactivity_timeout policy)
  | Releasing => Some (phase_entered_at s + release_timeout policy)
  | Released => None
  end.
Definition next_poll_deadline (policy : PcfTimerPolicy) (m : PcfSessionManager) : option Z :=
  earliest_of (session_deadline policy) (session_values m).

(** ** The agent toward the BSC *)
Inductive A9AgentEvent := A9MessageAccepted (queue_depth : nat) | SessionEvent (event : PcfEvent).
Record A9Agent := mkAgent { manager : PcfSessionManager; inbound_a9 : list A9.Message }.
Definition new_agent : A9Agent := mkAgent new_manager [].
Definition accept_a9 (message : A9.Message) (a : A9Agent) : A9Agent * A9AgentEvent :=
  let q := inbound_a9 a ++ [message] in (mkAgent (manager a) q, A9MessageAccepted (length q)).
Definition pop_inbound_a9 (a : A9Agent) : A9Agent * option A9.Message :=
  (mkAgent (manager a) (tail (inbound_a9 a)), head (inbound_a9 a)).
Definition agent_outcome {X} (o : Run (result X PcfEvent)) (a : A9Agent) : A9Agent * result X A9AgentEvent :=
  (mkAgent o.1 (inbound_a9 a), match o.2 with Ok v => Ok (SessionEvent v) | Err x => Err x end).
Definition agent_create_session (c : Clock) (identity : option (list Z)) (a : A9Agent) : A9Agent * result PcfError A9AgentEvent :=
  agent_outcome (create_from_a9 c identity (manager a)) a.
Definition agent_apply_inbound_a9 (message : ProcedureMessage) (a : A9Agent) : A9Agent * A9.Result A9AgentEvent :=
  agent_outcome (apply_inbound_a9 message (manager a)) a.
Definition agent_apply_outbound_a9 (message : ProcedureMessage) (a : A9Agent) : A9Agent * A9.Result A9AgentEvent :=
  agent_outcome (apply_outbound_a9 message (manager a)) a.

End PcfSession.

(** * Life cycle, timers and the queue toward the PDSN *)
Import A9Session PcfSession.

(** ** The life cycle *)
Definition pcf_session_ok (i : Z) (s : PcfSession) : Prop :=
  id s = i ∧
  match phase s with
  | A9Accepted => a8_bearer s = None ∧ a10_bearer s = None ∧ a11_session_key s = None
  | A11RegistrationPending => is_Some (a8_bearer s) ∧ a11_session_key s = None
  | Active => is_Some (a8_bearer s) ∧ is_Some (a11_session_key s)
  | Releasing => True
  | Released => False
  end.
Record manager_inv (m : PcfSessionManager) : Prop := {
  inv_engine : engine_inv (a9_engine m) ∧ role (a9_engine m) = A9Session.Pcf;
  inv_pcf_sessions : map_Forall pcf_session_ok (sessions m);
  inv_queues : map_Forall (λ _ q, q ≠ []) (pending_a11 m)
}.

Inductive PcfOp :=
| PcfInbound (message : ProcedureMessage) | PcfOutbound (message : ProcedureMessage)
| PcfRetarget (existing : A9.TrafficId) (setup : A9Typed.SetupA8Message.t) (connect : A9Typed.ConnectA8Message.t)
| PcfRetargetMobile (i : Z) (existing : A9.TrafficId) (identity : list Z) (setup : A9Typed.SetupA8Message.t)
    (connect : A9Typed.ConnectA8Message.t)
| PcfCreate (identity : option (list Z)) | PcfBindA8 (i : Z) (b : A8.BearerSession) | PcfBindA10 (i : Z) (b : A10.BearerSession)
| PcfEnqueue (i : Z) (message : A11.Message) | PcfPop | PcfComplete (i : Z) (key : A11Procedure.SessionKey)
| PcfStartRelease (i : Z) | PcfRemove (i : Z) | PcfActivity (i : Z) | PcfPoll (policy : PcfTimerPolicy).
Definition pcf_step (o : Clock * PcfOp) (m : PcfSessionManager) : PcfSessionManager :=
  let c := o.1 in
  match o.2 with
  | PcfInbound x => (apply_inbound_a9 x m).1
  | PcfOutbound x => (apply_outbound_a9 x m).1
  | PcfRetarget t s k => (retarget_connected_a9_from t s k m).1
  | PcfRetargetMobile i t identity s k => (retarget_same_mobile_connected_a9_from i t identity s k m).1
  | PcfCreate x => (create_from_a9 c x m).1
  | PcfBindA8 i b => (bind_a8_bearer c i b m).1
  | PcfBindA10 i b => (bind_a10_bearer i b m).1
  | PcfEnqueue i x => (enqueue_a11 i x m).1
  | PcfPop => (pop_pending_a11 m).1
  | PcfComplete i k => (complete_a11_registration c i k m).1
  | PcfStartRelease i => (start_release c i m).1
  | PcfRemove i => (remove_session i m).1
  | PcfActivity i => (record_activity c i m).1
  | PcfPoll p => (poll_timers p c m).1
  end.
Definition pcf_run (ops : list (Clock * PcfOp)) (m : PcfSessionManager) : PcfSessionManager := foldl (λ m o, pcf_step o m) m ops.

Lemma a9_outcome_inv o m :
  manager_inv m → (∀ e v, o = Ok (e, v) → engine_inv e ∧ role e = A9Session.Pcf) → manager_inv (a9_outcome o m).1.
Proof. intros [H1 H2 H3] Ho. destruct o as [[e v]|]; [|done]. split; cbn; [|done..]. by eapply Ho. Qed.
Lemma sessions_inv m i s : manager_inv m → pcf_session_ok i s → manager_inv (set_sessions <[i := s]> m).
Proof. intros [H1 H2 H3] Hs. split; cbn; [done| |done]. by apply map_Forall_insert_2. Qed.
Lemma with_session_inv i m k :
  manager_inv m → (∀ s, sessions m !! i = Some s → pcf_session_ok i s → manager_inv (k s).1) → manager_inv (with_session i m k).1.
Proof. intros Hm Hk. unfold with_session. destruct (sessions m !! i) eqn:E; [|done]. apply Hk; [done|]. by apply (inv_pcf_sessions m Hm). Qed.
Lemma poll_session_ok policy c i n s s' : pcf_session_ok i s → (poll_session policy c i n s).1.1 = Some s' → pcf_session_ok i s'.
Proof.
  intros Hs. unfold poll_session. destruct (phase s) eqn:Ep; try destruct (_ <=? _); cbn; intros [= <-]; try done.
  by destruct Hs as [Hid _].
Qed.
Lemma poll_session_advances policy c i n s : (n ≤ (poll_session policy c i n s).2)%nat.
Proof. unfold poll_session. destruct (phase s); try destruct (_ <=? _); cbn; lia. Qed.
Lemma poll_inv policy c m : manager_inv m → manager_inv (poll_timers policy c m).1.
Proof.
  intros [H1 H2 H3]. unfold poll_timers.
  assert (map_Forall pcf_session_ok (pass (poll_session policy c) (ordered_keys (sessions m)) 0 (sessions m)).1.1) as Hp.
  { intros k v Hk. destruct (sessions m !! k) as [w|] eqn:Hw; [|rewrite pass_none in Hk by done; congruence].
    destruct (pass_visited _ (poll_session_advances policy c) (ordered_keys (sessions m)) 0 (sessions m) k w) as (i & _ & _ & Hi & _);
      [apply ordered_keys_NoDup|by apply ordered_keys_elem|done|]. rewrite Hi in Hk. eapply poll_session_ok; [|exact Hk]. by apply H2. }
  destruct (pass _ _ _ _) as [[ss evs] n]. by split.
Qed.
Lemma pop_inv m : manager_inv m → manager_inv (pop_pending_a11 m).1.
Proof.
  intros [H1 H2 H3]. unfold pop_pending_a11. destruct (head _) as [k|]; [|done]. destruct (pending_a11 m !! k); [|done].
  split; cbn; [done..|]. destruct (decide _); [by apply map_Forall_delete|by apply map_Forall_insert_2].
Qed.
Lemma apply_role_same m l e e' v : apply m l e = Ok (e', v) → role e' = role e.
Proof.
  unfold apply. intros H. apply rbind_ok in H as (u & _ & H). destruct m;
    [unfold apply_setup in H|unfold apply_connect in H|unfold apply_disconnect in H|unfold apply_release in H
    |unfold apply_release_complete in H|unfold apply_bs_service_request in H|unfold apply_bs_service_response in H
    |unfold apply_al_connected in H|unfold apply_al_connected_ack in H|unfold apply_al_disconnected in H
    |unfold apply_al_disconnected_ack in H|unfold apply_version_info in H|unfold apply_version_info_ack in H
    |unfold apply_update_a8 in H|unfold apply_update_a8_ack in H
    |unfold apply_short_data_delivery in H; destruct (short_data_requires_ack _ _); cbn in H; [|by injection H as <- <-]
    |unfold apply_short_data_ack in H]; paths H; by apply Ok_inj, pair_eq in H as [<- _].
Qed.
Lemma retarget_role_same t m1 m2 e e' v : retarget_connected_a8_from t m1 m2 e = Ok (e', v) → role e' = role e.
Proof. unfold retarget_connected_a8_from. intros H. paths H. by apply Ok_inj, pair_eq in H as [<- _]. Qed.
Lemma retarget_step_inv t m1 m2 m : manager_inv m → manager_inv (retarget_connected_a9_from t m1 m2 m).1.
Proof.
  intros Hm. pose proof (inv_engine m Hm) as [He Hr]. apply a9_outcome_inv; [done|]. intros e v Ho. split; [by eapply retarget_inv|].
  by rewrite (retarget_role_same _ _ _ _ _ _ Ho).
Qed.
Lemma applied_inv x l m : manager_inv m → manager_inv (a9_outcome (apply x l (a9_engine m)) m).1.
Proof.
  intros Hm. pose proof (inv_engine m Hm) as [He Hr]. apply a9_outcome_inv; [done|]. intros e v Ho. split; [by eapply a9_apply_inv|].
  by rewrite (apply_role_same _ _ _ _ _ Ho).
Qed.

Lemma pcf_step_inv o m : manager_inv m → manager_inv (pcf_step o m).
Proof.
  intros Hm. destruct o as [c o]. destruct o; unfold pcf_step; cbn [fst snd].
  - by apply applied_inv.
  - by apply applied_inv.
  - by apply retarget_step_inv.
  - unfold retarget_same_mobile_connected_a9_from. destruct (sessions m !! i); [|done]. destruct (decide _); [done|].
    by apply retarget_step_inv.
  - unfold create_from_a9. destruct Hm as [H1 H2 H3]. destruct (bool_decide _); [by split|]. by apply sessions_inv; [split|].
  - apply with_session_inv; [done|]. intros s _ [Hid Hs]. destruct (decide _) as [|Hp%dec_stable]; [done|].
    apply sessions_inv; [done|]. rewrite Hp in Hs. split; cbn; [done|]. destruct Hs as (? & ? & ?). eauto.
  - apply with_session_inv; [done|]. intros s _ [Hid Hs]. destruct (decide _) as [|Hp%dec_stable]; [done|].
    apply sessions_inv; [done|]. split; cbn; [done|]. destruct (phase s); set_solver.
  - apply with_session_inv; [done|]. intros s _ _. destruct (decide _); [done|]. destruct Hm as [H1 H2 H3]. split; cbn; [done..|].
    apply map_Forall_insert_2; [|done]. by destruct (default _ _).
  - by apply pop_inv.
  - apply with_session_inv; [done|]. intros s _ [Hid Hs]. destruct (decide _) as [|Hp%dec_stable]; [done|].
    apply sessions_inv; [done|]. split; cbn; [done|]. destruct (phase s); set_solver.
  - apply with_session_inv; [done|]. intros s _ [Hid Hs]. by apply sessions_inv.
  - apply with_session_inv; [done|]. intros s _ _. destruct Hm as [H1 H2 H3]. split; cbn; [done| |done]. by apply map_Forall_delete.
  - unfold record_activity. destruct (sessions m !! i) as [s|] eqn:E; [|done]. apply sessions_inv; [done|].
    by apply (inv_pcf_sessions m Hm) in E.
  - by apply poll_inv.
Qed.
Lemma pcf_run_inv ops m : manager_inv m → manager_inv (pcf_run ops m).
Proof. revert m. induction ops as [|o ops IH]; intros m Hm; [done|]. apply IH, pcf_step_inv, Hm. Qed.
Lemma new_manager_inv : manager_inv new_manager.
Proof. split; cbn; [split; [apply new_engine_inv|done]|apply map_Forall_empty..]. Qed.

(** C37: Through any sequence of the PCF's operations, with any readings of the clock, every session is stored under its own
    identifier and has what its phase says: nothing but its identity once A9 is accepted, an A8 bearer and no A11 key
    while registering, both while active; no session is ever left in the phase [Released]; the A9 engine keeps its
    invariant in the PCF's role; and no queue toward the PDSN is left empty. *)
Theorem pcf_lifecycle ops :
  let m := pcf_run ops new_manager in
  manager_inv m ∧
  (∀ i s, sessions m !! i = Some s → phase s = Active → is_Some (a8_bearer s) ∧ is_Some (a11_session_key s)) ∧
  (∀ i s, sessions m !! i = Some s → a10_bearer s ≠ None → phase s ≠ A9Accepted).
Proof.
  intros m. assert (manager_inv m) as Hm by apply pcf_run_inv, new_manager_inv. split_and!; [done|..].
  - intros i s Hs Hp. apply (inv_pcf_sessions m Hm) in Hs as [_ Hs]. by rewrite Hp in Hs.
  - intros i s Hs Ha Hp. apply (inv_pcf_sessions m Hm) in Hs as [_ Hs]. rewrite Hp in Hs. tauto.
Qed.

(** ** Timers *)
Definition positive_policy (p : PcfTimerPolicy) : Prop :=
  0 < a9_setup_timeout p ∧ 0 < a11_registration_timeout p ∧ 0 < inactivity_timeout p ∧ 0 < release_timeout p.
Lemma poll_session_due policy c i n s :
  positive_policy policy → monotone c → due (session_deadline policy) c (poll_session policy c) i n s.
Proof.
  intros (P1 & P2 & P3 & P4) Hc. pose proof (Hc n (S n) ltac:(lia)) as H1. pose proof (Hc n (S (S n)) ltac:(lia)) as H2.
  unfold due, poll_session, session_deadline. destruct (phase s) eqn:Ep.
  1, 2, 4: destruct (_ <=? _) eqn:E; (split; [lia|]).
  1, 3, 5: right; apply Z.leb_le in E; rewrite expired_iff in E by done; split_and!; [done|do 2 eexists; split_and!; [done|exact E|lia]|done].
  1, 2, 3: left; apply Z.leb_gt in E; split_and!; [done..|]; intros d [= <-]; unfold elapsed in E; lia.
  - destruct (_ <=? _) eqn:E; (split; [lia|]).
    + right. apply Z.leb_le in E. rewrite expired_iff in E by done. split_and!; [done|do 2 eexists; split_and!; [done|exact E|lia]|].
      intros w d [= <-]. cbn. intros [= <-]. lia.
    + left. apply Z.leb_gt in E. split_and!; [done..|]. intros d [= <-]. unfold elapsed in E. lia.
  - split; [lia|]. left. split_and!; [done..|]. by intros d.
Qed.
Lemma session_values_elem m s : s ∈ session_values m ↔ ∃ i, sessions m !! i = Some s.
Proof.
  unfold session_values. rewrite list_elem_of_omap. split; [intros (i & _ & H); eauto|]. intros [i H]. exists i. split; [|done].
  apply ordered_keys_elem. eauto.
Qed.

(** C38: The PCF's timers are exact: with positive timeouts and a clock that does not go back, a poll at or after
    [next_poll_deadline] reports an expiry, a poll that ends before it changes nothing and reports nothing, every event
    names a session that was there, in the phase it was in, whose deadline some reading of the poll had reached, and after
    the poll the next deadline lies beyond its first reading, so polling at the deadline never spins. *)
Theorem pcf_polls_on_time policy c m m' events :
  positive_policy policy → monotone c → poll_timers policy c m = (m', events) →
  (∀ d, next_poll_deadline policy m = Some d → d ≤ c 0%nat → events ≠ []) ∧
  ((∀ d n, next_poll_deadline policy m = Some d → c n < d) → m' = m ∧ events = []) ∧
  (∀ d, next_poll_deadline policy m' = Some d → c 0%nat < d) ∧
  (∀ e, e ∈ events → ∃ i s d n reason, e = TimerExpired i (phase s) reason ∧ sessions m !! i = Some s ∧
     session_deadline policy s = Some d ∧ d ≤ c n).
Proof.
  intros Hp Hc H. unfold poll_timers in H. destruct (pass _ _ _ _) as [[ss evs] n'] eqn:E. injection H as <- <-.
  apply (pass_on_time (session_deadline policy) c (poll_session policy c)) in E as (E1 & E2 & E3 & E4);
    [|done|intros; by apply poll_session_due|apply ordered_keys_NoDup|intros k; apply ordered_keys_elem].
  assert (∀ i s x, sessions m !! i = Some s → session_deadline policy s = Some x →
    ∃ d, next_poll_deadline policy m = Some d ∧ d ≤ x) as Hall.
  { intros i s x Hs. apply earliest_le, session_values_elem. eauto. }
  split_and!.
  - intros d Hd. apply earliest_in in Hd as (s & Hs & Hd). apply session_values_elem in Hs as [i Hi]. eauto.
  - intros Hq. destruct E2 as [-> ->]; [|by destruct m].
    intros k v d n Hk Hd. destruct (Hall k v d Hk Hd) as (d' & Hd' & Hle). specialize (Hq d' n Hd'). lia.
  - intros d Hd. apply earliest_in in Hd as (s & Hs & Hd). apply session_values_elem in Hs as [i Hi]. eauto.
  - intros e He. destruct (E4 e He) as (k & v & d & n & i & Hv & Hev & Hd & Hle). exists k, v, d, i. unfold poll_session in Hev.
    destruct (phase v) eqn:Ep; try destruct (_ <=? _); cbn in Hev; try (by apply elem_of_nil in Hev);
      apply list_elem_of_singleton in Hev as ->; eexists; (split_and!; done).
Qed.
Lemma pcf_polls_on_time_witness :
  let c n := Z.of_nat n + from_secs 200 in
  let m := (create_from_a9 (λ _, from_secs 100) None new_manager).1 in
  ∃ m' events, poll_timers default_policy c m = (m', events) ∧ events ≠ [] ∧ next_poll_deadline default_policy m = Some (from_secs 110).
Proof.
  intros c m. destruct (poll_timers default_policy c m) as [m' events] eqn:E. exists m', events. split_and!; [done| |vm_compute; reflexivity].
  refine (proj1 (pcf_polls_on_time default_policy c m m' events _ _ E) (from_secs 110) _ _).
  - repeat split.
  - intros i j Hij. unfold c. lia.
  - vm_compute. reflexivity.
  - unfold c, from_secs. lia.
Defined.

(** ** The queue toward the PDSN *)
(** What the PCF will send: the queues one after another, by session identifier. *)
Definition pending_order (m : PcfSessionManager) : list A11.Message :=
  ordered_keys (pending_a11 m) ≫= λ k, default [] (pending_a11 m !! k).
Lemma ordered_keys_unique {A} (m : gmap Z A) l : Sorted Z.le l → l ≡ₚ ordered_keys m → l = ordered_keys m.
Proof. intros Hl Hp. apply (Sorted_unique Z.le); [done|apply ordered_keys_sorted|done]. Qed.
Lemma ordered_keys_delete {A} (m : gmap Z A) k ks : ordered_keys m = k :: ks → ordered_keys (delete k m) = ks.
Proof.
  intros Hk. symmetry. apply ordered_keys_unique.
  - pose proof (ordered_keys_sorted m) as Hs. rewrite Hk in Hs. by apply Sorted_inv in Hs as [? _].
  - pose proof (ordered_keys_NoDup m) as Hnd. rewrite Hk in Hnd. apply NoDup_cons in Hnd as [Hn Hnd].
    apply NoDup_Permutation; [done|apply ordered_keys_NoDup|]. intros x. rewrite ordered_keys_elem, lookup_delete_is_Some, <- ordered_keys_elem, Hk.
    rewrite elem_of_cons. split; [intros ?; split; [by intros <-|by right]|]. by intros [? [->|?]].
Qed.
Lemma ordered_keys_update {A} (m : gmap Z A) k v : is_Some (m !! k) → ordered_keys (<[k := v]> m) = ordered_keys m.
Proof.
  intros Hk. apply ordered_keys_unique; [apply ordered_keys_sorted|].
  apply NoDup_Permutation; [apply ordered_keys_NoDup..|]. intros x. rewrite !ordered_keys_elem, lookup_insert_is_Some'. naive_solver.
Qed.
Lemma bind_ext_elem {A B} (f g : A → list B) l : (∀ x, x ∈ l → f x = g x) → l ≫= f = l ≫= g.
Proof. induction l as [|x l IH]; intros H; cbn; [done|]. rewrite (H x) by (by left). f_equal. apply IH. intros y Hy. apply H. by right. Qed.
Lemma pop_order m :
  map_Forall (λ _ q, q ≠ []) (pending_a11 m) →
  (pop_pending_a11 m).2 = head (pending_order m) ∧ pending_order (pop_pending_a11 m).1 = tail (pending_order m).
Proof.
  intros Hq. unfold pop_pending_a11, pending_order. destruct (ordered_keys (pending_a11 m)) as [|k ks] eqn:Ek; cbn [head]; [cbn; by rewrite Ek|].
  assert (is_Some (pending_a11 m !! k)) as [q Hk] by (apply ordered_keys_elem; rewrite Ek; by left).
  pose proof (ordered_keys_NoDup (pending_a11 m)) as Hnd. rewrite Ek in Hnd. apply NoDup_cons in Hnd as [Hn _].
  rewrite Hk. pose proof (Hq k q Hk) as Hne. destruct q as [|x q]; [done|]. cbn. rewrite Hk. cbn. split; [done|].
  destruct (decide (q = [])) as [->|Hq'].
  - rewrite (ordered_keys_delete _ _ _ Ek). cbn. apply bind_ext_elem. intros y Hy. rewrite lookup_delete_ne; [done|]. by intros ->.
  - rewrite ordered_keys_update, Ek by eauto. cbn. rewrite lookup_insert_eq. cbn. f_equal. apply bind_ext_elem. intros y Hy.
    rewrite lookup_insert_ne; [done|]. by intros ->.
Qed.
Fixpoint pop_all (n : nat) (m : PcfSessionManager) : list A11.Message :=
  match n with O => [] | S n => let '(m, x) := pop_pending_a11 m in option_list x ++ pop_all n m end.
Lemma pop_all_order n m : manager_inv m → pop_all n m = take n (pending_order m).
Proof.
  revert m. induction n as [|n IH]; intros m Hm; [done|]. cbn. destruct (pop_order m (inv_queues m Hm)) as [H1 H2]. pose proof (pop_inv m Hm) as Hm'.
  destruct (pop_pending_a11 m) as [m' x]. cbn in *. rewrite IH, H1, H2 by done. destruct (pending_order m); cbn; [by rewrite take_nil|done].
Qed.

(** The queue toward the PDSN outlives its session: in every reachable state the pops hand out the queued A11 messages
    by session identifier and, for one session, in the order they were queued, and the state they hand out is exactly the
    same after the session is removed, released or expired by a timer: the messages queued for a session that no longer
    exists are still sent. *)
Theorem pcf_queue_outlives_session ops i m' :
  let m := pcf_run ops new_manager in
  (∀ n, pop_all n m = take n (pending_order m)) ∧
  (remove_session i m = (m', Ok (SessionRemoved i)) → session i m' = Err (UnknownSession i) ∧ pending_order m' = pending_order m ∧
    ∀ n, pop_all n m' = pop_all n m) ∧
  (∀ policy c, pending_order (poll_timers policy c m).1 = pending_order m) ∧ (∀ c, pending_order (start_release c i m).1 = pending_order m).
Proof.
  intros m. assert (manager_inv m) as Hm by apply pcf_run_inv, new_manager_inv. split_and!.
  - intros n. by apply pop_all_order.
  - intros H. pose proof (pcf_step_inv (λ _, 0, PcfRemove i) m Hm) as Hm'. unfold pcf_step in Hm'. cbn [fst snd] in Hm'. rewrite H in Hm'.
    unfold remove_session, with_session in H. destruct (sessions m !! i); [|done]. injection H as <-. split_and!; [|done|].
    + unfold session. cbn. by rewrite lookup_delete_eq.
    + intros n. by rewrite !pop_all_order.
  - intros policy c. unfold poll_timers. by destruct (pass _ _ _ _) as [[ss evs] n].
  - intros c. unfold start_release, with_session. by destruct (sessions m !! i).
Qed.
Section queue_witness.
Let c : Clock := λ _, from_secs 1.
Let bearer : A8.BearerSession :=
  A8.mkBearer 7 7 7 (A8.mkEndpoint (A8.V4 [10; 0; 0; 1]) (A8.V4 [10; 0; 0; 2])) A8.standard_packet_data.
Let message : A11.Message :=
  A11.MRegistrationRequest (A11.mkRequest 0x0a 1800 [0; 0; 0; 0] [10; 0; 0; 2] [10; 0; 0; 1] 77
    (A11.mkSession 0x8881 7 1 1 6 [0x31; 0x10]) []).
Let ops : list (Clock * PcfOp) := [(c, PcfCreate None); (c, PcfBindA8 1 bearer); (c, PcfEnqueue 1 message)].
Lemma pcf_queue_outlives_session_witness :
  let m' := (remove_session 1 (pcf_run ops new_manager)).1 in
  session 1 m' = Err (UnknownSession 1) ∧ pop_all 1 m' = [message].
Proof.
  intros m'. destruct (pcf_queue_outlives_session ops 1 m') as (_ & H & _).
  destruct H as (H1 & _ & H2); [vm_compute; reflexivity|]. split; [exact H1|]. rewrite H2. vm_compute. reflexivity.
Defined.
End queue_witness.
