(* ===== verification/PdsnSession.v ===== *)
(** * The PDSN's sessions ([cdma-pdsn/src/session.rs], [a11_agent.rs])

    The packet-data serving node creates a session when its A11 procedure table reports a
    registration, gives it the next address of a pool, binds its A10 bearer, and removes it when
    the table reports its end or a timer expires.  [HashMap]s are iterated in an order that is
    an argument ([order], the values of the map in some order).  The handle on the status of
    the packet-core task is only present or not; the task itself is not started here. *)
From stdpp Require Import strings.
From S2P Require Import Prelude Octets A8Bearer A10 A11Codec A11CodecProofs A11Messages A11Procedure A11ProcedureProofs NodeTimers.

Module PdsnSession.
#[export] Existing Instance A11Procedure.SessionKey_eq_dec.
#[export] Existing Instance A11Procedure.SessionKey_countable.

(** An address is its 32-bit value ([u32::from(Ipv4Addr)]). *)
Record IpPool := mkPool { base : Z; next_host_offset : Z }.
Definition default_pool : IpPool := mkPool (from_be32 10 64 0 0) 2.
Definition checked_add (a b : Z) : option Z := if decide (a + b < 2 ^ 32) then Some (a + b) else None.
(** [allocate]: the pool is written after both additions *)
Definition allocate (p : IpPool) : IpPool * option Z :=
  match checked_add (base p) (next_host_offset p) with
  | None => (p, None)
  | Some addr =>
      match checked_add (next_host_offset p) 1 with
      | None => (p, None)
      | Some next => (mkPool (base p) next, Some addr)
      end
  end.

Record PdsnTimerPolicy := mkPolicy { inactivity_timeout : Z; release_timeout : Z; registration_lifetime : Z }.
Definition from_secs (s : Z) : Z := s * 1000000000.
Definition default_policy : PdsnTimerPolicy := mkPolicy (from_secs 120) (from_secs 10) (from_secs 600).

Inductive PdsnSessionPhase := Registered | A10Bound | Releasing.
#[export] Instance PdsnSessionPhase_eq_dec : EqDecision PdsnSessionPhase.
Proof. solve_decision. Defined.
Abbreviation SessionKey := A11Procedure.SessionKey.
Record PdsnSession := mkPdsn {
  key : SessionKey;
  phase : PdsnSessionPhase;
  mobile_ip : Z;
  a10_bearer : option A10.BearerSession;
  legacy_status : bool;
  registered_at : Z;
  last_activity_at : Z;
  release_started_at : option Z
}.
Inductive PdsnEvent :=
| A11Applied (event : A11Procedure.ProcedureEvent)
| SessionRegistered (key : SessionKey) (mobile_ip : Z)
| A10BearerBound (key : SessionKey)
| SessionRemoved (key : SessionKey)
| TimerExpired (key : SessionKey) (phase : PdsnSessionPhase) (reason : string).
Inductive PdsnError :=
| A11Error (error : A11.Error)
| UnknownSession (key : SessionKey)
| DuplicateSession (key : SessionKey)
| IpPoolExhausted.

Record PdsnSessionManager := mkManager {
  procedures : A11Procedure.SessionProcedureTable;
  sessions : gmap SessionKey PdsnSession;
  ip_pool : IpPool
}.
Definition with_ip_pool (p : IpPool) : PdsnSessionManager := mkManager A11Procedure.new_table ∅ p.
Definition new_manager : PdsnSessionManager := with_ip_pool default_pool.
Definition set_procedures (t : A11Procedure.SessionProcedureTable) (m : PdsnSessionManager) : PdsnSessionManager :=
  mkManager t (sessions m) (ip_pool m).
Definition set_sessions (f : gmap SessionKey PdsnSession → gmap SessionKey PdsnSession) (m : PdsnSessionManager) : PdsnSessionManager :=
  mkManager (procedures m) (f (sessions m)) (ip_pool m).
Definition set_ip_pool (p : IpPool) (m : PdsnSessionManager) : PdsnSessionManager := mkManager (procedures m) (sessions m) p.

Abbreviation Run A := (PdsnSessionManager * A)%type.
Abbreviation Outcome := (Run (result PdsnError PdsnEvent)).
(** Give a new session the next address. *)
Definition create (c : Clock) (k : SessionKey) (m : PdsnSessionManager) : Outcome :=
  let '(pool, addr) := allocate (ip_pool m) in
  let m := set_ip_pool pool m in
  match addr with
  | None => (m, Err IpPoolExhausted)
  | Some mobile_ip =>
      (set_sessions <[k := mkPdsn k Registered mobile_ip None false (c 0%nat) (c 0%nat) None]> m, Ok (SessionRegistered k mobile_ip))
  end.
Definition apply_a11 (c : Clock) (now_seconds : Z) (d : A11Procedure.Direction) (message : A11.Message) (m : PdsnSessionManager)
    : rust Outcome :=
  '(t, r) ← A11Procedure.apply now_seconds d message (procedures m);
  let m := set_procedures t m in
  Some (
    match r with
    | Err x => (m, Err (A11Error x))
    | Ok event =>
        match event with
        | A11Procedure.EvRegistered k _ | A11Procedure.EvRefreshed k _ =>
            if bool_decide (is_Some (sessions m !! k)) then (m, Ok (A11Applied event)) else create c k m
        | A11Procedure.EvCleared k _ | A11Procedure.EvExpired k | A11Procedure.EvRejected k _ =>
            (set_sessions (delete k) m, Ok (SessionRemoved k))
        | _ => (m, Ok (A11Applied event))
        end
    end).
Definition bind_a10_bearer (k : SessionKey) (bearer : A10.BearerSession) (m : PdsnSessionManager) : Outcome :=
  match sessions m !! k with
  | None => (m, Err (UnknownSession k))
  | Some s =>
      (set_sessions <[k := mkPdsn (key s) A10Bound (mobile_ip s) (Some bearer) (legacy_status s) (registered_at s)
                             (last_activity_at s) (release_started_at s)]> m, Ok (A10BearerBound k))
  end.
Definition install_registered_session (c : Clock) (k : SessionKey) (m : PdsnSessionManager) : Outcome :=
  if bool_decide (is_Some (sessions m !! k)) then (m, Err (DuplicateSession k)) else create c k m.
(** [start_legacy_packet_core], as far as the manager changes *)
Definition start_legacy_packet_core (k : SessionKey) (m : PdsnSessionManager) : Run (result PdsnError unit) :=
  match sessions m !! k with
  | None => (m, Err (UnknownSession k))
  | Some s =>
      (set_sessions <[k := mkPdsn (key s) (phase s) (mobile_ip s) (a10_bearer s) true (registered_at s) (last_activity_at s)
                             (release_started_at s)]> m, Ok tt)
  end.
Definition session (k : SessionKey) (m : PdsnSessionManager) : option PdsnSession := sessions m !! k.
Definition record_activity (c : Clock) (k : SessionKey) (m : PdsnSessionManager) : Run (result PdsnError unit) :=
  match sessions m !! k with
  | None => (m, Err (UnknownSession k))
  | Some s =>
      (set_sessions <[k := mkPdsn (key s) (phase s) (mobile_ip s) (a10_bearer s) (legacy_status s) (registered_at s) (c 0%nat)
                             (release_started_at s)]> m, Ok tt)
  end.

(** [s.phase = Releasing; s.release_started_at = Some(at)] *)
Definition start_releasing (at_ : Z) (s : PdsnSession) : PdsnSession :=
  mkPdsn (key s) Releasing (mobile_ip s) (a10_bearer s) (legacy_status s) (registered_at s) (last_activity_at s) (Some at_).
(** One turn of the loop of [poll_timers], on the snapshot [s] of a session. *)
Definition poll_snapshot (policy : PdsnTimerPolicy) (c : Clock) (n : nat) (s : PdsnSession) (ss : gmap SessionKey PdsnSession)
    : gmap SessionKey PdsnSession * list PdsnEvent * nat :=
  match phase s with
  | Registered | A10Bound =>
      if registration_lifetime policy <=? elapsed (registered_at s) (c n) then
        (delete (key s) ss, [TimerExpired (key s) (phase s) "registration lifetime expired"], S n)
      else if inactivity_timeout policy <=? elapsed (last_activity_at s) (c (S n)) then
        match ss !! key s with
        | Some cur => (<[key s := start_releasing (c (S (S n))) cur]> ss,
                       [TimerExpired (key s) (phase s) "inactivity timeout"], S (S (S n)))
        | None => (ss, [TimerExpired (key s) (phase s) "inactivity timeout"], S (S n))
        end
      else (ss, [], S (S n))
  | Releasing =>
      match release_started_at s with
      | Some rel_at =>
          if release_timeout policy <=? elapsed rel_at (c n) then
            (delete (key s) ss, [TimerExpired (key s) Releasing "release timeout"], S n)
          else (ss, [], S n)
      | None => (ss, [], n)
      end
  end.
Fixpoint poll_snapshots (policy : PdsnTimerPolicy) (c : Clock) (snapshots : list PdsnSession) (n : nat)
    (ss : gmap SessionKey PdsnSession) : gmap SessionKey PdsnSession * list PdsnEvent * nat :=
  match snapshots with
  | [] => (ss, [], n)
  | s :: snapshots =>
      let '(ss, ev, n) := poll_snapshot policy c n s ss in
      let '(ss, evs, n) := poll_snapshots policy c snapshots n ss in
      (ss, ev ++ evs, n)
  end.
Definition poll_timers (policy : PdsnTimerPolicy) (c : Clock) (order : list PdsnSession) (m : PdsnSessionManager) : Run (list PdsnEvent) :=
  let '(ss, events, _) := poll_snapshots policy c order 0 (sessions m) in
  (set_sessions (λ _, ss) m, events).
Definition session_deadline (policy : PdsnTimerPolicy) (s : PdsnSession) : option Z :=
  match phase s with
  | Registered | A10Bound =>
      Some (Z.min (registered_at s + registration_lifetime policy) (last_activity_at s + inactivity_timeout policy))
  | Releasing => match release_started_at s with Some rel_at => Some (rel_at + release_timeout policy) | None => None end
  end.
Definition next_poll_deadline (policy : PdsnTimerPolicy) (order : list PdsnSession) : option Z :=
  earliest_of (session_deadline policy) order.

(** ** The agent toward the PCF *)
Inductive A11AgentEvent := A11MessageQueued (queue_depth : nat) | SessionEvent (event : PdsnEvent).
Record A11Agent := mkAgent { manager : PdsnSessionManager; inbound_a11 : list A11.Message }.
Definition new_agent : A11Agent := mkAgent new_manager [].
Definition accept_a11 (message : A11.Message) (a : A11Agent) : A11Agent * A11AgentEvent :=
  let q := inbound_a11 a ++ [message] in (mkAgent (manager a) q, A11MessageQueued (length q)).
Definition agent_apply_a11 (c : Clock) (now_seconds : Z) (d : A11Procedure.Direction) (message : A11.Message) (a : A11Agent)
    : rust (A11Agent * result PdsnError A11AgentEvent) :=
  '(m, r) ← apply_a11 c now_seconds d message (manager a);
  Some (mkAgent m (inbound_a11 a), match r with Ok v => Ok (SessionEvent v) | Err x => Err x end).
Definition pop_inbound_a11 (a : A11Agent) : A11Agent * option A11.Message :=
  (mkAgent (manager a) (tail (inbound_a11 a)), head (inbound_a11 a)).

End PdsnSession.

(** * Addresses, timers and registrations *)
Import PdsnSession.

(** ** Runs *)
Inductive PdsnOp :=
| PdsnA11 (now : Z) (d : A11Procedure.Direction) (message : A11.Message)
| PdsnInstall (k : SessionKey) | PdsnBindA10 (k : SessionKey) (b : A10.BearerSession)
| PdsnStartCore (k : SessionKey) | PdsnActivity (k : SessionKey)
| PdsnPoll (policy : PdsnTimerPolicy) (order : list PdsnSession).
Definition ok_events (r : result PdsnError PdsnEvent) : list PdsnEvent := match r with Ok e => [e] | Err _ => [] end.
Definition pdsn_step (o : Clock * PdsnOp) (m : PdsnSessionManager) : rust (PdsnSessionManager * list PdsnEvent) :=
  let c := o.1 in
  let reported x := (x.1, ok_events x.2) in
  match o.2 with
  | PdsnA11 now d message => x ← apply_a11 c now d message m; Some (reported x)
  | PdsnInstall k => Some (reported (install_registered_session c k m))
  | PdsnBindA10 k b => Some (reported (bind_a10_bearer k b m))
  | PdsnStartCore k => Some ((start_legacy_packet_core k m).1, [])
  | PdsnActivity k => Some ((record_activity c k m).1, [])
  | PdsnPoll policy order => Some (poll_timers policy c order m)
  end.
Fixpoint pdsn_run (ops : list (Clock * PdsnOp)) (m : PdsnSessionManager) : rust (PdsnSessionManager * list PdsnEvent) :=
  match ops with
  | [] => Some (m, [])
  | o :: ops => '(m, ev) ← pdsn_step o m; '(m, evs) ← pdsn_run ops m; Some (m, ev ++ evs)
  end.
(** The messages that arrive are well typed and the time leaves room for a lifetime. *)
Definition pdsn_op_ok (o : Clock * PdsnOp) : Prop :=
  match o.2 with PdsnA11 now _ message => message_wf message ∧ time_ok now | _ => True end.

(** ** Addresses *)
Definition registered (evs : list PdsnEvent) : list (SessionKey * Z) :=
  omap (λ e, match e with SessionRegistered k a => Some (k, a) | _ => None end) evs.
Lemma registered_app a b : registered (a ++ b) = registered a ++ registered b.
Proof. apply omap_app. Qed.
(** What a step that begins with [n] addresses given leaves. *)
Record pool_inv (p : IpPool) (given : list (SessionKey * Z)) (m : PdsnSessionManager) : Prop := {
  inv_base : base (ip_pool m) = base p;
  inv_next : next_host_offset (ip_pool m) = next_host_offset p + Z.of_nat (length given);
  inv_given : given.*2 = (λ i, base p + next_host_offset p + Z.of_nat i) <$> seq 0 (length given);
  inv_range : Forall (λ a, a < 2 ^ 32) given.*2;
  inv_pdsn_sessions : map_Forall (λ k s, key s = k ∧ (k, mobile_ip s) ∈ given) (sessions m)
}.
Lemma pool_sessions p given m m' :
  pool_inv p given m → ip_pool m' = ip_pool m →
  (∀ k s, sessions m' !! k = Some s → ∃ s', sessions m !! k = Some s' ∧ key s = key s' ∧ mobile_ip s = mobile_ip s') →
  pool_inv p (given ++ []) m'.
Proof.
  intros [H1 H2 H3 H4 H5] Hp Hs. rewrite app_nil_r. split; rewrite ?Hp; [done..|]. intros k s Hk. destruct (Hs k s Hk) as (s' & Hk' & -> & ->).
  by apply H5 in Hk'.
Qed.
Lemma create_pool p given c k m :
  pool_inv p given m → pool_inv p (given ++ registered (ok_events (create c k m).2)) (create c k m).1.
Proof.
  intros Hm. pose proof Hm as [H1 H2 H3 H4 H5]. unfold create, allocate, checked_add.
  destruct (decide (_ < _)) as [Ha|]; [|apply (pool_sessions p given m); [done|done|eauto]].
  destruct (decide (_ < _)); [|apply (pool_sessions p given m); [done|done|eauto]].
  cbn. rewrite H1, H2 in *. split; cbn; rewrite ?H1, ?H2, ?length_app, ?fmap_app; [done|cbn; lia| | |].
  - rewrite seq_app, fmap_app, H3. cbn. do 2 f_equal. lia.
  - apply Forall_app. split; [done|]. repeat constructor. done.
  - apply map_Forall_insert_2; [split; [done|apply elem_of_app; right; by left]|]. intros k' s Hs. apply H5 in Hs as [? ?].
    split; [done|]. apply elem_of_app. by left.
Qed.
Lemma poll_snapshots_sessions policy c order n ss k s :
  (poll_snapshots policy c order n ss).1.1 !! k = Some s →
  ∃ s', ss !! k = Some s' ∧ key s = key s' ∧ mobile_ip s = mobile_ip s' ∧ registered_at s = registered_at s'.
Proof.
  revert n ss. induction order as [|x order IH]; intros n ss; cbn; [eauto|].
  destruct (poll_snapshot policy c n x ss) as [[ss' ev] n'] eqn:E.
  specialize (IH n' ss'). destruct (poll_snapshots policy c order n' ss') as [[ss'' evs] n'']. cbn in *. intros H.
  destruct (IH H) as (s' & Hs' & Hk & Hi & Hg). unfold poll_snapshot in E. destruct (phase x).
  1, 2: destruct (_ <=? _); [injection E as <- <- <-; apply lookup_delete_Some in Hs' as [_ ?]; eauto|];
    (destruct (_ <=? _); [|injection E as <- <- <-; eauto]); (destruct (ss !! key x) as [cur|] eqn:Hc; [|injection E as <- <- <-; eauto]);
    injection E as <- <- <-; (destruct (decide (k = key x)) as [->|]; [|rewrite lookup_insert_ne in Hs' by done; eauto]);
    rewrite lookup_insert_eq in Hs'; injection Hs' as <-; rewrite Hc; eauto.
  destruct (release_started_at x); [destruct (_ <=? _)|]; injection E as <- <- <-; [apply lookup_delete_Some in Hs' as [_ ?]| |]; eauto.
Qed.
Lemma poll_no_registered policy c order n ss : registered (poll_snapshots policy c order n ss).1.2 = [].
Proof.
  revert n ss. induction order as [|x order IH]; intros n ss; cbn [poll_snapshots]; [done|].
  destruct (poll_snapshot policy c n x ss) as [[ss' ev] n'] eqn:E.
  specialize (IH n' ss'). destruct (poll_snapshots policy c order n' ss') as [[ss'' evs] n'']. cbn [fst snd] in *.
  rewrite registered_app, IH, app_nil_r. unfold poll_snapshot in E. destruct (phase x).
  1, 2: destruct (_ <=? _); [by injection E as <- <- <-|]; (destruct (_ <=? _); [|by injection E as <- <- <-]);
    by destruct (ss !! key x); injection E as <- <- <-.
  by destruct (release_started_at x); [destruct (_ <=? _)|]; injection E as <- <- <-.
Qed.
Lemma modified_pool p given m k s s' :
  pool_inv p given m → sessions m !! k = Some s → key s' = key s → mobile_ip s' = mobile_ip s →
  pool_inv p (given ++ []) (set_sessions <[k := s']> m).
Proof.
  intros Hm Hs Hk Hi. apply (pool_sessions p given m); [done|done|]. cbn. intros k' x. destruct (decide (k' = k)) as [->|].
  - rewrite lookup_insert_eq. intros [= <-]. eauto.
  - rewrite lookup_insert_ne by done. eauto.
Qed.
Lemma step_pool p given o m m' ev :
  pool_inv p given m → pdsn_step o m = Some (m', ev) → pool_inv p (given ++ registered ev) m'.
Proof.
  intros Hm H. pose proof (pool_sessions p given m m Hm eq_refl ltac:(eauto)) as Hsame. destruct o as [c o].
  destruct o; unfold pdsn_step in H; cbn [fst snd] in H.
  - apply bind_Some in H as ([m1 r] & H1 & [= <- <-]). unfold apply_a11 in H1. apply bind_Some in H1 as ([t x] & Ht & [= E]).
    assert (pool_inv p given (set_procedures t m)) as Ht' by (destruct Hm; by split). cbn [fst snd].
    assert (pool_inv p (given ++ []) (set_procedures t m)) as Hst by (by rewrite app_nil_r).
    assert (∀ k, pool_inv p (given ++ []) (set_sessions (delete k) (set_procedures t m))) as Hdel.
    { intros k. apply (pool_sessions p given (set_procedures t m)); [done|done|]. cbn. intros k' s [_ ?]%lookup_delete_Some. eauto. }
    destruct x as [e|e]; [|by injection E as <- <-].
    destruct e; try (injection E as <- <-; first [exact Hst | apply Hdel]);
      (destruct (bool_decide _); [injection E as <- <-; exact Hst|]); pose proof (create_pool p given c key0 (set_procedures t m) Ht') as Hc;
      by rewrite E in Hc.
  - injection H as <- <-. unfold install_registered_session. destruct (bool_decide _); [exact Hsame|]. by apply create_pool.
  - injection H as <- <-. unfold bind_a10_bearer. destruct (sessions m !! k) eqn:E; [|exact Hsame]. by eapply modified_pool.
  - injection H as <- <-. unfold start_legacy_packet_core. destruct (sessions m !! k) eqn:E; [|exact Hsame]. by eapply modified_pool.
  - injection H as <- <-. unfold record_activity. destruct (sessions m !! k) eqn:E; [|exact Hsame]. by eapply modified_pool.
  - unfold poll_timers in H. pose proof (poll_no_registered policy c order 0 (sessions m)) as Hr.
    pose proof (poll_snapshots_sessions policy c order 0 (sessions m)) as Hs.
    destruct (poll_snapshots _ _ _ _ _) as [[ss evs] n]. injection H as <- <-. cbn [fst snd] in Hr, Hs. rewrite Hr.
    apply (pool_sessions p given m); [done|done|]. cbn. intros k s H. destruct (Hs k s H) as (s' & ? & ? & ? & _). eauto.
Qed.
Lemma run_pool p given ops m m' evs :
  pool_inv p given m → pdsn_run ops m = Some (m', evs) → pool_inv p (given ++ registered evs) m'.
Proof.
  revert given m m' evs. induction ops as [|o ops IH]; intros given m m' evs Hm H; cbn in H.
  - injection H as <- <-. by rewrite app_nil_r.
  - apply bind_Some in H as ([m1 ev] & H1 & H). apply bind_Some in H as ([m2 evs'] & H2 & [= <- <-]).
    rewrite registered_app, app_assoc. eapply IH; [|exact H2]. by eapply step_pool.
Qed.
Lemma pdsn_run_returns ops m : Forall pdsn_op_ok ops → ∃ r, pdsn_run ops m = Some r.
Proof.
  intros H. revert m. induction H as [|[c o] ops Ho _ IH]; intros m; cbn; [eauto|].
  assert (∃ r, pdsn_step (c, o) m = Some r) as [[m1 ev] ->].
  { destruct o; cbn; eauto. destruct Ho as [Hw Ht]. unfold apply_a11.
    destruct (apply_returns now d message (procedures m) Hw Ht) as [[t r] ->]. cbn. eauto. }
  cbn. destruct (IH m1) as [[m2 evs] ->]. cbn. eauto.
Qed.
Lemma seq_fmap_NoDup (a : Z) n : NoDup ((λ i, a + Z.of_nat i) <$> seq 0 n).
Proof. apply NoDup_fmap_2; [intros x y; lia|apply NoDup_seq]. Qed.

(** C39: Addresses are never shared and never reused: through any sequence of the PDSN's operations, which all return, the
    sessions registered get the addresses of the pool one after another, each below 2^32, so no address is given twice;
    every session is stored under its own key with an address it was given; and two sessions never have the same one. *)
Theorem pdsn_addresses_unique pool ops :
  Forall pdsn_op_ok ops →
  ∃ m evs, pdsn_run ops (with_ip_pool pool) = Some (m, evs) ∧
    (registered evs).*2 = (λ i, base pool + next_host_offset pool + Z.of_nat i) <$> seq 0 (length (registered evs)) ∧
    Forall (λ a, a < 2 ^ 32) (registered evs).*2 ∧ NoDup (registered evs).*2 ∧
    (∀ k s, sessions m !! k = Some s → key s = k ∧ (k, mobile_ip s) ∈ registered evs) ∧
    (∀ k k' s s', sessions m !! k = Some s → sessions m !! k' = Some s' → mobile_ip s = mobile_ip s' → k = k').
Proof.
  intros Hops. destruct (pdsn_run_returns ops (with_ip_pool pool) Hops) as [[m evs] Hr]. exists m, evs.
  apply (run_pool pool [] ops) in Hr as Hp; [|split; cbn; [done|lia|done|constructor|apply map_Forall_empty]].
  destruct Hp as [_ _ H3 H4 H5]. cbn [app] in *.
  assert (NoDup (registered evs).*2) as Hnd by (rewrite H3; apply seq_fmap_NoDup). split_and!; [done..|].
  intros k k' s s' Hs Hs' Hi. apply H5 in Hs as [_ Hs], Hs' as [_ Hs']. rewrite Hi in Hs.
  apply list_elem_of_lookup in Hs as [i Hs], Hs' as [j Hs'].
  assert (i = j) as -> by (eapply NoDup_lookup; [exact Hnd|rewrite list_lookup_fmap, Hs; done|rewrite list_lookup_fmap, Hs'; done]).
  congruence.
Qed.
Lemma pdsn_addresses_unique_witness :
  let ops := [(λ _, from_secs 1, PdsnInstall (A11Procedure.mkKey 7 1)); (λ _, from_secs 2, PdsnInstall (A11Procedure.mkKey 8 1))] in
  ∃ m evs, pdsn_run ops new_manager = Some (m, evs) ∧ NoDup (registered evs).*2.
Proof.
  intros ops. destruct (pdsn_addresses_unique default_pool ops) as (m & evs & H1 & _ & _ & H2 & _); [repeat constructor|].
  exists m, evs. split; [exact H1|exact H2].
Defined.

(** ** Timers *)
(** One visit of the loop, when the snapshot is the session. *)
Definition poll_visit (policy : PdsnTimerPolicy) (c : Clock) (k : SessionKey) (n : nat) (s : PdsnSession)
    : option PdsnSession * list PdsnEvent * nat :=
  match phase s with
  | Registered | A10Bound =>
      if registration_lifetime policy <=? elapsed (registered_at s) (c n) then
        (None, [TimerExpired k (phase s) "registration lifetime expired"], S n)
      else if inactivity_timeout policy <=? elapsed (last_activity_at s) (c (S n)) then
        (Some (start_releasing (c (S (S n))) s), [TimerExpired k (phase s) "inactivity timeout"], S (S (S n)))
      else (Some s, [], S (S n))
  | Releasing =>
      match release_started_at s with
      | Some rel_at =>
          if release_timeout policy <=? elapsed rel_at (c n) then (None, [TimerExpired k Releasing "release timeout"], S n)
          else (Some s, [], S n)
      | None => (Some s, [], n)
      end
  end.
Lemma poll_snapshot_visit policy c n s ss :
  ss !! key s = Some s →
  poll_snapshot policy c n s ss =
  let '(v, ev, n') := poll_visit policy c (key s) n s in (put_back (key s) v ss, ev, n').
Proof.
  intros Hs. assert (<[key s := s]> ss = ss) as Hid by (by apply insert_id). unfold poll_snapshot, poll_visit. rewrite Hs.
  destruct (phase s); [destruct (_ <=? _); [done|]; destruct (_ <=? _); cbn; by rewrite ?Hid..|].
  destruct (release_started_at s); [destruct (_ <=? _)|]; cbn; by rewrite ?Hid.
Qed.
Lemma poll_snapshots_pass policy c order n ss :
  NoDup (key <$> order) → (∀ s, s ∈ order → ss !! key s = Some s) →
  poll_snapshots policy c order n ss = pass (poll_visit policy c) (key <$> order) n ss.
Proof.
  revert n ss. induction order as [|s order IH]; intros n ss Hnd Hs; [done|]. cbn [fmap list_fmap] in Hnd. apply NoDup_cons in Hnd as [Hn Hnd].
  assert (ss !! key s = Some s) as Hss by (apply Hs; by left). cbn [poll_snapshots]. rewrite poll_snapshot_visit by done.
  cbn [fmap list_fmap pass]. rewrite Hss. destruct (poll_visit policy c (key s) n s) as [[v ev] n']. rewrite IH; [done|done|].
  intros s' Hs'. rewrite lookup_put_back_ne; [apply Hs; by right|]. intros Heq. apply Hn. rewrite Heq. by apply list_elem_of_fmap_2.
Qed.
Definition positive_policy (p : PdsnTimerPolicy) : Prop :=
  0 < inactivity_timeout p ∧ 0 < release_timeout p ∧ 0 < registration_lifetime p.
Lemma poll_visit_due policy c k n s :
  positive_policy policy → monotone c → due (session_deadline policy) c (poll_visit policy c) k n s.
Proof.
  intros (P1 & P2 & P3) Hc. pose proof (Hc n (S n) ltac:(lia)) as H1. pose proof (Hc n (S (S n)) ltac:(lia)) as H2.
  unfold due, poll_visit, session_deadline. destruct (phase s) eqn:Ep.
  1, 2: destruct (_ <=? _) eqn:E;
    [split; [lia|]; right; apply Z.leb_le in E; rewrite expired_iff in E by done; split_and!; [done| |done]; exists (Z.min (registered_at s + registration_lifetime policy) (last_activity_at s + inactivity_timeout policy)), n; split_and!; [done|lia..]|];
    apply Z.leb_gt in E; (destruct (_ <=? _) eqn:E'; (split; [lia|]));
    [right; apply Z.leb_le in E'; rewrite expired_iff in E' by done; split_and!;
      [done|exists (Z.min (registered_at s + registration_lifetime policy) (last_activity_at s + inactivity_timeout policy)), (S n); split_and!; [done|lia..]|intros w d [= <-]; cbn; intros [= <-]; lia]
    |left; apply Z.leb_gt in E'; split_and!; [done..|]; intros d [= <-]; unfold elapsed in *; lia].
  destruct (release_started_at s) as [r|] eqn:Er.
  - destruct (_ <=? _) eqn:E; (split; [lia|]).
    + right. apply Z.leb_le in E. rewrite expired_iff in E by done. split_and!; [done|do 2 eexists; split_and!; [done|exact E|lia]|done].
    + left. apply Z.leb_gt in E. split_and!; [done..|]. intros d. intros [= <-]. unfold elapsed in E. lia.
  - split; [done|]. left. by split_and!.
Qed.

(** The PDSN's timers are exact, whatever the order in which its hash map is iterated: with positive timeouts and a
    clock that does not go back, a poll at or after [next_poll_deadline] reports an expiry, a poll that ends before it
    changes nothing and reports nothing, every event names a session that was there and was due, and after the poll the
    next deadline lies beyond its first reading. *)
Theorem pdsn_polls_on_time policy c m m' events order order' :
  positive_policy policy → monotone c → map_Forall (λ k s, key s = k) (sessions m) →
  order ≡ₚ (map_to_list (sessions m)).*2 → poll_timers policy c order m = (m', events) → order' ≡ₚ (map_to_list (sessions m')).*2 →
  (∀ d, next_poll_deadline policy order = Some d → d ≤ c 0%nat → events ≠ []) ∧
  ((∀ d n, next_poll_deadline policy order = Some d → c n < d) → m' = m ∧ events = []) ∧
  (∀ d, next_poll_deadline policy order' = Some d → c 0%nat < d) ∧
  (∀ e, e ∈ events → ∃ k s d n reason, e = TimerExpired k (phase s) reason ∧ sessions m !! k = Some s ∧
     session_deadline policy s = Some d ∧ d ≤ c n).
Proof.
  intros Hp Hc Hk Ho H Ho'. unfold poll_timers in H.
  assert (∀ (x : PdsnSessionManager) o s, o ≡ₚ (map_to_list (sessions x)).*2 → s ∈ o ↔ ∃ k, sessions x !! k = Some s) as Hval.
  { intros x o s ->. rewrite list_elem_of_fmap. split; [intros ([k v] & -> & Hin%elem_of_map_to_list); eauto|].
    intros [k Hin%elem_of_map_to_list]. by exists (k, s). }
  assert (key <$> order ≡ₚ (map_to_list (sessions m)).*1) as Hkeys.
  { rewrite Ho, <- list_fmap_compose. apply Forall2_Permutation || (apply reflexive_eq, list_fmap_ext). intros i [k v] Hin. cbn.
    apply list_elem_of_lookup_2, elem_of_map_to_list in Hin. by apply Hk in Hin. }
  assert (NoDup (key <$> order)) as Hnd by (rewrite Hkeys; apply NoDup_fst_map_to_list).
  rewrite poll_snapshots_pass in H; [|done|intros s Hs; apply (Hval m) in Hs as [k Hs]; [|done]; by rewrite (Hk k s Hs)].
  destruct (pass _ _ _ _) as [[ss evs] n'] eqn:E. injection H as <- <-.
  apply (pass_on_time (session_deadline policy) c (poll_visit policy c)) in E as (E1 & E2 & E3 & E4);
    [|done|intros; by apply poll_visit_due|done|
     intros k [s Hs]; rewrite <- (Hk k s Hs); apply list_elem_of_fmap_2, (Hval m); eauto].
  split_and!.
  - intros d Hd. apply earliest_in in Hd as (s & Hs & Hd). apply (Hval m) in Hs as [k Hs]; [|done]. eauto.
  - intros Hq. destruct E2 as [-> ->]; [|by destruct m]. intros k v d n Hv Hd.
    destruct (earliest_le (session_deadline policy) order v d) as (d' & Hd' & Hle); [apply (Hval m); eauto|done|].
    specialize (Hq d' n Hd'). lia.
  - intros d Hd. apply earliest_in in Hd as (s & Hs & Hd). apply (Hval (set_sessions (λ _, ss) m)) in Hs as [k Hs]; [|done]. eauto.
  - intros e He. destruct (E4 e He) as (k & v & d & n & i & Hv & Hev & Hd & Hle). exists k, v, d, i. unfold poll_visit in Hev.
    destruct (phase v); [..|destruct (release_started_at v)]; repeat destruct (_ <=? _); cbn in Hev; try (by apply elem_of_nil in Hev);
      apply list_elem_of_singleton in Hev as ->; eexists; (split_and!; done).
Qed.
Lemma pdsn_polls_on_time_witness :
  let k := A11Procedure.mkKey 7 1 in
  let m := (install_registered_session (λ _, from_secs 100) k new_manager).1 in
  let s := mkPdsn k Registered (from_be32 10 64 0 2) None false (from_secs 100) (from_secs 100) None in
  let c n := Z.of_nat n + from_secs 220 in
  (poll_timers default_policy c [s] m).2 ≠ [] ∧ next_poll_deadline default_policy [s] = Some (from_secs 220).
Proof.
  intros k m s c. split; [|vm_compute; reflexivity].
  refine (proj1 (pdsn_polls_on_time default_policy c m (poll_timers default_policy c [s] m).1 (poll_timers default_policy c [s] m).2 [s]
    (map_to_list (sessions (poll_timers default_policy c [s] m).1)).*2 _ _ _ _ _ _) (from_secs 220) _ _).
  - repeat split.
  - intros i j Hij. unfold c. lia.
  - apply map_Forall_insert_2; [reflexivity|apply map_Forall_empty].
  - vm_compute. reflexivity.
  - destruct (poll_timers default_policy c [s] m). reflexivity.
  - reflexivity.
  - vm_compute. reflexivity.
  - unfold c. lia.
Defined.

(** ** Refreshed registrations *)

(** A message leaves a session as it is, or removes it. *)
Lemma a11_keeps_session c now d message m m' r k s :
  sessions m !! k = Some s → apply_a11 c now d message m = Some (m', r) → sessions m' !! k = Some s ∨ sessions m' !! k = None.
Proof.
  intros Hs H. unfold apply_a11 in H. apply bind_Some in H as ([t x] & _ & [= E]).
  destruct x as [e|e]; [|injection E as <- <-; by left].
  assert (∀ k', k' = k → bool_decide (is_Some (sessions (set_procedures t m) !! k')) = true) as Hb
    by (intros k' ->; cbn; rewrite Hs; by apply bool_decide_eq_true_2).
  assert (∀ k', sessions (set_sessions (delete k') (set_procedures t m)) !! k = Some s ∨
                sessions (set_sessions (delete k') (set_procedures t m)) !! k = None) as Hd.
  { intros k'. cbn. destruct (decide (k' = k)) as [->|]; [right; apply lookup_delete_eq|left; by rewrite lookup_delete_ne]. }
  assert (∀ c' k', k' ≠ k → sessions (create c' k' (set_procedures t m)).1 !! k = Some s) as Hcr.
  { intros c' k' Hk. unfold create. destruct (allocate _) as [p [a|]]; cbn; [by rewrite lookup_insert_ne|done]. }
  destruct e; try (injection E as <- <-; first [by left | apply Hd]);
    (destruct (decide (key0 = k)) as [Hk|Hk]; [rewrite Hb in E by done; injection E as <- <-; by left|]);
    (destruct (bool_decide _); [injection E as <- <-; by left|]; left; specialize (Hcr c key0 Hk); by rewrite E in Hcr).
Qed.

(** A session after a step is one from before it, or a new one that the step reported. *)
Definition same_or_new (evs : list PdsnEvent) (m m' : PdsnSessionManager) : Prop :=
  ∀ k s', sessions m' !! k = Some s' →
    (∃ s, sessions m !! k = Some s ∧ mobile_ip s' = mobile_ip s ∧ registered_at s' = registered_at s) ∨
    (k, mobile_ip s') ∈ registered evs.

Lemma create_same_or_new c k m : same_or_new (ok_events (create c k m).2) m (create c k m).1.
Proof.
  intros k' s'. unfold create. destruct (allocate (ip_pool m)) as [p [a|]]; cbn; [|eauto].
  destruct (decide (k' = k)) as [->|]; [|rewrite lookup_insert_ne by done; eauto].
  rewrite lookup_insert_eq. intros [= <-]. right. by left.
Qed.
Lemma modified_same_or_new evs m k s s' : sessions m !! k = Some s → mobile_ip s' = mobile_ip s → registered_at s' = registered_at s →
  same_or_new evs m (set_sessions <[k := s']> m).
Proof.
  intros Hs Hi Hr k' x. cbn. destruct (decide (k' = k)) as [->|]; [|rewrite lookup_insert_ne by done; eauto].
  rewrite lookup_insert_eq. intros [= <-]. eauto.
Qed.
Lemma step_same_or_new o m m' ev : pdsn_step o m = Some (m', ev) → same_or_new ev m m'.
Proof.
  assert (∀ evs, same_or_new evs m m) as Hid by (intros evs k s; eauto).
  intros H. destruct o as [c o], o; unfold pdsn_step in H; cbn [fst snd] in H.
  - apply bind_Some in H as ([m1 r] & H1 & [= <- <-]). unfold apply_a11 in H1. apply bind_Some in H1 as ([t x] & _ & [= E]).
    assert (∀ evs k, same_or_new evs m (set_sessions (delete k) (set_procedures t m))) as Hdel
      by (intros evs k k' s'; cbn; intros [_ ?]%lookup_delete_Some; eauto).
    assert (∀ evs, same_or_new evs m (set_procedures t m)) as Hp by (intros evs k s'; cbn; eauto).
    destruct x as [e|e]; [|by injection E as <- <-]. cbn [fst snd].
    destruct e; try (injection E as <- <-; first [exact (Hp _) | apply Hdel]);
      (destruct (bool_decide _); [injection E as <- <-; exact (Hp _)|]);
      pose proof (create_same_or_new c key0 (set_procedures t m)) as Hc; by rewrite E in Hc.
  - injection H as <- <-. unfold install_registered_session. destruct (bool_decide _); [apply Hid|]. apply create_same_or_new.
  - injection H as <- <-. unfold bind_a10_bearer. destruct (sessions m !! k) eqn:E; [|apply Hid]. by eapply modified_same_or_new.
  - injection H as <- <-. unfold start_legacy_packet_core. destruct (sessions m !! k) eqn:E; [|apply Hid]. by eapply modified_same_or_new.
  - injection H as <- <-. unfold record_activity. destruct (sessions m !! k) eqn:E; [|apply Hid]. by eapply modified_same_or_new.
  - unfold poll_timers in H. pose proof (poll_snapshots_sessions policy c order 0 (sessions m)) as Hs.
    destruct (poll_snapshots _ _ _ _ _) as [[ss evs] n]. injection H as <- <-. intros k s' Hk.
    destruct (Hs k s' Hk) as (s & ? & _ & ? & ?). eauto.
Qed.
Lemma run_same_or_new ops m m' evs : pdsn_run ops m = Some (m', evs) → same_or_new evs m m'.
Proof.
  revert m m' evs. induction ops as [|o ops IH]; intros m m' evs H; cbn in H.
  - injection H as <- <-. intros k s'. eauto.
  - apply bind_Some in H as ([m1 ev] & H1%step_same_or_new & H). apply bind_Some in H as ([m2 evs'] & H2 & [= <- <-]).
    intros k s' Hk. rewrite registered_app, elem_of_app. destruct (IH _ _ _ H2 k s' Hk) as [(s1 & Hs1 & -> & ->)|]; [|auto].
    destruct (H1 k s1 Hs1) as [|]; auto.
Qed.

(** The poll removes a session whose lifetime has passed. *)
Lemma poll_snapshot_other policy c n x ss k : k ≠ key x → (poll_snapshot policy c n x ss).1.1 !! k = ss !! k.
Proof.
  intros Hk. unfold poll_snapshot. destruct (phase x); [..|destruct (release_started_at x)];
    repeat destruct (_ <=? _); try destruct (ss !! key x); cbn; by rewrite ?lookup_delete_ne, ?lookup_insert_ne.
Qed.
Lemma poll_snapshots_other policy c order n ss k : k ∉ key <$> order → (poll_snapshots policy c order n ss).1.1 !! k = ss !! k.
Proof.
  revert n ss. induction order as [|x order IH]; intros n ss; [done|]. cbn [poll_snapshots fmap list_fmap]. rewrite not_elem_of_cons. intros [Hk Hn].
  pose proof (poll_snapshot_other policy c n x ss k Hk) as Hx. destruct (poll_snapshot policy c n x ss) as [[ss' ev] n'].
  specialize (IH n' ss' Hn). destruct (poll_snapshots policy c order n' ss') as [[ss'' evs] n'']. cbn in *. congruence.
Qed.
Lemma poll_expires policy c order n ss s :
  NoDup (key <$> order) → s ∈ order → phase s ≠ Releasing → (∀ i, registration_lifetime policy ≤ elapsed (registered_at s) (c i)) →
  (poll_snapshots policy c order n ss).1.1 !! key s = None ∧
  TimerExpired (key s) (phase s) "registration lifetime expired" ∈ (poll_snapshots policy c order n ss).1.2.
Proof.
  intros Hnd Hin Hp Ht. revert n ss Hnd Hin. induction order as [|x order IH]; intros n ss Hnd Hin; [by apply elem_of_nil in Hin|].
  cbn [poll_snapshots]. apply NoDup_cons in Hnd as [Hn Hnd]. apply elem_of_cons in Hin as [->|Hin].
  - assert (poll_snapshot policy c n x ss = (delete (key x) ss, [TimerExpired (key x) (phase x) "registration lifetime expired"], S n)) as ->.
    { unfold poll_snapshot. specialize (Ht n). destruct (phase x); [by rewrite (proj2 (Z.leb_le _ _) Ht)..|done]. }
    pose proof (poll_snapshots_other policy c order (S n) (delete (key x) ss) (key x) Hn) as Ho.
    destruct (poll_snapshots _ _ _ _ _) as [[ss'' evs] n'']. cbn in *. split; [by rewrite Ho, lookup_delete_eq|by left].
  - destruct (poll_snapshot policy c n x ss) as [[ss' ev] n']. specialize (IH n' ss' Hnd Hin).
    destruct (poll_snapshots policy c order n' ss') as [[ss'' evs] n'']. cbn in *. rewrite elem_of_app. tauto.
Qed.

(** The sessions of a manager in some order. *)
Definition snapshots_of (m : PdsnSessionManager) (order : list PdsnSession) : Prop := order ≡ₚ (map_to_list (sessions m)).*2.
Lemma snapshots_keys m order : map_Forall (λ k s, key s = k) (sessions m) → snapshots_of m order → NoDup (key <$> order).
Proof.
  intros Hk Ho. assert (key <$> order ≡ₚ (map_to_list (sessions m)).*1) as ->; [|apply NoDup_fst_map_to_list].
  rewrite Ho, <- list_fmap_compose. apply reflexive_eq, list_fmap_ext. intros i [k v] Hin. cbn.
  apply list_elem_of_lookup_2, elem_of_map_to_list in Hin. by apply Hk in Hin.
Qed.

(** C40: refreshing a registration does not renew the session.  Take any session [s] of any run of the PDSN.  No A11
    message changes it: it is left as it is or removed.  So through any further operations, however many refreshes of its
    registration are among them, a session under its key either is still this one, with its address and its time of
    registration, or is a new one, reported as registered, with another address.  While it is still this one and not
    being released, a poll all of whose clock readings lie [registration_lifetime] after its first registration removes
    it as expired; a refresh that comes later finds no session and can only make a new one, with another address. *)
Theorem pdsn_refresh_ignored pool ops m evs k s :
  pdsn_run ops (with_ip_pool pool) = Some (m, evs) → sessions m !! k = Some s →
  (∀ c now d message m' r, apply_a11 c now d message m = Some (m', r) → sessions m' !! k = Some s ∨ sessions m' !! k = None) ∧
  ∀ ops' m' evs', pdsn_run ops' m = Some (m', evs') →
    (∀ s', sessions m' !! k = Some s' →
       (mobile_ip s' = mobile_ip s ∧ registered_at s' = registered_at s) ∨
       (mobile_ip s' ≠ mobile_ip s ∧ (k, mobile_ip s') ∈ registered evs')) ∧
    (∀ s' policy c order, sessions m' !! k = Some s' → mobile_ip s' = mobile_ip s → phase s' ≠ Releasing →
       snapshots_of m' order → (∀ i, registration_lifetime policy ≤ elapsed (registered_at s) (c i)) →
       let '(m'', expired) := poll_timers policy c order m' in
       sessions m'' !! k = None ∧ TimerExpired k (phase s') "registration lifetime expired" ∈ expired).
Proof.
  intros Hr Hs. split; [intros; by eapply a11_keeps_session|]. intros ops' m' evs' Hr'.
  apply (run_pool pool []) in Hr as Hp; [|split; cbn; [done|lia|done|constructor|apply map_Forall_empty]].
  apply (run_pool pool _ ops' _ _ _ Hp) in Hr' as Hp'. cbn [app] in Hp, Hp'.
  assert (NoDup (registered evs ++ registered evs').*2) as Hnd by (rewrite (inv_given _ _ _ Hp'); apply seq_fmap_NoDup).
  assert (∀ s', sessions m' !! k = Some s' →
       (mobile_ip s' = mobile_ip s ∧ registered_at s' = registered_at s) ∨
       (mobile_ip s' ≠ mobile_ip s ∧ (k, mobile_ip s') ∈ registered evs')) as Ha.
  { intros s' Hs'. destruct (run_same_or_new _ _ _ _ Hr' k s' Hs') as [(s0 & Hs0 & ? & ?)|Hnew].
    - assert (s0 = s) as -> by congruence. by left.
    - right. split; [|done]. intros Heq. destruct (inv_pdsn_sessions _ _ _ Hp k s Hs) as [_ Hold].
      rewrite fmap_app in Hnd. apply NoDup_app in Hnd as (_ & Hd & _). apply (Hd (mobile_ip s)).
      + by apply (list_elem_of_fmap_2 snd) in Hold.
      + rewrite <- Heq. by apply (list_elem_of_fmap_2 snd) in Hnew. }
  split; [done|]. intros s' policy c order Hs' Hi Hph Ho Ht.
  assert (map_Forall (λ k s, key s = k) (sessions m')) as Hkeys by (intros k' x Hx; by apply (inv_pdsn_sessions _ _ _ Hp') in Hx as [? _]).
  assert (registered_at s' = registered_at s) as Hreg by (destruct (Ha s' Hs') as [[_ ?]|[? _]]; done).
  assert (s' ∈ order) as Hin.
  { rewrite Ho. apply list_elem_of_fmap. exists (k, s'). split; [done|by apply elem_of_map_to_list]. }
  rewrite <- Hreg in Ht. destruct (poll_expires policy c order 0 (sessions m') s' (snapshots_keys m' order Hkeys Ho) Hin Hph Ht) as [H1 H2].
  rewrite (Hkeys k s' Hs') in H1, H2. unfold poll_timers. destruct (poll_snapshots _ _ _ _ _) as [[ss x] n]. by split.
Qed.

(** A session registered at 101 s and refreshed at 691 s, with a lease until 2491 s, is expired by the poll at 701 s as
    never refreshed, and the next refresh makes it a new session with another address. *)
Definition at_secs (t : Z) : Clock := λ _, from_secs t.
Definition lease_key : SessionKey := A11Procedure.mkKey 7 1.
Definition lease_begin : list (Clock * PdsnOp) :=
  [(at_secs 100, PdsnA11 100 A11Procedure.Outbound (A11.MRegistrationRequest ex_req));
   (at_secs 101, PdsnA11 101 A11Procedure.Inbound (A11.MRegistrationReply ex_rep))].
Definition lease_refresh : list (Clock * PdsnOp) :=
  [(at_secs 690, PdsnA11 690 A11Procedure.Outbound (A11.MRegistrationRequest ex_req));
   (at_secs 691, PdsnA11 691 A11Procedure.Inbound (A11.MRegistrationReply ex_rep)); (at_secs 700, PdsnActivity lease_key)].
Definition lease_session (activity : Z) : PdsnSession :=
  mkPdsn lease_key Registered (from_be32 10 64 0 2) None false (from_secs 101) activity None.
Definition after (ops : list (Clock * PdsnOp)) : PdsnSessionManager := from_option fst new_manager (pdsn_run ops new_manager).
Definition reports (ops : list (Clock * PdsnOp)) : list PdsnEvent := from_option snd [] (pdsn_run ops new_manager).
Definition lease_again : list (Clock * PdsnOp) :=
  lease_begin ++ lease_refresh ++ [(at_secs 701, PdsnPoll default_policy [lease_session (from_secs 700)]);
    (at_secs 702, PdsnA11 702 A11Procedure.Outbound (A11.MRegistrationRequest ex_req));
    (at_secs 703, PdsnA11 703 A11Procedure.Inbound (A11.MRegistrationReply ex_rep))].

Lemma pdsn_refresh_ignored_witness :
  reports (lease_begin ++ lease_refresh) =
    [A11Applied (A11Procedure.EvPendingRegistration lease_key); SessionRegistered lease_key (from_be32 10 64 0 2);
     A11Applied (A11Procedure.EvPendingRefresh lease_key); A11Applied (A11Procedure.EvRefreshed lease_key 2491)] ∧
  (let '(m, expired) := poll_timers default_policy (at_secs 701) [lease_session (from_secs 700)] (after (lease_begin ++ lease_refresh)) in
   sessions m !! lease_key = None ∧ TimerExpired lease_key Registered "registration lifetime expired" ∈ expired) ∧
  last (reports lease_again) = Some (SessionRegistered lease_key (from_be32 10 64 0 3)).
Proof.
  split; [vm_compute; reflexivity|]. split; [|vm_compute; reflexivity].
  destruct (pdsn_refresh_ignored default_pool lease_begin (after lease_begin) (reports lease_begin) lease_key (lease_session (from_secs 101)))
    as [_ H]; [vm_compute; reflexivity..|].
  destruct (H lease_refresh (after (lease_begin ++ lease_refresh))
    [A11Applied (A11Procedure.EvPendingRefresh lease_key); A11Applied (A11Procedure.EvRefreshed lease_key 2491)]) as [_ H2];
    [vm_compute; reflexivity|].
  apply (H2 (lease_session (from_secs 700)) default_policy (at_secs 701) [lease_session (from_secs 700)]).
  - vm_compute. reflexivity.
  - reflexivity.
  - discriminate.
  - unfold snapshots_of. vm_compute. reflexivity.
  - intros i. vm_compute. discriminate.
Defined.
