(* ===== verification/PcfRelay.v ===== *)
(** * The PCF's bearer relay ([cdma-pcf/src/bearer_relay.rs])

    The task that carries user data between the access network (A8) and the PDSN (A10): it owns
    a bearer table per side, the pairs of sessions the signaling task registers, and the address
    every A8 session's traffic comes from.  A socket is the queue of datagrams that have
    arrived; what is sent is returned.  Commands come over a channel, the queue [rx]. *)
From S2P Require Import Prelude Octets A8Bearer A8Proofs A10.

Module PcfRelay.
#[export] Existing Instance A8.IpAddr_eq_dec.

Definition A10_BEARER_MAX_DATAGRAMS_PER_PASS : nat := 64.
(** [vec![0u8; 8192]]: a longer datagram is cut *)
Definition BUFFER_LEN : nat := Z.to_nat 8192.
Record SocketAddr := mkAddr { ip : A8.IpAddr; port : Z }.
Inductive HrpdPcfBearerCommand :=
| Register (a8 : A8.BearerSession) (a10 : A10.BearerSession) (peer : SocketAddr)
| Release (a8_id : Z) (a10_id : option Z).
Record Relay := mkRelay {
  rx : list HrpdPcfBearerCommand;
  a8_table : A8.BearerTable;
  a10_table : A8.BearerTable;
  a8_to_a10 : gmap Z Z;
  a10_to_a8 : gmap Z Z;
  a8_peers : gmap Z SocketAddr
}.
Definition new_relay : Relay := mkRelay [] A8.BearerTable_default A8.BearerTable_default ∅ ∅ ∅.
Definition set_rx (q : list HrpdPcfBearerCommand) (r : Relay) : Relay :=
  mkRelay q (a8_table r) (a10_table r) (a8_to_a10 r) (a10_to_a8 r) (a8_peers r).
Definition set_a8_table (t : A8.BearerTable) (r : Relay) : Relay :=
  mkRelay (rx r) t (a10_table r) (a8_to_a10 r) (a10_to_a8 r) (a8_peers r).
Definition set_a10_table (t : A8.BearerTable) (r : Relay) : Relay :=
  mkRelay (rx r) (a8_table r) t (a8_to_a10 r) (a10_to_a8 r) (a8_peers r).
Definition set_maps (f g : gmap Z Z → gmap Z Z) (p : gmap Z SocketAddr → gmap Z SocketAddr) (r : Relay) : Relay :=
  mkRelay (rx r) (a8_table r) (a10_table r) (f (a8_to_a10 r)) (g (a10_to_a8 r)) (p (a8_peers r)).

Definition apply_hrpd_pcf_bearer_command (c : HrpdPcfBearerCommand) (r : Relay) : Relay :=
  match c with
  | Register a8 a10 peer =>
      let a8_id := A8.session_id a8 in
      let a10_id := A10.session_id a10 in
      let '(t8, r8) := A8.apply_session a8 (a8_table r) in
      let r := set_a8_table t8 r in
      match r8 with
      | Err _ => r
      | Ok _ =>
          let '(t10, r10) := A10.apply_session a10 (a10_table r) in
          let r := set_a10_table t10 r in
          match r10 with
          | Err _ => r
          | Ok _ =>
              let learn peers :=
                match peers !! a8_id with
                | Some learned => if decide (ip learned = ip peer) then peers else <[a8_id := peer]> peers
                | None => <[a8_id := peer]> peers
                end in
              set_maps <[a8_id := a10_id]> <[a10_id := a8_id]> learn r
          end
      end
  | Release a8_id a10_id =>
      let mapped := a8_to_a10 r !! a8_id in
      let a10_id := match a10_id with Some i => Some i | None => mapped end in
      let r := set_maps (delete a8_id) (λ g, g) (λ p, p) r in
      let r := match a10_id with
               | Some i => set_a10_table (A10.remove_session_if_present i (a10_table r)).1 (set_maps (λ f, f) (delete i) (λ p, p) r)
               | None => r
               end in
      let r := set_a8_table (A8.remove_session_if_present a8_id (a8_table r)).1 r in
      set_maps (λ f, f) (λ g, g) (delete a8_id) r
  end.
(** All commands that have arrived, and how many. *)
Definition drain_hrpd_pcf_bearer_commands (r : Relay) : Relay * nat :=
  (foldl (λ r c, apply_hrpd_pcf_bearer_command c r) (set_rx [] r) (rx r), length (rx r)).

(** [recv_udp_gre_packet]: a socket with nothing to read, or a datagram that is not GRE, gives nothing *)
Definition recv_udp_gre_packet (socket : list (list Z * SocketAddr)) : rust (list (list Z * SocketAddr) * option (list Z * SocketAddr)) :=
  match socket with
  | [] => Some ([], None)
  | (datagram, from) :: socket =>
      p ← A8.decode (take BUFFER_LEN datagram);
      Some (socket, match p with
                    | Ok p => match A8.encode p with Ok wire => Some (wire, from) | Err _ => None end
                    | Err _ => None
                    end)
  end.

(** What is sent: to the PDSN, the A10 socket's peer, or to an access network. *)
Inductive Sent := ToPdsn (wire : list Z) | ToAccess (wire : list Z) (peer : SocketAddr).
Abbreviation Socket := (list (list Z * SocketAddr)).

(** The relay of one datagram; the result says whether one was read. *)
Definition relay_one_a8_to_a10 (a8_endpoint : A8.BearerEndpoint) (socket : Socket) (r : Relay)
    : rust (Relay * Socket * list Sent * bool) :=
  '(socket, received) ← recv_udp_gre_packet socket;
  match received with
  | None => Some (r, socket, [], false)
  | Some (wire, from) =>
      '(t8, inbound) ← A8.decode_for_session a8_endpoint wire (a8_table r);
      let r := set_a8_table t8 r in
      Some match inbound with
      | Err _ => (r, socket, [], true)
      | Ok inbound =>
          let r := set_maps (λ f, f) (λ g, g) <[A8.in_session_id inbound := from]> r in
          match a8_to_a10 r !! A8.in_session_id inbound with
          | None => (r, socket, [], true)
          | Some a10_session =>
              let '(t10, outbound) := A10.build_outbound_packet a10_session (A8.in_payload inbound) (a10_table r) in
              let r := set_a10_table t10 r in
              match outbound with
              | Err _ => (r, socket, [], true)
              | Ok outbound => (r, socket, [ToPdsn (A10.wire_bytes outbound)], true)
              end
          end
      end
  end.
(** The way back of an accepted packet. *)
Definition return_a10_packet (inbound : A10.InboundPacket) (r : Relay) : Relay * list Sent :=
  match a10_to_a8 r !! A10.in_session_id inbound with
  | None => (r, [])
  | Some a8_session =>
      let '(t8, outbound) := A8.build_outbound_packet a8_session (A10.in_payload inbound) (a8_table r) in
      let r := set_a8_table t8 r in
      match outbound with
      | Err _ => (r, [])
      | Ok outbound =>
          match a8_peers r !! a8_session with
          | None => (r, [])
          | Some peer => (r, [ToAccess (A8.wire_bytes outbound) peer])
          end
      end
  end.
Definition relay_one_a10_to_a8 (a10_endpoint : A10.BearerEndpoint) (socket : Socket) (r : Relay)
    : rust (Relay * Socket * list Sent * bool) :=
  '(socket, received) ← recv_udp_gre_packet socket;
  match received with
  | None => Some (r, socket, [], false)
  | Some (wire, _) =>
      '(t10, inbound) ← A10.decode_for_session a10_endpoint wire (a10_table r);
      let r := set_a10_table t10 r in
      match inbound with
      | Ok inbound => let '(r, sent) := return_a10_packet inbound r in Some (r, socket, sent, true)
      | Err _ =>
          let '(r, drained) := drain_hrpd_pcf_bearer_commands r in
          if decide (drained = 0%nat) then Some (r, socket, [], true)
          else
            '(t10, inbound) ← A10.decode_for_session a10_endpoint wire (a10_table r);
            let r := set_a10_table t10 r in
            match inbound with
            | Ok inbound => let '(r, sent) := return_a10_packet inbound r in Some (r, socket, sent, true)
            | Err _ => Some (r, socket, [], true)
            end
      end
  end.

(** [for _ in 0..MAX { if !relay_one { break; } pass_active = true; }] *)
Fixpoint relay_many (one : Socket → Relay → rust (Relay * Socket * list Sent * bool)) (n : nat) (socket : Socket) (r : Relay)
    : rust (Relay * Socket * list Sent * bool) :=
  match n with
  | O => Some (r, socket, [], false)
  | S n =>
      '(r, socket, sent, more) ← one socket r;
      if negb more then Some (r, socket, sent, false)
      else '(r, socket, sent', _) ← relay_many one n socket r; Some (r, socket, sent ++ sent', true)
  end.
(** One turn of the task's loop, until it waits: the A8 socket, the A10 socket, and whether anything was done. *)
Definition relay_pass (a8_endpoint : A8.BearerEndpoint) (a10_endpoint : A10.BearerEndpoint) (a8_socket a10_socket : Socket) (r : Relay)
    : rust (Relay * Socket * Socket * list Sent * bool) :=
  let '(r, drained) := drain_hrpd_pcf_bearer_commands r in
  '(r, a8_socket, sent, active) ← relay_many (relay_one_a8_to_a10 a8_endpoint) A10_BEARER_MAX_DATAGRAMS_PER_PASS a8_socket r;
  let '(r, drained') := drain_hrpd_pcf_bearer_commands r in
  '(r, a10_socket, sent', active') ← relay_many (relay_one_a10_to_a8 a10_endpoint) A10_BEARER_MAX_DATAGRAMS_PER_PASS a10_socket r;
  Some (r, a8_socket, a10_socket, sent ++ sent', bool_decide (0 < drained)%nat || active || bool_decide (0 < drained')%nat || active').

End PcfRelay.

(** * User data from the access network to the PDSN and back *)
Import A8 PcfRelay.

(** ** What one direction of a bearer depends on *)
Definition sview (t : BearerTable) (i : Z) : option (BearerSession * Z) := (λ x, (session x, next_tx_sequence x)) <$> sessions t !! i.
Definition rview (t : BearerTable) (j : Z) : option (BearerSession * option Z) :=
  (λ x, (session x, last_rx_sequence (entry_stats x))) <$> sessions t !! j.
Lemma linked_views ta tb ta' tb' i j :
  linked ta tb i j → sview ta' i = sview ta i → rview tb' j = rview tb j → inbound_key_index tb' = inbound_key_index tb →
  linked ta' tb' i j.
Proof.
  intros (xa & xb & Ha & Hb & Hk & Hp & Hs & He & Hf) Hva Hvb Hi. unfold sview, rview in *. rewrite Ha in Hva. rewrite Hb in Hvb. cbn in *.
  apply fmap_Some in Hva as (xa' & Ha' & [= Hsa Hn]). apply fmap_Some in Hvb as (xb' & Hb' & [= Hsb Hl]).
  exists xa', xb'. rewrite <- Hsa, <- Hsb, <- Hn, <- Hl, Hi. done.
Qed.
Lemma send_views i data t t' o :
  build_outbound_packet i data t = (t', Ok o) →
  inbound_key_index t' = inbound_key_index t ∧ (∀ j, rview t' j = rview t j) ∧ (∀ i', i' ≠ i → sview t' i' = sview t i') ∧
  out_endpoint o = from_option (endpoint ∘ session) (out_endpoint o) (sessions t !! i).
Proof.
  intros H. destruct (sessions t !! i) as [x|] eqn:Hx; [|unfold build_outbound_packet in H; by rewrite Hx in H].
  destruct (send_spec i data t x Hx) as (t1 & x1 & o1 & H1 & Hs & Hk & _ & Hses & _ & _ & _ & Hl & _ & Ho & _).
  rewrite H in H1. injection H1 as <- <-. split_and!; [done| |intros i' Hi; unfold sview; by rewrite Hs, lookup_insert_ne|done].
  intros j. unfold rview. rewrite Hs. destruct (decide (j = i)) as [->|]; [|by rewrite lookup_insert_ne].
  rewrite lookup_insert_eq, Hx. cbn. by rewrite Hses, Hl.
Qed.
Lemma receive_views e w t t' p :
  decode_for_session e w t = Some (t', Ok p) →
  inbound_key_index t' = inbound_key_index t ∧ (∀ i, sview t' i = sview t i) ∧ (∀ j, j ≠ in_session_id p → rview t' j = rview t j) ∧
  in_endpoint p = e.
Proof.
  intros H. destruct (decode_for_session_cases e w t) as (t1 & r1 & H1 & Hc). rewrite H in H1. injection H1 as <- <-.
  destruct Hc as [(err & ? & _) | [(? & ? & ? & _ & ? & _) | (q & id & x & k & _ & _ & _ & Hx & _ & _ & _ & Hacc)]]; [done..|].
  destruct (accept_spec id k e (sequence_number q) (payload q) x t) as (t2 & x2 & Heq & (Hs & Hi & _) & [Hx2 Hn2] & _).
  rewrite Heq in Hacc. injection Hacc as -> ->. cbn. split_and!; [done| |intros j Hj; unfold rview; cbn; by rewrite Hs, lookup_insert_ne|done].
  intros i. unfold sview. cbn. rewrite Hs. destruct (decide (i = id)) as [->|]; [|by rewrite lookup_insert_ne].
  rewrite lookup_insert_eq, Hx. cbn. by rewrite Hx2, Hn2.
Qed.
Lemma view_sessions t t' i : sview t' i = sview t i ∨ rview t' i = rview t i → lookup_session i t' = lookup_session i t.
Proof.
  unfold sview, rview, lookup_session. intros [H|H]; destruct (sessions t !! i), (sessions t' !! i); cbn in *; congruence.
Qed.

(** ** Across the relay's sockets *)
Lemma decode_for_session_ext e w w' t : decode w = decode w' → decode_for_session e w t = decode_for_session e w' t.
Proof. intros H. unfold decode_for_session. by rewrite H. Qed.
Lemma send_wire i data t t' o :
  build_outbound_packet i data t = (t', Ok o) → ∃ x, encode (wire_packet x data) = Ok (wire_bytes o) ∧ payload (wire_packet x data) = data.
Proof.
  unfold build_outbound_packet. destruct (sessions t !! i) as [x|] eqn:Hx; [|done]. intros H. exists x. split; [|done].
  unfold wire_packet, tx_sequence. destruct (sequencing (profile (session x))) eqn:Hs; cbn in H |- *; by injection H as <- <-.
Qed.
Lemma received_again i data t t' o from rest :
  build_outbound_packet i data t = (t', Ok o) → (length data + 12 ≤ BUFFER_LEN)%nat →
  ∃ w, recv_udp_gre_packet ((wire_bytes o, from) :: rest) = Some (rest, Some (w, from)) ∧ decode w = decode (wire_bytes o).
Proof.
  intros H Hlen. destruct (send_wire _ _ _ _ _ H) as (x & He & Hd). pose proof (gre_decode_encode _ _ (wire_packet_wf x data) He) as Hdec.
  pose proof (gre_encode_wf _ (wire_packet_wf x data)) as Hw. rewrite He in Hw. apply Ok_inj in Hw.
  assert (length (wire_bytes o) ≤ BUFFER_LEN)%nat as Hl.
  { rewrite Hw, Hd, !length_app. unfold field32. cbn [key wire_packet sequence_number]. destruct (tx_sequence x); cbn; lia. }
  exists (wire_bytes o). split; [|done]. unfold recv_udp_gre_packet. rewrite take_ge by done. rewrite Hdec. cbn [mbind option_bind]. by rewrite He.
Qed.
Lemma a10_send k data t t' o e :
  A8.build_outbound_packet k data t = (t', Ok o) → endpoint <$> lookup_session k t = Some (A10.into_a8_endpoint e) →
  ∃ o', A10.build_outbound_packet k data t = (t', Ok o') ∧ A10.wire_bytes o' = wire_bytes o.
Proof.
  intros H He. unfold A10.build_outbound_packet. rewrite H. destruct (send_views _ _ _ _ _ H) as (_ & _ & _ & Ho).
  unfold lookup_session in He. destruct (sessions t !! k); [|done]. injection He as He. cbn in Ho |- *. rewrite Ho, He. cbn. eauto.
Qed.
Lemma a10_receive e w t t' p :
  A8.decode_for_session (A10.into_a8_endpoint e) w t = Some (t', Ok p) →
  ∃ p', A10.decode_for_session e w t = Some (t', Ok p') ∧ A10.in_session_id p' = in_session_id p ∧ A10.in_payload p' = in_payload p.
Proof.
  intros H. unfold A10.decode_for_session. rewrite H. destruct (receive_views _ _ _ _ _ H) as (_ & _ & _ & He). cbn. rewrite He. cbn. eauto.
Qed.

(** ** Routes *)
(** The sessions one mobile's data passes: at the access network, at the PCF toward it, at the PCF toward the PDSN, at the
    PDSN. *)
Record Route := mkRoute { an : Z; a8s : Z; a10s : Z; pdsn : Z }.
Definition disjoint_routes (routes : list Route) : Prop :=
  ∀ x y, x ∈ routes → y ∈ routes → x = y ∨ (an x ≠ an y ∧ a8s x ≠ a8s y ∧ a10s x ≠ a10s y ∧ pdsn x ≠ pdsn y).

Section routes.
Context (a8_endpoint : BearerEndpoint) (a10_endpoint : A10.BearerEndpoint).
Let an_endpoint : BearerEndpoint := flip_endpoint a8_endpoint.
Let pdsn_endpoint : BearerEndpoint := flip_endpoint (A10.into_a8_endpoint a10_endpoint).

(** Both hops of the route are linked in both directions, the relay knows the pair and where the access network is. *)
Record routed (ta : BearerTable) (r : Relay) (tb : BearerTable) (x : Route) : Prop := {
  up8 : linked ta (a8_table r) (an x) (a8s x); up10 : linked (a10_table r) tb (a10s x) (pdsn x);
  down10 : linked tb (a10_table r) (pdsn x) (a10s x); down8 : linked (a8_table r) ta (a8s x) (an x);
  pair_up : a8_to_a10 r !! a8s x = Some (a10s x); pair_down : a10_to_a8 r !! a10s x = Some (a8s x);
  at_a8 : endpoint <$> lookup_session (a8s x) (a8_table r) = Some a8_endpoint;
  at_a10 : endpoint <$> lookup_session (a10s x) (a10_table r) = Some (A10.into_a8_endpoint a10_endpoint)
}.
(** A hop whose receiver knows itself as [e]. *)
Lemma hop ta tb i j data e :
  linked ta tb i j → endpoint <$> lookup_session j tb = Some e →
  ∃ ta' tb' o p, build_outbound_packet i data ta = (ta', Ok o) ∧ decode_for_session e (wire_bytes o) tb = Some (tb', Ok p) ∧
    in_session_id p = j ∧ in_payload p = data ∧ linked ta' tb' i j.
Proof.
  intros Hl He. destruct (linked_hop i j ta tb data Hl) as (ta' & tb' & o & p & xa & xb & Ho & Hd & Hj & Hp & _ & _ & _ & Hl' & _).
  exists ta', tb', o, p. split_and!; try done. destruct Hl as (ya & yb & Ha & Hb & _ & _ & _ & Heq & _).
  destruct (send_views _ _ _ _ _ Ho) as (_ & _ & _ & Hoe). rewrite Ha in Hoe. cbn in Hoe. rewrite Hoe, <- Heq in Hd.
  unfold lookup_session in He. rewrite Hb in He. by injection He as <-.
Qed.
Lemma far_endpoint ta tb i j e : linked ta tb i j → endpoint <$> lookup_session i ta = Some e → endpoint <$> lookup_session j tb = Some (flip_endpoint e).
Proof.
  intros (xa & xb & Ha & Hb & _ & _ & _ & He & _). unfold lookup_session. rewrite Ha, Hb. cbn. intros [= <-]. by f_equal.
Qed.

Definition in_reach (data : list Z) : Prop := (length data + 12 ≤ BUFFER_LEN)%nat.

(** One payload up: from the access network over the relay to the PDSN. *)
Lemma up_step ta r tb x data from :
  routed ta r tb x → in_reach data →
  ∃ ta' tb' o w p t8 t10,
    build_outbound_packet (an x) data ta = (ta', Ok o) ∧
    relay_one_a8_to_a10 a8_endpoint [(wire_bytes o, from)] r =
      Some (mkRelay (rx r) t8 t10 (a8_to_a10 r) (a10_to_a8 r) (<[a8s x := from]> (a8_peers r)), [], [ToPdsn w], true) ∧
    decode_for_session pdsn_endpoint w tb = Some (tb', Ok p) ∧ in_session_id p = pdsn x ∧ in_payload p = data ∧
    ∀ y, (x = y ∨ (an x ≠ an y ∧ a8s x ≠ a8s y ∧ a10s x ≠ a10s y ∧ pdsn x ≠ pdsn y)) → routed ta r tb y →
      routed ta' (mkRelay (rx r) t8 t10 (a8_to_a10 r) (a10_to_a8 r) (<[a8s x := from]> (a8_peers r))) tb' y.
Proof using Type.
  intros Hx Hlen. destruct (hop ta (a8_table r) (an x) (a8s x) data a8_endpoint (up8 _ _ _ _ Hx) (at_a8 _ _ _ _ Hx))
    as (ta' & t8 & o & p8 & Ho & Hd8 & Hj & Hp8 & Hl8).
  destruct (hop (a10_table r) tb (a10s x) (pdsn x) data pdsn_endpoint (up10 _ _ _ _ Hx)) as (t10 & tb' & o10 & p & Ho10 & Hd & Hpd & Hpp & Hl10);
    [eapply far_endpoint; [apply (up10 _ _ _ _ Hx)|apply (at_a10 _ _ _ _ Hx)]|].
  destruct (received_again _ _ _ _ _ from [] Ho Hlen) as (w & Hrecv & Hw).
  destruct (a10_send _ _ _ _ _ _ Ho10 (at_a10 _ _ _ _ Hx)) as (o' & Ho' & Hwire).
  exists ta', tb', o, (wire_bytes o10), p, t8, t10. split_and!; try done.
  - unfold relay_one_a8_to_a10. rewrite Hrecv. cbn [mbind option_bind]. rewrite (decode_for_session_ext _ w (wire_bytes o)) by done.
    rewrite Hd8. cbn. rewrite Hj, (pair_up _ _ _ _ Hx), Hp8. rewrite Ho'. cbn. by rewrite Hwire.
  - intros y Hxy Hy. destruct (send_views _ _ _ _ _ Ho) as (Ka & Ra & Sa & _), (receive_views _ _ _ _ _ Hd8) as (K8 & S8 & R8 & _),
      (send_views _ _ _ _ _ Ho10) as (K10 & R10 & S10 & _), (receive_views _ _ _ _ _ Hd) as (Kb & Sb & Rb & _).
    rewrite Hj in R8. rewrite Hpd in Rb. destruct Hy as [Y1 Y2 Y3 Y4 Y5 Y6 Y7 Y8]. split; cbn; try done.
    + destruct Hxy as [<-|Hne]; [done|]. eapply linked_views; [exact Y1|apply Sa|apply R8|done]; apply not_eq_sym, Hne.
    + destruct Hxy as [<-|Hne]; [done|]. eapply linked_views; [exact Y2|apply S10|apply Rb|done]; apply not_eq_sym, Hne.
    + by eapply linked_views; [exact Y3|..].
    + by eapply linked_views; [exact Y4|..].
    + rewrite (view_sessions (a8_table r)); [done|]. left. apply S8.
    + rewrite (view_sessions (a10_table r)); [done|]. right. apply R10.
Qed.
(** One payload down: from the PDSN over the relay to the access network it last heard. *)
Lemma down_step ta r tb x data from peer :
  routed ta r tb x → in_reach data → a8_peers r !! a8s x = Some peer →
  ∃ ta' tb' o w p t8 t10,
    build_outbound_packet (pdsn x) data tb = (tb', Ok o) ∧
    relay_one_a10_to_a8 a10_endpoint [(wire_bytes o, from)] r =
      Some (mkRelay (rx r) t8 t10 (a8_to_a10 r) (a10_to_a8 r) (a8_peers r), [], [ToAccess w peer], true) ∧
    decode_for_session an_endpoint w ta = Some (ta', Ok p) ∧ in_session_id p = an x ∧ in_payload p = data ∧
    ∀ y, (x = y ∨ (an x ≠ an y ∧ a8s x ≠ a8s y ∧ a10s x ≠ a10s y ∧ pdsn x ≠ pdsn y)) → routed ta r tb y →
      routed ta' (mkRelay (rx r) t8 t10 (a8_to_a10 r) (a10_to_a8 r) (a8_peers r)) tb' y.
Proof using Type.
  intros Hx Hlen Hpeer.
  destruct (hop tb (a10_table r) (pdsn x) (a10s x) data (A10.into_a8_endpoint a10_endpoint) (down10 _ _ _ _ Hx) (at_a10 _ _ _ _ Hx))
    as (tb' & t10 & o & p10 & Ho & Hd10 & Hj & Hp10 & Hl10).
  destruct (hop (a8_table r) ta (a8s x) (an x) data an_endpoint (down8 _ _ _ _ Hx)) as (t8 & ta' & o8 & p & Ho8 & Hd & Hpd & Hpp & Hl8);
    [eapply far_endpoint; [apply (down8 _ _ _ _ Hx)|apply (at_a8 _ _ _ _ Hx)]|].
  destruct (received_again _ _ _ _ _ from [] Ho Hlen) as (w & Hrecv & Hw).
  destruct (a10_receive _ _ _ _ _ Hd10) as (p' & Hp' & Hid & Hpay).
  exists ta', tb', o, (wire_bytes o8), p, t8, t10. split_and!; try done.
  - unfold relay_one_a10_to_a8. rewrite Hrecv. cbn [mbind option_bind].
    assert (A10.decode_for_session a10_endpoint w (a10_table r) = A10.decode_for_session a10_endpoint (wire_bytes o) (a10_table r)) as ->
      by (unfold A10.decode_for_session; by rewrite (decode_for_session_ext _ w (wire_bytes o))).
    rewrite Hp'. cbn. unfold return_a10_packet. cbn. rewrite Hid, Hj, (pair_down _ _ _ _ Hx), Hpay, Hp10, Ho8. cbn. by rewrite Hpeer.
  - intros y Hxy Hy. destruct (send_views _ _ _ _ _ Ho) as (Kb & Rb & Sb & _), (receive_views _ _ _ _ _ Hd10) as (K10 & S10 & R10 & _),
      (send_views _ _ _ _ _ Ho8) as (K8 & R8 & S8 & _), (receive_views _ _ _ _ _ Hd) as (Ka & Sa & Ra & _).
    rewrite Hj in R10. rewrite Hpd in Ra. destruct Hy as [Y1 Y2 Y3 Y4 Y5 Y6 Y7 Y8]. split; cbn; try done.
    + by eapply linked_views; [exact Y1|..].
    + by eapply linked_views; [exact Y2|..].
    + destruct Hxy as [<-|Hne]; [done|]. eapply linked_views; [exact Y3|apply Sb|apply R10|done]; apply not_eq_sym, Hne.
    + destruct Hxy as [<-|Hne]; [done|]. eapply linked_views; [exact Y4|apply S8|apply Ra|done]; apply not_eq_sym, Hne.
    + rewrite (view_sessions (a8_table r)); [done|]. right. apply R8.
    + rewrite (view_sessions (a10_table r)); [done|]. left. apply S10.
Qed.

(** Traffic of both directions, one payload after another: [Up] comes from the access network at the address [from]. *)
Inductive Traffic := Up (x : Route) (data : list Z) (from : SocketAddr) | Down (x : Route) (data : list Z) (from : SocketAddr).
Abbreviation Ends := (BearerTable * Relay * BearerTable)%type.
(** Where a payload arrives, the payload, and for the way down the address it is sent to. *)
Abbreviation Delivery := (Z * list Z * option SocketAddr)%type.
Definition delivery (r : result Error InboundPacket) (peer : option SocketAddr) : option Delivery :=
  match r with Ok p => Some (in_session_id p, in_payload p, peer) | Err _ => None end.
Definition carry_one (m : Traffic) (s : Ends) : rust (Ends * option Delivery) :=
  let '(ta, r, tb) := s in
  match m with
  | Up x data from =>
      match build_outbound_packet (an x) data ta with
      | (ta, Err _) => Some (ta, r, tb, None)
      | (ta, Ok o) =>
          '(r, _, sent, _) ← relay_one_a8_to_a10 a8_endpoint [(wire_bytes o, from)] r;
          match sent with
          | [ToPdsn w] => '(tb, p) ← decode_for_session pdsn_endpoint w tb; Some (ta, r, tb, delivery p None)
          | _ => Some (ta, r, tb, None)
          end
      end
  | Down x data from =>
      match build_outbound_packet (pdsn x) data tb with
      | (tb, Err _) => Some (ta, r, tb, None)
      | (tb, Ok o) =>
          '(r, _, sent, _) ← relay_one_a10_to_a8 a10_endpoint [(wire_bytes o, from)] r;
          match sent with
          | [ToAccess w peer] => '(ta, p) ← decode_for_session an_endpoint w ta; Some (ta, r, tb, delivery p (Some peer))
          | _ => Some (ta, r, tb, None)
          end
      end
  end.
Fixpoint carry_all (ms : list Traffic) (s : Ends) : rust (Ends * list (option Delivery)) :=
  match ms with
  | [] => Some (s, [])
  | m :: ms => '(s, d) ← carry_one m s; '(s, ds) ← carry_all ms s; Some (s, d :: ds)
  end.
(** What must arrive: every payload at the end of its route, the ones down at the address last heard on it. *)
Fixpoint expected (peers : gmap Z SocketAddr) (ms : list Traffic) : list Delivery :=
  match ms with
  | [] => []
  | Up x data from :: ms => (pdsn x, data, None) :: expected (<[a8s x := from]> peers) ms
  | Down x data _ :: ms => (an x, data, peers !! a8s x) :: expected peers ms
  end.
Definition traffic_ok (routes : list Route) (m : Traffic) : Prop :=
  match m with Up x data _ | Down x data _ => x ∈ routes ∧ in_reach data end.

(** C11: The PCF carries user data both ways: when every route's sessions are linked at both hops and registered with the
    relay, any interleaving of payloads of up to 8180 octets in both directions, on any of the routes, is delivered
    payload by payload and in order to the session at the far end of its route and to no other; a payload toward the
    access network is sent to the address its session was last heard from; nothing panics and the routes stay usable. *)
Theorem pcf_relay_delivers routes ms ta r tb :
  disjoint_routes routes → (∀ x, x ∈ routes → routed ta r tb x ∧ is_Some (a8_peers r !! a8s x)) → Forall (traffic_ok routes) ms →
  ∃ ta' r' tb', carry_all ms (ta, r, tb) = Some ((ta', r', tb'), Some <$> expected (a8_peers r) ms) ∧
    ∀ x, x ∈ routes → routed ta' r' tb' x ∧ is_Some (a8_peers r' !! a8s x).
Proof.
  intros Hdis. revert ta r tb. induction ms as [|m ms IH]; intros ta r tb Hall Hms; [cbn; eauto|]. apply Forall_cons in Hms as [Hm Hms].
  destruct m as [x data from|x data from]; destruct Hm as [Hx Hlen]; destruct (Hall x Hx) as [Hr Hp].
  - destruct (up_step ta r tb x data from Hr Hlen) as (ta1 & tb1 & o & w & p & t8 & t10 & Ho & Hone & Hd & Hid & Hpay & Hnext).
    destruct (IH ta1 (mkRelay (rx r) t8 t10 (a8_to_a10 r) (a10_to_a8 r) (<[a8s x := from]> (a8_peers r))) tb1) as (ta2 & r2 & tb2 & Hc & Hend); [|done|].
    { intros y Hy. destruct (Hall y Hy) as [Hry Hpy]. split; [apply Hnext; [by apply Hdis|done]|]. cbn. rewrite lookup_insert_is_Some'. tauto. }
    exists ta2, r2, tb2. split; [|done]. cbn [carry_all carry_one expected fmap list_fmap]. rewrite Ho, Hone. cbn [mbind option_bind].
    rewrite Hd. cbn [mbind option_bind delivery]. rewrite Hid, Hpay. cbn [a8_peers] in Hc. by rewrite Hc.
  - destruct Hp as [peer Hpeer]. destruct (down_step ta r tb x data from peer Hr Hlen Hpeer)
      as (ta1 & tb1 & o & w & p & t8 & t10 & Ho & Hone & Hd & Hid & Hpay & Hnext).
    destruct (IH ta1 (mkRelay (rx r) t8 t10 (a8_to_a10 r) (a10_to_a8 r) (a8_peers r)) tb1) as (ta2 & r2 & tb2 & Hc & Hend); [|done|].
    { intros y Hy. destruct (Hall y Hy) as [Hry Hpy]. split; [apply Hnext; [by apply Hdis|done]|done]. }
    exists ta2, r2, tb2. split; [|done]. cbn [carry_all carry_one expected fmap list_fmap]. rewrite Ho, Hone. cbn [mbind option_bind].
    rewrite Hd. cbn [mbind option_bind delivery]. rewrite Hid, Hpay, Hpeer. cbn [a8_peers] in Hc. by rewrite Hc.
Qed.
End routes.

(** ** The task never stops *)
Record relay_inv (r : Relay) : Prop := {
  inv_a8 : table_inv (a8_table r); inv_a10 : table_inv (a10_table r); inv_v4 : A10.v4_table (a10_table r)
}.
Lemma a10_apply_table s t : (A10.apply_session s t).1 = (apply_session (A10.into_a8_session s) t).1.
Proof. unfold A10.apply_session. by destruct (apply_session _ _). Qed.
Lemma a10_remove_table i t : (A10.remove_session_if_present i t).1 = (remove_session_if_present i t).1.
Proof. unfold A10.remove_session_if_present. by destruct (remove_session_if_present _ _). Qed.
Lemma remove_if_present_v4 i t : A10.v4_table t → A10.v4_table (remove_session_if_present i t).1.
Proof.
  intros Ht. unfold remove_session_if_present. destruct (sessions t !! i); [|done]. unfold A10.v4_table. cbn. by apply map_Forall_delete.
Qed.
Lemma command_inv c r : relay_inv r → relay_inv (apply_hrpd_pcf_bearer_command c r).
Proof.
  intros [H1 H2 H3]. destruct c as [a8 a10 peer|a8_id a10_id]; cbn [apply_hrpd_pcf_bearer_command].
  - pose proof (apply_inv a8 (a8_table r) H1) as Ha. destruct (apply_session a8 (a8_table r)) as [t8 [o|]]; [|by split]. cbn in Ha |- *.
    pose proof (apply_inv (A10.into_a8_session a10) (a10_table r) H2) as Hb. rewrite <- a10_apply_table in Hb.
    destruct (A10.apply_v4 (A10.into_a8_session a10) (a10_table r) H3 (A10.v4_into _)) as [Hv _]. rewrite <- a10_apply_table in Hv.
    destruct (A10.apply_session a10 (a10_table r)) as [t10 [o'|]]; by split.
  - set (j := match a10_id with Some i => Some i | None => _ end). destruct j as [i|]; split; cbn.
    all: rewrite ?a10_remove_table; first [by apply remove_inv | by apply remove_if_present_v4 | done].
Qed.
Lemma drain_inv r : relay_inv r → relay_inv (drain_hrpd_pcf_bearer_commands r).1.
Proof.
  unfold drain_hrpd_pcf_bearer_commands. cbn. intros Hr. assert (relay_inv (set_rx [] r)) as H by (destruct Hr; by split).
  clear Hr. revert H. generalize (set_rx [] r). induction (rx r) as [|c q IH]; intros r0 H; [done|]. cbn. by apply IH, command_inv.
Qed.
Lemma recv_returns socket : ∃ rest x, recv_udp_gre_packet socket = Some (rest, x) ∧ (x = None → length rest = pred (length socket)) ∧
  (is_Some x → S (length rest) = length socket).
Proof.
  destruct socket as [|[d from] socket]; [by do 2 eexists|]. unfold recv_udp_gre_packet.
  pose proof (gre_decode_total (take BUFFER_LEN d)) as Hd. destruct (decode _) as [p|]; [|done]. cbn. do 2 eexists. done.
Qed.
(** One datagram: it is read, at most one is sent, the tables keep their invariants. *)
Definition step_ok (one : Socket → Relay → rust (Relay * Socket * list Sent * bool)) : Prop :=
  ∀ socket r, relay_inv r → ∃ r' socket' sent more, one socket r = Some (r', socket', sent, more) ∧ relay_inv r' ∧
    (length sent ≤ 1)%nat ∧ (if more then S (length socket') = length socket else sent = [] ∧ length socket' = pred (length socket)).
Lemma a8_receive_returns e w t : table_inv t → ∃ t' x, decode_for_session e w t = Some (t', x) ∧ table_inv t'.
Proof. intros Ht. destruct (decode_for_session_cases e w t) as (t' & x & H & _). exists t', x. split; [done|]. by eapply receive_inv. Qed.
Lemma a10_receive_returns e w t :
  table_inv t → A10.v4_table t → ∃ t' x, A10.decode_for_session e w t = Some (t', x) ∧ table_inv t' ∧ A10.v4_table t'.
Proof.
  intros Ht Hv. destruct (A10.receive_v4 (A10.into_a8_endpoint e) w t Hv (A10.v4_into _)) as (t' & x & H & Hv' & _).
  unfold A10.decode_for_session. rewrite H. cbn. do 2 eexists. split_and!; [done|by eapply receive_inv|done].
Qed.
Lemma a10_send_table k data t : (A10.build_outbound_packet k data t).1 = (build_outbound_packet k data t).1.
Proof. unfold A10.build_outbound_packet. by destruct (build_outbound_packet _ _ _). Qed.
Lemma up_ok e : step_ok (relay_one_a8_to_a10 e).
Proof.
  intros socket r [H1 H2 H3]. unfold relay_one_a8_to_a10. destruct (recv_returns socket) as (rest & x & -> & Hn & Hs). cbn [mbind option_bind].
  destruct x as [[w from]|]; [|do 4 eexists; split; [done|]; split_and!; try done; [cbn; lia|auto]]. specialize (Hs ltac:(eauto)).
  destruct (a8_receive_returns e w (a8_table r) H1) as (t8 & y & -> & H8). cbn [mbind option_bind].
  destruct y as [p|]; [|do 4 eexists; split; [done|]; split_and!; [by split|cbn; lia|done]]. cbn [a8_to_a10 set_maps set_a8_table].
  destruct (a8_to_a10 r !! in_session_id p) as [k|]; [|do 4 eexists; split; [done|]; split_and!; [by split|cbn; lia|done]].
  pose proof (send_inv k (in_payload p) (a10_table r) H2) as Hb. destruct (A10.send_v4 k (in_payload p) (a10_table r) H3) as [Hv _].
  rewrite <- a10_send_table in Hb, Hv. cbn [a10_table set_maps set_a8_table].
  destruct (A10.build_outbound_packet k (in_payload p) (a10_table r)) as [t10 [o|]]; (do 4 eexists; split; [done|]; split_and!; [by split|cbn; lia|done]).
Qed.
Lemma return_inv p r : relay_inv r → relay_inv (return_a10_packet p r).1 ∧ (length (return_a10_packet p r).2 ≤ 1)%nat.
Proof.
  intros [H1 H2 H3]. unfold return_a10_packet. destruct (a10_to_a8 r !! _) as [j|]; [|split; [by split|cbn; lia]].
  pose proof (send_inv j (A10.in_payload p) (a8_table r) H1) as Ha.
  destruct (build_outbound_packet j (A10.in_payload p) (a8_table r)) as [t8 [o|]]; [|split; [by split|cbn; lia]].
  cbn [a8_peers set_a8_table]. destruct (a8_peers r !! j); (split; [by split|cbn; lia]).
Qed.
Lemma down_ok e : step_ok (relay_one_a10_to_a8 e).
Proof.
  intros socket r [H1 H2 H3]. unfold relay_one_a10_to_a8. destruct (recv_returns socket) as (rest & x & -> & Hn & Hs). cbn [mbind option_bind].
  destruct x as [[w from]|]; [|do 4 eexists; split; [done|]; split_and!; try done; [cbn; lia|auto]]. specialize (Hs ltac:(eauto)).
  destruct (a10_receive_returns e w (a10_table r) H2 H3) as (t10 & y & -> & H10 & Hv). cbn [mbind option_bind].
  assert (relay_inv (set_a10_table t10 r)) as Hr by (by split).
  destruct y as [p|].
  - pose proof (return_inv p _ Hr) as [Hp Hl]. destruct (return_a10_packet p (set_a10_table t10 r)) as [r' sent]. by do 4 eexists.
  - pose proof (drain_inv _ Hr) as Hd. destruct (drain_hrpd_pcf_bearer_commands (set_a10_table t10 r)) as [r' n]. cbn in Hd.
    destruct (decide _); [do 4 eexists; split; [done|]; split_and!; [done|cbn; lia|done]|]. destruct Hd as [D1 D2 D3].
    destruct (a10_receive_returns e w (a10_table r') D2 D3) as (t11 & z & -> & H11 & Hv'). cbn [mbind option_bind].
    assert (relay_inv (set_a10_table t11 r')) as Hr' by (by split). destruct z as [p|].
    + pose proof (return_inv p _ Hr') as [Hp Hl]. destruct (return_a10_packet p (set_a10_table t11 r')) as [r'' sent]. by do 4 eexists.
    + do 4 eexists. split; [done|]. split_and!; [done|cbn; lia|done].
Qed.
Lemma many_ok one n socket r :
  step_ok one → relay_inv r → ∃ r' socket' sent more, relay_many one n socket r = Some (r', socket', sent, more) ∧ relay_inv r' ∧
    (length sent + length socket' ≤ length socket ∧ length socket ≤ length socket' + n)%nat.
Proof.
  intros Hone. revert socket r. induction n as [|n IH]; intros socket r Hr; cbn [relay_many]; [do 4 eexists; split; [done|]; split; [done|cbn; lia]|].
  destruct (Hone socket r Hr) as (r1 & s1 & sent1 & more & -> & Hr1 & Hl & Hm). cbn [mbind option_bind]. destruct more; cbn [negb].
  - destruct (IH s1 r1 Hr1) as (r2 & s2 & sent2 & more & -> & Hr2 & Hl2). cbn. do 4 eexists. split; [done|]. split; [done|].
    rewrite length_app. lia.
  - destruct Hm as [-> Hs]. do 4 eexists. split; [done|]. split; [done|]. cbn. lia.
Qed.

(** What happens before a turn: commands and datagrams arrive. *)
Record Arrival := mkArrival { new_commands : list HrpdPcfBearerCommand; new_a8 : Socket; new_a10 : Socket }.
Fixpoint relay_run (a8e : BearerEndpoint) (a10e : A10.BearerEndpoint) (turns : list Arrival) (q8 q10 : Socket) (r : Relay)
    : rust (Relay * Socket * Socket * list Sent) :=
  match turns with
  | [] => Some (r, q8, q10, [])
  | a :: turns =>
      '(r, q8, q10, sent, _) ← relay_pass a8e a10e (q8 ++ new_a8 a) (q10 ++ new_a10 a) (set_rx (rx r ++ new_commands a) r);
      '(r, q8, q10, sent') ← relay_run a8e a10e turns q8 q10 r;
      Some (r, q8, q10, sent ++ sent')
  end.
Definition arrived (turns : list Arrival) : nat := sum_list_with (λ a, length (new_a8 a) + length (new_a10 a))%nat turns.

(** The relay never stops and never multiplies: whatever commands and octets arrive on its channel and sockets, every
    turn of its loop returns, reads at most 64 datagrams of each socket, sends at most one packet for every datagram
    read, and leaves both bearer tables with their invariants. *)
Theorem pcf_relay_total a8e a10e turns :
  ∃ r q8 q10 sent, relay_run a8e a10e turns [] [] new_relay = Some (r, q8, q10, sent) ∧ relay_inv r ∧
    (length sent + length q8 + length q10 ≤ arrived turns)%nat ∧
    (arrived turns ≤ length q8 + length q10 + 2 * A10_BEARER_MAX_DATAGRAMS_PER_PASS * length turns)%nat.
Proof.
  assert (relay_inv new_relay) as H by (split; [apply default_inv..|apply map_Forall_empty]).
  cut (∀ q8 q10 r, relay_inv r → ∃ r' q8' q10' sent, relay_run a8e a10e turns q8 q10 r = Some (r', q8', q10', sent) ∧ relay_inv r' ∧
    (length sent + length q8' + length q10' ≤ length q8 + length q10 + arrived turns)%nat ∧
    (length q8 + length q10 + arrived turns ≤ length q8' + length q10' + 2 * A10_BEARER_MAX_DATAGRAMS_PER_PASS * length turns)%nat).
  { intros Hcut. exact (Hcut [] [] new_relay H). }
  clear H. induction turns as [|a turns IH]; intros q8 q10 r Hr; cbn [relay_run arrived sum_list_with]; [do 4 eexists; split; [done|]; split; [done|cbn; lia]|].
  unfold relay_pass. assert (relay_inv (set_rx (rx r ++ new_commands a) r)) as H0 by (destruct Hr; by split).
  pose proof (drain_inv _ H0) as Hd. destruct (drain_hrpd_pcf_bearer_commands _) as [r1 n1]. cbn in Hd.
  destruct (many_ok _ A10_BEARER_MAX_DATAGRAMS_PER_PASS (q8 ++ new_a8 a) r1 (up_ok a8e) Hd) as (r2 & q8' & sent & act & -> & Hr2 & L1).
  cbn [mbind option_bind]. pose proof (drain_inv _ Hr2) as Hd2. destruct (drain_hrpd_pcf_bearer_commands r2) as [r3 n3]. cbn in Hd2.
  destruct (many_ok _ A10_BEARER_MAX_DATAGRAMS_PER_PASS (q10 ++ new_a10 a) r3 (down_ok a10e) Hd2) as (r4 & q10' & sent' & act' & -> & Hr4 & L2).
  cbn [mbind option_bind]. destruct (IH q8' q10' r4 Hr4) as (r5 & q8'' & q10'' & sent'' & -> & Hr5 & L3). cbn [mbind option_bind].
  do 4 eexists. split; [done|]. split; [done|]. rewrite !length_app in *. unfold arrived in *. cbn [length] in *. lia.
Qed.

(** ** An example: two mobiles, registered over the command channel *)
Section relay_witness.
Let a8e : BearerEndpoint := endpoint_v4 [10; 0; 0; 2] [10; 0; 0; 1].
Let a10e : A10.BearerEndpoint := A10.mkEndpoint [10; 1; 0; 1] [10; 1; 0; 2].
Let home : SocketAddr := mkAddr (V4 [10; 0; 0; 1]) 699.
Let moved : SocketAddr := mkAddr (V4 [10; 0; 0; 9]) 4000.
Definition ex_an : BearerTable :=
  (apply_session (new_session 2 (flip_endpoint a8e)) (apply_session (new_session 1 (flip_endpoint a8e)) BearerTable_default).1).1.
Definition ex_pdsn_side : BearerTable :=
  (apply_session (new_session 22 (flip_endpoint (A10.into_a8_endpoint a10e)))
     (apply_session (new_session 21 (flip_endpoint (A10.into_a8_endpoint a10e))) BearerTable_default).1).1.
Definition ex_relay : Relay :=
  (drain_hrpd_pcf_bearer_commands
     (set_rx [Register (new_session 1 a8e) (A10.new_session 21 a10e) home; Register (new_session 2 a8e) (A10.new_session 22 a10e) home]
        new_relay)).1.
Definition ex_routes : list Route := [mkRoute 1 1 21 21; mkRoute 2 2 22 22].
Lemma ex_routed x : x ∈ ex_routes → routed a8e a10e ex_an ex_relay ex_pdsn_side x ∧ is_Some (a8_peers ex_relay !! a8s x).
Proof using Type.
  intros [->|[->|[]%elem_of_nil]%elem_of_cons]%elem_of_cons; (split; [|vm_compute; eauto]).
  all: split; [| | | |vm_compute; reflexivity..].
  all: do 2 eexists; split_and!; [vm_compute; reflexivity..|].
  all: vm_compute; intros _; split; [split; congruence|exact I].
Qed.
Lemma pcf_relay_delivers_witness :
  let traffic := [Up (mkRoute 1 1 21 21) [1; 2; 3] moved; Down (mkRoute 2 2 22 22) [9] home; Down (mkRoute 1 1 21 21) [7; 7] home] in
  ∃ s, carry_all a8e a10e traffic (ex_an, ex_relay, ex_pdsn_side) =
    Some (s, [Some (21, [1; 2; 3], None); Some (2, [9], Some home); Some (1, [7; 7], Some moved)]).
Proof using Type.
  intros traffic. destruct (pcf_relay_delivers a8e a10e ex_routes traffic ex_an ex_relay ex_pdsn_side) as (ta & r & tb & H & _).
  - intros x y [->|[->|[]%elem_of_nil]%elem_of_cons]%elem_of_cons [->|[->|[]%elem_of_nil]%elem_of_cons]%elem_of_cons;
      first [left; reflexivity | right; cbn; lia].
  - exact ex_routed.
  - unfold traffic. rewrite !Forall_cons, Forall_nil. unfold traffic_ok, in_reach, BUFFER_LEN, ex_routes. cbn [length].
    rewrite !elem_of_cons. split_and!; try (exact I); try lia; auto.
  - exists (ta, r, tb). rewrite H. reflexivity.
Defined.
End relay_witness.
