(* ===== verification/LongCode.v ===== *)
(** * The long code ([cdma-common/src/phy/long_code.rs], [long_code_privacy.rs])

    The 42-stage register every CDMA2000 channel is scrambled with, the masks that select a
    channel's phase of it, and the switch of a traffic channel between its public and its
    private mask.  A [u64] is a [Z].  Generators share a [LongCodePrivacy] through an [Arc]: a
    generator holds a key, and the operations that look through it take the store. *)
From S2P Require Import Prelude.

Module LongCode.

(** ** Privacy transitions *)
Definition SR1_CHIPS_PER_FRAME : Z := 24576.
Definition PRIVACY_ACTION_CHIPS : Z := SR1_CHIPS_PER_FRAME * 4.
Definition PRIVACY_ACTION_MODULUS : Z := 64.
Definition PRIVACY_FRAME_CHIPS : Z := SR1_CHIPS_PER_FRAME.

Record LongCodeTransition := mkTransition { action_chip : Z; private : bool }.
(** The two masks, and what the mutex guards. *)
Record LongCodePrivacy := mkPrivacy {
  public_mask : Z; private_mask : Z;
  pending : option LongCodeTransition; accepted : list LongCodeTransition
}.

Definition new_privacy (public private : Z) : LongCodePrivacy := mkPrivacy public private None [].

Definition request (p : LongCodePrivacy) (t : LongCodeTransition) : LongCodePrivacy * bool :=
  if (match pending p with Some _ => true | None => false end)
     || (match last (accepted p) with Some l => action_chip t <=? action_chip l | None => false end)
  then (p, false)
  else (mkPrivacy (public_mask p) (private_mask p) (Some t) (accepted p), true).

Definition cancel_pending (p : LongCodePrivacy) : LongCodePrivacy :=
  mkPrivacy (public_mask p) (private_mask p) None (accepted p).

Definition respond (p : LongCodePrivacy) (private_ : bool) (received_chip : Z) : LongCodePrivacy * bool :=
  match pending p with
  | None => (p, false)
  | Some t =>
      let p := cancel_pending p in
      if negb (eqb (private t) private_) || (action_chip t <=? received_chip) then (p, false)
      else (mkPrivacy (public_mask p) (private_mask p) None (accepted p ++ [t]), true)
  end.

(** [.iter().rev().find(..)] *)
Definition in_force (l : list LongCodeTransition) (chip : Z) : option LongCodeTransition :=
  List.find (λ t, action_chip t <=? chip) (reverse l).
Definition is_private_at (p : LongCodePrivacy) (chip : Z) : bool :=
  match in_force (accepted p) chip with Some t => private t | None => false end.

Inductive PrivacyStatus := StatusPending | StatusPrivate | StatusPublic.
Definition status_at (p : LongCodePrivacy) (chip : Z) : PrivacyStatus :=
  if (match pending p with Some t => chip <? action_chip t | None => false end)
     || (match last (accepted p) with Some t => chip <? action_chip t | None => false end)
  then StatusPending
  else if is_private_at p chip then StatusPrivate else StatusPublic.

Definition mask_at (p : LongCodePrivacy) (chip : Z) : Z :=
  if is_private_at p chip then private_mask p else public_mask p.

Definition resolve_privacy_action_chip (action_time now_chip : Z) : Z :=
  let current := now_chip / PRIVACY_ACTION_CHIPS in
  let action := current / PRIVACY_ACTION_MODULUS * PRIVACY_ACTION_MODULUS + action_time in
  let action := if action <=? current then action + PRIVACY_ACTION_MODULUS else action in
  wrap 64 (action * PRIVACY_ACTION_CHIPS).

(** ** The register *)
Definition MASK42 : Z := 0x3FFFFFFFFFF.
Definition taps : list Z := [1; 2; 3; 5; 6; 7; 10; 16; 17; 18; 19; 21; 22; 25; 26; 27; 31; 33; 35].

(** [1 << bit] accumulated with [|]. *)
Definition or_bits (bits : list Z) (row : Z) : Z := foldl (λ r bit, Z.lor r (Z.shiftl 1 bit)) row bits.

Definition advance_state (state : Z) : Z :=
  let feedback := Z.land (Z.shiftr state 41) 1 in
  let state := Z.land (Z.lor (wrap 64 (Z.shiftl state 1)) feedback) MASK42 in
  if feedback =? 1 then Z.lxor state (or_bits taps 0) else state.

(** The transition matrix, a row for each state bit. *)
Abbreviation Matrix := (list Z).
Definition get_t_matrix : Matrix :=
  (λ i : nat,
     let row := if (i <? 41)%nat then Z.shiftl 1 (Z.of_nat i + 1) else 0 in
     if (i =? 41)%nat then or_bits taps (Z.lor row 1) else row) <$> seq 0 42.

(** The xor of the rows whose bit is set in [v]. *)
Definition xor_rows (v : Z) (matrix : Matrix) : Z :=
  foldl (λ acc i, if Z.land (Z.shiftr v (Z.of_nat i)) 1 =? 1 then Z.lxor acc (matrix !!! i) else acc) 0 (seq 0 42).
Definition apply_matrix (matrix : Matrix) (state : Z) : Z := xor_rows state matrix.
Definition multiply_matrices (a b : Matrix) : Matrix := (λ i, xor_rows (a !!! i) b) <$> seq 0 42.

Fixpoint matrix_powers (n : nat) (m : Matrix) : list Matrix :=
  match n with O => [] | S n => m :: matrix_powers n (multiply_matrices m m) end.
Definition T_MATRIX_POWERS : list Matrix := Eval vm_compute in matrix_powers 64 get_t_matrix.

(** ** The generator *)
Record LongCodeGenerator := mkGenerator {
  state : Z; mask : Z; chip_position : Z; privacy : option N
}.
Abbreviation Arcs := (gmap N LongCodePrivacy).

Definition new (mask : Z) : LongCodeGenerator := mkGenerator (Z.shiftl 1 41) mask 0 None.
Definition set_state (g : LongCodeGenerator) (s : Z) : LongCodeGenerator :=
  mkGenerator s (mask g) (chip_position g) (privacy g).
Definition set_mask (g : LongCodeGenerator) (m : Z) : LongCodeGenerator :=
  mkGenerator (state g) m (chip_position g) (privacy g).

Definition shared (st : Arcs) (g : LongCodeGenerator) : option LongCodePrivacy := a ← privacy g; st !! a.
Definition refresh_privacy_mask (st : Arcs) (g : LongCodeGenerator) : LongCodeGenerator :=
  match shared st g with Some p => set_mask g (mask_at p (chip_position g)) | None => g end.
Definition with_privacy (st : Arcs) (g : LongCodeGenerator) (a : option N) : LongCodeGenerator :=
  refresh_privacy_mask st (mkGenerator (state g) (mask g) (chip_position g) a).

Definition count_ones (w : Z) : Z := foldr (λ i n, Z.b2z (Z.testbit w (Z.of_nat i)) + n) 0 (seq 0 64).
Definition peek_output (g : LongCodeGenerator) : Z := Z.land (count_ones (Z.land (state g) (mask g))) 1.

Definition next_chip (st : Arcs) (g : LongCodeGenerator) : LongCodeGenerator * Z :=
  let g := match privacy g with
           | Some _ => if chip_position g mod PRIVACY_FRAME_CHIPS =? 0 then refresh_privacy_mask st g else g
           | None => g
           end in
  let chip := peek_output g in
  (mkGenerator (advance_state (state g)) (mask g) (wrap 64 (chip_position g + 1)) (privacy g), chip).

(** The loop over the binary digits of [delta]; a [u64] has 64 of them. *)
Fixpoint jump (fuel : nat) (delta : Z) (power_idx : nat) (s : Z) : Z :=
  match fuel with
  | O => s
  | S fuel =>
      if 0 <? delta then
        let s := if Z.land delta 1 =? 1 then apply_matrix (T_MATRIX_POWERS !!! power_idx) s else s in
        jump fuel (Z.shiftr delta 1) (S power_idx) s
      else s
  end.

Definition advance_chips (st : Arcs) (g : LongCodeGenerator) (num_chips : Z) : LongCodeGenerator :=
  let g := mkGenerator (state g) (mask g) (Z.min (chip_position g + num_chips) (2 ^ 64 - 1)) (privacy g) in
  let g := refresh_privacy_mask st g in
  if 64 <=? num_chips then set_state g (jump 64 num_chips 0 (state g))
  else set_state g (Nat.iter (Z.to_nat num_chips) advance_state (state g)).

Fixpoint generate_sequence (st : Arcs) (g : LongCodeGenerator) (num_chips : nat) : LongCodeGenerator * list Z :=
  match num_chips with
  | O => (g, [])
  | S n =>
      let '(g, chip) := next_chip st g in
      let '(g, chips) := generate_sequence st g n in (g, chip :: chips)
  end.

(** ** Masks *)
Definition lor4 (a b c d : Z) : Z := Z.lor (Z.lor (Z.lor a b) c) d.
Definition new_access_channel (acn pcn base_id pilot_pn : Z) : LongCodeGenerator :=
  new (Z.lor (lor4 (Z.shiftl 399 33) (Z.shiftl (Z.land acn 0x1f) 28) (Z.shiftl (Z.land pcn 0x7) 25)
                   (Z.shiftl (Z.land base_id 0xffff) 9)) (Z.land pilot_pn 0x1ff)).
Definition new_access_channel_with_state (acn pcn base_id pilot_pn s : Z) : LongCodeGenerator :=
  set_state (new_access_channel acn pcn base_id pilot_pn) s.
Definition new_paging_channel (pcn pilot_pn : Z) : LongCodeGenerator :=
  new (Z.lor (Z.lor (Z.shiftl 6349 29) (Z.shiftl (Z.land pcn 0x7) 21)) (Z.land pilot_pn 0x1FF)).
Definition new_paging_channel_with_state (pcn pilot_pn s : Z) : LongCodeGenerator :=
  set_state (new_paging_channel pcn pilot_pn) s.

Definition PERM : list Z :=
  [9; 18; 27; 5; 14; 23; 1; 10; 19; 28; 6; 15; 24; 2; 11; 20;
   29; 7; 16; 25; 3; 12; 21; 30; 8; 17; 26; 4; 13; 22; 31; 0].
Definition permute_esn (esn : Z) : Z :=
  foldl (λ result out_bit,
    if Z.land (Z.shiftr esn (PERM !!! out_bit)) 1 =? 1 then Z.lor result (Z.shiftl 1 (Z.of_nat out_bit)) else result)
    0 (seq 0 32).

Definition new_traffic_channel (esn : Z) : LongCodeGenerator := new (Z.lor 0x31800000000 (permute_esn esn)).
Definition new_traffic_channel_with_state (esn s : Z) : LongCodeGenerator := set_state (new_traffic_channel esn) s.
Definition new_traffic_channel_raw_mask (m : Z) : LongCodeGenerator := new (Z.land m 0x3FFFFFFFFFF).
Definition new_traffic_channel_imsi_s (imsi_s : Z) : LongCodeGenerator := new (Z.lor 0x30100000000 (Z.land imsi_s 0xFFFFFFFF)).
Definition new_traffic_channel_imsi_s_34bit (imsi_s : Z) : LongCodeGenerator := new (Z.lor 0x30400000000 (Z.land imsi_s 0x3FFFFFFFF)).

(** ** The register at another time ([cdma-ms/src/lib/tx/modulation.rs]) *)
Definition LONG_CODE_PERIOD_CHIPS : Z := 2 ^ 42 - 1.
Definition lc_state_at (s state_chip chip : Z) : Z :=
  let delta := (chip mod LONG_CODE_PERIOD_CHIPS + LONG_CODE_PERIOD_CHIPS
                - state_chip mod LONG_CODE_PERIOD_CHIPS) mod LONG_CODE_PERIOD_CHIPS in
  state (advance_chips ∅ (set_state (new 0) s) delta).
Definition default_lc_state_at (chip : Z) : Z := lc_state_at (Z.shiftl 1 41) 0 chip.

End LongCode.
