(* ===== verification/LongCodeProofs.v ===== *)
(** * The long code: jumps, period, masks and privacy

    The register is linear over the field of two elements; everything about its jumps follows from
    that and from computations on the 42 unit states. *)
From S2P Require Import Prelude LongCode.
From Stdlib Require Import Zdivisibility Sorting.Sorted.
Import LongCode.

Abbreviation N42 := (2 ^ 42 - 1).
(** [k] chips later, one at a time. *)
Definition steps (k : nat) (s : Z) : Z := Nat.iter k advance_state s.
#[local] Arguments steps : simpl never.

(** ** Linear maps on states *)
Definition linear (f : Z → Z) : Prop := ∀ a b, f (Z.lxor a b) = Z.lxor (f a) (f b).

Lemma linear_0 f : linear f → f 0 = 0.
Proof. intros H. specialize (H 0 0). rewrite Z.lxor_0_l in H. rewrite H at 1. apply Z.lxor_nilpotent. Qed.

Lemma linear_compose f g : linear f → linear g → linear (λ s, f (g s)).
Proof. intros Hf Hg a b. by rewrite Hg, Hf. Qed.

Lemma linear_iter f n : linear f → linear (Nat.iter n f).
Proof. intros Hf. induction n as [|n IH]; [done|]. intros a b. simpl. by rewrite IH, Hf. Qed.

Lemma bit_test s i : 0 ≤ i → (Z.land (Z.shiftr s i) 1 =? 1) = Z.testbit s i.
Proof.
  intros. rewrite land_1, <- Z.bit0_mod, Z.shiftr_spec by lia. rewrite Z.add_0_l.
  by destruct (Z.testbit s i).
Qed.

(** The bits of [s] below [n], as a sum of unit states. *)
Definition units (n : nat) (s : Z) : Z := 
  foldl (λ acc i, if Z.testbit s (Z.of_nat i) then Z.lxor acc (2 ^ Z.of_nat i) else acc) 0 (seq 0 n).

Lemma units_land n s : units n s = Z.land s (Z.ones (Z.of_nat n)).
Proof.
  induction n as [|n IH]; [unfold units; simpl; by rewrite Z.land_0_r|].
  unfold units in *. rewrite seq_S, foldl_app. simpl. rewrite IH.
  apply Z.bits_inj'. intros i Hi.
  rewrite Z.land_spec, Z.testbit_ones_nonneg by lia.
  destruct (Z.testbit s (Z.of_nat n)) eqn:E.
  - rewrite Z.lxor_spec, Z.land_spec, Z.testbit_ones_nonneg, Z.pow2_bits_eqb by lia.
    destruct (Z.eqb_spec (Z.of_nat n) i); subst.
    + rewrite E. repeat case_bool_decide; repeat (case (Z.ltb_spec)); simpl; lia || done.
    + rewrite xorb_false_r. do 2 case Z.ltb_spec; intros; rewrite ?andb_true_r, ?andb_false_r; lia || done.
  - rewrite Z.land_spec, Z.testbit_ones_nonneg by lia.
    destruct (decide (i = Z.of_nat n)); subst.
    + by rewrite E.
    + do 2 case Z.ltb_spec; intros; rewrite ?andb_true_r, ?andb_false_r; lia || done.
Qed.

(** A linear map is determined by what it does to unit states. *)
Lemma linear_ext n f g s :
  linear f → linear g → (∀ i, (i < n)%nat → f (2 ^ Z.of_nat i) = g (2 ^ Z.of_nat i)) →
  is_u (Z.of_nat n) s → f s = g s.
Proof.
  intros Hf Hg H Hs. assert (units n s = s) as <-.
  { rewrite units_land, Z.land_ones by lia. by apply Z.mod_small. }
  clear Hs. unfold units.
  assert (∀ m acc, (m ≤ n)%nat → f acc = g acc → 
     f (foldl (λ acc i, if Z.testbit s (Z.of_nat i) then Z.lxor acc (2 ^ Z.of_nat i) else acc) acc (seq 0 m)) =
     g (foldl (λ acc i, if Z.testbit s (Z.of_nat i) then Z.lxor acc (2 ^ Z.of_nat i) else acc) acc (seq 0 m))) as Hm.
  { induction m as [|m IH]; intros acc Hm Ha; [done|]. rewrite seq_S, foldl_app. simpl.
    specialize (IH acc ltac:(lia) Ha). case (Z.testbit s (Z.of_nat m)); [|done].
    by rewrite Hf, Hg, IH, H by lia. }
  apply Hm; [done|]. by rewrite !linear_0.
Qed.

(** ** The matrices *)
(** The xor of the first [n] rows that [v] selects. *)
Definition rows (n : nat) (v : Z) (m : Matrix) : Z :=
  foldl (λ acc i, if Z.testbit v (Z.of_nat i) then Z.lxor acc (m !!! i) else acc) 0 (seq 0 n).

Lemma rows_S n v m : rows (S n) v m = if Z.testbit v (Z.of_nat n) then Z.lxor (rows n v m) (m !!! n) else rows n v m.
Proof. unfold rows. by rewrite seq_S, foldl_app. Qed.

Lemma xor_rows_rows v m : xor_rows v m = rows 42 v m.
Proof.
  unfold xor_rows, rows. generalize 0. induction (seq 0 42) as [|i l IH]; intros acc; [done|].
  simpl. by rewrite bit_test, IH by lia.
Qed.

Lemma xor_rows_linear m : linear (λ v, xor_rows v m).
Proof.
  intros a b. rewrite !xor_rows_rows. generalize 42%nat; intros n; induction n as [|n IH]; [done|].
  rewrite !rows_S, IH, Z.lxor_spec.
  destruct (Z.testbit a _), (Z.testbit b _); simpl;
    apply Z.bits_inj'; intros i Hi; rewrite !Z.lxor_spec;
    by repeat match goal with |- context [Z.testbit ?x i] => destruct (Z.testbit x i) end.
Qed.

Lemma apply_linear m : linear (apply_matrix m).
Proof. apply xor_rows_linear. Qed.

Lemma rows_unit n m i : rows n (2 ^ Z.of_nat i) m = if (i <? n)%nat then m !!! i else 0.
Proof.
  induction n as [|n IH]; [done|]. rewrite rows_S, IH, Z.pow2_bits_eqb by lia.
  destruct (Z.eqb_spec (Z.of_nat i) (Z.of_nat n)) as [E|E].
  - assert (i = n) as -> by lia. destruct (Nat.ltb_spec n n); [lia|].
    destruct (Nat.ltb_spec n (S n)); [|lia]. apply Z.lxor_0_l.
  - destruct (Nat.ltb_spec i n), (Nat.ltb_spec i (S n)); lia || done.
Qed.

Lemma xor_rows_unit m i : (i < 42)%nat → xor_rows (2 ^ Z.of_nat i) m = m !!! i.
Proof. intros. rewrite xor_rows_rows, rows_unit. destruct (Nat.ltb_spec i 42); [done|lia]. Qed.

(** High bits of the register take no part. *)
Lemma rows_low n m v : (n ≤ 42)%nat → rows n v m = rows n (Z.land v MASK42) m.
Proof.
  induction n as [|n IH]; intros Hn; [done|]. rewrite !rows_S, IH by lia.
  rewrite Z.land_spec. change MASK42 with (Z.ones 42). rewrite Z.ones_spec_low by lia.
  by rewrite andb_true_r.
Qed.

Lemma xor_rows_low m v : xor_rows v m = xor_rows (Z.land v MASK42) m.
Proof. rewrite !xor_rows_rows. by apply rows_low. Qed.

Lemma land_mask42 v : is_u 42 (Z.land v MASK42).
Proof. change MASK42 with (Z.ones 42). rewrite Z.land_ones by lia. apply Z.mod_pos_bound. lia. Qed.

Lemma multiply_spec a b s : apply_matrix (multiply_matrices a b) s = apply_matrix b (apply_matrix a s).
Proof.
  unfold apply_matrix. rewrite (xor_rows_low _ s), (xor_rows_low a s).
  apply (linear_ext 42 (λ s, xor_rows s (multiply_matrices a b)) (λ s, xor_rows (xor_rows s a) b)).
  - apply xor_rows_linear.
  - apply (linear_compose (λ v, xor_rows v b)); apply xor_rows_linear.
  - intros i Hi. rewrite !xor_rows_unit by done. unfold multiply_matrices.
    by rewrite list_lookup_total_alt, list_lookup_fmap, lookup_seq_lt.
  - apply land_mask42.
Qed.

(** ** Stepping *)
Definition FEEDBACK : Z := Eval vm_compute in or_bits taps 1.

(** [advance_state] as a linear map. *)
Lemma advance_alt s :
  advance_state s = Z.lxor (Z.land (Z.shiftl s 1) MASK42) (if Z.testbit s 41 then FEEDBACK else 0).
Proof.
  unfold advance_state. rewrite bit_test by lia. rewrite land_1, <- Z.bit0_mod, Z.shiftr_spec, Z.add_0_l by lia.
  assert (Z.land (wrap 64 (Z.shiftl s 1)) MASK42 = Z.land (Z.shiftl s 1) MASK42) as Hw.
  { unfold wrap. rewrite <- (Z.land_ones _ 64), <- Z.land_assoc by lia. reflexivity. }
  destruct (Z.testbit s 41); simpl Z.b2z.
  - assert (∀ x y, Z.testbit x 0 = false → Z.land x MASK42 = y → 
      Z.lxor (Z.land (Z.lor x 1) MASK42) (or_bits taps 0) = Z.lxor y FEEDBACK) as H.
    { intros x y Hx <-. rewrite Z.land_lor_distr_l. change (Z.land 1 MASK42) with 1.
      rewrite <- (Z.lxor_lor (Z.land x MASK42) 1), Z.lxor_assoc; [reflexivity|].
      rewrite <- Z.land_assoc. change (Z.land MASK42 1) with 1.
      rewrite land_1, <- Z.bit0_mod. by rewrite Hx. }
    apply H; [|done]. unfold wrap. rewrite Z.mod_pow2_bits_low by lia. by rewrite Z.shiftl_spec_low by lia.
  - by rewrite Z.lor_0_r, Z.lxor_0_r.
Qed.

Lemma advance_linear : linear advance_state.
Proof.
  intros a b. rewrite !advance_alt, Z.shiftl_lxor, Z.lxor_spec.
  apply Z.bits_inj'; intros i Hi.
  destruct (Z.testbit a 41), (Z.testbit b 41); simpl xorb;
    rewrite !Z.lxor_spec, !Z.land_spec, !Z.lxor_spec, ?Z.bits_0;
    by repeat match goal with |- context [Z.testbit ?x i] => destruct (Z.testbit x i) end.
Qed.

Lemma advance_low s : advance_state s = advance_state (Z.land s MASK42).
Proof.
  rewrite !advance_alt, Z.land_spec. change (Z.testbit MASK42 41) with true. rewrite andb_true_r. f_equal.
  apply Z.bits_inj'; intros i Hi. rewrite !Z.land_spec.
  destruct (decide (i = 0)) as [->|]; [by rewrite !Z.shiftl_spec_low by lia|].
  rewrite !Z.shiftl_spec, Z.land_spec by lia. change MASK42 with (Z.ones 42).
  rewrite !Z.testbit_ones_nonneg by lia. destruct (Z.ltb_spec i 42), (Z.ltb_spec (i - 1) 42);
    rewrite ?andb_true_r, ?andb_false_r; lia || done.
Qed.

Lemma advance_range s : is_u 42 (advance_state s).
Proof.
  rewrite advance_alt. apply is_u_lxor; [lia|apply land_mask42|].
  case (Z.testbit s 41); by vm_compute.
Qed.

Lemma steps_range k s : is_u 42 s → is_u 42 (steps k s).
Proof. destruct k; [done|]. intros _. apply advance_range. Qed.

Lemma steps_succ k s : steps (S k) s = steps k (advance_state s).
Proof. apply Nat.iter_succ_r. Qed.

Lemma steps_add a b s : steps (a + b) s = steps a (steps b s).
Proof. apply Nat.iter_add. Qed.

(** One application of the matrix is one step, whatever is in the high bits. *)
Lemma t_matrix_step s : apply_matrix get_t_matrix s = advance_state s.
Proof.
  unfold apply_matrix. rewrite xor_rows_low, advance_low.
  apply (linear_ext 42 (λ s, xor_rows s get_t_matrix)).
  - apply xor_rows_linear.
  - apply advance_linear.
  - assert (forallb (λ i, xor_rows (2 ^ Z.of_nat i) get_t_matrix =? advance_state (2 ^ Z.of_nat i)) (seq 0 42) = true) as H
      by (vm_compute; reflexivity).
    rewrite forallb_forall in H. intros i Hi. apply Z.eqb_eq, H, in_seq. lia.
  - apply land_mask42.
Qed.

Lemma matrix_powers_spec n m k i s :
  (∀ s, apply_matrix m s = steps k s) → (i < n)%nat →
  apply_matrix (matrix_powers n m !!! i) s = steps (2 ^ i * k) s.
Proof.
  revert m k i. induction n as [|n IH]; intros m k i Hm Hi; [lia|].
  destruct i as [|i]; simpl matrix_powers.
  - rewrite Nat.mul_1_l. apply Hm.
  - change (apply_matrix (matrix_powers n (multiply_matrices m m) !!! i) s = steps (2 ^ S i * k) s).
    rewrite (IH _ (k + k)%nat) by (lia || (intros; rewrite multiply_spec, !Hm; symmetry; apply steps_add)).
    f_equal. simpl. lia.
Qed.

Lemma t_powers_spec i s : (i < 64)%nat → apply_matrix (T_MATRIX_POWERS !!! i) s = steps (2 ^ i) s.
Proof.
  intros Hi. assert (T_MATRIX_POWERS = matrix_powers 64 get_t_matrix) as -> by (vm_compute; reflexivity).
  rewrite (matrix_powers_spec _ _ 1) by (done || apply t_matrix_step). f_equal. lia.
Qed.

Lemma jump_spec fuel delta idx s :
  0 ≤ delta < 2 ^ Z.of_nat fuel → (idx + fuel ≤ 64)%nat →
  jump fuel delta idx s = steps (Z.to_nat (delta * 2 ^ Z.of_nat idx)) s.
Proof.
  revert delta idx s. induction fuel as [|fuel IH]; intros delta idx s Hd Hi.
  { change (2 ^ Z.of_nat 0) with 1 in Hd. assert (delta = 0) as -> by lia. done. }
  simpl. destruct (Z.ltb_spec 0 delta); [|by assert (delta = 0) as -> by lia].
  rewrite land_1, Z.shiftr_div_pow2 by lia. change (2 ^ 1) with 2.
  assert (2 ^ Z.of_nat (S fuel) = 2 * 2 ^ Z.of_nat fuel) as Hp by (rewrite Nat2Z.inj_succ, Z.pow_succ_r; lia).
  assert (2 ^ Z.of_nat (S idx) = 2 * 2 ^ Z.of_nat idx) as Hq by (rewrite Nat2Z.inj_succ, Z.pow_succ_r; lia).
  assert (0 < 2 ^ Z.of_nat idx) by lia.
  rewrite IH, Hq by (zdiv || lia).
  destruct (Z.eqb_spec (delta mod 2) 1).
  - rewrite t_powers_spec by lia. rewrite <- steps_add. f_equal.
    assert (Z.of_nat (2 ^ idx) = 2 ^ Z.of_nat idx) as E by apply Nat2Z.inj_pow.
    assert (delta = 2 * (delta / 2) + 1) by zdiv. nia.
  - f_equal. assert (delta = 2 * (delta / 2)) by zdiv. nia.
Qed.

(** Jumping is stepping. *)
Lemma advance_chips_state st g n :
  0 ≤ n < 2 ^ 64 → state (advance_chips st g n) = steps (Z.to_nat n) (state g).
Proof.
  intros Hn. unfold advance_chips.
  match goal with |- context [refresh_privacy_mask st ?g'] => assert (state (refresh_privacy_mask st g') = state g) as Hg end.
  { unfold refresh_privacy_mask. by case (shared _ _). }
  case_match; cbn [state set_state].
  - rewrite jump_spec by (simpl Z.of_nat; lia). rewrite Hg. f_equal. simpl. lia.
  - by rewrite Hg.
Qed.

(** ** The period *)
Lemma steps_linear k : linear (steps k).
Proof. apply linear_iter, advance_linear. Qed.

Lemma steps_jump n s : 0 ≤ n < 2 ^ 64 → steps (Z.to_nat n) s = jump 64 n 0 s.
Proof. intros. rewrite jump_spec by (simpl Z.of_nat; lia). f_equal. simpl. lia. Qed.

Lemma period_all s : is_u 42 s → steps (Z.to_nat N42) s = s.
Proof.
  intros Hs. apply (linear_ext 42 _ (λ s, s)); [apply steps_linear|done| |done].
  intros i Hi. rewrite steps_jump by lia.
  assert (forallb (λ i, jump 64 N42 0 (2 ^ Z.of_nat i) =? 2 ^ Z.of_nat i) (seq 0 42) = true) as H
    by (vm_compute; reflexivity).
  rewrite forallb_forall in H. apply Z.eqb_eq, H, in_seq. lia.
Qed.

Definition start : Z := Z.shiftl 1 41.
Lemma start_range : is_u 42 start.
Proof. by vm_compute. Qed.

Lemma steps_mul k q s : steps k s = s → steps (q * k) s = s.
Proof. intros H. induction q as [|q IH]; [done|]. simpl. by rewrite steps_add, IH. Qed.

Lemma period_gcd a b s : (0 < a)%nat → steps a s = s → steps b s = s → steps (Nat.gcd a b) s = s.
Proof.
  intros Ha Pa Pb. destruct (Nat.gcd_bezout_pos a b Ha) as (u & v & E).
  assert (steps (u * a) s = s) as P by by apply steps_mul.
  by rewrite E, steps_add, steps_mul in P.
Qed.

(** The primes of the period. *)
Definition primes : list Z := [3; 7; 43; 127; 337; 5419].
Lemma primes_prime : Forall Z.prime primes.
Proof.
  assert (forallb (λ p, (1 <? p) && forallb (λ d, negb (p mod d =? 0)) (seqZ 2 (p - 2))) primes = true) as H
    by (vm_compute; reflexivity).
  apply Forall_forall. intros p Hp. rewrite forallb_forall in H. specialize (H p ltac:(by apply list_elem_of_In)).
  apply andb_prop in H as [H1%Z.ltb_lt H2]. rewrite forallb_forall in H2.
  split; [done|]. intros d Hd [q Hq].
  specialize (H2 d). rewrite <- list_elem_of_In, elem_of_seqZ in H2. specialize (H2 ltac:(lia)).
  rewrite Hq, Z_mod_mult in H2. done.
Qed.

Lemma primes_ge p : p ∈ primes → 2 ≤ p.
Proof. intros Hp. pose proof primes_prime as P. rewrite Forall_forall in P. by apply Z.prime_ge_2, P. Qed.

Lemma divisor_prime m : 1 < m → (m | N42) → ∃ p, p ∈ primes ∧ (p | m).
Proof.
  intros Hm Hd. destruct (decide (Exists (λ p, m mod p = 0) primes)) as [H|H].
  { apply Exists_exists in H as (p & Hp & H). exists p. split; [done|].
    apply Z.mod_divide; [|done]. apply primes_ge in Hp. lia. }
  exfalso. apply not_Exists_Forall in H; [|intros; apply _].
  assert (∀ p x, p ∈ primes → (m | p * x) → (m | x)) as G.
  { intros p x Hp Hx. apply (Z.gauss m p); [done|]. apply Z.Symmetric_coprime, Z.coprime_prime_l.
    - pose proof primes_prime as P. rewrite Forall_forall in P. by apply P.
    - intros [q ->]. rewrite Forall_forall in H. apply (H p Hp). apply Z_mod_mult. }
  assert (m | 1) as Q%Z.divide_1_r_nonneg; [|lia..].
  do 2 (apply (G 3); [repeat constructor|]). do 2 (apply (G 7); [repeat constructor|]).
  apply (G 43); [repeat constructor|]. apply (G 127); [repeat constructor|].
  apply (G 337); [repeat constructor|]. apply (G 5419); [repeat constructor|]. exact Hd.
Qed.

Lemma not_period p : p ∈ primes → steps (Z.to_nat (N42 / p)) start ≠ start.
Proof.
  assert (forallb (λ p, (0 <? N42 / p) && negb (jump 64 (N42 / p) 0 start =? start)) primes = true) as H
    by (vm_compute; reflexivity).
  rewrite forallb_forall in H. intros Hp. specialize (H p ltac:(by apply list_elem_of_In)).
  apply andb_prop in H as [_ H]. rewrite steps_jump. 
  - intros E. by rewrite E, Z.eqb_refl in H.
  - clear H. unfold primes in Hp. rewrite !elem_of_cons in Hp. 
    destruct Hp as [->|[->|[->|[->|[->|[->|Hp]]]]]]; [by vm_compute..|by apply not_elem_of_nil in Hp].
Qed.

Lemma period_minimal k : (0 < k)%nat → steps k start = start → (Z.to_nat N42 ≤ k)%nat.
Proof.
  intros Hk Pk. pose proof (period_gcd k (Z.to_nat N42) start Hk Pk (period_all _ start_range)) as Pg.
  pose proof (Nat.gcd_divide_l k (Z.to_nat N42)) as [u Hu].
  pose proof (Nat.gcd_divide_r k (Z.to_nat N42)) as [v Hv].
  set (g := Nat.gcd k (Z.to_nat N42)) in *. clearbody g.
  destruct (decide (v = 1)%nat) as [->|Hv1]; [nia|].
  destruct (divisor_prime (Z.of_nat v)) as (p & Hp & w & Hw).
  { nia. }
  { exists (Z.of_nat g). nia. }
  exfalso. apply (not_period p Hp).
  pose proof (primes_ge p Hp).
  assert (N42 / p = Z.of_nat g * w) as ->.
  { symmetry. apply Z.div_unique_exact; [lia|]. nia. }
  replace (Z.to_nat (Z.of_nat g * w)) with (Z.to_nat w * g)%nat by nia.
  by apply steps_mul.
Qed.

(** Two equal states on a cycle of [n] are a period apart. *)
Lemma cycle_diff n i j s :
  (i < j < n)%nat → steps n s = s → steps n (steps (j - i) s) = steps (j - i) s →
  steps i s = steps j s → steps (j - i) s = s.
Proof.
  intros Hij P1 P2 E. rewrite <- P2, <- P1 at 1.
  transitivity (steps (n - i) (steps j s)).
  - rewrite P1, <- !steps_add. f_equal. lia.
  - rewrite <- E, <- steps_add. by replace (n - i + i)%nat with n by lia.
Qed.

Lemma steps_inj i j : (i < j < Z.to_nat N42)%nat → steps i start ≠ steps j start.
Proof.
  intros Hij E. apply cycle_diff with (n := Z.to_nat N42) in E; [|done|apply period_all..].
  - apply period_minimal in E; lia.
  - apply start_range.
  - apply steps_range, start_range.
Qed.

Lemma steps_0 k : steps k 0 = 0.
Proof. apply linear_0, steps_linear. Qed.

Lemma steps_nonzero k : (k ≤ Z.to_nat N42)%nat → steps k start ≠ 0.
Proof.
  intros Hk E. pose proof (period_all _ start_range) as P.
  replace (Z.to_nat N42) with (Z.to_nat N42 - k + k)%nat in P by lia.
  rewrite steps_add, E, steps_0 in P. done.
Qed.

(** Every state but zero lies on the cycle of the start state. *)
Lemma orbit_all s : 1 ≤ s < 2 ^ 42 → ∃ k, (k < Z.to_nat N42)%nat ∧ steps k start = s.
Proof.
  intros Hs. pose proof steps_inj as Hinj. pose proof steps_nonzero as Hnz.
  remember (Z.to_nat N42) as n eqn:Hn.
  set (l := (λ k, steps k start) <$> seq 0 n).
  assert (NoDup l) as ND.
  { apply NoDup_fmap_2_strong; [|apply NoDup_seq]. intros i j Hi%elem_of_seq Hj%elem_of_seq E.
    destruct (Nat.lt_trichotomy i j) as [L|[L|L]]; [|done|].
    - by destruct (Hinj i j ltac:(lia)).
    - by destruct (Hinj j i ltac:(lia)). }
  assert (l ⊆+ seqZ 1 N42) as Sub.
  { apply NoDup_submseteq; [done|]. intros x (k & -> & Hk%elem_of_seq)%list_elem_of_fmap.
    apply elem_of_seqZ. pose proof (steps_range k _ start_range) as [? ?].
    pose proof (Hnz k ltac:(lia)). lia. }
  assert (l ≡ₚ seqZ 1 N42) as P.
  { apply submseteq_length_Permutation; [done|]. unfold l. rewrite length_fmap, length_seq, length_seqZ. lia. }
  assert (s ∈ l) as Hl by (rewrite P, elem_of_seqZ; lia).
  apply list_elem_of_fmap in Hl as (k & -> & Hk%elem_of_seq). exists k. split; [lia|done].
Qed.

Lemma steps_mod k s : is_u 42 s → 0 ≤ k → steps (Z.to_nat k) s = steps (Z.to_nat (k mod N42)) s.
Proof.
  intros Hs Hk. pose proof (Z.div_mod k N42 ltac:(lia)) as D. pose proof (Z.mod_pos_bound k N42 ltac:(lia)).
  assert (0 ≤ k / N42) by (apply Z.div_pos; lia).
  rewrite D at 1. rewrite Z2Nat.inj_add, Nat.add_comm, steps_add, Z2Nat.inj_mul, Nat.mul_comm by nia.
  by rewrite steps_mul by by apply period_all.
Qed.

Lemma lc_state_at_steps s a b : lc_state_at s a b = steps (Z.to_nat ((b - a) mod N42)) s.
Proof.
  unfold lc_state_at, LONG_CODE_PERIOD_CHIPS. rewrite advance_chips_state by (split; [apply Z.mod_pos_bound; lia|];
    pose proof (Z.mod_pos_bound (b mod N42 + N42 - a mod N42) N42 ltac:(lia)); lia).
  do 2 f_equal.
  replace (b mod N42 + N42 - a mod N42) with (b - a + (1 - b / N42 + a / N42) * N42)
    by (rewrite !(Z.mod_eq _ N42) by lia; lia).
  by rewrite Z.mod_add by lia.
Qed.

(** The register at another time.  What [lc_state_at] computes is the register stepped chip
    by chip to a later time; times compose in any order, so it also runs backwards (a sync
    message may announce a state whose validity point is in the future). *)
Theorem long_code_clock s a b c :
  is_u 42 s →
  lc_state_at s a a = s ∧
  (a ≤ b → lc_state_at s a b = Nat.iter (Z.to_nat (b - a)) advance_state s) ∧
  lc_state_at (lc_state_at s a b) b c = lc_state_at s a c ∧
  lc_state_at (lc_state_at s a b) b a = s.
Proof.
  intros Hs.
  assert (∀ c, lc_state_at (lc_state_at s a b) b c = lc_state_at s a c) as Hc.
  { intros c'. rewrite !lc_state_at_steps, <- steps_add.
    rewrite <- Z2Nat.inj_add by (apply Z.mod_pos_bound; lia).
    rewrite steps_mod by (done || (pose proof (Z.mod_pos_bound (c' - b) N42 ltac:(lia));
      pose proof (Z.mod_pos_bound (b - a) N42 ltac:(lia)); lia)).
    rewrite <- Zplus_mod. do 3 f_equal. lia. }
  assert (lc_state_at s a a = s) as Ha by by rewrite lc_state_at_steps, Z.sub_diag.
  split; [done|]. split; [|split; [apply Hc|by rewrite Hc]].
  intros Hab. rewrite lc_state_at_steps, <- steps_mod by (done || lia). done.
Qed.
Lemma long_code_clock_witness :
  is_u 42 0x38e9ecec314 ∧ lc_state_at (lc_state_at 0x38e9ecec314 7 294919) 294919 7 = 0x38e9ecec314.
Proof. split; [by vm_compute|]. apply (long_code_clock 0x38e9ecec314 7 294919 0). by vm_compute. Defined.

(** C8: The long code has maximal length.  The taps give the longest possible cycle: every
    nonzero register state is the public long code at exactly one chip of the period that
    [lc_state_at] uses, and the register never reaches zero; the state at a chip is the start state
    stepped so many times. *)
Theorem long_code_maximal :
  (∀ s, 1 ≤ s < 2 ^ 42 → ∃ t, (0 ≤ t < LONG_CODE_PERIOD_CHIPS ∧ default_lc_state_at t = s) ∧
     ∀ u, 0 ≤ u < LONG_CODE_PERIOD_CHIPS → default_lc_state_at u = s → u = t) ∧
  ∀ t, 1 ≤ default_lc_state_at t < 2 ^ 42 ∧ (0 ≤ t → default_lc_state_at t = steps (Z.to_nat t) start).
Proof.
  assert (∀ t, default_lc_state_at t = steps (Z.to_nat (t mod N42)) start) as D.
  { intros t. unfold default_lc_state_at. rewrite lc_state_at_steps. by rewrite Z.sub_0_r. }
  unfold LONG_CODE_PERIOD_CHIPS. split.
  - intros s Hs. destruct (orbit_all s Hs) as (k & Hk & E). exists (Z.of_nat k). split.
    + split; [lia|]. rewrite D, Z.mod_small by lia. by rewrite Nat2Z.id.
    + intros t Ht. rewrite D, Z.mod_small by lia. intros E'.
      destruct (Nat.lt_trichotomy (Z.to_nat t) k) as [L|[L|L]]; [|lia|].
      * destruct (steps_inj (Z.to_nat t) k ltac:(lia)). by rewrite E, E'.
      * destruct (steps_inj k (Z.to_nat t) ltac:(lia)). by rewrite E, E'.
  - intros t. rewrite D. split; [|intros Ht; by rewrite <- steps_mod by (done || apply start_range)].
    pose proof (Z.mod_pos_bound t N42 ltac:(lia)). pose proof (steps_range (Z.to_nat (t mod N42)) start start_range) as [? ?].
    pose proof (steps_nonzero (Z.to_nat (t mod N42)) ltac:(lia)). lia.
Qed.

(** ** Privacy transitions *)
Lemma find_app {A} (f : A → bool) l k : List.find f (l ++ k) = match List.find f l with Some x => Some x | None => List.find f k end.
Proof. induction l as [|x l IH]; [done|]. simpl. by case (f x). Qed.

Lemma in_force_snoc l t chip : in_force (l ++ [t]) chip = if action_chip t <=? chip then Some t else in_force l chip.
Proof. unfold in_force. rewrite reverse_snoc. done. Qed.

(** Accepted transitions have increasing action times, and what is pending comes after them. *)
Definition privacy_inv (p : LongCodePrivacy) : Prop :=
  StronglySorted (λ a b, action_chip a < action_chip b) (accepted p) ∧
  ∀ t, pending p = Some t → Forall (λ a, action_chip a < action_chip t) (accepted p).

Lemma sorted_snoc l t :
  StronglySorted (λ a b, action_chip a < action_chip b) l → Forall (λ a, action_chip a < action_chip t) l →
  StronglySorted (λ a b, action_chip a < action_chip b) (l ++ [t]).
Proof.
  induction 1 as [|x l Hs IH Hx]; intros H; [repeat constructor|].
  apply Forall_cons in H as [? ?]. simpl. constructor; [by apply IH|]. apply Forall_app. auto.
Qed.

Lemma sorted_last l t :
  StronglySorted (λ a b, action_chip a < action_chip b) (l ++ [t]) → Forall (λ a, action_chip a ≤ action_chip t) (l ++ [t]).
Proof.
  induction l as [|x l IH]; intros H; inversion_clear H as [|? ? Hs Hx].
  - repeat constructor. lia.
  - simpl. constructor; [|by apply IH]. rewrite Forall_app, Forall_singleton in Hx. lia.
Qed.

Inductive PrivacyStep : LongCodePrivacy → LongCodePrivacy → Prop :=
| step_request p t : PrivacyStep p (request p t).1
| step_cancel p : PrivacyStep p (cancel_pending p)
| step_respond p b chip : PrivacyStep p (respond p b chip).1.

Lemma privacy_inv_step p q : privacy_inv p → PrivacyStep p q → privacy_inv q.
Proof.
  intros Hi H. destruct H as [p t|p|p b chip]; pose proof Hi as [Hs Hp].
  - unfold request. destruct (pending p); [done|]. simpl.
    destruct (last (accepted p)) as [l|] eqn:El.
    + case (Z.leb_spec (action_chip t) (action_chip l)); intros Ht; [done|]. split; [done|].
      intros ? [= <-]. apply last_Some in El as [k Ek]. simpl. rewrite Ek in *. apply sorted_last in Hs.
      eapply Forall_impl; [done|]. simpl. lia.
    + split; [done|]. intros ? [= <-]. simpl. apply last_None in El. by rewrite El.
  - split; [done|]. done.
  - unfold respond. destruct (pending p) as [t|] eqn:Ep; [|done].
    case (_ || _); (split; [|done]); [done|]. simpl. apply sorted_snoc; auto.
Qed.

Lemma in_force_spec l chip t :
  StronglySorted (λ a b, action_chip a < action_chip b) l →
  in_force l chip = Some t ↔
  t ∈ l ∧ action_chip t ≤ chip ∧ ∀ a, a ∈ l → action_chip a ≤ chip → action_chip a ≤ action_chip t.
Proof.
  induction l as [|x l IH] using rev_ind; intros Hs.
  { split; [done|]. intros [H%not_elem_of_nil _]. done. }
  rewrite in_force_snoc. pose proof (sorted_last _ _ Hs) as Hl. rewrite Forall_forall in Hl.
  assert (StronglySorted (λ a b, action_chip a < action_chip b) l ∧ Forall (λ a, action_chip a < action_chip x) l) as [Hs' Hx].
  { clear -Hs. induction l as [|y l IH]; [repeat constructor|]. inversion_clear Hs as [|? ? Hs' Hy].
    destruct (IH Hs'). rewrite Forall_app, Forall_singleton in Hy. destruct Hy. by repeat constructor. }
  rewrite Forall_forall in Hx.
  case (Z.leb_spec (action_chip x) chip); intros Hc.
  - split.
    + intros [= <-]. split; [set_solver|]. split; [done|]. intros a Ha _. by apply Hl.
    + intros ([Ht|Ht%list_elem_of_singleton]%elem_of_app & H1 & H2); [|by subst].
      specialize (H2 x ltac:(set_solver) Hc). specialize (Hx t Ht). lia.
  - rewrite IH by done. split.
    + intros (H1 & H2 & H3). split; [set_solver|]. split; [done|].
      intros a [Ha|Ha%list_elem_of_singleton]%elem_of_app; [by apply H3|]. subst. lia.
    + intros ([Ht|Ht%list_elem_of_singleton]%elem_of_app & H1 & H2); [|subst; lia].
      split; [done|]. split; [done|]. intros a Ha. apply H2. set_solver.
Qed.

(** A response never changes the mask of a chip up to its reception. *)
Lemma respond_mask p b r chip : chip ≤ r → mask_at (respond p b r).1 chip = mask_at p chip.
Proof.
  intros Hc. unfold respond, mask_at, is_private_at. destruct (pending p) as [t|]; [|done].
  destruct (negb _ || _) eqn:E; [done|]. cbn [fst accepted].
  apply orb_false_elim in E as [_ E%Z.leb_gt]. rewrite in_force_snoc.
  by case (Z.leb_spec (action_chip t) chip); [lia|].
Qed.

(** The action time of a transition.  Requests and responses keep the accepted transitions in
    order of action time, so that the mask of a chip is the one asked for by the latest
    accepted transition not after it; an accepted response
    takes effect at the action time, in the future of its reception, and at no other chip. *)
Theorem privacy_action_times p :
  rtc PrivacyStep (new_privacy (public_mask p) (private_mask p)) p →
  (∀ chip, is_private_at p chip = true ↔
     ∃ t, t ∈ accepted p ∧ action_chip t ≤ chip ∧ private t = true ∧
       ∀ a, a ∈ accepted p → action_chip a ≤ chip → action_chip a ≤ action_chip t) ∧
  (∀ b r q, respond p b r = (q, true) → ∃ t, pending p = Some t ∧ r < action_chip t ∧ private t = b ∧
     (∀ chip, chip < action_chip t → mask_at q chip = mask_at p chip) ∧
     (∀ chip, action_chip t ≤ chip → mask_at q chip = if b then private_mask p else public_mask p)) ∧
  (∀ b r q, respond p b r = (q, false) → ∀ chip, mask_at q chip = mask_at p chip).
Proof.
  intros H. assert (privacy_inv p) as [Hs Hp].
  { assert (privacy_inv (new_privacy (public_mask p) (private_mask p))) as H0 by by repeat constructor.
    revert H0 H. generalize (new_privacy (public_mask p) (private_mask p)). intros q H0 H.
    induction H; [done|]. eauto using privacy_inv_step. }
  split; [|split].
  - intros chip. unfold is_private_at. split.
    + destruct (in_force _ _) as [t|] eqn:E; [|done]. intros. exists t.
      apply in_force_spec in E as (?&?&?); done.
    + intros (t & Ht & Hc & Hb & Hm). by rewrite (proj2 (in_force_spec _ chip t Hs)).
  - intros b r q. unfold respond. destruct (pending p) as [t|]; [|done].
    destruct (negb _ || _) eqn:E; [done|]. intros [= <-]. exists t.
    apply orb_false_elim in E as [E1%negb_false_iff%eqb_prop E2%Z.leb_gt]. split; [done|]. split; [done|]. split; [done|].
    unfold mask_at, is_private_at. cbn [accepted private_mask public_mask].
    split; intros chip Hc; rewrite in_force_snoc; destruct (Z.leb_spec (action_chip t) chip); lia || by subst.
  - intros b r q. unfold respond. destruct (pending p) as [t|]; [|by intros [= <-]].
    case (_ || _); intros [= <-]; done.
Qed.
Lemma privacy_action_times_witness :
  let p := (request (new_privacy 1 2) (mkTransition 98304 true)).1 in
  ∃ t, pending p = Some t ∧ 98303 < action_chip t ∧ private t = true ∧
     (∀ chip, chip < action_chip t → mask_at (respond p true 98303).1 chip = mask_at p chip) ∧
     (∀ chip, action_chip t ≤ chip → mask_at (respond p true 98303).1 chip = 2).
Proof.
  intros p. apply (privacy_action_times p); [|reflexivity].
  apply rtc_once. apply (step_request (new_privacy 1 2)).
Defined.

(** The action time of an order, in units of 80 ms modulo 64: the next time in the future with
    those six bits. *)
Lemma resolve_action at_ now :
  0 ≤ at_ < 64 → 0 ≤ now < 2 ^ 63 →
  let a := resolve_privacy_action_chip at_ now in
  now < a ≤ now + 64 * PRIVACY_ACTION_CHIPS ∧ a mod PRIVACY_ACTION_CHIPS = 0 ∧
  (a / PRIVACY_ACTION_CHIPS) mod PRIVACY_ACTION_MODULUS = at_.
Proof.
  intros Ha Hn. cbn zeta. unfold resolve_privacy_action_chip.
  change PRIVACY_ACTION_CHIPS with 98304. change PRIVACY_ACTION_MODULUS with 64.
  set (c := now / 98304).
  set (x := c / 64 * 64 + at_).
  set (y := if x <=? c then x + 64 else x).
  assert (c < y ≤ c + 64 ∧ y mod 64 = at_) as [Hy Hm].
  { unfold y. assert (c = 64 * (c / 64) + c mod 64 ∧ 0 ≤ c mod 64 < 64) as [? ?] by zdiv.
    assert (x mod 64 = at_) as Hx by (unfold x; zdiv).
    case (Z.leb_spec x c); intros; (split; [lia|]); [|done].
    rewrite <- Hx. replace (x + 64) with (x + 1 * 64) by lia. apply Z.mod_add. lia. }
  assert (now = 98304 * c + now mod 98304 ∧ 0 ≤ now mod 98304 < 98304) as [? ?] by (unfold c; zdiv).
  rewrite wrap_small by (unfold is_u; lia). rewrite Z.mod_mul, Z.div_mul by lia.
  split; [lia|]. split; [done|]. apply Hm.
Qed.

(** ** What a generator emits *)
#[local] Arguments count_ones : simpl never.
#[local] Arguments advance_state : simpl never.
(** The chip of register [s] under mask [m]. *)
Definition chip_of (s m : Z) : Z := Z.land (count_ones (Z.land s m)) 1.
(** The mask in force [k] chips from now. *)
Definition mask_after (st : Arcs) (g : LongCodeGenerator) (k : Z) : Z :=
  match shared st g with Some p => mask_at p (chip_position g + k) | None => mask g end.

(** Transitions happen at frame boundaries, and between boundaries the mask is the one in force. *)
Definition aligned (p : LongCodePrivacy) : Prop := Forall (λ t, action_chip t mod PRIVACY_FRAME_CHIPS = 0) (accepted p).
Definition synced (st : Arcs) (g : LongCodeGenerator) : Prop :=
  0 ≤ chip_position g ∧
  ∀ p, shared st g = Some p → aligned p ∧
    (chip_position g mod PRIVACY_FRAME_CHIPS ≠ 0 → mask g = mask_at p (chip_position g)).

Lemma find_ext {A} (f h : A → bool) l : (∀ x, x ∈ l → f x = h x) → List.find f l = List.find h l.
Proof.
  induction l as [|x l IH]; intros H; [done|]. simpl. rewrite (H x), IH; [done| |]; set_solver.
Qed.

(** Within a frame the mask does not change. *)
Lemma mask_at_next p c : aligned p → (c + 1) mod PRIVACY_FRAME_CHIPS ≠ 0 → mask_at p (c + 1) = mask_at p c.
Proof.
  unfold aligned, mask_at, is_private_at, in_force. rewrite Forall_forall. intros Ha Hc.
  rewrite (find_ext _ (λ t, action_chip t <=? c)); [done|].
  intros t Ht. rewrite elem_of_reverse in Ht. destruct (Z.leb_spec (action_chip t) (c + 1)), (Z.leb_spec (action_chip t) c); try done; [|lia].
  assert (action_chip t = c + 1) as E by lia. destruct Hc. rewrite <- E. by apply Ha.
Qed.

Lemma next_chip_spec st g :
  synced st g → chip_position g + 1 < 2 ^ 64 →
  let g' := (next_chip st g).1 in
  (next_chip st g).2 = chip_of (state g) (mask_after st g 0) ∧
  state g' = advance_state (state g) ∧ chip_position g' = chip_position g + 1 ∧
  synced st g' ∧ ∀ k, mask_after st g' k = mask_after st g (k + 1).
Proof.
  destruct g as [s m c [a|]]; unfold synced, shared, next_chip, refresh_privacy_mask, mask_after, shared; cbn;
    intros [Hpos Hs] Hlt; rewrite ?wrap_small by (unfold is_u; lia).
  2: { split; [done|]. split; [done|]. split; [done|]. split; [split; [lia|done]|done]. }
  destruct (st !! a) as [p|] eqn:Ea; cbn.
  2: { split; [by case_match|]. split; [by case_match|]. split; [case_match; cbn; apply wrap_small; unfold is_u; lia|].
       case_match; cbn; rewrite Ea, wrap_small by (unfold is_u; lia); (split; [split; [lia|done]|done]). }
  destruct (Hs p eq_refl) as [Hp Hm].
  assert (∀ m, m = mask_at p c → (c + 1) mod PRIVACY_FRAME_CHIPS ≠ 0 → m = mask_at p (c + 1)) as Hn
    by (intros ? -> ?; by rewrite mask_at_next).
  unfold chip_of, peek_output.
  destruct (Z.eqb_spec (c mod PRIVACY_FRAME_CHIPS) 0) as [E|E]; cbn;
    rewrite Ea, wrap_small by (unfold is_u; lia); cbn; rewrite Z.add_0_r, <- ?Hm by done.
  all: split; [done|]; split; [done|]; split; [done|]; split; [|intros k; f_equal; lia].
  all: split; [lia|]; intros ? [= <-]; split; [done|]; auto.
Qed.

Lemma generate_spec st n : ∀ g, synced st g → chip_position g + Z.of_nat n < 2 ^ 64 →
  (generate_sequence st g n).2 = (λ k, chip_of (steps k (state g)) (mask_after st g (Z.of_nat k))) <$> seq 0 n ∧
  state (generate_sequence st g n).1 = steps n (state g) ∧
  chip_position (generate_sequence st g n).1 = chip_position g + Z.of_nat n.
Proof.
  induction n as [|n IH]; intros g Hs Hlt; [repeat split; simpl; lia|].
  pose proof (next_chip_spec st g Hs ltac:(lia)) as H. cbn [generate_sequence].
  destruct (next_chip st g) as [g' chip] eqn:E. destruct H as (Hc & Hst & Hpos & Hs' & Hm). cbn in *.
  destruct (IH g' Hs' ltac:(lia)) as (I1 & I2 & I3).
  destruct (generate_sequence st g' n) as [g'' chips]. cbn in *. subst.
  split; [|split; [|lia]].
  - f_equal. rewrite <- seq_shift, <- list_fmap_compose. apply list_fmap_ext. intros i k _. cbn.
    rewrite Hst, Hm. f_equal.
    + by rewrite <- steps_succ.
    + f_equal. lia.
  - by rewrite I2, Hst, <- steps_succ.
Qed.

Lemma advance_chips_spec st g n :
  synced st g → 0 ≤ n → chip_position g + n < 2 ^ 64 →
  let g' := advance_chips st g n in
  state g' = steps (Z.to_nat n) (state g) ∧ chip_position g' = chip_position g + n ∧
  synced st g' ∧ ∀ k, mask_after st g' k = mask_after st g (n + k).
Proof.
  intros [Hpos Hs] H0 Hn. split; [apply advance_chips_state; lia|].
  assert (∀ s, let g' := set_state (refresh_privacy_mask st (mkGenerator (state g) (mask g) (chip_position g + n) (privacy g))) s in
    chip_position g' = chip_position g + n ∧ synced st g' ∧ ∀ k, mask_after st g' k = mask_after st g (n + k)) as H.
  { intros s. unfold refresh_privacy_mask, synced, mask_after, shared in *. cbn.
    destruct (privacy g) as [a|]; cbn; [|repeat split; done || lia].
    destruct (st !! a) as [p|] eqn:Ea; cbn; rewrite Ea; cbn; [|repeat split; done || lia].
    destruct (Hs p Ea) as [Hp Hm]. split; [done|]. split; [|intros k; f_equal; lia].
    split; [lia|]. by intros ? [= <-]. }
  unfold advance_chips. rewrite Z.min_l by lia. case_match; apply H.
Qed.

(** C5: Jumping is stepping.  A generator advanced by [m] chips at once (matrix powers from 64
    chips on) emits exactly the chips that follow the [m] it skipped, and is left in the
    same register state at the same position, also when its mask changes on the way. *)
Theorem long_code_jump st g m n :
  synced st g → chip_position g + Z.of_nat (m + n) < 2 ^ 64 →
  (generate_sequence st g (m + n)).2 =
    (generate_sequence st g m).2 ++ (generate_sequence st (advance_chips st g (Z.of_nat m)) n).2 ∧
  state (generate_sequence st g (m + n)).1 = state (generate_sequence st (advance_chips st g (Z.of_nat m)) n).1 ∧
  chip_position (generate_sequence st g (m + n)).1 =
    chip_position (generate_sequence st (advance_chips st g (Z.of_nat m)) n).1.
Proof.
  intros Hs Hlt.
  destruct (advance_chips_spec st g (Z.of_nat m) Hs ltac:(lia) ltac:(lia)) as (A1 & A2 & A3 & A4).
  destruct (generate_spec st (m + n) g Hs Hlt) as (G1 & G2 & G3).
  destruct (generate_spec st m g Hs ltac:(lia)) as (M1 & M2 & M3).
  destruct (generate_spec st n _ A3 ltac:(lia)) as (N1 & N2 & N3).
  rewrite Nat2Z.id in A1. split; [|split].
  - rewrite G1, M1, N1, seq_app, fmap_app, Nat.add_0_l. f_equal.
    replace (seq m n) with (Nat.add m <$> seq 0 n) by by rewrite fmap_add_seq, Nat.add_0_r.
    rewrite <- list_fmap_compose.
    apply list_fmap_ext. intros i k _. cbn. rewrite A1, A4, <- steps_add. f_equal; f_equal; lia.
  - rewrite G2, N2, A1, <- steps_add. f_equal. lia.
  - rewrite G3, N3, A2. lia.
Qed.
Lemma long_code_jump_witness :
  let p := mkPrivacy 1 2 None [mkTransition 98304 true] in
  let st : Arcs := {[0%N := p]} in
  let g := with_privacy st (new_traffic_channel 0xDEADBEEF) (Some 0%N) in
  synced st g ∧
  (generate_sequence st g (100 + 5)).2 =
    (generate_sequence st g 100).2 ++ (generate_sequence st (advance_chips st g 100) 5).2.
Proof.
  intros p st g.
  assert (synced st g) as H.
  { split; [by vm_compute|]. intros q [= <-]. split; [repeat constructor|]. by intros []. }
  split; [done|]. apply (long_code_jump st g 100 5 H). by vm_compute.
Defined.

(** C18: The switch of a traffic channel to its private mask.  When the response to a pending
    transition is accepted, every generator that shares the privacy state, wherever it stands
    not after the reception, goes on with the old mask up to the chip before the action time
    and has the new one from the action time on; its register runs through. *)
Theorem privacy_switch st a p g b r q t n :
  privacy g = Some a → st !! a = Some p → synced st g →
  chip_position g ≤ r → chip_position g + Z.of_nat n < 2 ^ 64 →
  pending p = Some t → action_chip t mod PRIVACY_FRAME_CHIPS = 0 → respond p b r = (q, true) →
  (generate_sequence (<[a := q]> st) g n).2 =
    (λ k, let c := chip_position g + Z.of_nat k in
          let s := Nat.iter k advance_state (state g) in
          chip_of s (if action_chip t <=? c then (if b then private_mask p else public_mask p) else mask_at p c)) <$> seq 0 n.
Proof.
  intros Hg Ha [H0 Hs] Hr Hn Hp Ht E. unfold shared in Hs. rewrite Hg in Hs. destruct (Hs p Ha) as [Hal Hm].
  pose proof (respond_mask p b r) as Hold. rewrite E in Hold. cbn in Hold.
  unfold respond in E. rewrite Hp in E. destruct (negb _ || _) eqn:Eb; [done|]. injection E as <-.
  apply orb_false_elim in Eb as [E1%negb_false_iff%eqb_prop _].
  set (q := mkPrivacy _ _ _ _) in *.
  assert (synced (<[a:=q]> st) g) as Hs'.
  { split; [done|]. unfold shared. rewrite Hg. cbn. rewrite lookup_insert_eq. intros ? [= <-]. split.
    - unfold aligned. cbn. apply Forall_app. split; [done|]. by apply Forall_singleton.
    - intros Hc. rewrite Hold by done. by apply Hm. }
  destruct (generate_spec _ n g Hs' Hn) as [-> _].
  apply list_fmap_ext. intros i k _. cbn zeta. f_equal.
  unfold mask_after, shared. rewrite Hg. cbn. rewrite lookup_insert_eq.
  unfold mask_at, is_private_at, q. cbn [accepted private_mask public_mask]. rewrite in_force_snoc. destruct (action_chip t <=? _); [by rewrite <- E1|done].
Qed.
Lemma privacy_switch_witness :
  let t := mkTransition 98304 true in
  let p := (request (new_privacy 1 2) t).1 in
  let st : Arcs := {[0%N := p]} in
  let g := mkGenerator 0x38e9ecec314 1 98300 (Some 0%N) in
  (generate_sequence (<[0%N := (respond p true 98301).1]> st) g 6).2 =
    (λ k, let c := chip_position g + Z.of_nat k in
          let s := Nat.iter k advance_state (state g) in
          chip_of s (if action_chip t <=? c then private_mask p else mask_at p c)) <$> seq 0 6.
Proof.
  intros t p st g. apply (privacy_switch st 0%N p g true 98301 (respond p true 98301).1 t 6); try reflexivity; [|by vm_compute..].
  split; [by vm_compute|]. intros q [= <-]. split; [constructor|]. by vm_compute.
Defined.

(** ** Masks *)
Lemma testbit_permute_esn esn i : (i < 32)%nat → Z.testbit (permute_esn esn) (Z.of_nat i) = Z.testbit esn (PERM !!! i).
Proof.
  intros Hi. unfold permute_esn.
  assert (∀ n, (n ≤ 32)%nat → Z.testbit (foldl (λ result out_bit,
    if Z.land (Z.shiftr esn (PERM !!! out_bit)) 1 =? 1 then Z.lor result (Z.shiftl 1 (Z.of_nat out_bit)) else result)
    0 (seq 0 n)) (Z.of_nat i) = if (i <? n)%nat then Z.testbit esn (PERM !!! i) else false) as H.
  { induction n as [|n IH]; intros Hn; [apply Z.bits_0|]. rewrite seq_S, foldl_app. simpl.
    assert (0 ≤ PERM !!! n) as Hp.
    { assert (Forall (Z.le 0) PERM) as F by (repeat constructor; lia).
      eapply Forall_lookup_total_1; [done|]. simpl. lia. }
    rewrite bit_test by done. rewrite Z.shiftl_1_l.
    destruct (Nat.eq_dec i n) as [->|Hin].
    - destruct (Nat.ltb_spec n n); [lia|]. destruct (Nat.ltb_spec n (S n)); [|lia].
      destruct (Z.testbit esn (PERM !!! n)); rewrite ?Z.lor_spec, IH by lia; rewrite ?Z.pow2_bits_true by lia; done.
    - assert ((i <? S n)%nat = (i <? n)%nat) as -> by (destruct (Nat.ltb_spec i n), (Nat.ltb_spec i (S n)); lia || done).
      case (Z.testbit esn (PERM !!! n)); [|by apply IH; lia].
      rewrite Z.lor_spec, Z.pow2_bits_eqb, IH by lia. destruct (Z.eqb_spec (Z.of_nat n) (Z.of_nat i)); [lia|]. apply orb_false_r. }
  rewrite (H 32%nat) by done. by destruct (Nat.ltb_spec i 32); [|lia].
Qed.

Lemma permute_esn_inj a b : is_u32 a → is_u32 b → permute_esn a = permute_esn b → a = b.
Proof.
  intros Ha Hb E. apply Z.bits_inj'. intros j Hj. destruct (decide (32 ≤ j)).
  { by rewrite (is_u_lt_pow 32 a), (is_u_lt_pow 32 b). }
  assert (forallb (λ j, existsb (λ i, PERM !!! i =? j) (seq 0 32)) (seqZ 0 32) = true) as H by (vm_compute; reflexivity).
  rewrite forallb_forall in H. specialize (H j). rewrite <- list_elem_of_In, elem_of_seqZ in H.
  apply existsb_exists in H as (i & Hi%in_seq & <-%Z.eqb_eq); [|lia].
  rewrite <- !testbit_permute_esn by lia. by rewrite E.
Qed.

Lemma permute_esn_range esn : is_u32 (permute_esn esn).
Proof.
  unfold permute_esn. assert (∀ l acc, is_u32 acc → (∀ i, i ∈ l → (i < 32)%nat) → is_u32 (foldl (λ result out_bit,
    if Z.land (Z.shiftr esn (PERM !!! out_bit)) 1 =? 1 then Z.lor result (Z.shiftl 1 (Z.of_nat out_bit)) else result) acc l)) as H.
  { induction l as [|i l IH]; intros acc Ha Hl; [done|]. simpl. apply IH; [|set_solver].
    case_match; [|done]. apply is_u_lor; [lia|done|]. rewrite Z.shiftl_1_l. specialize (Hl i ltac:(set_solver)).
    split; [lia|]. apply Z.pow_lt_mono_r; lia. }
  apply H; [done|]. intros i ?%elem_of_seq. lia.
Qed.

(** The channels with a mask of their own, with their parameters. *)
Inductive LongCodeChannel :=
| AccessChannel (acn pcn base_id pilot_pn : Z)
| PagingChannel (pcn pilot_pn : Z)
| TrafficEsn (esn : Z)
| TrafficImsi (imsi_s : Z)
| TrafficImsi34 (imsi_s : Z).
Definition in_range (c : LongCodeChannel) : Prop :=
  match c with
  | AccessChannel acn pcn base pilot => is_u 5 acn ∧ is_u 3 pcn ∧ is_u16 base ∧ is_u 9 pilot
  | PagingChannel pcn pilot => is_u 3 pcn ∧ is_u 9 pilot
  | TrafficEsn esn => is_u32 esn
  | TrafficImsi imsi => is_u32 imsi
  | TrafficImsi34 imsi => is_u 34 imsi
  end.
Definition channel_mask (c : LongCodeChannel) : Z :=
  mask match c with
       | AccessChannel acn pcn base pilot => new_access_channel acn pcn base pilot
       | PagingChannel pcn pilot => new_paging_channel pcn pilot
       | TrafficEsn esn => new_traffic_channel esn
       | TrafficImsi imsi => new_traffic_channel_imsi_s imsi
       | TrafficImsi34 imsi => new_traffic_channel_imsi_s_34bit imsi
       end.

Lemma land_small n v : 0 ≤ n → is_u n v → Z.land v (Z.ones n) = v.
Proof. intros. rewrite Z.land_ones by done. by apply Z.mod_small. Qed.

(** Fields that do not overlap add up. *)
Lemma access_mask acn pcn base pilot :
  in_range (AccessChannel acn pcn base pilot) →
  channel_mask (AccessChannel acn pcn base pilot) = (((399 * 32 + acn) * 8 + pcn) * 65536 + base) * 512 + pilot.
Proof.
  intros (Ha & Hp & Hb & Hi). cbn. unfold lor4.
  change 0x1f with (Z.ones 5). change 0x7 with (Z.ones 3). change 0xffff with (Z.ones 16). change 0x1ff with (Z.ones 9).
  rewrite !land_small by done.
  assert (∀ hi lo n k m, m = n + k → 0 ≤ n → 0 ≤ k → is_u n lo → Z.lor (Z.shiftl hi m) (Z.shiftl lo k) = Z.shiftl (hi * 2 ^ n + lo) k) as C.
  { intros hi lo n k m -> Hn Hk Hl. rewrite <- Z.shiftl_shiftl, <- Z.shiftl_lor by done. by rewrite lor_shiftl_add. }
  rewrite (C 399 acn 5 28 33), (C _ pcn 3 25 28), (C _ base 16 9 25), lor_shiftl_add by (done || lia). lia.
Qed.

Lemma paging_mask pcn pilot :
  in_range (PagingChannel pcn pilot) → channel_mask (PagingChannel pcn pilot) = (6349 * 256 + pcn) * 2097152 + pilot.
Proof.
  intros (Hp & Hi). cbn. change 0x7 with (Z.ones 3). change 0x1ff with (Z.ones 9). rewrite !land_small by done.
  change (Z.shiftl 6349 29) with (Z.shiftl (Z.shiftl 6349 8) 21). rewrite <- Z.shiftl_lor.
  rewrite lor_shiftl_add by (done || (unfold is_u in *; lia)).
  rewrite lor_shiftl_add by (lia || (unfold is_u in *; lia)). lia.
Qed.

(** C23: No two channels share a long code phase.  The masks of access, paging and traffic channels
    fit the register, and two channels with parameters in the range of their fields have
    the same mask only if they are the same channel (of a type 0001 mask only the low 32 bits
    of the IMSI count). *)
Theorem long_code_masks_distinct c d :
  in_range c → in_range d →
  is_u 42 (channel_mask c) ∧ (channel_mask c = channel_mask d → c = d).
Proof.
  assert (∀ c, in_range c → ∃ m, channel_mask c = m ∧
    match c with
    | AccessChannel acn pcn base pilot => m = (((399 * 32 + acn) * 8 + pcn) * 65536 + base) * 512 + pilot
    | PagingChannel pcn pilot => m = (6349 * 256 + pcn) * 2097152 + pilot
    | TrafficEsn esn => m = 792 * 2 ^ 32 + permute_esn esn
    | TrafficImsi imsi => m = 769 * 2 ^ 32 + imsi
    | TrafficImsi34 imsi => m = 193 * 2 ^ 34 + imsi
    end) as F.
  { intros x Hx. eexists. split; [done|]. destruct x; cbn in Hx.
    - by apply access_mask.
    - by apply paging_mask.
    - apply (lor_shiftl_add 792 _ 32); [lia|apply permute_esn_range].
    - change (Z.lor (Z.shiftl 769 32) (Z.land imsi_s (Z.ones 32)) = 769 * 2 ^ 32 + imsi_s).
      rewrite land_small by (done || lia). by apply (lor_shiftl_add 769 _ 32).
    - change (Z.lor (Z.shiftl 193 34) (Z.land imsi_s (Z.ones 34)) = 193 * 2 ^ 34 + imsi_s).
      rewrite land_small by (done || lia). by apply (lor_shiftl_add 193 _ 34). }
  intros Hc Hd. destruct (F c Hc) as (m & -> & Em), (F d Hd) as (m' & -> & Em'). clear F. 
  destruct c, d; cbn [in_range] in *; unfold is_u in *; repeat match goal with
    | _ : context [permute_esn ?e] |- _ =>
        lazymatch goal with
        | _ : 0 ≤ permute_esn e < 2 ^ 32 |- _ => fail
        | _ => pose proof (permute_esn_range e : 0 ≤ permute_esn e < 2 ^ 32)
        end
    end; (split; [lia|]); intros E; first [exfalso; lia|f_equal; lia|idtac].
  f_equal. apply permute_esn_inj; [done..|lia].
Qed.
Lemma long_code_masks_distinct_witness :
  is_u 42 (channel_mask (TrafficEsn 0x80857e58)) ∧
  (channel_mask (TrafficEsn 0x80857e58) = channel_mask (TrafficEsn 0x80857e59) → TrafficEsn 0x80857e58 = TrafficEsn 0x80857e59).
Proof. apply long_code_masks_distinct; by vm_compute. Defined.
