(* ===== verification/PowerCadence.v ===== *)
(** * The data burst randomizer and the power control cadence

    [cdma-common/src/phy/data_burst_randomizer.rs] and
    [cdma-bts/src/lib/channels/rc12_power_control.rs]: the power control groups a mobile of radio
    configuration 1 or 2 transmits at each rate, drawn from its long code, and the forward
    power control bits that answer the two groups of each frame that are transmitted at any rate. *)
From S2P Require Import Prelude LongCode LongCodeProofs.
Import LongCode.

Module PowerCadence.

Definition RC12_PCGS_PER_FRAME : nat := 16.
Definition RC12_CHIPS_PER_PCG : Z := 1536.
Definition RC12_RANDOMIZER_LC_BITS : nat := 14.
Definition RC12_RANDOMIZER_LEAD_CHIPS : Z := RC12_CHIPS_PER_PCG + Z.of_nat RC12_RANDOMIZER_LC_BITS.

Inductive Rc12ReverseRate := Full | Half | Quarter | Eighth.

(** [active[i] = true] for each index, or the panic of the first that is out of range. *)
Definition activate (idxs : list Z) : rust (list bool) :=
  foldl (λ active i, a ← active; set_index a (Z.to_nat i) true) (Some (replicate RC12_PCGS_PER_FRAME false)) idxs.

(** [if b[s] == 0 { base + b[i] } else { base + 2 + b[i + 1] }] *)
Definition choose (b : list Z) (s : nat) (base : Z) (i : nat) : Z :=
  if b !!! s =? 0 then base + b !!! i else base + 2 + b !!! S i.

Definition active_pcgs_from_bits (b : list Z) (rate : Rc12ReverseRate) : rust (list bool) :=
  match rate with
  | Half => activate ((λ i : nat, 2 * Z.of_nat i + b !!! i) <$> seq 0 8)
  | Quarter => activate [choose b 8 0 0; choose b 9 4 2; choose b 10 8 4; choose b 11 12 6]
  | Eighth =>
      let lower := if b !!! 12%nat =? 0 then choose b 8 0 0 else choose b 9 4 2 in
      let upper := if b !!! 13%nat =? 0 then choose b 10 8 4 else choose b 11 12 6 in
      activate [lower; upper]
  | Full => Some (replicate RC12_PCGS_PER_FRAME true)
  end.

Definition randomizer_bits (st : Arcs) (long_code_origin : LongCodeGenerator) (frame_chip_start : Z) : list Z :=
  let offset := Z.max 0 (frame_chip_start - RC12_RANDOMIZER_LEAD_CHIPS) in
  (generate_sequence st (advance_chips st long_code_origin offset) RC12_RANDOMIZER_LC_BITS).2.

Definition active_pcgs (st : Arcs) (long_code_origin : LongCodeGenerator) (frame_chip_start : Z)
    (rate : Rc12ReverseRate) : rust (list bool) :=
  match rate with
  | Full => Some (replicate RC12_PCGS_PER_FRAME true)
  | _ => active_pcgs_from_bits (randomizer_bits st long_code_origin frame_chip_start) rate
  end.

(** ** The cadence of power control bits *)
Definition RC12_PCB_VALIDITY_DELAY_PCGS : Z := 2.
Definition GUARANTEED_SLOTS_PER_FRAME : Z := 2.

Record Rc12PowerControlSlot := mkSlot { guaranteed_ordinal : option Z; hold_bit : Z }.
Definition guaranteed_valid (s : Rc12PowerControlSlot) : bool :=
  match guaranteed_ordinal s with Some _ => true | None => false end.

(** The closure of [array::from_fn], with the counters it captures. *)
Definition slot_step (half quarter eighth : list bool) (frame_index : Z)
    (acc : list Z * Z * list Rc12PowerControlSlot) (pcg : nat) : list Z * Z * list Rc12PowerControlSlot :=
  let '(tier_ordinals, guaranteed_in_frame, slots) := acc in
  let tier := if (eighth !!! pcg : bool) then 0%nat else if (quarter !!! pcg : bool) then 1%nat else if (half !!! pcg : bool) then 2%nat else 3%nat in
  let hold := Z.land (tier_ordinals !!! tier) 1 in
  let tier_ordinals := <[tier := wrap 8 (tier_ordinals !!! tier + 1)]> tier_ordinals in
  if (tier =? 0)%nat then
    let ordinal := wrap 64 (wrap 64 (frame_index * GUARANTEED_SLOTS_PER_FRAME) + guaranteed_in_frame) in
    (tier_ordinals, guaranteed_in_frame + 1, slots ++ [mkSlot (Some ordinal) hold])
  else (tier_ordinals, guaranteed_in_frame, slots ++ [mkSlot None hold]).

Definition source_frame_slots (st : Arcs) (reverse_long_code_origin : LongCodeGenerator) (frame_start_abs_pcg : Z)
    : rust (list Rc12PowerControlSlot) :=
  let frame_chip_start := wrap 64 (frame_start_abs_pcg * RC12_CHIPS_PER_PCG) in
  half ← active_pcgs st reverse_long_code_origin frame_chip_start Half;
  quarter ← active_pcgs st reverse_long_code_origin frame_chip_start Quarter;
  eighth ← active_pcgs st reverse_long_code_origin frame_chip_start Eighth;
  let frame_index := frame_start_abs_pcg / Z.of_nat RC12_PCGS_PER_FRAME in
  Some (foldl (slot_step half quarter eighth frame_index) ([0; 0; 0; 0], 0, []) (seq 0 RC12_PCGS_PER_FRAME)).2.

(** One round of the iterator, with the frame it keeps. *)
Definition slot_round (st : Arcs) (o : LongCodeGenerator) (pcb_abs_pcg : Z)
    (cached : option (Z * list Rc12PowerControlSlot)) : rust (option (Z * list Rc12PowerControlSlot) * Rc12PowerControlSlot) :=
  if pcb_abs_pcg <? RC12_PCB_VALIDITY_DELAY_PCGS then Some (cached, mkSlot None (Z.land pcb_abs_pcg 1))
  else
    let source_abs_pcg := pcb_abs_pcg - RC12_PCB_VALIDITY_DELAY_PCGS in
    let frame_start_abs_pcg := source_abs_pcg / Z.of_nat RC12_PCGS_PER_FRAME * Z.of_nat RC12_PCGS_PER_FRAME in
    slots ← match cached with
            | Some (f, slots) => if f =? frame_start_abs_pcg then Some slots else source_frame_slots st o frame_start_abs_pcg
            | None => source_frame_slots st o frame_start_abs_pcg
            end;
    slot ← index slots (Z.to_nat (source_abs_pcg mod Z.of_nat RC12_PCGS_PER_FRAME));
    Some (Some (frame_start_abs_pcg, slots), slot).

Fixpoint slot_rounds (st : Arcs) (o : LongCodeGenerator) (start_abs_pcg : Z) (count : nat)
    (cached : option (Z * list Rc12PowerControlSlot)) : rust (list Rc12PowerControlSlot) :=
  match count with
  | O => Some []
  | S count =>
      '(cached, slot) ← slot_round st o (wrap 64 start_abs_pcg) cached;
      rest ← slot_rounds st o (start_abs_pcg + 1) count cached;
      Some (slot :: rest)
  end.
Definition power_control_slots (st : Arcs) (o : LongCodeGenerator) (start_abs_pcg : Z) (count : nat) : rust (list Rc12PowerControlSlot) :=
  slot_rounds st o start_abs_pcg count None.

Definition guaranteed_ordinal_for_measurement (st : Arcs) (o : LongCodeGenerator) (measured_abs_pcg : Z) : rust (option Z) :=
  slots ← power_control_slots st o (Z.min (measured_abs_pcg + RC12_PCB_VALIDITY_DELAY_PCGS) (2 ^ 64 - 1)) 1;
  slot ← index slots 0; Some (guaranteed_ordinal slot).

(** [iter().position(..)] *)
Fixpoint position {A} (f : A → bool) (l : list A) : option nat :=
  match l with [] => None | x :: l => if f x then Some O else S <$> position f l end.

Definition pcb_abs_pcg_for_guaranteed_ordinal (st : Arcs) (o : LongCodeGenerator) (ordinal : Z) : rust Z :=
  let frame_index := ordinal / GUARANTEED_SLOTS_PER_FRAME in
  let ordinal_in_frame := ordinal mod GUARANTEED_SLOTS_PER_FRAME in
  let frame_start_abs_pcg := wrap 64 (frame_index * Z.of_nat RC12_PCGS_PER_FRAME) in
  slots ← source_frame_slots st o frame_start_abs_pcg;
  source_pcg ← position (λ s, match guaranteed_ordinal s with
                              | Some x => x =? wrap 64 (frame_index * GUARANTEED_SLOTS_PER_FRAME + ordinal_in_frame)
                              | None => false
                              end) slots;
  Some (wrap 64 (frame_start_abs_pcg + Z.of_nat source_pcg + RC12_PCB_VALIDITY_DELAY_PCGS)).

End PowerCadence.

Import PowerCadence.

(** ** The sets of each rate *)
Fixpoint all_bits (n : nat) : list (list Z) :=
  match n with O => [[]] | S n => b ← [0; 1]; l ← all_bits n; [b :: l] end.

Lemma all_bits_spec n l : length l = n → bitstring l → l ∈ all_bits n.
Proof.
  revert l. induction n as [|n IH]; intros [|b l] E H; try done; [by apply list_elem_of_singleton|].
  apply Forall_cons in H as [Hb H]. injection E as E. cbn [all_bits]. apply list_elem_of_bind.
  exists b. split; [|unfold is_u in Hb; assert (b = 0 ∨ b = 1) by lia; set_solver].
  apply list_elem_of_bind. exists l. split; [set_solver|by apply IH].
Qed.

Definition count_true (l : list bool) : nat := length (filter (λ b, b = true) l).
Fixpoint implb_all (a b : list bool) : bool :=
  match a, b with x :: a, y :: b => implb x y && implb_all a b | _, _ => true end.

(** What the sets of one draw of bits satisfy. *)
Definition nested_sets (h q e : list bool) : bool :=
  (length h =? 16)%nat && (length q =? 16)%nat && (length e =? 16)%nat &&
  (count_true h =? 8)%nat && (count_true q =? 4)%nat && (count_true e =? 2)%nat && (count_true (take 8 e) =? 1)%nat &&
  implb_all e q && implb_all q h.
Definition nested_draw (b : list Z) : bool :=
  match active_pcgs_from_bits b Half, active_pcgs_from_bits b Quarter, active_pcgs_from_bits b Eighth with
  | Some h, Some q, Some e => nested_sets h q e
  | _, _, _ => false
  end.

Lemma nested_draw_all b : length b = 14%nat → bitstring b → nested_draw b = true.
Proof.
  intros Hl Hb. assert (forallb nested_draw (all_bits 14) = true) as H by (vm_compute; reflexivity).
  rewrite forallb_forall in H. apply H, list_elem_of_In. by apply all_bits_spec.
Qed.

Lemma generate_bits st n : ∀ g, length (generate_sequence st g n).2 = n ∧ bitstring (generate_sequence st g n).2.
Proof.
  induction n as [|n IH]; intros g; [split; [done|constructor]|]. cbn [generate_sequence].
  assert (is_u 1 (next_chip st g).2) as Hc.
  { unfold next_chip. cbn [snd]. unfold peek_output. rewrite land_1. by apply Z.mod_pos_bound. }
  destruct (next_chip st g) as [g' c]. specialize (IH g'). destruct (generate_sequence st g' n) as [g'' cs].
  destruct IH as [Hl Hb]. cbn in *. split; [by rewrite Hl|]. by constructor.
Qed.

Lemma active_pcgs_sets st o start : ∃ h q e,
  active_pcgs st o start Half = Some h ∧ active_pcgs st o start Quarter = Some q ∧
  active_pcgs st o start Eighth = Some e ∧ nested_sets h q e = true.
Proof.
  unfold active_pcgs, randomizer_bits.
  destruct (generate_bits st RC12_RANDOMIZER_LC_BITS
    (advance_chips st o (Z.max 0 (start - RC12_RANDOMIZER_LEAD_CHIPS)))) as [Hl Hb].
  revert Hl Hb. generalize ((generate_sequence st
    (advance_chips st o (Z.max 0 (start - RC12_RANDOMIZER_LEAD_CHIPS))) RC12_RANDOMIZER_LC_BITS).2). intros b Hl Hb.
  pose proof (nested_draw_all b Hl Hb) as H. unfold nested_draw in H.
  destruct (active_pcgs_from_bits b Half) as [h|], (active_pcgs_from_bits b Quarter) as [q|],
    (active_pcgs_from_bits b Eighth) as [e|]; try done. by exists h, q, e.
Qed.

Lemma implb_all_spec a b i : implb_all a b = true → a !! i = Some true → (i < length b)%nat → b !! i = Some true.
Proof.
  revert b i. induction a as [|x a IH]; intros [|y b] i H Ha Hi; simpl in *; try done; try lia.
  apply andb_prop in H as [H1 H2]. destruct i as [|i]; simpl in *.
  - injection Ha as ->. simpl in H1. by subst.
  - apply IH; [done..|lia].
Qed.

(** The data burst randomizer.  For any long code and any frame, drawing the groups never goes out of
    range; the groups gated on are 16, 8, 4 and 2 of the 16 at the four rates, each set inside that of
    the next higher rate; and one of the two groups of the lowest rate lies in each half of the frame. *)
Theorem randomizer_sets st o start : ∃ f h q e,
  active_pcgs st o start Full = Some f ∧ active_pcgs st o start Half = Some h ∧
  active_pcgs st o start Quarter = Some q ∧ active_pcgs st o start Eighth = Some e ∧
  (length f = 16 ∧ length h = 16 ∧ length q = 16 ∧ length e = 16)%nat ∧
  (count_true f = 16 ∧ count_true h = 8 ∧ count_true q = 4 ∧ count_true e = 2)%nat ∧
  count_true (take 8 e) = 1%nat ∧
  ∀ i : nat, (e !! i = Some true → q !! i = Some true) ∧ (q !! i = Some true → h !! i = Some true) ∧
    (h !! i = Some true → f !! i = Some true).
Proof.
  destruct (active_pcgs_sets st o start) as (h & q & e & -> & -> & -> & H). unfold nested_sets in H.
  rewrite !andb_true_iff, !Nat.eqb_eq in H. destruct H as ((((((((L1 & L2) & L3) & C1) & C2) & C3) & C4) & I1) & I2).
  exists (replicate 16 true), h, q, e. do 4 (split; [done|]). do 2 (split; [done|]). split; [done|].
  intros i. repeat split; intros Hi; pose proof (lookup_lt_Some _ _ _ Hi).
  - apply (implb_all_spec e); [done..|lia].
  - apply (implb_all_spec q); [done..|lia].
  - apply lookup_replicate. split; [done|lia].
Qed.

(** ** The slots of a frame *)
#[local] Arguments wrap : simpl never.
#[local] Arguments count_true : simpl never.
Lemma slot_fold h q e fi n :
  (n ≤ length e)%nat →
  let r := foldl (slot_step h q e fi) ([0; 0; 0; 0], 0, []) (seq 0 n) in
  r.1.2 = Z.of_nat (count_true (take n e)) ∧ length r.2 = n ∧
  ∀ i, (i < n)%nat → guaranteed_ordinal <$> r.2 !! i =
    Some (if (e !!! i : bool) then Some (wrap 64 (wrap 64 (fi * 2) + Z.of_nat (count_true (take i e)))) else None).
Proof.
  induction n as [|n IH]; intros Hn; [repeat split; simpl; lia|].
  rewrite seq_S, foldl_app. specialize (IH ltac:(lia)). cbn zeta in IH |- *.
  cbn [foldl].
  destruct (foldl _ _ (seq 0 n)) as [[to g] slots]. cbn in IH. destruct IH as (-> & Hl & Hs).
  destruct (lookup_lt_is_Some_2 e n ltac:(lia)) as [b Eb].
  assert (e !!! n = b) as Et by by apply list_lookup_total_correct.
  assert (count_true (take (S n) e) = count_true (take n e) + (if b then 1 else 0))%nat as Ec.
  { rewrite (take_S_r _ _ b) by done. unfold count_true. rewrite filter_app, length_app. by destruct b. }
  assert (∀ s, guaranteed_ordinal s = (if b then Some (wrap 64 (wrap 64 (fi * 2) + Z.of_nat (count_true (take n e)))) else None) →
    ∀ i, (i < S n)%nat → guaranteed_ordinal <$> (slots ++ [s]) !! i =
      Some (if (e !!! i : bool) then Some (wrap 64 (wrap 64 (fi * 2) + Z.of_nat (count_true (take i e)))) else None)) as Hnew.
  { intros s Es i Hi. destruct (decide (i = n)) as [->|].
    - rewrite lookup_app_r, Hl, Nat.sub_diag by lia. cbn. by rewrite Es, Et.
    - rewrite lookup_app_l by lia. apply Hs. lia. }
  unfold slot_step. rewrite Nat.add_0_l, Et, Ec. destruct b.
  - cbn. split; [lia|]. split; [rewrite length_app; simpl; lia|]. by apply Hnew.
  - destruct (q !!! n : bool), (h !!! n : bool); cbn; (split; [lia|]); (split; [rewrite length_app; simpl; lia|]); by apply Hnew.
Qed.

Lemma count_true_S l i : (i < length l)%nat →
  count_true (take (S i) l) = (count_true (take i l) + if (l !!! i : bool) then 1 else 0)%nat.
Proof.
  intros Hi. destruct (lookup_lt_is_Some_2 l i Hi) as [b Eb]. rewrite (take_S_r _ _ b) by done.
  rewrite (list_lookup_total_correct _ _ _ Eb). unfold count_true. rewrite filter_app, length_app. by destruct b.
Qed.

Lemma count_true_mono l i j : (i ≤ j ≤ length l)%nat → (count_true (take i l) ≤ count_true (take j l))%nat.
Proof.
  intros [Hij Hj]. induction Hij as [|j Hij IH]; [done|]. rewrite count_true_S by lia. specialize (IH ltac:(lia)). lia.
Qed.

(** The [g]-th group that is on. *)
Lemma select_true l g : (g < count_true l)%nat →
  ∃ i, (i < length l)%nat ∧ l !!! i = true ∧ count_true (take i l) = g.
Proof.
  intros Hg. assert (∀ n, (n ≤ length l)%nat → (g < count_true (take n l))%nat →
    ∃ i, (i < length l)%nat ∧ l !!! i = true ∧ count_true (take i l) = g) as H.
  { induction n as [|n IH]; intros Hn Hc; [unfold count_true in Hc; simpl in Hc; lia|].
    rewrite count_true_S in Hc by lia. destruct (decide (g < count_true (take n l))%nat); [apply IH; lia|].
    destruct (l !!! n : bool) eqn:E; [|lia]. exists n. split; [lia|]. split; [done|lia]. }
  apply (H (length l)); [done|]. by rewrite take_ge.
Qed.

Lemma select_unique l i j :
  (i < length l)%nat → (j < length l)%nat → l !!! i = true → l !!! j = true →
  count_true (take i l) = count_true (take j l) → i = j.
Proof.
  assert (∀ i j, (i < j < length l)%nat → l !!! i = true → (count_true (take i l) < count_true (take j l))%nat) as H.
  { intros i' j' Hij Hi. pose proof (count_true_mono l (S i') j' ltac:(lia)) as M.
    rewrite count_true_S, Hi in M by lia. lia. }
  intros Hi Hj Ti Tj E. destruct (Nat.lt_trichotomy i j) as [L|[L|L]]; [|done|].
  - specialize (H i j ltac:(lia) Ti). lia.
  - specialize (H j i ltac:(lia) Tj). lia.
Qed.

Lemma position_spec {A} (f : A → bool) l k x :
  l !! k = Some x → f x = true → (∀ j y, (j < k)%nat → l !! j = Some y → f y = false) → position f l = Some k.
Proof.
  revert k. induction l as [|z l IH]; intros k Hk Hx Hj; [done|]. simpl. destruct k as [|k].
  - injection Hk as ->. by rewrite Hx.
  - rewrite (Hj 0%nat z) by (done || lia). rewrite (IH k); [done..|].
    intros j y Hjk Hy. apply (Hj (S j)); [lia|done].
Qed.

(** A frame has its sixteen slots, two of them guaranteed, numbered in order. *)
Lemma frame_slots st o F : ∃ slots e, source_frame_slots st o F = Some slots ∧
  length slots = 16%nat ∧ length e = 16%nat ∧ count_true e = 2%nat ∧
  ∀ i, (i < 16)%nat → guaranteed_ordinal <$> slots !! i =
    Some (if (e !!! i : bool) then Some (wrap 64 (wrap 64 (F / 16 * 2) + Z.of_nat (count_true (take i e)))) else None).
Proof.
  unfold source_frame_slots. destruct (active_pcgs_sets st o (wrap 64 (F * RC12_CHIPS_PER_PCG))) as (h & q & e & -> & -> & -> & H).
  unfold nested_sets in H. rewrite !andb_true_iff, !Nat.eqb_eq in H.
  destruct H as ((((((((L1 & L2) & L3) & C1) & C2) & C3) & C4) & I1) & I2).
  destruct (slot_fold h q e (F / 16) 16 ltac:(lia)) as (_ & Hl & Hs).
  eexists _, e. by repeat (split; [done|]).
Qed.

Lemma slot_round_None st o p : 2 ≤ p → ∃ slots, source_frame_slots st o ((p - 2) / 16 * 16) = Some slots ∧
  length slots = 16%nat ∧ ∀ c, match c with Some (f, l) => source_frame_slots st o f = Some l | None => True end →
  slot_round st o p c = (s ← slots !! Z.to_nat ((p - 2) mod 16); Some (Some ((p - 2) / 16 * 16, slots), s)).
Proof.
  intros Hp. destruct (frame_slots st o ((p - 2) / 16 * 16)) as (slots & e & E & Hl & _).
  exists slots. do 2 (split; [done|]). intros c Hc. unfold slot_round.
  destruct (Z.ltb_spec p RC12_PCB_VALIDITY_DELAY_PCGS) as [L|_]; [unfold RC12_PCB_VALIDITY_DELAY_PCGS in L; lia|].
  change (Z.of_nat RC12_PCGS_PER_FRAME) with 16. unfold RC12_PCB_VALIDITY_DELAY_PCGS.
  destruct c as [[f l]|]; [destruct (Z.eqb_spec f ((p - 2) / 16 * 16)) as [->|]|]; rewrite ?E; [|done..].
  rewrite E in Hc. injection Hc as <-. done.
Qed.

(** The slot of one power control bit. *)
Definition slot_at (st : Arcs) (o : LongCodeGenerator) (p : Z) : rust Rc12PowerControlSlot := snd <$> slot_round st o p None.

Lemma slot_round_valid st o p c : 0 ≤ p →
  match c with Some (f, l) => source_frame_slots st o f = Some l | None => True end →
  ∃ c' s, slot_round st o p c = Some (c', s) ∧ slot_at st o p = Some s ∧
    match c' with Some (f, l) => source_frame_slots st o f = Some l | None => True end.
Proof.
  intros Hp Hc. unfold slot_at. destruct (decide (p < 2)).
  - unfold slot_round. destruct (Z.ltb_spec p RC12_PCB_VALIDITY_DELAY_PCGS) as [_|L]; [by eexists _, _|].
    unfold RC12_PCB_VALIDITY_DELAY_PCGS in L. lia.
  - destruct (slot_round_None st o p ltac:(lia)) as (slots & E & Hl & H).
    pose proof (H None I) as ->. pose proof (H c Hc) as ->.
    destruct (lookup_lt_is_Some_2 slots (Z.to_nat ((p - 2) mod 16))) as [s Es].
    { pose proof (Z.mod_pos_bound (p - 2) 16). lia. }
    rewrite Es. exists (Some ((p - 2) / 16 * 16, slots)), s. split; [reflexivity|]. split; [reflexivity|exact E].
Qed.

(** The iterator's cache of a frame is transparent, and no index is out of range. *)
Lemma slots_pointwise st o n : ∀ start c, 0 ≤ start → start + Z.of_nat n ≤ 2 ^ 64 →
  match c with Some (f, l) => source_frame_slots st o f = Some l | None => True end →
  ∃ l, slot_rounds st o start n c = Some l ∧ length l = n ∧
    ∀ i : nat, (i < n)%nat → l !! i = slot_at st o (start + Z.of_nat i).
Proof.
  induction n as [|n IH]; intros start c H0 Hn Hc; [exists []; split; [done|]; split; [done|]; intros; lia|]. cbn [slot_rounds].
  rewrite wrap_small by (unfold is_u; lia).
  destruct (slot_round_valid st o start c H0 Hc) as (c' & s & -> & Hs & Hc').
  destruct (IH (start + 1) c' ltac:(lia) ltac:(lia) Hc') as (l & E & Hl & H). cbn. rewrite E. cbn.
  exists (s :: l). split; [done|]. split; [simpl; lia|]. intros [|i] Hi; cbn.
  - by rewrite Z.add_0_r, Hs.
  - rewrite H by lia. f_equal. lia.
Qed.

Lemma slot_at_frame st o f i slots :
  0 ≤ f → (i < 16)%nat → source_frame_slots st o (f * 16) = Some slots →
  slot_at st o (f * 16 + Z.of_nat i + 2) = slots !! i.
Proof.
  intros Hf Hi E. unfold slot_at.
  destruct (slot_round_None st o (f * 16 + Z.of_nat i + 2) ltac:(lia)) as (slots' & E' & _ & H).
  pose proof (H None I) as ->. replace (f * 16 + Z.of_nat i + 2 - 2) with (Z.of_nat i + f * 16) in * by lia.
  rewrite Z.div_add, Z.mod_add, Z.div_small, Z.mod_small, Z.add_0_l in * by lia. rewrite E in E'. injection E' as <-.
  rewrite Nat2Z.id. by destruct (slots !! i).
Qed.

(** Every slot after the first two belongs to a group of a frame. *)
Lemma slot_frame p : 2 ≤ p → ∃ f (i : nat), 0 ≤ f ∧ (i < 16)%nat ∧ p = f * 16 + Z.of_nat i + 2.
Proof. intros Hp. exists ((p - 2) / 16), (Z.to_nat ((p - 2) mod 16)). zdiv. Qed.

Lemma frame_ordinals st o f : 0 ≤ f < 2 ^ 58 → ∃ slots e, source_frame_slots st o (f * 16) = Some slots ∧
  length e = 16%nat ∧ count_true e = 2%nat ∧
  ∀ i, (i < 16)%nat → ∃ s, slots !! i = Some s ∧
    guaranteed_ordinal s = if (e !!! i : bool) then Some (f * 2 + Z.of_nat (count_true (take i e))) else None.
Proof.
  intros Hf. destruct (frame_slots st o (f * 16)) as (slots & e & E & Hl & He & Hc & Hs). exists slots, e.
  split; [done|]. split; [done|]. split; [done|]. intros i Hi. specialize (Hs i Hi).
  destruct (slots !! i) as [s|]; [|done]. exists s. split; [done|]. cbn in Hs. injection Hs as ->.
  rewrite Z.div_mul by lia. pose proof (count_true_mono e i 16 ltac:(lia)) as M. rewrite (take_ge e 16), Hc in M by lia.
  destruct (e !!! i : bool); [|done]. by rewrite (wrap_small _ (f * 2)), wrap_small by (unfold is_u; lia).
Qed.

Definition is_guaranteed (st : Arcs) (o : LongCodeGenerator) (p ordinal : Z) : Prop :=
  ∃ s, power_control_slots st o p 1 = Some [s] ∧ guaranteed_ordinal s = Some ordinal.

Lemma is_guaranteed_at st o p ordinal : 0 ≤ p < 2 ^ 64 →
  is_guaranteed st o p ordinal ↔ ∃ s, slot_at st o p = Some s ∧ guaranteed_ordinal s = Some ordinal.
Proof.
  intros Hp. destruct (slots_pointwise st o 1 p None ltac:(lia) ltac:(lia) I) as (l & E & Hl & H).
  destruct l as [|s [|]]; try done. specialize (H 0%nat ltac:(lia)). rewrite Z.add_0_r in H. cbn in H.
  unfold is_guaranteed, power_control_slots. rewrite E, <- H. split.
  - intros (s' & [= ->] & ?). eauto.
  - intros (s' & [= ->] & ?). eauto.
Qed.

(** The bit of an ordinal is the slot of the group it numbers. *)
Lemma pcb_slot st o n : 0 ≤ n < 2 ^ 58 →
  ∃ slots e (i : nat), source_frame_slots st o (n / 2 * 16) = Some slots ∧
  length e = 16%nat ∧ (i < 16)%nat ∧ e !!! i = true ∧ Z.of_nat (count_true (take i e)) = n mod 2 ∧
  (∀ j, (j < 16)%nat → ∃ s, slots !! j = Some s ∧
    guaranteed_ordinal s = if (e !!! j : bool) then Some (n / 2 * 2 + Z.of_nat (count_true (take j e))) else None) ∧
  pcb_abs_pcg_for_guaranteed_ordinal st o n = Some (n / 2 * 16 + Z.of_nat i + 2).
Proof.
  intros Hn. destruct (frame_ordinals st o (n / 2) ltac:(zdiv)) as (slots & e & E & Hl & Hc & Hs).
  destruct (select_true e (Z.to_nat (n mod 2))) as (i & Hi & Ti & Ci); [rewrite Hc; zdiv|]. rewrite Hl in Hi.
  exists slots, e, i. do 4 (split; [done|]). split; [zdiv|]. split; [done|].
  unfold pcb_abs_pcg_for_guaranteed_ordinal, GUARANTEED_SLOTS_PER_FRAME, RC12_PCB_VALIDITY_DELAY_PCGS.
  change (Z.of_nat RC12_PCGS_PER_FRAME) with 16. rewrite (wrap_small _ (n / 2 * 16)) by (unfold is_u; zdiv).
  rewrite E. cbn [mbind option_bind].
  rewrite (wrap_small _ (n / 2 * 2 + n mod 2)) by (unfold is_u; zdiv).
  destruct (Hs i Hi) as (s & Es & Os). rewrite (position_spec _ slots i s Es).
  - cbn. rewrite wrap_small; [done|]. unfold is_u. zdiv.
  - rewrite Os, Ti. apply Z.eqb_eq. zdiv.
  - intros j y Hj Ej. destruct (Hs j ltac:(lia)) as (y' & Ey & Oy). rewrite Ej in Ey. injection Ey as <-.
    rewrite Oy. destruct (e !!! j : bool) eqn:Tj; [|done]. apply Z.eqb_neq. intros Eq.
    apply (select_unique e j i) in Tj; [lia|lia|lia|done|]. zdiv.
Qed.

(** No other slot has the ordinal. *)
Lemma guaranteed_unique st o ordinal p p' :
  0 ≤ ordinal < 2 ^ 58 → pcb_abs_pcg_for_guaranteed_ordinal st o ordinal = Some p →
  0 ≤ p' < 2 ^ 60 → is_guaranteed st o p' ordinal → p' = p.
Proof.
  intros Ho Hp Hp' Hg'. destruct (pcb_slot st o ordinal Ho) as (slots & e & i & E & Hl & Hi & Ti & Ci & Hs & Hpp).
  rewrite Hpp in Hp. injection Hp as <-.
  apply is_guaranteed_at in Hg' as (s & Es & Os); [|lia].
  assert (2 ≤ p') as Hp2.
  { destruct (decide (2 ≤ p')); [done|]. unfold slot_at, slot_round in Es.
    destruct (Z.ltb_spec p' RC12_PCB_VALIDITY_DELAY_PCGS) as [_|L]; [|unfold RC12_PCB_VALIDITY_DELAY_PCGS in L; lia].
    injection Es as <-. discriminate Os. }
  destruct (slot_frame p' Hp2) as (f & j & Hf & Hj & ->).
  destruct (frame_ordinals st o f ltac:(lia)) as (slots' & e' & E' & Hl' & Hc' & Hs').
  rewrite (slot_at_frame st o f j slots') in Es by done. destruct (Hs' j Hj) as (s' & Es' & Os').
  rewrite Es in Es'. injection Es' as <-. rewrite Os in Os'. destruct (e' !!! j : bool) eqn:Tj; [|done].
  injection Os' as Os'.
  pose proof (count_true_mono e' (S j) 16 ltac:(lia)) as M. rewrite count_true_S, Tj, (take_ge e' 16), Hc' in M by lia.
  assert (f = ordinal / 2) as -> by zdiv. rewrite E in E'. injection E' as <-.
  destruct (Hs j Hj) as (s' & Es' & Os''). rewrite Es in Es'. injection Es' as <-. rewrite Os in Os''.
  destruct (e !!! j : bool) eqn:Tj'; [|done]. injection Os'' as Os''.
  assert (j = i) as ->; [|done]. apply (select_unique e); [lia|lia|done|done|]. zdiv.
Qed.

(** C24: Closed loop power control on the guaranteed groups.  Each ordinal has exactly one forward power control bit:
    [pcb_abs_pcg_for_guaranteed_ordinal] finds it without panic, the slots of the channel give it that
    ordinal and no other slot does, the measurement two groups earlier is attributed
    to it, and later ordinals have later bits. *)
Theorem guaranteed_cadence st o ordinal :
  0 ≤ ordinal < 2 ^ 58 →
  ∃ p, pcb_abs_pcg_for_guaranteed_ordinal st o ordinal = Some p ∧ 2 ≤ p < 2 ^ 63 ∧
    (∀ p', 0 ≤ p' < 2 ^ 60 → is_guaranteed st o p' ordinal → p' = p) ∧ is_guaranteed st o p ordinal ∧
    guaranteed_ordinal_for_measurement st o (p - 2) = Some (Some ordinal) ∧
    ∀ ordinal' p', ordinal < ordinal' < 2 ^ 58 →
      pcb_abs_pcg_for_guaranteed_ordinal st o ordinal' = Some p' → p < p'.
Proof.
  intros Ho. destruct (pcb_slot st o ordinal Ho) as (slots & e & i & E & Hl & Hi & Ti & Ci & Hs & Hp).
  exists (ordinal / 2 * 16 + Z.of_nat i + 2). split; [done|]. split; [zdiv|].
  assert (is_guaranteed st o (ordinal / 2 * 16 + Z.of_nat i + 2) ordinal) as Hg.
  { apply is_guaranteed_at; [zdiv|]. rewrite (slot_at_frame st o _ i slots); [|zdiv|done|done].
    destruct (Hs i Hi) as (s & Es & Os). exists s. split; [done|]. rewrite Os, Ti. f_equal. zdiv. }
  split; [|split; [done|split]].
  - intros p' Hp' Hg'. by apply (guaranteed_unique st o ordinal).
  - unfold guaranteed_ordinal_for_measurement, RC12_PCB_VALIDITY_DELAY_PCGS.
    rewrite Z.sub_add, Z.min_l by zdiv. destruct Hg as (s & -> & Os). cbn. by rewrite Os.
  - intros n' p' Hn' Hp'. destruct (pcb_slot st o n' ltac:(lia)) as (slots' & e' & i' & E' & Hl' & Hi' & Ti' & Ci' & Hs' & Hpp).
    rewrite Hpp in Hp'. injection Hp' as <-.
    destruct (decide (ordinal / 2 < n' / 2)); [lia|].
    assert (n' / 2 = ordinal / 2) as Eq by zdiv. rewrite Eq in *. rewrite E in E'. injection E' as <-.
    assert (i < i')%nat; [|lia]. destruct (decide (i < i')%nat); [done|].
    destruct (Hs i' Hi') as (s & Es & Os), (Hs' i' Hi') as (s' & Es' & Os'). rewrite Es in Es'. injection Es' as <-.
    rewrite Os, Ti' in Os'. destruct (e !!! i' : bool); [|done]. injection Os' as Os'.
    pose proof (count_true_mono e i' i ltac:(lia)). zdiv.
Qed.
Lemma guaranteed_cadence_witness :
  ∃ p, pcb_abs_pcg_for_guaranteed_ordinal ∅ (new_traffic_channel 0x80857e58) 7 = Some p ∧
    is_guaranteed ∅ (new_traffic_channel 0x80857e58) p 7.
Proof.
  destruct (guaranteed_cadence ∅ (new_traffic_channel 0x80857e58) 7) as (p & H & _ & _ & Hg & _); [lia|]. exists p. split; [exact H|exact Hg].
Defined.
