(* ===== verification/ChannelCoding.v ===== *)
(** * Channel coding ([cdma-bts/src/lib/phy/coding])

    The convolutional encoder ([convolutional.rs]), symbol repetition ([symbol_repeat.rs]) and the
    block interleavers ([block_interleaver.rs]), and the sync channel that chains them
    ([channels/fsch.rs]).  Symbols are 0 or 1. *)
From S2P Require Import Prelude LongCode.

Module Coding.

(** ** [Encoder<K, R>] *)
Record Encoder := mkEncoder { enc_k : Z; window : Z; generators : list Z }.
Definition new_encoder (k : Z) (generators : list Z) : Encoder := mkEncoder k 0 generators.
Definition parity (w : Z) : Z := Z.land (LongCode.count_ones w) 1.
Definition encode_from_window (window : Z) (generators : list Z) : list Z :=
  (λ g, parity (Z.land window g)) <$> generators.
Definition encode (e : Encoder) (value : Z) : Encoder * list Z :=
  let w := Z.lor (Z.land (Z.shiftr (window e) 1) (Z.shiftl 1 (enc_k e - 1) - 1)) (Z.shiftl value (enc_k e - 1)) in
  (mkEncoder (enc_k e) w (generators e), encode_from_window w (generators e)).
Definition reset (e : Encoder) : Encoder := mkEncoder (enc_k e) 0 (generators e).
Definition set_state (e : Encoder) (state : Z) : Encoder := mkEncoder (enc_k e) state (generators e).

Definition get_1_2_k9_encoder : Encoder := new_encoder 9 [0x1eb; 0x171].
Definition get_1_3_k9_encoder : Encoder := new_encoder 9 [0x16f; 0x1b3; 0x1c9].
Definition get_1_4_k9_encoder : Encoder := new_encoder 9 [0x1f5; 0x1b9; 0x14b; 0x13b].

(** [for bit in bits { symbols.extend(encoder.encode(bit)) }] *)
Fixpoint encode_all (e : Encoder) (bits : list Z) : Encoder * list Z :=
  match bits with
  | [] => (e, [])
  | b :: bits =>
      let '(e, symbols) := encode e b in
      let '(e, rest) := encode_all e bits in (e, symbols ++ rest)
  end.

(** ** [SymbolRepetition] *)
Record SymbolRepetition := mkRepetition { factor : nat; symbols : list Z; repeat_ : nat }.
Definition new_repetition (factor : nat) : rust SymbolRepetition :=
  if decide (0 < factor)%nat then Some (mkRepetition factor [] 0) else panic!.
Definition feed (s : SymbolRepetition) (symbol : Z) : SymbolRepetition :=
  mkRepetition (factor s) (symbols s ++ [symbol])
    (if decide (repeat_ s = 0%nat) then factor s - 1 else repeat_ s)%nat.
Definition next (s : SymbolRepetition) : SymbolRepetition * option Z :=
  match repeat_ s with
  | O => match symbols s with
         | symbol :: rest => (mkRepetition (factor s) rest (factor s - 1), Some symbol)
         | [] => (s, None)
         end
  | S r => (mkRepetition (factor s) (symbols s) r, head (symbols s))
  end.
(** The loop ends at the first [None]; each turn lowers [repeat] or takes a symbol. *)
Fixpoint take_loop (fuel : nat) (s : SymbolRepetition) : SymbolRepetition * list Z :=
  match fuel with
  | O => (s, [])
  | S fuel =>
      match next s with
      | (s, Some x) => let '(s, output) := take_loop fuel s in (s, x :: output)
      | (s, None) => (s, [])
      end
  end.
Definition take_all (s : SymbolRepetition) : SymbolRepetition * list Z :=
  take_loop (S (repeat_ s + length (symbols s) * factor s)) s.
Definition feed_all (s : SymbolRepetition) (l : list Z) : SymbolRepetition := foldl feed s l.

(** ** Interleavers *)
Record InterleaverParams := mkParams { block_size : nat; m : nat; j : nat }.
Definition SR1_PARAMS_48 := mkParams 48 4 3.
Definition SR1_PARAMS_96 := mkParams 96 5 3.
Definition SR1_PARAMS_128 := mkParams 128 7 1.
Definition SR1_PARAMS_192 := mkParams 192 6 3.
Definition SR1_PARAMS_384 := mkParams 384 6 6.
Definition SR1_PARAMS_576 := mkParams 576 5 18.
Definition SR1_PARAMS_768 := mkParams 768 6 12.
Definition SR1_PARAMS_1536 := mkParams 1536 6 24.
Definition SR1_PARAMS_3072 := mkParams 3072 6 48.
Definition SR1_PARAMS_6144 := mkParams (128 * 48) 7 48.
Definition SR1_PARAMS_12288 := mkParams (128 * 96) 7 96.

(** [u32::reverse_bits] *)
Definition reverse_bits (v : Z) : Z :=
  foldl (λ r i, Z.lor r (Z.shiftl (Z.b2z (Z.testbit v (31 - i))) i)) 0 (seqZ 0 32).
Definition bro (m val : nat) : nat := Z.to_nat (Z.shiftr (reverse_bits (wrap 32 (Z.of_nat val))) (32 - Z.of_nat m)).

(** [output.push(block[index])] and [output[index] = block[i]], over all [i]. *)
Definition gather {A} (idx : nat → nat) (block : list A) : rust (list A) :=
  mapM (λ i, index block (idx i)) (seq 0 (length block)).
Definition scatter {A} (zero : A) (idx : nat → nat) (block : list A) : rust (list A) :=
  foldl (λ output i, o ← output; v ← index block i; set_index o (idx i) v)
    (Some (replicate (length block) zero)) (seq 0 (length block)).

Definition br_index (p : InterleaverParams) (i : nat) : nat :=
  (2 ^ m p * (i mod j p) + bro (m p) (i / j p))%nat.
Definition fbbr_index (p : InterleaverParams) (i : nat) : nat :=
  if (i mod 2 =? 0)%nat then br_index p (i / 2) else br_index p (block_size p - (i + 1) / 2).

(** [BitReversalInterleaver] and [ForwardBackwardsBitReversalInterleaver]; [decode_soft] is
    [decode] at another element type. *)
Definition br_encode {A} (p : InterleaverParams) (block : list A) : rust (list A) :=
  if decide (block_size p = length block) then gather (br_index p) block else panic!.
Definition br_decode {A} (zero : A) (p : InterleaverParams) (block : list A) : rust (list A) :=
  if decide (block_size p = length block) then scatter zero (br_index p) block else panic!.
Definition fbbr_encode {A} (p : InterleaverParams) (block : list A) : rust (list A) :=
  if decide (block_size p = length block) then gather (fbbr_index p) block else panic!.
Definition fbbr_decode {A} (zero : A) (p : InterleaverParams) (block : list A) : rust (list A) :=
  if decide (block_size p = length block) then scatter zero (fbbr_index p) block else panic!.

Inductive Rc12ReverseTrafficRate := Full | Half | Quarter | Eighth.
Definition repetition_factor (r : Rc12ReverseTrafficRate) : nat :=
  match r with Full => 1 | Half => 2 | Quarter => 4 | Eighth => 8 end.
Definition row_order (r : Rc12ReverseTrafficRate) : list nat :=
  match r with
  | Full => [0; 1; 2; 3; 4; 5; 6; 7; 8; 9; 10; 11; 12; 13; 14; 15; 16; 17; 18; 19; 20; 21; 22;
             23; 24; 25; 26; 27; 28; 29; 30; 31]
  | Half => [0; 2; 1; 3; 4; 6; 5; 7; 8; 10; 9; 11; 12; 14; 13; 15; 16; 18; 17; 19; 20; 22; 21;
             23; 24; 26; 25; 27; 28; 30; 29; 31]
  | Quarter => [0; 4; 1; 5; 2; 6; 3; 7; 8; 12; 9; 13; 10; 14; 11; 15; 16; 20; 17; 21; 18; 22; 19;
                23; 24; 28; 25; 29; 26; 30; 27; 31]
  | Eighth => [0; 8; 1; 9; 2; 10; 3; 11; 4; 12; 5; 13; 6; 14; 7; 15; 16; 24; 17; 25; 18; 26; 19;
               27; 20; 28; 21; 29; 22; 30; 23; 31]
  end%nat.
Definition ROWS : nat := 32.
Definition COLS : nat := 18.
Definition BLOCK_LEN : nat := ROWS * COLS.
Definition output_index_to_input_index (r : Rc12ReverseTrafficRate) (output_index : nat) : nat :=
  (row_order r !!! (output_index / COLS)%nat + output_index mod COLS * ROWS)%nat.
Definition rc12_encode {A} (r : Rc12ReverseTrafficRate) (block : list A) : rust (list A) :=
  if decide (BLOCK_LEN = length block) then gather (output_index_to_input_index r) block else panic!.
Definition rc12_decode {A} (zero : A) (r : Rc12ReverseTrafficRate) (block : list A) : rust (list A) :=
  if decide (BLOCK_LEN = length block) then scatter zero (output_index_to_input_index r) block else panic!.

(** ** The sync channel: the state behind the two mutexes *)
Record SyncChannel := mkSync {
  sync_encoder : Encoder; symbol_repeat : SymbolRepetition; sync_interleaver : InterleaverParams;
  fragments : list (list Z)
}.
Definition send_fragment (c : SyncChannel) (data : list Z) : SyncChannel :=
  mkSync (sync_encoder c) (symbol_repeat c) (sync_interleaver c) (fragments c ++ [data]).

(** The next bit of the queue: 0 when there is none. *)
Definition take_bit (fragments : list (list Z)) : list (list Z) * Z :=
  match fragments with
  | [] => ([], 0)
  | fragment :: rest =>
      let '(data, bit) := match fragment with b :: data => (data, b) | [] => ([], 0) end in
      (match data with [] => rest | _ => data :: rest end, bit)
  end.

(** [while block.len() < block_len]; each turn adds a symbol ([sync_fuel]). *)
Fixpoint sync_loop (fuel : nat) (e : Encoder) (r : SymbolRepetition) (q : list (list Z)) (block_len : nat)
    (block : list Z) : rust (Encoder * SymbolRepetition * list (list Z) * list Z) :=
  if (length block <? block_len)%nat then
    match fuel with
    | O => panic!
    | S fuel =>
        let '(q, bit) := take_bit q in
        let '(e, symbols) := encode e bit in
        let '(r, repeated) := take_all (feed_all r symbols) in
        sync_loop fuel e r q block_len (block ++ repeated)
    end
  else Some (e, r, q, block).
(** The amplitude of a symbol: +1 or -1. *)
Definition bpsk (b : Z) : Z := if b =? 0 then 1 else -1.
Definition sync_next (c : SyncChannel) : rust (SyncChannel * list Z) :=
  '(e, r, q, block) ← sync_loop (block_size (sync_interleaver c)) (sync_encoder c) (symbol_repeat c) (fragments c)
                        (block_size (sync_interleaver c)) [];
  out ← br_encode (A := Z) (sync_interleaver c) block;
  Some (mkSync e r (sync_interleaver c) q, bpsk <$> (out : list Z)).

End Coding.

Import Coding.

(** ** Permuting a block

    What an interleaver promises to the channels: its index map is a permutation of the block. *)
Class Permutes (n : nat) (idx : nat → nat) : Prop := {
  idx_lt i : (i < n)%nat → (idx i < n)%nat;
  idx_inj i k : (i < n)%nat → (k < n)%nat → idx i = idx k → i = k
}.

Section Permute.
Context {A : Type} {n : nat} {idx : nat → nat} `{!Permutes n idx}.

Lemma idx_surj k : (k < n)%nat → ∃ i, (i < n)%nat ∧ idx i = k.
Proof.
  intros Hk. set (l := idx <$> seq 0 n).
  assert (NoDup l) as ND.
  { apply NoDup_fmap_2_strong; [|apply NoDup_seq]. intros a b Ha%elem_of_seq Hb%elem_of_seq. apply idx_inj; lia. }
  assert (l ≡ₚ seq 0 n) as P.
  { apply submseteq_length_Permutation; [|unfold l; by rewrite length_fmap, length_seq].
    apply NoDup_submseteq; [done|]. intros x (i & -> & Hi%elem_of_seq)%list_elem_of_fmap.
    apply elem_of_seq. pose proof (idx_lt i ltac:(lia)). lia. }
  assert (k ∈ l) as Hl by (rewrite P, elem_of_seq; lia).
  apply list_elem_of_fmap in Hl as (i & -> & Hi%elem_of_seq). exists i. split; [lia|done].
Qed.

Lemma gather_spec (block : list A) : length block = n → ∃ out, gather idx block = Some out ∧ length out = n ∧
  ∀ i, (i < n)%nat → out !! i = block !! idx i.
Proof.
  intros Hl. unfold gather. rewrite Hl.
  assert (∀ k, (k ≤ n)%nat → ∃ out, mapM (λ i, index block (idx i)) (seq (n - k) k) = Some out ∧ length out = k ∧
    ∀ i, (i < k)%nat → out !! i = block !! idx (n - k + i)) as H.
  { induction k as [|k IH]; intros Hk; [exists []; repeat split; intros; lia|].
    destruct (IH ltac:(lia)) as (out & E & Hlo & Ho). cbn. replace (S (n - S k)) with (n - k)%nat by lia. rewrite E.
    destruct (lookup_lt_is_Some_2 block (idx (n - S k))) as [x Ex]; [rewrite Hl; apply idx_lt; lia|].
    unfold index. rewrite Ex. exists (x :: out). split; [done|]. split; [simpl; lia|]. intros [|i] Hi; cbn.
    - by rewrite Nat.add_0_r.
    - rewrite Ho by lia. do 2 f_equal. lia. }
  destruct (H n ltac:(lia)) as (out & E & Hlo & Ho). rewrite Nat.sub_diag in *. exists out. done.
Qed.

Lemma scatter_spec (zero : A) (block : list A) : length block = n → ∃ out, scatter zero idx block = Some out ∧ length out = n ∧
  ∀ i, (i < n)%nat → out !! idx i = block !! i.
Proof.
  intros Hl. unfold scatter. rewrite Hl.
  assert (∀ k, (k ≤ n)%nat → ∃ out,
    foldl (λ output i, o ← output; v ← index block i; set_index o (idx i) v) (Some (replicate n zero)) (seq 0 k) = Some out ∧
    length out = n ∧ ∀ i, (i < k)%nat → out !! idx i = block !! i) as H.
  { induction k as [|k IH]; intros Hk; [eexists; split; [done|]; split; [apply length_replicate|lia]|].
    destruct (IH ltac:(lia)) as (out & E & Hlo & Ho). rewrite seq_S, foldl_app, E. cbn.
    destruct (lookup_lt_is_Some_2 block k ltac:(lia)) as [x Ex]. unfold index. rewrite Ex. cbn.
    pose proof (idx_lt k ltac:(lia)). unfold set_index. rewrite decide_True by lia.
    eexists. split; [done|]. split; [by rewrite length_insert|]. intros i Hi.
    destruct (decide (i = k)) as [->|].
    - rewrite list_lookup_insert_eq by lia. done.
    - rewrite list_lookup_insert_ne; [apply Ho; lia|]. intros Eq%idx_inj; lia. }
  apply (H n). done.
Qed.

Lemma scatter_gather (zero : A) (block : list A) : length block = n →
  ∃ c, gather idx block = Some c ∧ length c = n ∧ scatter zero idx c = Some block.
Proof.
  intros Hl. destruct (gather_spec block Hl) as (c & E & Hc & Hi). exists c. split; [done|]. split; [done|].
  destruct (scatter_spec zero c Hc) as (d & -> & Hd & Hj). f_equal. apply list_eq. intros k.
  destruct (decide (k < n)%nat).
  - destruct (idx_surj k) as (i & ? & <-); [done|]. by rewrite Hj, Hi.
  - rewrite !lookup_ge_None_2; [done|lia..].
Qed.

Lemma gather_scatter (zero : A) (block : list A) : length block = n →
  ∃ d, scatter zero idx block = Some d ∧ length d = n ∧ gather idx d = Some block.
Proof.
  intros Hl. destruct (scatter_spec zero block Hl) as (d & E & Hd & Hi). exists d. split; [done|]. split; [done|].
  destruct (gather_spec d Hd) as (c & -> & Hc & Hj). f_equal. apply list_eq. intros k.
  destruct (decide (k < n)%nat); [by rewrite Hj, Hi|]. rewrite !lookup_ge_None_2; [done|lia..].
Qed.

Lemma gather_perm (block c : list A) : length block = n → gather idx block = Some c → c ≡ₚ block.
Proof.
  intros Hl E. destruct (gather_spec block Hl) as (c' & E' & Hc & Hi). rewrite E in E'. injection E' as <-.
  apply Permutation_inj. split; [lia|]. exists (λ i, if decide (i < n)%nat then idx i else i). split.
  - intros a b. pose proof (λ i, idx_lt (n := n) (idx := idx) i) as Lt.
    case_decide; case_decide; intros Eq.
    + by apply idx_inj.
    + pose proof (Lt a ltac:(done)). lia.
    + pose proof (Lt b ltac:(done)). lia.
    + done.
  - intros i. case_decide; [by apply Hi|]. rewrite !lookup_ge_None_2; [done|lia..].
Qed.
End Permute.

(** ** Bit reversal *)
Lemma testbit_reverse v k : 0 ≤ k → Z.testbit (reverse_bits v) k = if k <? 32 then Z.testbit v (31 - k) else false.
Proof.
  intros Hk. unfold reverse_bits.
  assert (∀ n : nat, (n ≤ 32)%nat → Z.testbit (foldl (λ r i, Z.lor r (Z.shiftl (Z.b2z (Z.testbit v (31 - i))) i)) 0 (seqZ 0 (Z.of_nat n))) k
    = if k <? Z.of_nat n then Z.testbit v (31 - k) else false) as H.
  { induction n as [|n IH]; intros Hn; [change (Z.of_nat 0) with 0; destruct (Z.ltb_spec k 0); [lia|apply Z.bits_0]|].
    rewrite seqZ_S, foldl_app, Nat2Z.inj_succ. cbn [foldl]. rewrite Z.add_0_l. rewrite Z.lor_spec, IH by lia.
    destruct (decide (k = Z.of_nat n)) as [->|].
    - destruct (Z.ltb_spec (Z.of_nat n) (Z.of_nat n)); [lia|]. destruct (Z.ltb_spec (Z.of_nat n) (Z.succ (Z.of_nat n))); [|lia].
      rewrite Z.shiftl_spec, Z.sub_diag, Z.b2z_bit0 by lia. done.
    - assert (Z.testbit (Z.shiftl (Z.b2z (Z.testbit v (31 - Z.of_nat n))) (Z.of_nat n)) k = false) as ->.
      { destruct (decide (k < Z.of_nat n)); [by apply Z.shiftl_spec_low|].
        rewrite Z.shiftl_spec by lia. apply (is_u_lt_pow 1); [lia| |lia]. by case (Z.testbit v _). }
      rewrite orb_false_r. destruct (Z.ltb_spec k (Z.of_nat n)), (Z.ltb_spec k (Z.succ (Z.of_nat n))); lia || done. }
  apply (H 32%nat). done.
Qed.

Lemma testbit_bro m val k : (1 ≤ m ≤ 32)%nat → 0 ≤ k → is_u32 (Z.of_nat val) →
  Z.testbit (Z.of_nat (bro m val)) k = if k <? Z.of_nat m then Z.testbit (Z.of_nat val) (Z.of_nat m - 1 - k) else false.
Proof.
  intros Hm Hk Hv. unfold bro. rewrite wrap_small by done.
  assert (0 ≤ reverse_bits (Z.of_nat val)) as H0.
  { unfold reverse_bits. generalize (seqZ 0 32). intros l.
    assert (∀ acc, 0 ≤ acc → 0 ≤ foldl (λ r i, Z.lor r (Z.shiftl (Z.b2z (Z.testbit (Z.of_nat val) (31 - i))) i)) acc l) as H; [|by apply H].
    induction l as [|i l IH]; intros acc Ha; [done|]. simpl. apply IH, Z.lor_nonneg. split; [done|].
    apply Z.shiftl_nonneg. by case (Z.testbit _ _). }
  rewrite Z2Nat.id by by apply Z.shiftr_nonneg. rewrite Z.shiftr_spec, testbit_reverse by lia.
  destruct (Z.ltb_spec (k + (32 - Z.of_nat m)) 32), (Z.ltb_spec k (Z.of_nat m)); try lia; f_equal; lia.
Qed.

Lemma bro_lt m val : (1 ≤ m ≤ 32)%nat → is_u32 (Z.of_nat val) → (bro m val < 2 ^ m)%nat.
Proof.
  intros Hm Hv. assert (is_u (Z.of_nat m) (Z.of_nat (bro m val))) as [_ H].
  { apply is_u_bits; [lia..|]. intros k Hk. rewrite testbit_bro by (done || lia). by destruct (Z.ltb_spec k (Z.of_nat m)); [lia|]. }
  apply Nat2Z.inj_lt. rewrite Nat2Z.inj_pow. done.
Qed.

Lemma pow2_u32 m val : (m ≤ 32)%nat → (val < 2 ^ m)%nat → is_u32 (Z.of_nat val).
Proof.
  intros Hm Hv%Nat2Z.inj_lt. rewrite Nat2Z.inj_pow in Hv. split; [lia|]. eapply Z.lt_le_trans; [done|].
  apply (Z.pow_le_mono_r 2 (Z.of_nat m) 32); lia.
Qed.

Lemma bro_bro m val : (1 ≤ m ≤ 32)%nat → (val < 2 ^ m)%nat → bro m (bro m val) = val.
Proof.
  intros Hm Hv. pose proof (pow2_u32 m val ltac:(lia) Hv) as Hu. pose proof (bro_lt m val Hm Hu) as Hb.
  apply Nat2Z.inj, Z.bits_inj'. intros k Hk.
  rewrite testbit_bro by (done || by apply (pow2_u32 m); [lia|]).
  destruct (Z.ltb_spec k (Z.of_nat m)).
  - rewrite testbit_bro by (done || lia). destruct (Z.ltb_spec (Z.of_nat m - 1 - k) (Z.of_nat m)); [f_equal; lia|lia].
  - symmetry. apply (is_u_lt_pow (Z.of_nat m)); [lia| |done]. split; [lia|].
    apply Nat2Z.inj_lt in Hv. by rewrite Nat2Z.inj_pow in Hv.
Qed.

(** ** The interleavers *)
Definition valid_params (p : InterleaverParams) : Prop :=
  (1 ≤ m p ≤ 31 ∧ 0 < j p ∧ block_size p = 2 ^ m p * j p)%nat.

#[export] Instance br_permutes p : valid_params p → Permutes (block_size p) (br_index p).
Proof.
  intros (Hm & Hj & Hb).
  assert (∀ i, (i < block_size p)%nat → (i / j p < 2 ^ m p)%nat) as Hq.
  { intros i Hi. apply Nat.Div0.div_lt_upper_bound. nia. }
  assert (∀ i, (i < block_size p)%nat → (bro (m p) (i / j p) < 2 ^ m p)%nat) as Hr.
  { intros i Hi. apply bro_lt; [lia|]. apply (pow2_u32 (m p)); [lia|by apply Hq]. }
  split.
  - intros i Hi. unfold br_index. pose proof (Nat.mod_upper_bound i (j p) ltac:(lia)). specialize (Hr i Hi). nia.
  - intros i k Hi Hk E. unfold br_index in E.
    assert (i mod j p = k mod j p ∧ bro (m p) (i / j p) = bro (m p) (k / j p))%nat as [E1 E2].
    { by apply (Nat.div_mod_unique (2 ^ m p)); auto. }
    assert (i / j p = k / j p)%nat as E3.
    { rewrite <- (bro_bro (m p) (i / j p)), E2 by (lia || by apply Hq). apply bro_bro; [lia|by apply Hq]. }
    rewrite (Nat.div_mod i (j p)), (Nat.div_mod k (j p)), E1, E3 by lia. done.
Qed.

(** Division by a constant, for [lia]. *)
Ltac ndiv a b := pose proof (Nat.div_mod_eq a b); pose proof (Nat.mod_upper_bound a b ltac:(lia)).

#[export] Instance fbbr_permutes p : valid_params p → Permutes (block_size p) (fbbr_index p).
Proof.
  intros Hv. pose proof (br_permutes p Hv) as [Lt Inj]. unfold fbbr_index.
  split.
  - intros i Hi. destruct (Nat.eqb_spec (i mod 2) 0); apply Lt; ndiv i 2%nat; ndiv (i + 1)%nat 2%nat; lia.
  - intros i k Hi Hk. destruct (Nat.eqb_spec (i mod 2) 0), (Nat.eqb_spec (k mod 2) 0);
      intros E%Inj; ndiv i 2%nat; ndiv (i + 1)%nat 2%nat;
      ndiv k 2%nat; ndiv (k + 1)%nat 2%nat; lia.
Qed.

#[export] Instance rc12_permutes r : Permutes BLOCK_LEN (output_index_to_input_index r).
Proof.
  assert (length (row_order r) = 32 ∧ NoDup (row_order r) ∧ Forall (λ x, x < 32)%nat (row_order r))%nat as (Hl & Hnd & Hf).
  { split; [by destruct r|]. split; [apply (bool_decide_unpack _); by destruct r|].
    apply (bool_decide_unpack _); by destruct r. }
  assert (∀ i, (i < BLOCK_LEN)%nat → (row_order r !!! (i / COLS) < 32)%nat ∧ (i / COLS < 32)%nat) as Hrow.
  { intros i Hi. unfold BLOCK_LEN, ROWS, COLS in *. ndiv i 18%nat. split; [|lia].
    eapply (Forall_lookup_total_1 (λ x, x < 32)%nat); [done|lia]. }
  split; unfold output_index_to_input_index, ROWS in *.
  - intros i Hi. destruct (Hrow i Hi). unfold BLOCK_LEN, ROWS, COLS in *. ndiv i 18%nat; lia.
  - intros i k Hi Hk E. destruct (Hrow i Hi) as [Ri Qi], (Hrow k Hk) as [Rk Qk].
    assert (i / COLS = k / COLS)%nat as Eq.
    { apply (NoDup_lookup (row_order r) _ _ (row_order r !!! (i / COLS)%nat) Hnd).
      - apply list_lookup_lookup_total_lt. lia.
      - replace (row_order r !!! (i / COLS)%nat) with (row_order r !!! (k / COLS)%nat) by lia.
        apply list_lookup_lookup_total_lt. lia. }
    unfold COLS in *. ndiv i 18%nat. ndiv k 18%nat. lia.
Qed.

(** C25: Interleavers.  For every parameter set of the standard (block size 2^m J) and every reverse traffic rate,
    deinterleaving inverts interleaving and interleaving inverts deinterleaving, on blocks of any
    symbols, hard or soft, without an index out of range. *)
Theorem interleavers_invert {A} (zero : A) (block : list A) :
  (∀ p, valid_params p → length block = block_size p →
    (br_encode p block ≫= br_decode zero p) = Some block ∧ (br_decode zero p block ≫= br_encode p) = Some block ∧
    (fbbr_encode p block ≫= fbbr_decode zero p) = Some block ∧ (fbbr_decode zero p block ≫= fbbr_encode p) = Some block) ∧
  (∀ r, length block = BLOCK_LEN →
    (rc12_encode r block ≫= rc12_decode zero r) = Some block ∧ (rc12_decode zero r block ≫= rc12_encode r) = Some block).
Proof.
  assert (∀ n idx, Permutes n idx → length block = n →
    ((if decide (n = length block) then gather idx block else None) ≫=
       λ c, if decide (n = length c) then scatter zero idx c else None) = Some block ∧
    ((if decide (n = length block) then scatter zero idx block else None) ≫=
       λ c, if decide (n = length c) then gather idx c else None) = Some block) as H.
  { intros n idx HP Hl. rewrite !decide_True by done. split.
    - destruct (scatter_gather zero block Hl) as (c & -> & Hc & E). cbn [mbind option_bind]. by rewrite decide_True.
    - destruct (gather_scatter zero block Hl) as (c & -> & Hc & E). cbn [mbind option_bind]. by rewrite decide_True. }
  split.
  - intros p Hp Hl. destruct (H _ _ (br_permutes p Hp) Hl), (H _ _ (fbbr_permutes p Hp) Hl). done.
  - intros r Hl. apply (H _ _ (rc12_permutes r) Hl).
Qed.
Lemma interleavers_invert_witness :
  Forall valid_params [SR1_PARAMS_48; SR1_PARAMS_96; SR1_PARAMS_128; SR1_PARAMS_192; SR1_PARAMS_384; SR1_PARAMS_576;
    SR1_PARAMS_768; SR1_PARAMS_1536; SR1_PARAMS_3072; SR1_PARAMS_6144; SR1_PARAMS_12288] ∧
  (br_encode SR1_PARAMS_48 (seqZ 0 48) ≫= br_decode 0 SR1_PARAMS_48) = Some (seqZ 0 48) ∧
  (rc12_encode Eighth (seqZ 0 576) ≫= rc12_decode 0 Eighth) = Some (seqZ 0 576).
Proof.
  assert (∀ a b c, (1 ≤ b ≤ 31)%nat → (0 < c)%nat → a = (2 ^ b * c)%nat → valid_params (mkParams a b c)) as V by done.
  split; [|split].
  - repeat (apply Forall_cons; split; [apply V; [lia|lia|by vm_compute]|]). apply Forall_nil. exact I.
  - apply (proj1 (interleavers_invert 0 (seqZ 0 48)) SR1_PARAMS_48); [apply V; [lia|lia|by vm_compute]|by vm_compute].
  - destruct (interleavers_invert 0 (seqZ 0 576)) as [_ H]. destruct (H Eighth ltac:(by vm_compute)) as [H1 _]. exact H1.
Defined.

(** ** Repetition *)
Lemma feed_all_spec l : ∀ s,
  feed_all s l = mkRepetition (factor s) (symbols s ++ l)
    (match l with [] => repeat_ s | _ => if decide (repeat_ s = 0%nat) then factor s - 1 else repeat_ s end)%nat.
Proof.
  induction l as [|x l IH]; intros s; [destruct s; cbn; by rewrite app_nil_r|].
  change (feed_all s (x :: l)) with (feed_all (feed s x) l). rewrite IH. cbn. rewrite <- app_assoc. f_equal.
  destruct l; [done|]. repeat case_decide; lia.
Qed.

(** What is left to emit decides the rest: [r] more copies of the first symbol, then each symbol in full. *)
Lemma take_loop_spec l : ∀ f r fuel, (0 < f)%nat → (r + length l * f < fuel)%nat →
  take_loop fuel (mkRepetition f l r) =
    (mkRepetition f [] (match l with [] => r - 1 | _ => f - 2 end),
     match l with [] => [] | x :: l => replicate (S r) x ++ flat_map (replicate f) l end).
Proof.
  induction l as [|x l IH]; intros f r fuel Hf Hfuel.
  - destruct fuel; [lia|]. cbn. destruct r; cbn; [done|]. by rewrite Nat.sub_0_r.
  - revert fuel Hfuel. induction r as [|r IHr]; intros fuel Hfuel; (destruct fuel; [lia|]); cbn [take_loop next symbols repeat_ factor].
    + rewrite IH by (cbn [length] in Hfuel; lia). destruct l as [|y l]; cbn [flat_map].
      * f_equal. f_equal. lia.
      * replace (S (f - 1)) with f by lia. done.
    + cbn [head]. rewrite IHr by (cbn [length] in *; lia). done.
Qed.

(** Symbol repetition.  A batch fed to a repeater that a previous batch left behind: every symbol
    comes out [factor] times, but the first one of the batch comes out one time less when the factor is three or more
    and something was repeated before (the countdown of the previous batch is
    not reset); the queue is left empty, and with factors one and two batches are exact. *)
Theorem repetition_batches f batches l :
  (0 < f)%nat → Forall (λ b, b ≠ []) batches → l ≠ [] →
  let s := foldl (λ s b, (take_all (feed_all s b)).1) (mkRepetition f [] 0) batches in
  let out := (take_all (feed_all s l)).2 in
  symbols s = [] ∧
  (batches = [] ∨ (f ≤ 2)%nat → out = flat_map (replicate f) l) ∧
  (batches ≠ [] → (3 ≤ f)%nat → ∀ x l', l = x :: l' → out = replicate (f - 1) x ++ flat_map (replicate f) l').
Proof.
  intros Hf Hb Hl.
  assert (∀ r b, b ≠ [] → take_all (feed_all (mkRepetition f [] r) b) =
    (mkRepetition f [] (f - 2), match b with [] => [] | x :: b =>
       replicate (S (if decide (r = 0%nat) then f - 1 else r)) x ++ flat_map (replicate f) b end)%nat) as H.
  { intros r b Hne. unfold take_all. rewrite feed_all_spec. cbn [symbols repeat_ factor]. rewrite app_nil_l.
    rewrite take_loop_spec by lia. by destruct b. }
  assert (∀ bs, Forall (λ b, b ≠ []) bs → foldl (λ s b, (take_all (feed_all s b)).1) (mkRepetition f [] 0) bs =
    mkRepetition f [] (match bs with [] => 0 | _ => f - 2 end)%nat) as Hs.
  { induction bs as [|b bs IH] using rev_ind; intros Hbs; [done|]. rewrite Forall_app, Forall_singleton in Hbs. destruct Hbs as [H1 H2].
    rewrite foldl_app, IH by done. cbn [foldl]. rewrite H by done. cbn [fst]. by destruct bs. }
  cbn zeta. rewrite Hs by done.
  split; [done|]. rewrite H by done. destruct l as [|x l]; [done|]. cbn [snd].
  split.
  - intros Hc. change (flat_map (replicate f) (x :: l)) with (replicate f x ++ flat_map (replicate f) l). do 2 f_equal.
    destruct Hc as [->|Hc]; [rewrite decide_True by done; lia|]. destruct batches; case_decide; lia.
  - intros Hne H3 y l' [= <- <-]. destruct batches; [done|]. do 2 f_equal. case_decide; lia.
Qed.
Lemma repetition_batches_witness :
  (take_all (feed_all (foldl (λ s b, (take_all (feed_all s b)).1) (mkRepetition 4 [] 0) [[1; 0]]) [1; 0])).2
    = replicate 3 1 ++ flat_map (replicate 4) [0].
Proof. apply (proj2 (repetition_batches 4 [[1; 0]] [1; 0] ltac:(lia) ltac:(by repeat constructor) ltac:(done))); [done|lia|done]. Defined.

(** ** The sync channel *)
Lemma encode_spec e b : (encode e b).2 = encode_from_window (window (encode e b).1) (generators e) ∧
  enc_k (encode e b).1 = enc_k e ∧ generators (encode e b).1 = generators e.
Proof. done. Qed.

Lemma encode_length e b : length (encode e b).2 = length (generators e).
Proof. apply length_fmap. Qed.

Fixpoint take_bits (n : nat) (q : list (list Z)) : list (list Z) * list Z :=
  match n with O => (q, []) | S n => let '(q, b) := take_bit q in let '(q, bs) := take_bits n q in (q, b :: bs) end.

Lemma encode_all_length l : ∀ e, length (encode_all e l).2 = (length l * length (generators e))%nat.
Proof.
  induction l as [|b l IH]; intros e; [done|]. cbn [encode_all]. pose proof (encode_length e b) as El.
  destruct (encode e b) as [e' sy] eqn:Ee. assert (generators e' = generators e) as Eg by (unfold encode in Ee; injection Ee as <- _; done).
  specialize (IH e'). destruct (encode_all e' l) as [e'' rest]. cbn in *. rewrite length_app, IH, Eg, El. lia.
Qed.

(** The queue is a stream of bits, followed by zeros. *)
Lemma take_bits_stream n : ∀ q m, Forall (λ f, f ≠ []) q → (n ≤ m)%nat →
  (take_bits n q).2 = take n (concat q ++ replicate m 0) ∧ concat (take_bits n q).1 = drop n (concat q) ∧
  Forall (λ f, f ≠ []) (take_bits n q).1.
Proof.
  induction n as [|n IH]; intros q m Hq Hm; [by rewrite drop_0|]. cbn [take_bits].
  destruct q as [|[|b [|b' f]] q]; cbn [take_bit].
  - destruct m as [|m]; [lia|]. destruct (IH [] m Hq ltac:(lia)) as (E1 & E2 & E3).
    destruct (take_bits n []) as [q' bs]. cbn in *. subst. by rewrite drop_nil in E2.
  - by inversion_clear Hq.
  - inversion_clear Hq. destruct (IH q m ltac:(done) ltac:(lia)) as (E1 & E2 & E3).
    destruct (take_bits n q) as [q' bs]. cbn in *. by subst.
  - inversion_clear Hq. destruct (IH ((b' :: f) :: q) m ltac:(by constructor) ltac:(lia)) as (E1 & E2 & E3).
    destruct (take_bits n ((b' :: f) :: q)) as [q' bs]. cbn in *. by subst.
Qed.

(** One turn of the loop: a batch of a repeater at rest. *)
Lemma take_all_batch f r l : (0 < f)%nat → l ≠ [] →
  take_all (feed_all (mkRepetition f [] r) l) =
    (mkRepetition f [] (f - 2), match l with [] => [] | x :: l =>
       replicate (S (if decide (r = 0%nat) then f - 1 else r)) x ++ flat_map (replicate f) l end)%nat.
Proof.
  intros Hf Hl. unfold take_all. rewrite feed_all_spec. cbn [symbols repeat_ factor]. rewrite app_nil_l.
  rewrite take_loop_spec by lia. by destruct l.
Qed.

Lemma take_all_exact f l : (0 < f ≤ 2)%nat → l ≠ [] →
  take_all (feed_all (mkRepetition f [] 0) l) = (mkRepetition f [] 0, flat_map (replicate f) l).
Proof.
  intros Hf Hl. rewrite take_all_batch by (done || lia). rewrite decide_True by done. destruct l as [|x l]; [done|].
  f_equal; [f_equal; lia|]. cbn [flat_map]. by replace (S (f - 1)) with f by lia.
Qed.

Lemma length_repeat f l : length (flat_map (replicate f) l : list Z) = (length l * f)%nat.
Proof. induction l as [|x l IH]; [done|]. cbn [flat_map]. rewrite length_app, length_replicate, IH. simpl. lia. Qed.

Lemma sync_loop_spec f n : ∀ fuel e q block_len block,
  (0 < f ≤ 2)%nat → generators e ≠ [] → (length block + n * (length (generators e) * f) = block_len)%nat → (n ≤ fuel)%nat →
  sync_loop fuel e (mkRepetition f [] 0) q block_len block =
    Some ((encode_all e (take_bits n q).2).1, mkRepetition f [] 0, (take_bits n q).1,
          block ++ flat_map (replicate f) (encode_all e (take_bits n q).2).2).
Proof.
  induction n as [|n IH]; intros fuel e q block_len block Hf Hg Hl Hfuel.
  - destruct fuel; cbn [sync_loop take_bits encode_all fst snd flat_map]; (destruct (Nat.ltb_spec (length block) block_len); [lia|]); by rewrite app_nil_r.
  - assert (length (generators e) ≠ 0)%nat by by destruct (generators e).
    destruct fuel as [|fuel]; [lia|]. cbn [sync_loop take_bits].
    destruct (Nat.ltb_spec (length block) block_len); [|nia].
    destruct (take_bit q) as [q' b]. destruct (take_bits n q') as [q'' bs] eqn:Eq. cbn [fst snd encode_all].
    pose proof (encode_length e b) as El. destruct (encode e b) as [e' sy] eqn:Ee.
    assert (generators e' = generators e) as Eg by (unfold encode in Ee; injection Ee as <- _; done).
    cbn in El. assert (sy ≠ []) as Hsy by (intros ->; cbn in El; lia). rewrite take_all_exact by done.
    rewrite IH by (rewrite ?Eg, ?length_app, ?length_repeat, ?El; done || nia). rewrite Eq. cbn [fst snd].
    destruct (encode_all e' bs) as [e'' rest]. cbn [fst snd]. by rewrite <- app_assoc, flat_map_app.
Qed.

Lemma sync_loop_S fuel e r q n block : (length block < n)%nat →
  sync_loop (S fuel) e r q n block =
    let '(q, bit) := take_bit q in let '(e, symbols) := encode e bit in
    let '(r, repeated) := take_all (feed_all r symbols) in sync_loop fuel e r q n (block ++ repeated).
Proof. intros H. cbn [sync_loop]. destruct (Nat.ltb_spec (length block) n); [done|lia]. Qed.

(** With factor four each batch after the first has seven symbols, and the block overshoots. *)
Lemma sync_overshoot k : ∀ fuel e q block, length (generators e) = 2%nat → (length block + 7 * k = 134)%nat → (k ≤ fuel)%nat →
  ∃ e' r' q' block', sync_loop fuel e (mkRepetition 4 [] 2) q 128 block = Some (e', r', q', block') ∧ length block' = 134%nat.
Proof.
  induction k as [|k IH]; intros fuel e q block Hg Hl Hfuel.
  { destruct fuel; cbn [sync_loop]; (destruct (Nat.ltb_spec (length block) 128); [lia|]); eexists _, _, _, _; (split; [done|lia]). }
  destruct fuel as [|fuel]; [lia|]. cbn [sync_loop]. destruct (Nat.ltb_spec (length block) 128); [|lia].
  destruct (take_bit q) as [q' b]. pose proof (encode_length e b) as El. rewrite Hg in El.
  destruct (encode e b) as [e' sy] eqn:Ee.
  assert (generators e' = generators e) as Eg by (unfold encode in Ee; injection Ee as <- _; done).
  cbn in El. destruct sy as [|x [|y [|]]]; try discriminate El. rewrite take_all_batch, decide_False by (done || lia).
  apply IH; [by rewrite Eg|rewrite !length_app, length_replicate, length_repeat; cbn [length]; lia|lia].
Qed.

Lemma sync_factor_4 q : sync_next (mkSync get_1_2_k9_encoder (mkRepetition 4 [] 0) SR1_PARAMS_128 q) = None.
Proof.
  unfold sync_next. cbn [sync_interleaver sync_encoder symbol_repeat fragments block_size SR1_PARAMS_128].
  rewrite (sync_loop_S 127) by (cbn; lia). destruct (take_bit q) as [q' b]. pose proof (encode_length get_1_2_k9_encoder b) as El.
  destruct (encode get_1_2_k9_encoder b) as [e' sy] eqn:Ee.
  assert (generators e' = generators get_1_2_k9_encoder) as Eg by (unfold encode in Ee; injection Ee as <- _; done).
  cbn in El. destruct sy as [|x [|y [|]]]; try discriminate El. rewrite take_all_batch, decide_True by (done || lia).
  destruct (sync_overshoot 18 127 e' q' (replicate (S (4 - 1)) x ++ flat_map (replicate 4) [y])) as (e'' & r' & q'' & blk & E & Hl);
    [by rewrite Eg|rewrite !length_app, length_replicate, length_repeat; cbn [length]; lia|lia|].
  rewrite app_nil_l. change (4 - 2)%nat with 2%nat. rewrite E. cbn [mbind option_bind].
  unfold br_encode. rewrite decide_False; [done|]. rewrite Hl. done.
Qed.

(** C33: A block of the sync channel.  With a repetition factor of one or two each call sends the next bits of the queued
    fragments (zeros when the queue is empty), encoded by the running encoder, repeated, interleaved and mapped to +1 and -1,
    and leaves the rest of the queue; with factor four and the default parameters (a combination
    the settings accept, 128 = 16 bits of two symbols four times) the first call panics, whatever is queued. *)
Theorem sync_channel_blocks e f p n q :
  ((0 < f ≤ 2)%nat → generators e ≠ [] → valid_params p → block_size p = (n * (length (generators e) * f))%nat →
   Forall (λ fr, fr ≠ []) q →
   let bits := take n (concat q ++ replicate n 0) in
   ∃ c block, sync_next (mkSync e (mkRepetition f [] 0) p q) = Some (c, bpsk <$> block) ∧
     br_encode p (flat_map (replicate f) (encode_all e bits).2) = Some block ∧
     concat (fragments c) = drop n (concat q) ∧ Forall (λ fr, fr ≠ []) (fragments c) ∧
     sync_encoder c = (encode_all e bits).1 ∧ symbol_repeat c = mkRepetition f [] 0 ∧ sync_interleaver c = p) ∧
  sync_next (mkSync get_1_2_k9_encoder (mkRepetition 4 [] 0) SR1_PARAMS_128 q) = None.
Proof.
  split.
  - intros Hf Hg Hp Hb Hq. cbn zeta. destruct (take_bits_stream n q n Hq ltac:(done)) as (E1 & E2 & E3). rewrite <- E1.
    unfold sync_next. cbn [sync_interleaver sync_encoder symbol_repeat fragments].
    assert (length (generators e) ≠ 0)%nat by by destruct (generators e).
    assert (1 ≤ length (generators e) * f)%nat as H1 by nia.
    rewrite (sync_loop_spec f n); [|done|done|by rewrite Hb|rewrite Hb; clear -H1; nia]. cbn [mbind option_bind]. rewrite app_nil_l.
    set (blk := flat_map _ _).
    assert (length blk = block_size p) as Hl.
    { unfold blk. rewrite length_repeat, encode_all_length, E1, length_take, length_app, length_replicate. nia. }
    pose proof (br_permutes p Hp) as HP. destruct (scatter_gather 0 blk Hl) as (c & E & _ & _).
    unfold br_encode. rewrite decide_True by done. rewrite E. cbn. eexists _, c. done.
  - apply sync_factor_4.
Qed.
Lemma sync_channel_blocks_witness :
  ∃ c block, sync_next (mkSync get_1_2_k9_encoder (mkRepetition 2 [] 0) SR1_PARAMS_128 [[1; 0; 1]]) = Some (c, bpsk <$> block) ∧
    concat (fragments c) = [].
Proof.
  assert (valid_params SR1_PARAMS_128) as V by (unfold valid_params; cbn; lia).
  destruct (proj1 (sync_channel_blocks get_1_2_k9_encoder 2 SR1_PARAMS_128 32 [[1; 0; 1]]) ltac:(lia) ltac:(done) V eq_refl
    ltac:(by repeat constructor)) as (c & block & E & _ & Q & _).
  exists c, block. split; [exact E|exact Q].
Defined.
