(* ===== verification/Viterbi.v ===== *)
(** * The hard-decision Viterbi decoder ([cdma-bts/src/lib/phy/coding/convolutional.rs])

    [ViterbiDecoder]: the trellis of an encoder, add-compare-select, normalisation of the metrics,
    the trace and its trimming; block decoding from a known end state, and the streaming decoders
    [process] and [process_batch].  Metrics are [u32]s; indices are always in range and
    written with a total lookup. *)
From S2P Require Import Prelude BitString LongCode ChannelCoding.

Module Viterbi.
Import Coding.

Definition INF_METRIC : Z := (2 ^ 32 - 1) / 4.
Definition branch_hamming (a b : list Z) : Z := foldr Z.add 0 (zip_with Z.lxor a b).

(** ** [TrellisTraceback] *)
Record TrellisTraceback := mkTrace {
  tb_states : nat; traceback_depth : nat; steps : nat;
  trace_prev_states : list nat; trace_input_bits : list Z
}.
Definition new_trace (num_states depth : nat) : TrellisTraceback := mkTrace num_states depth 0 [] [].

Fixpoint trace_loop (tb : TrellisTraceback) (depth state step : nat) (oldest : Z) : Z :=
  match depth with
  | O => oldest
  | S depth =>
      let idx := (step * tb_states tb + state)%nat in
      trace_loop tb depth (trace_prev_states tb !!! idx) (step - 1) (trace_input_bits tb !!! idx)
  end.
Definition traceback_bit (tb : TrellisTraceback) (end_state end_step depth : nat) : Z :=
  trace_loop tb depth end_state end_step 0.
(** [(1..=n).rev()] *)
Definition down_from (n : nat) : list nat := reverse (seq 1 n).
Definition trace_all (tb : TrellisTraceback) (end_state : nat) : list Z :=
  if (steps tb =? 0)%nat then [] else (λ depth, traceback_bit tb end_state (steps tb - 1) depth) <$> down_from (steps tb).
Definition trace_finish (tb : TrellisTraceback) (best_state : nat) : list Z :=
  if (steps tb =? 0)%nat then []
  else
    let remaining := (if traceback_depth tb <=? steps tb then traceback_depth tb - 1 else steps tb)%nat in
    (λ depth, traceback_bit tb best_state (steps tb - 1) depth) <$> down_from remaining.
Definition record_step (tb : TrellisTraceback) (prev : list nat) (bits : list Z) : TrellisTraceback :=
  mkTrace (tb_states tb) (traceback_depth tb) (S (steps tb)) (trace_prev_states tb ++ prev) (trace_input_bits tb ++ bits).
Definition trim_history (tb : TrellisTraceback) : TrellisTraceback :=
  let max_history := (traceback_depth tb * 2)%nat in
  if (max_history <? steps tb)%nat then
    let trim := (steps tb - max_history)%nat in
    let trim_entries := (trim * tb_states tb)%nat in
    if (trim_entries <=? length (trace_prev_states tb))%nat then
      mkTrace (tb_states tb) (traceback_depth tb) (steps tb - trim)
        (drop trim_entries (trace_prev_states tb)) (drop trim_entries (trace_input_bits tb))
    else tb
  else tb.
(** [reset] and [prepare_block] (which also reserves memory). *)
Definition trace_clear (tb : TrellisTraceback) : TrellisTraceback := mkTrace (tb_states tb) (traceback_depth tb) 0 [] [].

(** ** [ViterbiDecoder<K, N>] *)
Record ViterbiDecoder := mkDecoder {
  num_states : nat; path_metrics : list Z;
  branch_next : list (list nat); branch_out : list (list (list Z));
  last_step_cost : Z; tb : TrellisTraceback
}.
Definition start_metrics (n : nat) : list Z := <[0%nat := 0]> (replicate n INF_METRIC).
Definition next_state (k : Z) (state : nat) (input_bit : Z) : nat :=
  Z.to_nat (wrap 16 (Z.lor (Z.shiftr (Z.of_nat state) 1) (Z.shiftl input_bit (k - 2)))).
Definition new_decoder (encoder : Encoder) : ViterbiDecoder :=
  let k := enc_k encoder in
  let n := Z.to_nat (Z.shiftl 1 (k - 1)) in
  mkDecoder n (start_metrics n)
    ((λ state, next_state k state <$> [0; 1]) <$> seq 0 n)
    ((λ state : nat, (λ input_bit, encode_from_window (Z.lor (Z.of_nat state) (Z.shiftl input_bit (k - 1))) (generators encoder)) <$> [0; 1]) <$> seq 0 n)
    0 (new_trace n (5 * Z.to_nat k)).

(** [iter().min()] of a list that is not empty, and the first index that has it. *)
Definition list_min (l : list Z) : Z := match l with [] => 0 | x :: l => foldl Z.min x l end.
Fixpoint first_index (x : Z) (l : list Z) : nat :=
  match l with [] => O | y :: l => if y =? x then O else S (first_index x l) end.
Definition best_state (d : ViterbiDecoder) : nat := first_index (list_min (path_metrics d)) (path_metrics d).

(** Metrics, previous states and input bits under construction. *)
Definition Acs := (list Z * list nat * list Z)%type.

(** One branch, one state, and all: [add] is [saturating_add] in the block decoder and [+] in the streaming ones. *)
Definition acs_branch (add : Z → Z → Z) (d : ViterbiDecoder) (input : list Z) (prev_state : nat) (acc : Acs) (input_bit : nat) : Acs :=
  let '(next_metrics, prev, bits) := acc in
  let ns : nat := (branch_next d !!! prev_state) !!! input_bit in
  let bm := branch_hamming ((branch_out d !!! prev_state) !!! input_bit) input in
  let cand := add (path_metrics d !!! prev_state) bm in
  if cand <? (next_metrics !!! ns) then
    (<[ns := cand]> next_metrics, <[ns := prev_state]> prev, <[ns := Z.of_nat input_bit]> bits)
  else acc.
Definition acs_state (add : Z → Z → Z) (d : ViterbiDecoder) (input : list Z) (acc : Acs) (prev_state : nat) : Acs :=
  if INF_METRIC <=? (path_metrics d !!! prev_state) then acc
  else foldl (acs_branch add d input prev_state) acc [0%nat; 1%nat].
Definition acs (add : Z → Z → Z) (d : ViterbiDecoder) (input : list Z) : Acs :=
  foldl (acs_state add d input)
    (replicate (num_states d) INF_METRIC, replicate (num_states d) 0%nat, replicate (num_states d) 0)
    (seq 0 (num_states d)).

Definition saturating_add (a b : Z) : Z := Z.min (a + b) (2 ^ 32 - 1).
Definition saturating_sub (a b : Z) : Z := Z.max (a - b) 0.
Definition normalize (best : Z) (metrics : list Z) : list Z :=
  (λ m, if m <? INF_METRIC then saturating_sub m best else m) <$> metrics.

(** One symbol of [decode_block_from_state]. *)
Definition block_step (d : ViterbiDecoder) (input : list Z) : ViterbiDecoder :=
  let '(next_metrics, prev, bits) := acs saturating_add d input in
  let best_next := list_min next_metrics in
  mkDecoder (num_states d) (normalize best_next next_metrics) (branch_next d) (branch_out d) best_next
    (record_step (tb d) prev bits).
Definition reset_trellis (d : ViterbiDecoder) : ViterbiDecoder :=
  mkDecoder (num_states d) (start_metrics (num_states d)) (branch_next d) (branch_out d) (last_step_cost d) (trace_clear (tb d)).
Definition decode_block_from_state (d : ViterbiDecoder) (inputs : list (list Z)) (end_state : nat) : ViterbiDecoder * list Z :=
  let d := foldl block_step (reset_trellis d) inputs in
  (d, trace_all (tb d) end_state).

Definition finish (d : ViterbiDecoder) : list Z := trace_finish (tb d) (best_state d).

(** The symbol of the streaming decoders, before the trace is trimmed. *)
Definition stream_step (d : ViterbiDecoder) (input : list Z) : ViterbiDecoder :=
  let '(next_metrics, prev, bits) := acs (λ a b, wrap 32 (a + b)) d input in
  let min_metric := list_min next_metrics in
  let metrics := if 0 <? min_metric then (λ m, if m <? INF_METRIC then m - min_metric else m) <$> next_metrics else next_metrics in
  mkDecoder (num_states d) metrics (branch_next d) (branch_out d) min_metric (record_step (tb d) prev bits).
Definition with_tb (d : ViterbiDecoder) (t : TrellisTraceback) : ViterbiDecoder :=
  mkDecoder (num_states d) (path_metrics d) (branch_next d) (branch_out d) (last_step_cost d) t.
Definition process (d : ViterbiDecoder) (input : list Z) : rust (ViterbiDecoder * option Z) :=
  if forallb (λ b, b <=? 1) input then
    let d := stream_step d input in
    let d := with_tb d (trim_history (tb d)) in
    Some (d, if (traceback_depth (tb d) <=? steps (tb d))%nat
             then Some (traceback_bit (tb d) (best_state d) (steps (tb d) - 1) (traceback_depth (tb d))) else None)
  else panic!.

Definition process_batch (d : ViterbiDecoder) (symbols : list (list Z)) : ViterbiDecoder * list Z :=
  let initial_steps := steps (tb d) in
  let tb_depth := traceback_depth (tb d) in
  let d := foldl stream_step d symbols in
  let first_emittable := (if tb_depth <=? initial_steps then initial_steps else tb_depth)%nat in
  let out :=
    if (first_emittable <? steps (tb d))%nat then
      let start_step := (if tb_depth <=? initial_steps then initial_steps else tb_depth - 1)%nat in
      (λ step, traceback_bit (tb d) (best_state d) step tb_depth) <$> seq start_step (steps (tb d) - start_step)
    else [] in
  (with_tb d (trim_history (tb d)), out).

End Viterbi.

Import Coding Viterbi.

(** ** Small facts *)
Lemma list_min_spec l : l ≠ [] → list_min l ∈ l ∧ ∀ x, x ∈ l → list_min l ≤ x.
Proof.
  destruct l as [|x l]; [done|]. intros _. unfold list_min. revert x. induction l as [|y l IH]; intros x; cbn [foldl].
  - split; [by left|]. intros y Hy. apply list_elem_of_singleton in Hy. lia.
  - destruct (IH (Z.min x y)) as [I1 I2]. split.
    + apply elem_of_cons in I1 as [E|I1]; [|by do 2 right].
      rewrite E. case (Z.min_spec x y); intros [_ ->]; [left|right; left].
    + intros z Hz. apply elem_of_cons in Hz as [->|Hz]; [pose proof (I2 (Z.min x y) ltac:(left)); lia|].
      apply elem_of_cons in Hz as [->|Hz]; [pose proof (I2 (Z.min x y) ltac:(left)); lia|]. apply I2. by right.
Qed.

Lemma first_index_spec x l : x ∈ l → (first_index x l < length l)%nat ∧ l !!! first_index x l = x.
Proof.
  induction l as [|y l IH]; intros H; [by apply elem_of_nil in H|]. cbn [first_index length].
  case (Z.eqb_spec y x); intros E; [split; [lia|done]|].
  apply elem_of_cons in H as [->|H]; [done|]. destruct (IH H). split; [lia|done].
Qed.

Lemma hamming_range a b : bitstring a → bitstring b → 0 ≤ branch_hamming a b ≤ Z.of_nat (length a).
Proof.
  unfold branch_hamming. revert b. induction a as [|x a IH]; intros [|y b] Ha Hb; cbn; try lia.
  apply Forall_cons in Ha as [Hx Ha]. apply Forall_cons in Hb as [Hy Hb]. specialize (IH b Ha Hb).
  assert (0 ≤ Z.lxor x y ≤ 1) by (destruct (bit_cases x Hx) as [->| ->], (bit_cases y Hy) as [->| ->]; done). lia.
Qed.

Lemma hamming_app a a' b b' : length a = length b → branch_hamming (a ++ a') (b ++ b') = branch_hamming a b + branch_hamming a' b'.
Proof.
  unfold branch_hamming. revert b. induction a as [|x a IH]; intros [|y b] H; try done; cbn in *. rewrite IH by lia. lia.
Qed.

Lemma parity_bit w : is_u 1 (parity w).
Proof. unfold parity, is_u. assert (∀ x, Z.land x 1 = x mod 2 ^ 1) as -> by (intros x; apply (Z.land_ones x 1); lia). apply Z.mod_pos_bound. lia. Qed.
Lemma encode_from_window_bits w g : bitstring (encode_from_window w g).
Proof. apply Forall_fmap, Forall_true. intros. apply parity_bit. Qed.

(** ** The trace

    The history of a run, latest step first: for every state the state before and the bit. *)
Fixpoint trace_path (hist : list (list nat * list Z)) (s : nat) : list Z :=
  match hist with [] => [] | (prev, bits) :: hist => trace_path hist (prev !!! s) ++ [bits !!! s] end.
Definition row_of (n : nat) (r : list nat * list Z) : Prop := length r.1 = n ∧ length r.2 = n ∧ Forall (λ p, p < n)%nat r.1.

Lemma trace_path_length hist s : length (trace_path hist s) = length hist.
Proof. revert s. induction hist as [|[p b] h IH]; intros s; [done|]. cbn. rewrite length_app, IH. cbn. lia. Qed.

Definition holds (t : TrellisTraceback) (hist : list (list nat * list Z)) : Prop :=
  steps t = length hist ∧ Forall (row_of (tb_states t)) hist ∧
  trace_prev_states t = concat (reverse (hist.*1)) ∧ trace_input_bits t = concat (reverse (hist.*2)).

Lemma concat_length {A} n (l : list (list A)) : Forall (λ r, length r = n) l → length (concat l) = (length l * n)%nat.
Proof. induction 1; [done|]. cbn. rewrite length_app. lia. Qed.

Lemma holds_record t hist prev bits :
  holds t hist → row_of (tb_states t) (prev, bits) → holds (record_step t prev bits) ((prev, bits) :: hist).
Proof.
  intros (H1 & H2 & H3 & H4) Hr. unfold holds. cbn [record_step steps trace_prev_states trace_input_bits tb_states length]. rewrite H1, H3, H4, !fmap_cons, !reverse_cons, !concat_app. cbn [concat fst snd]. rewrite !app_nil_r.
  split; [done|]. split; [by apply Forall_cons|done].
Qed.

Lemma row_lookup {A} `{Inhabited A} n (f : list nat * list Z → list A) p b hist rest s :
  Forall (λ r, length (f r) = n) ((p, b) :: hist) → (s < n)%nat →
  (concat (reverse (f <$> (p, b) :: hist)) ++ rest) !!! (length hist * n + s)%nat = f (p, b) !!! s.
Proof.
  intros Hf Hs. apply Forall_cons in Hf as [Hp Hf]. rewrite fmap_cons, reverse_cons, concat_app. cbn [concat]. rewrite app_nil_r, <- app_assoc.
  assert (length (concat (reverse (f <$> hist))) = (length hist * n)%nat) as E.
  { rewrite (concat_length n); [by rewrite length_reverse, length_fmap|]. by apply Forall_reverse, Forall_fmap. }
  rewrite lookup_total_app_r, E by lia. replace (length hist * n + s - length hist * n)%nat with s by lia.
  by rewrite lookup_total_app_l by (rewrite Hp; lia).
Qed.

Lemma trace_loop_spec t hist : ∀ rp rb d s o,
  Forall (row_of (tb_states t)) hist → (s < tb_states t)%nat → (d ≤ length hist)%nat →
  trace_prev_states t = concat (reverse (hist.*1)) ++ rp → trace_input_bits t = concat (reverse (hist.*2)) ++ rb →
  trace_loop t d s (length hist - 1) o = if decide (d = O) then o else trace_path hist s !!! (length hist - d)%nat.
Proof.
  induction hist as [|[p b] hist IH]; intros rp rb d s o Hf Hs Hd Hp Hb; cbn [length] in *.
  - replace d with O by lia. done.
  - destruct d as [|d]; [done|]. rewrite decide_False by lia. cbn [trace_loop].
    apply Forall_cons in Hf as Hf'. destruct Hf' as [(L1 & L2 & L3) Hf']. cbn [fst snd] in *.
    replace (S (length hist) - 1)%nat with (length hist) by lia.
    assert (trace_prev_states t !!! (length hist * tb_states t + s)%nat = p !!! s) as ->.
    { rewrite Hp. apply (row_lookup _ fst); [|done]. eapply Forall_impl; [exact Hf|]. by intros ? (?&?&?). }
    assert (trace_input_bits t !!! (length hist * tb_states t + s)%nat = b !!! s) as ->.
    { rewrite Hb. apply (row_lookup _ snd); [|done]. eapply Forall_impl; [exact Hf|]. by intros ? (?&?&?). }
    rewrite (IH (p ++ rp) (b ++ rb) d); [|done| |lia| |].
    + cbn [trace_path]. pose proof (trace_path_length hist (p !!! s)) as El. case_decide as E.
      * subst d. rewrite lookup_total_app_r by lia. rewrite El. replace (S (length hist) - 1 - length hist)%nat with O by lia. done.
      * by rewrite lookup_total_app_l by lia.
    + eapply Forall_lookup_total_1; [exact L3|lia].
    + rewrite Hp, fmap_cons, reverse_cons, concat_app, <- app_assoc. cbn [concat fst snd]. by rewrite app_nil_r.
    + rewrite Hb, fmap_cons, reverse_cons, concat_app, <- app_assoc. cbn [concat fst snd]. by rewrite app_nil_r.
Qed.

Lemma traceback_bit_spec t hist s d : holds t hist → (s < tb_states t)%nat → (0 < d ≤ length hist)%nat →
  traceback_bit t s (length hist - 1) d = trace_path hist s !!! (length hist - d)%nat.
Proof.
  intros (H1 & H2 & H3 & H4) Hs Hd. unfold traceback_bit. rewrite (trace_loop_spec t hist [] []) by (rewrite ?app_nil_r; done || lia).
  by rewrite decide_False by lia.
Qed.

#[local] Arguments traceback_bit : simpl never.
Lemma trace_all_spec t hist s : holds t hist → (s < tb_states t)%nat → trace_all t s = trace_path hist s.
Proof.
  intros H Hs. pose proof H as [H1 _]. unfold trace_all. rewrite H1.
  case (Nat.eqb_spec (length hist) 0); intros E; [by destruct hist|].
  pose proof (trace_path_length hist s) as El.
  apply list_eq_same_length with (n := length hist); [done|unfold down_from; by rewrite length_fmap, length_reverse, length_seq|].
  intros i x y Hi Hx Hy. apply list_lookup_total_correct in Hy. rewrite <- Hy.
  unfold down_from in Hx. rewrite list_lookup_fmap, reverse_lookup, length_seq, lookup_seq_lt in Hx by (rewrite ?length_seq; lia).
  cbn in Hx. injection Hx as <-. rewrite (traceback_bit_spec t hist) by (done || lia). f_equal. lia.
Qed.

(** ** Paths of the trellis *)
Definition branch (e : Encoder) (s : nat) (b : Z) : list Z :=
  encode_from_window (Z.lor (Z.of_nat s) (Z.shiftl b (enc_k e - 1))) (generators e).
Fixpoint path (k : Z) (s : nat) (u : list Z) : nat := match u with [] => s | b :: u => path k (next_state k s b) u end.
Fixpoint word (e : Encoder) (s : nat) (u : list Z) : list (list Z) :=
  match u with [] => [] | b :: u => branch e s b :: word e (next_state (enc_k e) s b) u end.
Definition distance (a b : list (list Z)) : Z := foldr Z.add 0 (zip_with branch_hamming a b).
Definition states (e : Encoder) : nat := Z.to_nat (Z.shiftl 1 (enc_k e - 1)).
Definition encoder_ok (e : Encoder) : Prop := 2 ≤ enc_k e ≤ 16.
Definition state_of (e : Encoder) : nat := Z.to_nat (Z.land (Z.shiftr (window e) 1) (Z.shiftl 1 (enc_k e - 1) - 1)).

Lemma states_pow e : encoder_ok e → Z.of_nat (states e) = 2 ^ (enc_k e - 1) ∧ 2 ^ (enc_k e - 1) = 2 * 2 ^ (enc_k e - 2) ∧ 0 < 2 ^ (enc_k e - 2) ≤ 2 ^ 14.
Proof.
  unfold encoder_ok, states. intros H. rewrite Z.shiftl_1_l. pose proof (Z.pow_pos_nonneg 2 (enc_k e - 1)).
  split; [lia|]. split; [rewrite <- Z.pow_succ_r by lia; f_equal; lia|].
  split; [apply Z.pow_pos_nonneg; lia|]. apply Z.pow_le_mono_r; lia.
Qed.

Lemma lor_add a b n : 0 ≤ n → 0 ≤ a < 2 ^ n → Z.lor a (Z.shiftl b n) = a + b * 2 ^ n.
Proof. intros. rewrite Z.lor_comm, lor_shiftl_add by done. lia. Qed.

Lemma next_state_val e s b : encoder_ok e → (s < states e)%nat → is_u 1 b →
  Z.of_nat (next_state (enc_k e) s b) = Z.of_nat s / 2 + b * 2 ^ (enc_k e - 2).
Proof.
  intros He Hs Hb. destruct (states_pow e He) as (S1 & S2 & S3). unfold encoder_ok, next_state in *. rewrite Z.shiftr_div_pow2 by lia. change (2 ^ 1) with 2.
  assert (0 ≤ Z.of_nat s / 2 < 2 ^ (enc_k e - 2)) as Hd by (split; [apply Z.div_pos; lia|apply Z.div_lt_upper_bound; lia]).
  rewrite lor_add by lia. rewrite wrap_small; unfold is_u in *; [|change (2 ^ 16) with (4 * 2 ^ 14); nia]. rewrite Z2Nat.id by nia. done.
Qed.
Lemma next_state_lt e s b : encoder_ok e → (s < states e)%nat → is_u 1 b → (next_state (enc_k e) s b < states e)%nat.
Proof.
  intros He Hs Hb. pose proof (next_state_val e s b He Hs Hb) as E. destruct (states_pow e He) as (S1 & S2 & S3).
  assert (Z.of_nat s / 2 < 2 ^ (enc_k e - 2)) by (apply Z.div_lt_upper_bound; lia). unfold is_u in Hb. apply Nat2Z.inj_lt. nia.
Qed.
Lemma path_lt e u : ∀ s, encoder_ok e → (s < states e)%nat → bitstring u → (path (enc_k e) s u < states e)%nat.
Proof. induction u as [|b u IH]; intros s He Hs Hu; [done|]. apply Forall_cons in Hu as [Hb Hu]. cbn. apply IH; [done| |done]. by apply next_state_lt. Qed.
Lemma states_gt e : encoder_ok e → (0 < states e)%nat.
Proof. intros He. destruct (states_pow e He) as (?&?&?). lia. Qed.

Lemma path_app k u v : ∀ s, path k s (u ++ v) = path k (path k s u) v.
Proof. induction u as [|b u IH]; intros s; [done|]. apply IH. Qed.
Lemma word_app e u v : ∀ s, word e s (u ++ v) = word e s u ++ word e (path (enc_k e) s u) v.
Proof. induction u as [|b u IH]; intros s; [done|]. cbn. by rewrite IH. Qed.
Lemma word_length e u : ∀ s, length (word e s u) = length u.
Proof. induction u as [|b u IH]; intros s; [done|]. cbn. by rewrite IH. Qed.
Lemma branch_length e s b : length (branch e s b) = length (generators e).
Proof. apply length_fmap. Qed.
Lemma distance_app a a' b b' : length a = length b → distance (a ++ a') (b ++ b') = distance a b + distance a' b'.
Proof.
  unfold distance. revert b. induction a as [|x a IH]; intros [|y b] H; try done; cbn in *. rewrite IH by lia. lia.
Qed.

(** The trellis is the encoder's. *)
Lemma encode_step e b : encoder_ok e → is_u 1 b →
  (encode e b).2 = branch e (state_of e) b ∧ state_of (encode e b).1 = next_state (enc_k e) (state_of e) b ∧ (state_of e < states e)%nat.
Proof.
  intros He Hb. destruct (states_pow e He) as (S1 & S2 & S3). unfold encoder_ok in He.
  set (s := Z.land (Z.shiftr (window e) 1) (Z.shiftl 1 (enc_k e - 1) - 1)).
  assert (0 ≤ s < 2 ^ (enc_k e - 1)) as Hs.
  { unfold s. rewrite Z.shiftl_1_l, Z.sub_1_r, <- Z.ones_equiv, Z.land_ones by lia. apply Z.mod_pos_bound. lia. }
  assert (Z.of_nat (state_of e) = s) as Es by (unfold state_of; fold s; rewrite Z2Nat.id; lia).
  assert (state_of e < states e)%nat as Hlt by lia. split; [|split; [|done]].
  - unfold encode, branch. cbn [snd]. fold s. by rewrite Es.
  - apply Nat2Z.inj. rewrite (next_state_val e) by done. rewrite Es.
    unfold state_of, encode. cbn [fst window enc_k]. fold s. rewrite lor_add by lia. rewrite Z.shiftr_div_pow2 by lia. change (2 ^ 1) with 2.
    assert ((s + b * 2 ^ (enc_k e - 1)) / 2 = s / 2 + b * 2 ^ (enc_k e - 2)) as ->.
    { rewrite S2. replace (s + b * (2 * 2 ^ (enc_k e - 2))) with (s + (b * 2 ^ (enc_k e - 2)) * 2) by lia. rewrite Z.div_add by lia. done. }
    assert (0 ≤ s / 2 < 2 ^ (enc_k e - 2)) by (split; [apply Z.div_pos; lia|apply Z.div_lt_upper_bound; lia]).
    unfold is_u in Hb. rewrite Z.shiftl_1_l, Z.sub_1_r, <- Z.ones_equiv, Z.land_ones by lia.
    rewrite Z.mod_small by nia. rewrite Z2Nat.id; nia.
Qed.

Lemma encode_all_word u : ∀ e, encoder_ok e → bitstring u →
  (encode_all e u).2 = concat (word e (state_of e) u) ∧ state_of (encode_all e u).1 = path (enc_k e) (state_of e) u.
Proof.
  induction u as [|b u IH]; intros e He Hu; [done|]. apply Forall_cons in Hu as [Hb Hu].
  destruct (encode_step e b He Hb) as (E1 & E2 & _). cbn [encode_all].
  destruct (encode e b) as [e' sy] eqn:Ee. assert (generators e' = generators e ∧ enc_k e' = enc_k e) as [Eg Ek] by (unfold encode in Ee; injection Ee as <- _; done).
  assert (encoder_ok e') as He' by by unfold encoder_ok; rewrite Ek.
  destruct (IH e' He' Hu) as [I1 I2]. destruct (encode_all e' u) as [e'' rest]. cbn [fst snd] in *.
  rewrite E1, I1, I2, E2, Ek. split; [|done]. cbn. f_equal. f_equal.
  clear -Eg Ek. generalize (next_state (enc_k e) (state_of e) b). revert Eg Ek. clear.
  intros Eg Ek. induction u as [|b u IH]; intros s; [done|]. cbn. rewrite IH. unfold branch. by rewrite Eg, Ek.
Qed.

(** ** The decoder's trellis, and the decoders in use *)
Record trellis_of (e : Encoder) (d : ViterbiDecoder) : Prop := {
  t_states : num_states d = states e;
  t_tb : tb_states (tb d) = states e;
  t_depth : traceback_depth (tb d) = (5 * Z.to_nat (enc_k e))%nat;
  t_next : ∀ s b, (s < states e)%nat → (b < 2)%nat → (branch_next d !!! s) !!! b = next_state (enc_k e) s (Z.of_nat b);
  t_out : ∀ s b, (s < states e)%nat → (b < 2)%nat → (branch_out d !!! s) !!! b = branch e s (Z.of_nat b)
}.

Lemma new_decoder_trellis e : trellis_of e (new_decoder e).
Proof.
  split; [done|done|done| |]; intros s b Hs Hb; cbn [new_decoder branch_next branch_out];
    rewrite (list_lookup_total_alt _ s), list_lookup_fmap, lookup_seq_lt by done; cbn; by destruct b as [|[|]]; [| |lia].
Qed.

(** ** Add, compare, select *)
Section acs.
Context (e : Encoder) (d : ViterbiDecoder) (input : list Z) (add : Z → Z → Z).
Context (He : encoder_ok e) (Hd : trellis_of e d) (Hin : bitstring input).
Abbreviation M p := (path_metrics d !!! (p : nat)).
Abbreviation cost p b := (branch_hamming (branch e p (Z.of_nat b)) input).
Abbreviation nx p b := (next_state (enc_k e) p (Z.of_nat b)).
Context (Hadd : ∀ p b, (p < states e)%nat → M p < INF_METRIC → (b < 2)%nat → add (M p) (cost p b) = M p + cost p b ∧ M p + cost p b < INF_METRIC).

(** [acc] has the cheapest of the branches [Q] into every state. *)
Definition selected (Q : nat → nat → Prop) (acc : Acs) : Prop :=
  let '(m, prev, bits) := acc in
  length m = states e ∧ length prev = states e ∧ length bits = states e ∧ Forall (λ p, p < states e)%nat prev ∧
  ∀ s, (s < states e)%nat →
    (m !!! s = INF_METRIC ∧ ∀ p b, Q p b → nx p b ≠ s) ∨
    (m !!! s < INF_METRIC ∧ (∃ p b, Q p b ∧ nx p b = s ∧ prev !!! s = p ∧ bits !!! s = Z.of_nat b ∧ m !!! s = M p + cost p b) ∧
     ∀ p b, Q p b → nx p b = s → m !!! s ≤ M p + cost p b).

Lemma selected_ext Q Q' acc : (∀ p b, Q p b ↔ Q' p b) → selected Q acc → selected Q' acc.
Proof.
  destruct acc as [[m prev] bits]. intros HQ (L1 & L2 & L3 & L4 & H). repeat split; [done..|]. intros s Hs.
  destruct (H s Hs) as [[Hm H1]|(Hm & (p & b & H1 & H2) & H3)]; [left|right].
  - split; [done|]. intros p b ?. apply H1. by apply HQ.
  - split; [done|]. split; [exists p, b; split; [by apply HQ|done]|]. intros p' b' ?. apply H3. by apply HQ.
Qed.

Lemma selected_branch Q p b acc :
  (p < states e)%nat → (b < 2)%nat → M p < INF_METRIC → selected Q acc →
  selected (λ p' b', Q p' b' ∨ p' = p ∧ b' = b) (acs_branch add d input p acc b).
Proof.
  intros Hp Hb HM. destruct acc as [[m prev] bits]. intros (L1 & L2 & L3 & L4 & H).
  unfold acs_branch. rewrite (t_next e d Hd), (t_out e d Hd) by done.
  destruct (Hadd p b Hp HM Hb) as [-> HI].
  assert (nx p b < states e)%nat as Hn by (apply next_state_lt; [done..|unfold is_u; lia]).
  case (Z.ltb_spec (M p + cost p b) (m !!! nx p b)); intros Hc.
  - split; [by rewrite length_insert|]. split; [by rewrite length_insert|]. split; [by rewrite length_insert|].
    split; [by apply Forall_insert|]. intros s Hs. destruct (decide (nx p b = s)) as [<-|Hne].
    + right. rewrite !list_lookup_total_insert_eq by lia. split; [done|]. split; [exists p, b; split; [by right|done]|].
      intros p' b' [HQ|[-> ->]] E; [|done]. destruct (H _ Hn) as [[_ HF]|(_ & _ & HF)]; [by destruct (HF p' b')|].
      specialize (HF p' b' HQ E). lia.
    + rewrite !list_lookup_total_insert_ne by done. destruct (H s Hs) as [[Hm H1]|(Hm & (p' & b' & H1 & H2) & H3)]; [left|right].
      * split; [done|]. intros p' b' [HQ|[-> ->]]; [by apply H1|done].
      * split; [done|]. split; [exists p', b'; split; [by left|done]|]. intros p'' b'' [HQ|[-> ->]]; [by apply H3|done].
  - repeat split; [done..|]. intros s Hs. destruct (H s Hs) as [[Hm H1]|(Hm & (p' & b' & H1 & H2) & H3)]; [left|right].
    + split; [done|]. intros p' b' [HQ|[-> ->]]; [by apply H1|]. intros <-. lia.
    + split; [done|]. split; [exists p', b'; split; [by left|done]|]. intros p'' b'' [HQ|[-> ->]]; [by apply H3|]. by intros <-.
Qed.

Lemma acs_spec : selected (λ p b, (p < states e)%nat ∧ M p < INF_METRIC ∧ (b < 2)%nat) (acs add d input).
Proof.
  unfold acs. rewrite (t_states e d Hd).
  assert (∀ i, (i ≤ states e)%nat → selected (λ p b, (p < i)%nat ∧ M p < INF_METRIC ∧ (b < 2)%nat)
    (foldl (acs_state add d input) (replicate (states e) INF_METRIC, replicate (states e) 0%nat, replicate (states e) 0) (seq 0 i))) as H; [|by apply H].
  induction i as [|i IH]; intros Hi.
  - cbn [seq foldl selected]. rewrite !length_replicate. do 3 (split; [done|]). split; [apply Forall_replicate; by apply states_gt|].
    intros s Hs. left. rewrite lookup_total_replicate_2 by done. split; [done|]. intros p b [? _]. lia.
  - rewrite seq_S, foldl_app, Nat.add_0_l. cbn [foldl]. specialize (IH ltac:(lia)).
    set (acc := foldl _ _ _) in *. unfold acs_state. case (Z.leb_spec INF_METRIC (M i)); intros HM.
    + eapply selected_ext; [|exact IH]. intros p b. split; [intros (?&?&?); split; [lia|done]|].
      intros (Hp & Hq & Hb). split; [|done]. destruct (decide (p = i)) as [->|]; lia.
    + cbn [foldl]. eapply selected_ext; [|apply selected_branch; [lia|lia|done|apply selected_branch; [lia|lia|done|exact IH]]].
      intros p b. cbn. split.
      * intros [[(?&?&?)|[-> ->]]|[-> ->]]; split_and!; lia.
      * intros (Hp & Hq & Hb). destruct (decide (p = i)) as [->|]; [|left; left; split_and!; lia].
        destruct b as [|[|]]; [left; by right|by right|lia].
Qed.
End acs.

(** ** Survivors

    After the symbols [xs] every state has the cost of the cheapest path into it, less [o], and
    the trace has such a path. *)
Section survivors.
Context (e : Encoder) (He : encoder_ok e).
Abbreviation k := (enc_k e).
Abbreviation N := (Z.of_nat (length (generators e))).
Definition symbol_ok (x : list Z) : Prop := length x = length (generators e) ∧ bitstring x.
Definition cheapest (xs : list (list Z)) (s : nat) (c : Z) : Prop :=
  ∀ u, bitstring u → length u = length xs → path k 0 u = s → c ≤ distance (word e 0 u) xs.

Definition survivors (xs : list (list Z)) (hist : list (list nat * list Z)) (m : list Z) (o : Z) : Prop :=
  length m = states e ∧ length hist = length xs ∧ ∀ s, (s < states e)%nat →
    (m !!! s = INF_METRIC ∧ ∀ u, bitstring u → length u = length xs → path k 0 u ≠ s) ∨
    (0 ≤ m !!! s < INF_METRIC ∧ bitstring (trace_path hist s) ∧ path k 0 (trace_path hist s) = s ∧
     distance (word e 0 (trace_path hist s)) xs = m !!! s + o ∧ cheapest xs s (m !!! s + o)).

Lemma distance_range u : ∀ s xs, Forall symbol_ok xs → length u = length xs → bitstring u →
  0 ≤ distance (word e s u) xs ≤ N * Z.of_nat (length xs).
Proof.
  induction u as [|b u IH]; intros s [|x xs] Hx Hl Hu; try done; [cbn; lia|].
  apply Forall_cons in Hx as [[Hx1 Hx2] Hx]. apply Forall_cons in Hu as [Hb Hu]. cbn [length word] in *.
  specialize (IH (next_state k s b) xs Hx ltac:(lia) Hu). unfold distance in *. cbn [zip_with foldr].
  pose proof (hamming_range (branch e s b) x (encode_from_window_bits _ _) Hx2) as Hh. rewrite branch_length in Hh. nia.
Qed.

Lemma survivors_start : survivors [] [] (start_metrics (states e)) 0.
Proof.
  pose proof (states_gt e He). unfold start_metrics. split; [by rewrite length_insert, length_replicate|]. split; [done|].
  intros s Hs. destruct (decide (s = 0%nat)) as [->|Hne].
  - right. rewrite list_lookup_total_insert_eq by by rewrite length_replicate.
    split; [done|]. split; [constructor|]. split; [done|]. split; [done|]. intros u _ Hu _. by destruct u.
  - left. rewrite list_lookup_total_insert_ne by done. rewrite lookup_total_replicate_2 by done. split; [done|].
    intros u _ Hu. destruct u; [|done]. by intros <-.
Qed.

Lemma survivors_shift xs hist m o c :
  (∀ s, (s < states e)%nat → m !!! s < INF_METRIC → c ≤ m !!! s) → 0 ≤ c →
  survivors xs hist m o → survivors xs hist ((λ x, if x <? INF_METRIC then x - c else x) <$> m) (o + c).
Proof.
  intros Hc H0 (L1 & L2 & H). split; [by rewrite length_fmap|]. split; [done|]. intros s Hs.
  rewrite (list_lookup_total_fmap _ _ s) by lia. destruct (H s Hs) as [[E HF]|(E & HF)].
  - left. rewrite E, Z.ltb_irrefl. done.
  - right. specialize (Hc s Hs ltac:(lia)). rewrite (proj2 (Z.ltb_lt _ _)) by lia. split; [lia|].
    replace (m !!! s - c + (o + c)) with (m !!! s + o) by lia. done.
Qed.

Lemma snoc_inv {A} (u : list A) n : length u = S n → ∃ v b, u = v ++ [b] ∧ length v = n.
Proof.
  intros H. destruct u as [|b v _] using rev_ind; [done|]. exists v, b. rewrite length_app in H. cbn in H. split; [done|lia].
Qed.

Lemma survivors_acs d input add xs hist o m prev bits :
  trellis_of e d → symbol_ok input → Forall symbol_ok xs →
  (∀ p b, (p < states e)%nat → path_metrics d !!! p < INF_METRIC → (b < 2)%nat →
     let c := branch_hamming (branch e p (Z.of_nat b)) input in
     add (path_metrics d !!! p) c = path_metrics d !!! p + c ∧ path_metrics d !!! p + c < INF_METRIC) →
  survivors xs hist (path_metrics d) o → acs add d input = (m, prev, bits) →
  row_of (states e) (prev, bits) ∧ survivors (xs ++ [input]) ((prev, bits) :: hist) m o.
Proof.
  intros Hd [Hi1 Hi2] Hxs Hadd (L1 & L2 & H) Ea. pose proof (acs_spec e d input add He Hd Hadd) as Hs. rewrite Ea in Hs.
  destruct Hs as (M1 & M2 & M3 & M4 & Hs). split; [done|]. split; [done|]. split; [rewrite length_app; cbn; lia|].
  assert (∀ b : nat, (b < 2)%nat → is_u 1 (Z.of_nat b)) as Hbit by (unfold is_u; lia).
  assert (∀ v b, bitstring v → is_u 1 b → length v = length xs →
    distance (word e 0 (v ++ [b])) (xs ++ [input]) = distance (word e 0 v) xs + branch_hamming (branch e (path k 0 v) b) input) as Hsnoc.
  { intros v b _ _ Hl. rewrite word_app, distance_app by by rewrite word_length. f_equal. unfold distance. cbn [word zip_with foldr]. lia. }
  intros s Hlt. destruct (Hs s Hlt) as [[E HF]|(E & (p & b & (Hp & HM & Hb) & En & Ep & Eb & Em) & HF)].
  - left. split; [done|]. intros u Hu Hl Eu. rewrite length_app in Hl. cbn in Hl.
    destruct (snoc_inv u (length xs) ltac:(lia)) as (v & b & -> & Hv). apply Forall_app in Hu as [Hu Hb]. rewrite Forall_singleton in Hb.
    rewrite path_app in Eu. cbn in Eu. assert (path k 0 v < states e)%nat as Hlt' by (apply path_lt; [done|by apply states_gt|done]).
    apply (HF (path k 0 v) (Z.to_nat b)); [|rewrite (Z2Nat.id b) by apply Hb; done].
    split; [done|]. split; [|unfold is_u in Hb; lia].
    destruct (H _ Hlt') as [[_ HF']|(? & _)]; [by destruct (HF' v)|lia].
  - right. destruct (H p Hp) as [[? _]|(HMp & V1 & V2 & V3 & V4)]; [lia|].
    pose proof (hamming_range (branch e p (Z.of_nat b)) input (encode_from_window_bits _ _) Hi2).
    split; [lia|]. cbn [trace_path]. rewrite Ep, Eb. split; [apply Forall_app; split; [done|by apply Forall_singleton, Hbit]|].
    split; [by rewrite path_app, V2|]. split.
    + rewrite Hsnoc; [rewrite V2, V3; lia|done|by apply Hbit|by rewrite trace_path_length].
    + intros u Hu Hl Eu. rewrite length_app in Hl. cbn in Hl.
      destruct (snoc_inv u (length xs) ltac:(lia)) as (v & c & -> & Hv). apply Forall_app in Hu as [Hu Hc]. rewrite Forall_singleton in Hc.
      rewrite path_app in Eu. cbn in Eu. assert (path k 0 v < states e)%nat as Hlt' by (apply path_lt; [done|by apply states_gt|done]).
      rewrite Hsnoc by done. destruct (H _ Hlt') as [[_ HF']|(HMv & _ & _ & _ & HC)]; [by destruct (HF' v)|].
      specialize (HC v Hu Hv eq_refl). unfold is_u in Hc.
      specialize (HF (path k 0 v) (Z.to_nat c)). rewrite Z2Nat.id in HF by lia. specialize (HF ltac:(split_and!; [done|lia|lia]) Eu). lia.
Qed.

(** Any state can be reached in [k - 1] steps, so that the metrics of the states stay within [N (k - 1)] of each other. *)
Definition bits_to (s j : nat) : list Z := (λ i, Z.b2z (Z.testbit (Z.of_nat s) (Z.of_nat i))) <$> seq 0 j.
Lemma bits_to_ok s j : bitstring (bits_to s j) ∧ length (bits_to s j) = j.
Proof.
  split; [|unfold bits_to; by rewrite length_fmap, length_seq]. apply Forall_fmap, Forall_true. intros i. unfold is_u. cbn.
  by destruct (Z.testbit _ _).
Qed.
Lemma path_bits_to p s : (p < states e)%nat → ∀ j, (Z.of_nat j ≤ k - 1) →
  Z.of_nat (path k p (bits_to s j)) = Z.of_nat p / 2 ^ Z.of_nat j + (Z.of_nat s mod 2 ^ Z.of_nat j) * 2 ^ (k - 1 - Z.of_nat j).
Proof.
  intros Hp j. induction j as [|j IH]; intros Hj; [cbn; rewrite Z.div_1_r, Z.mod_1_r; lia|]. specialize (IH ltac:(lia)).
  set (b := Z.b2z (Z.testbit (Z.of_nat s) (Z.of_nat j))). assert (is_u 1 b) as Hb by (unfold b; by destruct (Z.testbit _ _)).
  assert (bits_to s (S j) = bits_to s j ++ [b]) as -> by (unfold bits_to; by rewrite seq_S, fmap_app).
  rewrite path_app. cbn [path]. assert (0 < 2 ^ Z.of_nat j) by (apply Z.pow_pos_nonneg; lia).
  rewrite next_state_val; [|done|apply path_lt; [done|done|exact (proj1 (bits_to_ok s j))]|exact Hb]. rewrite IH.
  replace (k - 1 - Z.of_nat j) with (Z.succ (k - 2 - Z.of_nat j)) by lia. rewrite Z.pow_succ_r, Nat2Z.inj_succ, Z.pow_succ_r by lia.
  replace (k - 1 - Z.succ (Z.of_nat j)) with (k - 2 - Z.of_nat j) by lia.
  set (w := 2 ^ (k - 2 - Z.of_nat j)). set (q := Z.of_nat s mod 2 ^ Z.of_nat j).
  replace (Z.of_nat p / 2 ^ Z.of_nat j + q * (2 * w)) with (Z.of_nat p / 2 ^ Z.of_nat j + (q * w) * 2) by lia.
  rewrite Z.div_add, Z.div_div by lia. rewrite (Z.mul_comm 2 (2 ^ _)) at 1.
  assert (2 ^ (k - 2) = 2 ^ Z.of_nat j * w) as -> by (unfold w; rewrite <- Z.pow_add_r by lia; f_equal; lia).
  assert (Z.of_nat s mod (2 * 2 ^ Z.of_nat j) = q + b * 2 ^ Z.of_nat j) as ->; [|lia].
  unfold q, b. rewrite Z.testbit_spec' by lia.
  rewrite Z.mul_comm, Z.rem_mul_r by lia. lia.
Qed.
Lemma path_bits_to_all p s : (p < states e)%nat → (s < states e)%nat → path k p (bits_to s (Z.to_nat (k - 1))) = s.
Proof.
  intros Hp Hs. destruct (states_pow e He) as (S1 & _). unfold encoder_ok in He. apply Nat2Z.inj. rewrite path_bits_to, Z2Nat.id, Z.sub_diag by lia.
  rewrite Z.div_small, Z.mod_small by lia. cbn. lia.
Qed.

Definition lowest (m : list Z) : Prop := ∃ s, (s < states e)%nat ∧ m !!! s = 0.
Lemma survivors_bound xs hist m o s :
  Forall symbol_ok xs → survivors xs hist m o → lowest m → 0 ≤ o → (s < states e)%nat → m !!! s < INF_METRIC → m !!! s ≤ N * (k - 1).
Proof.
  intros Hx (L1 & L2 & H) (s0 & Hs0 & E0) Ho Hs Hm. assert (0 < k - 1) as Hk by (unfold encoder_ok in He; lia).
  destruct (H s Hs) as [[? _]|(_ & V1 & V2 & V3 & HC)]; [lia|].
  destruct (decide (Z.of_nat (length xs) ≤ k - 1)) as [Hlt|Hge].
  { pose proof (distance_range (trace_path hist s) 0 xs Hx) as Hr. rewrite trace_path_length in Hr. specialize (Hr L2 V1). nia. }
  destruct (H s0 Hs0) as [[E1 _]|(_ & W1 & W2 & W3 & _)]; [rewrite E0 in E1; done|].
  set (v := trace_path hist s0) in *. assert (length v = length xs) as Lv by by unfold v; rewrite trace_path_length.
  set (j := Z.to_nat (k - 1)). set (a := (length xs - j)%nat).
  assert (v = take a v ++ drop a v) as Ev by by rewrite take_drop.
  assert (xs = take a xs ++ drop a xs) as Ex by by rewrite take_drop.
  assert (length (take a v) = a ∧ length (take a xs) = a ∧ length (drop a v) = j ∧ length (drop a xs) = j) as (A1 & A2 & A3 & A4)
    by (rewrite !length_take, !length_drop; lia).
  assert (Forall symbol_ok (take a xs) ∧ Forall symbol_ok (drop a xs)) as [X1 X2] by (apply Forall_app; by rewrite take_drop).
  assert (bitstring (take a v) ∧ bitstring (drop a v)) as [B1 B2] by (apply Forall_app; by rewrite take_drop).
  destruct (bits_to_ok s j) as [T1 T2].
  specialize (HC (take a v ++ bits_to s j)). rewrite path_app, word_app, Ex, distance_app in HC by by rewrite word_length, A1, A2.
  rewrite Ev, Ex, word_app, distance_app in W3 by by rewrite word_length, A1, A2.
  pose proof (distance_range (drop a v) (path k 0 (take a v)) (drop a xs) X2 ltac:(lia) B2).
  pose proof (distance_range (bits_to s j) (path k 0 (take a v)) (drop a xs) X2 ltac:(lia) T1) as Hr.
  specialize (HC ltac:(by apply Forall_app) ltac:(rewrite !length_app; lia)).
  rewrite path_bits_to_all in HC; [|apply path_lt; [done|by apply states_gt|done]|done]. specialize (HC eq_refl).
  assert (Z.of_nat j = k - 1) as Ej by (unfold j; lia). rewrite A4, Ej in Hr. lia.
Qed.

(** One symbol, for any addition that is exact below [INF_METRIC]; [k N] is all the room it needs. *)
Context (HN : N * k < INF_METRIC).
Lemma normalized_step d add xs hist o x m prev bits :
  (∀ a b, 0 ≤ a → 0 ≤ b → a + b < INF_METRIC → add a b = a + b) →
  trellis_of e d → Forall symbol_ok xs → symbol_ok x → survivors xs hist (path_metrics d) o → lowest (path_metrics d) → 0 ≤ o →
  acs add d x = (m, prev, bits) →
  let m' := (λ y, if y <? INF_METRIC then y - list_min m else y) <$> m in
  row_of (states e) (prev, bits) ∧ survivors (xs ++ [x]) ((prev, bits) :: hist) m' (o + list_min m) ∧ lowest m' ∧ 0 ≤ list_min m ∧
  (∀ y, y ∈ m → list_min m ≤ y).
Proof.
  intros Hadd Hd Hxs Hx Hs Hlow Ho Ea. cbn zeta.
  assert (∀ p b, (p < states e)%nat → path_metrics d !!! p < INF_METRIC → (b < 2)%nat →
     let c := branch_hamming (branch e p (Z.of_nat b)) x in
     add (path_metrics d !!! p) c = path_metrics d !!! p + c ∧ path_metrics d !!! p + c < INF_METRIC) as Hadd'.
  { intros p b Hp HM Hb. cbn zeta. pose proof (survivors_bound xs hist _ o p Hxs Hs Hlow Ho Hp HM).
    pose proof (hamming_range (branch e p (Z.of_nat b)) x (encode_from_window_bits _ _) (proj2 Hx)) as Hh. rewrite branch_length in Hh.
    assert (0 ≤ path_metrics d !!! p) by (destruct Hs as (_ & _ & Hs); destruct (Hs p Hp) as [[? _]|(? & _)]; lia).
    split; [apply Hadd|]; lia. }
  destruct (survivors_acs d x add xs hist o m prev bits Hd Hx Hxs Hadd' Hs Ea) as [Hr Hs'].
  assert (m ≠ []) as Hne by (destruct Hs' as [L _]; pose proof (states_gt e He); destruct m; [cbn in L; lia|done]).
  destruct (list_min_spec m Hne) as [Hmin Hle]. split; [done|].
  assert (∀ s, (s < states e)%nat → list_min m ≤ m !!! s) as Hle'.
  { intros s Hlt. apply Hle. apply list_elem_of_lookup_2 with s. apply list_lookup_lookup_total_lt. by destruct Hs' as [-> _]. }
  apply list_elem_of_lookup in Hmin as (i & Hi). pose proof (lookup_lt_Some _ _ _ Hi) as Hlt. apply list_lookup_total_correct in Hi.
  destruct (Hs') as (L & _ & HL). rewrite L in Hlt.
  assert (0 ≤ list_min m < INF_METRIC) as [H0 H1].
  { rewrite <- Hi. destruct (HL i Hlt) as [[E HF]|(? & _)]; [|lia]. exfalso. destruct Hlow as (s0 & Hs0 & E0).
    pose proof (acs_spec e d x add He Hd Hadd') as Hsel. rewrite Ea in Hsel. destruct Hsel as (_ & _ & _ & _ & Hsel).
    pose proof (next_state_lt e s0 0 He Hs0 ltac:(done)) as Hn.
    assert (path_metrics d !!! s0 < INF_METRIC) as HM by by rewrite E0.
    destruct (Hsel _ Hn) as [[_ HF']|(Hfin & _)]; [apply (HF' s0 0%nat); [split_and!; [done|done|lia]|done]|]. specialize (Hle' _ Hn). lia. }
  split; [apply survivors_shift; [intros; by apply Hle'|done|done]|]. split; [|done].
  exists i. split; [done|]. rewrite (list_lookup_total_fmap _ _ i) by lia. rewrite Hi, (proj2 (Z.ltb_lt _ _)) by lia. lia.
Qed.

(** A decoder after the symbols [xs] from the zero state. *)
Definition decoded (d : ViterbiDecoder) (xs : list (list Z)) (hist : list (list nat * list Z)) (o : Z) : Prop :=
  trellis_of e d ∧ Forall (row_of (states e)) hist ∧ holds (tb d) (take (steps (tb d)) hist) ∧
  Forall symbol_ok xs ∧ survivors xs hist (path_metrics d) o ∧ lowest (path_metrics d) ∧ 0 ≤ o.

Lemma reset_decoded d : trellis_of e d → decoded (reset_trellis d) [] [] 0.
Proof.
  intros [D1 D2 D3 D4 D5]. pose proof (states_gt e He). split; [done|]. split; [done|]. split; [by repeat split|]. split; [done|]. cbn. rewrite D1.
  split; [apply survivors_start|]. split; [|done]. exists 0%nat. split; [done|]. unfold start_metrics.
  by rewrite list_lookup_total_insert_eq by by rewrite length_replicate.
Qed.

Lemma decoded_row d xs hist o prev bits : decoded d xs hist o → row_of (states e) (prev, bits) →
  holds (record_step (tb d) prev bits) (take (S (steps (tb d))) ((prev, bits) :: hist)).
Proof. intros ([D1 D2] & _ & Ht & _) Hr. cbn [take]. apply holds_record; [done|]. by rewrite D2. Qed.

Lemma block_step_decoded d xs hist o x : symbol_ok x → decoded d xs hist o →
  steps (tb (block_step d x)) = S (steps (tb d)) ∧ ∃ row o', decoded (block_step d x) (xs ++ [x]) (row :: hist) o'.
Proof.
  intros Hx HD. pose proof HD as (Hd & Hrows & Ht & Hxs & Hs & Hlow & Ho). unfold block_step. destruct (acs saturating_add d x) as [[m prev] bits] eqn:Ea.
  destruct (normalized_step d saturating_add xs hist o x m prev bits) as (Hr & Hs' & Hlow' & H0 & Hle); [|done..|].
  { intros a b ? ? ?. unfold saturating_add. assert (INF_METRIC < 2 ^ 32 - 1) by done. lia. }
  split; [done|]. exists (prev, bits), (o + list_min m). pose proof (decoded_row d xs hist o prev bits HD Hr) as Hh. destruct Hd as [D1 D2 D3 D4 D5].
  assert (normalize (list_min m) m = (λ x, if x <? INF_METRIC then x - list_min m else x) <$> m) as En.
  { unfold normalize. apply list_fmap_ext. intros i y Hy. unfold saturating_sub. case_match; [|done].
    pose proof (Hle y (list_elem_of_lookup_2 _ _ _ Hy)). lia. }
  split; [split; done|]. split; [by apply Forall_cons|]. split; [exact Hh|]. cbn [path_metrics]. rewrite En.
  split; [apply Forall_app; split; [done|by apply Forall_singleton]|]. split; [done|]. split; [done|lia].
Qed.

Lemma stream_step_decoded d xs hist o x : symbol_ok x → decoded d xs hist o →
  steps (tb (stream_step d x)) = S (steps (tb d)) ∧ ∃ row o', decoded (stream_step d x) (xs ++ [x]) (row :: hist) o'.
Proof.
  intros Hx HD. pose proof HD as (Hd & Hrows & Ht & Hxs & Hs & Hlow & Ho). unfold stream_step. destruct (acs _ d x) as [[m prev] bits] eqn:Ea.
  destruct (normalized_step d (λ a b, wrap 32 (a + b)) xs hist o x m prev bits) as (Hr & Hs' & Hlow' & H0 & Hle); [|done..|].
  { intros a b ? ? ?. apply wrap_small. assert (INF_METRIC < 2 ^ 32) by done. unfold is_u. lia. }
  split; [done|]. exists (prev, bits), (o + list_min m). pose proof (decoded_row d xs hist o prev bits HD Hr) as Hh. destruct Hd as [D1 D2 D3 D4 D5].
  assert ((if 0 <? list_min m then (λ y, if y <? INF_METRIC then y - list_min m else y) <$> m else m) =
    (λ y, if y <? INF_METRIC then y - list_min m else y) <$> m) as En.
  { case (Z.ltb_spec 0 (list_min m)); intros Hm; [done|]. rewrite <- (list_fmap_id m) at 1. apply list_fmap_ext. intros i y Hy. case_match; [|done]. cbn. lia. }
  split; [split; done|]. split; [by apply Forall_cons|]. split; [exact Hh|]. cbn [path_metrics]. rewrite En.
  split; [apply Forall_app; split; [done|by apply Forall_singleton]|]. split; [done|]. split; [done|lia].
Qed.

Lemma block_decoded d xs : trellis_of e d → Forall symbol_ok xs →
  ∃ hist o, decoded (foldl block_step (reset_trellis d) xs) xs hist o ∧ steps (tb (foldl block_step (reset_trellis d) xs)) = length xs.
Proof.
  intros Hd. induction xs as [|x xs IH] using rev_ind; intros Hx.
  - exists [], 0. split; [by apply reset_decoded|done].
  - apply Forall_app in Hx as [Hx Hx']. rewrite Forall_singleton in Hx'.
    destruct IH as (hist & o & IH & El); [done|]. rewrite foldl_app. cbn [foldl].
    destruct (block_step_decoded _ xs hist o x Hx' IH) as (Es & row & o' & H). exists (row :: hist), o'. split; [done|]. rewrite Es, El, length_app. cbn. lia.
Qed.
End survivors.
