(* ===== verification/ViterbiProofs.v ===== *)
(** * What the Viterbi decoders decode

    Maximum likelihood in a block and in a stream, and the number of errors the codes of the
    standard correct.  A word of the code is a path of the trellis; the code is linear, so what
    two words differ in is the weight of a third, and the least weight of the words that leave
    the zero state is a computation on the table of branches. *)
From S2P Require Import Prelude BitString LongCode ChannelCoding Viterbi.
Import Coding Viterbi.
#[local] Arguments traceback_bit : simpl never.

(** ** Used decoders, and flat symbols *)
Inductive UsedDecoder (e : Encoder) : ViterbiDecoder → Prop :=
| used_new : UsedDecoder e (new_decoder e)
| used_block d xs s : UsedDecoder e d → UsedDecoder e (decode_block_from_state d xs s).1
| used_process d x d' b : UsedDecoder e d → process d x = Some (d', b) → UsedDecoder e d'
| used_batch d xs : UsedDecoder e d → UsedDecoder e (process_batch d xs).1
| used_reset d : UsedDecoder e d → UsedDecoder e (reset_trellis d).

(** What a step leaves as it is. *)
Definition same_trellis (d d' : ViterbiDecoder) : Prop :=
  num_states d' = num_states d ∧ branch_next d' = branch_next d ∧ branch_out d' = branch_out d ∧
  tb_states (tb d') = tb_states (tb d) ∧ traceback_depth (tb d') = traceback_depth (tb d).
#[export] Instance same_trellis_preorder : PreOrder same_trellis.
Proof. split; [by repeat split|]. intros x y z (?&?&?&?&?) (?&?&?&?&?). unfold same_trellis. split_and!; congruence. Qed.
Lemma same_trellis_of e d d' : trellis_of e d → same_trellis d d' → trellis_of e d'.
Proof. intros [] (E1 & E2 & E3 & E4 & E5). split; rewrite ?E1, ?E2, ?E3, ?E4, ?E5; done. Qed.

Lemma block_step_same d x : same_trellis d (block_step d x).
Proof. unfold block_step. by destruct (acs _ _ _) as [[? ?] ?]. Qed.
Lemma stream_step_same d x : same_trellis d (stream_step d x).
Proof. unfold stream_step. by destruct (acs _ _ _) as [[? ?] ?]. Qed.
Lemma trim_same d : same_trellis d (with_tb d (trim_history (tb d))).
Proof. unfold same_trellis, trim_history. cbn. by repeat case_match. Qed.
Lemma foldl_same (f : ViterbiDecoder → list Z → ViterbiDecoder) xs : (∀ d x, same_trellis d (f d x)) → ∀ d, same_trellis d (foldl f d xs).
Proof. intros Hf. induction xs as [|x xs IH]; intros d; [done|]. cbn. etrans; [apply Hf|apply IH]. Qed.

Lemma used_trellis e d : UsedDecoder e d → trellis_of e d.
Proof.
  induction 1 as [|d xs s _ IH|d x d' b _ IH E|d xs _ IH|d _ IH]; [apply new_decoder_trellis|..]; (eapply same_trellis_of; [exact IH|]).
  - unfold decode_block_from_state. cbn [fst]. transitivity (reset_trellis d); [done|apply foldl_same, block_step_same].
  - unfold process in E. destruct (forallb _ _); [|done]. injection E as <- _. etrans; [apply stream_step_same|apply trim_same].
  - unfold process_batch. cbn [fst]. etrans; [apply (foldl_same stream_step), stream_step_same|apply trim_same].
  - done.
Qed.

Lemma distance_concat e u : ∀ s xs, Forall (symbol_ok e) xs → length u = length xs →
  branch_hamming (concat (word e s u)) (concat xs) = distance (word e s u) xs.
Proof.
  induction u as [|b u IH]; intros s [|x xs] Hx Hl; try done. apply Forall_cons in Hx as [[Hx1 _] Hx]. cbn [word concat length] in *.
  rewrite hamming_app by by rewrite branch_length. rewrite IH by (done || lia). done.
Qed.

(** ** Block decoding *)
Definition room (e : Encoder) : Prop := Z.of_nat (length (generators e)) * enc_k e < INF_METRIC.

Lemma decode_block_spec e d xs s u :
  encoder_ok e → room e → trellis_of e d → Forall (symbol_ok e) xs →
  bitstring u → length u = length xs → path (enc_k e) 0 u = s →
  let out := (decode_block_from_state d xs s).2 in
  bitstring out ∧ length out = length xs ∧ path (enc_k e) 0 out = s ∧
  cheapest e xs s (distance (word e 0 out) xs).
Proof.
  intros He HN Hd Hx Hu Hl Es. cbn zeta. unfold decode_block_from_state. cbn [snd].
  destruct (block_decoded e He HN d xs Hd Hx) as (hist & o & (Hd' & _ & Ht & _ & (L1 & L2 & Hs) & _) & El).
  rewrite El, take_ge in Ht by lia.
  assert (s < states e)%nat as Hlt by (rewrite <- Es; apply path_lt; [done|by apply states_gt|done]).
  rewrite (trace_all_spec _ hist s Ht) by by rewrite (t_tb _ _ Hd').
  destruct (Hs s Hlt) as [[_ HF]|(_ & V1 & V2 & V3 & V4)]; [by destruct (HF u)|].
  rewrite trace_path_length, V3. done.
Qed.

(** C6: The block decoder is maximum likelihood.  A decoder of an encoder, whatever it decoded before, given the symbols
    of a block of any length and the state the encoder ended in, returns bits of the right number
    that drive the encoder into that state, and whose code symbols differ from the received ones in
    no more places than those of any other such bits. *)
Theorem viterbi_maximum_likelihood e d xs s :
  encoder_ok e → room e → window e = 0 → UsedDecoder e d → Forall (symbol_ok e) xs →
  (∃ u, bitstring u ∧ length u = length xs ∧ state_of (encode_all e u).1 = s) →
  let out := (decode_block_from_state d xs s).2 in
  bitstring out ∧ length out = length xs ∧ state_of (encode_all e out).1 = s ∧
  ∀ u, bitstring u → length u = length xs → state_of (encode_all e u).1 = s →
    branch_hamming (encode_all e out).2 (concat xs) ≤ branch_hamming (encode_all e u).2 (concat xs).
Proof.
  intros He HN Hw Hd Hx (u & Hu & Hl & Es). cbn zeta.
  assert (state_of e = 0%nat) as E0 by by unfold state_of; rewrite Hw.
  destruct (encode_all_word u e He Hu) as [_ U2]. rewrite E0 in U2. rewrite U2 in Es.
  destruct (decode_block_spec e d xs s u He HN (used_trellis e d Hd) Hx Hu Hl Es) as (O1 & O2 & O3 & O4).
  destruct (encode_all_word _ e He O1) as [W1 W2]. rewrite E0 in W1, W2.
  split; [done|]. split; [done|]. split; [by rewrite W2|]. intros v Hv Hlv Ev.
  destruct (encode_all_word v e He Hv) as [V1 V2]. rewrite E0 in V1, V2. rewrite W1, V1, !distance_concat by done.
  apply O4; [done|done|by rewrite <- V2].
Qed.
Lemma viterbi_maximum_likelihood_witness :
  let e := new_encoder 3 [7; 5] in
  let xs := [[1; 1]; [1; 0]; [0; 1]; [0; 1]; [1; 1]] in
  state_of (encode_all e [1; 0; 1; 0; 0]).1 = 0%nat ∧
  let out := (decode_block_from_state (new_decoder e) xs 0).2 in
  branch_hamming (encode_all e out).2 (concat xs) ≤ branch_hamming (encode_all e [1; 0; 1; 0; 0]).2 (concat xs).
Proof.
  intros e xs. assert (bitstring [1; 0; 1; 0; 0]) as Hb by by repeat constructor.
  assert (state_of (encode_all e [1; 0; 1; 0; 0]).1 = 0%nat) as Hs by by vm_compute. split; [exact Hs|].
  apply (viterbi_maximum_likelihood e (new_decoder e) xs 0%nat); [by vm_compute|reflexivity|reflexivity|constructor|by repeat constructor| |exact Hb|reflexivity|exact Hs].
  exists [1; 0; 1; 0; 0]. split; [exact Hb|]. split; [reflexivity|exact Hs].
Defined.

(** ** Linearity *)
Lemma count_parity l a b : ∃ q, foldr (λ i n, Z.b2z (Z.testbit (Z.lxor a b) (Z.of_nat i)) + n) 0 l + 2 * q =
  foldr (λ i n, Z.b2z (Z.testbit a (Z.of_nat i)) + n) 0 l + foldr (λ i n, Z.b2z (Z.testbit b (Z.of_nat i)) + n) 0 l.
Proof.
  induction l as [|i l [q IH]]; [by exists 0|]. cbn. rewrite Z.lxor_spec.
  destruct (Z.testbit a (Z.of_nat i)), (Z.testbit b (Z.of_nat i)); cbn; [exists (q + 1)|exists q..]; lia.
Qed.
Lemma parity_lxor a b : parity (Z.lxor a b) = Z.lxor (parity a) (parity b).
Proof.
  destruct (count_parity (seq 0 64) a b) as (q & H).
  assert (∀ x, parity x = LongCode.count_ones x mod 2) as E by (intros x; apply (Z.land_ones _ 1); lia).
  assert (∀ x y z q, x + 2 * q = y + z → x mod 2 = Z.lxor (y mod 2) (z mod 2)) as Hm.
  { intros x y z p Hp. assert (x mod 2 = (y mod 2 + z mod 2) mod 2) as ->.
    { rewrite <- Zplus_mod, <- Hp. replace (x + 2 * p) with (x + p * 2) by lia. by rewrite Z.mod_add. }
    pose proof (Z.mod_pos_bound y 2 ltac:(lia)). pose proof (Z.mod_pos_bound z 2 ltac:(lia)).
    assert (y mod 2 = 0 ∨ y mod 2 = 1) as [->| ->] by lia; assert (z mod 2 = 0 ∨ z mod 2 = 1) as [->| ->] by lia; done. }
  rewrite !E. by apply (Hm _ _ _ q).
Qed.

(** The xor of two states. *)
Definition differ (s t d : nat) : Prop := Z.of_nat d = Z.lxor (Z.of_nat s) (Z.of_nat t).
Definition weight (l : list Z) : Z := foldr Z.add 0 l.

Lemma land_lxor a b g : Z.land (Z.lxor a b) g = Z.lxor (Z.land a g) (Z.land b g).
Proof.
  apply Z.bits_inj'. intros i Hi. rewrite Z.land_spec, !Z.lxor_spec, !Z.land_spec.
  by destruct (Z.testbit a i), (Z.testbit b i), (Z.testbit g i).
Qed.
(** Joining two fields is their xor. *)
Lemma lor_lxor a b n : 0 ≤ n → 0 ≤ a < 2 ^ n → Z.lor a (Z.shiftl b n) = Z.lxor a (Z.shiftl b n).
Proof.
  intros Hn Ha. symmetry. apply Z.lxor_lor. pose proof (lor_add a b n Hn Ha) as E.
  pose proof (Z.add_lor_land a (Z.shiftl b n)). rewrite Z.shiftl_mul_pow2 in * by done. lia.
Qed.
Lemma window_lxor a b c d n : 0 ≤ n → 0 ≤ a < 2 ^ n → 0 ≤ b < 2 ^ n → 0 ≤ Z.lxor a b < 2 ^ n →
  Z.lor (Z.lxor a b) (Z.shiftl (Z.lxor c d) n) = Z.lxor (Z.lor a (Z.shiftl c n)) (Z.lor b (Z.shiftl d n)).
Proof.
  intros. rewrite !lor_lxor, Z.shiftl_lxor by done. rewrite !Z.lxor_assoc. f_equal. rewrite <- !Z.lxor_assoc. f_equal. apply Z.lxor_comm.
Qed.

Section linear.
Context (e : Encoder) (He : encoder_ok e).
Abbreviation n := (states e).

Lemma branch_differ s t d b c : (s < n)%nat → (t < n)%nat → (d < n)%nat → differ s t d →
  branch_hamming (branch e s b) (branch e t c) = weight (branch e d (Z.lxor b c)).
Proof.
  intros Hs Ht Hd D. destruct (states_pow e He) as (S1 & _). unfold encoder_ok in He. unfold differ in D.
  unfold branch, encode_from_window, branch_hamming, weight. rewrite D, window_lxor by lia.
  induction (generators e) as [|g l IH]; [done|]. cbn. by rewrite IH, land_lxor, parity_lxor.
Qed.

Lemma next_differ s t d b c : (s < n)%nat → (t < n)%nat → (d < n)%nat → is_u 1 b → is_u 1 c → differ s t d →
  is_u 1 (Z.lxor b c) ∧ differ (next_state (enc_k e) s b) (next_state (enc_k e) t c) (next_state (enc_k e) d (Z.lxor b c)).
Proof.
  intros Hs Ht Hd Hb Hc D. assert (is_u 1 (Z.lxor b c)) as Hbc by (destruct (bit_cases b Hb) as [->| ->], (bit_cases c Hc) as [->| ->]; done).
  split; [done|]. unfold differ in *. destruct (states_pow e He) as (S1 & S2 & S3). unfold encoder_ok in He.
  assert (∀ x y : Z, 0 ≤ x < 2 ^ (enc_k e - 1) → 0 ≤ x / 2 < 2 ^ (enc_k e - 2)) as Hh by (intros; split; [apply Z.div_pos; lia|apply Z.div_lt_upper_bound; lia]).
  rewrite !(next_state_val e) by done.
  assert (Z.of_nat d / 2 = Z.lxor (Z.of_nat s / 2) (Z.of_nat t / 2)) as Ed.
  { rewrite D. change 2 with (2 ^ 1). rewrite <- !Z.shiftr_div_pow2 by lia. apply Z.shiftr_lxor. }
  pose proof (Hh (Z.of_nat s) 0 ltac:(lia)). pose proof (Hh (Z.of_nat t) 0 ltac:(lia)). pose proof (Hh (Z.of_nat d) 0 ltac:(lia)).
  rewrite Ed in *. rewrite <- !lor_add by lia. apply window_lxor; lia.
Qed.

(** The least weight of [j] branches from a difference, and of [j] branches after two words part. *)
Definition branch_table : list ((Z * nat) * (Z * nat)) :=
  (λ s, ((weight (branch e s 0), next_state (enc_k e) s 0), (weight (branch e s 1), next_state (enc_k e) s 1))) <$> seq 0 n.
Definition relax (table : list ((Z * nat) * (Z * nat))) (P : list Z) : list Z :=
  (λ r : (Z * nat) * (Z * nat), Z.min (r.1.1 + P !!! r.1.2) (r.2.1 + P !!! r.2.2)) <$> table.
Definition least (j : nat) : list Z := Nat.iter j (relax branch_table) (replicate n 0).
Definition column_distance (j : nat) : Z := weight (branch e 0 1) + least j !!! next_state (enc_k e) 0 1.

Lemma least_0 d : (d < n)%nat → least 0 !!! d = 0.
Proof. intros Hd. unfold least. cbn. by rewrite lookup_total_replicate_2. Qed.
Lemma least_S j d : (d < n)%nat → least (S j) !!! d =
  Z.min (weight (branch e d 0) + least j !!! next_state (enc_k e) d 0) (weight (branch e d 1) + least j !!! next_state (enc_k e) d 1).
Proof.
  intros Hd. change (least (S j)) with (relax branch_table (least j)). unfold relax, branch_table.
  rewrite list_lookup_total_alt, <- list_fmap_compose, list_lookup_fmap, lookup_seq_lt by done. done.
Qed.
Lemma least_branch j d b : (d < n)%nat → is_u 1 b →
  least (S j) !!! d ≤ weight (branch e d b) + least j !!! next_state (enc_k e) d b.
Proof. intros Hd Hb. rewrite least_S by done. destruct (bit_cases b Hb) as [->| ->]; lia. Qed.
Lemma weight_nonneg d b : 0 ≤ weight (branch e d b).
Proof.
  unfold weight. pose proof (encode_from_window_bits (Z.lor (Z.of_nat d) (Z.shiftl b (enc_k e - 1))) (generators e)) as H. fold (branch e d b) in H.
  induction H as [|x l Hx _ IH]; [done|]. cbn. unfold is_u in Hx. lia.
Qed.
Lemma least_mono_1 j : ∀ d, (d < n)%nat → least j !!! d ≤ least (S j) !!! d.
Proof.
  assert (is_u 1 0 ∧ is_u 1 1) as [H0 H1] by done.
  induction j as [|j IH]; intros d Hd.
  - rewrite least_S, !least_0 by (done || by apply next_state_lt). pose proof (weight_nonneg d 0). pose proof (weight_nonneg d 1). lia.
  - rewrite (least_S j), (least_S (S j)) by done.
    pose proof (IH _ (next_state_lt e d 0 He Hd H0)). pose proof (IH _ (next_state_lt e d 1 He Hd H1)). lia.
Qed.
Lemma least_mono i j d : (i ≤ j)%nat → (d < n)%nat → least i !!! d ≤ least j !!! d.
Proof. intros Hij Hd. induction Hij as [|j _ IH]; [done|]. pose proof (least_mono_1 j d Hd). lia. Qed.

Lemma distance_least u : ∀ v s t d, (s < n)%nat → (t < n)%nat → (d < n)%nat → differ s t d →
  bitstring u → bitstring v → length u = length v → least (length u) !!! d ≤ distance (word e s u) (word e t v).
Proof.
  induction u as [|b u IH]; intros [|c v] s t d Hs Ht Hd D Hu Hv Hl; try done.
  - cbn [length]. rewrite least_0 by done. done.
  - apply Forall_cons in Hu as [Hb Hu]. apply Forall_cons in Hv as [Hc Hv]. cbn [word length] in *.
    destruct (next_differ s t d b c Hs Ht Hd Hb Hc D) as [Hbc D'].
    specialize (IH v _ _ _ (next_state_lt e s b He Hs Hb) (next_state_lt e t c He Ht Hc) (next_state_lt e d _ He Hd Hbc) D' Hu Hv ltac:(lia)).
    pose proof (least_branch (length u) d (Z.lxor b c) Hd Hbc). unfold distance in *. cbn [zip_with foldr].
    rewrite (branch_differ s t d b c) by done. lia.
Qed.

Lemma hamming_self l : branch_hamming l l = 0.
Proof. unfold branch_hamming. induction l as [|x l IH]; [done|]. cbn. rewrite Z.lxor_nilpotent. lia. Qed.

Lemma distance_self u : ∀ s, distance (word e s u) (word e s u) = 0.
Proof. induction u as [|b u IH]; intros s; [done|]. specialize (IH (next_state (enc_k e) s b)). unfold distance in *. cbn. rewrite hamming_self. lia. Qed.

(** Two words that part at bit [q] and go on for [j] branches. *)
Lemma words_part j u : ∀ v s q, (s < n)%nat → bitstring u → bitstring v → length u = length v →
  u !! q ≠ v !! q → (q + j < length u)%nat → column_distance j ≤ distance (word e s u) (word e s v).
Proof.
  induction u as [|b u IH]; intros [|c v] s q Hs Hu Hv Hl Hne Hq; try done.
  apply Forall_cons in Hu as [Hb Hu]. apply Forall_cons in Hv as [Hc Hv]. cbn [word length] in *. unfold distance. cbn [zip_with foldr].
  change (foldr Z.add 0 (zip_with branch_hamming ?x ?y)) with (distance x y).
  destruct (decide (b = c)) as [<-|Hbc].
  - rewrite hamming_self. destruct q as [|q]; [done|]. pose proof (IH v _ q (next_state_lt e s b He Hs Hb) Hu Hv ltac:(lia) Hne ltac:(lia)). lia.
  - pose proof (states_gt e He) as H0. assert (differ s s 0) as D by by unfold differ; rewrite Z.lxor_nilpotent.
    assert (Z.lxor b c = 1) as E by (destruct (bit_cases b Hb) as [->| ->], (bit_cases c Hc) as [->| ->]; done).
    destruct (next_differ s s 0 b c Hs Hs H0 Hb Hc D) as [Hx D']. rewrite (branch_differ s s 0 b c) by done. rewrite E in *.
    pose proof (next_state_lt e 0 1 He H0 Hx) as Hn.
    pose proof (distance_least u v _ _ _ (next_state_lt e s b He Hs Hb) (next_state_lt e s c He Hs Hc) Hn D' Hu Hv ltac:(lia)).
    pose proof (least_mono j (length u) _ ltac:(lia) Hn). unfold column_distance. lia.
Qed.

(** Two words that end in the same state may be continued. *)
Lemma words_apart j u v s : (s < n)%nat → bitstring u → bitstring v → length u = length v →
  path (enc_k e) s u = path (enc_k e) s v → u ≠ v → column_distance j ≤ distance (word e s u) (word e s v).
Proof.
  intros Hs Hu Hv Hl Hp Hne. set (z := replicate (S j) 0).
  assert (bitstring z) as Hz by (apply Forall_replicate; done).
  assert (distance (word e s (u ++ z)) (word e s (v ++ z)) = distance (word e s u) (word e s v)) as <-.
  { rewrite !word_app, distance_app by by rewrite !word_length. rewrite <- Hp, distance_self. lia. }
  assert (∃ q, u !! q ≠ v !! q) as (q & Hq).
  { clear -Hl Hne. revert v Hl Hne. induction u as [|b u IH]; intros [|c v] Hl Hne; try done.
    destruct (decide (b = c)) as [<-|Hbc]; [|exists 0%nat; cbn; congruence]. cbn in Hl.
    destruct (IH v ltac:(lia) ltac:(congruence)) as (q & Hq). by exists (S q). }
  assert (q < length u)%nat as Hlt.
  { destruct (decide (q < length u)%nat); [done|]. rewrite !lookup_ge_None_2 in Hq by lia. done. }
  apply (words_part j _ _ s q); [done|by apply Forall_app|by apply Forall_app|rewrite !length_app; lia| |].
  - rewrite !lookup_app_l by lia. done.
  - unfold z. rewrite length_app, length_replicate. lia.
Qed.
End linear.

(** ** Streaming *)
Fixpoint process_all (d : ViterbiDecoder) (xs : list (list Z)) : rust (ViterbiDecoder * list Z) :=
  match xs with
  | [] => Some (d, [])
  | x :: xs => '(d, b) ← process d x; '(d, out) ← process_all d xs; Some (d, match b with Some b => b :: out | None => out end)
  end.
Lemma process_all_snoc xs x : ∀ d d' out, process_all d xs = Some (d', out) →
  process_all d (xs ++ [x]) = ('(d, b) ← process d' x; Some (d, out ++ match b with Some b => [b] | None => [] end)).
Proof.
  induction xs as [|y xs IH]; intros d d' out H.
  - injection H as <- <-. cbn. destruct (process d x) as [[? [?|]]|]; done.
  - cbn in *. destruct (process d y) as [[d1 b]|]; [|done]. cbn in *. destruct (process_all d1 xs) as [[d2 o2]|] eqn:E; [|done].
    injection H as <- <-. rewrite (IH d1 d2 o2 E). destruct (process d2 x) as [[? ?]|]; cbn; [|done]. by destruct b.
Qed.

Lemma trace_take hist : ∀ i s, ∃ l, trace_path hist s = l ++ trace_path (take i hist) s.
Proof.
  induction hist as [|[p b] hist IH]; intros [|i] s; [by exists []..| |]; [by exists (trace_path ((p, b) :: hist) s); rewrite app_nil_r|].
  cbn. destruct (IH i (p !!! s)) as [l ->]. exists l. by rewrite app_assoc.
Qed.
Lemma trace_take_lookup hist i s c : (0 < c ≤ i)%nat → (i ≤ length hist)%nat →
  trace_path (take i hist) s !!! (i - c)%nat = trace_path hist s !!! (length hist - c)%nat.
Proof.
  intros Hc Hi. destruct (trace_take hist i s) as [l E]. pose proof (trace_path_length hist s) as L1.
  pose proof (trace_path_length (take i hist) s) as L2. rewrite length_take in L2. rewrite E, length_app, L2 in L1.
  rewrite E, lookup_total_app_r by lia. f_equal. lia.
Qed.

Lemma holds_trim t hist :
  (0 < traceback_depth t)%nat → Forall (row_of (tb_states t)) hist → (steps t ≤ length hist)%nat → holds t (take (steps t) hist) →
  steps (trim_history t) = Nat.min (steps t) (2 * traceback_depth t) ∧ holds (trim_history t) (take (steps (trim_history t)) hist).
Proof.
  intros Hd Hr Hl (H1 & H2 & H3 & H4). unfold trim_history. case (Nat.ltb_spec (traceback_depth t * 2) (steps t)); intros Hm; [|split; [lia|done]].
  set (x := (traceback_depth t * 2)%nat) in *. set (y := (steps t - x)%nat).
  assert (take (steps t) hist = take x hist ++ drop x (take (steps t) hist)) as E.
  { rewrite <- (take_drop x (take (steps t) hist)) at 1. f_equal. rewrite take_take. f_equal. lia. }
  assert (length (drop x (take (steps t) hist)) = y) as Ly by (rewrite length_drop, length_take; lia).
  assert (Forall (row_of (tb_states t)) (drop x (take (steps t) hist))) as Hr' by by apply Forall_drop.
  rewrite E, fmap_app, reverse_app, concat_app in H3. rewrite E, fmap_app, reverse_app, concat_app in H4.
  assert (∀ {A} (f : list nat * list Z → list A), (∀ r, row_of (tb_states t) r → length (f r) = tb_states t) →
    length (concat (reverse (f <$> drop x (take (steps t) hist)))) = (y * tb_states t)%nat) as Lc.
  { intros A f Hf. rewrite (concat_length (tb_states t)); [by rewrite length_reverse, length_fmap, Ly|].
    apply Forall_reverse, Forall_fmap. eapply Forall_impl; [exact Hr'|]. intros r ?. by apply Hf. }
  pose proof (Lc _ fst ltac:(by intros ? (?&?&?))) as L3. pose proof (Lc _ snd ltac:(by intros ? (?&?&?))) as L4.
  rewrite (proj2 (Nat.leb_le _ _)) by (rewrite H3, length_app; lia). cbn [steps].
  assert (steps t - y = x)%nat as -> by lia. split; [lia|]. unfold holds. cbn [steps tb_states trace_prev_states trace_input_bits].
  split; [rewrite length_take; lia|]. split; [by apply Forall_take|]. split.
  - rewrite H3, drop_app_ge, L3, Nat.sub_diag by lia. done.
  - rewrite H4, drop_app_ge, L4, Nat.sub_diag by lia. done.
Qed.

(** Bits whose code symbols differ least from the received ones. *)
Definition most_likely (e : Encoder) (xs : list (list Z)) (u : list Z) : Prop :=
  bitstring u ∧ length u = length xs ∧
  ∀ v, bitstring v → length v = length xs → branch_hamming (encode_all e u).2 (concat xs) ≤ branch_hamming (encode_all e v).2 (concat xs).

Section stream.
Context (e : Encoder) (He : encoder_ok e) (HN : room e) (Hw : window e = 0).
Abbreviation depth := (5 * Z.to_nat (enc_k e))%nat.

Lemma best_state_spec d xs hist o : decoded e d xs hist o → (best_state d < states e)%nat ∧ most_likely e xs (trace_path hist (best_state d)).
Proof.
  intros (_ & _ & _ & Hx & (L1 & L2 & H) & (s0 & Hs0 & E0) & Ho).
  assert (path_metrics d ≠ []) as Hne by (pose proof (states_gt e He); destruct (path_metrics d); [cbn in L1; lia|done]).
  destruct (list_min_spec _ Hne) as [Hmin Hle]. destruct (first_index_spec _ _ Hmin) as [B1 B2]. fold (best_state d) in B1, B2.
  rewrite L1 in B1. split; [done|].
  assert (path_metrics d !!! best_state d ≤ 0) as Hb0.
  { rewrite B2, <- E0. apply Hle. apply list_elem_of_lookup_2 with s0. apply list_lookup_lookup_total_lt. by rewrite L1. }
  destruct (H _ B1) as [[E _]|(Hr & V1 & V2 & V3 & _)]; [rewrite E in Hb0; done|].
  split; [done|]. rewrite trace_path_length. split; [done|]. intros v Hv Hl.
  assert (state_of e = 0%nat) as Es by by unfold state_of; rewrite Hw.
  destruct (encode_all_word _ e He V1) as [-> _], (encode_all_word v e He Hv) as [-> _]. rewrite Es, !distance_concat by (done || by rewrite trace_path_length).
  pose proof (path_lt e v 0 He (states_gt e He) Hv) as Hlt.
  destruct (H _ Hlt) as [[_ HF]|(? & _ & _ & _ & HC)]; [by destruct (HF v)|]. specialize (HC v Hv Hl eq_refl). lia.
Qed.

Lemma decoded_trim d xs hist o : decoded e d xs hist o →
  let d' := with_tb d (trim_history (tb d)) in
  steps (tb d') = Nat.min (steps (tb d)) (2 * depth) ∧ decoded e d' xs hist o.
Proof.
  intros ([D1 D2 D3 D4 D5] & Hr & Ht & H). cbn zeta.
  assert (steps (tb d) ≤ length hist)%nat as Hl by (destruct Ht as [E _]; rewrite length_take in E; lia).
  destruct (holds_trim (tb d) hist) as [T1 T2]; [unfold encoder_ok in He; lia|by rewrite D2|done..|].
  cbn [with_tb tb]. rewrite T1, D3. split; [done|]. split; [|split; [done|split; [|done]]].
  - eapply same_trellis_of; [split; [exact D1|exact D2|exact D3|exact D4|exact D5]|]. apply trim_same.
  - cbn [with_tb tb]. exact T2.
Qed.

Lemma process_decoded d xs hist o x : symbol_ok e x → decoded e d xs hist o → steps (tb d) = Nat.min (length xs) (2 * depth) →
  ∃ d' row o', decoded e d' (xs ++ [x]) (row :: hist) o' ∧ steps (tb d') = Nat.min (S (length xs)) (2 * depth) ∧
    process d x = Some (d', if (depth <=? S (length xs))%nat then Some (trace_path (row :: hist) (best_state d') !!! (S (length xs) - depth)%nat) else None).
Proof.
  intros Hx HD Hs. destruct (stream_step_decoded e He HN d xs hist o x Hx HD) as (S1 & row & o' & HD1).
  destruct (decoded_trim _ _ _ _ HD1) as [S2 HD2]. exists (with_tb (stream_step d x) (trim_history (tb (stream_step d x)))), row, o'.
  split; [done|]. assert (0 < depth)%nat by (unfold encoder_ok in He; lia).
  assert (steps (tb (with_tb (stream_step d x) (trim_history (tb (stream_step d x))))) = Nat.min (S (length xs)) (2 * depth)) as S3 by (rewrite S2, S1, Hs; lia).
  split; [done|]. unfold process.
  assert (forallb (λ b, b <=? 1) x = true) as ->.
  { apply forallb_forall. intros b Hb. destruct Hx as [_ Hx]. unfold bitstring in Hx. rewrite Forall_forall in Hx. apply list_elem_of_In, Hx in Hb. unfold is_u in Hb. apply Z.leb_le. lia. }
  set (d' := with_tb _ _) in *. pose proof HD2 as ([D1 D2 D3 D4 D5] & _ & Ht & _ & (_ & L2 & _) & _). rewrite D3, S3.
  f_equal. f_equal. rewrite length_app in L2. cbn [length] in L2.
  case (Nat.leb_spec depth (S (length xs))); intros Hdep; [|by rewrite (proj2 (Nat.leb_gt _ _)) by lia].
  rewrite (proj2 (Nat.leb_le _ _)) by lia. f_equal.
  destruct (best_state_spec d' _ _ _ HD2) as [Hb _].
  pose proof (traceback_bit_spec _ _ (best_state d') depth Ht ltac:(by rewrite D2)) as E. rewrite length_take, S3 in E. cbn [length] in E.
  replace (Nat.min (Nat.min (S (length xs)) (2 * depth)) (S (length hist))) with (Nat.min (S (length xs)) (2 * depth)) in E by lia.
  rewrite E by lia. rewrite trace_take_lookup by (cbn [length]; lia). f_equal. cbn [length]. lia.
Qed.

Lemma finish_decoded d xs hist o : decoded e d xs hist o → steps (tb d) = Nat.min (length xs) (2 * depth) →
  finish d = drop (length xs - (depth - 1)) (trace_path hist (best_state d)).
Proof.
  intros HD Hs. destruct (best_state_spec d xs hist o HD) as [Hb _]. pose proof HD as ([D1 D2 D3 D4 D5] & _ & Ht & _ & (_ & L2 & _) & _).
  assert (0 < depth)%nat by (unfold encoder_ok in He; lia). pose proof (trace_path_length hist (best_state d)) as Lt.
  unfold finish, trace_finish. rewrite D3, Hs.
  case (Nat.eqb_spec (Nat.min (length xs) (2 * depth)) 0); intros E0; [by rewrite drop_ge by lia|].
  set (r := if (depth <=? Nat.min (length xs) (2 * depth))%nat then (depth - 1)%nat else Nat.min (length xs) (2 * depth)).
  assert (r = Nat.min (length xs) (depth - 1)) as Er by (unfold r; case (Nat.leb_spec depth (Nat.min (length xs) (2 * depth))); lia).
  apply list_eq_same_length with (n := r); [rewrite length_drop; lia|unfold down_from; by rewrite length_fmap, length_reverse, length_seq|].
  intros i a b Hi Ha Hbb. rewrite lookup_drop in Hbb. apply list_lookup_total_correct in Hbb. rewrite <- Hbb.
  unfold down_from in Ha. rewrite list_lookup_fmap, reverse_lookup, length_seq, lookup_seq_lt in Ha by (rewrite ?length_seq; lia).
  apply fmap_Some in Ha as (c & [= <-] & ->).
  pose proof (traceback_bit_spec _ _ (best_state d) (1 + (r - S i)) Ht ltac:(by rewrite D2)) as E. rewrite length_take, Hs in E.
  replace (Nat.min (Nat.min (length xs) (2 * depth)) (length hist)) with (Nat.min (length xs) (2 * depth)) in E by lia.
  change (S (r - S i)) with (1 + (r - S i))%nat. rewrite E by lia. rewrite trace_take_lookup by lia. f_equal. lia.
Qed.
End stream.

Lemma stream_decoded e d xs : encoder_ok e → room e → window e = 0 → UsedDecoder e d → Forall (symbol_ok e) xs →
  ∃ d' out hist o, process_all (reset_trellis d) xs = Some (d', out) ∧ decoded e d' xs hist o ∧
    steps (tb d') = Nat.min (length xs) (2 * (5 * Z.to_nat (enc_k e))) ∧
    length out = (length xs - (5 * Z.to_nat (enc_k e) - 1))%nat ∧
    ∀ t, (5 * Z.to_nat (enc_k e) ≤ t ≤ length xs)%nat →
      ∃ u, most_likely e (take t xs) u ∧ out !! (t - 5 * Z.to_nat (enc_k e))%nat = u !! (t - 5 * Z.to_nat (enc_k e))%nat.
Proof.
  intros He HN Hw Hd. set (D := (5 * Z.to_nat (enc_k e))%nat). assert (0 < D)%nat as HD by (unfold D, encoder_ok in *; lia).
  induction xs as [|x xs IH] using rev_ind; intros Hx.
  - exists (reset_trellis d), [], [], 0. split; [done|]. split; [apply reset_decoded; [done|by apply used_trellis]|]. split; [done|]. split; [done|].
    intros t Ht. cbn in Ht. lia.
  - apply Forall_app in Hx as [Hx Hx']. rewrite Forall_singleton in Hx'. destruct (IH Hx) as (d1 & out & hist & o & E1 & E2 & E3 & E4 & E5).
    destruct (process_decoded e He HN Hw d1 xs hist o x Hx' E2 E3) as (d2 & row & o' & F1 & F2 & F3). fold D in F2, F3.
    rewrite (process_all_snoc xs x _ _ _ E1), F3. cbn [mbind option_bind]. eexists d2, _, (row :: hist), o'. split; [done|]. split; [done|].
    rewrite length_app, Nat.add_1_r. split; [done|]. pose proof F1 as (_ & _ & _ & _ & (_ & L2 & _) & _). rewrite length_app, Nat.add_1_r in L2. cbn [length] in L2.
    destruct (best_state_spec e He Hw d2 _ _ _ F1) as [_ HM].
    case (Nat.leb_spec D (S (length xs))); intros HDl.
    + split; [rewrite length_app; cbn; lia|]. intros t Ht. destruct (decide (t ≤ length xs)%nat) as [Hle|Hgt].
      * destruct (E5 t ltac:(lia)) as (u & Hu & Eu). exists u. rewrite take_app_le by lia. split; [done|]. by rewrite lookup_app_l by lia.
      * assert (t = S (length xs)) as -> by lia. exists (trace_path (row :: hist) (best_state d2)).
        rewrite take_ge by (rewrite length_app; cbn; lia). split; [done|].
        rewrite lookup_app_r by lia. rewrite E4. replace (S (length xs) - D - (length xs - (D - 1)))%nat with 0%nat by lia.
        symmetry. apply list_lookup_lookup_total_lt. rewrite trace_path_length. cbn [length]. lia.
    + rewrite app_nil_r. split; [lia|]. intros t Ht. lia.
Qed.

(** C7: The streaming decoder.  From a reset, whatever was decoded before, it takes symbols for ever without
    panic and without overflow (the metrics stay within N (K - 1) of each other); from the
    [5 K]-th symbol on it emits a bit per symbol, each the bit of that age in
    a most likely sequence for all the symbols received so far, and [finish] returns the bits that are due. *)
Theorem viterbi_stream e d xs :
  encoder_ok e → room e → window e = 0 → UsedDecoder e d → Forall (symbol_ok e) xs →
  let depth := (5 * Z.to_nat (enc_k e))%nat in
  ∃ d' out, process_all (reset_trellis d) xs = Some (d', out) ∧ length out = (length xs - (depth - 1))%nat ∧
    (∀ t, (depth ≤ t ≤ length xs)%nat → ∃ u, most_likely e (take t xs) u ∧ out !! (t - depth)%nat = u !! (t - depth)%nat) ∧
    (∃ u, most_likely e xs u ∧ finish d' = drop (length xs - (depth - 1)) u) ∧
    ∀ m, m ∈ path_metrics d' → m = INF_METRIC ∨ 0 ≤ m ≤ Z.of_nat (length (generators e)) * (enc_k e - 1).
Proof.
  intros He HN Hw Hd Hx. cbn zeta. destruct (stream_decoded e d xs He HN Hw Hd Hx) as (d' & out & hist & o & E1 & E2 & E3 & E4 & E5).
  exists d', out. split; [done|]. split; [done|]. split; [done|]. split.
  - exists (trace_path hist (best_state d')). split; [by apply (best_state_spec e He Hw d' xs hist o)|by apply (finish_decoded e He Hw d' xs hist o)].
  - intros y Hy. apply list_elem_of_lookup in Hy as (s & Hs). pose proof (lookup_lt_Some _ _ _ Hs) as Hlt. apply list_lookup_total_correct in Hs. rewrite <- Hs.
    pose proof E2 as (_ & _ & _ & _ & HS & Hlow & Ho). pose proof HS as (L1 & _ & H). rewrite L1 in Hlt.
    destruct (H s Hlt) as [[E _]|(Hr & _)]; [by left|right]. split; [lia|].
    apply (survivors_bound e He xs hist (path_metrics d') o s); done || lia.
Qed.
Lemma viterbi_stream_witness :
  let e := new_encoder 3 [7; 5] in
  let xs := replicate 20 [1; 1] in
  ∃ d' out, process_all (reset_trellis (new_decoder e)) xs = Some (d', out) ∧ length out = 6%nat ∧
    ∃ u, most_likely e xs u ∧ finish d' = drop 6 u.
Proof.
  intros e xs. destruct (viterbi_stream e (new_decoder e) xs) as (d' & out & E & L & _ & F & _);
    [by vm_compute|reflexivity|reflexivity|constructor|by repeat constructor|]. exists d', out. split; [exact E|]. split; [exact L|exact F].
Defined.

(** ** Error correction *)
(** The codes of the standard and the errors they correct. *)
Definition k9_codes : list (Encoder * Z) := [(get_1_2_k9_encoder, 5); (get_1_3_k9_encoder, 8); (get_1_4_k9_encoder, 11)].
(** 45 branches, the traceback depth, reach the free distance: 12, 18 and 24. *)
Lemma k9_distance : Forall (λ c : Encoder * Z, (column_distance c.1 44 =? 2 * c.2 + 2) = true) k9_codes.
Proof. repeat (apply Forall_cons; split; [vm_compute; reflexivity|]). apply Forall_nil. exact I. Qed.
Lemma k9_ok e t : (e, t) ∈ k9_codes → encoder_ok e ∧ room e ∧ window e = 0 ∧ enc_k e = 9 ∧ 2 * t < column_distance e 44.
Proof.
  intros Hc. pose proof (proj1 (Forall_forall _ _) k9_distance _ Hc) as HF%Z.eqb_eq. cbn [fst snd] in HF.
  unfold k9_codes in Hc. rewrite !elem_of_cons, elem_of_nil in Hc. unfold encoder_ok.
  destruct Hc as [[= -> ->]|[[= -> ->]|[[= -> ->]|[]]]]; (split; [cbn; lia|]); do 3 (split; [done|]); lia.
Qed.
Lemma hamming_triangle a b c : bitstring a → bitstring b → bitstring c → length a = length b → length b = length c →
  branch_hamming a c ≤ branch_hamming a b + branch_hamming b c.
Proof.
  unfold branch_hamming. revert b c. induction a as [|x a IH]; intros [|y b] [|z c] Ha Hb Hc L1 L2; try done.
  apply Forall_cons in Ha as [Hx Ha]. apply Forall_cons in Hb as [Hy Hb]. apply Forall_cons in Hc as [Hz Hc]. cbn in *.
  specialize (IH b c Ha Hb Hc ltac:(lia) ltac:(lia)).
  assert (Z.lxor x z ≤ Z.lxor x y + Z.lxor y z); [|lia].
  by destruct (bit_cases x Hx) as [->| ->], (bit_cases y Hy) as [->| ->], (bit_cases z Hz) as [->| ->].
Qed.
Lemma hamming_sym a b : branch_hamming a b = branch_hamming b a.
Proof. unfold branch_hamming. f_equal. revert b. induction a as [|x a IH]; intros [|y b]; try done. cbn. by rewrite IH, Z.lxor_comm. Qed.
Lemma word_ok e u : ∀ s, Forall (symbol_ok e) (word e s u).
Proof. induction u as [|b u IH]; intros s; constructor; [|done]. split; [apply branch_length|apply encode_from_window_bits]. Qed.
Lemma symbols_bits e xs : Forall (symbol_ok e) xs → bitstring (concat xs) ∧ length (concat xs) = (length xs * length (generators e))%nat.
Proof.
  intros H. split; [|apply concat_length; eapply Forall_impl; [exact H|by intros ? []]].
  induction H as [|x xs [_ Hx] _ IH]; [constructor|]. apply Forall_app. done.
Qed.

Lemma words_close e u v xs : Forall (symbol_ok e) xs → length xs = length u → length v = length xs →
  distance (word e 0 u) (word e 0 v) ≤ branch_hamming (concat (word e 0 u)) (concat xs) + branch_hamming (concat (word e 0 v)) (concat xs).
Proof.
  intros Hx Hl Hv. rewrite <- distance_concat by (try apply word_ok; rewrite ?word_length; congruence).
  destruct (symbols_bits e xs Hx) as [X1 X2], (symbols_bits e _ (word_ok e v 0)) as [A1 A2], (symbols_bits e _ (word_ok e u 0)) as [B1 B2].
  rewrite word_length in A2, B2. rewrite (hamming_sym (concat (word e 0 v)) (concat xs)).
  apply hamming_triangle; [done..|congruence|congruence].
Qed.

Lemma path_zeros e j : encoder_ok e → ∀ s, (s < states e)%nat → Z.of_nat (path (enc_k e) s (replicate j 0)) = Z.of_nat s / 2 ^ Z.of_nat j.
Proof.
  intros He. induction j as [|j IH]; intros s Hs; [cbn; by rewrite Z.div_1_r|].
  assert (is_u 1 0) as H0 by done. cbn [replicate path]. rewrite IH by (by apply next_state_lt).
  rewrite next_state_val by done. rewrite Z.mul_0_l, Z.add_0_r, Nat2Z.inj_succ, Z.pow_succ_r, Z.div_div by lia. done.
Qed.

(** What is likelier than the bits that were sent is the same, [j] bits from the end. *)
Lemma code_corrects e t j u v xs q :
  encoder_ok e → window e = 0 → 2 * t < column_distance e j → bitstring u → most_likely e xs v → Forall (symbol_ok e) xs → length xs = length u →
  branch_hamming (encode_all e u).2 (concat xs) ≤ t → (q + j < length u)%nat → u !! q = v !! q.
Proof.
  intros He Hw Hfree Hu (Hv & Lv & HM) Hx Hl Ht Hq. destruct (decide (u !! q = v !! q)) as [|Hne]; [done|exfalso].
  assert (state_of e = 0%nat) as E0 by by unfold state_of; rewrite Hw.
  specialize (HM u Hu ltac:(done)). destruct (encode_all_word u e He Hu) as [U _], (encode_all_word v e He Hv) as [V _]. rewrite E0 in U, V. rewrite U, V in *.
  pose proof (words_part e He j u v 0 q (states_gt e He) Hu Hv ltac:(congruence) Hne Hq) as Hd.
  pose proof (words_close e u v xs Hx ltac:(done) ltac:(done)). lia.
Qed.

Lemma prefix_errors e u xs i : encoder_ok e → window e = 0 → bitstring u → Forall (symbol_ok e) xs → length xs = length u →
  branch_hamming (encode_all e (take i u)).2 (concat (take i xs)) ≤ branch_hamming (encode_all e u).2 (concat xs).
Proof.
  intros He Hw Hu Hx Hl. assert (state_of e = 0%nat) as E0 by by unfold state_of; rewrite Hw.
  destruct (encode_all_word u e He Hu) as [-> _], (encode_all_word (take i u) e He ltac:(by apply Forall_take)) as [-> _]. rewrite E0.
  rewrite (distance_concat e u) by done. rewrite distance_concat by (by apply Forall_take || (rewrite !length_take; lia)).
  rewrite <- (take_drop i u) at 2. rewrite <- (take_drop i xs) at 2. rewrite word_app, distance_app by (rewrite word_length, !length_take; lia).
  pose proof (distance_range e (drop i u) (path (enc_k e) 0 (take i u)) (drop i xs) ltac:(by apply Forall_drop) ltac:(rewrite !length_drop; lia) ltac:(by apply Forall_drop)). lia.
Qed.

Lemma block_corrects e t j d u xs :
  encoder_ok e → room e → window e = 0 → UsedDecoder e d → 2 * t < column_distance e j → bitstring u → Forall (symbol_ok e) xs → length xs = length u →
  branch_hamming (encode_all e u).2 (concat xs) ≤ t →
  (decode_block_from_state d xs (state_of (encode_all e u).1)).2 = u.
Proof.
  intros He HN Hw Hd Hfree Hu Hx Hl Ht. assert (state_of e = 0%nat) as E0 by by unfold state_of; rewrite Hw.
  destruct (encode_all_word u e He Hu) as [U1 U2]. rewrite E0 in U1, U2. rewrite U2.
  destruct (decode_block_spec e d xs _ u He HN (used_trellis e d Hd) Hx Hu ltac:(done) eq_refl) as (O1 & O2 & O3 & O4).
  set (out := (decode_block_from_state d xs _).2) in *. specialize (O4 u Hu ltac:(done) eq_refl).
  destruct (decide (u = out)) as [|Hne]; [done|exfalso].
  pose proof (words_apart e He j u out 0 (states_gt e He) Hu O1 ltac:(congruence) ltac:(congruence) Hne).
  pose proof (words_close e u out xs Hx ltac:(done) ltac:(done)). rewrite <- !distance_concat in O4 by congruence. rewrite U1 in Ht. lia.
Qed.

Lemma stream_corrects e t d u xs :
  let j := (5 * Z.to_nat (enc_k e) - 1)%nat in
  encoder_ok e → room e → window e = 0 → UsedDecoder e d → 2 * t < column_distance e j → bitstring u → Forall (symbol_ok e) xs → length xs = length u →
  branch_hamming (encode_all e u).2 (concat xs) ≤ t →
  ∃ d', process_all (reset_trellis d) xs = Some (d', take (length u - j) u).
Proof.
  intros j He HN Hw Hd Hfree Hu Hx Hl Ht. assert (0 < 5 * Z.to_nat (enc_k e))%nat as HD by (unfold encoder_ok in He; lia).
  destruct (stream_decoded e d xs He HN Hw Hd Hx) as (d' & out & hist & o & E1 & _ & _ & L & E5). exists d'. rewrite E1. do 2 f_equal.
  set (D := (5 * Z.to_nat (enc_k e))%nat) in *.
  apply list_eq_same_length with (n := (length u - j)%nat); [rewrite length_take; lia|rewrite <- Hl; exact L|].
  intros q x y Hq Ex Ey. destruct (E5 (q + D)%nat ltac:(lia)) as (v & HM & Ev). replace (q + D - D)%nat with q in Ev by lia.
  rewrite Ev in Ex. rewrite lookup_take_lt in Ey by done.
  assert (take (q + D) u !! q = v !! q) as E; [|rewrite lookup_take_lt in E by lia; congruence].
  apply (code_corrects e t j _ _ (take (q + D) xs)); [done|done|done|by apply Forall_take|done|by apply Forall_take|rewrite !length_take; lia| |rewrite length_take; lia].
  pose proof (prefix_errors e u xs (q + D) He Hw Hu Hx Hl). lia.
Qed.

Lemma flushed e data : encoder_ok e → window e = 0 → bitstring data →
  state_of (encode_all e (data ++ replicate (Z.to_nat (enc_k e - 1)) 0)).1 = 0%nat.
Proof.
  intros He Hw Hu. assert (state_of e = 0%nat) as E0 by by unfold state_of; rewrite Hw. pose proof He as He'. unfold encoder_ok in He'.
  destruct (encode_all_word (data ++ replicate (Z.to_nat (enc_k e - 1)) 0) e He) as [_ ->]; [apply Forall_app; split; [done|by apply Forall_replicate]|].
  rewrite E0. pose proof (path_lt e data 0 He (states_gt e He) Hu) as Hlt. destruct (states_pow e He) as (S1 & _).
  rewrite path_app. apply Nat2Z.inj. rewrite path_zeros, Z2Nat.id by (done || lia). apply Z.div_small. lia.
Qed.

(** C4: Error correction.  With the codes of the standard of rates 1/2, 1/3 and 1/4, the decoders, whatever they decoded before,
    return the bits that were sent if no more than 5, 8 and 11 code symbols were
    received wrong, wherever they are: the block decoder all of them, given the state they end in (0 after eight zeros), and the
    streaming decoder, whose traceback goes back 45 steps, all but the last 44. *)
Theorem viterbi_corrects e t d u xs :
  (e, t) ∈ k9_codes → UsedDecoder e d → bitstring u → Forall (symbol_ok e) xs → length xs = length u →
  branch_hamming (encode_all e u).2 (concat xs) ≤ t →
  (decode_block_from_state d xs (state_of (encode_all e u).1)).2 = u ∧
  (∀ data, u = data ++ replicate 8 0 → state_of (encode_all e u).1 = 0%nat) ∧
  ∃ d', process_all (reset_trellis d) xs = Some (d', take (length u - 44) u).
Proof.
  intros Hc Hd Hu Hx Hl Ht. destruct (k9_ok e t Hc) as (He & HN & Hw & Hk & HF).
  split; [by apply (block_corrects e t 44)|]. split.
  - intros data ->. apply Forall_app in Hu as [Hu _]. pose proof (flushed e data He Hw Hu) as E. by rewrite Hk in E.
  - pose proof (stream_corrects e t d u xs) as H. rewrite Hk in H. by apply H.
Qed.
Lemma viterbi_corrects_witness :
  let u := [1; 0; 1; 1; 0; 0; 1; 0] ++ replicate 8 0 in
  let xs := [[0; 1]; [1; 1]; [0; 0]; [1; 0]; [0; 1]; [1; 0]; [0; 1]; [0; 1]; [1; 0]; [0; 1]; [0; 0]; [0; 1]; [0; 0]; [1; 0]; [1; 1]; [0; 1]] in
  branch_hamming (encode_all get_1_2_k9_encoder u).2 (concat xs) = 5 ∧
  (decode_block_from_state (new_decoder get_1_2_k9_encoder) xs (state_of (encode_all get_1_2_k9_encoder u).1)).2 = u ∧
  (∀ data, u = data ++ replicate 8 0 → state_of (encode_all get_1_2_k9_encoder u).1 = 0%nat) ∧
  ∃ d', process_all (reset_trellis (new_decoder get_1_2_k9_encoder)) xs = Some (d', take (length u - 44) u).
Proof.
  intros u xs. split; [by vm_compute|].
  apply (viterbi_corrects get_1_2_k9_encoder 5 (new_decoder get_1_2_k9_encoder) u xs);
    [by left|constructor|by repeat constructor|by repeat constructor|reflexivity|by vm_compute].
Defined.
